(* ===== verification/_CoqProject ===== *)
-Q . S2P
Prelude.v
Bytes.v
Params.v
CString.v
Spinlock.v
Sleeplock.v
Kalloc.v
Asm.v
Segments.v
Pipe.v
Proc.v
ProcSpec.v
Machine.v
Trap.v
TrapSpec.v
Apic.v
Bio.v
Cache.v
Log.v
Txn.v
Fs.v
FsSpec.v
FsFile.v
FsProps.v
Inodes.v
Dirs.v
Links.v
DirProps.v
Mkfs.v
MkfsSpec.v
MkfsProps.v
Vm.v
Uvm.v
VmProps.v
Loaduvm.v
ExecMem.v
File.v
Sysfile.v
FileSpec.v
FileProps.v
Sh.v
ShPrint.v
ShLine.v
Grep.v
Printf.v
Kbd.v
Console.v
ConsoleSpec.v
Exec.v
ExecSpec.v
ExecProps.v
LogTx.v
Umalloc.v
Mp.v
Ide.v
User.v
Programs.v
ProgramSpec.v
ShRun.v
ShRunSpec.v
Bootmain.v
Startup.v
