(* ===== verification/Prelude.v ===== *)
(** * A verification development for xv6

    The program is the x86 teaching kernel xv6 with its user programs, in C under [src/].
    This library models its kernel (locks, memory, processes, disk, file system, console,
    system calls), its disk driver and the user programs, and proves what makes them correct.

    ** How code becomes definitions

    A C function that changes state is a computation [M S A := S -> res S A] of this file:
    from a state it returns a value and a new state ([Ret]), calls [panic] ([Panic]), or goes
    to sleep on a channel ([Sleep]).  [x <- m ;; k] runs one computation after another, and
    [zoom] runs a computation on a part of the state, so that a component's code is written
    on its own record and composed with the others as the C code does by calling it.
    Integers are [Z] and every operation that can leave its C type is wrapped ([u32], [i32],
    [u8], ...).  Memory is a function from addresses to bytes wherever the code works through
    pointers ([kalloc.c], [vm.c], [string.c], [umalloc.c]); disk blocks are lists of bytes and
    structures on them are read and written at their offsets ([Bytes.v]).  A loop that is not
    bounded by its data takes fuel, is given a bound computed from the state, and reports an
    exhausted bound as a panic of its own; the theorems show that panic away.

    ** The files

    Foundations.
    - [Prelude.v]: integers, the computations, loops, and [keeps], the framework for what a
      computation leaves alone, with its hint database.
    - [Bytes.v], [Params.v]: layouts and constants ([param.h], [fs.h], [buf.h], [stat.h]).
    - [CString.v]: [string.c] and the string functions of [ulib.c].

    Locks and memory.
    - [Spinlock.v]: [spinlock.c] on several processors.  [mutual_exclusion] is proved for all
      interleavings of the accesses to the lock word.  Above it every component uses [Klock],
      a lock as one kernel thread sees it ([Sleeplock.v]).
    - [Sleeplock.v]: [sleeplock.c], with the processes that wait.
    - [Kalloc.v]: [kalloc.c], the free list threaded through the pages; [pages_conserved].
    - [Vm.v], [Uvm.v], [VmProps.v]: [vm.c], page tables as words in the same memory.  The
      theorems say what [allocuvm], [copyuvm], [copyout] and [freevm] map, copy and return,
      also when memory runs out half way.  [Loaduvm.v]: [loaduvm] against the interface of a
      file that can be read, and [clearpteu].
    - [Asm.v]: [swtch.S], [trapasm.S] and [vectors.pl], as instructions on registers and
      memory.  A context switch comes back to the registers it left; a trap gives the
      interrupted program all its registers back.
    - [Segments.v]: segment and gate descriptors ([mmu.h]), [seginit], [switchuvm], [tvinit],
      and what the processor reads in them.
    - [Pipe.v]: [pipe.c]; all interleavings of readers and writers implement a bounded queue.

    Processes.
    - [Proc.v]: [proc.c].  [ProcSpec.v]: the abstract process table.  [Machine.v]: the code on
      any number of processors refines it; no process runs twice; every child has a living
      parent, and nobody sleeps in [wait] beside a zombie child.

    - [Trap.v], [TrapSpec.v]: [trap.c], the dispatch of [syscall.c] and [sysproc.c].  A killed
      process never returns to user mode; a fault ends the process that made it; [sleep(n)]
      lasts [n] ticks.

    The file system, from the disk up.
    - [Bio.v], [Cache.v]: [bio.c] over [memide.c].  The cache behaves as the array of blocks.
    - [Ide.v]: [ide.c], the driver of the real disk.  Over any drive that keeps its protocol,
      requests are served in the order of the queue, each with the right block.
    - [Log.v], [Txn.v]: [log.c].  [crash_safe]: a crash after any number of disk writes
      recovers to the state after a prefix of the transactions.  [log_space_reserved]: what
      [begin_op] reserves is enough, if the log is large enough.
    - [Fs.v], [FsSpec.v], [FsFile.v], [FsProps.v]: [fs.c] over the interface [Blocks], whose
      contract [BlocksSpec] the log fulfils.  Allocator, [readi], [writei].
    - [Inodes.v], [Dirs.v], [Links.v], [DirProps.v]: the inode cache with its references and
      locks, directories as maps from names to inodes, path lookup and [dirlink] against them.
    - [Mkfs.v], [MkfsSpec.v], [MkfsProps.v]: [mkfs.c], the program that makes the first image.
      What it writes is a file system that satisfies the invariant of [Links.v].
    - [File.v], [Sysfile.v], [FileSpec.v], [FileProps.v]: [file.c], [sysfile.c] and the
      argument functions of [syscall.c].  Reference counts, checked arguments, the results of
      [open] and [pipe].

    Programs.
    - [Exec.v], [ExecMem.v], [ExecSpec.v], [ExecProps.v]: [exec.c], on all components above
      together.  [ExecSpec.program] computes the image of a program without page tables;
      [exec_correct] shows that [exec] makes it, or fails and leaves everything as it was, for
      any [begin_op] and [end_op] with the contract [TxSpec].  [LogTx.v]: those of [log.c] have
      it, so the theorem holds on the real log ([exec_on_log]).

    The machine.
    - [Bootmain.v]: [bootmain.c]; the boot loader puts the kernel where its headers say.
    - [Mp.v]: [mp.c], the search for the processors in the tables of the firmware.
    - [Apic.v]: [lapic.c], [ioapic.c] and [picirq.c], over the registers of the devices: which
      interrupt goes to which processor, and a date that the clock really showed.
    - [Startup.v]: [mycpu], [getcallerpcs], the first page table of [main.c], and [uart.c] at
      the level of its registers.

    The console.
    - [Kbd.v], [Console.v], [ConsoleSpec.v]: [kbd.c], [console.c] and [uart.c].  The circular
      input buffer implements a line editor; what is typed is what is read; [cprintf].

    User programs.
    - [User.v]: a program as a tree of system calls, run under any answers of the kernel.
    - [Programs.v], [ProgramSpec.v]: [cat.c], [wc.c], [echo.c], [ls.c], [grep.c], [ln.c],
      [mkdir.c], [rm.c], [kill.c], [zombie.c] and [init.c], and what each of them prints and
      asks of the kernel, as a function of its arguments and of the files it reads.
    - [Sh.v], [ShPrint.v], [ShLine.v]: the parser of [sh.c] terminates on every line, reads
      back every printed command, and treats all blanks alike.
    - [ShRun.v], [ShRunSpec.v]: the rest of [sh.c].  The processes the shell makes are those
      of the meaning of the command, with the descriptors connected as it says.
    - [Umalloc.v]: [umalloc.c]; allocated blocks never overlap and nothing is lost.
    - [Printf.v], [Grep.v]: [printf.c] and the matcher and line loop of [grep.c].

    ** Bounds and fuel

    The loops over tables run over their constant sizes ([NPROC], [NFILE], [NBUF], ...).  The
    walks along the ring of buffers have fuel [NBUF + 1], the loops of [vm.c] one turn per
    page of the range, the walks of [umalloc.c] the size of the process, the parser of
    [sh.c] the length of the line, each shown to be enough.  [console.c] and [uart.c] take as
    many characters as the device has.  [iappend] of [mkfs.c] has one turn per byte.
    [idewait] polls as often as the drive may be busy, the walk to the end of the disk queue
    has one turn per buffer, [mpinit] one per entry of the table.  The reading loops of the
    user programs have one turn per byte and one for the end, the shell one per line, and
    [runcmd] one per node of the command.  [readseg] of the boot loader has one turn per
    sector, the loop over the program headers one per header; the loop of [cmostime] ends when
    the clock has stood still for two of its turns.

    ** Not modelled

    Assembly that sets up the processor or enters the kernel: [bootasm.S], [entry.S],
    [entryother.S], [initcode.S], [usys.S].  [Proc.v] does not run the instructions of [Asm.v]:
    there [swtch] appears as the points where a process gives up the processor and goes on.
    The processor of [Asm.v] does not advance [eip] from one instruction to the next, checks no
    segments and has no paging; a frame lies in one flat memory.  [main.c] but for its
    page table: [main] is the list of initialisers in order, and [startothers] waits for
    processors that run assembly.  [procdump], which prints.  The tests ([usertests.c],
    [stressfs.c], [forktest.c]).  Sizes of the kernel's stacks, and timing. *)

From Stdlib Require Export ZArith Lia.
From stdpp Require Export base list list_numbers gmap strings functions.
Export stdpp.list.

#[global] Open Scope Z_scope.
#[global] Open Scope list_scope.

#[global] Arguments Z.testbit : simpl never.
#[global] Arguments Z.land : simpl never.
#[global] Arguments Z.lor : simpl never.
#[global] Arguments Z.lnot : simpl never.
#[global] Arguments Z.modulo : simpl never.
#[global] Arguments Z.div : simpl never.

(** ** Machine integers

    [types.h] has [uint], [ushort] and [uchar]; [int] and [short] are the signed types of
    the same widths.  A value of such a type is a [Z] in its range and every operation that
    can leave the range is followed by one of these wrap-around functions. *)

Abbreviation W8 := 256 (only parsing).
Abbreviation W16 := 65536 (only parsing).
Abbreviation W32 := 4294967296 (only parsing).

Definition u8 (z : Z) : Z := z mod W8.
Definition u16 (z : Z) : Z := z mod W16.
Definition u32 (z : Z) : Z := z mod W32.
Definition i16 (z : Z) : Z := (z + 32768) mod W16 - 32768.
Definition i32 (z : Z) : Z := (z + 2147483648) mod W32 - 2147483648.

Lemma u32_id z : 0 <= z < W32 -> u32 z = z.
Proof. intros. by apply Z.mod_small. Qed.
Lemma u32_range z : 0 <= u32 z < W32.
Proof. by apply Z.mod_pos_bound. Qed.
Lemma u8_id z : 0 <= z < W8 -> u8 z = z.
Proof. intros. by apply Z.mod_small. Qed.
Lemma u8_range z : 0 <= u8 z < W8.
Proof. by apply Z.mod_pos_bound. Qed.
Lemma u16_id z : 0 <= z < W16 -> u16 z = z.
Proof. intros. by apply Z.mod_small. Qed.
Lemma i32_id z : -2147483648 <= z < 2147483648 -> i32 z = z.
Proof. intros. unfold i32. rewrite Z.mod_small; lia. Qed.
Lemma i32_range z : -2147483648 <= i32 z < 2147483648.
Proof. unfold i32. pose proof (Z.mod_pos_bound (z + 2147483648) W32). lia. Qed.
Lemma i16_id z : -32768 <= z < 32768 -> i16 z = z.
Proof. intros. unfold i16. rewrite Z.mod_small; lia. Qed.

Lemma u32_u32 z : u32 (u32 z) = u32 z.
Proof. unfold u32. by rewrite Z.mod_mod. Qed.
Lemma u32_add_l a b : u32 (u32 a + b) = u32 (a + b).
Proof. unfold u32. by rewrite Z.add_mod_idemp_l. Qed.
Lemma u32_add_r a b : u32 (a + u32 b) = u32 (a + b).
Proof. unfold u32. by rewrite Z.add_mod_idemp_r. Qed.
Lemma u32_sub_l a b : u32 (u32 a - b) = u32 (a - b).
Proof. unfold u32. by rewrite Zminus_mod_idemp_l. Qed.
Lemma u32_sub_r a b : u32 (a - u32 b) = u32 (a - b).
Proof. unfold u32. by rewrite Zminus_mod_idemp_r. Qed.

Create HintDb xv6.
Create Rewrite HintDb xv6.
#[export] Hint Rewrite u32_u32 u32_add_l u32_add_r u32_sub_l u32_sub_r : xv6.
#[export] Hint Resolve u32_range u8_range i32_range : xv6.

(** ** Flag words *)

Lemma testbit_pow2 k n : 0 <= k -> Z.testbit (2 ^ k) n = (n =? k).
Proof. intros. rewrite Z.eqb_sym. by apply Z.pow2_bits_eqb. Qed.

(** [(f & 2^k) == 0] tests one bit. *)
Lemma land_pow2_eqb f k : 0 <= k -> (Z.land f (2 ^ k) =? 0) = negb (Z.testbit f k).
Proof.
  intros Hk. destruct (Z.testbit f k) eqn:E; cbn.
  - apply Z.eqb_neq. intros H.
    assert (Z.testbit (Z.land f (2 ^ k)) k = false) as H' by (rewrite H; apply Z.bits_0).
    by rewrite Z.land_spec, E, testbit_pow2, Z.eqb_refl in H'.
  - apply Z.eqb_eq, Z.bits_inj'. intros n _. rewrite Z.land_spec, testbit_pow2, Z.bits_0 by done.
    destruct (Z.eqb_spec n k) as [->|]; [by rewrite E|apply andb_false_r].
Qed.

Lemma testbit_lor_pow2 f k n :
  0 <= k -> Z.testbit (Z.lor f (2 ^ k)) n = (n =? k) || Z.testbit f n.
Proof. intros. by rewrite Z.lor_spec, testbit_pow2, orb_comm. Qed.

Lemma testbit_clear_pow2 f k n :
  0 <= k -> 0 <= n ->
  Z.testbit (Z.land f (Z.lnot (2 ^ k))) n = negb (n =? k) && Z.testbit f n.
Proof. intros. by rewrite Z.land_spec, Z.lnot_spec, testbit_pow2, andb_comm by done. Qed.
Lemma lor_add a b n : 0 <= n -> 0 <= b < 2 ^ n -> Z.lor (2 ^ n * a) b = 2 ^ n * a + b.
Proof.
  intros Hn Hb. rewrite <- Z.lxor_lor, <- Z.add_nocarry_lxor; [done| |].
  all: apply Z.bits_inj'; intros m Hm; rewrite Z.land_spec, Z.bits_0, Z.mul_comm, <- Z.shiftl_mul_pow2 by done;
    rewrite Z.shiftl_spec by done; destruct (Z.ltb_spec m n);
    [rewrite (Z.testbit_neg_r a) by lia; done|].
  all: destruct (decide (b = 0)) as [->|]; [by rewrite Z.bits_0, andb_false_r|];
    rewrite (Z.bits_above_log2 b), andb_false_r; [done|lia|]; assert (Z.log2 b < n); [apply Z.log2_lt_pow2; lia|lia].
Qed.

(** ** Outcomes

    Kernel code threads a state, may [panic] (which never returns) and may put the calling
    process to sleep on a channel.  [Sleep] carries the state at the moment the process
    gives up the processor; what it does when it runs again is a new call, made by the
    component that models the interleaving. *)

Definition chan : Type := string * nat.

Inductive res (S A : Type) : Type :=
| Ret (a : A) (s : S)
| Panic (msg : string)
| Sleep (ch : chan) (s : S).
Arguments Ret {S A} a s.
Arguments Panic {S A} msg.
Arguments Sleep {S A} ch s.

Definition M (S A : Type) : Type := S -> res S A.

Definition ret {S A} (a : A) : M S A := fun s => Ret a s.
Definition bind {S A B} (m : M S A) (k : A -> M S B) : M S B := fun s =>
  match m s with
  | Ret a s' => k a s'
  | Panic msg => Panic msg
  | Sleep ch s' => Sleep ch s'
  end.
Definition panic {S A} (msg : string) : M S A := fun _ => Panic msg.
Definition sleep_on {S A} (ch : chan) : M S A := fun s => Sleep ch s.
Definition reads {S A} (f : S -> A) : M S A := fun s => Ret (f s) s.
Definition modify {S} (f : S -> S) : M S unit := fun s => Ret tt (f s).
Definition when {S} (b : bool) (m : M S unit) : M S unit := if b then m else ret tt.

(** Running an operation of a part of the state. *)
Definition zoom {S T A} (get : S -> T) (put : T -> S -> S) (m : M T A) : M S A := fun s =>
  match m (get s) with
  | Ret a t => Ret a (put t s)
  | Panic msg => Panic msg
  | Sleep ch t => Sleep ch (put t s)
  end.

Declare Scope kernel_scope.
Delimit Scope kernel_scope with kernel.
Notation "x <- m ;; k" := (bind m (fun x => k))
  (at level 100, m at next level, right associativity) : kernel_scope.
Notation "m ;;; k" := (bind m (fun _ => k))
  (at level 100, right associativity) : kernel_scope.
#[global] Open Scope kernel_scope.

(** [for(i = i0; i < i0 + cnt; i++) body(i)], where the body may return from the function. *)
Fixpoint for_loop {S A} (body : nat -> M S (option A)) (i cnt : nat) : M S (option A) :=
  match cnt with
  | O => ret None
  | Datatypes.S c =>
      r <- body i ;;
      match r with
      | Some a => ret (Some a)
      | None => for_loop body (Datatypes.S i) c
      end
  end.

Lemma bind_Ret {S A B} (m : M S A) (k : A -> M S B) s a s' :
  m s = Ret a s' -> bind m k s = k a s'.
Proof. unfold bind. by intros ->. Qed.
Lemma bind_reads {S A B} (f : S -> A) (k : A -> M S B) s : bind (reads f) k s = k (f s) s.
Proof. done. Qed.
Lemma bind_modify {S B} (f : S -> S) (k : unit -> M S B) s : bind (modify f) k s = k tt (f s).
Proof. done. Qed.
Lemma bind_Panic {S A B} (m : M S A) (k : A -> M S B) s msg :
  m s = Panic msg -> bind m k s = Panic msg.
Proof. unfold bind. by intros ->. Qed.
Lemma bind_Sleep {S A B} (m : M S A) (k : A -> M S B) s ch s' :
  m s = Sleep ch s' -> bind m k s = Sleep ch s'.
Proof. unfold bind. by intros ->. Qed.
Lemma bind_inv {S A B} (m : M S A) (k : A -> M S B) s b s' :
  bind m k s = Ret b s' -> exists a s1, m s = Ret a s1 /\ k a s1 = Ret b s'.
Proof. unfold bind. destruct (m s) as [a s1| |]; intros; simplify_eq. eauto. Qed.

Lemma bind_inv_sleep {S A B} (m : M S A) (k : A -> M S B) s ch s' :
  bind m k s = Sleep ch s' -> m s = Sleep ch s' \/ exists a s1, m s = Ret a s1 /\ k a s1 = Sleep ch s'.
Proof. unfold bind. destruct (m s) as [a s1| |]; intros; simplify_eq; eauto. Qed.

Lemma zoom_Ret {S T A} (get : S -> T) put (m : M T A) s a t :
  m (get s) = Ret a t -> zoom get put m s = Ret a (put t s).
Proof. unfold zoom. by intros ->. Qed.

(** [for_loop] under an invariant indexed by the loop counter: every iteration that runs
    keeps going, so the loop ends normally. *)
Lemma for_loop_inv {S A} (body : nat -> M S (option A)) (I : nat -> S -> Prop) i cnt s :
  I i s ->
  (forall j s, (i <= j < i + cnt)%nat -> I j s ->
     exists s', body j s = Ret None s' /\ I (Datatypes.S j) s') ->
  exists s', for_loop body i cnt s = Ret None s' /\ I (i + cnt)%nat s'.
Proof.
  revert i s. induction cnt as [|c IH]; intros i s Hi Hstep; cbn [for_loop].
  - exists s. by rewrite Nat.add_0_r.
  - destruct (Hstep i s) as (s1 & Hb & H1); [lia|done|].
    rewrite (bind_Ret _ _ _ _ _ Hb).
    destruct (IH (Datatypes.S i) s1 H1) as (s2 & Hf & H2).
    { intros j s' Hj. apply Hstep. lia. }
    exists s2. split; [done|]. by replace (i + Datatypes.S c)%nat with (Datatypes.S i + c)%nat by lia.
Qed.

(** The loops that scan a table without touching it: the body leaves the state alone until
    the first index that satisfies [p], where it returns. *)
Lemma for_loop_skip {S A} (body : nat -> M S (option A)) i cnt s :
  (forall j, (i <= j < i + cnt)%nat -> body j s = Ret None s) ->
  for_loop body i cnt s = Ret None s.
Proof.
  revert i. induction cnt as [|c IH]; intros i Hskip; cbn [for_loop]; [done|].
  rewrite (bind_Ret _ _ _ _ _ (Hskip i ltac:(lia))). apply IH. intros; apply Hskip; lia.
Qed.

Lemma for_loop_found {S A} (body : nat -> M S (option A)) i cnt k s a s' :
  (i <= k < i + cnt)%nat ->
  (forall j, (i <= j < k)%nat -> body j s = Ret None s) ->
  body k s = Ret (Some a) s' ->
  for_loop body i cnt s = Ret (Some a) s'.
Proof.
  revert i. induction cnt as [|c IH]; intros i Hk Hskip Hb; cbn [for_loop]; [lia|].
  destruct (decide (i = k)) as [->|].
  - by rewrite (bind_Ret _ _ _ _ _ Hb).
  - rewrite (bind_Ret _ _ _ _ _ (Hskip i ltac:(lia))).
    apply IH; [lia| |done]. intros; apply Hskip; lia.
Qed.

(** A search for the first index that satisfies a test. *)
Lemma for_loop_search {S A} (body : nat -> M S (option A)) (p : nat -> bool) i cnt s :
  (forall j, (i <= j < i + cnt)%nat -> p j = false -> body j s = Ret None s) ->
  (exists k, (i <= k < i + cnt)%nat /\ p k = true /\ (forall j, (i <= j < k)%nat -> p j = false) /\
     forall a s', body k s = Ret (Some a) s' -> for_loop body i cnt s = Ret (Some a) s') \/
  (forall j, (i <= j < i + cnt)%nat -> p j = false) /\ for_loop body i cnt s = Ret None s.
Proof.
  revert i. induction cnt as [|c IH]; intros i Hs; cbn [for_loop].
  - right. split; [lia|done].
  - destruct (p i) eqn:Ep.
    + left. exists i. split_and!; [lia|lia|done|lia|]. intros a s' Hb. by rewrite (bind_Ret _ _ _ _ _ Hb).
    + rewrite (bind_Ret _ _ _ _ _ (Hs i ltac:(lia) Ep)).
      destruct (IH (Datatypes.S i)) as [(k & Hk & Hp & Hb & Hf)|[Hall Hf]]; [intros; apply Hs; [lia|done]|left|right].
      * exists k. split_and!; [lia|lia|done| |done]. intros j Hj. destruct (decide (j = i)) as [->|]; [done|]. apply Hb. lia.
      * split; [|done]. intros j Hj. destruct (decide (j = i)) as [->|]; [done|]. apply Hall. lia.
Qed.

(** A loop in two parts. *)
Lemma for_loop_split {S A} (body : nat -> M S (option A)) i c1 c2 s s1 :
  for_loop body i c1 s = Ret None s1 ->
  for_loop body i (c1 + c2) s = for_loop body (i + c1) c2 s1.
Proof.
  revert i s. induction c1 as [|c IH]; intros i s; cbn [for_loop Nat.add].
  - intros [= ->]. by rewrite Nat.add_0_r.
  - intros ([a|] & s2 & Hb & H)%bind_inv; [done|]. rewrite (bind_Ret _ _ _ _ _ Hb), (IH _ _ H).
    by rewrite Nat.add_succ_r.
Qed.

(** A list from its elements. *)
Lemma map_seq_total `{Inhabited A} (f : nat -> A) (l : list A) :
  (forall j, (j < length l)%nat -> f j = l !!! j) -> map f (seq 0 (length l)) = l.
Proof.
  revert f. induction l as [|x l IH]; intros f Hf; [done|]. cbn [length seq map]. f_equal.
  - apply (Hf 0%nat). cbn. lia.
  - rewrite <- fmap_S_seq, <- list_fmap_compose. apply IH. intros j Hj. apply (Hf (S j)). cbn. lia.
Qed.

(** ** What a computation keeps

    [keeps R m]: when [m] returns, its first and last states are in [R]. *)
Definition keeps {S A} (R : S -> S -> Prop) (m : M S A) : Prop := forall s a s', m s = Ret a s' -> R s s'.

Section keeps.
Context {S : Type} (R : S -> S -> Prop) `{!PreOrder R}.

Lemma keeps_ret {A} (a : A) : keeps R (ret a).
Proof. by intros s b s' [= <- <-]. Qed.
Lemma keeps_bind {A B} (m : M S A) (k : A -> M S B) : keeps R m -> (forall a, keeps R (k a)) -> keeps R (bind m k).
Proof. intros Hm Hk s b s' (a & s1 & H1 & H2)%bind_inv. etrans; [by eapply Hm|by eapply Hk]. Qed.
Lemma keeps_panic {A} msg : keeps R (panic (A := A) msg).
Proof. by intros s b s'. Qed.
Lemma keeps_reads {A} (f : S -> A) : keeps R (reads f).
Proof. by intros s b s' [= <- <-]. Qed.
Lemma keeps_when (b : bool) (m : M S unit) : keeps R m -> keeps R (when b m).
Proof. intros Hm. destruct b; [done|apply keeps_ret]. Qed.
Lemma keeps_for {A} (body : nat -> M S (option A)) i cnt :
  (forall j, keeps R (body j)) -> keeps R (for_loop body i cnt).
Proof.
  intros Hb. revert i. induction cnt as [|c IH]; intros i; cbn [for_loop]; [apply keeps_ret|].
  apply keeps_bind; [done|]. intros [a|]; [apply keeps_ret|apply IH].
Qed.
Lemma keeps_zoom {T A} (get : S -> T) put (m : M T A) : (forall s t, R s (put t s)) -> keeps R (zoom get put m).
Proof. intros Hp s a s'. unfold zoom. destruct (m (get s)); [|done..]. intros [= <- <-]. apply Hp. Qed.
Lemma keeps_zoom_sub {T A} (Q : T -> T -> Prop) (get : S -> T) put (m : M T A) :
  keeps Q m -> (forall s t, Q (get s) t -> R s (put t s)) -> keeps R (zoom get put m).
Proof.
  intros Hm Hp s a s'. unfold zoom. destruct (m (get s)) as [b t| |] eqn:E; [|done..]. intros [= <- <-].
  by eapply Hp, Hm.
Qed.
Lemma keeps_modify (f : S -> S) : (forall s, R s (f s)) -> keeps R (modify f).
Proof. intros Hf s a s' [= <- <-]. apply Hf. Qed.
End keeps.

Create HintDb keeps.
#[export] Hint Resolve keeps_ret keeps_panic keeps_reads : keeps.

(** Takes a computation apart, one statement at a time. *)
Ltac keep_step :=
  match goal with
  | |- keeps _ (bind _ _) => apply keeps_bind; [apply _| |intros ?]
  | |- keeps _ (for_loop _ _ _) => apply keeps_for; [apply _|intros ?]
  | |- keeps _ (when _ _) => apply keeps_when; [apply _|]
  | |- keeps _ (match ?x with _ => _ end) => destruct x
  | _ => solve [eauto with keeps typeclass_instances]
  end.
Ltac keep := repeat keep_step.

(** ** Lists without an element *)

Definition remove_elem `{EqDecision A} (x : A) (l : list A) : list A :=
  filter (fun y => y <> x) l.

Section remove_elem.
Context `{EqDecision A}.
Implicit Types (x y : A) (l : list A).

Lemma elem_of_remove_elem x y l : y ∈ remove_elem x l <-> y <> x /\ y ∈ l.
Proof. unfold remove_elem. by rewrite list_elem_of_filter. Qed.

Lemma NoDup_remove_elem x l : NoDup l -> NoDup (remove_elem x l).
Proof. intros. by apply NoDup_filter. Qed.

Lemma remove_elem_notin x l : x ∉ l -> remove_elem x l = l.
Proof.
  induction l as [|y l IH]; [done|]. rewrite not_elem_of_cons. intros [? ?].
  unfold remove_elem. rewrite filter_cons_True by done. f_equal. by apply IH.
Qed.

Lemma remove_elem_middle x l1 l2 :
  NoDup (l1 ++ x :: l2) -> remove_elem x (l1 ++ x :: l2) = l1 ++ l2.
Proof.
  rewrite NoDup_app, NoDup_cons. intros (_ & Hd & Hx & _).
  unfold remove_elem. rewrite filter_app, filter_cons_False by naive_solver.
  f_equal; apply remove_elem_notin; [|done]. intros H1. apply (Hd x H1). set_solver.
Qed.

Lemma length_remove_elem x l :
  NoDup l -> x ∈ l -> length l = S (length (remove_elem x l)).
Proof.
  intros Hnd (l1 & l2 & ->)%list_elem_of_split.
  rewrite remove_elem_middle by done. rewrite !length_app. cbn. lia.
Qed.
End remove_elem.

(** ** Tactics *)

(** Runs the head of a monadic computation. *)
Ltac mrun := cbn [bind ret panic sleep_on reads modify when zoom].

(** Turns boolean tests of the code into propositions. *)
Ltac b2p :=
  repeat match goal with
  | H : andb _ _ = true |- _ => apply andb_true_iff in H as [? ?]
  | H : orb _ _ = false |- _ => apply orb_false_iff in H as [? ?]
  | H : negb _ = true |- _ => apply negb_true_iff in H
  | H : negb _ = false |- _ => apply negb_false_iff in H
  | H : (_ =? _) = true |- _ => apply Z.eqb_eq in H
  | H : (_ =? _) = false |- _ => apply Z.eqb_neq in H
  | H : (_ <? _) = true |- _ => apply Z.ltb_lt in H
  | H : (_ <? _) = false |- _ => apply Z.ltb_ge in H
  | H : (_ <=? _) = true |- _ => apply Z.leb_le in H
  | H : (_ <=? _) = false |- _ => apply Z.leb_gt in H
  | H : (_ =? _)%nat = true |- _ => apply Nat.eqb_eq in H
  | H : (_ =? _)%nat = false |- _ => apply Nat.eqb_neq in H
  | H : bool_decide _ = true |- _ => apply bool_decide_eq_true in H
  | H : bool_decide _ = false |- _ => apply bool_decide_eq_false in H
  end.

(** Case analysis on the first boolean test of the goal, with the test as a proposition. *)
Ltac case_test :=
  match goal with
  | |- context [if ?b then _ else _] =>
      lazymatch b with context [if _ then _ else _] => fail | _ => idtac end;
      let E := fresh "E" in destruct b eqn:E; b2p
  end.
