(* ===== verification/Bytes.v ===== *)
(** Byte buffers and the little-endian layout of C structures on x86.

    A disk block ([uchar data[BSIZE]] of [buf.h]) is a list of bytes.  The code casts such a
    buffer to a structure and reads or writes its fields; here a field is a number of bytes
    at an offset, and [get32]/[put32] and the like are those accesses. *)

From S2P Require Import Prelude.

(** ** Integers as bytes *)

Fixpoint le_bytes (n : nat) (z : Z) : list Z :=
  match n with
  | O => []
  | S n' => z mod 256 :: le_bytes n' (z / 256)
  end.

Fixpoint le_val (bs : list Z) : Z :=
  match bs with
  | [] => 0
  | b :: bs' => b + 256 * le_val bs'
  end.

Lemma length_le_bytes n z : length (le_bytes n z) = n.
Proof. revert z. induction n; intros; simpl; auto. Qed.

Lemma le_val_le_bytes n z : le_val (le_bytes n z) = z mod 256 ^ Z.of_nat n.
Proof.
  revert z. induction n as [|n IH]; intros z.
  - by rewrite Z.mod_1_r.
  - cbn [le_bytes le_val]. rewrite IH, Nat2Z.inj_succ, Z.pow_succ_r by lia.
    rewrite Z.rem_mul_r by lia. lia.
Qed.

Definition is_byte (b : Z) : Prop := 0 <= b < 256.

Lemma le_bytes_bytes n z : Forall is_byte (le_bytes n z).
Proof.
  revert z. induction n; intros; constructor; auto. apply Z.mod_pos_bound; lia.
Qed.

Lemma le_bytes_le_val bs : Forall is_byte bs -> le_bytes (length bs) (le_val bs) = bs.
Proof.
  induction 1 as [|b bs Hb _ IH]; [done|]. unfold is_byte in Hb. cbn [length le_bytes le_val].
  rewrite (Z.mul_comm 256). f_equal.
  - rewrite Z.mod_add by lia. by apply Z.mod_small.
  - by rewrite Z.div_add, (Z.div_small b) by lia.
Qed.

Lemma le_val_range bs : Forall is_byte bs -> 0 <= le_val bs < 256 ^ Z.of_nat (length bs).
Proof.
  induction 1 as [|b bs Hb _ IH]; [simpl; lia|]. unfold is_byte in Hb.
  cbn [length le_val]. rewrite Nat2Z.inj_succ, Z.pow_succ_r by lia. lia.
Qed.

(** ** Sub-ranges of a buffer *)

Definition get_bytes (d : list Z) (off n : nat) : list Z := take n (drop off d).

(** [memmove(d + off, bs, n)] with [n] the length of [bs]. *)
Definition put_bytes (d : list Z) (off : nat) (bs : list Z) : list Z :=
  take off d ++ bs ++ drop (off + length bs) d.

Section buffers.
Implicit Types (d bs : list Z) (off n : nat).
Local Open Scope nat_scope.

Lemma length_get_bytes d off n : off + n <= length d -> length (get_bytes d off n) = n.
Proof. intros. unfold get_bytes. rewrite length_take, length_drop. lia. Qed.

Lemma length_put_bytes d off bs :
  off + length bs <= length d -> length (put_bytes d off bs) = length d.
Proof. intros. unfold put_bytes. rewrite !length_app, length_take, length_drop. lia. Qed.

Lemma get_put_same d off bs :
  off + length bs <= length d -> get_bytes (put_bytes d off bs) off (length bs) = bs.
Proof.
  intros. unfold get_bytes, put_bytes.
  rewrite drop_app_ge by (rewrite length_take; lia).
  rewrite length_take, Nat.min_l, Nat.sub_diag, drop_0, take_app_le, take_ge; lia || done.
Qed.

Lemma lookup_put_bytes_in d off bs i :
  off + length bs <= length d -> off <= i < off + length bs ->
  put_bytes d off bs !! i = bs !! (i - off).
Proof.
  intros. unfold put_bytes. rewrite lookup_app_r by (rewrite length_take; lia).
  rewrite length_take, Nat.min_l by lia. by rewrite lookup_app_l by lia.
Qed.

Lemma lookup_put_bytes_out d off bs i :
  off + length bs <= length d -> (i < off \/ off + length bs <= i) ->
  put_bytes d off bs !! i = d !! i.
Proof.
  intros Hl Hi. unfold put_bytes. destruct (decide (i < off)).
  - rewrite lookup_app_l by (rewrite length_take; lia). by rewrite lookup_take_lt by lia.
  - rewrite lookup_app_r by (rewrite length_take; lia). rewrite length_take, Nat.min_l by lia.
    rewrite lookup_app_r, lookup_drop by lia. f_equal. lia.
Qed.

Lemma lookup_get_bytes d off n i :
  i < n -> get_bytes d off n !! i = d !! (off + i).
Proof. intros. unfold get_bytes. by rewrite lookup_take_lt, lookup_drop by lia. Qed.

Lemma get_put_disjoint d off bs off' n :
  off + length bs <= length d -> (off' + n <= off \/ off + length bs <= off') ->
  get_bytes (put_bytes d off bs) off' n = get_bytes d off' n.
Proof.
  intros Hl Hd. apply list_eq. intros i. destruct (decide (i < n)).
  - rewrite !lookup_get_bytes by done. apply lookup_put_bytes_out; lia.
  - unfold get_bytes. by rewrite !lookup_take_ge by lia.
Qed.

Lemma put_bytes_id d off n :
  off + n <= length d -> put_bytes d off (get_bytes d off n) = d.
Proof.
  intros. unfold put_bytes. rewrite length_get_bytes by done. unfold get_bytes.
  rewrite <- (drop_drop d n off), take_drop. apply take_drop.
Qed.

Lemma put_bytes_full d bs : length bs = length d -> put_bytes d 0 bs = bs.
Proof.
  intros Hl. unfold put_bytes. simpl. rewrite drop_ge by lia. by rewrite app_nil_r.
Qed.

Lemma Forall_put_bytes (P : Z -> Prop) d off bs :
  Forall P d -> Forall P bs -> Forall P (put_bytes d off bs).
Proof.
  intros Hd Hb. unfold put_bytes. rewrite !Forall_app.
  auto using Forall_take, Forall_drop.
Qed.
End buffers.

(** ** Fields *)

Definition get16 (d : list Z) (off : nat) : Z := le_val (get_bytes d off 2).
Definition get32 (d : list Z) (off : nat) : Z := le_val (get_bytes d off 4).
Definition put16 (d : list Z) (off : nat) (v : Z) : list Z := put_bytes d off (le_bytes 2 v).
Definition put32 (d : list Z) (off : nat) (v : Z) : list Z := put_bytes d off (le_bytes 4 v).

Section fields.
Implicit Types (d : list Z) (off : nat).
Local Open Scope nat_scope.

Lemma length_put32 d off v : off + 4 <= length d -> length (put32 d off v) = length d.
Proof. intros. by apply length_put_bytes. Qed.
Lemma length_put16 d off v : off + 2 <= length d -> length (put16 d off v) = length d.
Proof. intros. by apply length_put_bytes. Qed.

Lemma get32_put32_same d off v : off + 4 <= length d -> get32 (put32 d off v) off = u32 v.
Proof.
  intros. unfold get32, put32.
  pose proof (get_put_same d off (le_bytes 4 v)) as E. rewrite length_le_bytes in E.
  rewrite E, le_val_le_bytes; done.
Qed.
Lemma get16_put16_same d off v : off + 2 <= length d -> get16 (put16 d off v) off = u16 v.
Proof.
  intros. unfold get16, put16.
  pose proof (get_put_same d off (le_bytes 2 v)) as E. rewrite length_le_bytes in E.
  rewrite E, le_val_le_bytes; done.
Qed.
Lemma get32_put_bytes_ne d off bs off' :
  off + length bs <= length d -> (off' + 4 <= off \/ off + length bs <= off') ->
  get32 (put_bytes d off bs) off' = get32 d off'.
Proof. intros. unfold get32. by rewrite get_put_disjoint. Qed.
Lemma get16_put_bytes_ne d off bs off' :
  off + length bs <= length d -> (off' + 2 <= off \/ off + length bs <= off') ->
  get16 (put_bytes d off bs) off' = get16 d off'.
Proof. intros. unfold get16. by rewrite get_put_disjoint. Qed.
Lemma get32_put32_ne d off v off' :
  off + 4 <= length d -> (off' + 4 <= off \/ off + 4 <= off') ->
  get32 (put32 d off v) off' = get32 d off'.
Proof. intros. by apply get32_put_bytes_ne. Qed.

Lemma get32_range d off :
  Forall is_byte d -> off + 4 <= length d -> (0 <= get32 d off < W32)%Z.
Proof.
  intros Hd Hl. unfold get32.
  pose proof (le_val_range (get_bytes d off 4)) as H.
  rewrite length_get_bytes in H by done. apply H.
  unfold get_bytes. auto using Forall_take, Forall_drop.
Qed.
End fields.

#[export] Hint Rewrite length_le_bytes : xv6.
