(* ===== verification/Params.v ===== *)
(** The constants of [param.h], [fs.h], [buf.h] and [stat.h], and the on-disk layout macros
    of [fs.h]. *)

From S2P Require Import Prelude.

(** [param.h] *)
Definition NPROC : nat := 64.
Definition KSTACKSIZE : Z := 4096.
Definition NCPU : nat := 8.
Definition NOFILE : nat := 16.
Definition NFILE : nat := 100.
Definition NINODE : nat := 50.
Definition NDEV : Z := 10.
Definition ROOTDEV : Z := 1.
Definition MAXARG : nat := 32.
Definition MAXOPBLOCKS : Z := 10.
Definition LOGSIZE : Z := MAXOPBLOCKS * 3.
Definition NBUF : nat := Z.to_nat (MAXOPBLOCKS * 3).
Definition FSSIZE : Z := 1000.

Lemma NBUF_eq : NBUF = 30%nat.
Proof. reflexivity. Qed.

(** [fs.h] *)
Definition ROOTINO : Z := 1.
Definition BSIZE : nat := 512.
Definition NDIRECT : nat := 12.
Definition sizeof_uint : nat := 4.
Definition NINDIRECT : nat := Nat.div BSIZE sizeof_uint.
Definition MAXFILE : nat := NDIRECT + NINDIRECT.

(** [struct superblock] *)
Record superblock := MkSb {
  sb_size : Z; sb_nblocks : Z; sb_ninodes : Z; sb_nlog : Z;
  sb_logstart : Z; sb_inodestart : Z; sb_bmapstart : Z
}.

(** [struct dinode] is four shorts, a [uint] and [NDIRECT+1] block addresses. *)
Definition sizeof_dinode : nat := 4 * 2 + sizeof_uint + (NDIRECT + 1) * sizeof_uint.
Definition IPB : Z := Z.of_nat (Nat.div BSIZE sizeof_dinode).
Definition IBLOCK (i : Z) (sb : superblock) : Z := i / IPB + sb_inodestart sb.
Definition BPB : Z := Z.of_nat BSIZE * 8.
Definition BBLOCK (b : Z) (sb : superblock) : Z := b / BPB + sb_bmapstart sb.
Definition DIRSIZ : nat := 14.
Definition sizeof_dirent : nat := 2 + DIRSIZ.

(** [buf.h] *)
Definition B_VALID : Z := 2.
Definition B_DIRTY : Z := 4.

(** [stat.h] *)
Definition T_DIR : Z := 1.
Definition T_FILE : Z := 2.
Definition T_DEV : Z := 3.
