(* ===== verification/CString.v ===== *)
(** Memory and C strings: [string.c] of the kernel, and the string functions of [ulib.c].

    Memory is a function from addresses to bytes (0 to 255).  The loops that run to the end
    of a string take fuel; the theorems say how much is enough. *)

From S2P Require Import Prelude Bytes.

Abbreviation mem := (Z -> Z) (only parsing).

(** [l] is the string at address [s] (without its final NUL). *)
Fixpoint cstr (m : mem) (s : Z) (l : list Z) : Prop :=
  match l with
  | [] => m s = 0
  | c :: l' => m s = c /\ c <> 0 /\ cstr m (s + 1) l'
  end.

(** The [n] bytes at [a]. *)
Fixpoint bytes_at (m : mem) (a : Z) (n : nat) : list Z :=
  match n with O => [] | S n' => m a :: bytes_at m (a + 1) n' end.

Module KString.

(** The x86 string instructions of [x86.h]. *)
Fixpoint stosb_n (m : mem) (a c : Z) (n : nat) : mem :=
  match n with O => m | S n' => stosb_n (<[a := u8 c]> m) (a + 1) c n' end.
Definition stosb (m : mem) (a c cnt : Z) : mem := stosb_n m a c (Z.to_nat cnt).
Definition store32 (m : mem) (a w : Z) : mem :=
  <[a + 3 := u8 (Z.shiftr w 24)]> (<[a + 2 := u8 (Z.shiftr w 16)]>
    (<[a + 1 := u8 (Z.shiftr w 8)]> (<[a := u8 w]> m))).
Fixpoint stosl_n (m : mem) (a w : Z) (n : nat) : mem :=
  match n with O => m | S n' => stosl_n (store32 m a w) (a + 4) w n' end.
Definition stosl (m : mem) (a w cnt : Z) : mem := stosl_n m a w (Z.to_nat cnt).

Definition memset (m : mem) (dst c n : Z) : mem :=
  if (Z.rem (i32 dst) 4 =? 0) && (n mod 4 =? 0) then
    let c := Z.land c 255 in
    stosl m dst (Z.lor (Z.lor (Z.lor (Z.shiftl c 24) (Z.shiftl c 16)) (Z.shiftl c 8)) c) (n / 4)
  else stosb m dst c n.

Fixpoint memcmp_n (m : mem) (s1 s2 : Z) (n : nat) : Z :=
  match n with
  | O => 0
  | S n' => if negb (m s1 =? m s2) then m s1 - m s2 else memcmp_n m (s1 + 1) (s2 + 1) n'
  end.
Definition memcmp (m : mem) (v1 v2 n : Z) : Z := memcmp_n m v1 v2 (Z.to_nat n).

(** The two loops of [memmove]. *)
Fixpoint copy_down (m : mem) (d s : Z) (n : nat) : mem :=
  match n with O => m | S n' => copy_down (<[d - 1 := m (s - 1)]> m) (d - 1) (s - 1) n' end.
Fixpoint copy_up (m : mem) (d s : Z) (n : nat) : mem :=
  match n with O => m | S n' => copy_up (<[d := m s]> m) (d + 1) (s + 1) n' end.
Definition memmove (m : mem) (dst src n : Z) : mem :=
  if (src <? dst) && (dst <? src + n)
  then copy_down m (dst + n) (src + n) (Z.to_nat n)
  else copy_up m dst src (Z.to_nat n).
Definition memcpy (m : mem) (dst src n : Z) : mem := memmove m dst src n.

Fixpoint strncmp_n (m : mem) (p q : Z) (n : nat) : Z :=
  match n with
  | O => 0
  | S n' => if negb (m p =? 0) && (m p =? m q) then strncmp_n m (p + 1) (q + 1) n'
            else m p - m q
  end.
Definition strncmp (m : mem) (p q n : Z) : Z := strncmp_n m p q (Z.to_nat n).

(** The first loop of [strncpy], which leaves the count, and the second. *)
Fixpoint strncpy_copy (m : mem) (s t : Z) (n : nat) : mem * Z * nat :=
  match n with
  | O => (m, s, O)
  | S n' =>
      let m' := <[s := m t]> m in
      if negb (m t =? 0) then strncpy_copy m' (s + 1) (t + 1) n' else (m', s + 1, n')
  end.
Fixpoint strncpy_pad (m : mem) (s : Z) (n : nat) : mem :=
  match n with O => m | S n' => strncpy_pad (<[s := 0]> m) (s + 1) n' end.
Definition strncpy (m : mem) (s t n : Z) : mem :=
  let '(m', s', n') := strncpy_copy m s t (Z.to_nat n) in strncpy_pad m' s' n'.

(** The loop of [safestrcpy], with [n] already decremented once. *)
Fixpoint safestrcpy_copy (m : mem) (s t : Z) (n : nat) : mem * Z :=
  match n with
  | O => (m, s)
  | S n' =>
      let m' := <[s := m t]> m in
      if negb (m t =? 0) then safestrcpy_copy m' (s + 1) (t + 1) n' else (m', s + 1)
  end.
Definition safestrcpy (m : mem) (s t n : Z) : mem :=
  if n <=? 0 then m else
  let '(m', s') := safestrcpy_copy m s t (Z.to_nat (n - 1)) in <[s' := 0]> m'.

Fixpoint strlen_from (m : mem) (s n : Z) (fuel : nat) : option Z :=
  match fuel with
  | O => None
  | S f => if m (s + n) =? 0 then Some n else strlen_from m s (n + 1) f
  end.
Definition strlen (fuel : nat) (m : mem) (s : Z) : option Z := strlen_from m s 0 fuel.

(** Bytes into memory. *)
Fixpoint store_bytes (m : mem) (a : Z) (bs : list Z) : mem :=
  match bs with [] => m | b :: bs' => store_bytes (<[a := b]> m) (a + 1) bs' end.
(** [memmove] from wherever the running process finds byte [i] and the next of a buffer. *)
Definition move_from (buf : mem -> Z -> Z) (m : mem) (dst i n : Z) : mem :=
  store_bytes m dst (map (buf m) (seqZ i n)).
End KString.

Module Ulib.
Import KString.

Fixpoint strcpy (fuel : nat) (m : mem) (s t : Z) : option mem :=
  match fuel with
  | O => None
  | S f => let m' := <[s := m t]> m in
           if m t =? 0 then Some m' else strcpy f m' (s + 1) (t + 1)
  end.

Fixpoint strcmp (fuel : nat) (m : mem) (p q : Z) : option Z :=
  match fuel with
  | O => None
  | S f => if negb (m p =? 0) && (m p =? m q) then strcmp f m (p + 1) (q + 1)
           else Some (m p - m q)
  end.

Definition strlen (fuel : nat) (m : mem) (s : Z) : option Z := strlen_from m s 0 fuel.

Definition memset (m : mem) (dst c n : Z) : mem := stosb m dst c n.

Fixpoint strchr (fuel : nat) (m : mem) (s c : Z) : option Z :=
  match fuel with
  | O => None
  | S f => if m s =? 0 then Some 0 else if m s =? c then Some s else strchr f m (s + 1) c
  end.

(** [gets], where [read(0, &c, 1)] takes the next byte of the input, or returns less than 1
    at its end. *)
Fixpoint gets_loop (m : mem) (buf i : Z) (input : list Z) (cnt : nat) : mem * Z * list Z :=
  match cnt, input with
  | O, _ | _, [] => (m, i, input)
  | S cnt', c :: input' =>
      let m' := <[buf + i := c]> m in
      if (c =? 10) || (c =? 13) then (m', i + 1, input')
      else gets_loop m' buf (i + 1) input' cnt'
  end.
Definition gets (m : mem) (buf max : Z) (input : list Z) : mem * list Z :=
  let '(m', i, rest) := gets_loop m buf 0 input (Z.to_nat (max - 1)) in
  (<[buf + i := 0]> m', rest).

Definition is_digit (c : Z) : bool := (48 <=? c) && (c <=? 57).
Fixpoint atoi_loop (m : mem) (s n : Z) (fuel : nat) : option Z :=
  match fuel with
  | O => None
  | S f => if is_digit (m s) then atoi_loop m (s + 1) (i32 (n * 10 + m s - 48)) f else Some n
  end.
Definition atoi (fuel : nat) (m : mem) (s : Z) : option Z := atoi_loop m s 0 fuel.

Definition memmove (m : mem) (vdst vsrc n : Z) : mem := copy_up m vdst vsrc (Z.to_nat n).
End Ulib.

(** ** Proofs *)
Module StringFacts.
Import KString.

(** *** [memset] *)
Lemma stosb_n_spec n : forall m a c x,
  stosb_n m a c n x = if (a <=? x) && (x <? a + Z.of_nat n) then u8 c else m x.
Proof.
  induction n as [|n IH]; intros m a c x; cbn [stosb_n].
  { destruct (Z.leb_spec a x), (Z.ltb_spec x (a + Z.of_nat 0)); cbn; (done || lia). }
  rewrite IH. destruct (decide (x = a)) as [->|Hne].
  - rewrite fn_lookup_insert. destruct (Z.leb_spec (a + 1) a); [lia|].
    destruct (Z.leb_spec a a), (Z.ltb_spec a (a + Z.of_nat (S n))); cbn; (done || lia).
  - rewrite fn_lookup_insert_ne by done.
    destruct (Z.leb_spec (a + 1) x), (Z.ltb_spec x (a + 1 + Z.of_nat n)),
      (Z.leb_spec a x), (Z.ltb_spec x (a + Z.of_nat (S n))); cbn; (done || lia).
Qed.

Lemma store32_spec m a w v x :
  u8 w = v -> u8 (Z.shiftr w 8) = v -> u8 (Z.shiftr w 16) = v -> u8 (Z.shiftr w 24) = v ->
  store32 m a w x = if (a <=? x) && (x <? a + 4) then v else m x.
Proof.
  intros H0 H1 H2 H3. unfold store32. rewrite H0, H1, H2, H3.
  destruct (Z.leb_spec a x), (Z.ltb_spec x (a + 4)); cbn [andb].
  - assert (x = a \/ x = a + 1 \/ x = a + 2 \/ x = a + 3) as Hx by lia.
    unfold fn_insert, insert. repeat case_decide; (done || lia).
  - by rewrite !fn_lookup_insert_ne by lia.
  - by rewrite !fn_lookup_insert_ne by lia.
  - by rewrite !fn_lookup_insert_ne by lia.
Qed.

Lemma stosl_n_spec n w v :
  u8 w = v -> u8 (Z.shiftr w 8) = v -> u8 (Z.shiftr w 16) = v -> u8 (Z.shiftr w 24) = v ->
  forall m a x, stosl_n m a w n x = if (a <=? x) && (x <? a + 4 * Z.of_nat n) then v else m x.
Proof.
  intros H0 H1 H2 H3. induction n as [|n IH]; intros m a x; cbn [stosl_n].
  { destruct (Z.leb_spec a x), (Z.ltb_spec x (a + 4 * Z.of_nat 0)); cbn; (done || lia). }
  rewrite IH, (store32_spec m a w v) by done.
  destruct (Z.leb_spec (a + 4) x), (Z.ltb_spec x (a + 4 + 4 * Z.of_nat n)), (Z.leb_spec a x),
    (Z.ltb_spec x (a + 4)), (Z.ltb_spec x (a + 4 * Z.of_nat (S n))); cbn; (done || lia).
Qed.

(** The four bytes of the word [memset] stores. *)
Lemma splat_byte c k :
  0 <= c < 256 -> k = 0 \/ k = 8 \/ k = 16 \/ k = 24 ->
  u8 (Z.shiftr (Z.lor (Z.lor (Z.lor (Z.shiftl c 24) (Z.shiftl c 16)) (Z.shiftl c 8)) c) k) = c.
Proof.
  intros Hc Hk. unfold u8. change 256 with (2 ^ 8). rewrite <- Z.land_ones by lia.
  apply Z.bits_inj'. intros n Hn. rewrite Z.land_spec, Z.shiftr_spec, !Z.lor_spec by done.
  rewrite !Z.shiftl_spec by lia. rewrite Z.testbit_ones by lia.
  assert (Hhi : forall j, 8 <= j -> Z.testbit c j = false).
  { intros j Hj. destruct (decide (c = 0)) as [->|]; [apply Z.testbit_0_l|].
    apply Z.bits_above_log2; [lia|]. assert (Z.log2 c < 8); [|lia]. apply Z.log2_lt_pow2; lia. }
  assert (Hlo : forall j, j < 0 -> Z.testbit c j = false) by (intros; by apply Z.testbit_neg_r).
  destruct (Z.leb_spec 0 n); [|lia]. destruct (Z.ltb_spec n 8); cbn [andb].
  - rewrite andb_true_r. destruct Hk as [->|[->|[->| ->]]].
    + rewrite !Z.add_0_r, (Hlo (n - 24)), (Hlo (n - 16)), (Hlo (n - 8)) by lia. done.
    + rewrite (Hlo (n + 8 - 24)), (Hlo (n + 8 - 16)), (Hhi (n + 8)) by lia.
      cbn. rewrite orb_false_r. f_equal. lia.
    + rewrite (Hlo (n + 16 - 24)), (Hhi (n + 16 - 8)), (Hhi (n + 16)) by lia.
      cbn. rewrite !orb_false_r. f_equal. lia.
    + rewrite (Hhi (n + 24 - 16)), (Hhi (n + 24 - 8)), (Hhi (n + 24)) by lia.
      rewrite !orb_false_r. f_equal. lia.
  - rewrite andb_false_r. symmetry. apply Hhi. lia.
Qed.

Lemma memset_range m dst c n x :
  0 <= n -> memset m dst c n x = if (dst <=? x) && (x <? dst + n) then u8 c else m x.
Proof.
  intros Hn. unfold memset. destruct (_ && _) eqn:E.
  - b2p. assert (Hc : Z.land c 255 = u8 c) by (change 255 with (Z.ones 8); by apply Z.land_ones).
    unfold stosl. rewrite Hc. set (w := Z.lor _ _).
    assert (Hw : forall k, k = 0 \/ k = 8 \/ k = 16 \/ k = 24 -> u8 (Z.shiftr w k) = u8 c).
    { intros k. apply splat_byte, u8_range. }
    rewrite (stosl_n_spec _ w (u8 c)); [|rewrite <- (Hw 0) by auto; by rewrite Z.shiftr_0_r|auto..].
    rewrite Z2Nat.id by (apply Z.div_pos; lia).
    by replace (4 * (n / 4)) with n by (pose proof (Z.div_mod n 4); lia).
  - unfold stosb. rewrite stosb_n_spec. by rewrite Z2Nat.id by lia.
Qed.

(** [memset] fills exactly the [n] bytes at [dst] with the low byte of [c], on both of
    its paths: the one that stores whole words when the address and the length are multiples
    of four agrees with the one that stores bytes. *)
Theorem memset_fills m dst c n x :
  0 <= n -> memset m dst c n x = if (dst <=? x) && (x <? dst + n) then u8 c else m x.
Proof. apply memset_range. Qed.

Lemma memset_fills_witness : memset (fun _ => 9) 8 (-1) 4 11 = 255 /\ memset (fun _ => 9) 8 7 3 11 = 9.
Proof.
  split; [rewrite (memset_fills (fun _ => 9) 8 (-1) 4 11); [reflexivity|lia]|].
  rewrite (memset_fills (fun _ => 9) 8 7 3 11); [reflexivity|lia].
Defined.

(** *** [memmove] *)
Lemma copy_down_spec n : forall m d s x,
  s <= d -> copy_down m d s n x =
    if (d - Z.of_nat n <=? x) && (x <? d) then m (s + (x - d)) else m x.
Proof.
  induction n as [|n IH]; intros m d s x Hsd; cbn [copy_down].
  { destruct (Z.leb_spec (d - Z.of_nat 0) x), (Z.ltb_spec x d); cbn; (done || lia). }
  rewrite IH by lia.
  destruct (Z.leb_spec (d - 1 - Z.of_nat n) x), (Z.ltb_spec x (d - 1)),
    (Z.leb_spec (d - Z.of_nat (S n)) x), (Z.ltb_spec x d); cbn [andb]; try lia.
  - rewrite fn_lookup_insert_ne by lia. f_equal. lia.
  - replace x with (d - 1) by lia. rewrite fn_lookup_insert. f_equal. lia.
  - rewrite fn_lookup_insert_ne by lia. done.
  - rewrite fn_lookup_insert_ne by lia. done.
Qed.

Lemma copy_up_spec n : forall m d s x,
  d <= s \/ s + Z.of_nat n <= d -> copy_up m d s n x =
    if (d <=? x) && (x <? d + Z.of_nat n) then m (s + (x - d)) else m x.
Proof.
  induction n as [|n IH]; intros m d s x Hsd; cbn [copy_up].
  { destruct (Z.leb_spec d x), (Z.ltb_spec x (d + Z.of_nat 0)); cbn; (done || lia). }
  rewrite IH by lia.
  destruct (Z.leb_spec (d + 1) x), (Z.ltb_spec x (d + 1 + Z.of_nat n)), (Z.leb_spec d x),
    (Z.ltb_spec x (d + Z.of_nat (S n))); cbn [andb]; try lia.
  - rewrite fn_lookup_insert_ne by lia. f_equal. lia.
  - rewrite fn_lookup_insert_ne by lia. done.
  - replace x with d by lia. rewrite fn_lookup_insert. f_equal. lia.
  - rewrite fn_lookup_insert_ne by lia. done.
Qed.

Lemma memmove_range m dst src n x :
  0 <= n -> memmove m dst src n x =
    if (dst <=? x) && (x <? dst + n) then m (src + (x - dst)) else m x.
Proof.
  intros Hn. unfold memmove.
  destruct (Z.ltb_spec src dst), (Z.ltb_spec dst (src + n)); cbn [andb].
  - rewrite copy_down_spec by lia. rewrite Z2Nat.id by lia.
    replace (dst + n - n) with dst by lia. by replace (src + n + (x - (dst + n))) with (src + (x - dst)) by lia.
  - rewrite copy_up_spec by (rewrite Z2Nat.id; lia). by rewrite Z2Nat.id by lia.
  - rewrite copy_up_spec by (rewrite Z2Nat.id; lia). by rewrite Z2Nat.id by lia.
  - rewrite copy_up_spec by (rewrite Z2Nat.id; lia). by rewrite Z2Nat.id by lia.
Qed.

(** The kernel's [memmove] copies correctly however the two regions overlap: afterwards
    the [n] bytes at [dst] are the bytes that were at [src] before, and nothing else has
    changed. *)
Theorem memmove_correct m dst src n x :
  0 <= n -> memmove m dst src n x =
    if (dst <=? x) && (x <? dst + n) then m (src + (x - dst)) else m x.
Proof. apply memmove_range. Qed.

Lemma memmove_correct_witness : memmove (fun a => a) 101 100 5 103 = 102.
Proof. rewrite (memmove_correct (fun a => a) 101 100 5 103); [reflexivity|lia]. Defined.

(** The [memmove] of the user library copies upwards always: it agrees with the kernel's
    except when the destination starts inside the source, where it repeats the first bytes
    over the destination. *)
Theorem ulib_memmove_overlap m dst src n :
  0 <= n ->
  (dst <= src \/ src + n <= dst ->
    forall x, Ulib.memmove m dst src n x = memmove m dst src n x) /\
  (dst = src + 1 -> forall x, dst <= x < dst + n -> Ulib.memmove m dst src n x = m src).
Proof.
  intros Hn. split.
  - intros Hd x. unfold Ulib.memmove. rewrite copy_up_spec by (rewrite Z2Nat.id; lia).
    unfold memmove. destruct (Z.ltb_spec src dst), (Z.ltb_spec dst (src + n)); cbn [andb]; try lia.
    all: rewrite ?copy_up_spec by (rewrite Z2Nat.id; lia); done.
  - intros ->. unfold Ulib.memmove. intros x. rewrite <- (Z2Nat.id n Hn) at 1. generalize (Z.to_nat n) as k.
    clear n Hn. intros k. revert m src x. induction k as [|k IH]; intros m src x Hx; [lia|]. cbn [copy_up].
    destruct (decide (x = src + 1)) as [->|].
    + clear IH Hx. assert (Hkeep : forall k m d s y, y < d -> copy_up m d s k y = m y).
      { clear. induction k as [|k IH]; intros m d s y Hy; cbn [copy_up]; [done|].
        rewrite IH by lia. by rewrite fn_lookup_insert_ne by lia. }
      rewrite Hkeep by lia. apply fn_lookup_insert.
    + rewrite IH by lia. apply fn_lookup_insert.
Qed.

Lemma ulib_memmove_overlap_witness :
  Ulib.memmove (fun a => a) 101 100 5 104 = 100 /\ memmove (fun a => a) 101 100 5 104 = 103.
Proof.
  split; [|reflexivity].
  destruct (ulib_memmove_overlap (fun a => a) 101 100 5) as [_ H]; [lia|]. by apply H; lia.
Defined.

(** *** Strings *)
Lemma strlen_from_spec l : forall m s n fuel,
  cstr m (s + n) l -> (length l < fuel)%nat ->
  strlen_from m s n fuel = Some (n + Z.of_nat (length l)).
Proof.
  induction l as [|c l IH]; intros m s n fuel Hs Hf; (destruct fuel as [|f]; [cbn in Hf; lia|]); cbn in *.
  - rewrite Hs. cbn. f_equal. lia.
  - destruct Hs as (-> & Hc & Hs). destruct (Z.eqb_spec c 0); [done|].
    rewrite IH; [f_equal; lia| |lia]. by replace (s + (n + 1)) with (s + n + 1) by lia.
Qed.

(** Comparison of two strings by their first difference. *)
Fixpoint lexcmp (l1 l2 : list Z) : Z :=
  match l1, l2 with
  | [], [] => 0
  | c :: _, [] => c
  | [], d :: _ => - d
  | c :: l1', d :: l2' => if c =? d then lexcmp l1' l2' else c - d
  end.

Lemma lexcmp_zero l1 l2 : Forall (fun c => c <> 0) l1 -> Forall (fun c => c <> 0) l2 ->
  lexcmp l1 l2 = 0 <-> l1 = l2.
Proof.
  intros H1. revert l2. induction H1 as [|c l1 Hc _ IH]; intros [|d l2] H2; cbn; try done.
  - apply Forall_cons in H2 as [? _]. split; [lia|done].
  - apply Forall_cons in H2 as [? H2]. destruct (Z.eqb_spec c d) as [->|].
    + rewrite IH by done. split; congruence.
    + split; [lia|congruence].
Qed.

Lemma cstr_nonzero l : forall m s, cstr m s l -> Forall (fun c => c <> 0) l.
Proof. induction l as [|c l IH]; intros m s Hs; [constructor|]. destruct Hs as (_ & ? & ?). constructor; eauto. Qed.

Definition hd0 (l : list Z) : Z := match l with [] => 0 | c :: _ => c end.
Lemma cstr_hd m s l : cstr m s l -> m s = hd0 l.
Proof. destruct l; cbn; tauto. Qed.

(** [strcmp] (user) and [strncmp] (kernel) compare strings by their first difference.
    [strcmp] ends with the shorter string, and is zero exactly on equal strings; [strncmp]
    does the same for the first [n] characters of each. *)
Theorem strcmp_correct l1 l2 m p q fuel n :
  cstr m p l1 -> cstr m q l2 -> (length l1 < fuel)%nat ->
  Ulib.strcmp fuel m p q = Some (lexcmp l1 l2) /\ (lexcmp l1 l2 = 0 <-> l1 = l2) /\
  strncmp m p q n = lexcmp (take (Z.to_nat n) l1) (take (Z.to_nat n) l2).
Proof.
  intros H1 H2 Hf. split; [|split].
  - revert l2 p q fuel H1 H2 Hf. induction l1 as [|c l1 IH]; intros l2 p q fuel H1 H2 Hf;
      (destruct fuel as [|f]; [cbn in Hf; lia|]); cbn in H1; cbn [Ulib.strcmp].
    + rewrite H1, (cstr_hd m q l2) by done. cbn. destruct l2; cbn; f_equal; lia.
    + destruct H1 as (-> & Hc & H1). rewrite (cstr_hd m q l2) by done.
      destruct (Z.eqb_spec c 0); [done|]. cbn [negb andb]. destruct l2 as [|d l2]; cbn [hd0 lexcmp].
      * cbn. destruct (Z.eqb_spec c 0); [done|]. f_equal. lia.
      * destruct H2 as (_ & _ & H2). cbn. destruct (Z.eqb_spec c d); [|done]. apply IH; [done..|]. cbn in Hf. lia.
  - apply lexcmp_zero; by eapply cstr_nonzero.
  - unfold strncmp. generalize (Z.to_nat n) as k. clear n Hf. intros k. revert l1 l2 p q H1 H2.
    induction k as [|k IH]; intros l1 l2 p q H1 H2; [done|]. cbn [strncmp_n].
    rewrite (cstr_hd m p l1), (cstr_hd m q l2) by done.
    destruct l1 as [|c l1]; cbn [hd0 take lexcmp].
    { cbn. destruct l2; cbn; lia. }
    destruct H1 as (_ & Hc & H1). cbn. destruct (Z.eqb_spec c 0); [done|]. cbn [negb andb].
    destruct l2 as [|d l2]; cbn [lexcmp hd0].
    + destruct (Z.eqb_spec c 0); [done|]. cbn. lia.
    + destruct H2 as (_ & _ & H2). cbn. destruct (Z.eqb_spec c d); [by apply IH|done].
Qed.

(** "ab" at address 0 and "ac" at address 10. *)
Definition two_strings : mem := fun a =>
  if a =? 0 then 97 else if a =? 1 then 98 else if a =? 10 then 97 else if a =? 11 then 99 else 0.

Lemma strcmp_correct_witness :
  Ulib.strcmp 3 two_strings 0 10 = Some (-1) /\ strncmp two_strings 0 10 1 = 0.
Proof.
  destruct (strcmp_correct [97; 98] [97; 99] two_strings 0 10 3 1) as (H1 & _ & H2).
  - by repeat split.
  - by repeat split.
  - cbn; lia.
  - split; [exact H1|exact H2].
Defined.

(** *** Copying strings *)
Lemma cstr_ext l : forall m m' s,
  (forall x, s <= x <= s + Z.of_nat (length l) -> m' x = m x) -> cstr m s l -> cstr m' s l.
Proof.
  induction l as [|c l IH]; intros m m' s He Hs; cbn in *.
  - rewrite He by lia. done.
  - destruct Hs as (H1 & H2 & H3). split_and!; [rewrite He by lia; done|done|].
    apply (IH m); [|done]. intros x Hx. apply He. lia.
Qed.

Lemma strncpy_pad_spec n : forall m s x,
  strncpy_pad m s n x = if (s <=? x) && (x <? s + Z.of_nat n) then 0 else m x.
Proof.
  induction n as [|n IH]; intros m s x; cbn [strncpy_pad].
  { destruct (Z.leb_spec s x), (Z.ltb_spec x (s + Z.of_nat 0)); cbn; (done || lia). }
  rewrite IH. destruct (decide (x = s)) as [->|].
  - rewrite fn_lookup_insert. destruct (Z.leb_spec s s), (Z.ltb_spec s (s + Z.of_nat (S n))); cbn; try lia.
    destruct (_ && _); done.
  - rewrite fn_lookup_insert_ne by done.
    destruct (Z.leb_spec (s + 1) x), (Z.ltb_spec x (s + 1 + Z.of_nat n)),
      (Z.leb_spec s x), (Z.ltb_spec x (s + Z.of_nat (S n))); cbn; (done || lia).
Qed.

(** [strncpy] makes a fixed-size field of a string, as directory entries need: the [n]
    bytes at [s] become the characters of the string at [t] and then zeros, cut after [n]
    characters (with no final NUL then), and nothing else changes.  The field and the string
    must not overlap. *)
Theorem strncpy_field l m s t n x :
  cstr m t l -> 0 <= n -> s + n <= t \/ t + Z.of_nat (length l) < s ->
  strncpy m s t n x =
    if (s <=? x) && (x <? s + n) then default 0 (l !! Z.to_nat (x - s)) else m x.
Proof.
  intros Ht Hn Hd. unfold strncpy. rewrite <- (Z2Nat.id n Hn) in Hd |- *. rewrite Nat2Z.id.
  revert Hd. generalize (Z.to_nat n) as k. clear n Hn. intros k. revert l m s t Ht.
  induction k as [|k IH]; intros l m s t Ht Hd.
  { cbn [strncpy_copy strncpy_pad].
    destruct (Z.leb_spec s x), (Z.ltb_spec x (s + Z.of_nat 0)); cbn; (done || lia). }
  cbn [strncpy_copy]. rewrite (cstr_hd m t l) by done. destruct l as [|c l]; cbn [hd0].
  - cbn [negb Z.eqb]. rewrite strncpy_pad_spec. cbn [lookup list_lookup from_option].
    destruct (Z.leb_spec (s + 1) x), (Z.ltb_spec x (s + 1 + Z.of_nat k)), (Z.leb_spec s x),
      (Z.ltb_spec x (s + Z.of_nat (S k))); cbn [andb]; try lia; try done.
    all: try (rewrite fn_lookup_insert_ne by lia; done).
    replace x with s by lia. apply fn_lookup_insert.
  - destruct Ht as (_ & Hc & Ht). destruct (Z.eqb_spec c 0); [done|]. cbn [negb]. cbn [length] in Hd.
    rewrite (IH l); [| |lia].
    2: { apply (cstr_ext l m); [|done]. intros y Hy. apply fn_lookup_insert_ne. lia. }
    destruct (Z.leb_spec (s + 1) x), (Z.ltb_spec x (s + 1 + Z.of_nat k)), (Z.leb_spec s x),
      (Z.ltb_spec x (s + Z.of_nat (S k))); cbn [andb]; try lia.
    all: try (rewrite fn_lookup_insert_ne by lia; done).
    + by replace (Z.to_nat (x - s)) with (S (Z.to_nat (x - (s + 1)))) by lia.
    + replace x with s by lia. by rewrite Z.sub_diag, fn_lookup_insert.
Qed.

Lemma strncpy_field_witness :
  strncpy two_strings 20 0 14 21 = 98 /\ strncpy two_strings 20 0 14 33 = 0.
Proof.
  split; rewrite (strncpy_field [97; 98] two_strings 20 0 14); try (by repeat split); cbn; lia.
Defined.

(** [safestrcpy] always leaves a string: the characters of [t], cut to fit the [n] bytes
    of the destination with the final NUL.  It writes nothing outside them, and nothing at
    all when [n] is not positive. *)
Theorem safestrcpy_truncates l m s t n :
  cstr m t l -> s + n <= t \/ t + Z.of_nat (length l) < s ->
  (0 < n -> cstr (safestrcpy m s t n) s (take (Z.to_nat (n - 1)) l)) /\
  forall x, x < s \/ s + Z.max 0 n <= x -> safestrcpy m s t n x = m x.
Proof.
  intros Ht Hd. unfold safestrcpy. destruct (Z.leb_spec n 0); [split; [lia|done]|].
  revert Hd. replace n with (Z.of_nat (Z.to_nat (n - 1)) + 1) by lia.
  replace (Z.to_nat (Z.of_nat (Z.to_nat (n - 1)) + 1 - 1)) with (Z.to_nat (n - 1)) by lia.
  generalize (Z.to_nat (n - 1)) as k. clear n H. intros k. revert l m s t Ht.
  induction k as [|k IH]; intros l m s t Ht Hd; cbn [safestrcpy_copy].
  { split; [intros _; apply fn_lookup_insert|]. intros x Hx. apply fn_lookup_insert_ne. lia. }
  rewrite (cstr_hd m t l) by done. destruct l as [|c l]; cbn [hd0].
  - cbn [negb Z.eqb take cstr]. split.
    + intros _. rewrite fn_lookup_insert_ne by lia. apply fn_lookup_insert.
    + intros x Hx. rewrite !fn_lookup_insert_ne by lia. done.
  - destruct Ht as (_ & Hc & Ht). destruct (Z.eqb_spec c 0); [done|]. cbn [negb]. cbn [length] in Hd.
    destruct (IH l (<[s := c]> m) (s + 1) (t + 1)) as [H1 H2]; [| |split].
    + apply (cstr_ext l m); [|done]. intros y Hy. apply fn_lookup_insert_ne. lia.
    + lia.
    + intros _. cbn [take cstr]. split_and!; [|done|apply H1; lia].
      rewrite H2 by lia. apply fn_lookup_insert.
    + intros x Hx. rewrite H2 by lia. apply fn_lookup_insert_ne. lia.
Qed.

Lemma safestrcpy_truncates_witness : cstr (safestrcpy two_strings 20 0 2) 20 [97].
Proof.
  destruct (safestrcpy_truncates [97; 98] two_strings 20 0 2) as [H _].
  - by repeat split.
  - cbn; lia.
  - apply H. lia.
Defined.

Definition eol (c : Z) : Prop := c = 10 \/ c = 13.

Lemma gets_loop_spec cnt : forall m buf i input, exists line rest m',
  Ulib.gets_loop m buf i input cnt = (m', i + Z.of_nat (length line), rest) /\
  input = line ++ rest /\ (length line <= cnt)%nat /\
  (forall x, x < buf + i -> m' x = m x) /\
  (forall m2, Forall (fun c => c <> 0) line -> m2 (buf + i + Z.of_nat (length line)) = 0 ->
     (forall x, buf + i <= x < buf + i + Z.of_nat (length line) -> m2 x = m' x) ->
     cstr m2 (buf + i) line) /\
  (forall c, c ∈ removelast line -> ~ eol c) /\
  (rest = [] \/ length line = cnt \/ exists c, last line = Some c /\ eol c).
Proof.
  induction cnt as [|cnt IH]; intros m buf i input.
  { exists [], input, m. cbn. rewrite !Z.add_0_r. destruct input; split_and!; auto; set_solver. }
  destruct input as [|c input].
  { exists [], [], m. cbn. rewrite !Z.add_0_r. split_and!; auto; [lia|set_solver]. }
  cbn [Ulib.gets_loop]. destruct ((c =? 10) || (c =? 13)) eqn:E.
  - exists [c], input, (<[buf + i := c]> m). cbn. split_and!; try done; [lia| | |set_solver|].
    + intros x Hx. apply fn_lookup_insert_ne. lia.
    + intros m2 [Hc _]%Forall_cons H0 He. rewrite He by lia. by rewrite fn_lookup_insert.
    + right. right. exists c. split; [done|]. unfold eol. apply orb_true_iff in E as [?|?]; b2p; auto.
  - destruct (IH (<[buf + i := c]> m) buf (i + 1) input) as (line & rest & m' & H1 & H2 & H3 & H4 & H5 & H6 & H7).
    exists (c :: line), rest, m'. cbn [length].
    replace (i + 1 + Z.of_nat (length line)) with (i + Z.of_nat (S (length line))) in H1 by lia.
    replace (buf + (i + 1)) with (buf + i + 1) in * by lia.
    assert (Hci : ~ eol c) by (b2p; unfold eol; lia). split_and!; [done|by rewrite H2|lia| | | |].
    + intros x Hx. rewrite H4 by lia. apply fn_lookup_insert_ne. lia.
    + intros m2 [Hc Hl]%Forall_cons H0 He. cbn [cstr]. split_and!; [|done|].
      * rewrite He, H4 by lia. apply fn_lookup_insert.
      * apply H5; [done| |intros; apply He; lia].
        by replace (buf + i + 1 + Z.of_nat (length line)) with (buf + i + Z.of_nat (S (length line))) by lia.
    + intros d Hd. cbn [removelast] in Hd. destruct line; [by apply elem_of_nil in Hd|].
      apply elem_of_cons in Hd as [->|Hd]; [done|by apply H6].
    + destruct H7 as [H7|[H7|(d & H7 & H8)]]; [by left|right; left; lia|right; right].
      exists d. split; [|done]. by destruct line.
Qed.

(** [gets] reads one line: the input up to and including its first newline or return,
    but at most [max - 1] characters, and ends the string; the rest of the input is left to
    the next call.  (The input has no NUL bytes.) *)
Theorem gets_line m buf max input :
  1 <= max -> Forall (fun c => c <> 0) input ->
  exists line rest, input = line ++ rest /\
    snd (Ulib.gets m buf max input) = rest /\ cstr (fst (Ulib.gets m buf max input)) buf line /\
    Z.of_nat (length line) <= max - 1 /\ (forall c, c ∈ removelast line -> ~ eol c) /\
    (rest = [] \/ Z.of_nat (length line) = max - 1 \/ exists c, last line = Some c /\ eol c).
Proof.
  intros Hmax Hin. unfold Ulib.gets.
  destruct (gets_loop_spec (Z.to_nat (max - 1)) m buf 0 input) as (line & rest & m' & H1 & H2 & H3 & _ & H5 & H6 & H7).
  rewrite H1, Z.add_0_l. cbn [fst snd]. exists line, rest. split_and!; [done..| |lia|done|].
  - rewrite Z.add_0_r in H5. rewrite H2 in Hin. apply Forall_app in Hin as [Hl _].
    apply H5; [done|apply fn_lookup_insert|]. intros x Hx. apply fn_lookup_insert_ne. lia.
  - destruct H7 as [?|[?|?]]; auto. right. left. lia.
Qed.

Lemma gets_line_witness :
  exists line rest, [104; 105; 10; 120] = line ++ rest /\
    snd (Ulib.gets (fun _ => 255) 50 100 [104; 105; 10; 120]) = rest /\
    cstr (fst (Ulib.gets (fun _ => 255) 50 100 [104; 105; 10; 120])) 50 line.
Proof.
  destruct (gets_line (fun _ => 255) 50 100 [104; 105; 10; 120]) as (line & rest & H1 & H2 & H3 & _).
  - lia.
  - repeat constructor; lia.
  - exists line, rest. split; [exact H1|split; [exact H2|exact H3]].
Defined.

Lemma store_bytes_spec bs : forall m a x,
  KString.store_bytes m a bs x = if (a <=? x) && (x <? a + Z.of_nat (length bs)) then bs !!! Z.to_nat (x - a) else m x.
Proof.
  induction bs as [|b bs IH]; intros m a x; cbn [KString.store_bytes length].
  - destruct (Z.leb_spec a x), (Z.ltb_spec x (a + Z.of_nat 0)); (done || lia).
  - rewrite IH. destruct (decide (x = a)) as [->|Hne].
    + destruct (Z.leb_spec (a + 1) a); [lia|]. cbn [andb]. rewrite fn_lookup_insert, Z.leb_refl, Z.sub_diag. destruct (Z.ltb_spec a (a + Z.of_nat (S (length bs)))); [done|lia].
    + rewrite fn_lookup_insert_ne by done. destruct (Z.leb_spec (a + 1) x), (Z.leb_spec a x); cbn [andb]; try lia.
      destruct (Z.ltb_spec x (a + 1 + Z.of_nat (length bs))), (Z.ltb_spec x (a + Z.of_nat (S (length bs)))); try lia.
      replace (Z.to_nat (x - a)) with (S (Z.to_nat (x - (a + 1)))) by lia. done.
Qed.
Lemma move_from_range buf m dst i n x : 0 <= n ->
  KString.move_from buf m dst i n x = if (dst <=? x) && (x <? dst + n) then buf m (i + (x - dst)) else m x.
Proof.
  intros Hn. unfold KString.move_from. rewrite store_bytes_spec, length_map, length_seqZ, Z2Nat.id by done.
  destruct (Z.leb_spec dst x), (Z.ltb_spec x (dst + n)); cbn [andb]; try done.
  apply list_lookup_total_correct. change (map (buf m) (seqZ i n)) with (buf m <$> seqZ i n).
  rewrite list_lookup_fmap, (lookup_seqZ_lt i n (Z.to_nat (x - dst))) by lia. cbn. by rewrite Z2Nat.id by lia.
Qed.
(** Which is what [memmove] does to bytes in the memory itself. *)
Lemma move_from_memmove m dst p i n x : 0 <= n ->
  KString.move_from (fun m i => m (p + i)) m dst i n x = KString.memmove m dst (p + i) n x.
Proof. intros Hn. rewrite move_from_range, memmove_range by done. by rewrite <- Z.add_assoc. Qed.
End StringFacts.
