(* ===== verification/Spinlock.v ===== *)
(** Spin locks ([spinlock.c], [spinlock.h]) on a multiprocessor.

    [Module Cpu] models the per-processor interrupt nesting of [pushcli]/[popcli];
    [Module Spin] models the lock operations and the interleavings of all processors at the
    granularity of their accesses to the shared lock word, and proves mutual exclusion. *)

From S2P Require Import Prelude.

(** ** Interrupt nesting on one processor *)
Module Cpu.

Definition FL_IF : Z := 512.

(** The fields of [struct cpu] that the locking code uses, and the processor's flags. *)
Record cpu := MkCpu { ncli : Z; intena : Z; eflags : Z }.

Definition readeflags : M cpu Z := reads eflags.
Definition cli : M cpu unit := modify (fun c =>
  MkCpu (ncli c) (intena c) (Z.land (eflags c) (Z.lnot FL_IF))).
Definition sti : M cpu unit := modify (fun c =>
  MkCpu (ncli c) (intena c) (Z.lor (eflags c) FL_IF)).
Definition set_ncli (n : Z) : M cpu unit := modify (fun c =>
  MkCpu n (intena c) (eflags c)).
Definition set_intena (n : Z) : M cpu unit := modify (fun c =>
  MkCpu (ncli c) n (eflags c)).

(** [mycpu]: the state is this processor's own record, so what is left of the function is
    its check that interrupts are off. *)
Definition mycpu : M cpu unit :=
  e <- readeflags ;;
  if negb (Z.land e FL_IF =? 0) then panic "mycpu called with interrupts enabled" else ret tt.

Definition pushcli : M cpu unit :=
  e <- readeflags ;;
  cli ;;;
  mycpu ;;;
  n <- reads ncli ;;
  when (n =? 0) (set_intena (Z.land e FL_IF)) ;;;
  n <- reads ncli ;;
  set_ncli (n + 1).

Definition popcli : M cpu unit :=
  e <- readeflags ;;
  if negb (Z.land e FL_IF =? 0) then panic "popcli - interruptible" else
  mycpu ;;;
  n <- reads ncli ;;
  set_ncli (n - 1) ;;;
  n <- reads ncli ;;
  if n <? 0 then panic "popcli" else
  ie <- reads intena ;;
  when ((n =? 0) && negb (ie =? 0)) sti.

(** Interrupts are on. *)
Definition if_on (c : cpu) : bool := negb (Z.land (eflags c) FL_IF =? 0).

(** What the nesting discipline guarantees: the depth is not negative, and inside a
    [pushcli] interrupts are off. *)
Definition wf (c : cpu) : Prop := 0 <= ncli c /\ (0 < ncli c -> if_on c = false).

Lemma land_cli e : Z.land (Z.land e (Z.lnot FL_IF)) FL_IF = 0.
Proof.
  rewrite <- Z.land_assoc. replace (Z.land (Z.lnot FL_IF) FL_IF) with 0 by done.
  apply Z.land_0_r.
Qed.

Lemma land_sti e : Z.land (Z.lor e FL_IF) FL_IF = FL_IF.
Proof.
  apply Z.bits_inj'. intros n _. rewrite Z.land_spec, Z.lor_spec.
  by destruct (Z.testbit e n), (Z.testbit FL_IF n).
Qed.

Lemma pushcli_run c :
  pushcli c = Ret tt (MkCpu (ncli c + 1)
    (if ncli c =? 0 then Z.land (eflags c) FL_IF else intena c)
    (Z.land (eflags c) (Z.lnot FL_IF))).
Proof.
  destruct c as [n ie e]. unfold pushcli, mycpu, readeflags, cli, set_intena, set_ncli.
  unfold bind, reads, modify, when, ret. cbn. rewrite land_cli. cbn.
  destruct (n =? 0); done.
Qed.

Lemma popcli_run c :
  0 < ncli c -> if_on c = false ->
  popcli c = Ret tt (MkCpu (ncli c - 1) (intena c)
    (if (ncli c =? 1) && negb (intena c =? 0) then Z.lor (eflags c) FL_IF else eflags c)).
Proof.
  destruct c as [n ie e]. unfold if_on. cbn. intros Hn He%negb_false_iff.
  unfold popcli, mycpu, readeflags, sti, set_ncli, bind, reads, modify, when, ret. cbn.
  rewrite He. cbn. rewrite He. cbn.
  destruct (Z.ltb_spec (n - 1) 0); [lia|].
  destruct (Z.eqb_spec (n - 1) 0), (Z.eqb_spec n 1); try lia; cbn; by destruct (ie =? 0).
Qed.

Lemma testbit_FL_IF n : Z.testbit FL_IF n = (n =? 9).
Proof. rewrite Z.eqb_sym. apply (Z.pow2_bits_eqb 9). lia. Qed.

Lemma if_on_testbit c : if_on c = Z.testbit (eflags c) 9.
Proof.
  unfold if_on. destruct (Z.testbit (eflags c) 9) eqn:E.
  - destruct (Z.eqb_spec (Z.land (eflags c) FL_IF) 0) as [H|]; [|done].
    assert (Z.testbit (Z.land (eflags c) FL_IF) 9 = false) as H9 by (by rewrite H).
    by rewrite Z.land_spec, E in H9.
  - replace (Z.land (eflags c) FL_IF) with 0; [done|]. symmetry. apply Z.bits_inj'.
    intros n _. rewrite Z.land_spec, testbit_FL_IF, Z.bits_0.
    destruct (Z.eqb_spec n 9) as [->|]; [by rewrite E|apply andb_false_r].
Qed.

(** [pushcli(); popcli();] leaves the depth and the flags as they were. *)
Lemma pushcli_popcli c :
  wf c ->
  exists c', (pushcli ;;; popcli) c = Ret tt c' /\ ncli c' = ncli c /\ eflags c' = eflags c.
Proof.
  intros [Hn Hoff]. unfold bind. rewrite pushcli_run, popcli_run; cbn.
  2: lia. 2: unfold if_on; cbn; by rewrite land_cli.
  eexists. split; [done|]. cbn. split; [lia|].
  assert (forall b, Z.testbit (eflags c) 9 = b ->
    (if b then Z.lor (Z.land (eflags c) (Z.lnot FL_IF)) FL_IF
     else Z.land (eflags c) (Z.lnot FL_IF)) = eflags c) as Hb.
  { intros b Eb. apply Z.bits_inj'. intros n Hn'.
    destruct b; rewrite ?Z.lor_spec, Z.land_spec, Z.lnot_spec, testbit_FL_IF by done;
      destruct (Z.eqb_spec n 9) as [->|]; rewrite ?Eb; cbn;
      by rewrite ?andb_true_r, ?orb_false_r. }
  rewrite <- (Hb _ eq_refl) at 4. rewrite <- if_on_testbit.
  destruct (Z.eqb_spec (ncli c) 0) as [E|E].
  - rewrite E. cbn. unfold if_on. by destruct (Z.land (eflags c) FL_IF =? 0).
  - replace (ncli c + 1 =? 1) with false by (symmetry; apply Z.eqb_neq; lia). cbn.
    by rewrite Hoff by lia.
Qed.

Lemma pushcli_wf c c' : 0 <= ncli c -> pushcli c = Ret tt c' ->
  wf c' /\ ncli c' = ncli c + 1 /\ if_on c' = false.
Proof.
  intros Hn. rewrite pushcli_run. intros [= <-]. unfold wf, if_on. cbn.
  rewrite land_cli. cbn. repeat split; auto; lia.
Qed.

Lemma popcli_wf c : wf c -> 0 < ncli c ->
  exists c', popcli c = Ret tt c' /\ wf c' /\ ncli c' = ncli c - 1.
Proof.
  intros [Hn Hoff] Hpos. rewrite popcli_run by auto. eexists. split; [done|].
  split; [|done]. split; cbn; [lia|]. intros Hp. unfold if_on. cbn.
  destruct (Z.eqb_spec (ncli c) 1); [lia|]. cbn. by apply Hoff.
Qed.
#[global] Arguments pushcli : simpl never.
#[global] Arguments popcli : simpl never.
#[global] Arguments mycpu : simpl never.
End Cpu.

(** ** The lock, and all processors together *)
Module Spin.
Import Cpu.

(** [struct spinlock]; [name] and [pcs] serve debugging and are left out.  A processor is
    its index in [cpus[]]; the null pointer in the [cpu] field is [None]. *)
Record spinlock := MkLock { locked : Z; lcpu : option nat }.

(** What one processor works on: its own record and one lock. *)
Definition St : Type := Cpu.cpu * spinlock.

Definition on_cpu {A} (m : M Cpu.cpu A) : M St A := zoom fst (fun c s => (c, snd s)) m.
Definition set_lock (f : spinlock -> spinlock) : M St unit :=
  modify (fun s => (fst s, f (snd s))).

Definition initlock : spinlock := MkLock 0 None.

Definition holding (me : nat) : M St bool :=
  on_cpu pushcli ;;;
  l <- reads snd ;;
  r <- (if locked l =? 0 then ret false
        else on_cpu mycpu ;;; ret (bool_decide (lcpu l = Some me))) ;;
  on_cpu popcli ;;;
  ret r.

(** [acquire] up to its spin loop. *)
Definition acquire_enter (me : nat) : M St unit :=
  on_cpu pushcli ;;;
  h <- holding me ;;
  if h then panic "acquire" else ret tt.

(** [xchg(&lk->locked, 1)], atomic. *)
Definition xchg : M St Z :=
  l <- reads snd ;;
  set_lock (fun l => MkLock 1 (lcpu l)) ;;;
  ret (locked l).

(** [acquire] after its spin loop. *)
Definition acquire_record (me : nat) : M St unit :=
  on_cpu mycpu ;;;
  set_lock (fun l => MkLock (locked l) (Some me)).

(** [release] up to the store that frees the lock. *)
Definition release_enter (me : nat) : M St unit :=
  h <- holding me ;;
  if h then set_lock (fun l => MkLock (locked l) None) else panic "release".

(** The store [movl $0, lk->locked] and what follows it. *)
Definition release_exit : M St unit :=
  set_lock (fun l => MkLock 0 (lcpu l)) ;;;
  on_cpu popcli.

(** The two functions as one processor runs them when nobody else takes the lock; the spin
    loop gets a bound on its iterations. *)
Fixpoint spin (fuel : nat) : M St unit :=
  match fuel with
  | O => sleep_on ("spin"%string, 0%nat)
  | S f => r <- xchg ;; if r =? 0 then ret tt else spin f
  end.
Definition acquire (fuel me : nat) : M St unit :=
  acquire_enter me ;;; spin fuel ;;; acquire_record me.
Definition release (me : nat) : M St unit := release_enter me ;;; release_exit.

(** Where a processor is in the code: outside the two functions ([Run]), in the spin loop
    of [acquire], after its successful [xchg], or in [release] before the freeing store. *)
Inductive pc := Run | Spinning (lk : nat) | Got (lk : nat) | Releasing (lk : nat).

(** The machine.  [held i] lists the locks whose [acquire] has returned on processor [i]
    and whose [release] it has not called: its critical sections. *)
Record mach := MkMach {
  cpus : nat -> Cpu.cpu;
  locks : nat -> spinlock;
  pcs : nat -> pc;
  held : nat -> list nat
}.

Definition put (m : mach) (i lk : nat) (s : St) (p : pc) (h : list nat) : mach :=
  MkMach (<[i := fst s]> (cpus m)) (<[lk := snd s]> (locks m))
    (<[i := p]> (pcs m)) (<[i := h]> (held m)).

(** One step of processor [i].  The code between two shared accesses runs in one step. *)
Inductive step : mach -> mach -> Prop :=
| step_enter m i lk s :
    pcs m i = Run ->
    acquire_enter i (cpus m i, locks m lk) = Ret tt s ->
    step m (put m i lk s (Spinning lk) (held m i))
| step_xchg_busy m i lk s r :
    pcs m i = Spinning lk ->
    xchg (cpus m i, locks m lk) = Ret r s -> r <> 0 ->
    step m (put m i lk s (Spinning lk) (held m i))
| step_xchg_free m i lk s :
    pcs m i = Spinning lk ->
    xchg (cpus m i, locks m lk) = Ret 0 s ->
    step m (put m i lk s (Got lk) (held m i))
| step_record m i lk s :
    pcs m i = Got lk ->
    acquire_record i (cpus m i, locks m lk) = Ret tt s ->
    step m (put m i lk s Run (lk :: held m i))
| step_release m i lk s :
    pcs m i = Run ->
    release_enter i (cpus m i, locks m lk) = Ret tt s ->
    step m (put m i lk s (Releasing lk) (remove_elem lk (held m i)))
| step_free m i lk s :
    pcs m i = Releasing lk ->
    release_exit (cpus m i, locks m lk) = Ret tt s ->
    step m (put m i lk s Run (held m i))
| step_interrupts m i lk c :
    (* code outside critical sections turns interrupts on or off *)
    pcs m i = Run -> held m i = [] ->
    (cli (cpus m i) = Ret tt c \/ sti (cpus m i) = Ret tt c) ->
    step m (put m i lk (c, locks m lk) Run []).

Inductive reachable (m0 : mach) : mach -> Prop :=
| reach_init : reachable m0 m0
| reach_step m m' : reachable m0 m -> step m m' -> reachable m0 m'.

(** All locks initialised, no lock taken, no [pushcli] pending. *)
Definition initial (m : mach) : Prop :=
  (forall lk, locks m lk = initlock) /\
  (forall i, pcs m i = Run /\ held m i = [] /\ ncli (cpus m i) = 0).

(** Processor [i] owns the lock word of [lk]. *)
Definition owns (m : mach) (i lk : nat) : Prop :=
  lk ∈ held m i \/ pcs m i = Got lk \/ pcs m i = Releasing lk.

Definition depth (p : pc) : Z := match p with Run => 0 | _ => 1 end.

Record inv (m : mach) : Prop := {
  inv_cpu i : wf (cpus m i);
  inv_depth i : ncli (cpus m i) = Z.of_nat (length (held m i)) + depth (pcs m i);
  inv_nodup i : NoDup (held m i);
  inv_excl i j lk : owns m i lk -> owns m j lk -> i = j;
  inv_pc i lk : pcs m i = Spinning lk \/ pcs m i = Got lk \/ pcs m i = Releasing lk ->
                lk ∉ held m i;
  inv_locked lk : locked (locks m lk) <> 0 <-> exists i, owns m i lk;
  inv_lcpu lk i : lcpu (locks m lk) = Some i <-> lk ∈ held m i
}.

Lemma mycpu_run c : if_on c = false -> mycpu c = Ret tt c.
Proof. unfold if_on, mycpu, readeflags, bind, reads. by intros ->. Qed.

Lemma holding_run me c l :
  wf c ->
  exists c', holding me (c, l) =
      Ret (negb (locked l =? 0) && bool_decide (lcpu l = Some me)) (c', l) /\
    wf c' /\ ncli c' = ncli c /\ eflags c' = eflags c.
Proof.
  intros Hwf. destruct (pushcli_popcli c Hwf) as (c' & Hpp & Hn & He).
  apply bind_inv in Hpp as ([] & c1 & Hpush & Hpop).
  destruct (pushcli_wf c c1) as (_ & _ & Hoff); [apply Hwf|done|].
  exists c'. split.
  - unfold holding, on_cpu, bind, zoom, reads, ret. cbn. rewrite Hpush. cbn.
    destruct (locked l =? 0); cbn; rewrite ?mycpu_run by done; cbn; by rewrite Hpop.
  - split; [|done]. unfold wf, if_on in *. by rewrite Hn, He.
Qed.

Lemma acquire_enter_run me c l :
  wf c ->
  negb (locked l =? 0) && bool_decide (lcpu l = Some me) = false ->
  exists c', acquire_enter me (c, l) = Ret tt (c', l) /\ wf c' /\ ncli c' = ncli c + 1.
Proof.
  intros Hwf Hh. pose proof (pushcli_run c) as Hpush.
  destruct (pushcli_wf c _ (proj1 Hwf) Hpush) as (Hwf1 & Hn1 & _).
  destruct (holding_run me _ l Hwf1) as (c' & Hr & Hwf' & Hn' & _).
  exists c'. split; [|split; [done|congruence]].
  unfold acquire_enter, bind, on_cpu, zoom at 1. cbn [fst].
  rewrite Hpush. cbn [snd].
  by rewrite Hr, Hh.
Qed.

Lemma acquire_enter_panic me c l :
  wf c -> locked l <> 0 -> lcpu l = Some me -> acquire_enter me (c, l) = Panic "acquire".
Proof.
  intros Hwf Hl Hc. pose proof (pushcli_run c) as Hpush.
  destruct (pushcli_wf c _ (proj1 Hwf) Hpush) as (Hwf1 & _ & _).
  destruct (holding_run me _ l Hwf1) as (c' & Hr & _).
  unfold acquire_enter, bind, on_cpu, zoom at 1. cbn [fst].
  rewrite Hpush. cbn [snd].
  rewrite Hr, bool_decide_true by done. apply Z.eqb_neq in Hl. by rewrite Hl.
Qed.

Lemma release_enter_run me c l :
  wf c -> locked l <> 0 -> lcpu l = Some me ->
  exists c', release_enter me (c, l) = Ret tt (c', MkLock (locked l) None) /\
    wf c' /\ ncli c' = ncli c.
Proof.
  intros Hwf Hl Hc. destruct (holding_run me c l Hwf) as (c' & Hr & Hwf' & Hn & _).
  exists c'. split; [|done]. unfold release_enter, bind. rewrite Hr.
  rewrite bool_decide_true by done. apply Z.eqb_neq in Hl. by rewrite Hl.
Qed.

Lemma acquire_enter_inv me c l c' l' :
  wf c -> acquire_enter me (c, l) = Ret tt (c', l') ->
  l' = l /\ wf c' /\ ncli c' = ncli c + 1 /\
  negb (locked l =? 0) && bool_decide (lcpu l = Some me) = false.
Proof.
  intros Hwf H.
  destruct (negb (locked l =? 0) && bool_decide (lcpu l = Some me)) eqn:E.
  - b2p. by rewrite acquire_enter_panic in H.
  - destruct (acquire_enter_run me c l Hwf E) as (c1 & Hr & ? & ?).
    rewrite Hr in H. by injection H as <- <-.
Qed.

Lemma release_enter_inv me c l c' l' :
  wf c -> release_enter me (c, l) = Ret tt (c', l') ->
  l' = MkLock (locked l) None /\ wf c' /\ ncli c' = ncli c /\
  locked l <> 0 /\ lcpu l = Some me.
Proof.
  intros Hwf H. destruct (holding_run me c l Hwf) as (c1 & Hr & Hwf' & Hn & _).
  unfold release_enter, bind in H. rewrite Hr in H.
  destruct (locked l =? 0) eqn:E1; [done|]. destruct (bool_decide _) eqn:E2; [|done].
  unfold set_lock, modify in H. cbn in H. b2p. simplify_eq. done.
Qed.

Lemma release_exit_run c l :
  wf c -> 0 < ncli c ->
  exists c', release_exit (c, l) = Ret tt (c', MkLock 0 (lcpu l)) /\
    wf c' /\ ncli c' = ncli c - 1.
Proof.
  intros Hwf Hn. destruct (popcli_wf c Hwf Hn) as (c' & Hp & ? & ?).
  exists c'. split; [|done]. unfold release_exit, bind, set_lock, modify, on_cpu, zoom.
  cbn. by rewrite Hp.
Qed.

Lemma initial_inv m : initial m -> inv m.
Proof.
  intros [Hl Hi]. split.
  - intros i. destruct (Hi i) as (_ & _ & Hn). unfold wf. lia.
  - intros i. destruct (Hi i) as (-> & -> & ->). done.
  - intros i. destruct (Hi i) as (_ & -> & _). constructor.
  - intros i j lk Ho. destruct (Hi i) as (Hp & Hh & _). unfold owns in Ho.
    rewrite Hp, Hh in Ho. set_solver.
  - intros i lk. destruct (Hi i) as (-> & _ & _). naive_solver.
  - intros lk. rewrite Hl. split; [done|]. intros (i & Ho). destruct (Hi i) as (Hp & Hh & _).
    unfold owns in Ho. rewrite Hp, Hh in Ho. set_solver.
  - intros lk i. rewrite Hl. destruct (Hi i) as (_ & -> & _). set_solver.
Qed.

(** How [put] changes ownership: only processor [i] and lock [lk] are concerned. *)
Lemma owns_put_ne m i lk s p h j lk' :
  j <> i -> owns (put m i lk s p h) j lk' <-> owns m j lk'.
Proof. intros. unfold owns, put. cbn. by rewrite !fn_lookup_insert_ne by done. Qed.
Lemma owns_put_eq m i lk s p h lk' :
  owns (put m i lk s p h) i lk' <-> lk' ∈ h \/ p = Got lk' \/ p = Releasing lk'.
Proof. unfold owns, put. cbn. by rewrite !fn_lookup_insert. Qed.

(** A step of processor [i] on lock [lk] keeps the invariant when its own record stays well
    formed, the other locks keep their owner, and the lock word and the [cpu] field of [lk]
    tell who owns it. *)
Lemma put_inv m i lk s p h :
  inv m ->
  wf (fst s) -> ncli (fst s) = Z.of_nat (length h) + depth p -> NoDup h ->
  (forall lk', lk' <> lk -> (lk' ∈ h <-> lk' ∈ held m i) /\
     (p <> Got lk' /\ p <> Releasing lk' /\ p <> Spinning lk') /\
     (pcs m i <> Got lk' /\ pcs m i <> Releasing lk' /\ pcs m i <> Spinning lk')) ->
  (p = Spinning lk \/ p = Got lk \/ p = Releasing lk -> lk ∉ h) ->
  (owns (put m i lk s p h) i lk -> forall j, j <> i -> ~ owns m j lk) ->
  (locked (snd s) <> 0 <->
     owns (put m i lk s p h) i lk \/ exists j, j <> i /\ owns m j lk) ->
  (forall j, lcpu (snd s) = Some j <->
     (j = i /\ lk ∈ h) \/ (j <> i /\ lk ∈ held m j)) ->
  inv (put m i lk s p h).
Proof.
  intros Hm Hwf Hn Hnd Hoth Hpc Hex Hlk Hcpu.
  assert (Hown : forall lk', lk' <> lk -> owns (put m i lk s p h) i lk' <-> owns m i lk').
  { intros lk' Hne. rewrite owns_put_eq. unfold owns.
    destruct (Hoth lk' Hne) as (H1 & (? & ? & ?) & (? & ? & ?)). naive_solver. }
  split.
  - intros j. unfold put. cbn. destruct (decide (i = j)) as [->|];
      rewrite ?fn_lookup_insert, ?fn_lookup_insert_ne by done; [done|apply Hm].
  - intros j. unfold put. cbn. destruct (decide (i = j)) as [->|];
      rewrite ?fn_lookup_insert, ?fn_lookup_insert_ne by done; [done|apply Hm].
  - intros j. unfold put. cbn. destruct (decide (i = j)) as [->|];
      rewrite ?fn_lookup_insert, ?fn_lookup_insert_ne by done; [done|apply Hm].
  - intros j j' lk' H1 H2. destruct (decide (j = i)) as [->|Hj], (decide (j' = i)) as [->|Hj'];
      [done| | |].
    + rewrite owns_put_ne in H2 by done.
      destruct (decide (lk' = lk)) as [->|Hne]; [by destruct (Hex H1 j' Hj')|].
      apply Hown in H1; [|done]. by eapply inv_excl.
    + rewrite owns_put_ne in H1 by done.
      destruct (decide (lk' = lk)) as [->|Hne]; [by destruct (Hex H2 j Hj)|].
      apply Hown in H2; [|done]. by eapply inv_excl.
    + rewrite owns_put_ne in H1, H2 by done. by eapply inv_excl.
  - intros j lk'. unfold put. cbn. destruct (decide (i = j)) as [->|];
      rewrite ?fn_lookup_insert, ?fn_lookup_insert_ne by done; [|apply Hm].
    destruct (decide (lk' = lk)) as [->|Hne]; [done|].
    destruct (Hoth lk' Hne) as (_ & (? & ? & ?) & _). naive_solver.
  - intros lk'. destruct (decide (lk' = lk)) as [->|Hne].
    + unfold put at 1. cbn. rewrite fn_lookup_insert, Hlk. split.
      * intros [Ho|(j & Hj & Ho)]; [by exists i|exists j]. by rewrite owns_put_ne.
      * intros (j & Ho). destruct (decide (j = i)) as [->|Hj]; [by left|right; exists j].
        by rewrite owns_put_ne in Ho.
    + unfold put at 1. cbn. rewrite fn_lookup_insert_ne, (inv_locked m Hm) by done.
      split; intros (j & Ho); exists j; destruct (decide (j = i)) as [->|Hj].
      * by apply Hown. * by rewrite owns_put_ne. * by apply Hown. * by rewrite owns_put_ne in Ho.
  - intros lk' j. unfold put. cbn. destruct (decide (lk' = lk)) as [->|Hne].
    + rewrite fn_lookup_insert, Hcpu. destruct (decide (i = j)) as [->|];
        rewrite ?fn_lookup_insert, ?fn_lookup_insert_ne by done; naive_solver.
    + rewrite fn_lookup_insert_ne, (inv_lcpu m Hm) by done. destruct (decide (i = j)) as [->|];
        rewrite ?fn_lookup_insert, ?fn_lookup_insert_ne by done; [|done].
      destruct (Hoth lk' Hne) as (? & _). naive_solver.
Qed.

(** The side conditions of [put_inv] that only compare program counters. *)
Ltac solve_pcs :=
  intros lk' Hne; split;
  [first [reflexivity | rewrite elem_of_cons; intuition congruence]
  |repeat split; congruence].

Lemma machine_step_inv m m' : inv m -> step m m' -> inv m'.
Proof.
  intros Hm Hstep. destruct Hstep as [m i lk [c l] Hpc Hr|m i lk [c l] r Hpc Hr Hnz
    |m i lk [c l] Hpc Hr|m i lk [c l] Hpc Hr|m i lk [c l] Hpc Hr|m i lk [c l] Hpc Hr
    |m i lk c Hpc Hh Hr];
    pose proof (inv_cpu m Hm i) as Hwf; pose proof (inv_depth m Hm i) as Hd;
    pose proof (inv_nodup m Hm i) as Hnd; pose proof (inv_locked m Hm lk) as Hlk;
    pose proof (inv_lcpu m Hm lk) as Hcpu; pose proof (inv_pc m Hm i lk) as Hin;
    pose proof (fun j => inv_excl m Hm i j lk) as Hex; rewrite Hpc in *; cbn [depth] in Hd.
  - apply acquire_enter_inv in Hr as (-> & Hwf' & Hn & Hh); [|done].
    assert (Hnot : lk ∉ held m i).
    { intros Hi. apply andb_false_iff in Hh as [Hh|Hh]; b2p.
      - apply Hlk; [|done]. exists i. by left.
      - apply Hh, Hcpu, Hi. }
    assert (Hno : ~ owns m i lk) by (unfold owns; rewrite Hpc; naive_solver).
    apply put_inv; cbn; [done..|lia|done|solve_pcs|done| | |].
    + rewrite owns_put_eq. naive_solver.
    + rewrite Hlk, owns_put_eq. split; [|naive_solver].
      intros (j & Hj). right. exists j. split; [|done]. by intros ->.
    + intros j. rewrite Hcpu. destruct (decide (j = i)); naive_solver.
  - cbv [xchg bind reads set_lock modify ret] in Hr. cbn in Hr. injection Hr as Hr <- <-.
    assert (Hno : ~ owns m i lk) by (unfold owns; rewrite Hpc; naive_solver).
    apply put_inv; cbn; [done..|lia|done|solve_pcs|naive_solver| | |].
    + rewrite owns_put_eq. naive_solver.
    + rewrite owns_put_eq. split; [intros _|done]. right.
      destruct (proj1 Hlk) as (j & Hj); [lia|]. exists j. split; [|done]. by intros ->.
    + intros j. rewrite Hcpu. destruct (decide (j = i)); naive_solver.
  - cbv [xchg bind reads set_lock modify ret] in Hr. cbn in Hr. injection Hr as Hr <- <-.
    assert (Hfree : forall j, ~ owns m j lk) by (intros j Hj; apply Hlk; eauto).
    apply put_inv; cbn; [done..|lia|done|solve_pcs|naive_solver|naive_solver| |].
    + rewrite owns_put_eq. naive_solver.
    + intros j. rewrite Hcpu. destruct (decide (j = i)); naive_solver.
  - assert (Hmy : mycpu (cpus m i) = Ret tt (cpus m i)).
    { apply mycpu_run, Hwf. rewrite Hd. cbn. lia. }
    cbv [acquire_record bind on_cpu zoom set_lock modify] in Hr. cbn in Hr.
    rewrite Hmy in Hr. cbn in Hr. injection Hr as <- <-.
    assert (Hi : owns m i lk) by (unfold owns; auto).
    assert (Hnone : forall j, j <> i -> ~ owns m j lk) by naive_solver.
    apply put_inv; cbn; [done..|lia| |solve_pcs|naive_solver|naive_solver| |].
    + constructor; naive_solver.
    + rewrite owns_put_eq. split; [intros _; left; left; set_solver|].
      intros _. apply Hlk. eauto.
    + intros j. split.
      * intros [= <-]. left. set_solver.
      * intros [[-> _]|[Hj Hl]]; [done|]. destruct (Hnone j Hj). by left.
  - apply release_enter_inv in Hr as (-> & Hwf' & Hn & Hl & Hc); [|done].
    apply Hcpu in Hc. assert (Hi : owns m i lk) by (by left).
    assert (Hnone : forall j, j <> i -> ~ owns m j lk) by naive_solver.
    pose proof (length_remove_elem lk (held m i) Hnd Hc) as Hlen.
    apply put_inv; cbn; [done..|lia|by apply NoDup_remove_elem| | |naive_solver| |].
    + intros lk' Hne. rewrite elem_of_remove_elem. repeat split; try congruence; tauto.
    + rewrite elem_of_remove_elem. tauto.
    + rewrite owns_put_eq. split; [intros _|done]. left. naive_solver.
    + intros j. rewrite elem_of_remove_elem. split; [done|].
      intros [[_ [? _]]|[Hj Hl']]; [done|]. destruct (Hnone j Hj). by left.
  - destruct (release_exit_run (cpus m i) (locks m lk) Hwf) as (c' & Hr' & Hwf' & Hn).
    { rewrite Hd. cbn. lia. }
    rewrite Hr' in Hr. injection Hr as <- <-.
    assert (Hi : owns m i lk) by (unfold owns; auto).
    assert (Hnone : forall j, j <> i -> ~ owns m j lk) by naive_solver.
    apply put_inv; cbn; [done..|cbn in Hd; lia|done|solve_pcs|naive_solver|naive_solver| |].
    + rewrite owns_put_eq. naive_solver.
    + intros j. rewrite Hcpu. destruct (decide (j = i)); naive_solver.
  - rewrite Hh in *. cbn in Hd.
    assert (ncli c = 0) as Hc.
    { destruct Hr as [Hr|Hr]; cbv [cli sti modify] in Hr; injection Hr as <-; cbn; lia. }
    apply put_inv; cbn; [done|unfold wf; lia|lia|done| |naive_solver| | |].
    + intros lk' Hne. rewrite Hh, Hpc. repeat split; set_solver.
    + rewrite owns_put_eq. set_solver.
    + rewrite Hlk, owns_put_eq. split; [|set_solver].
      intros (j & Hj). right. exists j. split; [|done]. intros ->. unfold owns in Hj.
      rewrite Hh, Hpc in Hj. set_solver.
    + intros j. rewrite Hcpu. destruct (decide (j = i)) as [->|]; [rewrite Hh|]; set_solver.
Qed.

Lemma machine_inv m0 m : initial m0 -> reachable m0 m -> inv m.
Proof. intros H0. induction 1; eauto using initial_inv, machine_step_inv. Qed.

(** C3: Mutual exclusion.  In every reachable state of any number of processors that call
    [acquire] and [release] on any locks, two processors inside the critical section of the
    same lock are the same processor, the lock word is set, the lock names that processor,
    and its interrupts are off. *)
Theorem mutual_exclusion m0 m i j lk :
  initial m0 -> reachable m0 m ->
  lk ∈ held m i -> lk ∈ held m j ->
  i = j /\ locked (locks m lk) <> 0 /\ lcpu (locks m lk) = Some i /\
  if_on (cpus m i) = false.
Proof.
  intros H0 Hr Hi Hj. pose proof (machine_inv _ _ H0 Hr) as Hm. repeat split.
  - apply (inv_excl m Hm i j lk); by left.
  - apply (inv_locked m Hm). exists i. by left.
  - by apply (inv_lcpu m Hm).
  - apply (inv_cpu m Hm). rewrite (inv_depth m Hm).
    destruct (held m i) as [|x l]; [set_solver|]. cbn.
    destruct (pcs m i); cbn; lia.
Qed.

(** The self-checks of the lock code.  A processor outside [acquire] and [release] that
    takes a lock it holds panics, taking one it does not hold reaches the spin loop,
    releasing one it holds reaches the freeing store, and releasing one it does not hold
    panics. *)
Theorem lock_panics m0 m i lk :
  initial m0 -> reachable m0 m -> pcs m i = Run ->
  let s := (cpus m i, locks m lk) in
  (lk ∈ held m i -> acquire_enter i s = Panic "acquire" /\
     exists s', release_enter i s = Ret tt s') /\
  (lk ∉ held m i -> release_enter i s = Panic "release" /\
     exists s', acquire_enter i s = Ret tt s').
Proof.
  intros H0 Hr Hpc s. pose proof (machine_inv _ _ H0 Hr) as Hm.
  pose proof (inv_cpu m Hm i) as Hwf. pose proof (inv_lcpu m Hm lk i) as Hc. split; intros Hl.
  - assert (locked (locks m lk) <> 0) by (apply (inv_locked m Hm); exists i; by left).
    apply Hc in Hl. split; [by apply acquire_enter_panic|].
    destruct (release_enter_run i (cpus m i) (locks m lk)) as (c' & Hrun & _); eauto.
  - assert (bool_decide (lcpu (locks m lk) = Some i) = false) as Hb
      by (apply bool_decide_eq_false; naive_solver).
    split.
    + destruct (holding_run i (cpus m i) (locks m lk) Hwf) as (c' & Hrun & _).
      unfold release_enter, bind, s. by rewrite Hrun, Hb, andb_false_r.
    + destruct (acquire_enter_run i (cpus m i) (locks m lk) Hwf) as (c' & Hrun & _);
        [by rewrite Hb, andb_false_r|]. eauto.
Qed.

(** The sequential view: on a free lock, [acquire] then [release] by one processor works,
    leaves the lock free and restores the processor's interrupt state. *)
Lemma acquire_release me c l fuel :
  wf c -> locked l = 0 -> (0 < fuel)%nat ->
  exists c1 c2,
    acquire fuel me (c, l) = Ret tt (c1, MkLock 1 (Some me)) /\
    if_on c1 = false /\ ncli c1 = ncli c + 1 /\
    release me (c1, MkLock 1 (Some me)) = Ret tt (c2, initlock) /\
    ncli c2 = ncli c.
Proof.
  intros Hwf Hl Hf. destruct (acquire_enter_run me c l Hwf) as (c1 & Hr & Hwf1 & Hn1).
  { by rewrite Hl. }
  assert (if_on c1 = false) as Hoff by (apply Hwf1; destruct Hwf; lia).
  destruct (release_enter_run me c1 (MkLock 1 (Some me))) as (c2 & Hr2 & Hwf2 & Hn2); [done..|].
  cbn [locked] in Hr2.
  destruct (release_exit_run c2 (MkLock 1 None)) as (c3 & Hr3 & Hwf3 & Hn3);
    [done|destruct Hwf; lia|].
  exists c1, c3. split_and!; [|done|done| |lia].
  - unfold acquire. rewrite (bind_Ret _ _ _ _ _ Hr). destruct fuel as [|f]; [lia|].
    cbv [spin xchg bind reads set_lock modify ret acquire_record on_cpu zoom]. cbn.
    rewrite Hl. cbn. by rewrite mycpu_run.
  - unfold release. by rewrite (bind_Ret _ _ _ _ _ Hr2), Hr3.
Qed.

(** A run of processor 0 taking lock 7. *)
Definition demo0 : mach :=
  MkMach (fun _ => MkCpu 0 0 FL_IF) (fun _ => initlock) (fun _ => Run) (fun _ => []).
Definition demo1 : mach :=
  put demo0 0 7 (MkCpu 1 FL_IF 0, initlock) (Spinning 7) [].
Definition demo2 : mach :=
  put demo1 0 7 (MkCpu 1 FL_IF 0, MkLock 1 None) (Got 7) [].
Definition demo3 : mach :=
  put demo2 0 7 (MkCpu 1 FL_IF 0, MkLock 1 (Some 0%nat)) Run [7%nat].

Lemma demo_reachable : initial demo0 /\ reachable demo0 demo3.
Proof.
  split; [done|].
  apply (reach_step _ demo2); [apply (reach_step _ demo1); [apply (reach_step _ demo0)|]|].
  - apply reach_init.
  - by apply (step_enter demo0 0 7).
  - by apply (step_xchg_free demo1 0 7).
  - by apply (step_record demo2 0 7).
Qed.

Lemma mutual_exclusion_witness :
  initial demo0 /\ reachable demo0 demo3 /\ 7%nat ∈ held demo3 0%nat /\
  if_on (cpus demo3 0%nat) = false.
Proof.
  destruct demo_reachable as [H0 Hr].
  assert (7%nat ∈ held demo3 0%nat) as Hh by (apply list_elem_of_In; by left).
  split_and!; [done..|].
  by apply (mutual_exclusion demo0 demo3 0 0 7 H0 Hr Hh Hh).
Defined.

Lemma lock_panics_witness :
  acquire_enter 0 (cpus demo3 0%nat, locks demo3 7%nat) = Panic "acquire" /\
  release_enter 0 (cpus demo3 0%nat, locks demo3 8%nat) = Panic "release".
Proof.
  destruct demo_reachable as [H0 Hr]. split.
  - apply (proj1 (lock_panics demo0 demo3 0 7 H0 Hr eq_refl)). apply list_elem_of_In. by left.
  - apply (proj2 (lock_panics demo0 demo3 0 8 H0 Hr eq_refl)).
    rewrite list_elem_of_In. by intros [?|[]].
Defined.
End Spin.
