(* ===== verification/Sleeplock.v ===== *)
(** Sleep locks ([sleeplock.c], [sleeplock.h]).

    A kernel thread that runs to completion sees a spin lock as free or taken by itself;
    [Spinlock.v] proves that this is what [acquire] and [release] provide.  [Klock] is that
    view, used by every component above the locks.  [Module SleepLock] models the lock
    itself and [Module Waiters] the processes that wait for it. *)

From S2P Require Import Prelude.

(** ** Spin locks as a kernel thread sees them *)
Module Klock.
(** [true] when the running thread holds the lock. *)
Definition t : Type := bool.

Definition acquire : M t unit := fun lk => if lk then Panic "acquire" else Ret tt true.
Definition release : M t unit := fun lk => if lk then Ret tt false else Panic "release".
End Klock.

(** ** The sleep lock *)
Module SleepLock.

(** [struct sleeplock]; [name] is for debugging and left out. *)
Record sleeplock := MkSleep { locked : Z; lk : Klock.t; pid : Z }.

Definition with_lk {A} (m : M Klock.t A) : M sleeplock A :=
  zoom lk (fun k l => MkSleep (locked l) k (pid l)) m.

Definition initsleeplock : sleeplock := MkSleep 0 false 0.

(** [acquiresleep] by the process [me], up to its first [sleep]: [sleep] gives up the inner
    lock, and takes it again before the loop tests [locked] the next time. *)
Definition acquiresleep (ch : chan) (me : Z) : M sleeplock unit :=
  with_lk Klock.acquire ;;;
  l <- reads locked ;;
  if negb (l =? 0) then with_lk Klock.release ;;; sleep_on ch
  else
    modify (fun l => MkSleep 1 (lk l) (pid l)) ;;;
    modify (fun l => MkSleep (locked l) (lk l) me) ;;;
    with_lk Klock.release.

(** [releasesleep]; its [wakeup(lk)] is a step of the waiting processes. *)
Definition releasesleep : M sleeplock unit :=
  with_lk Klock.acquire ;;;
  modify (fun l => MkSleep 0 (lk l) (pid l)) ;;;
  modify (fun l => MkSleep (locked l) (lk l) 0) ;;;
  with_lk Klock.release.

Definition holdingsleep (me : Z) : M sleeplock bool :=
  with_lk Klock.acquire ;;;
  l <- reads locked ;;
  p <- reads pid ;;
  with_lk Klock.release ;;;
  ret (negb (l =? 0) && (p =? me)).

Definition free (l : sleeplock) : Prop := locked l = 0 /\ lk l = false.
Definition held_by (me : Z) (l : sleeplock) : Prop := l = MkSleep 1 false me.

Lemma acquiresleep_free ch me l :
  free l -> acquiresleep ch me l = Ret tt (MkSleep 1 false me).
Proof. destruct l as [x k p]. unfold free. cbn. by intros [-> ->]. Qed.

Lemma acquiresleep_busy ch me l :
  locked l <> 0 -> lk l = false -> acquiresleep ch me l = Sleep ch l.
Proof.
  destruct l as [x k p]. cbn. intros Hx ->. apply Z.eqb_neq in Hx.
  unfold acquiresleep, bind, with_lk, zoom, reads. cbn. by rewrite Hx.
Qed.

Lemma releasesleep_held me l : held_by me l -> releasesleep l = Ret tt (MkSleep 0 false 0).
Proof. by intros ->. Qed.

Lemma holdingsleep_run me l :
  lk l = false -> holdingsleep me l = Ret (negb (locked l =? 0) && (pid l =? me)) l.
Proof. destruct l as [x k p]. cbn. by intros ->. Qed.

Lemma holdingsleep_held me l : held_by me l -> holdingsleep me l = Ret true l.
Proof. intros ->. rewrite holdingsleep_run by done. cbn. by rewrite Z.eqb_refl. Qed.
End SleepLock.

(** ** Processes that share a sleep lock *)
Module Waiters.
Import SleepLock.

(** A process is outside the lock, asleep on it, woken and about to test it again, or
    inside its critical section. *)
Inductive pstate := Out | Asleep | Woken | In.

Record conf := MkConf { lock : sleeplock; st : Z -> pstate }.

(** [wakeup(lk)]: every process asleep on the lock becomes runnable. *)
Definition wake (f : Z -> pstate) : Z -> pstate := fun p =>
  match f p with Asleep => Woken | x => x end.

Definition the_chan : chan := ("sleeplock"%string, 0%nat).

Inductive step : conf -> conf -> Prop :=
| step_take c p l :
    st c p = Out \/ st c p = Woken ->
    acquiresleep the_chan p (lock c) = Ret tt l ->
    step c (MkConf l (<[p := In]> (st c)))
| step_wait c p l :
    st c p = Out \/ st c p = Woken ->
    acquiresleep the_chan p (lock c) = Sleep the_chan l ->
    step c (MkConf l (<[p := Asleep]> (st c)))
| step_leave c p l :
    st c p = In ->
    releasesleep (lock c) = Ret tt l ->
    step c (MkConf l (wake (<[p := Out]> (st c)))).

Inductive reachable : conf -> Prop :=
| reach_init : reachable (MkConf initsleeplock (fun _ => Out))
| reach_step c c' : reachable c -> step c c' -> reachable c'.

Definition inv (c : conf) : Prop :=
  lk (lock c) = false /\
  ((locked (lock c) = 0 /\ forall p, st c p <> In /\ st c p <> Asleep) \/
   (exists q, lock c = MkSleep 1 false q /\ st c q = In /\ forall p, st c p = In -> p = q)).

Lemma waiters_inv c : reachable c -> inv c.
Proof.
  induction 1 as [|c c' _ [Hlk Hinv] Hstep].
  - split; [done|]. left. done.
  - destruct Hstep as [c p l Hp Hr|c p l Hp Hr|c p l Hp Hr].
    + destruct Hinv as [[Hl Hno]|(q & Hl & _)].
      2: { rewrite Hl in Hr. rewrite acquiresleep_busy in Hr; done. }
      rewrite acquiresleep_free in Hr by done. injection Hr as <-.
      split; [done|]. right. exists p. cbn. rewrite fn_lookup_insert. split_and!; [done..|].
      intros p'. destruct (decide (p = p')) as [->|]; [done|].
      rewrite fn_lookup_insert_ne by done. intros Hin. by destruct (Hno p').
    + destruct Hinv as [[Hl Hno]|(q & Hl & Hq & Hex)].
      1: { by rewrite acquiresleep_free in Hr. }
      rewrite acquiresleep_busy in Hr by (by rewrite Hl). injection Hr as <-.
      split; [done|]. right. exists q. cbn.
      assert (p <> q) by (intros ->; rewrite Hq in Hp; by destruct Hp).
      rewrite fn_lookup_insert_ne by done. split_and!; [done..|].
      intros p'. destruct (decide (p = p')) as [->|]; [by rewrite fn_lookup_insert|].
      rewrite fn_lookup_insert_ne by done. apply Hex.
    + destruct Hinv as [[Hl Hno]|(q & Hl & Hq & Hex)]; [by destruct (Hno p)|].
      rewrite Hl, (releasesleep_held q) in Hr by done. injection Hr as <-.
      split; [done|]. left. cbn. split; [done|]. intros p'. unfold wake.
      destruct (decide (p = p')) as [->|]; [by rewrite fn_lookup_insert|].
      rewrite fn_lookup_insert_ne by done. destruct (st c p') eqn:E; try done.
      assert (p' = q) by auto. assert (p = q) by auto. congruence.
Qed.

(** C6: Sleep locks exclude each other and lose no wake-up.  However processes interleave
    their calls, at most one is inside the critical section, the lock then carries its pid
    (so [holdingsleep] is true for it and for nobody else), and a process is asleep on the
    lock only while some process is inside, whose [releasesleep] will wake it. *)
Theorem sleeplock_exclusive c p :
  reachable c ->
  (st c p = In ->
     (forall q, st c q = In -> q = p) /\
     (forall q, holdingsleep q (lock c) = Ret (q =? p) (lock c))) /\
  (st c p = Asleep -> exists q, st c q = In).
Proof.
  intros [Hlk Hinv]%waiters_inv. split; intros Hp.
  - destruct Hinv as [[_ Hno]|(q & Hl & Hq & Hex)]; [by destruct (Hno p)|].
    assert (p = q) as -> by auto. split; [done|].
    intros q'. rewrite holdingsleep_run by done. rewrite Hl. cbn. by rewrite Z.eqb_sym.
  - destruct Hinv as [[_ Hno]|(q & _ & Hq & _)]; [by destruct (Hno p)|]. eauto.
Qed.

Lemma sleeplock_exclusive_witness :
  exists c, reachable c /\ st c 3 = In /\ st c 4 = Asleep /\
    holdingsleep 4 (lock c) = Ret false (lock c).
Proof.
  set (c0 := MkConf initsleeplock (fun _ => Out)).
  set (c1 := MkConf (MkSleep 1 false 3) (<[3 := In]> (st c0))).
  set (c2 := MkConf (MkSleep 1 false 3) (<[4 := Asleep]> (st c1))).
  assert (reachable c2) as Hc2.
  { apply (reach_step c1); [apply (reach_step c0)|].
    - apply reach_init.
    - apply (step_take c0 3); [by left|done].
    - apply (step_wait c1 4); [by left|done]. }
  exists c2. split_and!; [done..|].
  destruct (sleeplock_exclusive c2 3 Hc2) as [Hin _].
  destruct (Hin eq_refl) as [_ Hhold]. exact (Hhold 4).
Defined.
End Waiters.
