(* ===== verification/Kalloc.v ===== *)
(** The physical page allocator ([kalloc.c]).

    The free list is threaded through the free pages: [r->next] is the first word of the page
    [r].  The state therefore has the memory.  [Module Kalloc] is the code, [Module Pages] the
    abstract allocator it implements: a stack of free pages. *)

From S2P Require Import Prelude Bytes CString Sleeplock.

(** [mmu.h], [memlayout.h] *)
Definition PGSIZE : Z := 4096.
Definition PGROUNDUP (sz : Z) : Z := Z.land (u32 (sz + PGSIZE - 1)) (u32 (Z.lnot (PGSIZE - 1))).
Definition PGROUNDDOWN (a : Z) : Z := Z.land a (u32 (Z.lnot (PGSIZE - 1))).
Definition KERNBASE : Z := 2147483648.
Definition PHYSTOP : Z := 234881024.
Definition V2P (a : Z) : Z := u32 (a - KERNBASE).
Definition P2V (a : Z) : Z := u32 (a + KERNBASE).

(** The word at [a]. *)
Definition load32 (m : mem) (a : Z) : Z := m a + 256 * (m (a + 1) + 256 * (m (a + 2) + 256 * m (a + 3))).

Module Kalloc.
Import KString.

Record kmem := MkKmem { lock : Klock.t; use_lock : Z; freelist : Z; ram : mem }.

Definition set_ram (f : mem -> mem) : M kmem unit := modify (fun k =>
  MkKmem (lock k) (use_lock k) (freelist k) (f (ram k))).
Definition set_freelist (v : Z) : M kmem unit := modify (fun k =>
  MkKmem (lock k) (use_lock k) v (ram k)).
Definition set_use_lock (v : Z) : M kmem unit := modify (fun k =>
  MkKmem (lock k) v (freelist k) (ram k)).
Definition on_lock (m : M Klock.t unit) : M kmem unit :=
  zoom lock (fun l k => MkKmem l (use_lock k) (freelist k) (ram k)) m.

Section kalloc.
(** [end]: the first address after the kernel, from the linker. *)
Variable end_ : Z.

Definition kfree (v : Z) : M kmem unit :=
  if negb (v mod PGSIZE =? 0) || (v <? end_) || (PHYSTOP <=? V2P v) then panic "kfree" else
  set_ram (fun m => memset m v 1 PGSIZE) ;;;
  k <- reads id ;;
  when (negb (use_lock k =? 0)) (on_lock Klock.acquire) ;;;
  f <- reads freelist ;;
  set_ram (fun m => store32 m v f) ;;;
  set_freelist v ;;;
  when (negb (use_lock k =? 0)) (on_lock Klock.release).

Definition kalloc : M kmem Z :=
  k <- reads id ;;
  when (negb (use_lock k =? 0)) (on_lock Klock.acquire) ;;;
  r <- reads freelist ;;
  m <- reads ram ;;
  when (negb (r =? 0)) (set_freelist (load32 m r)) ;;;
  when (negb (use_lock k =? 0)) (on_lock Klock.release) ;;;
  ret r.

(** The loop of [freerange]; every iteration advances [p] by a page, so the number of pages
    up to [vend] is fuel enough. *)
Fixpoint freerange_loop (p vend : Z) (fuel : nat) : M kmem unit :=
  match fuel with
  | O => panic "out of fuel"
  | S f => if u32 (p + PGSIZE) <=? vend
           then kfree p ;;; freerange_loop (u32 (p + PGSIZE)) vend f
           else ret tt
  end.
Definition freerange (vstart vend : Z) : M kmem unit :=
  let p := PGROUNDUP vstart in
  freerange_loop p vend (S (Z.to_nat ((vend - p) / PGSIZE))).

Definition kinit1 (vstart vend : Z) : M kmem unit :=
  modify (fun k => MkKmem false (use_lock k) (freelist k) (ram k)) ;;;
  set_use_lock 0 ;;;
  freerange vstart vend.
Definition kinit2 (vstart vend : Z) : M kmem unit :=
  freerange vstart vend ;;;
  set_use_lock 1.
End kalloc.
End Kalloc.

Module Pages.
Import KString Kalloc.

(** The free list that starts at [r] is [l]. *)
Fixpoint chain (m : mem) (r : Z) (l : list Z) : Prop :=
  match l with
  | [] => r = 0
  | v :: l' => r = v /\ chain m (load32 m v) l'
  end.

Lemma load32_ext m m' a : (forall x, a <= x < a + 4 -> m' x = m x) -> load32 m' a = load32 m a.
Proof. intros He. unfold load32. by rewrite !He by lia. Qed.

Lemma load32_store32 m a w : 0 <= w < 2 ^ 32 -> load32 (store32 m a w) a = w.
Proof.
  intros Hw. unfold load32, store32.
  rewrite fn_lookup_insert. rewrite (fn_lookup_insert_ne _ (a + 3) (a + 2)), fn_lookup_insert by lia.
  rewrite (fn_lookup_insert_ne _ (a + 3) (a + 1)), (fn_lookup_insert_ne _ (a + 2) (a + 1)), fn_lookup_insert by lia.
  rewrite !fn_lookup_insert_ne, fn_lookup_insert by lia.
  unfold u8. rewrite !Z.shiftr_div_pow2 by lia.
  change (2 ^ 8) with 256. change (2 ^ 16) with (256 * 256). change (2 ^ 24) with (256 * 256 * 256).
  rewrite <- !Z.div_div by lia. set (b := w / 256). set (c := b / 256). set (d := c / 256).
  pose proof (Z.div_mod w 256). pose proof (Z.div_mod b 256). pose proof (Z.div_mod c 256).
  pose proof (Z.mod_pos_bound w 256). pose proof (Z.mod_pos_bound b 256). pose proof (Z.mod_pos_bound c 256).
  rewrite (Z.mod_small d); [lia|]. unfold d, c, b. rewrite !Z.div_div by lia.
  split; [apply Z.div_pos; lia|apply Z.div_lt_upper_bound; lia].
Qed.

Lemma store32_out m a w x : x < a \/ a + 4 <= x -> store32 m a w x = m x.
Proof. intros Hx. unfold store32. by rewrite !fn_lookup_insert_ne by lia. Qed.

Section pages.
Variable end_ : Z.
Hypothesis Hend : 0 < end_.

(** A page the allocator may manage. *)
Definition page (v : Z) : Prop := v mod PGSIZE = 0 /\ end_ <= v < 2 ^ 32 /\ V2P v < PHYSTOP.

#[global] Instance page_dec v : Decision (page v).
Proof. unfold page. apply _. Defined.

Record inv (k : kmem) (l : list Z) : Prop := MkInv {
  inv_lock : lock k = false;
  inv_chain : chain (ram k) (freelist k) l;
  inv_pages : Forall page l;
  inv_nodup : NoDup l
}.

Lemma page_apart v w : page v -> page w -> v <> w -> v + PGSIZE <= w \/ w + PGSIZE <= v.
Proof.
  intros (Hv & _ & _) (Hw & _ & _) Hne. unfold PGSIZE in *.
  pose proof (Z.div_mod v 4096). pose proof (Z.div_mod w 4096). nia.
Qed.

Lemma chain_ext m m' l : forall r,
  (forall v x, v ∈ l -> v <= x < v + 4 -> m' x = m x) -> chain m r l -> chain m' r l.
Proof.
  induction l as [|v l IH]; intros r He Hc; cbn in *; [done|]. destruct Hc as [-> Hc]. split; [done|].
  rewrite (load32_ext m m') by (intros; eapply He; [by left|lia]). apply IH; [|done].
  intros w x Hw. apply He. by right.
Qed.

Lemma chain_head m l v : chain m v l -> Forall page l -> v = 0 <-> l = [].
Proof.
  destruct l as [|w l]; cbn; [tauto|]. intros [-> _] [(_ & ? & _) _]%Forall_cons. split; [lia|done].
Qed.

Lemma memset_out m v x : x < v \/ v + PGSIZE <= x -> memset m v 1 PGSIZE x = m x.
Proof.
  intros Hx. rewrite StringFacts.memset_range by (unfold PGSIZE; lia).
  destruct (Z.leb_spec v x), (Z.ltb_spec x (v + PGSIZE)); cbn; (done || lia).
Qed.

Lemma kfree_ok v : page v ->
  negb (v mod PGSIZE =? 0) || (v <? end_) || (PHYSTOP <=? V2P v) = false.
Proof.
  intros (-> & ? & ?). destruct (Z.ltb_spec v end_), (Z.leb_spec PHYSTOP (V2P v)); (done || lia).
Qed.

Lemma kfree_spec k l v :
  inv k l -> page v -> v ∉ l ->
  exists k', kfree end_ v k = Ret tt k' /\ inv k' (v :: l) /\ use_lock k' = use_lock k /\
    forall x, x < v \/ v + PGSIZE <= x -> ram k' x = ram k x.
Proof.
  intros [Hl Hc Hp Hnd] Hv Hnin. destruct k as [lk ul fl m]. cbn in *. subst lk.
  set (m' := store32 (memset m v 1 PGSIZE) v fl).
  assert (Hout : forall x, x < v \/ v + PGSIZE <= x -> m' x = m x).
  { intros x Hx. unfold m'. rewrite store32_out by (unfold PGSIZE in *; lia). by apply memset_out. }
  assert (Hfl : 0 <= fl < 2 ^ 32).
  { destruct l as [|w l]; cbn in Hc; [lia|]. destruct Hc as [-> _].
    apply Forall_cons in Hp as [(_ & ? & _) _]. lia. }
  exists (MkKmem false ul v m'). split_and!; [|split|done|done]; cbn.
  - unfold kfree. rewrite kfree_ok by done. unfold bind, set_ram, modify, reads, on_lock, zoom, set_freelist.
    destruct (negb (ul =? 0)) eqn:E; cbn; rewrite E; done.
  - done.
  - split; [done|]. unfold m'. rewrite load32_store32 by done. fold m'.
    apply (chain_ext m); [|done]. intros w x Hw Hx. apply Hout.
    rewrite Forall_forall in Hp. pose proof (page_apart v w Hv (Hp w Hw)) as Hap.
    unfold PGSIZE in *. assert (v <> w) by congruence. lia.
  - by constructor.
  - by constructor.
Qed.

Lemma kalloc_spec k l :
  inv k l ->
  exists k', kalloc k = Ret (default 0 (head l)) k' /\ inv k' (tail l) /\ use_lock k' = use_lock k /\
    ram k' = ram k.
Proof.
  intros [Hl Hc Hp Hnd]. destruct k as [lk ul fl m]. cbn in *. subst lk.
  exists (MkKmem false ul (if fl =? 0 then 0 else load32 m fl) m). destruct l as [|v l]; cbn in Hc.
  - subst fl. split_and!; [|split|done|done]; cbn; try done.
    unfold kalloc, bind, reads, when, on_lock, zoom, set_freelist, modify, ret.
    destruct (negb (ul =? 0)) eqn:E; cbn; rewrite ?E; done.
  - destruct Hc as [-> Hc]. apply Forall_cons in Hp as [Hv Hp]. apply NoDup_cons in Hnd as [Hv' Hnd].
    destruct (Z.eqb_spec v 0) as [->|Hne]; [destruct Hv as (_ & ? & _); lia|].
    split_and!; [|by split|done|done].
    unfold kalloc, bind, reads, when, on_lock, zoom, set_freelist, modify, ret.
    destruct (negb (ul =? 0)) eqn:E; cbn; (destruct (Z.eqb_spec v 0); [done|]); cbn; rewrite ?E; done.
Qed.

(** *** [freerange] *)
Lemma land_page_mask x : 0 <= x < 2 ^ 32 -> Z.land x (u32 (Z.lnot (PGSIZE - 1))) = x / PGSIZE * PGSIZE.
Proof.
  intros Hx. change (u32 (Z.lnot (PGSIZE - 1))) with (Z.shiftl (Z.ones 20) 12).
  change PGSIZE with (2 ^ 12). rewrite <- Z.shiftr_div_pow2, <- Z.shiftl_mul_pow2 by lia.
  apply Z.bits_inj'. intros n Hn. rewrite Z.land_spec, !Z.shiftl_spec by lia.
  destruct (Z.ltb_spec n 12); [rewrite !(Z.testbit_neg_r _ (n - 12)) by lia; apply andb_false_r|].
  rewrite Z.shiftr_spec by lia. replace (n - 12 + 12) with n by lia.
  destruct (Z.ltb_spec n 32).
  - rewrite Z.ones_spec_low by lia. apply andb_true_r.
  - replace (Z.testbit x n) with false; [done|]. symmetry.
    destruct (decide (x = 0)) as [->|]; [apply Z.testbit_0_l|].
    apply Z.bits_above_log2; [lia|]. assert (Z.log2 x < 32); [|lia]. apply Z.log2_lt_pow2; lia.
Qed.

Lemma PGROUNDUP_spec sz :
  0 <= sz -> sz + PGSIZE - 1 < 2 ^ 32 ->
  PGROUNDUP sz mod PGSIZE = 0 /\ sz <= PGROUNDUP sz < sz + PGSIZE.
Proof.
  intros H0 H1. unfold PGROUNDUP. rewrite u32_id by (unfold PGSIZE in *; lia).
  rewrite land_page_mask by (unfold PGSIZE in *; lia).
  split; [apply Z.mod_mul; by unfold PGSIZE|]. unfold PGSIZE in *.
  pose proof (Z.div_mod (sz + 4096 - 1) 4096). pose proof (Z.mod_pos_bound (sz + 4096 - 1) 4096). lia.
Qed.

(** The [n] pages from [p]. *)
Definition pages_from (p : Z) (n : nat) : list Z := map (fun i => p + Z.of_nat i * PGSIZE) (seq 0 n).

Lemma pages_from_S p n : pages_from p (S n) = p :: pages_from (p + PGSIZE) n.
Proof.
  unfold pages_from. cbn [seq map]. rewrite Z.add_0_r. f_equal. rewrite <- (fmap_S_seq 0 n).
  rewrite map_map. apply map_ext. intros i. lia.
Qed.
Lemma elem_of_pages_from p n v :
  v ∈ pages_from p n <-> exists i, (i < n)%nat /\ v = p + Z.of_nat i * PGSIZE.
Proof.
  unfold pages_from. rewrite list_elem_of_fmap. split; intros (i & H1 & H2); exists i;
    rewrite elem_of_seq in *; split; (done || lia).
Qed.

Lemma freerange_loop_spec n : forall k l p vend fuel,
  inv k l -> Forall page (pages_from p n) -> (forall v, v ∈ pages_from p n -> v ∉ l) ->
  p + Z.of_nat n * PGSIZE <= vend < p + Z.of_nat (S n) * PGSIZE -> 0 <= p -> vend + PGSIZE < 2 ^ 32 ->
  (n < fuel)%nat ->
  exists k', freerange_loop end_ p vend fuel k = Ret tt k' /\
    inv k' (reverse (pages_from p n) ++ l) /\ use_lock k' = use_lock k.
Proof.
  induction n as [|n IH]; intros k l p vend fuel Hi Hp Hd Hv H0 Hmax Hf;
    (destruct fuel as [|fuel]; [lia|]); cbn [freerange_loop].
  - exists k. rewrite u32_id by (unfold PGSIZE in *; lia).
    destruct (Z.leb_spec (p + PGSIZE) vend); [unfold PGSIZE in *; lia|]. done.
  - rewrite pages_from_S in *. rewrite u32_id by (unfold PGSIZE in *; lia).
    destruct (Z.leb_spec (p + PGSIZE) vend); [|unfold PGSIZE in *; lia].
    apply Forall_cons in Hp as [Hp0 Hp].
    destruct (kfree_spec k l p Hi Hp0) as (k1 & H1 & Hi1 & Hu & _); [apply Hd; by left|].
    rewrite (bind_Ret _ _ _ _ _ H1).
    destruct (IH k1 (p :: l) (p + PGSIZE) vend fuel) as (k2 & H2 & Hi2 & Hu2); try done.
    + intros v Hv1. rewrite not_elem_of_cons. split; [|apply Hd; by right].
      apply elem_of_pages_from in Hv1 as (i & _ & ->). unfold PGSIZE. lia.
    + lia.
    + unfold PGSIZE in *; lia.
    + lia.
    + exists k2. split; [done|]. rewrite reverse_cons, <- app_assoc. split; [done|congruence].
Qed.

(** *** The abstract allocator *)

(** What a client does: allocate a page, or free one of the pages it has. *)
Inductive op := Alloc | Free (i : nat).

Definition exec_op (o : op) (held : list Z) : M kmem (list Z) :=
  match o with
  | Alloc => r <- kalloc ;; ret (if r =? 0 then held else r :: held)
  | Free i =>
      match held !! i with
      | Some v => kfree end_ v ;;; ret (delete i held)
      | None => ret held
      end
  end.
Fixpoint exec_ops (os : list op) (held : list Z) : M kmem (list Z) :=
  match os with
  | [] => ret held
  | o :: os' => held' <- exec_op o held ;; exec_ops os' held'
  end.

Lemma alloc_op_spec k free held o :
  inv k free -> Forall page held -> NoDup (held ++ free) ->
  exists k' held' free', exec_op o held k = Ret held' k' /\ inv k' free' /\ Forall page held' /\
    held' ++ free' ≡ₚ held ++ free.
Proof.
  intros Hi Hh Hnd. destruct o as [|i]; cbn [exec_op].
  - destruct (kalloc_spec k free Hi) as (k' & Hr & Hi' & _). rewrite (bind_Ret _ _ _ _ _ Hr).
    destruct free as [|v free]; cbn in *; [by exists k', held, []|].
    destruct Hi as [_ _ Hp _]. apply Forall_cons in Hp as [Hv _].
    destruct (Z.eqb_spec v 0) as [->|]; [destruct Hv as (_ & ? & _); lia|].
    exists k', (v :: held), free. split_and!; [done..|by constructor|]. apply Permutation_middle.
  - destruct (held !! i) as [v|] eqn:E; [|by exists k, held, free].
    pose proof (delete_Permutation _ _ _ E) as Hperm.
    rewrite Hperm in Hnd. cbn in Hnd. apply NoDup_cons in Hnd as [Hv Hnd].
    rewrite Forall_lookup in Hh.
    destruct (kfree_spec k free v Hi) as (k' & Hr & Hi' & _); [by eapply Hh|set_solver|].
    rewrite (bind_Ret _ _ _ _ _ Hr). exists k', (delete i held), (v :: free). split_and!; [done..| |].
    + apply Forall_delete. by apply Forall_lookup.
    + rewrite <- Permutation_middle. rewrite Hperm at 2. done.
Qed.

Lemma alloc_ops_spec os : forall k free held,
  inv k free -> Forall page held -> NoDup (held ++ free) ->
  exists k' held' free', exec_ops os held k = Ret held' k' /\ inv k' free' /\
    held' ++ free' ≡ₚ held ++ free.
Proof.
  induction os as [|o os IH]; intros k free held Hi Hh Hnd; [by exists k, held, free|]. cbn [exec_ops].
  destruct (alloc_op_spec k free held o Hi Hh Hnd) as (k1 & h1 & f1 & H1 & Hi1 & Hp1 & Hperm1).
  rewrite (bind_Ret _ _ _ _ _ H1).
  destruct (IH k1 f1 h1 Hi1 Hp1) as (k2 & h2 & f2 & H2 & Hi2 & Hperm2); [by rewrite Hperm1|].
  exists k2, h2, f2. split_and!; [done..|]. by rewrite Hperm2.
Qed.

Lemma pages_from_app p n1 n2 :
  pages_from p (n1 + n2) = pages_from p n1 ++ pages_from (p + Z.of_nat n1 * PGSIZE) n2.
Proof.
  revert p. induction n1 as [|n1 IH]; intros p; [cbn; by rewrite Z.add_0_r|].
  cbn [plus]. rewrite !pages_from_S. cbn [app]. f_equal. rewrite IH. do 2 f_equal. lia.
Qed.
Lemma NoDup_pages_from p n : NoDup (pages_from p n).
Proof.
  unfold pages_from. apply NoDup_fmap_2_strong; [|apply NoDup_seq].
  intros x y _ _. unfold PGSIZE. lia.
Qed.

Lemma freerange_spec k l vstart vend :
  inv k l -> 0 <= vstart -> vstart + PGSIZE - 1 <= vend -> vend + PGSIZE < 2 ^ 32 -> vend mod PGSIZE = 0 ->
  let p := PGROUNDUP vstart in let n := Z.to_nat ((vend - p) / PGSIZE) in
  Forall page (pages_from p n) -> (forall v, v ∈ pages_from p n -> v ∉ l) ->
  p + Z.of_nat n * PGSIZE = vend /\
  exists k', freerange end_ vstart vend k = Ret tt k' /\
    inv k' (reverse (pages_from p n) ++ l) /\ use_lock k' = use_lock k.
Proof.
  intros Hi H0 Hle Hmax Hal p n Hp Hd.
  destruct (PGROUNDUP_spec vstart H0) as [Hpm Hpr]; [unfold PGSIZE in *; lia|]. fold p in Hpm, Hpr.
  assert (Hn : p + Z.of_nat n * PGSIZE = vend).
  { unfold n, PGSIZE in *. rewrite Z2Nat.id by (apply Z.div_pos; lia).
    pose proof (Z.div_mod (vend - p) 4096). pose proof (Z.div_mod vend 4096). pose proof (Z.div_mod p 4096).
    assert ((vend - p) mod 4096 = 0); [|lia]. rewrite Zminus_mod, Hal, Hpm. done. }
  split; [done|]. unfold freerange. fold p. fold n.
  apply (freerange_loop_spec n); try done; unfold PGSIZE in *; lia.
Qed.

(** [main]'s two calls: [kinit1(end, P2V(4*1024*1024))] and
    [kinit2(P2V(4*1024*1024), P2V(PHYSTOP))]. *)
Definition kinit : M kmem unit :=
  kinit1 end_ end_ (P2V (4 * 1024 * 1024)) ;;; kinit2 end_ (P2V (4 * 1024 * 1024)) (P2V PHYSTOP).
Definition all_pages : list Z :=
  let p := PGROUNDUP end_ in pages_from p (Z.to_nat ((P2V PHYSTOP - p) / PGSIZE)).
Definition boot_kmem (m : mem) : kmem := MkKmem false 0 0 m.

Hypothesis Hkern : KERNBASE <= end_ <= P2V (4 * 1024 * 1024) - PGSIZE.

Lemma in_ram v : end_ <= v < P2V PHYSTOP -> v mod PGSIZE = 0 -> page v.
Proof.
  change (P2V PHYSTOP) with 2382364672. intros Hv Hm. split; [done|].
  unfold V2P, KERNBASE, PHYSTOP in *. split; [lia|]. rewrite u32_id; lia.
Qed.
Lemma pages_in_ram p n :
  p mod PGSIZE = 0 -> end_ <= p -> p + Z.of_nat n * PGSIZE <= P2V PHYSTOP -> Forall page (pages_from p n).
Proof.
  intros Hm Hp Hn. apply Forall_forall. intros v (i & Hi & ->)%elem_of_pages_from. apply in_ram.
  - unfold PGSIZE in *. lia.
  - rewrite Z.mod_add; [done|]. by unfold PGSIZE.
Qed.

Lemma kinit_spec m : exists k, kinit (boot_kmem m) = Ret tt k /\ inv k (reverse all_pages).
Proof.
  assert (E4 : P2V (4 * 1024 * 1024) = 2151677952) by reflexivity.
  assert (EP : P2V PHYSTOP = 2382364672) by reflexivity.
  unfold kinit, all_pages. rewrite E4, EP.
  assert (Hk : 2147483648 <= end_ <= 2147483648 + 4190208) by exact Hkern.
  destruct (PGROUNDUP_spec end_) as [Hpm Hpr]; [lia|unfold PGSIZE; lia|].
  set (p := PGROUNDUP end_) in *. set (n1 := Z.to_nat ((2151677952 - p) / PGSIZE)).
  set (n2 := Z.to_nat ((2382364672 - 2151677952) / PGSIZE)).
  assert (Hn1 : p + Z.of_nat n1 * PGSIZE <= 2151677952).
  { unfold n1. unfold PGSIZE in *. rewrite Z2Nat.id by (apply Z.div_pos; lia).
    pose proof (Z.div_mod (2151677952 - p) 4096). pose proof (Z.mod_pos_bound (2151677952 - p) 4096). lia. }
  destruct (freerange_spec (boot_kmem m) [] end_ 2151677952) as (Hn & k1 & H1 & Hi1 & Hu1);
    [by split; try constructor|lia|unfold PGSIZE; lia|unfold PGSIZE; lia|done| |set_solver|].
  { apply pages_in_ram; [done|fold p; lia|]. fold p n1. rewrite EP. lia. }
  fold p n1 in Hi1, Hn. rewrite app_nil_r in Hi1.
  assert (Hr2 : PGROUNDUP 2151677952 = 2151677952) by reflexivity.
  destruct (freerange_spec k1 (reverse (pages_from p n1)) 2151677952 2382364672) as (Hn' & k2 & H2 & Hi2 & Hu2);
    [done|lia|unfold PGSIZE; lia|unfold PGSIZE; lia|done| | |].
  { rewrite Hr2. apply pages_in_ram; [done|lia|]. rewrite EP. by vm_compute. }
  { rewrite Hr2. intros v (i & Hi & ->)%elem_of_pages_from Hv. rewrite elem_of_reverse in Hv.
    apply elem_of_pages_from in Hv as (j & Hj & Hv). unfold PGSIZE in *. lia. }
  rewrite Hr2 in Hi2, Hn'. fold n2 in Hi2, Hn'.
  exists (MkKmem (lock k2) 1 (freelist k2) (ram k2)). split.
  - unfold kinit1, kinit2. unfold bind at 1. unfold bind at 1, modify at 1. unfold bind at 1, set_use_lock at 1, modify at 1.
    cbn [lock use_lock freelist ram boot_kmem]. fold (boot_kmem m). rewrite H1. by rewrite (bind_Ret _ _ _ _ _ H2).
  - rewrite <- reverse_app in Hi2. rewrite <- Hn in Hi2. rewrite <- pages_from_app in Hi2.
    replace (Z.to_nat ((2382364672 - p) / PGSIZE)) with (n1 + n2)%nat; [by destruct Hi2; split|].
    replace (2382364672 - p) with (Z.of_nat (n1 + n2) * PGSIZE) by lia.
    rewrite Z.div_mul by (by unfold PGSIZE). by rewrite Nat2Z.id.
Qed.

(** C11: The page allocator.  After the two initialisation calls of [main], whatever sequence
    of [kalloc] and [kfree] calls its clients make (freeing only pages they were given), no
    call panics, and at every moment the pages the clients hold together with the free list
    are exactly the pages of memory from the end of the kernel to [PHYSTOP], each once.  So
    no page is ever given out twice, overlaps the kernel, or is lost. *)
Theorem pages_conserved m os :
  exists k held free, (kinit ;;; exec_ops os []) (boot_kmem m) = Ret held k /\ inv k free /\
    held ++ free ≡ₚ all_pages /\ NoDup (held ++ free).
Proof.
  destruct (kinit_spec m) as (k0 & H0 & Hi0). rewrite (bind_Ret _ _ _ _ _ H0). clear H0.
  assert (Hnd : NoDup all_pages) by apply NoDup_pages_from.
  destruct (alloc_ops_spec os k0 (reverse all_pages) []) as (k & held & free & Hr & Hi & Hperm);
    [done|constructor|cbn; by rewrite reverse_Permutation|].
  exists k, held, free. cbn in Hperm. rewrite reverse_Permutation in Hperm.
  split_and!; [done..|by rewrite Hperm].
Qed.

(** Every page that is free can be allocated: [kalloc] fails (returns 0) exactly when
    there is no free page, and otherwise returns the page freed last, which is then not free
    any more. *)
Theorem kalloc_complete k free :
  inv k free ->
  exists k', kalloc k = Ret (default 0 (head free)) k' /\ inv k' (tail free) /\
    (default 0 (head free) = 0 <-> free = []) /\
    (forall v, v ∉ free -> page v -> exists k1 k2,
       kfree end_ v k = Ret tt k1 /\ kalloc k1 = Ret v k2 /\ inv k2 free).
Proof.
  intros Hi. destruct (kalloc_spec k free Hi) as (k' & Hr & Hi' & _). exists k'. split_and!; [done..| |].
  - destruct Hi as [_ _ Hp _]. destruct free as [|v free]; [done|]. apply Forall_cons in Hp as [(_ & ? & _) _].
    cbn. split; [lia|done].
  - intros v Hv Hp. destruct (kfree_spec k free v Hi Hp Hv) as (k1 & H1 & Hi1 & _).
    destruct (kalloc_spec k1 (v :: free) Hi1) as (k2 & H2 & Hi2 & _). by exists k1, k2.
Qed.
End pages.

Lemma pages_conserved_witness :
  exists k held free,
    (kinit 2149580800 ;;; exec_ops 2149580800 [Alloc; Alloc; Free 1] []) (boot_kmem (fun _ => 0)) = Ret held k /\
    held ++ free ≡ₚ all_pages 2149580800.
Proof.
  destruct (pages_conserved 2149580800 ltac:(lia) ltac:(by vm_compute) (fun _ => 0) [Alloc; Alloc; Free 1])
    as (k & held & free & Hr & _ & Hp & _).
  exists k, held, free. split; [exact Hr|exact Hp].
Defined.

Lemma kalloc_complete_witness :
  exists k1 k2, kfree 4096 2147491840 (boot_kmem (fun _ => 0)) = Ret tt k1 /\ kalloc k1 = Ret 2147491840 k2.
Proof.
  destruct (kalloc_complete 4096 ltac:(lia) (boot_kmem (fun _ => 0)) []) as (_ & _ & _ & _ & H).
  - split; try constructor.
  - destruct (H 2147491840) as (k1 & k2 & H1 & H2 & _); [by intros ?%elem_of_nil|by vm_compute|].
    exists k1, k2. split; [exact H1|exact H2].
Defined.
End Pages.
