(* ===== verification/Asm.v ===== *)
(** The assembly that saves and restores registers ([swtch.S], [trapasm.S], [vectors.pl]).

    [Module Asm] is the part of the processor that these files use: registers, memory and one
    function per kind of instruction, and the files as lists of instructions.
    [Module AsmSpec]: [swtch] leaves a [struct context] on the old stack, and switching to it
    continues where the first call would have returned, with the registers of then; the frame
    that [alltraps] builds is a [struct trapframe], and [trapret] gives the interrupted program
    back all its registers, as they are in the frame. *)

From S2P Require Import Prelude Bytes CString Kalloc.

Module Asm.
Import KString.

Record st := MkSt {
  eax : Z; ecx : Z; edx : Z; ebx : Z; esp : Z; ebp : Z; esi : Z; edi : Z;
  gs : Z; fs : Z; es : Z; ds : Z; ss : Z; cs : Z; eip : Z; eflags : Z; ram : mem
}.
Inductive reg := EAX | ECX | EDX | EBX | ESP | EBP | ESI | EDI.
Inductive seg := GS | FS | ES | DS.

Definition get (r : reg) (s : st) : Z :=
  match r with
  | EAX => eax s | ECX => ecx s | EDX => edx s | EBX => ebx s
  | ESP => esp s | EBP => ebp s | ESI => esi s | EDI => edi s
  end.
Definition set (r : reg) (v : Z) (s : st) : st :=
  let '(MkSt a c d b sp bp si di g f e x y k i l m) := s in
  match r with
  | EAX => MkSt v c d b sp bp si di g f e x y k i l m
  | ECX => MkSt a v d b sp bp si di g f e x y k i l m
  | EDX => MkSt a c v b sp bp si di g f e x y k i l m
  | EBX => MkSt a c d v sp bp si di g f e x y k i l m
  | ESP => MkSt a c d b v bp si di g f e x y k i l m
  | EBP => MkSt a c d b sp v si di g f e x y k i l m
  | ESI => MkSt a c d b sp bp v di g f e x y k i l m
  | EDI => MkSt a c d b sp bp si v g f e x y k i l m
  end.
Definition get_seg (r : seg) (s : st) : Z := match r with GS => gs s | FS => fs s | ES => es s | DS => ds s end.
Definition set_seg (r : seg) (v : Z) (s : st) : st :=
  let '(MkSt a c d b sp bp si di g f e x y k i l m) := s in
  match r with
  | GS => MkSt a c d b sp bp si di v f e x y k i l m
  | FS => MkSt a c d b sp bp si di g v e x y k i l m
  | ES => MkSt a c d b sp bp si di g f v x y k i l m
  | DS => MkSt a c d b sp bp si di g f e v y k i l m
  end.
(** [cs], [eip], [eflags], and [ss]. *)
Definition set_flow (k i l : Z) (s : st) : st :=
  MkSt (eax s) (ecx s) (edx s) (ebx s) (esp s) (ebp s) (esi s) (edi s) (gs s) (fs s) (es s) (ds s) (ss s) k i l (ram s).
Definition set_ss (y : Z) (s : st) : st :=
  MkSt (eax s) (ecx s) (edx s) (ebx s) (esp s) (ebp s) (esi s) (edi s) (gs s) (fs s) (es s) (ds s) y (cs s) (eip s) (eflags s) (ram s).
Definition set_ram (m : mem) (s : st) : st :=
  MkSt (eax s) (ecx s) (edx s) (ebx s) (esp s) (ebp s) (esi s) (edi s) (gs s) (fs s) (es s) (ds s) (ss s) (cs s) (eip s) (eflags s) m.

(** The stack *)
Definition push (v : Z) (s : st) : st :=
  let a := u32 (esp s - 4) in set_ram (store32 (ram s) a v) (set ESP a s).
Definition top (s : st) : Z := load32 (ram s) (esp s).
Definition drop (s : st) : st := set ESP (u32 (esp s + 4)) s.

(** The instructions, in the order of their operands. *)
Inductive instr :=
  | movl_load (off : Z) (base dst : reg)   (* movl off(base), dst *)
  | movl_store (src base : reg)            (* movl src, (base) *)
  | movl (src dst : reg)
  | movl_imm (v : Z) (dst : reg)
  | movw_ax (v : Z)                        (* movw $v, %ax *)
  | movw_seg (dst : seg)                   (* movw %ax, dst *)
  | pushl (r : reg) | popl (r : reg) | pushl_seg (r : seg) | popl_seg (r : seg) | pushl_imm (v : Z)
  | pushal | popal
  | addl (v : Z) (r : reg)
  | ret_ | iret.

Definition step (i : instr) (s : st) : st :=
  match i with
  | movl_load off base dst => set dst (load32 (ram s) (u32 (get base s + off))) s
  | movl_store src base => set_ram (store32 (ram s) (get base s) (get src s)) s
  | movl src dst => set dst (get src s) s
  | movl_imm v dst => set dst v s
  | movw_ax v => set EAX (Z.lor (Z.shiftl (Z.shiftr (eax s) 16) 16) v) s
  | movw_seg dst => set_seg dst (u16 (eax s)) s
  | pushl r => push (get r s) s
  | popl r => set r (top s) (drop s)
  | pushl_seg r => push (get_seg r s) s
  | popl_seg r => set_seg r (u16 (top s)) (drop s)
  | pushl_imm v => push v s
  | pushal =>
      let sp := esp s in
      push (edi s) (push (esi s) (push (ebp s) (push sp (push (ebx s) (push (edx s) (push (ecx s) (push (eax s) s)))))))
  | popal =>
      let s1 := set EDI (top s) (drop s) in
      let s2 := set ESI (top s1) (drop s1) in
      let s3 := set EBP (top s2) (drop s2) in
      let s4 := drop s3 in
      let s5 := set EBX (top s4) (drop s4) in
      let s6 := set EDX (top s5) (drop s5) in
      let s7 := set ECX (top s6) (drop s6) in
      set EAX (top s7) (drop s7)
  | addl v r => set r (u32 (get r s + v)) s
  | ret_ => set_flow (cs s) (top s) (eflags s) (drop s)
  | iret =>
      let s1 := drop s in
      let s2 := drop s1 in
      let k := u16 (top s1) in
      let s3 := set_flow k (top s) (top s2) (drop s2) in
      (* to another privilege level, the stack is in the frame too *)
      if Z.land k 3 =? Z.land (cs s) 3 then s3
      else set_ss (u16 (top (drop s3))) (set ESP (top s3) s3)
  end.
Definition run (l : list instr) (s : st) : st := foldl (fun s i => step i s) s l.

(** ** The files *)
Definition swtch : list instr :=
  [ movl_load 4 ESP EAX; movl_load 8 ESP EDX;
    pushl EBP; pushl EBX; pushl ESI; pushl EDI;
    movl_store ESP EAX; movl EDX ESP;
    popl EDI; popl ESI; popl EBX; popl EBP; ret_ ].

Definition SEG_KDATA : Z := 2.
(** [alltraps] up to its call of [trap], with [tf] the address of the frame, and the rest. *)
Definition alltraps : list instr :=
  [ pushl_seg DS; pushl_seg ES; pushl_seg FS; pushl_seg GS; pushal;
    movw_ax (Z.shiftl SEG_KDATA 3); movw_seg DS; movw_seg ES;
    pushl ESP ].
Definition trapret : list instr :=
  [ popal; popl_seg GS; popl_seg FS; popl_seg ES; popl_seg DS; addl 8 ESP; iret ].
Definition alltraps_end : list instr := addl 4 ESP :: trapret.

(** The entry points that [vectors.pl] generates: the processor pushes an error code for some
    traps only, and the others push a 0 in its place. *)
Definition has_err (i : Z) : bool := (i =? 8) || (10 <=? i) && (i <=? 14) || (i =? 17).
Definition vector (i : Z) : list instr := (if negb (has_err i) then [pushl_imm 0] else []) ++ [pushl_imm i].

(** What the processor does for trap [i] before the first instruction at [vec]: from another
    privilege level it changes to the stack [ss0:esp0] of the task state segment. [fl] are the
    flags that the kind of gate leaves. *)
Record gate := MkGate { g_ss0 : Z; g_esp0 : Z; g_cs : Z; g_eip : Z; g_flags : Z -> Z }.
Definition crosses (g : gate) (s : st) : bool := negb (Z.land (cs s) 3 =? Z.land (g_cs g) 3).
Definition interrupt (g : gate) (i e : Z) (s : st) : st :=
  let s1 := if crosses g s then push (esp s) (push (ss s) (set_ss (g_ss0 g) (set ESP (g_esp0 g) s))) else s in
  let s2 := push (eip s) (push (cs s) (push (eflags s) s1)) in
  set_flow (g_cs g) (g_eip g) (g_flags g (eflags s)) (if has_err i then push e s2 else s2).
(** The state in which [trap] is called. *)
Definition enter (g : gate) (i e : Z) (s : st) : st := run alltraps (run (vector i) (interrupt g i e s)).

(** [struct trapframe], without the last two fields that only a change of level has. *)
Record trapframe := MkTf {
  t_edi : Z; t_esi : Z; t_ebp : Z; t_oesp : Z; t_ebx : Z; t_edx : Z; t_ecx : Z; t_eax : Z;
  t_gs : Z; t_fs : Z; t_es : Z; t_ds : Z; t_trapno : Z; t_err : Z; t_eip : Z; t_cs : Z; t_eflags : Z
}.
Definition trapframe_at (m : mem) (a : Z) : trapframe :=
  MkTf (load32 m a) (load32 m (a + 4)) (load32 m (a + 8)) (load32 m (a + 12)) (load32 m (a + 16))
    (load32 m (a + 20)) (load32 m (a + 24)) (load32 m (a + 28))
    (u16 (load32 m (a + 32))) (u16 (load32 m (a + 36))) (u16 (load32 m (a + 40))) (u16 (load32 m (a + 44)))
    (load32 m (a + 48)) (load32 m (a + 52)) (load32 m (a + 56)) (u16 (load32 m (a + 60))) (load32 m (a + 64)).
Definition tf_esp (m : mem) (a : Z) : Z := load32 m (a + 68).
Definition tf_ss (m : mem) (a : Z) : Z := u16 (load32 m (a + 72)).
End Asm.

Module AsmSpec.
Import KString Asm.

Definition word (v : Z) : Prop := 0 <= v < 2 ^ 32.
(** The words at [a] and at [b] do not overlap. *)
Definition apart (a na b nb : Z) : Prop := a + na <= b \/ b + nb <= a.

Lemma ld_eq m a b w : a = b -> word w -> load32 (store32 m a w) b = w.
Proof. intros <-. apply Pages.load32_store32. Qed.
Lemma ld_ne m a b w : apart a 4 b 4 -> load32 (store32 m a w) b = load32 m b.
Proof. intros H. apply Pages.load32_ext. intros x Hx. apply Pages.store32_out. unfold apart in H. lia. Qed.
(** Reading words of a memory after some stores, at addresses that [lia] can compare. *)
Ltac read_words := repeat first
  [ rewrite ld_ne by (unfold apart in *; lia) | rewrite ld_eq by (unfold word in *; lia) ].

(** *** [struct context] *)
Record context := MkContext { c_edi : Z; c_esi : Z; c_ebx : Z; c_ebp : Z; c_eip : Z }.
Definition context_at (m : mem) (a : Z) : context :=
  MkContext (load32 m a) (load32 m (a + 4)) (load32 m (a + 8)) (load32 m (a + 12)) (load32 m (a + 16)).

(** A call [swtch(old, new)]: the stack has the return address and the arguments; the place
    for the old context, [*old] and the new context do not overlap. *)
Record call (s : st) (old new : Z) : Prop := MkCall {
  ca_esp : 16 <= esp s /\ esp s + 12 <= 2 ^ 32;
  ca_old : load32 (ram s) (esp s + 4) = old;
  ca_new : load32 (ram s) (esp s + 8) = new;
  ca_words : word (edi s) /\ word (esi s) /\ word (ebx s) /\ word (ebp s);
  ca_range : 0 <= old /\ old + 4 <= 2 ^ 32 /\ 0 <= new /\ new + 20 < 2 ^ 32;
  ca_apart : apart old 4 (esp s - 16) 20 /\ apart old 4 new 20 /\ apart new 20 (esp s - 16) 16
}.

Lemma swtch_ok s old new : call s old new -> let s' := run swtch s in
  context_at (ram s) new = MkContext (edi s') (esi s') (ebx s') (ebp s') (eip s') /\ esp s' = new + 20 /\
  load32 (ram s') old = esp s - 16 /\
  context_at (ram s') (esp s - 16) = MkContext (edi s) (esi s) (ebx s) (ebp s) (load32 (ram s) (esp s)).
Proof.
  intros [[Hs1 Hs2] Ho Hn (W1 & W2 & W3 & W4) Hr (A1 & A2 & A3)]. destruct s as [a c d b sp bp si di g f e x y k i l m]. cbn in *.
  unfold apart, word in *. unfold context_at. rewrite !u32_sub_l. rewrite !u32_id by lia. rewrite Ho, Hn.
  unfold top. cbn [esp ram]. read_words.
  split_and!; [f_equal; f_equal; lia|lia|lia|f_equal; f_equal; lia].
Qed.

(** *** [alltraps] and [trapret] *)
Definition seg16 (v : Z) : Prop := 0 <= v < 2 ^ 16.
Record wf (s : st) : Prop := MkWf {
  wf_regs : word (eax s) /\ word (ecx s) /\ word (edx s) /\ word (ebx s) /\ word (esp s) /\ word (ebp s) /\ word (esi s) /\ word (edi s);
  wf_flow : word (eip s) /\ word (eflags s);
  wf_segs : seg16 (gs s) /\ seg16 (fs s) /\ seg16 (es s) /\ seg16 (ds s) /\ seg16 (ss s) /\ seg16 (cs s)
}.
(** Where the frame of a trap starts. *)
Definition frame_of (g : gate) (s : st) : Z := if crosses g s then g_esp0 g - 76 else esp s - 68.
(** The frame that says "continue with [s]". *)
Definition regs_of (s : st) (o i e : Z) : trapframe :=
  MkTf (edi s) (esi s) (ebp s) o (ebx s) (edx s) (ecx s) (eax s) (gs s) (fs s) (es s) (ds s) i e (eip s) (cs s) (eflags s).
Definition err_of (i e : Z) : Z := if has_err i then e else 0.

Lemma movw_low a v : 0 <= v < 2 ^ 16 -> u16 (Z.lor (Z.shiftl (Z.shiftr a 16) 16) v) = v.
Proof.
  intros Hv. unfold u16. change W16 with (2 ^ 16). rewrite <- Z.land_ones by lia. apply Z.bits_inj'. intros n Hn.
  rewrite Z.land_spec, Z.lor_spec, Z.shiftl_spec by lia. destruct (decide (n < 16)).
  - rewrite (Z.testbit_neg_r _ (n - 16)) by lia. rewrite Z.ones_spec_low by lia. cbn. by rewrite andb_true_r.
  - rewrite Z.ones_spec_high, andb_false_r by lia. symmetry. apply Z.bits_above_log2; [lia|].
    destruct (decide (v = 0)) as [->|]; [cbn; lia|]. apply Z.lt_le_trans with 16; [|lia]. apply Z.log2_lt_pow2; lia.
Qed.

(** The memory after pushing the words [l] on a stack at [sp]. *)
Fixpoint pushes (m : mem) (sp : Z) (l : list Z) : mem :=
  match l with [] => m | v :: l => pushes (store32 m (u32 (sp - 4)) v) (u32 (sp - 4)) l end.
Fixpoint below (n : nat) (sp : Z) : Z := match n with O => sp | S n => u32 (below n sp - 4) end.

Lemma below_eq n sp : 4 * Z.of_nat n <= sp <= 2 ^ 32 -> (0 < n)%nat -> below n sp = sp - 4 * Z.of_nat n.
Proof.
  intros H Hn. destruct n as [|n]; [lia|]. clear Hn. induction n as [|n IH]; cbn [below].
  - rewrite u32_id; lia.
  - cbn [below] in IH. rewrite IH, u32_id by lia. lia.
Qed.
Lemma pushes_above l : forall m sp a, 4 * Z.of_nat (length l) <= sp <= 2 ^ 32 -> sp <= a ->
  load32 (pushes m sp l) a = load32 m a.
Proof.
  induction l as [|v l IH]; intros m sp a H Ha; [done|]. cbn [pushes length] in *.
  rewrite u32_id by lia. rewrite IH by lia. apply ld_ne. unfold apart. lia.
Qed.
Lemma pushes_read l n : forall m sp v a, l !! n = Some v -> a = sp - 4 * (Z.of_nat n + 1) ->
  Forall word l -> 4 * Z.of_nat (length l) <= sp <= 2 ^ 32 -> load32 (pushes m sp l) a = v.
Proof.
  revert n. induction l as [|w l IH]; intros n m sp v a Hl -> Hw H; [done|]. apply Forall_cons in Hw as [Hw Hws].
  cbn [pushes length] in *. rewrite u32_id by lia. destruct n as [|n]; cbn in Hl; simplify_eq.
  - rewrite pushes_above by lia. apply ld_eq; [lia|done].
  - apply (IH n _ (sp - 4) v); [done|lia|done|lia].
Qed.

(** The words of a frame, from the first that is pushed, and the argument of [trap]. *)
Definition frame_words (s : st) (o i e f : Z) : list Z :=
  [eflags s; cs s; eip s; e; i; ds s; es s; fs s; gs s; eax s; ecx s; edx s; ebx s; o; ebp s; esi s; edi s; f].
Lemma enter_ram g i e s : ram (enter g i e s) =
  if crosses g s then pushes (ram s) (g_esp0 g) (ss s :: esp s :: frame_words s (below 11 (g_esp0 g)) i (err_of i e) (below 19 (g_esp0 g)))
  else pushes (ram s) (esp s) (frame_words s (below 9 (esp s)) i (err_of i e) (below 17 (esp s))).
Proof.
  destruct s, g. unfold enter, interrupt, vector, err_of. destruct (crosses _ _), (has_err i); cbn; reflexivity.
Qed.
Lemma enter_regs g i e s : let s1 := enter g i e s in
  esp s1 = (if crosses g s then below 20 (g_esp0 g) else below 18 (esp s)) /\
  ss s1 = (if crosses g s then g_ss0 g else ss s) /\ ds s1 = 16 /\ es s1 = 16 /\ cs s1 = g_cs g.
Proof.
  assert (D : forall a, u16 (Z.lor (Z.shiftl (Z.shiftr a 16) 16) (Z.shiftl SEG_KDATA 3)) = 16) by (intros; by apply movw_low).
  cbn zeta. destruct s, g. unfold enter, interrupt, vector. destruct (crosses _ _), (has_err i); cbn; (split_and!; [reflexivity|reflexivity|apply D|apply D|reflexivity]).
Qed.
(** There is room for the frame, and the argument of [trap], on the stack that the trap uses. *)
Definition room (g : gate) (s : st) : Prop := if crosses g s then 80 <= g_esp0 g <= 2 ^ 32 else 72 <= esp s.

Lemma frame_pushed pre s o i e f m sp a : wf s -> word o -> word i -> word e -> word f -> Forall word pre ->
  72 + 4 * Z.of_nat (length pre) <= sp <= 2 ^ 32 ->
  a = sp - 4 * Z.of_nat (length pre) - 68 -> let m' := pushes m sp (pre ++ frame_words s o i e f) in
  trapframe_at m' a = regs_of s o i e /\ load32 m' (a - 4) = f /\
  (forall n v b, pre !! n = Some v -> b = sp - 4 * (Z.of_nat n + 1) -> load32 m' b = v).
Proof.
  intros [(R1 & R2 & R3 & R4 & R5 & R6 & R7 & R8) [F1 F2] (S1 & S2 & S3 & S4 & S5 & S6)] Ho Hi He Hf Hp Hsp Ha m'.
  assert (W : forall v, seg16 v -> word v) by (unfold seg16, word; lia).
  assert (Hw : Forall word (pre ++ frame_words s o i e f)) by (apply Forall_app; split; [done|];
    repeat (apply Forall_cons_2; [auto|]); apply Forall_nil_2).
  assert (R : forall n v b, frame_words s o i e f !! n = Some v -> b = a + 4 * (16 - Z.of_nat n) -> load32 m' b = v).
  { intros n v b Hn Hb. apply (pushes_read _ (length pre + n)); [|lia|done|rewrite length_app; cbn; lia].
    rewrite lookup_app_r by lia. by replace (length pre + n - length pre)%nat with n by lia. }
  unfold trapframe_at, regs_of. split_and!; [|apply (R 17%nat); [done|lia]|].
  2: { intros n v b Hn ->. apply (pushes_read _ n); [by apply lookup_app_l_Some|done|done|rewrite length_app; cbn; lia]. }
  rewrite (R 16%nat (edi s)), (R 15%nat (esi s)), (R 14%nat (ebp s)), (R 13%nat o), (R 12%nat (ebx s)), (R 11%nat (edx s)),
    (R 10%nat (ecx s)), (R 9%nat (eax s)), (R 8%nat (gs s)), (R 7%nat (fs s)), (R 6%nat (es s)), (R 5%nat (ds s)), (R 4%nat i),
    (R 3%nat e), (R 2%nat (eip s)), (R 1%nat (cs s)), (R 0%nat (eflags s)) by (reflexivity || lia).
  by rewrite !u16_id.
Qed.
Lemma enter_frame g i e s : wf s -> word i -> word e -> room g s -> let f := frame_of g s in let s1 := enter g i e s in
  trapframe_at (ram s1) f = regs_of s (f + 32) i (err_of i e) /\ load32 (ram s1) (f - 4) = f /\ esp s1 = f - 4 /\
  (crosses g s = true -> tf_esp (ram s1) f = esp s /\ tf_ss (ram s1) f = ss s).
Proof.
  intros Hs Hi He Hr f s1. subst f s1. destruct (enter_regs g i e s) as [-> _]. rewrite enter_ram.
  assert (E : word (err_of i e)) by (unfold err_of; destruct (has_err i); [done|split; lia]).
  pose proof Hs as [(_ & _ & _ & _ & Hsp & _) _ (_ & _ & _ & _ & Hss & _)].
  unfold word, seg16 in Hsp, Hss. unfold room, frame_of in *. destruct (crosses g s); rewrite !below_eq by lia.
  - destruct (frame_pushed [ss s; esp s] s (g_esp0 g - 4 * Z.of_nat 11) i (err_of i e) (g_esp0 g - 4 * Z.of_nat 19) (ram s)
      (g_esp0 g) (g_esp0 g - 76)) as (H1 & H2 & H3); try (unfold word; cbn; lia); try done.
    { repeat (apply Forall_cons_2; [unfold word; lia|]). apply Forall_nil_2. }
    cbn [app] in *. rewrite H1, H2. split_and!; [f_equal; lia|lia|lia|intros _]. unfold tf_esp, tf_ss.
    rewrite (H3 1%nat (esp s)), (H3 0%nat (ss s)) by (done || lia). by rewrite u16_id.
  - destruct (frame_pushed [] s (esp s - 4 * Z.of_nat 9) i (err_of i e) (esp s - 4 * Z.of_nat 17) (ram s)
      (esp s) (esp s - 68)) as (H1 & H2 & _); try (unfold word; cbn; lia); try done.
    cbn [app] in *. rewrite H1, H2. split_and!; [f_equal; lia|lia|lia|done].
Qed.

Fixpoint above (n : nat) (sp : Z) : Z := match n with O => sp | S n => u32 (above n sp + 4) end.
Lemma above_eq n sp : 0 <= sp -> sp + 4 * Z.of_nat n < 2 ^ 32 -> above n sp = sp + 4 * Z.of_nat n.
Proof. intros H1. induction n as [|n IH]; intros H; cbn [above]; [lia|]. rewrite IH, u32_id by lia. lia. Qed.

Lemma run_cons i l s : run (i :: l) s = run l (step i s).
Proof. reflexivity. Qed.
Lemma addl_run a c d b sp bp si di gg ff ee x y k ip l m v : step (addl v ESP) (MkSt a c d b sp bp si di gg ff ee x y k ip l m) =
  MkSt a c d b (u32 (sp + v)) bp si di gg ff ee x y k ip l m.
Proof. reflexivity. Qed.
Lemma popal_run a c d b sp bp si di gg ff ee x y k ip l m : let w n := load32 m (above n sp) in
  step popal (MkSt a c d b sp bp si di gg ff ee x y k ip l m) =
  MkSt (w 7%nat) (w 6%nat) (w 5%nat) (w 4%nat) (above 8 sp) (w 2%nat) (w 1%nat) (w 0%nat) gg ff ee x y k ip l m.
Proof. reflexivity. Qed.
Lemma segs_run a c d b sp bp si di gg ff ee x y c0 ip l m : let q := u32 (above 4 sp + 8) in
  let k := u16 (load32 m (above 1 q)) in let same := Z.land k 3 =? Z.land c0 3 in let w n := u16 (load32 m (above n sp)) in
  run [popl_seg GS; popl_seg FS; popl_seg ES; popl_seg DS; addl 8 ESP; iret] (MkSt a c d b sp bp si di gg ff ee x y c0 ip l m) =
  MkSt a c d b (if same then above 3 q else load32 m (above 3 q)) bp si di (w 0%nat) (w 1%nat) (w 2%nat) (w 3%nat)
    (if same then y else u16 (load32 m (above 4 q))) k (load32 m q) (load32 m (above 2 q)) m.
Proof. cbn. by destruct (_ =? _). Qed.
Lemma trapret_run t : let m := ram t in let p := u32 (esp t + 4) in let q := u32 (above 12 p + 8) in
  let k := u16 (load32 m (above 1 q)) in let same := Z.land k 3 =? Z.land (cs t) 3 in let w n := load32 m (above n p) in
  run alltraps_end t = MkSt (w 7%nat) (w 6%nat) (w 5%nat) (w 4%nat) (if same then above 3 q else load32 m (above 3 q))
    (w 2%nat) (w 1%nat) (w 0%nat) (u16 (w 8%nat)) (u16 (w 9%nat)) (u16 (w 10%nat)) (u16 (w 11%nat))
    (if same then ss t else u16 (load32 m (above 4 q))) k (load32 m q) (load32 m (above 2 q)) m.
Proof.
  destruct t as [a c d b sp bp si di gg ff ee x y k ip l m]. cbv zeta. cbn [ram esp cs ss].
  unfold alltraps_end, trapret. rewrite 2!run_cons. rewrite addl_run, popal_run, segs_run. reflexivity.
Qed.

(** [trapret] continues with what the frame says. *)
Lemma trapret_ok t f : esp t = f - 4 -> 4 <= f -> f + 68 < 2 ^ 32 -> let F := trapframe_at (ram t) f in
  let same := Z.land (t_cs F) 3 =? Z.land (cs t) 3 in (same = false -> f + 76 <= 2 ^ 32) ->
  run alltraps_end t = MkSt (t_eax F) (t_ecx F) (t_edx F) (t_ebx F) (if same then f + 68 else tf_esp (ram t) f) (t_ebp F)
    (t_esi F) (t_edi F) (t_gs F) (t_fs F) (t_es F) (t_ds F) (if same then ss t else tf_ss (ram t) f)
    (t_cs F) (t_eip F) (t_eflags F) (ram t).
Proof.
  intros Ht H1 H2 F same Hs. rewrite trapret_run, Ht. cbv zeta. replace (u32 (f - 4 + 4)) with f by (rewrite u32_id; lia).
  replace (u32 (above 12 f + 8)) with (f + 56) by (rewrite above_eq, u32_id; lia).
  assert (A : forall n, (n < 12)%nat -> above n f = f + 4 * Z.of_nat n) by (intros; apply above_eq; lia).
  rewrite !A by lia. rewrite !(above_eq 1), !(above_eq 2), !(above_eq 3) by lia.
  subst F same. unfold trapframe_at, tf_esp, tf_ss in *. cbn [t_cs] in Hs. cbn -[Z.mul Z.add above].
  rewrite <- !Z.add_assoc. cbn [Z.mul Z.add Z.of_nat Pos.of_succ_nat Pos.succ Pos.mul Pos.add]. rewrite Z.add_0_r.
  destruct (_ =? _); [reflexivity|]. rewrite above_eq by (specialize (Hs eq_refl); lia). by rewrite <- Z.add_assoc.
Qed.

(** C39: A context switch comes back: after [swtch(old, new)], whatever happens in between, a
    [swtch] to the context that was left in [*old] returns from the first call (to its return
    address, with the stack pointer past it) with the callee-saved registers of the first call,
    if the 20 bytes of the saved context are still the same. *)
Theorem swtch_back s old new s2 old2 : call s old new -> call s2 old2 (load32 (ram (run swtch s)) old) ->
  context_at (ram s2) (esp s - 16) = context_at (ram (run swtch s)) (esp s - 16) ->
  let s' := run swtch s2 in
  edi s' = edi s /\ esi s' = esi s /\ ebx s' = ebx s /\ ebp s' = ebp s /\
  eip s' = load32 (ram s) (esp s) /\ esp s' = esp s + 4.
Proof.
  intros H1 H2 Hc. destruct (swtch_ok _ _ _ H1) as (_ & _ & Ho & Hs). rewrite Ho in H2.
  destruct (swtch_ok _ _ _ H2) as (Hn & He & _). rewrite Hc, Hs in Hn.
  intros s'. fold s' in Hn, He. clearbody s'. injection Hn. intros. split_and!; [done..|lia].
Qed.

(** Two threads: the first calls [swtch(256, 8192)] with its stack at 4096, the second calls
    [swtch(260, 4080)] on the stack it was given. *)
Definition ex_s : st :=
  MkSt 0 0 0 3 4096 4 2 1 0 0 16 16 16 8 500 2 (store32 (store32 (store32 (fun _ => 0) 4096 77) 4100 256) 4104 8192).
Definition ex_s2 : st :=
  MkSt 9 9 9 9 8212 9 9 9 0 0 16 16 16 8 600 2 (store32 (store32 (ram (run swtch ex_s)) 8216 260) 8220 4080).
Lemma swtch_back_witness : let s' := run swtch ex_s2 in
  edi s' = edi ex_s /\ esi s' = esi ex_s /\ ebx s' = ebx ex_s /\ ebp s' = ebp ex_s /\
  eip s' = load32 (ram ex_s) (esp ex_s) /\ esp s' = esp ex_s + 4.
Proof.
  apply (swtch_back ex_s 256 8192 ex_s2 260).
  - constructor; [cbn; lia|by vm_compute|by vm_compute|unfold word; cbn; lia|lia|unfold apart; cbn; lia].
  - replace (load32 _ 256) with 4080 by (by vm_compute).
    constructor; [cbn; lia|by vm_compute|by vm_compute|unfold word; cbn; lia|lia|unfold apart; cbn; lia].
  - by vm_compute.
Defined.

(** The frame [F] with another result of the system call. *)
Definition tf_eax (r : Z) (F : trapframe) : trapframe :=
  MkTf (t_edi F) (t_esi F) (t_ebp F) (t_oesp F) (t_ebx F) (t_edx F) (t_ecx F) r (t_gs F) (t_fs F) (t_es F) (t_ds F)
    (t_trapno F) (t_err F) (t_eip F) (t_cs F) (t_eflags F).
(** The handler of a trap comes back to [alltraps] with the registers that C preserves, and it
    has changed nothing in the frame but [eax]. *)
Record handled (g : gate) (s s1 t : st) (r : Z) : Prop := MkHandled {
  h_esp : esp t = esp s1; h_cs : cs t = cs s1; h_ss : ss t = ss s1;
  h_frame : trapframe_at (ram t) (frame_of g s) = tf_eax r (trapframe_at (ram s1) (frame_of g s));
  h_cross : crosses g s = true -> tf_esp (ram t) (frame_of g s) = tf_esp (ram s1) (frame_of g s) /\
                                  tf_ss (ram t) (frame_of g s) = tf_ss (ram s1) (frame_of g s)
}.

(** A system call of a user program, whose handler returns 7. *)
Definition ex_user : st := MkSt 5 1 2 3 12288 4 6 8 0 0 35 35 35 27 1000 514 (fun _ => 0).
Definition ex_gate : gate := MkGate 16 4096 8 2000 (fun l => l).
Definition ex_back : st :=
  let s1 := enter ex_gate 64 0 ex_user in set_ram (store32 (ram s1) (frame_of ex_gate ex_user + 28) 7) s1.
End AsmSpec.
