(* ===== verification/Segments.v ===== *)
(** Segment and gate descriptors, and the registers that point to them ([mmu.h], [seginit],
    [switchkvm] and [switchuvm] of [vm.c], [tvinit] and [idtinit] of [trap.c], [lgdt],
    [lidt], [ltr], [lcr3] of [x86.h]).

    A descriptor is a C structure of bit-fields on our side and eight bytes on the
    processor's.  [pack] lays the fields out, [Module Hw] reads the eight bytes as the
    processor does, and the theorems say what the processor finds there. *)

From S2P Require Import Prelude Params Spinlock Sleeplock Kalloc.

(** ** Bit-fields

    A list of widths and values, from the lowest bit up; a value is cut to its width, as an
    assignment to a bit-field does. *)
Fixpoint pack (fs : list (Z * Z)) : Z :=
  match fs with [] => 0 | (w, v) :: fs => v mod 2 ^ w + 2 ^ w * pack fs end.
(** [w] bits of [x] from bit [o]. *)
Definition bits (x o w : Z) : Z := (x / 2 ^ o) mod 2 ^ w.

Lemma bits_pack_here w v fs : 0 <= w -> bits (pack ((w, v) :: fs)) 0 w = v mod 2 ^ w.
Proof.
  intros Hw. unfold bits. cbn [pack]. rewrite Z.pow_0_r, Z.div_1_r, (Z.mul_comm (2 ^ w)), Z.mod_add by lia. by apply Z.mod_mod; lia.
Qed.
Lemma bits_pack_next w v fs o w' : 0 <= w <= o -> bits (pack ((w, v) :: fs)) o w' = bits (pack fs) (o - w) w'.
Proof.
  intros Hw. unfold bits. cbn [pack]. f_equal. replace (2 ^ o) with (2 ^ w * 2 ^ (o - w)) by (rewrite <- Z.pow_add_r by lia; f_equal; lia).
  rewrite <- Z.div_div by lia. f_equal. rewrite (Z.mul_comm (2 ^ w)), Z.div_add by lia.
  rewrite Z.div_small by (apply Z.mod_pos_bound; lia). lia.
Qed.
Lemma bits_split x : 0 <= x < 2 ^ 32 ->
  Z.land x 65535 mod 2 ^ 16 + 2 ^ 16 * (Z.land (Z.shiftr x 16) 255 mod 2 ^ 8) + 2 ^ 24 * (Z.shiftr x 24 mod 2 ^ 8) = x.
Proof.
  intros Hx. change 65535 with (Z.ones 16). change 255 with (Z.ones 8). rewrite !Z.land_ones, !Z.shiftr_div_pow2, !Z.mod_mod by done.
  rewrite (Z.mod_small (x / 2 ^ 24)) by (split; [apply Z.div_pos; lia|apply Z.div_lt_upper_bound; lia]).
  pose proof (Z.div_mod x (2 ^ 16) ltac:(done)). pose proof (Z.div_mod (x / 2 ^ 16) (2 ^ 8) ltac:(done)) as H2.
  rewrite Z.div_div in H2 by done. change (2 ^ 16 * 2 ^ 8) with (2 ^ 24) in H2. lia.
Qed.
(** Reads one field of a descriptor. *)
Ltac read_field := repeat (rewrite bits_pack_next by lia);
  match goal with |- context [bits (pack ((?w, ?v) :: ?fs)) ?o ?w] => change o with 0; rewrite (bits_pack_here w v fs) by lia end.

(** ** What the processor reads *)
Module Hw.
Definition base (d : Z) : Z := bits d 16 16 + 2 ^ 16 * bits d 32 8 + 2 ^ 24 * bits d 56 8.
(** The last offset; in pages when the granularity bit is set. *)
Definition limit (d : Z) : Z :=
  let l := bits d 0 16 + 2 ^ 16 * bits d 48 4 in if bits d 55 1 =? 1 then l * 4096 + 4095 else l.
Definition type (d : Z) : Z := bits d 40 4.
Definition code_or_data (d : Z) : bool := bits d 44 1 =? 1.
Definition dpl (d : Z) : Z := bits d 45 2.
Definition present (d : Z) : bool := bits d 47 1 =? 1.
(** The entry point and code segment of a gate. *)
Definition offset (d : Z) : Z := bits d 0 16 + 2 ^ 16 * bits d 48 16.
Definition selector (d : Z) : Z := bits d 16 16.
(** A program at privilege level [cpl] may use the gate with an [int] instruction. *)
Definition may_call (d cpl : Z) : bool := present d && (cpl <=? dpl d).
(** Entering through the gate turns interrupts off. *)
Definition masks (d : Z) : bool := type d =? 14.
End Hw.

Module Segments.
Import Kalloc Cpu.

(** [struct segdesc] *)
Record segdesc := MkSeg {
  lim_15_0 : Z; base_15_0 : Z; base_23_16 : Z; type : Z; s : Z; dpl : Z; p : Z;
  lim_19_16 : Z; avl : Z; rsv1 : Z; db : Z; g : Z; base_31_24 : Z
}.
#[global] Instance segdesc_inhabited : Inhabited segdesc := populate (MkSeg 0 0 0 0 0 0 0 0 0 0 0 0 0).
Definition seg_bits (d : segdesc) : Z := pack
  [(16, lim_15_0 d); (16, base_15_0 d); (8, base_23_16 d); (4, type d); (1, s d); (2, dpl d); (1, p d);
   (4, lim_19_16 d); (1, avl d); (1, rsv1 d); (1, db d); (1, g d); (8, base_31_24 d)].

Definition SEG (type base lim dpl : Z) : segdesc :=
  MkSeg (Z.land (Z.shiftr lim 12) 65535) (Z.land (u32 base) 65535)
    (Z.land (Z.shiftr (u32 base) 16) 255) type 1 dpl 1
    (Z.shiftr (u32 lim) 28) 0 0 1 1 (Z.shiftr (u32 base) 24).
Definition SEG16 (type base lim dpl : Z) : segdesc :=
  MkSeg (Z.land lim 65535) (Z.land (u32 base) 65535)
    (Z.land (Z.shiftr (u32 base) 16) 255) type 1 dpl 1
    (Z.shiftr (u32 lim) 16) 0 0 1 0 (Z.shiftr (u32 base) 24).
Definition set_s (x : Z) (d : segdesc) : segdesc :=
  MkSeg (lim_15_0 d) (base_15_0 d) (base_23_16 d) (type d) x (dpl d) (p d)
    (lim_19_16 d) (avl d) (rsv1 d) (db d) (g d) (base_31_24 d).

Definition SEG_KCODE : nat := 1.
Definition SEG_KDATA : nat := 2.
Definition SEG_UCODE : nat := 3.
Definition SEG_UDATA : nat := 4.
Definition SEG_TSS : nat := 5.
Definition NSEGS : nat := 6.
Definition DPL_USER : Z := 3.
Definition STA_X : Z := 8.
Definition STA_W : Z := 2.
Definition STA_R : Z := 2.
Definition STS_T32A : Z := 9.
Definition STS_IG32 : Z := 14.
Definition STS_TG32 : Z := 15.
(** A selector: the index of a descriptor, shifted over the privilege level. *)
Definition sel (i : nat) : Z := Z.shiftl (Z.of_nat i) 3.

(** A processor: its interrupt nesting, its descriptors, the fields of [struct taskstate]
    that the kernel sets, and the registers. *)
Record cpu := MkCpu {
  irq : Cpu.cpu; gdt : list segdesc; esp0 : Z; ss0 : Z; iomb : Z;
  gdtr : list Z; idtr : list Z; tr : Z; cr3 : Z
}.
Definition on_irq {A} (m : M Cpu.cpu A) : M cpu A := zoom irq (fun x c =>
  MkCpu x (gdt c) (esp0 c) (ss0 c) (iomb c) (gdtr c) (idtr c) (tr c) (cr3 c)) m.
Definition set_gdt (i : nat) (f : segdesc -> segdesc) : M cpu unit := modify (fun c =>
  MkCpu (irq c) (alter f i (gdt c)) (esp0 c) (ss0 c) (iomb c) (gdtr c) (idtr c) (tr c) (cr3 c)).
Definition set_ss0 (x : Z) : M cpu unit := modify (fun c =>
  MkCpu (irq c) (gdt c) (esp0 c) x (iomb c) (gdtr c) (idtr c) (tr c) (cr3 c)).
Definition set_esp0 (x : Z) : M cpu unit := modify (fun c =>
  MkCpu (irq c) (gdt c) x (ss0 c) (iomb c) (gdtr c) (idtr c) (tr c) (cr3 c)).
Definition set_iomb (x : Z) : M cpu unit := modify (fun c =>
  MkCpu (irq c) (gdt c) (esp0 c) (ss0 c) x (gdtr c) (idtr c) (tr c) (cr3 c)).

(** The six bytes that [lgdt] and [lidt] load. *)
Definition table_reg (p size : Z) : list Z := [u16 (size - 1); u16 p; u16 (Z.shiftr (u32 p) 16)].
Definition lgdt (p size : Z) : M cpu unit := modify (fun c =>
  MkCpu (irq c) (gdt c) (esp0 c) (ss0 c) (iomb c) (table_reg p size) (idtr c) (tr c) (cr3 c)).
Definition lidt (p size : Z) : M cpu unit := modify (fun c =>
  MkCpu (irq c) (gdt c) (esp0 c) (ss0 c) (iomb c) (gdtr c) (table_reg p size) (tr c) (cr3 c)).
Definition ltr (x : Z) : M cpu unit := modify (fun c =>
  MkCpu (irq c) (gdt c) (esp0 c) (ss0 c) (iomb c) (gdtr c) (idtr c) (u16 x) (cr3 c)).
Definition lcr3 (x : Z) : M cpu unit := modify (fun c =>
  MkCpu (irq c) (gdt c) (esp0 c) (ss0 c) (iomb c) (gdtr c) (idtr c) (tr c) x).

Section cpus.
(** Where this processor's [struct cpu] has its descriptors and its task state. *)
Variables (gdt_addr ts_addr : Z).
Definition sizeof_segdesc : Z := 8.
Definition sizeof_taskstate : Z := 104.

(** [cpuid()] checks that interrupts are off. *)
Definition seginit : M cpu unit :=
  on_irq mycpu ;;;
  set_gdt SEG_KCODE (fun _ => SEG (Z.lor STA_X STA_R) 0 4294967295 0) ;;;
  set_gdt SEG_KDATA (fun _ => SEG STA_W 0 4294967295 0) ;;;
  set_gdt SEG_UCODE (fun _ => SEG (Z.lor STA_X STA_R) 0 4294967295 DPL_USER) ;;;
  set_gdt SEG_UDATA (fun _ => SEG STA_W 0 4294967295 DPL_USER) ;;;
  lgdt gdt_addr (Z.of_nat NSEGS * sizeof_segdesc).

Definition switchkvm (kpgdir : Z) : M cpu unit := lcr3 (V2P kpgdir).

(** [p] is none, or a process with its kernel stack and page directory. *)
Definition switchuvm (p : option (Z * Z)) : M cpu unit :=
  match p with
  | None => panic "switchuvm: no process"
  | Some (kstack, pgdir) =>
      if kstack =? 0 then panic "switchuvm: no kstack" else
      if pgdir =? 0 then panic "switchuvm: no pgdir" else
      on_irq pushcli ;;;
      on_irq mycpu ;;;
      set_gdt SEG_TSS (fun _ => SEG16 STS_T32A ts_addr (sizeof_taskstate - 1) 0) ;;;
      on_irq mycpu ;;;
      set_gdt SEG_TSS (set_s 0) ;;;
      on_irq mycpu ;;;
      set_ss0 (sel SEG_KDATA) ;;;
      on_irq mycpu ;;;
      set_esp0 (u32 (kstack + KSTACKSIZE)) ;;;
      on_irq mycpu ;;;
      set_iomb 65535 ;;;
      ltr (sel SEG_TSS) ;;;
      lcr3 (V2P pgdir) ;;;
      on_irq popcli
  end.
End cpus.

(** ** Gates *)
Record gatedesc := MkGate {
  off_15_0 : Z; g_cs : Z; g_args : Z; g_rsv1 : Z; g_type : Z; g_s : Z; g_dpl : Z; g_p : Z; off_31_16 : Z
}.
#[global] Instance gatedesc_inhabited : Inhabited gatedesc := populate (MkGate 0 0 0 0 0 0 0 0 0).
Definition gate_bits (d : gatedesc) : Z := pack
  [(16, off_15_0 d); (16, g_cs d); (5, g_args d); (3, g_rsv1 d); (4, g_type d); (1, g_s d); (2, g_dpl d); (1, g_p d);
   (16, off_31_16 d)].
Definition SETGATE (istrap : bool) (sl off d : Z) : gatedesc :=
  MkGate (Z.land (u32 off) 65535) sl 0 0 (if istrap then STS_TG32 else STS_IG32) 0 d 1 (Z.shiftr (u32 off) 16).

Definition T_SYSCALL : Z := 64.
(** The globals of [trap.c]. *)
Record traps := MkTraps { idt : list gatedesc; tickslock : Klock.t; ticks : Z }.
Definition set_gate (i : nat) (d : gatedesc) : M traps unit := modify (fun t =>
  MkTraps (<[i := d]> (idt t)) (tickslock t) (ticks t)).
(** [vectors] are the entry points. *)
Definition tvinit (vectors : nat -> Z) : M traps unit :=
  for_loop (A := unit) (fun i => set_gate i (SETGATE false (sel SEG_KCODE) (vectors i) 0) ;;; ret None) 0 256 ;;;
  set_gate (Z.to_nat T_SYSCALL) (SETGATE true (sel SEG_KCODE) (vectors (Z.to_nat T_SYSCALL)) DPL_USER) ;;;
  modify (fun t => MkTraps (idt t) false (ticks t)).
Definition sizeof_gatedesc : Z := 8.
Definition idtinit (idt_addr : Z) : M cpu unit := lidt idt_addr (256 * sizeof_gatedesc).
End Segments.

Module SegmentFacts.
Import Kalloc Cpu Segments.

(** What the processor finds in the descriptors that the macros make. *)
Record describes (d : Z) (b l t : Z) (app : bool) (pl : Z) : Prop := MkDescribes {
  de_base : Hw.base d = b; de_limit : Hw.limit d = l; de_type : Hw.type d = t;
  de_app : Hw.code_or_data d = app; de_dpl : Hw.dpl d = pl; de_present : Hw.present d = true
}.

(** The fields at their places. *)
Lemma seg_fields d : let x := seg_bits d in
  Hw.base x = base_15_0 d mod 2 ^ 16 + 2 ^ 16 * (base_23_16 d mod 2 ^ 8) + 2 ^ 24 * (base_31_24 d mod 2 ^ 8) /\
  Hw.limit x = (let l := lim_15_0 d mod 2 ^ 16 + 2 ^ 16 * (lim_19_16 d mod 2 ^ 4) in if g d mod 2 ^ 1 =? 1 then l * 4096 + 4095 else l) /\
  Hw.type x = type d mod 2 ^ 4 /\ Hw.code_or_data x = (s d mod 2 ^ 1 =? 1) /\ Hw.dpl x = dpl d mod 2 ^ 2 /\
  Hw.present x = (p d mod 2 ^ 1 =? 1).
Proof.
  cbn zeta. unfold Hw.base, Hw.limit, Hw.type, Hw.code_or_data, Hw.dpl, Hw.present, seg_bits.
  split_and!; repeat read_field; done.
Qed.

Lemma SEG_describes t b l pl :
  0 <= t < 16 -> 0 <= b < 2 ^ 32 -> 0 <= l < 2 ^ 32 -> 0 <= pl < 4 ->
  describes (seg_bits (SEG t b l pl)) b (l / 4096 * 4096 + 4095) t true pl.
Proof.
  intros Ht Hb Hl Hpl. destruct (seg_fields (SEG t b l pl)) as (E1 & E2 & E3 & E4 & E5 & E6).
  cbn [SEG lim_15_0 base_15_0 base_23_16 type s dpl p lim_19_16 avl rsv1 db g base_31_24] in *. rewrite !u32_id in * by done.
  split; [by rewrite E1, bits_split| |rewrite E3; by apply Z.mod_small|done|rewrite E5; by apply Z.mod_small|done].
  rewrite E2. cbn zeta. change (1 mod 2 ^ 1 =? 1) with true. cbn iota. f_equal. f_equal. change 65535 with (Z.ones 16).
  rewrite Z.land_ones, !Z.shiftr_div_pow2, Z.mod_mod by done. change 4096 with (2 ^ 12).
  rewrite (Z.mod_small (l / 2 ^ 28)) by (split; [apply Z.div_pos; lia|apply Z.div_lt_upper_bound; lia]).
  pose proof (Z.div_mod (l / 2 ^ 12) (2 ^ 16) ltac:(done)) as H2. rewrite Z.div_div in H2 by done. change (2 ^ 12 * 2 ^ 16) with (2 ^ 28) in H2. lia.
Qed.
Lemma SEG16_describes t b l pl :
  0 <= t < 16 -> 0 <= b < 2 ^ 32 -> 0 <= l < 2 ^ 20 -> 0 <= pl < 4 ->
  describes (seg_bits (SEG16 t b l pl)) b l t true pl /\ describes (seg_bits (set_s 0 (SEG16 t b l pl))) b l t false pl.
Proof.
  intros Ht Hb Hl Hpl. destruct (seg_fields (SEG16 t b l pl)) as (E1 & E2 & E3 & E4 & E5 & E6).
  destruct (seg_fields (set_s 0 (SEG16 t b l pl))) as (F1 & F2 & F3 & F4 & F5 & F6).
  cbn [SEG16 set_s lim_15_0 base_15_0 base_23_16 type s dpl p lim_19_16 avl rsv1 db g base_31_24] in *. rewrite !u32_id in * by lia.
  rewrite bits_split in * by done.
  assert (Hlim : Z.land l 65535 mod 2 ^ 16 + 2 ^ 16 * (Z.shiftr l 16 mod 2 ^ 4) = l).
  { change 65535 with (Z.ones 16). rewrite Z.land_ones, Z.shiftr_div_pow2, Z.mod_mod by done.
    rewrite (Z.mod_small (l / 2 ^ 16)) by (split; [apply Z.div_pos; lia|apply Z.div_lt_upper_bound; lia]).
    pose proof (Z.div_mod l (2 ^ 16) ltac:(done)). lia. }
  cbn zeta in E2, F2. rewrite Hlim in E2, F2. change (0 mod 2 ^ 1 =? 1) with false in *. cbn iota in E2, F2.
  rewrite Z.mod_small in E3, F3, E5, F5 by done. by split; split.
Qed.

(** After [seginit] the processor's table has the flat segments: kernel code and data at
    level 0 and user code and data at level 3, all of 4 gigabytes from address 0, and the
    register points to the table. *)
Theorem seginit_flat gdt_addr c :
  0 <= gdt_addr < 2 ^ 32 -> if_on (irq c) = false -> length (gdt c) = NSEGS ->
  exists c', seginit gdt_addr c = Ret tt c' /\ gdtr c' = [47; gdt_addr mod 2 ^ 16; gdt_addr / 2 ^ 16] /\
    (forall i t pl, (i, t, pl) ∈ [(SEG_KCODE, 10, 0); (SEG_KDATA, 2, 0); (SEG_UCODE, 10, 3); (SEG_UDATA, 2, 3)] ->
      exists d, gdt c' !! i = Some d /\ describes (seg_bits d) 0 (2 ^ 32 - 1) t true pl) /\
    gdt c' !! SEG_TSS = gdt c !! SEG_TSS.
Proof.
  intros Ha Hoff Hlen. destruct c as [[nc ie ef] gd e0 s0 io gr ir t3 c3]. cbn in Hoff, Hlen. unfold if_on in Hoff. cbn in Hoff.
  destruct gd as [|d0 [|d1 [|d2 [|d3 [|d4 [|d5 [|]]]]]]]; try done. clear Hlen. eexists. split.
  { unfold seginit, on_irq, zoom, mycpu, readeflags, bind, reads. cbn. rewrite Hoff. reflexivity. }
  cbn [gdt gdtr]. split_and!; [| |done].
  - unfold table_reg. cbn. rewrite u32_id by done. unfold u16. rewrite Z.shiftr_div_pow2 by done.
    rewrite (Z.mod_small (gdt_addr / 2 ^ 16)) by (split; [apply Z.div_pos; lia|apply Z.div_lt_upper_bound; lia]). done.
  - intros i t pl Hin. rewrite !elem_of_cons, elem_of_nil in Hin.
    destruct Hin as [[= -> -> ->]|[[= -> -> ->]|[[= -> -> ->]|[[= -> -> ->]|[]]]]]; eexists; (split; [reflexivity|by apply SEG_describes]).
Qed.

(** Inside [pushcli] and [popcli]. *)
Lemma mycpu_ok x c : if_on (irq c) = false -> irq x = irq c -> on_irq mycpu x = Ret tt x.
Proof.
  intros Hoff Hx. destruct x as [[nc ie ef] ? ? ? ? ? ? ? ?]. cbn in Hx. unfold on_irq, zoom, mycpu, readeflags, bind, reads. cbn.
  rewrite <- Hx in Hoff. unfold if_on in Hoff. cbn in Hoff. by rewrite Hoff.
Qed.
Lemma pushed c : wf (irq c) -> exists i, Cpu.pushcli (irq c) = Ret tt i /\ if_on i = false /\
  exists i', Cpu.popcli i = Ret tt i' /\ ncli i' = ncli (irq c) /\ eflags i' = eflags (irq c).
Proof.
  intros Hwf. destruct (pushcli_popcli (irq c) Hwf) as (i' & H & ? & ?). pose proof (pushcli_run (irq c)) as Hp. eexists.
  split; [exact Hp|]. split; [unfold if_on; cbn; by rewrite land_cli|]. exists i'.
  unfold bind in H. rewrite Hp in H. done.
Qed.

(** [switchuvm(p)] panics for no process, no kernel stack or no page directory.
    Otherwise the processor takes [p]'s page directory, and its task register points to a
    descriptor of this processor's task state, which has the top of [p]'s kernel stack, and no
    bitmap that would let the user reach the devices; the other descriptors, the depth of
    [pushcli] and the flags are as before. *)
Lemma switchuvm_ok ts_addr p c :
  0 <= ts_addr < 2 ^ 32 -> wf (irq c) -> length (gdt c) = NSEGS ->
  match p with
  | None => switchuvm ts_addr p c = Panic "switchuvm: no process"
  | Some (kstack, pgdir) =>
      if kstack =? 0 then switchuvm ts_addr p c = Panic "switchuvm: no kstack" else
      if pgdir =? 0 then switchuvm ts_addr p c = Panic "switchuvm: no pgdir" else
      exists c' d, switchuvm ts_addr p c = Ret tt c' /\
        cr3 c' = V2P pgdir /\ tr c' = 8 * Z.of_nat SEG_TSS /\ gdt c' = <[SEG_TSS := d]> (gdt c) /\
        describes (seg_bits d) ts_addr (sizeof_taskstate - 1) STS_T32A false 0 /\
        ss0 c' = 8 * Z.of_nat SEG_KDATA /\ esp0 c' = u32 (kstack + KSTACKSIZE) /\ sizeof_taskstate <= iomb c' /\
        ncli (irq c') = ncli (irq c) /\ eflags (irq c') = eflags (irq c) /\ gdtr c' = gdtr c /\ idtr c' = idtr c
  end.
Proof.
  intros Ha Hwf Hlen. destruct p as [[kstack pgdir]|]; [|done]. unfold switchuvm.
  destruct (kstack =? 0); [done|]. destruct (pgdir =? 0); [done|].
  destruct (pushed c Hwf) as (i & Hpush & Hoff & i' & Hpop & Hn & Hf).
  destruct c as [ir gd e0 s0 io gr it t3 c3]. cbn [irq gdt] in *.
  assert (Hmy : forall gd e0 s0 io, on_irq mycpu (MkCpu i gd e0 s0 io gr it t3 c3) = Ret tt (MkCpu i gd e0 s0 io gr it t3 c3)).
  { intros. by apply (mycpu_ok _ (MkCpu i gd e0 s0 io gr it t3 c3)). }
  rewrite (bind_Ret _ _ _ tt (MkCpu i gd e0 s0 io gr it t3 c3)) by (unfold on_irq, zoom; cbn [irq]; by rewrite Hpush).
  rewrite (bind_Ret _ _ _ _ _ (Hmy _ _ _ _)). unfold set_gdt. rewrite bind_modify. cbn [irq gdt esp0 ss0 iomb gdtr idtr tr cr3].
  rewrite (bind_Ret _ _ _ _ _ (Hmy _ _ _ _)). rewrite bind_modify. cbn [irq gdt esp0 ss0 iomb gdtr idtr tr cr3].
  rewrite (bind_Ret _ _ _ _ _ (Hmy _ _ _ _)). unfold set_ss0. rewrite bind_modify. cbn [irq gdt esp0 ss0 iomb gdtr idtr tr cr3].
  rewrite (bind_Ret _ _ _ _ _ (Hmy _ _ _ _)). unfold set_esp0. rewrite bind_modify. cbn [irq gdt esp0 ss0 iomb gdtr idtr tr cr3].
  rewrite (bind_Ret _ _ _ _ _ (Hmy _ _ _ _)). unfold set_iomb. rewrite bind_modify. cbn [irq gdt esp0 ss0 iomb gdtr idtr tr cr3].
  unfold ltr, lcr3. rewrite !bind_modify. unfold on_irq, zoom. cbn [irq gdt esp0 ss0 iomb gdtr idtr tr cr3]. rewrite Hpop.
  eexists _, (set_s 0 (SEG16 STS_T32A ts_addr (sizeof_taskstate - 1) 0)). split; [reflexivity|].
  cbn [irq gdt esp0 ss0 iomb gdtr idtr tr cr3]. split_and!; try done.
  - by destruct gd as [|d0 [|d1 [|d2 [|d3 [|d4 [|d5 [|]]]]]]].
  - apply SEG16_describes; done.
Qed.

Lemma gate_fields istrap sl off d :
  0 <= sl < 2 ^ 16 -> 0 <= off < 2 ^ 32 -> 0 <= d < 4 -> let x := gate_bits (SETGATE istrap sl off d) in
  Hw.offset x = off /\ Hw.selector x = sl /\ Hw.masks x = negb istrap /\ forall cpl, Hw.may_call x cpl = (cpl <=? d).
Proof.
  intros Hs Ho Hd. cbn zeta. unfold Hw.offset, Hw.selector, Hw.masks, Hw.type, Hw.may_call, Hw.present, Hw.dpl, gate_bits.
  cbn [SETGATE off_15_0 g_cs g_args g_rsv1 g_type g_s g_dpl g_p off_31_16]. rewrite u32_id by done. split_and!.
  - repeat read_field. change 65535 with (Z.ones 16). rewrite Z.land_ones, Z.shiftr_div_pow2, Z.mod_mod by done.
    rewrite (Z.mod_small (off / 2 ^ 16)) by (split; [apply Z.div_pos; lia|apply Z.div_lt_upper_bound; lia]).
    pose proof (Z.div_mod off (2 ^ 16) ltac:(done)). lia.
  - read_field. by apply Z.mod_small.
  - read_field. by destruct istrap.
  - intros cpl. repeat read_field. by rewrite (Z.mod_small d).
Qed.

(** After [tvinit] each of the 256 vectors enters the kernel's code segment at its entry
    point.  A user program can use one gate only, that of system calls, and that is the only
    one that leaves interrupts on. *)
Theorem tvinit_gates vectors t :
  length (idt t) = 256%nat -> (forall i, 0 <= vectors i < 2 ^ 32) ->
  exists t', tvinit vectors t = Ret tt t' /\ tickslock t' = false /\ ticks t' = ticks t /\
    forall i, (i < 256)%nat -> exists d, idt t' !! i = Some d /\ let x := gate_bits d in
      Hw.offset x = vectors i /\ Hw.selector x = 8 * Z.of_nat SEG_KCODE /\ Hw.may_call x 0 = true /\
      Hw.may_call x 3 = (Z.of_nat i =? T_SYSCALL) /\ Hw.masks x = negb (Z.of_nat i =? T_SYSCALL).
Proof.
  intros Hlen Hv. unfold tvinit.
  destruct (for_loop_inv (A := unit) (fun i => set_gate i (SETGATE false (sel SEG_KCODE) (vectors i) 0) ;;; ret None)
    (fun j t' => length (idt t') = 256%nat /\ ticks t' = ticks t /\
      forall i, (i < j)%nat -> idt t' !! i = Some (SETGATE false (sel SEG_KCODE) (vectors i) 0)) 0 256 t)
    as (t1 & E & Hl & Ht & Hi).
  { split_and!; [done|done|intros i Hi; lia]. }
  { intros j t1 Hj (Hl & Ht & Hi). eexists. split; [reflexivity|]. cbn [idt ticks]. rewrite length_insert. split_and!; [done|done|].
    intros i Hlt. rewrite list_lookup_insert. destruct (decide (j = i)) as [->|]; [by rewrite decide_True by (split; [done|lia])|].
    rewrite decide_False by naive_solver. apply Hi. lia. }
  rewrite (bind_Ret _ _ _ _ _ E). unfold set_gate. rewrite bind_modify. eexists. split; [reflexivity|]. cbn [idt ticks tickslock].
  split_and!; [done|done|]. intros i Hlt. rewrite list_lookup_insert. destruct (decide (Z.to_nat T_SYSCALL = i)) as [<-|Hne].
  - rewrite decide_True by (split; [done|rewrite Hl; lia]). eexists. split; [done|]. cbn zeta.
    destruct (gate_fields true (sel SEG_KCODE) (vectors (Z.to_nat T_SYSCALL)) DPL_USER) as (H1 & H2 & H3 & H4); [done..|].
    rewrite H1, H2, H3, !H4. done.
  - rewrite decide_False by naive_solver. eexists. split; [by apply Hi|]. cbn zeta.
    destruct (gate_fields false (sel SEG_KCODE) (vectors i) 0) as (H1 & H2 & H3 & H4); [done..|].
    rewrite H1, H2, H3, !H4. destruct (Z.eqb_spec (Z.of_nat i) T_SYSCALL) as [He|]; [|done]. exfalso. apply Hne. rewrite <- He. lia.
Qed.

Definition cpu0 : cpu := MkCpu (Cpu.MkCpu 0 0 0) (replicate NSEGS inhabitant) 0 0 0 [] [] 0 0.
Lemma seginit_flat_witness : exists c', seginit 4096 cpu0 = Ret tt c' /\ gdtr c' = [47; 4096; 0].
Proof. destruct (seginit_flat 4096 cpu0) as (c' & H & Hg & _); [done|done|done|]. exists c'. split; [exact H|exact Hg]. Defined.
Lemma tvinit_gates_witness : exists t', tvinit (fun i => 1048576 + 16 * Z.of_nat i mod 4096) (MkTraps (replicate 256 inhabitant) false 0) = Ret tt t' /\ ticks t' = 0.
Proof.
  destruct (tvinit_gates (fun i => 1048576 + 16 * Z.of_nat i mod 4096) (MkTraps (replicate 256 inhabitant) false 0)) as (t' & H & _ & Ht & _); [done| |].
  - intros i. pose proof (Z.mod_pos_bound (16 * Z.of_nat i) 4096). lia.
  - exists t'. split; [exact H|exact Ht].
Defined.
End SegmentFacts.
