(* ===== verification/Pipe.v ===== *)
(** Pipes ([pipe.c]).

    [Module Pipe] is the code.  A process that sleeps in [pipewrite] or [piperead] gives up
    the lock; when it runs again it holds the lock and repeats the test of its loop.  An
    operation is therefore a sequence of runs, each from an [acquire] to a [release], and a
    run of [pipewrite] reports the bytes it still has to write.  [Module PipeSpec] has all
    interleavings of such runs, and what they implement: a bounded queue of bytes. *)

From S2P Require Import Prelude Bytes Sleeplock CString Kalloc.

Module Pipe.

Definition PIPESIZE : Z := 512.

Record pipe := MkPipe {
  lock : Klock.t; data : list Z; nread : Z; nwrite : Z; readopen : Z; writeopen : Z
}.

Definition set_data (d : list Z) (p : pipe) : pipe :=
  MkPipe (lock p) d (nread p) (nwrite p) (readopen p) (writeopen p).
Definition set_nread (x : Z) (p : pipe) : pipe :=
  MkPipe (lock p) (data p) x (nwrite p) (readopen p) (writeopen p).
Definition set_nwrite (x : Z) (p : pipe) : pipe :=
  MkPipe (lock p) (data p) (nread p) x (readopen p) (writeopen p).
Definition set_readopen (x : Z) (p : pipe) : pipe :=
  MkPipe (lock p) (data p) (nread p) (nwrite p) x (writeopen p).
Definition set_writeopen (x : Z) (p : pipe) : pipe :=
  MkPipe (lock p) (data p) (nread p) (nwrite p) (readopen p) x.
Definition on_lock (m : M Klock.t unit) : M pipe unit :=
  zoom lock (fun l p => MkPipe l (data p) (nread p) (nwrite p) (readopen p) (writeopen p)) m.

(** The fields [pipealloc] fills in, in a page with arbitrary contents. *)
Definition init_pipe (junk : list Z) : pipe := MkPipe false junk 0 0 1 1.

(** How a run of [pipewrite] ends: it returns, or sleeps with bytes left to write. *)
Inductive wres := WRet (r : Z) | WSleep (rest : list Z).

(** The loop of [pipewrite] over the bytes [addr[i..n-1]]; [n] is the value to return. *)
Fixpoint pipewrite_loop (killed : bool) (n : Z) (bs : list Z) : M pipe wres :=
  match bs with
  | [] => on_lock Klock.release ;;; ret (WRet n)
  | b :: bs' =>
      p <- reads id ;;
      if nwrite p =? u32 (nread p + PIPESIZE) then
        if (readopen p =? 0) || killed then on_lock Klock.release ;;; ret (WRet (-1))
        else on_lock Klock.release ;;; ret (WSleep bs)
      else
        modify (fun p => set_data (<[Z.to_nat (nwrite p mod PIPESIZE) := b]> (data p)) p) ;;;
        modify (fun p => set_nwrite (u32 (nwrite p + 1)) p) ;;;
        pipewrite_loop killed n bs'
  end.
Definition pipewrite (killed : bool) (n : Z) (bs : list Z) : M pipe wres :=
  on_lock Klock.acquire ;;; pipewrite_loop killed n bs.

Inductive rres := RRet (r : Z) (bs : list Z) | RSleep.

(** [piperead]'s copy loop: the bytes it puts in [addr]. *)
Fixpoint piperead_copy (n : nat) : M pipe (list Z) :=
  match n with
  | O => ret []
  | S n' =>
      p <- reads id ;;
      if nread p =? nwrite p then ret [] else
      let b := data p !!! Z.to_nat (nread p mod PIPESIZE) in
      modify (fun p => set_nread (u32 (nread p + 1)) p) ;;;
      bs <- piperead_copy n' ;;
      ret (b :: bs)
  end.
Definition piperead (killed : bool) (n : Z) : M pipe rres :=
  on_lock Klock.acquire ;;;
  p <- reads id ;;
  if (nread p =? nwrite p) && negb (writeopen p =? 0) then
    if killed then on_lock Klock.release ;;; ret (RRet (-1) [])
    else on_lock Klock.release ;;; ret RSleep
  else
    bs <- piperead_copy (Z.to_nat n) ;;
    on_lock Klock.release ;;;
    ret (RRet (Z.of_nat (length bs)) bs).

(** [pipeclose] on the pipe in the page [v]; the page is freed with its last end. *)
Definition pipeclose (end_ v : Z) (writable : bool) : M (pipe * Kalloc.kmem) unit :=
  let on_pipe {A} (m : M pipe A) := zoom fst (fun p s => (p, snd s)) m in
  on_pipe (on_lock Klock.acquire) ;;;
  on_pipe (modify (if writable then set_writeopen 0 else set_readopen 0)) ;;;
  s <- reads fst ;;
  if (readopen s =? 0) && (writeopen s =? 0) then
    on_pipe (on_lock Klock.release) ;;;
    zoom snd (fun k s => (fst s, k)) (Kalloc.kfree end_ v)
  else on_pipe (on_lock Klock.release).
End Pipe.

Module PipeSpec.
Import Pipe.

(** Bytes in the pipe, and which. *)
Definition used (p : pipe) : Z := u32 (nwrite p - nread p).
Definition content (p : pipe) : list Z :=
  map (fun k => data p !!! Z.to_nat ((nread p + Z.of_nat k) mod PIPESIZE)) (seq 0 (Z.to_nat (used p))).

(** The same ends are open. *)
Definition same_ends (p p' : pipe) : Prop := readopen p' = readopen p /\ writeopen p' = writeopen p.

Lemma used_add_write p :
  0 <= nread p < 2 ^ 32 -> 0 <= nwrite p < 2 ^ 32 -> used p < PIPESIZE ->
  u32 (u32 (nwrite p + 1) - nread p) = used p + 1.
Proof.
  intros Hr Hw Hu. unfold used in *. rewrite u32_sub_l.
  replace (nwrite p + 1 - nread p) with (nwrite p - nread p + 1) by lia.
  rewrite <- u32_add_l. apply u32_id. pose proof (u32_range (nwrite p - nread p)). unfold PIPESIZE in *. lia.
Qed.
Lemma used_add_read p :
  0 < used p -> u32 (nwrite p - u32 (nread p + 1)) = used p - 1.
Proof.
  intros Hu. unfold used in *. rewrite u32_sub_r.
  replace (nwrite p - (nread p + 1)) with (nwrite p - nread p - 1) by lia.
  rewrite <- u32_sub_l. apply u32_id. pose proof (u32_range (nwrite p - nread p)). lia.
Qed.

(** The test [nwrite == nread + PIPESIZE] of the code, despite wrap-around. *)
Lemma full_test p :
  0 <= nwrite p < 2 ^ 32 -> 0 <= nread p < 2 ^ 32 ->
  (nwrite p =? u32 (nread p + PIPESIZE)) = (used p =? PIPESIZE).
Proof.
  intros Hw Hr. unfold used, u32, PIPESIZE. apply eq_true_iff_eq. rewrite !Z.eqb_eq.
  split; intros H.
  - rewrite H. rewrite Zminus_mod_idemp_l. replace (nread p + 512 - nread p) with 512 by lia. done.
  - rewrite <- H. rewrite Zplus_mod_idemp_r. replace (nread p + (nwrite p - nread p)) with (nwrite p) by lia.
    rewrite Z.mod_small; lia.
Qed.
Lemma empty_test p :
  0 <= nwrite p < 2 ^ 32 -> 0 <= nread p < 2 ^ 32 -> (nread p =? nwrite p) = (used p =? 0).
Proof.
  intros Hw Hr. unfold used, u32. apply eq_true_iff_eq. rewrite !Z.eqb_eq. split; intros H.
  - rewrite H, Z.sub_diag. done.
  - destruct (decide (nread p <= nwrite p)).
    + rewrite Z.mod_small in H; lia.
    + rewrite <- (Z.mod_add _ 1) in H by lia. rewrite Z.mod_small in H; lia.
Qed.

(** Positions survive the wrap-around because [2^32] is a multiple of [PIPESIZE]. *)
Lemma pos_u32 x k : (u32 x + k) mod PIPESIZE = (x + k) mod PIPESIZE.
Proof.
  unfold u32, PIPESIZE. rewrite (Z.div_mod x 4294967296) at 2 by lia.
  replace (4294967296 * (x / 4294967296) + x mod 4294967296 + k)
    with (x mod 4294967296 + k + (8388608 * (x / 4294967296)) * 512) by lia.
  by rewrite Z.mod_add by lia.
Qed.

Lemma pos_write p : (nread p + used p) mod PIPESIZE = nwrite p mod PIPESIZE.
Proof.
  unfold used. rewrite Z.add_comm, pos_u32. f_equal. lia.
Qed.
Lemma pos_range x : (Z.to_nat (x mod PIPESIZE) < Z.to_nat PIPESIZE)%nat.
Proof. pose proof (Z.mod_pos_bound x PIPESIZE). unfold PIPESIZE in *. lia. Qed.
Lemma pos_inj x j k :
  0 <= j < PIPESIZE -> 0 <= k < PIPESIZE -> (x + j) mod PIPESIZE = (x + k) mod PIPESIZE -> j = k.
Proof.
  unfold PIPESIZE. intros Hj Hk H.
  assert (Hd : (j - k) mod 512 = 0).
  { replace (j - k) with (x + j - (x + k)) by lia. rewrite Zminus_mod, H, Z.sub_diag. done. }
  apply Z.mod_divide in Hd as [c Hc]; lia.
Qed.

Definition push (b : Z) (p : pipe) : pipe :=
  set_nwrite (u32 (nwrite p + 1)) (set_data (<[Z.to_nat (nwrite p mod PIPESIZE) := b]> (data p)) p).
Definition pop (p : pipe) : pipe := set_nread (u32 (nread p + 1)) p.

Record ok (p : pipe) : Prop := MkOk {
  ok_len : length (data p) = Z.to_nat PIPESIZE;
  ok_nread : 0 <= nread p < 2 ^ 32;
  ok_nwrite : 0 <= nwrite p < 2 ^ 32;
  ok_used : used p <= PIPESIZE
}.

Lemma used_push b p : ok p -> used p < PIPESIZE -> used (push b p) = used p + 1.
Proof. intros [] Hu. unfold used at 1. cbn. by apply used_add_write. Qed.
Lemma used_pop p : 0 < used p -> used (pop p) = used p - 1.
Proof. intros Hu. unfold used at 1. cbn. by apply used_add_read. Qed.
Lemma ok_push b p : ok p -> used p < PIPESIZE -> ok (push b p).
Proof.
  intros Hok Hu. pose proof (used_push b p Hok Hu). destruct Hok.
  split; [cbn; by rewrite length_insert|done|cbn; apply u32_range|lia].
Qed.
Lemma ok_pop p : ok p -> 0 < used p -> ok (pop p).
Proof.
  intros Hok Hu. pose proof (used_pop p Hu). destruct Hok.
  split; [done|cbn; apply u32_range|done|lia].
Qed.

Lemma content_push b p : ok p -> used p < PIPESIZE -> content (push b p) = content p ++ [b].
Proof.
  intros Hok Hu. unfold content at 1. rewrite used_push by done. destruct Hok as [Hlen Hr Hw _].
  assert (Hu0 : 0 <= used p) by (unfold used; apply u32_range).
  replace (Z.to_nat (used p + 1)) with (S (Z.to_nat (used p))) by lia.
  rewrite seq_S, map_app. cbn [push set_nwrite set_data data nread map plus]. f_equal.
  - apply map_ext_in. intros k Hk%list_elem_of_In%elem_of_seq. apply list_lookup_total_insert_ne.
    intros He. rewrite <- pos_write in He. apply Z2Nat.inj in He; [|apply Z.mod_pos_bound; unfold PIPESIZE; lia..].
    apply pos_inj in He; lia.
  - rewrite Z2Nat.id by lia. rewrite pos_write. f_equal. apply list_lookup_total_insert_eq.
    rewrite Hlen. apply pos_range.
Qed.
Lemma content_pop p :
  0 < used p -> content p = data p !!! Z.to_nat (nread p mod PIPESIZE) :: content (pop p).
Proof.
  intros Hu. unfold content. rewrite used_pop by done.
  replace (Z.to_nat (used p)) with (S (Z.to_nat (used p - 1))) by lia. cbn [seq map].
  rewrite Z.add_0_r. f_equal. rewrite <- (fmap_S_seq 0). rewrite map_map. apply map_ext. intros k.
  cbn [pop set_nread nread data]. rewrite pos_u32. do 3 f_equal. lia.
Qed.

Definition set_lock (l : Klock.t) (p : pipe) : pipe :=
  MkPipe l (data p) (nread p) (nwrite p) (readopen p) (writeopen p).

Lemma on_release p : lock p = true -> on_lock Klock.release p = Ret tt (set_lock false p).
Proof. unfold on_lock, zoom. by intros ->. Qed.
Lemma on_acquire p : lock p = false -> on_lock Klock.acquire p = Ret tt (set_lock true p).
Proof. unfold on_lock, zoom. by intros ->. Qed.

(** How a run of [pipewrite] can end, with [rest] not written. *)
Definition write_end (killed : bool) (n : Z) (rest : list Z) (p : pipe) (r : wres) : Prop :=
  rest = [] /\ r = WRet n \/
  rest <> [] /\ used p = PIPESIZE /\
    (r = WRet (-1) /\ (readopen p = 0 \/ killed = true) \/
     r = WSleep rest /\ readopen p <> 0 /\ killed = false).

Lemma pipewrite_loop_spec killed n bs : forall p,
  ok p -> lock p = true ->
  exists r p' wr rest, pipewrite_loop killed n bs p = Ret r p' /\ bs = wr ++ rest /\
    ok p' /\ lock p' = false /\ content p' = content p ++ wr /\ same_ends p p' /\
    nread p' = nread p /\ write_end killed n rest p' r.
Proof.
  induction bs as [|b bs IH]; intros p Hok Hl; cbn [pipewrite_loop].
  - exists (WRet n), (set_lock false p), [], []. rewrite (bind_Ret _ _ _ _ _ (on_release p Hl)).
    split_and!; try done; [by destruct Hok; split|by rewrite app_nil_r|by left].
  - change (bind (reads id) ?k p) with (k p p). cbv beta. rewrite full_test by apply Hok.
    destruct (Z.eqb_spec (used p) PIPESIZE) as [Hu|Hu].
    + destruct ((readopen p =? 0) || killed) eqn:E.
      * exists (WRet (-1)), (set_lock false p), [], (b :: bs). rewrite (bind_Ret _ _ _ _ _ (on_release p Hl)).
        split_and!; try done; [by destruct Hok; split|by rewrite app_nil_r|].
        right. split_and!; [done..|]. left. split; [done|].
        apply orb_true_iff in E as [?|?]; b2p; auto.
      * exists (WSleep (b :: bs)), (set_lock false p), [], (b :: bs). rewrite (bind_Ret _ _ _ _ _ (on_release p Hl)).
        split_and!; try done; [by destruct Hok; split|by rewrite app_nil_r|].
        right. b2p. split_and!; [done..|]. right. done.
    + assert (used p < PIPESIZE) by (pose proof (ok_used p Hok); lia).
      change (bind (modify ?f) (fun _ => bind (modify ?g) (fun _ => ?k)) p) with (k (push b p)).
      destruct (IH (push b p)) as (r & p' & wr & rest & H1 & H2 & H3 & H4 & H5 & H6 & H7 & H8).
      * by apply ok_push.
      * done.
      * exists r, p', (b :: wr), rest. rewrite content_push in H5 by (done || destruct Hok; lia).
        rewrite <- app_assoc in H5. split_and!; try done. by rewrite H2.
Qed.

Lemma piperead_copy_spec n : forall p, ok p ->
  exists bs p', piperead_copy n p = Ret bs p' /\ ok p' /\ lock p' = lock p /\ same_ends p p' /\
    content p = bs ++ content p' /\ length bs = Nat.min n (length (content p)) /\ nwrite p' = nwrite p.
Proof.
  induction n as [|n IH]; intros p Hok; cbn [piperead_copy]; [by exists [], p|].
  change (bind (reads id) ?k p) with (k p p). cbv beta. rewrite empty_test by apply Hok.
  assert (Hu0 : 0 <= used p) by (unfold used; apply u32_range).
  destruct (Z.eqb_spec (used p) 0) as [Hu|Hu].
  - exists [], p. split_and!; try done. unfold content. rewrite length_map, length_seq. rewrite Hu. done.
  - change (bind (modify ?f) ?k p) with (k tt (pop p)). cbv beta.
    destruct (IH (pop p)) as (bs & p' & H1 & H2 & H3 & H4 & H5 & H6 & H7); [apply ok_pop; [done|lia]|].
    rewrite (bind_Ret _ _ _ _ _ H1). eexists _, p'. split; [done|]. rewrite (content_pop p) by lia.
    split_and!; try done; cbn; [by rewrite H5|rewrite H6; lia].
Qed.

Lemma length_content p : length (content p) = Z.to_nat (used p).
Proof. unfold content. by rewrite length_map, length_seq. Qed.
Lemma content_le p : ok p -> (length (content p) <= Z.to_nat PIPESIZE)%nat.
Proof. intros []. rewrite length_content. lia. Qed.
Lemma ok_lock l p : ok p -> ok (set_lock l p).
Proof. intros []. by split. Qed.

(** The bytes of [bs] that a run of [pipewrite] from [p] to [p'] stored. *)
Definition stored (p p' : pipe) (bs : list Z) : list Z :=
  take (Z.to_nat (u32 (nwrite p' - nwrite p))) bs.

Lemma pipewrite_spec killed n bs p :
  ok p -> lock p = false ->
  exists r p' rest, pipewrite killed n bs p = Ret r p' /\ bs = stored p p' bs ++ rest /\
    ok p' /\ lock p' = false /\ content p' = content p ++ stored p p' bs /\ same_ends p p' /\
    write_end killed n rest p' r.
Proof.
  intros Hok Hl. unfold pipewrite. rewrite (bind_Ret _ _ _ _ _ (on_acquire p Hl)).
  destruct (pipewrite_loop_spec killed n bs (set_lock true p)) as (r & p' & wr & rest & H1 & H2 & H3 & H4 & H5 & H6 & H7 & H8);
    [by apply ok_lock|done|].
  assert (Hst : stored p p' bs = wr).
  { unfold stored. rewrite H2. replace (Z.to_nat (u32 (nwrite p' - nwrite p))) with (length wr); [by rewrite take_app_length|].
    apply (f_equal length) in H5. rewrite length_app, !length_content in H5.
    change (used (set_lock true p)) with (used p) in H5. change (nread (set_lock true p)) with (nread p) in H7.
    pose proof (u32_range (nwrite p' - nread p')). pose proof (u32_range (nwrite p - nread p)).
    destruct H3, Hok. unfold used in *.
    replace (nwrite p' - nwrite p) with ((nwrite p' - nread p') - (nwrite p - nread p)) by lia.
    rewrite <- u32_sub_l, <- u32_sub_r. rewrite u32_id; unfold PIPESIZE in *; lia. }
  exists r, p', rest. rewrite Hst. done.
Qed.

Definition read_end (killed : bool) (n : Z) (p p' : pipe) (r : rres) : Prop :=
  if decide (content p = [] /\ writeopen p <> 0) then
    p' = p /\ r = (if killed then RRet (-1) [] else RSleep)
  else
    exists bs, r = RRet (Z.of_nat (length bs)) bs /\ bs = take (Z.to_nat n) (content p) /\
      content p' = drop (Z.to_nat n) (content p).

Lemma piperead_spec killed n p :
  ok p -> lock p = false ->
  exists r p', piperead killed n p = Ret r p' /\ ok p' /\ lock p' = false /\ same_ends p p' /\
    read_end killed n p p' r.
Proof.
  intros Hok Hl. unfold piperead. rewrite (bind_Ret _ _ _ _ _ (on_acquire p Hl)).
  change (bind (reads id) ?k ?p) with (k p p). cbv beta.
  rewrite empty_test by apply Hok. change (used (set_lock true p)) with (used p).
  change (writeopen (set_lock true p)) with (writeopen p).
  assert (Hemp : content p = [] <-> used p = 0).
  { rewrite <- length_zero_iff_nil, length_content. pose proof (u32_range (nwrite p - nread p)).
    unfold used in *. lia. }
  assert (Hback : set_lock false (set_lock true p) = p) by (destruct p; cbn in *; by subst).
  unfold read_end. destruct (decide _) as [[He Hw]|Hne].
  - apply Hemp in He. rewrite He. destruct (Z.eqb_spec (writeopen p) 0); [done|]. cbn [Z.eqb andb negb].
    destruct killed; rewrite (bind_Ret _ _ _ _ _ (on_release (set_lock true p) eq_refl)), Hback;
      eexists _, p; done.
  - assert ((used p =? 0) && negb (writeopen p =? 0) = false) as ->.
    { destruct (Z.eqb_spec (used p) 0) as [Hu|]; [|done]. destruct (Z.eqb_spec (writeopen p) 0); [done|].
      destruct Hne. by rewrite Hemp. }
    destruct (piperead_copy_spec (Z.to_nat n) (set_lock true p)) as (bs & p' & H1 & H2 & H3 & H4 & H5 & H6 & _);
      [by apply ok_lock|].
    rewrite (bind_Ret _ _ _ _ _ H1), (bind_Ret _ _ _ _ _ (on_release p' H3)).
    eexists _, (set_lock false p'). split; [done|]. split_and!; [by apply ok_lock|done|exact H4|].
    exists bs. change (content (set_lock true p)) with (content p) in *.
    change (content (set_lock false p')) with (content p'). split; [done|]. rewrite H5 in H6 |- *.
    rewrite length_app in H6. destruct (decide (length bs <= Z.to_nat n)%nat) as [Hle|]; [|lia].
    destruct (decide (length (content p') = 0)%nat) as [H0|H0].
    + apply length_zero_iff_nil in H0. rewrite H0, app_nil_r. by rewrite take_ge, drop_ge by lia.
    + assert (Z.to_nat n = length bs) as -> by lia. by rewrite take_app_length, drop_app_length.
Qed.

(** All interleavings of readers and writers, with the bytes stored and read so far. *)
Record sys := MkSys { pp : pipe; km : Kalloc.kmem; sent : list Z; received : list Z }.

Section steps.
Variables end_ page : Z.

Inductive step : sys -> sys -> Prop :=
| step_write s killed n bs r p' :
    pipewrite killed n bs (pp s) = Ret r p' ->
    step s (MkSys p' (km s) (sent s ++ stored (pp s) p' bs) (received s))
| step_read_sleep s killed n p' :
    piperead killed n (pp s) = Ret RSleep p' -> step s (MkSys p' (km s) (sent s) (received s))
| step_read s killed n r bs p' :
    piperead killed n (pp s) = Ret (RRet r bs) p' ->
    step s (MkSys p' (km s) (sent s) (received s ++ bs))
| step_close s w p' k' :
    pipeclose end_ page w (pp s, km s) = Ret tt (p', k') ->
    step s (MkSys p' k' (sent s) (received s)).

Definition inv (s : sys) : Prop :=
  ok (pp s) /\ lock (pp s) = false /\ sent s = received s ++ content (pp s).

Lemma pipeclose_pipe w p k p' k' :
  lock p = false -> pipeclose end_ page w (p, k) = Ret tt (p', k') ->
  p' = (if w then set_writeopen 0 p else set_readopen 0 p).
Proof.
  intros Hl. unfold pipeclose, bind at 1, zoom at 1. rewrite on_acquire by done. cbn [fst snd].
  unfold bind at 1, zoom at 1, modify at 1. cbn [fst snd]. unfold bind at 1, reads at 1. cbn [fst].
  destruct (_ && _).
  - unfold bind at 1, zoom at 1. destruct p as [lk d nr nw ro wo]. cbn in Hl. subst lk.
    destruct w; cbn; unfold zoom; cbn; (destruct (Kalloc.kfree end_ page k); intros; simplify_eq; done).
  - unfold zoom. destruct p as [lk d nr nw ro wo]. cbn in Hl. subst lk. destruct w; cbn; intros; simplify_eq; done.
Qed.

Lemma pipe_step_inv s s' : inv s -> step s s' -> inv s'.
Proof.
  intros (Hok & Hl & Hs) Hstep.
  destruct Hstep as [s killed n bs r p' H|s killed n p' H|s killed n r bs p' H|s w p' k' H]; unfold inv; cbn.
  - destruct (pipewrite_spec killed n bs (pp s) Hok Hl) as (r' & p2 & rest & H1 & _ & H3 & H4 & H5 & _).
    rewrite H in H1. injection H1 as <- <-. split_and!; [done..|]. by rewrite Hs, H5, app_assoc.
  - destruct (piperead_spec killed n (pp s) Hok Hl) as (r' & p2 & H1 & H2 & H3 & _ & H5).
    rewrite H in H1. injection H1 as <- <-. unfold read_end in H5. destruct (decide _).
    + destruct H5 as [-> _]. done.
    + destruct H5 as (bs & ? & _). done.
  - destruct (piperead_spec killed n (pp s) Hok Hl) as (r' & p2 & H1 & H2 & H3 & _ & H5).
    rewrite H in H1. injection H1 as <- <-. split_and!; [done..|]. unfold read_end in H5. destruct (decide _).
    + destruct H5 as [-> Hr]. destruct killed; [|done]. injection Hr as -> ->. by rewrite app_nil_r.
    + destruct H5 as (bs' & [= -> <-] & -> & ->). by rewrite <- app_assoc, take_drop.
  - apply pipeclose_pipe in H; [|done]. subst p'. destruct Hok. by destruct w.
Qed.

Lemma pipe_reachable_inv junk k s :
  length junk = Z.to_nat PIPESIZE -> rtc step (MkSys (init_pipe junk) k [] []) s -> inv s.
Proof.
  intros Hj Hr.
  assert (H0 : inv (MkSys (init_pipe junk) k [] [])).
  { split_and!; [split; cbn; try done|done|done]. }
  remember (MkSys (init_pipe junk) k [] []) as s0 eqn:E. clear E.
  induction Hr as [|x y z Hxy _ IH]; [done|]. by eapply IH, pipe_step_inv.
Qed.

(** C10: A pipe is a queue.  However the runs of any number of readers and writers and the
    closing of its ends interleave, what has been read so far is a prefix of what has been
    written so far, byte for byte and in order; the difference is exactly what is in the
    buffer, never more than [PIPESIZE] bytes.  The counters may wrap around. *)
Theorem pipe_fifo junk k s :
  length junk = Z.to_nat PIPESIZE -> rtc step (MkSys (init_pipe junk) k [] []) s ->
  sent s = received s ++ content (pp s) /\ (length (content (pp s)) <= Z.to_nat PIPESIZE)%nat.
Proof.
  intros Hj Hr. destruct (pipe_reachable_inv junk k s Hj Hr) as (Hok & _ & Hs). split; [done|].
  by apply content_le.
Qed.

(** What the operations return, in every reachable state.  [pipewrite] returns [n] after
    all its bytes, and otherwise has filled the buffer and returns -1 if the reader is gone
    or the process is killed, or sleeps.  [piperead] waits (or fails, if killed) exactly
    while the pipe is empty and its write end open; otherwise it returns the oldest bytes, at
    most [n]; in particular it returns 0 for [n > 0] exactly at end of file. *)
Theorem pipe_results junk k s killed n bs :
  length junk = Z.to_nat PIPESIZE -> rtc step (MkSys (init_pipe junk) k [] []) s ->
  (exists r p' rest, pipewrite killed n bs (pp s) = Ret r p' /\ bs = stored (pp s) p' bs ++ rest /\
     write_end killed n rest p' r) /\
  (exists r p', piperead killed n (pp s) = Ret r p' /\ read_end killed n (pp s) p' r /\
     (0 < n -> (exists l, r = RRet 0 l) <-> content (pp s) = [] /\ writeopen (pp s) = 0)).
Proof.
  intros Hj Hr. destruct (pipe_reachable_inv junk k s Hj Hr) as (Hok & Hl & _). split.
  - destruct (pipewrite_spec killed n bs (pp s) Hok Hl) as (r & p' & rest & H1 & H2 & _ & _ & _ & _ & H7).
    eauto 10.
  - destruct (piperead_spec killed n (pp s) Hok Hl) as (r & p' & H1 & _ & _ & _ & H5).
    exists r, p'. split_and!; [done..|]. intros Hn. unfold read_end in H5. destruct (decide _) as [[He Hw]|Hne].
    + destruct H5 as [_ ->]. split; [|tauto]. intros (l & Hr'). by destruct killed.
    + destruct H5 as (l & -> & -> & _). split.
      * intros (l' & [= H0 _]). assert (content (pp s) = []).
        { destruct (content (pp s)) as [|b c]; [done|]. exfalso.
          replace (Z.to_nat n) with (S (Z.to_nat (n - 1))) in H0 by lia. cbn in H0. lia. }
        split; [done|]. destruct (decide (writeopen (pp s) = 0)); [done|]. by destruct Hne.
      * intros [-> _]. rewrite take_nil. by exists [].
Qed.

End steps.

(** A new pipe, and the same after the bytes 1, 2 and 3 have been written. *)
Definition demo_init : pipe := init_pipe (replicate 512 0).
Definition demo_pipe : pipe :=
  MkPipe false (1 :: 2 :: 3 :: replicate 509 0) 0 3 1 1.
Definition demo_kmem : Kalloc.kmem := Kalloc.MkKmem false 1 0 (fun _ => 0).

Lemma demo_reachable_pipe : rtc (step 0 0) (MkSys demo_init demo_kmem [] [])
  (MkSys demo_pipe demo_kmem [1; 2; 3] []).
Proof.
  apply rtc_once. exact (step_write 0 0 (MkSys demo_init demo_kmem [] []) false 3 [1; 2; 3] (WRet 3) demo_pipe eq_refl).
Qed.

Lemma pipe_fifo_witness : [1; 2; 3] = [] ++ content demo_pipe.
Proof.
  destruct (pipe_fifo 0 0 (replicate 512 0) demo_kmem (MkSys demo_pipe demo_kmem [1; 2; 3] [])) as [H _].
  - reflexivity.
  - exact demo_reachable_pipe.
  - exact H.
Defined.

Lemma pipe_results_witness :
  exists r p', piperead false 10 demo_pipe = Ret r p' /\ read_end false 10 demo_pipe p' r.
Proof.
  destruct (pipe_results 0 0 (replicate 512 0) demo_kmem (MkSys demo_pipe demo_kmem [1; 2; 3] []) false 10 [])
    as (_ & r & p' & H1 & H2 & _).
  - reflexivity.
  - exact demo_reachable_pipe.
  - exists r, p'. split; [exact H1|exact H2].
Defined.

End PipeSpec.
