(* ===== verification/Proc.v ===== *)
(** Processes ([proc.c], [proc.h]).

    [Module Proc] has the process table and every function of [proc.c] that changes it, as
    code of one processor: each runs until it returns or until [sched] switches away from the
    process, which keeps in its context where it will continue ([resume]).  What [proc.c]
    calls elsewhere in the kernel (memory, files, inodes) is the interface [Services].
    [Module Table] proves what each operation does to the table; [Machine.v] runs the code on
    several processors. *)

From S2P Require Import Prelude Params Spinlock Sleeplock CString Kalloc.

(** The rest of the kernel, as [proc.c] uses it; pointers are addresses, 0 is null. *)
Class Services (W : Type) := MkServices {
  sv_kalloc : M W Z;
  sv_kfree : Z -> M W unit;
  sv_setupkvm : M W Z;
  sv_inituvm : Z -> M W unit;
  sv_copyuvm : Z -> Z -> M W Z;
  sv_freevm : Z -> M W unit;
  sv_allocuvm : Z -> Z -> Z -> M W Z;
  sv_deallocuvm : Z -> Z -> Z -> M W Z;
  sv_switchuvm : Z -> Z -> M W unit;
  sv_switchkvm : M W unit;
  sv_filedup : Z -> M W Z;
  sv_fileclose : Z -> M W unit;
  sv_begin_op : M W unit;
  sv_end_op : M W unit;
  sv_idup : Z -> M W Z;
  sv_iput : Z -> M W unit;
  sv_namei_root : M W Z;
  sv_iinit : M W unit;
  sv_initlog : M W unit
}.

Module Proc.

Inductive procstate := UNUSED | EMBRYO | SLEEPING | RUNNABLE | RUNNING | ZOMBIE.
#[global] Instance procstate_eq_dec : EqDecision procstate.
Proof. solve_decision. Defined.

(** The registers of a trap frame that the kernel sets itself; the others, as a list. *)
Record trapframe := MkTf {
  eax : Z; eip : Z; esp : Z; tf_eflags : Z; cs : Z; ds : Z; es : Z; ss : Z; other : list Z
}.
Definition zero_tf : trapframe := MkTf 0 0 0 0 0 0 0 0 [].

(** A saved kernel context: the function the process continues in, and the [intena] that
    [sched] keeps on the process's stack. *)
Inductive point := AtForkret | AtYield | AtSleep | AtWait | AtExit.
Record context := MkCtx { at_ : point; saved_intena : Z }.

Record proc := MkProc {
  sz : Z; pgdir : Z; kstack : Z; state : procstate; pid : Z; parent : option nat;
  tf : trapframe; ctx : context; chan_ : option chan; killed : Z;
  ofile : list Z; cwd : Z; name : list Z
}.
Definition zero_proc : proc :=
  MkProc 0 0 0 UNUSED 0 None zero_tf (MkCtx AtForkret 0) None 0 (replicate NOFILE 0) 0 [].
#[global] Instance proc_inhabited : Inhabited proc := populate zero_proc.

Definition set_sz (x : Z) (p : proc) : proc :=
  MkProc x (pgdir p) (kstack p) (state p) (pid p) (parent p) (tf p) (ctx p) (chan_ p) (killed p) (ofile p) (cwd p) (name p).
Definition set_pgdir (x : Z) (p : proc) : proc :=
  MkProc (sz p) x (kstack p) (state p) (pid p) (parent p) (tf p) (ctx p) (chan_ p) (killed p) (ofile p) (cwd p) (name p).
Definition set_kstack (x : Z) (p : proc) : proc :=
  MkProc (sz p) (pgdir p) x (state p) (pid p) (parent p) (tf p) (ctx p) (chan_ p) (killed p) (ofile p) (cwd p) (name p).
Definition set_state (x : procstate) (p : proc) : proc :=
  MkProc (sz p) (pgdir p) (kstack p) x (pid p) (parent p) (tf p) (ctx p) (chan_ p) (killed p) (ofile p) (cwd p) (name p).
Definition set_pid (x : Z) (p : proc) : proc :=
  MkProc (sz p) (pgdir p) (kstack p) (state p) x (parent p) (tf p) (ctx p) (chan_ p) (killed p) (ofile p) (cwd p) (name p).
Definition set_parent (x : option nat) (p : proc) : proc :=
  MkProc (sz p) (pgdir p) (kstack p) (state p) (pid p) x (tf p) (ctx p) (chan_ p) (killed p) (ofile p) (cwd p) (name p).
Definition set_tf (x : trapframe) (p : proc) : proc :=
  MkProc (sz p) (pgdir p) (kstack p) (state p) (pid p) (parent p) x (ctx p) (chan_ p) (killed p) (ofile p) (cwd p) (name p).
Definition set_ctx (x : context) (p : proc) : proc :=
  MkProc (sz p) (pgdir p) (kstack p) (state p) (pid p) (parent p) (tf p) x (chan_ p) (killed p) (ofile p) (cwd p) (name p).
Definition set_chan (x : option chan) (p : proc) : proc :=
  MkProc (sz p) (pgdir p) (kstack p) (state p) (pid p) (parent p) (tf p) (ctx p) x (killed p) (ofile p) (cwd p) (name p).
Definition set_killed (x : Z) (p : proc) : proc :=
  MkProc (sz p) (pgdir p) (kstack p) (state p) (pid p) (parent p) (tf p) (ctx p) (chan_ p) x (ofile p) (cwd p) (name p).
Definition set_ofile (i : nat) (x : Z) (p : proc) : proc :=
  MkProc (sz p) (pgdir p) (kstack p) (state p) (pid p) (parent p) (tf p) (ctx p) (chan_ p) (killed p) (<[i := x]> (ofile p)) (cwd p) (name p).
Definition set_cwd (x : Z) (p : proc) : proc :=
  MkProc (sz p) (pgdir p) (kstack p) (state p) (pid p) (parent p) (tf p) (ctx p) (chan_ p) (killed p) (ofile p) x (name p).
Definition set_name (x : list Z) (p : proc) : proc :=
  MkProc (sz p) (pgdir p) (kstack p) (state p) (pid p) (parent p) (tf p) (ctx p) (chan_ p) (killed p) (ofile p) (cwd p) x.

Section proc.
Context {W : Type} `{!Services W}.

(** What the code of one processor sees: its [struct cpu], the process it runs, the table
    and the rest of the kernel. *)
Record kst := MkK {
  cpu : Cpu.cpu; cproc : option nat;
  plock : Klock.t; procs : list proc; initproc : option nat; nextpid : Z; first : Z; w : W
}.

Definition set_cpu (x : Cpu.cpu) (s : kst) : kst :=
  MkK x (cproc s) (plock s) (procs s) (initproc s) (nextpid s) (first s) (w s).
Definition set_cproc (x : option nat) (s : kst) : kst :=
  MkK (cpu s) x (plock s) (procs s) (initproc s) (nextpid s) (first s) (w s).
Definition set_plock (x : Klock.t) (s : kst) : kst :=
  MkK (cpu s) (cproc s) x (procs s) (initproc s) (nextpid s) (first s) (w s).
Definition set_procs (x : list proc) (s : kst) : kst :=
  MkK (cpu s) (cproc s) (plock s) x (initproc s) (nextpid s) (first s) (w s).
Definition set_initproc (x : option nat) (s : kst) : kst :=
  MkK (cpu s) (cproc s) (plock s) (procs s) x (nextpid s) (first s) (w s).
Definition set_nextpid (x : Z) (s : kst) : kst :=
  MkK (cpu s) (cproc s) (plock s) (procs s) (initproc s) x (first s) (w s).
Definition set_first (x : Z) (s : kst) : kst :=
  MkK (cpu s) (cproc s) (plock s) (procs s) (initproc s) (nextpid s) x (w s).
Definition set_w (x : W) (s : kst) : kst :=
  MkK (cpu s) (cproc s) (plock s) (procs s) (initproc s) (nextpid s) (first s) x.

Definition getp (s : kst) (i : nat) : proc := procs s !!! i.
Definition upd (i : nat) (f : proc -> proc) : M kst unit := modify (fun s =>
  set_procs (alter f i (procs s)) s).
Definition on_cpu {A} (m : M Cpu.cpu A) : M kst A := zoom cpu set_cpu m.
Definition sv {A} (m : M W A) : M kst A := zoom w set_w m.

(** [acquire(&ptable.lock)] and [release(&ptable.lock)]. *)
Definition acquire_ptable : M kst unit :=
  on_cpu Cpu.pushcli ;;; zoom plock set_plock Klock.acquire.
Definition release_ptable : M kst unit :=
  zoom plock set_plock Klock.release ;;; on_cpu Cpu.popcli.

Definition proc_chan (i : nat) : chan := ("proc"%string, i).
(** Where [sched] leaves the process; [swtch] to the scheduler. *)
Definition sched_chan : chan := ("sched"%string, 0%nat).
(** A null pointer dereference. *)
Definition null : string := "null dereference".

Definition pinit : M kst unit := modify (set_plock false).

Definition myproc : M kst (option nat) :=
  on_cpu Cpu.pushcli ;;;
  on_cpu Cpu.mycpu ;;;
  p <- reads cproc ;;
  on_cpu Cpu.popcli ;;;
  ret p.
(** [myproc()], used as a pointer. *)
Definition curproc : M kst nat :=
  p <- myproc ;; match p with Some i => ret i | None => panic null end.

(** *** [allocproc] *)
Definition allocproc_slot : M kst (option nat) :=
  acquire_ptable ;;;
  r <- for_loop (fun i =>
    p <- reads (fun s => getp s i) ;;
    ret (if bool_decide (state p = UNUSED) then Some i else None)) 0 NPROC ;;
  match r with
  | None => release_ptable ;;; ret None
  | Some i =>
      upd i (set_state EMBRYO) ;;;
      n <- reads nextpid ;;
      upd i (set_pid n) ;;;
      modify (set_nextpid (i32 (n + 1))) ;;;
      release_ptable ;;;
      ret (Some i)
  end.
(** The kernel stack: a trap frame, the return address [trapret] and a context that starts
    in [forkret]. *)
Definition allocproc_stack (i : nat) : M kst (option nat) :=
  k <- sv sv_kalloc ;;
  upd i (set_kstack k) ;;;
  if k =? 0 then upd i (set_state UNUSED) ;;; ret None
  else
    upd i (set_ctx (MkCtx AtForkret 0)) ;;;
    ret (Some i).
Definition allocproc : M kst (option nat) :=
  r <- allocproc_slot ;;
  match r with None => ret None | Some i => allocproc_stack i end.

(** *** [userinit] *)
Definition SEG_UCODE : Z := 3.
Definition SEG_UDATA : Z := 4.
Definition DPL_USER : Z := 3.
Definition initcode_name : list Z := [105; 110; 105; 116; 99; 111; 100; 101].
Definition init_tf (t : trapframe) : trapframe :=
  let seg := Z.lor (Z.shiftl SEG_UDATA 3) DPL_USER in
  MkTf 0 0 PGSIZE Cpu.FL_IF (Z.lor (Z.shiftl SEG_UCODE 3) DPL_USER) seg seg seg [].

Definition userinit : M kst unit :=
  r <- allocproc ;;
  match r with
  | None => panic null
  | Some p =>
      modify (set_initproc (Some p)) ;;;
      pg <- sv sv_setupkvm ;;
      upd p (set_pgdir pg) ;;;
      if pg =? 0 then panic "userinit: out of memory?" else
      sv (sv_inituvm pg) ;;;
      upd p (set_sz PGSIZE) ;;;
      upd p (fun x => set_tf (init_tf (tf x)) x) ;;;
      upd p (set_name initcode_name) ;;;
      c <- sv sv_namei_root ;;
      upd p (set_cwd c) ;;;
      acquire_ptable ;;;
      upd p (set_state RUNNABLE) ;;;
      release_ptable
  end.

(** *** [growproc] *)
Definition growproc (n : Z) : M kst Z :=
  me <- curproc ;;
  p <- reads (fun s => getp s me) ;;
  let finish (sz' : Z) :=
    upd me (set_sz sz') ;;;
    sv (sv_switchuvm (pgdir p) (kstack p)) ;;;
    ret 0 in
  if 0 <? n then
    z <- sv (sv_allocuvm (pgdir p) (sz p) (u32 (sz p + n))) ;;
    if z =? 0 then ret (-1) else finish z
  else if n <? 0 then
    z <- sv (sv_deallocuvm (pgdir p) (sz p) (u32 (sz p + n))) ;;
    if z =? 0 then ret (-1) else finish z
  else finish (sz p).

(** *** [fork] *)
Definition fork_files (me np : nat) : M kst unit :=
  for_loop (A := unit) (fun i =>
    p <- reads (fun s => getp s me) ;;
    when (negb (ofile p !!! i =? 0))
      (f <- sv (sv_filedup (ofile p !!! i)) ;; upd np (set_ofile i f)) ;;;
    ret None) 0 NOFILE ;;;
  ret tt.
Definition fork_copy (me np : nat) : M kst (option Z) :=
  c <- reads (fun s => getp s me) ;;
  pg <- sv (sv_copyuvm (pgdir c) (sz c)) ;;
  upd np (set_pgdir pg) ;;;
  if pg =? 0 then
    k <- reads (fun s => kstack (getp s np)) ;;
    sv (sv_kfree k) ;;;
    upd np (set_kstack 0) ;;;
    upd np (set_state UNUSED) ;;;
    ret None
  else
    upd np (set_sz (sz c)) ;;;
    upd np (set_parent (Some me)) ;;;
    upd np (set_tf (MkTf 0 (eip (tf c)) (esp (tf c)) (tf_eflags (tf c)) (cs (tf c)) (ds (tf c))
      (es (tf c)) (ss (tf c)) (other (tf c)))) ;;;
    fork_files me np ;;;
    d <- sv (sv_idup (cwd c)) ;;
    upd np (set_cwd d) ;;;
    upd np (set_name (take 15 (name c))) ;;;
    n <- reads (fun s => pid (getp s np)) ;;
    ret (Some n).
Definition fork_publish (np : nat) : M kst unit :=
  acquire_ptable ;;;
  upd np (set_state RUNNABLE) ;;;
  release_ptable.
Definition fork : M kst Z :=
  me <- curproc ;;
  r <- allocproc ;;
  match r with
  | None => ret (-1)
  | Some np =>
      q <- fork_copy me np ;;
      match q with
      | None => ret (-1)
      | Some n => fork_publish np ;;; ret n
      end
  end.

(** *** [sched] and [wakeup1] *)
Definition sched (k : point) : M kst unit :=
  p <- curproc ;;
  l <- reads plock ;;
  if negb l then panic "sched ptable.lock" else
  on_cpu Cpu.mycpu ;;;
  c <- reads cpu ;;
  if negb (Cpu.ncli c =? 1) then panic "sched locks" else
  x <- reads (fun s => getp s p) ;;
  if bool_decide (state x = RUNNING) then panic "sched running" else
  if Cpu.if_on c then panic "sched interruptible" else
  upd p (set_ctx (MkCtx k (Cpu.intena c))) ;;;
  sleep_on sched_chan.

Definition wakeup1 (ch : option chan) : M kst unit :=
  for_loop (A := unit) (fun i =>
    p <- reads (fun s => getp s i) ;;
    when (bool_decide (state p = SLEEPING) && bool_decide (chan_ p = ch)) (upd i (set_state RUNNABLE)) ;;;
    ret None) 0 NPROC ;;;
  ret tt.

Definition wakeup (ch : chan) : M kst unit :=
  acquire_ptable ;;;
  wakeup1 (Some ch) ;;;
  release_ptable.

(** *** [exit] *)
Definition exit_files (me : nat) : M kst unit :=
  for_loop (A := unit) (fun fd =>
    p <- reads (fun s => getp s me) ;;
    when (negb (ofile p !!! fd =? 0))
      (sv (sv_fileclose (ofile p !!! fd)) ;;; upd me (set_ofile fd 0)) ;;;
    ret None) 0 NOFILE ;;;
  ret tt.
Definition exit_reparent (me : nat) : M kst unit :=
  for_loop (A := unit) (fun i =>
    p <- reads (fun s => getp s i) ;;
    when (bool_decide (parent p = Some me))
      (ip <- reads initproc ;;
       upd i (set_parent ip) ;;;
       when (bool_decide (state p = ZOMBIE)) (wakeup1 (proc_chan <$> ip))) ;;;
    ret None) 0 NPROC ;;;
  ret tt.
Definition exit_zombie (me : nat) : M kst unit :=
  acquire_ptable ;;;
  p <- reads (fun s => getp s me) ;;
  wakeup1 (proc_chan <$> parent p) ;;;
  exit_reparent me ;;;
  upd me (set_state ZOMBIE) ;;;
  sched AtExit.
Definition exit : M kst unit :=
  me <- curproc ;;
  ip <- reads initproc ;;
  if bool_decide (ip = Some me) then panic "init exiting" else
  exit_files me ;;;
  sv sv_begin_op ;;;
  p <- reads (fun s => getp s me) ;;
  sv (sv_iput (cwd p)) ;;;
  sv sv_end_op ;;;
  upd me (set_cwd 0) ;;;
  exit_zombie me.

(** *** [wait] *)
Definition wait_free (i : nat) : M kst unit :=
  p <- reads (fun s => getp s i) ;;
  sv (sv_kfree (kstack p)) ;;;
  upd i (set_kstack 0) ;;;
  sv (sv_freevm (pgdir p)) ;;;
  upd i (set_pid 0) ;;;
  upd i (set_parent None) ;;;
  upd i (set_name []) ;;;
  upd i (set_killed 0) ;;;
  upd i (set_state UNUSED).
(** One scan of the table: the pid of the child it frees, or whether there are children. *)
Fixpoint wait_scan (me i cnt : nat) (havekids : bool) : M kst (Z + bool) :=
  match cnt with
  | O => ret (inr havekids)
  | S c =>
      p <- reads (fun s => getp s i) ;;
      if negb (bool_decide (parent p = Some me)) then wait_scan me (S i) c havekids
      else if bool_decide (state p = ZOMBIE) then
        wait_free i ;;; release_ptable ;;; ret (inl (pid p))
      else wait_scan me (S i) c true
  end.
(** The part of [sleep] that gives up the processor. *)
Definition sleep_sched (me : nat) (ch : chan) (k : point) : M kst unit :=
  upd me (set_chan (Some ch)) ;;;
  upd me (set_state SLEEPING) ;;;
  sched k.
Definition wait_loop (me : nat) : M kst Z :=
  r <- wait_scan me 0 NPROC false ;;
  match r with
  | inl n => ret n
  | inr havekids =>
      p <- reads (fun s => getp s me) ;;
      if negb havekids || negb (killed p =? 0) then release_ptable ;;; ret (-1)
      else sleep_sched me (proc_chan me) AtWait ;;; ret 0
  end.
Definition wait : M kst Z :=
  me <- curproc ;;
  acquire_ptable ;;;
  wait_loop me.

(** *** [sleep], [yield], [kill] *)

(** [sleep(chan, lk)] up to [sched]; [release_lk] is [release(lk)] (when [lk] is not
    [ptable.lock]; for that see [wait]). *)
Definition sleep (ch : chan) (release_lk : M kst unit) : M kst unit :=
  r <- myproc ;;
  match r with
  | None => panic "sleep"
  | Some me =>
      acquire_ptable ;;;
      release_lk ;;;
      sleep_sched me ch AtSleep
  end.

Definition yield : M kst unit :=
  acquire_ptable ;;;
  me <- curproc ;;
  upd me (set_state RUNNABLE) ;;;
  sched AtYield.

Definition kill (n : Z) : M kst Z :=
  acquire_ptable ;;;
  r <- for_loop (fun i =>
    p <- reads (fun s => getp s i) ;;
    if pid p =? n then
      upd i (set_killed 1) ;;;
      when (bool_decide (state p = SLEEPING)) (upd i (set_state RUNNABLE)) ;;;
      release_ptable ;;;
      ret (Some 0)
    else ret None) 0 NPROC ;;
  match r with
  | Some x => ret x
  | None => release_ptable ;;; ret (-1)
  end.

(** *** Running processes *)
Definition forkret : M kst unit :=
  release_ptable ;;;
  f <- reads first ;;
  when (negb (f =? 0))
    (modify (set_first 0) ;;; sv sv_iinit ;;; sv sv_initlog).

(** What a process does when the scheduler has switched to it: the rest of [sched] (restoring
    [intena]) and of the function that called it.  [relock] is [acquire(lk)] in [sleep]. *)
Definition resume (relock : M kst unit) : M kst (option Z) :=
  me <- curproc ;;
  p <- reads (fun s => getp s me) ;;
  match at_ (ctx p) with
  | AtForkret => forkret ;;; ret None
  | AtYield =>
      on_cpu (Cpu.set_intena (saved_intena (ctx p))) ;;; release_ptable ;;; ret None
  | AtSleep =>
      on_cpu (Cpu.set_intena (saved_intena (ctx p))) ;;;
      upd me (set_chan None) ;;;
      release_ptable ;;;
      relock ;;;
      ret None
  | AtWait =>
      on_cpu (Cpu.set_intena (saved_intena (ctx p))) ;;;
      upd me (set_chan None) ;;;
      n <- wait_loop me ;;
      ret (Some n)
  | AtExit => panic "zombie exit"
  end.

(** [scheduler]: taking the lock, looking at the slot [i], and what happens when the process
    comes back. *)
Definition scheduler_enter : M kst unit :=
  on_cpu Cpu.sti ;;; acquire_ptable.
Definition scheduler_slot (i : nat) : M kst bool :=
  p <- reads (fun s => getp s i) ;;
  if negb (bool_decide (state p = RUNNABLE)) then ret false
  else
    modify (set_cproc (Some i)) ;;;
    sv (sv_switchuvm (pgdir p) (kstack p)) ;;;
    upd i (set_state RUNNING) ;;;
    ret true.
Definition scheduler_back : M kst unit :=
  sv sv_switchkvm ;;; modify (set_cproc None).
Definition scheduler_leave : M kst unit := release_ptable.
End proc.
End Proc.

(** ** What the operations do to the table *)
Module Table.
Import Proc.

(** The part of a process that other processes and the scheduler see. *)
Record pub := MkPub {
  p_state : procstate; p_pid : Z; p_parent : option nat; p_chan : option chan; p_killed : Z
}.
Definition pub_of (p : proc) : pub := MkPub (state p) (pid p) (parent p) (chan_ p) (killed p).
#[global] Instance pub_inhabited : Inhabited pub := populate (MkPub UNUSED 0 None None 0).

Definition wake (ch : option chan) (p : proc) : proc :=
  if bool_decide (state p = SLEEPING) && bool_decide (chan_ p = ch) then set_state RUNNABLE p else p.

Section table.
Context {W : Type} `{!Services W}.
Implicit Types s : (@kst W).

Definition table_ok (s : @kst W) : Prop := length (procs s) = NPROC.

(** [s'] differs from [s] in the processor's flags only. *)
Definition same_but_cpu (s s' : @kst W) : Prop := s' = set_cpu (cpu s') s.

Lemma acquire_ptable_inv s s' u :
  acquire_ptable s = Ret u s' -> plock s = false /\ s' = set_cpu (cpu s') (set_plock true s).
Proof.
  unfold acquire_ptable, on_cpu, zoom, bind. destruct (Cpu.pushcli (cpu s)) as [a c| |]; try done.
  cbn. destruct (plock s) eqn:E; [done|]. intros [= _ <-]. done.
Qed.
Lemma release_ptable_inv s s' u :
  release_ptable s = Ret u s' -> plock s = true /\ s' = set_cpu (cpu s') (set_plock false s).
Proof.
  unfold release_ptable, on_cpu, zoom, bind. destruct (plock s) eqn:E; cbn; [|done].
  destruct (Cpu.popcli (cpu s)) as [a c| |]; try done. intros [= _ <-]. done.
Qed.
Lemma myproc_inv s s' r : myproc s = Ret r s' -> r = cproc s /\ same_but_cpu s s'.
Proof.
  unfold myproc, on_cpu, zoom, bind, reads, ret. destruct (Cpu.pushcli (cpu s)) as [a c| |]; try done. cbn.
  destruct (Cpu.mycpu c) as [a' c'| |]; try done. cbn.
  destruct (Cpu.popcli c') as [a2 c2| |]; try done. intros [= <- <-]. done.
Qed.
Lemma curproc_inv s s' p : curproc s = Ret p s' -> cproc s = Some p /\ same_but_cpu s s'.
Proof.
  unfold curproc. intros (r & s1 & [-> Hs]%myproc_inv & H)%bind_inv.
  destruct (cproc s); [|done]. injection H as <- <-. done.
Qed.

(** These never sleep. *)
Lemma acquire_ptable_awake s ch s' : acquire_ptable s <> Sleep ch s'.
Proof.
  unfold acquire_ptable, on_cpu, zoom, bind. rewrite Cpu.pushcli_run. cbn. by destruct (plock s).
Qed.
Lemma popcli_awake c ch c' : Cpu.popcli c <> Sleep ch c'.
Proof.
  unfold Cpu.popcli, Cpu.mycpu, Cpu.readeflags, bind, reads, Cpu.set_ncli, modify, when, Cpu.sti, ret.
  repeat case_match; simplify_eq; try done.
Qed.
Lemma mycpu_awake c ch c' : Cpu.mycpu c <> Sleep ch c'.
Proof. unfold Cpu.mycpu, Cpu.readeflags, bind, reads, ret. by case_match. Qed.
Lemma release_ptable_awake s ch s' : release_ptable s <> Sleep ch s'.
Proof.
  unfold release_ptable, on_cpu, zoom, bind. destruct (plock s); cbn; [|done].
  destruct (Cpu.popcli (cpu s)) eqn:E; try done. by apply popcli_awake in E.
Qed.
Lemma myproc_awake s ch s' : myproc s <> Sleep ch s'.
Proof.
  unfold myproc, on_cpu, zoom, bind, reads, ret. rewrite Cpu.pushcli_run. cbn.
  destruct (Cpu.mycpu _) eqn:E; cbn; try done; [|by apply mycpu_awake in E].
  destruct (Cpu.popcli _) eqn:E'; try done. by apply popcli_awake in E'.
Qed.
Lemma curproc_awake s ch s' : curproc s <> Sleep ch s'.
Proof.
  unfold curproc. intros [H|(a & s1 & H1 & H2)]%bind_inv_sleep; [by apply myproc_awake in H|].
  by destruct a.
Qed.

Lemma sched_inv k s ch s' :
  sched k s = Sleep ch s' ->
  exists p c, ch = sched_chan /\ cproc s = Some p /\ plock s = true /\ state (getp s p) <> RUNNING /\
    s' = set_cpu c (set_procs (alter (set_ctx (MkCtx k (Cpu.intena c))) p (procs s)) s).
Proof.
  unfold sched. intros [H|(p & s1 & H1 & H)]%bind_inv_sleep; [by apply curproc_awake in H|].
  apply curproc_inv in H1 as [Hp Hs]. rewrite Hs in H. clear Hs. revert H.
  generalize (cpu s1) as c. clear s1. intros c H. exists p.
  unfold bind at 1, reads at 1 in H. cbn [plock set_cpu] in H.
  destruct (plock s) eqn:El; [|done]. cbn [negb] in H.
  apply bind_inv_sleep in H as [H|([] & s1 & H1 & H)].
  { unfold on_cpu, zoom in H. destruct (Cpu.mycpu _) eqn:E; try done. by apply mycpu_awake in E. }
  unfold on_cpu, zoom in H1. destruct (Cpu.mycpu _) as [u c1| |]; try done. injection H1 as _ <-.
  unfold bind at 1, reads at 1 in H. cbn [cpu set_cpu] in H. exists c1.
  destruct (negb (Cpu.ncli c1 =? 1)); [done|]. unfold bind at 1, reads at 1 in H.
  change (getp (set_cpu c1 (set_cpu c s)) p) with (getp s p) in H.
  destruct (bool_decide (state (getp s p) = RUNNING)) eqn:Er; [done|].
  destruct (Cpu.if_on c1); [done|]. unfold bind, upd, modify, sleep_on in H. injection H as <- <-.
  apply bool_decide_eq_false in Er. done.
Qed.
Lemma sched_not_ret k s u s' : sched k s <> Ret u s'.
Proof.
  unfold sched. intros (p & s1 & _ & H)%bind_inv. unfold bind at 1, reads at 1 in H.
  destruct (negb _); [done|]. apply bind_inv in H as ([] & s2 & _ & H).
  unfold bind at 1, reads at 1 in H. destruct (negb _); [done|].
  unfold bind at 1, reads at 1 in H. destruct (bool_decide _); [done|]. by destruct (Cpu.if_on _).
Qed.

(** A loop over the table that treats every slot alike. *)
Lemma set_procs_id s : set_procs (procs s) s = s.
Proof. by destruct s. Qed.
Lemma set_procs_twice l l' s : set_procs l (set_procs l' s) = set_procs l s.
Proof. done. Qed.

Lemma getp_mid s pre x post : procs s = pre ++ x :: post -> getp s (length pre) = x.
Proof. intros H. unfold getp. rewrite H. apply list_lookup_total_middle. done. Qed.
Lemma upd_mid s pre x post f :
  procs s = pre ++ x :: post ->
  upd (length pre) f s = Ret tt (set_procs (pre ++ f x :: post) s).
Proof.
  intros H. unfold upd, modify. rewrite H. do 2 f_equal.
  rewrite <- (Nat.add_0_r (length pre)), alter_app_r. done.
Qed.

Lemma scan_map_from {A} (body : nat -> M (@kst W) (option A)) (g : proc -> proc) post : forall pre s,
  (forall pre x post s, procs s = pre ++ x :: post ->
     body (length pre) s = Ret None (set_procs (pre ++ g x :: post) s)) ->
  procs s = pre ++ post ->
  for_loop body (length pre) (length post) s = Ret None (set_procs (pre ++ map g post) s).
Proof.
  induction post as [|x post IH]; intros pre s Hb Hs; cbn [for_loop length map].
  - rewrite <- Hs, set_procs_id. done.
  - rewrite (bind_Ret _ _ _ _ _ (Hb pre x post s Hs)).
    replace (S (length pre)) with (length (pre ++ [g x])) by (rewrite length_app; cbn; lia).
    rewrite IH; [|done|cbn; by rewrite <- app_assoc]. by rewrite <- app_assoc.
Qed.
Lemma scan_map {A} (body : nat -> M (@kst W) (option A)) (g : proc -> proc) s :
  (forall pre x post s, procs s = pre ++ x :: post ->
     body (length pre) s = Ret None (set_procs (pre ++ g x :: post) s)) ->
  table_ok s -> for_loop body 0 NPROC s = Ret None (set_procs (map g (procs s)) s).
Proof. intros Hb Hs. rewrite <- Hs. exact (scan_map_from body g (procs s) [] s Hb eq_refl). Qed.

Lemma wakeup1_run ch s : table_ok s -> wakeup1 ch s = Ret tt (set_procs (map (wake ch) (procs s)) s).
Proof.
  intros Hs. unfold wakeup1.
  match goal with |- bind ?m _ _ = _ =>
    assert (H : m s = Ret None (set_procs (map (wake ch) (procs s)) s)) end.
  { apply scan_map; [|done]. clear s Hs. intros pre x post s Hs.
    unfold bind at 1, reads at 1. rewrite (getp_mid s pre x post Hs). unfold wake. destruct (_ && _); cbn [when].
    - by rewrite (bind_Ret _ _ _ _ _ (upd_mid s pre x post _ Hs)).
    - cbn. rewrite <- Hs. by rewrite set_procs_id. }
  by rewrite (bind_Ret _ _ _ _ _ H).
Qed.

(** [exit] gives its children to init. *)
Definition reparent (me : nat) (ip : option nat) (p : proc) : proc :=
  if bool_decide (parent p = Some me) then set_parent ip p else p.

Lemma wake_reparent ch me ip p : wake ch (reparent me ip p) = reparent me ip (wake ch p).
Proof. unfold wake, reparent. destruct p; cbn. repeat case_bool_decide; cbn; repeat case_bool_decide; done. Qed.

Lemma wake_wake ch p : wake ch (wake ch p) = wake ch p.
Proof. unfold wake at 2 3. destruct (_ && _) eqn:E; unfold wake; [done|by rewrite E]. Qed.
Lemma wake_parent ch p : parent (wake ch p) = parent p.
Proof. unfold wake. by destruct (_ && _). Qed.
Lemma wake_zombie ch p : state (wake ch p) = ZOMBIE <-> state p = ZOMBIE.
Proof. unfold wake. destruct (_ && _) eqn:E; [|done]. b2p. cbn. split; congruence. Qed.

(** The table in the middle of [exit_reparent]: the slots [pre] are done, and init has been
    woken if [b]. *)
Definition opt_wake (b : bool) (ch : option chan) : proc -> proc := if b then wake ch else id.
Definition half (me : nat) (ip : option nat) (b : bool) (pre post : list proc) : list proc :=
  map (opt_wake b (proc_chan <$> ip)) (map (reparent me ip) pre ++ post).

Definition reparent_body (me i : nat) : M (@kst W) (option unit) :=
  p <- reads (fun s => getp s i) ;;
  when (bool_decide (parent p = Some me))
    (ip <- reads initproc ;;
     upd i (set_parent ip) ;;;
     when (bool_decide (state p = ZOMBIE)) (wakeup1 (proc_chan <$> ip))) ;;;
  ret None.

Lemma reparent_body_run me s b pre x post :
  procs s = half me (initproc s) b pre (x :: post) -> length (pre ++ x :: post) = NPROC ->
  exists b', reparent_body me (length pre) s =
      Ret None (set_procs (half me (initproc s) b' (pre ++ [x]) post) s) /\
    (b = true -> b' = true) /\ (parent x = Some me -> state x = ZOMBIE -> b' = true).
Proof.
  set (ip := initproc s). set (g := opt_wake b (proc_chan <$> ip)). intros Hp Hlen.
  unfold half in *. fold g in Hp. rewrite map_app in Hp. cbn [map] in Hp.
  set (pre' := map g (map (reparent me ip) pre)) in *.
  assert (Hlp : length pre = length pre') by (unfold pre'; by rewrite !length_map).
  assert (Hg : g (reparent me ip x) = reparent me ip (g x)).
  { unfold g, opt_wake. destruct b; [apply wake_reparent|done]. }
  assert (Hpar : parent (g x) = parent x) by (unfold g, opt_wake; destruct b; [apply wake_parent|done]).
  assert (Hzom : state (g x) = ZOMBIE <-> state x = ZOMBIE)
    by (unfold g, opt_wake; destruct b; [apply wake_zombie|done]).
  assert (Hall : map g (map (reparent me ip) (pre ++ [x]) ++ post) = pre' ++ g (reparent me ip x) :: map g post).
  { rewrite !map_app, <- app_assoc. done. }
  unfold reparent_body. rewrite Hlp. unfold bind at 1, reads at 1. rewrite (getp_mid s pre' (g x) _ Hp), Hpar.
  case_bool_decide as Epar; cbn [when].
  - unfold bind at 1, bind at 1, reads at 1. fold ip.
    rewrite (bind_Ret _ _ _ _ _ (upd_mid s pre' (g x) _ _ Hp)).
    assert (Hrep : reparent me ip (g x) = set_parent ip (g x)).
    { unfold reparent. by rewrite bool_decide_eq_true_2 by congruence. }
    rewrite <- Hrep, <- Hg, <- Hall. case_bool_decide as Ez; cbn [when].
    + exists true. split_and!; [|done..]. rewrite wakeup1_run.
      2: { unfold table_ok. cbn. rewrite length_map, length_app, length_map, length_app, <- Hlen, length_app.
           cbn. lia. }
      cbn [procs set_procs]. rewrite map_map, set_procs_twice. unfold ret, bind.
      do 2 f_equal. apply map_ext. intros p. unfold g, opt_wake.
      destruct b; [apply wake_wake|done].
    + exists b. split_and!; [done..|]. intros _ Hz. by apply Hzom in Hz.
  - exists b. split_and!; [|done..]. cbn. do 2 f_equal. fold g. rewrite Hall, Hg. unfold reparent.
    rewrite bool_decide_eq_false_2 by congruence. rewrite <- Hp. by rewrite set_procs_id.
Qed.

Lemma reparent_loop me post : forall pre s b,
  procs s = half me (initproc s) b pre post -> length (pre ++ post) = NPROC ->
  exists b', for_loop (reparent_body me) (length pre) (length post) s =
      Ret None (set_procs (half me (initproc s) b' (pre ++ post) []) s) /\
    (b = true -> b' = true) /\
    (forall p, p ∈ post -> parent p = Some me -> state p = ZOMBIE -> b' = true).
Proof.
  induction post as [|x post IH]; intros pre s b Hp Hlen.
  - exists b. rewrite app_nil_r. cbn. rewrite <- Hp, set_procs_id. split_and!; [done..|]. by intros p ?%elem_of_nil.
  - destruct (reparent_body_run me s b pre x post Hp Hlen) as (b2 & Hb & Hb2 & Hbz).
    cbn [for_loop length]. rewrite (bind_Ret _ _ _ _ _ Hb).
    destruct (IH (pre ++ [x]) (set_procs (half me (initproc s) b2 (pre ++ [x]) post) s) b2) as (b' & Hf & Hb' & Hz);
      [done|by rewrite <- app_assoc|].
    exists b'. rewrite length_app, Nat.add_1_r, <- app_assoc in Hf. split_and!; [exact Hf|auto|].
    intros p [->|Hp']%elem_of_cons Hpp Hpz; [by apply Hb', Hbz|by apply (Hz p)].
Qed.

(** Zombies among the children are announced to init. *)
Lemma exit_reparent_run me s :
  table_ok s ->
  exists b, exit_reparent me s = Ret tt (set_procs (map (opt_wake b (proc_chan <$> initproc s))
      (map (reparent me (initproc s)) (procs s))) s) /\
    (forall p, p ∈ procs s -> parent p = Some me -> state p = ZOMBIE -> b = true).
Proof.
  intros Hs. destruct (reparent_loop me (procs s) [] s false) as (b & Hf & _ & Hz); [by unfold half; cbn; rewrite map_id|done|].
  exists b. split; [|done]. unfold exit_reparent. cbn [length] in Hf. rewrite Hs in Hf.
  change (for_loop _ 0 NPROC) with (for_loop (reparent_body me) 0 NPROC). rewrite (bind_Ret _ _ _ _ _ Hf).
  unfold half, ret. cbn [app]. by rewrite app_nil_r.
Qed.
End table.
End Table.
