(* ===== verification/ProcSpec.v ===== *)
(** The life cycle of processes.

    [Module Life] is the abstract specification of the process table: what one atomic step
    of a process or of the scheduler may do to it, and the invariants of all sequences of
    such steps. *)

From S2P Require Import Prelude Params Spinlock Sleeplock CString Kalloc Proc.

Module Life.
Import Proc Table.

(** How far a process is in [fork]: it has a slot, the slot has a stack, the slot is a copy
    of the process. *)
Inductive kpc := Normal | Alloced (np : nat) | Stacked (np : nat) | Filled (np : nat).

Record tab := MkTab { T : list pub; at_fork : nat -> kpc; ip : nat; npid : Z }.

Definition child_of (p : pub) (q : nat) : Prop := p_parent p = Some q.
Definition st (t : tab) (i : nat) : procstate := p_state (T t !!! i).

Definition pwake (ch : option chan) (p : pub) : pub :=
  if bool_decide (p_state p = SLEEPING) && bool_decide (p_chan p = ch)
  then MkPub RUNNABLE (p_pid p) (p_parent p) (p_chan p) (p_killed p) else p.
Definition preparent (me ip : nat) (p : pub) : pub :=
  if bool_decide (p_parent p = Some me)
  then MkPub (p_state p) (p_pid p) (Some ip) (p_chan p) (p_killed p) else p.
(** What the exit of [me] does to another process: its parent is woken ([pc]), its children go
    to init, and init is woken if one of them is a zombie. *)
Definition pexit (me ip : nat) (pc : option chan) (b : bool) (p : pub) : pub :=
  (if b then pwake (Some (proc_chan ip)) else id) (preparent me ip (pwake pc p)).
Definition pstate (x : procstate) (p : pub) : pub :=
  MkPub x (p_pid p) (p_parent p) (p_chan p) (p_killed p).
Definition psleep (ch : chan) (p : pub) : pub :=
  MkPub SLEEPING (p_pid p) (p_parent p) (Some ch) (p_killed p).
Definition pkill (p : pub) : pub :=
  MkPub (if bool_decide (p_state p = SLEEPING) then RUNNABLE else p_state p)
    (p_pid p) (p_parent p) (p_chan p) 1.
Definition pembryo (n : Z) (p : pub) : pub := MkPub EMBRYO n (p_parent p) (p_chan p) (p_killed p).
Definition pparent (q : nat) (p : pub) : pub :=
  MkPub (p_state p) (p_pid p) (Some q) (p_chan p) (p_killed p).
Definition preap (p : pub) : pub := MkPub UNUSED 0 None (p_chan p) 0.
Definition pnochan (p : pub) : pub := MkPub (p_state p) (p_pid p) (p_parent p) None (p_killed p).

Definition upd (i : nat) (f : pub -> pub) (t : tab) : tab := MkTab (alter f i (T t)) (at_fork t) (ip t) (npid t).
Definition set_fork (q : nat) (k : kpc) (t : tab) : tab :=
  MkTab (T t) (<[q := k]> (at_fork t)) (ip t) (npid t).
Definition tmap (f : pub -> pub) (t : tab) : tab := MkTab (map f (T t)) (at_fork t) (ip t) (npid t).

(** What the running process [me] may do to the table, and the scheduler's dispatch. *)
Inductive tstep (t : tab) : tab -> Prop :=
| t_skip : tstep t t
| t_alloc me np : (np < NPROC)%nat -> st t me = RUNNING -> at_fork t me = Normal -> st t np = UNUSED ->
    tstep t (set_fork me (Alloced np) (MkTab (alter (pembryo (npid t)) np (T t)) (at_fork t) (ip t) (npid t + 1)))
| t_stack me np : st t me = RUNNING -> at_fork t me = Alloced np -> tstep t (set_fork me (Stacked np) t)
| t_stack_fail me np : st t me = RUNNING -> at_fork t me = Alloced np ->
    tstep t (set_fork me Normal (upd np (pstate UNUSED) t))
| t_copy me np : st t me = RUNNING -> at_fork t me = Stacked np ->
    tstep t (set_fork me (Filled np) (upd np (pparent me) t))
| t_copy_fail me np : st t me = RUNNING -> at_fork t me = Stacked np ->
    tstep t (set_fork me Normal (upd np (pstate UNUSED) t))
| t_publish me np : st t me = RUNNING -> at_fork t me = Filled np ->
    tstep t (set_fork me Normal (upd np (pstate RUNNABLE) t))
| t_wakeup ch : tstep t (tmap (pwake (Some ch)) t)
| t_kill i : (i < NPROC)%nat -> tstep t (upd i pkill t)
| t_reap me i : (i < NPROC)%nat -> st t me = RUNNING -> st t i = ZOMBIE -> child_of (T t !!! i) me ->
    tstep t (upd i preap t)
| t_wait me : st t me = RUNNING -> at_fork t me = Normal ->
    (forall i, (i < NPROC)%nat -> child_of (T t !!! i) me -> st t i <> ZOMBIE) ->
    tstep t (upd me (psleep (proc_chan me)) t)
| t_sleep me ch : st t me = RUNNING -> at_fork t me = Normal -> (forall i, ch <> proc_chan i) ->
    tstep t (upd me (psleep ch) t)
| t_yield me : st t me = RUNNING -> tstep t (upd me (pstate RUNNABLE) t)
| t_exit me (b : bool) : st t me = RUNNING -> at_fork t me = Normal -> me <> ip t ->
    (forall i, (i < NPROC)%nat -> child_of (T t !!! i) me -> st t i = ZOMBIE -> b = true) ->
    tstep t (upd me (pstate ZOMBIE)
      (tmap (pexit me (ip t) (proc_chan <$> p_parent (T t !!! me)) b) t))
| t_dispatch i : (i < NPROC)%nat -> st t i = RUNNABLE -> tstep t (upd i (pstate RUNNING) t)
| t_nochan me : st t me = RUNNING -> tstep t (upd me pnochan t).

(** Alive: not free, not being made, not dead. *)
Definition alive (x : procstate) : Prop := x = SLEEPING \/ x = RUNNABLE \/ x = RUNNING.

Definition forking (t : tab) (q np : nat) : Prop :=
  at_fork t q = Alloced np \/ at_fork t q = Stacked np \/ at_fork t q = Filled np.

Record inv (t : tab) : Prop := MkInv {
  inv_len : length (T t) = NPROC;
  inv_ip : (ip t < NPROC)%nat /\ alive (st t (ip t));
  (** a parent is alive, and everything alive or dead but init has one *)
  inv_parent i q : (i < NPROC)%nat -> p_parent (T t !!! i) = Some q -> (q < NPROC)%nat /\ alive (st t q);
  inv_orphan i : (i < NPROC)%nat -> alive (st t i) \/ st t i = ZOMBIE -> i <> ip t -> exists q, p_parent (T t !!! i) = Some q;
  inv_unused i : (i < NPROC)%nat -> st t i = UNUSED -> p_parent (T t !!! i) = None;
  (** nobody sleeps in [wait] while a child is a zombie *)
  inv_wait q i : (q < NPROC)%nat -> (i < NPROC)%nat -> st t q = SLEEPING ->
    p_chan (T t !!! q) = Some (proc_chan q) -> p_parent (T t !!! i) = Some q -> st t i <> ZOMBIE;
  (** a process that forks is running or runnable, and owns the slot *)
  inv_fork q np : forking t q np -> (np < NPROC)%nat /\ st t np = EMBRYO /\ (q < NPROC)%nat /\
    (st t q = RUNNING \/ st t q = RUNNABLE) /\
    (at_fork t q = Filled np -> p_parent (T t !!! np) = Some q) /\
    (at_fork t q <> Filled np -> p_parent (T t !!! np) = None);
  inv_fork_inj q q' np : forking t q np -> forking t q' np -> q = q';
  inv_pid i j : (i < NPROC)%nat -> (j < NPROC)%nat -> st t i <> UNUSED -> st t j <> UNUSED ->
    p_pid (T t !!! i) = p_pid (T t !!! j) -> i = j;
  inv_npid i : (i < NPROC)%nat -> st t i <> UNUSED -> p_pid (T t !!! i) < npid t;
  inv_noself i : (i < NPROC)%nat -> p_parent (T t !!! i) <> Some i;
  inv_root : p_parent (T t !!! ip t) = None
}.

Lemma lookup_upd t j f i : (i < length (T t))%nat ->
  T (upd j f t) !!! i = if decide (i = j) then f (T t !!! i) else T t !!! i.
Proof.
  intros Hi. cbn. destruct (decide (i = j)) as [->|].
  - by rewrite list_lookup_total_alter_eq.
  - by rewrite list_lookup_total_alter_ne.
Qed.
Lemma lookup_tmap t f i : (i < length (T t))%nat -> T (tmap f t) !!! i = f (T t !!! i).
Proof. intros Hi. exact (list_lookup_total_fmap f (T t) i Hi). Qed.

(** Steps that only move processes between the alive states. *)
Lemma alive_step t t' :
  inv t -> length (T t') = NPROC -> ip t' = ip t -> npid t' = npid t -> at_fork t' = at_fork t ->
  (forall i, (i < NPROC)%nat -> p_pid (T t' !!! i) = p_pid (T t !!! i) /\
     p_parent (T t' !!! i) = p_parent (T t !!! i) /\
     (st t' i = st t i \/ alive (st t i) /\ alive (st t' i))) ->
  (forall q np, forking t q np -> st t' q = RUNNING \/ st t' q = RUNNABLE) ->
  (forall q, (q < NPROC)%nat -> st t' q = SLEEPING -> p_chan (T t' !!! q) = Some (proc_chan q) ->
     (st t q = SLEEPING /\ p_chan (T t !!! q) = Some (proc_chan q)) \/
     forall i, (i < NPROC)%nat -> p_parent (T t !!! i) = Some q -> st t i <> ZOMBIE) ->
  inv t'.
Proof.
  intros Hi Hlen Hip Hnp Haf Hsame Hfk Hw.
  assert (Halive : forall i, (i < NPROC)%nat -> alive (st t i) -> alive (st t' i)).
  { intros i Hi' Ha. destruct (Hsame i Hi') as (_ & _ & [->|[_ ?]]); done. }
  assert (Hback : forall i x, (i < NPROC)%nat -> ~ alive x -> st t' i = x <-> st t i = x).
  { intros i x Hi' Ha. destruct (Hsame i Hi') as (_ & _ & [->|[? ?]]); [done|]. split; congruence. }
  assert (HnE : ~ alive EMBRYO /\ ~ alive UNUSED /\ ~ alive ZOMBIE) by (unfold alive; naive_solver).
  destruct HnE as (HnE & HnU & HnZ).
  destruct Hi as [_ [Hi1 Hi2] Hpar Horp Hun Hwt Hfork Hinj Hpid Hnpid Hself Hroot].
  split; rewrite ?Hip, ?Hnp; try done.
  - split; [done|]. by apply Halive.
  - intros i q Hi' Hp. destruct (Hsame i Hi') as (_ & Hp' & _). rewrite Hp' in Hp.
    destruct (Hpar i q Hi' Hp). auto.
  - intros i Hi' Ha Hne. destruct (Hsame i Hi') as (_ & -> & _). apply Horp; [done| |done].
    destruct Ha as [Ha|Ha]; [left|right; by apply (Hback i ZOMBIE)].
    destruct (Hsame i Hi') as (_ & _ & [<-|[? ?]]); done.
  - intros i Hi' Hu. destruct (Hsame i Hi') as (_ & -> & _). apply Hun; [done|]. by apply (Hback i UNUSED).
  - intros q i Hq Hi' Hs Hc Hp Hz. destruct (Hsame i Hi') as (_ & Hp' & _). rewrite Hp' in Hp.
    apply (Hback i ZOMBIE) in Hz; [|done..]. destruct (Hw q Hq Hs Hc) as [[H1 H2]|Hno];
      [exact (Hwt q i Hq Hi' H1 H2 Hp Hz)|exact (Hno i Hi' Hp Hz)].
  - intros q np Hf. unfold forking in Hf. rewrite Haf in Hf. pose proof (Hfk q np Hf).
    destruct (Hfork q np Hf) as (H1 & H2 & H3 & H4 & H5 & H6). rewrite Haf.
    destruct (Hsame np H1) as (_ & -> & _). split_and!; try done. by apply (Hback np EMBRYO).
  - intros q q' np Hf Hf'. unfold forking in Hf, Hf'. rewrite Haf in Hf, Hf'. by eapply Hinj.
  - intros i j Hi' Hj Hui Huj He. destruct (Hsame i Hi') as (E1 & _ & _), (Hsame j Hj) as (E2 & _ & _).
    apply Hpid; [done..| | |congruence]; intros H; [apply Hui|apply Huj]; by apply Hback.
  - intros i Hi' Hui. destruct (Hsame i Hi') as (-> & _ & _). apply Hnpid; [done|]. intros H. apply Hui.
    by apply Hback.
  - intros i Hi'. destruct (Hsame i Hi') as (_ & -> & _). by apply Hself.
  - destruct (Hsame (ip t) Hi1) as (_ & -> & _). done.
Qed.

(** The same for one process. *)
Lemma alive_upd t me f :
  inv t -> (me < NPROC)%nat -> alive (st t me) -> alive (p_state (f (T t !!! me))) ->
  p_pid (f (T t !!! me)) = p_pid (T t !!! me) -> p_parent (f (T t !!! me)) = p_parent (T t !!! me) ->
  (forall np, forking t me np -> p_state (f (T t !!! me)) <> SLEEPING) ->
  (p_state (f (T t !!! me)) = SLEEPING -> p_chan (f (T t !!! me)) = Some (proc_chan me) ->
     forall i, (i < NPROC)%nat -> p_parent (T t !!! i) = Some me -> st t i <> ZOMBIE) ->
  inv (upd me f t).
Proof.
  intros Hi Hme Ha Ha' Hpid Hpar Hf Hw. pose proof (inv_len t Hi) as Hlen.
  apply (alive_step t); try done.
  - cbn. by rewrite length_alter.
  - intros i Hi'. unfold st. rewrite lookup_upd by lia. destruct (decide (i = me)) as [->|]; [|by auto].
    split_and!; [done..|]. by right.
  - intros q np Hq. unfold st. destruct (inv_fork t Hi q np Hq) as (_ & _ & Hq' & Hst & _).
    rewrite lookup_upd by lia. destruct (decide (q = me)) as [->|]; [|done].
    pose proof (Hf np Hq). destruct Ha' as [|[|]]; auto. done.
  - intros q Hq. unfold st. rewrite lookup_upd by lia. destruct (decide (q = me)) as [->|].
    + intros H1 H2. right. by apply Hw.
    + intros H1 H2. by left.
Qed.

Lemma alive_running x : x = RUNNING -> alive x.
Proof. unfold alive. auto. Qed.

(** A process changed by [wakeup]: still alive. *)
Lemma pwake_cases ch p : pwake ch p = p \/
  p_state p = SLEEPING /\ pwake ch p = pstate RUNNABLE p.
Proof. unfold pwake. destruct (_ && _) eqn:E; [right; b2p|by left]. done. Qed.

Lemma wakeup_inv t ch : inv t -> inv (tmap (pwake ch) t).
Proof.
  intros Hi. pose proof (inv_len t Hi) as Hlen. apply (alive_step t); try done.
  - cbn. by rewrite length_map.
  - intros i Hi'. unfold st. rewrite lookup_tmap by lia.
    destruct (pwake_cases ch (T t !!! i)) as [->|[Hs ->]]; [by auto|]. cbn. rewrite Hs. unfold alive. auto 10.
  - intros q np Hq. unfold st. destruct (inv_fork t Hi q np Hq) as (_ & _ & Hq' & Hst & _).
    rewrite lookup_tmap by lia. destruct (pwake_cases ch (T t !!! q)) as [->|[Hs ->]]; [done|by right].
  - intros q Hq. unfold st. rewrite lookup_tmap by lia.
    destruct (pwake_cases ch (T t !!! q)) as [->|[Hs ->]]; [by auto|]. done.
Qed.

Lemma kill_inv t i : inv t -> (i < NPROC)%nat -> inv (upd i pkill t).
Proof.
  intros Hi Hii. pose proof (inv_len t Hi) as Hlen. apply (alive_step t); try done.
  - cbn. by rewrite length_alter.
  - intros j Hj. unfold st. rewrite lookup_upd by lia. destruct (decide (j = i)) as [->|]; [|by auto].
    cbn. case_bool_decide as E; [|by auto]. rewrite E. unfold alive. auto 10.
  - intros q np Hq. unfold st. destruct (inv_fork t Hi q np Hq) as (_ & _ & Hq' & Hst & _).
    rewrite lookup_upd by lia. destruct (decide (q = i)) as [->|]; [|done]. cbn. case_bool_decide; auto.
  - intros q Hq. unfold st. rewrite lookup_upd by lia. destruct (decide (q = i)) as [->|]; [|by auto].
    cbn. case_bool_decide; [done|]. done.
Qed.

(** *** [fork] *)
Lemma forking_set t q k q' np :
  forking (set_fork q k t) q' np <->
    if decide (q' = q) then k = Alloced np \/ k = Stacked np \/ k = Filled np else forking t q' np.
Proof.
  unfold forking, set_fork. cbn. destruct (decide (q' = q)) as [->|].
  - by rewrite fn_lookup_insert.
  - by rewrite fn_lookup_insert_ne.
Qed.

Lemma running_lt t me : inv t -> st t me = RUNNING -> (me < NPROC)%nat.
Proof.
  intros Hi Hs. destruct (decide (me < NPROC)%nat) as [|Hge]; [done|]. exfalso.
  unfold st in Hs. rewrite list_lookup_total_alt, lookup_ge_None_2 in Hs; [done|].
  rewrite (inv_len t Hi). lia.
Qed.

(** What [me] leaves in the slot [np] it is forking into, for each stage [k] of the fork. *)
Definition stage_ok (me np : nat) (k : kpc) (p : pub) : Prop :=
  match k with
  | Normal => p_state p = UNUSED /\ p_parent p = None \/ p_state p = RUNNABLE /\ p_parent p = Some me
  | Alloced n | Stacked n => n = np /\ p_state p = EMBRYO /\ p_parent p = None
  | Filled n => n = np /\ p_state p = EMBRYO /\ p_parent p = Some me
  end.

Lemma stage_facts me np k p :
  stage_ok me np k p ->
  (p_state p <> ZOMBIE /\ p_state p <> SLEEPING) /\
  (forall q, p_parent p = Some q -> q = me) /\
  (alive (p_state p) -> p_parent p = Some me) /\
  (p_state p = UNUSED -> p_parent p = None) /\
  (forall np', k = Alloced np' \/ k = Stacked np' \/ k = Filled np' -> np' = np /\ p_state p = EMBRYO) /\
  (k = Filled np -> p_parent p = Some me) /\
  (p_state p = EMBRYO -> k <> Filled np -> p_parent p = None).
Proof.
  destruct k as [|n|n|n]; cbn; unfold alive.
  - intros [[-> ->]|[-> ->]]; split_and!; try congruence; try (intros [|[|]]; congruence);
      intros np' [|[|]]; congruence.
  - intros (-> & -> & ->). split_and!; try congruence; try (intros [|[|]]; congruence).
    intros np' [|[|]]; split; congruence.
  - intros (-> & -> & ->). split_and!; try congruence; try (intros [|[|]]; congruence).
    intros np' [|[|]]; split; congruence.
  - intros (-> & -> & ->). split_and!; try congruence; try (intros [|[|]]; congruence).
    intros np' [|[|]]; split; congruence.
Qed.

Lemma slot_step t me np k p n' :
  inv t -> (np < NPROC)%nat -> st t me = RUNNING -> st t np = UNUSED \/ st t np = EMBRYO ->
  (forall q, q <> me -> ~ forking t q np) -> (forall np', forking t me np' -> np' = np) ->
  stage_ok me np k p -> npid t <= n' -> (p_state p <> UNUSED -> p_pid p < n' /\
    forall j, (j < NPROC)%nat -> j <> np -> st t j <> UNUSED -> p_pid (T t !!! j) <> p_pid p) ->
  inv (set_fork me k (MkTab (alter (fun _ => p) np (T t)) (at_fork t) (ip t) n')).
Proof.
  intros Hi Hnp Hme Hst0 Hothers Hmine Hk Hn' Hnew. pose proof (running_lt t me Hi Hme) as Hmelt.
  pose proof Hi as [Hlen [Hi1 Hi2] Hpar Horp Hun Hwt Hfork Hinj Hpid Hnpid Hself Hroot].
  set (t' := set_fork me k _).
  assert (Hna : ~ alive (st t np)) by (unfold alive; destruct Hst0 as [-> | ->]; intros [|[|]]; done).
  assert (Hl : forall i, (i < NPROC)%nat -> T t' !!! i = if decide (i = np) then p else T t !!! i).
  { intros i Hi'. apply (lookup_upd t np (fun _ => p) i). lia. }
  assert (Hs : forall i, (i < NPROC)%nat -> st t' i = if decide (i = np) then p_state p else st t i).
  { intros i Hi'. unfold st at 1. rewrite Hl by done. by destruct (decide (i = np)). }
  destruct (stage_facts me np k p Hk) as (Hnz & Hk1 & Hk2 & Hk3 & Hk4 & Hk5 & Hk6). clear Hk.
  assert (Hmenp : me <> np) by (intros ->; rewrite Hme in Hst0; destruct Hst0; done).
  assert (Hal : forall i, (i < NPROC)%nat -> alive (st t i) -> alive (st t' i)).
  { intros i Hi' Ha. rewrite Hs by done. by destruct (decide (i = np)) as [->|]. }
  assert (Hp : forall i q, (i < NPROC)%nat -> p_parent (T t' !!! i) = Some q ->
    (i = np /\ q = me) \/ (i <> np /\ p_parent (T t !!! i) = Some q)).
  { intros i q Hi'. rewrite Hl by done. destruct (decide (i = np)) as [->|]; [|by right].
    intros He. left. auto. }
  split; try done.
  - cbn. by rewrite length_alter.
  - split; [done|]. by apply Hal.
  - intros i q Hi' [[-> ->]|[_ He]]%Hp; [| |done].
    + split; [done|]. apply Hal; [done|]. by apply alive_running.
    + destruct (Hpar i q Hi' He). auto.
  - intros i Hi'. rewrite Hs, Hl by done. destruct (decide (i = np)) as [->|]; [|by apply Horp].
    intros [Ha|Ha] _; [|by destruct Hnz]. exists me. auto.
  - intros i Hi'. rewrite Hs, Hl by done. destruct (decide (i = np)) as [->|]; [|by apply Hun].
    done.
  - intros q i Hq Hi'. rewrite (Hs q), (Hs i) by done. destruct (decide (q = np)); [by intros ?; destruct Hnz|].
    rewrite (Hl q) by done. destruct (decide (q = np)); [done|]. intros H1 H2 [[-> ->]|[? He]]%Hp; [congruence| |done].
    destruct (decide (i = np)); [done|]. exact (Hwt q i Hq Hi' H1 H2 He).
  - intros q np' Hf. apply forking_set in Hf. cbn [t' set_fork at_fork]. destruct (decide (q = me)) as [->|Hne].
    + rewrite fn_lookup_insert. destruct (Hk4 np' Hf) as [-> Hemb].
      rewrite Hl, !Hs by done. destruct (decide (np = np)); [|done]. destruct (decide (me = np)); [done|].
      split_and!; auto.
    + rewrite fn_lookup_insert_ne by done. destruct (Hfork q np' Hf) as (H1 & H2 & H3 & H4 & H5 & H6).
      assert (np' <> np) by (intros ->; by apply (Hothers q)).
      assert (q <> np) by (intros ->; destruct H4 as [H4|H4]; rewrite H4 in Hna; unfold alive in Hna; tauto).
      rewrite Hl, !Hs by done. destruct (decide (np' = np)); [done|]. by destruct (decide (q = np)).
  - intros q q' np' Hf Hf'. apply forking_set in Hf. apply forking_set in Hf'.
    destruct (decide (q = me)) as [->|Hq], (decide (q' = me)) as [->|Hq']; [done| | |by eapply Hinj].
    + apply Hk4 in Hf as [-> _]. by apply Hothers in Hf'.
    + apply Hk4 in Hf' as [-> _]. by apply Hothers in Hf.
  - intros i j Hi' Hj. rewrite !Hs, !Hl by done.
    destruct (decide (i = np)) as [->|], (decide (j = np)) as [->|]; try done; [| |by apply Hpid].
    + intros Hui Huj He. destruct (Hnew Hui) as [_ Hd]. by destruct (Hd j).
    + intros Hui Huj He. destruct (Hnew Huj) as [_ Hd]. by destruct (Hd i).
  - intros i Hi'. rewrite Hs, Hl by done. cbn [t' set_fork npid]. destruct (decide (i = np)) as [->|]; [by intros ?; apply Hnew|].
    intros Hui. pose proof (Hnpid i Hi' Hui). lia.
  - intros i Hi' [[-> ->]|[_ He]]%Hp; [done| |done]. by apply (Hself i).
  - cbn [t' set_fork ip]. rewrite Hl by done. destruct (decide (ip t = np)) as [He|]; [|done].
    rewrite He in Hi2. done.
Qed.

Lemma reap_inv t me i :
  inv t -> (i < NPROC)%nat -> st t me = RUNNING -> st t i = ZOMBIE -> inv (upd i preap t).
Proof.
  intros Hi Hii Hme Hz. pose proof Hi as [Hlen [Hi1 Hi2] Hpar Horp Hun Hwt Hfork Hinj Hpid Hnpid Hself Hroot].
  assert (Hna : ~ alive (st t i)) by (rewrite Hz; unfold alive; intros [|[|]]; done).
  assert (Hl : forall j, (j < NPROC)%nat -> T (upd i preap t) !!! j = if decide (j = i) then preap (T t !!! j) else T t !!! j).
  { intros j Hj. apply lookup_upd. lia. }
  assert (Hs : forall j, (j < NPROC)%nat -> st (upd i preap t) j = if decide (j = i) then UNUSED else st t j).
  { intros j Hj. unfold st at 1. rewrite Hl by done. by destruct (decide (j = i)). }
  assert (Hal : forall j, (j < NPROC)%nat -> alive (st t j) -> alive (st (upd i preap t) j)).
  { intros j Hj Ha. rewrite Hs by done. by destruct (decide (j = i)) as [->|]. }
  split; try done.
  - cbn. by rewrite length_alter.
  - split; [done|]. by apply Hal.
  - intros j q Hj. rewrite Hl by done. destruct (decide (j = i)); [done|]. intros He.
    destruct (Hpar j q Hj He). auto.
  - intros j Hj. rewrite Hs, Hl by done. destruct (decide (j = i)); [|by apply Horp].
    intros [[|[|]]|]; done.
  - intros j Hj. rewrite Hs, Hl by done. destruct (decide (j = i)); [done|]. by apply Hun.
  - intros q j Hq Hj. rewrite !Hs, !Hl by done. destruct (decide (q = i)); [done|].
    destruct (decide (j = i)); [done|]. by apply Hwt.
  - intros q np Hf. destruct (Hfork q np Hf) as (H1 & H2 & H3 & H4 & H5 & H6). rewrite Hl, !Hs by done.
    destruct (decide (np = i)) as [->|]; [congruence|]. destruct (decide (q = i)) as [->|]; [|done].
    destruct H4; congruence.
  - intros j k Hj Hk. rewrite !Hs, !Hl by done. destruct (decide (j = i)); [done|].
    destruct (decide (k = i)); [done|]. by apply Hpid.
  - intros j Hj. rewrite Hs, Hl by done. destruct (decide (j = i)); [done|]. by apply Hnpid.
  - intros j Hj. rewrite Hl by done. destruct (decide (j = i)); [done|]. by apply Hself.
  - cbn [ip upd]. rewrite Hl by done. by destruct (decide (ip t = i)).
Qed.

(** *** [exit] *)

(** What [exit] of [me] does to another process. *)
Lemma exit_effect me ip pc (b : bool) p :
  let p' := pexit me ip pc b p in
  p_pid p' = p_pid p /\ p_chan p' = p_chan p /\
  p_parent p' = (if decide (p_parent p = Some me) then Some ip else p_parent p) /\
  (p_state p' = p_state p \/ p_state p = SLEEPING /\ p_state p' = RUNNABLE) /\
  (p_state p' = SLEEPING -> p_chan p <> pc /\ (b = true -> p_chan p <> Some (proc_chan ip))).
Proof.
  cbv zeta. unfold pexit. set (q := preparent me ip (pwake pc p)).
  assert (Hq : p_pid q = p_pid p /\ p_chan q = p_chan p /\
    p_parent q = (if decide (p_parent p = Some me) then Some ip else p_parent p) /\
    (p_state q = p_state p \/ p_state p = SLEEPING /\ p_state q = RUNNABLE) /\
    (p_state q = SLEEPING -> p_chan p <> pc)).
  { assert (Hw : pwake pc p = p /\ (p_state p = SLEEPING -> p_chan p <> pc) \/
      p_state p = SLEEPING /\ pwake pc p = pstate RUNNABLE p).
    { unfold pwake. destruct (_ && _) eqn:E; [right; by b2p|left]. split; [done|].
      intros Hs Hc. by rewrite !bool_decide_eq_true_2 in E. }
    unfold q, preparent. destruct Hw as [[-> Hns]|[Hs ->]]; cbn [pstate p_parent p_state p_pid p_chan p_killed];
      (destruct (decide (p_parent p = Some me)) as [Hp|Hp];
        [rewrite bool_decide_eq_true_2 by done|rewrite bool_decide_eq_false_2 by done]);
      cbn [pstate p_parent p_state p_pid p_chan p_killed]; split_and!; auto; done. }
  destruct Hq as (H1 & H2 & H3 & H4 & H5). destruct b; unfold id;
    [|split_and!; [done..|]; intros Hs; split; [auto|done]].
  unfold pwake. destruct (bool_decide (p_state q = SLEEPING) && _) eqn:E; cbn.
  - b2p. split_and!; try done. right. split; [|done]. destruct H4 as [H4|[? H4]]; congruence.
  - split_and!; auto. intros Hs. split; [auto|]. intros _ Hc.
    rewrite !bool_decide_eq_true_2 in E by congruence. done.
Qed.

Lemma exit_inv t me (b : bool) :
  inv t -> st t me = RUNNING -> at_fork t me = Normal -> me <> ip t ->
  (forall i, (i < NPROC)%nat -> child_of (T t !!! i) me -> st t i = ZOMBIE -> b = true) ->
  inv (upd me (pstate ZOMBIE)
    (tmap (pexit me (ip t) (proc_chan <$> p_parent (T t !!! me)) b) t)).
Proof.
  intros Hi Hme Hnorm Hnip Hb. pose proof (running_lt t me Hi Hme) as Hmelt.
  pose proof Hi as [Hlen [Hi1 Hi2] Hpar Horp Hun Hwt Hfork Hinj Hpid Hnpid Hself Hroot].
  set (pc := proc_chan <$> p_parent (T t !!! me)). set (F := pexit me (ip t) pc b). set (t' := upd _ _ _).
  assert (Hl : forall j, (j < NPROC)%nat -> T t' !!! j = if decide (j = me) then pstate ZOMBIE (F (T t !!! j)) else F (T t !!! j)).
  { intros j Hj. unfold t'. rewrite lookup_upd by (cbn; rewrite length_map; lia). rewrite lookup_tmap by lia. done. }
  assert (HF := fun j => exit_effect me (ip t) pc b (T t !!! j)). cbv zeta in HF. fold F in HF.
  assert (Hs : forall j, (j < NPROC)%nat -> st t' j = ZOMBIE /\ j = me \/ j <> me /\
     (st t' j = st t j \/ st t j = SLEEPING /\ st t' j = RUNNABLE)).
  { intros j Hj. unfold st. rewrite Hl by done. destruct (decide (j = me)) as [->|]; [by left|right].
    split; [done|]. apply (HF j). }
  assert (Hpp : forall j, (j < NPROC)%nat -> p_parent (T t' !!! j) =
     if decide (p_parent (T t !!! j) = Some me) then Some (ip t) else p_parent (T t !!! j)).
  { intros j Hj. rewrite Hl by done. destruct (HF j) as (_ & _ & H & _). by destruct (decide (j = me)). }
  assert (Hal : forall j, (j < NPROC)%nat -> j <> me -> alive (st t j) -> alive (st t' j)).
  { intros j Hj Hne Ha. unfold alive in *. destruct (Hs j Hj) as [[_ ?]|[_ [->|[_ ->]]]]; auto. done. }
  assert (Hpi : forall j, (j < NPROC)%nat -> p_pid (T t' !!! j) = p_pid (T t !!! j)).
  { intros j Hj. rewrite Hl by done. destruct (HF j) as (H & _). by destruct (decide (j = me)). }
  assert (Hu : forall j, (j < NPROC)%nat -> st t' j = UNUSED <-> st t j = UNUSED).
  { intros j Hj. destruct (Hs j Hj) as [[-> ->]|[_ [->|[-> ->]]]]; [|done|done]. rewrite Hme. done. }
  split; try done.
  - unfold t'. cbn. by rewrite length_alter, length_map.
  - split; [done|]. by apply Hal.
  - intros j q Hj. rewrite Hpp by done. destruct (decide _) as [Hp|Hp].
    + intros [= <-]. split; [done|]. by apply Hal.
    + intros He. destruct (Hpar j q Hj He). split; [done|]. apply Hal; [done| |done]. congruence.
  - intros j Hj Ha Hne. rewrite Hpp by done. destruct (decide _); [by exists (ip t)|]. apply Horp; [done| |done].
    destruct (Hs j Hj) as [[_ ->]|[_ [He|[He _]]]].
    + left. by apply alive_running.
    + by rewrite <- He.
    + left. rewrite He. unfold alive. auto.
  - intros j Hj Hu'. apply Hu in Hu'; [|done]. rewrite Hpp by done. by rewrite Hun by done.
  - intros q j Hq Hj Hsl Hch Hp Hz.
    assert (Hqm : q <> me) by (intros ->; destruct (Hs me Hmelt) as [[H _]|[? _]]; congruence).
    assert (Hqs : st t q = SLEEPING) by (destruct (Hs q Hq) as [[? ?]|[_ [<-|[? ?]]]]; done).
    unfold st in Hsl. rewrite (Hl q) in Hsl, Hch by done. destruct (decide (q = me)); [done|].
    destruct (HF q) as (_ & Hc & _ & _ & Hw). rewrite Hc in Hch. destruct (Hw Hsl) as [Hw1 Hw2].
    rewrite Hpp in Hp by done. destruct (decide (p_parent (T t !!! j) = Some me)) as [Hpj|Hpj].
    + injection Hp as <-. apply Hw2; [|done]. apply (Hb j); [done..|].
      destruct (Hs j Hj) as [[_ ->]|[_ [<-|[_ ?]]]]; [by apply Hself in Hpj|done|congruence].
    + destruct (Hs j Hj) as [[_ ->]|[_ [He|[_ ?]]]]; [|rewrite He in Hz; by apply (Hwt q j)|congruence].
      apply Hw1. rewrite Hch. unfold pc. by rewrite Hp.
  - intros q np Hf. destruct (Hfork q np Hf) as (H1 & H2 & H3 & H4 & H5 & H6).
    assert (q <> me).
    { intros ->. assert (Hf' : forking t me np) by exact Hf. unfold forking in Hf'. rewrite Hnorm in Hf'.
      destruct Hf' as [|[|]]; done. }
    rewrite Hpp by done. split_and!; try done.
    + destruct (Hs np H1) as [[_ ->]|[_ [->|[? _]]]]; [congruence|done|congruence].
    + destruct (Hs q H3) as [[_ ->]|[_ [->|[? ?]]]]; [done|done|by right].
    + intros Hfl. change (at_fork t' q) with (at_fork t q) in Hfl. rewrite H5 by done. destruct (decide _); [congruence|done].
    + intros Hfl. change (at_fork t' q) with (at_fork t q) in Hfl. by rewrite H6 by done.
  - intros i j Hi' Hj. rewrite !Hpi by done. rewrite !Hu by done. by apply Hpid.
  - intros i Hi'. rewrite Hpi, Hu by done. by apply Hnpid.
  - intros i Hi'. rewrite Hpp by done. destruct (decide _) as [Hp|]; [|by apply Hself].
    intros [= He]. rewrite <- He, Hroot in Hp. done.
  - change (ip t') with (ip t). rewrite Hpp by done. by rewrite Hroot.
Qed.

(** A step of [fork] by [me], from a stage in which it owns the slot. *)
Lemma fork_inv t me np k f :
  inv t -> st t me = RUNNING -> forking t me np ->
  stage_ok me np k (f (T t !!! np)) ->
  p_pid (f (T t !!! np)) = p_pid (T t !!! np) ->
  inv (set_fork me k (upd np f t)).
Proof.
  intros Hi Hme Hf Hk Hpid. destruct (inv_fork t Hi me np Hf) as (Hnp & Hemb & _).
  pose proof (inv_len t Hi) as Hlen.
  replace (upd np f t) with (MkTab (alter (fun _ => f (T t !!! np)) np (T t)) (at_fork t) (ip t) (npid t)).
  2: { unfold upd. f_equal. apply list_alter_ext; [|done]. intros x Hx. f_equal.
       by rewrite (list_lookup_total_correct _ _ _ Hx). }
  apply slot_step; try done.
  - by right.
  - intros q Hne Hq. apply Hne. by eapply (inv_fork_inj t Hi).
  - intros np' Hf'. unfold forking in *. destruct (at_fork t me); naive_solver.
  - intros _. rewrite Hpid. split; [apply (inv_npid t Hi); [done|congruence]|].
    intros j Hj Hne Hu He. apply Hne. apply (inv_pid t Hi); congruence.
Qed.

Lemma tstep_inv t t' : inv t -> tstep t t' -> inv t'.
Proof.
  intros Hi Hst. pose proof (inv_len t Hi) as Hlen.
  destruct Hst as [|me np Hnp Hme Hk Hu|me np Hme Hk|me np Hme Hk|me np Hme Hk|me np Hme Hk|me np Hme Hk
    |ch|i Hii|me i Hii Hme Hz Hc|me Hme Hk Hno|me ch Hme Hk Hch|me Hme|me b Hme Hk Hip Hb|i Hii Hr|me Hme].
  - done.
  - assert (Hno : forall q, ~ forking t q np) by (intros q (_ & ? & _)%(inv_fork t Hi); congruence).
    replace (alter (pembryo (npid t)) np (T t)) with (alter (fun _ => pembryo (npid t) (T t !!! np)) np (T t)).
    2: { apply list_alter_ext; [|done]. intros x Hx. f_equal. by rewrite (list_lookup_total_correct _ _ _ Hx). }
    apply slot_step; try done; [by left|unfold forking; intros np'; rewrite Hk; intros [|[|]]; done| |lia|].
    + cbn. split_and!; [done..|]. by apply (inv_unused t Hi).
    + intros _. cbn. split; [lia|]. intros j Hj _ Huj. pose proof (inv_npid t Hi j Hj Huj). lia.
  - assert (Hf : forking t me np) by (unfold forking; auto).
    replace t with (upd np id t) by (destruct t; unfold upd; cbn; f_equal; apply list_alter_id; done).
    destruct (inv_fork t Hi me np Hf) as (_ & He & _ & _ & _ & Hn).
    apply fork_inv; try done. cbn. split_and!; try done. apply Hn. congruence.
  - assert (Hf : forking t me np) by (unfold forking; auto).
    destruct (inv_fork t Hi me np Hf) as (_ & He & _ & _ & _ & Hn).
    apply fork_inv; try done. cbn. left. split; [done|]. apply Hn. congruence.
  - assert (Hf : forking t me np) by (unfold forking; auto).
    destruct (inv_fork t Hi me np Hf) as (_ & He & _). apply fork_inv; done.
  - assert (Hf : forking t me np) by (unfold forking; auto).
    destruct (inv_fork t Hi me np Hf) as (_ & He & _ & _ & _ & Hn).
    apply fork_inv; try done. cbn. left. split; [done|]. apply Hn. congruence.
  - assert (Hf : forking t me np) by (unfold forking; auto).
    destruct (inv_fork t Hi me np Hf) as (_ & He & _ & _ & Hn & _).
    apply fork_inv; try done. cbn. right. split; [done|]. by apply Hn.
  - by apply wakeup_inv.
  - by apply kill_inv.
  - by eapply reap_inv.
  - pose proof (running_lt t me Hi Hme). apply alive_upd; try done; try (by apply alive_running).
    + unfold alive. auto.
    + intros np. unfold forking. rewrite Hk. intros [|[|]]; done.
  - pose proof (running_lt t me Hi Hme). apply alive_upd; try done; try (by apply alive_running).
    + unfold alive. auto.
    + intros np. unfold forking. rewrite Hk. intros [|[|]]; done.
    + intros _ [= He]. by destruct (Hch me).
  - pose proof (running_lt t me Hi Hme). apply alive_upd; try done; [by apply alive_running|]. unfold alive. auto.
  - by apply exit_inv.
  - apply alive_upd; try done; unfold alive; auto.
  - pose proof (running_lt t me Hi Hme). apply alive_upd; try done; try (by apply alive_running).
    intros np _. cbn. fold (st t me). by rewrite Hme.
Qed.

(** All that can happen to the table. *)
Definition reachable : tab -> tab -> Prop := rtc tstep.
Lemma life_inv t0 t : inv t0 -> reachable t0 t -> inv t.
Proof. intros Hi Hr. induction Hr as [|x y z Hxy _ IH]; [done|]. by eapply IH, tstep_inv. Qed.
End Life.
