(* ===== verification/Machine.v ===== *)
(** Processes on several processors.

    [Module Effects] reads off what the code of [proc.c] does to the part of the process table
    that others see.  [Module Machine] runs that code on any number of processors and shows
    that every step of the machine is made of steps of the specification in [ProcSpec.v], and
    that no process runs on two processors. *)

From S2P Require Import Prelude Params Spinlock Sleeplock CString Kalloc Proc ProcSpec.

(** ** The code, seen from outside *)
Module Effects.
Import Proc Table Life.

Section effects.
Context {W : Type} `{!Services W}.
Implicit Types s : (@kst W).

(** What the rest of the machine sees of a processor's state. *)
Record obs := MkObs {
  o_T : list pub; o_proc : option nat; o_lock : Klock.t; o_init : option nat; o_next : Z
}.
Definition obs_of (s : @kst W) : obs :=
  MkObs (map pub_of (procs s)) (cproc s) (plock s) (initproc s) (nextpid s).
Definition with_T (f : list pub -> list pub) (o : obs) : obs :=
  MkObs (f (o_T o)) (o_proc o) (o_lock o) (o_init o) (o_next o).
Definition with_lock (l : Klock.t) (o : obs) : obs := MkObs (o_T o) (o_proc o) l (o_init o) (o_next o).
Definition with_next (n : Z) (o : obs) : obs := MkObs (o_T o) (o_proc o) (o_lock o) (o_init o) n.
Definition with_proc (p : option nat) (o : obs) : obs := MkObs (o_T o) p (o_lock o) (o_init o) (o_next o).

(** Code that changes nothing of it. *)
Definition quiet {A} (m : M (@kst W) A) : Prop := forall s a s', m s = Ret a s' -> obs_of s' = obs_of s.

Lemma quiet_bind {A B} (m : M (@kst W) A) (k : A -> M (@kst W) B) :
  quiet m -> (forall a, quiet (k a)) -> quiet (bind m k).
Proof. intros Hm Hk s b s' (a & s1 & H1 & H2)%bind_inv. rewrite (Hk _ _ _ _ H2). by eapply Hm. Qed.
Lemma quiet_ret {A} (a : A) : quiet (ret a).
Proof. by intros s b s' [= _ ->]. Qed.
Lemma quiet_reads {A} (f : @kst W -> A) : quiet (reads f).
Proof. by intros s b s' [= _ ->]. Qed.
Lemma quiet_sv {A} (m : M W A) : quiet (sv m).
Proof. intros s b s'. unfold sv, zoom. destruct (m (w s)); intros; simplify_eq. done. Qed.
Lemma quiet_when b (m : M (@kst W) unit) : quiet m -> quiet (when b m).
Proof. intros Hm. destruct b; [done|apply quiet_ret]. Qed.
Lemma quiet_for {A} (body : nat -> M (@kst W) (option A)) cnt : forall i,
  (forall i, quiet (body i)) -> quiet (for_loop body i cnt).
Proof.
  induction cnt as [|cnt IH]; intros i Hb; cbn [for_loop]; [apply quiet_ret|].
  apply quiet_bind; [done|]. intros [a|]; [apply quiet_ret|by apply IH].
Qed.

Lemma map_pub_alter (f : proc -> proc) (g : pub -> pub) i l :
  (forall p, pub_of (f p) = g (pub_of p)) -> map pub_of (alter f i l) = alter g i (map pub_of l).
Proof. intros H. revert i. induction l as [|p l IH]; intros [|i]; cbn; [done|done|by rewrite H|by rewrite <- IH]. Qed.

Lemma alter_alter (f g : pub -> pub) i (l : list pub) : alter f i (alter g i l) = alter (fun p => f (g p)) i l.
Proof. revert i. induction l as [|p l IH]; intros [|i]; cbn; [done..|]. f_equal. apply IH. Qed.

Lemma alter_ext_at (f g : pub -> pub) i (l : list pub) : f (l !!! i) = g (l !!! i) -> alter f i l = alter g i l.
Proof. revert i. induction l as [|p l IH]; intros [|i]; cbn; [done..| |]; intros H; f_equal; [done|by apply IH]. Qed.

Lemma upd_obs i f g s u s' :
  (forall p, pub_of (f p) = g (pub_of p)) -> Proc.upd i f s = Ret u s' -> obs_of s' = with_T (alter g i) (obs_of s).
Proof.
  intros H [= _ <-]. unfold obs_of, with_T. cbn. by rewrite (map_pub_alter f g) by done.
Qed.
Lemma alter_id_T i (l : list pub) : alter id i l = l.
Proof. by apply list_alter_id. Qed.
Lemma quiet_upd i f : (forall p, pub_of (f p) = pub_of p) -> quiet (Proc.upd i f).
Proof.
  intros H s u s' Hu. rewrite (upd_obs i f id s u s' H Hu). unfold with_T. rewrite alter_id_T. by destruct (obs_of s).
Qed.

Lemma acquire_obs s u s' :
  acquire_ptable s = Ret u s' -> plock s = false /\ obs_of s' = with_lock true (obs_of s).
Proof. intros [H ->]%acquire_ptable_inv. done. Qed.
Lemma release_obs s u s' :
  release_ptable s = Ret u s' -> plock s = true /\ obs_of s' = with_lock false (obs_of s).
Proof. intros [H ->]%release_ptable_inv. done. Qed.
Lemma curproc_obs s p s' : curproc s = Ret p s' -> cproc s = Some p /\ obs_of s' = obs_of s.
Proof. intros [H ->]%curproc_inv. done. Qed.
Lemma sched_obs k s ch s' :
  sched k s = Sleep ch s' -> ch = sched_chan /\ obs_of s' = obs_of s /\ exists p, cproc s = Some p.
Proof.
  intros (p & c & -> & Hp & _ & _ & ->)%sched_inv. split_and!; [done| |by exists p].
  unfold obs_of. cbn. by rewrite (map_pub_alter _ id), alter_id_T.
Qed.
Lemma wakeup1_obs ch s : table_ok s -> exists s', wakeup1 ch s = Ret tt s' /\
  obs_of s' = with_T (map (pwake ch)) (obs_of s) /\ table_ok s' /\ plock s' = plock s.
Proof.
  intros Hs. rewrite wakeup1_run by done. eexists. split; [done|]. split_and!; [|unfold table_ok; cbn; by rewrite length_map|done].
  unfold obs_of, with_T. cbn. f_equal. rewrite !map_map. apply map_ext. intros p. unfold wake, pwake. cbn.
  by destruct (_ && _).
Qed.
Lemma sv_table {A} (m : M W A) s a s' : sv m s = Ret a s' -> obs_of s' = obs_of s.
Proof. apply quiet_sv. Qed.

(** Reading off the effect of straight-line code. *)
Lemma reads_bind {A B} (f : @kst W -> A) (k : A -> M (@kst W) B) s : bind (reads f) k s = k (f s) s.
Proof. done. Qed.
Lemma modify_bind {B} (f : @kst W -> @kst W) (k : unit -> M (@kst W) B) s : bind (modify f) k s = k tt (f s).
Proof. done. Qed.

(** A search that changes nothing until it finds. *)
Lemma search_inv {A} (body : nat -> M (@kst W) (option A)) cnt : forall i s r s',
  (forall i s s', body i s = Ret None s' -> s' = s) ->
  for_loop body i cnt s = Ret r s' ->
  (r = None /\ s' = s /\ forall k, (i <= k < i + cnt)%nat -> body k s = Ret None s) \/
  exists j a, r = Some a /\ (i <= j < i + cnt)%nat /\ body j s = Ret (Some a) s' /\
    forall k, (i <= k < j)%nat -> body k s = Ret None s.
Proof.
  induction cnt as [|cnt IH]; intros i s r s' Hb; cbn [for_loop].
  - intros [= <- <-]. left. split_and!; [done..|]. intros; lia.
  - intros ([a|] & s1 & H1 & H)%bind_inv.
    + injection H as <- <-. right. exists i, a. split_and!; [done|lia..|done|intros; lia].
    + pose proof (Hb _ _ _ H1) as ->. destruct (IH _ _ _ _ Hb H) as [(-> & -> & Hk)|(j & a & ? & ? & ? & Hk)];
        [left; split_and!; [done..|]; intros k Hk'; destruct (decide (k = i)) as [->|]; [done|apply Hk; lia]|].
      right. exists j, a. split_and!; [done|lia..|done|]. intros k Hk'. destruct (decide (k = i)) as [->|]; [done|].
      apply Hk. lia.
Qed.

Lemma lookup_pub s i : table_ok s -> (i < NPROC)%nat -> map pub_of (procs s) !!! i = pub_of (getp s i).
Proof. intros Hs Hi. apply (list_lookup_total_fmap pub_of). by rewrite Hs. Qed.
Lemma table_obs s s' : table_ok s -> length (o_T (obs_of s')) = length (o_T (obs_of s)) -> table_ok s'.
Proof. unfold table_ok, obs_of. cbn. by rewrite !length_map => -> ->. Qed.
End effects.

Tactic Notation "binv" hyp(H) "as" simple_intropattern(a) simple_intropattern(s) simple_intropattern(H1) :=
  apply bind_inv in H as (a & s & H1 & H).
#[export] Hint Resolve quiet_bind quiet_ret quiet_reads quiet_sv quiet_when quiet_for quiet_upd : quiet.
Ltac quiet := repeat first
  [ apply quiet_ret | apply quiet_reads | apply quiet_sv | apply quiet_when | apply quiet_for
  | apply quiet_upd; intros; done | apply quiet_bind; [|intros ?] | progress intros ].

Section ops.
Context {W : Type} `{!Services W}.
Implicit Types s : (@kst W).

(** A process after a change of one slot. *)
Lemma pub_alter s s' g i j :
  table_ok s -> map pub_of (procs s') = alter g i (map pub_of (procs s)) -> (j < NPROC)%nat ->
  pub_of (getp s' j) = if decide (j = i) then g (pub_of (getp s j)) else pub_of (getp s j).
Proof.
  intros Hs HT Hj. assert (Hs' : table_ok s') by (unfold table_ok; by rewrite <- (length_map pub_of), HT, length_alter, length_map).
  rewrite <- (lookup_pub s'), <- (lookup_pub s), HT by done. case_decide; [subst|by rewrite list_lookup_total_alter_ne].
  by rewrite list_lookup_total_alter_eq by (by rewrite length_map, Hs).
Qed.
Lemma alter_table s s' g i :
  table_ok s -> map pub_of (procs s') = alter g i (map pub_of (procs s)) -> table_ok s'.
Proof. intros Hs HT. unfold table_ok. by rewrite <- (length_map pub_of), HT, length_alter, length_map. Qed.

(** *** Making a process *)
Lemma allocproc_slot_obs s r s' :
  table_ok s -> allocproc_slot s = Ret r s' -> plock s = false /\
  match r with
  | None => obs_of s' = obs_of s
  | Some np => (np < NPROC)%nat /\ state (getp s np) = UNUSED /\
      (forall k, (k < np)%nat -> state (getp s k) <> UNUSED) /\
      obs_of s' = with_next (i32 (nextpid s + 1)) (with_T (alter (pembryo (nextpid s)) np) (obs_of s))
  end.
Proof.
  intros Hs H. unfold allocproc_slot in H. binv H as [] s0 H0. apply acquire_ptable_inv in H0 as [Hl E0].
  split; [done|]. revert E0. generalize (cpu s0). intros c ->. binv H as r0 s1 H0. apply search_inv in H0.
  2: { intros i t t'. unfold bind, reads, ret. by intros [= _ ->]. }
  destruct H0 as [(-> & -> & _)|(j & x & -> & Hj & E & Hk)].
  - binv H as [] s2 H0. apply release_obs in H0 as [_ E]. injection H as <- <-. rewrite E.
    unfold obs_of, with_lock. cbn. by rewrite Hl.
  - unfold bind, reads, ret in E. cbn in E. change (getp (set_cpu c (set_plock true s)) j) with (getp s j) in E.
    case_bool_decide as Eu; [|done]. injection E as -> <-.
    binv H as [] s1 H1. apply (upd_obs _ _ (pstate EMBRYO)) in H1; [|done]. rewrite reads_bind in H.
    assert (nextpid s1 = nextpid s) as Hn by (by injection H1). rewrite Hn in H.
    binv H as [] s2 H2.
    apply (upd_obs _ _ (fun p => MkPub (p_state p) (nextpid s) (p_parent p) (p_chan p) (p_killed p))) in H2; [|done].
    rewrite modify_bind in H. binv H as [] s3 H3. apply release_obs in H3 as [_ E]. injection H as <- <-.
    split_and!; [lia|done| |].
    { intros k Hkj Hku. specialize (Hk k). unfold bind, reads, ret in Hk. change (getp (set_cpu c (set_plock true s)) k) with (getp s k) in Hk.
      rewrite bool_decide_true in Hk by done. by discriminate Hk; lia. }
    rewrite E.
    transitivity (with_lock false (with_next (i32 (nextpid s + 1)) (obs_of s2))); [done|]. rewrite H2, H1.
    unfold with_lock, with_next, with_T, obs_of. cbn. rewrite Hl. f_equal.
    by rewrite alter_alter.
Qed.

Lemma allocproc_stack_obs np s r s' :
  allocproc_stack np s = Ret r s' ->
  match r with
  | None => obs_of s' = with_T (alter (pstate UNUSED) np) (obs_of s)
  | Some n => n = np /\ obs_of s' = obs_of s
  end.
Proof.
  intros H. unfold allocproc_stack in H. binv H as k s1 H1. apply quiet_sv in H1.
  binv H as [] s2 H2. apply quiet_upd in H2; [|done]. rewrite H1 in H2. clear H1. destruct (k =? 0).
  - binv H as [] s3 H3. apply (upd_obs _ _ (pstate UNUSED)) in H3; [|done]. injection H as <- <-. by rewrite H3, H2.
  - binv H as [] s3 H3. apply quiet_upd in H3; [|done]. injection H as <- <-. split; [done|congruence].
Qed.

Lemma fork_files_quiet me np : quiet (W:=W) (fork_files me np).
Proof. unfold fork_files. quiet. Qed.

Lemma fork_copy_obs me np s r s' :
  fork_copy me np s = Ret r s' ->
  match r with
  | None => obs_of s' = with_T (alter (pstate UNUSED) np) (obs_of s)
  | Some n => obs_of s' = with_T (alter (pparent me) np) (obs_of s)
  end.
Proof.
  intros H. unfold fork_copy in H. rewrite reads_bind in H. binv H as pg s1 H1. apply quiet_sv in H1.
  binv H as [] s2 H2. apply quiet_upd in H2; [|done]. rewrite <- H1, <- H2. destruct (pg =? 0).
  - rewrite reads_bind in H. binv H as [] s3 H3. apply quiet_sv in H3. binv H as [] s4 H4.
    apply quiet_upd in H4; [|done].
    binv H as [] s5 H5. apply (upd_obs _ _ (pstate UNUSED)) in H5; [|done]. injection H as <- <-. congruence.
  - binv H as [] s3 H3. apply quiet_upd in H3; [|done].
    binv H as [] s4 H4. apply (upd_obs _ _ (pparent me)) in H4; [|done].
    rewrite <- H3, <- H4. binv H as [] s5 H5. apply quiet_upd in H5; [|done]. rewrite <- H5.
    binv H as [] s6 H6. apply fork_files_quiet in H6. binv H as d s7 H7. apply quiet_sv in H7.
    binv H as [] s8 H8. apply quiet_upd in H8; [|done]. binv H as [] s9 H9. apply quiet_upd in H9; [|done].
    rewrite reads_bind in H. injection H as <- <-. congruence.
Qed.

Lemma fork_publish_obs np s u s' :
  fork_publish np s = Ret u s' ->
  plock s = false /\ obs_of s' = with_T (alter (pstate RUNNABLE) np) (obs_of s).
Proof.
  intros H. unfold fork_publish in H. binv H as [] s1 H1. apply acquire_obs in H1 as [Hl E0].
  binv H as [] s2 H2. apply (upd_obs _ _ (pstate RUNNABLE)) in H2; [|done]. apply release_obs in H as [_ E].
  split; [done|]. rewrite E, H2, E0. unfold with_lock, with_T, obs_of. cbn. by rewrite Hl.
Qed.


(** *** Waking and killing *)
Lemma wakeup_obs ch s u s' :
  table_ok s -> wakeup ch s = Ret u s' ->
  plock s = false /\ obs_of s' = with_T (map (pwake (Some ch))) (obs_of s).
Proof.
  intros Hs H. unfold wakeup in H. binv H as [] s1 H1. apply acquire_obs in H1 as [Hl E1].
  assert (Hs1 : table_ok s1) by (apply (table_obs s); [done|by rewrite E1]).
  binv H as [] s2 H2. destruct (wakeup1_obs (Some ch) s1 Hs1) as (s2' & H2' & E2 & _ & _).
  rewrite H2' in H2. injection H2 as <-. apply release_obs in H as [_ E]. split; [done|].
  rewrite E, E2, E1. unfold with_lock, with_T, obs_of. cbn. by rewrite Hl.
Qed.

Lemma kill_obs n s r s' :
  table_ok s -> kill n s = Ret r s' -> plock s = false /\
  ((r = -1 /\ obs_of s' = obs_of s /\ forall i, (i < NPROC)%nat -> pid (getp s i) <> n) \/
   exists i, (i < NPROC)%nat /\ pid (getp s i) = n /\ r = 0 /\ obs_of s' = with_T (alter pkill i) (obs_of s)).
Proof.
  intros Hs H. unfold kill in H. binv H as [] s1 H1. apply acquire_ptable_inv in H1 as [Hl E1].
  revert E1. generalize (cpu s1). intros c ->. split; [done|]. binv H as r0 s2 H2. apply search_inv in H2.
  2: { intros i t t'. rewrite reads_bind. case_test; [|by intros [= ->]].
       intros Hk. binv Hk as [] t1 K1. binv Hk as [] t2 K2. binv Hk as [] t3 K3. done. }
  destruct H2 as [(-> & -> & Hk)|(j & x & -> & Hj & E & Hk)].
  - binv H as [] s2 H2. apply release_obs in H2 as [_ E]. injection H as <- <-. left. split_and!; [done| |].
    { rewrite E. unfold obs_of, with_lock. cbn. by rewrite Hl. }
    intros i Hi Hp. specialize (Hk i ltac:(lia)). rewrite reads_bind in Hk.
    change (getp (set_cpu c (set_plock true s)) i) with (getp s i) in Hk. rewrite Hp, Z.eqb_refl in Hk.
    binv Hk as [] t1 K1. binv Hk as [] t2 K2. binv Hk as [] t3 K3. done.
  - injection H as <- <-. right. exists j. rewrite reads_bind in E.
    change (getp (set_cpu c (set_plock true s)) j) with (getp s j) in E. destruct (Z.eqb_spec (pid (getp s j)) n); [|done].
    binv E as [] s3 H3.
    apply (upd_obs _ _ (fun p => MkPub (p_state p) (p_pid p) (p_parent p) (p_chan p) 1)) in H3; [|done].
    binv E as [] s4 H4. binv E as [] s5 H5. apply release_obs in H5 as [_ E5]. injection E as <- <-.
    split_and!; [lia|done|done|]. rewrite E5. clear E5.
    assert (Hst : map pub_of (procs s) !!! j = pub_of (getp s j)) by (apply lookup_pub; [done|lia]).
    assert (E4 : obs_of s4 = with_T (alter pkill j) (obs_of (set_cpu c (set_plock true s)))).
    { unfold when in H4. case_bool_decide as Es.
      - apply (upd_obs _ _ (pstate RUNNABLE)) in H4; [|done]. rewrite H4, H3. unfold with_T. cbn. f_equal.
        rewrite alter_alter. apply alter_ext_at. rewrite Hst. unfold pkill. cbn. by rewrite bool_decide_true.
      - injection H4 as <-. rewrite H3. unfold with_T. cbn. f_equal. apply alter_ext_at. rewrite Hst.
        unfold pkill. cbn. by rewrite bool_decide_false. }
    rewrite E4. unfold with_lock, with_T, obs_of. cbn. by rewrite Hl.
Qed.

(** *** Giving up the processor *)
Lemma yield_obs s ch s' :
  yield s = Sleep ch s' -> ch = sched_chan /\ plock s = false /\ exists me, cproc s = Some me /\
  obs_of s' = with_lock true (with_T (alter (pstate RUNNABLE) me) (obs_of s)).
Proof.
  intros H. unfold yield in H. apply bind_inv_sleep in H as [H|([] & s1 & H1 & H)]; [by apply acquire_ptable_awake in H|].
  apply acquire_obs in H1 as [Hl E1].
  apply bind_inv_sleep in H as [H|(me & s2 & H2 & H)]; [by apply curproc_awake in H|].
  apply curproc_obs in H2 as [Hp E2].
  apply bind_inv_sleep in H as [H|([] & s3 & H3 & H)]; [done|]. apply (upd_obs _ _ (pstate RUNNABLE)) in H3; [|done].
  apply sched_obs in H as (-> & E & _). split_and!; [done|done|]. exists me.
  split; [by injection E1 as _ <-|]. rewrite E, H3, E2, E1. done.
Qed.

Lemma sleep_sched_obs me c k s ch s' :
  sleep_sched me c k s = Sleep ch s' ->
  ch = sched_chan /\ obs_of s' = with_T (alter (psleep c) me) (obs_of s).
Proof.
  intros H. unfold sleep_sched in H. apply bind_inv_sleep in H as [H|([] & s1 & H1 & H)]; [done|].
  apply (upd_obs _ _ (fun p => MkPub (p_state p) (p_pid p) (p_parent p) (Some c) (p_killed p))) in H1; [|done].
  apply bind_inv_sleep in H as [H|([] & s2 & H2 & H)]; [done|]. apply (upd_obs _ _ (pstate SLEEPING)) in H2; [|done].
  apply sched_obs in H as (-> & E & _). split; [done|]. rewrite E, H2, H1. unfold with_T. cbn. f_equal.
  by rewrite alter_alter.
Qed.

Definition awake {A} (m : M (@kst W) A) : Prop := forall s ch s', m s <> Sleep ch s'.

Lemma sleep_obs c rel s ch s' :
  quiet rel -> awake rel -> sleep c rel s = Sleep ch s' ->
  ch = sched_chan /\ plock s = false /\ exists me, cproc s = Some me /\
  obs_of s' = with_lock true (with_T (alter (psleep c) me) (obs_of s)).
Proof.
  intros Hq Ha H. unfold sleep in H. apply bind_inv_sleep in H as [H|(r & s1 & H1 & H)]; [by apply myproc_awake in H|].
  apply myproc_inv in H1 as [-> Hs1]. destruct (cproc s) as [me|] eqn:Hp; [|done].
  assert (E1 : obs_of s1 = obs_of s) by (by rewrite Hs1).
  apply bind_inv_sleep in H as [H|([] & s2 & H2 & H)]; [by apply acquire_ptable_awake in H|].
  apply acquire_obs in H2 as [Hl E2].
  apply bind_inv_sleep in H as [H|([] & s3 & H3 & H)]; [by apply Ha in H|]. apply Hq in H3.
  apply sleep_sched_obs in H as (-> & E). split_and!; [done|by injection E1 as _ _ <-|].
  exists me. split; [done|]. by rewrite E, H3, E2, E1.
Qed.

Lemma pub_wake c p : pub_of (wake c p) = pwake c (pub_of p).
Proof. unfold wake, pwake. cbn. by destruct (_ && _). Qed.
Lemma pub_reparent me q p : pub_of (reparent me (Some q) p) = preparent me q (pub_of p).
Proof. unfold reparent, preparent. cbn. by case_bool_decide. Qed.

Lemma exit_reparent_obs me q s :
  table_ok s -> initproc s = Some q ->
  exists b s', exit_reparent me s = Ret tt s' /\
    obs_of s' = with_T (map (fun p => (if b : bool then pwake (Some (proc_chan q)) else id) (preparent me q p))) (obs_of s) /\
    (forall i, (i < NPROC)%nat -> parent (getp s i) = Some me -> state (getp s i) = ZOMBIE -> b = true).
Proof.
  intros Hs Hq. destruct (exit_reparent_run me s Hs) as (b & H & Hz). exists b. eexists. split_and!; [exact H| |].
  - unfold obs_of, with_T. cbn. rewrite Hq. f_equal. rewrite !map_map. apply map_ext. intros p.
    destruct b; cbn; [by rewrite pub_wake, pub_reparent|by rewrite pub_reparent].
  - intros i Hi. apply Hz. apply list_elem_of_lookup_total. exists i. by rewrite Hs.
Qed.

Lemma exit_zombie_obs me q s ch s' :
  table_ok s -> (me < NPROC)%nat -> initproc s = Some q -> exit_zombie me s = Sleep ch s' ->
  ch = sched_chan /\ plock s = false /\ exists b : bool,
  obs_of s' = with_lock true (with_T (fun l => alter (pstate ZOMBIE) me
     (map (pexit me q (proc_chan <$> parent (getp s me)) b) l)) (obs_of s)) /\
  (forall i, (i < NPROC)%nat -> parent (getp s i) = Some me -> state (getp s i) = ZOMBIE -> b = true).
Proof.
  intros Hs Hme Hq H. unfold exit_zombie in H.
  apply bind_inv_sleep in H as [H|([] & s1 & H1 & H)]; [by apply acquire_ptable_awake in H|].
  apply acquire_ptable_inv in H1 as [Hl E1]. revert E1. generalize (cpu s1). intros c ->.
  rewrite reads_bind in H. change (getp _ me) with (getp s me) in H.
  rewrite (bind_Ret _ _ _ _ _ (wakeup1_run (proc_chan <$> parent (getp s me)) (set_cpu c (set_plock true s)) Hs)) in H.
  set (wch := proc_chan <$> parent (getp s me)) in *. cbn [procs set_cpu set_plock set_procs] in H.
  set (s1 := set_procs _ _) in H.
  assert (Hs1 : table_ok s1) by (unfold table_ok; cbn; by rewrite length_map).
  destruct (exit_reparent_obs me q s1 Hs1 Hq) as (b & s2 & H2 & E2 & Hz).
  rewrite (bind_Ret _ _ _ _ _ H2) in H. apply bind_inv_sleep in H as [H|([] & s3 & H3 & H)]; [done|].
  apply (upd_obs _ _ (pstate ZOMBIE)) in H3; [|done]. apply sched_obs in H as (-> & E & _).
  split_and!; [done|done|]. exists b. split.
  - rewrite E, H3, E2. unfold with_lock, with_T, obs_of, s1. cbn. do 2 f_equal. rewrite !map_map.
    apply map_ext. intros p. unfold pexit. by rewrite <- pub_wake.
  - intros i Hi Hp Hzi. assert (Hg : getp s1 i = wake wch (getp s i)).
    { unfold getp, s1. cbn. apply (list_lookup_total_fmap (wake wch)). by rewrite Hs. }
    apply (Hz i Hi); rewrite Hg; [by rewrite wake_parent|by apply wake_zombie].
Qed.

(** *** Waiting *)
Lemma wait_free_obs i s u s' : wait_free i s = Ret u s' -> obs_of s' = with_T (alter preap i) (obs_of s).
Proof.
  intros H. unfold wait_free in H. rewrite reads_bind in H. binv H as [] s1 H1. apply quiet_sv in H1.
  binv H as [] s2 H2. apply quiet_upd in H2; [|done]. binv H as [] s3 H3. apply quiet_sv in H3.
  rewrite H2, H1 in H3. clear H1 H2.
  binv H as [] s4 H4. apply (upd_obs _ _ (fun p => MkPub (p_state p) 0 (p_parent p) (p_chan p) (p_killed p))) in H4; [|done].
  binv H as [] s5 H5. apply (upd_obs _ _ (fun p => MkPub (p_state p) (p_pid p) None (p_chan p) (p_killed p))) in H5; [|done].
  binv H as [] s6 H6. apply quiet_upd in H6; [|done].
  binv H as [] s7 H7. apply (upd_obs _ _ (fun p => MkPub (p_state p) (p_pid p) (p_parent p) (p_chan p) 0)) in H7; [|done].
  apply (upd_obs _ _ (pstate UNUSED)) in H; [|done]. rewrite H, H7, H6, H5, H4, H3.
  unfold with_T. cbn. f_equal. by rewrite !alter_alter.
Qed.

Lemma wait_scan_obs me cnt : forall i hk s r s',
  wait_scan me i cnt hk s = Ret r s' ->
  match r with
  | inr _ => s' = s /\ forall j, (i <= j < i + cnt)%nat -> parent (getp s j) = Some me -> state (getp s j) <> ZOMBIE
  | inl n => exists j, (i <= j < i + cnt)%nat /\ parent (getp s j) = Some me /\ state (getp s j) = ZOMBIE /\
      n = pid (getp s j) /\ plock s = true /\ obs_of s' = with_lock false (with_T (alter preap j) (obs_of s))
  end.
Proof.
  induction cnt as [|cnt IH]; intros i hk s r s' H; cbn [wait_scan] in H.
  - injection H as <- <-. split; [done|]. intros; lia.
  - rewrite reads_bind in H. destruct (bool_decide (parent _ = _)) eqn:Ep; cbn [negb] in H; b2p.
    + destruct (bool_decide (state _ = _)) eqn:Ez; b2p.
      * binv H as [] s1 H1. apply wait_free_obs in H1. binv H as [] s2 H2. apply release_obs in H2 as [Hl E].
        injection H as <- <-. exists i. split_and!; [lia|lia|done..|by injection H1 as _ _ <-|]. by rewrite E, H1.
      * apply IH in H. destruct r as [n|hk']; [destruct H as (j & ? & ?); exists j; split; [lia|done]|].
        destruct H as [-> H]. split; [done|]. intros j Hj Hpj. destruct (decide (j = i)) as [->|]; [done|]. apply H; [lia|done].
    + apply IH in H. destruct r as [n|hk']; [destruct H as (j & ? & ?); exists j; split; [lia|done]|].
      destruct H as [-> H]. split; [done|]. intros j Hj Hpj. destruct (decide (j = i)) as [->|]; [done|]. apply H; [lia|done].
Qed.

Lemma getp_alter s s' i f :
  procs s' = alter f i (procs s) -> (forall p, state (f p) = state p /\ parent (f p) = parent p) ->
  forall j, (j < NPROC)%nat -> table_ok s -> state (getp s' j) = state (getp s j) /\ parent (getp s' j) = parent (getp s j).
Proof.
  intros H Hf j Hj Hs. unfold getp. rewrite H. destruct (decide (j = i)) as [->|].
  - rewrite list_lookup_total_alter_eq by (by rewrite Hs). apply Hf.
  - by rewrite list_lookup_total_alter_ne.
Qed.

(** Freeing pages does not sleep. *)
Class FreeAwake := MkFreeAwake {
  kfree_awake k (x : W) ch x' : sv_kfree k x <> Sleep ch x';
  freevm_awake k (x : W) ch x' : sv_freevm k x <> Sleep ch x'
}.
Context {Hawake : FreeAwake}.

Lemma sv_awake {A} (m : M W A) : (forall x ch x', m x <> Sleep ch x') -> awake (sv m).
Proof. intros H s ch s'. unfold sv, zoom. destruct (m (w s)) eqn:E; try done. by apply H in E. Qed.
Lemma bind_awake {A B} (m : M (@kst W) A) (k : A -> M (@kst W) B) :
  awake m -> (forall a, awake (k a)) -> awake (bind m k).
Proof. intros Hm Hk s ch s' [H|(a & s1 & _ & H)]%bind_inv_sleep; [by apply Hm in H|by apply Hk in H]. Qed.
Lemma wait_free_awake i : awake (wait_free i).
Proof.
  unfold wait_free. repeat (apply bind_awake; [|intros ?]); try done; apply sv_awake; intros; [apply kfree_awake|apply freevm_awake].
Qed.
Lemma wait_scan_awake me cnt : forall i hk, awake (wait_scan me i cnt hk).
Proof.
  induction cnt as [|cnt IH]; intros i hk; cbn [wait_scan]; [done|].
  apply bind_awake; [done|]. intros p. destruct (negb _); [apply IH|]. destruct (bool_decide _); [|apply IH].
  apply bind_awake; [apply wait_free_awake|]. intros _. apply bind_awake; [|done]. intros t ch t'. apply release_ptable_awake.
Qed.

Definition no_zombie_child (me : nat) s : Prop :=
  forall j, (j < NPROC)%nat -> parent (getp s j) = Some me -> state (getp s j) <> ZOMBIE.

#[local] Strategy expand [wait_loop].
Lemma wait_loop_ret me s r s' :
  wait_loop me s = Ret r s' -> plock s = true /\
  (obs_of s' = with_lock false (obs_of s) \/
   exists j, (j < NPROC)%nat /\ parent (getp s j) = Some me /\ state (getp s j) = ZOMBIE /\ r = pid (getp s j) /\
    obs_of s' = with_lock false (with_T (alter preap j) (obs_of s))).
Proof.
  intros H. unfold wait_loop in H. binv H as q s1 H1. apply wait_scan_obs in H1. destruct q as [n|hk].
  - injection H as <- <-. destruct H1 as (j & Hj & Hp & Hz & Hn & Hl & E). split; [done|].
    right. exists j. split_and!; [lia|done..].
  - destruct H1 as [-> _]. rewrite reads_bind in H. destruct (_ || _).
    + binv H as [] s2 H2. apply release_obs in H2 as [Hl E]. split; [done|]. left. by injection H as _ <-.
    + binv H as [] s2 H2. exfalso. unfold sleep_sched in H2. binv H2 as [] s3 H3. binv H2 as [] s4 H4.
      by apply sched_not_ret in H2.
Qed.
Lemma wait_loop_sleep me s ch s' :
  wait_loop me s = Sleep ch s' ->
  ch = sched_chan /\ no_zombie_child me s /\ obs_of s' = with_T (alter (psleep (proc_chan me)) me) (obs_of s).
Proof.
  intros H. unfold wait_loop in H. apply bind_inv_sleep in H as [H|(q & s1 & H1 & H)]; [by apply wait_scan_awake in H|].
  apply wait_scan_obs in H1. destruct q as [n|hk]; [done|]. destruct H1 as [-> Hz]. rewrite reads_bind in H.
  destruct (_ || _).
  - apply bind_inv_sleep in H as [H|(q & s1 & H1 & H)]; [by apply release_ptable_awake in H|done].
  - apply bind_inv_sleep in H as [H|(q & s1 & H1 & H)]; [|done]. apply sleep_sched_obs in H as [-> E].
    split_and!; [done| |done]. intros j Hj. apply Hz. lia.
Qed.

Lemma wait_obs_ret s r s' :
  wait s = Ret r s' -> plock s = false /\ exists me, cproc s = Some me /\
  (obs_of s' = obs_of s \/
   exists j, (j < NPROC)%nat /\ parent (getp s j) = Some me /\ state (getp s j) = ZOMBIE /\ r = pid (getp s j) /\
    obs_of s' = with_T (alter preap j) (obs_of s)).
Proof.
  intros H. unfold wait in H. binv H as me s1 H1. apply curproc_inv in H1 as [Hme E1]. binv H as [] s2 H2.
  apply acquire_ptable_inv in H2 as [Hl E2]. rewrite E1 in Hl, E2.
  assert (E2' : obs_of s2 = with_lock true (obs_of s)) by (by rewrite E2).
  assert (Hg : forall j, getp s2 j = getp s j) by (intros; by rewrite E2). clear E1 E2.
  split; [done|]. exists me. split; [done|].
  apply wait_loop_ret in H as [_ [E|(j & Hj & Hp & Hz & Hr & E)]]; [left|right; exists j; rewrite Hg in Hp, Hz, Hr; split_and!; try done];
    rewrite E, E2'; unfold with_lock, obs_of, with_T; cbn in *; by rewrite Hl.
Qed.
Lemma wait_obs_sleep s ch s' :
  wait s = Sleep ch s' -> ch = sched_chan /\ plock s = false /\ exists me, cproc s = Some me /\ no_zombie_child me s /\
  obs_of s' = with_lock true (with_T (alter (psleep (proc_chan me)) me) (obs_of s)).
Proof.
  intros H. unfold wait in H. apply bind_inv_sleep in H as [H|(me & s1 & H1 & H)]; [by apply curproc_awake in H|].
  apply curproc_inv in H1 as [Hme E1]. apply bind_inv_sleep in H as [H|([] & s2 & H2 & H)]; [by apply acquire_ptable_awake in H|].
  apply acquire_ptable_inv in H2 as [Hl E2]. rewrite E1 in Hl, E2.
  assert (E2' : obs_of s2 = with_lock true (obs_of s)) by (by rewrite E2).
  assert (Hg : forall j, getp s2 j = getp s j) by (intros; by rewrite E2). clear E1 E2.
  apply wait_loop_sleep in H as (-> & Hz & E). split_and!; [done|done|]. exists me. split_and!; [done| |by rewrite E, E2'].
  intros j Hj. rewrite <- (Hg j). by apply Hz.
Qed.

(** *** Being switched to *)
Lemma quiet_modify_first x : quiet (W:=W) (modify (set_first x)).
Proof. by intros s u s' [= _ <-]. Qed.
Lemma on_cpu_obs {A} (m : M Cpu.cpu A) : quiet (W:=W) (on_cpu m).
Proof. intros s a s'. unfold on_cpu, zoom. destruct (m (cpu s)); intros; simplify_eq. done. Qed.
Lemma set_intena_run x s : exists c, on_cpu (Cpu.set_intena x) s = Ret tt (set_cpu c s).
Proof. eexists. reflexivity. Qed.

Lemma resume_ret relock s r s' :
  table_ok s -> quiet relock -> resume relock s = Ret r s' -> plock s = true /\ exists me, cproc s = Some me /\
  (obs_of s' = with_lock false (obs_of s) \/
   obs_of s' = with_lock false (with_T (alter pnochan me) (obs_of s)) \/
   exists j, (j < NPROC)%nat /\ parent (getp s j) = Some me /\ state (getp s j) = ZOMBIE /\
     obs_of s' = with_lock false (with_T (fun l => alter preap j (alter pnochan me l)) (obs_of s))).
Proof.
  intros Hs Hq H. unfold resume in H. binv H as me s1 H1. apply curproc_inv in H1 as [Hme E1].
  unfold same_but_cpu in E1. revert E1. generalize (cpu s1). intros c0 ->. rewrite reads_bind in H.
  change (getp (set_cpu c0 s) me) with (getp s me) in H.
  destruct (at_ (ctx (getp s me))).
  - binv H as [] s2 H2. unfold forkret in H2. binv H2 as [] s3 H3. apply release_obs in H3 as [Hl E].
    split; [exact Hl|]. exists me. split; [done|]. left. injection H as _ <-.
    transitivity (obs_of s3); [|by rewrite E].
    revert H2. match goal with |- ?m s3 = _ -> _ => assert (Hm : quiet m); [|apply Hm] end.
    pose proof quiet_modify_first. quiet; auto.
  - binv H as [] s2 H2. apply on_cpu_obs in H2. binv H as [] s3 H3. apply release_obs in H3 as [Hl E].
    injection H as _ <-. split; [by injection H2 as _ _ <-|]. exists me. split; [done|]. left. by rewrite E, H2.
  - binv H as [] s2 H2. apply on_cpu_obs in H2. binv H as [] s3 H3. apply (upd_obs _ _ pnochan) in H3; [|done].
    binv H as [] s4 H4. apply release_obs in H4 as [Hl E]. binv H as [] s5 H5. apply Hq in H5. injection H as _ <-.
    split; [injection H3; injection H2; congruence|]. exists me. split; [done|]. right; left. by rewrite H5, E, H3, H2.
  - destruct (set_intena_run (saved_intena (ctx (getp s me))) (set_cpu c0 s)) as [c1 E1].
    rewrite (bind_Ret _ _ _ _ _ E1) in H. binv H as [] s3 H3. pose proof H3 as H3'. apply (upd_obs _ _ pnochan) in H3; [|done].
    injection H3' as H3'.
    assert (Hg : forall j, (j < NPROC)%nat -> state (getp s3 j) = state (getp s j) /\ parent (getp s3 j) = parent (getp s j)).
    { intros j Hj. apply (getp_alter _ _ me (set_chan None)); [by rewrite <- H3'|done..]. }
    binv H as n s4 H4. injection H as _ <-.
    apply wait_loop_ret in H4 as [Hl H4]. split; [by injection H3 as _ _ <-|]. exists me. split; [done|]. right.
    destruct H4 as [E|(j & Hj & Hp & Hz & _ & E)]; [left; by rewrite E, H3|].
    right. exists j. destruct (Hg j Hj) as [<- <-]. split_and!; [done..|]. by rewrite E, H3.
  - done.
Qed.
Lemma resume_sleep relock s ch s' :
  table_ok s -> at_ (ctx (getp s (default 0%nat (cproc s)))) = AtWait ->
  resume relock s = Sleep ch s' -> ch = sched_chan /\ exists me, cproc s = Some me /\ no_zombie_child me s /\
  obs_of s' = with_T (alter (psleep (proc_chan me)) me) (obs_of s).
Proof.
  intros Hs Hw H. unfold resume in H.
  apply bind_inv_sleep in H as [H|(me & s1 & H1 & H)]; [by apply curproc_awake in H|]. apply curproc_inv in H1 as [Hme E1].
  unfold same_but_cpu in E1. revert E1. generalize (cpu s1). intros c0 ->. rewrite reads_bind in H.
  change (getp (set_cpu c0 s) me) with (getp s me) in H. rewrite Hme in Hw. change (default 0%nat (Some me)) with me in Hw. rewrite Hw in H.
  destruct (set_intena_run (saved_intena (ctx (getp s me))) (set_cpu c0 s)) as [c1 E1].
  rewrite (bind_Ret _ _ _ _ _ E1) in H. apply bind_inv_sleep in H as [H|([] & s3 & H3 & H)]; [done|].
  pose proof H3 as H3'. apply (upd_obs _ _ pnochan) in H3; [|done]. injection H3' as H3'.
  assert (Hg : forall j, (j < NPROC)%nat -> state (getp s3 j) = state (getp s j) /\ parent (getp s3 j) = parent (getp s j)).
  { intros j Hj. apply (getp_alter _ _ me (set_chan None)); [by rewrite <- H3'|done..]. }
  apply bind_inv_sleep in H as [H|(n & s4 & H4 & H)]; [|done].
  apply wait_loop_sleep in H as (-> & Hz & E). split; [done|]. exists me. split_and!; [done| |].
  - intros j Hj. destruct (Hg j Hj) as [<- <-]. by apply Hz.
  - rewrite E, H3. unfold with_T. cbn. f_equal. by rewrite alter_alter.
Qed.

(** *** The scheduler *)
Lemma scheduler_enter_obs s u s' :
  scheduler_enter s = Ret u s' -> plock s = false /\ obs_of s' = with_lock true (obs_of s).
Proof.
  intros H. unfold scheduler_enter in H. binv H as [] s1 H1. apply on_cpu_obs in H1.
  apply acquire_obs in H as [Hl E]. rewrite E, H1. split; [by injection H1 as _ _ <-|done].
Qed.
Lemma scheduler_slot_obs i s b s' :
  scheduler_slot i s = Ret b s' ->
  if b then state (getp s i) = RUNNABLE /\ obs_of s' = with_proc (Some i) (with_T (alter (pstate RUNNING) i) (obs_of s))
  else obs_of s' = obs_of s.
Proof.
  intros H. unfold scheduler_slot in H. rewrite reads_bind in H.
  destruct (bool_decide _) eqn:E; cbn [negb] in H; b2p; [|by injection H as <- <-].
  rewrite modify_bind in H. binv H as [] s1 H1. apply quiet_sv in H1. binv H as [] s2 H2.
  apply (upd_obs _ _ (pstate RUNNING)) in H2; [|done]. injection H as <- <-. split; [done|]. by rewrite H2, H1.
Qed.
Lemma scheduler_back_obs s u s' : scheduler_back s = Ret u s' -> obs_of s' = with_proc None (obs_of s).
Proof.
  intros H. unfold scheduler_back in H. binv H as [] s1 H1. apply quiet_sv in H1. injection H as _ <-.
  transitivity (with_proc None (obs_of s1)); [done|]. by rewrite H1.
Qed.

(** *** The rest *)
Lemma growproc_quiet n : quiet (W:=W) (growproc n).
Proof.
  unfold growproc. apply quiet_bind; [by intros s a s' [_ ?]%curproc_obs|]. intros me. quiet.
  destruct (0 <? n); [quiet; destruct (_ =? 0); quiet|]. destruct (n <? 0); quiet. destruct (_ =? 0); quiet.
Qed.
Lemma exit_files_quiet me : quiet (W:=W) (exit_files me).
Proof. unfold exit_files. quiet. Qed.
End ops.
End Effects.

(** ** Several processors *)
Module Machine.
Import Proc Table Life Effects.

(** Where a processor is: outside the scheduler's loop, at slot [i] of the loop (holding the
    table's lock), having switched to process [i] which still holds the lock, or running
    process [i]. *)
Inductive mode := Idle | Scanning (i : nat) | Resuming (i : nat) | Running (i : nat).
Definition holds (d : mode) : bool :=
  match d with Scanning _ | Resuming _ => true | Idle | Running _ => false end.
Definition runs (d : mode) : option nat :=
  match d with Resuming i | Running i => Some i | Idle | Scanning _ => None end.

Record cpust := MkCpu { c_cpu : Cpu.cpu; c_proc : option nat; c_mode : mode }.

Section machine.
Context {W : Type} `{!Services W}.

(** The processors, the process table with its lock, and how far each process is in [fork]. *)
Record mach := MkMach {
  cpus : nat -> cpust; mlock : Klock.t; mprocs : list proc; minit : option nat; mnext : Z;
  mfirst : Z; mw : W; mfork : nat -> kpc
}.

Definition view (m : mach) (c : nat) : kst :=
  MkK (c_cpu (cpus m c)) (c_proc (cpus m c)) (mlock m) (mprocs m) (minit m) (mnext m) (mfirst m) (mw m).
Definition put (m : mach) (c : nat) (s : @kst W) (d : mode) (fk : nat -> kpc) : mach :=
  MkMach (<[c := MkCpu (cpu s) (cproc s) d]> (cpus m)) (plock s) (procs s) (initproc s) (nextpid s)
    (first s) (w s) fk.
Definition mode_of (m : mach) (c : nat) : mode := c_mode (cpus m c).

(** A step of processor [c].  Code that waits for [ptable.lock] is not a step; code that holds
    it is one, from [acquire] to [release] or [swtch]. *)
Inductive mstep (m : mach) : mach -> Prop :=
| m_enter c s : mode_of m c = Idle -> scheduler_enter (view m c) = Ret tt s ->
    mstep m (put m c s (Scanning 0) (mfork m))
| m_skip c i s : mode_of m c = Scanning i -> (i < NPROC)%nat -> scheduler_slot i (view m c) = Ret false s ->
    mstep m (put m c s (Scanning (S i)) (mfork m))
| m_pick c i s : mode_of m c = Scanning i -> (i < NPROC)%nat -> scheduler_slot i (view m c) = Ret true s ->
    mstep m (put m c s (Resuming i) (mfork m))
| m_leave c s : mode_of m c = Scanning NPROC -> scheduler_leave (view m c) = Ret tt s ->
    mstep m (put m c s Idle (mfork m))
| m_resume c i relock r s : mode_of m c = Resuming i -> quiet relock -> resume relock (view m c) = Ret r s ->
    mstep m (put m c s (Running i) (mfork m))
| m_rewait c i relock s s' : mode_of m c = Resuming i -> mfork m i = Normal ->
    at_ (ctx (mprocs m !!! i)) = AtWait ->
    resume relock (view m c) = Sleep sched_chan s -> scheduler_back s = Ret tt s' ->
    mstep m (put m c s' (Scanning (S i)) (mfork m))
| m_yield c i s s' : mode_of m c = Running i -> yield (view m c) = Sleep sched_chan s -> scheduler_back s = Ret tt s' ->
    mstep m (put m c s' (Scanning (S i)) (mfork m))
| m_sleep c i ch rel s s' : mode_of m c = Running i -> mfork m i = Normal -> (forall j, ch <> proc_chan j) ->
    quiet rel -> awake rel -> sleep ch rel (view m c) = Sleep sched_chan s -> scheduler_back s = Ret tt s' ->
    mstep m (put m c s' (Scanning (S i)) (mfork m))
| m_wait_sleep c i s s' : mode_of m c = Running i -> mfork m i = Normal ->
    wait (view m c) = Sleep sched_chan s -> scheduler_back s = Ret tt s' ->
    mstep m (put m c s' (Scanning (S i)) (mfork m))
| m_wait c i r s : mode_of m c = Running i -> mfork m i = Normal -> wait (view m c) = Ret r s ->
    mstep m (put m c s (Running i) (mfork m))
| m_exit c i s s' : mode_of m c = Running i -> mfork m i = Normal -> minit m <> Some i ->
    exit_zombie i (view m c) = Sleep sched_chan s -> scheduler_back s = Ret tt s' ->
    mstep m (put m c s' (Scanning (S i)) (mfork m))
| m_wakeup c i ch s : mode_of m c = Running i -> wakeup ch (view m c) = Ret tt s ->
    mstep m (put m c s (Running i) (mfork m))
| m_kill c i n r s : mode_of m c = Running i -> kill n (view m c) = Ret r s ->
    mstep m (put m c s (Running i) (mfork m))
| m_alloc c i np s : mode_of m c = Running i -> mfork m i = Normal -> mnext m < 2147483647 -> 0 <= mnext m ->
    allocproc_slot (view m c) = Ret (Some np) s ->
    mstep m (put m c s (Running i) (<[i := Alloced np]> (mfork m)))
| m_alloc_none c i s : mode_of m c = Running i -> mfork m i = Normal ->
    allocproc_slot (view m c) = Ret None s -> mstep m (put m c s (Running i) (mfork m))
| m_stack c i np r s : mode_of m c = Running i -> mfork m i = Alloced np ->
    allocproc_stack np (view m c) = Ret r s ->
    mstep m (put m c s (Running i) (<[i := match r with Some _ => Stacked np | None => Normal end]> (mfork m)))
| m_copy c i np r s : mode_of m c = Running i -> mfork m i = Stacked np ->
    fork_copy i np (view m c) = Ret r s ->
    mstep m (put m c s (Running i) (<[i := match r with Some _ => Filled np | None => Normal end]> (mfork m)))
| m_publish c i np s : mode_of m c = Running i -> mfork m i = Filled np -> fork_publish np (view m c) = Ret tt s ->
    mstep m (put m c s (Running i) (<[i := Normal]> (mfork m)))
| m_local {A} c i (op : M (@kst W) A) a s : mode_of m c = Running i -> quiet op -> op (view m c) = Ret a s ->
    mstep m (put m c s (Running i) (mfork m)).

Definition runnable_at (m : mach) (i : nat) : procstate := state (mprocs m !!! i).

(** Each running process is on exactly one processor, and the lock has one holder. *)
Record good (m : mach) : Prop := MkGood {
  g_len : length (mprocs m) = NPROC;
  g_init : exists q, minit m = Some q;
  g_mode c : c_proc (cpus m c) = runs (mode_of m c);
  g_run c i : c_proc (cpus m c) = Some i -> (i < NPROC)%nat /\ state (mprocs m !!! i) = RUNNING;
  g_excl c c' i : c_proc (cpus m c) = Some i -> c_proc (cpus m c') = Some i -> c = c';
  g_back i : (i < NPROC)%nat -> state (mprocs m !!! i) = RUNNING -> exists c, c_proc (cpus m c) = Some i;
  g_lock : mlock m = true <-> exists c, holds (mode_of m c) = true;
  g_holder c c' : holds (mode_of m c) = true -> holds (mode_of m c') = true -> c = c'
}.

Definition tab_of (m : mach) : tab :=
  MkTab (map pub_of (mprocs m)) (mfork m) (default 0%nat (minit m)) (mnext m).

Lemma st_tab m i : length (mprocs m) = NPROC -> (i < NPROC)%nat -> st (tab_of m) i = state (mprocs m !!! i).
Proof. intros Hl Hi. unfold st. cbn. rewrite (list_lookup_total_fmap pub_of) by (by rewrite Hl). done. Qed.

(** What processor [c] did, for the invariant: who runs afterwards, and who holds the lock. *)
Lemma put_good m c s d fk :
  good m -> length (procs s) = NPROC -> initproc s = minit m -> cproc s = runs d ->
  (forall i, (i < NPROC)%nat -> state (procs s !!! i) = RUNNING <->
     runs d = Some i \/ state (mprocs m !!! i) = RUNNING /\ c_proc (cpus m c) <> Some i) ->
  (forall i, runs d = Some i -> (i < NPROC)%nat /\ (c_proc (cpus m c) = Some i \/ state (mprocs m !!! i) <> RUNNING)) ->
  (holds d = plock s /\ (holds (mode_of m c) = true \/ mlock m = false) \/
   holds d = false /\ holds (mode_of m c) = false /\ plock s = mlock m) ->
  good (put m c s d fk).
Proof.
  intros [Hl Hin Hm Hr He Hb Hk Hh] Hlen Hinit Hd Hrun Hmine Hlock.
  assert (Hc : forall c', cpus (put m c s d fk) c' = if decide (c' = c) then MkCpu (cpu s) (cproc s) d else cpus m c').
  { intros c'. cbn. unfold insert, fn_insert. by repeat case_decide. }
  assert (Hother : forall c' i, c' <> c -> c_proc (cpus m c') = Some i ->
    runs d <> Some i /\ c_proc (cpus m c) <> Some i /\ state (procs s !!! i) = RUNNING).
  { intros c' i Hne Hc'. assert (c_proc (cpus m c) <> Some i) by (intros Hx; by destruct (Hne (He _ _ _ Hc' Hx))).
    destruct (Hr _ _ Hc') as [Hi Hs]. split_and!; [|done|apply Hrun; auto].
    intros Hx. by destruct (Hmine i Hx) as [_ [?|?]]. }
  split; unfold mode_of; cbn [mprocs minit mlock put]; try done.
  - by rewrite Hinit.
  - intros c'. rewrite Hc. case_decide; [done|apply Hm].
  - intros c' i. rewrite Hc. case_decide as Hcc; cbn [c_proc].
    + rewrite Hd. intros Hx. destruct (Hmine i Hx) as [Hi _]. split; [done|]. apply Hrun; auto.
    + intros Hx. destruct (Hother c' i Hcc Hx) as (_ & _ & ?). split; [|done]. by apply (Hr c').
  - intros c1 c2 i. rewrite !Hc. case_decide as E1; case_decide as E2; cbn [c_proc]; rewrite ?Hd; [congruence|..].
    + intros Hx Hy. by destruct (Hother _ _ E2 Hy) as (? & _).
    + intros Hx Hy. by destruct (Hother _ _ E1 Hx) as (? & _).
    + apply He.
  - intros i Hi Hs. apply Hrun in Hs as [Hx|[Hs Hx]]; [exists c; rewrite Hc, decide_True by done; cbn; congruence| |done].
    destruct (Hb i Hi Hs) as [c' Hc']. exists c'. rewrite Hc, decide_False by congruence. done.
  - split.
    + intros Hp. destruct Hlock as [[Hx _]|(Hx & Hy & Hz)].
      * exists c. rewrite Hc, decide_True by done. cbn. congruence.
      * rewrite Hz in Hp. apply Hk in Hp as [c' Hc']. exists c'. rewrite Hc, decide_False by congruence. done.
    + intros [c' Hx]. rewrite Hc in Hx. case_decide as Ec; cbn in Hx.
      * destruct Hlock as [[? _]|(? & _)]; congruence.
      * destruct Hlock as [[_ Hy]|(_ & _ & Hz)]; [|rewrite Hz; apply Hk; by exists c'].
        exfalso. destruct Hy as [Hy|Hy]; [by apply Ec, Hh|]. assert (mlock m = true) by (apply Hk; by exists c'). congruence.
  - intros c1 c2. rewrite !Hc. case_decide as E1; case_decide as E2; cbn; intros Hx Hy; [congruence|..].
    + destruct Hlock as [[_ [Hz|Hz]]|(? & _)]; [by subst; apply Hh| |congruence].
      assert (mlock m = true) by (apply Hk; by exists c2). congruence.
    + destruct Hlock as [[_ [Hz|Hz]]|(? & _)]; [by subst; apply Hh| |congruence].
      assert (mlock m = true) by (apply Hk; by exists c1). congruence.
    + by apply Hh.
Qed.

(** The running processes of a table. *)
Definition R (l : list pub) (i : nat) : Prop := p_state (l !!! i) = RUNNING.
Lemma R_alter g k l j : (j < length l)%nat ->
  R (alter g k l) j <-> if decide (j = k) then p_state (g (l !!! j)) = RUNNING else R l j.
Proof.
  intros Hj. unfold R. case_decide as E; [subst; by rewrite list_lookup_total_alter_eq|by rewrite list_lookup_total_alter_ne].
Qed.
Lemma R_map f l j : (forall p, p_state (f p) = RUNNING <-> p_state p = RUNNING) -> (j < length l)%nat ->
  R (map f l) j <-> R l j.
Proof. intros Hf Hj. unfold R. rewrite (list_lookup_total_fmap f) by done. apply Hf. Qed.
Lemma pwake_R ch p : p_state (pwake ch p) = RUNNING <-> p_state p = RUNNING.
Proof. destruct (pwake_cases ch p) as [->|[Hs ->]]; [done|]. rewrite Hs. done. Qed.
Lemma pexit_R me q ch b p : p_state (pexit me q ch b p) = RUNNING <-> p_state p = RUNNING.
Proof.
  unfold pexit. assert (H : p_state (preparent me q (pwake ch p)) = RUNNING <-> p_state p = RUNNING).
  { rewrite <- (pwake_R ch p). unfold preparent. by case_bool_decide. }
  destruct b; cbn; rewrite <- H; [apply pwake_R|done].
Qed.

Definition same_running (l l' : list pub) : Prop :=
  length l' = length l /\ forall j, (j < length l)%nat -> R l' j <-> R l j.
Definition stops_running (i : nat) (l l' : list pub) : Prop :=
  length l' = length l /\ forall j, (j < length l)%nat -> R l' j <-> R l j /\ j <> i.

Lemma same_running_alter g k l :
  (p_state (g (l !!! k)) = RUNNING <-> p_state (l !!! k) = RUNNING) -> same_running l (alter g k l).
Proof.
  intros H. split; [apply length_alter|]. intros j Hj. rewrite R_alter by done. case_decide; [subst; apply H|done].
Qed.
Lemma same_running_map f l : (forall p, p_state (f p) = RUNNING <-> p_state p = RUNNING) -> same_running l (map f l).
Proof. intros H. split; [apply length_map|]. intros j Hj. by apply R_map. Qed.
Lemma same_running_trans l1 l2 l3 : same_running l1 l2 -> same_running l2 l3 -> same_running l1 l3.
Proof.
  intros [L1 H1] [L2 H2]. split; [congruence|]. intros j Hj. rewrite H2 by congruence. by apply H1.
Qed.
Lemma stops_running_alter g i l : p_state (g (l !!! i)) <> RUNNING -> stops_running i l (alter g i l).
Proof.
  intros H. split; [apply length_alter|]. intros j Hj. rewrite R_alter by done. case_decide; [subst|]; naive_solver.
Qed.
Lemma stops_running_after l1 l2 l3 i : same_running l1 l2 -> stops_running i l2 l3 -> stops_running i l1 l3.
Proof.
  intros [L1 H1] [L2 H2]. split; [congruence|]. intros j Hj. rewrite H2 by congruence. by rewrite H1.
Qed.

Lemma R_state (l : list proc) j : (j < length l)%nat -> R (map pub_of l) j <-> state (l !!! j) = RUNNING.
Proof. intros Hj. unfold R. by rewrite (list_lookup_total_fmap pub_of). Qed.

(** Process [i] goes on running on processor [c]. *)
Lemma stay_good m c i s d fk f l n :
  good m -> runs (mode_of m c) = Some i -> runs d = Some i ->
  obs_of s = with_next n (with_lock l (with_T f (obs_of (view m c)))) ->
  same_running (map pub_of (mprocs m)) (f (map pub_of (mprocs m))) ->
  (holds d = l /\ (holds (mode_of m c) = true \/ mlock m = false) \/
   holds d = false /\ holds (mode_of m c) = false /\ l = mlock m) ->
  good (put m c s d fk).
Proof.
  intros Hg Hi Hd Ho [Hlen Hsame] Hlock. injection Ho as HT Hp Hl Hinit Hn.
  pose proof (g_mode m Hg c) as Hm. rewrite Hi in Hm. pose proof (g_len m Hg) as Hml. rewrite length_map, Hml in Hlen, Hsame.
  assert (Hps : length (procs s) = NPROC) by (rewrite <- (length_map pub_of), HT; done).
  apply put_good; try done; [congruence|..|by rewrite Hl].
  - intros j Hj. rewrite <- R_state, HT by (by rewrite Hps). rewrite Hsame, R_state by (rewrite ?Hml; done).
    rewrite Hd, Hm. destruct (decide (i = j)) as [->|]; [|naive_solver].
    destruct (g_run m Hg c j Hm). naive_solver.
  - intros j Hj. rewrite Hd in Hj. injection Hj as <-. destruct (g_run m Hg c i Hm). auto.
Qed.

(** Process [i] gives up processor [c], which is back in the scheduler. *)
Lemma leave_good m c i s s' fk f :
  good m -> runs (mode_of m c) = Some i ->
  obs_of s = with_lock true (with_T f (obs_of (view m c))) -> scheduler_back s = Ret tt s' ->
  stops_running i (map pub_of (mprocs m)) (f (map pub_of (mprocs m))) ->
  (holds (mode_of m c) = true \/ mlock m = false) ->
  good (put m c s' (Scanning (S i)) fk).
Proof.
  intros Hg Hi Ho Hb [Hlen Hsame] Hlock. apply scheduler_back_obs in Hb. rewrite Ho in Hb.
  injection Hb as HT Hp Hl Hinit Hn.
  pose proof (g_mode m Hg c) as Hm. rewrite Hi in Hm. pose proof (g_len m Hg) as Hml. rewrite length_map, Hml in Hlen, Hsame.
  assert (Hps : length (procs s') = NPROC) by (rewrite <- (length_map pub_of), HT; done).
  apply put_good; try done.
  - intros j Hj. rewrite <- R_state, HT by (by rewrite Hps). rewrite Hsame, R_state by (rewrite ?Hml; done).
    rewrite Hm. cbn. naive_solver.
  - left. by rewrite Hl.
Qed.

Lemma tab_put m c s d fk f p l n :
  obs_of s = with_next n (with_proc p (with_lock l (with_T f (obs_of (view m c))))) ->
  tab_of (put m c s d fk) = MkTab (f (T (tab_of m))) fk (ip (tab_of m)) n.
Proof. intros [= HT Hp Hl Hi Hn]. unfold tab_of, put. cbn. by rewrite HT, Hi, Hn. Qed.
Lemma tab_same m : tab_of m = MkTab (T (tab_of m)) (mfork m) (ip (tab_of m)) (mnext m).
Proof. done. Qed.

Context {Hawake : FreeAwake}.

Definition refines (m m' : mach) : Prop := good m' /\ rtc tstep (tab_of m) (tab_of m').

Lemma view_ok m c : good m -> table_ok (view m c).
Proof. intros Hg. exact (g_len m Hg). Qed.
Lemma run_facts m c i : good m -> runs (mode_of m c) = Some i ->
  c_proc (cpus m c) = Some i /\ (i < NPROC)%nat /\ st (tab_of m) i = RUNNING.
Proof.
  intros Hg Hr. pose proof (g_mode m Hg c) as Hm. rewrite Hr in Hm. destruct (g_run m Hg c i Hm) as [Hi Hs].
  split_and!; [done..|]. rewrite st_tab; [done|apply Hg|done].
Qed.
Lemma not_running m j : p_state (T (tab_of m) !!! j) <> RUNNING ->
  forall g, p_state (g (T (tab_of m) !!! j)) <> RUNNING ->
  same_running (map pub_of (mprocs m)) (alter g j (map pub_of (mprocs m))).
Proof. intros H g Hg. apply same_running_alter. tauto. Qed.

(** A running process does something to the table and goes on. *)
Lemma stay_step m c i s fk f n :
  good m -> mode_of m c = Running i ->
  obs_of s = with_next n (with_T f (obs_of (view m c))) ->
  same_running (map pub_of (mprocs m)) (f (map pub_of (mprocs m))) ->
  tstep (tab_of m) (MkTab (f (T (tab_of m))) fk (ip (tab_of m)) n) ->
  refines m (put m c s (Running i) fk).
Proof.
  intros Hg Hm Ho Hsame Ht. split.
  - eapply (stay_good m c i s _ fk f (mlock m) n); rewrite ?Hm; try done. right. done.
  - apply rtc_once. rewrite (tab_put m c s _ fk f (c_proc (cpus m c)) (mlock m) n Ho). exact Ht.
Qed.
Lemma quiet_step m c i s :
  good m -> mode_of m c = Running i -> obs_of s = obs_of (view m c) -> refines m (put m c s (Running i) (mfork m)).
Proof.
  intros Hg Hm Ho. apply (stay_step m c i s (mfork m) (fun l => l) (mnext m)); try done. apply t_skip.
Qed.
(** A process gives up the processor. *)
Lemma leave_step m c i s s' f :
  good m -> runs (mode_of m c) = Some i ->
  obs_of s = with_lock true (with_T f (obs_of (view m c))) -> scheduler_back s = Ret tt s' ->
  stops_running i (map pub_of (mprocs m)) (f (map pub_of (mprocs m))) ->
  (holds (mode_of m c) = true \/ mlock m = false) ->
  tstep (tab_of m) (MkTab (f (T (tab_of m))) (mfork m) (ip (tab_of m)) (mnext m)) ->
  refines m (put m c s' (Scanning (S i)) (mfork m)).
Proof.
  intros Hg Hm Ho Hb Hs Hl Ht. split; [by eapply leave_good|]. apply rtc_once.
  apply scheduler_back_obs in Hb. rewrite Ho in Hb.
  rewrite (tab_put m c s' _ _ f None true (mnext m) Hb). exact Ht.
Qed.

(** *** Each step *)
Lemma fork_steps m c i np :
  good m -> inv (tab_of m) -> mode_of m c = Running i -> forking (tab_of m) i np ->
  (np < NPROC)%nat /\ p_state (T (tab_of m) !!! np) = EMBRYO.
Proof. intros Hg Hi Hm Hf. by destruct (inv_fork _ Hi i np Hf) as (? & ? & _). Qed.

Lemma alloc_refines m c i np s :
  good m -> mode_of m c = Running i -> mfork m i = Normal -> mnext m < 2147483647 -> 0 <= mnext m ->
  allocproc_slot (view m c) = Ret (Some np) s ->
  refines m (put m c s (Running i) (<[i := Alloced np]> (mfork m))).
Proof.
  intros Hg Hm Hf Hn1 Hn2 H. destruct (run_facts m c i Hg) as (Hc & Hi & Hr); [by rewrite Hm|].
  apply allocproc_slot_obs in H as [_ (Hnp & Hu & _ & E)]; [|by apply view_ok]. cbn [nextpid view] in E.
  rewrite i32_id in E by lia.
  assert (Hst : st (tab_of m) np = UNUSED) by (rewrite st_tab; [exact Hu|apply Hg|done]).
  apply (stay_step m c i s _ (alter (pembryo (mnext m)) np) (mnext m + 1)); try done.
  - apply not_running; [|done]. by fold (st (tab_of m) np); rewrite Hst.
  - by apply (t_alloc (tab_of m) i np).
Qed.
Lemma stack_refines m c i np r s :
  good m -> inv (tab_of m) -> mode_of m c = Running i -> mfork m i = Alloced np ->
  allocproc_stack np (view m c) = Ret r s ->
  refines m (put m c s (Running i) (<[i := match r with Some _ => Stacked np | None => Normal end]> (mfork m))).
Proof.
  intros Hg Hinv Hm Hf H. destruct (run_facts m c i Hg) as (Hc & Hi & Hr); [by rewrite Hm|].
  destruct (fork_steps m c i np) as [Hnp He]; [done..|left; exact Hf|].
  apply allocproc_stack_obs in H. destruct r as [n|].
  - destruct H as [-> E]. apply (stay_step m c i s _ (fun l => l) (mnext m)); try done.
    by apply (t_stack (tab_of m) i np).
  - apply (stay_step m c i s _ (alter (pstate UNUSED) np) (mnext m)); try done.
    + apply not_running; [by rewrite He|done].
    + by apply (t_stack_fail (tab_of m) i np).
Qed.
Lemma copy_refines m c i np r s :
  good m -> inv (tab_of m) -> mode_of m c = Running i -> mfork m i = Stacked np ->
  fork_copy i np (view m c) = Ret r s ->
  refines m (put m c s (Running i) (<[i := match r with Some _ => Filled np | None => Normal end]> (mfork m))).
Proof.
  intros Hg Hinv Hm Hf H. destruct (run_facts m c i Hg) as (Hc & Hi & Hr); [by rewrite Hm|].
  destruct (fork_steps m c i np) as [Hnp He]; [done..|right; left; exact Hf|].
  apply fork_copy_obs in H. destruct r as [n|].
  - apply (stay_step m c i s _ (alter (pparent i) np) (mnext m)); try done.
    + apply not_running; [by rewrite He|]. change (p_state (T (tab_of m) !!! np) <> RUNNING). by rewrite He.
    + by apply (t_copy (tab_of m) i np).
  - apply (stay_step m c i s _ (alter (pstate UNUSED) np) (mnext m)); try done.
    + apply not_running; [by rewrite He|done].
    + by apply (t_copy_fail (tab_of m) i np).
Qed.
Lemma publish_refines m c i np s :
  good m -> inv (tab_of m) -> mode_of m c = Running i -> mfork m i = Filled np ->
  fork_publish np (view m c) = Ret tt s -> refines m (put m c s (Running i) (<[i := Normal]> (mfork m))).
Proof.
  intros Hg Hinv Hm Hf H. destruct (run_facts m c i Hg) as (Hc & Hi & Hr); [by rewrite Hm|].
  destruct (fork_steps m c i np) as [Hnp He]; [done..|right; right; exact Hf|].
  apply fork_publish_obs in H as [_ E].
  apply (stay_step m c i s _ (alter (pstate RUNNABLE) np) (mnext m)); try done.
  - apply not_running; [by rewrite He|done].
  - by apply (t_publish (tab_of m) i np).
Qed.
Lemma pkill_R p : p_state (pkill p) = RUNNING <-> p_state p = RUNNING.
Proof. unfold pkill. cbn. case_bool_decide as E; [by rewrite E|done]. Qed.
Lemma wakeup_refines m c i ch s :
  good m -> mode_of m c = Running i -> wakeup ch (view m c) = Ret tt s ->
  refines m (put m c s (Running i) (mfork m)).
Proof.
  intros Hg Hm H. apply wakeup_obs in H as [_ E]; [|by apply view_ok].
  apply (stay_step m c i s _ (map (pwake (Some ch))) (mnext m)); try done.
  - apply same_running_map, pwake_R.
  - apply (t_wakeup (tab_of m) ch).
Qed.
Lemma kill_refines m c i n r s :
  good m -> mode_of m c = Running i -> kill n (view m c) = Ret r s ->
  refines m (put m c s (Running i) (mfork m)).
Proof.
  intros Hg Hm H. apply kill_obs in H as [_ [(_ & E & _)|(j & Hj & _ & _ & E)]]; [by apply quiet_step| |by apply view_ok].
  apply (stay_step m c i s _ (alter pkill j) (mnext m)); try done.
  - apply same_running_alter, pkill_R.
  - by apply (t_kill (tab_of m) j).
Qed.

(** Reaping, from [wait]. *)
Lemma reap_facts m i j :
  good m -> (j < NPROC)%nat -> parent (mprocs m !!! j) = Some i -> state (mprocs m !!! j) = ZOMBIE ->
  st (tab_of m) j = ZOMBIE /\ child_of (T (tab_of m) !!! j) i.
Proof.
  intros Hg Hj Hp Hz. split; [rewrite st_tab; [done|apply Hg|done]|].
  unfold child_of. cbn. rewrite (list_lookup_total_fmap pub_of) by (by rewrite (g_len m Hg)). done.
Qed.
Lemma wait_refines m c i r s :
  good m -> mode_of m c = Running i -> wait (view m c) = Ret r s -> refines m (put m c s (Running i) (mfork m)).
Proof.
  intros Hg Hm H. destruct (run_facts m c i Hg) as (Hc & Hi & Hr); [by rewrite Hm|].
  apply wait_obs_ret in H as (_ & me & Hme & [E|(j & Hj & Hp & Hz & _ & E)]); [by apply quiet_step|].
  cbn in Hme. assert (me = i) as -> by congruence. destruct (reap_facts m i j Hg Hj Hp Hz) as [Hst Hch].
  apply (stay_step m c i s _ (alter preap j) (mnext m)); try done.
  - apply not_running; [|done]. fold (st (tab_of m) j). by rewrite Hst.
  - by apply (t_reap (tab_of m) i j).
Qed.
Lemma no_zombie_tab m c i :
  good m -> no_zombie_child i (view m c) ->
  forall j, (j < NPROC)%nat -> child_of (T (tab_of m) !!! j) i -> st (tab_of m) j <> ZOMBIE.
Proof.
  intros Hg Hz j Hj. unfold child_of. rewrite st_tab by (try apply Hg; done). cbn.
  rewrite (list_lookup_total_fmap pub_of) by (by rewrite (g_len m Hg)). by apply Hz.
Qed.

Lemma yield_refines m c i s s' :
  good m -> mode_of m c = Running i -> yield (view m c) = Sleep sched_chan s -> scheduler_back s = Ret tt s' ->
  refines m (put m c s' (Scanning (S i)) (mfork m)).
Proof.
  intros Hg Hm H Hb. destruct (run_facts m c i Hg) as (Hc & Hi & Hr); [by rewrite Hm|].
  apply yield_obs in H as (_ & Hl & me & Hme & E). cbn in Hme. assert (me = i) as -> by congruence.
  apply (leave_step m c i s s' (alter (pstate RUNNABLE) i)); try done; [by rewrite Hm|by apply stops_running_alter|by right|].
  by apply (t_yield (tab_of m) i).
Qed.
Lemma sleep_refines m c i ch rel s s' :
  good m -> mode_of m c = Running i -> mfork m i = Normal -> (forall j, ch <> proc_chan j) ->
  quiet rel -> awake rel -> sleep ch rel (view m c) = Sleep sched_chan s -> scheduler_back s = Ret tt s' ->
  refines m (put m c s' (Scanning (S i)) (mfork m)).
Proof.
  intros Hg Hm Hf Hch Hq Ha H Hb. destruct (run_facts m c i Hg) as (Hc & Hi & Hr); [by rewrite Hm|].
  apply sleep_obs in H as (_ & Hl & me & Hme & E); [|done..]. cbn in Hme. assert (me = i) as -> by congruence.
  apply (leave_step m c i s s' (alter (psleep ch) i)); try done; [by rewrite Hm|by apply stops_running_alter|by right|].
  by apply (t_sleep (tab_of m) i).
Qed.
Lemma wait_sleep_refines m c i s s' :
  good m -> mode_of m c = Running i -> mfork m i = Normal ->
  wait (view m c) = Sleep sched_chan s -> scheduler_back s = Ret tt s' ->
  refines m (put m c s' (Scanning (S i)) (mfork m)).
Proof.
  intros Hg Hm Hf H Hb. destruct (run_facts m c i Hg) as (Hc & Hi & Hr); [by rewrite Hm|].
  apply wait_obs_sleep in H as (_ & Hl & me & Hme & Hz & E). cbn in Hme. assert (me = i) as -> by congruence.
  apply (leave_step m c i s s' (alter (psleep (proc_chan i)) i)); try done;
    [by rewrite Hm|by apply stops_running_alter|by right|].
  apply (t_wait (tab_of m) i); [done..|]. by eapply no_zombie_tab.
Qed.
Lemma rewait_refines m c i relock s s' :
  good m -> mode_of m c = Resuming i -> mfork m i = Normal -> at_ (ctx (mprocs m !!! i)) = AtWait ->
  resume relock (view m c) = Sleep sched_chan s -> scheduler_back s = Ret tt s' ->
  refines m (put m c s' (Scanning (S i)) (mfork m)).
Proof.
  intros Hg Hm Hf Hat H Hb. destruct (run_facts m c i Hg) as (Hc & Hi & Hr); [by rewrite Hm|].
  apply resume_sleep in H as (_ & me & Hme & Hz & E); [|by apply view_ok|cbn; by rewrite Hc].
  cbn in Hme. assert (me = i) as -> by congruence.
  assert (Hl : mlock m = true) by (apply (g_lock m Hg); exists c; by rewrite Hm).
  apply (leave_step m c i s s' (alter (psleep (proc_chan i)) i)); try done;
    [by rewrite Hm|rewrite E; unfold obs_of, with_lock, with_T; cbn; by rewrite Hl|by apply stops_running_alter|left; by rewrite Hm|].
  apply (t_wait (tab_of m) i); [done..|]. by eapply no_zombie_tab.
Qed.
Lemma exit_refines m c i s s' :
  good m -> mode_of m c = Running i -> mfork m i = Normal -> minit m <> Some i ->
  exit_zombie i (view m c) = Sleep sched_chan s -> scheduler_back s = Ret tt s' ->
  refines m (put m c s' (Scanning (S i)) (mfork m)).
Proof.
  intros Hg Hm Hf Hni H Hb. destruct (run_facts m c i Hg) as (Hc & Hi & Hr); [by rewrite Hm|].
  destruct (g_init m Hg) as [q Hq].
  apply (exit_zombie_obs i q) in H as (_ & Hl & b & E & Hz); [|by apply view_ok|done|done].
  assert (Hp : parent (getp (view m c) i) = p_parent (T (tab_of m) !!! i)).
  { cbn. rewrite (list_lookup_total_fmap pub_of) by (by rewrite (g_len m Hg)). done. }
  assert (Hip : ip (tab_of m) = q) by (cbn; by rewrite Hq). rewrite Hp in E.
  eapply (leave_step m c i s s' _ Hg); [by rewrite Hm|exact E|done| |by right|].
  - eapply stops_running_after; [apply same_running_map; intros p; apply pexit_R|by apply stops_running_alter].
  - rewrite <- Hip. apply (t_exit (tab_of m) i b); [done|done|congruence|].
    intros j Hj Hch Hzj. unfold child_of in Hch. rewrite st_tab in Hzj by (try apply Hg; done). cbn in Hch.
    rewrite (list_lookup_total_fmap pub_of) in Hch by (by rewrite (g_len m Hg)). by apply (Hz j).
Qed.

Lemma pnochan_running m i : same_running (map pub_of (mprocs m)) (alter pnochan i (map pub_of (mprocs m))).
Proof. by apply same_running_alter. Qed.
Lemma resume_refines m c i relock r s :
  good m -> mode_of m c = Resuming i -> quiet relock -> resume relock (view m c) = Ret r s ->
  refines m (put m c s (Running i) (mfork m)).
Proof.
  intros Hg Hm Hq H. destruct (run_facts m c i Hg) as (Hc & Hi & Hr); [by rewrite Hm|].
  apply resume_ret in H as (Hl & me & Hme & H); [|by apply view_ok|done].
  cbn in Hme. assert (me = i) as -> by congruence.
  assert (Hlk : holds (Running i) = false /\ (holds (mode_of m c) = true \/ mlock m = false)) by (rewrite Hm; auto).
  assert (Ht1 : tstep (tab_of m) (Life.upd i pnochan (tab_of m))) by (by apply t_nochan).
  destruct H as [E|[E|(j & Hj & Hp & Hz & E)]];
    [| |destruct (reap_facts m i j Hg Hj Hp Hz) as [Hst Hch];
        assert (Hsame : T (Life.upd i pnochan (tab_of m)) !!! j = T (tab_of m) !!! j)
          by (apply list_lookup_total_alter_ne; congruence)]; split.
  - eapply (stay_good m c i s _ _ (fun l => l) false (mnext m)); rewrite ?Hm; try done. left. by rewrite <- Hm.
  - rewrite (tab_put m c s _ _ (fun l => l) (c_proc (cpus m c)) false (mnext m) E). by rewrite <- tab_same.
  - eapply (stay_good m c i s _ _ (alter pnochan i) false (mnext m)); rewrite ?Hm; try done;
      [apply pnochan_running|left; by rewrite <- Hm].
  - rewrite (tab_put m c s _ _ (alter pnochan i) (c_proc (cpus m c)) false (mnext m) E). by apply rtc_once.
  - eapply (stay_good m c i s _ _ (fun l => alter preap j (alter pnochan i l)) false (mnext m)); rewrite ?Hm; try done;
      [|left; by rewrite <- Hm].
    eapply same_running_trans; [apply pnochan_running|]. apply same_running_alter.
    change (alter pnochan i (map pub_of (mprocs m))) with (T (Life.upd i pnochan (tab_of m))). rewrite Hsame.
    change (p_state (T (tab_of m) !!! j)) with (st (tab_of m) j). by rewrite Hst.
  - rewrite (tab_put m c s _ _ (fun l => alter preap j (alter pnochan i l)) (c_proc (cpus m c)) false (mnext m) E).
    eapply rtc_l; [exact Ht1|]. apply rtc_once. apply (t_reap (Life.upd i pnochan (tab_of m)) i j); [done|..].
    + unfold st. rewrite lookup_upd, decide_True; [done|done|]. cbn. by rewrite length_map, (g_len m Hg).
    + unfold st. by rewrite Hsame.
    + by rewrite Hsame.
Qed.

Lemma pick_refines m c i s :
  good m -> mode_of m c = Scanning i -> (i < NPROC)%nat -> scheduler_slot i (view m c) = Ret true s ->
  refines m (put m c s (Resuming i) (mfork m)).
Proof.
  intros Hg Hm Hi H. apply scheduler_slot_obs in H as [Hs E]. cbn in Hs.
  pose proof (g_mode m Hg c) as Hc. rewrite Hm in Hc. cbn in Hc.
  assert (Hl : mlock m = true) by (apply (g_lock m Hg); exists c; by rewrite Hm).
  split.
  - injection E as HT Hp Hlk Hin _. pose proof (g_len m Hg) as Hlen.
    assert (Hps : length (procs s) = NPROC) by (rewrite <- (length_map pub_of), HT, length_alter, length_map; done).
    apply put_good; try done; [|intros j [= <-]; split; [done|right; unfold getp in Hs; cbn in Hs; congruence]|left; split; [cbn; congruence|left; by rewrite Hm]].
    intros j Hj. rewrite <- R_state, HT by (by rewrite Hps). rewrite R_alter by (by rewrite length_map, Hlen).
    cbn [runs]. rewrite Hc. case_decide as E; [subst; naive_solver|]. rewrite R_state by (by rewrite Hlen). naive_solver.
  - rewrite (tab_put m c s _ _ (alter (pstate RUNNING) i) (Some i) (mlock m) (mnext m) E). apply rtc_once.
    apply (t_dispatch (tab_of m) i); [done|]. rewrite st_tab; [done|apply Hg|done].
Qed.

(** A processor in the scheduler that touches nothing but the lock. *)
Lemma sched_refines m c s d l :
  good m -> runs (mode_of m c) = None -> runs d = None -> obs_of s = with_lock l (obs_of (view m c)) ->
  holds d = l -> (holds (mode_of m c) = true \/ mlock m = false) ->
  refines m (put m c s d (mfork m)).
Proof.
  intros Hg Hm Hd E Hl Hk. pose proof (g_mode m Hg c) as Hc. rewrite Hm in Hc. split.
  - injection E as HT Hp Hlk Hin _. pose proof (g_len m Hg) as Hlen.
    assert (Hps : length (procs s) = NPROC) by (rewrite <- (length_map pub_of), HT, length_map; done).
    apply put_good; try done; [congruence| |by rewrite Hd|left; split; [congruence|done]].
    intros j Hj. rewrite <- R_state, HT by (by rewrite Hps). rewrite R_state by (by rewrite Hlen). rewrite Hd, Hc. naive_solver.
  - rewrite (tab_put m c s _ _ (fun l => l) (c_proc (cpus m c)) l (mnext m) E). by rewrite <- tab_same.
Qed.

Lemma mstep_refines m m' : good m -> inv (tab_of m) -> mstep m m' -> refines m m'.
Proof.
  intros Hg Hi Hs. destruct Hs.
  - apply scheduler_enter_obs in H0 as [Hl E]. apply (sched_refines m c s _ true); rewrite ?H; auto.
  - apply scheduler_slot_obs in H1.
    assert (Hl : mlock m = true) by (apply (g_lock m Hg); exists c; by rewrite H).
    apply (sched_refines m c s _ true); rewrite ?H; auto. rewrite H1. unfold obs_of, with_lock. cbn. by rewrite Hl.
  - by eapply pick_refines.
  - apply release_obs in H0 as [Hl E]. apply (sched_refines m c s _ false); rewrite ?H; auto.
  - by eapply resume_refines.
  - by eapply rewait_refines.
  - by eapply yield_refines.
  - by eapply sleep_refines.
  - by eapply wait_sleep_refines.
  - by eapply wait_refines.
  - by eapply exit_refines.
  - by eapply wakeup_refines.
  - by eapply kill_refines.
  - by eapply alloc_refines.
  - apply allocproc_slot_obs in H1 as [_ E]; [|by apply view_ok]. by apply quiet_step.
  - by eapply stack_refines.
  - by eapply copy_refines.
  - by eapply publish_refines.
  - apply H0 in H1. by apply quiet_step.
Qed.

Lemma machine_refines m m' :
  good m -> inv (tab_of m) -> rtc mstep m m' -> good m' /\ reachable (tab_of m) (tab_of m') /\ inv (tab_of m').
Proof.
  intros Hg Hi Hr. induction Hr as [|x y z Hxy _ IH]; [split_and!; [done|apply rtc_refl|done]|].
  destruct (mstep_refines x y Hg Hi Hxy) as [Hg' Ht]. pose proof (life_inv _ _ Hi Ht) as Hi'.
  destruct (IH Hg' Hi') as (? & ? & ?). split_and!; [done| |done]. unfold reachable in *. by etrans.
Qed.

(** *** Booting *)

(** The kernel before [userinit], and the machine after it: [main] has run on one processor,
    all of them are about to enter [scheduler]. *)
Definition reset (c : Cpu.cpu) (x : W) : @kst W :=
  MkK c None false (replicate NPROC zero_proc) None 1 1 x.
Definition start (s : @kst W) (flags : nat -> Cpu.cpu) : mach :=
  MkMach (fun c => MkCpu (flags c) None Idle) (plock s) (procs s) (initproc s) (nextpid s) (first s) (w s)
    (fun _ => Normal).

Definition boot_pub : pub := MkPub RUNNABLE 1 None None 0.
Definition boot_table : list pub := alter (fun _ => boot_pub) 0%nat (replicate NPROC (pub_of zero_proc)).

Lemma first_slot c x : exists s, allocproc_slot (reset c x) = s /\
  forall r s', s = Ret r s' -> r = Some 0%nat.
Proof.
  eexists. split; [done|]. intros r s' H. unfold allocproc_slot in H. binv H as [] s1 H1.
  apply acquire_ptable_inv in H1 as [_ E1]. revert E1. generalize (cpu s1). intros c1 ->.
  binv H as r0 s2 H2. assert (r0 = Some 0%nat) as -> by (cbn in H2; by injection H2 as <- _).
  binv H as [] s3 H3. rewrite reads_bind in H. binv H as [] s4 H4. rewrite modify_bind in H.
  binv H as [] s5 H5. by injection H as <- _.
Qed.

Lemma userinit_obs c x u s :
  userinit (reset c x) = Ret u s -> obs_of s = MkObs boot_table None false (Some 0%nat) 2.
Proof.
  intros H. unfold userinit in H. binv H as r s1 H1. unfold allocproc in H1. binv H1 as r0 s2 H2.
  destruct (first_slot c x) as (q & Hq & Hr0). rewrite Hq in H2. pose proof (Hr0 _ _ H2) as ->.
  rewrite <- Hq in H2. apply allocproc_slot_obs in H2 as [_ (_ & _ & _ & E2)]; [|done].
  apply allocproc_stack_obs in H1. destruct r as [n|]; [|done]. destruct H1 as [-> E1].
  rewrite modify_bind in H. binv H as pg s3 H3. apply quiet_sv in H3.
  binv H as [] s4 H4. apply quiet_upd in H4; [|done]. destruct (pg =? 0); [done|].
  binv H as [] s5 H5. apply quiet_sv in H5. binv H as [] s6 H6. apply quiet_upd in H6; [|done].
  binv H as [] s7 H7. apply quiet_upd in H7; [|done]. binv H as [] s8 H8. apply quiet_upd in H8; [|done].
  binv H as d s9 H9. apply quiet_sv in H9. binv H as [] s10 H10. apply quiet_upd in H10; [|done].
  binv H as [] s11 H11. apply acquire_obs in H11 as [_ E11].
  binv H as [] s12 H12. apply (upd_obs _ _ (pstate RUNNABLE)) in H12; [|done]. apply release_obs in H as [_ E].
  rewrite E, H12, E11, H10, H9, H8, H7, H6, H5, H4, H3.
  assert (E0 : obs_of (set_initproc (Some 0%nat) s1) = MkObs (o_T (obs_of s1)) (o_proc (obs_of s1)) (o_lock (obs_of s1)) (Some 0%nat) (o_next (obs_of s1))) by done.
  rewrite E0, E1, E2. unfold with_lock, with_T, with_next. cbn [o_T o_proc o_lock o_init o_next obs_of reset]. f_equal.
Qed.

Lemma boot_lookup i : (i < NPROC)%nat ->
  boot_table !!! i = if decide (i = 0%nat) then boot_pub else pub_of zero_proc.
Proof.
  intros Hi. unfold boot_table. case_decide as E; [by subst|].
  rewrite list_lookup_total_alter_ne by done. by apply lookup_total_replicate_2.
Qed.

Section boot.
Context (c0 : Cpu.cpu) (x : W) (s0 : @kst W) (flags : nat -> Cpu.cpu).
Hypothesis Hboot : userinit (reset c0 x) = Ret tt s0.

Lemma start_tab : tab_of (start s0 flags) = MkTab boot_table (fun _ => Normal) 0 2.
Proof. pose proof (userinit_obs _ _ _ _ Hboot) as [= HT _ _ Hi Hn]. unfold tab_of, start. cbn. by rewrite HT, Hi, Hn. Qed.
Lemma start_lock : plock s0 = false /\ initproc s0 = Some 0%nat /\ length (procs s0) = NPROC.
Proof.
  pose proof (userinit_obs _ _ _ _ Hboot) as [= HT _ Hl Hi _]. split_and!; [done..|].
  by rewrite <- (length_map pub_of), HT.
Qed.
Lemma start_good : good (start s0 flags).
Proof.
  destruct start_lock as (Hl & Hi & Hlen). split; try done.
  - exists 0%nat. exact Hi.
  - intros i Hi' Hr. exfalso. cbn in Hr.
    assert (H : st (tab_of (start s0 flags)) i = RUNNING) by (by rewrite st_tab). unfold st in H. rewrite start_tab in H.
    cbn [T] in H. rewrite boot_lookup in H by done. by case_decide.
  - split; [|by intros [c Hc]]. cbn. congruence.
Qed.
Lemma start_inv : inv (tab_of (start s0 flags)).
Proof.
  assert (H0 : (0 < NPROC)%nat) by (unfold NPROC; lia).
  rewrite start_tab. split; unfold st, alive, forking; cbn [T at_fork ip npid]; try done.
  - split; [done|]. right; left. by rewrite boot_lookup.
  - intros i q Hi. rewrite boot_lookup by done. by case_decide.
  - intros i Hi. rewrite boot_lookup by done. case_decide; [done|]. cbn. intros [[|[|]]|]; done.
  - intros i Hi. rewrite boot_lookup by done. by case_decide.
  - intros q i Hq Hi. rewrite !boot_lookup by done. by repeat case_decide.
  - intros q np [|[|]]; done.
  - intros q q' np [|[|]]; done.
  - intros i j Hi Hj. rewrite !boot_lookup by done. repeat case_decide; congruence || done.
  - intros i Hi. rewrite boot_lookup by done. by case_decide.
  - intros i Hi. rewrite boot_lookup by done. by case_decide.
Qed.
End boot.
End machine.
End Machine.

(** ** What holds of every run of the kernel *)
Module Kernel.
Import Proc Table Life Effects Machine.

Section kernel.
Context {W : Type} `{!Services W} {Hawake : FreeAwake}.



End kernel.

(** *** A small machine *)

(** Services that always succeed, without any state. *)
Definition ok_services : Services unit := {|
  sv_kalloc := ret 4096; sv_kfree := fun _ => ret tt; sv_setupkvm := ret 8192; sv_inituvm := fun _ => ret tt;
  sv_copyuvm := fun _ _ => ret 12288; sv_freevm := fun _ => ret tt; sv_allocuvm := fun _ _ z => ret z;
  sv_deallocuvm := fun _ _ z => ret z; sv_switchuvm := fun _ _ => ret tt; sv_switchkvm := ret tt;
  sv_filedup := ret; sv_fileclose := fun _ => ret tt; sv_begin_op := ret tt; sv_end_op := ret tt;
  sv_idup := ret; sv_iput := fun _ => ret tt; sv_namei_root := ret 1; sv_iinit := ret tt; sv_initlog := ret tt
|}.
#[local] Existing Instance ok_services.
#[local] Instance ok_awake : FreeAwake.
Proof. by split. Qed.

Definition cpu0 : Cpu.cpu := Cpu.MkCpu 0 0 0.
Definition out {A} (r : res (@kst unit) A) : @kst unit :=
  match r with Ret _ s => s | Sleep _ s => s | Panic _ => reset cpu0 tt end.
Definition on0 {A} (op : M (@kst unit) A) (d : mode) (fk : nat -> kpc) (m : mach) : mach :=
  put m 0 (out (op (view m 0))) d fk.

Definition boot0 : @kst unit := out (userinit (reset cpu0 tt)).
Definition d0 : mach := start boot0 (fun _ => cpu0).
(** Processor 0 enters the scheduler, picks init, and init forks. *)
Definition d1 : mach := on0 scheduler_enter (Scanning 0) (mfork d0) d0.
Definition d2 : mach := on0 (scheduler_slot 0) (Resuming 0) (mfork d1) d1.
Definition d3 : mach := on0 (resume (ret tt)) (Running 0) (mfork d2) d2.
Definition d4 : mach := on0 allocproc_slot (Running 0) (<[0%nat := Alloced 1]> (mfork d3)) d3.
Definition d5 : mach := on0 (allocproc_stack 1) (Running 0) (<[0%nat := Stacked 1]> (mfork d4)) d4.
Definition d6 : mach := on0 (fork_copy 0 1) (Running 0) (<[0%nat := Filled 1]> (mfork d5)) d5.
Definition d7 : mach := on0 (fork_publish 1) (Running 0) (<[0%nat := Normal]> (mfork d6)) d6.

Lemma boot0_ok : userinit (reset cpu0 tt) = Ret tt boot0.
Proof. vm_compute. reflexivity. Qed.
Lemma demo_run : rtc mstep d0 d7.
Proof.
  assert (H1 : mstep d0 d1) by (apply m_enter; vm_compute; reflexivity).
  assert (H2 : mstep d1 d2) by (apply (m_pick d1 0 0); [reflexivity|vm_compute; lia|vm_compute; reflexivity]).
  assert (H3 : mstep d2 d3) by (apply (m_resume d2 0 0 (ret tt) None); [reflexivity|apply quiet_ret|vm_compute; reflexivity]).
  assert (H4 : mstep d3 d4) by (apply (m_alloc d3 0 0 1); [reflexivity|reflexivity|vm_compute; done|vm_compute; done|vm_compute; reflexivity]).
  assert (H5 : mstep d4 d5) by (apply (m_stack d4 0 0 1 (Some 1%nat)); [reflexivity|reflexivity|vm_compute; reflexivity]).
  assert (H6 : mstep d5 d6) by (apply (m_copy d5 0 0 1 (Some 2)); [reflexivity|reflexivity|vm_compute; reflexivity]).
  assert (H7 : mstep d6 d7) by (apply (m_publish d6 0 0 1); [reflexivity|reflexivity|vm_compute; reflexivity]).
  exact (rtc_l _ _ _ _ H1 (rtc_l _ _ _ _ H2 (rtc_l _ _ _ _ H3 (rtc_l _ _ _ _ H4 (rtc_l _ _ _ _ H5
    (rtc_l _ _ _ _ H6 (rtc_once _ _ H7))))))).
Qed.


(** C13: killed before birth.  When [allocproc] finds no page for the stack it gives the slot
    back with the pid still in it, so [kill] of that pid succeeds and marks the free slot;
    [allocproc] does not clear the mark, and the next process of the slot is born killed. *)
Theorem killed_before_birth {W} `{!Services W} (s s1 s2 s3 : @kst W) np np' r :
  table_ok s -> (np < NPROC)%nat ->
  (forall j, (j < NPROC)%nat -> j <> np -> pid (getp s j) <> pid (getp s np)) ->
  (forall j, (j < np)%nat -> state (getp s j) <> UNUSED) ->
  allocproc_stack np s = Ret None s1 ->
  kill (pid (getp s np)) s1 = Ret r s2 ->
  allocproc_slot s2 = Ret (Some np') s3 ->
  r = 0 /\ np' = np /\ state (getp s3 np) = EMBRYO /\ killed (getp s3 np) = 1.
Proof.
  intros Hs Hnp Huniq Hfirst H1 H2 H3.
  apply allocproc_stack_obs in H1. injection H1 as T1 _ _ _ _. pose proof (alter_table _ _ _ _ Hs T1) as Hs1.
  pose proof (fun j => pub_alter _ _ _ _ j Hs T1) as P1. clear T1.
  apply kill_obs in H2 as [_ H2]; [|exact Hs1]. pose proof (P1 np Hnp) as Q1. rewrite decide_True in Q1 by reflexivity.
  destruct H2 as [(_ & _ & Hno)|(i & Hi & Hpid & -> & E2)].
  { exfalso. apply (Hno np Hnp). injection Q1. auto. }
  assert (i = np) as ->.
  { destruct (decide (i = np)) as [|Hne]; [assumption|]. exfalso. specialize (P1 i Hi). rewrite decide_False in P1 by assumption.
    apply (Huniq i Hi Hne). injection P1. congruence. }
  injection E2 as T2 _ _ _ _. pose proof (alter_table _ _ _ _ Hs1 T2) as Hs2.
  pose proof (fun j => pub_alter _ _ _ _ j Hs1 T2) as P2. clear T2.
  pose proof (P2 np Hnp) as Q2. rewrite decide_True, Q1 in Q2 by reflexivity.
  apply allocproc_slot_obs in H3 as [_ (Hn' & Hu & Hless & E3)]; [|exact Hs2].
  assert (Hunp : state (getp s2 np) = UNUSED) by (injection Q2; auto).
  assert (np' = np) as ->.
  { destruct (decide (np' = np)) as [|Hne]; [assumption|]. exfalso.
    destruct (decide (np < np')%nat) as [Hlt|]; [by apply (Hless np Hlt)|].
    specialize (P2 np' Hn'). specialize (P1 np' Hn'). rewrite decide_False in P1, P2 by assumption.
    rewrite P1 in P2. apply (Hfirst np'); [lia|]. injection P2. congruence. }
  injection E3 as T3 _ _ _ _. pose proof (pub_alter _ _ _ _ np Hs2 T3 Hnp) as Q3.
  rewrite decide_True, Q2 in Q3 by reflexivity. split_and!; [reflexivity|reflexivity|..]; injection Q3; auto.
Qed.

(** The same kernel without memory. *)
Definition poor_services : Services unit := {|
  sv_kalloc := ret 0; sv_kfree := fun _ => ret tt; sv_setupkvm := ret 0; sv_inituvm := fun _ => ret tt;
  sv_copyuvm := fun _ _ => ret 0; sv_freevm := fun _ => ret tt; sv_allocuvm := fun _ _ _ => ret 0;
  sv_deallocuvm := fun _ _ z => ret z; sv_switchuvm := fun _ _ => ret tt; sv_switchkvm := ret tt;
  sv_filedup := ret; sv_fileclose := fun _ => ret tt; sv_begin_op := ret tt; sv_end_op := ret tt;
  sv_idup := ret; sv_iput := fun _ => ret tt; sv_namei_root := ret 1; sv_iinit := ret tt; sv_initlog := ret tt
|}.
Definition k1 : @kst unit := out (allocproc_slot (reset cpu0 tt)).
Definition k2 : @kst unit := out (@allocproc_stack unit poor_services 0 k1).
Definition k3 : @kst unit := out (kill 1 k2).
Definition k4 : @kst unit := out (allocproc_slot k3).
Lemma killed_before_birth_witness : pid (getp k1 0) = 1 /\ killed (getp k4 0) = 1.
Proof.
  assert (Hp : pid (getp k1 0) = 1) by (vm_compute; reflexivity). split; [exact Hp|].
  apply (@killed_before_birth unit poor_services k1 k2 k3 k4 0 0 0); rewrite ?Hp.
  - vm_compute. reflexivity.
  - unfold NPROC. lia.
  - intros [|j] Hj Hne; [lia|]. unfold getp.
    replace (procs k1 !!! S j) with (replicate 63 zero_proc !!! j) by reflexivity.
    rewrite lookup_total_replicate_2 by (unfold NPROC in Hj; lia). discriminate.
  - intros j Hj. lia.
  - vm_compute. reflexivity.
  - vm_compute. reflexivity.
  - vm_compute. reflexivity.
Defined.
End Kernel.
