(* ===== verification/Trap.v ===== *)
(** Traps, interrupts and the system calls on processes ([trap.c], [syscall.c], [sysproc.c]).

    [Module Ticks] adds the clock to the rest of the kernel.  [Module Trap] has [trap], the
    table of system calls and [sysproc.c], over [Proc.v]; the drivers and the calls on files
    are the interface [Calls].  A trap that gives up the processor continues in
    [trap_yielded] or [syscall_return].  The theorems: a killed process never goes back to
    user mode; a fault ends the process that made it and no other; [sleep(n)] lasts [n]
    ticks. *)

From S2P Require Import Prelude Params Spinlock Sleeplock CString Kalloc Proc ProcSpec Machine.

(** ** The clock *)
Module Ticks.

(** The rest of the kernel, with [tickslock] and [ticks] of [trap.c]. *)
Record tw {W : Type} := MkTw { inner : W; tickslock : Klock.t; ticks : Z }.
Arguments tw : clear implicits.
Definition set_inner {W} (x : W) (t : tw W) : tw W := MkTw W x (tickslock t) (ticks t).
Definition set_tickslock {W} (x : Klock.t) (t : tw W) : tw W := MkTw W (inner t) x (ticks t).
Definition set_ticks {W} (x : Z) (t : tw W) : tw W := MkTw W (inner t) (tickslock t) x.
Definition rest {W A} (m : M W A) : M (tw W) A := zoom inner set_inner m.

Definition tick_services {W} (SV : Services W) : Services (tw W) := {|
  sv_kalloc := rest sv_kalloc;
  sv_kfree p := rest (sv_kfree p);
  sv_setupkvm := rest sv_setupkvm;
  sv_inituvm p := rest (sv_inituvm p);
  sv_copyuvm p n := rest (sv_copyuvm p n);
  sv_freevm p := rest (sv_freevm p);
  sv_allocuvm p a b := rest (sv_allocuvm p a b);
  sv_deallocuvm p a b := rest (sv_deallocuvm p a b);
  sv_switchuvm p k := rest (sv_switchuvm p k);
  sv_switchkvm := rest sv_switchkvm;
  sv_filedup f := rest (sv_filedup f);
  sv_fileclose f := rest (sv_fileclose f);
  sv_begin_op := rest sv_begin_op;
  sv_end_op := rest sv_end_op;
  sv_idup i := rest (sv_idup i);
  sv_iput i := rest (sv_iput i);
  sv_namei_root := rest sv_namei_root;
  sv_iinit := rest sv_iinit;
  sv_initlog := rest sv_initlog
|}.
End Ticks.

(** The system calls of [sysfile.c]. *)
Inductive filecall :=
  | sys_pipe | sys_read | sys_exec | sys_fstat | sys_chdir | sys_dup | sys_open | sys_write
  | sys_mknod | sys_unlink | sys_link | sys_mkdir | sys_close.

(** What [trap.c] and [syscall.c] call elsewhere: the console and the local interrupt
    controller, which are part of the rest of the kernel, and the drivers and the system
    calls on files, which also use the process table. *)
Class Calls (W : Type) := MkCalls {
  k_cpuid : Z;
  k_rcr2 : M W Z;
  k_cprintf : string -> list (Z + list Z) -> M W unit;
  k_lapiceoi : M W unit;
  k_ideintr : M (@Proc.kst (Ticks.tw W)) unit;
  k_kbdintr : M (@Proc.kst (Ticks.tw W)) unit;
  k_uartintr : M (@Proc.kst (Ticks.tw W)) unit;
  k_argint : nat -> M (@Proc.kst (Ticks.tw W)) (option Z);
  k_file : filecall -> M (@Proc.kst (Ticks.tw W)) Z
}.

Module Trap.
Import Proc Ticks.

(** *** [traps.h] *)
Definition T_SYSCALL : Z := 64.
Definition T_IRQ0 : Z := 32.
Definition IRQ_TIMER : Z := 0.
Definition IRQ_KBD : Z := 1.
Definition IRQ_COM1 : Z := 4.
Definition IRQ_IDE : Z := 14.
Definition IRQ_SPURIOUS : Z := 31.

(** A frame on the kernel stack: its registers, and the two words [trapno] and [err]. *)
Record frame := MkFrame { regs : trapframe; trapno : Z; err : Z }.
Definition from_user (f : frame) : bool := Z.land (cs (regs f)) 3 =? DPL_USER.

Section trap.
Context {W : Type} {SV : Services W} {KC : Calls W}.
#[local] Existing Instance tick_services.
Notation T := (@kst (tw W)).

Definition on_rest {A} (m : M W A) : M T A := sv (rest m).
Definition get_ticks : M T Z := reads (fun s => ticks (w s)).
Definition put_ticks (x : Z) : M T unit := modify (fun s => set_w (set_ticks x (w s)) s).
Definition acquire_ticks : M T unit :=
  on_cpu Cpu.pushcli ;;; sv (zoom tickslock set_tickslock Klock.acquire).
Definition release_ticks : M T unit :=
  sv (zoom tickslock set_tickslock Klock.release) ;;; on_cpu Cpu.popcli.
(** [&ticks]. *)
Definition ticks_chan : chan := ("ticks"%string, 0%nat).
Definition cpuid : M T Z := on_cpu Cpu.mycpu ;;; ret k_cpuid.
(** A field of [*myproc()]. *)
Definition my {A} (f : proc -> A) : M T A := p <- curproc ;; reads (fun s => f (getp s p)).

(** ** [sysproc.c] *)
Definition sys_fork : M T Z := fork.
Definition sys_exit : M T Z := exit ;;; ret 0.
Definition sys_wait : M T Z := wait.
Definition sys_kill : M T Z :=
  a <- k_argint 0 ;;
  match a with None => ret (-1) | Some n => kill n end.
Definition sys_getpid : M T Z := my pid.
Definition sys_sbrk : M T Z :=
  a <- k_argint 0 ;;
  match a with
  | None => ret (-1)
  | Some n =>
      addr <- my sz ;;
      r <- growproc n ;;
      if r <? 0 then ret (-1) else ret (i32 addr)
  end.
(** The loop of [sys_sleep] from its test to the next [sleep]; the comparison is unsigned. *)
Definition sleep_loop (n ticks0 : Z) : M T Z :=
  t <- get_ticks ;;
  if u32 (t - ticks0) <? u32 n then
    k <- my killed ;;
    if negb (k =? 0) then release_ticks ;;; ret (-1)
    else sleep ticks_chan release_ticks ;;; ret 0
  else release_ticks ;;; ret 0.
Definition sys_sleep : M T Z :=
  a <- k_argint 0 ;;
  match a with
  | None => ret (-1)
  | Some n =>
      acquire_ticks ;;;
      ticks0 <- get_ticks ;;
      sleep_loop n ticks0
  end.
(** [sys_sleep] when its process runs again. *)
Definition sys_sleep_again (n ticks0 : Z) : M T Z :=
  resume acquire_ticks ;;; sleep_loop n ticks0.
Definition sys_uptime : M T Z :=
  acquire_ticks ;;;
  xticks <- get_ticks ;;
  release_ticks ;;;
  ret (i32 xticks).

(** ** [syscall.c] *)

(** [syscalls[num]], with [SYS_fork] and the other numbers of [syscall.h]. *)
Definition syscalls (num : Z) : option (M T Z) :=
  match num with
  | 1 => Some sys_fork
  | 2 => Some sys_exit
  | 3 => Some sys_wait
  | 4 => Some (k_file sys_pipe)
  | 5 => Some (k_file sys_read)
  | 6 => Some sys_kill
  | 7 => Some (k_file sys_exec)
  | 8 => Some (k_file sys_fstat)
  | 9 => Some (k_file sys_chdir)
  | 10 => Some (k_file sys_dup)
  | 11 => Some sys_getpid
  | 12 => Some sys_sbrk
  | 13 => Some sys_sleep
  | 14 => Some sys_uptime
  | 15 => Some (k_file sys_open)
  | 16 => Some (k_file sys_write)
  | 17 => Some (k_file sys_mknod)
  | 18 => Some (k_file sys_unlink)
  | 19 => Some (k_file sys_link)
  | 20 => Some (k_file sys_mkdir)
  | 21 => Some (k_file sys_close)
  | _ => None
  end.

Definition with_eax (x : Z) (t : trapframe) : trapframe :=
  MkTf (u32 x) (eip t) (esp t) (tf_eflags t) (cs t) (ds t) (es t) (ss t) (other t).
Definition set_eax (x : Z) (p : proc) : proc := set_tf (with_eax x (tf p)) p.

Definition syscall : M T unit :=
  me <- curproc ;;
  num <- reads (fun s => i32 (eax (tf (getp s me)))) ;;
  match syscalls num with
  | Some f => r <- f ;; upd me (set_eax r)
  | None =>
      p <- reads (fun s => getp s me) ;;
      on_rest (k_cprintf "%d %s: unknown sys call %d\n" [inl (pid p); inr (name p); inl num]) ;;;
      upd me (set_eax (-1))
  end.

(** ** [trap] *)

(** [if(myproc()->killed) exit();] *)
Definition exit_if_killed : M T unit :=
  k <- my killed ;; when (negb (k =? 0)) exit.
Definition trap_syscall (f : frame) : M T unit :=
  exit_if_killed ;;;
  me <- curproc ;;
  upd me (set_tf (regs f)) ;;;
  syscall ;;;
  exit_if_killed.
(** The rest of [trap] when a system call of the process [me] has slept and returns [r]. *)
Definition syscall_return (me : nat) (r : Z) : M T unit :=
  upd me (set_eax r) ;;; exit_if_killed.

Definition trap_timer : M T unit :=
  c <- cpuid ;;
  when (c =? 0)
    (acquire_ticks ;;;
     t <- get_ticks ;;
     put_ticks (u32 (t + 1)) ;;;
     wakeup ticks_chan ;;;
     release_ticks) ;;;
  on_rest k_lapiceoi.
Definition trap_spurious (f : frame) : M T unit :=
  c <- cpuid ;;
  on_rest (k_cprintf "cpu%d: spurious interrupt at %x:%x\n" [inl c; inl (cs (regs f)); inl (eip (regs f))]) ;;;
  on_rest k_lapiceoi.
Definition trap_default (f : frame) : M T unit :=
  p <- myproc ;;
  if bool_decide (p = None) || (Z.land (cs (regs f)) 3 =? 0) then
    c <- cpuid ;;
    a <- on_rest k_rcr2 ;;
    on_rest (k_cprintf "unexpected trap %d from cpu %d eip %x (cr2=0x%x)\n"
      [inl (trapno f); inl c; inl (eip (regs f)); inl a]) ;;;
    panic "trap"
  else
    n <- my pid ;;
    nm <- my name ;;
    c <- cpuid ;;
    a <- on_rest k_rcr2 ;;
    on_rest (k_cprintf "pid %d %s: trap %d err %d on cpu %d eip 0x%x addr 0x%x--kill proc\n"
      [inl n; inr nm; inl (trapno f); inl (err f); inl c; inl (eip (regs f)); inl a]) ;;;
    me <- curproc ;;
    upd me (set_killed 1).
(** The [switch] on [trapno]. *)
Definition trap_dispatch (f : frame) : M T unit :=
  let no := trapno f in
  if no =? T_IRQ0 + IRQ_TIMER then trap_timer
  else if no =? T_IRQ0 + IRQ_IDE then k_ideintr ;;; on_rest k_lapiceoi
  else if no =? T_IRQ0 + IRQ_IDE + 1 then ret tt
  else if no =? T_IRQ0 + IRQ_KBD then k_kbdintr ;;; on_rest k_lapiceoi
  else if no =? T_IRQ0 + IRQ_COM1 then k_uartintr ;;; on_rest k_lapiceoi
  else if (no =? T_IRQ0 + 7) || (no =? T_IRQ0 + IRQ_SPURIOUS) then trap_spurious f
  else trap_default f.

(** [if(myproc() && myproc()->killed && (tf->cs&3) == DPL_USER) exit();] *)
Definition exit_to_user (f : frame) : M T unit :=
  p <- myproc ;;
  match p with
  | None => ret tt
  | Some _ =>
      k <- my killed ;;
      when (negb (k =? 0) && from_user f) exit
  end.
Definition yield_on_tick (f : frame) : M T unit :=
  p <- myproc ;;
  match p with
  | None => ret tt
  | Some _ =>
      st <- my state ;;
      when (bool_decide (st = RUNNING) && (trapno f =? T_IRQ0 + IRQ_TIMER)) yield
  end.
Definition trap (f : frame) : M T unit :=
  if trapno f =? T_SYSCALL then trap_syscall f
  else
    trap_dispatch f ;;;
    exit_to_user f ;;;
    yield_on_tick f ;;;
    exit_to_user f.
(** The rest of [trap] when the process runs again after the tick. *)
Definition trap_yielded (f : frame) : M T unit :=
  resume (ret tt) ;;; exit_to_user f.
End trap.
End Trap.
