(* ===== verification/TrapSpec.v ===== *)
(** What traps guarantee ([trap.c], [sysproc.c]).

    [killed_stays_out]: however a trap of a process comes back to user mode, the process has
    not been killed.  [fault_exits]: a fault in user mode marks the process that made it and
    nothing else, and goes into [exit], which never returns.  [tick_preempts]: the clock
    counts, wakes its sleepers and takes the processor away.  [sleep_duration]: [sleep(n)]
    lasts [n] ticks, also when the counter wraps around. *)

From S2P Require Import Prelude Params Spinlock Sleeplock CString Kalloc Proc ProcSpec Machine Trap.

Module TrapSpec.
Import Proc Table Life Effects Ticks Trap.

(** The devices answer: these calls return. *)
Class CallsSpec (W : Type) {SV : Services W} {KC : Calls W} := MkCallsSpec {
  cprintf_returns : forall f l (x : W), exists x', k_cprintf f l x = Ret tt x';
  rcr2_returns : forall x : W, exists a x', k_rcr2 x = Ret a x';
  lapiceoi_returns : forall x : W, exists x', k_lapiceoi x = Ret tt x';
  switchuvm_returns : forall p k (x : W), exists x', sv_switchuvm p k x = Ret tt x';
  switchkvm_returns : forall x : W, exists x', sv_switchkvm x = Ret tt x'
}.

Section spec.
Context {W : Type} {SV : Services W} {KC : Calls W}.
#[local] Existing Instance tick_services.
Notation T := (@kst (tw W)).
Implicit Types s : T.

(** ** No way back for the killed *)
Lemma exit_not_ret s u s' : exit s <> Ret u s'.
Proof.
  unfold exit. intros (me & s1 & _ & H)%bind_inv. rewrite reads_bind in H. destruct (bool_decide _); [done|].
  binv H as [] s2 H2. binv H as [] s3 H3. rewrite reads_bind in H. binv H as [] s4 H4. binv H as [] s5 H5.
  binv H as [] s6 H6. unfold exit_zombie in H. binv H as [] s7 H7. rewrite reads_bind in H.
  binv H as [] s8 H8. binv H as [] s9 H9. binv H as [] s10 H10. by apply sched_not_ret in H.
Qed.
Lemma my_inv {A} (f : proc -> A) s a s' : my f s = Ret a s' ->
  exists p, cproc s = Some p /\ a = f (getp s p) /\ same_but_cpu s s'.
Proof.
  unfold my. intros (p & s1 & [Hp Hs]%curproc_inv & H)%bind_inv. injection H as <- <-.
  exists p. split_and!; [done| |done]. by rewrite Hs.
Qed.
Lemma exit_if_killed_inv s u s' : exit_if_killed s = Ret u s' ->
  exists p, cproc s = Some p /\ killed (getp s p) = 0 /\ same_but_cpu s s'.
Proof.
  unfold exit_if_killed. intros (k & s1 & (p & Hp & -> & Hs)%my_inv & H)%bind_inv. exists p.
  destruct (Z.eqb_spec (killed (getp s p)) 0); cbn in H; [by injection H as _ <-|by apply exit_not_ret in H].
Qed.
Lemma exit_to_user_inv f s u s' : from_user f = true -> exit_to_user f s = Ret u s' ->
  same_but_cpu s s' /\ forall p, cproc s = Some p -> killed (getp s p) = 0.
Proof.
  unfold exit_to_user. intros Hf (r & s1 & [-> Hs]%myproc_inv & H)%bind_inv. destruct (cproc s) as [q|] eqn:Hq; [|by injection H as _ <-].
  binv H as k s2 H2. apply my_inv in H2 as (p & Hp & -> & Hs2). rewrite Hf, andb_true_r in H.
  assert (p = q) as -> by (rewrite Hs in Hp; cbn in Hp; congruence).
  assert (Hg : getp s1 q = getp s q) by (by rewrite Hs). rewrite Hg in H.
  destruct (Z.eqb_spec (killed (getp s q)) 0); cbn in H; [|by apply exit_not_ret in H]. injection H as _ <-.
  split; [|by intros p [= <-]]. unfold same_but_cpu in *. rewrite Hs2, Hs. done.
Qed.

(** The ways a trap ends: at once, after the clock took the processor away, and after a
    system call of the process [me] that slept returned [r]. *)
Inductive back (f : frame) : T -> T -> Prop :=
  | back_trap s s' : trap f s = Ret tt s' -> back f s s'
  | back_yielded s s' : trap_yielded f s = Ret tt s' -> back f s s'
  | back_call me r s s' : syscall_return me r s = Ret tt s' -> back f s s'.

Lemma unkilled s s' : same_but_cpu s s' -> (forall p, cproc s = Some p -> killed (getp s p) = 0) ->
  forall p, cproc s' = Some p -> killed (getp s' p) = 0.
Proof. by intros ->. Qed.
Lemma exit_if_killed_unkilled s u s' : exit_if_killed s = Ret u s' ->
  forall p, cproc s' = Some p -> killed (getp s' p) = 0.
Proof. intros (p & Hp & Hk & Hs)%exit_if_killed_inv. apply (unkilled s); [done|]. intros q Hq. congruence. Qed.
Lemma exit_to_user_unkilled f s u s' : from_user f = true -> exit_to_user f s = Ret u s' ->
  forall p, cproc s' = Some p -> killed (getp s' p) = 0.
Proof. intros Hf [Hs Hk]%exit_to_user_inv; [|done]. by apply (unkilled s). Qed.


(** ** Runs of the small pieces *)

(** Outside of any [pushcli] or inside one, interrupts as they are. *)
Definition same_depth (c c' : Cpu.cpu) : Prop :=
  Cpu.wf c' /\ Cpu.ncli c' = Cpu.ncli c /\ Cpu.if_on c' = Cpu.if_on c.
Lemma same_depth_trans c1 c2 c3 : same_depth c1 c2 -> same_depth c2 c3 -> same_depth c1 c3.
Proof. unfold same_depth. intros (? & ? & ?) (? & ? & ?). split_and!; [done|congruence..]. Qed.

Lemma myproc_run s : Cpu.wf (cpu s) ->
  exists c, myproc s = Ret (cproc s) (set_cpu c s) /\ same_depth (cpu s) c.
Proof.
  intros Hw. destruct (Cpu.pushcli_popcli _ Hw) as (c' & H & Hn & He).
  unfold bind in H. rewrite Cpu.pushcli_run in H.
  set (c1 := Cpu.MkCpu _ _ _) in H. assert (Ho : Cpu.if_on c1 = false) by (unfold Cpu.if_on; cbn; by rewrite Cpu.land_cli).
  exists c'. split.
  - unfold myproc, on_cpu, zoom, bind, reads, ret. rewrite Cpu.pushcli_run. fold c1. cbn. rewrite (Spin.mycpu_run c1) by done. cbn.
    by rewrite H.
  - assert (Hi : Cpu.if_on c' = Cpu.if_on (cpu s)) by (unfold Cpu.if_on; by rewrite He).
    split_and!; [|done..]. unfold Cpu.wf. rewrite Hn, Hi. exact Hw.
Qed.
Lemma my_run {A} (f : proc -> A) p s : Cpu.wf (cpu s) -> cproc s = Some p ->
  exists c, my f s = Ret (f (getp s p)) (set_cpu c s) /\ same_depth (cpu s) c.
Proof.
  intros Hw Hp. destruct (myproc_run s Hw) as (c & H & Hc). exists c. split; [|done].
  unfold my, curproc. unfold bind. rewrite H, Hp. done.
Qed.
Lemma curproc_run p s : Cpu.wf (cpu s) -> cproc s = Some p ->
  exists c, curproc s = Ret p (set_cpu c s) /\ same_depth (cpu s) c.
Proof.
  intros Hw Hp. destruct (myproc_run s Hw) as (c & H & Hc). exists c. split; [|done].
  unfold curproc, bind. by rewrite H, Hp.
Qed.
Lemma cpuid_run s : Cpu.if_on (cpu s) = false -> cpuid s = Ret k_cpuid s.
Proof. intros H. unfold cpuid, on_cpu, zoom, bind. rewrite Spin.mycpu_run by done. by destruct s. Qed.
Lemma bind_exit (m : M T unit) (k : unit -> M T unit) s s1 : m s = exit s1 -> bind m k s = exit s1.
Proof. unfold bind. intros ->. destruct (exit s1) eqn:E; [by apply exit_not_ret in E|done..]. Qed.

(** [s] with other flags of the processor, of the same depth, and another state of the rest
    of the kernel. *)
Definition near s s' : Prop :=
  exists c x, s' = set_cpu c (set_w (set_inner x (w s)) s) /\ same_depth (cpu s) c.
Lemma near_trans s1 s2 s3 : near s1 s2 -> near s2 s3 -> near s1 s3.
Proof.
  intros (c & x & -> & Hc) (c' & x' & -> & Hc'). exists c', x'. split; [done|]. by eapply same_depth_trans.
Qed.
Lemma near_cpu s c : same_depth (cpu s) c -> near s (set_cpu c s).
Proof. intros H. exists c, (inner (w s)). split; [by destruct s as [? ? ? ? ? ? ? []]|done]. Qed.
Lemma near_refl s : Cpu.wf (cpu s) -> near s s.
Proof. intros H. exists (cpu s), (inner (w s)). split; [by destruct s as [? ? ? ? ? ? ? []]|done]. Qed.
Lemma on_rest_run {A} (m : M W A) s a x : Cpu.wf (cpu s) -> m (inner (w s)) = Ret a x ->
  exists s', on_rest m s = Ret a s' /\ near s s'.
Proof.
  intros Hw H. unfold on_rest, sv, rest, zoom. rewrite H. eexists. split; [done|]. exists (cpu s), x.
  split; [by destruct s as [? ? ? ? ? ? ? []]|done].
Qed.
Lemma near_off s s' : near s s' ->
  Cpu.wf (cpu s') /\ Cpu.if_on (cpu s') = Cpu.if_on (cpu s) /\ cproc s' = cproc s /\ procs s' = procs s.
Proof. by intros (c & x & -> & ? & ? & ?). Qed.
Lemma near_set_procs l s s' : near s s' -> near (set_procs l s) (set_procs l s').
Proof. intros (c & x & -> & H). by exists c, x. Qed.

(** ** Faults *)

(** Not a system call, and no interrupt that [trap] knows. *)
Definition is_fault (no : Z) : bool :=
  negb (bool_decide (no ∈ [T_SYSCALL; T_IRQ0 + IRQ_TIMER; T_IRQ0 + IRQ_IDE; T_IRQ0 + IRQ_IDE + 1;
    T_IRQ0 + IRQ_KBD; T_IRQ0 + IRQ_COM1; T_IRQ0 + 7; T_IRQ0 + IRQ_SPURIOUS])).
Lemma is_fault_default f s : is_fault (trapno f) = true ->
  (trapno f =? T_SYSCALL) = false /\ trap_dispatch f s = trap_default f s.
Proof.
  unfold is_fault. intros H%negb_true_iff%bool_decide_eq_false. unfold trap_dispatch.
  repeat match goal with
  | |- context [trapno f =? ?n] =>
      destruct (Z.eqb_spec (trapno f) n) as [E|_]; [exfalso; apply H; rewrite E; by repeat constructor|]
  end. done.
Qed.

Context {KS : CallsSpec W}.

(** Code that returns, near the state [s0], a value that satisfies [Q]. *)
Definition calm s0 {A} (m : M T A) (Q : A -> Prop) : Prop :=
  forall s, near s0 s -> exists a s', m s = Ret a s' /\ near s0 s' /\ Q a.
Lemma calm_then s0 {A B} (m : M T A) (Q : A -> Prop) (k : A -> M T B) (G : res T B -> Prop) s :
  calm s0 m Q -> near s0 s -> (forall a s1, Q a -> near s0 s1 -> G (k a s1)) -> G (bind m k s).
Proof. intros Hm Hs Hk. destruct (Hm s Hs) as (a & s1 & H & N & HQ). rewrite (bind_Ret _ _ _ _ _ H). by apply Hk. Qed.

Lemma calm_myproc s0 : calm s0 myproc (eq (cproc s0)).
Proof.
  intros s N. destruct (near_off _ _ N) as (Hw & _ & Hp & _). destruct (myproc_run s Hw) as (c & H & Hc%near_cpu).
  exists (cproc s), (set_cpu c s). split_and!; [done|by eapply near_trans|done].
Qed.
Lemma calm_my s0 {A} (f : proc -> A) me : cproc s0 = Some me -> calm s0 (my f) (eq (f (getp s0 me))).
Proof.
  intros Hme s N. destruct (near_off _ _ N) as (Hw & _ & Hp & Hl). rewrite Hme in Hp.
  destruct (my_run f me s Hw Hp) as (c & H & Hc%near_cpu).
  eexists _, (set_cpu c s). split_and!; [exact H|by eapply near_trans|]. unfold getp. by rewrite Hl.
Qed.
Lemma calm_curproc s0 me : cproc s0 = Some me -> calm s0 curproc (eq me).
Proof.
  intros Hme s N. destruct (near_off _ _ N) as (Hw & _ & Hp & Hl). rewrite Hme in Hp.
  destruct (curproc_run me s Hw Hp) as (c & H & Hc%near_cpu).
  eexists _, (set_cpu c s). split_and!; [exact H|by eapply near_trans|done].
Qed.
Lemma calm_cpuid s0 : Cpu.if_on (cpu s0) = false -> calm s0 cpuid (eq k_cpuid).
Proof.
  intros Ho s N. destruct (near_off _ _ N) as (_ & Hi & _). rewrite Ho in Hi. eexists _, s. by rewrite cpuid_run.
Qed.
Lemma calm_rest s0 {A} (m : M W A) : (forall x, exists a x', m x = Ret a x') -> calm s0 (on_rest m) (fun _ => True).
Proof.
  intros Hm s N. destruct (near_off _ _ N) as (Hw & _). destruct (Hm (inner (w s))) as (a & x & H).
  destruct (on_rest_run m s a x Hw H) as (s' & H' & N'). exists a, s'. split_and!; [done|by eapply near_trans|done].
Qed.
Lemma calm_cprintf s0 fmt l : calm s0 (on_rest (k_cprintf fmt l)) (fun _ => True).
Proof. apply calm_rest. intros x. destruct (cprintf_returns fmt l x) as [x' H]. by exists tt, x'. Qed.
Lemma calm_rcr2 s0 : calm s0 (on_rest k_rcr2) (fun _ => True).
Proof. apply calm_rest. apply rcr2_returns. Qed.
Lemma calm_lapiceoi s0 : calm s0 (on_rest k_lapiceoi) (fun _ => True).
Proof. apply calm_rest. intros x. destruct (lapiceoi_returns x) as [x' H]. by exists tt, x'. Qed.

Lemma default_user_run f s me :
  from_user f = true -> Cpu.wf (cpu s) -> Cpu.if_on (cpu s) = false -> cproc s = Some me ->
  exists s1, trap_default f s = Ret tt s1 /\ near (set_procs (alter (set_killed 1) me (procs s)) s) s1.
Proof.
  intros Hf Hw Ho Hp. unfold trap_default. pose (G r := exists s1, r = Ret tt s1 /\
    near (set_procs (alter (set_killed 1) me (procs s)) s) s1). change (G (trap_default f s)). unfold trap_default.
  eapply (calm_then s _ _ _ G); [apply calm_myproc|by apply near_refl|]. intros _ s1 <- N1. rewrite Hp.
  unfold from_user in Hf. apply Z.eqb_eq in Hf. rewrite Hf, bool_decide_false by done. cbn [orb].
  change (DPL_USER =? 0) with false. cbv iota.
  eapply (calm_then s _ _ _ G); [by apply calm_my|exact N1|]. intros n s2 _ N2.
  eapply (calm_then s _ _ _ G); [by apply calm_my|exact N2|]. intros nm s3 _ N3.
  eapply (calm_then s _ _ _ G); [by apply calm_cpuid|exact N3|]. intros c s4 _ N4.
  eapply (calm_then s _ _ _ G); [apply calm_rcr2|exact N4|]. intros a s5 _ N5.
  eapply (calm_then s _ _ _ G); [apply calm_cprintf|exact N5|]. intros u s6 _ N6.
  eapply (calm_then s _ _ _ G); [by apply calm_curproc|exact N6|]. intros q s7 <- N7.
  destruct (near_off _ _ N7) as (_ & _ & _ & Hl). eexists. split; [done|]. rewrite Hl. by apply near_set_procs.
Qed.

(** [exit_to_user] of a process that has been killed, and of the others. *)
Lemma exit_to_user_killed f s me :
  from_user f = true -> Cpu.wf (cpu s) -> cproc s = Some me -> killed (getp s me) <> 0 ->
  exists s1, exit_to_user f s = exit s1 /\ near s s1.
Proof.
  intros Hf Hw Hp Hk. pose (G r := exists s1, r = exit s1 /\ near s s1). change (G (exit_to_user f s)). unfold exit_to_user.
  eapply (calm_then s _ _ _ G); [apply calm_myproc|by apply near_refl|]. intros _ s1 <- N1. rewrite Hp.
  eapply (calm_then s _ _ _ G); [by apply calm_my|exact N1|]. intros _ s2 <- N2. rewrite Hf.
  destruct (Z.eqb_spec (killed (getp s me)) 0); [done|]. by exists s2.
Qed.
Lemma exit_to_user_pass f s :
  Cpu.wf (cpu s) -> (forall me, cproc s = Some me -> from_user f = true -> killed (getp s me) = 0) ->
  calm s (exit_to_user f) (fun _ => True).
Proof.
  intros Hw Hk s0 N0. pose (G (r : res T unit) := exists a s', r = Ret a s' /\ near s s' /\ True).
  change (G (exit_to_user f s0)). unfold exit_to_user.
  eapply (calm_then s _ _ _ G); [apply calm_myproc|done|]. intros _ s1 <- N1.
  destruct (cproc s) as [me|] eqn:Hp; [|by exists tt, s1].
  eapply (calm_then s _ _ _ G); [by apply calm_my|exact N1|]. intros _ s2 <- N2.
  destruct (from_user f); [rewrite Hk by done|rewrite andb_false_r]; by exists tt, s2.
Qed.

(** A fault in user mode ends the process that made it: [trap] goes into [exit], which
    never returns, from a state that differs from the one of the fault in the [killed] flag of
    that process, and otherwise in what the console printed. *)
Theorem fault_exits f s me :
  is_fault (trapno f) = true -> from_user f = true ->
  Cpu.wf (cpu s) -> Cpu.if_on (cpu s) = false -> cproc s = Some me -> (me < length (procs s))%nat ->
  exists s1, trap f s = exit s1 /\ near (set_procs (alter (set_killed 1) me (procs s)) s) s1 /\
    forall u s', trap f s <> Ret u s'.
Proof.
  intros Hno Hf Hw Ho Hp Hme. destruct (is_fault_default f s Hno) as [E Hd].
  destruct (default_user_run f s me Hf Hw Ho Hp) as (s1 & H1 & N1).
  destruct (near_off _ _ N1) as (Hw1 & _ & Hp1 & Hl1).
  destruct (exit_to_user_killed f s1 me Hf Hw1) as (s2 & H2 & N2); [by rewrite Hp1| |].
  { unfold getp. rewrite Hl1. cbn [procs set_procs]. rewrite list_lookup_total_alter_eq by done. done. }
  assert (Ht : trap f s = exit s2).
  { unfold trap. rewrite E. rewrite <- Hd in H1. rewrite (bind_Ret _ _ _ _ _ H1). by apply bind_exit. }
  exists s2. split_and!; [done|by eapply near_trans|]. intros u s'. rewrite Ht. apply exit_not_ret.
Qed.

(** A trap that the kernel itself made, or the scheduler, stops the machine. *)
Lemma kernel_fault f s :
  is_fault (trapno f) = true -> Z.land (cs (regs f)) 3 = 0 ->
  Cpu.wf (cpu s) -> Cpu.if_on (cpu s) = false -> trap f s = Panic "trap".
Proof.
  intros Hno Hf Hw Ho. destruct (is_fault_default f s Hno) as [E Hd]. unfold trap. rewrite E.
  apply bind_Panic. rewrite Hd. pose (G (r : res T unit) := r = Panic "trap"). change (G (trap_default f s)). unfold trap_default.
  eapply (calm_then s _ _ _ G); [apply calm_myproc|by apply near_refl|]. intros p s1 _ N1.
  rewrite Hf, orb_true_r.
  eapply (calm_then s _ _ _ G); [by apply calm_cpuid|exact N1|]. intros c s4 _ N4.
  eapply (calm_then s _ _ _ G); [apply calm_rcr2|exact N4|]. intros a s5 _ N5.
  by eapply (calm_then s _ _ _ G); [apply calm_cprintf|exact N5|].
Qed.

(** ** The clock *)

(** With interrupts off, [pushcli] and [popcli] count. *)
Lemma push_off n ie e : Z.land e Cpu.FL_IF = 0 ->
  Cpu.pushcli (Cpu.MkCpu n ie e) = Ret tt (Cpu.MkCpu (n + 1) (if n =? 0 then 0 else ie) e).
Proof.
  intros He. rewrite Cpu.pushcli_run. cbn. rewrite He. do 2 f_equal. apply Z.bits_inj'. intros k Hk.
  rewrite Z.land_spec, Z.lnot_spec by done.
  assert (Hb : Z.testbit (Z.land e Cpu.FL_IF) k = false) by (by rewrite He, Z.bits_0).
  rewrite Z.land_spec in Hb. by destruct (Z.testbit e k), (Z.testbit Cpu.FL_IF k).
Qed.
Lemma pop_off n ie e : Z.land e Cpu.FL_IF = 0 -> 0 < n -> (n = 1 -> ie = 0) ->
  Cpu.popcli (Cpu.MkCpu n ie e) = Ret tt (Cpu.MkCpu (n - 1) ie e).
Proof.
  intros He Hn Hi. rewrite Cpu.popcli_run; cbn; [|lia|unfold Cpu.if_on; cbn; by rewrite He].
  destruct (Z.eqb_spec n 1) as [->|]; [by rewrite Hi|done].
Qed.

Section off.
Context (e : Z) (He : Z.land e Cpu.FL_IF = 0).
Notation C := Cpu.MkCpu.

(** Inside a [pushcli], [myproc] changes nothing. *)
Lemma myproc_held n ie cp pl ps ip np fi x : 0 < n ->
  myproc (MkK (C n ie e) cp pl ps ip np fi x : T) = Ret cp (MkK (C n ie e) cp pl ps ip np fi x).
Proof.
  intros Hn. unfold myproc, on_cpu, zoom, bind, reads, ret. cbn. rewrite push_off by done. cbn.
  rewrite Spin.mycpu_run by (unfold Cpu.if_on; cbn; by rewrite He). cbn. rewrite pop_off; [|done|lia|lia].
  destruct (Z.eqb_spec n 0); [lia|]. by replace (n + 1 - 1) with n by lia.
Qed.
Lemma acquire_ptable_off n ie cp ps ip np fi x :
  acquire_ptable (MkK (C n ie e) cp false ps ip np fi x : T) =
  Ret tt (MkK (C (n + 1) (if n =? 0 then 0 else ie) e) cp true ps ip np fi x).
Proof. unfold acquire_ptable, on_cpu, zoom, bind. cbn. by rewrite push_off. Qed.
Lemma release_ptable_off n ie cp ps ip np fi x : 0 < n -> (n = 1 -> ie = 0) ->
  release_ptable (MkK (C n ie e) cp true ps ip np fi x : T) = Ret tt (MkK (C (n - 1) ie e) cp false ps ip np fi x).
Proof. intros. unfold release_ptable, on_cpu, zoom, bind. cbn. by rewrite pop_off. Qed.
Lemma acquire_ticks_off n ie cp pl ps ip np fi x t :
  acquire_ticks (MkK (C n ie e) cp pl ps ip np fi (MkTw W x false t)) =
  Ret tt (MkK (C (n + 1) (if n =? 0 then 0 else ie) e) cp pl ps ip np fi (MkTw W x true t)).
Proof. unfold acquire_ticks, sv, on_cpu, zoom, bind. cbn. by rewrite push_off. Qed.
Lemma release_ticks_off n ie cp pl ps ip np fi x t : 0 < n -> (n = 1 -> ie = 0) ->
  release_ticks (MkK (C n ie e) cp pl ps ip np fi (MkTw W x true t)) =
  Ret tt (MkK (C (n - 1) ie e) cp pl ps ip np fi (MkTw W x false t)).
Proof. intros. unfold release_ticks, sv, on_cpu, zoom, bind. cbn. by rewrite pop_off. Qed.

Lemma wakeup_off ch n ie cp ps ip np fi x : 0 < n -> length ps = NPROC ->
  wakeup ch (MkK (C n ie e) cp false ps ip np fi x : T) =
  Ret tt (MkK (C n ie e) cp false (map (wake (Some ch)) ps) ip np fi x).
Proof.
  intros Hn Hps. unfold wakeup. rewrite (bind_Ret _ _ _ _ _ (acquire_ptable_off n ie cp ps ip np fi x)).
  rewrite (bind_Ret _ _ _ _ _ (wakeup1_run (Some ch) (MkK (C (n + 1) _ e) cp true ps ip np fi x) Hps)).
  etrans; [apply release_ptable_off; lia|]. destruct (Z.eqb_spec n 0); [lia|]. by replace (n + 1 - 1) with n by lia.
Qed.

(** What a clock interrupt does to the table and the counter. *)
Definition tick_table (ps : list proc) : list proc :=
  if k_cpuid =? 0 then map (wake (Some ticks_chan)) ps else ps.
Definition tick_count (t : Z) : Z := if k_cpuid =? 0 then u32 (t + 1) else t.
Lemma trap_timer_run n ie cp ps ip np fi x t : 0 <= n -> length ps = NPROC ->
  exists x' ie', trap_timer (MkK (C n ie e) cp false ps ip np fi (MkTw W x false t)) =
    Ret tt (MkK (C n ie' e) cp false (tick_table ps) ip np fi (MkTw W x' false (tick_count t))).
Proof.
  intros Hn Hps. destruct (lapiceoi_returns x) as [x' Hx]. exists x', (if (k_cpuid =? 0) && (n =? 0) then 0 else ie).
  unfold trap_timer, tick_table, tick_count.
  rewrite (bind_Ret _ _ _ _ _ (cpuid_run (MkK (C n ie e) cp false ps ip np fi (MkTw W x false t)) ltac:(unfold Cpu.if_on; cbn; by rewrite He))).
  destruct (k_cpuid =? 0); cbn [when andb].
  - erewrite bind_Ret; cycle 1.
    { rewrite (bind_Ret _ _ _ _ _ (acquire_ticks_off n ie cp false ps ip np fi x t)). unfold get_ticks, put_ticks.
      rewrite bind_reads, bind_modify. cbn [w ticks].
      etrans; [eapply bind_Ret, wakeup_off; [lia|done]|].
      apply release_ticks_off; [lia|]. intros. replace n with 0 by lia. done. }
    unfold on_rest, sv, rest, zoom. cbn. rewrite Hx. by replace (n + 1 - 1) with n by lia.
  - unfold on_rest, sv, rest, zoom, bind, ret. cbn. by rewrite Hx.
Qed.

Lemma sched_held k ie p ps ip np fi x : state (ps !!! p) <> RUNNING ->
  sched k (MkK (C 1 ie e) (Some p) true ps ip np fi x : T) =
  Sleep sched_chan (MkK (C 1 ie e) (Some p) true (alter (set_ctx (MkCtx k ie)) p ps) ip np fi x).
Proof.
  intros Hr. unfold sched, curproc. erewrite bind_Ret; [|erewrite bind_Ret; [|by apply myproc_held]; done].
  rewrite bind_reads. cbn [plock negb]. assert (Ho : Cpu.if_on (C 1 ie e) = false) by (unfold Cpu.if_on; cbn; by rewrite He).
  erewrite bind_Ret; [|unfold on_cpu, zoom; cbn [cpu]; by rewrite (Spin.mycpu_run _ Ho)]. rewrite !bind_reads.
  cbn [cpu set_cpu Cpu.ncli]. change (negb (1 =? 1)) with false. cbv iota. rewrite bind_reads. unfold getp. cbn [procs].
  by rewrite bool_decide_false, Ho.
Qed.

(** The process [me] in the loop of [sys_sleep], and asleep there, when the clock shows [t]. *)
Definition looping (me : nat) (t : Z) s : Prop := exists ie ps ip np fi x,
  s = MkK (C 1 ie e) (Some me) false ps ip np fi (MkTw W x true t) /\
  length ps = NPROC /\ (me < NPROC)%nat /\ killed (ps !!! me) = 0.
Definition asleep (me : nat) (t : Z) s : Prop := exists ie ps ip np fi x,
  s = MkK (C 1 ie e) (Some me) true ps ip np fi (MkTw W x false t) /\
  length ps = NPROC /\ (me < NPROC)%nat /\ killed (ps !!! me) = 0 /\
  state (ps !!! me) = SLEEPING /\ chan_ (ps !!! me) = Some ticks_chan /\ at_ (ctx (ps !!! me)) = AtSleep.

Lemma sleep_ticks_run me t s : looping me t s ->
  exists s', sleep ticks_chan release_ticks s = Sleep sched_chan s' /\ asleep me t s'.
Proof.
  intros (ie & ps & ip & np & fi & x & -> & Hps & Hme & Hk).
  set (ps' := alter (set_state SLEEPING) me (alter (set_chan (Some ticks_chan)) me ps)).
  assert (Hl : ps' !!! me = set_state SLEEPING (set_chan (Some ticks_chan) (ps !!! me))).
  { unfold ps'. by rewrite !list_lookup_total_alter_eq by (rewrite ?length_alter; lia). }
  eexists. split.
  - unfold sleep. erewrite bind_Ret; [|by apply myproc_held]. cbv iota.
    erewrite bind_Ret; [|apply acquire_ptable_off]. change (1 + 1) with 2. change (1 =? 0) with false. cbv iota.
    erewrite bind_Ret; [|by apply release_ticks_off]. change (2 - 1) with 1. unfold sleep_sched, Proc.upd.
    rewrite !bind_modify. cbn [set_procs cpu cproc plock procs initproc nextpid first w]. apply (sched_held AtSleep ie me ps').
    by rewrite Hl.
  - eexists _, _, _, _, _, _. split; [done|]. unfold ps'. rewrite !length_alter. split_and!; [done|done|..];
      rewrite list_lookup_total_alter_eq by (rewrite !length_alter; lia); fold ps'; by rewrite Hl.
Qed.
Lemma sleep_loop_run n t0 me t s : looping me t s ->
  if u32 (t - t0) <? u32 n
  then exists s', sleep_loop n t0 s = Sleep sched_chan s' /\ asleep me t s'
  else exists s', sleep_loop n t0 s = Ret 0 s' /\ ticks (w s') = t.
Proof.
  intros Hs. pose proof Hs as (ie & ps & ip & np & fi & x & -> & Hps & Hme & Hk). unfold sleep_loop, get_ticks.
  rewrite bind_reads. cbn [w ticks]. destruct (_ <? _).
  - unfold my, curproc. erewrite bind_Ret; cycle 1.
    { erewrite bind_Ret; [|erewrite bind_Ret; [|by apply myproc_held]; done]. done. }
    unfold getp. cbn [procs]. rewrite Hk. cbn [negb Z.eqb].
    destruct (sleep_ticks_run _ _ _ Hs) as (s' & H & H'). exists s'. split; [|done]. by apply bind_Sleep.
  - unfold release_ticks, sv, on_cpu, zoom, bind, ret. cbn. rewrite Cpu.popcli_run; cbn; [|lia|unfold Cpu.if_on; cbn; by rewrite He].
    eexists. by split.
Qed.
End off.
Notation C := Cpu.MkCpu.

(** An interrupt between two instructions of the kernel: the gate turns interrupts off, and
    [iret] on again. *)
Definition interrupt (f : frame) : M T unit := on_cpu Cpu.cli ;;; trap f ;;; on_cpu Cpu.sti.
(** What happens to the sleeping process [me] from one tick to the next, on a processor that
    has nothing else to do: the scheduler goes on, the clock interrupts it, it finds the
    process awake, and the process goes on. *)
Definition nap (f : frame) (me : nat) (n ticks0 : Z) : M T Z :=
  scheduler_back ;;; scheduler_leave ;;;
  interrupt f ;;;
  scheduler_enter ;;; scheduler_slot me ;;;
  sys_sleep_again n ticks0.
Fixpoint naps (f : frame) (me : nat) (n ticks0 : Z) (k : nat) (r : res T Z) : res T Z :=
  match k, r with
  | S k', Sleep _ s => naps f me n ticks0 k' (nap f me n ticks0 s)
  | _, _ => r
  end.

Lemma idle_run e ie cp ps ip np fi x t : Z.land e Cpu.FL_IF = 0 ->
  exists e' x', (scheduler_back ;;; scheduler_leave) (MkK (C 1 ie e) cp true ps ip np fi (MkTw W x false t)) =
    Ret tt (MkK (C 0 ie e') None false ps ip np fi (MkTw W x' false t)).
Proof.
  intros He. destruct (switchkvm_returns x) as [x' Hx]. eexists _, x'.
  unfold scheduler_back, scheduler_leave, release_ptable, sv, on_cpu, zoom, modify, bind. cbn. unfold rest, zoom. cbn.
  rewrite Hx. cbn. rewrite Cpu.popcli_run; cbn; [done|lia|unfold Cpu.if_on; cbn; by rewrite He].
Qed.
Lemma clock_run f e ie ps ip np fi x t : trapno f = T_IRQ0 + IRQ_TIMER -> length ps = NPROC ->
  exists e' ie' x', interrupt f (MkK (C 0 ie e) None false ps ip np fi (MkTw W x false t)) =
    Ret tt (MkK (C 0 ie' e') None false (tick_table ps) ip np fi (MkTw W x' false (tick_count t))).
Proof.
  intros Hf Hps. unfold interrupt, on_cpu at 1, Cpu.cli.
  set (e0 := Z.land e (Z.lnot Cpu.FL_IF)). assert (He : Z.land e0 Cpu.FL_IF = 0) by apply Cpu.land_cli.
  destruct (trap_timer_run e0 He 0 ie None ps ip np fi x t) as (x1 & ie1 & H); [lia|done|].
  set (s1 := MkK (C 0 ie1 e0) None false (tick_table ps) ip np fi (MkTw W x1 false (tick_count t)) : T) in H.
  assert (Hw : Cpu.wf (cpu s1)) by (split; cbn; lia).
  assert (exists s2, trap f (MkK (C 0 ie e0) None false ps ip np fi (MkTw W x false t)) = Ret tt s2 /\ near s1 s2)
    as (s2 & H2 & (c & x2 & -> & _ & Hn & _)).
  { unfold trap, trap_dispatch. cbv zeta. rewrite Hf, Z.eqb_refl.
    change (T_IRQ0 + IRQ_TIMER =? T_SYSCALL) with false. cbv iota. rewrite (bind_Ret _ _ _ _ _ H).
    pose (G (r : res T unit) := exists s2, r = Ret tt s2 /\ near s1 s2).
    eapply (calm_then s1 _ _ _ G); [by apply exit_to_user_pass|by apply near_refl|]. intros _ s2 _ N2.
    eapply (calm_then s1 _ (fun _ => True) _ G); [|exact N2|].
    { intros s3 N3. unfold yield_on_tick. destruct (calm_myproc s1 s3 N3) as (a & s4 & H4 & N4 & <-).
      rewrite (bind_Ret _ _ _ _ _ H4). by exists tt, s4. }
    intros _ s3 _ N3. destruct (exit_to_user_pass f s1 Hw ltac:(done) s3 N3) as ([] & s4 & H4 & N4 & _). by exists s4. }
  erewrite bind_Ret; [|unfold zoom, modify; cbn; done]. rewrite (bind_Ret _ _ _ _ _ H2). destruct c as [n ie2 e2]. cbn in Hn. subst n.
  eexists _, _, x2. done.
Qed.
Lemma pick_run e ie me ps ip np fi x t : state (ps !!! me) = RUNNABLE ->
  exists e' ie' x', (scheduler_enter ;;; scheduler_slot me) (MkK (C 0 ie e) None false ps ip np fi (MkTw W x false t)) =
    Ret true (MkK (C 1 ie' e') (Some me) true (alter (set_state RUNNING) me ps) ip np fi (MkTw W x' false t)) /\
    Z.land e' Cpu.FL_IF = 0.
Proof.
  intros Hr. destruct (switchuvm_returns (pgdir (ps !!! me)) (kstack (ps !!! me)) x) as [x' Hx].
  eexists _, _, x'. split.
  - erewrite bind_Ret; [|unfold scheduler_enter, acquire_ptable, on_cpu, zoom, bind; cbn; rewrite Cpu.pushcli_run; cbn; done].
    unfold scheduler_slot. rewrite bind_reads. unfold getp. cbn [procs set_plock set_cpu].
    rewrite Hr. rewrite bool_decide_true by done. cbn [negb]. rewrite bind_modify.
    erewrite bind_Ret; [|unfold sv, zoom; cbn; unfold rest, zoom; cbn; rewrite Hx; done]. done.
  - cbn. apply Cpu.land_cli.
Qed.
Lemma resume_run e ie me ps ip np fi x t :
  Z.land e Cpu.FL_IF = 0 -> length ps = NPROC -> (me < NPROC)%nat -> killed (ps !!! me) = 0 -> at_ (ctx (ps !!! me)) = AtSleep ->
  exists e' s', resume acquire_ticks (MkK (C 1 ie e) (Some me) true ps ip np fi (MkTw W x false t)) = Ret None s' /\
    looping e' me t s' /\ Z.land e' Cpu.FL_IF = 0.
Proof.
  intros He Hps Hme Hk Ha. eexists _, _. split.
  - unfold resume, curproc. erewrite bind_Ret; [|erewrite bind_Ret; [|by apply myproc_held]; done].
    rewrite bind_reads. unfold getp. cbn [procs]. rewrite Ha. cbv iota.
    unfold on_cpu at 1, Cpu.set_intena. erewrite bind_Ret; [|unfold zoom, modify; cbn; done].
    unfold Proc.upd. rewrite bind_modify.
    erewrite bind_Ret; cycle 1.
    { unfold release_ptable, on_cpu, zoom, bind. cbn. rewrite Cpu.popcli_run; cbn; [done|lia|unfold Cpu.if_on; cbn; by rewrite He]. }
    erewrite bind_Ret; [done|]. unfold acquire_ticks, sv, on_cpu, zoom, bind. cbn. rewrite Cpu.pushcli_run. cbn. done.
  - split; [|apply Cpu.land_cli]. eexists _, _, _, _, _, _. split; [done|]. cbn. rewrite length_alter.
    by rewrite list_lookup_total_alter_eq by lia.
Qed.
Lemma nap_run f me n t0 e t s :
  k_cpuid = 0 -> trapno f = T_IRQ0 + IRQ_TIMER -> Z.land e Cpu.FL_IF = 0 -> asleep e me t s ->
  exists e' s', nap f me n t0 s = sleep_loop n t0 s' /\ looping e' me (u32 (t + 1)) s' /\ Z.land e' Cpu.FL_IF = 0.
Proof.
  intros Hc Hf He (ie & ps & ip & np & fi & x & -> & Hps & Hme & Hk & Hs & Hch & Ha).
  destruct (idle_run e ie (Some me) ps ip np fi x t He) as (e1 & x1 & H1).
  destruct (clock_run f e1 ie ps ip np fi x1 t Hf Hps) as (e2 & ie2 & x2 & H2).
  assert (Hw : tick_table ps !!! me = set_state RUNNABLE (ps !!! me)).
  { unfold tick_table. rewrite Hc. cbn [Z.eqb].
    etrans; [apply (list_lookup_total_fmap (wake (Some ticks_chan))); lia|]. unfold wake.
    by rewrite Hs, Hch, !bool_decide_true. }
  assert (Hl : length (tick_table ps) = NPROC) by (unfold tick_table; destruct (_ =? _); by rewrite ?length_map).
  destruct (pick_run e2 ie2 me (tick_table ps) ip np fi x2 (tick_count t)) as (e3 & ie3 & x3 & H3 & He3); [by rewrite Hw|].
  destruct (resume_run e3 ie3 me (alter (set_state RUNNING) me (tick_table ps)) ip np fi x3 (tick_count t) He3)
    as (e4 & s4 & H4 & H5 & He4); [by rewrite length_alter|done|..];
    [rewrite list_lookup_total_alter_eq by lia; by rewrite Hw..|].
  exists e4, s4. replace (u32 (t + 1)) with (tick_count t) by (unfold tick_count; by rewrite Hc). split; [|done].
  unfold nap. apply bind_inv in H1 as (u1 & s1 & H1a & H1b). rewrite (bind_Ret _ _ _ _ _ H1a), (bind_Ret _ _ _ _ _ H1b).
  rewrite (bind_Ret _ _ _ _ _ H2). apply bind_inv in H3 as (u3 & s3 & H3a & H3b).
  rewrite (bind_Ret _ _ _ _ _ H3a), (bind_Ret _ _ _ _ _ H3b). unfold sys_sleep_again. by rewrite (bind_Ret _ _ _ _ _ H4).
Qed.

Lemma naps_run f me n t0 k : k_cpuid = 0 -> trapno f = T_IRQ0 + IRQ_TIMER -> forall e s d,
  Z.land e Cpu.FL_IF = 0 -> looping e me (u32 (t0 + d)) s -> 0 <= d -> d + Z.of_nat k <= u32 n ->
  if d + Z.of_nat k <? u32 n
  then exists e' s', naps f me n t0 k (sleep_loop n t0 s) = Sleep sched_chan s' /\ asleep e' me (u32 (t0 + d + Z.of_nat k)) s'
  else exists s', naps f me n t0 k (sleep_loop n t0 s) = Ret 0 s' /\ ticks (w s') = u32 (t0 + u32 n).
Proof.
  intros Hc Hf. pose proof (u32_range n) as Hn.
  assert (Hd : forall d, 0 <= d -> d <= u32 n -> u32 (u32 (t0 + d) - t0) = d).
  { intros d H0 H1. rewrite u32_sub_l. replace (t0 + d - t0) with d by lia. apply u32_id. lia. }
  induction k as [|k IH]; intros e s d He Hs H0 H1; pose proof (sleep_loop_run e He n t0 me _ s Hs) as H; rewrite Hd in H by lia.
  - cbn [naps]. replace (d + Z.of_nat 0) with d by lia. replace (t0 + d + Z.of_nat 0) with (t0 + d) by lia.
    destruct (Z.ltb_spec d (u32 n)) as [|Hge]; [by exists e|]. by replace (u32 n) with d by lia.
  - destruct (Z.ltb_spec d (u32 n)) as [|Hge]; [|lia]. destruct H as (s1 & -> & Hs1). cbn [naps].
    destruct (nap_run f me n t0 e _ s1 Hc Hf He Hs1) as (e2 & s2 & -> & Hs2 & He2).
    assert (E : u32 (u32 (t0 + d) + 1) = u32 (t0 + (d + 1))) by (rewrite u32_add_l; f_equal; lia). rewrite E in Hs2.
    specialize (IH e2 s2 (d + 1) He2 Hs2). replace (d + 1 + Z.of_nat k) with (d + Z.of_nat (S k)) in IH by lia.
    replace (t0 + d + Z.of_nat (S k)) with (t0 + (d + 1) + Z.of_nat k) by lia. apply IH; lia.
Qed.
Lemma sys_sleep_enters n me s :
  k_argint 0 s = Ret (Some n) s -> cproc s = Some me -> (me < NPROC)%nat -> killed (getp s me) = 0 ->
  table_ok s -> plock s = false -> tickslock (w s) = false -> Cpu.ncli (cpu s) = 0 ->
  exists e s', sys_sleep s = sleep_loop n (ticks (w s)) s' /\ looping e me (ticks (w s)) s' /\ Z.land e Cpu.FL_IF = 0.
Proof.
  intros Ha Hp Hme Hk Ht Hl Htl Hc. unfold sys_sleep. rewrite (bind_Ret _ _ _ _ _ Ha). cbv iota.
  destruct s as [[n0 ie e] cp pl ps ip np fi [x tl t]]. cbn in *. subst cp pl tl n0. eexists _, _. split.
  - erewrite bind_Ret; [|unfold acquire_ticks, sv, on_cpu, zoom, bind; cbn; rewrite Cpu.pushcli_run; cbn; done].
    unfold get_ticks. rewrite bind_reads. done.
  - split; [|apply Cpu.land_cli]. by eexists _, _, _, _, _, _.
Qed.


Lemma yield_tick_run f me s s2 :
  trapno f = T_IRQ0 + IRQ_TIMER -> cproc s = Some me -> state (getp s me) = RUNNING -> plock s = false ->
  Cpu.ncli (cpu s) = 0 -> Cpu.if_on (cpu s) = false -> (me < length (procs s))%nat -> near s s2 ->
  exists s' ie, yield_on_tick f s2 = Sleep sched_chan s' /\ ticks (w s') = ticks (w s) /\ plock s' = true /\
    procs s' = alter (set_ctx (MkCtx AtYield ie)) me (alter (set_state RUNNABLE) me (procs s)).
Proof.
  intros Hf Hp Hr Hl Hc Ho Hme N. pose (G (r : res T unit) := exists s' ie, r = Sleep sched_chan s' /\ ticks (w s') = ticks (w s) /\
    plock s' = true /\ procs s' = alter (set_ctx (MkCtx AtYield ie)) me (alter (set_state RUNNABLE) me (procs s))).
  change (G (yield_on_tick f s2)). unfold yield_on_tick.
  eapply (calm_then s _ _ _ G); [apply calm_myproc|exact N|]. intros _ s3 <- N3. rewrite Hp.
  eapply (calm_then s _ _ _ G); [by apply calm_my|exact N3|]. intros _ s4 <- (c & x & -> & Hw & Hn & Hi).
  rewrite Hr, bool_decide_true, Hf, Z.eqb_refl by done. cbn [andb when]. rewrite Hc in Hn. rewrite Ho in Hi.
  destruct c as [n ie e]. cbn in Hn. subst n. unfold Cpu.if_on in Hi. apply negb_false_iff, Z.eqb_eq in Hi. cbn in Hi.
  destruct s as [c0 cp pl ps ip np fi [x0 tl t]]. cbn in *. subst cp pl. unfold set_cpu, set_w, set_inner. cbn.
  unfold yield. eexists _, _. split.
  - erewrite bind_Ret; [|by apply acquire_ptable_off]. change (0 + 1) with 1.
    unfold curproc. erewrite bind_Ret; [|erewrite bind_Ret; [|by apply myproc_held]; done].
    unfold Proc.upd. rewrite bind_modify. apply (sched_held e Hi AtYield _ me (alter (set_state RUNNABLE) me ps)).
    by rewrite list_lookup_total_alter_eq.
  - done.
Qed.

(** A clock interrupt of a process that runs takes the processor away from it: on the
    first processor the counter advances and everybody who sleeps on it becomes runnable, and
    on every processor the process itself goes back among the runnable ones and [trap] is left
    in [yield], with the lock of the table held for the scheduler. *)
Theorem tick_preempts f me s :
  trapno f = T_IRQ0 + IRQ_TIMER -> cproc s = Some me -> (me < NPROC)%nat ->
  state (getp s me) = RUNNING -> killed (getp s me) = 0 ->
  table_ok s -> plock s = false -> tickslock (w s) = false -> Cpu.ncli (cpu s) = 0 -> Cpu.if_on (cpu s) = false ->
  exists s' ie, trap f s = Sleep sched_chan s' /\ ticks (w s') = tick_count (ticks (w s)) /\ plock s' = true /\
    procs s' = alter (set_ctx (MkCtx AtYield ie)) me (alter (set_state RUNNABLE) me (tick_table (procs s))).
Proof.
  intros Hf Hp Hme Hr Hk Ht Hl Htl Hc Ho. unfold Cpu.if_on in Ho. apply negb_false_iff, Z.eqb_eq in Ho.
  destruct s as [[n0 ie e] cp pl ps ip np fi [x tl t]]. cbn in *. subst cp pl tl n0. unfold getp in *. cbn in *.
  destruct (trap_timer_run e Ho 0 ie (Some me) ps ip np fi x t) as (x1 & ie1 & H); [lia|done|].
  set (s1 := MkK (Cpu.MkCpu 0 ie1 e) (Some me) false (tick_table ps) ip np fi (MkTw W x1 false (tick_count t)) : T) in H.
  assert (Hw : Cpu.wf (cpu s1)) by (split; cbn; lia).
  assert (Hg : getp s1 me = ps !!! me).
  { unfold getp, s1, tick_table. cbn. destruct (_ =? _); [|done].
    etrans; [apply (list_lookup_total_fmap (wake (Some ticks_chan))); unfold table_ok in Ht; cbn in Ht; lia|]. unfold wake. by rewrite Hr. }
  pose (G (r : res T unit) := exists s' ie, r = Sleep sched_chan s' /\ ticks (w s') = tick_count t /\ plock s' = true /\
    procs s' = alter (set_ctx (MkCtx AtYield ie)) me (alter (set_state RUNNABLE) me (tick_table ps))).
  change (G (trap f (MkK (Cpu.MkCpu 0 ie e) (Some me) false ps ip np fi (MkTw W x false t)))).
  unfold trap, trap_dispatch. cbv zeta. rewrite Hf, Z.eqb_refl. change (T_IRQ0 + IRQ_TIMER =? T_SYSCALL) with false. cbv iota.
  rewrite (bind_Ret _ _ _ _ _ H).
  eapply (calm_then s1 _ _ _ G); [apply exit_to_user_pass|by apply near_refl|]; [done| |].
  { intros q [= <-] _. by rewrite Hg. }
  intros _ s2 _ N2. destruct (yield_tick_run f me s1 s2) as (s3 & ie3 & H3 & ? & ? & ?); [done|done|by rewrite Hg|done|done|..].
  { unfold Cpu.if_on. cbn. by rewrite Ho. } { cbn. unfold tick_table. unfold table_ok in Ht. cbn in Ht. destruct (_ =? _); rewrite ?length_map; lia. } { done. }
  exists s3, ie3. split_and!; [by apply bind_Sleep|done..].
Qed.
End spec.
End TrapSpec.

(** ** A machine with one processor and one process *)
Module TrapDemo.
Import Proc Table Effects Ticks Trap TrapSpec.

Definition calls : Calls unit := {|
  k_cpuid := 0;
  k_rcr2 := ret 0;
  k_cprintf _ _ := ret tt;
  k_lapiceoi := ret tt;
  k_ideintr := ret tt;
  k_kbdintr := ret tt;
  k_uartintr := ret tt;
  k_argint _ := ret (Some 2);
  k_file _ := ret 0
|}.
#[local] Existing Instance Kernel.ok_services.
#[local] Existing Instance calls.
#[local] Existing Instance tick_services.
#[global] Instance calls_ok : CallsSpec unit.
Proof. split; intros; destruct x; by repeat eexists. Qed.

(** The process 0 runs in user mode and traps, when the clock shows [2^32 - 1]. *)
Definition user_regs (n : Z) : trapframe := MkTf n 0 0 0 27 0 0 0 [].
Definition running : @kst (tw unit) :=
  MkK (Cpu.MkCpu 0 0 0) (Some 0%nat) false
    (alter (set_state RUNNING) 0%nat (replicate NPROC zero_proc)) (Some 1%nat) 2 0 (MkTw unit tt false (2 ^ 32 - 1)).

Definition after {A} (r : res (@kst (tw unit)) A) : @kst (tw unit) :=
  match r with Ret _ s | Sleep _ s => s | Panic _ => running end.
Lemma fault_exits_witness : exists s1, trap (MkFrame (user_regs 0) 14 6) running = exit s1 /\ killed (getp s1 0) = 1.
Proof.
  destruct (fault_exits (MkFrame (user_regs 0) 14 6) running 0%nat) as (s1 & H & (c & x & -> & _) & _);
    [done|done|by split; cbn|done|done|vm_compute; lia|].
  eexists. by split.
Defined.
Lemma tick_preempts_witness : exists s', trap (MkFrame (user_regs 0) 32 0) running = Sleep sched_chan s' /\ ticks (w s') = 0.
Proof.
  destruct (tick_preempts (MkFrame (user_regs 0) 32 0) 0%nat running) as (s' & ie & H & Ht & _);
    [done|done|vm_compute; lia|done|done|done|done|done|done|done|].
  exists s'. split; [exact H|]. rewrite Ht. reflexivity.
Defined.
End TrapDemo.
