(* ===== verification/Apic.v ===== *)
(** Interrupt controllers, the real-time clock and the start of the serial port ([lapic.c],
    [ioapic.c], [picirq.c], [uart.c]).

    The devices are behind their registers in memory and their ports ([Class Bus]); a class
    per device states what its manual says, as far as the code relies on it.  The theorems:
    which interrupts reach which processor after [ioapicinit] and any calls of
    [ioapicenable]; [cmostime] returns a date that the clock really showed, although it reads
    the fields one by one; the local controller after [lapicinit]. *)

From S2P Require Import Prelude Bytes Params CString Trap.

(** Reads and writes of device registers, 32 bits in memory or bytes at ports. *)
Class Bus (D : Type) := MkBus {
  readl : Z -> M D Z;
  writel : Z -> Z -> M D unit;
  pinb : Z -> M D Z;
  poutb : Z -> Z -> M D unit
}.

(** ** [ioapic.c] and [picirq.c] *)
Module Ioapic.
Import Trap.

Definition IOAPIC : Z := 4273995776.
Definition REG_ID : Z := 0.
Definition REG_VER : Z := 1.
Definition REG_TABLE : Z := 16.
Definition INT_DISABLED : Z := 65536.
(** [&ioapic->reg] and [&ioapic->data]. *)
Definition a_reg : Z := IOAPIC.
Definition a_data : Z := IOAPIC + 16.

Section ioapic.
Context {D : Type} `{!Bus D}.
Definition ioapicread (reg : Z) : M D Z := writel a_reg reg ;;; readl a_data.
Definition ioapicwrite (reg data : Z) : M D unit := writel a_reg reg ;;; writel a_data data.

(** [ioapicid] is what [mpinit] found; the message goes to the console. *)
Variables (ioapicid : Z) (cprintf : string -> M D unit).
Definition ioapicinit : M D unit :=
  v <- ioapicread REG_VER ;;
  let maxintr := Z.land (Z.shiftr v 16) 255 in
  x <- ioapicread REG_ID ;;
  let id := Z.shiftr x 24 in
  when (negb (id =? ioapicid)) (cprintf "ioapicinit: id isn't equal to ioapicid; not a MP\n") ;;;
  for_loop (A := unit) (fun i =>
    let i := Z.of_nat i in
    ioapicwrite (REG_TABLE + 2 * i) (Z.lor INT_DISABLED (T_IRQ0 + i)) ;;;
    ioapicwrite (REG_TABLE + 2 * i + 1) 0 ;;;
    ret None) 0 (Z.to_nat (maxintr + 1)) ;;;
  ret tt.
Definition ioapicenable (irq cpunum : Z) : M D unit :=
  ioapicwrite (REG_TABLE + 2 * irq) (T_IRQ0 + irq) ;;;
  ioapicwrite (REG_TABLE + 2 * irq + 1) (u32 (Z.shiftl cpunum 24)).

Definition IO_PIC1 : Z := 32.
Definition IO_PIC2 : Z := 160.
Definition picinit : M D unit :=
  poutb (IO_PIC1 + 1) 255 ;;;
  poutb (IO_PIC2 + 1) 255.
End ioapic.
End Ioapic.

(** The controller: a window on a file of registers. *)
Class IoapicSpec (D : Type) `{!Bus D} := MkIoapicSpec {
  sel : D -> Z;
  file : D -> Z -> Z;
  sel_write d r : exists d', writel Ioapic.a_reg r d = Ret tt d' /\ sel d' = r /\ file d' = file d;
  data_write d v : 16 <= sel d -> exists d', writel Ioapic.a_data v d = Ret tt d' /\ file d' = <[sel d := v]> (file d);
  data_read d : exists d', readl Ioapic.a_data d = Ret (file d (sel d)) d' /\ file d' = file d
}.

Module IoapicSpecs.
Import Trap Ioapic.

Section spec.
Context {D : Type} `{!Bus D} `{!IoapicSpec D}.
Variables (ioapicid : Z) (cprintf : string -> M D unit).
(** The console does not touch the controller. *)
Hypothesis cprintf_ok : forall s d, exists d', cprintf s d = Ret tt d' /\ file d' = file d.

Lemma ioapicread_ok r d : exists d', ioapicread r d = Ret (file d r) d' /\ file d' = file d.
Proof.
  destruct (sel_write d r) as (d1 & E1 & <- & Hf). destruct (data_read d1) as (d2 & E2 & Hf2). exists d2.
  unfold ioapicread. rewrite (bind_Ret _ _ _ _ _ E1), E2. by rewrite Hf2, Hf.
Qed.
Lemma ioapicwrite_ok r v d : 16 <= r -> exists d', ioapicwrite r v d = Ret tt d' /\ file d' = <[r := v]> (file d).
Proof.
  intros Hr. destruct (sel_write d r) as (d1 & E1 & Hs & Hf). destruct (data_write d1 v) as (d2 & E2 & Hf2); [by rewrite Hs|].
  exists d2. unfold ioapicwrite. rewrite (bind_Ret _ _ _ _ _ E1), E2. by rewrite Hf2, Hf, Hs.
Qed.

(** The entry of the interrupt [i] in the redirection table: masked or a vector, and the
    processor that gets it. *)
Definition entry (d : D) (i : Z) : Z * Z := (file d (16 + 2 * i), file d (16 + 2 * i + 1)).
Definition maxintr (d : D) : Z := Z.land (Z.shiftr (file d 1) 16) 255.

Lemma two_writes i a b d : 0 <= i ->
  exists d', (ioapicwrite (16 + 2 * i) a ;;; ioapicwrite (16 + 2 * i + 1) b) d = Ret tt d' /\
    (forall j, entry d' j = if j =? i then (a, b) else entry d j) /\ file d' 1 = file d 1.
Proof.
  intros Hi. destruct (ioapicwrite_ok (16 + 2 * i) a d) as (d1 & E1 & H1); [lia|].
  destruct (ioapicwrite_ok (16 + 2 * i + 1) b d1) as (d2 & E2 & H2); [lia|]. exists d2. rewrite (bind_Ret _ _ _ _ _ E1), E2.
  split; [done|]. unfold entry. rewrite H2, H1. split.
  - intros j. destruct (Z.eqb_spec j i) as [->|Hne].
    + rewrite fn_lookup_insert, fn_lookup_insert_ne by lia. by rewrite fn_lookup_insert.
    + by rewrite !fn_lookup_insert_ne by lia.
  - by rewrite !fn_lookup_insert_ne by lia.
Qed.

Lemma init_loop n : forall i d, exists d',
  for_loop (A := unit) (fun i =>
    let i := Z.of_nat i in
    ioapicwrite (REG_TABLE + 2 * i) (Z.lor INT_DISABLED (T_IRQ0 + i)) ;;;
    ioapicwrite (REG_TABLE + 2 * i + 1) 0 ;;;
    ret None) i n d = Ret None d' /\
  (forall j, entry d' j = if (Z.of_nat i <=? j) && (j <? Z.of_nat (i + n)) then (Z.lor INT_DISABLED (T_IRQ0 + j), 0) else entry d j).
Proof.
  induction n as [|n IH]; intros i d; cbn [for_loop].
  - exists d. split; [done|]. intros j. destruct (Z.leb_spec (Z.of_nat i) j), (Z.ltb_spec j (Z.of_nat (i + 0))); try lia; done.
  - destruct (two_writes (Z.of_nat i) (Z.lor INT_DISABLED (T_IRQ0 + Z.of_nat i)) 0 d) as (d1 & E & Hd & _); [lia|].
    apply bind_inv in E as (u & d0 & Ea & Eb). destruct (IH (S i) d1) as (d' & E' & Hd'). exists d'. split.
    + erewrite bind_Ret; cycle 1.
      { cbv zeta. rewrite (bind_Ret _ _ _ _ _ Ea), (bind_Ret _ _ _ _ _ Eb). done. }
      exact E'.
    + intros j. rewrite Hd', Hd.
      destruct (Z.leb_spec (Z.of_nat (S i)) j), (Z.leb_spec (Z.of_nat i) j), (Z.ltb_spec j (Z.of_nat (S i + n))),
        (Z.ltb_spec j (Z.of_nat (i + S n))); try lia; cbn [andb]; destruct (Z.eqb_spec j (Z.of_nat i)) as [->|]; try lia; done.
Qed.
Lemma ioapicinit_ok d : exists d', ioapicinit ioapicid cprintf d = Ret tt d' /\
  (forall j, 0 <= j <= maxintr d -> entry d' j = (Z.lor INT_DISABLED (T_IRQ0 + j), 0)).
Proof.
  destruct (ioapicread_ok REG_VER d) as (d1 & E1 & H1). destruct (ioapicread_ok REG_ID d1) as (d2 & E2 & H2).
  unfold ioapicinit. rewrite (bind_Ret _ _ _ _ _ E1). cbv zeta. rewrite (bind_Ret _ _ _ _ _ E2).
  change (Z.land (Z.shiftr (file d REG_VER) 16) 255) with (maxintr d).
  assert (exists d3, when (negb (Z.shiftr (file d1 REG_ID) 24 =? ioapicid)) (cprintf "ioapicinit: id isn't equal to ioapicid; not a MP\n") d2 = Ret tt d3)
    as (d3 & E3).
  { destruct (negb _); [|by exists d2]. destruct (cprintf_ok "ioapicinit: id isn't equal to ioapicid; not a MP\n" d2) as (d3 & E3 & _). by exists d3. }
  rewrite (bind_Ret _ _ _ _ _ E3). destruct (init_loop (Z.to_nat (maxintr d + 1)) 0 d3) as (d4 & E4 & H4).
  rewrite (bind_Ret _ _ _ _ _ E4). exists d4. split; [done|]. intros j Hj. rewrite H4.
  destruct (Z.leb_spec (Z.of_nat 0) j), (Z.ltb_spec j (Z.of_nat (0 + Z.to_nat (maxintr d + 1)))); try lia; done.
Qed.

(** The calls of [ioapicenable] that the drivers make, one after the other. *)
Fixpoint enable_all (l : list (Z * Z)) : M D unit :=
  match l with [] => ret tt | (irq, c) :: l => ioapicenable irq c ;;; enable_all l end.
(** The processor that the last call for [i] names. *)
Fixpoint routed (l : list (Z * Z)) (i : Z) (c : option Z) : option Z :=
  match l with [] => c | (irq, c') :: l => routed l i (if i =? irq then Some c' else c) end.
Definition table_entry (i : Z) (c : option Z) : Z * Z :=
  match c with Some c => (T_IRQ0 + i, u32 (Z.shiftl c 24)) | None => (Z.lor INT_DISABLED (T_IRQ0 + i), 0) end.

Lemma enable_all_ok l : forall d (c : Z -> option Z), Forall (fun p => 0 <= fst p) l ->
  exists d', enable_all l d = Ret tt d' /\ forall i, entry d i = table_entry i (c i) -> entry d' i = table_entry i (routed l i (c i)).
Proof.
  induction l as [|[irq k] l IH]; intros d c Hl; [by exists d|]. apply Forall_cons in Hl as [Hi Hl]. cbn in Hi. cbn [enable_all routed].
  destruct (two_writes irq (T_IRQ0 + irq) (u32 (Z.shiftl k 24)) d Hi) as (d1 & E1 & H1 & _).
  destruct (IH d1 (fun i => if i =? irq then Some k else c i) Hl) as (d' & E' & H'). exists d'. split.
  - unfold ioapicenable. by rewrite (bind_Ret _ _ _ _ _ E1).
  - intros i He. apply H'. rewrite H1. by destruct (Z.eqb_spec i irq) as [->|].
Qed.

(** After [ioapicinit] and any calls of [ioapicenable], an interrupt has the vector
    [T_IRQ0 + irq] and goes to the processor that the last call for it named, and every
    interrupt for which there was no call is masked. *)
Theorem ioapic_routes l d : Forall (fun p => 0 <= fst p) l ->
  exists d', (ioapicinit ioapicid cprintf ;;; enable_all l) d = Ret tt d' /\
    forall i, 0 <= i <= maxintr d -> entry d' i = table_entry i (routed l i None).
Proof.
  intros Hl. destruct (ioapicinit_ok d) as (d1 & E1 & H1). destruct (enable_all_ok l d1 (fun _ => None) Hl) as (d2 & E2 & H2).
  exists d2. rewrite (bind_Ret _ _ _ _ _ E1). split; [done|]. intros i Hi. apply H2. by apply H1.
Qed.
End spec.
End IoapicSpecs.

(** ** The real-time clock ([lapic.c], [date.h]) *)
Module Cmos.

Record rtcdate := MkDate { second : Z; minute : Z; hour : Z; day : Z; month : Z; year : Z }.
#[global] Instance rtcdate_eq_dec : EqDecision rtcdate.
Proof. solve_decision. Defined.

Definition CMOS_PORT : Z := 112.
Definition CMOS_RETURN : Z := 113.
Definition CMOS_STATA : Z := 10.
Definition CMOS_STATB : Z := 11.
Definition CMOS_UIP : Z := Z.shiftl 1 7.
Definition SECS : Z := 0.
Definition MINS : Z := 2.
Definition HOURS : Z := 4.
Definition DAY : Z := 7.
Definition MONTH : Z := 8.
Definition YEAR : Z := 9.

Section cmos.
Context {D : Type} `{!Bus D}.
Definition microdelay (us : Z) : M D unit := ret tt.
Definition cmos_read (reg : Z) : M D Z :=
  poutb CMOS_PORT reg ;;;
  microdelay 200 ;;;
  pinb CMOS_RETURN.
Definition fill_rtcdate : M D rtcdate :=
  s <- cmos_read SECS ;;
  m <- cmos_read MINS ;;
  h <- cmos_read HOURS ;;
  d <- cmos_read DAY ;;
  mo <- cmos_read MONTH ;;
  y <- cmos_read YEAR ;;
  ret (MkDate s m h d mo y).
Definition no_fuel : string := "out of fuel".
(** The loop until two readings agree. *)
Fixpoint read_twice (fuel : nat) : M D rtcdate :=
  match fuel with
  | O => panic no_fuel
  | S fuel =>
      t1 <- fill_rtcdate ;;
      a <- cmos_read CMOS_STATA ;;
      if negb (Z.land a CMOS_UIP =? 0) then read_twice fuel else
      t2 <- fill_rtcdate ;;
      if bool_decide (t1 = t2) then ret t1 else read_twice fuel
  end.
Definition CONV (x : Z) : Z := u32 (Z.shiftr x 4 * 10 + Z.land x 15).
Definition cmostime (fuel : nat) : M D rtcdate :=
  sb <- cmos_read CMOS_STATB ;;
  let bcd := Z.land sb (Z.shiftl 1 2) =? 0 in
  t <- read_twice fuel ;;
  let t := if bcd then MkDate (CONV (second t)) (CONV (minute t)) (CONV (hour t)) (CONV (day t)) (CONV (month t)) (CONV (year t)) else t in
  ret (MkDate (second t) (minute t) (hour t) (day t) (month t) (u32 (year t + 2000))).
End cmos.
End Cmos.

(** The clock: [date k] is the date, with a year of this century, at the [k]-th reading of a
    register, and [uip k] whether the clock is being updated then.  The registers hold the
    numbers in binary, or two digits in a byte. *)
Definition digits (binary : bool) (x : Z) : Z := if binary then x else x / 10 * 16 + x mod 10.
Definition raw (binary : bool) (t : Cmos.rtcdate) : Cmos.rtcdate :=
  let f := digits binary in
  Cmos.MkDate (f (Cmos.second t)) (f (Cmos.minute t)) (f (Cmos.hour t)) (f (Cmos.day t)) (f (Cmos.month t)) (f (Cmos.year t)).
Definition field_of (reg : Z) (t : Cmos.rtcdate) : Z :=
  if reg =? 0 then Cmos.second t else if reg =? 2 then Cmos.minute t else if reg =? 4 then Cmos.hour t
  else if reg =? 7 then Cmos.day t else if reg =? 8 then Cmos.month t else Cmos.year t.
Class RtcSpec (D : Type) `{!Bus D} := MkRtcSpec {
  binary : bool;
  now : D -> nat;
  date : nat -> Cmos.rtcdate;
  uip : nat -> bool;
  rtc_field d reg : reg ∈ [0; 2; 4; 7; 8; 9] ->
    exists d', Cmos.cmos_read reg d = Ret (field_of reg (raw binary (date (now d)))) d' /\ now d' = S (now d);
  rtc_stata d : exists v d', Cmos.cmos_read 10 d = Ret v d' /\ now d' = S (now d) /\ (Z.land v 128 =? 0) = negb (uip (now d));
  rtc_statb d : exists v d', Cmos.cmos_read 11 d = Ret v d' /\ now d' = S (now d) /\ (Z.land v 4 =? 0) = negb binary;
  date_range k : let t := date k in
    0 <= Cmos.second t < 100 /\ 0 <= Cmos.minute t < 100 /\ 0 <= Cmos.hour t < 100 /\ 0 <= Cmos.day t < 100 /\
    0 <= Cmos.month t < 100 /\ 0 <= Cmos.year t < 100
}.

Module CmosSpec.
Import Cmos.

Lemma conv_digits x : 0 <= x < 100 -> CONV (digits false x) = x.
Proof.
  intros Hx. cbn. unfold CONV. pose proof (Z.div_mod x 10). pose proof (Z.mod_pos_bound x 10 ltac:(lia)).
  assert (0 <= x / 10 < 10) by (split; [apply Z.div_pos; lia|apply Z.div_lt_upper_bound; lia]).
  change 15 with (Z.ones 4). rewrite Z.land_ones, Z.shiftr_div_pow2 by lia. change (2 ^ 4) with 16.
  replace (x / 10 * 16 + x mod 10) with (x mod 10 + x / 10 * 16) by lia. rewrite Z.div_add, Z.mod_add by lia. rewrite (Z.div_small (x mod 10)), (Z.mod_small (x mod 10)) by lia.
  rewrite u32_id; lia.
Qed.

Section spec.
Context {D : Type} `{!Bus D} `{!RtcSpec D}.

(** The six fields, each at its own moment. *)
Definition smear (k : nat) : rtcdate :=
  let f i := raw binary (date (k + i)) in
  MkDate (second (f 0%nat)) (minute (f 1%nat)) (hour (f 2%nat)) (day (f 3%nat)) (month (f 4%nat)) (year (f 5%nat)).
Lemma fill_ok d : exists d', fill_rtcdate d = Ret (smear (now d)) d' /\ now d' = (now d + 6)%nat.
Proof.
  unfold fill_rtcdate.
  destruct (rtc_field d SECS) as (d1 & E1 & N1); [set_solver|]. rewrite (bind_Ret _ _ _ _ _ E1).
  destruct (rtc_field d1 MINS) as (d2 & E2 & N2); [set_solver|]. rewrite (bind_Ret _ _ _ _ _ E2).
  destruct (rtc_field d2 HOURS) as (d3 & E3 & N3); [set_solver|]. rewrite (bind_Ret _ _ _ _ _ E3).
  destruct (rtc_field d3 DAY) as (d4 & E4 & N4); [set_solver|]. rewrite (bind_Ret _ _ _ _ _ E4).
  destruct (rtc_field d4 MONTH) as (d5 & E5 & N5); [set_solver|]. rewrite (bind_Ret _ _ _ _ _ E5).
  destruct (rtc_field d5 YEAR) as (d6 & E6 & N6); [set_solver|]. rewrite (bind_Ret _ _ _ _ _ E6).
  exists d6. split; [|lia]. unfold smear, ret. rewrite N5, N4, N3, N2, N1.
  replace (now d + 0)%nat with (now d) by lia. replace (now d + 1)%nat with (S (now d)) by lia.
  replace (now d + 2)%nat with (S (S (now d))) by lia. replace (now d + 3)%nat with (S (S (S (now d)))) by lia.
  replace (now d + 4)%nat with (S (S (S (S (now d))))) by lia. replace (now d + 5)%nat with (S (S (S (S (S (now d)))))) by lia. done.
Qed.
Lemma smear_steady k t : (forall j, (k <= j <= k + 5)%nat -> date j = t) -> smear k = raw binary t.
Proof. intros H. unfold smear. by rewrite !H by lia. Qed.

(** During any thirteen readings the clock moves at most once. *)
Definition slow : Prop := forall k, exists u, (k <= u <= k + 13)%nat /\
  (forall j, (k <= j < u)%nat -> date j = date k) /\ (forall j, (u <= j <= k + 12)%nat -> date j = date (k + 12)).

Lemma agree_real k : slow -> smear k = smear (k + 7) -> exists j, (k <= j <= k + 12)%nat /\ smear k = raw binary (date j).
Proof.
  intros Hs E. destruct (Hs k) as (u & Hu & Hold & Hnew). destruct (decide (k + 6 <= u)%nat) as [Hl|Hl].
  - exists k. split; [lia|]. apply smear_steady. intros j Hj. apply Hold. lia.
  - exists (k + 12)%nat. split; [lia|]. rewrite E. apply smear_steady. intros j Hj. apply Hnew. lia.
Qed.

(** The clock stands still, and says so, for two turns of the loop from [q] on. *)
Definition still (q : nat) : Prop := forall j, (q <= j <= q + 26)%nat -> date j = date q /\ uip j = false.

Lemma read_twice_ok q fuel : slow -> still q -> forall d, (now d <= q + 12)%nat -> (q + 13 <= now d + fuel)%nat ->
  exists t d' j, read_twice fuel d = Ret t d' /\ (now d <= j < now d')%nat /\ t = raw binary (date j).
Proof.
  intros Hs Hq. induction fuel as [|fuel IH]; intros d Hd Hf; [lia|]. cbn [read_twice].
  destruct (fill_ok d) as (d1 & E1 & N1). rewrite (bind_Ret _ _ _ _ _ E1).
  destruct (rtc_stata d1) as (v & d2 & E2 & N2 & Hv). change 10 with CMOS_STATA in E2. rewrite (bind_Ret _ _ _ _ _ E2).
  change CMOS_UIP with 128. rewrite Hv, negb_involutive. destruct (uip (now d1)) eqn:Hu.
  - assert (now d < q)%nat by (destruct (decide (now d < q)%nat) as [|Hn]; [done|];
      destruct (Hq (now d1) ltac:(lia)) as [_ Hx]; congruence).
    destruct (IH d2) as (t & d' & j & E & Hj & Ht); [lia..|]. exists t, d', j. split_and!; [done|lia..|done].
  - destruct (fill_ok d2) as (d3 & E3 & N3). rewrite (bind_Ret _ _ _ _ _ E3).
    replace (now d2) with (now d + 7)%nat by lia. case_bool_decide as Ht.
    + destruct (agree_real _ Hs Ht) as (j & Hj & Ej). exists (smear (now d)), d3, j. split_and!; [done|lia..|done].
    + assert (now d < q)%nat.
      { destruct (decide (now d < q)%nat) as [|Hn]; [done|]. exfalso. apply Ht.
        rewrite !(smear_steady _ (date q)); [done| |]; intros j Hj; apply Hq; lia. }
      destruct (IH d3) as (t & d' & j & E & Hj & Et); [lia..|]. exists t, d', j. split_and!; [done|lia..|done].
Qed.

End spec.
End CmosSpec.

(** ** The local interrupt controller ([lapic.c]) *)
Module Lapic.
Import Trap.

Definition ID : Z := 32 / 4.
Definition VER : Z := 48 / 4.
Definition TPR : Z := 128 / 4.
Definition EOI : Z := 176 / 4.
Definition SVR : Z := 240 / 4.
Definition ENABLE : Z := 256.
Definition ESR : Z := 640 / 4.
Definition ICRLO : Z := 768 / 4.
Definition INIT : Z := 1280.
Definition STARTUP : Z := 1536.
Definition DELIVS : Z := 4096.
Definition ASSERT : Z := 16384.
Definition LEVEL : Z := 32768.
Definition BCAST : Z := 524288.
Definition ICRHI : Z := 784 / 4.
Definition TIMER : Z := 800 / 4.
Definition X1 : Z := 11.
Definition PERIODIC : Z := 131072.
Definition PCINT : Z := 832 / 4.
Definition LINT0 : Z := 848 / 4.
Definition LINT1 : Z := 864 / 4.
Definition ERROR : Z := 880 / 4.
Definition MASKED : Z := 65536.
Definition TICR : Z := 896 / 4.
Definition TDCR : Z := 992 / 4.
Definition IRQ_ERROR : Z := 19.

Section lapic.
Context {D : Type} `{!Bus D}.
(** The pointer [lapic] that [mpinit] sets, memory, and the devices. *)
Record lst := MkL { lapic : Z; lram : mem; hw : D }.
Definition on_hw {A} (m : M D A) : M lst A := zoom hw (fun d s => MkL (lapic s) (lram s) d) m.
Definition lapicr (index : Z) : M lst Z := b <- reads lapic ;; on_hw (readl (b + 4 * index)).
Definition lapicw (index value : Z) : M lst unit :=
  b <- reads lapic ;;
  on_hw (writel (b + 4 * index) (u32 value)) ;;;
  lapicr ID ;;;
  ret tt.

(** How often [ICRLO] is read before the message must be delivered. *)
Variable polls : nat.
Definition no_fuel : string := "out of fuel".
Fixpoint deliver (fuel : nat) : M lst unit :=
  match fuel with
  | O => panic no_fuel
  | S fuel => v <- lapicr ICRLO ;; if negb (Z.land v DELIVS =? 0) then deliver fuel else ret tt
  end.
Definition lapicinit : M lst unit :=
  b <- reads lapic ;;
  if b =? 0 then ret tt else
  lapicw SVR (Z.lor ENABLE (T_IRQ0 + IRQ_SPURIOUS)) ;;;
  lapicw TDCR X1 ;;;
  lapicw TIMER (Z.lor PERIODIC (T_IRQ0 + IRQ_TIMER)) ;;;
  lapicw TICR 10000000 ;;;
  lapicw LINT0 MASKED ;;;
  lapicw LINT1 MASKED ;;;
  v <- lapicr VER ;;
  when (4 <=? Z.land (Z.shiftr v 16) 255) (lapicw PCINT MASKED) ;;;
  lapicw ERROR (T_IRQ0 + IRQ_ERROR) ;;;
  lapicw ESR 0 ;;;
  lapicw ESR 0 ;;;
  lapicw EOI 0 ;;;
  lapicw ICRHI 0 ;;;
  lapicw ICRLO (Z.lor (Z.lor BCAST INIT) LEVEL) ;;;
  deliver polls ;;;
  lapicw TPR 0.
Definition lapicid : M lst Z :=
  b <- reads lapic ;;
  if b =? 0 then ret 0 else v <- lapicr ID ;; ret (Z.shiftr v 24).
Definition lapiceoi : M lst unit :=
  b <- reads lapic ;; when (negb (b =? 0)) (lapicw EOI 0).

Definition KERNBASE : Z := 2147483648.
(** A [ushort] in memory. *)
Definition store_ushort (a v : Z) : M lst unit := modify (fun s => MkL (lapic s) (KString.store_bytes (lram s) a (le_bytes 2 v)) (hw s)).
Definition lapicstartap (apicid addr : Z) : M lst unit :=
  on_hw (poutb Cmos.CMOS_PORT 15) ;;;
  on_hw (poutb (Cmos.CMOS_PORT + 1) 10) ;;;
  let wrv := KERNBASE + Z.lor (Z.shiftl 64 4) 103 in
  store_ushort wrv 0 ;;;
  store_ushort (wrv + 2) (Z.shiftr addr 4) ;;;
  lapicw ICRHI (Z.shiftl apicid 24) ;;;
  lapicw ICRLO (Z.lor (Z.lor INIT LEVEL) ASSERT) ;;;
  on_hw (Cmos.microdelay 200) ;;;
  lapicw ICRLO (Z.lor INIT LEVEL) ;;;
  on_hw (Cmos.microdelay 100) ;;;
  for_loop (A := unit) (fun _ =>
    lapicw ICRHI (Z.shiftl apicid 24) ;;;
    lapicw ICRLO (Z.lor STARTUP (Z.shiftr addr 12)) ;;;
    on_hw (Cmos.microdelay 200) ;;;
    ret None) 0 2 ;;;
  ret tt.
End lapic.
#[global] Arguments lst : clear implicits.
End Lapic.

(** The controller at [base]: its registers keep what is written, reading does not change
    them, and a message is delivered after a while.  [ipis] are the messages that have been
    sent to other processors, each the two halves of the command register. *)
Inductive delivers {D} `{!Bus D} (base : Z) : nat -> D -> D -> Prop :=
  | delivers_now d v d' : readl (base + 4 * Lapic.ICRLO) d = Ret v d' -> Z.land v Lapic.DELIVS = 0 -> delivers base 0 d d'
  | delivers_later n d v d1 d' : readl (base + 4 * Lapic.ICRLO) d = Ret v d1 -> Z.land v Lapic.DELIVS <> 0 -> delivers base n d1 d' -> delivers base (S n) d d'.
Class LapicSpec (D : Type) `{!Bus D} := MkLapicSpec {
  base : Z;
  base_nonzero : base <> 0;
  lpatience : nat;
  reg : D -> Z -> Z;
  ipis : D -> list (Z * Z);
  reg_write d i v : 0 <= i < 1024 -> exists d', writel (base + 4 * i) v d = Ret tt d' /\ reg d' = <[i := v]> (reg d) /\
    ipis d' = if i =? Lapic.ICRLO then ipis d ++ [(reg d Lapic.ICRHI, v)] else ipis d;
  reg_read d i : 0 <= i < 1024 -> exists v d', readl (base + 4 * i) d = Ret v d' /\ reg d' = reg d /\ ipis d' = ipis d;
  reg_delivers d : exists n d', (n < lpatience)%nat /\ delivers base n d d' /\ reg d' = reg d /\ ipis d' = ipis d;
  reg_port d p v : exists d', poutb p v d = Ret tt d' /\ reg d' = reg d /\ ipis d' = ipis d
}.

Module LapicSpecs.
Import Trap Lapic.

Section spec.
Context {D : Type} `{!Bus D} `{!LapicSpec D}.
Implicit Types s : lst D.

(** The registers and messages after a sequence of writes. *)
Fixpoint writes (l : list (Z * Z)) (r : (Z -> Z) * list (Z * Z)) : (Z -> Z) * list (Z * Z) :=
  match l with
  | [] => r
  | (i, v) :: l => writes l (<[i := v]> r.1, if i =? ICRLO then r.2 ++ [(r.1 ICRHI, v)] else r.2)
  end.
Definition state_of s : (Z -> Z) * list (Z * Z) := (reg (hw s), ipis (hw s)).

Ltac index := vm_compute; split; congruence.
Lemma lapicr_ok i s : 0 <= i < 1024 -> lapic s = base -> exists v s', lapicr i s = Ret v s' /\ lapic s' = base /\ state_of s' = state_of s /\ lram s' = lram s.
Proof.
  intros Hx Hb. destruct (reg_read (hw s) i Hx) as (v & d & E & Hr & Hi). exists v, (MkL base (lram s) d). unfold lapicr. rewrite bind_reads, Hb.
  unfold on_hw, zoom. rewrite E, Hb. unfold state_of. cbn. by rewrite Hr, Hi.
Qed.
Lemma lapicw_ok i v s : 0 <= i < 1024 -> lapic s = base ->
  exists s', lapicw i v s = Ret tt s' /\ lapic s' = base /\ state_of s' = writes [(i, u32 v)] (state_of s) /\ lram s' = lram s.
Proof.
  intros Hx Hb. destruct (reg_write (hw s) i (u32 v) Hx) as (d & E & Hr & Hi).
  destruct (lapicr_ok ID (MkL base (lram s) d)) as (x & s' & E' & Hb' & Hs' & Hm); [index|done|]. exists s'. split.
  - unfold lapicw. rewrite bind_reads, Hb. unfold on_hw at 1. erewrite bind_Ret; [|apply zoom_Ret; exact E]. rewrite Hb. by rewrite (bind_Ret _ _ _ _ _ E').
  - split_and!; [done| |done]. rewrite Hs'. unfold state_of. cbn. by rewrite Hr, Hi.
Qed.

(** [m] returns and makes the writes [l]. *)
Definition does (m : M (lst D) unit) (l : list (Z * Z)) : Prop := forall s, lapic s = base ->
  exists s', m s = Ret tt s' /\ lapic s' = base /\ state_of s' = writes l (state_of s).
Lemma writes_app l l' r : writes (l ++ l') r = writes l' (writes l r).
Proof. revert r. induction l as [|[i v] l IH]; intros r; cbn; [done|apply IH]. Qed.
Lemma does_bind m l k l' : does m l -> does k l' -> does (m ;;; k) (l ++ l').
Proof.
  intros Hm Hk s Hb. destruct (Hm s Hb) as (s1 & E1 & Hb1 & H1). destruct (Hk s1 Hb1) as (s2 & E2 & Hb2 & H2).
  exists s2. rewrite (bind_Ret _ _ _ _ _ E1). split_and!; [done..|]. by rewrite H2, H1, writes_app.
Qed.
Lemma does_w i v : 0 <= i < 1024 -> does (lapicw i v) [(i, u32 v)].
Proof. intros Hx s Hb. destruct (lapicw_ok i v s Hx Hb) as (s' & E & ? & ? & _). by exists s'. Qed.
Lemma lapicr_run i m d v d' : readl (base + 4 * i) d = Ret v d' -> lapicr i (MkL base m d) = Ret v (MkL base m d').
Proof. intros E. unfold lapicr, on_hw, zoom, bind, reads. cbn. by rewrite E. Qed.
Lemma does_deliver : does (deliver lpatience) [].
Proof.
  intros [b m d] Hb. cbn in Hb. subst b. destruct (reg_delivers d) as (n & d' & Hn & Hd & Hr & Hi).
  exists (MkL base m d'). split; [|split; [done|]; unfold state_of; cbn; by rewrite Hr, Hi].
  clear Hr Hi. revert Hn. generalize lpatience.
  induction Hd as [d v d' E Hv|n d v d1 d' E Hv Hd IH]; intros [|fuel] Hn; try lia; cbn [deliver]; rewrite (bind_Ret _ _ _ _ _ (lapicr_run _ _ _ _ _ E)).
  - by rewrite Hv.
  - rewrite (proj2 (Z.eqb_neq _ _) Hv). apply IH. lia.
Qed.
Lemma does_when b m l : does m l -> does (when b m) (if b then l else []).
Proof. intros Hm. destruct b; [done|]. intros s Hb. by exists s. Qed.
Lemma does_port p v : does (on_hw (poutb p v)) [].
Proof.
  intros [b m d] Hb. cbn in Hb. subst b. destruct (reg_port d p v) as (d' & E & Hr & Hi). eexists. split; [unfold on_hw; apply zoom_Ret; exact E|].
  unfold state_of. cbn. by rewrite Hr, Hi.
Qed.
Lemma does_delay us : does (on_hw (Cmos.microdelay us)) [].
Proof. intros [b m d] Hb. by eexists. Qed.
Lemma does_store a v : does (store_ushort a v) [].
Proof. intros [b m d] Hb. by eexists. Qed.
Lemma does_twice (body : M (lst D) (option unit)) l :
  (forall s, lapic s = base -> exists s', body s = Ret None s' /\ lapic s' = base /\ state_of s' = writes l (state_of s)) ->
  does (for_loop (fun _ => body) 0 2 ;;; ret tt) (l ++ l).
Proof.
  intros Hb s Hs. destruct (Hb s Hs) as (s1 & E1 & Hs1 & W1). destruct (Hb s1 Hs1) as (s2 & E2 & Hs2 & W2). exists s2.
  split_and!; [|done|by rewrite writes_app, W2, W1]. erewrite bind_Ret; [done|]. cbn [for_loop].
  by rewrite (bind_Ret _ _ _ _ _ E1), (bind_Ret _ _ _ _ _ E2).
Qed.

(** The second half of [lapicinit], which depends on the version. *)
Definition init_tail (v : Z) : list (Z * Z) :=
  (if 4 <=? Z.land (Z.shiftr v 16) 255 then [(PCINT, MASKED)] else []) ++
  [(ERROR, 51); (ESR, 0); (ESR, 0); (EOI, 0); (ICRHI, 0); (ICRLO, 558336); (TPR, 0)].
(** After [lapicinit] the controller is on, its timer interrupts again and again with the
    vector of the clock, the wires for external interrupts are masked, and errors have a
    vector of their own. *)
Theorem lapicinit_ok s : lapic s = base ->
  exists s', lapicinit lpatience s = Ret tt s' /\ let r := reg (hw s') in
    r SVR = Z.lor ENABLE (T_IRQ0 + IRQ_SPURIOUS) /\ r TIMER = Z.lor PERIODIC (T_IRQ0 + IRQ_TIMER) /\ r TICR = 10000000 /\
    r LINT0 = MASKED /\ r LINT1 = MASKED /\ r ERROR = T_IRQ0 + IRQ_ERROR /\ r TPR = 0.
Proof.
  intros Hb. unfold lapicinit. rewrite bind_reads, Hb. destruct (Z.eqb_spec base 0) as [E|_]; [by apply base_nonzero in E|].
  assert (H1 : does (lapicw SVR (Z.lor ENABLE (T_IRQ0 + IRQ_SPURIOUS)) ;;; lapicw TDCR X1 ;;; lapicw TIMER (Z.lor PERIODIC (T_IRQ0 + IRQ_TIMER)) ;;;
    lapicw TICR 10000000 ;;; lapicw LINT0 MASKED ;;; lapicw LINT1 MASKED)
    [(SVR, 319); (TDCR, 11); (TIMER, 131104); (TICR, 10000000); (LINT0, MASKED); (LINT1, MASKED)]).
  { eapply (does_bind _ [_]); [apply does_w; index|]. do 4 (eapply (does_bind _ [_]); [apply does_w; index|]). apply does_w; index. }
  assert (H2 : forall v, does (when (4 <=? Z.land (Z.shiftr v 16) 255) (lapicw PCINT MASKED) ;;; lapicw ERROR (T_IRQ0 + IRQ_ERROR) ;;; lapicw ESR 0 ;;;
    lapicw ESR 0 ;;; lapicw EOI 0 ;;; lapicw ICRHI 0 ;;; lapicw ICRLO (Z.lor (Z.lor BCAST INIT) LEVEL) ;;; deliver lpatience ;;; lapicw TPR 0) (init_tail v)).
  { intros v. apply does_bind; [apply does_when, does_w; index|]. do 6 (eapply (does_bind _ [_]); [apply does_w; index|]). apply (does_bind _ []); [apply does_deliver|apply does_w; index]. }
  destruct (H1 s Hb) as (s1 & E1 & Hb1 & Hs1).
  destruct (lapicr_ok VER s1 ltac:(index) Hb1) as (v & s2 & E2 & Hb2 & Hs2 & _). destruct (H2 v s2 Hb2) as (s3 & E3 & Hb3 & Hs3).
  exists s3. split.
  - repeat (apply bind_inv in E1 as ([] & ? & Ex & E1); rewrite (bind_Ret _ _ _ _ _ Ex); clear Ex).
    by rewrite (bind_Ret _ _ _ _ _ E1), (bind_Ret _ _ _ _ _ E2).
  - rewrite Hs2, Hs1 in Hs3. cbv zeta. assert (Hr : reg (hw s3) = (state_of s3).1) by done. rewrite Hr, Hs3. unfold init_tail. rewrite writes_app.
    by destruct (4 <=? _).
Qed.

(** [lapicstartap] resets the processor [apicid] and sends it to the page of [addr]: the
    messages it gets are INIT, its end, and twice STARTUP with the page number. *)
Theorem lapicstartap_ok s a addr : lapic s = base -> exists s', lapicstartap a addr s = Ret tt s' /\
  let hi := u32 (Z.shiftl a 24) in
  ipis (hw s') = ipis (hw s) ++ [(hi, Z.lor (Z.lor INIT LEVEL) ASSERT); (hi, Z.lor INIT LEVEL);
    (hi, u32 (Z.lor STARTUP (Z.shiftr addr 12))); (hi, u32 (Z.lor STARTUP (Z.shiftr addr 12)))].
Proof.
  intros Hb. set (hi := u32 (Z.shiftl a 24)). set (go := u32 (Z.lor STARTUP (Z.shiftr addr 12))).
  assert (H : does (lapicstartap a addr) [(ICRHI, hi); (ICRLO, 50432); (ICRLO, 34048); (ICRHI, hi); (ICRLO, go); (ICRHI, hi); (ICRLO, go)]).
  { unfold lapicstartap. cbv zeta. do 2 (apply (does_bind _ []); [apply does_port|]). do 2 (apply (does_bind _ []); [apply does_store|]).
    do 2 (eapply (does_bind _ [_]); [apply does_w; index|]). apply (does_bind _ []); [apply does_delay|]. eapply (does_bind _ [_]); [apply does_w; index|].
    apply (does_bind _ []); [apply does_delay|]. apply (does_twice _ [(ICRHI, hi); (ICRLO, go)]). intros s1 Hs1.
    destruct (lapicw_ok ICRHI (Z.shiftl a 24) s1 ltac:(index) Hs1) as (s2 & E2 & Hs2 & W2 & _).
    destruct (lapicw_ok ICRLO (Z.lor STARTUP (Z.shiftr addr 12)) s2 ltac:(index) Hs2) as (s3 & E3 & Hs3 & W3 & _).
    destruct (does_delay 200 s3 Hs3) as (s4 & E4 & Hs4 & W4).
    exists s4. rewrite (bind_Ret _ _ _ _ _ E2), (bind_Ret _ _ _ _ _ E3), (bind_Ret _ _ _ _ _ E4). by rewrite W4, W3, W2. }
  destruct (H s Hb) as (s' & E & _ & W). exists s'. split; [done|]. cbv zeta. assert (Hr : ipis (hw s') = (state_of s').2) by done.
  rewrite Hr, W. cbn [writes fst snd state_of]. change (ICRHI =? ICRLO) with false. change (ICRLO =? ICRLO) with true. cbv iota.
  repeat (rewrite fn_lookup_insert || rewrite fn_lookup_insert_ne by done). by rewrite <- !app_assoc.
Qed.
End spec.
End LapicSpecs.

(** ** A machine with all three devices *)
Module ApicDemo.
Import Trap Ioapic IoapicSpecs Cmos CmosSpec.

Record bus := MkB { b_sel : Z; b_file : Z -> Z; b_time : nat; b_index : Z; b_reg : Z -> Z; b_ipis : list (Z * Z) }.
(** The clock moves once, at the twentieth reading. *)
Definition clock (k : nat) : rtcdate := MkDate (if (k <? 20)%nat then 59 else 0) (if (k <? 20)%nat then 14 else 15) 10 1 6 24.
Definition LAPIC : Z := 4276092928.
#[global] Instance b_bus : Bus bus := {|
  readl a d := Ret (if a =? a_data then b_file d (b_sel d) else if a =? LAPIC + 4 * Lapic.ICRLO then 0 else b_reg d ((a - LAPIC) / 4)) d;
  writel a v d := Ret tt
    (if a =? a_reg then MkB v (b_file d) (b_time d) (b_index d) (b_reg d) (b_ipis d)
     else if a =? a_data then MkB (b_sel d) (<[b_sel d := v]> (b_file d)) (b_time d) (b_index d) (b_reg d) (b_ipis d)
     else let i := (a - LAPIC) / 4 in MkB (b_sel d) (b_file d) (b_time d) (b_index d) (<[i := v]> (b_reg d))
       (if i =? Lapic.ICRLO then b_ipis d ++ [(b_reg d Lapic.ICRHI, v)] else b_ipis d));
  pinb p d := Ret (if b_index d =? 10 then 0 else if b_index d =? 11 then 0 else field_of (b_index d) (raw false (clock (b_time d))))
    (MkB (b_sel d) (b_file d) (S (b_time d)) (b_index d) (b_reg d) (b_ipis d));
  poutb p v d := Ret tt (if p =? 112 then MkB (b_sel d) (b_file d) (b_time d) v (b_reg d) (b_ipis d) else d)
|}.
#[global] Instance b_ioapic : IoapicSpec bus.
Proof.
  refine {| sel := b_sel; file := b_file |}; intros; eexists; (split; [reflexivity|]); done.
Defined.
#[global] Instance b_rtc : RtcSpec bus.
Proof.
  refine {| binary := false; now := b_time; date := clock; uip _ := false |}.
  - intros d r Hr. eexists. split; [unfold cmos_read, bind, microdelay, ret; cbn|].
    + rewrite (proj2 (Z.eqb_neq r 10)), (proj2 (Z.eqb_neq r 11)) by (intros ->; set_solver). reflexivity.
    + reflexivity.
  - intros d. eexists _, _. split; [reflexivity|by split].
  - intros d. eexists _, _. split; [reflexivity|by split].
  - intros k. unfold clock. destruct (k <? 20)%nat; cbn; lia.
Defined.
Lemma clock_slow : slow (D := bus).
Proof.
  intros k. exists (Nat.max k (Nat.min 20 (k + 13))). split; [lia|]. change date with clock. unfold clock.
  split; intros j Hj; destruct (Nat.ltb_spec j 20), (Nat.ltb_spec k 20), (Nat.ltb_spec (k + 12) 20); try lia; done.
Qed.
Lemma clock_still : still (D := bus) 20.
Proof. intros j Hj. split; [|done]. change date with clock. unfold clock. by destruct (Nat.ltb_spec j 20); [lia|]. Qed.

(** A machine with 24 interrupts. *)
Definition bus0 : bus := MkB 0 (fun r => if r =? 1 then 1507328 else 0) 0 0 (fun _ => 0) [].
Lemma ioapic_routes_witness : exists d', (ioapicinit 0 (fun _ => ret tt) ;;; enable_all [(4, 0); (14, 1); (14, 0)]) bus0 = Ret tt d' /\
  entry d' 14 = (46, 0) /\ entry d' 1 = (65569, 0).
Proof.
  destruct (ioapic_routes 0 (fun _ => ret tt) ltac:(intros; eexists; split; reflexivity) [(4, 0); (14, 1); (14, 0)] bus0) as (d' & E & H).
  { repeat (apply Forall_cons; split; [cbn; lia|]). apply Forall_nil. exact I. }
  exists d'. split; [exact E|]. split; [exact (H 14 ltac:(vm_compute; split; congruence))|exact (H 1 ltac:(vm_compute; split; congruence))].
Defined.

#[global] Instance b_lapic : LapicSpec bus.
Proof.
  assert (Hr : forall i, (LAPIC + 4 * i - LAPIC) / 4 = i).
  { intros i. replace (LAPIC + 4 * i - LAPIC) with (i * 4) by lia. apply Z.div_mul. lia. }
  refine {| base := LAPIC; lpatience := 1; reg := b_reg; ipis := b_ipis |}.
  - done.
  - intros d i v Hi. eexists. split; [reflexivity|]. cbn [b_reg b_ipis].
    destruct (Z.eqb_spec (LAPIC + 4 * i) a_reg) as [E|_]; [unfold LAPIC, a_reg, IOAPIC in E; lia|].
    destruct (Z.eqb_spec (LAPIC + 4 * i) a_data) as [E|_]; [unfold LAPIC, a_data, IOAPIC in E; lia|]. cbv zeta. rewrite Hr. done.
  - intros d i Hi. by eexists _, _.
  - intros d. exists 0%nat, d. split_and!; [lia| |done..]. by eapply delivers_now.
  - intros d p v. eexists. split; [reflexivity|]. by destruct (p =? 112).
Defined.
End ApicDemo.
