(* ===== verification/Bio.v ===== *)
(** The buffer cache ([bio.c], [buf.h]) and the memory disk under it ([memide.c]).

    [Module Ring] is the theory of the doubly linked list through [prev]/[next];
    [Module Disk] is the driver; [Module Bio] is the cache, with its invariant and the
    contract that the log and the file system use: what a block's current contents are
    ([view]), and how [bread], [bwrite] and [brelse] respect them. *)

From S2P Require Import Prelude Params Bytes Sleeplock.

(** ** Doubly linked rings *)
Module Ring.

(** Following [f] from [a] visits [l] and then reaches [b]. *)
Fixpoint path (f : nat -> nat) (a : nat) (l : list nat) (b : nat) : Prop :=
  match l with
  | [] => f a = b
  | x :: l' => f a = x /\ path f x l' b
  end.

(** The ring through [h]: [l] forwards along [nx], backwards along [pv]. *)
Definition ring (nx pv : nat -> nat) (h : nat) (l : list nat) : Prop :=
  path nx h l h /\ path pv h (reverse l) h /\ NoDup (h :: l).

Definition lst (a : nat) (l : list nat) : nat := default a (last l).

Lemma lst_cons a x l : lst a (x :: l) = lst x l.
Proof. unfold lst. rewrite last_cons. by destruct (last l). Qed.
Lemma lst_elem a l : lst a l ∈ a :: l.
Proof.
  revert a. induction l as [|x l IH]; intros a; [set_solver|]. rewrite lst_cons. set_solver.
Qed.

Lemma lst_ne a y l : a ∉ y :: l -> lst y l <> a.
Proof. intros Ha <-. apply Ha, lst_elem. Qed.

Lemma path_app f a l1 x l2 b : path f a (l1 ++ x :: l2) b <-> path f a l1 x /\ path f x l2 b.
Proof. revert a. induction l1 as [|y l1 IH]; intros a; cbn; [done|]. rewrite IH. tauto. Qed.

Lemma path_ext f g a l b :
  (forall i, i ∈ a :: l -> f i = g i) -> path f a l b -> path g a l b.
Proof.
  revert a. induction l as [|x l IH]; intros a Hext; cbn.
  - rewrite <- Hext; set_solver.
  - rewrite <- (Hext a) by set_solver. intros [? ?]. split; [done|]. apply IH; set_solver.
Qed.

Lemma path_next f a l b : path f a l b -> f a = default b (head l).
Proof. destruct l; cbn; [done|]. by intros [? _]. Qed.

(** Taking [x] out: its predecessor now points to its successor. *)
Lemma path_unlink f a l1 x l2 b :
  path f a (l1 ++ x :: l2) b -> NoDup (a :: l1 ++ x :: l2) ->
  path (<[lst a l1 := f x]> f) a (l1 ++ l2) b.
Proof.
  revert a. induction l1 as [|y l1 IH]; intros a; cbn [app path].
  - intros [Ha Hx] Hnd. destruct l2 as [|z l2]; cbn in *.
    + by rewrite fn_lookup_insert.
    + destruct Hx as [Hx Hz]. rewrite fn_lookup_insert. split; [done|].
      eapply path_ext, Hz. intros i Hi. rewrite fn_lookup_insert_ne; [done|].
      intros ->. apply NoDup_cons in Hnd. set_solver.
  - intros [Ha Hy] Hnd. rewrite lst_cons. apply NoDup_cons in Hnd as [Hna Hnd].
    split; [|by apply IH]. rewrite fn_lookup_insert_ne; [done|].
    apply lst_ne. set_solver.
Qed.

(** Appending [x]: the last node points to it and it points to the end. *)
Lemma path_snoc f a r x b :
  path f a r b -> NoDup (a :: r) -> x ∉ a :: r ->
  path (<[lst a r := x]> (<[x := b]> f)) a (r ++ [x]) b.
Proof.
  intros Hp Hnd Hx. apply path_app. split.
  - revert a Hp Hnd Hx. induction r as [|y r IH]; intros a; cbn [path].
    + intros _ _ _. by rewrite fn_lookup_insert.
    + intros [Ha Hy] Hnd Hx. rewrite lst_cons. apply NoDup_cons in Hnd as [Hna Hnd].
      split; [|apply IH; set_solver]. rewrite !fn_lookup_insert_ne; [done|set_solver|].
      by apply lst_ne.
  - cbn. rewrite fn_lookup_insert_ne by (by apply lst_ne). by rewrite fn_lookup_insert.
Qed.

Lemma head_reverse_lst a l : default a (head (reverse l)) = lst a l.
Proof. by rewrite head_reverse. Qed.
Lemma lst_reverse a l : lst a (reverse l) = default a (head l).
Proof. unfold lst. by rewrite last_reverse. Qed.

Lemma ring_prev nx pv h l1 x l2 : ring nx pv h (l1 ++ x :: l2) -> pv x = lst h l1.
Proof.
  intros (_ & Hp & _). rewrite reverse_app, reverse_cons, <- app_assoc in Hp. cbn in Hp.
  apply path_app in Hp as [_ Hp%path_next]. by rewrite Hp, head_reverse_lst.
Qed.
Lemma ring_next nx pv h l1 x l2 : ring nx pv h (l1 ++ x :: l2) -> nx x = default h (head l2).
Proof. intros (Hp & _ & _). apply path_app in Hp as [_ Hp]. by apply path_next in Hp. Qed.

Lemma ring_unlink nx pv h l1 x l2 :
  ring nx pv h (l1 ++ x :: l2) ->
  ring (<[pv x := nx x]> nx) (<[nx x := pv x]> pv) h (l1 ++ l2).
Proof.
  intros Hr. pose proof (ring_prev _ _ _ _ _ _ Hr) as Hpv.
  pose proof (ring_next _ _ _ _ _ _ Hr) as Hnx. destruct Hr as (Hn & Hp & Hnd). split_and!.
  - rewrite Hpv. by apply path_unlink.
  - rewrite reverse_app, reverse_cons, <- app_assoc in Hp. cbn in Hp.
    rewrite Hnx, <- lst_reverse, reverse_app. apply path_unlink; [done|].
    by rewrite !reverse_Permutation, <- Permutation_middle, Permutation_app_comm,
      Permutation_middle.
  - apply NoDup_cons in Hnd as [Hh Hnd]. apply NoDup_cons. split; [set_solver|].
    apply NoDup_app in Hnd as (? & ? & Hnd). apply NoDup_cons in Hnd as [? ?].
    apply NoDup_app. split_and!; set_solver.
Qed.

Lemma ring_push nx pv h l x :
  ring nx pv h l -> x ∉ h :: l ->
  ring (<[h := x]> (<[x := nx h]> nx)) (<[nx h := x]> (<[x := h]> pv)) h (x :: l).
Proof.
  intros (Hn & Hp & Hnd) Hx. pose proof (path_next _ _ _ _ Hn) as Hnx. split_and!.
  - cbn. rewrite fn_lookup_insert. split; [done|].
    assert (Hxh : h <> x) by set_solver. destruct l as [|y l]; cbn in *.
    + by rewrite fn_lookup_insert_ne, fn_lookup_insert.
    + destruct Hn as [Hy Hn]. rewrite fn_lookup_insert_ne, fn_lookup_insert by done.
      split; [done|]. eapply path_ext, Hn. intros i Hi. apply NoDup_cons in Hnd as [? _].
      rewrite !fn_lookup_insert_ne by set_solver. done.
  - rewrite reverse_cons, Hnx, <- lst_reverse. apply path_snoc; [done| |].
    + by rewrite reverse_Permutation.
    + by rewrite reverse_Permutation.
  - apply NoDup_cons in Hnd as [? ?]. rewrite !NoDup_cons. set_solver.
Qed.

(** What scanning the ring finds: the first element of [l] with property [p]. *)
Fixpoint scan (f : nat -> nat) (p : nat -> bool) (h b fuel : nat) : option (option nat) :=
  match fuel with
  | O => None
  | S fuel' =>
      if (b =? h)%nat then Some None
      else if p b then Some (Some b) else scan f p h (f b) fuel'
  end.

Lemma scan_path f p h a l fuel :
  path f a l h -> h ∉ l -> (length l < fuel)%nat ->
  scan f p h (f a) fuel = Some (snd <$> list_find (fun x => p x = true) l).
Proof.
  revert a fuel. induction l as [|x l IH]; intros a fuel Hp Hh Hf; cbn in Hp, Hf;
    destruct fuel as [|fuel]; [lia| |lia|]; cbn [scan list_find].
  - rewrite Hp. by rewrite Nat.eqb_refl.
  - destruct Hp as [-> Hp]. destruct (Nat.eqb_spec x h) as [->|_]; [set_solver|].
    destruct (p x) eqn:E.
    + by rewrite decide_True.
    + rewrite decide_False by congruence. rewrite (IH x); [|done|set_solver|lia].
      by destruct (list_find _ l) as [[? ?]|].
Qed.
End Ring.

(** ** The buffer and the memory disk *)
Module Disk.
Import SleepLock.

Abbreviation block := (list Z) (only parsing).

(** [struct buf].  A pointer to a buffer is its index in [bcache.buf]; [&bcache.head] is the
    index [NBUF].  [qnext] is only used by [ide.c]. *)
Record buf := MkBuf {
  flags : Z; dev : Z; blockno : Z; lock : sleeplock; refcnt : Z;
  prev : nat; next : nat; data : block
}.

Definition set_flags (x : Z) (b : buf) : buf :=
  MkBuf x (dev b) (blockno b) (lock b) (refcnt b) (prev b) (next b) (data b).
Definition set_dev (x : Z) (b : buf) : buf :=
  MkBuf (flags b) x (blockno b) (lock b) (refcnt b) (prev b) (next b) (data b).
Definition set_blockno (x : Z) (b : buf) : buf :=
  MkBuf (flags b) (dev b) x (lock b) (refcnt b) (prev b) (next b) (data b).
Definition set_lock (x : sleeplock) (b : buf) : buf :=
  MkBuf (flags b) (dev b) (blockno b) x (refcnt b) (prev b) (next b) (data b).
Definition set_refcnt (x : Z) (b : buf) : buf :=
  MkBuf (flags b) (dev b) (blockno b) (lock b) x (prev b) (next b) (data b).
Definition set_prev (x : nat) (b : buf) : buf :=
  MkBuf (flags b) (dev b) (blockno b) (lock b) (refcnt b) x (next b) (data b).
Definition set_next (x : nat) (b : buf) : buf :=
  MkBuf (flags b) (dev b) (blockno b) (lock b) (refcnt b) (prev b) x (data b).
Definition set_data (x : block) (b : buf) : buf :=
  MkBuf (flags b) (dev b) (blockno b) (lock b) (refcnt b) (prev b) (next b) x.

(** A buffer of the zero-initialised [bcache]. *)
Definition zero_buf : buf :=
  MkBuf 0 0 0 (MkSleep 0 false 0) 0 0 0 (replicate BSIZE 0).
#[global] Instance buf_inhabited : Inhabited buf := populate zero_buf.

Definition is_valid (b : buf) : bool := Z.testbit (flags b) 1.
Definition is_dirty (b : buf) : bool := Z.testbit (flags b) 2.

(** The disk: the array [memdisk] of [disksize] blocks, and the writes it has received so
    far, oldest first, which is what a crash can cut short. *)
Record disk := MkDisk { memdisk : list block; trace : list (nat * block) }.

Definition disksize (d : disk) : Z := Z.of_nat (length (memdisk d)).
Definition read_block (d : disk) (n : nat) : block := memdisk d !!! n.
Definition write_block (n : nat) (x : block) (d : disk) : disk :=
  MkDisk (<[n := x]> (memdisk d)) (trace d ++ [(n, x)]).

Definition on_lock {A} (m : M sleeplock A) : M (buf * disk) A :=
  zoom (fun s => lock (fst s)) (fun l s => (set_lock l (fst s), snd s)) m.
Definition upd (f : buf -> buf) : M (buf * disk) unit :=
  modify (fun s => (f (fst s), snd s)).

(** [iderw] of [memide.c], called by the process [me]. *)
Definition iderw (me : Z) : M (buf * disk) unit :=
  h <- on_lock (holdingsleep me) ;;
  if negb h then panic "iderw: buf not locked" else
  s <- reads id ;;
  let '(b, d) := s in
  if Z.land (flags b) (Z.lor B_VALID B_DIRTY) =? B_VALID
  then panic "iderw: nothing to do" else
  if negb (dev b =? 1) then panic "iderw: request not for disk 1" else
  if disksize d <=? blockno b then panic "iderw: block out of range" else
  let p := Z.to_nat (blockno b) in
  (if negb (Z.land (flags b) B_DIRTY =? 0)
   then upd (fun b => set_flags (Z.land (flags b) (Z.lnot B_DIRTY)) b) ;;;
        modify (fun s => (fst s, write_block p (data (fst s)) (snd s)))
   else upd (fun b => set_data (read_block d p) b)) ;;;
  upd (fun b => set_flags (Z.lor (flags b) B_VALID) b).

Lemma land_valid_dirty f :
  (Z.land f (Z.lor B_VALID B_DIRTY) =? B_VALID) = Z.testbit f 1 && negb (Z.testbit f 2).
Proof.
  assert (Hno : Z.testbit f 2 = true \/ Z.testbit f 1 = false ->
    Z.land f (Z.lor B_VALID B_DIRTY) <> B_VALID).
  { intros Hf H. apply (f_equal (fun z => (Z.testbit z 1, Z.testbit z 2))) in H.
    rewrite !Z.land_spec in H. destruct Hf as [Hf|Hf]; by rewrite Hf, ?andb_true_l in H. }
  destruct (Z.testbit f 1) eqn:E1, (Z.testbit f 2) eqn:E2; cbn [andb negb];
    try (apply Z.eqb_neq, Hno; by auto).
  apply Z.eqb_eq.
  apply Z.bits_inj'. intros n Hn. rewrite Z.land_spec.
  destruct (decide (n = 1)) as [->|]; [by rewrite E1|].
  destruct (decide (n = 2)) as [->|]; [by rewrite E2|].
  change (Z.lor B_VALID B_DIRTY) with (Z.lor (2 ^ 1) (2 ^ 2)). change B_VALID with (2 ^ 1).
  rewrite testbit_lor_pow2, !testbit_pow2 by lia.
  destruct (Z.eqb_spec n 1), (Z.eqb_spec n 2); try done. apply andb_false_r.
Qed.

Lemma iderw_read me b d :
  held_by me (lock b) -> flags b = 0 -> dev b = 1 -> blockno b < disksize d ->
  iderw me (b, d) =
    Ret tt (set_flags B_VALID (set_data (read_block d (Z.to_nat (blockno b))) b), d).
Proof.
  destruct b as [f dv bn l rc p n dt]. cbn. intros Hl -> -> Hb.
  unfold iderw, on_lock, zoom, bind, reads, upd, modify. cbn [fst snd lock].
  rewrite holdingsleep_held by done. cbn.
  by destruct (Z.leb_spec (disksize d) bn); [lia|].
Qed.

Lemma iderw_write me b d :
  held_by me (lock b) -> is_dirty b = true -> dev b = 1 -> blockno b < disksize d ->
  iderw me (b, d) =
    Ret tt (set_flags (Z.lor (Z.land (flags b) (Z.lnot B_DIRTY)) B_VALID) b,
            write_block (Z.to_nat (blockno b)) (data b) d).
Proof.
  unfold is_dirty. intros Hl Hf Hd Hb.
  unfold iderw, on_lock, zoom, bind, reads, upd, modify. cbn [fst snd].
  rewrite holdingsleep_held by done. cbn [negb]. cbn [id fst snd flags set_lock].
  rewrite land_valid_dirty. cbn [dev set_lock blockno]. rewrite Hf, Hd, andb_false_r.
  change (negb (1 =? 1)) with false. cbv iota.
  destruct (Z.leb_spec (disksize d) (blockno b)); [lia|].
  pose proof (land_pow2_eqb (flags b) 2 ltac:(lia)) as H2.
  change (2 ^ 2) with B_DIRTY in H2. rewrite H2, Hf. cbn. by destruct b.
Qed.
End Disk.

(** ** The buffer cache *)
Module Bio.
Import SleepLock Disk Ring.

(** [bcache] (its lock, its buffers with the list head last) and the disk. *)
Record bcache := MkBc { bc_lock : Klock.t; bufs : list buf; dk : disk }.

Definition getb (s : bcache) (i : nat) : buf := bufs s !!! i.
Definition head_ : nat := NBUF.

Definition with_bc_lock (m : M Klock.t unit) : M bcache unit :=
  zoom bc_lock (fun k s => MkBc k (bufs s) (dk s)) m.
Definition upd_buf (i : nat) (f : buf -> buf) : M bcache unit :=
  modify (fun s => MkBc (bc_lock s) (alter f i (bufs s)) (dk s)).
Definition on_buf_lock {A} (i : nat) (m : M sleeplock A) : M bcache A :=
  zoom (fun s => lock (getb s i))
       (fun l s => MkBc (bc_lock s) (alter (Disk.set_lock l) i (bufs s)) (dk s)) m.
Definition buf_chan (i : nat) : chan := ("buf"%string, i).

Definition iderw (me : Z) (i : nat) : M bcache unit :=
  zoom (fun s => (getb s i, dk s))
       (fun p s => MkBc (bc_lock s) (alter (fun _ => fst p) i (bufs s)) (snd p)) (Disk.iderw me).

(** One turn of the loop of [binit]. *)
Definition binit_link (b : nat) : M bcache unit :=
  hn <- reads (fun s => next (getb s head_)) ;;
  upd_buf b (set_next hn) ;;;
  upd_buf b (set_prev head_) ;;;
  upd_buf b (Disk.set_lock initsleeplock) ;;;
  hn <- reads (fun s => next (getb s head_)) ;;
  upd_buf hn (set_prev b) ;;;
  upd_buf head_ (set_next b).

Definition binit : M bcache unit :=
  modify (fun s => MkBc false (bufs s) (dk s)) ;;;
  upd_buf head_ (set_prev head_) ;;;
  upd_buf head_ (set_next head_) ;;;
  _ <- for_loop (A := unit) (fun b => binit_link b ;;; ret None) 0 NBUF ;;
  ret tt.

(** The two loops of [bget].  They end when they are back at the list head; [fuel] bounds
    them, and running out of it is an outcome of its own. *)
Fixpoint bget_cached (me dv bn : Z) (fuel b : nat) : M bcache (option nat) :=
  match fuel with
  | O => panic "bget: list too long"
  | S fuel' =>
      if (b =? head_)%nat then ret None else
      x <- reads (fun s => getb s b) ;;
      if (dev x =? dv) && (blockno x =? bn) then
        upd_buf b (fun x => set_refcnt (u32 (refcnt x + 1)) x) ;;;
        with_bc_lock Klock.release ;;;
        on_buf_lock b (acquiresleep (buf_chan b) me) ;;;
        ret (Some b)
      else bget_cached me dv bn fuel' (next x)
  end.

Fixpoint bget_recycle (me dv bn : Z) (fuel b : nat) : M bcache (option nat) :=
  match fuel with
  | O => panic "bget: list too long"
  | S fuel' =>
      if (b =? head_)%nat then ret None else
      x <- reads (fun s => getb s b) ;;
      if (refcnt x =? 0) && (Z.land (flags x) B_DIRTY =? 0) then
        upd_buf b (set_dev dv) ;;;
        upd_buf b (set_blockno bn) ;;;
        upd_buf b (set_flags 0) ;;;
        upd_buf b (set_refcnt 1) ;;;
        with_bc_lock Klock.release ;;;
        on_buf_lock b (acquiresleep (buf_chan b) me) ;;;
        ret (Some b)
      else bget_recycle me dv bn fuel' (prev x)
  end.

Definition bget (me dv bn : Z) : M bcache nat :=
  with_bc_lock Klock.acquire ;;;
  b <- reads (fun s => next (getb s head_)) ;;
  r <- bget_cached me dv bn (S NBUF) b ;;
  match r with
  | Some b => ret b
  | None =>
      b <- reads (fun s => prev (getb s head_)) ;;
      r <- bget_recycle me dv bn (S NBUF) b ;;
      match r with
      | Some b => ret b
      | None => panic "bget: no buffers"
      end
  end.

Definition bread (me dv bn : Z) : M bcache nat :=
  b <- bget me dv bn ;;
  x <- reads (fun s => getb s b) ;;
  when (Z.land (flags x) B_VALID =? 0) (iderw me b) ;;;
  ret b.

Definition bwrite (me : Z) (b : nat) : M bcache unit :=
  h <- on_buf_lock b (holdingsleep me) ;;
  if negb h then panic "bwrite" else
  upd_buf b (fun x => set_flags (Z.lor (flags x) B_DIRTY) x) ;;;
  iderw me b.

(** The list surgery of [brelse]: unlink the buffer and insert it after the head. *)
Definition move_to_front (b : nat) : M bcache unit :=
  x <- reads (fun s => getb s b) ;;
  upd_buf (next x) (set_prev (prev x)) ;;;
  x <- reads (fun s => getb s b) ;;
  upd_buf (prev x) (set_next (next x)) ;;;
  hn <- reads (fun s => next (getb s head_)) ;;
  upd_buf b (set_next hn) ;;;
  upd_buf b (set_prev head_) ;;;
  hn <- reads (fun s => next (getb s head_)) ;;
  upd_buf hn (set_prev b) ;;;
  upd_buf head_ (set_next b).

Definition brelse (me : Z) (b : nat) : M bcache unit :=
  h <- on_buf_lock b (holdingsleep me) ;;
  if negb h then panic "brelse" else
  on_buf_lock b releasesleep ;;;
  with_bc_lock Klock.acquire ;;;
  upd_buf b (fun x => set_refcnt (u32 (refcnt x - 1)) x) ;;;
  x <- reads (fun s => getb s b) ;;
  when (refcnt x =? 0) (move_to_front b) ;;;
  with_bc_lock Klock.release.

(** Writing through [b->data], as the callers of [bread] do. *)
Definition write_data (b : nat) (d : list Z) : M bcache unit := upd_buf b (set_data d).
Definition read_data (b : nat) : M bcache (list Z) := reads (fun s => data (getb s b)).

(** The cache at boot over the disk [d]. *)
Definition boot (d : disk) : bcache := MkBc false (replicate (S NBUF) zero_buf) d.

(** *** The invariant between calls *)

(** What a buffer guarantees when no code of the cache is running: it is referenced exactly
    while it is locked; a buffer of the disk is valid and in range; unless it is dirty (its
    block is in the log) or locked (its holder may be changing it), it equals the disk. *)
Definition buf_ok (d : disk) (b : buf) : Prop :=
  lk (lock b) = false /\
  (locked (lock b) = 0 \/ locked (lock b) = 1) /\ refcnt b = locked (lock b) /\
  length (data b) = BSIZE /\
  (is_dirty b = true \/ locked (lock b) = 1 -> dev b = 1) /\
  (dev b = 1 -> is_valid b = true /\ 0 <= blockno b < disksize d /\
     (is_dirty b = false -> locked (lock b) = 0 ->
        data b = read_block d (Z.to_nat (blockno b)))).

Definition nxt (s : bcache) (i : nat) : nat := next (getb s i).
Definition prv (s : bcache) (i : nat) : nat := prev (getb s i).

(** Buffer [i] holds block [bn]. *)
Definition caches (s : bcache) (bn : Z) (i : nat) : Prop :=
  (i < NBUF)%nat /\ dev (getb s i) = 1 /\ blockno (getb s i) = bn.

Record inv (s : bcache) : Prop := {
  inv_lock : bc_lock s = false;
  inv_len : length (bufs s) = S NBUF;
  inv_ring : exists l, ring (nxt s) (prv s) head_ l /\ l ≡ₚ seq 0 NBUF;
  inv_buf i : (i < NBUF)%nat -> buf_ok (dk s) (getb s i);
  inv_uniq bn i j : caches s bn i -> caches s bn j -> i = j;
  inv_disk : Forall (fun x => length x = BSIZE) (memdisk (dk s))
}.

#[global] Instance caches_dec s bn i : Decision (caches s bn i).
Proof. unfold caches. apply _. Defined.

(** The current contents of block [bn]: what the cache has, else what the disk has. *)
Definition view (s : bcache) (bn : Z) : list Z :=
  match list_find (caches s bn) (seq 0 NBUF) with
  | Some (_, i) => data (getb s i)
  | None => read_block (dk s) (Z.to_nat bn)
  end.

Lemma view_cached s bn i : inv s -> caches s bn i -> view s bn = data (getb s i).
Proof.
  intros Hs Hc. unfold view. destruct (list_find _ _) as [[k j]|] eqn:E.
  - apply list_find_Some in E as (_ & Hj & _). by rewrite (inv_uniq s Hs bn i j).
  - apply list_find_None in E. rewrite Forall_forall in E. exfalso. apply (E i); [|done].
    apply elem_of_seq. destruct Hc. lia.
Qed.

Lemma view_uncached s bn :
  (forall i, ~ caches s bn i) -> view s bn = read_block (dk s) (Z.to_nat bn).
Proof.
  intros Hn. unfold view. destruct (list_find _ _) as [[k j]|] eqn:E; [|done].
  apply list_find_Some in E as (_ & Hj & _). by destruct (Hn j).
Qed.

(** *** Updating one buffer *)

Definition ub (i : nat) (g : buf -> buf) (s : bcache) : bcache :=
  MkBc (bc_lock s) (alter g i (bufs s)) (dk s).

Lemma getb_ub i g s j :
  (i < length (bufs s))%nat ->
  getb (ub i g s) j = if decide (i = j) then g (getb s i) else getb s j.
Proof.
  intros Hi. unfold getb, ub. cbn. case_decide as E; subst.
  - by apply list_lookup_total_alter_eq.
  - by apply list_lookup_total_alter_ne.
Qed.
Lemma getb_ub_eq i g s : (i < length (bufs s))%nat -> getb (ub i g s) i = g (getb s i).
Proof. intros. by rewrite getb_ub, decide_True. Qed.
Lemma getb_ub_ne i g s j : i <> j -> getb (ub i g s) j = getb s j.
Proof. intros. unfold getb, ub. cbn. by apply list_lookup_total_alter_ne. Qed.
Lemma ub_ub i g h s : ub i g (ub i h s) = ub i (fun x => g (h x)) s.
Proof. unfold ub. cbn. f_equal. apply (list_alter_alter_eq g h). Qed.
Lemma length_ub i g s : length (bufs (ub i g s)) = length (bufs s).
Proof. unfold ub. cbn. apply length_alter. Qed.

Lemma ring_ext nx pv nx' pv' h l :
  (forall i, nx i = nx' i) -> (forall i, pv i = pv' i) -> ring nx pv h l -> ring nx' pv' h l.
Proof.
  intros Hn Hp (H1 & H2 & H3). split_and!; [|eapply path_ext; eauto|done].
  eapply path_ext; eauto.
Qed.

(** A change of buffer [i] that leaves the links alone keeps the invariant if the new
    buffer is acceptable and its block is in no other buffer. *)
Lemma inv_ub s i g :
  inv s -> (i < NBUF)%nat ->
  next (g (getb s i)) = next (getb s i) -> prev (g (getb s i)) = prev (getb s i) ->
  buf_ok (dk s) (g (getb s i)) ->
  (dev (g (getb s i)) = 1 -> forall j, j <> i -> ~ caches s (blockno (g (getb s i))) j) ->
  inv (ub i g s).
Proof.
  intros Hs Hi Hn Hp Hok Hun. pose proof (inv_len s Hs) as Hlen. split.
  - apply Hs.
  - by rewrite length_ub.
  - destruct (inv_ring s Hs) as (l & Hr & Hl). exists l. split; [|done].
    eapply ring_ext, Hr; intros j; unfold nxt, prv; rewrite getb_ub by lia;
      case_decide; by subst.
  - intros j Hj. rewrite getb_ub by lia. case_decide; [done|]. by apply Hs.
  - intros bn j k (Hj & Hdj & Hbj) (Hk & Hdk & Hbk).
    rewrite getb_ub in Hdj, Hbj, Hdk, Hbk by lia.
    destruct (decide (i = j)) as [<-|], (decide (i = k)) as [<-|]; [done|..].
    + destruct (Hun Hdj k); [done|]. split_and!; [done..|congruence].
    + destruct (Hun Hdk j); [done|]. split_and!; [done..|congruence].
    + by eapply (inv_uniq s Hs bn).
  - apply Hs.
Qed.

(** *** The operations *)
Section operations.
Variable me : Z.

Definition take_lock (x : buf) : buf :=
  Disk.set_lock (MkSleep 1 false me) (set_refcnt 1 x).

Lemma on_buf_lock_run {A} i (m : M sleeplock A) s a l :
  m (lock (getb s i)) = Ret a l ->
  on_buf_lock i m s = Ret a (ub i (Disk.set_lock l) s).
Proof. unfold on_buf_lock, zoom. by intros ->. Qed.

(** What the two loops do after they have found their buffer. *)
Definition cached_found (b : nat) : M bcache (option nat) :=
  upd_buf b (fun x => set_refcnt (u32 (refcnt x + 1)) x) ;;;
  with_bc_lock Klock.release ;;;
  on_buf_lock b (acquiresleep (buf_chan b) me) ;;;
  ret (Some b).
Definition recycle_found (dv bn : Z) (b : nat) : M bcache (option nat) :=
  upd_buf b (set_dev dv) ;;;
  upd_buf b (set_blockno bn) ;;;
  upd_buf b (set_flags 0) ;;;
  upd_buf b (set_refcnt 1) ;;;
  with_bc_lock Klock.release ;;;
  on_buf_lock b (acquiresleep (buf_chan b) me) ;;;
  ret (Some b).

Definition is_block (s : bcache) (dv bn : Z) (i : nat) : bool :=
  (dev (getb s i) =? dv) && (blockno (getb s i) =? bn).
Definition is_free (s : bcache) (i : nat) : bool :=
  (refcnt (getb s i) =? 0) && (Z.land (flags (getb s i)) B_DIRTY =? 0).

Lemma bget_cached_scan dv bn fuel b s :
  bget_cached me dv bn fuel b s =
  match scan (nxt s) (is_block s dv bn) head_ b fuel with
  | None => Panic "bget: list too long"
  | Some None => Ret None s
  | Some (Some i) => cached_found i s
  end.
Proof.
  revert b. induction fuel as [|fuel IH]; intros b; cbn [bget_cached scan]; [done|].
  destruct (b =? head_)%nat; [done|]. unfold bind at 1, reads at 1.
  fold (is_block s dv bn b). destruct (is_block s dv bn b); [done|]. apply IH.
Qed.

Lemma bget_recycle_scan dv bn fuel b s :
  bget_recycle me dv bn fuel b s =
  match scan (prv s) (is_free s) head_ b fuel with
  | None => Panic "bget: list too long"
  | Some None => Ret None s
  | Some (Some i) => recycle_found dv bn i s
  end.
Proof.
  revert b. induction fuel as [|fuel IH]; intros b; cbn [bget_recycle scan]; [done|].
  destruct (b =? head_)%nat; [done|]. unfold bind at 1, reads at 1.
  fold (is_free s b). destruct (is_free s b); [done|]. apply IH.
Qed.

Lemma ring_elems (l : list nat) : l ≡ₚ seq 0 NBUF -> forall i, i ∈ l <-> (i < NBUF)%nat.
Proof. intros Hl i. rewrite Hl, elem_of_seq. lia. Qed.

(** Scanning forwards finds the buffer of a cached block, backwards a free buffer. *)
Lemma scan_hit s bn i :
  inv s -> caches s bn i ->
  scan (nxt s) (is_block s 1 bn) head_ (nxt s head_) (S NBUF) = Some (Some i).
Proof.
  intros Hs Hc. destruct (inv_ring s Hs) as (l & (Hn & _ & Hnd) & Hl).
  pose proof (ring_elems l Hl) as Hin.
  rewrite (scan_path _ _ _ head_ l); [|done|by apply NoDup_cons in Hnd as [? _]|].
  2: { rewrite Hl, length_seq. lia. }
  destruct (list_find _ l) as [[k j]|] eqn:E; cbn.
  - apply list_find_Some in E as (Hj & Hb & _). apply list_elem_of_lookup_2 in Hj.
    unfold is_block in Hb. b2p. do 2 f_equal. apply (inv_uniq s Hs bn); [|done].
    split_and!; [by apply Hin|done..].
  - exfalso. apply list_find_None in E. rewrite Forall_forall in E.
    destruct Hc as (Hi & Hd & Hb). apply (E i); [by apply Hin|].
    unfold is_block. by rewrite Hd, Hb, !Z.eqb_refl.
Qed.

Lemma scan_miss s bn :
  inv s -> (forall i, ~ caches s bn i) ->
  scan (nxt s) (is_block s 1 bn) head_ (nxt s head_) (S NBUF) = Some None.
Proof.
  intros Hs Hc. destruct (inv_ring s Hs) as (l & (Hn & _ & Hnd) & Hl).
  pose proof (ring_elems l Hl) as Hin.
  rewrite (scan_path _ _ _ head_ l); [|done|by apply NoDup_cons in Hnd as [? _]|].
  2: { rewrite Hl, length_seq. lia. }
  destruct (list_find _ l) as [[k j]|] eqn:E; cbn; [|done].
  apply list_find_Some in E as (Hj & Hb & _). apply list_elem_of_lookup_2 in Hj.
  unfold is_block in Hb. b2p. destruct (Hc j). split_and!; [by apply Hin|done..].
Qed.

Lemma scan_free s :
  inv s ->
  exists r, scan (prv s) (is_free s) head_ (prv s head_) (S NBUF) = Some r /\
    match r with
    | Some i => (i < NBUF)%nat /\ is_free s i = true
    | None => forall i, (i < NBUF)%nat -> is_free s i = false
    end.
Proof.
  intros Hs. destruct (inv_ring s Hs) as (l & (_ & Hp & Hnd) & Hl).
  pose proof (ring_elems l Hl) as Hin.
  rewrite (scan_path _ _ _ head_ (reverse l)); [|done| |].
  2: { rewrite elem_of_reverse. by apply NoDup_cons in Hnd as [? _]. }
  2: { rewrite length_reverse, Hl, length_seq. lia. }
  eexists. split; [done|]. destruct (list_find _ _) as [[k j]|] eqn:E; cbn.
  - apply list_find_Some in E as (Hj & Hb & _). apply list_elem_of_lookup_2 in Hj.
    rewrite elem_of_reverse in Hj. by rewrite Hin in Hj.
  - apply list_find_None in E. rewrite Forall_forall in E. intros i Hi.
    apply not_true_is_false, E. rewrite elem_of_reverse. by apply Hin.
Qed.

Lemma acquire_bc s :
  bc_lock s = false -> with_bc_lock Klock.acquire s = Ret tt (MkBc true (bufs s) (dk s)).
Proof. unfold with_bc_lock, zoom. by intros ->. Qed.

Lemma is_free_spec s i :
  (i < NBUF)%nat -> is_free s i = true <-> refcnt (getb s i) = 0 /\ is_dirty (getb s i) = false.
Proof.
  intros Hi. unfold is_free, is_dirty. change B_DIRTY with (2 ^ 2).
  rewrite land_pow2_eqb, andb_true_iff, negb_true_iff, Z.eqb_eq by lia. done.
Qed.

Lemma bget_hit s bn i :
  inv s -> caches s bn i -> locked (lock (getb s i)) = 0 ->
  bget me 1 bn s = Ret i (ub i take_lock s).
Proof.
  intros Hs Hc Hl. pose proof Hc as (Hi & _ & _).
  destruct (inv_buf s Hs i Hi) as (Hlk & _ & Hrc & _). pose proof (inv_len s Hs) as Hlen.
  unfold bget. rewrite (bind_Ret _ _ _ _ _ (acquire_bc s (inv_lock s Hs))).
  set (s1 := MkBc true (bufs s) (dk s)). unfold bind at 1, reads at 1.
  unfold bind at 1. rewrite bget_cached_scan.
  change (scan (nxt s1) (is_block s1 1 bn) head_ (next (getb s1 head_)) (S NBUF))
    with (scan (nxt s) (is_block s 1 bn) head_ (nxt s head_) (S NBUF)).
  rewrite (scan_hit s bn i Hs Hc). unfold cached_found, upd_buf, modify, bind at 1.
  unfold with_bc_lock, zoom, bind at 1. cbn [bc_lock s1 Klock.release bufs dk].
  unfold bind. erewrite on_buf_lock_run.
  2: { apply acquiresleep_free. unfold getb. cbn.
       rewrite list_lookup_total_alter_eq by lia. done. }
  cbn. unfold ub. cbn. rewrite (inv_lock s Hs). do 2 f_equal.
  rewrite list_alter_alter_eq. apply list_alter_ext; [|done]. intros x Hx. cbn.
  unfold take_lock. do 2 f_equal. apply list_lookup_total_correct in Hx.
  unfold getb in Hrc, Hl. rewrite Hx in Hrc, Hl. by rewrite Hrc, Hl.
Qed.

(** A buffer that another process has locked: the caller sleeps on it. *)
Lemma bget_busy s bn i :
  inv s -> caches s bn i -> locked (lock (getb s i)) <> 0 ->
  exists s', bget me 1 bn s = Sleep (buf_chan i) s'.
Proof.
  intros Hs Hc Hl. pose proof Hc as (Hi & _ & _).
  destruct (inv_buf s Hs i Hi) as (Hlk & _ & Hrc & _). pose proof (inv_len s Hs) as Hlen.
  unfold bget. rewrite (bind_Ret _ _ _ _ _ (acquire_bc s (inv_lock s Hs))).
  set (s1 := MkBc true (bufs s) (dk s)). unfold bind at 1, reads at 1.
  unfold bind at 1. rewrite bget_cached_scan.
  change (scan (nxt s1) (is_block s1 1 bn) head_ (next (getb s1 head_)) (S NBUF))
    with (scan (nxt s) (is_block s 1 bn) head_ (nxt s head_) (S NBUF)).
  rewrite (scan_hit s bn i Hs Hc). unfold cached_found, upd_buf, modify, bind at 1.
  unfold with_bc_lock, zoom, bind at 1. cbn [bc_lock s1 Klock.release bufs dk].
  unfold bind, on_buf_lock, zoom. rewrite acquiresleep_busy; [eauto|..];
    unfold getb; cbn; by rewrite list_lookup_total_alter_eq by lia.
Qed.

Definition recycle (bn : Z) (x : buf) : buf :=
  take_lock (set_flags 0 (set_blockno bn (set_dev 1 x))).

Lemma bget_miss s bn :
  inv s -> (forall i, ~ caches s bn i) ->
  (exists i, (i < NBUF)%nat /\ refcnt (getb s i) = 0 /\ is_dirty (getb s i) = false /\
     bget me 1 bn s = Ret i (ub i (recycle bn) s)) \/
  ((forall i, (i < NBUF)%nat -> refcnt (getb s i) = 0 -> is_dirty (getb s i) = true) /\
     bget me 1 bn s = Panic "bget: no buffers").
Proof.
  intros Hs Hc. pose proof (inv_len s Hs) as Hlen. set (s1 := MkBc true (bufs s) (dk s)).
  assert (bget me 1 bn s =
    match scan (prv s) (is_free s) head_ (prv s head_) (S NBUF) with
    | None => Panic "bget: list too long"
    | Some None => Panic "bget: no buffers"
    | Some (Some i) =>
        (r <- recycle_found 1 bn i ;;
         match r with Some b => ret b | None => panic "bget: no buffers" end) s1
    end) as ->.
  { unfold bget. rewrite (bind_Ret _ _ _ _ _ (acquire_bc s (inv_lock s Hs))). fold s1.
    unfold bind at 1, reads at 1. unfold bind at 1. rewrite bget_cached_scan.
    change (scan (nxt s1) (is_block s1 1 bn) head_ (next (getb s1 head_)) (S NBUF))
      with (scan (nxt s) (is_block s 1 bn) head_ (nxt s head_) (S NBUF)).
    rewrite (scan_miss s bn Hs Hc). unfold bind at 1, reads at 1. unfold bind at 1.
    rewrite bget_recycle_scan.
    change (scan (prv s1) (is_free s1) head_ (prev (getb s1 head_)) (S NBUF))
      with (scan (prv s) (is_free s) head_ (prv s head_) (S NBUF)).
    by destruct (scan _ _ _ _ _) as [[]|]. }
  destruct (scan_free s Hs) as (r & -> & Hr). destruct r as [i|].
  - left. destruct Hr as [Hi Hf]. apply is_free_spec in Hf as [Hrc Hd]; [|done].
    exists i. split_and!; [done..|].
    destruct (inv_buf s Hs i Hi) as (Hlk & _ & Hrl & _).
    unfold bind at 1, recycle_found, upd_buf, modify. unfold bind at 1 2 3 4.
    unfold with_bc_lock, zoom, bind at 1. cbn [bc_lock s1 Klock.release bufs dk].
    unfold bind. erewrite on_buf_lock_run.
    2: { apply acquiresleep_free. unfold getb. cbn.
         rewrite !list_lookup_total_alter_eq; rewrite ?length_alter; [|lia..].
         cbn. unfold getb in *. split; [congruence|done]. }
    cbn. unfold ub. cbn. rewrite (inv_lock s Hs). do 2 f_equal.
    by rewrite !list_alter_alter_eq.
  - right. split; [|done]. intros i Hi Hrc.
    destruct (is_dirty (getb s i)) eqn:E; [done|]. specialize (Hr i Hi).
    by rewrite (proj2 (is_free_spec s i Hi)) in Hr.
Qed.

(** *** The contract, in terms of block numbers *)

(** The running process holds block [bn] locked in buffer [i]. *)
Definition holds (s : bcache) (i : nat) (bn : Z) : Prop :=
  caches s bn i /\ held_by me (lock (getb s i)).
(** Some process has block [bn] locked. *)
Definition locked_at (s : bcache) (bn : Z) : Prop :=
  exists i, caches s bn i /\ locked (lock (getb s i)) <> 0.
(** Block [bn] is in the cache with changes the disk does not have yet. *)
Definition dirty_at (s : bcache) (bn : Z) : Prop :=
  exists i, caches s bn i /\ is_dirty (getb s i) = true.

(** Nothing is different about any other block. *)
Definition same_except (bn : Z) (s s' : bcache) : Prop :=
  forall b, 0 <= b -> b <> bn ->
    view s' b = view s b /\ (dirty_at s' b <-> dirty_at s b) /\
    (locked_at s' b <-> locked_at s b) /\ (forall j, holds s' j b <-> holds s j b).

Lemma at_cached s bn i : inv s -> caches s bn i ->
  (dirty_at s bn <-> is_dirty (getb s i) = true) /\
  (locked_at s bn <-> locked (lock (getb s i)) <> 0).
Proof.
  intros Hs Hc. split; split; try (intros H; exists i; by split);
    intros (j & Hj & H); by rewrite (inv_uniq s Hs bn i j).
Qed.

Lemma ub_same_except s i g bn :
  inv s -> inv (ub i g s) -> (i < NBUF)%nat ->
  dev (g (getb s i)) = 1 -> blockno (g (getb s i)) = bn ->
  (caches s bn i \/ refcnt (getb s i) = 0 /\ is_dirty (getb s i) = false) ->
  same_except bn s (ub i g s).
Proof.
  intros Hs Hs' Hi Hdv Hbn Hold b _ Hb. pose proof (inv_len s Hs) as Hlen.
  assert (Hi' : ~ caches (ub i g s) b i).
  { intros (_ & _ & H). rewrite getb_ub_eq in H by lia. congruence. }
  assert (Hj : forall j, j <> i -> getb (ub i g s) j = getb s j).
  { intros. by apply getb_ub_ne. }
  assert (Hc : forall j, j <> i -> caches (ub i g s) b j <-> caches s b j).
  { intros j Hne. unfold caches. by rewrite Hj. }
  destruct (decide (caches s b i)) as [Hci|Hci].
  - (* the recycled buffer had block [b], clean and free *)
    destruct Hold as [[_ [_ ?]]|[Hrc Hd]]; [destruct Hci as (_ & _ & ?); congruence|].
    destruct (inv_buf s Hs i Hi) as (_ & _ & Hrl & _ & _ & Hok).
    destruct Hok as (_ & _ & Hdata); [apply Hci|].
    assert (Hun : forall j, ~ caches (ub i g s) b j).
    { intros j Hcj. destruct (decide (j = i)) as [->|Hne]; [done|].
      apply Hc in Hcj; [|done]. by apply Hne, (inv_uniq s Hs b). }
    pose proof (at_cached s b i Hs Hci) as [Hdirty Hlocked]. split_and!.
    + rewrite view_uncached, (view_cached s b i) by done. symmetry.
      destruct Hci as (_ & _ & <-). apply Hdata; congruence.
    + rewrite Hdirty, Hd. split; [|done]. intros (j & Hcj & _). by destruct (Hun j).
    + rewrite Hlocked, <- Hrl, Hrc. split; [|done]. intros (j & Hcj & _). by destruct (Hun j).
    + intros j. split; intros [Hcj Hh]; [by destruct (Hun j)|].
      assert (j = i) as -> by (by apply (inv_uniq s Hs b)).
      rewrite Hh in Hrl. cbn in Hrl. lia.
  - assert (Hcc : forall j, caches (ub i g s) b j <-> caches s b j).
    { intros j. destruct (decide (j = i)) as [->|]; [tauto|by apply Hc]. }
    assert (Hjj : forall j, caches s b j -> getb (ub i g s) j = getb s j).
    { intros j Hcj. apply Hj. by intros ->. }
    split_and!.
    + destruct (decide (Exists (caches s b) (seq 0 NBUF))) as [He|He].
      * apply Exists_exists in He as (j & _ & Hcj).
        rewrite (view_cached s b j Hs Hcj).
        by rewrite (view_cached (ub i g s) b j Hs' (proj2 (Hcc j) Hcj)), Hjj.
      * assert (Hno : forall j, ~ caches s b j).
        { intros j Hcj. apply He, Exists_exists. exists j. split; [|done].
          apply elem_of_seq. destruct Hcj. lia. }
        rewrite !view_uncached; [done|done|]. intros j. by rewrite Hcc.
    + unfold dirty_at. split; intros (j & Hcj & H); exists j;
        [apply Hcc in Hcj; rewrite Hjj in H by done|rewrite Hjj, Hcc by done]; done.
    + unfold locked_at. split; intros (j & Hcj & H); exists j;
        [apply Hcc in Hcj; rewrite Hjj in H by done|rewrite Hjj, Hcc by done]; done.
    + intros j. unfold holds. rewrite Hcc. split; intros [Hcj H]; split; try done;
        [rewrite Hjj in H by done|rewrite Hjj by done]; done.
Qed.

Lemma bread_hit s bn i :
  inv s -> caches s bn i -> locked (lock (getb s i)) = 0 ->
  bread me 1 bn s = Ret i (ub i take_lock s).
Proof.
  intros Hs Hc Hl. pose proof Hc as (Hi & Hd & _). pose proof (inv_len s Hs) as Hlen.
  destruct (inv_buf s Hs i Hi) as (_ & _ & _ & _ & _ & Hok). destruct (Hok Hd) as (Hv & _).
  unfold bread. rewrite (bind_Ret _ _ _ _ _ (bget_hit s bn i Hs Hc Hl)).
  unfold bind at 1, reads. rewrite getb_ub_eq by lia. cbn [take_lock Disk.set_lock set_refcnt flags].
  change B_VALID with (2 ^ 1). rewrite land_pow2_eqb by lia. unfold is_valid in Hv. by rewrite Hv.
Qed.

(** The buffer that a miss fills from the disk. *)
Definition filled (d : disk) (bn : Z) (x : buf) : buf :=
  set_flags B_VALID (set_data (read_block d (Z.to_nat bn)) (recycle bn x)).

Lemma bread_miss s bn :
  inv s -> (forall i, ~ caches s bn i) -> 0 <= bn < disksize (dk s) ->
  (exists i, (i < NBUF)%nat /\ refcnt (getb s i) = 0 /\ is_dirty (getb s i) = false /\
     bread me 1 bn s = Ret i (ub i (fun _ => filled (dk s) bn (getb s i)) s)) \/
  ((forall i, (i < NBUF)%nat -> refcnt (getb s i) = 0 -> is_dirty (getb s i) = true) /\
     bread me 1 bn s = Panic "bget: no buffers").
Proof.
  intros Hs Hc Hbn. pose proof (inv_len s Hs) as Hlen.
  destruct (bget_miss s bn Hs Hc) as [(i & Hi & Hrc & Hd & Hg)|[Hno Hg]].
  - left. exists i. split_and!; [done..|].
    unfold bread. rewrite (bind_Ret _ _ _ _ _ Hg).
    unfold bind at 1, reads. rewrite getb_ub_eq by lia.
    change (Z.land (flags (recycle bn (getb s i))) B_VALID =? 0) with true. cbn [when].
    unfold bind, iderw, zoom. rewrite getb_ub_eq by lia.
    rewrite iderw_read; [|done..|cbn; lia]. cbn [fst snd ret].
    change (dk (ub i (recycle bn) s)) with (dk s).
    change (blockno (recycle bn (getb s i))) with bn. unfold ret. f_equal.
    fold (filled (dk s) bn (getb s i)).
    change (ub i (fun _ => filled (dk s) bn (getb s i)) (ub i (recycle bn) s) =
            ub i (fun _ => filled (dk s) bn (getb s i)) s).
    by rewrite ub_ub.
  - right. split; [done|]. unfold bread. by rewrite (bind_Panic _ _ _ _ Hg).
Qed.

Definition free_buf (s : bcache) : Prop :=
  exists i, (i < NBUF)%nat /\ refcnt (getb s i) = 0 /\ is_dirty (getb s i) = false.

(** Fewer than [NBUF] blocks locked or dirty: some buffer can be recycled. *)
Lemma free_buf_exists s (B : list Z) :
  inv s -> (forall b, locked_at s b \/ dirty_at s b -> b ∈ B) -> (length B < NBUF)%nat ->
  free_buf s.
Proof.
  intros Hs HB Hlen.
  set (P := fun i => refcnt (getb s i) = 0 /\ is_dirty (getb s i) = false).
  destruct (decide (Exists P (seq 0 NBUF))) as [He|Hn].
  { apply Exists_exists in He as (i & Hi%elem_of_seq & ? & ?). exists i. split_and!; [lia|done..]. }
  exfalso. assert (Hbusy : forall i, (i < NBUF)%nat ->
    caches s (blockno (getb s i)) i /\ blockno (getb s i) ∈ B).
  { intros i Hi. destruct (inv_buf s Hs i Hi) as (_ & Hl & Hrl & _ & Hdev & _).
    assert (Hb : is_dirty (getb s i) = true \/ locked (lock (getb s i)) = 1).
    { destruct (is_dirty (getb s i)) eqn:Ed; [by left|]. destruct Hl as [Hl|]; [|by right].
      destruct Hn. apply Exists_exists. exists i. split; [apply elem_of_seq; lia|].
      split; congruence. }
    assert (Hc : caches s (blockno (getb s i)) i) by (by split_and!; [|apply Hdev|]).
    split; [done|]. apply HB. destruct Hb as [Hb|Hb]; [right|left]; exists i; split; try done.
    by rewrite Hb. }
  set (l := (fun i => blockno (getb s i)) <$> seq 0 NBUF).
  assert (NoDup l) as Hnd.
  { apply NoDup_fmap_2_strong; [|apply NoDup_seq]. intros i j Hi%elem_of_seq Hj%elem_of_seq Heq.
    destruct (Hbusy i) as [Hci _]; [lia|]. destruct (Hbusy j) as [Hcj _]; [lia|].
    rewrite Heq in Hci. by apply (inv_uniq s Hs (blockno (getb s j))). }
  assert (length l <= length B)%nat as Hle.
  { apply submseteq_length, NoDup_submseteq; [done|]. intros b Hb.
    apply list_elem_of_fmap in Hb as (i & -> & Hi%elem_of_seq). apply Hbusy. lia. }
  unfold l in Hle. rewrite length_fmap, length_seq in Hle. lia.
Qed.

(** [bread] of a block that nobody has locked: the buffer it returns is locked by the caller
    and has the block's current contents, and nothing else changes. *)
Lemma bread_spec s bn :
  inv s -> 0 <= bn < disksize (dk s) -> ~ locked_at s bn ->
  (exists i, caches s bn i) \/ free_buf s ->
  exists i s', bread me 1 bn s = Ret i s' /\ inv s' /\ holds s' i bn /\
    dk s' = dk s /\ view s' bn = view s bn /\ (dirty_at s' bn <-> dirty_at s bn) /\
    same_except bn s s'.
Proof.
  intros Hs Hbn Hnl Hex. pose proof (inv_len s Hs) as Hlen.
  destruct (decide (Exists (caches s bn) (seq 0 NBUF))) as [He|Hne].
  - apply Exists_exists in He as (i & _ & Hc). pose proof Hc as (Hi & Hd & Hb).
    destruct (inv_buf s Hs i Hi) as (Hlk & Hl01 & Hrc & Hdl & Hdd & Hok).
    assert (Hl : locked (lock (getb s i)) = 0).
    { destruct Hl01 as [|H1]; [done|]. destruct Hnl. exists i. rewrite H1. done. }
    rewrite (bread_hit s bn i Hs Hc Hl). exists i, (ub i take_lock s).
    assert (Hs' : inv (ub i take_lock s)).
    { apply inv_ub; [done..| |].
      - split_and!; cbn; auto. intros H1. destruct (Hok H1) as (? & ? & _). split_and!; [done|lia..|done].
      - cbn. intros _ j Hji Hcj. apply Hji. rewrite Hb in Hcj. by apply (inv_uniq s Hs bn). }
    assert (Hc' : caches (ub i take_lock s) bn i).
    { unfold caches. rewrite getb_ub_eq by lia. done. }
    split_and!; [done..| |done| | |].
    + split; [done|]. by rewrite getb_ub_eq by lia.
    + rewrite (view_cached _ bn i Hs' Hc'), (view_cached s bn i Hs Hc).
      by rewrite getb_ub_eq by lia.
    + rewrite (proj1 (at_cached _ bn i Hs' Hc')), (proj1 (at_cached s bn i Hs Hc)).
      by rewrite getb_ub_eq by lia.
    + apply ub_same_except; auto.
  - assert (Hno : forall j, ~ caches s bn j).
    { intros j Hcj. apply Hne, Exists_exists. exists j. split; [|done].
      apply elem_of_seq. destruct Hcj. lia. }
    destruct (bread_miss s bn Hs Hno Hbn) as [(i & Hi & Hrc & Hd & Hr)|[Hbad _]].
    2: { exfalso. destruct Hex as [[j Hj]|(j & Hj & Hrj & Hdj)]; [by destruct (Hno j)|].
         rewrite (Hbad j Hj Hrj) in Hdj. done. }
    rewrite Hr. set (s' := ub i _ s) in *. exists i, s'.
    destruct (inv_buf s Hs i Hi) as (Hlk & Hl01 & Hrl & Hdl & Hdd & Hok).
    assert (Hlenb : length (read_block (dk s) (Z.to_nat bn)) = BSIZE).
    { unfold read_block, disksize in *. pose proof (inv_disk s Hs) as Hf.
      rewrite Forall_lookup in Hf. eapply (Hf (Z.to_nat bn)), list_lookup_lookup_total_lt. lia. }
    assert (Hg : getb s' i = filled (dk s) bn (getb s i)) by (unfold s'; by rewrite getb_ub_eq by lia).
    assert (Hs' : inv s').
    { apply inv_ub; [done..| |].
      - split_and!; cbn; auto.
      - cbn. intros _ j _ Hcj. by apply (Hno j). }
    assert (Hc' : caches s' bn i) by (unfold caches; by rewrite Hg).
    split_and!; [done..| |done| | |].
    + split; [done|]. by rewrite Hg.
    + by rewrite (view_cached _ bn i Hs' Hc'), (view_uncached s bn Hno), Hg.
    + rewrite (proj1 (at_cached _ bn i Hs' Hc')), Hg. split; [done|].
      intros (j & Hj & _). by destruct (Hno j).
    + apply ub_same_except; auto.
Qed.

(** A change to the data or the flags of a buffer that the caller has locked. *)
Lemma held_update s i bn g :
  inv s -> holds s i bn ->
  (forall x, dev (g x) = dev x /\ blockno (g x) = blockno x /\ lock (g x) = lock x /\
     refcnt (g x) = refcnt x /\ next (g x) = next x /\ prev (g x) = prev x) ->
  length (data (g (getb s i))) = BSIZE -> is_valid (g (getb s i)) = true ->
  inv (ub i g s) /\ holds (ub i g s) i bn /\
  view (ub i g s) bn = data (g (getb s i)) /\
  (dirty_at (ub i g s) bn <-> is_dirty (g (getb s i)) = true) /\
  same_except bn s (ub i g s).
Proof.
  intros Hs [Hc Hh] Hg Hlen Hv. pose proof Hc as (Hi & Hd & Hb). pose proof (inv_len s Hs).
  destruct (Hg (getb s i)) as (Gd & Gb & Gl & Gr & Gn & Gp).
  destruct (inv_buf s Hs i Hi) as (Hlk & Hl01 & Hrc & Hdl & Hdd & Hok).
  assert (Hs' : inv (ub i g s)).
  { apply inv_ub; [done..| |].
    - unfold buf_ok. rewrite Gl, Gr, Gd, Gb. split_and!; try done.
      intros _. destruct (Hok Hd) as (_ & ? & _). split_and!; [done|lia..|].
      rewrite Hh. done.
    - rewrite Gb, Hb. intros _ j Hji Hcj. by apply Hji, (inv_uniq s Hs bn). }
  assert (Hc' : caches (ub i g s) bn i).
  { unfold caches. rewrite getb_ub_eq by lia. by rewrite Gd, Gb. }
  split_and!; [done|split; [done|]|..].
  - by rewrite getb_ub_eq, Gl by lia.
  - by rewrite (view_cached _ bn i Hs' Hc'), getb_ub_eq by lia.
  - by rewrite (proj1 (at_cached _ bn i Hs' Hc')), getb_ub_eq by lia.
  - apply ub_same_except; auto; congruence.
Qed.

(** Storing through [b->data]. *)
Lemma write_data_spec s i bn d :
  inv s -> holds s i bn -> length d = BSIZE ->
  exists s', write_data i d s = Ret tt s' /\ inv s' /\ holds s' i bn /\ dk s' = dk s /\
    view s' bn = d /\ (dirty_at s' bn <-> dirty_at s bn) /\ same_except bn s s'.
Proof.
  intros Hs Hh Hl. pose proof Hh as [Hc _]. pose proof Hc as (Hi & Hd & _).
  destruct (inv_buf s Hs i Hi) as (_ & _ & _ & _ & _ & Hok). destruct (Hok Hd) as (Hv & _).
  destruct (held_update s i bn (set_data d) Hs Hh) as (H1 & H2 & H3 & H4 & H5); [done..|].
  exists (ub i (set_data d) s). split_and!; try done.
  by rewrite H4, (proj1 (at_cached s bn i Hs Hc)).
Qed.

(** [b->flags |= B_DIRTY], as [log_write] and [bwrite] do. *)
Definition mark_dirty (i : nat) : M bcache unit :=
  upd_buf i (fun x => set_flags (Z.lor (flags x) B_DIRTY) x).

Lemma mark_dirty_spec s i bn :
  inv s -> holds s i bn ->
  exists s', mark_dirty i s = Ret tt s' /\ inv s' /\ holds s' i bn /\ dk s' = dk s /\
    view s' bn = view s bn /\ dirty_at s' bn /\ same_except bn s s'.
Proof.
  intros Hs Hh. pose proof Hh as [Hc _]. pose proof Hc as (Hi & Hd & _).
  destruct (inv_buf s Hs i Hi) as (_ & _ & _ & Hl & _ & Hok). destruct (Hok Hd) as (Hv & _).
  destruct (held_update s i bn (fun x => set_flags (Z.lor (flags x) B_DIRTY) x) Hs Hh)
    as (H1 & H2 & H3 & H4 & H5); [done..| |].
  { unfold is_valid in *. cbn. change B_DIRTY with (2 ^ 2).
    rewrite testbit_lor_pow2, Hv by lia. done. }
  exists (ub i (fun x => set_flags (Z.lor (flags x) B_DIRTY) x) s).
  split_and!; [done..| | |done].
  - by rewrite H3, (view_cached s bn i Hs Hc).
  - apply H4. unfold is_dirty. cbn. change B_DIRTY with (2 ^ 2).
    by rewrite testbit_lor_pow2 by lia.
Qed.

(** The state with another disk. *)
Definition with_dk (d : disk) (s : bcache) : bcache := MkBc (bc_lock s) (bufs s) d.

(** Writing the block of a locked buffer to the disk. *)
Lemma with_dk_spec s i bn x :
  inv s -> holds s i bn -> length x = BSIZE ->
  let s' := with_dk (write_block (Z.to_nat bn) x (dk s)) s in
  inv s' /\ holds s' i bn /\ view s' bn = view s bn /\ (dirty_at s' bn <-> dirty_at s bn) /\
  same_except bn s s'.
Proof.
  intros Hs Hh Hx s'. pose proof Hh as [Hc Hl]. pose proof Hc as (Hi & Hd & Hb).
  destruct (inv_buf s Hs i Hi) as (_ & _ & _ & _ & _ & Hok).
  destruct (Hok Hd) as (_ & Hr & _). rewrite Hb in Hr.
  assert (Hsz : disksize (dk s') = disksize (dk s)).
  { unfold disksize. cbn. by rewrite length_insert. }
  assert (Hrd : forall b, 0 <= b -> b <> bn ->
    read_block (dk s') (Z.to_nat b) = read_block (dk s) (Z.to_nat b)).
  { intros b Hb0 Hne. unfold read_block. cbn. apply list_lookup_total_insert_ne. lia. }
  assert (Hc' : forall b j, caches s' b j <-> caches s b j) by done.
  assert (Hs' : inv s').
  { split; try apply Hs.
    - intros j Hj. destruct (inv_buf s Hs j Hj) as (J1 & J2 & J3 & J4 & J5 & J6).
      change (getb s' j) with (getb s j).
      split_and!; try done. intros J7. destruct (J6 J7) as (K1 & K2 & K3).
      rewrite Hsz. split_and!; [done|lia..|]. intros E1 E2.
      destruct (decide (j = i)) as [->|Hne]; [rewrite Hl in E2; done|].
      rewrite Hrd; [by apply K3|lia|]. intros Hbj. apply Hne, (inv_uniq s Hs bn); [|done].
      by split_and!.
    - unfold s'. cbn. apply Forall_insert; [apply Hs|done]. }
  split_and!; [done..| | |].
  - by rewrite (view_cached _ bn i Hs' Hc), (view_cached s bn i Hs Hc).
  - done.
  - intros b Hb0 Hne. split_and!; [|done..].
    destruct (decide (Exists (caches s b) (seq 0 NBUF))) as [He|He].
    + apply Exists_exists in He as (j & _ & Hj).
      by rewrite (view_cached _ b j Hs' Hj), (view_cached s b j Hs Hj).
    + assert (Hno : forall j, ~ caches s b j).
      { intros j Hcj. apply He, Exists_exists. exists j. split; [|done].
        apply elem_of_seq. destruct Hcj. lia. }
      rewrite (view_uncached s b Hno), (view_uncached s' b Hno). by apply Hrd.
Qed.

Lemma same_except_trans bn s1 s2 s3 :
  same_except bn s1 s2 -> same_except bn s2 s3 -> same_except bn s1 s3.
Proof.
  intros H1 H2 b Hb0 Hb. destruct (H1 b Hb0 Hb) as (A1 & A2 & A3 & A4).
  destruct (H2 b Hb0 Hb) as (B1 & B2 & B3 & B4). split_and!.
  - congruence. - by rewrite B2. - by rewrite B3. - intros j. by rewrite B4.
Qed.

(** [bwrite]: the disk gets the block's current contents, and the buffer is clean. *)
Lemma bwrite_spec s i bn :
  inv s -> holds s i bn ->
  exists s', bwrite me i s = Ret tt s' /\ inv s' /\ holds s' i bn /\
    dk s' = write_block (Z.to_nat bn) (view s bn) (dk s) /\
    view s' bn = view s bn /\ ~ dirty_at s' bn /\ same_except bn s s'.
Proof.
  intros Hs Hh. pose proof Hh as [Hc Hl]. pose proof Hc as (Hi & Hd & Hb).
  pose proof (inv_len s Hs) as Hlen.
  destruct (inv_buf s Hs i Hi) as (_ & _ & _ & Hdl & _ & Hok). destruct (Hok Hd) as (Hv & Hr & _).
  set (g := fun x => set_flags
    (Z.lor (Z.land (Z.lor (flags x) B_DIRTY) (Z.lnot B_DIRTY)) B_VALID) x).
  destruct (with_dk_spec s i bn (data (getb s i)) Hs Hh Hdl) as (W1 & W2 & W3 & W4 & W5).
  set (s1 := with_dk _ s) in *.
  destruct (held_update s1 i bn g W1 W2) as (H1 & H2 & H3 & H4 & H5); [done..| |].
  { unfold is_valid, g. cbn. change B_VALID with (2 ^ 1). by rewrite testbit_lor_pow2 by lia. }
  exists (ub i g s1). split_and!; [|done|done| | | |].
  - unfold bwrite. erewrite bind_Ret; [|apply on_buf_lock_run, holdingsleep_held, Hl].
    cbn [negb]. unfold bind, upd_buf, modify, iderw, zoom.
    set (s2 := MkBc _ _ _).
    assert (Hg2 : getb s2 i = set_flags (Z.lor (flags (getb s i)) B_DIRTY) (getb s i)).
    { unfold s2, getb. cbn. rewrite !list_lookup_total_alter_eq; rewrite ?length_alter; [|lia..].
      by destruct (bufs s !!! i). }
    rewrite Hg2, iderw_write; [|done| |done|].
    + cbn [fst snd]. f_equal. unfold ub, s1, with_dk, s2. cbn. f_equal.
      * rewrite !list_alter_alter_eq. apply list_alter_ext; [|done].
        intros x Hx. apply list_lookup_total_correct in Hx. cbn. unfold getb. by rewrite Hx.
      * by rewrite Hb.
    + unfold is_dirty. cbn. change B_DIRTY with (2 ^ 2). by rewrite testbit_lor_pow2 by lia.
    + unfold s2. cbn. lia.
  - cbn. by rewrite (view_cached s bn i Hs Hc).
  - rewrite H3. cbn. by rewrite (view_cached s bn i Hs Hc).
  - rewrite H4. unfold is_dirty, g. cbn. change B_DIRTY with (2 ^ 2). change B_VALID with (2 ^ 1).
    rewrite testbit_lor_pow2, testbit_clear_pow2 by lia. done.
  - by eapply same_except_trans.
Qed.

(** *** Releasing a buffer *)

(** Everything in a buffer but its links. *)
Definition core (b : buf) : buf := set_prev 0 (set_next 0 b).

Lemma nxt_set_next i v s j :
  (i < length (bufs s))%nat -> nxt (ub i (set_next v) s) j = (<[i := v]> (nxt s)) j.
Proof.
  intros. unfold nxt, insert, fn_insert. rewrite getb_ub by done. by case_decide.
Qed.
Lemma nxt_set_prev i v s j :
  (i < length (bufs s))%nat -> nxt (ub i (set_prev v) s) j = nxt s j.
Proof. intros. unfold nxt. rewrite getb_ub by done. case_decide; by subst. Qed.
Lemma prv_set_prev i v s j :
  (i < length (bufs s))%nat -> prv (ub i (set_prev v) s) j = (<[i := v]> (prv s)) j.
Proof.
  intros. unfold prv, insert, fn_insert. rewrite getb_ub by done. by case_decide.
Qed.
Lemma prv_set_next i v s j :
  (i < length (bufs s))%nat -> prv (ub i (set_next v) s) j = prv s j.
Proof. intros. unfold prv. rewrite getb_ub by done. case_decide; by subst. Qed.
Lemma core_ub i g s j :
  (i < length (bufs s))%nat -> (forall x, core (g x) = core x) ->
  core (getb (ub i g s) j) = core (getb s j).
Proof. intros. rewrite getb_ub by done. case_decide; subst; auto. Qed.

Lemma fn_insert_ext (f g : nat -> nat) i v j :
  (forall k, f k = g k) -> (<[i := v]> f) j = (<[i := v]> g) j.
Proof. intros H. unfold insert, fn_insert. by case_decide. Qed.

Lemma move_to_front_run t b l1 l2 :
  length (bufs t) = S NBUF -> ring (nxt t) (prv t) head_ (l1 ++ b :: l2) ->
  l1 ++ b :: l2 ≡ₚ seq 0 NBUF ->
  exists t', move_to_front b t = Ret tt t' /\
    ring (nxt t') (prv t') head_ (b :: l1 ++ l2) /\
    bc_lock t' = bc_lock t /\ dk t' = dk t /\ length (bufs t') = S NBUF /\
    forall j, core (getb t' j) = core (getb t j).
Proof.
  intros Hlen Hr Hl. pose proof (ring_elems _ Hl) as Hin.
  assert (Hb : (b < NBUF)%nat) by (apply Hin; set_solver).
  assert (Hh : forall x, x ∈ head_ :: l1 ++ b :: l2 -> (x < S NBUF)%nat).
  { intros x [->|Hx]%elem_of_cons; [unfold head_; lia|]. apply Hin in Hx. lia. }
  pose proof (ring_next _ _ _ _ _ _ Hr) as Hn. pose proof (ring_prev _ _ _ _ _ _ Hr) as Hp.
  pose proof (ring_unlink _ _ _ _ _ _ Hr) as Hu. destruct Hr as (_ & _ & Hnd).
  set (n := nxt t b) in *. set (p := prv t b) in *.
  assert (Hnb : n <> b /\ n ∈ head_ :: l1 ++ l2).
  { apply NoDup_cons in Hnd as [Hnh Hnd]. apply NoDup_app in Hnd as (_ & _ & Hnd).
    apply NoDup_cons in Hnd as [Hnb _]. rewrite Hn. destruct l2 as [|y l2]; cbn; set_solver. }
  assert (Hpb : p ∈ head_ :: l1 ++ l2).
  { rewrite Hp. pose proof (lst_elem head_ l1). set_solver. }
  destruct Hnb as [Hnb Hnin].
  assert (Hnlt : (n < S NBUF)%nat) by (apply Hh; set_solver).
  assert (Hplt : (p < S NBUF)%nat) by (apply Hh; set_solver).
  assert (Hx : b ∉ head_ :: l1 ++ l2).
  { apply NoDup_cons in Hnd as [Hnh Hnd]. apply NoDup_app in Hnd as (_ & Hd & Hnd).
    apply NoDup_cons in Hnd as [Hb2 _]. specialize (Hd b). set_solver. }
  pose proof (ring_push _ _ _ _ b Hu Hx) as Hpush.
  set (nx1 := <[p := n]> (nxt t)) in *. set (pv1 := <[n := p]> (prv t)) in *.
  set (t2 := ub p (set_next n) (ub n (set_prev p) t)).
  assert (Hlen1 : length (bufs (ub n (set_prev p) t)) = S NBUF) by (by rewrite length_ub).
  assert (Hlen2 : length (bufs t2) = S NBUF) by (by unfold t2; rewrite !length_ub).
  assert (Hn2 : forall j, nxt t2 j = nx1 j).
  { intros j. unfold t2. rewrite nxt_set_next by lia. apply fn_insert_ext.
    intros k. apply nxt_set_prev. lia. }
  assert (Hp2 : forall j, prv t2 j = pv1 j).
  { intros j. unfold t2. rewrite prv_set_next by lia. apply prv_set_prev. lia. }
  set (hn := nx1 head_) in *.
  assert (Hhn : (hn < S NBUF)%nat).
  { destruct Hu as (Hu & _). apply path_next in Hu. fold nx1 hn in Hu. rewrite Hu.
    apply Hh. destruct (l1 ++ l2) as [|y l'] eqn:E; cbn; [set_solver|].
    assert (y ∈ l1 ++ l2) by (rewrite E; set_solver). set_solver. }
  set (t4 := ub b (set_prev head_) (ub b (set_next hn) t2)).
  assert (Hlen4 : length (bufs t4) = S NBUF) by (by unfold t4; rewrite !length_ub).
  assert (Hlen3 : length (bufs (ub b (set_next hn) t2)) = S NBUF) by (by rewrite length_ub).
  assert (Hn4 : forall j, nxt t4 j = (<[b := hn]> nx1) j).
  { intros j. unfold t4. rewrite nxt_set_prev, nxt_set_next by lia. by apply fn_insert_ext. }
  assert (Hp4 : forall j, prv t4 j = (<[b := head_]> pv1) j).
  { intros j. unfold t4. rewrite prv_set_prev by lia. apply fn_insert_ext.
    intros k. by rewrite prv_set_next by lia. }
  assert (Hhb : head_ <> b) by set_solver.
  set (t6 := ub head_ (set_next b) (ub hn (set_prev b) t4)). exists t6.
  assert (Hlen5 : length (bufs (ub hn (set_prev b) t4)) = S NBUF) by (by rewrite length_ub).
  split_and!; [|eapply ring_ext, Hpush|done|done|by unfold t6; rewrite !length_ub|].
  - unfold move_to_front, bind, reads, upd_buf, modify.
    fold (ub (next (getb t b)) (set_prev (prev (getb t b))) t).
    change (next (getb t b)) with n. change (prev (getb t b)) with p.
    rewrite (getb_ub_ne n (set_prev p) t b Hnb).
    change (next (getb t b)) with n. change (prev (getb t b)) with p.
    change (MkBc _ (alter (set_next n) p _) _) with t2.
    change (next (getb t2 head_)) with (nxt t2 head_). rewrite Hn2. fold hn.
    change (MkBc _ (alter (set_prev head_) b _) _) with t4.
    change (next (getb t4 head_)) with (nxt t4 head_).
    rewrite Hn4, fn_lookup_insert_ne by done. done.
  - intros j. unfold t6. rewrite nxt_set_next by (unfold head_; lia). apply fn_insert_ext.
    intros k. rewrite nxt_set_prev by lia. by rewrite Hn4.
  - intros j. unfold t6. rewrite prv_set_next by (unfold head_; lia).
    rewrite prv_set_prev by lia. by apply fn_insert_ext.
  - intros j. unfold t6, t4, t2. rewrite !core_ub; rewrite ?length_ub; unfold head_; done || lia.
Qed.

(** The invariant and every observation only depend on what is not a link, once the links
    form a ring. *)
Lemma core_inv s s' :
  inv s -> bc_lock s' = false -> dk s' = dk s -> length (bufs s') = S NBUF ->
  (exists l, ring (nxt s') (prv s') head_ l /\ l ≡ₚ seq 0 NBUF) ->
  (forall j, core (getb s' j) = core (getb s j)) ->
  inv s' /\ forall b, view s' b = view s b /\ (dirty_at s' b <-> dirty_at s b) /\
    (locked_at s' b <-> locked_at s b) /\ (forall j, holds s' j b <-> holds s j b).
Proof.
  intros Hs Hl Hd Hlen Hr Hcore.
  assert (Hf : forall A (f : buf -> A), (forall x, f (core x) = f x) ->
    forall j, f (getb s' j) = f (getb s j)).
  { intros A f Hf j. rewrite <- (Hf (getb s' j)), Hcore. apply Hf. }
  assert (Hc : forall b j, caches s' b j <-> caches s b j).
  { intros b j. unfold caches. by rewrite (Hf _ dev), (Hf _ blockno). }
  assert (Hs' : inv s').
  { split; [done..| | |].
    - intros i Hi. rewrite Hd. unfold buf_ok, is_dirty, is_valid.
      rewrite (Hf _ lock), (Hf _ refcnt), (Hf _ data), (Hf _ flags), (Hf _ dev), (Hf _ blockno)
        by done. by apply Hs.
    - intros bn i j. rewrite !Hc. apply Hs.
    - rewrite Hd. apply Hs. }
  split; [done|]. intros b. split_and!.
  - destruct (decide (Exists (caches s b) (seq 0 NBUF))) as [He|He].
    + apply Exists_exists in He as (j & _ & Hj).
      rewrite (view_cached s b j Hs Hj), (view_cached s' b j Hs' (proj2 (Hc b j) Hj)).
      by apply (Hf _ data).
    + assert (Hno : forall j, ~ caches s b j).
      { intros j Hcj. apply He, Exists_exists. exists j. split; [|done].
        apply elem_of_seq. destruct Hcj. lia. }
      rewrite !view_uncached, Hd; [done|done|]. intros j. by rewrite Hc.
  - unfold dirty_at, is_dirty. by setoid_rewrite Hc; setoid_rewrite (Hf _ flags).
  - unfold locked_at. by setoid_rewrite Hc; setoid_rewrite (Hf _ lock).
  - intros j. unfold holds. by rewrite Hc, (Hf _ lock).
Qed.

(** [brelse] of a buffer whose contents are logged or already on the disk: the block is
    unlocked, its buffer is the most recently used one, and nothing else changes. *)
Lemma brelse_spec s i bn :
  inv s -> holds s i bn ->
  dirty_at s bn \/ view s bn = read_block (dk s) (Z.to_nat bn) ->
  exists s', brelse me i s = Ret tt s' /\ inv s' /\ dk s' = dk s /\
    view s' bn = view s bn /\ (dirty_at s' bn <-> dirty_at s bn) /\ ~ locked_at s' bn /\
    same_except bn s s'.
Proof.
  intros Hs Hh Hsync. pose proof Hh as [Hc Hl]. pose proof Hc as (Hi & Hd & Hb).
  pose proof (inv_len s Hs) as Hlen.
  destruct (inv_buf s Hs i Hi) as (_ & _ & Hrc & Hdl & _ & Hok). destruct (Hok Hd) as (Hv & Hr & _).
  rewrite Hl in Hrc. cbn in Hrc.
  set (g := fun x => set_refcnt 0 (Disk.set_lock (MkSleep 0 false 0) x)).
  assert (Hs1 : inv (ub i g s)).
  { apply inv_ub; [done..| |].
    - split_and!; cbn; auto. intros _. split_and!; [done|lia..|]. intros Hnd _.
      destruct Hsync as [Hdd|Hview].
      + apply (at_cached s bn i Hs Hc) in Hdd. unfold is_dirty in *. cbn in Hnd. congruence.
      + by rewrite <- (view_cached s bn i Hs Hc), Hb.
    - cbn. rewrite Hb. intros _ j Hji Hcj. by apply Hji, (inv_uniq s Hs bn). }
  assert (Hc1 : caches (ub i g s) bn i).
  { unfold caches. rewrite getb_ub_eq by lia. done. }
  destruct (inv_ring _ Hs1) as (l & Hring & Hperm).
  assert (i ∈ l) as (l1 & l2 & ->)%list_elem_of_split by (by apply (ring_elems l Hperm)).
  set (t := MkBc true (bufs (ub i g s)) (dk s)).
  destruct (move_to_front_run t i l1 l2) as (t' & Hmv & Hring' & Hlk' & Hdk' & Hlen' & Hcore);
    [by unfold t; cbn; rewrite length_alter|done|done|].
  set (s' := MkBc false (bufs t') (dk t')).
  destruct (core_inv (ub i g s) s') as (Hs' & Hobs); [done|done|done|done| |done|].
  { exists (i :: l1 ++ l2). split; [done|]. by rewrite Permutation_middle. }
  destruct (Hobs bn) as (Hview & Hdirty & Hlocked & _).
  exists s'. split_and!; [|done|exact Hdk'| | | |].
  - unfold brelse. erewrite bind_Ret; [|apply on_buf_lock_run, holdingsleep_held, Hl].
    cbn [negb].
    set (s0 := ub i (Disk.set_lock (lock (getb s i))) s).
    assert (getb s0 i = getb s i) as Hg0.
    { unfold s0. rewrite getb_ub_eq by lia. by destruct (getb s i). }
    erewrite bind_Ret; [|eapply on_buf_lock_run, (releasesleep_held me); by rewrite Hg0].
    erewrite bind_Ret; [|apply acquire_bc, (inv_lock s Hs)].
    unfold upd_buf, modify. unfold bind at 1. unfold bind at 1, reads.
    assert (Heq : MkBc true (alter (fun x => set_refcnt (u32 (refcnt x - 1)) x) i
        (bufs (ub i (Disk.set_lock (MkSleep 0 false 0)) s0))) (dk s) = t).
    { unfold t, ub, s0. cbn. f_equal. rewrite !list_alter_alter_eq. apply list_alter_ext; [|done].
      intros x Hx. cbn. unfold g. f_equal. apply list_lookup_total_correct in Hx.
      unfold getb in Hrc. rewrite Hx in Hrc. by rewrite Hrc. }
    cbn [bc_lock dk bufs]. change (dk (ub i (Disk.set_lock (MkSleep 0 false 0)) s0)) with (dk s).
    rewrite Heq.
    assert (Hg : getb t i = g (getb s i)) by (apply (getb_ub_eq i g s); lia).
    rewrite Hg. change (refcnt (g (getb s i)) =? 0) with true. cbn [when].
    rewrite (bind_Ret _ _ _ _ _ Hmv). unfold with_bc_lock, zoom. by rewrite Hlk'.
  - rewrite Hview, (view_cached _ bn i Hs1 Hc1), (view_cached s bn i Hs Hc).
    by rewrite getb_ub_eq by lia.
  - rewrite Hdirty, (proj1 (at_cached _ bn i Hs1 Hc1)), (proj1 (at_cached s bn i Hs Hc)).
    by rewrite getb_ub_eq by lia.
  - rewrite Hlocked, (proj2 (at_cached _ bn i Hs1 Hc1)), getb_ub_eq by lia. by intros [].
  - apply (same_except_trans bn s (ub i g s)).
    + apply ub_same_except; auto.
    + intros b _ _. apply Hobs.
Qed.
End operations.

(** *** Initialisation *)

Lemma binit_link_run s b l :
  length (bufs s) = S NBUF -> (b < NBUF)%nat -> (forall x, x ∈ l -> (x < NBUF)%nat) -> b ∉ l ->
  ring (nxt s) (prv s) head_ l ->
  exists s', binit_link b s = Ret tt s' /\ ring (nxt s') (prv s') head_ (b :: l) /\
    bc_lock s' = bc_lock s /\ dk s' = dk s /\ length (bufs s') = S NBUF /\
    forall j, core (getb s' j) =
      if decide (b = j) then core (Disk.set_lock initsleeplock (getb s j)) else core (getb s j).
Proof.
  intros Hlen Hb Hlt Hnb Hr. assert (Hhb : head_ <> b) by (unfold head_; lia).
  pose proof (ring_push _ _ _ _ b Hr) as Hpush.
  assert (Hhn : (nxt s head_ < S NBUF)%nat).
  { destruct Hr as (Hp & _). apply path_next in Hp. rewrite Hp. destruct l as [|y l]; cbn.
    - unfold head_. lia.
    - assert (y < NBUF)%nat by (apply Hlt; set_solver). lia. }
  set (hn := nxt s head_) in *.
  set (s3 := ub b (Disk.set_lock initsleeplock) (ub b (set_prev head_) (ub b (set_next hn) s))).
  assert (Hlen3 : length (bufs s3) = S NBUF) by (by unfold s3; rewrite !length_ub).
  set (g := fun x => Disk.set_lock initsleeplock (set_prev head_ (set_next hn x))).
  assert (Hg : s3 = ub b g s) by (unfold s3; by rewrite !ub_ub).
  assert (Hn3 : nxt s3 head_ = hn).
  { rewrite Hg. unfold nxt. by rewrite getb_ub_ne. }
  exists (ub head_ (set_next b) (ub hn (set_prev b) s3)).
  split_and!; [|eapply ring_ext, Hpush|done|done|by rewrite !length_ub|].
  - unfold binit_link, bind, reads, upd_buf, modify.
    change (next (getb s head_)) with hn.
    change (MkBc _ (alter (Disk.set_lock initsleeplock) b _) _) with s3.
    change (next (getb s3 head_)) with (nxt s3 head_). by rewrite Hn3.
  - intros j. rewrite nxt_set_next by (rewrite length_ub; unfold head_; lia).
    apply fn_insert_ext. intros k. rewrite nxt_set_prev, Hg by lia. unfold nxt, insert, fn_insert.
    rewrite getb_ub by lia. by case_decide.
  - intros j. rewrite prv_set_next by (rewrite length_ub; unfold head_; lia).
    rewrite prv_set_prev by lia. apply fn_insert_ext. intros k. rewrite Hg.
    unfold prv, insert, fn_insert. rewrite getb_ub by lia. by case_decide.
  - rewrite not_elem_of_cons. done.
  - intros j. rewrite core_ub by (done || (rewrite length_ub; unfold head_; lia)).
    rewrite core_ub by (done || lia). rewrite Hg, getb_ub by lia. case_decide; by subst.
Qed.

(** [binit] makes the list of all buffers and establishes the invariant: nothing is cached,
    so every block reads as the disk has it. *)
Lemma binit_spec d :
  Forall (fun x => length x = BSIZE) (memdisk d) ->
  exists s, binit (boot d) = Ret tt s /\ inv s /\ dk s = d /\
    (forall b, view s b = read_block d (Z.to_nat b)) /\
    (forall b, ~ dirty_at s b /\ ~ locked_at s b).
Proof.
  intros Hd. unfold binit.
  set (s0 := ub head_ (set_next head_) (ub head_ (set_prev head_) (boot d))).
  assert (Hlen0 : length (bufs (boot d)) = S NBUF) by (by cbn; rewrite length_replicate).
  assert (Hlen1 : length (bufs (ub head_ (set_prev head_) (boot d))) = S NBUF)
    by (by rewrite length_ub).
  set (I := fun (k : nat) (s : bcache) =>
    bc_lock s = false /\ dk s = d /\ length (bufs s) = S NBUF /\
    ring (nxt s) (prv s) head_ (reverse (seq 0 k)) /\
    forall j, (j < NBUF)%nat -> core (getb s j) = zero_buf).
  assert (HI0 : I 0%nat s0).
  { split_and!; [done|done|by unfold s0; rewrite !length_ub| |].
    - unfold ring. cbn. split_and!; [| |apply NoDup_singleton]; unfold s0.
      + rewrite nxt_set_next, fn_lookup_insert by (rewrite ?length_ub; unfold head_; lia). done.
      + rewrite prv_set_next, prv_set_prev, fn_lookup_insert
          by (rewrite ?length_ub; unfold head_; lia). done.
    - intros j Hj. unfold s0. rewrite !core_ub by (done || (rewrite ?length_ub; unfold head_; lia)).
      unfold getb, boot. cbn [bufs]. rewrite lookup_total_replicate_2 by lia. done. }
  destruct (for_loop_inv (A := unit) (fun b => binit_link b ;;; ret None) I 0 NBUF s0 HI0)
    as (s' & Hf & Hl & Hdk & Hlen & Hr & Hc).
  { intros k s Hk (H1 & H2 & H3 & H4 & H5).
    destruct (binit_link_run s k (reverse (seq 0 k))) as (s' & Hb & R1 & R2 & R3 & R4 & R5);
      [done|lia| | |done|].
    - intros x. rewrite elem_of_reverse, elem_of_seq. lia.
    - rewrite elem_of_reverse, elem_of_seq. lia.
    - exists s'. split; [by rewrite (bind_Ret _ _ _ _ _ Hb)|].
      split_and!; [congruence..| |].
      + rewrite seq_S, reverse_app. done.
      + intros j Hj. rewrite R5. case_decide; [|by apply H5]. subst.
        change (Disk.set_lock initsleeplock (core (getb s j)) = zero_buf). by rewrite H5. }
  exists s'. assert (Hz : forall j, (j < NBUF)%nat -> dev (getb s' j) = 0).
  { intros j Hj. exact (f_equal dev (Hc j Hj)). }
  assert (Hno : forall b j, ~ caches s' b j).
  { intros b j (Hj & Hdv & _). rewrite Hz in Hdv; lia. }
  split_and!; [|split| | |].
  - unfold bind at 1 2 3. unfold upd_buf, modify. change (MkBc _ _ _) with s0.
    by rewrite (bind_Ret _ _ _ _ _ Hf).
  - done.
  - done.
  - exists (reverse (seq 0 NBUF)). split; [done|]. apply reverse_Permutation.
  - intros i Hi. pose proof (Hc i Hi) as E. unfold buf_ok, is_dirty, is_valid.
    assert (lock (getb s' i) = lock zero_buf) as -> by exact (f_equal lock E).
    assert (flags (getb s' i) = 0) as -> by exact (f_equal flags E).
    assert (data (getb s' i) = data zero_buf) as -> by exact (f_equal data E).
    assert (refcnt (getb s' i) = 0) as -> by exact (f_equal refcnt E).
    rewrite (Hz i Hi).
    split_and!; [done|by left|done|apply length_replicate|by intros [?|?]|done].
  - intros bn i j Hi. by destruct (Hno bn i).
  - by rewrite Hdk.
  - done.
  - intros b. by rewrite view_uncached, Hdk.
  - intros b. split; intros (j & Hj & _); by destruct (Hno b j).
Qed.
End Bio.

(** ** The cache implements a disk *)
Module BioSpec.
Import Disk Bio.

(** What a client that works on one block at a time does with the interface of [bio.c]:
    read a block, or replace its contents and write it out. *)
Inductive op := Read (bn : Z) | Write (bn : Z) (d : list Z).

Definition exec_op (me : Z) (o : op) : M bcache (list Z) :=
  match o with
  | Read bn => b <- bread me 1 bn ;; d <- read_data b ;; brelse me b ;;; ret d
  | Write bn d => b <- bread me 1 bn ;; write_data b d ;;; bwrite me b ;;; brelse me b ;;; ret d
  end.

Fixpoint exec_ops (me : Z) (os : list op) : M bcache (list (list Z)) :=
  match os with
  | [] => ret []
  | o :: os' => r <- exec_op me o ;; rs <- exec_ops me os' ;; ret (r :: rs)
  end.

(** The same on the array of blocks, with no cache. *)
Definition spec_op (o : op) (m : list (list Z)) : list Z * list (list Z) :=
  match o with
  | Read bn => (m !!! Z.to_nat bn, m)
  | Write bn d => (d, <[Z.to_nat bn := d]> m)
  end.

Fixpoint spec_ops (os : list op) (m : list (list Z)) : list (list Z) * list (list Z) :=
  match os with
  | [] => ([], m)
  | o :: os' =>
      let '(r, m1) := spec_op o m in
      let '(rs, m2) := spec_ops os' m1 in (r :: rs, m2)
  end.

Definition op_ok (n : Z) (o : op) : Prop :=
  match o with
  | Read bn => 0 <= bn < n
  | Write bn d => 0 <= bn < n /\ length d = BSIZE
  end.

(** Between two operations: nobody has a block locked and no block is dirty, so the cache
    agrees with the disk. *)
Definition idle (s : bcache) : Prop :=
  inv s /\ (forall b, ~ dirty_at s b /\ ~ locked_at s b) /\
  forall b, 0 <= b -> view s b = read_block (dk s) (Z.to_nat b).

Lemma idle_free s : idle s -> free_buf s.
Proof.
  intros (Hs & Hno & _). apply (free_buf_exists s []); [done| |rewrite NBUF_eq; cbn; lia].
  intros b [H|H]; by destruct (Hno b).
Qed.

(** From [s] to [s'] block [bn] may have changed, and [s'] is back in sync. *)
Lemma idle_step me s s' bn :
  idle s -> inv s' -> same_except me bn s s' -> ~ dirty_at s' bn -> ~ locked_at s' bn ->
  view s' bn = read_block (dk s') (Z.to_nat bn) ->
  (forall b, 0 <= b -> b <> bn ->
     read_block (dk s') (Z.to_nat b) = read_block (dk s) (Z.to_nat b)) -> 0 <= bn ->
  idle s'.
Proof.
  intros (_ & Hno & Hv) Hs' Hsame Hd Hl Hvbn Hrd Hbn.
  assert (Hall : forall b, 0 <= b ->
    (~ dirty_at s' b /\ ~ locked_at s' b) /\ view s' b = read_block (dk s') (Z.to_nat b)).
  { intros b Hb. destruct (decide (b = bn)) as [->|Hne]; [done|].
    destruct (Hsame b Hb Hne) as (E1 & E2 & E3 & _). rewrite E1, E2, E3, Hrd by done. auto. }
  split_and!; [done| |naive_solver].
  intros b. destruct (decide (0 <= b)); [naive_solver|].
  split; intros (i & (Hi & Hdv & Hb) & _);
    destruct (inv_buf s' Hs' i Hi) as (_ & _ & _ & _ & _ & Hok);
    destruct (Hok Hdv) as (_ & ? & _); lia.
Qed.

Lemma read_write_block_ne n x d k :
  n <> k -> read_block (write_block n x d) k = read_block d k.
Proof. intros. by apply list_lookup_total_insert_ne. Qed.
Lemma read_write_block_eq n x d :
  (n < length (memdisk d))%nat -> read_block (write_block n x d) n = x.
Proof. intros. by apply list_lookup_total_insert_eq. Qed.

Lemma read_data_holds me s i bn : inv s -> holds me s i bn -> read_data i s = Ret (view s bn) s.
Proof. intros Hs [Hc _]. unfold read_data, reads. by rewrite (view_cached s bn i). Qed.

Lemma exec_op_spec me s o :
  idle s -> op_ok (disksize (dk s)) o ->
  exists s', exec_op me o s = Ret (fst (spec_op o (memdisk (dk s)))) s' /\ idle s' /\
    memdisk (dk s') = snd (spec_op o (memdisk (dk s))).
Proof.
  intros Hi Ho. pose proof Hi as (Hs & Hno & Hv). pose proof (idle_free s Hi) as Hfree.
  destruct o as [bn|bn d]; cbn in Ho; [|destruct Ho as [Ho Hlen]];
    destruct (bread_spec me s bn) as (i & s1 & Hb & Hs1 & Hh & Hdk1 & Hv1 & Hd1 & Hsame1);
    try done; try (by right); try (by apply Hno); cbn [exec_op]; rewrite (bind_Ret _ _ _ _ _ Hb).
  - rewrite (bind_Ret _ _ _ _ _ (read_data_holds me s1 i bn Hs1 Hh)).
    destruct (brelse_spec me s1 i bn) as (s2 & Hr & Hs2 & Hdk2 & Hv2 & Hd2 & Hl2 & Hsame2);
      [done..|right; rewrite Hv1, Hv, Hdk1; [done|lia]|].
    rewrite (bind_Ret _ _ _ _ _ Hr). exists s2. cbn. split_and!.
    + unfold ret. rewrite Hv1, Hv by lia. done.
    + eapply (idle_step me s s2 bn); try done.
      * by eapply same_except_trans.
      * rewrite Hd2, Hd1. apply Hno.
      * rewrite Hv2, Hv1, Hdk2, Hdk1. apply Hv. lia.
      * intros. by rewrite Hdk2, Hdk1.
      * lia.
    + by rewrite Hdk2, Hdk1.
  - destruct (write_data_spec me s1 i bn d) as (s2 & Hw & Hs2 & Hh2 & Hdk2 & Hv2 & _ & Hsame2);
      [done..|]. rewrite (bind_Ret _ _ _ _ _ Hw).
    destruct (bwrite_spec me s2 i bn) as (s3 & Hbw & Hs3 & Hh3 & Hdk3 & Hv3 & Hd3 & Hsame3);
      [done..|]. rewrite (bind_Ret _ _ _ _ _ Hbw).
    assert (Hview3 : view s3 bn = read_block (dk s3) (Z.to_nat bn)).
    { rewrite Hv3, Hdk3, read_write_block_eq; [done|]. rewrite Hdk2, Hdk1.
      unfold disksize in Ho. lia. }
    destruct (brelse_spec me s3 i bn) as (s4 & Hr & Hs4 & Hdk4 & Hv4 & Hd4 & Hl4 & Hsame4);
      [done..|by right|]. rewrite (bind_Ret _ _ _ _ _ Hr). exists s4. split_and!; [done| |].
    + eapply (idle_step me s s4 bn); try done.
      * do 3 (eapply same_except_trans; [eassumption|]). done.
      * by rewrite Hd4.
      * by rewrite Hv4, Hdk4.
      * intros. rewrite Hdk4, Hdk3, read_write_block_ne by lia. by rewrite Hdk2, Hdk1.
      * lia.
    + rewrite Hdk4, Hdk3, Hdk2, Hdk1, Hv2. done.
Qed.

Lemma spec_op_length o m : length (snd (spec_op o m)) = length m.
Proof. destruct o; cbn; [done|apply length_insert]. Qed.

Lemma exec_ops_spec me os s :
  idle s -> Forall (op_ok (disksize (dk s))) os ->
  exists s', exec_ops me os s = Ret (fst (spec_ops os (memdisk (dk s)))) s' /\ idle s' /\
    memdisk (dk s') = snd (spec_ops os (memdisk (dk s))).
Proof.
  revert s. induction os as [|o os IH]; intros s Hi Hok; cbn; [by exists s|].
  apply Forall_cons in Hok as [Ho Hos].
  destruct (exec_op_spec me s o Hi Ho) as (s1 & H1 & Hi1 & Hm1).
  rewrite (bind_Ret _ _ _ _ _ H1).
  destruct (IH s1 Hi1) as (s2 & H2 & Hi2 & Hm2).
  { unfold disksize. by rewrite Hm1, spec_op_length. }
  rewrite (bind_Ret _ _ _ _ _ H2). exists s2.
  destruct (spec_op o (memdisk (dk s))) as [r m1] eqn:E1. cbn in Hm1. rewrite Hm1 in *.
  destruct (spec_ops os m1) as [rs m2] eqn:E2. done.
Qed.

(** C2: The buffer cache implements a disk.  Starting from [binit] over any disk of blocks
    of [BSIZE] bytes, any sequence of block reads and writes through [bread], [bwrite] and
    [brelse] succeeds, whatever is cached or evicted on the way: every read returns what the
    array of blocks holds after the writes before it, and the disk ends with exactly that
    array.  In particular the recycling of buffers never loses or mixes up a block. *)
Theorem cache_refines_disk me d os :
  Forall (fun x => length x = BSIZE) (memdisk d) ->
  Forall (op_ok (disksize d)) os ->
  exists s, (binit ;;; exec_ops me os) (boot d) = Ret (fst (spec_ops os (memdisk d))) s /\
    memdisk (dk s) = snd (spec_ops os (memdisk d)).
Proof.
  intros Hd Hos. destruct (binit_spec d Hd) as (s0 & Hb & Hs0 & Hdk & Hv & Hno).
  rewrite (bind_Ret _ _ _ _ _ Hb). rewrite <- Hdk in Hos |- *.
  destruct (exec_ops_spec me os s0) as (s & Hr & _ & Hm); [|done|eauto].
  split_and!; [done..|]. intros b _. by rewrite Hv, Hdk.
Qed.

Lemma cache_refines_disk_witness :
  exists s, (binit ;;; exec_ops 3 [Write 2 (replicate BSIZE 7); Read 2; Read 1])
      (boot (MkDisk (replicate 5 (replicate BSIZE 0)) [])) =
    Ret [replicate BSIZE 7; replicate BSIZE 7; replicate BSIZE 0] s.
Proof.
  destruct (cache_refines_disk 3 (MkDisk (replicate 5 (replicate BSIZE 0)) [])
    [Write 2 (replicate BSIZE 7); Read 2; Read 1]) as (s & Hs & _).
  - apply Forall_replicate, length_replicate.
  - repeat constructor; cbn; lia.
  - exists s. exact Hs.
Defined.
End BioSpec.
