(* ===== verification/Cache.v ===== *)
(** The contract of the buffer cache, for its clients.

    [abs s V D H d] describes a state [s] of [bio.c] by what a client can observe: the
    contents [V] of every block, the set [D] of dirty blocks (pinned in the cache until they
    are written), the list [H] of the blocks the running process has locked, each with its
    buffer, and the disk [d].  There is one lemma per operation; the log and the file system
    are verified with these lemmas only. *)

From S2P Require Import Prelude Params Bytes Sleeplock Bio.

Module Cache.
Import SleepLock Disk Bio.

Section contract.
Variable me : Z.

Record abs (s : bcache) (V : Z -> list Z) (D : gset Z) (H : list (nat * Z)) (d : disk)
  : Prop := MkAbs {
  abs_inv : inv s;
  abs_dk : dk s = d;
  abs_view b : 0 <= b -> view s b = V b;
  abs_dirty b : dirty_at s b <-> b ∈ D;
  abs_locked b : locked_at s b <-> b ∈ H.*2;
  abs_held i b : (i, b) ∈ H -> holds me s i b;
  abs_nodup : NoDup (H.*2)
}.

Lemma caches_range s i b : inv s -> caches s b i -> 0 <= b < disksize (dk s).
Proof.
  intros Hs (Hi & Hd & <-). destruct (inv_buf s Hs i Hi) as (_ & _ & _ & _ & _ & Hok). by apply Hok.
Qed.

Lemma at_range s b : inv s -> dirty_at s b \/ locked_at s b -> 0 <= b < disksize (dk s).
Proof. intros Hs [(i & Hc & _)|(i & Hc & _)]; by eapply caches_range. Qed.
Lemma at_nonneg s b : inv s -> ~ 0 <= b -> ~ dirty_at s b /\ ~ locked_at s b.
Proof. intros Hs Hb. split; intros Hat; apply Hb; eapply at_range; eauto. Qed.

Section lemmas.
Context {s : bcache} {V : Z -> list Z} {D : gset Z} {H : list (nat * Z)} {d : disk}.
Hypothesis HA : abs s V D H d.

Lemma dirty_range b : b ∈ D -> 0 <= b < disksize d.
Proof. destruct HA as [Hs <- _ Hd _ _ _]. intros Hb. apply at_range; [done|]. left. by apply Hd. Qed.
Lemma held_range i b : (i, b) ∈ H -> 0 <= b < disksize d.
Proof.
  destruct HA as [Hs <- _ _ _ Hh _]. intros Hb. destruct (Hh i b Hb) as [Hc _].
  by eapply caches_range.
Qed.

(** A block nobody is changing is on the disk. *)
Lemma clean_view b : 0 <= b -> b ∉ D -> b ∉ H.*2 -> V b = read_block d (Z.to_nat b).
Proof.
  destruct HA as [Hs <- Hv Hd Hl _ _]. intros Hb HnD HnH. rewrite <- Hv by done.
  destruct (decide (Exists (caches s b) (seq 0 NBUF))) as [He|He].
  - apply Exists_exists in He as (i & _ & Hc). rewrite (view_cached s b i) by done.
    pose proof Hc as (Hi & Hdv & <-).
    destruct (inv_buf s Hs i Hi) as (_ & _ & _ & _ & _ & Hok). apply Hok; [done| |].
    + destruct (is_dirty (getb s i)) eqn:E; [|done]. destruct HnD. apply Hd. by exists i.
    + destruct (decide (locked (lock (getb s i)) = 0)); [done|]. destruct HnH. apply Hl. by exists i.
  - apply view_uncached. intros i Hc. apply He, Exists_exists. exists i. split; [|done].
    apply elem_of_seq. destruct Hc. lia.
Qed.

Lemma length_view b : 0 <= b < disksize d -> length (V b) = BSIZE.
Proof.
  destruct HA as [Hs <- Hv _ _ _ _]. intros Hb. rewrite <- Hv by lia.
  destruct (decide (Exists (caches s b) (seq 0 NBUF))) as [He|He].
  - apply Exists_exists in He as (i & _ & Hc). rewrite (view_cached s b i) by done.
    destruct Hc as (Hi & _ & _). by destruct (inv_buf s Hs i Hi) as (_ & _ & _ & ? & _).
  - rewrite view_uncached.
    + pose proof (inv_disk s Hs) as Hdk. rewrite Forall_lookup in Hdk. unfold disksize in Hb.
      eapply Hdk. unfold read_block. apply list_lookup_lookup_total_lt. lia.
    + intros i Hc. apply He, Exists_exists. exists i. split; [|done].
      apply elem_of_seq. destruct Hc. lia.
Qed.

(** How a step that concerns block [bn] only changes the description. *)
Lemma abs_step s' bn x D' H' d' :
  inv s' -> dk s' = d' -> 0 <= bn -> same_except me bn s s' -> view s' bn = x ->
  (dirty_at s' bn <-> bn ∈ D') -> (locked_at s' bn <-> bn ∈ H'.*2) ->
  (forall b, b <> bn -> b ∈ D' <-> b ∈ D) ->
  (forall b, b <> bn -> b ∈ H'.*2 <-> b ∈ H.*2) ->
  (forall i b, b <> bn -> (i, b) ∈ H' -> (i, b) ∈ H) ->
  (forall i, (i, bn) ∈ H' -> holds me s' i bn) -> NoDup H'.*2 ->
  abs s' (<[bn := x]> V) D' H' d'.
Proof.
  destruct HA as [Hs Hdk Hv Hd Hl Hh Hn].
  intros Hs' Hdk' Hbn Hsame Hx HD HL HD' HH' Hin Hhold Hnd.
  assert (Hneg : forall b, ~ 0 <= b -> (~ dirty_at s b /\ ~ locked_at s b) /\
    (~ dirty_at s' b /\ ~ locked_at s' b)) by (intros; split; by apply at_nonneg).
  split; [done..| | | | |done].
  - intros b Hb. destruct (decide (b = bn)) as [->|Hne]; [by rewrite fn_lookup_insert|].
    rewrite fn_lookup_insert_ne by done. rewrite <- Hv by done. by apply Hsame.
  - intros b. destruct (decide (b = bn)) as [->|Hne]; [done|]. rewrite HD', <- Hd by done.
    destruct (decide (0 <= b)) as [Hb|Hb]; [by apply Hsame|]. specialize (Hneg b Hb). tauto.
  - intros b. destruct (decide (b = bn)) as [->|Hne]; [done|]. rewrite HH', <- Hl by done.
    destruct (decide (0 <= b)) as [Hb|Hb]; [by apply Hsame|]. specialize (Hneg b Hb). tauto.
  - intros i b Hib. destruct (decide (b = bn)) as [->|Hne]; [by apply Hhold|].
    assert (Hb : 0 <= b) by (eapply held_range, Hin; eauto).
    apply (Hsame b Hb Hne), Hh. by apply Hin.
Qed.
End lemmas.

Lemma abs_ext s V V' D H d :
  (forall b, 0 <= b -> V b = V' b) -> abs s V D H d -> abs s V' D H d.
Proof.
  intros He [H1 H2 H3 H4 H5 H6 H7]. split; try done. intros b Hb. rewrite <- He; auto.
Qed.
Lemma abs_keep s V D H d b : 0 <= b -> abs s (<[b := V b]> V) D H d -> abs s V D H d.
Proof.
  intros Hb. apply abs_ext. intros b' _.
  destruct (decide (b' = b)) as [->|]; [by rewrite fn_lookup_insert|by rewrite fn_lookup_insert_ne].
Qed.

Section operations.
Context {s : bcache} {V : Z -> list Z} {D : gset Z} {H : list (nat * Z)} {d : disk}.
Hypothesis HA : abs s V D H d.

Lemma bread_abs b :
  0 <= b < disksize d -> b ∉ H.*2 -> b ∈ D \/ (size D + length H < NBUF)%nat ->
  exists i s', bread me 1 b s = Ret i s' /\ abs s' V D ((i, b) :: H) d.
Proof.
  intros Hb HnH Hroom. pose proof HA as [Hs Hdk Hv Hd Hl Hh Hn].
  destruct (bread_spec me s b) as (i & s' & Hr & Hs' & Hhold & Hdk' & Hv' & Hd' & Hsame).
  - done.
  - by rewrite Hdk.
  - by rewrite Hl.
  - destruct Hroom as [Hin|Hroom].
    + left. apply Hd in Hin as (i & Hc & _). by exists i.
    + right. apply (free_buf_exists s (elements D ++ H.*2)); [done| |].
      * intros b'. rewrite Hl, Hd, elem_of_app, elem_of_elements. tauto.
      * rewrite length_app, length_fmap. unfold size, set_size in Hroom. cbn in Hroom. lia.
  - exists i, s'. split; [done|]. apply (abs_keep _ _ _ _ _ b); [lia|].
    apply (abs_step HA); try done.
    + congruence.
    + lia.
    + rewrite Hv', Hv by lia. done.
    + by rewrite Hd', Hd.
    + rewrite fmap_cons, elem_of_cons. split; [by left|]. intros _. destruct Hhold as [Hc Hlk].
      exists i. split; [done|]. by rewrite Hlk.
    + intros b' ?. rewrite fmap_cons, elem_of_cons. cbn. tauto.
    + intros j b' ? [?|?]%elem_of_cons; [congruence|done].
    + intros j [[= ->]|Hin]%elem_of_cons; [done|]. destruct HnH.
      apply list_elem_of_fmap. by exists (j, b).
    + rewrite fmap_cons, NoDup_cons. done.
Qed.

Lemma read_data_abs i b : (i, b) ∈ H -> read_data i s = Ret (V b) s.
Proof.
  intros Hi. destruct HA as [Hs Hdk Hv Hd Hl Hh Hn]. destruct (Hh i b Hi) as [Hc _].
  pose proof (caches_range s i b Hs Hc). rewrite <- Hv by lia.
  unfold read_data, reads. by rewrite (view_cached s b i).
Qed.

Lemma locked_held i b s' : holds me s' i b -> locked_at s' b.
Proof. intros [Hc Hk]. exists i. split; [done|]. by rewrite Hk. Qed.

Lemma held_index i j b : (i, b) ∈ H -> (j, b) ∈ H -> i = j.
Proof.
  destruct HA as [Hs _ _ _ _ Hh _]. intros Hi Hj.
  apply (inv_uniq s Hs b); [by apply Hh in Hi as [? _]|by apply Hh in Hj as [? _]].
Qed.

(** A step on a block that stays locked. *)
Lemma abs_held_step i b s' x D' d' :
  (i, b) ∈ H -> inv s' -> holds me s' i b -> dk s' = d' -> view s' b = x ->
  (dirty_at s' b <-> b ∈ D') -> (forall b', b' <> b -> b' ∈ D' <-> b' ∈ D) ->
  same_except me b s s' -> abs s' (<[b := x]> V) D' H d'.
Proof.
  intros Hi Hs' Hh' Hdk' Hx HD HD' Hsame. pose proof HA as [Hs Hdk Hv Hd Hl Hh Hn].
  assert (b ∈ H.*2) by (apply list_elem_of_fmap; by exists (i, b)).
  apply (abs_step HA); try done.
  - eapply (held_range HA); eauto.
  - split; [done|]. intros _. by eapply locked_held.
  - intros j Hj. by rewrite (held_index j i b).
Qed.

Lemma write_data_abs i b x :
  (i, b) ∈ H -> length x = BSIZE ->
  exists s', write_data i x s = Ret tt s' /\ abs s' (<[b := x]> V) D H d.
Proof.
  intros Hi Hx. pose proof HA as [Hs Hdk Hv Hd Hl Hh Hn].
  destruct (write_data_spec me s i b x) as (s' & Hw & Hs' & Hh' & Hdk' & Hv' & Hd' & Hsame); auto.
  exists s'. split; [done|]. apply (abs_held_step i); try done; [congruence|].
  by rewrite Hd', Hd.
Qed.

Lemma bwrite_abs i b :
  (i, b) ∈ H ->
  exists s', bwrite me i s = Ret tt s' /\
    abs s' V (D ∖ {[b]}) H (write_block (Z.to_nat b) (V b) d).
Proof.
  intros Hi. pose proof HA as [Hs Hdk Hv Hd Hl Hh Hn].
  pose proof (held_range HA i b Hi) as Hb.
  destruct (bwrite_spec me s i b) as (s' & Hw & Hs' & Hh' & Hdk' & Hv' & Hd' & Hsame); auto.
  exists s'. split; [done|]. apply (abs_keep _ _ _ _ _ b); [lia|]. rewrite Hv in Hv', Hdk' by lia.
  apply (abs_held_step i); try done; [congruence| |]; set_solver.
Qed.

Lemma mark_dirty_abs i b :
  (i, b) ∈ H -> exists s', mark_dirty i s = Ret tt s' /\ abs s' V ({[b]} ∪ D) H d.
Proof.
  intros Hi. pose proof HA as [Hs Hdk Hv Hd Hl Hh Hn].
  pose proof (held_range HA i b Hi) as Hb.
  destruct (mark_dirty_spec me s i b) as (s' & Hw & Hs' & Hh' & Hdk' & Hv' & Hd' & Hsame); auto.
  exists s'. split; [done|]. apply (abs_keep _ _ _ _ _ b); [lia|]. rewrite Hv in Hv' by lia.
  apply (abs_held_step i); try done; [congruence| |]; set_solver.
Qed.

Lemma brelse_abs i b :
  (i, b) ∈ H -> b ∈ D \/ V b = read_block d (Z.to_nat b) ->
  exists s', brelse me i s = Ret tt s' /\ abs s' V D (remove_elem (i, b) H) d.
Proof.
  intros Hi Hc. pose proof HA as [Hs Hdk Hv Hd Hl Hh Hn].
  pose proof (held_range HA i b Hi) as Hb.
  destruct (brelse_spec me s i b) as (s' & Hw & Hs' & Hdk' & Hv' & Hd' & Hl' & Hsame); auto.
  { rewrite Hd, Hv, Hdk by lia. done. }
  assert (Hnot : forall j, (j, b) ∉ remove_elem (i, b) H).
  { intros j [Hne Hj]%elem_of_remove_elem. apply Hne. by rewrite (held_index j i b). }
  exists s'. split; [done|]. apply (abs_keep _ _ _ _ _ b); [lia|]. rewrite Hv in Hv' by lia.
  apply (abs_step HA); try done; try lia.
  - congruence.
  - by rewrite Hd', Hd.
  - split; [done|]. intros ([j b''] & Hb' & Hj)%list_elem_of_fmap. cbn in Hb'. subst b''.
    by destruct (Hnot j).
  - intros b' Hne. rewrite !list_elem_of_fmap. split; intros ([j b''] & -> & Hj); cbn in *;
      exists (j, b''); (split; [done|]); rewrite elem_of_remove_elem in *; [tauto|].
    split; [congruence|done].
  - intros j b' Hne [_ ?]%elem_of_remove_elem. done.
  - intros j Hj. by destruct (Hnot j).
  - eapply sublist_NoDup; [exact Hn|]. apply fmap_sublist. unfold remove_elem. apply sublist_filter.
Qed.
End operations.

Lemma binit_abs dd :
  Forall (fun x => length x = BSIZE) (memdisk dd) ->
  exists s, binit (boot dd) = Ret tt s /\
    abs s (fun b => read_block dd (Z.to_nat b)) ∅ [] dd.
Proof.
  intros Hd. destruct (binit_spec dd Hd) as (s & Hb & Hs & Hdk & Hv & Hno).
  exists s. split; [exact Hb|]. clear Hb. split; [exact Hs|exact Hdk|intros b _; apply Hv|..].
  - intros b. split; [by destruct (Hno b)|set_solver].
  - intros b. split; [by destruct (Hno b)|]. by intros ?%elem_of_nil.
  - by intros i b ?%elem_of_nil.
  - apply NoDup_nil_2.
Qed.
End contract.
End Cache.
