(* ===== verification/Log.v ===== *)
(** The write-ahead log ([log.c]).

    [Module Log] has the log's state and all its operations, over the buffer cache;
    [Module Commit] the theory of [commit] and recovery: what they write, in which order,
    and that a crash between any two disk writes leaves all or nothing of a transaction;
    [Module Ops] the system calls that share the log, and its space reservation. *)

From S2P Require Import Prelude Params Bytes Sleeplock Bio Cache.

Module Log.
Import Disk Bio.

(** [struct logheader], in memory: [n] and the array [block] of [LOGSIZE] block numbers. *)
Record logheader := MkLh { lh_n : Z; lh_block : list Z }.

(** [struct log]. *)
Record log := MkLog {
  l_lock : Klock.t; l_start : Z; l_size : Z; l_outstanding : Z; l_committing : Z;
  l_dev : Z; l_lh : logheader
}.

Record lstate := MkL { lg : log; bc : bcache }.

Definition set_lock (x : Klock.t) (l : log) : log :=
  MkLog x (l_start l) (l_size l) (l_outstanding l) (l_committing l) (l_dev l) (l_lh l).
Definition set_start (x : Z) (l : log) : log :=
  MkLog (l_lock l) x (l_size l) (l_outstanding l) (l_committing l) (l_dev l) (l_lh l).
Definition set_size (x : Z) (l : log) : log :=
  MkLog (l_lock l) (l_start l) x (l_outstanding l) (l_committing l) (l_dev l) (l_lh l).
Definition set_outstanding (x : Z) (l : log) : log :=
  MkLog (l_lock l) (l_start l) (l_size l) x (l_committing l) (l_dev l) (l_lh l).
Definition set_committing (x : Z) (l : log) : log :=
  MkLog (l_lock l) (l_start l) (l_size l) (l_outstanding l) x (l_dev l) (l_lh l).
Definition set_ldev (x : Z) (l : log) : log :=
  MkLog (l_lock l) (l_start l) (l_size l) (l_outstanding l) (l_committing l) x (l_lh l).
Definition set_n (x : Z) (l : log) : log :=
  MkLog (l_lock l) (l_start l) (l_size l) (l_outstanding l) (l_committing l) (l_dev l)
    (MkLh x (lh_block (l_lh l))).
Definition set_block (i : nat) (x : Z) (l : log) : log :=
  MkLog (l_lock l) (l_start l) (l_size l) (l_outstanding l) (l_committing l) (l_dev l)
    (MkLh (lh_n (l_lh l)) (<[i := x]> (lh_block (l_lh l)))).

Definition upd (f : log -> log) : M lstate unit := modify (fun s => MkL (f (lg s)) (bc s)).
Definition log_lock (m : M Klock.t unit) : M lstate unit :=
  zoom (fun s => l_lock (lg s)) (fun k s => MkL (set_lock k (lg s)) (bc s)) m.
Definition cache {A} (m : M bcache A) : M lstate A := zoom bc (fun b s => MkL (lg s) b) m.
Definition log_chan : chan := ("log"%string, 0%nat).

(** An index past the end of an array: what C does then is undefined. *)
Definition out_of_bounds : string := "undefined behaviour: index out of bounds".

(** [log.lh.block[i]] *)
Definition get_block (i : nat) : M lstate Z :=
  l <- reads lg ;;
  match lh_block (l_lh l) !! i with Some b => ret b | None => panic out_of_bounds end.
Definition put_block (i : nat) (x : Z) : M lstate unit :=
  l <- reads lg ;;
  if (i <? length (lh_block (l_lh l)))%nat then upd (set_block i x) else panic out_of_bounds.

Definition sizeof_logheader : Z := 4 + LOGSIZE * 4.

Section with_process.
Variable me : Z.

(** [readsb] of [fs.c]. *)
Definition sb_of (d : list Z) : superblock :=
  MkSb (get32 d 0) (get32 d 4) (get32 d 8) (get32 d 12) (get32 d 16) (get32 d 20) (get32 d 24).
Definition readsb (dev : Z) : M bcache superblock :=
  bp <- bread me dev 1 ;;
  d <- read_data bp ;;
  brelse me bp ;;;
  ret (sb_of d).

Definition install_trans_body (tail : nat) : M lstate (option unit) :=
  l <- reads lg ;;
  lbuf <- cache (bread me (l_dev l) (u32 (l_start l + Z.of_nat tail + 1))) ;;
  b <- get_block tail ;;
  dbuf <- cache (bread me (l_dev l) (u32 b)) ;;
  d <- cache (read_data lbuf) ;;
  cache (write_data dbuf d) ;;;
  cache (bwrite me dbuf) ;;;
  cache (brelse me lbuf) ;;;
  cache (brelse me dbuf) ;;;
  ret None.
Definition install_trans : M lstate unit :=
  l <- reads lg ;;
  for_loop install_trans_body 0 (Z.to_nat (lh_n (l_lh l))) ;;;
  ret tt.

(** [lh->n] and [lh->block[i]] of a header block. *)
Definition hdr_n (d : list Z) : Z := i32 (get32 d 0).
Definition hdr_block (d : list Z) (i : nat) : Z := i32 (get32 d (4 + 4 * i)).

Definition read_head : M lstate unit :=
  l <- reads lg ;;
  buf <- cache (bread me (l_dev l) (u32 (l_start l))) ;;
  d <- cache (read_data buf) ;;
  upd (set_n (hdr_n d)) ;;;
  for_loop (A := unit) (fun i =>
    (if (4 + 4 * i + 4 <=? BSIZE)%nat then put_block i (hdr_block d i)
     else panic out_of_bounds) ;;; ret None) 0 (Z.to_nat (hdr_n d)) ;;;
  cache (brelse me buf).

Definition write_head : M lstate unit :=
  l <- reads lg ;;
  buf <- cache (bread me (l_dev l) (u32 (l_start l))) ;;
  d <- cache (read_data buf) ;;
  cache (write_data buf (put32 d 0 (lh_n (l_lh l)))) ;;;
  for_loop (A := unit) (fun i =>
    b <- get_block i ;;
    d <- cache (read_data buf) ;;
    cache (write_data buf (put32 d (4 + 4 * i) b)) ;;;
    ret None) 0 (Z.to_nat (lh_n (l_lh l))) ;;;
  cache (bwrite me buf) ;;;
  cache (brelse me buf).

Definition recover_from_log : M lstate unit :=
  read_head ;;;
  install_trans ;;;
  upd (set_n 0) ;;;
  write_head.

Definition initlog (dev : Z) : M lstate unit :=
  if Z.of_nat BSIZE <=? sizeof_logheader then panic "initlog: too big logheader" else
  upd (set_lock false) ;;;
  sb <- cache (readsb dev) ;;
  upd (set_start (i32 (sb_logstart sb))) ;;;
  upd (set_size (i32 (sb_nlog sb))) ;;;
  upd (set_ldev dev) ;;;
  recover_from_log.

(** [begin_op], up to its first [sleep]; [sleep] gives up the lock. *)
Definition begin_op : M lstate unit :=
  log_lock Klock.acquire ;;;
  l <- reads lg ;;
  if negb (l_committing l =? 0) then log_lock Klock.release ;;; sleep_on log_chan
  else if LOGSIZE <? lh_n (l_lh l) + (l_outstanding l + 1) * MAXOPBLOCKS
  then log_lock Klock.release ;;; sleep_on log_chan
  else upd (fun l => set_outstanding (l_outstanding l + 1) l) ;;; log_lock Klock.release.

Definition write_log_body (tail : nat) : M lstate (option unit) :=
  l <- reads lg ;;
  to <- cache (bread me (l_dev l) (u32 (l_start l + Z.of_nat tail + 1))) ;;
  b <- get_block tail ;;
  from <- cache (bread me (l_dev l) (u32 b)) ;;
  d <- cache (read_data from) ;;
  cache (write_data to d) ;;;
  cache (bwrite me to) ;;;
  cache (brelse me from) ;;;
  cache (brelse me to) ;;;
  ret None.
Definition write_log : M lstate unit :=
  l <- reads lg ;;
  for_loop write_log_body 0 (Z.to_nat (lh_n (l_lh l))) ;;;
  ret tt.

Definition commit : M lstate unit :=
  l <- reads lg ;;
  when (0 <? lh_n (l_lh l))
    (write_log ;;;
     write_head ;;;
     install_trans ;;;
     upd (set_n 0) ;;;
     write_head).

(** [end_op]: leaving the transaction, then [commit] if this was the last system call in it;
    the [wakeup(&log)] are steps of the waiting processes. *)
Definition end_op_leave : M lstate bool :=
  log_lock Klock.acquire ;;;
  upd (fun l => set_outstanding (l_outstanding l - 1) l) ;;;
  l <- reads lg ;;
  if negb (l_committing l =? 0) then panic "log.committing" else
  let do_commit := l_outstanding l =? 0 in
  when do_commit (upd (set_committing 1)) ;;;
  log_lock Klock.release ;;;
  ret do_commit.
Definition end_op_commit : M lstate unit :=
  commit ;;;
  log_lock Klock.acquire ;;;
  upd (set_committing 0) ;;;
  log_lock Klock.release.
Definition end_op : M lstate unit :=
  do_commit <- end_op_leave ;;
  when do_commit end_op_commit.

(** The loop of [log_write]: the index of the block number among the first [n] entries of
    the header, or [n]. *)
Fixpoint log_find (l : log) (bn : Z) (i cnt : nat) : nat :=
  match cnt with
  | O => i
  | S c => if u32 (default 0 (lh_block (l_lh l) !! i)) =? bn then i else log_find l bn (S i) c
  end.

Definition log_write (b : nat) : M lstate unit :=
  l <- reads lg ;;
  if (LOGSIZE <=? lh_n (l_lh l)) || (l_size l - 1 <=? lh_n (l_lh l))
  then panic "too big a transaction" else
  if l_outstanding l <? 1 then panic "log_write outside of trans" else
  log_lock Klock.acquire ;;;
  x <- cache (reads (fun s => getb s b)) ;;
  l <- reads lg ;;
  let i := log_find l (blockno x) 0 (Z.to_nat (lh_n (l_lh l))) in
  put_block i (i32 (blockno x)) ;;;
  when (Z.of_nat i =? lh_n (l_lh l)) (upd (fun l => set_n (lh_n (l_lh l) + 1) l)) ;;;
  cache (upd_buf b (fun x => set_flags (Z.lor (flags x) B_DIRTY) x)) ;;;
  log_lock Klock.release.
End with_process.

(** The kernel's state when it starts over the disk [d]. *)
Definition boot_log : log := MkLog false 0 0 0 0 0 (MkLh 0 (replicate (Z.to_nat LOGSIZE) 0)).
Definition boot (d : disk) : lstate := MkL boot_log (Bio.boot d).
End Log.

(** ** Commit and recovery *)
Module Commit.
Import Disk Bio Cache Log.

(** The disk after a list of block writes. *)
Definition apply_writes (ws : list (nat * list Z)) (d : disk) : disk :=
  foldl (fun d w => write_block (fst w) (snd w) d) d ws.

Lemma apply_writes_app ws ws' d : apply_writes (ws ++ ws') d = apply_writes ws' (apply_writes ws d).
Proof. apply foldl_app. Qed.
Lemma disksize_apply ws d : disksize (apply_writes ws d) = disksize d.
Proof.
  revert d. induction ws as [|w ws IH]; intros d; [done|].
  change (apply_writes (w :: ws) d) with (apply_writes ws (write_block (fst w) (snd w) d)).
  rewrite IH. unfold disksize. cbn. by rewrite length_insert.
Qed.

(** The transaction in the header. *)
Definition logged (l : log) : list Z := take (Z.to_nat (lh_n (l_lh l))) (lh_block (l_lh l)).

Section commit.
Variable me : Z.
Local Abbreviation abs := (abs me).

Lemma cache_run {A} (m : M bcache A) l c a c' :
  m c = Ret a c' -> cache m (MkL l c) = Ret a (MkL l c').
Proof. intros H. unfold cache, zoom. cbn [bc]. by rewrite H. Qed.
Lemma cache_bind {A B} (m : M bcache A) (k : A -> M lstate B) l c a c' :
  m c = Ret a c' -> bind (cache m) k (MkL l c) = k a (MkL l c').
Proof. intros H. by rewrite (bind_Ret _ _ _ _ _ (cache_run m l c a c' H)). Qed.
Lemma lg_bind {B} (k : log -> M lstate B) l c : bind (reads lg) k (MkL l c) = k l (MkL l c).
Proof. done. Qed.
Lemma get_block_bind {B} (k : Z -> M lstate B) l c i b :
  lh_block (l_lh l) !! i = Some b -> bind (get_block i) k (MkL l c) = k b (MkL l c).
Proof. intros H. unfold get_block, bind, reads. cbn. by rewrite H. Qed.

Lemma put_block_bind {B} (k : unit -> M lstate B) l c i x :
  (i < length (lh_block (l_lh l)))%nat ->
  bind (put_block i x) k (MkL l c) = k tt (MkL (set_block i x l) c).
Proof.
  intros Hi. unfold put_block, bind, reads. cbn [lg].
  by destruct (Nat.ltb_spec i (length (lh_block (l_lh l)))); [|lia].
Qed.

Lemma remove_one (x : nat * Z) : remove_elem x [x] = [].
Proof. unfold remove_elem. by rewrite filter_cons_False by tauto. Qed.
Lemma remove_first (x y : nat * Z) : x <> y -> remove_elem x [x; y] = [y].
Proof. intros. apply (remove_elem_middle x [] [y]). repeat constructor; set_solver. Qed.
Lemma remove_second (x y : nat * Z) : x <> y -> remove_elem y [x; y] = [x].
Proof. intros. apply (remove_elem_middle y [x] []). repeat constructor; set_solver. Qed.

(** One iteration of [write_log]: the log block gets the cached contents of the block. *)
Lemma write_log_body_abs l c V D d tail b :
  abs c V D [] d -> disksize d <= 2 ^ 31 -> l_dev l = 1 ->
  lh_block (l_lh l) !! tail = Some b -> b ∈ D ->
  let a := l_start l + Z.of_nat tail + 1 in
  0 <= a < disksize d -> a ∉ D -> (size D < NBUF)%nat ->
  exists c', write_log_body me tail (MkL l c) = Ret None (MkL l c') /\
    abs c' (<[a := V b]> V) D [] (write_block (Z.to_nat a) (V b) d).
Proof.
  intros HA Hsz Hdev Hblk HbD a Ha HaD Hroom.
  pose proof (dirty_range me HA b HbD) as Hb. assert (a <> b) by congruence.
  unfold write_log_body. rewrite lg_bind, Hdev. fold a. rewrite !u32_id by lia.
  destruct (bread_abs me HA a) as (i & c1 & H1 & A1); [done|set_solver|right; cbn; lia|].
  rewrite (cache_bind _ _ _ _ _ _ H1), (get_block_bind _ _ _ _ _ Hblk), u32_id by lia.
  destruct (bread_abs me A1 b) as (j & c2 & H2 & A2); [done|set_solver|by left|].
  rewrite (cache_bind _ _ _ _ _ _ H2).
  rewrite (cache_bind _ _ _ _ _ _ (read_data_abs me A2 j b ltac:(set_solver))).
  destruct (write_data_abs me A2 i a (V b)) as (c3 & H3 & A3);
    [set_solver|by apply (length_view me HA)|]. rewrite (cache_bind _ _ _ _ _ _ H3).
  destruct (bwrite_abs me A3 i a) as (c4 & H4 & A4); [set_solver|].
  rewrite (cache_bind _ _ _ _ _ _ H4).
  rewrite fn_lookup_insert, (difference_disjoint_L D {[a]}) in A4 by set_solver.
  destruct (brelse_abs me A4 j b) as (c5 & H5 & A5); [set_solver|by left|].
  rewrite (cache_bind _ _ _ _ _ _ H5). rewrite remove_first in A5 by congruence.
  destruct (brelse_abs me A5 i a) as (c6 & H6 & A6); [set_solver| |].
  { right. rewrite fn_lookup_insert, BioSpec.read_write_block_eq; [done|].
    unfold disksize in Ha. lia. }
  rewrite (cache_bind _ _ _ _ _ _ H6). rewrite remove_one in A6. by exists c6.
Qed.

(** One iteration of [install_trans]: the block gets the contents of the log block. *)
Lemma install_trans_body_abs l c V D d tail b :
  abs c V D [] d -> disksize d <= 2 ^ 31 -> l_dev l = 1 ->
  lh_block (l_lh l) !! tail = Some b -> 0 <= b < disksize d ->
  let a := l_start l + Z.of_nat tail + 1 in
  0 <= a < disksize d -> a ∉ D -> a <> b ->
  (size D < NBUF)%nat -> b ∈ D \/ (size D + 1 < NBUF)%nat ->
  exists c', install_trans_body me tail (MkL l c) = Ret None (MkL l c') /\
    abs c' (<[b := V a]> V) (D ∖ {[b]}) [] (write_block (Z.to_nat b) (V a) d).
Proof.
  intros HA Hsz Hdev Hblk Hb a Ha HaD Hab Hroom Hroom'.
  unfold install_trans_body. rewrite lg_bind, Hdev. fold a. rewrite !u32_id by lia.
  destruct (bread_abs me HA a) as (i & c1 & H1 & A1); [done|set_solver|right; cbn; lia|].
  rewrite (cache_bind _ _ _ _ _ _ H1), (get_block_bind _ _ _ _ _ Hblk), u32_id by lia.
  destruct (bread_abs me A1 b) as (j & c2 & H2 & A2); [done|set_solver|done|].
  rewrite (cache_bind _ _ _ _ _ _ H2).
  rewrite (cache_bind _ _ _ _ _ _ (read_data_abs me A2 i a ltac:(set_solver))).
  destruct (write_data_abs me A2 j b (V a)) as (c3 & H3 & A3);
    [set_solver|by apply (length_view me HA)|]. rewrite (cache_bind _ _ _ _ _ _ H3).
  destruct (bwrite_abs me A3 j b) as (c4 & H4 & A4); [set_solver|].
  rewrite (cache_bind _ _ _ _ _ _ H4). rewrite fn_lookup_insert in A4.
  destruct (brelse_abs me A4 i a) as (c5 & H5 & A5); [set_solver| |].
  { right. rewrite fn_lookup_insert_ne, BioSpec.read_write_block_ne by lia.
    apply (clean_view me HA); [lia|done|set_solver]. }
  rewrite (cache_bind _ _ _ _ _ _ H5). rewrite remove_second in A5 by congruence.
  destruct (brelse_abs me A5 j b) as (c6 & H6 & A6); [set_solver| |].
  { right. rewrite fn_lookup_insert, BioSpec.read_write_block_eq; [done|].
    unfold disksize in Hb. lia. }
  rewrite (cache_bind _ _ _ _ _ _ H6). rewrite remove_one in A6. by exists c6.
Qed.

(** What a list of block writes does to the contents of the blocks. *)
Definition apply_view (ws : list (nat * list Z)) (V : Z -> list Z) : Z -> list Z :=
  foldl (fun V w => <[Z.of_nat (fst w) := snd w]> V) V ws.

Lemma apply_view_app ws ws' V : apply_view (ws ++ ws') V = apply_view ws' (apply_view ws V).
Proof. apply foldl_app. Qed.
Lemma apply_view_snoc ws w V :
  apply_view (ws ++ [w]) V = <[Z.of_nat (fst w) := snd w]> (apply_view ws V).
Proof. apply apply_view_app. Qed.
Lemma apply_writes_snoc ws w d :
  apply_writes (ws ++ [w]) d = write_block (fst w) (snd w) (apply_writes ws d).
Proof. apply apply_writes_app. Qed.

(** A block all of whose writes write [x] ends with [x], if it is written or had [x]. *)
Lemma apply_view_const ws V b x :
  (forall w, w ∈ ws -> Z.of_nat (fst w) = b -> snd w = x) ->
  (exists w, w ∈ ws /\ Z.of_nat (fst w) = b) \/ V b = x -> apply_view ws V b = x.
Proof.
  revert V. induction ws as [|w ws IH]; intros V Hall Hex.
  { destruct Hex as [(w & ?%elem_of_nil & _)|]; done. }
  change (apply_view (w :: ws) V) with (apply_view ws (<[Z.of_nat (fst w) := snd w]> V)).
  apply IH; [intros; apply Hall; [by right|done]|].
  destruct (decide (Z.of_nat (fst w) = b)) as [Hb|Hb].
  - right. rewrite Hb, fn_lookup_insert. apply Hall; [by left|done].
  - rewrite fn_lookup_insert_ne by done. destruct Hex as [(w' & [->|]%elem_of_cons & ?)|];
      [done|left; by exists w'|by right].
Qed.
Lemma apply_view_notin ws V b :
  (forall w, w ∈ ws -> Z.of_nat (fst w) <> b) -> apply_view ws V b = V b.
Proof. intros H. apply apply_view_const; [|by right]. intros w Hw Hb. by destruct (H w Hw). Qed.

Lemma apply_view_ext ws V V' b :
  (forall b, 0 <= b -> V b = V' b) -> 0 <= b -> apply_view ws V b = apply_view ws V' b.
Proof.
  intros He Hb. induction ws as [|w ws IH] using rev_ind; [by apply He|].
  rewrite !apply_view_snoc. destruct (decide (b = Z.of_nat (fst w))) as [->|];
    [by rewrite !fn_lookup_insert|by rewrite !fn_lookup_insert_ne].
Qed.

Lemma apply_writes_read ws d b :
  (forall w, w ∈ ws -> Z.of_nat (fst w) < disksize d) -> 0 <= b ->
  read_block (apply_writes ws d) (Z.to_nat b) =
    apply_view ws (fun b => read_block d (Z.to_nat b)) b.
Proof.
  intros Hws Hb. induction ws as [|w ws IH] using rev_ind; [done|].
  rewrite apply_writes_snoc, apply_view_snoc.
  assert (Hw : Z.of_nat (fst w) < disksize d) by (apply Hws; set_solver).
  destruct (decide (Z.of_nat (fst w) = b)) as [<-|Hne].
  - rewrite fn_lookup_insert, Nat2Z.id. apply BioSpec.read_write_block_eq.
    pose proof (disksize_apply ws d). unfold disksize in *. lia.
  - rewrite fn_lookup_insert_ne, BioSpec.read_write_block_ne by lia.
    apply IH. intros; apply Hws. set_solver.
Qed.

(** The writes of the first [j] iterations of [write_log] and of [install_trans]. *)
Definition log_writes (start : Z) (V : Z -> list Z) (L : list Z) (j : nat) :=
  map (fun i => (Z.to_nat (start + Z.of_nat i + 1), V (L !!! i))) (seq 0 j).
Definition home_writes (start : Z) (V : Z -> list Z) (L : list Z) (j : nat) :=
  map (fun i => (Z.to_nat (L !!! i), V (start + Z.of_nat i + 1))) (seq 0 j).

(** A transaction over the blocks [L] fits the log: distinct blocks of the disk, none of
    them in the log's own area. *)
Record fits (l : log) (L : list Z) (d : disk) : Prop := MkFits {
  fits_dev : l_dev l = 1;
  fits_len : length (lh_block (l_lh l)) = Z.to_nat LOGSIZE;
  fits_size : disksize d <= 2 ^ 31;
  fits_area : 0 <= l_start l /\ l_start l + l_size l <= disksize d;
  fits_n : (length L <= Z.to_nat LOGSIZE)%nat /\ Z.of_nat (length L) < l_size l;
  fits_nodup : NoDup L;
  fits_home b : b ∈ L -> 0 <= b < disksize d /\ (b < l_start l \/ l_start l + l_size l <= b)
}.

Lemma logged_lookup l j : (j < length (logged l))%nat -> lh_block (l_lh l) !! j = Some (logged l !!! j).
Proof.
  intros Hj. rewrite <- (list_lookup_lookup_total_lt _ _ Hj). unfold logged in *.
  rewrite lookup_take_lt; [done|]. rewrite length_take in Hj. lia.
Qed.

Lemma total_elem (L : list Z) j : (j < length L)%nat -> L !!! j ∈ L.
Proof. intros. by apply list_elem_of_lookup_total_2. Qed.

Lemma total_inj (L : list Z) i j :
  NoDup L -> (i < length L)%nat -> (j < length L)%nat -> L !!! i = L !!! j -> i = j.
Proof.
  intros Hnd Hi Hj He. eapply (NoDup_lookup L _ _ (L !!! i)); [done|..].
  - by apply list_lookup_lookup_total_lt.
  - rewrite He. by apply list_lookup_lookup_total_lt.
Qed.

Lemma elem_log_writes start V L j w :
  w ∈ log_writes start V L j <->
  exists i, (i < j)%nat /\ w = (Z.to_nat (start + Z.of_nat i + 1), V (L !!! i)).
Proof.
  unfold log_writes. rewrite list_elem_of_fmap. split; intros (i & H1 & H2); exists i;
    rewrite elem_of_seq in *; split; (done || lia).
Qed.
Lemma elem_home_writes start V L j w :
  w ∈ home_writes start V L j <->
  exists i, (i < j)%nat /\ w = (Z.to_nat (L !!! i), V (start + Z.of_nat i + 1)).
Proof.
  unfold home_writes. rewrite list_elem_of_fmap. split; intros (i & H1 & H2); exists i;
    rewrite elem_of_seq in *; split; (done || lia).
Qed.
Lemma log_writes_S start V L j : log_writes start V L (S j) =
  log_writes start V L j ++ [(Z.to_nat (start + Z.of_nat j + 1), V (L !!! j))].
Proof. unfold log_writes. by rewrite seq_S, map_app. Qed.
Lemma home_writes_S start V L j : home_writes start V L (S j) =
  home_writes start V L j ++ [(Z.to_nat (L !!! j), V (start + Z.of_nat j + 1))].
Proof. unfold home_writes. by rewrite seq_S, map_app. Qed.

Lemma for_unit {S} (m : M S (option unit)) s s' :
  m s = Ret None s' -> bind m (fun _ => ret tt) s = Ret tt s'.
Proof. intros H. by rewrite (bind_Ret _ _ _ _ _ H). Qed.

(** [write_log] writes the cached contents of the transaction's blocks to the log. *)
Lemma write_log_abs l c V D d :
  let L := logged l in
  abs c V D [] d -> fits l L d -> Z.to_nat (lh_n (l_lh l)) = length L ->
  (forall b, b ∈ L -> b ∈ D) -> (forall b, b ∈ D -> b ∈ L) -> (size D < NBUF)%nat ->
  let W := log_writes (l_start l) V L (length L) in
  exists c', write_log me (MkL l c) = Ret tt (MkL l c') /\
    abs c' (apply_view W V) D [] (apply_writes W d).
Proof.
  intros L HA HF Hn HLD HDL Hroom W.
  destruct HF as [Hdev Hlen Hsz [Hs0 Hs1] [Hn1 Hn2] Hnd Hhome].
  destruct (for_loop_inv (write_log_body me) (fun j s => exists c', s = MkL l c' /\
     abs c' (apply_view (log_writes (l_start l) V L j) V) D []
       (apply_writes (log_writes (l_start l) V L j) d)) 0 (length L) (MkL l c))
    as (s' & Hrun & c' & -> & HA').
  - by exists c.
  - intros j s Hj (cj & -> & HAj).
    destruct (write_log_body_abs l cj _ D _ j (L !!! j) HAj) as (c' & Hrun & HA').
    + by rewrite disksize_apply.
    + done.
    + apply logged_lookup. fold L. lia.
    + apply HLD, total_elem. lia.
    + rewrite disksize_apply. lia.
    + intros Hin%HDL%Hhome. lia.
    + done.
    + exists (MkL l c'). split; [done|]. exists c'. split; [done|].
      rewrite log_writes_S, apply_view_snoc, apply_writes_snoc. cbn [fst snd].
      rewrite Z2Nat.id by lia. rewrite (apply_view_notin _ _ (L !!! j)) in HA'; [done|].
      intros w (i & Hi & ->)%elem_log_writes. cbn.
      destruct (Hhome (L !!! j)); [apply total_elem; lia|]. lia.
  - exists c'. split; [|done]. unfold write_log. rewrite lg_bind, Hn. by apply for_unit.
Qed.

(** [install_trans] copies the log's blocks to their homes. *)
Lemma install_trans_abs l c V D d :
  let L := logged l in
  abs c V D [] d -> fits l L d -> Z.to_nat (lh_n (l_lh l)) = length L ->
  (forall b, b ∈ D -> b ∈ L) ->
  (size D < NBUF)%nat -> (forall b, b ∈ L -> b ∈ D) \/ (size D + 1 < NBUF)%nat ->
  let W := home_writes (l_start l) V L (length L) in
  exists c', install_trans me (MkL l c) = Ret tt (MkL l c') /\
    abs c' (apply_view W V) ∅ [] (apply_writes W d).
Proof.
  intros L HA HF Hn HDL Hroom Hroom' W.
  destruct HF as [Hdev Hlen Hsz [Hs0 Hs1] [Hn1 Hn2] Hnd Hhome].
  set (Dj := fun j => D ∖ list_to_set (take j L)).
  assert (HDj : forall j, (size (Dj j) <= size D)%nat) by (intros; apply subseteq_size; set_solver).
  destruct (for_loop_inv (install_trans_body me) (fun j s => exists c', s = MkL l c' /\
     abs c' (apply_view (home_writes (l_start l) V L j) V) (Dj j) []
       (apply_writes (home_writes (l_start l) V L j) d)) 0 (length L) (MkL l c))
    as (s' & Hrun & c' & -> & HA').
  - exists c. split; [done|]. replace (Dj 0%nat) with D by set_solver. done.
  - intros j s Hj (cj & -> & HAj). specialize (HDj j).
    assert (Hin : L !!! j ∈ L) by (apply total_elem; lia).
    destruct (install_trans_body_abs l cj _ (Dj j) _ j (L !!! j) HAj) as (c' & Hr & HA').
    + by rewrite disksize_apply.
    + done.
    + apply logged_lookup. fold L. lia.
    + rewrite disksize_apply. by apply Hhome.
    + rewrite disksize_apply. lia.
    + intros [Hin' _]%elem_of_difference. apply HDL, Hhome in Hin'. lia.
    + apply Hhome in Hin. lia.
    + lia.
    + destruct Hroom' as [HLD|]; [left|right; lia]. apply elem_of_difference. split; [by apply HLD|].
      rewrite elem_of_list_to_set. intros (i & Hi' & Hi)%list_elem_of_lookup_total.
      rewrite length_take in Hi'. rewrite lookup_total_take_lt in Hi by lia.
      apply total_inj in Hi; [lia|done|lia..].
    + exists (MkL l c'). split; [done|]. exists c'. split; [done|].
      rewrite home_writes_S, apply_view_snoc, apply_writes_snoc. cbn [fst snd].
      rewrite Z2Nat.id by (apply Hhome in Hin; lia).
      rewrite (apply_view_notin _ _ (l_start l + Z.of_nat j + 1)) in HA'.
      2: { intros w (i & Hi & ->)%elem_home_writes. cbn.
           destruct (Hhome (L !!! i)); [apply total_elem; lia|]. lia. }
      replace (Dj (S j)) with (Dj j ∖ {[L !!! j]}); [done|]. unfold Dj.
      rewrite (take_S_r _ _ (L !!! j)) by (apply list_lookup_lookup_total_lt; lia).
      rewrite list_to_set_app_L. set_solver.
  - exists c'. split; [unfold install_trans; rewrite lg_bind, Hn; by apply for_unit|].
    replace (Dj (0 + length L)%nat) with (∅ : gset Z) in HA'; [done|].
    unfold Dj. rewrite take_ge by (cbn; lia). set_solver.
Qed.

(** The header block [write_head] makes out of the block [x]. *)
Fixpoint fill_blocks (x : list Z) (L : list Z) (j : nat) : list Z :=
  match j with
  | O => x
  | S j' => put32 (fill_blocks x L j') (4 + 4 * j') (L !!! j')
  end.
Definition fill_head (x : list Z) (n : Z) (L : list Z) : list Z :=
  fill_blocks (put32 x 0 n) L (Z.to_nat n).

Lemma length_fill_blocks x L j :
  (4 + 4 * j <= length x)%nat -> length (fill_blocks x L j) = length x.
Proof. induction j as [|j IH]; cbn [fill_blocks]; intros; [done|]. rewrite length_put32; rewrite IH; lia. Qed.
Lemma fill_blocks_n x L j :
  (4 + 4 * j <= length x)%nat -> get32 (fill_blocks x L j) 0 = get32 x 0.
Proof.
  induction j as [|j IH]; cbn [fill_blocks]; intros; [done|].
  rewrite get32_put32_ne, IH; [done|lia|rewrite length_fill_blocks; lia|lia].
Qed.
Lemma fill_blocks_block x L j k :
  (k < j)%nat -> (4 + 4 * j <= length x)%nat -> get32 (fill_blocks x L j) (4 + 4 * k) = u32 (L !!! k).
Proof.
  induction j as [|j IH]; cbn [fill_blocks]; intros Hk Hlen; [lia|].
  destruct (decide (k = j)) as [->|].
  - apply get32_put32_same. rewrite length_fill_blocks; lia.
  - rewrite get32_put32_ne, IH; [done|lia|lia|rewrite length_fill_blocks; lia|lia].
Qed.

Lemma length_fill_head x n L :
  length x = BSIZE -> n <= LOGSIZE -> length (fill_head x n L) = BSIZE.
Proof.
  intros Hx Hn. unfold fill_head. unfold BSIZE, LOGSIZE, MAXOPBLOCKS in *.
  rewrite length_fill_blocks; rewrite length_put32; lia.
Qed.
Lemma hdr_n_fill x n L : length x = BSIZE -> 0 <= n <= LOGSIZE -> hdr_n (fill_head x n L) = n.
Proof.
  intros Hx Hn. unfold hdr_n, fill_head. unfold BSIZE, LOGSIZE, MAXOPBLOCKS in *.
  rewrite fill_blocks_n by (rewrite length_put32; lia). rewrite get32_put32_same by lia.
  rewrite u32_id, i32_id by lia. done.
Qed.
Lemma hdr_block_fill x n L k :
  length x = BSIZE -> n <= LOGSIZE -> (k < Z.to_nat n)%nat -> 0 <= L !!! k < 2 ^ 31 ->
  hdr_block (fill_head x n L) k = L !!! k.
Proof.
  intros Hx Hn Hk Hr. unfold hdr_block, fill_head. unfold BSIZE, LOGSIZE, MAXOPBLOCKS in *.
  rewrite fill_blocks_block; [|done|rewrite length_put32; lia]. rewrite u32_id, i32_id by lia. done.
Qed.

(** [write_head] *)
Lemma write_head_abs l c V D d :
  abs c V D [] d -> l_dev l = 1 -> length (lh_block (l_lh l)) = Z.to_nat LOGSIZE ->
  disksize d <= 2 ^ 31 -> 0 <= l_start l < disksize d -> lh_n (l_lh l) <= LOGSIZE ->
  l_start l ∉ D -> (size D < NBUF)%nat ->
  let h := fill_head (V (l_start l)) (lh_n (l_lh l)) (lh_block (l_lh l)) in
  exists c', write_head me (MkL l c) = Ret tt (MkL l c') /\
    abs c' (<[l_start l := h]> V) D [] (write_block (Z.to_nat (l_start l)) h d).
Proof.
  intros HA Hdev Hlen Hsz Hst Hn HD Hroom h. set (st := l_start l) in *.
  set (B := lh_block (l_lh l)) in *. set (n := lh_n (l_lh l)) in *.
  pose proof (length_view me HA st Hst) as Hlen0.
  unfold write_head. rewrite lg_bind, Hdev. fold st n. rewrite u32_id by lia.
  destruct (bread_abs me HA st) as (i & c1 & H1 & A1); [done|set_solver|right; cbn; lia|].
  rewrite (cache_bind _ _ _ _ _ _ H1).
  rewrite (cache_bind _ _ _ _ _ _ (read_data_abs me A1 i st ltac:(set_solver))).
  assert (Hput : length (put32 (V st) 0 n) = BSIZE) by (rewrite length_put32; rewrite Hlen0; unfold BSIZE; lia).
  destruct (write_data_abs me A1 i st (put32 (V st) 0 n)) as (c2 & H2 & A2); [set_solver|done|].
  rewrite (cache_bind _ _ _ _ _ _ H2).
  match goal with |- context [for_loop ?b _ _] => set (body := b) end.
  destruct (for_loop_inv body (fun j s => exists c', s = MkL l c' /\
     abs c' (<[st := fill_blocks (put32 (V st) 0 n) B j]> V) D [(i, st)] d)
     0 (Z.to_nat n) (MkL l c2)) as (s' & Hrun & c3 & -> & A3).
  - by exists c2.
  - intros j s Hj (cj & -> & Aj). unfold body.
    rewrite (get_block_bind _ _ _ _ (B !!! j)) by (apply list_lookup_lookup_total_lt; fold B; lia).
    rewrite (cache_bind _ _ _ _ _ _ (read_data_abs me Aj i st ltac:(set_solver))).
    rewrite fn_lookup_insert.
    destruct (write_data_abs me Aj i st (fill_blocks (put32 (V st) 0 n) B (S j))) as (c' & H' & A');
      [set_solver|rewrite length_fill_blocks; [done|]; rewrite Hput;
        unfold BSIZE, LOGSIZE, MAXOPBLOCKS in *; lia|].
    rewrite (cache_bind _ _ _ _ _ _ H'). exists (MkL l c'). split; [done|]. exists c'. split; [done|].
    eapply abs_ext; [|exact A']. intros b _. destruct (decide (b = st)) as [->|];
      [by rewrite !fn_lookup_insert|by rewrite !fn_lookup_insert_ne].
  - rewrite (bind_Ret _ _ _ _ _ Hrun).
    destruct (bwrite_abs me A3 i st) as (c4 & H4 & A4); [set_solver|].
    rewrite (cache_bind _ _ _ _ _ _ H4). rewrite fn_lookup_insert in A4.
    destruct (brelse_abs me A4 i st) as (c5 & H5 & A5); [set_solver| |].
    { right. rewrite fn_lookup_insert, BioSpec.read_write_block_eq; [done|].
      unfold disksize in Hst. lia. }
    rewrite remove_one, (difference_disjoint_L D {[st]}) in A5 by set_solver.
    exists c5. split; [|done]. by apply cache_run.
Qed.

(** The transaction a header block describes. *)
Definition hdr_list (h : list Z) : list Z := map (hdr_block h) (seq 0 (Z.to_nat (hdr_n h))).

Definition with_lh (h : logheader) (l : log) : log :=
  MkLog (l_lock l) (l_start l) (l_size l) (l_outstanding l) (l_committing l) (l_dev l) h.

Lemma length_hdr_list h : length (hdr_list h) = Z.to_nat (hdr_n h).
Proof. unfold hdr_list. by rewrite length_map, length_seq. Qed.

(** [read_head] *)
Lemma read_head_abs l c V D d :
  abs c V D [] d -> l_dev l = 1 -> length (lh_block (l_lh l)) = Z.to_nat LOGSIZE ->
  disksize d <= 2 ^ 31 -> 0 <= l_start l < disksize d ->
  l_start l ∉ D -> (size D < NBUF)%nat ->
  let h := V (l_start l) in hdr_n h <= LOGSIZE ->
  exists c', read_head me (MkL l c) =
      Ret tt (MkL (with_lh (MkLh (hdr_n h)
        (hdr_list h ++ drop (Z.to_nat (hdr_n h)) (lh_block (l_lh l)))) l) c') /\
    abs c' V D [] d.
Proof.
  intros HA Hdev Hlen Hsz Hst HD Hroom h Hn. set (st := l_start l) in *.
  set (B := lh_block (l_lh l)) in *. set (n := hdr_n h) in *.
  unfold read_head. rewrite lg_bind, Hdev. fold st. rewrite u32_id by lia.
  destruct (bread_abs me HA st) as (i & c1 & H1 & A1); [done|set_solver|right; cbn; lia|].
  rewrite (cache_bind _ _ _ _ _ _ H1).
  rewrite (cache_bind _ _ _ _ _ _ (read_data_abs me A1 i st ltac:(set_solver))). fold h n.
  set (lj := fun j => with_lh (MkLh n (map (hdr_block h) (seq 0 j) ++ drop j B)) l).
  change (bind (upd (set_n n)) ?k (MkL l c1)) with (k tt (MkL (lj 0%nat) c1)). cbv beta.
  match goal with |- context [for_loop ?b _ _] => set (body := b) end.
  destruct (for_loop_inv body (fun j s => s = MkL (lj j) c1) 0 (Z.to_nat n) (MkL (lj 0%nat) c1))
    as (s' & Hrun & ->); [done| |].
  - intros j s Hj ->. unfold body.
    destruct (Nat.leb_spec (4 + 4 * j + 4) BSIZE) as [_|Hbad];
      [|unfold BSIZE, LOGSIZE, MAXOPBLOCKS in *; lia].
    exists (MkL (lj (S j)) c1). split; [|done].
    rewrite put_block_bind by (cbn; rewrite length_app, length_map, length_seq, length_drop; lia).
    unfold ret. do 2 f_equal.
    unfold set_block, lj, with_lh. cbn [l_lock l_start l_size l_outstanding l_committing l_dev l_lh lh_n lh_block].
    do 2 f_equal. rewrite seq_S, map_app, <- app_assoc. cbn.
    rewrite insert_app_r_alt by (rewrite length_map, length_seq; lia).
    rewrite length_map, length_seq, Nat.sub_diag. f_equal.
    by rewrite (drop_S B (B !!! j) j) by (apply list_lookup_lookup_total_lt; lia).
  - rewrite (bind_Ret _ _ _ _ _ Hrun).
    destruct (brelse_abs me A1 i st) as (c2 & H2 & A2); [set_solver| |].
    { right. apply (clean_view me HA); [lia|done|set_solver]. }
    exists c2. rewrite remove_one in A2. split; [|done]. by apply cache_run.
Qed.

(** *** [commit] *)

(** The writes of [commit], in order: the log blocks, the header, the home blocks, and the
    empty header. *)
Definition commit_head (l : log) (V : Z -> list Z) : list Z :=
  fill_head (V (l_start l)) (lh_n (l_lh l)) (lh_block (l_lh l)).
Definition install_writes (V : Z -> list Z) (L : list Z) :=
  map (fun i => (Z.to_nat (L !!! i), V (L !!! i))) (seq 0 (length L)).
Definition commit_writes (l : log) (V : Z -> list Z) : list (nat * list Z) :=
  let L := logged l in
  if bool_decide (L = []) then [] else
  (log_writes (l_start l) V L (length L) ++ [(Z.to_nat (l_start l), commit_head l V)]) ++
  install_writes V L ++ [(Z.to_nat (l_start l), put32 (commit_head l V) 0 0)].

(** The state in which [end_op] calls [commit]: nobody holds a buffer, exactly the blocks of
    the transaction are dirty, and there is a buffer left to write them. *)
Record ready (l : log) (c : bcache) (V : Z -> list Z) (d : disk) : Prop := MkReady {
  ready_abs : abs c V (list_to_set (logged l)) [] d;
  ready_fits : fits l (logged l) d;
  ready_n : lh_n (l_lh l) = Z.of_nat (length (logged l));
  ready_buf : (length (logged l) < NBUF)%nat
}.

Lemma install_log_writes l V V' L :
  (forall i, (i < length L)%nat -> V' (l_start l + Z.of_nat i + 1) = V (L !!! i)) ->
  home_writes (l_start l) V' L (length L) = install_writes V L.
Proof.
  intros H. unfold home_writes, install_writes. apply map_ext_in. intros i Hi%list_elem_of_In.
  apply elem_of_seq in Hi. rewrite H by lia. done.
Qed.

(** After [write_log] the log area has the transaction. *)
Lemma log_area start V L i :
  0 <= start -> (i < length L)%nat ->
  apply_view (log_writes start V L (length L)) V (start + Z.of_nat i + 1) = V (L !!! i).
Proof.
  intros Hs Hi. apply apply_view_const.
  - intros w (k & Hk & ->)%elem_log_writes. cbn. intros He. by replace i with k by lia.
  - left. exists (Z.to_nat (start + Z.of_nat i + 1), V (L !!! i)).
    rewrite elem_log_writes. split; [by exists i|cbn; lia].
Qed.

Lemma commit_abs l c V d :
  ready l c V d ->
  exists c', commit me (MkL l c) = Ret tt (MkL (set_n 0 l) c') /\
    abs c' (apply_view (commit_writes l V) V) ∅ [] (apply_writes (commit_writes l V) d).
Proof.
  intros [HA HF Hn Hbuf]. unfold commit, commit_writes. rewrite lg_bind, Hn.
  set (L := logged l) in *. destruct (decide (L = [])) as [HL|HL].
  { rewrite HL in *. exists c. split; [|done]. destruct l as [? ? ? ? ? ? [n b]]. cbn in *. by subst n. }
  rewrite bool_decide_eq_false_2 by done.
  destruct (Z.ltb_spec 0 (Z.of_nat (length L))) as [_|Hz];
    [|destruct L; [done|cbn in Hz; lia]]. cbn [when].
  pose proof HF as [Hdev Hlen Hsz [Hs0 Hs1] [Hn1 Hn2] Hnd Hhome].
  assert (Hroom : (size (list_to_set L : gset Z) < NBUF)%nat) by (rewrite size_list_to_set; done).
  assert (Hst : l_start l ∉ (list_to_set L : gset Z)).
  { rewrite elem_of_list_to_set. intros Hin%Hhome. lia. }
  destruct (write_log_abs l c V _ d HA HF) as (c1 & H1 & A1);
    [fold L; lia|set_solver..|done|]. fold L in A1.
  rewrite (bind_Ret _ _ _ _ _ H1).
  set (W1 := log_writes (l_start l) V L (length L)) in *.
  assert (Hhead : apply_view W1 V (l_start l) = V (l_start l)).
  { apply apply_view_notin. intros w (i & Hi & ->)%elem_log_writes. cbn. lia. }
  destruct (write_head_abs l c1 _ _ _ A1) as (c2 & H2 & A2);
    [done..|by rewrite disksize_apply|rewrite disksize_apply; lia|unfold LOGSIZE, MAXOPBLOCKS in *; lia|done|done|].
  rewrite Hhead in A2. fold (commit_head l V) in A2. rewrite (bind_Ret _ _ _ _ _ H2).
  set (W2 := W1 ++ [(Z.to_nat (l_start l), commit_head l V)]).
  assert (A2' : abs c2 (apply_view W2 V) (list_to_set L) [] (apply_writes W2 d)).
  { unfold W2. rewrite apply_view_snoc, apply_writes_snoc. cbn [fst snd]. by rewrite Z2Nat.id by lia. }
  assert (HF2 : fits l (logged l) (apply_writes W2 d)).
  { split; rewrite ?disksize_apply; try done. }
  destruct (install_trans_abs l c2 _ _ _ A2' HF2) as (c3 & H3 & A3);
    [fold L; lia|set_solver|done|left; set_solver|]. fold L in A3.
  rewrite (bind_Ret _ _ _ _ _ H3).
  rewrite (install_log_writes l V) in A3.
  2: { intros i Hi. unfold W2. rewrite apply_view_snoc. cbn [fst snd].
       rewrite fn_lookup_insert_ne by lia. apply log_area; [lia|done]. }
  rewrite <- apply_view_app, <- apply_writes_app in A3.
  change (bind (upd (set_n 0)) ?k (MkL l c3)) with (k tt (MkL (set_n 0 l) c3)). cbv beta.
  destruct (write_head_abs (set_n 0 l) c3 _ _ _ A3) as (c4 & H4 & A4);
    [done..|by rewrite disksize_apply|rewrite disksize_apply; cbn; lia|by vm_compute|set_solver| |].
  { rewrite size_empty. rewrite NBUF_eq. lia. }
  exists c4. split; [done|]. rewrite app_assoc, apply_view_snoc, apply_writes_snoc.
  cbn [fst snd]. cbn [set_n l_start l_lh lh_n lh_block] in A4. rewrite Z2Nat.id by lia.
  replace (apply_view (W2 ++ install_writes V L) V (l_start l)) with (commit_head l V) in A4; [done|].
  symmetry. rewrite apply_view_app. rewrite apply_view_notin.
  - unfold W2. rewrite apply_view_snoc. cbn [fst snd]. rewrite Z2Nat.id by lia. apply fn_lookup_insert.
  - intros w (i & -> & Hi%elem_of_seq)%list_elem_of_fmap. cbn.
    destruct (Hhome (L !!! i)); [apply total_elem; lia|]. lia.
Qed.

(** *** Recovery *)
Definition recover_writes (start : Z) (V : Z -> list Z) : list (nat * list Z) :=
  let h := V start in
  home_writes start V (hdr_list h) (length (hdr_list h)) ++ [(Z.to_nat start, put32 h 0 0)].

(** A header block that describes a transaction that fits the log. *)
Definition hdr_fits (l : log) (h : list Z) (d : disk) : Prop :=
  0 <= hdr_n h <= LOGSIZE /\ fits l (hdr_list h) d.

Lemma recover_abs l c V d :
  abs c V ∅ [] d -> hdr_fits l (V (l_start l)) d ->
  exists h c', recover_from_log me (MkL l c) = Ret tt (MkL (with_lh h l) c') /\
    lh_n h = 0 /\ length (lh_block h) = Z.to_nat LOGSIZE /\
    abs c' (apply_view (recover_writes (l_start l) V) V) ∅ []
      (apply_writes (recover_writes (l_start l) V) d).
Proof.
  intros HA [Hn HF]. pose proof HF as [Hdev Hlen Hsz [Hs0 Hs1] [Hn1 Hn2] Hnd Hhome].
  assert (Hroom : (size (∅ : gset Z) + 1 < NBUF)%nat) by (rewrite size_empty, NBUF_eq; lia).
  unfold recover_from_log, recover_writes. set (h := V (l_start l)) in *. set (L := hdr_list h) in *.
  destruct (read_head_abs l c V ∅ d HA) as (c1 & H1 & A1); [done..|lia|set_solver|lia|apply Hn|].
  fold h in H1. rewrite (bind_Ret _ _ _ _ _ H1). clear H1.
  set (B := hdr_list h ++ _). set (l1 := with_lh (MkLh (hdr_n h) B) l).
  assert (HB : length B = Z.to_nat LOGSIZE).
  { unfold B. rewrite length_app, length_hdr_list, length_drop. lia. }
  assert (HL : logged l1 = L).
  { unfold logged, l1, B. cbn. rewrite take_app_le by (rewrite length_hdr_list; lia).
    apply take_ge. unfold L. rewrite length_hdr_list. lia. }
  destruct (install_trans_abs l1 c1 V ∅ d A1) as (c2 & H2 & A2).
  { rewrite HL. by split. }
  { rewrite HL. cbn. symmetry. apply length_hdr_list. }
  { set_solver. }
  { lia. }
  { by right. }
  rewrite HL in A2. rewrite (bind_Ret _ _ _ _ _ H2). clear H2.
  change (bind (upd (set_n 0)) ?k (MkL l1 c2)) with (k tt (MkL (set_n 0 l1) c2)). cbv beta.
  destruct (write_head_abs (set_n 0 l1) c2 _ _ _ A2) as (c3 & H3 & A3);
    [done..|by rewrite disksize_apply|rewrite disksize_apply; cbn; lia|by vm_compute|set_solver|lia|].
  exists (MkLh 0 B), c3. split_and!; [done..|].
  rewrite apply_view_snoc, apply_writes_snoc. cbn [fst snd]. rewrite Z2Nat.id by lia.
  cbn [set_n l1 with_lh l_start l_lh lh_n lh_block] in A3.
  rewrite (apply_view_notin _ _ (l_start l)) in A3; [done|].
  intros w (i & Hi & ->)%elem_home_writes. cbn.
  destruct (Hhome (L !!! i)); [apply total_elem; lia|]. lia.
Qed.

(** The superblock that [mkfs] left in block 1 describes the log [l]. *)
Definition describes (sb : list Z) (l : log) : Prop :=
  i32 (sb_logstart (sb_of sb)) = l_start l /\ i32 (sb_nlog (sb_of sb)) = l_size l.

(** Starting the kernel over the disk [d]: [binit] and, in the first process, [initlog]. *)
Definition restart (d : disk) : res lstate unit := (cache binit ;;; initlog me 1) (Log.boot d).

Lemma restart_abs l d :
  Forall (fun x => length x = BSIZE) (memdisk d) -> describes (read_block d 1) l ->
  1 < disksize d ->
  hdr_fits l (read_block d (Z.to_nat (l_start l))) d ->
  let V := fun b => read_block d (Z.to_nat b) in
  exists l' c', restart d = Ret tt (MkL l' c') /\
    l_start l' = l_start l /\ l_size l' = l_size l /\ l_dev l' = 1 /\ l_lock l' = false /\
    l_outstanding l' = 0 /\ l_committing l' = 0 /\ lh_n (l_lh l') = 0 /\
    length (lh_block (l_lh l')) = Z.to_nat LOGSIZE /\
    abs c' (apply_view (recover_writes (l_start l) V) V) ∅ []
      (apply_writes (recover_writes (l_start l) V) d).
Proof.
  intros Hd [Hst Hsz] H1 [Hn HF] V. destruct (binit_abs me d Hd) as (c0 & Hb & A0).
  unfold restart, Log.boot. rewrite (cache_bind _ _ _ _ _ _ Hb). clear Hb.
  unfold initlog. change (Z.of_nat BSIZE <=? sizeof_logheader) with false. cbv iota.
  change (bind (upd ?f) ?k (MkL boot_log c0)) with (k tt (MkL (f boot_log) c0)). cbv beta.
  destruct (bread_abs me A0 1) as (i & c1 & R1 & A1);
    [lia|set_solver|right; rewrite size_empty, NBUF_eq; cbn; lia|].
  destruct (brelse_abs me A1 i 1) as (c2 & R2 & A2); [set_solver|by right|].
  rewrite remove_one in A2. set (l0 := set_lock false boot_log).
  assert (Hsb : readsb me 1 c0 = Ret (sb_of (read_block d 1)) c2).
  { unfold readsb. rewrite (bind_Ret _ _ _ _ _ R1).
    rewrite (bind_Ret _ _ _ _ _ (read_data_abs me A1 i 1 ltac:(set_solver))).
    by rewrite (bind_Ret _ _ _ _ _ R2). }
  rewrite (cache_bind _ _ _ _ _ _ Hsb), Hst, Hsz. clear Hsb R1 R2.
  set (l1 := set_ldev 1 (set_size (l_size l) (set_start (l_start l) l0))).
  change (bind (upd ?f1) (fun _ => bind (upd ?f2) (fun _ => bind (upd ?f3) (fun _ => ?k))) ?s)
    with (k (MkL l1 c2)).
  assert (HF1 : hdr_fits l1 (V (l_start l1)) d).
  { split; [done|]. destruct HF. by split. }
  destruct (recover_abs l1 c2 V d A2 HF1) as (h & c' & Hr & Hh & Hlen & A').
  exists (with_lh h l1), c'. by rewrite Hr.
Qed.

(** *** Crashes *)

(** A block of the file system proper: on the disk and not in the log's area. *)
Definition home (l : log) (d : disk) (b : Z) : Prop :=
  0 <= b < disksize d /\ (b < l_start l \/ l_start l + l_size l <= b).

(** A disk the kernel can start from: [mkfs]'s layout, with a sound header. *)
Record bootable (l : log) (d : disk) : Prop := MkBootable {
  boot_blocks : Forall (fun x => length x = BSIZE) (memdisk d);
  boot_sb : describes (read_block d 1) l;
  boot_home : home l d 1;
  boot_area : 0 <= l_start l /\ 0 < l_size l /\ l_start l + l_size l <= disksize d;
  boot_size : disksize d <= 2 ^ 31;
  boot_hdr : hdr_fits l (read_block d (Z.to_nat (l_start l))) d;
  boot_hdr1 : 1 ∉ hdr_list (read_block d (Z.to_nat (l_start l)))
}.

Definition dview (d : disk) (b : Z) : list Z := read_block d (Z.to_nat b).

Lemma apply_writes_lengths ws d :
  Forall (fun x => length x = BSIZE) (memdisk d) -> Forall (fun w => length (snd w) = BSIZE) ws ->
  Forall (fun x => length x = BSIZE) (memdisk (apply_writes ws d)).
Proof.
  revert d. induction ws as [|w ws IH]; intros d Hd Hw; [done|].
  apply Forall_cons in Hw as [Hw Hws].
  change (apply_writes (w :: ws) d) with (apply_writes ws (write_block (fst w) (snd w) d)).
  apply IH; [|done]. by apply Forall_insert.
Qed.

Lemma hdr_list_empty h : hdr_n h = 0 -> hdr_list h = [].
Proof. unfold hdr_list. by intros ->. Qed.

Lemma fits_sub l L d d' : fits l L d -> disksize d' = disksize d -> fits l L d'.
Proof. intros [] Hd. split; rewrite ?Hd; done. Qed.
Lemma fits_nil l L d : fits l L d -> fits l [] d.
Proof.
  intros [? ? ? ? [? ?] ? ?]. split; try done; [|by apply NoDup_nil_2|by intros b ?%elem_of_nil].
  split; [cbn; lia|cbn; lia].
Qed.

Lemma hdr_list_fill x n B :
  length x = BSIZE -> 0 <= n <= LOGSIZE -> length B = Z.to_nat LOGSIZE ->
  (forall b, b ∈ take (Z.to_nat n) B -> 0 <= b < 2 ^ 31) ->
  hdr_list (fill_head x n B) = take (Z.to_nat n) B.
Proof.
  intros Hx Hn HB Hr. unfold hdr_list. rewrite hdr_n_fill by done. apply list_eq. intros i.
  rewrite list_lookup_fmap. destruct (decide (i < Z.to_nat n)%nat) as [Hi|Hi].
  - rewrite lookup_seq_lt by done. cbn. rewrite lookup_take_lt by done.
    rewrite (list_lookup_lookup_total_lt B) by lia. f_equal. apply hdr_block_fill; [done|lia|done|].
    apply Hr. rewrite <- (lookup_total_take_lt B (Z.to_nat n)) by done.
    apply total_elem. rewrite length_take. lia.
  - rewrite lookup_seq_ge by lia. cbn. symmetry. apply lookup_ge_None. rewrite length_take. lia.
Qed.

(** The kernel starts again after the writes [ws], when the header block they leave [h] is
    sound: the blocks of the file system are those that recovery makes. *)
Lemma restart_after l d ws :
  bootable l d -> Forall (fun w => length (snd w) = BSIZE /\ Z.of_nat (fst w) < disksize d) ws ->
  (forall w, w ∈ ws -> Z.of_nat (fst w) <> 1) ->
  let V := apply_view ws (dview d) in
  hdr_fits l (V (l_start l)) d ->
  exists s, restart (apply_writes ws d) = Ret tt s /\
    l_start (lg s) = l_start l /\ l_size (lg s) = l_size l /\ l_dev (lg s) = 1 /\
    l_lock (lg s) = false /\ l_outstanding (lg s) = 0 /\ l_committing (lg s) = 0 /\
    lh_n (l_lh (lg s)) = 0 /\ length (lh_block (l_lh (lg s))) = Z.to_nat LOGSIZE /\
    abs (bc s) (apply_view (recover_writes (l_start l) V) V) ∅ []
      (apply_writes (recover_writes (l_start l) V) (apply_writes ws d)).
Proof.
  intros HB Hws H1 V HV. destruct HB as [Hlen Hsb Hh1 Har Hsz _ _].
  rewrite Forall_forall in Hws.
  assert (HVd : forall b, 0 <= b -> read_block (apply_writes ws d) (Z.to_nat b) = V b).
  { intros b Hb. apply apply_writes_read; [|done]. intros w Hw. by apply Hws. }
  destruct (restart_abs l (apply_writes ws d)) as (l' & c' & Hr & Hrest).
  - apply apply_writes_lengths; [done|]. apply Forall_forall. intros w Hw. by apply Hws.
  - change 1%nat with (Z.to_nat 1). rewrite HVd by lia. unfold V. rewrite apply_view_notin; [done|]. intros w Hw. by apply H1.
  - rewrite disksize_apply. destruct Hh1. lia.
  - rewrite HVd by lia. destruct HV as [Hn HF]. split; [done|]. eapply fits_sub; [done|].
    apply disksize_apply.
  - exists (MkL l' c'). split; [done|]. destruct Hrest as (?&?&?&?&?&?&?&?&HA).
    split_and!; [done..|].
    assert (Hrw : recover_writes (l_start l) V =
      recover_writes (l_start l) (fun b => read_block (apply_writes ws d) (Z.to_nat b))).
    { unfold recover_writes, home_writes. rewrite HVd by lia. f_equal. apply map_ext.
      intros i. by rewrite HVd by lia. }
    rewrite Hrw. eapply abs_ext; [|exact HA]. intros b Hb. by apply apply_view_ext.
Qed.

Section crash.
Context {l : log} {c : bcache} {V : Z -> list Z} {d : disk}.
Hypothesis HR : ready l c V d.
Hypothesis HB : bootable l d.
Hypothesis H0 : hdr_n (dview d (l_start l)) = 0.
Hypothesis H1 : 1 ∉ logged l.

Local Abbreviation L := (logged l).
Local Abbreviation st := (l_start l).
Local Abbreviation W1 := (log_writes st V L (length L)).
Local Abbreviation W2 := (W1 ++ [(Z.to_nat st, commit_head l V)]).

Lemma clean_dview b : 0 <= b -> b ∉ L -> V b = dview d b.
Proof.
  intros Hb Hn. destruct HR as [HA _ _ _]. apply (clean_view me HA); [done|set_solver|set_solver].
Qed.

Lemma st_notin : 0 <= st < disksize d /\ st ∉ L.
Proof.
  destruct HR as [_ [] _ _]. destruct fits_n0, fits_area0. split; [lia|].
  intros Hin. apply fits_home0 in Hin. lia.
Qed.

Lemma home_L i : (i < length L)%nat -> home l d (L !!! i).
Proof. intros Hi. destruct HR as [_ [] _ _]. apply fits_home0. by apply total_elem. Qed.

Lemma commit_head_list : hdr_list (commit_head l V) = L /\ length (commit_head l V) = BSIZE /\
  hdr_n (commit_head l V) = lh_n (l_lh l).
Proof.
  destruct HR as [HA HF Hn _]. destruct st_notin as [Hst _].
  pose proof (length_view me HA st Hst) as Hlen.
  destruct HF as [Hdev HlenB Hsz Har [Hn1 Hn2] Hnd Hh].
  assert (0 <= lh_n (l_lh l) <= LOGSIZE) by (unfold LOGSIZE, MAXOPBLOCKS in *; lia).
  split_and!.
  - apply hdr_list_fill; try done. intros b Hb. apply Hh in Hb. lia.
  - apply length_fill_head; [done|lia].
  - by apply hdr_n_fill.
Qed.

(** Every write of [commit] is a block of the disk, of the right size, not the superblock,
    and a write to a block of the file system has the new contents of that block. *)
Definition wgood (w : nat * list Z) : Prop :=
  (length (snd w) = BSIZE /\ Z.of_nat (fst w) < disksize d) /\ Z.of_nat (fst w) <> 1 /\
  (home l d (Z.of_nat (fst w)) -> snd w = V (Z.of_nat (fst w))).

Lemma wgood_log i : (i < length L)%nat -> wgood (Z.to_nat (st + Z.of_nat i + 1), V (L !!! i)).
Proof.
  intros Hi. destruct HR as [HA [] _ _]. destruct fits_n0, fits_area0.
  destruct (boot_home l d HB) as [_ Hout].
  pose proof (home_L i Hi) as [Hr _]. unfold wgood, home. cbn.
  split_and!; [by apply (length_view me HA)|lia|lia|lia].
Qed.
Lemma wgood_head h : length h = BSIZE -> wgood (Z.to_nat st, h).
Proof.
  intros Hh. destruct st_notin. destruct (boot_home l d HB) as [_ Hout].
  destruct (boot_area l d HB) as (? & ? & ?). unfold wgood, home. cbn. split_and!; (done || lia).
Qed.
Lemma wgood_home i : (i < length L)%nat -> wgood (Z.to_nat (L !!! i), V (L !!! i)).
Proof.
  intros Hi. destruct HR as [HA _ _ _]. pose proof (home_L i Hi) as [Hr _].
  unfold wgood. cbn. rewrite Z2Nat.id by lia. split_and!; [by apply (length_view me HA)|lia| |done].
  intros He. apply H1. rewrite <- He. by apply total_elem.
Qed.

Lemma commit_writes_good w : w ∈ commit_writes l V -> wgood w.
Proof.
  unfold commit_writes. destruct (bool_decide (L = [])); [by intros ?%elem_of_nil|].
  destruct commit_head_list as (_ & Hch & _).
  rewrite !elem_of_app, !list_elem_of_singleton. intros [[(i & Hi & ->)%elem_log_writes| ->]|[Hw| ->]].
  - by apply wgood_log.
  - by apply wgood_head.
  - apply list_elem_of_fmap in Hw as (i & -> & Hi%elem_of_seq). apply wgood_home. lia.
  - apply wgood_head. rewrite length_put32; unfold BSIZE in *; lia.
Qed.

(** After the commit point the header has the transaction and the log area its blocks. *)
Lemma after_commit_point ws :
  ws ⊆ install_writes V L ->
  let Vk := apply_view (W2 ++ ws) (dview d) in
  Vk st = commit_head l V /\ forall i, (i < length L)%nat -> Vk (st + Z.of_nat i + 1) = V (L !!! i).
Proof.
  intros Hws Vk. destruct HR as [HA [] _ _]. destruct fits_area0, fits_n0.
  assert (Hout : forall b, st <= b < st + l_size l -> Vk b = apply_view W2 (dview d) b).
  { intros b Hb. unfold Vk. rewrite apply_view_app. apply apply_view_notin.
    intros w Hw%Hws. apply list_elem_of_fmap in Hw as (i & -> & Hi%elem_of_seq). cbn.
    destruct (home_L i); [lia|]. lia. }
  split; [|intros i Hi]; rewrite Hout, apply_view_snoc by lia; cbn [fst snd].
  - rewrite Z2Nat.id by lia. apply fn_lookup_insert.
  - rewrite fn_lookup_insert_ne by lia. apply apply_view_const.
    + intros w (k & Hk & ->)%elem_log_writes. cbn. intros He. by replace i with k by lia.
    + left. exists (Z.to_nat (st + Z.of_nat i + 1), V (L !!! i)). rewrite elem_log_writes.
      split; [by exists i|cbn; lia].
Qed.

Lemma wgood_restart ws :
  (forall w, w ∈ ws -> wgood w) ->
  let Vk := apply_view ws (dview d) in hdr_fits l (Vk st) d ->
  exists s, restart (apply_writes ws d) = Ret tt s /\
    forall b, home l d b -> view (bc s) b = apply_view (ws ++ recover_writes st Vk) (dview d) b.
Proof.
  intros Hws Vk HV.
  destruct (restart_after l d ws HB) as (s & Hr & _ & _ & _ & _ & _ & _ & _ & _ & HA).
  - apply Forall_forall. intros w Hw. by destruct (Hws w Hw).
  - intros w Hw. by destruct (Hws w Hw) as (_ & ? & _).
  - done.
  - exists s. split; [exact Hr|]. clear Hr. intros b [Hb _]. rewrite (abs_view _ _ _ _ _ _ HA) by lia.
    by rewrite apply_view_app.
Qed.

(** All writes carry new contents, and every block of the transaction is among them. *)
Lemma all_new ws b :
  (forall w, w ∈ ws -> wgood w) -> home l d b ->
  (b ∈ L -> exists w, w ∈ ws /\ Z.of_nat (fst w) = b) -> apply_view ws (dview d) b = V b.
Proof.
  intros Hws Hb Hex. apply apply_view_const.
  - intros w Hw <-. by apply Hws.
  - destruct (decide (b ∈ L)) as [Hin|Hin]; [left; auto|right]. symmetry.
    apply clean_dview; [|done]. destruct Hb. lia.
Qed.

Lemma crash_before k : (k <= length L)%nat ->
  exists s, restart (apply_writes (take k W1) d) = Ret tt s /\
    forall b, home l d b -> view (bc s) b = dview d b.
Proof.
  intros Hk. destruct st_notin as [Hst _].
  assert (Hw : forall w, w ∈ take k W1 -> exists i, (i < length L)%nat /\
    w = (Z.to_nat (st + Z.of_nat i + 1), V (L !!! i))).
  { intros w Hw%elem_of_take. destruct Hw as (j & Hj%list_elem_of_lookup_2 & _).
    by apply elem_log_writes in Hj. }
  assert (Hhd : apply_view (take k W1) (dview d) st = dview d st).
  { apply apply_view_notin. intros w (i & Hi & ->)%Hw. cbn. lia. }
  destruct (wgood_restart (take k W1)) as (s & Hr & Hv).
  - intros w (i & Hi & ->)%Hw. by apply wgood_log.
  - rewrite Hhd. unfold hdr_fits. rewrite H0, hdr_list_empty by done. split; [by vm_compute|].
    destruct HR as [_ HF _ _]. by eapply fits_nil.
  - exists s. split; [exact Hr|]. clear Hr. intros b Hb. rewrite Hv by done.
    unfold recover_writes. rewrite Hhd, hdr_list_empty by done. cbn [length home_writes seq map app].
    apply apply_view_notin. intros w [(i & Hi & ->)%Hw| ->%list_elem_of_singleton]%elem_of_app; cbn.
    + destruct HR as [_ [] _ _]. destruct fits_n0, fits_area0, Hb. lia.
    + destruct HR as [_ [] _ _]. destruct fits_n0, fits_area0, Hb. lia.
Qed.

Lemma crash_installing k :
  exists s, restart (apply_writes (W2 ++ take k (install_writes V L)) d) = Ret tt s /\
    forall b, home l d b -> view (bc s) b = V b.
Proof.
  destruct commit_head_list as (Hl & Hlen & Hn). set (ws := W2 ++ take k (install_writes V L)).
  assert (Hsub : take k (install_writes V L) ⊆ install_writes V L).
  { intros w (j & Hj & _)%elem_of_take. by eapply list_elem_of_lookup_2. }
  destruct (after_commit_point _ Hsub) as [Hhd Harea]. fold ws in Hhd, Harea.
  assert (Hgood : forall w, w ∈ ws -> wgood w).
  { intros w [[(i & Hi & ->)%elem_log_writes| ->%list_elem_of_singleton]%elem_of_app|Hw]%elem_of_app.
    - by apply wgood_log.
    - by apply wgood_head.
    - apply Hsub, list_elem_of_fmap in Hw as (i & -> & Hi%elem_of_seq). apply wgood_home. lia. }
  destruct (wgood_restart ws Hgood) as (s & Hr & Hv).
  - rewrite Hhd. unfold hdr_fits. rewrite Hl, Hn. destruct HR as [_ HF HnL _]. split; [|done].
    destruct HF. rewrite HnL. unfold LOGSIZE, MAXOPBLOCKS in *. lia.
  - exists s. split; [exact Hr|]. clear Hr. intros b Hb. rewrite Hv by done.
    assert (Hrec : recover_writes st (apply_view ws (dview d)) =
      install_writes V L ++ [(Z.to_nat st, put32 (commit_head l V) 0 0)]).
    { unfold recover_writes. rewrite Hhd, Hl. f_equal. by apply install_log_writes. }
    rewrite Hrec. apply all_new; [|done|].
    + intros w [Hw|[Hw| ->%list_elem_of_singleton]%elem_of_app]%elem_of_app; [auto| |].
      * apply list_elem_of_fmap in Hw as (i & -> & Hi%elem_of_seq). apply wgood_home. lia.
      * apply wgood_head. rewrite length_put32; unfold BSIZE in *; lia.
    + intros (i & Hi & Hib)%list_elem_of_lookup_total. exists (Z.to_nat (L !!! i), V (L !!! i)).
      split; [|destruct Hb; cbn; lia]. rewrite !elem_of_app. right. left.
      apply list_elem_of_fmap. exists i. rewrite elem_of_seq. split; [done|lia].
Qed.

(** The disk after [commit]. *)
Lemma commit_view b : home l d b -> apply_view (commit_writes l V) (dview d) b = V b.
Proof.
  intros Hb. apply all_new; [apply commit_writes_good|done|].
  intros Hin. unfold commit_writes. rewrite bool_decide_eq_false_2.
  2: { intros HL. rewrite HL in Hin. by apply elem_of_nil in Hin. }
  apply list_elem_of_lookup_total in Hin as (i & Hi & Hib).
  exists (Z.to_nat (L !!! i), V (L !!! i)).
  split; [|destruct Hb; cbn; lia]. rewrite !elem_of_app. right. left.
  apply list_elem_of_fmap. exists i. rewrite elem_of_seq. split; [done|lia].
Qed.

Lemma crash_done :
  exists s, restart (apply_writes (commit_writes l V) d) = Ret tt s /\
    forall b, home l d b -> view (bc s) b = V b.
Proof.
  destruct commit_head_list as (Hl & Hlen & Hn). destruct st_notin as [Hst _].
  assert (Hhd : hdr_n (apply_view (commit_writes l V) (dview d) st) = 0).
  { unfold commit_writes. destruct (bool_decide (L = [])); [done|].
    rewrite app_assoc, apply_view_snoc. cbn [fst snd]. rewrite Z2Nat.id, fn_lookup_insert by lia.
    unfold hdr_n. rewrite get32_put32_same by (unfold BSIZE in *; lia). done. }
  destruct (wgood_restart (commit_writes l V) commit_writes_good) as (s & Hr & Hv).
  - unfold hdr_fits. rewrite Hhd, hdr_list_empty by done. split; [by vm_compute|].
    destruct HR as [_ HF _ _]. by eapply fits_nil.
  - exists s. split; [exact Hr|]. clear Hr. intros b Hb. rewrite Hv by done.
    unfold recover_writes. rewrite hdr_list_empty by done. cbn [length home_writes seq map app].
    rewrite apply_view_snoc. cbn [fst snd]. rewrite fn_lookup_insert_ne.
    2: { destruct (boot_area l d HB) as (? & ? & ?), Hb. lia. }
    by apply commit_view.
Qed.

(** A crash after [k] writes of [commit]: up to the header write nothing has happened, from
    then on everything has. *)
Lemma commit_crash k :
  exists s, restart (apply_writes (take k (commit_writes l V)) d) = Ret tt s /\
    ((k <= length L)%nat /\ L <> [] /\ (forall b, home l d b -> view (bc s) b = dview d b) \/
     (length L < k \/ L = [])%nat /\ forall b, home l d b -> view (bc s) b = V b).
Proof.
  pose proof crash_done as Hdone. unfold commit_writes in *.
  destruct (decide (L = [])) as [HL|HL].
  { rewrite bool_decide_eq_true_2 in * by done. rewrite take_nil. destruct Hdone as (s & Hr & ?).
    exists s. split; [exact Hr|]. clear Hr. right. auto. }
  rewrite bool_decide_eq_false_2 in * by done.
  assert (Hlen1 : length W1 = length L) by (unfold log_writes; by rewrite length_map, length_seq).
  assert (Hlen2 : length (install_writes V L) = length L)
    by (unfold install_writes; by rewrite length_map, length_seq).
  destruct (decide (k <= length L)%nat) as [Hk|Hk].
  { rewrite <- app_assoc, take_app_le by lia. destruct (crash_before k Hk) as (s & Hr & ?).
    exists s. split; [exact Hr|]. clear Hr. by left. }
  assert (HW2 : length W2 = S (length L)) by (rewrite length_app, Hlen1; cbn; lia).
  destruct (decide (k <= S (length L) + length L)%nat) as [Hk'|Hk'].
  - rewrite take_app_ge, HW2, take_app_le by lia.
    destruct (crash_installing (k - S (length L))) as (s & Hr & ?). exists s.
    split; [exact Hr|]. clear Hr. right.
    split; [lia|done].
  - rewrite take_ge by (rewrite length_app, HW2, length_app, Hlen2; cbn; lia).
    destruct Hdone as (s & Hr & ?). exists s.
    split; [exact Hr|]. clear Hr. right. split; [lia|done].
Qed.
End crash.

(** *** [log_write] *)

(** Log absorption: a block is logged once. *)
Definition absorb (b : Z) (L : list Z) : list Z := if decide (b ∈ L) then L else L ++ [b].
Lemma absorb_length b L : (length (absorb b L) <= S (length L))%nat.
Proof. unfold absorb. destruct (decide _); [lia|]. rewrite length_app. cbn. lia. Qed.
Lemma elem_of_absorb x b L : x ∈ absorb b L <-> x = b \/ x ∈ L.
Proof.
  unfold absorb. destruct (decide _); [naive_solver|].
  rewrite elem_of_app, list_elem_of_singleton. tauto.
Qed.
Lemma NoDup_absorb b L : NoDup L -> NoDup (absorb b L).
Proof.
  unfold absorb. intros HL. destruct (decide _) as [|Hb]; [done|].
  apply NoDup_app. split_and!; [done| |apply NoDup_singleton].
  intros x Hx ->%list_elem_of_singleton. done.
Qed.


Lemma log_find_spec l b cnt : forall i,
  (i + cnt <= length (lh_block (l_lh l)))%nat ->
  (forall x, x ∈ take (i + cnt) (lh_block (l_lh l)) -> 0 <= x < 2 ^ 31) ->
  let k := log_find l b i cnt in
  (i <= k <= i + cnt)%nat /\
  (k < i + cnt -> lh_block (l_lh l) !!! k = b)%nat /\
  (forall j, (i <= j < k)%nat -> lh_block (l_lh l) !!! j <> b).
Proof.
  induction cnt as [|cnt IH]; intros i Hlen Hr; cbn [log_find]; [split_and!; intros; lia|].
  set (B := lh_block (l_lh l)) in *.
  assert (Hi : B !! i = Some (B !!! i)) by (apply list_lookup_lookup_total_lt; lia).
  rewrite Hi. cbn [from_option]. unfold id. rewrite u32_id.
  2: { assert (Hin : B !!! i ∈ take (i + S cnt) B).
       { apply elem_of_take. exists i. split; [done|lia]. }
       apply Hr in Hin. lia. }
  destruct (Z.eqb_spec (B !!! i) b) as [He|He]; [split_and!; intros; (done || lia)|].
  destruct (IH (S i)) as (H1 & H2 & H3); [lia| |].
  { intros x Hx. apply Hr. by replace (i + S cnt)%nat with (S i + cnt)%nat by lia. }
  split_and!; [lia..| |].
  - intros Hk. apply H2. lia.
  - intros j Hj. destruct (decide (i = j)) as [<-|]; [done|]. apply H3. lia.
Qed.

Lemma log_lock_acquire_bind {B} (k : unit -> M lstate B) l c :
  l_lock l = false -> bind (log_lock Klock.acquire) k (MkL l c) = k tt (MkL (set_lock true l) c).
Proof. unfold bind, log_lock, zoom. cbn. by intros ->. Qed.
Lemma log_lock_release l c :
  l_lock l = true -> log_lock Klock.release (MkL l c) = Ret tt (MkL (set_lock false l) c).
Proof. unfold log_lock, zoom. cbn. by intros ->. Qed.

Lemma log_lock_release_bind {B} (k : unit -> M lstate B) l c :
  l_lock l = true -> bind (log_lock Klock.release) k (MkL l c) = k tt (MkL (set_lock false l) c).
Proof. intros H. by rewrite (bind_Ret _ _ _ _ _ (log_lock_release l c H)). Qed.

Lemma log_write_abs l c V D H d i b :
  abs c V D H d -> (i, b) ∈ H -> disksize d <= 2 ^ 31 ->
  length (lh_block (l_lh l)) = Z.to_nat LOGSIZE ->
  lh_n (l_lh l) = Z.of_nat (length (logged l)) ->
  (forall x, x ∈ logged l -> 0 <= x < 2 ^ 31) ->
  lh_n (l_lh l) < LOGSIZE -> lh_n (l_lh l) < l_size l - 1 ->
  1 <= l_outstanding l -> l_lock l = false ->
  exists h c', log_write i (MkL l c) = Ret tt (MkL (with_lh h l) c') /\
    abs c' V ({[b]} ∪ D) H d /\ length (lh_block h) = Z.to_nat LOGSIZE /\
    logged (with_lh h l) = absorb b (logged l) /\
    lh_n h = Z.of_nat (length (absorb b (logged l))).
Proof.
  intros HA Hi Hsz HlenB Hn Hr Hlt1 Hlt2 Hout Hlk.
  pose proof (held_range me HA i b Hi) as Hb.
  unfold log_write. rewrite lg_bind.
  destruct (Z.leb_spec LOGSIZE (lh_n (l_lh l))); [lia|].
  destruct (Z.leb_spec (l_size l - 1) (lh_n (l_lh l))); [lia|]. cbn [orb].
  destruct (Z.ltb_spec (l_outstanding l) 1); [lia|].
  rewrite log_lock_acquire_bind by done.
  destruct (abs_held _ _ _ _ _ _ HA i b Hi) as [(_ & _ & Hbn) _].
  rewrite (cache_bind (reads (fun s => getb s i)) _ _ _ (getb c i) c eq_refl), Hbn, lg_bind.
  change (l_lh (set_lock true l)) with (l_lh l). change (logged (set_lock true l)) with (logged l).
  set (n := Z.to_nat (lh_n (l_lh l))). set (B := lh_block (l_lh l)) in *.
  destruct (log_find_spec (set_lock true l) b n 0) as (K1 & K2 & K3); [cbn; fold B; lia|done|].
  cbn [set_lock l_lh] in K2, K3. fold B in K2, K3.
  set (k := log_find (set_lock true l) b 0 n) in *. rewrite i32_id by lia.
  assert (Hn' : n = length (logged l)) by lia.
  rewrite put_block_bind by (cbn; fold B; lia).
  destruct (mark_dirty_abs me HA i b Hi) as (c' & Hd & HA').
  assert (HL : logged l = take n B) by done.
  destruct (decide (k = n)) as [Hk|Hk].
  - assert (HbL : b ∉ logged l).
    { rewrite HL. intros (j & Hj1 & Hj2)%list_elem_of_lookup_total. rewrite length_take in Hj1.
      rewrite lookup_total_take_lt in Hj2 by lia. apply (K3 j); [lia|done]. }
    exists (MkLh (lh_n (l_lh l) + 1) (<[k := b]> B)), c'.
    assert (Habs : absorb b (logged l) = logged l ++ [b]) by (unfold absorb; by rewrite decide_False).
    rewrite Habs, length_app. cbn [length lh_n lh_block]. split_and!.
    + destruct (Z.eqb_spec (Z.of_nat k) (lh_n (l_lh l))) as [_|]; [|lia]. cbn [when].
      change (bind (upd ?f) ?k (MkL ?l c)) with (k tt (MkL (f l) c)). cbv beta.
      rewrite (cache_bind _ _ _ _ _ _ Hd), log_lock_release by done. do 2 f_equal.
      unfold with_lh. rewrite <- Hlk. done.
    + done.
    + by rewrite length_insert.
    + unfold logged. cbn [with_lh l_lh lh_n lh_block]. fold B.
      replace (Z.to_nat (lh_n (l_lh l) + 1)) with (S n) by lia. rewrite Hk.
      rewrite (take_S_r _ n b) by (apply list_lookup_insert_eq; lia).
      by rewrite take_insert_ge by lia.
    + lia.
  - assert (HbL : b ∈ logged l).
    { rewrite HL, <- (K2 ltac:(lia)). rewrite <- (lookup_total_take_lt B n) by lia.
      apply total_elem. rewrite length_take. lia. }
    exists (l_lh l), c'.
    assert (Habs : absorb b (logged l) = logged l) by (unfold absorb; by rewrite decide_True).
    rewrite Habs. split_and!; [|done..].
    destruct (Z.eqb_spec (Z.of_nat k) (lh_n (l_lh l))) as [|_]; [lia|]. cbn [when].
    change (bind (ret tt) ?k ?s) with (k tt s). cbv beta.
    rewrite (cache_bind _ _ _ _ _ _ Hd), log_lock_release by done. do 2 f_equal.
    unfold set_block, set_lock, with_lh. cbn. fold B.
    rewrite list_insert_id by (rewrite <- (K2 ltac:(lia)); apply list_lookup_lookup_total_lt; lia).
    rewrite <- Hlk. unfold B. by destruct (l_lh l).
Qed.
End commit.
End Commit.
