(* ===== verification/Txn.v ===== *)
(** Transactions: the contract of the log with the system calls.

    [Module Txn] runs sequences of transactions ([begin_op], block updates, [end_op]) over a
    disk, and shows that after a crash at any point the disk recovers to the state after a
    prefix of them.  [Module Reserve] is about concurrent system calls: what the reservation
    of log space in [begin_op] guarantees, and what it does not. *)

From S2P Require Import Prelude Params Bytes Sleeplock Bio Cache Log.

Module Txn.
Import Disk Bio Cache Log Commit.

Section txn.
Variable me : Z.

(** The typical use of the log ([log.c]): read a block, modify it, [log_write] it. *)
Definition update (w : Z * list Z) : M lstate unit :=
  i <- cache (bread me 1 (fst w)) ;;
  cache (write_data i (snd w)) ;;;
  log_write i ;;;
  cache (brelse me i).
Fixpoint updates (ws : list (Z * list Z)) : M lstate unit :=
  match ws with
  | [] => ret tt
  | w :: ws' => update w ;;; updates ws'
  end.
Definition txn (ws : list (Z * list Z)) : M lstate unit :=
  begin_op ;;; updates ws ;;; end_op me.
Fixpoint txns (ts : list (list (Z * list Z))) : M lstate unit :=
  match ts with
  | [] => ret tt
  | t :: ts' => txn t ;;; txns ts'
  end.

(** What they mean. *)
Definition effect (ws : list (Z * list Z)) (V : Z -> list Z) : Z -> list Z :=
  foldl (fun V w => <[fst w := snd w]> V) V ws.
Definition effects (ts : list (list (Z * list Z))) (V : Z -> list Z) : Z -> list Z :=
  foldl (fun V t => effect t V) V ts.

Definition write_ok (l : log) (d : disk) (w : Z * list Z) : Prop :=
  home l d (fst w) /\ fst w <> 1 /\ length (snd w) = BSIZE.
Definition txn_ok (l : log) (d : disk) (t : list (Z * list Z)) : Prop :=
  Z.of_nat (length t) <= MAXOPBLOCKS /\ Forall (write_ok l d) t.

(** [l'] is the same log, with another transaction. *)
Definition same_geom (l l' : log) : Prop :=
  l_start l' = l_start l /\ l_size l' = l_size l /\ l_dev l' = l_dev l /\
  length (lh_block (l_lh l')) = length (lh_block (l_lh l)).

Lemma fits_geom l l' L d : same_geom l l' -> fits l L d -> fits l' L d.
Proof. intros (E1 & E2 & E3 & E4) []. split; rewrite ?E1, ?E2, ?E3, ?E4; done. Qed.
Lemma bootable_geom l l' d : same_geom l l' -> bootable l d -> bootable l' d.
Proof.
  intros HG [? [? ?] ? ? ? [? ?] ?]. pose proof HG as (E1 & E2 & E3 & E4).
  split; unfold describes, home, hdr_fits; rewrite ?E1, ?E2; try done.
  split; [done|]. by eapply fits_geom.
Qed.

(** Inside a transaction: [ready], by a process that has called [begin_op]. *)
Lemma update_abs l c V d w :
  ready me l c V d -> write_ok l d w -> LOGSIZE <= l_size l ->
  (length (logged l) < Z.to_nat LOGSIZE - 1)%nat -> 1 <= l_outstanding l -> l_lock l = false ->
  exists h c', update w (MkL l c) = Ret tt (MkL (with_lh h l) c') /\
    ready me (with_lh h l) c' (<[fst w := snd w]> V) d /\
    logged (with_lh h l) = absorb (fst w) (logged l).
Proof.
  intros [HA HF Hn Hbuf] ([Hb Hout] & Hb1 & Hx) Hsize Hroom Ho Hlk. destruct w as [b x]. cbn in *.
  pose proof HF as [Hdev HlenB Hsz Har [Hn1 Hn2] Hnd Hh].
  unfold update. cbn [fst snd].
  destruct (bread_abs me HA b Hb) as (i & c1 & H1 & A1); [set_solver| |].
  { right. rewrite size_list_to_set by done. cbn. lia. }
  rewrite (cache_bind _ _ _ _ _ _ H1).
  destruct (write_data_abs me A1 i b x) as (c2 & H2 & A2); [set_solver|done|].
  rewrite (cache_bind _ _ _ _ _ _ H2).
  destruct (log_write_abs me l c2 _ _ _ _ i b A2) as (h & c3 & H3 & A3 & Hlh & HL & HN);
    try done; try lia; [set_solver|intros y Hy%Hh; lia|].
  rewrite (bind_Ret _ _ _ _ _ H3).
  destruct (brelse_abs me A3 i b) as (c4 & H4 & A4); [set_solver|left; set_solver|].
  rewrite remove_one in A4.
  exists h, c4. split_and!; [by apply cache_run| |done].
  pose proof (absorb_length b (logged l)).
  split; rewrite ?HL.
  - replace (list_to_set (absorb b (logged l)) : gset Z) with ({[b]} ∪ list_to_set (logged l) : gset Z);
      [done|]. apply set_eq. intros y. rewrite elem_of_list_to_set, elem_of_absorb. set_solver.
  - split; try done; cbn; [unfold LOGSIZE, MAXOPBLOCKS in *; lia|by apply NoDup_absorb|].
    intros y [->|Hy]%elem_of_absorb; [done|by apply Hh].
  - done.
  - rewrite NBUF_eq. unfold LOGSIZE, MAXOPBLOCKS in *. lia.
Qed.

Lemma updates_abs ws : forall l c V d,
  ready me l c V d -> Forall (write_ok l d) ws -> LOGSIZE <= l_size l ->
  (length (logged l) + length ws <= Z.to_nat LOGSIZE - 1)%nat ->
  1 <= l_outstanding l -> l_lock l = false -> 1 ∉ logged l ->
  exists h c', updates ws (MkL l c) = Ret tt (MkL (with_lh h l) c') /\
    ready me (with_lh h l) c' (effect ws V) d /\ 1 ∉ logged (with_lh h l).
Proof.
  induction ws as [|w ws IH]; intros l c V d HR Hws Hsize Hroom Ho Hlk H1.
  - exists (l_lh l), c. split_and!; destruct l; done.
  - apply Forall_cons in Hws as [Hw Hws]. cbn [updates length] in *.
    destruct (update_abs l c V d w) as (h & c1 & R1 & HR1 & HL1); try done; [lia|].
    rewrite (bind_Ret _ _ _ _ _ R1).
    destruct (IH (with_lh h l) c1 _ d HR1) as (h2 & c2 & R2 & HR2 & HL2); try done.
    + rewrite HL1. pose proof (absorb_length (fst w) (logged l)). lia.
    + rewrite HL1, elem_of_absorb. intros [He|]; [|done]. by destruct Hw as (_ & ? & _).
    + exists h2, c2. done.
Qed.

(** Between transactions: the cache agrees with the disk, the log is empty on disk and in
    memory, and the disk is one the kernel can start from. *)
Record idle (l : log) (c : bcache) (d : disk) : Prop := MkIdle {
  idle_abs : abs me c (dview d) ∅ [] d;
  idle_boot : bootable l d;
  idle_hdr : hdr_n (dview d (l_start l)) = 0;
  idle_n : lh_n (l_lh l) = 0;
  idle_lock : l_lock l = false;
  idle_outstanding : l_outstanding l = 0;
  idle_committing : l_committing l = 0
}.

Lemma effect_ext ws V V' b :
  (forall b, 0 <= b -> V b = V' b) -> 0 <= b -> effect ws V b = effect ws V' b.
Proof.
  revert V V'. induction ws as [|w ws IH]; intros V V' He Hb; cbn; [auto|]. apply IH; [|done].
  intros b' Hb'. destruct (decide (b' = fst w)) as [->|];
    [by rewrite !fn_lookup_insert|by rewrite !fn_lookup_insert_ne; auto].
Qed.

(** After a commit the disk is bootable again, with the new contents and an empty log. *)
Lemma committed l c V d :
  ready me l c V d -> bootable l d -> hdr_n (dview d (l_start l)) = 0 -> 1 ∉ logged l ->
  let d' := apply_writes (commit_writes l V) d in
  bootable l d' /\ hdr_n (dview d' (l_start l)) = 0 /\ forall b, home l d b -> dview d' b = V b.
Proof.
  intros HR HB H0 H1 d'.
  assert (Hgood := commit_writes_good me HR HB H1).
  assert (Hread : forall b, 0 <= b -> dview d' b = apply_view (commit_writes l V) (dview d) b).
  { intros b Hb. apply apply_writes_read; [|done]. intros w Hw. by destruct (Hgood w Hw) as ((_ & ?) & _). }
  assert (Hhd : hdr_n (dview d' (l_start l)) = 0).
  { destruct (st_notin me HR) as [Hst _]. rewrite Hread by lia.
    unfold commit_writes. destruct (bool_decide _); [done|].
    rewrite app_assoc, apply_view_snoc. cbn [fst snd]. rewrite Z2Nat.id, fn_lookup_insert by lia.
    unfold hdr_n. rewrite get32_put32_same; [done|].
    destruct (commit_head_list me HR) as (_ & -> & _). unfold BSIZE. lia. }
  assert (Hds : disksize d' = disksize d) by apply disksize_apply.
  pose proof HB as [Hb1 Hb2 Hb3 Hb4 Hb5 [_ Hb6] _].
  split_and!; [|done|].
  2: { intros b Hb. rewrite Hread by (destruct Hb; lia). by apply (commit_view me HR HB H0 H1). }
  split; unfold home; rewrite ?Hds; try done.
  - apply apply_writes_lengths; [done|]. apply Forall_forall. intros w Hw. by destruct (Hgood w Hw) as ((? & _) & _).
  - change (read_block d' 1) with (dview d' 1). rewrite Hread by lia. rewrite apply_view_notin; [done|].
    intros w Hw. by destruct (Hgood w Hw) as (_ & ? & _).
  - unfold hdr_fits. change (read_block _ _) with (dview d' (l_start l)). rewrite Hhd, hdr_list_empty by done.
    split; [by vm_compute|]. eapply fits_nil, fits_sub; [done|]. apply disksize_apply.
  - change (read_block _ _) with (dview d' (l_start l)). rewrite hdr_list_empty by done.
    by intros ?%elem_of_nil.
Qed.

Lemma begin_op_idle l c d :
  idle l c d -> begin_op (MkL l c) = Ret tt (MkL (set_outstanding 1 l) c).
Proof.
  intros [_ _ _ Hn Hl Ho Hc]. unfold begin_op. rewrite log_lock_acquire_bind, lg_bind by done.
  cbn [set_lock l_committing l_lh l_outstanding]. rewrite Hc, Hn, Ho. cbn.
  destruct l. cbn in *. by subst.
Qed.

(** [end_op] by the last system call in the transaction. *)
Lemma end_op_last l c V d :
  ready me l c V d -> l_lock l = false -> l_outstanding l = 1 -> l_committing l = 0 ->
  exists l' c', end_op me (MkL l c) = Ret tt (MkL l' c') /\ same_geom l l' /\
    lh_n (l_lh l') = 0 /\ l_lock l' = false /\ l_outstanding l' = 0 /\ l_committing l' = 0 /\
    abs me c' (apply_view (commit_writes l V) V) ∅ [] (apply_writes (commit_writes l V) d).
Proof.
  intros [HA HF HN Hbuf] Hlk Ho Hc.
  set (l3 := set_lock false (set_committing 1 (set_outstanding 0 (set_lock true l)))).
  assert (HR3 : ready me l3 c V d) by (split; try done; by eapply fits_geom; [|done]).
  destruct (commit_abs me l3 c V d HR3) as (c3 & R3 & A3).
  exists (set_lock false (set_committing 0 (set_lock true (set_n 0 l3)))), c3.
  split_and!; try done. unfold end_op.
  assert (Hleave : end_op_leave (MkL l c) = Ret true (MkL l3 c)).
  { unfold end_op_leave. rewrite log_lock_acquire_bind by done.
    change (bind (upd ?f) ?k (MkL ?l c)) with (k tt (MkL (f l) c)). cbv beta.
    rewrite lg_bind. cbn [set_outstanding set_lock l_committing l_outstanding].
    rewrite Hc, Ho. change (negb (0 =? 0)) with false. change (1 - 1 =? 0) with true. cbn [when].
    change (bind (upd ?f) ?k (MkL ?l c)) with (k tt (MkL (f l) c)). cbv beta.
    by rewrite log_lock_release_bind by done. }
  rewrite (bind_Ret _ _ _ _ _ Hleave). cbn [when]. unfold end_op_commit.
  rewrite (bind_Ret _ _ _ _ _ R3), log_lock_acquire_bind by done.
  change (bind (upd ?f) ?k (MkL ?l c3)) with (k tt (MkL (f l) c3)). cbv beta.
  by apply log_lock_release.
Qed.

(** One transaction, and a crash after any number of its writes. *)
Lemma txn_step l c d t :
  idle l c d -> LOGSIZE <= l_size l -> txn_ok l d t ->
  exists l' c' W, txn t (MkL l c) = Ret tt (MkL l' c') /\ same_geom l l' /\
    idle l' c' (apply_writes W d) /\
    (forall b, home l d b -> dview (apply_writes W d) b = effect t (dview d) b) /\
    forall k, exists s, restart me (apply_writes (take k W) d) = Ret tt s /\
      ((k < length W)%nat /\ (forall b, home l d b -> view (bc s) b = dview d b) \/
       (forall b, home l d b -> view (bc s) b = effect t (dview d) b)).
Proof.
  intros HI Hsize [Hlen Hws]. pose proof HI as [HA HB Hh Hn Hlk Ho Hc].
  pose proof (boot_hdr l d HB) as [_ HF].
  assert (HL0 : logged l = []) by (unfold logged; by rewrite Hn).
  set (l1 := set_outstanding 1 l). assert (HG1 : same_geom l l1) by done.
  assert (HR1 : ready me l1 c (dview d) d).
  { split; change (logged l1) with (logged l); rewrite ?HL0; [done| |done|cbn; rewrite NBUF_eq; lia].
    eapply fits_geom; [done|]. by eapply fits_nil. }
  destruct (updates_abs t l1 c (dview d) d) as (h & c2 & R2 & HR2 & HL2); try done.
  { change (logged l1) with (logged l). rewrite HL0. cbn. unfold LOGSIZE, MAXOPBLOCKS in *. lia. }
  { change (logged l1) with (logged l). rewrite HL0. by intros ?%elem_of_nil. }
  set (l2 := with_lh h l1) in *. set (V := effect t (dview d)) in *.
  assert (HG2 : same_geom l l2).
  { destruct (ready_fits _ _ _ _ _ HR2), HF. split_and!; try done. cbn in *. congruence. }
  assert (HB2 : bootable l2 d) by (by eapply bootable_geom).
  destruct (end_op_last l2 c2 V d HR2) as (l3 & c3 & R3 & HG3 & Hn3 & Hl3 & Ho3 & Hc3 & A3); try done.
  destruct (committed l2 c2 V d HR2 HB2 Hh HL2) as (HB3 & Hh3 & HV3).
  set (W := commit_writes l2 V) in *. exists l3, c3, W.
  assert (same_geom l l3).
  { destruct HG2 as (?&?&?&?), HG3 as (?&?&?&?). split_and!; congruence. }
  split_and!; [|done| |done|].
  - unfold txn. rewrite (bind_Ret _ _ _ _ _ (begin_op_idle l c d HI)). fold l1.
    by rewrite (bind_Ret _ _ _ _ _ R2).
  - assert (l_start l3 = l_start l2) by apply HG3. split; try done.
    + eapply abs_ext; [|exact A3]. intros b Hb. rewrite (clean_view me A3); [done..|set_solver|set_solver].
    + by apply (bootable_geom l2).
    + congruence.
  - intros k. destruct (commit_crash me HR2 HB2 Hh HL2 k) as (s & Hr & Hs). exists s.
    split; [exact Hr|]. clear Hr. destruct Hs as [(Hk & HL & Hs)|[_ Hs]]; [left|by right].
    split; [|done]. unfold W, commit_writes. rewrite bool_decide_eq_false_2 by done.
    rewrite !length_app. unfold log_writes. rewrite length_map, length_seq. cbn. lia.
Qed.

Lemma home_geom l l' d d' b : same_geom l l' -> disksize d' = disksize d -> home l' d' b <-> home l d b.
Proof. intros (E1 & E2 & _ & _) Hd. unfold home. by rewrite E1, E2, Hd. Qed.

Lemma txn_ok_geom l l' d d' t : same_geom l l' -> disksize d' = disksize d -> txn_ok l d t -> txn_ok l' d' t.
Proof.
  intros HG Hd [Hl Hws]. split; [done|]. eapply Forall_impl; [exact Hws|]. intros w (Hh & Hr).
  split; [|done]. by apply (home_geom l l' d d').
Qed.

Lemma effects_ext ts V V' l d b :
  (forall t, t ∈ ts -> Forall (write_ok l d) t) ->
  (forall b, home l d b -> V b = V' b) -> home l d b -> effects ts V b = effects ts V' b.
Proof.
  revert V V'. induction ts as [|t ts IH]; intros V V' Hok He Hb; cbn; [auto|].
  apply IH; [intros; apply Hok; by right| |done]. intros b' Hb'.
  assert (Ht : Forall (write_ok l d) t) by (apply Hok; by left). clear Hok IH Hb. revert V V' He Ht.
  induction t as [|w t IH]; intros V V' He Ht; cbn; [auto|].
  apply Forall_cons in Ht as [Hw Ht]. apply IH; [|done]. intros b2 Hb2.
  destruct (decide (b2 = fst w)) as [->|]; [by rewrite !fn_lookup_insert|].
  rewrite !fn_lookup_insert_ne; auto.
Qed.

(** The writes [Ws] of the transactions [ts], one list for each: where the disk is after each
    transaction, and what a crash after [k] of the writes recovers to. *)
Definition recoverable (l : log) (d : disk) (ts : list (list (Z * list Z)))
    (Ws : list (list (nat * list Z))) : Prop :=
  forall k, exists s j, restart me (apply_writes (take k (concat Ws)) d) = Ret tt s /\
    (j <= length ts)%nat /\
    (forall m, (m <= length ts)%nat -> (length (concat (take m Ws)) <= k)%nat -> (m <= j)%nat) /\
    forall b, home l d b -> view (bc s) b = effects (take j ts) (dview d) b.

Lemma txns_run ts : forall l c d,
  idle l c d -> LOGSIZE <= l_size l -> Forall (txn_ok l d) ts ->
  exists Ws, length Ws = length ts /\
    (forall m, (m <= length ts)%nat -> exists s, txns (take m ts) (MkL l c) = Ret tt s /\
       dk (bc s) = apply_writes (concat (take m Ws)) d /\ lh_n (l_lh (lg s)) = 0) /\
    recoverable l d ts Ws.
Proof.
  induction ts as [|t ts IH]; intros l c d HI Hsize Hts.
  - exists []. split_and!; [done| |].
    + intros m _. rewrite !take_nil. exists (MkL l c). destruct HI as [[] _ _ ? _ _ _]. done.
    + intros k. cbn [concat]. rewrite take_nil. destruct (txn_step l c d [] HI Hsize) as (_ & _ & W & _ & _ & _ & _ & Hk).
      { split; [by vm_compute|constructor]. }
      destruct (Hk 0%nat) as (s & Hr & Hs). rewrite take_0 in Hr. exists s, 0%nat.
      split; [exact Hr|]. clear Hr. split_and!; [done|intros; cbn in *; lia|]. cbn. tauto.
  - apply Forall_cons in Hts as [Ht Hts].
    destruct (txn_step l c d t HI Hsize Ht) as (l' & c' & W & Hr & HG & HI' & HV & Hcrash).
    assert (Hds : disksize (apply_writes W d) = disksize d) by apply disksize_apply.
    destruct (IH l' c' (apply_writes W d) HI') as (Ws & HlenW & Hrun & Hrec).
    { destruct HG as (_ & -> & _). done. }
    { eapply Forall_impl; [exact Hts|]. intros t' Ht'. by apply (txn_ok_geom l l' d). }
    exists (W :: Ws). split_and!; [cbn; lia| |].
    + intros [|m] Hm; cbn [take txns concat].
      * exists (MkL l c). destruct HI as [[] _ _ ? _ _ _]. done.
      * rewrite (bind_Ret _ _ _ _ _ Hr). destruct (Hrun m) as (s & Hs & Hd & Hn); [cbn in Hm; lia|].
        exists s. by rewrite apply_writes_app.
    + intros k. cbn [concat]. destruct (decide (k < length W)%nat) as [Hk|Hk].
      * rewrite take_app_le by lia. destruct (Hcrash k) as (s & Hrs & [[_ Hs]|Hs]).
        -- exists s, 0%nat. split; [exact Hrs|]. clear Hrs. split_and!; [lia| |done].
           intros [|m] _ Hm; [lia|]. cbn in Hm. rewrite length_app in Hm. lia.
        -- exists s, 1%nat. split; [exact Hrs|]. clear Hrs. split_and!; [cbn; lia| |done].
           intros [|m] _ Hm; [lia|]. cbn in Hm. rewrite length_app in Hm. lia.
      * rewrite take_app_ge, apply_writes_app by lia.
        destruct (Hrec (k - length W)%nat) as (s & j & Hrs & Hj & Hm & Hs).
        exists s, (S j). split; [exact Hrs|]. clear Hrs. split_and!; [cbn; lia| |].
        -- intros [|m] Hm1 Hm2; [lia|]. cbn in Hm1, Hm2. rewrite length_app in Hm2.
           assert (m <= j)%nat by (apply Hm; lia). lia.
        -- intros b Hb. rewrite Hs by (by apply (home_geom l l' d)). cbn [take].
           apply (effects_ext (take j ts) _ (effect t (dview d)) l d); [|done..].
           intros t' Ht'. rewrite Forall_forall in Hts. apply elem_of_take in Ht' as (i & Hi & _).
           destruct (Hts t') as [_ ?]; [by eapply list_elem_of_lookup_2|done].
Qed.

(** *** Starting the kernel *)
Section start.
Context {l : log} {d : disk}.
Hypothesis HB : bootable l d.
Local Abbreviation h := (dview d (l_start l)).
Local Abbreviation R := (recover_writes (l_start l) (dview d)).

Lemma recover_writes_elem w : w ∈ R ->
  (exists i, (i < length (hdr_list h))%nat /\
     w = (Z.to_nat (hdr_list h !!! i), dview d (l_start l + Z.of_nat i + 1))) \/
  w = (Z.to_nat (l_start l), put32 h 0 0).
Proof.
  unfold recover_writes. intros [Hw%elem_home_writes| ->%list_elem_of_singleton]%elem_of_app; auto.
Qed.

Lemma dview_length b : 0 <= b < disksize d -> length (dview d b) = BSIZE.
Proof.
  intros Hb. pose proof (boot_blocks l d HB) as Hd. rewrite Forall_lookup in Hd. unfold disksize in Hb.
  eapply Hd. unfold dview, read_block. apply list_lookup_lookup_total_lt. lia.
Qed.

Lemma recover_writes_ok w : w ∈ R ->
  (length (snd w) = BSIZE /\ Z.of_nat (fst w) < disksize d) /\ Z.of_nat (fst w) <> 1.
Proof.
  pose proof HB as [_ _ [_ Hh1] Har _ [_ HF] Hn1]. fold h in HF, Hn1.
  destruct HF as [_ _ _ [Hs0 Hs1] [_ Hn] Hnd Hh].
  intros [(i & Hi & ->)| ->]%recover_writes_elem; cbn [fst snd].
  - pose proof (total_elem _ i Hi) as Hin. pose proof (Hh _ Hin). split_and!; [apply dview_length; lia|lia|].
    intros He. apply Hn1. by replace 1 with (hdr_list h !!! i) by lia.
  - split_and!; [|lia|lia]. rewrite length_put32; rewrite dview_length by lia; unfold BSIZE; lia.
Qed.

(** The disk after recovery. *)
Lemma recovered :
  let d' := apply_writes R d in
  (forall b, 0 <= b -> dview d' b = apply_view R (dview d) b) /\
  bootable l d' /\ hdr_n (dview d' (l_start l)) = 0.
Proof.
  intros d'. assert (Hds : disksize d' = disksize d) by apply disksize_apply.
  pose proof HB as [Hb1 Hb2 Hb3 Hb4 Hb5 [_ Hb6] Hb7].
  assert (Hread : forall b, 0 <= b -> dview d' b = apply_view R (dview d) b).
  { intros b Hb. apply apply_writes_read; [|done]. intros w Hw. by apply recover_writes_ok. }
  assert (Hhd : hdr_n (dview d' (l_start l)) = 0).
  { rewrite Hread by lia. unfold recover_writes.
    rewrite apply_view_snoc. cbn [fst snd]. rewrite Z2Nat.id, fn_lookup_insert by lia.
    unfold hdr_n. rewrite get32_put32_same; [done|]. rewrite dview_length by lia. unfold BSIZE. lia. }
  split_and!; [done| |done]. split; unfold home; rewrite ?Hds; try done.
  - apply apply_writes_lengths; [done|]. apply Forall_forall. intros w Hw. by apply recover_writes_ok.
  - change (read_block d' 1) with (dview d' 1). rewrite Hread, apply_view_notin by lia || (intros w Hw; by apply recover_writes_ok).
    done.
  - unfold hdr_fits. change (read_block _ _) with (dview d' (l_start l)). rewrite Hhd, hdr_list_empty by done.
    split; [by vm_compute|]. eapply fits_nil, fits_sub; [done|]. apply disksize_apply.
  - change (read_block _ _) with (dview d' (l_start l)). rewrite hdr_list_empty by done.
    by intros ?%elem_of_nil.
Qed.

Lemma restart_idle :
  exists s, restart me d = Ret tt s /\ same_geom l (lg s) /\ dk (bc s) = apply_writes R d /\
    idle (lg s) (bc s) (apply_writes R d).
Proof.
  destruct (restart_after me l d [] HB) as (s & Hr & Hst & Hsz & Hdev & Hlk & Ho & Hc & Hn & Hlen & HA).
  { constructor. }
  { by intros w ?%elem_of_nil. }
  { apply (boot_hdr l d HB). }
  exists s. split; [exact Hr|]. clear Hr. destruct recovered as (Hread & HB' & Hh').
  assert (HG : same_geom l (lg s)).
  { pose proof (boot_hdr l d HB) as [_ []]. split_and!; congruence. }
  split_and!; [done|apply (abs_dk _ _ _ _ _ _ HA)|]. split; try done.
  - eapply abs_ext; [|exact HA]. intros b Hb. by rewrite Hread.
  - by apply (bootable_geom l).
  - by rewrite Hst.
Qed.

(** Replaying a part of the log before replaying it all makes no difference. *)
Lemma replay_twice k b :
  home l d b ->
  apply_view (take k (home_writes (l_start l) (dview d) (hdr_list h) (length (hdr_list h))) ++ R)
    (dview d) b = apply_view R (dview d) b.
Proof.
  set (HW := home_writes _ _ _ _). intros [Hb Hout].
  pose proof HB as [_ _ _ Har _ [_ HF] _]. fold h in HF. destruct HF as [_ _ _ _ _ Hnd Hh].
  assert (Hsub : forall w, w ∈ take k HW -> w ∈ HW).
  { intros w (j & Hj & _)%elem_of_take. by eapply list_elem_of_lookup_2. }
  assert (HR : forall w, w ∈ take k HW ++ R -> Z.of_nat (fst w) = b -> exists i,
    (i < length (hdr_list h))%nat /\ hdr_list h !!! i = b /\ snd w = dview d (l_start l + Z.of_nat i + 1)).
  { intros w Hw He. assert (Hw' : w ∈ R).
    { apply elem_of_app in Hw as [Hw|]; [|done]. apply elem_of_app. auto. }
    apply recover_writes_elem in Hw' as [(i & Hi & ->)| ->]; cbn in He; [|lia].
    exists i. split_and!; [done| |done]. pose proof (Hh _ (total_elem _ i Hi)). lia. }
  destruct (decide (b ∈ hdr_list h)) as [(i & Hi & Hib)%list_elem_of_lookup_total|Hnin].
  - assert (Hex : exists w, w ∈ R /\ Z.of_nat (fst w) = b).
    { exists (Z.to_nat (hdr_list h !!! i), dview d (l_start l + Z.of_nat i + 1)). split; [|cbn; lia].
      apply elem_of_app. left. apply elem_home_writes. by exists i. }
    assert (Hval : forall w, w ∈ take k HW ++ R -> Z.of_nat (fst w) = b ->
      snd w = dview d (l_start l + Z.of_nat i + 1)).
    { intros w Hw He. destruct (HR w Hw He) as (j & Hj & Hjb & ->).
      by rewrite (total_inj (hdr_list h) i j) by (done || congruence). }
    rewrite (apply_view_const R (dview d) b (dview d (l_start l + Z.of_nat i + 1))).
    + apply apply_view_const; [done|]. left. destruct Hex as (w & ? & ?). exists w.
      split; [apply elem_of_app; by right|done].
    + intros w Hw. apply Hval. apply elem_of_app. by right.
    + by left.
  - rewrite !apply_view_notin; [done|..]; intros w Hw He;
      destruct (HR w) as (i & Hi & <- & _); try done; try (apply elem_of_app; by right);
      by apply Hnin, total_elem.
Qed.

End start.

(** A crash after [k] writes of the recovery. *)
Lemma recovery_crash l d k :
  bootable l d ->
  let R := recover_writes (l_start l) (dview d) in
  exists s, restart me (apply_writes (take k R) d) = Ret tt s /\
    forall b, home l d b -> view (bc s) b = dview (apply_writes R d) b.
Proof.
  intros HB R. destruct (recovered HB) as (Hread & HB' & Hh'). fold R in Hread, HB', Hh'.
  pose proof HB as [_ _ _ Har _ [Hn HF] _]. set (h := dview d (l_start l)).
  change (read_block _ _) with h in HF, Hn.
  set (HW := home_writes (l_start l) (dview d) (hdr_list h) (length (hdr_list h))).
  assert (HlenW : length HW = length (hdr_list h)) by (unfold HW, home_writes; by rewrite length_map, length_seq).
  assert (Hok : forall w, w ∈ take k R -> (length (snd w) = BSIZE /\ Z.of_nat (fst w) < disksize d) /\
    Z.of_nat (fst w) <> 1).
  { intros w (j & Hj & _)%elem_of_take. by eapply (recover_writes_ok HB), list_elem_of_lookup_2. }
  assert (HF0 : hdr_n h = 0 -> fits l [] d) by (intros; by eapply fits_nil).
  destruct (decide (k <= length HW)%nat) as [Hk|Hk].
  - assert (Hkeep : forall b, l_start l <= b < l_start l + l_size l ->
      apply_view (take k R) (dview d) b = dview d b).
    { intros b Hb. apply apply_view_notin. unfold R, recover_writes. fold h HW. rewrite take_app_le by done.
      intros w (j & (i & Hi & ->)%list_elem_of_lookup_2%elem_home_writes & _)%elem_of_take. cbn.
      pose proof (fits_home _ _ _ HF _ (total_elem _ i Hi)). lia. }
    destruct HF as [? ? ? ? [? ?] ? ?].
    destruct (restart_after me l d (take k R) HB) as (s & Hr & _ & _ & _ & _ & _ & _ & _ & _ & HA).
    { apply Forall_forall. intros w Hw. by apply Hok. }
    { intros w Hw. by apply Hok. }
    { rewrite Hkeep by lia. by split. }
    exists s. split; [exact Hr|]. clear Hr. intros b Hb. rewrite (abs_view _ _ _ _ _ _ HA) by (destruct Hb; lia).
    rewrite Hread by (destruct Hb; lia). rewrite <- apply_view_app.
    replace (recover_writes (l_start l) (apply_view (take k R) (dview d))) with R.
    { pose proof (replay_twice HB k b Hb) as Hrt. fold R h HW in Hrt. rewrite <- Hrt. unfold R at 1, recover_writes at 1. fold h HW.
      by rewrite take_app_le by done. }
    unfold R at 1, recover_writes, home_writes. rewrite Hkeep by lia. fold h. f_equal.
    apply map_ext_in. intros i Hi%list_elem_of_In%elem_of_seq. by rewrite Hkeep by lia.
  - rewrite (take_ge R) by (unfold R, recover_writes; fold h HW; rewrite length_app; cbn; lia).
    destruct (restart_idle HB') as (s & Hr & _ & _ & HI). destruct (recovered HB') as (Hread2 & _).
    exists s. split; [exact Hr|]. clear Hr. intros b Hb.
    rewrite (abs_view _ _ _ _ _ _ (idle_abs _ _ _ HI)), Hread2 by (destruct Hb; lia).
    unfold recover_writes. rewrite hdr_list_empty by done. apply apply_view_notin.
    intros w ->%list_elem_of_singleton. destruct Hb. cbn. lia.
Qed.

(** Two states agree on all blocks outside the log. *)
Definition same_files (l : log) (d : disk) (s s' : lstate) : Prop :=
  forall b, home l d b -> view (bc s') b = view (bc s) b.

(** C1: Crash safety of the log.  Take any disk [mkfs] or the kernel may leave, start the
    kernel on it, and run any sequence of transactions [ts] (each a list of whole-block
    updates between [begin_op] and [end_op], of at most [MAXOPBLOCKS] blocks).  They all
    succeed, and [Ws] lists the disk writes each of them makes.  If the machine stops after
    any number [k] of these writes, restarting it succeeds and every block outside the log
    has the contents it had after the first [j] transactions, for some [j]: no transaction is
    ever half there.  And [j] counts every transaction whose writes were all done: a
    transaction that has ended is durable. *)
Theorem crash_safe l d ts :
  bootable l d -> LOGSIZE <= l_size l -> Forall (txn_ok l d) ts ->
  exists s0 Ws, restart me d = Ret tt s0 /\ length Ws = length ts /\
    (forall m, (m <= length ts)%nat -> exists s, txns (take m ts) s0 = Ret tt s /\
       dk (bc s) = apply_writes (concat (take m Ws)) (dk (bc s0)) /\ lh_n (l_lh (lg s)) = 0) /\
    forall k, exists s j, restart me (apply_writes (take k (concat Ws)) (dk (bc s0))) = Ret tt s /\
      (j <= length ts)%nat /\
      (forall m, (m <= length ts)%nat -> (length (concat (take m Ws)) <= k)%nat -> (m <= j)%nat) /\
      forall b, home l d b -> view (bc s) b = effects (take j ts) (view (bc s0)) b.
Proof.
  intros HB Hsize Hts. destruct (restart_idle HB) as ([l0 c0] & Hr & HG & Hdk & HI). cbn [lg bc] in *.
  assert (Hds : disksize (dk c0) = disksize d) by (rewrite Hdk; apply disksize_apply).
  rewrite <- Hdk in HI.
  destruct (txns_run ts l0 c0 (dk c0) HI) as (Ws & Hlen & Hrun & Hrec).
  { destruct HG as (_ & -> & _). done. }
  { eapply Forall_impl; [exact Hts|]. intros t Ht. by apply (txn_ok_geom l l0 d). }
  exists (MkL l0 c0), Ws. split; [exact Hr|]. clear Hr. split_and!; [done|exact Hrun|].
  intros k. destruct (Hrec k) as (s & j & Hr & Hj & Hm & Hv). exists s, j.
  split; [exact Hr|]. clear Hr. split_and!; [done..|]. intros b Hb. cbn [bc].
  rewrite Hv by (by apply (home_geom l l0 d)). apply (effects_ext _ _ _ l d); [|intros b' Hb'|done].
  - intros t (i & Hi & _)%elem_of_take. rewrite Forall_forall in Hts.
    by destruct (Hts t) as [_ ?]; [eapply list_elem_of_lookup_2|].
  - symmetry. apply (abs_view _ _ _ _ _ _ (idle_abs _ _ _ HI)). destruct Hb'. lia.
Qed.

(** C4: Recovery can itself be interrupted.  Starting the kernel on a bootable disk writes
    the log's blocks home and clears the header ([ws] are these writes); if it stops after
    any number of them and starts again, the blocks outside the log end up as if it had not
    stopped. *)
Theorem recovery_idempotent l d :
  bootable l d ->
  exists s ws, restart me d = Ret tt s /\ dk (bc s) = apply_writes ws d /\
    forall k, exists s', restart me (apply_writes (take k ws) d) = Ret tt s' /\ same_files l d s s'.
Proof.
  intros HB. destruct (restart_idle HB) as (s & Hr & _ & Hdk & HI).
  exists s, (recover_writes (l_start l) (dview d)). split; [exact Hr|]. clear Hr. split; [done|].
  intros k. destruct (recovery_crash l d k HB) as (s' & Hr & Hs). exists s'. split; [exact Hr|]. clear Hr.
  intros b Hb. rewrite Hs by done. symmetry. apply (abs_view _ _ _ _ _ _ (idle_abs _ _ _ HI)).
  destruct Hb. lia.
Qed.
End txn.

(** A small disk: 40 blocks, a log of 30 blocks at block 2, and a committed transaction of
    one block (number 35) that has not been installed. *)
Definition small_sb : list Z :=
  put32 (put32 (replicate BSIZE 0) 12 30) 16 2.
Definition small_disk : disk :=
  MkDisk (replicate BSIZE 0 :: small_sb ::
    put32 (put32 (replicate BSIZE 0) 0 1) 4 35 :: replicate 37 (replicate BSIZE 7)) [].
Definition small_log : log := MkLog false 2 30 0 0 1 (MkLh 0 (replicate 30 0)).

Lemma small_bootable : bootable small_log small_disk.
Proof.
  assert (Hl : hdr_list (read_block small_disk 2) = [35]) by reflexivity.
  split; [| | | | |change (Z.to_nat (l_start small_log)) with 2%nat..].
  - do 3 (apply Forall_cons; split; [reflexivity|]). by apply Forall_replicate.
  - by vm_compute.
  - unfold home. cbn. unfold disksize. cbn. lia.
  - unfold disksize. cbn. lia.
  - unfold disksize. cbn. lia.
  - unfold hdr_fits. rewrite Hl. change (hdr_n (read_block small_disk 2)) with 1.
    split; [by vm_compute|]. split.
    1, 2: reflexivity. 1-3: unfold disksize, LOGSIZE, MAXOPBLOCKS; cbn; lia.
    + apply NoDup_singleton.
    + intros b ->%list_elem_of_singleton. unfold disksize. cbn. lia.
  - rewrite Hl. set_solver.
Qed.

Definition small_txns : list (list (Z * list Z)) :=
  [[(36, replicate BSIZE 1); (37, replicate BSIZE 2)]; [(36, replicate BSIZE 3)]].

Lemma crash_safe_witness :
  exists s0 (Ws : list (list (nat * list Z))), restart 5 small_disk = Ret tt s0 /\
    length Ws = 2%nat.
Proof.
  destruct (crash_safe 5 small_log small_disk small_txns small_bootable) as (s0 & Ws & Hr & Hl & _).
  - by vm_compute.
  - repeat constructor; try (by vm_compute); unfold disksize; cbn; lia.
  - exists s0, Ws. split; [exact Hr|exact Hl].
Defined.

Lemma recovery_idempotent_witness :
  exists s ws, restart 5 small_disk = Ret tt s /\ dk (bc s) = apply_writes ws small_disk.
Proof.
  destruct (recovery_idempotent 5 small_log small_disk small_bootable) as (s & ws & Hr & Hd & _).
  exists s, ws. split; [exact Hr|exact Hd].
Defined.
End Txn.

(** ** The reservation of log space *)
Module Reserve.
Import Disk Bio Log Commit.

(** Several processes in system calls: the kernel's state, for each system call that is
    between its [begin_op] and its [end_op] the number of its [log_write]s so far, and whether
    some process is about to run, or running, the commit. *)
Record sys := MkSys { st : lstate; act : list Z; pend : bool }.

Section steps.
Variable me : Z.

Inductive step : sys -> sys -> Prop :=
| step_begin s a p s' : begin_op s = Ret tt s' -> step (MkSys s a p) (MkSys s' (0 :: a) p)
| step_wait s a p ch s' : begin_op s = Sleep ch s' -> step (MkSys s a p) (MkSys s' a p)
| step_write s a1 u a2 p i s' :
    u < MAXOPBLOCKS -> log_write i s = Ret tt s' ->
    step (MkSys s (a1 ++ u :: a2) p) (MkSys s' (a1 ++ (u + 1) :: a2) p)
| step_cache s a p {A} (m : M bcache A) x s' :
    cache m s = Ret x s' -> step (MkSys s a p) (MkSys s' a p)
| step_leave s a1 u a2 p dc s' :
    end_op_leave s = Ret dc s' -> step (MkSys s (a1 ++ u :: a2) p) (MkSys s' (a1 ++ a2) (dc || p))
| step_commit s a s' :
    end_op_commit me s = Ret tt s' -> step (MkSys s a true) (MkSys s' a false).

(** The log blocks the active system calls may still use. *)
Definition budget (a : list Z) : Z := foldr (fun u t => (MAXOPBLOCKS - u) + t) 0 a.

Lemma budget_app a b : budget (a ++ b) = budget a + budget b.
Proof. induction a as [|u a IH]; [done|]. cbn [app budget foldr]. fold (budget (a ++ b)) (budget a). lia. Qed.

Record inv (size : Z) (s : sys) : Prop := MkInv {
  inv_lock : l_lock (lg (st s)) = false;
  inv_size : l_size (lg (st s)) = size;
  inv_len : length (lh_block (l_lh (lg (st s)))) = Z.to_nat LOGSIZE;
  inv_out : l_outstanding (lg (st s)) = Z.of_nat (length (act s));
  inv_committing : l_committing (lg (st s)) = if pend s then 1 else 0;
  inv_pend : pend s = true -> act s = [];
  inv_used : Forall (fun u => 0 <= u <= MAXOPBLOCKS) (act s);
  inv_n : 0 <= lh_n (l_lh (lg (st s))) /\
          lh_n (l_lh (lg (st s))) + budget (act s) <= LOGSIZE
}.

Lemma budget_nonneg a : Forall (fun u => 0 <= u <= MAXOPBLOCKS) a -> 0 <= budget a <= MAXOPBLOCKS * Z.of_nat (length a).
Proof.
  induction 1 as [|u a Hu _ IH]; [cbn; lia|]. cbn [budget foldr length]. fold (budget a). lia.
Qed.

Lemma begin_op_cases l c :
  l_lock l = false ->
  begin_op (MkL l c) =
    if negb (l_committing l =? 0) || (LOGSIZE <? lh_n (l_lh l) + (l_outstanding l + 1) * MAXOPBLOCKS)
    then Sleep log_chan (MkL l c)
    else Ret tt (MkL (set_outstanding (l_outstanding l + 1) l) c).
Proof.
  intros Hl. unfold begin_op. rewrite log_lock_acquire_bind, lg_bind by done.
  cbn [set_lock l_committing l_lh l_outstanding].
  destruct (negb (l_committing l =? 0)); cbn [orb].
  { rewrite log_lock_release_bind by done. destruct l. cbn in *. by subst. }
  destruct (LOGSIZE <? _).
  { rewrite log_lock_release_bind by done. destruct l. cbn in *. by subst. }
  change (bind (upd ?f) ?k (MkL ?l c)) with (k tt (MkL (f l) c)). cbv beta.
  rewrite log_lock_release by done. destruct l. cbn in *. by subst.
Qed.

Lemma end_op_leave_cases l c :
  l_lock l = false ->
  end_op_leave (MkL l c) =
    if negb (l_committing l =? 0) then Panic "log.committing" else
    let l' := set_outstanding (l_outstanding l - 1) l in
    if l_outstanding l - 1 =? 0 then Ret true (MkL (set_committing 1 l') c)
    else Ret false (MkL l' c).
Proof.
  intros Hl. unfold end_op_leave. rewrite log_lock_acquire_bind by done.
  change (bind (upd ?f) ?k (MkL ?l c)) with (k tt (MkL (f l) c)). cbv beta.
  rewrite lg_bind. cbn [set_lock set_outstanding l_committing l_outstanding].
  destruct (negb (l_committing l =? 0)); [done|]. cbv zeta.
  destruct (l_outstanding l - 1 =? 0); cbn [when].
  - change (bind (upd ?f) ?k (MkL ?l c)) with (k tt (MkL (f l) c)). cbv beta.
    rewrite log_lock_release_bind by done. destruct l. cbn in *. by subst.
  - change (bind (ret tt) ?k ?s) with (k tt s). cbv beta.
    rewrite log_lock_release_bind by done. destruct l. cbn in *. by subst.
Qed.

Lemma log_find_range l b cnt : forall i, (i <= log_find l b i cnt <= i + cnt)%nat.
Proof.
  induction cnt as [|cnt IH]; intros i; cbn [log_find]; [lia|].
  destruct (_ =? _); [lia|]. specialize (IH (S i)). lia.
Qed.

(** [log_write] with room in the log. *)
Lemma log_write_cases l c i :
  l_lock l = false -> 1 <= l_outstanding l -> length (lh_block (l_lh l)) = Z.to_nat LOGSIZE ->
  0 <= lh_n (l_lh l) < LOGSIZE -> lh_n (l_lh l) < l_size l - 1 ->
  exists h c', log_write i (MkL l c) = Ret tt (MkL (with_lh h l) c') /\
    length (lh_block h) = Z.to_nat LOGSIZE /\
    (lh_n h = lh_n (l_lh l) \/ lh_n h = lh_n (l_lh l) + 1).
Proof.
  intros Hl Ho Hlen Hn Hsz. unfold log_write. rewrite lg_bind.
  destruct (Z.leb_spec LOGSIZE (lh_n (l_lh l))); [lia|].
  destruct (Z.leb_spec (l_size l - 1) (lh_n (l_lh l))); [lia|]. cbn [orb].
  destruct (Z.ltb_spec (l_outstanding l) 1); [lia|].
  rewrite log_lock_acquire_bind by done.
  rewrite (cache_bind (reads (fun s => getb s i)) _ _ _ (getb c i) c eq_refl), lg_bind.
  change (l_lh (set_lock true l)) with (l_lh l).
  set (k := log_find _ _ _ _). set (bn := i32 _).
  pose proof (log_find_range (set_lock true l) (blockno (getb c i)) (Z.to_nat (lh_n (l_lh l))) 0).
  fold k in H2. rewrite put_block_bind by (cbn; lia).
  destruct (Z.eqb_spec (Z.of_nat k) (lh_n (l_lh l))) as [_|_]; cbn [when].
  - change (bind (upd ?f) ?k (MkL ?l c)) with (k tt (MkL (f l) c)). cbv beta.
    rewrite (cache_bind (upd_buf i _) _ _ _ tt _ eq_refl), log_lock_release by done.
    eexists (MkLh (lh_n (l_lh l) + 1) (<[k := bn]> (lh_block (l_lh l)))), _.
    split_and!; [|by cbn; rewrite length_insert|by right]. unfold with_lh. by rewrite <- Hl.
  - change (bind (ret tt) ?k ?s) with (k tt s). cbv beta.
    rewrite (cache_bind (upd_buf i _) _ _ _ tt _ eq_refl), log_lock_release by done.
    eexists (MkLh (lh_n (l_lh l)) (<[k := bn]> (lh_block (l_lh l)))), _.
    split_and!; [|by cbn; rewrite length_insert|by left]. unfold with_lh. by rewrite <- Hl.
Qed.

(** Code that works on the cache only leaves [log] alone. *)
Definition same_lg (s s' : lstate) : Prop := lg s' = lg s.
#[local] Instance same_lg_preorder : PreOrder same_lg.
Proof. split; [done|]. intros x y z. unfold same_lg. congruence. Qed.

Lemma keeps_cache {A} (m : M bcache A) : keeps same_lg (cache m).
Proof. by apply keeps_zoom. Qed.
Lemma keeps_get_block i : keeps same_lg (get_block i).
Proof. unfold get_block. keep. Qed.
#[local] Hint Resolve keeps_cache keeps_get_block : keeps.

Lemma keeps_write_log : keeps same_lg (write_log me).
Proof. unfold write_log, write_log_body. keep. Qed.
Lemma keeps_install : keeps same_lg (install_trans me).
Proof. unfold install_trans, install_trans_body. keep. Qed.
Lemma keeps_write_head : keeps same_lg (write_head me).
Proof. unfold write_head. keep. Qed.

Lemma commit_lg s s' : 0 <= lh_n (l_lh (lg s)) -> commit me s = Ret tt s' -> lg s' = set_n 0 (lg s).
Proof.
  intros Hn. unfold commit. intros (l & s1 & [= <- <-] & H)%bind_inv. revert H.
  destruct (Z.ltb_spec 0 (lh_n (l_lh (lg s)))) as [Hp|Hp]; cbn [when].
  - intros ([] & s1 & H1 & H)%bind_inv. apply bind_inv in H as ([] & s2 & H2 & H).
    apply bind_inv in H as ([] & s3 & H3 & H). apply bind_inv in H as ([] & s4 & [= <-] & H4).
    apply keeps_write_log in H1. apply keeps_write_head in H2. apply keeps_install in H3.
    apply keeps_write_head in H4. unfold same_lg in *. rewrite H4. cbn. congruence.
  - intros [= <-]. destruct s as [[? ? ? ? ? ? [n b]] ?]. cbn in *. by replace n with 0 by lia.
Qed.

Lemma reserve_step_inv size s s' : LOGSIZE < size -> inv size s -> step s s' -> inv size s'.
Proof.
  intros Hsz [Hl Hs Hlen Ho Hc Hp Hu [Hn0 Hn]] Hstep.
  pose proof (budget_nonneg _ Hu) as Hb.
  destruct Hstep as [s a p s' H|s a p ch s' H|s a1 u a2 p i s' Hu1 H|s a p A m x s' H
    |s a1 u a2 p dc s' H|s a s' H]; destruct s as [l c]; cbn [st act pend lg] in *.
  - rewrite begin_op_cases in H by done. destruct (negb _) eqn:E1; [done|].
    destruct (Z.ltb_spec LOGSIZE (lh_n (l_lh l) + (l_outstanding l + 1) * MAXOPBLOCKS)); [done|].
    injection H as <-. split; cbn [st act pend lg set_outstanding l_lock l_size l_lh l_outstanding l_committing length]; try done.
    + lia.
    + intros Hp'. rewrite Hp' in Hc. by rewrite Hc in E1.
    + constructor; [unfold MAXOPBLOCKS; lia|done].
    + cbn [budget foldr]. fold (budget a). unfold LOGSIZE, MAXOPBLOCKS in *. lia.
  - rewrite begin_op_cases in H by done. destruct (_ || _); [|done]. injection H as _ <-. by split.
  - apply Forall_app in Hu as [Hu2 [Hu3 Hu4]%Forall_cons]. rewrite budget_app in *.
    cbn [budget foldr] in *. fold (budget a2) in *. rewrite length_app in *. cbn [length] in *.
    pose proof (budget_nonneg _ Hu2). pose proof (budget_nonneg _ Hu4).
    destruct (log_write_cases l c i) as (h & c' & Hw & Hlen' & Hn'); [done|lia|done|lia|lia|].
    rewrite Hw in H. injection H as <-. split; cbn [st act pend lg with_lh l_lock l_size l_lh l_outstanding l_committing]; try done.
    + rewrite length_app. done.
    + intros Hp'. by apply Hp, app_nil in Hp' as [? ?].
    + apply Forall_app. split; [done|]. constructor; [lia|done].
    + rewrite budget_app. cbn [budget foldr]. fold (budget a2). lia.
  - apply keeps_cache in H. unfold same_lg in H. split; cbn [st act pend]; rewrite ?H; done.
  - rewrite end_op_leave_cases in H by done. destruct (negb _) eqn:E1; [done|]. b2p.
    apply Forall_app in Hu as [Hu2 [Hu3 Hu4]%Forall_cons]. rewrite budget_app in *.
    cbn [budget foldr] in *. fold (budget a2) in *. rewrite length_app in *. cbn [length] in *.
    assert (p = false) as -> by (destruct p; congruence). revert H. cbv zeta.
    assert (Hl12 : length (a1 ++ a2) = (length a1 + length a2)%nat) by apply length_app.
    assert (Forall (fun u => 0 <= u <= MAXOPBLOCKS) (a1 ++ a2)) by (by apply Forall_app).
    destruct (Z.eqb_spec (l_outstanding l - 1) 0) as [E|E]; intros [= <- <-];
      (split; cbn [st act pend orb lg set_committing set_outstanding l_lock l_size l_lh l_outstanding l_committing]; try done;
       rewrite ?Hl12, ?budget_app; try lia).
    intros _. apply length_zero_iff_nil. lia.
  - unfold end_op_commit in H. apply bind_inv in H as ([] & [l1 c1] & H1 & H).
    apply commit_lg in H1; [|done]. cbn [lg] in H1. subst l1.
    rewrite log_lock_acquire_bind in H by done.
    change (bind (upd ?f) ?k (MkL ?l c1)) with (k tt (MkL (f l) c1)) in H. cbv beta in H.
    rewrite log_lock_release in H by done. injection H as <-.
    split; cbn [st act pend lg set_committing set_lock set_n l_lock l_size l_lh lh_n lh_block l_outstanding l_committing]; try done.
    split; [done|]. lia.
Qed.

(** An empty log that nobody uses. *)
Definition unused (s : lstate) : Prop :=
  l_lock (lg s) = false /\ l_outstanding (lg s) = 0 /\ l_committing (lg s) = 0 /\
  lh_n (l_lh (lg s)) = 0 /\ length (lh_block (l_lh (lg s))) = Z.to_nat LOGSIZE.

Lemma reserve_reachable_inv s0 s :
  unused s0 -> LOGSIZE < l_size (lg s0) -> rtc step (MkSys s0 [] false) s ->
  inv (l_size (lg s0)) s.
Proof.
  intros (H1 & H2 & H3 & H4 & H5) Hsz Hr.
  assert (H0 : inv (l_size (lg s0)) (MkSys s0 [] false)).
  { split; cbn; rewrite ?H4; done. }
  clear H1 H2 H3 H4 H5. remember (MkSys s0 [] false) as x eqn:E. clear E.
  induction Hr as [|x y z Hxy _ IH]; [done|]. by eapply IH, reserve_step_inv.
Qed.

End steps.

(** The cache with a different block in each buffer. *)
Definition busy_cache : bcache :=
  MkBc false (map (fun i => set_blockno (100 + Z.of_nat i) (set_dev 1 zero_buf)) (seq 0 (S NBUF)))
    (MkDisk [] []).

Definition roomy_log : log := MkLog false 2 31 0 0 1 (MkLh 0 (replicate 30 0)).


(** What the first system call writes, then the second, then the third. *)
Fixpoint log_writes_of (bs : list nat) : M lstate unit :=
  match bs with
  | [] => ret tt
  | b :: bs' => log_write b ;;; log_writes_of bs'
  end.

End Reserve.
