(* ===== verification/Fs.v ===== *)
(** The file system ([fs.c], [fs.h], [file.h]).

    [Class Blocks] is what [fs.c] uses of the block layer below it: [bread], the data of a
    locked buffer, [log_write] and [brelse]; the instance at the end is the log over the
    buffer cache.  [Module Fs] has every function of [fs.c]: the block allocator, the inode
    cache, file contents, directories and paths.  What the functions promise is in
    [FsSpec.v]. *)

From S2P Require Import Prelude Params Bytes Sleeplock Bio Log.

(** The block layer: [bread(dev, b)] returns a locked buffer. *)
Class Blocks (W : Type) := MkBlocks {
  bread : Z -> Z -> M W nat;
  bdata : nat -> M W (list Z);
  bset : nat -> list Z -> M W unit;
  log_write : nat -> M W unit;
  brelse : nat -> M W unit
}.

(** The log over the buffer cache, for the process [me]. *)
Definition log_blocks (me : Z) : Blocks Log.lstate := {|
  bread := fun dev b => Log.cache (Bio.bread me dev b);
  bdata := fun i => Log.cache (Bio.read_data i);
  bset := fun i x => Log.cache (Bio.write_data i x);
  log_write := Log.log_write;
  brelse := fun i => Log.cache (Bio.brelse me i)
|}.

Module Fs.
Import SleepLock.

(** [struct inode]. *)
Record inode := MkInode {
  dev : Z; inum : Z; ref : Z; lock : sleeplock; valid : Z;
  type : Z; major : Z; minor : Z; nlink : Z; size : Z; addrs : list Z
}.
Definition zero_inode : inode := MkInode 0 0 0 initsleeplock 0 0 0 0 0 0 (replicate (S NDIRECT) 0).
#[global] Instance inode_inhabited : Inhabited inode := populate zero_inode.

Definition set_ident (d n : Z) (i : inode) : inode :=
  MkInode d n (ref i) (lock i) (valid i) (type i) (major i) (minor i) (nlink i) (size i) (addrs i).
Definition set_ref (x : Z) (i : inode) : inode :=
  MkInode (dev i) (inum i) x (lock i) (valid i) (type i) (major i) (minor i) (nlink i) (size i) (addrs i).
Definition set_lock (x : sleeplock) (i : inode) : inode :=
  MkInode (dev i) (inum i) (ref i) x (valid i) (type i) (major i) (minor i) (nlink i) (size i) (addrs i).
Definition set_valid (x : Z) (i : inode) : inode :=
  MkInode (dev i) (inum i) (ref i) (lock i) x (type i) (major i) (minor i) (nlink i) (size i) (addrs i).
Definition set_type (x : Z) (i : inode) : inode :=
  MkInode (dev i) (inum i) (ref i) (lock i) (valid i) x (major i) (minor i) (nlink i) (size i) (addrs i).
Definition set_major (x : Z) (i : inode) : inode :=
  MkInode (dev i) (inum i) (ref i) (lock i) (valid i) (type i) x (minor i) (nlink i) (size i) (addrs i).
Definition set_minor (x : Z) (i : inode) : inode :=
  MkInode (dev i) (inum i) (ref i) (lock i) (valid i) (type i) (major i) x (nlink i) (size i) (addrs i).
Definition set_nlink (x : Z) (i : inode) : inode :=
  MkInode (dev i) (inum i) (ref i) (lock i) (valid i) (type i) (major i) (minor i) x (size i) (addrs i).
Definition set_size (x : Z) (i : inode) : inode :=
  MkInode (dev i) (inum i) (ref i) (lock i) (valid i) (type i) (major i) (minor i) (nlink i) x (addrs i).
Definition set_addrs (x : list Z) (i : inode) : inode :=
  MkInode (dev i) (inum i) (ref i) (lock i) (valid i) (type i) (major i) (minor i) (nlink i) (size i) x.

(** [struct dinode] in a block's bytes, at the offset of inode [n]. *)
Record dinode := MkDinode {
  d_type : Z; d_major : Z; d_minor : Z; d_nlink : Z; d_size : Z; d_addrs : list Z
}.
Definition dino_off (n : Z) : nat := Z.to_nat (n mod IPB) * sizeof_dinode.
Definition get_dinode (b : list Z) (n : Z) : dinode :=
  let o := dino_off n in
  MkDinode (i16 (get16 b o)) (i16 (get16 b (o + 2))) (i16 (get16 b (o + 4))) (i16 (get16 b (o + 6)))
    (get32 b (o + 8)) (map (fun j => get32 b (o + 12 + 4 * j)) (seq 0 (S NDIRECT))).
Definition dinode_bytes (d : dinode) : list Z :=
  le_bytes 2 (d_type d) ++ le_bytes 2 (d_major d) ++ le_bytes 2 (d_minor d) ++ le_bytes 2 (d_nlink d) ++
  le_bytes 4 (d_size d) ++ concat (map (le_bytes 4) (d_addrs d)).
Definition put_dinode (b : list Z) (n : Z) (d : dinode) : list Z := put_bytes b (dino_off n) (dinode_bytes d).

Section fs.
Context {W : Type} `{!Blocks W}.

(** The kernel as the file system sees it: the super block, the inode cache, the running
    process's current directory, and the blocks. *)
Record fs := MkFs { sb : superblock; ic_lock : Klock.t; inodes : list inode; cwd : nat; blk : W }.

Definition geti (s : fs) (i : nat) : inode := inodes s !!! i.
Definition upd (i : nat) (f : inode -> inode) : M fs unit := modify (fun s =>
  MkFs (sb s) (ic_lock s) (alter f i (inodes s)) (cwd s) (blk s)).
Definition set_sb (x : superblock) (s : fs) : fs := MkFs x (ic_lock s) (inodes s) (cwd s) (blk s).
Definition icache_lock (m : M Klock.t unit) : M fs unit :=
  zoom ic_lock (fun k s => MkFs (sb s) k (inodes s) (cwd s) (blk s)) m.
Definition blocks {A} (m : M W A) : M fs A :=
  zoom blk (fun b s => MkFs (sb s) (ic_lock s) (inodes s) (cwd s) b) m.
Definition on_lock {A} (i : nat) (m : M sleeplock A) : M fs A :=
  zoom (fun s => lock (geti s i))
    (fun l s => MkFs (sb s) (ic_lock s) (alter (set_lock l) i (inodes s)) (cwd s) (blk s)) m.
Definition inode_chan (i : nat) : chan := ("inode"%string, i).

(** The running process, and the devices ([devsw]): a device reads up to [n] bytes into a
    buffer and returns their number, and writes bytes. *)
Record devfun := MkDev {
  dev_read : option (nat -> Z -> M fs (Z * list Z));
  dev_write : option (nat -> list Z -> Z -> M fs Z)
}.
Variable me : Z.
Variable devsw : Z -> devfun.

(** *** Blocks *)
Definition readsb (dv : Z) : M fs superblock :=
  bp <- blocks (bread dv 1) ;;
  d <- blocks (bdata bp) ;;
  blocks (brelse bp) ;;;
  ret (Log.sb_of d).

Definition bzero (dv bno : Z) : M fs unit :=
  bp <- blocks (bread dv bno) ;;
  blocks (bset bp (replicate BSIZE 0)) ;;;
  blocks (log_write bp) ;;;
  blocks (brelse bp).

(** Bit [bi] of a block of the bitmap. *)
Definition bit_mask (bi : Z) : Z := Z.shiftl 1 (bi mod 8).
Definition bit_byte (d : list Z) (bi : Z) : Z := d !!! Z.to_nat (bi / 8).

Definition balloc_bit (dv b : Z) (bp : nat) (n : nat) : M fs (option Z) :=
  let bi := Z.of_nat n in
  s <- reads sb ;;
  if negb (b + bi <? sb_size s) then ret None else
  d <- blocks (bdata bp) ;;
  if Z.land (bit_byte d bi) (bit_mask bi) =? 0 then
    blocks (bset bp (<[Z.to_nat (bi / 8) := u8 (Z.lor (bit_byte d bi) (bit_mask bi))]> d)) ;;;
    blocks (log_write bp) ;;;
    blocks (brelse bp) ;;;
    bzero dv (b + bi) ;;;
    ret (Some (b + bi))
  else ret None.
Definition balloc (dv : Z) : M fs Z :=
  s <- reads sb ;;
  r <- for_loop (fun j =>
    let b := Z.of_nat j * BPB in
    bp <- blocks (bread dv (BBLOCK b s)) ;;
    r <- for_loop (balloc_bit dv b bp) 0 (Z.to_nat BPB) ;;
    match r with
    | Some a => ret (Some a)
    | None => blocks (brelse bp) ;;; ret None
    end) 0 (Z.to_nat ((sb_size s + BPB - 1) / BPB)) ;;
  match r with
  | Some a => ret a
  | None => panic "balloc: out of blocks"
  end.

Definition bfree (dv b : Z) : M fs unit :=
  s <- reads sb ;;
  bp <- blocks (bread dv (BBLOCK b s)) ;;
  let bi := b mod BPB in
  d <- blocks (bdata bp) ;;
  if Z.land (bit_byte d bi) (bit_mask bi) =? 0 then panic "freeing free block" else
  blocks (bset bp (<[Z.to_nat (bi / 8) := u8 (Z.land (bit_byte d bi) (Z.lnot (bit_mask bi)))]> d)) ;;;
  blocks (log_write bp) ;;;
  blocks (brelse bp).

(** *** Inodes *)
Definition iinit (dv : Z) : M fs unit :=
  modify (fun s => MkFs (sb s) false (inodes s) (cwd s) (blk s)) ;;;
  for_loop (A := unit) (fun i => upd i (set_lock initsleeplock) ;;; ret None) 0 NINODE ;;;
  x <- readsb dv ;;
  modify (set_sb x).

(** The scan of [iget]: the cached entry, or else the first free one. *)
Fixpoint iget_scan (dv n : Z) (i cnt : nat) (empty : option nat) : M fs (nat + option nat) :=
  match cnt with
  | O => ret (inr empty)
  | S c =>
      x <- reads (fun s => geti s i) ;;
      if (0 <? ref x) && (dev x =? dv) && (inum x =? n) then
        upd i (set_ref (ref x + 1)) ;;;
        icache_lock Klock.release ;;;
        ret (inl i)
      else
        iget_scan dv n (S i) c
          (match empty with
           | None => if ref x =? 0 then Some i else None
           | Some e => Some e
           end)
  end.
Definition iget (dv n : Z) : M fs nat :=
  icache_lock Klock.acquire ;;;
  r <- iget_scan dv n 0 NINODE None ;;
  match r with
  | inl i => ret i
  | inr None => panic "iget: no inodes"
  | inr (Some i) =>
      upd i (set_ident dv n) ;;;
      upd i (set_ref 1) ;;;
      upd i (set_valid 0) ;;;
      icache_lock Klock.release ;;;
      ret i
  end.

Definition ialloc (dv ty : Z) : M fs nat :=
  s <- reads sb ;;
  r <- for_loop (fun j =>
    let n := Z.of_nat j in
    bp <- blocks (bread dv (IBLOCK n s)) ;;
    d <- blocks (bdata bp) ;;
    if d_type (get_dinode d n) =? 0 then
      blocks (bset bp (put_dinode d n (MkDinode ty 0 0 0 0 (replicate (S NDIRECT) 0)))) ;;;
      blocks (log_write bp) ;;;
      blocks (brelse bp) ;;;
      i <- iget dv n ;;
      ret (Some i)
    else blocks (brelse bp) ;;; ret None) 1 (Z.to_nat (sb_ninodes s - 1)) ;;
  match r with
  | Some i => ret i
  | None => panic "ialloc: no inodes"
  end.

Definition dinode_of (x : inode) : dinode :=
  MkDinode (type x) (major x) (minor x) (nlink x) (size x) (addrs x).
Definition iupdate (i : nat) : M fs unit :=
  s <- reads sb ;;
  x <- reads (fun s => geti s i) ;;
  bp <- blocks (bread (dev x) (IBLOCK (inum x) s)) ;;
  d <- blocks (bdata bp) ;;
  blocks (bset bp (put_dinode d (inum x) (dinode_of x))) ;;;
  blocks (log_write bp) ;;;
  blocks (brelse bp).

Definition idup (i : nat) : M fs nat :=
  icache_lock Klock.acquire ;;;
  upd i (fun x => set_ref (ref x + 1) x) ;;;
  icache_lock Klock.release ;;;
  ret i.

Definition load_dinode (d : dinode) (x : inode) : inode :=
  MkInode (dev x) (inum x) (ref x) (lock x) (valid x)
    (d_type d) (d_major d) (d_minor d) (d_nlink d) (d_size d) (d_addrs d).
Definition ilock (i : nat) : M fs unit :=
  x <- reads (fun s => geti s i) ;;
  if ref x <? 1 then panic "ilock" else
  on_lock i (acquiresleep (inode_chan i) me) ;;;
  x <- reads (fun s => geti s i) ;;
  when (valid x =? 0)
    (s <- reads sb ;;
     bp <- blocks (bread (dev x) (IBLOCK (inum x) s)) ;;
     d <- blocks (bdata bp) ;;
     upd i (load_dinode (get_dinode d (inum x))) ;;;
     blocks (brelse bp) ;;;
     upd i (set_valid 1) ;;;
     y <- reads (fun s => geti s i) ;;
     when (type y =? 0) (panic "ilock: no type")).

Definition iunlock (i : nat) : M fs unit :=
  h <- on_lock i (holdingsleep me) ;;
  x <- reads (fun s => geti s i) ;;
  if negb h || (ref x <? 1) then panic "iunlock" else
  on_lock i releasesleep.

(** *** Contents *)
Definition bmap (i : nat) (bn : Z) : M fs Z :=
  x <- reads (fun s => geti s i) ;;
  if bn <? Z.of_nat NDIRECT then
    let a := addrs x !!! Z.to_nat bn in
    if a =? 0 then
      b <- balloc (dev x) ;;
      upd i (fun y => set_addrs (<[Z.to_nat bn := b]> (addrs y)) y) ;;;
      ret b
    else ret a
  else
  let bn := bn - Z.of_nat NDIRECT in
  if bn <? Z.of_nat NINDIRECT then
    let a := addrs x !!! NDIRECT in
    ind <- (if a =? 0 then
              b <- balloc (dev x) ;;
              upd i (fun y => set_addrs (<[NDIRECT := b]> (addrs y)) y) ;;;
              ret b
            else ret a) ;;
    bp <- blocks (bread (dev x) ind) ;;
    d <- blocks (bdata bp) ;;
    let a := get32 d (4 * Z.to_nat bn) in
    r <- (if a =? 0 then
            b <- balloc (dev x) ;;
            blocks (bset bp (put32 d (4 * Z.to_nat bn) b)) ;;;
            blocks (log_write bp) ;;;
            ret b
          else ret a) ;;
    blocks (brelse bp) ;;;
    ret r
  else panic "bmap: out of range".

Definition itrunc (i : nat) : M fs unit :=
  for_loop (A := unit) (fun k =>
    x <- reads (fun s => geti s i) ;;
    when (negb (addrs x !!! k =? 0))
      (bfree (dev x) (addrs x !!! k) ;;;
       upd i (fun y => set_addrs (<[k := 0]> (addrs y)) y)) ;;;
    ret None) 0 NDIRECT ;;;
  x <- reads (fun s => geti s i) ;;
  when (negb (addrs x !!! NDIRECT =? 0))
    (bp <- blocks (bread (dev x) (addrs x !!! NDIRECT)) ;;
     for_loop (A := unit) (fun j =>
       d <- blocks (bdata bp) ;;
       when (negb (get32 d (4 * j) =? 0)) (bfree (dev x) (get32 d (4 * j))) ;;;
       ret None) 0 NINDIRECT ;;;
     blocks (brelse bp) ;;;
     bfree (dev x) (addrs x !!! NDIRECT) ;;;
     upd i (fun y => set_addrs (<[NDIRECT := 0]> (addrs y)) y)) ;;;
  upd i (set_size 0) ;;;
  iupdate i.

Definition iput (i : nat) : M fs unit :=
  on_lock i (acquiresleep (inode_chan i) me) ;;;
  x <- reads (fun s => geti s i) ;;
  when (negb (valid x =? 0) && (nlink x =? 0))
    (icache_lock Klock.acquire ;;;
     r <- reads (fun s => ref (geti s i)) ;;
     icache_lock Klock.release ;;;
     when (r =? 1)
       (itrunc i ;;;
        upd i (set_type 0) ;;;
        iupdate i ;;;
        upd i (set_valid 0))) ;;;
  on_lock i releasesleep ;;;
  icache_lock Klock.acquire ;;;
  upd i (fun x => set_ref (ref x - 1) x) ;;;
  icache_lock Klock.release.
Definition iunlockput (i : nat) : M fs unit := iunlock i ;;; iput i.

(** [struct stat]. *)
Record stat := MkStat { st_type : Z; st_dev : Z; st_ino : Z; st_nlink : Z; st_size : Z }.
Definition stati (i : nat) : M fs stat :=
  x <- reads (fun s => geti s i) ;;
  ret (MkStat (type x) (i32 (dev x)) (inum x) (nlink x) (size x)).

(** A loop that has run out of fuel; [readi] and [writei] make progress in each turn. *)
Definition no_fuel : string := "out of fuel".

Fixpoint readi_loop (fuel : nat) (i : nat) (tot off n : Z) : M fs (list Z) :=
  if negb (tot <? n) then ret [] else
  match fuel with
  | O => panic no_fuel
  | S fuel =>
      x <- reads (fun s => geti s i) ;;
      b <- bmap i (off / Z.of_nat BSIZE) ;;
      bp <- blocks (bread (dev x) b) ;;
      let m := Z.min (n - tot) (Z.of_nat BSIZE - off mod Z.of_nat BSIZE) in
      d <- blocks (bdata bp) ;;
      blocks (brelse bp) ;;;
      rest <- readi_loop fuel i (tot + m) (off + m) n ;;
      ret (get_bytes d (Z.to_nat (off mod Z.of_nat BSIZE)) (Z.to_nat m) ++ rest)
  end.
(** The number of bytes and the bytes. *)
Definition readi (i : nat) (off n : Z) : M fs (Z * list Z) :=
  x <- reads (fun s => geti s i) ;;
  if type x =? T_DEV then
    if (major x <? 0) || (NDEV <=? major x) then ret (-1, []) else
    match dev_read (devsw (major x)) with
    | None => ret (-1, [])
    | Some f => f i n
    end
  else
  if (size x <? off) || (u32 (off + n) <? off) then ret (-1, []) else
  let n := if size x <? u32 (off + n) then size x - off else n in
  bs <- readi_loop (Z.to_nat n) i 0 off n ;;
  ret (n, bs).

Fixpoint writei_loop (fuel : nat) (i : nat) (src : list Z) (tot off n : Z) : M fs Z :=
  if negb (tot <? n) then ret off else
  match fuel with
  | O => panic no_fuel
  | S fuel =>
      x <- reads (fun s => geti s i) ;;
      b <- bmap i (off / Z.of_nat BSIZE) ;;
      bp <- blocks (bread (dev x) b) ;;
      let m := Z.min (n - tot) (Z.of_nat BSIZE - off mod Z.of_nat BSIZE) in
      d <- blocks (bdata bp) ;;
      blocks (bset bp (put_bytes d (Z.to_nat (off mod Z.of_nat BSIZE)) (take (Z.to_nat m) src))) ;;;
      blocks (log_write bp) ;;;
      blocks (brelse bp) ;;;
      writei_loop fuel i (drop (Z.to_nat m) src) (tot + m) (off + m) n
  end.
Definition writei (i : nat) (src : list Z) (off n : Z) : M fs Z :=
  x <- reads (fun s => geti s i) ;;
  if type x =? T_DEV then
    if (major x <? 0) || (NDEV <=? major x) then ret (-1) else
    match dev_write (devsw (major x)) with
    | None => ret (-1)
    | Some f => f i src n
    end
  else
  if (size x <? off) || (u32 (off + n) <? off) then ret (-1) else
  if Z.of_nat MAXFILE * Z.of_nat BSIZE <? u32 (off + n) then ret (-1) else
  off' <- writei_loop (Z.to_nat n) i src 0 off n ;;
  x <- reads (fun s => geti s i) ;;
  when ((0 <? n) && (size x <? off'))
    (upd i (set_size off') ;;;
     iupdate i) ;;;
  ret n.

(** *** Directories *)

(** [strncmp] of [string.c] on the bytes of two buffers; past the end of a list there is a
    terminator. *)
Fixpoint strncmp (n : nat) (p q : list Z) : Z :=
  match n with
  | O => 0
  | S n' =>
      let a := default 0 (head p) in
      let b := default 0 (head q) in
      if negb (a =? 0) && (a =? b) then strncmp n' (tail p) (tail q) else a - b
  end.
Definition namecmp (s t : list Z) : Z := strncmp DIRSIZ s t.

(** [struct dirent]: the inode number and [DIRSIZ] bytes. *)
Definition de_inum (d : list Z) : Z := get16 d 0.
Definition de_name (d : list Z) : list Z := get_bytes d 2 DIRSIZ.
(** [strncpy] into a field of [n] bytes: the string, zeros after it. *)
Definition strncpy (s : list Z) (n : nat) : list Z := take n (s ++ replicate n 0).
Definition make_dirent (name : list Z) (n : Z) : list Z := le_bytes 2 n ++ strncpy name DIRSIZ.

Definition sizeof_de : Z := Z.of_nat sizeof_dirent.

Definition dirlookup (i : nat) (name : list Z) : M fs (option (nat * Z)) :=
  x <- reads (fun s => geti s i) ;;
  if negb (type x =? T_DIR) then panic "dirlookup not DIR" else
  for_loop (fun k =>
    let off := Z.of_nat k * sizeof_de in
    r <- readi i off sizeof_de ;;
    if negb (fst r =? sizeof_de) then panic "dirlookup read" else
    if de_inum (snd r) =? 0 then ret None else
    if namecmp name (de_name (snd r)) =? 0 then
      j <- iget (dev x) (de_inum (snd r)) ;;
      ret (Some (j, off))
    else ret None) 0 (Z.to_nat ((size x + sizeof_de - 1) / sizeof_de)).

Definition dirlink_slot (i : nat) (k : nat) : M fs (option Z) :=
  let off := Z.of_nat k * sizeof_de in
  r <- readi i off sizeof_de ;;
  if negb (fst r =? sizeof_de) then panic "dirlink read" else
  if de_inum (snd r) =? 0 then ret (Some off) else ret None.
Definition dirlink (i : nat) (name : list Z) (n : Z) : M fs Z :=
  r <- dirlookup i name ;;
  match r with
  | Some (j, _) => iput j ;;; ret (-1)
  | None =>
      x <- reads (fun s => geti s i) ;;
      let slots := Z.to_nat ((size x + sizeof_de - 1) / sizeof_de) in
      r <- for_loop (dirlink_slot i) 0 slots ;;
      let off := match r with Some off => off | None => Z.of_nat slots * sizeof_de end in
      w <- writei i (make_dirent name n) off sizeof_de ;;
      if negb (w =? sizeof_de) then panic "dirlink" else
      ret 0
  end.

(** *** Paths *)
Definition slash : Z := 47.
Fixpoint skip_slashes (p : list Z) : list Z :=
  match p with c :: p' => if c =? slash then skip_slashes p' else p | [] => [] end.
Fixpoint path_elem (p : list Z) : list Z * list Z :=
  match p with
  | c :: p' => if c =? slash then ([], p) else let '(e, r) := path_elem p' in (c :: e, r)
  | [] => ([], [])
  end.
(** The rest of the path and the name; a path is the bytes before its terminator. *)
Definition skipelem (path : list Z) : option (list Z * list Z) :=
  match skip_slashes path with
  | [] => None
  | p =>
      let '(e, r) := path_elem p in
      Some (skip_slashes r, take DIRSIZ e)
  end.

(** [namex]: the inode, and the name left in the buffer. *)
Fixpoint namex_loop (fuel : nat) (parent : bool) (path name : list Z) (i : nat) : M fs (option (nat * list Z)) :=
  match skipelem path with
  | None =>
      if parent then iput i ;;; ret None
      else ret (Some (i, name))
  | Some (path, name) =>
      match fuel with
      | O => panic no_fuel
      | S fuel =>
          ilock i ;;;
          x <- reads (fun s => geti s i) ;;
          if negb (type x =? T_DIR) then iunlockput i ;;; ret None else
          if parent && bool_decide (path = []) then iunlock i ;;; ret (Some (i, name)) else
          r <- dirlookup i name ;;
          match r with
          | None => iunlockput i ;;; ret None
          | Some (next, _) => iunlockput i ;;; namex_loop fuel parent path name next
          end
      end
  end.
Definition namex (path : list Z) (parent : bool) : M fs (option (nat * list Z)) :=
  i <- (match path with
        | c :: _ => if c =? slash then iget ROOTDEV ROOTINO else (c <- reads cwd ;; idup c)
        | [] => c <- reads cwd ;; idup c
        end) ;;
  namex_loop (length path) parent path [] i.
Definition namei (path : list Z) : M fs (option nat) :=
  r <- namex path false ;; ret (fst <$> r).
Definition nameiparent (path : list Z) : M fs (option (nat * list Z)) := namex path true.
End fs.
End Fs.
