(* ===== verification/FsSpec.v ===== *)
(** What the file system promises.

    [Class BlocksSpec] is the contract of the block layer: an operation sees the contents
    [V] of all blocks, holds some of them, and has room for [k] more logged blocks.  The log
    over the buffer cache fulfils it ([Module LogBlocks]).  Against that contract,
    [Module FreeMap] proves the block allocator correct and [Module Files] the contents of
    files. *)

From S2P Require Import Prelude Params Bytes Sleeplock Bio Cache Log Txn Fs.

(** [owns s V P H k]: the blocks have the contents [V]; those of [P] have been changed and not
    yet logged; the buffers [H] are locked; [k] more blocks fit into the transaction.  Blocks
    below [nlow] belong to the log and are not logged themselves. *)
Class BlocksSpec (W : Type) `{!Blocks W} := MkBlocksSpec {
  nblk : Z;
  nlow : Z;
  owns : W -> (Z -> list Z) -> list Z -> list (nat * Z) -> nat -> Prop;
  owns_mono s V P H k : owns s V P H (S k) -> owns s V P H k;
  owns_len s V P H k b : owns s V P H k -> 0 <= b < nblk -> length (V b) = BSIZE;
  bread_ok s V P H k b : owns s V P H k -> 0 <= b < nblk -> b ∉ H.*2 -> (length H <= 2)%nat ->
    exists i s', bread 1 b s = Ret i s' /\ owns s' V P ((i, b) :: H) k;
  bdata_ok s V P H k i b : owns s V P H k -> (i, b) ∈ H -> bdata i s = Ret (V b) s;
  bset_ok s V P H k i b x : owns s V P H k -> (i, b) ∈ H -> length x = BSIZE ->
    exists s', bset i x s = Ret tt s' /\ owns s' (<[b := x]> V) (b :: P) H k;
  log_write_ok s V P H k i b : owns s V P H (S k) -> (i, b) ∈ H -> nlow <= b ->
    exists s', log_write i s = Ret tt s' /\ owns s' V (remove_elem b P) H k;
  brelse_ok s V P H k i b : owns s V P ((i, b) :: H) k -> b ∉ P ->
    exists s', brelse i s = Ret tt s' /\ owns s' V P H k
}.

(** ** The log fulfils the contract *)
Module LogBlocks.
Import Disk Bio Cache Log Commit.

Section instance.
Variable me : Z.
Variables (N lo : Z).
#[local] Existing Instance log_blocks.

(** One system call is in the transaction. *)
Record log_owns (s : lstate) (V : Z -> list Z) (P : list Z) (H : list (nat * Z)) (k : nat) : Prop := MkOwns {
  lo_abs : exists d, abs me (bc s) V (list_to_set (logged (lg s))) H d /\ disksize d = N /\
    (forall b, b ∈ H.*2 -> b ∉ P -> b ∈ logged (lg s) \/ V b = read_block d (Z.to_nat b)) /\
    bootable (lg s) d /\ hdr_n (dview d (l_start (lg s))) = 0;
  lo_N : N <= 2 ^ 31;
  lo_low : l_start (lg s) + l_size (lg s) <= lo /\ 2 <= lo;
  lo_size : LOGSIZE <= l_size (lg s);
  lo_len : length (lh_block (l_lh (lg s))) = Z.to_nat LOGSIZE;
  lo_n : lh_n (l_lh (lg s)) = Z.of_nat (length (logged (lg s)));
  lo_nodup : NoDup (logged (lg s));
  lo_range x : x ∈ logged (lg s) -> lo <= x < N;
  lo_room : lh_n (l_lh (lg s)) + Z.of_nat k <= 27 /\ lh_n (l_lh (lg s)) + Z.of_nat k <= l_size (lg s) - 1;
  lo_out : l_outstanding (lg s) = 1;
  lo_com : l_committing (lg s) = 0;
  lo_lock : l_lock (lg s) = false
}.

Lemma log_owns_mono s V P H k : log_owns s V P H (S k) -> log_owns s V P H k.
Proof. intros []. split; try done. lia. Qed.
Lemma log_owns_len s V P H k b : log_owns s V P H k -> 0 <= b < N -> length (V b) = BSIZE.
Proof. intros [(d & HA & <- & _)]. by apply (length_view me HA). Qed.

Lemma log_bread_ok s V P H k b :
  log_owns s V P H k -> 0 <= b < N -> b ∉ H.*2 -> (length H <= 2)%nat ->
  exists i s', @Fs.bread _ (log_blocks me) 1 b s = Ret i s' /\ log_owns s' V P ((i, b) :: H) k.
Proof.
  intros [(d & HA & HN & Hc & HB) HN' Hlow Hls Hlen Hn Hnd Hr Hroom Hout Hcom Hlk] Hb HnH HlH. destruct s as [l c].
  destruct (bread_abs me HA b) as (i & c' & Hrd & HA'); [by rewrite HN|done| |].
  { right. rewrite size_list_to_set by done. cbn [lg bc] in *. rewrite NBUF_eq. lia. }
  exists i, (MkL l c'). split; [by apply cache_run|]. split; try done. exists d. split_and!; [done|done| |apply HB..].
  intros x Hx HxP. cbn in Hx. apply elem_of_cons in Hx as [->|Hx]; [|by apply Hc].
  destruct (decide (b ∈ logged l)) as [|Hnl]; [by left|right]. apply (clean_view me HA); [lia| |done].
  by rewrite elem_of_list_to_set.
Qed.
Lemma log_bdata_ok s V P H k i b :
  log_owns s V P H k -> (i, b) ∈ H -> @Fs.bdata _ (log_blocks me) i s = Ret (V b) s.
Proof.
  intros [(d & HA & HN & Hc & HB)] Hi. destruct s as [l c].
  apply (cache_run (read_data i) l c (V b) c). by apply (read_data_abs me HA).
Qed.
Lemma log_bset_ok s V P H k i b x :
  log_owns s V P H k -> (i, b) ∈ H -> length x = BSIZE ->
  exists s', @Fs.bset _ (log_blocks me) i x s = Ret tt s' /\ log_owns s' (<[b := x]> V) (b :: P) H k.
Proof.
  intros [(d & HA & HN & Hc & HB) HN' Hlow Hls Hlen Hn Hnd Hr Hroom Hout Hcom Hlk] Hi Hx. destruct s as [l c].
  destruct (write_data_abs me HA i b x Hi Hx) as (c' & Hw & HA'). exists (MkL l c').
  split; [by apply cache_run|]. split; try done. exists d. split_and!; [done|done| |apply HB..].
  intros y Hy [Hne HyP]%not_elem_of_cons. rewrite fn_lookup_insert_ne by done. by apply Hc.
Qed.
Lemma log_log_write_ok s V P H k i b :
  log_owns s V P H (S k) -> (i, b) ∈ H -> lo <= b ->
  exists s', @Fs.log_write _ (log_blocks me) i s = Ret tt s' /\ log_owns s' V (remove_elem b P) H k.
Proof.
  intros [(d & HA & HN & Hc & HB) HN' Hlow Hls Hlen Hn Hnd Hr Hroom Hout Hcom Hlk] Hi Hlo. destruct s as [l c]. cbn [lg bc] in *.
  unfold LOGSIZE, MAXOPBLOCKS in *.
  destruct (log_write_abs me l c V _ H d i b HA Hi) as (h & c' & Hw & HA' & Hlen' & Hlog' & Hn'); try done; [by rewrite HN|intros y Hy%Hr; lia|unfold LOGSIZE, MAXOPBLOCKS; lia|lia|lia|].
  pose proof (held_range me HA i b Hi) as Hb. pose proof (absorb_length b (logged l)) as Hla.
  exists (MkL (with_lh h l) c'). split; [done|]. split; cbn [lg bc with_lh l_lh l_size l_outstanding l_committing l_lock]; rewrite ?Hlog'; try done.
  - exists d. split_and!; [|done| |eapply Txn.bootable_geom; [|apply HB]; split_and!; try done; cbn; by rewrite Hlen', Hlen|apply HB].
    + replace (list_to_set (absorb b (logged l)) : gset Z) with ({[b]} ∪ list_to_set (logged l) : gset Z); [done|].
      apply set_eq. intros y. rewrite elem_of_list_to_set, elem_of_absorb. set_solver.
    + intros y Hy HyP. rewrite elem_of_remove_elem in HyP. rewrite elem_of_absorb.
      destruct (decide (y = b)) as [->|]; [by left; left|]. destruct (Hc y Hy) as [?|?]; [naive_solver|by left; right|by right].
  - by apply NoDup_absorb.
  - intros x [->|Hx]%elem_of_absorb; [lia|by apply Hr].
  - lia.
Qed.
Lemma log_brelse_ok s V P H k i b :
  log_owns s V P ((i, b) :: H) k -> b ∉ P ->
  exists s', @Fs.brelse _ (log_blocks me) i s = Ret tt s' /\ log_owns s' V P H k.
Proof.
  intros [(d & HA & HN & Hc & HB) HN' Hlow Hls Hlen Hn Hnd Hr Hroom Hout Hcom Hlk] HbP. destruct s as [l c].
  destruct (brelse_abs me HA i b) as (c' & Hw & HA'); [by left| |].
  { rewrite elem_of_list_to_set. apply Hc; [by left|done]. }
  assert (HH : remove_elem (i, b) ((i, b) :: H) = H).
  { apply (remove_elem_middle (i, b) [] H). apply (NoDup_fmap_1 snd). exact (abs_nodup _ _ _ _ _ _ HA). }
  rewrite HH in HA'. exists (MkL l c'). split; [by apply cache_run|]. split; try done. exists d. split_and!; [done|done| |apply HB..].
  intros y Hy. apply Hc. by right.
Qed.

Definition log_blocks_spec : @BlocksSpec Log.lstate (log_blocks me) :=
  @MkBlocksSpec _ (log_blocks me) N lo log_owns log_owns_mono log_owns_len log_bread_ok log_bdata_ok log_bset_ok log_log_write_ok log_brelse_ok.
End instance.
End LogBlocks.

(** ** The block allocator *)
Module FreeMap.
Import Fs.

Section freemap.
Context {W : Type} `{!Blocks W} `{!BlocksSpec W}.
Implicit Types s : (@fs W).

Definition set_blk (x : W) (s : @fs W) : @fs W := MkFs (sb s) (ic_lock s) (inodes s) (cwd s) x.

Lemma blocks_run {A} (m : M W A) s x a x' :
  m x = Ret a x' -> blocks m (set_blk x s) = Ret a (set_blk x' s).
Proof. intros H. unfold blocks, zoom. cbn. by rewrite H. Qed.
Lemma blocks_bind {A B} (m : M W A) (k : A -> M (@fs W) B) s x a x' :
  m x = Ret a x' -> bind (blocks m) k (set_blk x s) = k a (set_blk x' s).
Proof. intros H. by rewrite (bind_Ret _ _ _ _ _ (blocks_run m s x a x' H)). Qed.
Lemma set_blk_id s : s = set_blk (blk s) s.
Proof. by destruct s. Qed.
Lemma sb_bind {B} (k : superblock -> M (@fs W) B) s x : bind (reads sb) k (set_blk x s) = k (sb s) (set_blk x s).
Proof. done. Qed.

(** A whole block is replaced and logged. *)
Lemma replace_block s x V H k i b y :
  owns x V [] ((i, b) :: H) (S k) -> length y = BSIZE -> nlow <= b ->
  exists x', (blocks (bset i y) ;;; blocks (log_write i) ;;; blocks (brelse i)) (set_blk x s) = Ret tt (set_blk x' s) /\
    owns x' (<[b := y]> V) [] H k.
Proof.
  intros Ho Hy Hb. destruct (bset_ok _ _ _ _ _ i b y Ho) as (x1 & H1 & Ho1); [by left|done|].
  destruct (log_write_ok _ _ _ _ _ i b Ho1) as (x2 & H2 & Ho2); [by left|done|].
  assert (remove_elem b [b] = []) as E by (apply (remove_elem_middle b [] []); apply NoDup_singleton).
  rewrite E in Ho2. destruct (brelse_ok _ _ _ _ _ i b Ho2) as (x3 & H3 & Ho3); [apply not_elem_of_nil|].
  exists x3. split; [|done]. rewrite (blocks_bind _ _ _ _ _ _ H1), (blocks_bind _ _ _ _ _ _ H2). by apply blocks_run.
Qed.

Lemma bzero_ok s x V H k b :
  owns x V [] H (S k) -> 0 <= b < nblk -> nlow <= b -> b ∉ H.*2 -> (length H <= 2)%nat ->
  exists x', bzero 1 b (set_blk x s) = Ret tt (set_blk x' s) /\ owns x' (<[b := replicate BSIZE 0]> V) [] H k.
Proof.
  intros Ho Hb Hlo HbH HH. destruct (bread_ok _ _ _ _ _ b Ho) as (i & x1 & H1 & Ho1); [done..|].
  unfold bzero. rewrite (blocks_bind _ _ _ _ _ _ H1). apply (replace_block s x1 V H k i b); [done| |done].
  apply length_replicate.
Qed.

(** Whether block [b] is in use, by the bitmap. *)
Variable B : superblock.
Definition bit (V : Z -> list Z) (b : Z) : bool :=
  Z.testbit (bit_byte (V (BBLOCK b B)) (b mod BPB)) (b mod 8).

Lemma BPB_eq : BPB = 4096.
Proof. done. Qed.
Lemma mod8_BPB b : (b mod BPB) mod 8 = b mod 8.
Proof. rewrite BPB_eq. symmetry. apply Znumtheory.Zmod_div_mod; [lia|lia|]. by exists 512. Qed.
Lemma bit_test V b :
  (Z.land (bit_byte (V (BBLOCK b B)) (b mod BPB)) (bit_mask (b mod BPB)) =? 0) = negb (bit V b).
Proof.
  unfold bit, bit_mask. rewrite Z.shiftl_1_l, mod8_BPB. apply land_pow2_eqb. apply Z.mod_pos_bound. lia.
Qed.

(** The bitmap block after a change of the bit of [b]. *)
Definition set_bit (d : list Z) (b : Z) (on : bool) : list Z :=
  let bi := b mod BPB in
  <[Z.to_nat (bi / 8) := u8 (if on then Z.lor (bit_byte d bi) (bit_mask bi)
                             else Z.land (bit_byte d bi) (Z.lnot (bit_mask bi)))]> d.
Definition with_bit (V : Z -> list Z) (b : Z) (on : bool) : Z -> list Z :=
  <[BBLOCK b B := set_bit (V (BBLOCK b B)) b on]> V.

Lemma length_set_bit d b on : length (set_bit d b on) = length d.
Proof. apply length_insert. Qed.
Lemma testbit_u8 z j : 0 <= j < 8 -> Z.testbit (u8 z) j = Z.testbit z j.
Proof. intros. unfold u8. change 256 with (2 ^ 8). apply Z.mod_pow2_bits_low. lia. Qed.

Lemma bit_with_bit V b on c :
  0 <= b -> 0 <= c -> length (V (BBLOCK b B)) = BSIZE ->
  bit (with_bit V b on) c = if decide (c = b) then on else bit V c.
Proof.
  intros Hb Hc Hlen. unfold bit, with_bit. pose proof (Z.mod_pos_bound b 8 ltac:(lia)) as Hm8.
  pose proof (Z.mod_pos_bound c 8 ltac:(lia)) as Hc8. rewrite !BPB_eq in *.
  pose proof (Z.mod_pos_bound b 4096 ltac:(lia)) as Hbm. pose proof (Z.mod_pos_bound c 4096 ltac:(lia)) as Hcm.
  assert (Hb8 : 0 <= b mod 4096 / 8 < 512) by (split; [apply Z.div_pos|apply Z.div_lt_upper_bound]; lia).
  assert (Hc8' : 0 <= c mod 4096 / 8 < 512) by (split; [apply Z.div_pos|apply Z.div_lt_upper_bound]; lia).
  destruct (decide (BBLOCK c B = BBLOCK b B)) as [E|E].
  2: { rewrite fn_lookup_insert_ne by congruence. rewrite decide_False; [done|]. by intros ->. }
  rewrite E, fn_lookup_insert. unfold set_bit. rewrite BPB_eq. unfold bit_byte at 1.
  assert (Ed : c / 4096 = b / 4096) by (unfold BBLOCK in E; rewrite BPB_eq in E; lia).
  destruct (decide (c mod 4096 / 8 = b mod 4096 / 8)) as [E8|E8].
  - rewrite E8, list_lookup_total_insert_eq by (rewrite Hlen; unfold BSIZE; lia). rewrite testbit_u8 by done.
    pose proof (mod8_BPB b) as M1. pose proof (mod8_BPB c) as M2. rewrite BPB_eq in M1, M2.
    assert (Hcb : c = b <-> c mod 8 = b mod 8).
    { split; [by intros ->|]. intros H8. pose proof (Z.div_mod (c mod 4096) 8 ltac:(lia)).
      pose proof (Z.div_mod (b mod 4096) 8 ltac:(lia)). pose proof (Z.div_mod c 4096 ltac:(lia)).
      pose proof (Z.div_mod b 4096 ltac:(lia)). lia. }
    unfold bit_mask. rewrite Z.shiftl_1_l, M1. unfold bit_byte. rewrite E8.
    destruct on; [rewrite testbit_lor_pow2 by lia|rewrite testbit_clear_pow2 by lia];
      destruct (Z.eqb_spec (c mod 8) (b mod 8)) as [Em|Em]; case_decide as Edd; cbn; try done; tauto.
  - rewrite list_lookup_total_insert_ne by lia. rewrite decide_False; [done|]. intros ->. done.
Qed.

(** The regions of the disk, as [mkfs] lays them out: inodes, bitmap, data. *)
Definition datastart : Z := sb_bmapstart B + sb_size B / BPB + 1.
Record layout : Prop := MkLayout {
  lay_inodes : 2 <= sb_inodestart B;
  lay_bmap n : 0 <= n < sb_ninodes B -> IBLOCK n B < sb_bmapstart B;
  lay_bmap' : sb_inodestart B <= sb_bmapstart B;
  lay_data : datastart <= sb_size B;
  lay_disk : sb_size B <= nblk;
  lay_low : nlow <= sb_inodestart B;
  lay_width : sb_size B < 2 ^ 31
}.
Hypothesis HL : layout.

Lemma BBLOCK_range b : 0 <= b < sb_size B -> 0 <= sb_bmapstart B <= BBLOCK b B /\ BBLOCK b B < datastart.
Proof.
  intros Hb. destruct HL as [H1 _ H2 _ _ _ _]. unfold BBLOCK, datastart. rewrite BPB_eq.
  pose proof (Z.div_pos b 4096 ltac:(lia) ltac:(lia)). pose proof (Z.div_le_mono b (sb_size B) 4096 ltac:(lia) ltac:(lia)). lia.
Qed.
Lemma IBLOCK_range n : 0 <= n < sb_ninodes B -> 0 <= IBLOCK n B < sb_bmapstart B.
Proof.
  intros Hn. destruct HL as [H1 H2 _ _ _ _ _]. split; [|by apply H2]. unfold IBLOCK.
  assert (0 <= n / IPB) by (apply Z.div_pos; [lia|]; done). lia.
Qed.

(** The blocks of the file system may be logged. *)
Lemma BBLOCK_low b : 0 <= b < sb_size B -> nlow <= BBLOCK b B.
Proof. intros Hb. pose proof (BBLOCK_range b Hb). destruct HL. lia. Qed.
Lemma IBLOCK_low n : 0 <= n < sb_ninodes B -> nlow <= IBLOCK n B.
Proof. intros Hn. unfold IBLOCK. pose proof (Z.div_pos n IPB ltac:(lia) ltac:(done)). destruct HL. lia. Qed.
Lemma data_low c : 0 <= sb_size B -> datastart <= c -> nlow <= c.
Proof. unfold datastart. rewrite BPB_eq. intros H0. pose proof (Z.div_pos (sb_size B) 4096 H0 ltac:(lia)). destruct HL. lia. Qed.
Lemma slot_split j n : (n < Z.to_nat BPB)%nat ->
  let c := Z.of_nat j * BPB + Z.of_nat n in
  c mod BPB = Z.of_nat n /\ BBLOCK c B = BBLOCK (Z.of_nat j * BPB) B /\ c / BPB = Z.of_nat j.
Proof.
  intros Hn. cbn zeta. rewrite BPB_eq in *. set (c := Z.of_nat j * 4096 + Z.of_nat n).
  assert (Hd : c / 4096 = Z.of_nat j) by (unfold c; rewrite Z.div_add_l by lia; rewrite (Z.div_small (Z.of_nat n)) by lia; lia).
  split_and!; [|unfold BBLOCK; rewrite BPB_eq, Hd, Z.div_mul by lia; done|done].
  pose proof (Z.div_mod c 4096 ltac:(lia)). unfold c in *. lia.
Qed.

Section scan.
Context (s : @fs W) (x : W) (V : Z -> list Z) (H : list (nat * Z)) (k : nat).
Hypothesis Hsb : sb s = B.

Lemma balloc_bit_used j n i :
  let c := Z.of_nat j * BPB + Z.of_nat n in
  (n < Z.to_nat BPB)%nat -> owns x V [] ((i, BBLOCK (Z.of_nat j * BPB) B) :: H) k ->
  sb_size B <= c \/ bit V c = true ->
  balloc_bit 1 (Z.of_nat j * BPB) i n (set_blk x s) = Ret None (set_blk x s).
Proof.
  intros c Hn Ho Hu. destruct (slot_split j n Hn) as (Hm & Hbb & _). fold c in Hm, Hbb. unfold balloc_bit.
  rewrite sb_bind, Hsb. fold c. destruct (Z.ltb_spec c (sb_size B)); cbn [negb]; [|done].
  destruct Hu as [|Hu]; [lia|].
  rewrite (blocks_bind _ _ _ _ _ _ (bdata_ok _ _ _ _ _ i _ Ho ltac:(left))).
  rewrite <- Hbb, <- Hm, bit_test, Hu. done.
Qed.
Lemma balloc_bit_free j n i :
  let c := Z.of_nat j * BPB + Z.of_nat n in
  (n < Z.to_nat BPB)%nat -> owns x V [] ((i, BBLOCK (Z.of_nat j * BPB) B) :: H) (S (S k)) ->
  c < sb_size B -> nlow <= c -> bit V c = false -> c ∉ H.*2 -> (length H <= 2)%nat ->
  exists x', balloc_bit 1 (Z.of_nat j * BPB) i n (set_blk x s) = Ret (Some c) (set_blk x' s) /\
    owns x' (<[c := replicate BSIZE 0]> (with_bit V c true)) [] H k.
Proof.
  intros c Hn Ho Hc Hlo Hu HcH HlH. destruct (slot_split j n Hn) as (Hm & Hbb & _). fold c in Hm, Hbb. unfold balloc_bit.
  assert (H0c : 0 <= c) by (unfold c; rewrite BPB_eq; lia).
  rewrite sb_bind, Hsb. fold c. destruct (Z.ltb_spec c (sb_size B)); cbn [negb]; [|lia].
  rewrite (blocks_bind _ _ _ _ _ _ (bdata_ok _ _ _ _ _ i _ Ho ltac:(left))).
  rewrite <- Hbb, <- Hm, bit_test, Hu. cbn [negb].
  destruct (replace_block s x V H (S k) i (BBLOCK c B) (set_bit (V (BBLOCK c B)) c true)) as (x1 & H1 & Ho1).
  { by rewrite Hbb. }
  { rewrite length_set_bit. eapply owns_len; [exact Ho|]. pose proof (BBLOCK_range c ltac:(lia)). destruct HL. lia. }
  { apply BBLOCK_low. lia. }
  apply bind_inv in H1 as ([] & s1 & E1 & H1). rewrite (bind_Ret _ _ _ _ _ E1).
  apply bind_inv in H1 as ([] & s2 & E2 & H1). rewrite (bind_Ret _ _ _ _ _ E2), (bind_Ret _ _ _ _ _ H1).
  destruct (bzero_ok s x1 _ H k c Ho1) as (x2 & H2 & Ho2); [destruct HL; lia|done..|].
  exists x2. by rewrite (bind_Ret _ _ _ _ _ H2).
Qed.

(** The scan of one bitmap block that has no free bit. *)
Lemma balloc_block_full j i :
  owns x V [] ((i, BBLOCK (Z.of_nat j * BPB) B) :: H) k ->
  (forall c, Z.of_nat j * BPB <= c < (Z.of_nat j + 1) * BPB -> c < sb_size B -> bit V c = true) ->
  for_loop (balloc_bit 1 (Z.of_nat j * BPB) i) 0 (Z.to_nat BPB) (set_blk x s) = Ret None (set_blk x s).
Proof.
  intros Ho Hall. apply for_loop_skip. intros n Hn. apply balloc_bit_used; [lia|done|].
  destruct (decide (sb_size B <= Z.of_nat j * BPB + Z.of_nat n)); [by left|right]. apply Hall; [|lia].
  rewrite BPB_eq in *. lia.
Qed.
End scan.

(** One turn of [balloc]'s outer loop. *)
Definition balloc_turn (j : nat) : M (@fs W) (option Z) :=
  let b := Z.of_nat j * BPB in
  bp <- blocks (bread 1 (BBLOCK b B)) ;;
  r <- for_loop (balloc_bit 1 b bp) 0 (Z.to_nat BPB) ;;
  match r with
  | Some a => ret (Some a)
  | None => blocks (brelse bp) ;;; ret None
  end.

Lemma balloc_turn_full s x V H k j :
  sb s = B -> owns x V [] H k -> Z.of_nat j * BPB < sb_size B -> BBLOCK (Z.of_nat j * BPB) B ∉ H.*2 ->
  (length H <= 2)%nat ->
  (forall c, Z.of_nat j * BPB <= c < (Z.of_nat j + 1) * BPB -> c < sb_size B -> bit V c = true) ->
  exists x', balloc_turn j (set_blk x s) = Ret None (set_blk x' s) /\ owns x' V [] H k.
Proof.
  intros Hsb Ho Hj HnH HlH Hall. unfold balloc_turn.
  destruct (bread_ok x V [] H k (BBLOCK (Z.of_nat j * BPB) B) Ho) as (i & x1 & H1 & Ho1); [|done..|].
  { rewrite BPB_eq in *. pose proof (BBLOCK_range (Z.of_nat j * 4096) ltac:(lia)). destruct HL. lia. }
  rewrite (blocks_bind _ _ _ _ _ _ H1), (bind_Ret _ _ _ _ _ (balloc_block_full s x1 V H k Hsb j i Ho1 Hall)).
  destruct (brelse_ok _ _ _ _ _ _ _ Ho1) as (x2 & H2 & Ho2); [apply not_elem_of_nil|].
  exists x2. by rewrite (blocks_bind _ _ _ _ _ _ H2).
Qed.

Lemma balloc_turn_free s x V H k c :
  sb s = B -> owns x V [] H (S (S k)) -> 0 <= c < sb_size B -> nlow <= c -> bit V c = false ->
  (forall c', 0 <= c' < c -> bit V c' = true) ->
  BBLOCK c B ∉ H.*2 -> c ∉ H.*2 -> (length H <= 2)%nat ->
  exists x', balloc_turn (Z.to_nat (c / BPB)) (set_blk x s) = Ret (Some c) (set_blk x' s) /\
    owns x' (<[c := replicate BSIZE 0]> (with_bit V c true)) [] H k.
Proof.
  intros Hsb Ho Hc Hlo Hu Hless HbH HcH HlH. unfold balloc_turn.
  pose proof (Z.div_mod c BPB ltac:(done)) as Hdm. pose proof (Z.mod_pos_bound c BPB ltac:(done)) as Hm.
  assert (Hd : 0 <= c / BPB) by (apply Z.div_pos; [lia|done]).
  set (j := Z.to_nat (c / BPB)). set (n := Z.to_nat (c mod BPB)).
  assert (Ec : Z.of_nat j * BPB + Z.of_nat n = c) by (unfold j, n; rewrite !Z2Nat.id by lia; lia).
  assert (Hn : (n < Z.to_nat BPB)%nat) by (unfold n; apply Z2Nat.inj_lt; lia).
  destruct (slot_split j n Hn) as (_ & Hbb & _). rewrite Ec in Hbb.
  destruct (bread_ok x V [] H (S (S k)) (BBLOCK (Z.of_nat j * BPB) B) Ho) as (i & x1 & H1 & Ho1);
    [rewrite <- Hbb; pose proof (BBLOCK_range c Hc); destruct HL; lia|by rewrite <- Hbb|done|].
  rewrite (blocks_bind _ _ _ _ _ _ H1).
  destruct (balloc_bit_free s x1 V H k Hsb j n i) as (x2 & H2 & Ho2); rewrite ?Ec; try done; [lia|].
  exists x2. rewrite Ec in H2, Ho2. split; [|done].
  assert (Hloop : for_loop (balloc_bit 1 (Z.of_nat j * BPB) i) 0 (Z.to_nat BPB) (set_blk x1 s) = Ret (Some c) (set_blk x2 s)).
  { apply (for_loop_found _ 0 _ n); [lia| |done]. intros n' Hn'.
    apply (balloc_bit_used s x1 V H (S (S k)) Hsb); [lia|done|]. right. apply Hless.
    split; [rewrite BPB_eq; lia|]. rewrite <- Ec. lia. }
  by rewrite (bind_Ret _ _ _ _ _ Hloop).
Qed.

Lemma turns : sb_size B <= Z.of_nat (Z.to_nat ((sb_size B + BPB - 1) / BPB)) * BPB < sb_size B + BPB.
Proof.
  assert (0 <= sb_size B) as Hs by (destruct HL; unfold datastart in *; rewrite BPB_eq in *;
    pose proof (Z.div_mod (sb_size B) 4096 ltac:(lia)); pose proof (Z.mod_pos_bound (sb_size B) 4096 ltac:(lia)); lia).
  rewrite BPB_eq. rewrite Z2Nat.id by (apply Z.div_pos; lia).
  pose proof (Z.div_mod (sb_size B + 4096 - 1) 4096 ltac:(lia)).
  pose proof (Z.mod_pos_bound (sb_size B + 4096 - 1) 4096 ltac:(lia)). lia.
Qed.

Lemma balloc_full_turns s x V H k m :
  sb s = B -> owns x V [] H k -> (length H <= 2)%nat ->
  (forall c, 0 <= c < sb_size B -> BBLOCK c B ∉ H.*2) ->
  (m <= Z.to_nat ((sb_size B + BPB - 1) / BPB))%nat ->
  (forall c, 0 <= c < sb_size B -> c < Z.of_nat m * BPB -> bit V c = true) ->
  exists x', for_loop balloc_turn 0 m (set_blk x s) = Ret None (set_blk x' s) /\ owns x' V [] H k.
Proof.
  intros Hsb Ho HlH HbH Hm Hall. pose proof turns as Ht.
  destruct (for_loop_inv balloc_turn (fun _ s' => exists x', s' = set_blk x' s /\ owns x' V [] H k) 0 m (set_blk x s)) as (s' & Hf & x' & -> & Ho').
  - by exists x.
  - intros j s' Hj (x' & -> & Ho'). rewrite BPB_eq in *.
    destruct (balloc_turn_full s x' V H k j) as (x2 & H2 & Ho2); try done.
    + rewrite BPB_eq. lia.
    + apply HbH. rewrite BPB_eq. lia.
    + rewrite BPB_eq. intros c Hc Hcs. apply Hall; lia.
    + exists (set_blk x2 s). split; [done|]. by exists x2.
  - by exists x'.
Qed.

Lemma balloc_turns : balloc 1 = (fun s => (r <- for_loop (fun j =>
    let b := Z.of_nat j * BPB in
    bp <- blocks (bread 1 (BBLOCK b (sb s))) ;;
    r <- for_loop (balloc_bit 1 b bp) 0 (Z.to_nat BPB) ;;
    match r with
    | Some a => ret (Some a)
    | None => blocks (brelse bp) ;;; ret None
    end) 0 (Z.to_nat ((sb_size (sb s) + BPB - 1) / BPB)) ;;
  match r with
  | Some a => ret a
  | None => panic "balloc: out of blocks"
  end) s) :> M (@fs W) Z.
Proof. done. Qed.

(** [balloc] returns the first free block, marked and zeroed. *)
Lemma balloc_ok s x V H k c :
  sb s = B -> owns x V [] H (S (S k)) -> 0 <= c < sb_size B -> nlow <= c -> bit V c = false ->
  (forall c', 0 <= c' < c -> bit V c' = true) ->
  (forall c, 0 <= c < sb_size B -> BBLOCK c B ∉ H.*2) -> c ∉ H.*2 -> (length H <= 2)%nat ->
  exists x', balloc 1 (set_blk x s) = Ret c (set_blk x' s) /\
    owns x' (<[c := replicate BSIZE 0]> (with_bit V c true)) [] H k.
Proof.
  intros Hsb Ho Hc Hlo Hu Hless HbH HcH HlH. rewrite balloc_turns. cbn [sb set_blk]. rewrite Hsb. pose proof turns as Ht.
  change (fun j : nat => _) with balloc_turn. set (T := Z.to_nat ((sb_size B + BPB - 1) / BPB)) in *.
  assert (Hd : 0 <= c / BPB) by (apply Z.div_pos; [lia|done]).
  assert (HT : (Z.to_nat (c / BPB) < T)%nat).
  { apply Nat2Z.inj_lt. rewrite Z2Nat.id by done. apply Z.div_lt_upper_bound; [done|]. lia. }
  destruct (balloc_full_turns s x V H (S (S k)) (Z.to_nat (c / BPB))) as (x1 & H1 & Ho1); try done; [lia| |].
  { intros c' Hc' Hlt. apply Hless. rewrite Z2Nat.id in Hlt by done. pose proof (Z.div_mod c BPB ltac:(done)).
    pose proof (Z.mod_pos_bound c BPB ltac:(done)). lia. }
  destruct (balloc_turn_free s x1 V H k c) as (x2 & H2 & Ho2); try done; [by apply HbH|].
  exists x2. split; [|done].
  replace T with (Z.to_nat (c / BPB) + S (T - S (Z.to_nat (c / BPB))))%nat by lia.
  assert (Hf : for_loop balloc_turn 0 (Z.to_nat (c / BPB) + S (T - S (Z.to_nat (c / BPB)))) (set_blk x s) = Ret (Some c) (set_blk x2 s)).
  { rewrite (for_loop_split _ _ _ _ _ _ H1). cbn [for_loop Nat.add]. by rewrite (bind_Ret _ _ _ _ _ H2). }
  by rewrite (bind_Ret _ _ _ _ _ Hf).
Qed.
Lemma balloc_full s x V H k :
  sb s = B -> owns x V [] H k -> (forall c, 0 <= c < sb_size B -> bit V c = true) ->
  (forall c, 0 <= c < sb_size B -> BBLOCK c B ∉ H.*2) -> (length H <= 2)%nat ->
  balloc 1 (set_blk x s) = Panic "balloc: out of blocks".
Proof.
  intros Hsb Ho Hall HbH HlH. rewrite balloc_turns. cbn [sb set_blk]. rewrite Hsb.
  change (fun j : nat => _) with balloc_turn.
  destruct (balloc_full_turns s x V H k (Z.to_nat ((sb_size B + BPB - 1) / BPB))) as (x1 & H1 & Ho1); try done.
  { intros c Hc _. by apply Hall. }
  by rewrite (bind_Ret _ _ _ _ _ H1).
Qed.

(** [bfree] clears the bit of a block in use, and panics on a free one. *)
Lemma bfree_ok s x V H k b :
  sb s = B -> owns x V [] H (S k) -> 0 <= b < sb_size B -> bit V b = true -> BBLOCK b B ∉ H.*2 -> (length H <= 2)%nat ->
  exists x', bfree 1 b (set_blk x s) = Ret tt (set_blk x' s) /\ owns x' (with_bit V b false) [] H k.
Proof.
  intros Hsb Ho Hb Hu HbH HlH. unfold bfree. rewrite sb_bind, Hsb.
  assert (Hr : 0 <= BBLOCK b B < nblk) by (pose proof (BBLOCK_range b Hb); destruct HL; lia).
  destruct (bread_ok x V [] H (S k) (BBLOCK b B) Ho) as (i & x1 & H1 & Ho1); [done..|].
  rewrite (blocks_bind _ _ _ _ _ _ H1), (blocks_bind _ _ _ _ _ _ (bdata_ok _ _ _ _ _ i _ Ho1 ltac:(left))).
  rewrite bit_test, Hu. cbn [negb]. apply (replace_block s x1 V H k i (BBLOCK b B) (set_bit (V (BBLOCK b B)) b false)); [done| |by apply BBLOCK_low].
  rewrite length_set_bit. by eapply owns_len.
Qed.
Lemma bfree_free s x V H k b :
  sb s = B -> owns x V [] H k -> 0 <= b < sb_size B -> bit V b = false -> BBLOCK b B ∉ H.*2 -> (length H <= 2)%nat ->
  bfree 1 b (set_blk x s) = Panic "freeing free block".
Proof.
  intros Hsb Ho Hb Hu HbH HlH. unfold bfree. rewrite sb_bind, Hsb.
  assert (Hr : 0 <= BBLOCK b B < nblk) by (pose proof (BBLOCK_range b Hb); destruct HL; lia).
  destruct (bread_ok x V [] H k (BBLOCK b B) Ho) as (i & x1 & H1 & Ho1); [done..|].
  rewrite (blocks_bind _ _ _ _ _ _ H1), (blocks_bind _ _ _ _ _ _ (bdata_ok _ _ _ _ _ i _ Ho1 ltac:(left))).
  by rewrite bit_test, Hu.
Qed.
End freemap.
End FreeMap.
