(* ===== verification/FsFile.v ===== *)
(** The contents of files.

    A file is an inode whose blocks are in use, distinct, and there for every byte below its
    size ([file_ok]); its bytes are [fbytes].  [readi] returns them, and [writei] replaces
    them, allocating the blocks it needs, and leaves every other block in use alone. *)

From S2P Require Import Prelude Params Bytes Sleeplock Bio Cache Log Fs FsSpec.

Module Files.
Import Fs FreeMap.

(** *** Encoding inodes *)
Lemma get_put_inside d o bs j l :
  (o + length bs <= length d)%nat -> (j + l <= length bs)%nat ->
  get_bytes (put_bytes d o bs) (o + j) l = take l (drop j bs).
Proof.
  intros Hfit Hj. apply list_eq. intros p. destruct (decide (p < l)%nat) as [Hp|Hp].
  - rewrite lookup_get_bytes by done. rewrite lookup_put_bytes_in by lia. rewrite lookup_take_lt by done.
    rewrite lookup_drop. f_equal. lia.
  - rewrite !lookup_ge_None_2; [done|..]; rewrite ?length_take, ?length_drop; [lia|].
    rewrite length_get_bytes; [lia|]. rewrite length_put_bytes; lia.
Qed.
Lemma length_addrs l : length (concat (map (le_bytes 4) l)) = (4 * length l)%nat.
Proof. induction l as [|a l IH]; [done|]. cbn [map concat length]. rewrite length_app, length_le_bytes, IH. lia. Qed.
Lemma drop_addrs l : forall j, (j < length l)%nat ->
  take 4 (drop (4 * j) (concat (map (le_bytes 4) l))) = le_bytes 4 (l !!! j).
Proof.
  induction l as [|a l IH]; intros [|j] Hj; cbn [length] in Hj; [lia|lia|..]; cbn [map concat].
  - rewrite drop_0. by rewrite take_app_le, take_ge by (rewrite length_le_bytes; lia).
  - rewrite drop_app_ge by (rewrite length_le_bytes; lia). rewrite length_le_bytes.
    replace (4 * S j - 4)%nat with (4 * j)%nat by lia. apply IH. lia.
Qed.
Lemma i16_le z : -32768 <= z < 32768 -> i16 (le_val (le_bytes 2 z)) = z.
Proof.
  intros Hz. rewrite le_val_le_bytes. change (256 ^ Z.of_nat 2) with 65536. unfold i16.
  rewrite Zplus_mod_idemp_l. rewrite Z.mod_small by lia. lia.
Qed.
Lemma u32_le z : 0 <= z < W32 -> le_val (le_bytes 4 z) = z.
Proof. intros Hz. rewrite le_val_le_bytes. by rewrite Z.mod_small. Qed.
Record dino_ok (d : dinode) : Prop := MkDinoOk {
  do_type : -32768 <= d_type d < 32768; do_major : -32768 <= d_major d < 32768;
  do_minor : -32768 <= d_minor d < 32768; do_nlink : -32768 <= d_nlink d < 32768;
  do_size : 0 <= d_size d < W32; do_len : length (d_addrs d) = S NDIRECT;
  do_addrs : Forall (fun a => 0 <= a < W32) (d_addrs d)
}.

Lemma length_dinode d : length (d_addrs d) = S NDIRECT -> length (dinode_bytes d) = 64%nat.
Proof. intros H. unfold dinode_bytes. rewrite !length_app, !length_le_bytes, length_addrs, H. done. Qed.
Lemma dino_fits n : (dino_off n + 64 <= BSIZE)%nat.
Proof.
  unfold dino_off. change sizeof_dinode with 64%nat. change BSIZE with 512%nat.
  pose proof (Z.mod_pos_bound n IPB ltac:(done)) as H. change IPB with 8 in *. lia.
Qed.

(** The fields of an inode in the bytes of its block. *)
Lemma get_put_dinode b n d : length b = BSIZE -> dino_ok d -> get_dinode (put_dinode b n d) n = d.
Proof.
  intros Hb [H1 H2 H3 H4 H5 H6 H7]. pose proof (length_dinode d H6) as Hl. pose proof (dino_fits n) as Hfit.
  assert (Hget : forall j l, (j + l <= 64)%nat -> get_bytes (put_dinode b n d) (dino_off n + j) l = take l (drop j (dinode_bytes d))).
  { intros j l Hj. apply get_put_inside; lia. }
  assert (Ha : forall j, (j < S NDIRECT)%nat -> get32 (put_dinode b n d) (dino_off n + 12 + 4 * j) = d_addrs d !!! j).
  { intros j Hj. unfold get32. rewrite <- Nat.add_assoc, Hget by (unfold NDIRECT in Hj; lia).
    change (drop (12 + 4 * j) (dinode_bytes d)) with (drop (4 * j) (concat (map (le_bytes 4) (d_addrs d)))).
    rewrite drop_addrs by lia. apply u32_le. rewrite Forall_lookup in H7. eapply H7, list_lookup_lookup_total_lt. lia. }
  unfold get_dinode, get16, get32 at 1. rewrite (Hget 2%nat 2%nat), (Hget 4%nat 2%nat), (Hget 6%nat 2%nat), (Hget 8%nat 4%nat) by lia.
  rewrite <- (Nat.add_0_r (dino_off n)) at 1. rewrite (Hget 0%nat 2%nat) by lia.
  destruct d as [ty mj mn nl sz ad]. cbn [d_type d_major d_minor d_nlink d_size d_addrs] in *. f_equal.
  - by apply (i16_le ty).
  - by apply (i16_le mj).
  - by apply (i16_le mn).
  - by apply (i16_le nl).
  - by apply (u32_le sz).
  - rewrite <- H6. apply map_seq_total. intros j Hj. apply Ha. lia.
Qed.
Lemma get_put_dinode_ne b n n' d :
  length b = BSIZE -> length (d_addrs d) = S NDIRECT -> n mod IPB <> n' mod IPB ->
  get_dinode (put_dinode b n d) n' = get_dinode b n'.
Proof.
  intros Hb Hd Hne. pose proof (length_dinode d Hd) as Hl. pose proof (dino_fits n) as Hfit. pose proof (dino_fits n') as Hfit'.
  assert (Hget : forall j l, (j + l <= 64)%nat -> get_bytes (put_dinode b n d) (dino_off n' + j) l = get_bytes b (dino_off n' + j) l).
  { intros j l Hj. apply get_put_disjoint; [lia|]. unfold dino_off in *. change sizeof_dinode with 64%nat in *.
    pose proof (Z.mod_pos_bound n IPB ltac:(done)). pose proof (Z.mod_pos_bound n' IPB ltac:(done)). lia. }
  assert (Hget0 : get_bytes (put_dinode b n d) (dino_off n') 2 = get_bytes b (dino_off n') 2).
  { rewrite <- (Nat.add_0_r (dino_off n')). apply Hget. lia. }
  unfold get_dinode, get16, get32. rewrite Hget0.
  rewrite (Hget 2%nat 2%nat), (Hget 4%nat 2%nat), (Hget 6%nat 2%nat), (Hget 8%nat 4%nat) by lia. f_equal.
  apply map_ext_in. intros j Hj%in_seq. rewrite <- Nat.add_assoc, Hget; [done|]. unfold NDIRECT in Hj. lia.
Qed.

Section files.
Context {W : Type} `{!Blocks W} `{!BlocksSpec W}.
Variable B : superblock.
Hypothesis HL : layout B.
Implicit Types s : (@fs W).

Lemma BSIZE_eq : Z.of_nat BSIZE = 512.
Proof. done. Qed.
Definition maxfile : Z := Z.of_nat MAXFILE * Z.of_nat BSIZE.

(** The address of block [k] of a file, 0 if there is none. *)
Definition fblk (V : Z -> list Z) (x : inode) (k : nat) : Z :=
  if decide (k < NDIRECT)%nat then addrs x !!! k
  else if decide (addrs x !!! NDIRECT = 0) then 0
  else get32 (V (addrs x !!! NDIRECT)) (4 * (k - NDIRECT)).
(** Byte [p] of a file, and [n] of them. *)
Definition fbyte (V : Z -> list Z) (x : inode) (p : Z) : Z :=
  V (fblk V x (Z.to_nat (p / Z.of_nat BSIZE))) !!! Z.to_nat (p mod Z.of_nat BSIZE).
Definition fbytes (V : Z -> list Z) (x : inode) (off : Z) (n : nat) : list Z :=
  map (fun p => fbyte V x (off + Z.of_nat p)) (seq 0 n).

(** The blocks of a file, with the indirect block. *)
Definition owned (V : Z -> list Z) (x : inode) (a : Z) : Prop :=
  a <> 0 /\ ((exists k, (k < MAXFILE)%nat /\ fblk V x k = a) \/ addrs x !!! NDIRECT = a).

Record file_ok (V : Z -> list Z) (x : inode) : Prop := MkFile {
  fo_dev : dev x = 1;
  fo_type : type x <> T_DEV;
  fo_len : length (addrs x) = Datatypes.S NDIRECT;
  fo_size : 0 <= size x <= maxfile;
  fo_full k : (k < MAXFILE)%nat -> Z.of_nat k * Z.of_nat BSIZE < size x -> fblk V x k <> 0;
  fo_data a : owned V x a -> datastart B <= a < sb_size B /\ bit B V a = true;
  fo_inj k k' : (k < MAXFILE)%nat -> (k' < MAXFILE)%nat -> fblk V x k <> 0 -> fblk V x k = fblk V x k' -> k = k';
  fo_ind k : (k < MAXFILE)%nat -> fblk V x k <> 0 -> fblk V x k <> addrs x !!! NDIRECT
}.

Lemma block_of_pos p : 0 <= p < maxfile -> (Z.to_nat (p / Z.of_nat BSIZE) < MAXFILE)%nat.
Proof.
  unfold maxfile. intros Hp. apply Nat2Z.inj_lt. rewrite Z2Nat.id by (apply Z.div_pos; [lia|done]).
  apply Z.div_lt_upper_bound; [done|]. rewrite Z.mul_comm. apply Hp.
Qed.
Lemma owned_blk V x k : (k < MAXFILE)%nat -> fblk V x k <> 0 -> owned V x (fblk V x k).
Proof. intros Hk Hne. split; [done|]. left. by exists k. Qed.
Lemma data_nblk a : datastart B <= a < sb_size B -> 0 <= a < nblk.
Proof.
  intros Ha. destruct HL as [H1 _ H2 H3 H4 _ _]. unfold datastart in *. rewrite BPB_eq in *.
  pose proof (Z.div_pos (sb_size B) 4096). destruct (decide (0 <= sb_size B)); [lia|].
  pose proof (Z.div_mod (sb_size B) 4096 ltac:(lia)). pose proof (Z.mod_pos_bound (sb_size B) 4096 ltac:(lia)). lia.
Qed.

Lemma data_nlow a : datastart B <= a < sb_size B -> nlow <= a.
Proof. intros Ha. pose proof (data_nblk a Ha). apply (data_low B HL); lia. Qed.
Lemma data_pos a : datastart B <= a < sb_size B -> 0 < a.
Proof.
  intros Ha. pose proof (data_nblk a Ha) as Hb. destruct HL as [? _ ? _ _ _ _]. unfold datastart in Ha. rewrite BPB_eq in Ha.
  pose proof (Z.div_pos (sb_size B) 4096 ltac:(lia) ltac:(lia)). lia.
Qed.

Section one.
Variable i : nat.
Definition set_inode (y : inode) (s : @fs W) : @fs W :=
  MkFs (sb s) (ic_lock s) (<[i := y]> (inodes s)) (cwd s) (blk s).

(** *** Finding a block *)
Lemma geti_bind {A} (k : inode -> M (@fs W) A) s w :
  bind (reads (fun s => geti s i)) k (set_blk w s) = k (geti s i) (set_blk w s).
Proof. done. Qed.

Lemma bmap_hit s w V k n :
  file_ok V (geti s i) -> owns w V [] [] k -> (n < MAXFILE)%nat -> fblk V (geti s i) n <> 0 ->
  exists w', bmap i (Z.of_nat n) (set_blk w s) = Ret (fblk V (geti s i) n) (set_blk w' s) /\ owns w' V [] [] k.
Proof.
  intros Hf Ho Hn Hne. pose proof (fo_dev _ _ Hf) as Hdev. unfold bmap. rewrite geti_bind.
  pose proof Hne as Hne'. unfold fblk in Hne' |- *. destruct (decide (n < NDIRECT)%nat) as [Hd|Hd].
  - destruct (Z.ltb_spec (Z.of_nat n) (Z.of_nat NDIRECT)); [|lia]. rewrite Nat2Z.id.
    destruct (Z.eqb_spec (addrs (geti s i) !!! n) 0); [done|]. by exists w.
  - destruct (Z.ltb_spec (Z.of_nat n) (Z.of_nat NDIRECT)); [lia|].
    destruct (Z.ltb_spec (Z.of_nat n - Z.of_nat NDIRECT) (Z.of_nat NINDIRECT)); [|unfold MAXFILE in Hn; lia].
    destruct (decide (addrs (geti s i) !!! NDIRECT = 0)) as [|Hi]; [done|].
    destruct (Z.eqb_spec (addrs (geti s i) !!! NDIRECT) 0); [done|]. rewrite (bind_Ret _ _ _ _ _ eq_refl).
    assert (Hown : owned V (geti s i) (addrs (geti s i) !!! NDIRECT)) by (split; [done|by right]).
    apply (fo_data _ _ Hf) in Hown as [Hr _]. rewrite Hdev.
    destruct (bread_ok w V [] [] k _ Ho (data_nblk _ Hr)) as (b & w1 & H1 & Ho1); [apply not_elem_of_nil|cbn; lia|].
    rewrite (blocks_bind _ _ _ _ _ _ H1), (blocks_bind _ _ _ _ _ _ (bdata_ok _ _ _ _ _ b _ Ho1 ltac:(left))).
    replace (Z.to_nat (Z.of_nat n - Z.of_nat NDIRECT)) with (n - NDIRECT)%nat by lia.
    destruct (Z.eqb_spec (get32 (V (addrs (geti s i) !!! NDIRECT)) (4 * (n - NDIRECT))) 0); [done|].
    rewrite (bind_Ret _ _ _ _ _ eq_refl).
    destruct (brelse_ok _ _ _ _ _ _ _ Ho1) as (w2 & H2 & Ho2); [apply not_elem_of_nil|].
    exists w2. by rewrite (blocks_bind _ _ _ _ _ _ H2).
Qed.

(** *** Reading *)
Variable devsw : Z -> @devfun W.

Lemma block_bytes V x off m :
  0 <= off -> (forall b, 0 <= b < nblk -> length (V b) = BSIZE) -> 0 <= fblk V x (Z.to_nat (off / Z.of_nat BSIZE)) < nblk ->
  Z.of_nat m <= Z.of_nat BSIZE - off mod Z.of_nat BSIZE ->
  get_bytes (V (fblk V x (Z.to_nat (off / Z.of_nat BSIZE)))) (Z.to_nat (off mod Z.of_nat BSIZE)) m = fbytes V x off m.
Proof.
  intros Hoff Hlen Hb Hm. pose proof (Z.mod_pos_bound off 512 ltac:(lia)) as Hmod. rewrite BSIZE_eq in *.
  apply (list_eq_same_length _ _ m).
  - unfold fbytes. by rewrite length_map, length_seq.
  - rewrite length_get_bytes; [done|]. rewrite Hlen by done. unfold BSIZE. lia.
  - intros p a b Hp Ha Hb'. rewrite lookup_get_bytes in Ha by done.
    unfold fbytes in Hb'. rewrite list_lookup_fmap, lookup_seq_lt in Hb' by done. cbn in Hb'. injection Hb' as <-.
    unfold fbyte. rewrite BSIZE_eq.
    assert ((off + Z.of_nat p) / 512 = off / 512 /\ (off + Z.of_nat p) mod 512 = off mod 512 + Z.of_nat p) as [-> ->].
    { pose proof (Z.div_mod off 512 ltac:(lia)).
      assert (Hq : (off + Z.of_nat p) / 512 = off / 512) by (symmetry; apply (Z.div_unique _ 512 _ (off mod 512 + Z.of_nat p)); lia).
      split; [done|]. pose proof (Z.div_mod (off + Z.of_nat p) 512 ltac:(lia)). lia. }
    rewrite Z2Nat.inj_add, Nat2Z.id by lia. symmetry. by apply list_lookup_total_correct.
Qed.

Lemma fbytes_app V x off m n : fbytes V x off m ++ fbytes V x (off + Z.of_nat m) n = fbytes V x off (m + n).
Proof.
  unfold fbytes. rewrite seq_app, map_app. f_equal.
  rewrite Nat.add_comm, <- (fmap_add_seq m 0 n). rewrite <- list_fmap_compose. apply map_ext. intros p. cbn. f_equal. lia.
Qed.

(** The turn of the loops at [off]: the block, and how many bytes of it. *)
Definition chunk (off rest : Z) : Z := Z.min rest (Z.of_nat BSIZE - off mod Z.of_nat BSIZE).
Lemma chunk_range off rest : 0 < rest -> 0 < chunk off rest <= rest.
Proof. intros. unfold chunk. pose proof (Z.mod_pos_bound off (Z.of_nat BSIZE) ltac:(done)). lia. Qed.

Lemma readi_loop_ok s V k fuel : forall w tot off n,
  file_ok V (geti s i) -> owns w V [] [] k -> 0 <= off -> tot <= n -> off + (n - tot) <= size (geti s i) ->
  n - tot <= Z.of_nat fuel ->
  exists w', readi_loop fuel i tot off n (set_blk w s) = Ret (fbytes V (geti s i) off (Z.to_nat (n - tot))) (set_blk w' s) /\
    owns w' V [] [] k.
Proof.
  induction fuel as [|fuel IH]; intros w tot off n Hf Ho Hoff Htn Hle Hfuel; cbn [readi_loop].
  - destruct (Z.ltb_spec tot n); [lia|]. exists w. replace (Z.to_nat (n - tot)) with 0%nat by lia. done.
  - destruct (Z.ltb_spec tot n) as [Hlt|]; cbn [negb].
    2: { exists w. replace (Z.to_nat (n - tot)) with 0%nat by lia. done. }
    fold (chunk off (n - tot)). set (m := chunk off (n - tot)). assert (Hm : 0 < m <= n - tot) by (apply chunk_range; lia).
    rewrite geti_bind. pose proof (fo_size _ _ Hf) as Hsz.
    assert (Hkm : (Z.to_nat (off / Z.of_nat BSIZE) < MAXFILE)%nat) by (apply block_of_pos; lia).
    assert (H0 : 0 <= off / Z.of_nat BSIZE) by (apply Z.div_pos; [lia|done]).
    assert (Hne : fblk V (geti s i) (Z.to_nat (off / Z.of_nat BSIZE)) <> 0).
    { apply (fo_full _ _ Hf); [done|]. rewrite Z2Nat.id by done.
      pose proof (Z.mul_div_le off (Z.of_nat BSIZE) ltac:(done)). lia. }
    destruct (bmap_hit s w V k _ Hf Ho Hkm Hne) as (w1 & H1 & Ho1). rewrite Z2Nat.id in H1 by done.
    rewrite (bind_Ret _ _ _ _ _ H1), (fo_dev _ _ Hf).
    pose proof (fo_data _ _ Hf _ (owned_blk _ _ _ Hkm Hne)) as [Hr _].
    destruct (bread_ok w1 V [] [] k _ Ho1 (data_nblk _ Hr)) as (b & w2 & H2 & Ho2); [apply not_elem_of_nil|cbn; lia|].
    rewrite (blocks_bind _ _ _ _ _ _ H2), (blocks_bind _ _ _ _ _ _ (bdata_ok _ _ _ _ _ b _ Ho2 ltac:(left))).
    destruct (brelse_ok _ _ _ _ _ _ _ Ho2) as (w3 & H3 & Ho3); [apply not_elem_of_nil|].
    rewrite (blocks_bind _ _ _ _ _ _ H3).
    destruct (IH w3 (tot + m) (off + m) n) as (w4 & H4 & Ho4); [done|done|lia..|].
    exists w4. rewrite (bind_Ret _ _ _ _ _ H4). split; [|done]. unfold ret. f_equal.
    rewrite block_bytes; [|lia|intros; by eapply owns_len|by apply data_nblk|unfold m, chunk in *; lia].
    replace (off + m) with (off + Z.of_nat (Z.to_nat m)) by lia. rewrite fbytes_app. f_equal. lia.
Qed.

Lemma readi_ok s w V k off n :
  file_ok V (geti s i) -> owns w V [] [] k -> 0 <= off <= size (geti s i) -> 0 <= n < 2 ^ 31 ->
  let n' := Z.min n (size (geti s i) - off) in
  exists w', readi devsw i off n (set_blk w s) = Ret (n', fbytes V (geti s i) off (Z.to_nat n')) (set_blk w' s) /\
    owns w' V [] [] k.
Proof.
  intros Hf Ho Hoff Hn n'. unfold readi. rewrite geti_bind. pose proof (fo_size _ _ Hf) as Hsz.
  destruct (Z.eqb_spec (type (geti s i)) T_DEV) as [E|_]; [by destruct (fo_type _ _ Hf)|].
  assert (Hmax : maxfile < 2 ^ 30) by done.
  rewrite (u32_id (off + n)) by lia. destruct (Z.ltb_spec (size (geti s i)) off); [lia|].
  destruct (Z.ltb_spec (off + n) off); [lia|]. cbn [orb].
  assert (E : (if size (geti s i) <? off + n then size (geti s i) - off else n) = n').
  { unfold n'. destruct (Z.ltb_spec (size (geti s i)) (off + n)); lia. }
  rewrite E. assert (Hn' : 0 <= n' <= size (geti s i) - off) by (unfold n'; lia).
  destruct (readi_loop_ok s V k (Z.to_nat n') w 0 off n') as (w' & H' & Ho'); [done|done|lia..|].
  exists w'. rewrite (bind_Ret _ _ _ _ _ H'). rewrite Z.sub_0_r. done.
Qed.
(** Outside the file, or when the range wraps around, [readi] fails. *)
Lemma readi_fails s w off n :
  type (geti s i) <> T_DEV -> 0 <= off < W32 -> 0 <= n < W32 ->
  size (geti s i) < off \/ W32 <= off + n ->
  readi devsw i off n (set_blk w s) = Ret (-1, []) (set_blk w s).
Proof.
  intros Ht Hoff Hn H. unfold readi. rewrite geti_bind. destruct (Z.eqb_spec (type (geti s i)) T_DEV); [done|].
  destruct (Z.ltb_spec (size (geti s i)) off); [done|]. destruct H as [|H]; [lia|].
  destruct (Z.ltb_spec (u32 (off + n)) off) as [|Hge]; [done|]. exfalso.
  unfold u32 in Hge. assert (Hq : (off + n) mod W32 = off + n - W32) by (symmetry; apply (Z.mod_unique _ _ 1); lia). lia.
Qed.
End one.

(** *** Allocating *)
Definition meta_used (V : Z -> list Z) : Prop := forall b, 0 <= b < datastart B -> bit B V b = true.
(** At least [n] blocks are free. *)
Definition frees (V : Z -> list Z) (n : nat) : Prop :=
  exists l, NoDup l /\ length l = n /\ forall b, b ∈ l -> 0 <= b < sb_size B /\ bit B V b = false.
Definition alloc_view (V : Z -> list Z) (c : Z) : Z -> list Z := <[c := replicate BSIZE 0]> (with_bit B V c true).

Lemma least_nat (P : Z -> bool) n : P (Z.of_nat n) = true ->
  exists c, 0 <= c <= Z.of_nat n /\ P c = true /\ forall c', 0 <= c' < c -> P c' = false.
Proof.
  induction n as [n IH] using lt_wf_ind. intros HP.
  destruct (decide (Exists (fun c => P c = true) (seqZ 0 (Z.of_nat n)))) as [He|Hn].
  - apply Exists_exists in He as (c & Hc%elem_of_seqZ & HPc).
    destruct (IH (Z.to_nat c) ltac:(lia)) as (c' & Hc' & ? & ?); rewrite ?Z2Nat.id in * by lia; [done|].
    exists c'. split_and!; [lia..|done|done].
  - exists (Z.of_nat n). split_and!; [lia..|done|]. intros c' Hc'. apply not_true_is_false. intros HPc. apply Hn, Exists_exists.
    exists c'. rewrite elem_of_seqZ. split; [lia|done].
Qed.
Lemma first_free V n : frees V (S n) ->
  exists c, 0 <= c < sb_size B /\ bit B V c = false /\ forall c', 0 <= c' < c -> bit B V c' = true.
Proof.
  intros (l & _ & Hl & Hf). destruct l as [|b l]; [done|]. destruct (Hf b ltac:(left)) as [Hb Hbit].
  destruct (least_nat (fun c => negb (bit B V c)) (Z.to_nat b)) as (c & Hc & HP & Hless).
  { rewrite Z2Nat.id by lia. by rewrite Hbit. }
  exists c. split_and!; [lia..|by apply negb_true_iff|]. intros c' Hc'. by apply negb_false_iff, Hless.
Qed.

Section alloc.
Context (w : W) (V : Z -> list Z) (H : list (nat * Z)) (k : nat).
Hypothesis Ho : owns w V [] H k.

Lemma len_V b : 0 <= b < nblk -> length (V b) = BSIZE.
Proof. by eapply owns_len. Qed.
Lemma bit_alloc c b : datastart B <= c < sb_size B -> 0 <= b < sb_size B ->
  bit B (alloc_view V c) b = if decide (b = c) then true else bit B V b.
Proof.
  intros Hc Hb. pose proof (BBLOCK_range B HL b Hb) as Hr.
  assert (Hc0 : 0 <= c < sb_size B) by (pose proof (data_nblk c Hc); lia).
  pose proof (BBLOCK_range B HL c Hc0) as Hrc.
  rewrite <- (bit_with_bit B V c true b); [|lia|lia|apply len_V; destruct HL; lia].
  unfold bit, alloc_view. by rewrite fn_lookup_insert_ne by lia.
Qed.
Lemma alloc_view_low c b : datastart B <= c < sb_size B -> 0 <= b < sb_bmapstart B -> alloc_view V c b = V b.
Proof.
  intros Hc Hb. pose proof (data_nblk c Hc). pose proof (BBLOCK_range B HL c ltac:(lia)) as Hr. unfold alloc_view, with_bit.
  rewrite !fn_lookup_insert_ne by lia. done.
Qed.
Lemma alloc_view_data c b : datastart B <= c < sb_size B -> datastart B <= b -> b <> c -> alloc_view V c b = V b.
Proof.
  intros Hc Hb Hne. pose proof (data_nblk c Hc). pose proof (BBLOCK_range B HL c ltac:(lia)) as Hr. unfold alloc_view, with_bit.
  rewrite !fn_lookup_insert_ne by lia. done.
Qed.
End alloc.

(** [balloc] on a disk with free blocks: a fresh, zeroed data block. *)
Lemma alloc_ok s w V H k n :
  sb s = B -> owns w V [] H (S (S k)) -> meta_used V -> frees V (S n) -> (length H <= 2)%nat ->
  (forall b, b ∈ H.*2 -> datastart B <= b < sb_size B /\ bit B V b = true) ->
  exists c w', balloc 1 (set_blk w s) = Ret c (set_blk w' s) /\ owns w' (alloc_view V c) [] H k /\
    datastart B <= c < sb_size B /\ bit B V c = false /\ meta_used (alloc_view V c) /\ frees (alloc_view V c) n.
Proof.
  intros Hsb Ho Hmeta Hfree HlH HH. destruct (first_free V n Hfree) as (c & Hc & Hbit & Hless).
  assert (Hd : datastart B <= c < sb_size B).
  { split; [|lia]. destruct (decide (datastart B <= c)); [done|]. rewrite Hmeta in Hbit by lia. done. }
  destruct (balloc_ok B HL s w V H k c) as (w' & H' & Ho'); try done.
  { by apply data_nlow. }
  { intros b Hb Hin. apply HH in Hin as [Hin _]. pose proof (BBLOCK_range B HL b Hb). lia. }
  { intros Hin. apply HH in Hin as [_ Hin]. congruence. }
  exists c, w'. split_and!; try done; [lia..| |].
  - intros b Hb. rewrite (bit_alloc w V H (S (S k)) Ho) by (destruct HL; lia). case_decide; [done|]. by apply Hmeta.
  - destruct Hfree as (l & Hnd & Hl & Hf).
    exists (if decide (c ∈ l) then remove_elem c l else tail l).
    assert (Hbits : forall b, b ∈ l -> b <> c -> 0 <= b < sb_size B /\ bit B (alloc_view V c) b = false).
    { intros b Hb Hne. destruct (Hf b Hb) as [Hr Hbb]. split; [done|].
      rewrite (bit_alloc w V H (S (S k)) Ho) by done. by rewrite decide_False. }
    case_decide as Hin.
    + split_and!; [by apply NoDup_remove_elem|pose proof (length_remove_elem c l Hnd Hin); lia|].
      intros b [Hne Hb]%elem_of_remove_elem. by apply Hbits.
    + destruct l as [|a l]; [done|]. cbn in *. apply NoDup_cons in Hnd as [_ Hnd]. split_and!; [done|lia|].
      intros b Hb. apply Hbits; [by right|]. intros ->. by destruct Hin; right.
Qed.

(** *** Growing a file *)

(** [V'], [x'] is the file after blocks have been added to it: its old blocks are where they
    were, the new ones were free, and no block of anybody else has changed. *)
Record extends (V : Z -> list Z) (x : inode) (V' : Z -> list Z) (x' : inode) : Prop := MkExtends {
  ex_x : x' = set_addrs (addrs x') x;
  ex_ok : file_ok V' x';
  ex_blk n : (n < MAXFILE)%nat -> fblk V x n <> 0 -> fblk V' x' n = fblk V x n;
  ex_low b : 0 <= b < sb_bmapstart B -> V' b = V b;
  ex_other b : datastart B <= b < sb_size B -> bit B V b = true -> ~ owned V x b -> V' b = V b;
  ex_bit b : 0 <= b < sb_size B -> bit B V b = true -> bit B V' b = true;
  ex_new b : 0 <= b < sb_size B -> bit B V' b = true -> bit B V b = true \/ owned V' x' b;
  ex_owned b : owned V x b -> owned V' x' b;
  ex_fresh b : owned V' x' b -> owned V x b \/ bit B V b = false
}.

Lemma extends_refl V x : file_ok V x -> extends V x V x.
Proof. intros Hf. split; try done; try tauto. by destruct x. Qed.
Lemma extends_trans V1 x1 V2 x2 V3 x3 :
  file_ok V1 x1 -> extends V1 x1 V2 x2 -> extends V2 x2 V3 x3 -> extends V1 x1 V3 x3.
Proof.
  intros Hf [X1 F1 B1 L1 O1 T1 N1 W1 R1] [X2 F2 B2 L2 O2 T2 N2 W2 R2]. split; try done.
  - rewrite X2, X1. by destruct x1.
  - intros n Hn Hne. rewrite <- B1 by done. apply B2; [done|]. by rewrite B1.
  - intros b Hb. rewrite <- L1 by done. by apply L2.
  - intros b Hb Hbit Hown. rewrite <- O1 by done.
    assert (Hb0 : 0 <= b < sb_size B) by (pose proof (data_nblk b Hb); lia).
    apply O2; [done|by apply T1|]. intros [?|?]%R1; [done|congruence].
  - auto.
  - intros b Hb Hbit. destruct (N2 b Hb Hbit) as [Hbit2|]; [|by right]. destruct (N1 b Hb Hbit2); auto.
  - auto.
  - intros b Hown. destruct (R2 b Hown) as [Hown2|Hbit2]; [by apply R1|]. right.
    apply not_true_is_false. intros Hbit. rewrite T1 in Hbit2; [done| |done].
    pose proof (fo_data _ _ F2 b Hown) as [Hr _]. pose proof (data_nblk b Hr). lia.
Qed.

(** The three ways [bmap] adds the block [c]: as block [n0], or as the indirect block. *)
Section add.
Context (V : Z -> list Z) (x : inode) (V' : Z -> list Z) (x' : inode) (c : Z).
Hypothesis Hf : file_ok V x.
Hypothesis Hx' : x' = set_addrs (addrs x') x.
Hypothesis Hlen : length (addrs x') = S NDIRECT.
Hypothesis Hc : datastart B <= c < sb_size B.
Hypothesis Hbit : bit B V c = false.
Hypothesis Hbits : forall b, 0 <= b < sb_size B -> bit B V' b = if decide (b = c) then true else bit B V b.
Hypothesis Hlow : forall b, 0 <= b < sb_bmapstart B -> V' b = V b.
Hypothesis Hoth : forall b, datastart B <= b < sb_size B -> b <> c -> b <> addrs x !!! NDIRECT -> V' b = V b.
Hypothesis Hcase :
  (exists n0, (n0 < MAXFILE)%nat /\ fblk V x n0 = 0 /\ addrs x' !!! NDIRECT = addrs x !!! NDIRECT /\
     forall n, (n < MAXFILE)%nat -> fblk V' x' n = if decide (n = n0) then c else fblk V x n) \/
  (addrs x !!! NDIRECT = 0 /\ addrs x' !!! NDIRECT = c /\ forall n, (n < MAXFILE)%nat -> fblk V' x' n = fblk V x n).

Lemma add_not_c b : owned V x b -> b <> c.
Proof. intros [_ Hb]%(fo_data _ _ Hf) ->. congruence. Qed.
Lemma add_c0 : c <> 0.
Proof. pose proof (data_pos c Hc). lia. Qed.
Lemma add_owned b : owned V' x' b <-> owned V x b \/ b = c.
Proof.
  pose proof add_c0 as Hc0. destruct Hcase as [(n0 & Hn0 & Hz & Hind & Hblk)|(Hz & Hind & Hblk)]; unfold owned; split.
  - intros (Hb & [(n & Hn & <-)|<-]).
    + rewrite Hblk in * by done. case_decide; [by right|]. left. split; [done|]. left. by exists n.
    + rewrite Hind in *. left. split; [done|]. by right.
  - intros [(Hb & [(n & Hn & <-)|<-])| ->].
    + split; [done|]. left. exists n. split; [done|]. rewrite Hblk by done. case_decide; [by subst|done].
    + split; [done|]. by right.
    + split; [done|]. left. exists n0. split; [done|]. rewrite Hblk by done. by rewrite decide_True.
  - intros (Hb & [(n & Hn & <-)|<-]); [|by right]. rewrite Hblk in * by done. left. split; [done|]. left. by exists n.
  - intros [(Hb & [(n & Hn & <-)|<-])| ->]; [|done|by split; [|right]].
    split; [done|]. left. exists n. by rewrite Hblk.
Qed.
Lemma add_le n : (n < MAXFILE)%nat -> fblk V x n <> 0 -> fblk V' x' n = fblk V x n.
Proof.
  intros Hn Hne. destruct Hcase as [(n0 & Hn0 & Hz & _ & Hblk)|(_ & _ & Hblk)]; rewrite Hblk by done; [|done].
  case_decide; [by subst|done].
Qed.
Lemma add_file_ok : file_ok V' x'.
Proof.
  pose proof add_c0 as Hc0.
  split.
  - rewrite Hx'. apply Hf.
  - rewrite Hx'. apply Hf.
  - done.
  - rewrite Hx'. apply Hf.
  - intros k Hk Hsz. rewrite Hx' in Hsz. pose proof (fo_full _ _ Hf k Hk Hsz) as Hne. by rewrite add_le.
  - intros a [Ha| ->]%add_owned; [|split; [done|rewrite Hbits by (pose proof (data_nblk c Hc); lia); by rewrite decide_True]].
    destruct (fo_data _ _ Hf a Ha) as [Hr Hb]. split; [done|].
    rewrite Hbits by (pose proof (data_nblk a Hr); lia). by case_decide.
  - intros k k' Hk Hk' Hne He.
    assert (Hold : forall j, (j < MAXFILE)%nat -> fblk V x j <> 0 -> fblk V x j <> c).
    { intros j Hj Hj'. by apply add_not_c, owned_blk. }
    destruct Hcase as [(n0 & Hn0 & Hz & _ & Hblk)|(_ & _ & Hblk)]; rewrite !Hblk in * by done; [|by apply (fo_inj _ _ Hf)].
    repeat case_decide; subst; [done|..|by apply (fo_inj _ _ Hf)]; exfalso.
    + apply (Hold k'); congruence.
    + apply (Hold k); congruence.
  - intros k Hk Hne He. destruct Hcase as [(n0 & Hn0 & Hz & Hind & Hblk)|(Hz & Hind & Hblk)]; rewrite Hblk, Hind in * by done.
    + case_decide; [|by apply (fo_ind _ _ Hf k Hk)]. apply (add_not_c c); [|done]. split; [done|]. by right.
    + apply (add_not_c c); [|done]. rewrite <- He. by apply owned_blk.
Qed.
Lemma add_block : extends V x V' x'.
Proof.
  split; try done.
  - apply add_file_ok.
  - apply add_le.
  - intros b Hb Hbb Hno. apply Hoth; [done|congruence|]. intros ->. apply Hno. split; [|by right].
    pose proof (data_pos _ Hb). lia.
  - intros b Hb Hbb. rewrite Hbits by done. by case_decide.
  - intros b Hb. rewrite Hbits by done. case_decide; [|by left]. intros _. right. apply add_owned. by right.
  - intros b Hb. apply add_owned. by left.
  - intros b [?| ->]%add_owned; auto.
Qed.
End add.

Lemma frees_mono V n m : (m <= n)%nat -> frees V n -> frees V m.
Proof.
  intros Hle (l & Hnd & Hl & Hf). exists (take m l). split_and!.
  - eapply sublist_NoDup; [done|]. apply sublist_take.
  - rewrite length_take. lia.
  - intros b (j & Hj & _)%elem_of_take. by eapply Hf, list_elem_of_lookup_2.
Qed.
Lemma frees_bits V V' n : (forall b, 0 <= b < sb_size B -> bit B V' b = bit B V b) -> frees V n -> frees V' n.
Proof.
  intros Hbits (l & Hnd & Hl & Hf). exists l. split_and!; [done..|]. intros b Hb. destruct (Hf b Hb) as [Hr Hbb].
  split; [done|]. by rewrite Hbits.
Qed.
Lemma owns_weaken w V P H k k' : (k' <= k)%nat -> owns w V P H k -> owns w V P H k'.
Proof. intros Hle. induction Hle; [done|]. intros Ho. by apply IHHle, owns_mono. Qed.

(** *** [bmap] that may allocate *)
Section grow.
Variable i : nat.

Lemma set_inode_id s : (i < length (inodes s))%nat -> set_inode i (geti s i) s = s.
Proof. intros Hi. destruct s. unfold set_inode, geti. cbn in *. f_equal. by apply list_insert_id, list_lookup_lookup_total_lt. Qed.
Lemma geti_set_inode s y : (i < length (inodes s))%nat -> geti (set_inode i y s) i = y.
Proof. intros Hi. unfold geti, set_inode. cbn. by apply list_lookup_total_insert_eq. Qed.
Lemma length_set_inode s y : length (inodes (set_inode i y s)) = length (inodes s).
Proof. apply length_insert. Qed.
Lemma set_inode_twice s y z : set_inode i z (set_inode i y s) = set_inode i z s.
Proof. unfold set_inode. cbn. by rewrite list_insert_insert_eq. Qed.
Lemma upd_run s w f : (i < length (inodes s))%nat ->
  upd i f (set_blk w s) = Ret tt (set_blk w (set_inode i (f (geti s i)) s)).
Proof.
  intros Hi. unfold upd, modify, set_blk, set_inode, geti. cbn. do 2 f_equal. clear -Hi. revert Hi. generalize (inodes s). clear.
  intros l. revert i. induction l as [|y l IH]; intros [|i] Hi; cbn in *; [lia|lia|done|]. f_equal. apply IH. lia.
Qed.
Lemma upd_bind {A} s w f (k : unit -> M (@fs W) A) : (i < length (inodes s))%nat ->
  bind (upd i f) k (set_blk w s) = k tt (set_blk w (set_inode i (f (geti s i)) s)).
Proof. intros Hi. by rewrite (bind_Ret _ _ _ _ _ (upd_run s w f Hi)). Qed.

(** After [bmap]: block [n] is at [c]; the bytes of the other blocks are what they were. *)
Record grown (V : Z -> list Z) (x : inode) (V' : Z -> list Z) (x' : inode) : Prop := MkGrown {
  gr_ext : extends V x V' x';
  gr_data n : (n < MAXFILE)%nat -> fblk V x n <> 0 -> V' (fblk V x n) = V (fblk V x n);
  gr_meta : meta_used V'
}.
Lemma grown_refl V x : file_ok V x -> meta_used V -> grown V x V x.
Proof. intros. split; [by apply extends_refl|done..]. Qed.
Lemma grown_trans V1 x1 V2 x2 V3 x3 : file_ok V1 x1 -> grown V1 x1 V2 x2 -> grown V2 x2 V3 x3 -> grown V1 x1 V3 x3.
Proof.
  intros Hf [E1 D1 M1] [E2 D2 M2]. split; [by eapply extends_trans| |done].
  intros n Hn Hne. rewrite <- D1 by done. rewrite <- (ex_blk _ _ _ _ E1) by done. apply D2; [done|].
  by rewrite (ex_blk _ _ _ _ E1).
Qed.

(** A fresh block is none of the file's. *)
Lemma alloc_data V x c n :
  file_ok V x -> datastart B <= c < sb_size B -> bit B V c = false -> (n < MAXFILE)%nat -> fblk V x n <> 0 ->
  alloc_view V c (fblk V x n) = V (fblk V x n).
Proof.
  intros Hf Hc Hbit Hn Hne. pose proof (fo_data _ _ Hf _ (owned_blk V x n Hn Hne)) as [Hr Hb].
  apply alloc_view_data; [done|lia|congruence].
Qed.
Lemma alloc_ind V x c :
  file_ok V x -> datastart B <= c < sb_size B -> bit B V c = false -> addrs x !!! NDIRECT <> 0 ->
  alloc_view V c (addrs x !!! NDIRECT) = V (addrs x !!! NDIRECT).
Proof.
  intros Hf Hc Hbit Hne. assert (Hown : owned V x (addrs x !!! NDIRECT)) by (split; [done|by right]).
  pose proof (fo_data _ _ Hf _ Hown) as [Hr Hb]. apply alloc_view_data; [done|lia|congruence].
Qed.

Lemma direct_blk V x c n n' :
  file_ok V x -> datastart B <= c < sb_size B -> bit B V c = false -> (n < NDIRECT)%nat -> (n' < MAXFILE)%nat ->
  fblk (alloc_view V c) (set_addrs (<[n := c]> (addrs x)) x) n' = if decide (n' = n) then c else fblk V x n'.
Proof.
  intros Hf Hc Hbit Hn Hn'. pose proof (fo_len _ _ Hf) as Hlen. unfold fblk. cbn [addrs set_addrs].
  destruct (decide (n' < NDIRECT)%nat) as [Hd|Hd].
  - case_decide; [subst; by rewrite list_lookup_total_insert_eq by lia|by rewrite list_lookup_total_insert_ne].
  - rewrite (decide_False (P := n' = n)) by lia. rewrite list_lookup_total_insert_ne by lia.
    case_decide; [done|]. by rewrite alloc_ind.
Qed.

(** The fresh block [c] becomes block [n] of the file, its indirect block, or the block of an
    entry of the indirect block. *)
Lemma grown_direct w V x c n k :
  owns w V [] [] k -> file_ok V x -> datastart B <= c < sb_size B -> bit B V c = false -> meta_used (alloc_view V c) ->
  (n < NDIRECT)%nat -> fblk V x n = 0 -> grown V x (alloc_view V c) (set_addrs (<[n := c]> (addrs x)) x).
Proof.
  intros Ho Hf Hc Hbit Hmeta' Hn Hz.
  split; [|intros; by apply alloc_data|done]. apply (add_block V x _ _ c); try done.
  - cbn. rewrite length_insert. apply Hf.
  - intros b Hb'. by eapply bit_alloc.
  - intros b Hb'. by eapply alloc_view_low.
  - intros b Hb' Hne _. eapply alloc_view_data; [done|lia|done].
  - left. exists n. split_and!; [unfold MAXFILE; lia|done| |].
    + cbn. by rewrite list_lookup_total_insert_ne by lia.
    + intros n' Hn'. by apply direct_blk.
Qed.

Lemma bmap_direct s w V k n m :
  sb s = B -> (i < length (inodes s))%nat -> file_ok V (geti s i) -> owns w V [] [] (2 + k) -> meta_used V -> frees V (S m) ->
  (n < NDIRECT)%nat -> fblk V (geti s i) n = 0 ->
  exists c w' V' x', bmap i (Z.of_nat n) (set_blk w s) = Ret c (set_blk w' (set_inode i x' s)) /\ owns w' V' [] [] k /\
    grown V (geti s i) V' x' /\ fblk V' x' n = c /\ c <> 0 /\ frees V' m.
Proof.
  intros Hsb Hi Hf Ho Hmeta Hfree Hn Hz. set (x := geti s i) in *.
  destruct (alloc_ok s w V [] k m Hsb Ho Hmeta Hfree) as (c & w' & Hb & Ho' & Hc & Hbit & Hmeta' & Hfree');
    [cbn; lia|by intros b ?%elem_of_nil|].
  assert (Haddr : addrs x !!! n = 0) by (unfold fblk in Hz; by rewrite decide_True in Hz).
  exists c, w', (alloc_view V c), (set_addrs (<[n := c]> (addrs x)) x). split_and!; try done.
  - unfold bmap. rewrite geti_bind. fold x. destruct (Z.ltb_spec (Z.of_nat n) (Z.of_nat NDIRECT)); [|lia].
    rewrite Nat2Z.id, Haddr. cbn [Z.eqb]. rewrite (fo_dev _ _ Hf), (bind_Ret _ _ _ _ _ Hb), upd_bind by done. done.
  - by eapply grown_direct.
  - rewrite direct_blk by (try done; unfold MAXFILE; lia). by rewrite decide_True.
  - pose proof (data_pos c Hc). lia.
Qed.

(** The indirect block. *)
Definition ensure_ind (x : inode) : M (@fs W) Z :=
  if addrs x !!! NDIRECT =? 0 then
    b <- balloc (dev x) ;;
    upd i (fun y => set_addrs (<[NDIRECT := b]> (addrs y)) y) ;;;
    ret b
  else ret (addrs x !!! NDIRECT).

Lemma zeros32 j : get32 (replicate BSIZE 0) j = 0.
Proof.
  unfold get32, get_bytes. rewrite drop_replicate, take_replicate. generalize (4 `min` (BSIZE - j))%nat. intros n.
  induction n as [|n IH]; [done|]. cbn. lia.
Qed.
Lemma ind_blk V x c n :
  file_ok V x -> addrs x !!! NDIRECT = 0 -> datastart B <= c < sb_size B -> (n < MAXFILE)%nat ->
  fblk (alloc_view V c) (set_addrs (<[NDIRECT := c]> (addrs x)) x) n = fblk V x n.
Proof.
  intros Hf Hz Hc Hn. pose proof (fo_len _ _ Hf) as Hlen. unfold fblk. cbn [addrs set_addrs].
  destruct (decide (n < NDIRECT)%nat) as [Hd|Hd]; [by rewrite list_lookup_total_insert_ne by lia|].
  rewrite list_lookup_total_insert_eq by lia. rewrite Hz. case_decide; [done|].
  rewrite (decide_True (P := 0 = 0)) by done. unfold alloc_view. rewrite fn_lookup_insert. apply zeros32.
Qed.
Lemma grown_ind w V x c k :
  owns w V [] [] k -> file_ok V x -> datastart B <= c < sb_size B -> bit B V c = false -> meta_used (alloc_view V c) ->
  addrs x !!! NDIRECT = 0 -> grown V x (alloc_view V c) (set_addrs (<[NDIRECT := c]> (addrs x)) x).
Proof.
  intros Ho Hf Hc Hbit Hmeta' Hz. pose proof (fo_len _ _ Hf) as Hlen.
  split; [|intros; by apply alloc_data|done]. apply (add_block V x _ _ c); try done.
  - cbn. by rewrite length_insert.
  - intros b Hb'. by eapply bit_alloc.
  - intros b Hb'. by eapply alloc_view_low.
  - intros b Hb' Hne _. eapply alloc_view_data; [done|lia|done].
  - right. cbn. rewrite list_lookup_total_insert_eq by lia. split_and!; [done..|]. intros n Hn. by apply ind_blk.
Qed.
Lemma ensure_ind_ok s w V k m :
  sb s = B -> (i < length (inodes s))%nat -> file_ok V (geti s i) -> owns w V [] [] (2 + k) -> meta_used V -> frees V (S m) ->
  exists ind w' V' x', ensure_ind (geti s i) (set_blk w s) = Ret ind (set_blk w' (set_inode i x' s)) /\
    owns w' V' [] [] k /\ grown V (geti s i) V' x' /\ addrs x' !!! NDIRECT = ind /\ ind <> 0 /\ frees V' m /\
    forall n, (n < MAXFILE)%nat -> fblk V' x' n = fblk V (geti s i) n.
Proof.
  intros Hsb Hi Hf Ho Hmeta Hfree. unfold ensure_ind. set (x := geti s i) in *.
  destruct (Z.eqb_spec (addrs x !!! NDIRECT) 0) as [Hz|Hz].
  2: { exists (addrs x !!! NDIRECT), w, V, x. unfold x. rewrite set_inode_id by done. split_and!; try done.
       - eapply owns_weaken; [|exact Ho]. lia.
       - by apply grown_refl.
       - eapply frees_mono; [|exact Hfree]. lia. }
  destruct (alloc_ok s w V [] k m Hsb Ho Hmeta Hfree) as (c & w' & Hb & Ho' & Hc & Hbit & Hmeta' & Hfree');
    [cbn; lia|by intros b ?%elem_of_nil|].
  pose proof (fo_len _ _ Hf) as Hlen.
  exists c, w', (alloc_view V c), (set_addrs (<[NDIRECT := c]> (addrs x)) x). split_and!; try done.
  - by rewrite (fo_dev _ _ Hf), (bind_Ret _ _ _ _ _ Hb), upd_bind.
  - by eapply grown_ind.
  - cbn. by rewrite list_lookup_total_insert_eq by lia.
  - pose proof (data_pos c Hc). lia.
  - intros n Hn. by apply ind_blk.
Qed.

(** An entry of the indirect block. *)
Definition ensure_entry (x : inode) (ind : Z) (j : nat) : M (@fs W) Z :=
  bp <- blocks (bread (dev x) ind) ;;
  d <- blocks (bdata bp) ;;
  r <- (if get32 d (4 * j) =? 0 then
          b <- balloc (dev x) ;;
          blocks (bset bp (put32 d (4 * j) b)) ;;;
          blocks (log_write bp) ;;;
          ret b
        else ret (get32 d (4 * j))) ;;
  blocks (brelse bp) ;;;
  ret r.
Definition entry_view (V : Z -> list Z) (ind : Z) (j : nat) (c : Z) : Z -> list Z :=
  <[ind := put32 (V ind) (4 * j) c]> (alloc_view V c).

Lemma entry_fits (d : list Z) j : length d = BSIZE -> (j < NINDIRECT)%nat -> (4 * j + 4 <= length d)%nat.
Proof. intros ->. change NINDIRECT with 128%nat. unfold BSIZE. lia. Qed.

Lemma ensure_entry_run s w V k m j :
  sb s = B -> file_ok V (geti s i) -> owns w V [] [] (3 + k) -> meta_used V -> frees V (S m) ->
  (j < NINDIRECT)%nat -> addrs (geti s i) !!! NDIRECT <> 0 -> fblk V (geti s i) (NDIRECT + j) = 0 ->
  exists c w', ensure_entry (geti s i) (addrs (geti s i) !!! NDIRECT) j (set_blk w s) = Ret c (set_blk w' s) /\
    owns w' (entry_view V (addrs (geti s i) !!! NDIRECT) j c) [] [] k /\
    datastart B <= c < sb_size B /\ bit B V c = false /\ meta_used (alloc_view V c) /\ frees (alloc_view V c) m.
Proof.
  intros Hsb Hf Ho Hmeta Hfree Hj Hne Hz. set (x := geti s i) in *. set (ind := addrs x !!! NDIRECT) in *.
  assert (Hown : owned V x ind) by (split; [done|by right]). destruct (fo_data _ _ Hf _ Hown) as [Hr Hbind].
  unfold ensure_entry. rewrite (fo_dev _ _ Hf).
  destruct (bread_ok w V [] [] (3 + k) ind Ho (data_nblk _ Hr)) as (b & w1 & H1 & Ho1); [apply not_elem_of_nil|cbn; lia|].
  rewrite (blocks_bind _ _ _ _ _ _ H1), (blocks_bind _ _ _ _ _ _ (bdata_ok _ _ _ _ _ b _ Ho1 ltac:(left))).
  assert (Hz' : get32 (V ind) (4 * j) = 0).
  { unfold fblk in Hz. rewrite decide_False in Hz by lia. fold ind in Hz. rewrite decide_False in Hz by done.
    by replace (NDIRECT + j - NDIRECT)%nat with j in Hz by lia. }
  rewrite Hz'. cbn [Z.eqb].
  destruct (alloc_ok s w1 V [(b, ind)] (1 + k) m Hsb Ho1 Hmeta Hfree) as (c & w2 & Hb & Ho2 & Hc & Hbit & Hmeta' & Hfree');
    [cbn; lia|intros b' ->%list_elem_of_singleton; done|].
  assert (Hlv : length (V ind) = BSIZE) by (eapply owns_len; [exact Ho|by apply data_nblk]).
  destruct (bset_ok _ _ _ _ _ b ind (put32 (V ind) (4 * j) c) Ho2) as (w3 & H3 & Ho3);
    [by left|rewrite length_put32; [done|by apply entry_fits]|].
  destruct (log_write_ok _ _ _ _ _ b ind Ho3) as (w4 & H4 & Ho4); [by left|by apply data_nlow|].
  assert (remove_elem ind [ind] = []) as E by (apply (remove_elem_middle ind [] []); apply NoDup_singleton).
  rewrite E in Ho4. destruct (brelse_ok _ _ _ _ _ b ind Ho4) as (w5 & H5 & Ho5); [apply not_elem_of_nil|].
  exists c, w5. split_and!; try done; [|lia..].
  match goal with |- bind ?inner _ _ = _ => assert (Hin : inner (set_blk w1 s) = Ret c (set_blk w4 s)) end.
  { by rewrite (bind_Ret _ _ _ _ _ Hb), (blocks_bind _ _ _ _ _ _ H3), (blocks_bind _ _ _ _ _ _ H4). }
  by rewrite (bind_Ret _ _ _ _ _ Hin), (blocks_bind _ _ _ _ _ _ H5).
Qed.

Lemma entry_blk V x j c n :
  file_ok V x -> length (V (addrs x !!! NDIRECT)) = BSIZE -> (j < NINDIRECT)%nat -> addrs x !!! NDIRECT <> 0 ->
  datastart B <= c < sb_size B -> (n < MAXFILE)%nat ->
  fblk (entry_view V (addrs x !!! NDIRECT) j c) x n = if decide (n = NDIRECT + j)%nat then c else fblk V x n.
Proof.
  intros Hf Hlen Hj Hne Hc Hn. pose proof (entry_fits _ j Hlen Hj) as Hfit. unfold fblk.
  destruct (decide (n < NDIRECT)%nat) as [Hd|Hd]; [by rewrite (decide_False (P := n = _)) by lia|].
  rewrite decide_False by done. unfold entry_view. rewrite fn_lookup_insert. case_decide as E.
  - subst n. replace (NDIRECT + j - NDIRECT)%nat with j by lia. rewrite get32_put32_same by done.
    apply u32_id. pose proof (data_pos c Hc). destruct HL. lia.
  - rewrite decide_False by done. apply get32_put32_ne; [done|]. lia.
Qed.

Lemma grown_entry w V x c j k :
  owns w V [] [] k -> file_ok V x -> datastart B <= c < sb_size B -> bit B V c = false -> meta_used (alloc_view V c) ->
  (j < NINDIRECT)%nat -> addrs x !!! NDIRECT <> 0 -> fblk V x (NDIRECT + j) = 0 ->
  let V' := entry_view V (addrs x !!! NDIRECT) j c in
  grown V x V' x /\ forall b, 0 <= b < sb_size B -> bit B V' b = bit B (alloc_view V c) b.
Proof.
  intros Ho Hf Hc Hbit Hmeta' Hj Hne Hz. cbv zeta. set (ind := addrs x !!! NDIRECT) in *.
  assert (Hown : owned V x ind) by (split; [done|by right]). destruct (fo_data _ _ Hf _ Hown) as [Hri Hbind].
  assert (Hlv : length (V ind) = BSIZE) by (eapply owns_len; [exact Ho|by apply data_nblk]).
  assert (Hmx : (NDIRECT + j < MAXFILE)%nat) by (unfold MAXFILE; lia).
  assert (Hbits : forall b, 0 <= b < sb_size B -> bit B (entry_view V ind j c) b = bit B (alloc_view V c) b).
  { intros b Hb. pose proof (BBLOCK_range B HL b Hb). unfold bit, entry_view. by rewrite fn_lookup_insert_ne by lia. }
  split; [|done].
  split.
  - apply (add_block V x _ x c); try done.
    + by destruct x.
    + apply Hf.
    + intros b Hb. rewrite Hbits by done. by eapply bit_alloc.
    + intros b Hb. unfold entry_view. rewrite fn_lookup_insert_ne by (pose proof (BBLOCK_range B HL ind ltac:(pose proof (data_nblk ind Hri); lia)); lia).
      by eapply alloc_view_low.
    + intros b Hb Hbc Hbi. unfold entry_view. rewrite fn_lookup_insert_ne by done. eapply alloc_view_data; [done|lia|done].
    + left. exists (NDIRECT + j)%nat. split_and!; [done..|]. intros n Hn. by apply entry_blk.
  - intros n Hn Hnn. unfold entry_view. rewrite fn_lookup_insert_ne by (intros E; by apply (fo_ind _ _ Hf n Hn Hnn)).
      by apply alloc_data.
  - intros b Hb. rewrite Hbits by (destruct HL; lia). by apply Hmeta'.
Qed.

Lemma ensure_entry_ok s w V k m j :
  sb s = B -> file_ok V (geti s i) -> owns w V [] [] (3 + k) -> meta_used V -> frees V (S m) ->
  (j < NINDIRECT)%nat -> addrs (geti s i) !!! NDIRECT <> 0 -> fblk V (geti s i) (NDIRECT + j) = 0 ->
  exists c w' V', ensure_entry (geti s i) (addrs (geti s i) !!! NDIRECT) j (set_blk w s) = Ret c (set_blk w' s) /\
    owns w' V' [] [] k /\ grown V (geti s i) V' (geti s i) /\ fblk V' (geti s i) (NDIRECT + j) = c /\ c <> 0 /\ frees V' m.
Proof.
  intros Hsb Hf Ho Hmeta Hfree Hj Hne Hz.
  destruct (ensure_entry_run s w V k m j) as (c & w' & Hr & Ho' & Hc & Hbit & Hmeta' & Hfree'); try done.
  set (x := geti s i) in *. set (ind := addrs x !!! NDIRECT) in *.
  assert (Hown : owned V x ind) by (split; [done|by right]). destruct (fo_data _ _ Hf _ Hown) as [Hri Hbind].
  assert (Hlv : length (V ind) = BSIZE) by (eapply owns_len; [exact Ho|by apply data_nblk]).
  assert (Hmx : (NDIRECT + j < MAXFILE)%nat) by (unfold MAXFILE; lia).
  destruct (grown_entry w V x c j _ Ho Hf Hc Hbit Hmeta' Hj Hne Hz) as [Hg Hbits].
  exists c, w', (entry_view V ind j c). split_and!; try done.
  - unfold ind. rewrite entry_blk by done. by rewrite decide_True.
  - pose proof (data_pos c Hc). lia.
  - by apply (frees_bits (alloc_view V c)).
Qed.

(** [bmap] on a disk with free blocks. *)
Lemma bmap_ok s w V k n m :
  sb s = B -> (i < length (inodes s))%nat -> file_ok V (geti s i) -> owns w V [] [] (5 + k) -> meta_used V ->
  frees V (2 + m) -> (n < MAXFILE)%nat ->
  exists c w' V' x', bmap i (Z.of_nat n) (set_blk w s) = Ret c (set_blk w' (set_inode i x' s)) /\ owns w' V' [] [] k /\
    grown V (geti s i) V' x' /\ fblk V' x' n = c /\ c <> 0 /\ frees V' m /\
    (fblk V (geti s i) n <> 0 -> x' = geti s i).
Proof.
  intros Hsb Hi Hf Ho Hmeta Hfree Hn. destruct (decide (fblk V (geti s i) n = 0)) as [Hz|Hz].
  2: { destruct (bmap_hit i s w V (5 + k) n) as (w' & H1 & Ho1); try done.
       exists (fblk V (geti s i) n), w', V, (geti s i). rewrite set_inode_id by done. split_and!; try done.
       - eapply owns_weaken; [|exact Ho1]. lia.
       - by apply grown_refl.
       - eapply frees_mono; [|exact Hfree]. lia. }
  destruct (decide (n < NDIRECT)%nat) as [Hd|Hd].
  { destruct (bmap_direct s w V k n m) as (c & w' & V' & x' & ? & ? & ? & ? & ? & ?); try done;
      [eapply owns_weaken; [|exact Ho]; lia|eapply frees_mono; [|exact Hfree]; lia|].
    exists c, w', V', x'. split_and!; try done; lia. }
  destruct (ensure_ind_ok s w V (3 + k) (S m)) as (ind & w1 & V1 & x1 & H1 & Ho1 & Hg1 & Hind & Hind0 & Hfr1 & Hblk1); try done.
  set (s1 := set_inode i x1 s) in *.
  assert (Hx1 : geti s1 i = x1) by (by apply geti_set_inode).
  destruct (ensure_entry_ok s1 w1 V1 k m (n - NDIRECT)) as (c & w2 & V2 & H2 & Ho2 & Hg2 & Hc & Hc0 & Hfr2); try done;
    rewrite ?Hx1 in *; [apply Hg1|apply Hg1|unfold MAXFILE in Hn; lia|congruence| |].
  { replace (NDIRECT + (n - NDIRECT))%nat with n by lia. by rewrite Hblk1. }
  replace (NDIRECT + (n - NDIRECT))%nat with n in Hc by lia.
  exists c, w2, V2, x1. split_and!; try done; [|by eapply grown_trans].
  unfold bmap. rewrite geti_bind. destruct (Z.ltb_spec (Z.of_nat n) (Z.of_nat NDIRECT)); [lia|].
  destruct (Z.ltb_spec (Z.of_nat n - Z.of_nat NDIRECT) (Z.of_nat NINDIRECT)); [|unfold MAXFILE in Hn; lia].
  change (if addrs (geti s i) !!! NDIRECT =? 0 then _ else _) with (ensure_ind (geti s i)).
  rewrite (bind_Ret _ _ _ _ _ H1). replace (Z.to_nat (Z.of_nat n - Z.of_nat NDIRECT)) with (n - NDIRECT)%nat by lia.
  rewrite Hind in H2. etransitivity; [|exact H2]. unfold ensure_entry.
  rewrite (fo_dev _ _ Hf), (fo_dev _ _ (ex_ok _ _ _ _ (gr_ext _ _ _ _ Hg1))). done.
Qed.

(** *** Writing *)
Lemma owned_ext V V' x : (forall n, (n < MAXFILE)%nat -> fblk V' x n = fblk V x n) ->
  forall a, owned V' x a <-> owned V x a.
Proof.
  intros H a. unfold owned. split; intros (Ha & [(k & Hk & <-)|<-]); (split; [done|]); [|by right| |by right];
    left; exists k; by rewrite H in *.
Qed.
Lemma file_ok_ext V V' x :
  file_ok V x -> (forall n, (n < MAXFILE)%nat -> fblk V' x n = fblk V x n) ->
  (forall a, owned V x a -> bit B V' a = true) -> file_ok V' x.
Proof.
  intros [H1 H2 H3 H4 H5 H6 H7 H8] Hb Ht. split; try done.
  - intros k Hk Hs. rewrite Hb by done. by apply H5.
  - intros a Ha. rewrite (owned_ext V V' x Hb) in Ha. split; [by apply H6|by apply Ht].
  - intros k k' Hk Hk'. rewrite !Hb by done. by apply H7.
  - intros k Hk. rewrite Hb by done. by apply H8.
Qed.

(** New data in block [n]. *)
Lemma set_data_ext V x n d :
  file_ok V x -> meta_used V -> (n < MAXFILE)%nat -> fblk V x n <> 0 ->
  let V' := <[fblk V x n := d]> V in
  extends V x V' x /\ meta_used V' /\ (forall n', (n' < MAXFILE)%nat -> fblk V' x n' = fblk V x n') /\
  (forall b, 0 <= b < sb_size B -> bit B V' b = bit B V b).
Proof.
  intros Hf Hmeta Hn Hne V'. pose proof (fo_data _ _ Hf _ (owned_blk V x n Hn Hne)) as [Hr Hbit].
  assert (Hblk : forall n', (n' < MAXFILE)%nat -> fblk V' x n' = fblk V x n').
  { intros n' Hn'. unfold fblk at 1, V'. case_decide as Hd; [unfold fblk; by rewrite decide_True|].
    rewrite fn_lookup_insert_ne by (by apply (fo_ind _ _ Hf)). unfold fblk. by rewrite (decide_False (P := (n' < NDIRECT)%nat)) by done. }
  assert (Hbits : forall b, 0 <= b < sb_size B -> bit B V' b = bit B V b).
  { intros b Hb. pose proof (BBLOCK_range B HL b Hb). unfold bit, V'. by rewrite fn_lookup_insert_ne by lia. }
  assert (Hdata : forall b, datastart B <= b < sb_size B -> 0 <= b < sb_size B) by (intros b Hb; pose proof (data_nblk b Hb); lia).
  split_and!; [|intros b Hb; rewrite Hbits by (destruct HL; lia); by apply Hmeta|done|done].
  split.
  - by destruct x.
  - apply (file_ok_ext V); [done|done|]. intros a Ha. apply (fo_data _ _ Hf) in Ha as [Har Hat]. rewrite Hbits; auto.
  - intros n' Hn' _. by apply Hblk.
  - intros b Hb. unfold V'. pose proof (BBLOCK_range B HL _ (Hdata _ Hr)). rewrite fn_lookup_insert_ne by lia. done.
  - intros b Hb Hbb Hno. unfold V'. rewrite fn_lookup_insert_ne; [done|]. intros E. apply Hno. rewrite <- E. by apply owned_blk.
  - intros b Hb Hbb. by rewrite Hbits.
  - intros b Hb Hbb. left. by rewrite <- Hbits.
  - intros b. apply (owned_ext V V' x Hblk).
  - intros b Hb. left. by apply (owned_ext V V' x Hblk).
Qed.

(** [V'], [x'] is the file after [src] has been written to it at [off]. *)
Record written (V : Z -> list Z) (x : inode) (V' : Z -> list Z) (x' : inode) (off : Z) (src : list Z) : Prop := MkWritten {
  wr_ext : extends V x V' x';
  wr_meta : meta_used V';
  wr_in p : off <= p < off + Z.of_nat (length src) ->
    fblk V' x' (Z.to_nat (p / Z.of_nat BSIZE)) <> 0 /\ fbyte V' x' p = src !!! Z.to_nat (p - off);
  wr_out p : 0 <= p < maxfile -> ~ (off <= p < off + Z.of_nat (length src)) -> fblk V x (Z.to_nat (p / Z.of_nat BSIZE)) <> 0 ->
    fbyte V' x' p = fbyte V x p;
  wr_same : (forall p, off <= p < off + Z.of_nat (length src) -> fblk V x (Z.to_nat (p / Z.of_nat BSIZE)) <> 0) -> x' = x
}.

Lemma written_trans V1 x1 V2 x2 V3 x3 off a b :
  file_ok V1 x1 -> 0 <= off -> off + Z.of_nat (length (a ++ b)) <= maxfile ->
  written V1 x1 V2 x2 off a -> written V2 x2 V3 x3 (off + Z.of_nat (length a)) b ->
  written V1 x1 V3 x3 off (a ++ b).
Proof.
  rewrite length_app. intros Hf Hoff Hmax [E1 M1 I1 O1 S1] [E2 M2 I2 O2 S2].
  assert (Hpos : forall p, 0 <= p < maxfile -> fblk V1 x1 (Z.to_nat (p / Z.of_nat BSIZE)) <> 0 ->
    fblk V2 x2 (Z.to_nat (p / Z.of_nat BSIZE)) <> 0).
  { intros p Hp Hne. rewrite (ex_blk _ _ _ _ E1); [done| |done]. by apply block_of_pos. }
  split; rewrite ?length_app.
  - by eapply extends_trans.
  - done.
  - intros p Hp. destruct (decide (p < off + Z.of_nat (length a))) as [Hlt|Hge].
    + destruct (I1 p ltac:(lia)) as [Hne Hb]. split.
      * rewrite (ex_blk _ _ _ _ E2); [done| |done]. apply block_of_pos. lia.
      * rewrite O2 by (try done; lia). rewrite Hb. symmetry. apply lookup_total_app_l. lia.
    + destruct (I2 p ltac:(lia)) as [Hne Hb]. split; [done|]. rewrite Hb.
      replace (Z.to_nat (p - off)) with (length a + Z.to_nat (p - (off + Z.of_nat (length a))))%nat by lia.
      rewrite lookup_total_app_r by lia. f_equal. lia.
  - intros p Hp Hno Hne. rewrite O2; [apply O1; [done|lia|done]|done|lia|by apply Hpos].
  - intros Hall. assert (x2 = x1) as Ex by (apply S1; intros p Hp; apply Hall; lia).
    rewrite <- Ex. apply S2. intros p Hp. apply Hpos; [lia|]. apply Hall. lia.
Qed.

Lemma same_block off len p :
  0 <= off -> off mod 512 + len <= 512 -> off <= p < off + len ->
  p / 512 = off / 512 /\ p mod 512 = off mod 512 + (p - off).
Proof.
  intros Hoff Hlen Hp. pose proof (Z.div_mod off 512 ltac:(lia)). pose proof (Z.mod_pos_bound off 512 ltac:(lia)).
  assert (Hq : p / 512 = off / 512) by (symmetry; apply (Z.div_unique _ 512 _ (off mod 512 + (p - off))); lia).
  split; [done|]. pose proof (Z.div_mod p 512 ltac:(lia)). lia.
Qed.

Lemma write_step V x V1 x1 off bs :
  let n := Z.to_nat (off / Z.of_nat BSIZE) in
  let c := fblk V1 x1 n in
  file_ok V x -> grown V x V1 x1 -> (forall b, 0 <= b < nblk -> length (V1 b) = BSIZE) -> c <> 0 ->
  (fblk V x n <> 0 -> x1 = x) -> 0 <= off -> (0 < length bs)%nat ->
  off mod Z.of_nat BSIZE + Z.of_nat (length bs) <= Z.of_nat BSIZE -> off + Z.of_nat (length bs) <= maxfile ->
  written V x (<[c := put_bytes (V1 c) (Z.to_nat (off mod Z.of_nat BSIZE)) bs]> V1) x1 off bs.
Proof.
  intros n c Hf [He Hd Hm] Hlen Hc Hx Hoff Hbs Hfit Hmax. rewrite BSIZE_eq in *.
  pose proof (ex_ok _ _ _ _ He) as Hf1. pose proof (Z.mod_pos_bound off 512 ltac:(lia)) as Hmod.
  assert (Hn : (n < MAXFILE)%nat) by (apply block_of_pos; lia).
  pose proof (fo_data _ _ Hf1 _ (owned_blk V1 x1 n Hn Hc)) as [Hr _]. fold c in Hr.
  pose proof (Hlen c (data_nblk c Hr)) as Hlc.
  destruct (set_data_ext V1 x1 n (put_bytes (V1 c) (Z.to_nat (off mod 512)) bs) Hf1 Hm Hn Hc) as (He2 & Hm2 & Hblk & _).
  fold c in He2, Hm2, Hblk. set (V2 := <[c := _]> V1) in *.
  split; [by eapply extends_trans|done|..].
  - intros p Hp. destruct (same_block off (Z.of_nat (length bs)) p) as [Hq Hpm]; [lia..|].
    rewrite BSIZE_eq, Hq. change (Z.to_nat (off / 512)) with n. rewrite Hblk by done. split; [done|].
    unfold fbyte. rewrite BSIZE_eq, Hq. change (Z.to_nat (off / 512)) with n. rewrite Hblk by done. fold c. unfold V2.
    rewrite fn_lookup_insert, Hpm, Z2Nat.inj_add by lia. apply list_lookup_total_correct.
    rewrite lookup_put_bytes_in by (unfold BSIZE in *; lia).
    replace (Z.to_nat (off mod 512) + Z.to_nat (p - off) - Z.to_nat (off mod 512))%nat with (Z.to_nat (p - off)) by lia.
    apply list_lookup_lookup_total_lt. lia.
  - intros p Hp Hout Hne. rewrite BSIZE_eq in Hne. unfold fbyte. rewrite BSIZE_eq. set (n' := Z.to_nat (p / 512)) in *.
    assert (Hn' : (n' < MAXFILE)%nat) by (by apply block_of_pos).
    pose proof (ex_blk _ _ _ _ He n' Hn' Hne) as Hb1. rewrite Hblk, Hb1 by done. rewrite <- (Hd n' Hn' Hne). unfold V2.
    destruct (decide (n' = n)) as [E|E].
    + rewrite <- Hb1, E. fold c. rewrite fn_lookup_insert. rewrite !list_lookup_total_alt.
      rewrite lookup_put_bytes_out; [done|unfold BSIZE in *; lia|].
      pose proof (Z.div_pos p 512 ltac:(lia) ltac:(lia)). pose proof (Z.div_pos off 512 ltac:(lia) ltac:(lia)).
      assert (Eq : p / 512 = off / 512) by (unfold n, n' in E; rewrite BSIZE_eq in E; lia).
      pose proof (Z.div_mod p 512 ltac:(lia)). pose proof (Z.div_mod off 512 ltac:(lia)).
      pose proof (Z.mod_pos_bound p 512 ltac:(lia)). lia.
    + rewrite fn_lookup_insert_ne; [done|]. intros Ec. apply E. symmetry. apply (fo_inj _ _ Hf1); [done..|]. unfold c in Ec. congruence.
  - intros Hall. apply Hx. apply (Hall off). lia.
Qed.

(** How many blocks a range of bytes touches. *)
Definition turns (off rest : Z) : nat :=
  if rest <=? 0 then 0%nat else Z.to_nat ((off + rest - 1) / Z.of_nat BSIZE - off / Z.of_nat BSIZE + 1).
Lemma turns_step off rest : 0 <= off -> 0 < rest ->
  turns off rest = S (turns (off + chunk off rest) (rest - chunk off rest)).
Proof.
  intros Hoff Hr. unfold turns. pose proof (chunk_range off rest Hr) as Hc. unfold chunk in *. rewrite BSIZE_eq in *.
  pose proof (Z.div_mod off 512 ltac:(lia)). pose proof (Z.mod_pos_bound off 512 ltac:(lia)).
  destruct (Z.leb_spec rest 0); [lia|]. destruct (Z.leb_spec (rest - Z.min rest (512 - off mod 512)) 0).
  - assert ((off + rest - 1) / 512 = off / 512) as -> by (symmetry; apply (Z.div_unique _ 512 _ (off mod 512 + rest - 1)); lia). lia.
  - rewrite Z.min_r in * by lia.
    assert ((off + (512 - off mod 512)) / 512 = off / 512 + 1) as -> by (symmetry; apply (Z.div_unique _ 512 _ 0); lia).
    replace (off + (512 - off mod 512) + (rest - (512 - off mod 512)) - 1) with (off + rest - 1) by lia.
    pose proof (Z.div_le_mono (off + 512 - off mod 512) (off + rest - 1) 512 ltac:(lia) ltac:(lia)) as Hle.
    assert ((off + 512 - off mod 512) / 512 = off / 512 + 1) as E by (symmetry; apply (Z.div_unique _ 512 _ 0); lia). lia.
Qed.

Lemma write_nothing s w V src tot off n k m :
  (i < length (inodes s))%nat -> file_ok V (geti s i) -> meta_used V ->
  owns w V [] [] (6 * turns off (n - tot) + k) -> frees V (2 * turns off (n - tot) + m) ->
  Z.of_nat (length src) = n - tot -> n <= tot ->
  exists w' V' x', Ret off (set_blk w s) = Ret (off + (n - tot)) (set_blk w' (set_inode i x' s)) /\
    owns w' V' [] [] k /\ written V (geti s i) V' x' off src /\ frees V' m.
Proof.
  intros Hi Hf Hmeta Ho Hfree Hsrc Hle. assert (n - tot = 0) as E by lia. rewrite E in *. cbn in Ho, Hfree.
  exists w, V, (geti s i). rewrite set_inode_id, Z.add_0_r by done. split_and!; try done.
  split; try done; [by apply extends_refl|]. intros p Hp. lia.
Qed.
Lemma writei_loop_ok fuel : forall s w V src tot off n k m,
  let x := geti s i in
  sb s = B -> (i < length (inodes s))%nat -> file_ok V x -> meta_used V ->
  owns w V [] [] (6 * turns off (n - tot) + k) -> frees V (2 * turns off (n - tot) + m) ->
  0 <= off -> Z.of_nat (length src) = n - tot -> off + (n - tot) <= maxfile -> n - tot <= Z.of_nat fuel ->
  exists w' V' x', writei_loop fuel i src tot off n (set_blk w s) = Ret (off + (n - tot)) (set_blk w' (set_inode i x' s)) /\
    owns w' V' [] [] k /\ written V x V' x' off src /\ frees V' m.
Proof.
  induction fuel as [|fuel IH]; intros s w V src tot off n k m x Hsb Hi Hf Hmeta Ho Hfree Hoff Hsrc Hmax Hfuel; cbn [writei_loop].
  - destruct (Z.ltb_spec tot n); [lia|]. by apply write_nothing.
  - destruct (Z.ltb_spec tot n) as [Hlt|]; cbn [negb]; [|by apply write_nothing].
    rewrite turns_step in Ho, Hfree by lia. fold (chunk off (n - tot)).
    pose proof (chunk_range off (n - tot) ltac:(lia)) as Hm. set (c := chunk off (n - tot)) in *.
    assert (H0 : 0 <= off / Z.of_nat BSIZE) by (apply Z.div_pos; [lia|done]).
    assert (Hn : (Z.to_nat (off / Z.of_nat BSIZE) < MAXFILE)%nat) by (apply block_of_pos; lia).
    set (T := turns (off + c) (n - tot - c)) in *.
    destruct (bmap_ok s w V (1 + (6 * T + k)) (Z.to_nat (off / Z.of_nat BSIZE)) (2 * T + m)) as
      (a & w1 & V1 & x1 & H1 & Ho1 & Hg & Ha & Ha0 & Hfr1 & Hsame); try done.
    { replace (5 + (1 + (6 * T + k)))%nat with (6 * S T + k)%nat by lia. done. }
    { replace (2 + (2 * T + m))%nat with (2 * S T + m)%nat by lia. done. }
    rewrite Z2Nat.id in H1 by done. rewrite geti_bind, (bind_Ret _ _ _ _ _ H1). fold x. rewrite (fo_dev _ _ Hf).
    pose proof (ex_ok _ _ _ _ (gr_ext _ _ _ _ Hg)) as Hf1.
    assert (Har : datastart B <= a < sb_size B) by (rewrite <- Ha; apply (fo_data _ _ Hf1), owned_blk; [done|congruence]).
    destruct (bread_ok w1 V1 [] [] _ a Ho1 (data_nblk _ Har)) as (b & w2 & H2 & Ho2); [apply not_elem_of_nil|cbn; lia|].
    rewrite (blocks_bind _ _ _ _ _ _ H2), (blocks_bind _ _ _ _ _ _ (bdata_ok _ _ _ _ _ b _ Ho2 ltac:(left))).
    set (src1 := take (Z.to_nat c) src). set (d := put_bytes _ _ _).
    assert (Hs1 : length src1 = Z.to_nat c) by (unfold src1; rewrite length_take; lia).
    assert (Hfit : off mod Z.of_nat BSIZE + Z.of_nat (length src1) <= Z.of_nat BSIZE) by (rewrite Hs1; unfold c, chunk in *; lia).
    assert (Hlv : forall b, 0 <= b < nblk -> length (V1 b) = BSIZE) by (intros; by eapply owns_len).
    pose proof (Z.mod_pos_bound off (Z.of_nat BSIZE) ltac:(done)) as Hmod.
    destruct (replace_block (set_inode i x1 s) w2 V1 [] (6 * T + k) b a d Ho2) as (w3 & H3 & Ho3).
    { unfold d. rewrite length_put_bytes; rewrite Hlv by (by apply data_nblk); [done|]. fold src1. unfold BSIZE in *. lia. }
    { by apply data_nlow. }
    apply bind_inv in H3 as ([] & s1 & E1 & H3). rewrite (bind_Ret _ _ _ _ _ E1).
    apply bind_inv in H3 as ([] & s2 & E2 & H3). rewrite (bind_Ret _ _ _ _ _ E2), (bind_Ret _ _ _ _ _ H3).
    assert (Hw : written V x (<[a := d]> V1) x1 off src1).
    { unfold d. rewrite <- Ha. apply write_step; try done; [by rewrite Ha|rewrite Hs1; lia|rewrite Hs1; lia]. }
    assert (Hx1 : geti (set_inode i x1 s) i = x1) by (by apply geti_set_inode).
    assert (Hrest : n - (tot + c) = n - tot - c) by lia.
    destruct (IH (set_inode i x1 s) w3 (<[a := d]> V1) (drop (Z.to_nat c) src) (tot + c) (off + c) n k m) as
      (w4 & V4 & x4 & H4 & Ho4 & Hw4 & Hfr4); rewrite ?Hx1, ?Hrest in *; try done.
    { by rewrite length_set_inode. }
    { apply Hw. }
    { apply Hw. }
    { apply (frees_bits V1); [|done]. rewrite <- Ha. apply set_data_ext; [done|apply Hg|done|by rewrite Ha]. }
    { lia. }
    { rewrite length_drop. lia. }
    { lia. }
    { lia. }
    exists w4, V4, x4. rewrite set_inode_twice in H4. split_and!; try done; [rewrite H4; f_equal; lia|].
    rewrite <- (take_drop (Z.to_nat c) src). apply (written_trans V x (<[a := d]> V1) x1); try done.
    { rewrite take_drop. lia. }
    by replace (off + Z.of_nat (length (take (Z.to_nat c) src))) with (off + c) by (fold src1; lia).
Qed.

(** *** The inode on the disk *)
Definition disk_inode (V : Z -> list Z) (n : Z) : dinode := get_dinode (V (IBLOCK n B)) n.
(** The in-memory inode and its disk copy agree. *)
Definition synced (V : Z -> list Z) (x : inode) : Prop := disk_inode V (inum x) = dinode_of x.
(** The fields that are shorts. *)
Definition shorts_ok (x : inode) : Prop :=
  -32768 <= type x < 32768 /\ -32768 <= major x < 32768 /\ -32768 <= minor x < 32768 /\ -32768 <= nlink x < 32768.

Lemma addr_range V x j : file_ok V x -> (j < S NDIRECT)%nat -> 0 <= addrs x !!! j < W32.
Proof.
  intros Hf Hj. destruct (decide (addrs x !!! j = 0)) as [->|Hne]; [done|].
  assert (Ho : owned V x (addrs x !!! j)).
  { split; [done|]. destruct (decide (j < NDIRECT)%nat) as [Hd|Hd].
    - left. exists j. split; [unfold MAXFILE; lia|]. unfold fblk. by rewrite decide_True.
    - right. by replace j with NDIRECT by lia. }
  apply (fo_data _ _ Hf) in Ho as [Hr _]. pose proof (data_pos _ Hr). destruct HL. lia.
Qed.
Lemma file_dino_ok V x : file_ok V x -> shorts_ok x -> dino_ok (dinode_of x).
Proof.
  intros Hf (H1 & H2 & H3 & H4). split; cbn; try done.
  - pose proof (fo_size _ _ Hf) as Hs. assert (maxfile < W32) by done. lia.
  - apply Hf.
  - apply Forall_lookup. intros j a Ha. pose proof (lookup_lt_Some _ _ _ Ha) as Hj. rewrite (fo_len _ _ Hf) in Hj.
    rewrite <- (list_lookup_total_correct _ _ _ Ha). by eapply addr_range.
Qed.

Definition update_view (V : Z -> list Z) (x : inode) : Z -> list Z :=
  <[IBLOCK (inum x) B := put_dinode (V (IBLOCK (inum x) B)) (inum x) (dinode_of x)]> V.
Lemma iupdate_ok s w V k :
  sb s = B -> file_ok V (geti s i) -> 0 <= inum (geti s i) < sb_ninodes B -> owns w V [] [] (S k) ->
  exists w', iupdate i (set_blk w s) = Ret tt (set_blk w' s) /\ owns w' (update_view V (geti s i)) [] [] k.
Proof.
  intros Hsb Hf Hn Ho. unfold iupdate. rewrite sb_bind, geti_bind, Hsb, (fo_dev _ _ Hf).
  pose proof (IBLOCK_range B HL _ Hn) as Hr. assert (Hr' : 0 <= IBLOCK (inum (geti s i)) B < nblk).
  { pose proof (lay_data B HL) as Hd. unfold datastart in Hd. rewrite BPB_eq in Hd. pose proof (lay_disk B HL).
    pose proof (Z.div_mod (sb_size B) 4096 ltac:(lia)). pose proof (Z.mod_pos_bound (sb_size B) 4096 ltac:(lia)). lia. }
  destruct (bread_ok w V [] [] (S k) _ Ho Hr') as (b & w1 & H1 & Ho1); [apply not_elem_of_nil|cbn; lia|].
  rewrite (blocks_bind _ _ _ _ _ _ H1), (blocks_bind _ _ _ _ _ _ (bdata_ok _ _ _ _ _ b _ Ho1 ltac:(left))).
  apply (replace_block s w1 V [] k b _ _ Ho1); [|by apply IBLOCK_low]. unfold put_dinode.
  assert (Hlv : length (V (IBLOCK (inum (geti s i)) B)) = BSIZE) by (by eapply owns_len).
  rewrite length_put_bytes; [done|]. rewrite length_dinode by apply Hf. rewrite Hlv. apply dino_fits.
Qed.

(** What the update of an inode leaves alone. *)
Section update.
Context (V : Z -> list Z) (x : inode).
Hypothesis Hn : 0 <= inum x < sb_ninodes B.
Lemma update_view_ne b : sb_bmapstart B <= b -> update_view V x b = V b.
Proof. intros Hb. pose proof (IBLOCK_range B HL _ Hn). unfold update_view. by rewrite fn_lookup_insert_ne by lia. Qed.
Lemma update_bit b : 0 <= b < sb_size B -> bit B (update_view V x) b = bit B V b.
Proof. intros Hb. pose proof (BBLOCK_range B HL b Hb). unfold bit. by rewrite update_view_ne by lia. Qed.
Lemma bmap_data b : datastart B <= b < sb_size B -> sb_bmapstart B <= b.
Proof.
  intros Hb. pose proof (data_nblk b Hb). pose proof (BBLOCK_range B HL b ltac:(lia)). lia.
Qed.
Lemma update_fblk y n : file_ok V y -> (n < MAXFILE)%nat -> fblk (update_view V x) y n = fblk V y n.
Proof.
  intros Hf Hm. unfold fblk. case_decide; [done|]. case_decide as Hz; [done|].
  assert (Ho : owned V y (addrs y !!! NDIRECT)) by (split; [done|by right]). apply (fo_data _ _ Hf) in Ho as [Hr _].
  by rewrite update_view_ne by (by apply bmap_data).
Qed.
Lemma update_file y : file_ok V y -> file_ok (update_view V x) y.
Proof.
  intros Hf. apply (file_ok_ext V); [done|intros; by apply update_fblk|].
  intros a [Hr Ha]%(fo_data _ _ Hf). rewrite update_bit; [done|]. pose proof (data_nblk a Hr). lia.
Qed.
Lemma update_fbyte y p : file_ok V y -> 0 <= p < size y -> fbyte (update_view V x) y p = fbyte V y p.
Proof.
  intros Hf Hp. pose proof (fo_size _ _ Hf) as Hs. unfold fbyte. assert (Hk := block_of_pos p ltac:(lia)).
  rewrite update_fblk by done. f_equal. apply update_view_ne, bmap_data. apply (fo_data _ _ Hf), owned_blk; [done|].
  apply (fo_full _ _ Hf); [done|]. rewrite Z2Nat.id by (apply Z.div_pos; [lia|done]).
  pose proof (Z.mul_div_le p (Z.of_nat BSIZE) ltac:(done)). lia.
Qed.
Lemma update_synced : file_ok V x -> shorts_ok x -> length (V (IBLOCK (inum x) B)) = BSIZE -> synced (update_view V x) x.
Proof.
  intros Hf Hs Hl. unfold synced, disk_inode, update_view. rewrite fn_lookup_insert. apply get_put_dinode; [done|].
  by eapply file_dino_ok.
Qed.
Lemma update_other n : file_ok V x -> length (V (IBLOCK (inum x) B)) = BSIZE -> 0 <= n -> n <> inum x ->
  disk_inode (update_view V x) n = disk_inode V n.
Proof.
  intros Hf Hl Hn' Hne. unfold disk_inode, update_view. destruct (decide (IBLOCK n B = IBLOCK (inum x) B)) as [E|E].
  - rewrite E, fn_lookup_insert. apply get_put_dinode_ne; [done|apply Hf|]. intros Em. apply Hne.
    unfold IBLOCK in E. pose proof (Z.div_mod n IPB ltac:(done)). pose proof (Z.div_mod (inum x) IPB ltac:(done)). nia.
  - by rewrite fn_lookup_insert_ne.
Qed.
End update.

(** *** Other files *)
Definition disjoint_files (V : Z -> list Z) (x y : inode) : Prop := forall a, owned V x a -> ~ owned V y a.

Section other.
Context (V : Z -> list Z) (x : inode) (V' : Z -> list Z) (x' y : inode).
Hypothesis He : extends V x V' x'.
Hypothesis Hy : file_ok V y.
Hypothesis Hd : disjoint_files V x y.

Lemma other_block a : owned V y a -> V' a = V a.
Proof.
  intros Ha. destruct (fo_data _ _ Hy a Ha) as [Hr Hb]. apply (ex_other _ _ _ _ He); [done..|]. intros Hx. by apply (Hd a).
Qed.
Lemma other_fblk n : (n < MAXFILE)%nat -> fblk V' y n = fblk V y n.
Proof.
  intros Hn. unfold fblk. case_decide; [done|]. case_decide as Hz; [done|]. rewrite other_block; [done|]. split; [done|by right].
Qed.
Lemma other_file : file_ok V' y.
Proof.
  apply (file_ok_ext V); [done|intros; by apply other_fblk|]. intros a [Hr Ha]%(fo_data _ _ Hy).
  apply (ex_bit _ _ _ _ He); [|done]. pose proof (data_nblk a Hr). lia.
Qed.
Lemma other_fbyte p : 0 <= p < size y -> fbyte V' y p = fbyte V y p.
Proof.
  intros Hp. pose proof (fo_size _ _ Hy) as Hs. unfold fbyte. assert (Hk := block_of_pos p ltac:(lia)).
  rewrite other_fblk by done. f_equal. apply other_block, owned_blk; [done|].
  apply (fo_full _ _ Hy); [done|]. rewrite Z2Nat.id by (apply Z.div_pos; [lia|done]).
  pose proof (Z.mul_div_le p (Z.of_nat BSIZE) ltac:(done)). lia.
Qed.
Lemma other_disjoint : disjoint_files V' x' y.
Proof.
  intros a Ha Hay. rewrite (owned_ext V V' y) in Hay by (intros; by apply other_fblk).
  destruct (ex_fresh _ _ _ _ He a Ha) as [Hx|Hb]; [by apply (Hd a)|].
  apply (fo_data _ _ Hy) in Hay as [_ Hay]. congruence.
Qed.
End other.

Lemma resize_ok V x z :
  file_ok V x -> 0 <= z <= maxfile -> (forall k, (k < MAXFILE)%nat -> Z.of_nat k * Z.of_nat BSIZE < z -> fblk V x k <> 0) ->
  file_ok V (set_size z x).
Proof. intros [H1 H2 H3 H4 H5 H6 H7 H8] Hz Hfull. by split. Qed.

(** A written file has all blocks up to its new end. *)
Lemma written_full V x V' x' off src k :
  file_ok V x -> written V x V' x' off src -> 0 <= off <= size x -> off + Z.of_nat (length src) <= maxfile ->
  (k < MAXFILE)%nat -> Z.of_nat k * Z.of_nat BSIZE < Z.max (size x) (off + Z.of_nat (length src)) -> fblk V' x' k <> 0.
Proof.
  intros Hf Hw Hoff Hmax Hk Hlt. destruct (decide (Z.of_nat k * Z.of_nat BSIZE < size x)) as [Hs|Hs].
  - pose proof (fo_full _ _ Hf k Hk Hs) as Hne. by rewrite (ex_blk _ _ _ _ (wr_ext _ _ _ _ _ _ Hw)).
  - destruct (wr_in _ _ _ _ _ _ Hw (Z.of_nat k * Z.of_nat BSIZE)) as [Hne _]; [lia|].
    by rewrite Z.div_mul, Nat2Z.id in Hne by done.
Qed.

Lemma lookup_fbytes V x off n p : (p < n)%nat -> fbytes V x off n !! p = Some (fbyte V x (off + Z.of_nat p)).
Proof. intros Hp. unfold fbytes. by rewrite list_lookup_fmap, lookup_seq_lt. Qed.

(** The bytes of a file after a write. *)
Lemma written_bytes V x V' x' off src :
  file_ok V x -> written V x V' x' off src -> 0 <= off <= size x -> off + Z.of_nat (length src) <= maxfile ->
  let old := fbytes V x 0 (Z.to_nat (size x)) in
  fbytes V' x' 0 (Z.to_nat (Z.max (size x) (off + Z.of_nat (length src)))) =
  take (Z.to_nat off) old ++ src ++ drop (Z.to_nat off + length src) old.
Proof.
  intros Hf Hw Hoff Hmax old. pose proof (fo_size _ _ Hf) as Hs.
  assert (Hlo : length old = Z.to_nat (size x)) by (unfold old, fbytes; by rewrite length_map, length_seq).
  assert (Hold : forall p, (p < Z.to_nat (size x))%nat -> old !! p = Some (fbyte V x (Z.of_nat p))).
  { intros p Hp. unfold old. by rewrite lookup_fbytes. }
  apply (list_eq_same_length _ _ (Z.to_nat (Z.max (size x) (off + Z.of_nat (length src))))).
  - rewrite !length_app, length_take, length_drop, Hlo. lia.
  - unfold fbytes. by rewrite length_map, length_seq.
  - intros p u v Hp Hu Hv. rewrite lookup_fbytes, Z.add_0_l in Hu by done. injection Hu as <-.
    destruct (decide (off <= Z.of_nat p < off + Z.of_nat (length src))) as [Hin|Hout].
    + destruct (wr_in _ _ _ _ _ _ Hw (Z.of_nat p) Hin) as [_ ->].
      rewrite lookup_app_r in Hv by (rewrite length_take; lia). rewrite length_take, Hlo, Nat.min_l in Hv by lia.
      rewrite lookup_app_l in Hv by lia. apply list_lookup_total_correct. rewrite <- Hv. f_equal. lia.
    + assert (Hps : (p < Z.to_nat (size x))%nat) by lia.
      assert (Hne : fblk V x (Z.to_nat (Z.of_nat p / Z.of_nat BSIZE)) <> 0).
      { apply (fo_full _ _ Hf); [apply block_of_pos; lia|]. rewrite Z2Nat.id by (apply Z.div_pos; [lia|done]).
        pose proof (Z.mul_div_le (Z.of_nat p) (Z.of_nat BSIZE) ltac:(done)). lia. }
      rewrite (wr_out _ _ _ _ _ _ Hw) by (try done; lia). apply (inj Some). rewrite <- Hv, <- Hold by done. symmetry.
      destruct (decide (Z.of_nat p < off)).
      * rewrite lookup_app_l by (rewrite length_take; lia). by rewrite lookup_take_lt by lia.
      * rewrite lookup_app_r by (rewrite length_take; lia). rewrite length_take, Hlo, Nat.min_l by lia.
        rewrite lookup_app_r by lia. rewrite lookup_drop. f_equal. lia.
Qed.

(** *** [writei] *)
Variable devsw : Z -> @devfun W.

(** What a write at [off] promises: the new bytes in the file, its inode on the disk, and
    every other file as it was. *)
Record write_post (V : Z -> list Z) (x : inode) (V' : Z -> list Z) (x' : inode) (off : Z) (src : list Z) : Prop := MkPost {
  wp_file : file_ok V' x';
  wp_meta : meta_used V';
  wp_sync : synced V' x';
  wp_inum : inum x' = inum x /\ type x' = type x /\ nlink x' = nlink x;
  wp_size : size x' = Z.max (size x) (off + Z.of_nat (length src));
  wp_bytes : fbytes V' x' 0 (Z.to_nat (size x')) =
    take (Z.to_nat off) (fbytes V x 0 (Z.to_nat (size x))) ++ src ++
    drop (Z.to_nat off + length src) (fbytes V x 0 (Z.to_nat (size x)));
  wp_other y : file_ok V y -> disjoint_files V x y ->
    file_ok V' y /\ disjoint_files V' x' y /\ fbytes V' y 0 (Z.to_nat (size y)) = fbytes V y 0 (Z.to_nat (size y));
  wp_owned y : file_ok V y -> disjoint_files V x y -> forall a, owned V' y a <-> owned V y a;
  wp_same : x' = set_size (size x') (set_addrs (addrs x') x);
  wp_inodes n : 0 <= n < sb_ninodes B -> n <> inum x -> disk_inode V' n = disk_inode V n
}.

Lemma fbytes_ext V V' x y n :
  (forall p, 0 <= p < Z.of_nat n -> fbyte V' y p = fbyte V x p) -> fbytes V' y 0 n = fbytes V x 0 n.
Proof.
  intros H. unfold fbytes. apply map_ext_in. intros p Hp%in_seq. apply H. lia.
Qed.
Lemma disk_inode_low V V' n :
  (forall b, 0 <= b < sb_bmapstart B -> V' b = V b) -> 0 <= n < sb_ninodes B -> disk_inode V' n = disk_inode V n.
Proof. intros H Hn. unfold disk_inode. by rewrite H by (by apply IBLOCK_range). Qed.

(** The file grew: the inode goes to the disk with its new size. *)
Lemma post_grown V x V' x' off src :
  let z := off + Z.of_nat (length src) in let x2 := set_size z x' in
  file_ok V x -> 0 <= inum x < sb_ninodes B -> shorts_ok x -> written V x V' x' off src -> 0 <= off <= size x -> z <= maxfile ->
  size x < z -> (forall b, 0 <= b < nblk -> length (V' b) = BSIZE) -> 0 <= IBLOCK (inum x) B < nblk ->
  file_ok V' x2 /\ write_post V x (update_view V' x2) x2 off src.
Proof.
  intros z x2 Hf Hn Hs Hw Hoff Hmax Hlt Hlen Hib. pose proof (wr_ext _ _ _ _ _ _ Hw) as He.
  pose proof (ex_x _ _ _ _ He) as Ex. assert (Hsz : size x' = size x) by (by rewrite Ex).
  assert (Hin : inum x2 = inum x) by (unfold x2; by rewrite Ex).
  assert (Hn2 : 0 <= inum x2 < sb_ninodes B) by (by rewrite Hin).
  assert (Hmx : Z.max (size x) z = z) by lia.
  assert (Hf2 : file_ok V' x2).
  { apply resize_ok; [apply He|lia|]. intros k Hk Hkz. eapply (written_full V x V' x' off src); try done. lia. }
  split; [done|]. split.
  - by apply update_file.
  - intros b Hb. rewrite update_bit by (try done; pose proof (lay_data B HL); lia). by apply (wr_meta _ _ _ _ _ _ Hw).
  - apply update_synced; [done| |rewrite Hin; by apply Hlen]. unfold shorts_ok, x2. rewrite Ex. exact Hs.
  - unfold x2. by rewrite Ex.
  - unfold z in Hmx. cbn. lia.
  - rewrite <- (written_bytes V x V' x' off src) by done. fold z. rewrite Hmx. cbn [size x2 set_size].
    apply fbytes_ext. intros p Hp. rewrite update_fbyte; [done|done|done|cbn; lia].
  - intros y Hy Hd. pose proof (other_file _ _ _ _ _ He Hy Hd) as Hy'. split_and!.
    + by apply update_file.
    + intros a Ha Hay. rewrite (owned_ext V' _ y) in Hay by (intros; by apply update_fblk).
      rewrite (owned_ext V' _ x2) in Ha by (intros; by apply update_fblk). by apply (other_disjoint _ _ _ _ _ He Hy Hd a).
    + pose proof (fo_size _ _ Hy). apply fbytes_ext. intros p Hp. rewrite update_fbyte by (try done; lia).
      eapply other_fbyte; [done..|]. lia.
  - intros y Hy Hd a. pose proof (other_file _ _ _ _ _ He Hy Hd) as Hy'. rewrite (owned_ext V' _ y) by (intros; by apply update_fblk).
    apply owned_ext. intros. by eapply other_fblk.
  - unfold x2. by rewrite Ex.
  - intros m Hm Hne. rewrite update_other; [|done|rewrite Hin; by apply Hlen|lia|congruence].
    apply disk_inode_low; [|done]. apply He.
Qed.
(** The file did not grow: no block was added. *)
Lemma post_same V x V' x' off src :
  file_ok V x -> synced V x -> 0 <= inum x < sb_ninodes B -> written V x V' x' off src -> 0 <= off <= size x ->
  off + Z.of_nat (length src) <= size x -> write_post V x V' x' off src.
Proof.
  intros Hf Hs Hn Hw Hoff Hle. pose proof (wr_ext _ _ _ _ _ _ Hw) as He. pose proof (fo_size _ _ Hf) as Hsz.
  assert (x' = x) as ->.
  { apply (wr_same _ _ _ _ _ _ Hw). intros p Hp. apply (fo_full _ _ Hf); [apply block_of_pos; lia|].
    rewrite Z2Nat.id by (apply Z.div_pos; [lia|done]). pose proof (Z.mul_div_le p (Z.of_nat BSIZE) ltac:(done)). lia. }
  assert (Hlow : forall n, 0 <= n < sb_ninodes B -> disk_inode V' n = disk_inode V n).
  { intros n Hn'. apply disk_inode_low; [|done]. apply He. }
  split; try done.
  - apply He.
  - apply Hw.
  - unfold synced. by rewrite Hlow.
  - lia.
  - rewrite <- (written_bytes V x V' x off src); [|done..|lia]. do 2 f_equal. lia.
  - intros y Hy Hd. pose proof (fo_size _ _ Hy). split_and!.
    + by eapply other_file.
    + by eapply other_disjoint.
    + apply fbytes_ext. intros p Hp. eapply other_fbyte; [done..|]. lia.
  - intros y Hy Hd a. apply owned_ext. intros. by eapply other_fblk.
  - by destruct x.
  - intros n Hn' _. by apply Hlow.
Qed.

Lemma iblock_nblk n : 0 <= n < sb_ninodes B -> 0 <= IBLOCK n B < nblk.
Proof.
  intros Hn. pose proof (IBLOCK_range B HL n Hn). pose proof (lay_data B HL) as Hd. unfold datastart in Hd. rewrite BPB_eq in Hd.
  pose proof (lay_disk B HL). pose proof (Z.div_mod (sb_size B) 4096 ltac:(lia)).
  pose proof (Z.mod_pos_bound (sb_size B) 4096 ltac:(lia)). lia.
Qed.

Lemma writei_ok s w V src off k m :
  let x := geti s i in let n := Z.of_nat (length src) in
  sb s = B -> (i < length (inodes s))%nat -> file_ok V x -> synced V x -> shorts_ok x -> 0 <= inum x < sb_ninodes B ->
  meta_used V -> 0 <= off <= size x -> off + n <= maxfile ->
  owns w V [] [] (6 * turns off n + (1 + k)) -> frees V (2 * turns off n + m) ->
  exists w' V' x', writei devsw i src off n (set_blk w s) = Ret n (set_blk w' (set_inode i x' s)) /\
    owns w' V' [] [] k /\ write_post V x V' x' off src.
Proof.
  intros x n Hsb Hi Hf Hsy Hsh Hn Hmeta Hoff Hmax Ho Hfree. unfold writei. rewrite geti_bind. fold x.
  assert (Hmx : maxfile < 2 ^ 30) by done. pose proof (fo_size _ _ Hf) as Hsz.
  destruct (Z.eqb_spec (type x) T_DEV) as [E|_]; [by destruct (fo_type _ _ Hf)|].
  rewrite (u32_id (off + n)) by lia. destruct (Z.ltb_spec (size x) off); [lia|].
  destruct (Z.ltb_spec (off + n) off); [lia|]. cbn [orb]. fold maxfile. destruct (Z.ltb_spec maxfile (off + n)); [lia|].
  assert (Hn0 : n - 0 = n) by lia.
  destruct (writei_loop_ok (Z.to_nat n) s w V src 0 off n (1 + k) m) as (w1 & V1 & x1 & Hloop & Ho1 & Hw & Hfr); rewrite ?Hn0; try done; try lia.
  rewrite Hn0 in Hloop. rewrite (bind_Ret _ _ _ _ _ Hloop). set (s1 := set_inode i x1 s) in *.
  assert (Hx1 : geti s1 i = x1) by (by apply geti_set_inode).
  rewrite geti_bind, Hx1. assert (Hs1 : size x1 = size x) by (by rewrite (ex_x _ _ _ _ (wr_ext _ _ _ _ _ _ Hw))).
  rewrite Hs1. destruct (Z.ltb_spec (size x) (off + n)) as [Hg|Hg].
  - destruct (Z.ltb_spec 0 n); [|lia]. cbn [andb when].
    destruct (post_grown V x V1 x1 off src) as [Hf2 Hpost]; try done; [intros; by eapply owns_len|by apply iblock_nblk|].
    assert (Hl1 : (i < length (inodes s1))%nat) by (unfold s1; by rewrite length_set_inode).
    set (x2 := set_size (off + n) x1) in *. set (s2 := set_inode i x2 s1).
    assert (Hx2 : geti s2 i = x2) by (by apply geti_set_inode).
    destruct (iupdate_ok s2 w1 V1 k) as (w2 & Hup & Ho2); rewrite ?Hx2; try done.
    { unfold x2. by rewrite (ex_x _ _ _ _ (wr_ext _ _ _ _ _ _ Hw)). }
    exists w2, (update_view V1 x2), x2. split_and!; [|by rewrite <- Hx2|done].
    assert (Hb : (upd i (set_size (off + n)) ;;; iupdate i) (set_blk w1 s1) = Ret tt (set_blk w2 s2)).
    { rewrite upd_bind by done. rewrite Hx1. exact Hup. }
    rewrite (bind_Ret _ _ _ _ _ Hb). unfold s2, s1. by rewrite set_inode_twice.
  - rewrite andb_false_r. exists w1, V1, x1. split_and!; [done|by apply owns_mono|]. by apply post_same.
Qed.
End grow.
End files.

End Files.
