(* ===== verification/FsProps.v ===== *)
(** Blocks and files, as theorems.

    The allocator hands out free blocks, [readi] reads and [writei] writes the bytes of a
    file, for every block layer that fulfils [BlocksSpec].  [Module RamDisk] is the smallest
    such layer, an array of blocks, on which the theorems are applied to a small disk. *)

From S2P Require Import Prelude Params Bytes Sleeplock Bio Cache Log Fs FsSpec FsFile.

(** ** An array of blocks *)
Module RamDisk.
Notation ram := (list (list Z)).
#[global] Instance ram_blocks : Blocks ram := {|
  bread := fun _ b => ret (Z.to_nat b);
  bdata := fun i => reads (fun s => s !!! i);
  bset := fun i x => modify (<[i := x]>);
  log_write := fun _ => ret tt;
  brelse := fun _ => ret tt
|}.

Section spec.
Variable N : nat.
Definition ram_owns (s : ram) (V : Z -> list Z) (P : list Z) (H : list (nat * Z)) (k : nat) : Prop :=
  length s = N /\ (forall b, 0 <= b < Z.of_nat N -> V b = s !!! Z.to_nat b /\ length (V b) = BSIZE) /\
  forall i b, (i, b) ∈ H -> i = Z.to_nat b /\ 0 <= b < Z.of_nat N.

Lemma ram_bset_ok s V P H k i b x : ram_owns s V P H k -> (i, b) ∈ H -> length x = BSIZE ->
  exists s', bset i x s = Ret tt s' /\ ram_owns s' (<[b := x]> V) (b :: P) H k.
Proof.
  intros (Hl & HV & HH) Hi Hx. destruct (HH i b Hi) as [-> Hb]. exists (<[Z.to_nat b := x]> s). split; [done|].
  split_and!; [by rewrite length_insert| |done]. intros c Hc. destruct (decide (c = b)) as [->|Hne].
  - rewrite fn_lookup_insert, list_lookup_total_insert_eq by lia. done.
  - rewrite fn_lookup_insert_ne, list_lookup_total_insert_ne by lia. by apply HV.
Qed.
Lemma ram_bread_ok s V P H k b : ram_owns s V P H k -> 0 <= b < Z.of_nat N -> b ∉ H.*2 -> (length H <= 2)%nat ->
  exists i s', bread 1 b s = Ret i s' /\ ram_owns s' V P ((i, b) :: H) k.
Proof.
  intros (Hl & HV & HH) Hb _ _. exists (Z.to_nat b), s. split; [done|]. split_and!; [done..|].
  intros i c [[= -> ->]|Hi]%elem_of_cons; [done|by apply HH].
Qed.
Lemma ram_bdata_ok s V P H k i b : ram_owns s V P H k -> (i, b) ∈ H -> bdata i s = Ret (V b) s.
Proof. intros (Hl & HV & HH) Hi. destruct (HH i b Hi) as [-> Hb]. cbn. unfold reads. by rewrite (proj1 (HV b Hb)). Qed.

Lemma ram_log_write_ok s V P H k i b : ram_owns s V P H (S k) -> (i, b) ∈ H -> 2 <= b ->
  exists s', log_write i s = Ret tt s' /\ ram_owns s' V (remove_elem b P) H k.
Proof. intros Ho _ _. by exists s. Qed.
Lemma ram_brelse_ok s V P H k i b : ram_owns s V P ((i, b) :: H) k -> b ∉ P ->
  exists s', brelse i s = Ret tt s' /\ ram_owns s' V P H k.
Proof.
  intros (Hl & HV & HH) _. exists s. split; [done|]. split_and!; [done..|]. intros j c Hj. apply HH. by right.
Qed.
Lemma ram_len s V P H k b : ram_owns s V P H k -> 0 <= b < Z.of_nat N -> length (V b) = BSIZE.
Proof. intros (_ & HV & _) Hb. by apply HV. Qed.
Definition ram_spec : BlocksSpec ram :=
  MkBlocksSpec ram _ (Z.of_nat N) 2 ram_owns (fun s V P H k Ho => Ho) ram_len ram_bread_ok ram_bdata_ok ram_bset_ok
    ram_log_write_ok ram_brelse_ok.
End spec.
End RamDisk.

(** ** The theorems *)
Module FsProps.
Import Fs FreeMap Files RamDisk.

Section props.
Context {W : Type} `{!Blocks W} `{!BlocksSpec W}.
Variable B : superblock.
Hypothesis HL : layout B.

(** [balloc] returns the first block that the bitmap says is free, after marking it in the
    bitmap and filling it with zeros; no other block and no other bit changes.  With no free
    block it panics. *)
Theorem balloc_correct (s : @fs W) w V k :
  sb s = B -> owns w V [] [] (2 + k) -> meta_used B V ->
  (forall c, 0 <= c < sb_size B -> bit B V c = false -> (forall c', 0 <= c' < c -> bit B V c' = true) ->
     exists w' V', balloc 1 (set_blk w s) = Ret c (set_blk w' s) /\ owns w' V' [] [] k /\
       V' c = replicate BSIZE 0 /\ (forall b, b <> c -> b <> BBLOCK c B -> V' b = V b) /\
       forall b, 0 <= b < sb_size B -> bit B V' b = if decide (b = c) then true else bit B V b) /\
  ((forall c, 0 <= c < sb_size B -> bit B V c = true) -> balloc 1 (set_blk w s) = Panic "balloc: out of blocks").
Proof.
  intros Hsb Ho Hmeta. split.
  - intros c Hc Hbit Hless.
    assert (Hd : datastart B <= c) by (destruct (decide (datastart B <= c)); [done|]; rewrite Hmeta in Hbit by lia; done).
    destruct (balloc_ok B HL s w V [] k c) as (w' & H' & Ho'); try done; [apply (data_low B HL); lia|by intros ? _ ?%elem_of_nil|apply not_elem_of_nil|cbn; lia|].
    exists w', (alloc_view B V c). split_and!; try done.
    + apply fn_lookup_insert.
    + intros b Hb Hbb. unfold alloc_view, with_bit. by rewrite !fn_lookup_insert_ne by done.
    + intros b Hb. apply (bit_alloc B HL w V [] (2 + k) Ho); [lia|done].
  - intros Hall. apply (balloc_full B HL s w V [] (2 + k)); try done; [by intros ? _ ?%elem_of_nil|cbn; lia].
Qed.

(** Freeing what was allocated gives the old bitmap back, and freeing it a second time
    panics. *)
Theorem balloc_bfree (s : @fs W) w V k n :
  sb s = B -> owns w V [] [] (4 + k) -> meta_used B V -> frees B V (S n) ->
  exists c w1 w2 V2, balloc 1 (set_blk w s) = Ret c (set_blk w1 s) /\
    bfree 1 c (set_blk w1 s) = Ret tt (set_blk w2 s) /\ owns w2 V2 [] [] (1 + k) /\
    (forall b, 0 <= b < sb_size B -> bit B V2 b = bit B V b) /\
    bfree 1 c (set_blk w2 s) = Panic "freeing free block".
Proof.
  intros Hsb Ho Hmeta Hfree.
  destruct (alloc_ok B HL s w V [] (2 + k) n) as (c & w1 & H1 & Ho1 & Hc & Hbit & Hm1 & _); try done; [cbn; lia|by intros ? ?%elem_of_nil|].
  assert (Hc0 : 0 <= c < sb_size B) by (pose proof (data_nblk B HL c Hc); lia).
  assert (Hb1 : bit B (alloc_view B V c) c = true) by (rewrite (bit_alloc B HL w V [] (4 + k) Ho) by done; by rewrite decide_True).
  destruct (bfree_ok B HL s w1 (alloc_view B V c) [] (1 + k) c) as (w2 & H2 & Ho2); try done; [apply not_elem_of_nil|cbn; lia|].
  assert (Hlen : length (alloc_view B V c (BBLOCK c B)) = BSIZE).
  { eapply owns_len; [exact Ho1|]. pose proof (BBLOCK_range B HL c Hc0). pose proof (lay_data B HL). pose proof (lay_disk B HL). lia. }
  exists c, w1, w2, (with_bit B (alloc_view B V c) c false). split_and!; try done.
  - intros b Hb. rewrite bit_with_bit by (try done; lia). rewrite (bit_alloc B HL w V [] (4 + k) Ho) by done.
    case_decide; [by subst|done].
  - apply (bfree_free B HL s w2 _ [] (1 + k) c Hsb Ho2 Hc0); [|apply not_elem_of_nil|cbn; lia].
    rewrite bit_with_bit by (try done; lia). by rewrite decide_True.
Qed.

Variable devsw : Z -> @devfun W.

(** C15: [readi] returns the bytes of the file in the range asked for, cut at the end of the
    file, and changes nothing; outside the file, or when the range wraps around, it
    fails. *)
Theorem readi_correct (s : @fs W) i w V k off n :
  file_ok B V (geti s i) -> owns w V [] [] k -> 0 <= off < W32 -> 0 <= n < 2 ^ 31 ->
  if decide (off <= size (geti s i))
  then exists w', readi devsw i off n (set_blk w s) =
      Ret (Z.min n (size (geti s i) - off), fbytes V (geti s i) off (Z.to_nat (Z.min n (size (geti s i) - off)))) (set_blk w' s) /\
    owns w' V [] [] k
  else readi devsw i off n (set_blk w s) = Ret (-1, []) (set_blk w s).
Proof.
  intros Hf Ho Hoff Hn. case_decide as Hd; [apply (readi_ok B HL i devsw s w V k off n Hf Ho); lia|].
  apply readi_fails; [apply Hf|lia|lia|]. left. lia.
Qed.

(** C14: [writei] puts the bytes into the file at the offset, growing it when they reach past
    its end: afterwards the file's bytes are the old ones with the range replaced, the file
    is well formed, its inode on the disk is the one in memory, and the contents of all
    other files and all other inodes are what they were. *)
Theorem writei_correct (s : @fs W) i w V src off k m :
  let x := geti s i in let n := Z.of_nat (length src) in
  sb s = B -> (i < length (inodes s))%nat -> file_ok B V x -> synced B V x -> shorts_ok x -> 0 <= inum x < sb_ninodes B ->
  meta_used B V -> 0 <= off <= size x -> off + n <= maxfile ->
  owns w V [] [] (6 * turns off n + (1 + k)) -> frees B V (2 * turns off n + m) ->
  exists w' V' x', writei devsw i src off n (set_blk w s) = Ret n (set_blk w' (set_inode i x' s)) /\
    owns w' V' [] [] k /\ write_post B V x V' x' off src.
Proof. intros x n. by apply writei_ok. Qed.
End props.

(** *** A small disk *)

(** Ten blocks: one of inodes, one of the bitmap, six of data; inode 1 is an empty file. *)
Definition sb0 : superblock := MkSb 10 6 8 0 2 2 3.
Definition ino1 : inode := MkInode 1 1 1 SleepLock.initsleeplock 1 T_FILE 0 0 1 0 (replicate 13 0).
Definition zero_block : list Z := replicate BSIZE 0.
Definition disk0 : list (list Z) :=
  [zero_block; zero_block; put_dinode zero_block 1 (dinode_of ino1); <[0%nat := 15]> zero_block] ++ replicate 6 zero_block.
Definition V0 (b : Z) : list Z := disk0 !!! Z.to_nat b.
Definition fs0 : @fs (list (list Z)) := MkFs sb0 false [ino1] 0 disk0.
Definition no_dev : Z -> @devfun (list (list Z)) := fun _ => MkDev None None.
#[local] Instance spec10 : BlocksSpec (list (list Z)) := ram_spec 10.

Lemma layout0 : layout sb0.
Proof.
  split; try (vm_compute; done || discriminate). intros n Hn. cbn in Hn. unfold IBLOCK. cbn.
  assert (n / IPB = 0) as -> by (apply Z.div_small; change IPB with 8; lia). lia.
Qed.
Lemma owns0 k : owns disk0 V0 [] [] k.
Proof.
  split_and!; [done| |by intros i b ?%elem_of_nil]. intros b Hb. split; [done|]. unfold V0.
  assert (Hall : Forall (fun x => length x = BSIZE) disk0) by (repeat constructor).
  rewrite Forall_lookup in Hall. eapply Hall, list_lookup_lookup_total_lt. cbn [nblk spec10 ram_spec] in Hb. cbn [length disk0 app replicate]. lia.
Qed.
Lemma bits0 b : 0 <= b < 10 -> bit sb0 V0 b = (b <? 4).
Proof.
  intros Hb. assert (Hc : b = 0 \/ b = 1 \/ b = 2 \/ b = 3 \/ b = 4 \/ b = 5 \/ b = 6 \/ b = 7 \/ b = 8 \/ b = 9) by lia.
  repeat destruct Hc as [->|Hc]; subst; vm_compute; reflexivity.
Qed.
Lemma meta0 : meta_used sb0 V0.
Proof. intros b Hb. change (datastart sb0) with 4 in Hb. rewrite bits0 by lia. apply Z.ltb_lt. lia. Qed.
Lemma frees0 : frees sb0 V0 6.
Proof.
  exists [4; 5; 6; 7; 8; 9]. split_and!; [apply (bool_decide_unpack _); vm_compute; exact I|done|].
  intros b Hb. change (sb_size sb0) with 10.
  assert (Hr : 4 <= b < 10) by (repeat (apply elem_of_cons in Hb as [->|Hb]; [lia|]); by apply elem_of_nil in Hb).
  split; [lia|]. rewrite bits0 by lia. apply Z.ltb_ge. lia.
Qed.
Lemma ino1_blocks k : fblk V0 ino1 k = 0.
Proof.
  unfold fblk. change (addrs ino1 !!! NDIRECT) with 0. case_decide as Hd; [|done].
  apply lookup_total_replicate_2. unfold NDIRECT in Hd. lia.
Qed.
Lemma file0 : file_ok sb0 V0 ino1.
Proof.
  split; try done.
  - intros k _ Hk. cbn in Hk. lia.
  - intros a (Ha & [(k & _ & Hk)|Hi]); [rewrite ino1_blocks in Hk|]; by subst.
  - intros k k' _ _ Hk. by rewrite ino1_blocks in Hk.
Qed.

Lemma balloc_correct_witness :
  exists w' V', balloc 1 (set_blk disk0 fs0) = Ret 4 (set_blk w' fs0) /\ owns w' V' [] [] 7 /\ V' 4 = replicate BSIZE 0.
Proof.
  destruct (balloc_correct sb0 layout0 fs0 disk0 V0 7 eq_refl (owns0 9) meta0) as [H _].
  destruct (H 4) as (w' & V' & H1 & H2 & H3 & _); [split; [lia|reflexivity]|by rewrite bits0|intros c' Hc'; rewrite bits0 by lia; by apply Z.ltb_lt; lia|].
  by exists w', V'.
Defined.
Lemma balloc_bfree_witness :
  exists c w1 w2, balloc 1 (set_blk disk0 fs0) = Ret c (set_blk w1 fs0) /\ bfree 1 c (set_blk w1 fs0) = Ret tt (set_blk w2 fs0).
Proof.
  destruct (balloc_bfree sb0 layout0 fs0 disk0 V0 7 5 eq_refl (owns0 11) meta0 frees0) as (c & w1 & w2 & V2 & H1 & H2 & _).
  by exists c, w1, w2.
Defined.
Lemma readi_correct_witness : exists w', readi no_dev 0 0 5 (set_blk disk0 fs0) = Ret (0, []) (set_blk w' fs0).
Proof.
  assert (Hf : file_ok sb0 V0 (geti fs0 0)) by exact file0.
  pose proof (readi_correct sb0 layout0 no_dev fs0 0 disk0 V0 0 0 5 Hf (owns0 0) ltac:(done) ltac:(done)) as H.
  rewrite decide_True in H by done. destruct H as (w' & H & _). by exists w'.
Defined.
Lemma writei_correct_witness :
  exists w' V' x', writei no_dev 0 [104; 105] 0 2 (set_blk disk0 fs0) = Ret 2 (set_blk w' (set_inode 0 x' fs0)) /\
    fbytes V' x' 0 (Z.to_nat (size x')) = [104; 105].
Proof.
  destruct (writei_correct sb0 layout0 no_dev fs0 0 disk0 V0 [104; 105] 0 0 4) as (w' & V' & x' & H & _ & Hp).
  - reflexivity.
  - cbn. lia.
  - exact file0.
  - vm_compute. reflexivity.
  - unfold shorts_ok. cbn. unfold T_FILE. lia.
  - cbn. lia.
  - exact meta0.
  - cbn. lia.
  - vm_compute. discriminate.
  - exact (owns0 7).
  - exact frees0.
  - exists w', V', x'. split; [exact H|]. rewrite (wp_bytes _ _ _ _ _ _ _ Hp). reflexivity.
Defined.
End FsProps.
