(* ===== verification/Inodes.v ===== *)
(** The inode cache: what [iget], [idup], [ilock], [iunlock] and [iput] promise.

    [icache I V R H] describes the entries [I] of the cache by what their users can rely on:
    [R] counts the references to every inode that is in use, an entry that is valid agrees
    with the inode on the disk, whose blocks are [V], and [H] are the entries that the running
    process has locked.  No other process holds the lock of an inode; where one does, the
    running process sleeps until that is over. *)

From S2P Require Import Prelude Params Bytes Sleeplock Bio Cache Log Fs FsSpec FsFile.

Module Inodes.
Import SleepLock Fs FreeMap Files.

(** ** Counting references *)
Definition inc (n : Z) (R : gmap Z Z) : gmap Z Z := <[n := default 0 (R !! n) + 1]> R.
Definition dec (n : Z) (R : gmap Z Z) : gmap Z Z :=
  if decide (R !! n = Some 1) then delete n R else <[n := default 0 (R !! n) - 1]> R.

Lemma lookup_inc_ne n m R : n <> m -> inc n R !! m = R !! m.
Proof. intros. unfold inc. by rewrite lookup_insert_ne. Qed.
Lemma lookup_dec_ne n m R : n <> m -> dec n R !! m = R !! m.
Proof. intros. unfold dec. case_decide; [by rewrite lookup_delete_ne|by rewrite lookup_insert_ne]. Qed.
Lemma dec_inc n R : (forall c, R !! n = Some c -> 0 < c) -> dec n (inc n R) = R.
Proof.
  intros Hc. unfold dec, inc. rewrite lookup_insert_eq. destruct (R !! n) as [c|] eqn:E; cbn [default].
  - specialize (Hc c eq_refl). rewrite decide_False by (intros [=]; lia). rewrite insert_insert_eq. apply insert_id. rewrite E. f_equal. cbn. lia.
  - rewrite decide_True by done. by apply delete_insert_id.
Qed.
Lemma dec_inc_comm n m R : n <> m -> dec n (inc m R) = inc m (dec n R).
Proof.
  intros Hne. unfold dec. rewrite !lookup_inc_ne by done. unfold inc. case_decide.
  - rewrite lookup_delete_ne by done. by rewrite delete_insert_ne.
  - rewrite lookup_insert_ne by done. by rewrite insert_insert_ne.
Qed.
Lemma size_inc n R : (base.size (inc n R) <= S (base.size R))%nat.
Proof. unfold inc. destruct (R !! n) eqn:E; [rewrite map_size_insert_Some by done; lia|rewrite map_size_insert_None by done; lia]. Qed.

Section inodes.
Context {W : Type} `{!Blocks W} `{!BlocksSpec W}.
Variable B : superblock.
Hypothesis HL : layout B.
Variable me : Z.
Implicit Types (I : list inode) (V : Z -> list Z) (R : gmap Z Z) (H : list nat) (c : nat) (w : W).

Local Notation st I c w := (MkFs B false I c w).
Local Notation stl I c w := (MkFs B true I c w).
Local Notation synced := (Files.synced B).
Local Notation disk_inode := (Files.disk_inode B).

Record icache I V R H : Prop := MkIcache {
  ic_len : length I = NINODE;
  ic_ref i x : I !! i = Some x -> 0 <= ref x;
  ic_busy i x : I !! i = Some x -> 0 < ref x ->
    dev x = 1 /\ 0 < inum x < sb_ninodes B /\ R !! inum x = Some (ref x) /\ (valid x <> 0 -> synced V x);
  ic_inj i j x y : I !! i = Some x -> I !! j = Some y -> 0 < ref x -> 0 < ref y -> inum x = inum y -> i = j;
  ic_R n z : R !! n = Some z -> 0 < z /\ exists i x, I !! i = Some x /\ ref x = z /\ inum x = n;
  ic_held i x : I !! i = Some x -> if decide (i ∈ H) then held_by me (lock x) /\ valid x <> 0 /\ 0 < ref x else free (lock x)
}.

(** Entry [i] is a reference to inode [n]. *)
Definition refers I (i : nat) (n : Z) : Prop := exists x, I !! i = Some x /\ 0 < ref x /\ inum x = n.

(** *** Changing one entry *)
Lemma alter_lookup I (f : inode -> inode) i j : alter f i I !! j = if decide (i = j) then f <$> I !! i else I !! j.
Proof. case_decide; [subst; by rewrite list_lookup_alter_eq|by rewrite list_lookup_alter_ne]. Qed.
Lemma total I i x : I !! i = Some x -> I !!! i = x.
Proof. apply list_lookup_total_correct. Qed.

Lemma run_upd {A} I c w l i f (k : unit -> M (@fs W) A) : bind (upd i f) k (MkFs B l I c w) = k tt (MkFs B l (alter f i I) c w).
Proof. done. Qed.
Lemma run_geti {A} I c w l i (k : inode -> M (@fs W) A) : bind (reads (fun s => geti s i)) k (MkFs B l I c w) = k (I !!! i) (MkFs B l I c w).
Proof. done. Qed.
Lemma run_acquire {A} I c w (k : unit -> M (@fs W) A) : bind (icache_lock Klock.acquire) k (st I c w) = k tt (stl I c w).
Proof. done. Qed.
Lemma run_release {A} I c w (k : unit -> M (@fs W) A) : bind (icache_lock Klock.release) k (stl I c w) = k tt (st I c w).
Proof. done. Qed.

(** *** [iget] *)
Definition hit (n : Z) (x : inode) : bool := (0 <? ref x) && (dev x =? 1) && (inum x =? n).
Lemma iscan_hit I c w n j x : I !! j = Some x -> hit n x = true -> (forall i y, (i < j)%nat -> I !! i = Some y -> hit n y = false) ->
  forall cnt i e, (i <= j < i + cnt)%nat ->
  iget_scan 1 n i cnt e (stl I c w) = Ret (inl j) (st (alter (set_ref (ref x + 1)) j I) c w).
Proof.
  intros Hj Hh Hm. induction cnt as [|cnt IH]; intros i e Hi; [lia|]. cbn [iget_scan]. rewrite bind_reads. unfold geti. cbn [inodes].
  destruct (decide (i = j)) as [->|Hne].
  - rewrite (total _ _ _ Hj). unfold hit in Hh. rewrite Hh. by rewrite run_upd, run_release.
  - assert (is_Some (I !! i)) as [y Hy] by (apply lookup_lt_is_Some; apply lookup_lt_Some in Hj; lia).
    rewrite (total _ _ _ Hy). specialize (Hm i y ltac:(lia) Hy). unfold hit in Hm. rewrite Hm. apply IH. lia.
Qed.
Lemma iscan_miss I c w n cnt : forall i e, (i + cnt <= length I)%nat -> (forall j y, (i <= j)%nat -> I !! j = Some y -> hit n y = false) ->
  exists r, iget_scan 1 n i cnt e (stl I c w) = Ret (inr r) (stl I c w) /\
    match r with
    | Some j => e = Some j \/ e = None /\ (i <= j < i + cnt)%nat /\ ref (I !!! j) = 0
    | None => e = None /\ forall j y, (i <= j < i + cnt)%nat -> I !! j = Some y -> ref y <> 0
    end.
Proof.
  induction cnt as [|cnt IH]; intros i e Hi Hm; cbn [iget_scan].
  - exists e. split; [done|]. destruct e; [by left|]. split; [done|]. lia.
  - rewrite bind_reads. unfold geti. cbn [inodes]. assert (is_Some (I !! i)) as [y Hy] by (apply lookup_lt_is_Some; lia).
    rewrite (total _ _ _ Hy). pose proof (Hm i y ltac:(lia) Hy) as Hf. unfold hit in Hf. rewrite Hf.
    set (e' := match e with None => _ | Some _ => _ end). destruct (IH (S i) e') as (r & E & Hr); [lia|intros j z Hj; apply Hm; lia|].
    exists r. split; [done|]. subst e'. destruct e as [e|], r as [j|]; cbn in Hr.
    + destruct Hr as [Hr|[? _]]; [by left|done].
    + by destruct Hr.
    + right. split; [done|]. destruct (Z.eqb_spec (ref y) 0) as [Ez|]; destruct Hr as [Hr|(Hr & ? & ?)]; try done.
      * injection Hr as <-. split; [lia|]. by rewrite (total _ _ _ Hy).
      * split; [lia|done].
    + split; [done|]. destruct Hr as [He Hr]. destruct (Z.eqb_spec (ref y) 0); [done|]. intros j z Hj Hz.
      destruct (decide (i = j)) as [<-|]; [by simplify_eq|]. apply (Hr j); [lia|done].
Qed.

Lemma hit_true n x : hit n x = true -> 0 < ref x /\ inum x = n.
Proof. intros Hh. unfold hit in Hh. b2p. done. Qed.
Lemma refers_hit I V R H j n x : icache I V R H -> I !! j = Some x -> 0 < ref x -> inum x = n -> hit n x = true.
Proof.
  intros Hi Hj Hr Hn. destruct (ic_busy _ _ _ _ Hi j x Hj Hr) as (Hd & _). unfold hit. rewrite Hd, Hn, Z.eqb_refl, andb_true_r.
  destruct (Z.ltb_spec 0 (ref x)); (done || lia).
Qed.
(** With fewer inodes in use than entries there is a free entry. *)
Lemma free_entry I V R H : icache I V R H -> (base.size R < NINODE)%nat -> ~ (forall j y, I !! j = Some y -> ref y <> 0).
Proof.
  intros Hi Hs Hall. assert (Hpos : forall j y, I !! j = Some y -> 0 < ref y).
  { intros j y Hy. pose proof (Hall j y Hy). pose proof (ic_ref _ _ _ _ Hi j y Hy). lia. }
  assert (Hnd : NoDup (inum <$> I)).
  { apply NoDup_alt. intros i j a Ha Hb. rewrite list_lookup_fmap in Ha, Hb. destruct (I !! i) as [x|] eqn:Ex, (I !! j) as [y|] eqn:Ey; try done.
    injection Ha as Ha. injection Hb as Hb. apply (ic_inj _ _ _ _ Hi i j x y); eauto. congruence. }
  assert (Hsub : forall a, a ∈ inum <$> I -> a ∈ (map_to_list R).*1).
  { intros a (x & -> & (j & Hj)%list_elem_of_lookup)%list_elem_of_fmap. destruct (ic_busy _ _ _ _ Hi j x Hj (Hpos j x Hj)) as (_ & _ & HR & _).
    apply list_elem_of_fmap. exists (inum x, ref x). split; [done|]. by apply elem_of_map_to_list. }
  assert (length (inum <$> I) <= length (map_to_list R).*1)%nat as Hle by (by apply submseteq_length, NoDup_submseteq).
  rewrite !length_fmap, length_map_to_list, (ic_len _ _ _ _ Hi) in Hle. lia.
Qed.

(** *** One entry changes *)
Lemma alter_set I f i x : I !! i = Some x -> alter f i I = <[i := f x]> I.
Proof.
  intros Hx. apply list_eq. intros j. rewrite alter_lookup. case_decide as E; [subst; rewrite Hx, list_lookup_insert_eq; [done|by eapply lookup_lt_Some]|by rewrite list_lookup_insert_ne].
Qed.
Lemma alter_insert I f i y : (i < length I)%nat -> alter f i (<[i := y]> I) = <[i := f y]> I.
Proof. intros Hi. rewrite (alter_set _ _ _ y) by (by apply list_lookup_insert_eq). by rewrite list_insert_insert_eq. Qed.
Lemma set_lookup I i y j z x : I !! i = Some x -> <[i := y]> I !! j = Some z -> j = i /\ z = y \/ j <> i /\ I !! j = Some z.
Proof.
  intros Hx. destruct (decide (j = i)) as [->|Hne]; [rewrite list_lookup_insert_eq by (by eapply lookup_lt_Some); intros [=]; by left|].
  rewrite list_lookup_insert_ne by done. by right.
Qed.
Definition lock_ok H i y : Prop := if decide (i ∈ H) then held_by me (lock y) /\ valid y <> 0 /\ 0 < ref y else free (lock y).
Lemma icache_set I V R H i x y R' H' :
  icache I V R H -> I !! i = Some x ->
  (0 < ref x /\ inum x = inum y \/ ref x = 0 /\ R !! inum y = None) ->
  0 <= ref y -> dev y = 1 -> 0 < inum y < sb_ninodes B -> (valid y <> 0 -> synced V y) ->
  R' !! inum y = (if decide (ref y = 0) then None else Some (ref y)) -> (forall m, m <> inum y -> R' !! m = R !! m) ->
  lock_ok H' i y -> (forall j, j <> i -> (j ∈ H' <-> j ∈ H)) ->
  icache (<[i := y]> I) V R' H'.
Proof.
  intros Hi Hx Hcase Hr Hd Hn Hv HR Hoth Hl HH.
  assert (Hno : forall j z, j <> i -> I !! j = Some z -> 0 < ref z -> inum z <> inum y).
  { intros j z Hj Hz Hrz E. destruct Hcase as [[Hrx Ex]|[_ HN]].
    - apply Hj. apply (ic_inj _ _ _ _ Hi j i z x); congruence.
    - destruct (ic_busy _ _ _ _ Hi j z Hz Hrz) as (_ & _ & HRz & _). congruence. }
  split.
  - rewrite length_insert. apply Hi.
  - intros j z [[-> ->]|[Hj Hz]]%(set_lookup _ _ _ _ _ x Hx); [done|by eapply ic_ref].
  - intros j z [[-> ->]|[Hj Hz]]%(set_lookup _ _ _ _ _ x Hx) Hrz; [rewrite HR, decide_False by lia; done|].
    destruct (ic_busy _ _ _ _ Hi j z Hz Hrz) as (? & ? & ? & ?). rewrite Hoth by (by eapply Hno). done.
  - intros j k z z' [[-> ->]|[Hj Hz]]%(set_lookup _ _ _ _ _ x Hx) [[-> ->]|[Hk Hz']]%(set_lookup _ _ _ _ _ x Hx) Hrz Hrz' E; [done| | |by eapply ic_inj].
    + destruct (Hno k z' Hk Hz' Hrz'). done.
    + destruct (Hno j z Hj Hz Hrz). done.
  - intros m a Hm. destruct (decide (m = inum y)) as [->|Hne].
    + rewrite HR in Hm. case_decide; [done|]. injection Hm as <-. split; [lia|]. exists i, y. rewrite list_lookup_insert_eq by (by eapply lookup_lt_Some). done.
    + rewrite Hoth in Hm by done. destruct (ic_R _ _ _ _ Hi m a Hm) as (Ha & j & z & Hz & Hrz & Ez). split; [done|]. exists j, z.
      rewrite list_lookup_insert_ne; [done|]. intros ->. simplify_eq. destruct Hcase as [[_ E]|[E _]]; [by rewrite E in Hne|lia].
  - intros j z [[-> ->]|[Hj Hz]]%(set_lookup _ _ _ _ _ x Hx); [exact Hl|]. pose proof (ic_held _ _ _ _ Hi j z Hz) as Hh.
    specialize (HH j Hj). destruct (decide (j ∈ H)), (decide (j ∈ H')); (done || tauto).
Qed.
(** References to other entries, and to the same inode, stay. *)
Lemma refers_set I i x y j m : I !! i = Some x -> (0 < ref x -> 0 < ref y /\ inum y = inum x \/ m <> inum x) -> refers I j m -> refers (<[i := y]> I) j m.
Proof.
  intros Hx Hc (z & Hz & Hrz & Ez). destruct (decide (j = i)) as [->|Hne]; [|exists z; by rewrite list_lookup_insert_ne].
  simplify_eq. destruct (Hc Hrz) as [[? ?]|?]; [|done]. exists y. rewrite list_lookup_insert_eq by (by eapply lookup_lt_Some). done.
Qed.

Lemma iget_ok I V R H n c w : icache I V R H -> 0 < n < sb_ninodes B -> (is_Some (R !! n) \/ (base.size R < NINODE)%nat) ->
  exists i I', iget 1 n (st I c w) = Ret i (st I' c w) /\ icache I' V (inc n R) H /\ refers I' i n /\ (forall j m, refers I j m -> refers I' j m).
Proof.
  intros Hi Hn Hroom. unfold iget. rewrite run_acquire. destruct (R !! n) as [a|] eqn:ER.
  - destruct (ic_R _ _ _ _ Hi n a ER) as (Ha & j & x & Hx & Hr & Ex).
    rewrite (bind_Ret _ _ _ _ _ (iscan_hit I c w n j x Hx (refers_hit _ _ _ _ _ _ _ Hi Hx ltac:(lia) Ex)
      (ltac:(intros k y Hk Hy; destruct (hit n y) eqn:Eh; [|done]; destruct (hit_true _ _ Eh) as [? ?];
         assert (k = j) by (apply (ic_inj _ _ _ _ Hi k j y x); (done || lia || congruence)); lia)) NINODE 0 None
      ltac:(apply lookup_lt_Some in Hx; rewrite (ic_len _ _ _ _ Hi) in Hx; lia))).
    exists j, (<[j := set_ref (ref x + 1) x]> I). rewrite (alter_set _ _ _ _ Hx). split; [done|].
    destruct (ic_busy _ _ _ _ Hi j x Hx ltac:(lia)) as (? & ? & ? & ?). split_and!.
    + apply (icache_set I V R H j x); cbn [ref inum dev valid lock set_ref]; try done; [left; split; [lia|done]|lia| | |].
      * unfold inc. rewrite Ex, lookup_insert_eq, ER, decide_False by lia. cbn. by rewrite Hr.
      * intros m Hm. rewrite Ex in Hm. by rewrite lookup_inc_ne.
      * pose proof (ic_held _ _ _ _ Hi j x Hx) as Hl. unfold lock_ok. case_decide; [|done]. cbn. destruct Hl as (? & ? & ?). split_and!; (done || lia).
    + exists (set_ref (ref x + 1) x). rewrite list_lookup_insert_eq by (by eapply lookup_lt_Some). cbn. split_and!; (done || lia).
    + intros i m. apply (refers_set _ _ x _ _ _ Hx). cbn. intros. left. split; [lia|done].
  - destruct Hroom as [[? ?]|Hroom]; [done|].
    assert (Hm : forall j y, (0 <= j)%nat -> I !! j = Some y -> hit n y = false).
    { intros j y _ Hy. destruct (hit n y) eqn:Eh; [|done]. destruct (hit_true _ _ Eh) as [Hr Ey]. destruct (ic_busy _ _ _ _ Hi j y Hy Hr) as (_ & _ & HR & _). congruence. }
    destruct (iscan_miss I c w n NINODE 0 None ltac:(rewrite (ic_len _ _ _ _ Hi); lia) Hm) as (r & E & Hr). rewrite (bind_Ret _ _ _ _ _ E).
    destruct r as [j|]; [|exfalso; eapply free_entry; [exact Hi|done|]; intros j y Hy; apply (proj2 Hr j); [apply lookup_lt_Some in Hy; rewrite (ic_len _ _ _ _ Hi) in Hy; lia|done]].
    destruct Hr as [?|(_ & Hj & Hz)]; [done|]. assert (is_Some (I !! j)) as [x Hx] by (apply lookup_lt_is_Some; rewrite (ic_len _ _ _ _ Hi); lia).
    rewrite (total _ _ _ Hx) in Hz. rewrite !run_upd, run_release. set (y := set_valid 0 (set_ref 1 (set_ident 1 n x))).
    assert (EI : alter (set_valid 0) j (alter (set_ref 1) j (alter (set_ident 1 n) j I)) = <[j := y]> I).
    { by rewrite (alter_set I _ j x Hx), !alter_insert by (by eapply lookup_lt_Some). }
    rewrite EI. exists j, (<[j := y]> I). split; [done|]. split_and!.
    + apply (icache_set I V R H j x); try done; [by right| | |].
      * unfold inc, y. cbn. by rewrite lookup_insert_eq, ER.
      * intros m Hne. by rewrite lookup_inc_ne.
      * pose proof (ic_held _ _ _ _ Hi j x Hx) as Hl. unfold lock_ok. case_decide; [|done]. destruct Hl as (_ & _ & ?). lia.
    + exists y. rewrite list_lookup_insert_eq by (by eapply lookup_lt_Some). done.
    + intros i m. apply (refers_set _ _ x _ _ _ Hx). lia.
Qed.

Lemma idup_ok I V R H i n c w : icache I V R H -> refers I i n ->
  exists I', idup i (st I c w) = Ret i (st I' c w) /\ icache I' V (inc n R) H /\ (forall j m, refers I j m -> refers I' j m).
Proof.
  intros Hi (x & Hx & Hr & <-). destruct (ic_busy _ _ _ _ Hi i x Hx Hr) as (? & ? & HR & ?). unfold idup. rewrite run_acquire, run_upd, run_release, (alter_set _ _ _ _ Hx).
  exists (<[i := set_ref (ref x + 1) x]> I). split_and!; [done| |].
  - apply (icache_set I V R H i x); cbn [ref inum dev valid lock set_ref]; try done; [by left|lia| | |].
    + unfold inc. rewrite lookup_insert_eq, HR, decide_False by lia. done.
    + intros m Hm. by rewrite lookup_inc_ne.
    + pose proof (ic_held _ _ _ _ Hi i x Hx) as Hl. unfold lock_ok. case_decide; [|done]. cbn. destruct Hl as (? & ? & ?). split_and!; (done || lia).
  - intros j m. apply (refers_set _ _ x _ _ _ Hx). cbn. intros. left. split; [lia|done].
Qed.

(** *** Locking *)
Lemma run_lock {A} I c w l i x (m : M sleeplock A) a y : I !! i = Some x -> m (lock x) = Ret a y ->
  on_lock i m (MkFs B l I c w) = Ret a (MkFs B l (<[i := set_lock y x]> I) c w).
Proof.
  intros Hx Hm. unfold on_lock. rewrite (zoom_Ret (fun s => lock (geti s i)) _ _ _ a y).
  - cbn [sb ic_lock inodes cwd blk]. by rewrite (alter_set _ _ _ _ Hx).
  - unfold geti. cbn [inodes]. by rewrite (total _ _ _ Hx).
Qed.
Lemma IBLOCK_disk n : 0 <= n < sb_ninodes B -> 0 <= IBLOCK n B < nblk.
Proof.
  intros Hn. pose proof (IBLOCK_range B HL _ Hn). pose proof (lay_data B HL) as Hd. unfold datastart in Hd. rewrite BPB_eq in Hd. pose proof (lay_disk B HL).
  pose proof (Z.div_mod (sb_size B) 4096 ltac:(lia)). pose proof (Z.mod_pos_bound (sb_size B) 4096 ltac:(lia)). lia.
Qed.
Lemma ilock_ok I V R H i n c w k : icache I V R H -> refers I i n -> i ∉ H -> d_type (disk_inode V n) <> 0 -> owns w V [] [] k ->
  exists I' w', ilock me i (st I c w) = Ret tt (st I' c w') /\ owns w' V [] [] k /\ icache I' V R (i :: H) /\ (forall j m, refers I j m -> refers I' j m).
Proof.
  intros Hi (x & Hx & Hr & <-) HiH Hty Ho. destruct (ic_busy _ _ _ _ Hi i x Hx Hr) as (Hd & Hn & HR & Hv). unfold ilock. rewrite run_geti.
  rewrite (total _ _ _ Hx). destruct (Z.ltb_spec (ref x) 1); [lia|].
  pose proof (ic_held _ _ _ _ Hi i x Hx) as Hl. rewrite decide_False in Hl by done. set (y := set_lock (MkSleep 1 false me) x).
  rewrite (bind_Ret _ _ _ _ _ (run_lock I c w false i x _ tt _ Hx (acquiresleep_free (inode_chan i) me _ Hl))). fold y. rewrite run_geti.
  pose proof (lookup_lt_Some _ _ _ Hx) as Hlt. assert (Hy : <[i := y]> I !! i = Some y) by (by apply list_lookup_insert_eq). rewrite (total _ _ _ Hy).
  assert (Hfin : forall z w', dev z = 1 -> inum z = inum x -> ref z = ref x -> lock z = MkSleep 1 false me -> valid z <> 0 -> synced V z -> owns w' V [] [] k ->
    exists I' w'', Ret tt (st (<[i := z]> I) c w') = Ret tt (st I' c w'') /\ owns w'' V [] [] k /\ icache I' V R (i :: H) /\ (forall j m, refers I j m -> refers I' j m)).
  { intros z w' Hdz Hnz Hrz Hlz Hvz Hsz Ho'. exists (<[i := z]> I), w'. split_and!; [done|done| |].
    - apply (icache_set I V R H i x); rewrite ?Hnz, ?Hrz; try done; [by left|lia|by rewrite decide_False by lia| |].
      + unfold lock_ok. rewrite decide_True by (by left). rewrite Hrz. done.
      + intros j Hj. rewrite elem_of_cons. naive_solver.
    - intros j m. apply (refers_set _ _ x _ _ _ Hx). rewrite Hnz, Hrz. intros. by left. }
  destruct (Z.eqb_spec (valid x) 0) as [Ev|Ev].
  - change (valid y) with (valid x). rewrite Ev. cbn [Z.eqb when]. rewrite bind_reads. cbn [sb]. change (dev y) with (dev x). change (inum y) with (inum x). rewrite Hd.
    destruct (bread_ok w V [] [] k _ Ho (IBLOCK_disk (inum x) ltac:(lia))) as (b & w1 & H1 & Ho1); [apply not_elem_of_nil|cbn; lia|].
    change (st (<[i := y]> I) c w) with (set_blk w (st (<[i := y]> I) c w)).
    rewrite (blocks_bind _ _ _ _ _ _ H1), (blocks_bind _ _ _ _ _ _ (bdata_ok _ _ _ _ _ b _ Ho1 ltac:(left))).
    change (set_blk w1 (st (<[i := y]> I) c w)) with (st (<[i := y]> I) c w1). rewrite run_upd, alter_insert by done.
    destruct (brelse_ok _ _ _ _ _ _ _ Ho1) as (w2 & H2 & Ho2); [apply not_elem_of_nil|]. set (z := load_dinode _ y).
    change (st (<[i := z]> I) c w1) with (set_blk w1 (st (<[i := z]> I) c w1)). rewrite (blocks_bind _ _ _ _ _ _ H2).
    change (set_blk w2 (st (<[i := z]> I) c w1)) with (st (<[i := z]> I) c w2). rewrite run_upd, alter_insert, run_geti by done.
    rewrite list_lookup_total_insert_eq by done. cbn [type set_valid]. change (type z) with (d_type (disk_inode V (inum x))).
    rewrite (proj2 (Z.eqb_neq _ 0) Hty). cbn [when]. apply Hfin; try done.
  - change (valid y) with (valid x). rewrite (proj2 (Z.eqb_neq _ 0) Ev). cbn [when]. apply Hfin; try done. exact (Hv Ev).
Qed.

Lemma locked_inode I V R H i n : icache I V R H -> refers I i n -> i ∈ H ->
  exists x, I !! i = Some x /\ I !!! i = x /\ inum x = n /\ dev x = 1 /\ 0 < ref x /\ 0 < n < sb_ninodes B /\ synced V x.
Proof.
  intros Hi (x & Hx & Hr & <-) HiH. destruct (ic_busy _ _ _ _ Hi i x Hx Hr) as (? & ? & ? & Hv). pose proof (ic_held _ _ _ _ Hi i x Hx) as Hl. rewrite decide_True in Hl by done.
  exists x. split; [done|]. split; [by apply total|]. split; [done|]. split; [done|]. split; [done|]. split; [done|]. apply Hv, Hl.
Qed.
Lemma iunlock_ok I V R H i n c w : icache I V R (i :: H) -> refers I i n -> i ∉ H ->
  exists I', iunlock me i (st I c w) = Ret tt (st I' c w) /\ icache I' V R H /\ (forall j m, refers I j m -> refers I' j m).
Proof.
  intros Hi (x & Hx & Hr & <-) HiH. destruct (ic_busy _ _ _ _ Hi i x Hx Hr) as (Hd & Hn & HR & Hv). pose proof (ic_held _ _ _ _ Hi i x Hx) as Hl.
  rewrite decide_True in Hl by (by left). destruct Hl as (Hl & Hval & _). unfold iunlock.
  assert (Hh : holdingsleep me (lock x) = Ret true (lock x)) by (rewrite Hl, holdingsleep_run by done; cbn; by rewrite Z.eqb_refl).
  rewrite (bind_Ret _ _ _ _ _ (run_lock I c w false i x _ _ _ Hx Hh)). pose proof (lookup_lt_Some _ _ _ Hx) as Hlt.
  assert (Ex : set_lock (lock x) x = x) by (by destruct x). rewrite Ex, list_insert_id by done. rewrite run_geti, (total _ _ _ Hx). cbn [negb orb].
  destruct (Z.ltb_spec (ref x) 1); [lia|]. rewrite (run_lock I c w false i x _ _ _ Hx (releasesleep_held me _ Hl)).
  exists (<[i := set_lock (MkSleep 0 false 0) x]> I). split_and!; [done| |].
  - apply (icache_set I V R (i :: H) i x); cbn [ref inum dev valid lock set_lock]; try done; [by left|lia|by rewrite decide_False by lia| |].
    + unfold lock_ok. by rewrite decide_False.
    + intros j Hj. rewrite elem_of_cons. naive_solver.
  - intros j m. apply (refers_set _ _ x _ _ _ Hx). by left.
Qed.
(** [iput] of an inode that stays in use: it has links, or other references. *)
Lemma iput_ok I V R H i n c w : icache I V R H -> refers I i n -> i ∉ H ->
  d_nlink (disk_inode V n) <> 0 \/ R !! n <> Some 1 ->
  exists I', iput me i (st I c w) = Ret tt (st I' c w) /\ icache I' V (dec n R) H /\
    (forall j m, refers I j m -> m <> n \/ R !! n <> Some 1 -> refers I' j m).
Proof.
  intros Hi (x & Hx & Hr & <-) HiH Hkeep. destruct (ic_busy _ _ _ _ Hi i x Hx Hr) as (Hd & Hn & HR & Hv). pose proof (ic_held _ _ _ _ Hi i x Hx) as Hl.
  rewrite decide_False in Hl by done. pose proof (lookup_lt_Some _ _ _ Hx) as Hlt. unfold iput.
  rewrite (bind_Ret _ _ _ _ _ (run_lock I c w false i x _ tt _ Hx (acquiresleep_free (inode_chan i) me _ Hl))). set (y := set_lock _ x).
  assert (Hy : <[i := y]> I !! i = Some y) by (by apply list_lookup_insert_eq). rewrite run_geti, (total _ _ _ Hy). change (valid y) with (valid x). change (nlink y) with (nlink x).
  assert (Ew : forall (k : unit -> M (@fs W) unit), bind (when (negb (valid x =? 0) && (nlink x =? 0))
     (icache_lock Klock.acquire ;;; r <- reads (fun s => ref (geti s i)) ;; icache_lock Klock.release ;;;
      when (r =? 1) (itrunc i ;;; upd i (set_type 0) ;;; iupdate i ;;; upd i (set_valid 0)))) k (st (<[i := y]> I) c w) = k tt (st (<[i := y]> I) c w)).
  { intros k. destruct (negb (valid x =? 0) && (nlink x =? 0)) eqn:E; [|done]. apply andb_true_iff in E as [E1 E2]. apply negb_true_iff, Z.eqb_neq in E1. apply Z.eqb_eq in E2.
    assert (Hr1 : ref x <> 1). { intros E. destruct Hkeep as [Hk|Hk]; [|apply Hk; congruence]. apply Hk. specialize (Hv E1). unfold Files.synced in Hv. by rewrite Hv. }
    cbn [when]. erewrite bind_Ret; [reflexivity|]. rewrite run_acquire, bind_reads. unfold geti. cbn [inodes]. rewrite (total _ _ _ Hy), run_release. change (ref y) with (ref x).
    by rewrite (proj2 (Z.eqb_neq _ 1) Hr1). }
  rewrite Ew. rewrite (bind_Ret _ _ _ _ _ (run_lock _ c w false i y _ _ _ Hy (releasesleep_held me (lock y) eq_refl))), list_insert_insert_eq. set (z := set_lock _ y).
  rewrite run_acquire, run_upd, alter_insert by done. set (u := set_ref _ z). exists (<[i := u]> I). split_and!; [done| |].
  - apply (icache_set I V R H i x); try done; [by left|unfold u; cbn; lia| | |].
    + unfold u, dec. cbn [inum ref set_ref]. change (ref z) with (ref x). change (inum z) with (inum x). rewrite HR. destruct (decide (ref x = 1)) as [E|E].
      * rewrite E, decide_True by done. rewrite lookup_delete_eq. done.
      * rewrite decide_False by congruence. rewrite lookup_insert_eq, decide_False by lia. done.
    + intros m Hm. apply lookup_dec_ne. by apply not_eq_sym.
    + unfold lock_ok. by rewrite decide_False.
  - intros j m Hj Hm. apply (refers_set _ _ x _ _ _ Hx); [|done]. intros _. unfold u. cbn. destruct Hm as [Hm|Hm]; [by right|]. left. split; [|done].
    assert (ref x <> 1) by congruence. lia.
Qed.
Lemma iunlockput_ok I V R H i n c w : icache I V R (i :: H) -> refers I i n -> i ∉ H ->
  d_nlink (disk_inode V n) <> 0 \/ R !! n <> Some 1 ->
  exists I', iunlockput me i (st I c w) = Ret tt (st I' c w) /\ icache I' V (dec n R) H /\
    (forall j m, refers I j m -> m <> n \/ R !! n <> Some 1 -> refers I' j m).
Proof.
  intros Hi Hn HiH Hk. unfold iunlockput. destruct (iunlock_ok I V R H i n c w Hi Hn HiH) as (I1 & E1 & Hi1 & Hr1). rewrite (bind_Ret _ _ _ _ _ E1).
  destruct (iput_ok I1 V R H i n c w Hi1 (Hr1 _ _ Hn) HiH Hk) as (I2 & E2 & Hi2 & Hr2). exists I2. split_and!; [done|done|]. eauto.
Qed.

(** The blocks change, and one locked entry with them. *)
Lemma icache_sync I V V' R H i x y :
  icache I V R H -> I !! i = Some x -> 0 < ref x -> dev y = dev x -> inum y = inum x -> ref y = ref x -> lock y = lock x -> valid y = valid x ->
  synced V' y -> (forall m, 0 < m < sb_ninodes B -> m <> inum x -> disk_inode V' m = disk_inode V m) ->
  icache (<[i := y]> I) V' R H /\ forall j m, refers I j m -> refers (<[i := y]> I) j m.
Proof.
  intros [H1 H2 H3 H4 H5 H6] Hx Hr Ed En Er El Ev Hs Hoth. pose proof (fun j z => set_lookup I i y j z x Hx) as Hlk.
  assert (Hback : forall j z, <[i := y]> I !! j = Some z -> exists z0, I !! j = Some z0 /\ ref z0 = ref z /\ inum z0 = inum z /\ dev z0 = dev z /\ lock z0 = lock z /\ valid z0 = valid z).
  { intros j z [[-> ->]|[Hj Hz]]%Hlk; [exists x|exists z]; done. }
  split; [split|].
  - by rewrite length_insert.
  - intros j z (z0 & Hz & <- & _)%Hback. by apply (H2 j).
  - intros j z Hz Hrz. destruct (Hlk j z Hz) as [[-> ->]|[Hj Hz0]].
    + destruct (H3 i x Hx Hr) as (? & ? & ? & ?). rewrite Ed, En, Er. done.
    + destruct (H3 j z Hz0 Hrz) as (? & ? & ? & Hv). split_and!; try done; try lia. intros Hvz. unfold Files.synced. rewrite Hoth; [by apply Hv|done|].
      intros E. apply Hj. by apply (H4 j i z x).
  - intros j k z z' (z0 & Hz & E1 & E2 & _)%Hback (z0' & Hz' & E1' & E2' & _)%Hback. rewrite <- E1, <- E1', <- E2, <- E2'. by apply (H4 j k z0 z0').
  - intros m a Hm. destruct (H5 m a Hm) as (Ha & j & z & Hz & Hrz & Ez). split; [done|]. destruct (decide (j = i)) as [->|Hne].
    + simplify_eq. exists i, y. rewrite list_lookup_insert_eq by (by eapply lookup_lt_Some). done.
    + exists j, z. by rewrite list_lookup_insert_ne.
  - intros j z (z0 & Hz & E1 & _ & _ & E2 & E3)%Hback. specialize (H6 j z0 Hz). by rewrite E1, E2, E3 in H6.
  - intros j m. apply (refers_set _ _ x _ _ _ Hx). intros _. left. by rewrite Er, En.
Qed.
End inodes.
End Inodes.
