(* ===== verification/Dirs.v ===== *)
(** Directories and paths.

    A directory is a file of 16-byte entries, each an inode number and a name.  [dirlookup]
    and [dirlink] are verified against the list of its entries, and [namei] and [nameiparent]
    against [walk], which follows the names of a path through the directories on the disk. *)

From S2P Require Import Prelude Params Bytes Sleeplock Bio Cache Log Fs FsSpec FsFile Inodes.

Module Dirs.
Import SleepLock Fs FreeMap Files Inodes.

(** ** Names *)
(** A C string in a field: the bytes before the first zero. *)
Fixpoint cut0 (s : list Z) : list Z :=
  match s with [] => [] | c :: s' => if c =? 0 then [] else c :: cut0 s' end.
Definition name_ok (s : list Z) : Prop := Forall (fun c => c <> 0) s /\ (length s <= DIRSIZ)%nat.

Lemma strncmp_eq n : forall p q, strncmp n p q = 0 <-> cut0 (take n p) = cut0 (take n q).
Proof.
  induction n as [|n IH]; intros p q; [done|]. cbn [strncmp]. destruct p as [|a p], q as [|b q]; cbn [head default from_option id tail take cut0].
  - done.
  - cbn [Z.eqb negb andb]. destruct (Z.eqb_spec b 0) as [->|]; [done|]. split; [intros; exfalso; lia|done].
  - destruct (Z.eqb_spec a 0) as [->|Ha]; cbn [negb andb]; [done|]. split; [intros; exfalso; lia|done].
  - destruct (Z.eqb_spec a 0) as [->|Ha]; cbn [negb andb].
    + destruct (Z.eqb_spec b 0) as [->|]; [done|]. split; [intros; exfalso; lia|done].
    + destruct (Z.eqb_spec a b) as [->|Hab].
      * rewrite (proj2 (Z.eqb_neq b 0) Ha), IH. split; [by intros ->|by intros [= ->]].
      * destruct (Z.eqb_spec b 0) as [->|]; [split; [intros; exfalso; lia|done]|]. split; [intros; exfalso; lia|]. intros [= ? ?]. done.
Qed.
Lemma cut0_id s : Forall (fun c => c <> 0) s -> cut0 s = s.
Proof. induction 1 as [|c s Hc _ IH]; [done|]. cbn. rewrite (proj2 (Z.eqb_neq c 0) Hc). by rewrite IH. Qed.
Lemma namecmp_eq name d : name_ok name -> length d = DIRSIZ -> (namecmp name d =? 0) = bool_decide (cut0 d = name).
Proof.
  intros [Hz Hl] Hd. apply eq_true_iff_eq. rewrite Z.eqb_eq, bool_decide_eq_true. unfold namecmp. rewrite strncmp_eq.
  rewrite (take_ge name) by lia. rewrite (take_ge d) by lia. rewrite (cut0_id name Hz). split; congruence.
Qed.

(** ** Paths *)
(** The names in a path, each cut to the length of a field. *)
Fixpoint split_at_slash (p : list Z) : list (list Z) :=
  match p with
  | [] => [[]]
  | c :: p' => if c =? slash then [] :: split_at_slash p' else
               match split_at_slash p' with s :: r => (c :: s) :: r | [] => [[c]] end
  end.
Definition elems (path : list Z) : list (list Z) := map (take DIRSIZ) (filter (fun s => s <> []) (split_at_slash path)).

Lemma elems_slash p : elems (slash :: p) = elems p.
Proof. unfold elems. cbn [split_at_slash]. rewrite Z.eqb_refl. by rewrite filter_cons_False by (intros H; by apply H). Qed.
Lemma elems_skip p : elems (skip_slashes p) = elems p.
Proof. induction p as [|c p IH]; [done|]. cbn [skip_slashes]. destruct (Z.eqb_spec c slash) as [->|]; [by rewrite elems_slash|done]. Qed.
Lemma skip_head p : match skip_slashes p with [] => True | c :: _ => c <> slash end.
Proof. induction p as [|c p IH]; [done|]. cbn [skip_slashes]. destruct (Z.eqb_spec c slash); [done|done]. Qed.
Lemma skip_suffix p : exists pre, p = pre ++ skip_slashes p.
Proof. induction p as [|c p [pre IH]]; [by exists []|]. cbn [skip_slashes]. destruct (c =? slash); [exists (c :: pre); cbn; by rewrite <- IH|by exists []]. Qed.
Lemma path_elem_split p e r : path_elem p = (e, r) -> p = e ++ r /\
  split_at_slash p = e :: match r with [] => [] | _ :: r' => split_at_slash r' end /\ match r with [] => True | c :: _ => c = slash end.
Proof.
  revert e r. induction p as [|c p IH]; intros e r; cbn [path_elem split_at_slash]; [by intros [= <- <-]|].
  destruct (Z.eqb_spec c slash) as [->|Hc]; [by intros [= <- <-]|]. destruct (path_elem p) as [e1 r1]. intros [= <- <-].
  destruct (IH e1 r1 eq_refl) as (-> & -> & Hr). done.
Qed.
Lemma elems_nil p : elems p = [] -> skip_slashes p = [].
Proof.
  rewrite <- elems_skip. pose proof (skip_head p) as Hh. destruct (skip_slashes p) as [|c q]; [done|]. unfold elems. cbn [split_at_slash].
  rewrite (proj2 (Z.eqb_neq c slash) Hh). destruct (split_at_slash q); by rewrite filter_cons_True.
Qed.
Lemma skipelem_none p : skipelem p = None -> elems p = [].
Proof. unfold skipelem. rewrite <- elems_skip. destruct (skip_slashes p) as [|c q]; [done|]. by destruct (path_elem (c :: q)). Qed.
Lemma skipelem_some p rest name : skipelem p = Some (rest, name) ->
  elems p = name :: elems rest /\ (length rest < length p)%nat /\ (rest = [] <-> elems rest = []) /\ exists pre, p = pre ++ rest.
Proof.
  unfold skipelem. pose proof (skip_head p) as Hh. rewrite <- (elems_skip p).
  assert (Hlen : (length (skip_slashes p) <= length p)%nat) by (clear; induction p as [|c p IH]; [done|]; cbn [skip_slashes length]; case_match; cbn; lia).
  destruct (skip_slashes p) as [|c q] eqn:Eq; [done|]. destruct (path_elem (c :: q)) as [e r] eqn:E. intros [= <- <-].
  assert (He : e <> []). { cbn [path_elem] in E. rewrite (proj2 (Z.eqb_neq c slash) Hh) in E. destruct (path_elem q). by injection E as <- <-. }
  destruct (path_elem_split _ _ _ E) as (Ep & Es & Hr). split_and!.
  - rewrite elems_skip. unfold elems. rewrite Es, filter_cons_True by done. cbn [map]. f_equal. destruct r as [|d r]; [done|]. subst d. symmetry; apply (elems_slash r).
  - assert (length (skip_slashes r) <= length r)%nat by (clear; induction r as [|d r IH]; [done|]; cbn [skip_slashes length]; case_match; cbn; lia).
    rewrite Ep, length_app in Hlen. destruct e; [done|]. cbn [length] in Hlen. lia.
  - rewrite elems_skip. split; [intros E0; rewrite <- elems_skip, E0; done|apply elems_nil].
  - destruct (skip_suffix p) as [p1 E1], (skip_suffix r) as [r1 E2]. exists (p1 ++ e ++ r1). rewrite E1, Eq, Ep, E2 at 1. by rewrite <- !app_assoc.
Qed.
Lemma elems_ok p : Forall (fun c => c <> 0) p -> Forall name_ok (elems p).
Proof.
  intros Hp. unfold elems. apply Forall_map. assert (Forall (Forall (fun c => c <> 0)) (split_at_slash p)) as Hs.
  { induction Hp as [|c p Hc _ IH]; cbn [split_at_slash]; [by repeat constructor|]. destruct (c =? slash); [by constructor|].
    destruct IH; constructor; try done; by constructor. }
  apply Forall_forall. intros s [_ Hs']%list_elem_of_filter. rewrite Forall_forall in Hs. split; [by apply Forall_take, Hs|rewrite length_take; lia].
Qed.

Section dirs.
Context {W : Type} `{!Blocks W} `{!BlocksSpec W}.
Variable B : superblock.
Hypothesis HL : layout B.
Variable me : Z.
Variable devsw : Z -> @devfun W.
Implicit Types (I : list inode) (V : Z -> list Z) (R : gmap Z Z) (H : list nat) (c : nat) (w : W).

Local Notation st I c w := (MkFs B false I c w).
Local Notation synced := (Files.synced B).
Local Notation disk_inode := (Files.disk_inode B).
Local Notation icache := (Inodes.icache B me).
Local Notation file_ok := (Files.file_ok B).

(** ** Inode [n] of the disk, and what a directory has *)
Definition ino V (n : Z) : inode :=
  let d := disk_inode V n in
  MkInode 1 n 1 initsleeplock 1 (d_type d) (d_major d) (d_minor d) (d_nlink d) (d_size d) (d_addrs d).
Definition dentry V (n : Z) (k : nat) : list Z := fbytes V (ino V n) (sizeof_de * Z.of_nat k) sizeof_dirent.
Definition entries V (n : Z) : list (Z * list Z) :=
  map (fun k => (de_inum (dentry V n k), cut0 (de_name (dentry V n k)))) (seq 0 (Z.to_nat (d_size (disk_inode V n) / sizeof_de))).
(** The entry of a name: the first one in use. *)
Definition names (name : list Z) (e : Z * list Z) : Prop := fst e <> 0 /\ snd e = name.
#[local] Instance names_dec name e : Decision (names name e).
Proof. unfold names. apply _. Defined.
Definition find_entry V n name : option (nat * (Z * list Z)) := list_find (names name) (entries V n).

Lemma synced_ino V x : dev x = 1 -> synced V x -> type x = type (ino V (inum x)) /\ size x = size (ino V (inum x)) /\ addrs x = addrs (ino V (inum x)) /\ nlink x = nlink (ino V (inum x)).
Proof. intros _ Hs. unfold Files.synced in Hs. unfold ino. by rewrite Hs. Qed.
Lemma fbytes_addrs V x y off n : addrs x = addrs y -> fbytes V x off n = fbytes V y off n.
Proof. intros E. unfold fbytes, fbyte, fblk. by rewrite E. Qed.
Lemma file_ok_same V x y : dev y = dev x -> type y = type x -> size y = size x -> addrs y = addrs x -> file_ok V x -> file_ok V y.
Proof.
  destruct x as [d n r l v t ma mi nl sz ad], y as [d' n' r' l' v' t' ma' mi' nl' sz' ad']. cbn. intros -> -> -> ->. intros [H1 H2 H3 H4 H5 H6 H7 H8]. by split.
Qed.
Lemma locked_file I V R H i n : icache I V R H -> refers I i n -> i ∈ H -> file_ok V (ino V n) ->
  exists x, I !! i = Some x /\ I !!! i = x /\ inum x = n /\ dev x = 1 /\ 0 < n < sb_ninodes B /\ synced V x /\ file_ok V x /\
    size x = d_size (disk_inode V n) /\ type x = d_type (disk_inode V n) /\ addrs x = addrs (ino V n).
Proof.
  intros Hi Hr HiH Hf. destruct (locked_inode B me I V R H i n Hi Hr HiH) as (x & Hx & Ht & <- & Hd & _ & Hn & Hs).
  destruct (synced_ino V x Hd Hs) as (H1 & H2 & H3 & _). exists x. split_and!; try done; try lia. by apply (file_ok_same V (ino V (inum x))).
Qed.

Definition good V m : Prop := 0 < m < sb_ninodes B /\ d_type (disk_inode V m) <> 0 /\ d_nlink (disk_inode V m) <> 0.
Record dir_ok V n : Prop := MkDirOk {
  do_inum : 0 < n < sb_ninodes B;
  do_file : file_ok V (ino V n);
  do_size : d_size (disk_inode V n) mod sizeof_de = 0;
  do_entries e : e ∈ entries V n -> fst e <> 0 -> good V (fst e)
}.

Lemma length_fbytes V x off n : length (fbytes V x off n) = n.
Proof. unfold fbytes. by rewrite length_map, length_seq. Qed.
Lemma slots_eq V n : dir_ok V n -> 0 <= d_size (disk_inode V n) /\ (d_size (disk_inode V n) + sizeof_de - 1) / sizeof_de = d_size (disk_inode V n) / sizeof_de /\
  d_size (disk_inode V n) = sizeof_de * (d_size (disk_inode V n) / sizeof_de) /\ length (entries V n) = Z.to_nat (d_size (disk_inode V n) / sizeof_de).
Proof.
  intros Hd. pose proof (fo_size _ _ _ (do_file _ _ Hd)) as Hs. pose proof (do_size _ _ Hd) as Hm. cbn [ino size] in Hs. set (z := d_size (disk_inode V n)) in *.
  assert (Ez : z = sizeof_de * (z / sizeof_de)) by (pose proof (Z.div_mod z sizeof_de ltac:(done)); lia). split_and!; [lia| |done|].
  - symmetry. apply (Z.div_unique _ _ _ (sizeof_de - 1)); [left; done|]. lia.
  - unfold entries. rewrite length_map, length_seq. done.
Qed.
Lemma entry_at V n k : (k < length (entries V n))%nat -> entries V n !! k = Some (de_inum (dentry V n k), cut0 (de_name (dentry V n k))).
Proof. intros Hk. unfold entries in *. rewrite length_map, length_seq in Hk. by rewrite list_lookup_fmap, lookup_seq_lt. Qed.

(** Reading an entry. *)
Lemma read_entry I V R H i n c w k p : icache I V R H -> refers I i n -> i ∈ H -> dir_ok V n -> owns w V [] [] k -> (p < length (entries V n))%nat ->
  exists w', readi devsw i (Z.of_nat p * sizeof_de) sizeof_de (st I c w) = Ret (sizeof_de, dentry V n p) (st I c w') /\ owns w' V [] [] k.
Proof.
  intros Hi Hr HiH Hd Ho Hp. destruct (locked_file I V R H i n Hi Hr HiH (do_file _ _ Hd)) as (x & Hx & Ht & _ & _ & _ & _ & Hf & Hsz & _ & Ha).
  destruct (slots_eq V n Hd) as (H0 & _ & Hz & Hl). rewrite Hl in Hp. change sizeof_de with 16 in *. assert (Hpp : Z.of_nat p * 16 + 16 <= d_size (disk_inode V n)) by lia.
  destruct (readi_ok B HL i devsw (st I c w) w V k (Z.of_nat p * 16) 16) as (w' & E & Ho'); unfold geti; cbn [inodes]; rewrite ?Ht; try done; [lia|].
  exists w'. split; [|done]. change (set_blk w (st I c w)) with (st I c w) in E. change (set_blk w' (st I c w)) with (st I c w') in E. unfold geti in E. cbn [inodes] in E.
  rewrite Ht, Hsz in E. rewrite Z.min_l in E by lia. rewrite E. f_equal. unfold dentry. rewrite (fbytes_addrs V x (ino V n)) by done. change sizeof_de with 16. by rewrite Z.mul_comm.
Qed.
Lemma length_de_name V n p : length (de_name (dentry V n p)) = DIRSIZ.
Proof. unfold de_name. rewrite length_get_bytes; [done|]. unfold dentry. rewrite length_fbytes. done. Qed.

(** ** [dirlookup] *)
Definition lookup_body (d : Z) (i : nat) (name : list Z) (k : nat) : M (@fs W) (option (nat * Z)) :=
  let off := Z.of_nat k * sizeof_de in
  r <- readi devsw i off sizeof_de ;;
  if negb (fst r =? sizeof_de) then panic "dirlookup read" else
  if de_inum (snd r) =? 0 then ret None else
  if namecmp name (de_name (snd r)) =? 0 then
    j <- iget d (de_inum (snd r)) ;;
    ret (Some (j, off))
  else ret None.
Lemma lookup_loop I V R H i n c k name : icache I V R H -> refers I i n -> i ∈ H -> dir_ok V n -> name_ok name ->
  forall cnt p w, (p + cnt = length (entries V n))%nat -> owns w V [] [] k ->
  exists w', owns w' V [] [] k /\
    match list_find (names name) (drop p (entries V n)) with
    | None => for_loop (lookup_body 1 i name) p cnt (st I c w) = Ret None (st I c w')
    | Some (q, (m, _)) => forall j I', iget 1 m (st I c w') = Ret j (st I' c w') ->
        for_loop (lookup_body 1 i name) p cnt (st I c w) = Ret (Some (j, Z.of_nat (p + q) * sizeof_de)) (st I' c w')
    end.
Proof.
  intros Hi Hr HiH Hd Hn. induction cnt as [|cnt IH]; intros p w Hp Ho.
  - exists w. split; [done|]. by rewrite drop_ge by lia.
  - destruct (read_entry I V R H i n c w k p Hi Hr HiH Hd Ho ltac:(lia)) as (w1 & E1 & Ho1). rewrite (drop_S _ _ _ (entry_at V n p ltac:(lia))). cbn [for_loop list_find].
    destruct (IH (S p) w1 ltac:(lia) Ho1) as (w2 & Ho2 & Hpost).
    assert (Hskip : ~ names name (de_inum (dentry V n p), cut0 (de_name (dentry V n p))) -> lookup_body 1 i name p (st I c w) = Ret None (st I c w1)).
    { intros Hno. unfold lookup_body. rewrite (bind_Ret _ _ _ _ _ E1). cbn [fst snd]. rewrite Z.eqb_refl. cbn [negb]. case_test; [done|].
      rewrite namecmp_eq by (done || apply length_de_name). case_bool_decide; [|done]. by destruct Hno. }
    case_decide as Hc.
    + exists w1. split; [done|]. intros j I' Hg. assert (Hb : lookup_body 1 i name p (st I c w) = Ret (Some (j, Z.of_nat p * sizeof_de)) (st I' c w1)).
      { unfold lookup_body. rewrite (bind_Ret _ _ _ _ _ E1). cbn [fst snd]. rewrite Z.eqb_refl. cbn [negb].
        destruct Hc as [Hz Hq]. cbn [fst snd] in Hz, Hq. rewrite (proj2 (Z.eqb_neq _ 0) Hz), namecmp_eq by (done || apply length_de_name).
        rewrite bool_decide_eq_true_2 by done. by rewrite (bind_Ret _ _ _ _ _ Hg). }
      rewrite (bind_Ret _ _ _ _ _ Hb). by rewrite Nat.add_0_r.
    + exists w2. split; [done|]. rewrite (bind_Ret _ _ _ _ _ (Hskip Hc)). destruct (list_find (names name) (drop (S p) (entries V n))) as [[q [m nm]]|]; cbn [fmap option_fmap option_map prod_map]; [|done].
      intros j I' Hg. rewrite (Hpost j I' Hg). do 3 f_equal. rewrite Nat.add_succ_r. done.
Qed.
Lemma found_entry V n name q m nm : dir_ok V n -> find_entry V n name = Some (q, (m, nm)) -> good V m /\ nm = name.
Proof.
  intros Hd Hf. unfold find_entry in Hf. apply list_find_Some in Hf as (Hl & [Hz Hq] & _). split; [|done]. apply (do_entries _ _ Hd (m, nm)); [by eapply list_elem_of_lookup_2|done].
Qed.
Lemma dirlookup_ok I V R H i n c w k name :
  icache I V R H -> refers I i n -> i ∈ H -> dir_ok V n -> d_type (disk_inode V n) = T_DIR -> name_ok name -> owns w V [] [] k -> (base.size R < NINODE)%nat ->
  match find_entry V n name with
  | None => exists w', dirlookup devsw i name (st I c w) = Ret None (st I c w') /\ owns w' V [] [] k
  | Some (q, (m, _)) => exists j I' w', dirlookup devsw i name (st I c w) = Ret (Some (j, Z.of_nat q * sizeof_de)) (st I' c w') /\ owns w' V [] [] k /\
      icache I' V (inc m R) H /\ refers I' j m /\ (forall j m, refers I j m -> refers I' j m)
  end.
Proof.
  intros Hi Hr HiH Hd Hty Hn Ho Hroom. destruct (locked_file I V R H i n Hi Hr HiH (do_file _ _ Hd)) as (x & Hx & Ht & _ & Hdev & _ & _ & Hf & Hsz & Htx & _).
  destruct (slots_eq V n Hd) as (_ & Hs & _ & Hl). destruct (lookup_loop I V R H i n c k name Hi Hr HiH Hd Hn (length (entries V n)) 0 w ltac:(lia) Ho) as (w1 & Ho1 & Hpost).
  assert (E : dirlookup devsw i name (st I c w) = for_loop (lookup_body 1 i name) 0 (length (entries V n)) (st I c w)).
  { unfold dirlookup. rewrite run_geti, Ht, Htx, Hty, Hsz, Hs, Hdev, <- Hl. done. }
  rewrite E. rewrite drop_0 in Hpost. fold (find_entry V n name) in Hpost. destruct (find_entry V n name) as [[q [m nm]]|] eqn:Ef; [|by exists w1].
  destruct (found_entry V n name q m nm Hd Ef) as [(Hm & _) _]. destruct (iget_ok B me I V R H m c w1 Hi Hm ltac:(by right)) as (j & I' & Eg & Hi' & Hj & Hk).
  exists j, I', w1. split_and!; try done. by apply Hpost.
Qed.

(** ** Paths *)
Section walk.
Variable V : Z -> list Z.
(** Following the names from directory [n]. *)
Fixpoint walk (n : Z) (es : list (list Z)) : option Z :=
  match es with
  | [] => Some n
  | e :: es =>
      if bool_decide (d_type (disk_inode V n) = T_DIR) then
        match find_entry V n e with Some (_, (m, _)) => walk m es | None => None end
      else None
  end.
(** The directory of the last name, and that name. *)
Definition walk_parent (n : Z) (es : list (list Z)) : option (Z * list Z) :=
  match last es with
  | None => None
  | Some e =>
      match walk n (removelast es) with
      | Some p => if bool_decide (d_type (disk_inode V p) = T_DIR) then Some (p, e) else None
      | None => None
      end
  end.
(** All directories in use are well formed. *)
Definition dirs_ok : Prop := forall n, 0 < n < sb_ninodes B -> d_type (disk_inode V n) = T_DIR -> d_nlink (disk_inode V n) <> 0 -> dir_ok V n.
End walk.
(** The result of [namex] from [n], with [nm] in the name buffer. *)
Definition target (parent : bool) V n nm es : option (Z * list Z) :=
  if parent then walk_parent V n es
  else match walk V n es with Some m => Some (m, default nm (last es)) | None => None end.

(** A walk ends at an inode in use. *)
Lemma walk_good V : dirs_ok V -> forall es n m, good V n -> walk V n es = Some m -> good V m.
Proof.
  intros Hd es. induction es as [|e es IH]; intros n m Hg H; cbn [walk] in H; [by injection H as <-|].
  case_bool_decide as Ht; [|done]. destruct (find_entry V n e) as [[q [p nm]]|] eqn:Ef; [|done]. apply list_find_Some in Ef as (Hq & [Hp _] & _).
  destruct Hg as (Hn & _ & Hl). eapply IH; [|done]. apply (do_entries _ _ (Hd n Hn Ht Hl) (p, nm)); [by eapply list_elem_of_lookup_2|done].
Qed.
Lemma target_step parent V n nm e es : target parent V n nm (e :: es) =
  if bool_decide (d_type (disk_inode V n) = T_DIR) then
    if parent && bool_decide (es = []) then Some (n, e)
    else match find_entry V n e with Some (_, (m, _)) => target parent V m e es | None => None end
  else None.
Proof.
  destruct parent; cbn [target andb walk].
  - unfold walk_parent. destruct es as [|e' es].
    + cbn. by case_bool_decide.
    + change (last (e :: e' :: es)) with (last (e' :: es)). change (removelast (e :: e' :: es)) with (e :: removelast (e' :: es)). cbn [walk].
      rewrite (bool_decide_eq_false_2 (e' :: es = [])) by done. destruct (last (e' :: es)) as [z|] eqn:El; [|by apply last_None in El].
      case_bool_decide; [|done]. destruct (find_entry V n e) as [[q [m nm']]|]; done.
  - case_bool_decide; [|done]. destruct (find_entry V n e) as [[q [m nm']]|]; [|done]. destruct (walk V m es); [|done]. f_equal. f_equal.
    destruct es as [|e' es]; [done|]. change (last (e :: e' :: es)) with (last (e' :: es)). destruct (last (e' :: es)) as [y|] eqn:El; [done|by apply last_None in El].
Qed.

Lemma inc_swap n m R : (forall a, R !! n = Some a -> 0 < a) -> dec n (inc m (inc n R)) = inc m R.
Proof.
  intros Hc. destruct (decide (n = m)) as [->|Hne]; [|by rewrite dec_inc_comm, dec_inc].
  rewrite dec_inc; [done|]. unfold inc. intros z. rewrite lookup_insert_eq. intros [= <-]. destruct (R !! m) as [a|] eqn:E; cbn; [specialize (Hc a eq_refl)|]; lia.
Qed.
Lemma inc_not1 n R : is_Some (R !! n) -> (forall a, R !! n = Some a -> 0 < a) -> inc n R !! n <> Some 1.
Proof. intros [a E] Hc. unfold inc. rewrite lookup_insert_eq, E. cbn. specialize (Hc a E). intros [=]. lia. Qed.

Lemma inc_twice_not1 n R : (forall a, R !! n = Some a -> 0 < a) -> inc n (inc n R) !! n <> Some 1.
Proof.
  intros Hc. apply inc_not1; unfold inc; [rewrite lookup_insert_eq; by eexists|]. intros a. rewrite lookup_insert_eq. intros [= <-].
  destruct (R !! n) as [b|]; cbn; [specialize (Hc b eq_refl)|]; lia.
Qed.

(** What is left after a walk that came to [r]. *)
Definition walked V R0 I c k (r : option (Z * list Z)) (m : res (@fs W) (option (nat * list Z))) : Prop :=
  exists o I' w', m = Ret o (st I' c w') /\ owns w' V [] [] k /\
    icache I' V (match r with Some (n, _) => inc n R0 | None => R0 end) [] /\
    (forall j n, is_Some (R0 !! n) -> refers I j n -> refers I' j n) /\
    match r with
    | Some (n, nm) => exists j, o = Some (j, nm) /\ refers I' j n
    | None => o = None
    end.

Section namex.
Variables (V : Z -> list Z) (R0 : gmap Z Z) (c : nat) (k : nat).
Hypothesis Hdirs : dirs_ok V.
Hypothesis Hpos : forall n a, R0 !! n = Some a -> 0 < a.
Hypothesis Hroom : (base.size R0 + 2 <= NINODE)%nat.

Lemma keep_links n : d_nlink (disk_inode V n) <> 0 -> d_nlink (disk_inode V n) <> 0 \/ inc n R0 !! n <> Some 1.
Proof. by left. Qed.
Lemma refs_stay I I' n (Hk : forall j m, refers I j m -> m <> n \/ inc n R0 !! n <> Some 1 -> refers I' j m) :
  forall j m, is_Some (R0 !! m) -> refers I j m -> refers I' j m.
Proof.
  intros j m Hm Hj. apply (Hk j m Hj). destruct (decide (m = n)) as [->|]; [right|by left]. apply inc_not1; [done|apply Hpos].
Qed.

Lemma namex_loop_ok parent fuel : forall path nm i n I w, (length path <= fuel)%nat -> Forall (fun z => z <> 0) path ->
  icache I V (inc n R0) [] -> refers I i n -> good V n -> owns w V [] [] k ->
  walked V R0 I c k (target parent V n nm (elems path)) (namex_loop me devsw fuel parent path nm i (st I c w)).
Proof.
  induction fuel as [|fuel IH]; intros path nm i n I w Hlen Hz Hi Hr (Hn & Hty & Hnl) Ho.
  all: pose proof (fun I1 => refs_stay I I1 n) as Hstay; cbn [namex_loop]; destruct (skipelem path) as [[rest name]|] eqn:Ek;
    [apply skipelem_some in Ek as (Ee & Hl & Hrest & pre & Epre)|apply skipelem_none in Ek; rewrite Ek].
  1: lia.
  1, 3: destruct parent;
    [destruct (iput_ok B me I V (inc n R0) [] i n c w Hi Hr (not_elem_of_nil _) (keep_links _ Hnl)) as (I' & E & Hi' & Hk);
       rewrite (bind_Ret _ _ _ _ _ E); rewrite dec_inc in Hi' by apply Hpos; exists None, I', w; split_and!; try done; by apply Hstay
    |exists (Some (i, nm)), I, w; split_and!; try done; by exists i].
  rewrite Ee, target_step. assert (Hne : Forall name_ok (name :: elems rest)) by (rewrite <- Ee; by apply elems_ok). apply Forall_cons in Hne as [Hname _].
  destruct (ilock_ok B HL me I V (inc n R0) [] i n c w k Hi Hr (not_elem_of_nil _) Hty Ho) as (I1 & w1 & E1 & Ho1 & Hi1 & Hk1). rewrite (bind_Ret _ _ _ _ _ E1), run_geti.
  destruct (locked_inode B me I1 V (inc n R0) [i] i n Hi1 (Hk1 _ _ Hr) ltac:(by left)) as (x & Hx & Ht & Hxn & Hd & _ & _ & Hs). rewrite Ht.
  destruct (synced_ino V x Hd Hs) as (Htx & _). rewrite Htx, Hxn. change (type (ino V n)) with (d_type (disk_inode V n)).
  assert (Hput : forall w2, owns w2 V [] [] k -> walked V R0 I c k None ((iunlockput me i ;;; ret None) (st I1 c w2))).
  { intros w2 Ho2. destruct (iunlockput_ok B me I1 V (inc n R0) [] i n c w2 Hi1 (Hk1 _ _ Hr) (not_elem_of_nil _) (keep_links _ Hnl)) as (I' & E & Hi' & Hk).
    rewrite (bind_Ret _ _ _ _ _ E). rewrite dec_inc in Hi' by apply Hpos. exists None, I', w2. split_and!; try done. apply Hstay. eauto. }
  destruct (Z.eqb_spec (d_type (disk_inode V n)) T_DIR) as [Ed|Ed]; cbn [negb]; [rewrite bool_decide_eq_true_2 by done|rewrite bool_decide_eq_false_2 by done; by apply Hput].
  rewrite (bool_decide_ext (rest = []) (elems rest = [])) by done. destruct (parent && bool_decide (elems rest = [])) eqn:Ep.
  { destruct (iunlock_ok B me I1 V (inc n R0) [] i n c w1 Hi1 (Hk1 _ _ Hr) (not_elem_of_nil _)) as (I' & E & Hi' & Hk). rewrite (bind_Ret _ _ _ _ _ E).
    exists (Some (i, name)), I', w1. split_and!; try done; eauto. }
  pose proof (Hdirs n Hn Ed Hnl) as Hdir. assert (Hroom1 : (base.size (inc n R0) < NINODE)%nat) by (pose proof (size_inc n R0); lia).
  pose proof (dirlookup_ok I1 V (inc n R0) [i] i n c w1 k name Hi1 (Hk1 _ _ Hr) ltac:(by left) Hdir Ed Hname Ho1 Hroom1) as Hlk.
  destruct (find_entry V n name) as [[q [m nm']]|] eqn:Ef.
  - destruct (found_entry V n name q m nm' Hdir Ef) as [Hm ->]. destruct Hlk as (j & I2 & w2 & E2 & Ho2 & Hi2 & Hj & Hk2). rewrite (bind_Ret _ _ _ _ _ E2).
    destruct (iunlockput_ok B me I2 V (inc m (inc n R0)) [] i n c w2 Hi2 (Hk2 _ _ (Hk1 _ _ Hr)) (not_elem_of_nil _) ltac:(by left)) as (I3 & E3 & Hi3 & Hk3).
    rewrite (bind_Ret _ _ _ _ _ E3). rewrite inc_swap in Hi3 by apply Hpos.
    assert (Hj3 : refers I3 j m).
    { apply Hk3; [done|]. destruct (decide (m = n)) as [->|]; [right; apply inc_twice_not1, Hpos|by left]. }
    destruct (IH rest name j m I3 w2 ltac:(lia)) as (o & I' & w' & E & Hpost); [|done..|].
    { rewrite Epre in Hz. by apply Forall_app in Hz as [_ Hz]. }
    rewrite E. exists o, I', w'. split; [done|]. destruct Hpost as (Hp1 & Hp2 & Hp3 & Hp4). split_and!; try done.
    intros j' m' Hm' Hj'. apply Hp3; [done|]. apply Hk3; [by apply Hk2, Hk1|]. destruct (decide (m' = n)) as [->|]; [right|by left].
    destruct (decide (m = n)) as [->|Hmn]; [apply inc_twice_not1, Hpos|rewrite lookup_inc_ne by done; by apply inc_not1; [|apply Hpos]].
  - destruct Hlk as (w2 & E2 & Ho2). rewrite (bind_Ret _ _ _ _ _ E2). by apply Hput.
Qed.
End namex.

(** [namex] from the root or from the current directory, inode [nc]. *)
Definition start_of (path : list Z) (nc : Z) : Z :=
  match path with z :: _ => if z =? slash then ROOTINO else nc | [] => nc end.
Lemma namex_ok I V R c w k nc path parent :
  icache I V R [] -> dirs_ok V -> owns w V [] [] k -> (base.size R + 2 <= NINODE)%nat -> refers I c nc -> good V nc -> good V ROOTINO ->
  Forall (fun z => z <> 0) path ->
  walked V R I c k (target parent V (start_of path nc) [] (elems path)) (namex me devsw path parent (st I c w)).
Proof.
  intros Hi Hdirs Ho Hroom Hc Hg Hroot Hz. assert (Hpos : forall n a, R !! n = Some a -> 0 < a) by (intros n a E; by apply (ic_R _ _ _ _ _ _ Hi n a)).
  assert (Hstart : exists i I1, (match path with z :: _ => if z =? slash then iget ROOTDEV ROOTINO else (c <- reads cwd ;; idup c) | [] => c <- reads cwd ;; idup c end) (st I c w)
      = Ret i (st I1 c w) /\ icache I1 V (inc (start_of path nc) R) [] /\ refers I1 i (start_of path nc) /\ (forall j m, refers I j m -> refers I1 j m)).
  { assert (Hdup : exists i I1, (c <- reads cwd ;; idup c) (st I c w) = Ret i (st I1 c w) /\ icache I1 V (inc nc R) [] /\ refers I1 i nc /\ (forall j m, refers I j m -> refers I1 j m)).
    { destruct (idup_ok B me I V R [] c nc c w Hi Hc) as (I1 & E & Hi1 & Hk). exists c, I1. rewrite bind_reads. split_and!; eauto. }
    destruct path as [|z p]; [done|]. cbn [start_of]. destruct (z =? slash); [|done].
    destruct (iget_ok B me I V R [] ROOTINO c w Hi (proj1 Hroot) ltac:(right; lia)) as (i & I1 & E & Hi1 & Hj & Hk). exists i, I1. done. }
  destruct Hstart as (i & I1 & E & Hi1 & Hr1 & Hk1). unfold namex. rewrite (bind_Ret _ _ _ _ _ E).
  assert (Hgs : good V (start_of path nc)) by (destruct path as [|z p]; [done|]; cbn [start_of]; by destruct (z =? slash)).
  destruct (namex_loop_ok V R c k Hdirs Hpos Hroom parent (length path) path [] i _ I1 w ltac:(lia) Hz Hi1 Hr1 Hgs Ho) as (o & I2 & w2 & E2 & Ho2 & Hi2 & Hk2 & Hres).
  exists o, I2, w2. split_and!; try done. intros j n Hn Hj. apply Hk2; [done|]. by apply Hk1.
Qed.
End dirs.
End Dirs.
