(* ===== verification/Links.v ===== *)
(** Changing directories: [dirlink], and the entries that [unlink] clears.

    [fs_ok] is the invariant of the blocks of a file system: files have blocks of their own,
    all of them in use, and the entries of directories refer to inodes in use.  An entry is
    written through [writei], like all contents of files. *)

From S2P Require Import Prelude Params Bytes Sleeplock Bio Cache Log Fs FsSpec FsFile Inodes Dirs.

Module Links.
Import SleepLock Fs FreeMap Files Inodes Dirs.

(** ** A list of bytes in chunks of 16 *)
Definition chunk (k : nat) (l : list Z) : list Z := take sizeof_dirent (drop (sizeof_dirent * k) l).
Lemma chunk_splice l src q k : (sizeof_dirent * q <= length l)%nat -> length src = sizeof_dirent ->
  chunk k (take (sizeof_dirent * q) l ++ src ++ drop (sizeof_dirent * q + sizeof_dirent) l) = if decide (k = q) then src else chunk k l.
Proof.
  intros Hq Hs. unfold chunk. change sizeof_dirent with 16%nat in *. case_decide as E; [subst k|].
  - rewrite drop_app_ge by (rewrite length_take; lia). rewrite length_take, Nat.min_l, Nat.sub_diag, drop_0 by lia. by rewrite take_app_le, take_ge by lia.
  - destruct (decide (k < q)%nat) as [Hk|Hk].
    + rewrite drop_app_le by (rewrite length_take; lia). rewrite take_app_le by (rewrite length_drop, length_take; lia).
      rewrite take_drop_commute. rewrite take_take, Nat.min_l by lia. by rewrite <- take_drop_commute.
    + rewrite drop_app_ge by (rewrite length_take; lia). rewrite length_take, Nat.min_l by lia. rewrite drop_app_ge by lia. rewrite drop_drop. f_equal. f_equal. lia.
Qed.

Definition put_entry {A} (q : nat) (e : A) (l : list A) : list A := if decide (q < length l)%nat then <[q := e]> l else l ++ [e].
Lemma chunks_splice {A} (f : list Z -> A) l src q L : length l = (sizeof_dirent * L)%nat -> (q <= L)%nat -> length src = sizeof_dirent ->
  let l' := take (sizeof_dirent * q) l ++ src ++ drop (sizeof_dirent * q + sizeof_dirent) l in
  length l' = (sizeof_dirent * (Nat.max L (S q)))%nat /\
  map (fun k => f (chunk k l')) (seq 0 (length l' / sizeof_dirent)) = put_entry q (f src) (map (fun k => f (chunk k l)) (seq 0 L)).
Proof.
  intros Hl Hq Hs l'. assert (Hl' : length l' = (sizeof_dirent * (Nat.max L (S q)))%nat).
  { unfold l'. rewrite !length_app, length_take, length_drop, Hl, Hs. change sizeof_dirent with 16%nat. lia. }
  split; [done|]. rewrite Hl'. rewrite Nat.mul_comm, Nat.div_mul by done. unfold put_entry. rewrite length_map, length_seq.
  assert (Hc : forall k, chunk k l' = if decide (k = q) then src else chunk k l) by (intros k; apply chunk_splice; [rewrite Hl; change sizeof_dirent with 16%nat; lia|done]).
  case_decide as Hlt.
  - rewrite Nat.max_l by lia. apply list_eq. intros k. destruct (decide (k < L)%nat) as [Hk|Hk].
    + rewrite list_lookup_fmap, lookup_seq_lt by done. cbn [fmap option_fmap option_map Nat.add]. rewrite Hc. case_decide as E.
      * subst k. rewrite list_lookup_insert_eq; [done|by rewrite length_map, length_seq].
      * rewrite list_lookup_insert_ne by done. by rewrite list_lookup_fmap, lookup_seq_lt by done.
    + rewrite !lookup_ge_None_2; [done|rewrite ?length_insert, length_map, length_seq; lia..].
  - assert (q = L) as -> by lia. rewrite Nat.max_r by lia. rewrite seq_S, map_app. cbn [map Nat.add]. f_equal; [|by rewrite Hc, decide_True].
    apply map_ext_in. intros k Hk%in_seq. rewrite Hc, decide_False by lia. done.
Qed.

(** ** Entries *)
Definition entry_of (b : list Z) : Z * list Z := (de_inum b, cut0 (de_name b)).
Definition is_free (e : Z * list Z) : Prop := fst e = 0.
#[local] Instance is_free_dec e : Decision (is_free e).
Proof. unfold is_free. apply _. Defined.
(** The first free entry, or the end. *)
Definition free_slot (l : list (Z * list Z)) : nat := match list_find is_free l with Some (q, _) => q | None => length l end.

Lemma put_entry_S {A} q (e x : A) l : put_entry (S q) e (x :: l) = x :: put_entry q e l.
Proof. unfold put_entry. cbn [length]. repeat case_decide; (done || lia). Qed.
Lemma find_put (l : list (Z * list Z)) num name nm q : num <> 0 -> (q <= length l)%nat -> (forall e, l !! q = Some e -> fst e = 0) ->
  list_find (names name) l = None ->
  list_find (names nm) (put_entry q (num, name) l) = if decide (nm = name) then Some (q, (num, name)) else list_find (names nm) l.
Proof.
  intros Hnum. revert q. induction l as [|x l IH]; intros q Hq Hfree Hnone.
  - cbn in Hq. replace q with 0%nat by lia. unfold put_entry. rewrite decide_False by (cbn; lia). cbn [app list_find].
    destruct (decide (nm = name)) as [->|]; [by rewrite decide_True|]. rewrite decide_False; [done|]. unfold names. cbn. naive_solver.
  - cbn [list_find] in Hnone |- *. case_decide as Hx; [done|]. destruct (list_find (names name) l) eqn:El; [done|]. destruct q as [|q].
    + specialize (Hfree x eq_refl). unfold put_entry. rewrite decide_True by (cbn; lia). cbn [insert list_insert list_find].
      destruct (decide (nm = name)) as [->|Hne]; [by rewrite decide_True|]. assert (~ names nm (num, name)) by (intros [_ E]; by apply Hne).
      assert (~ names nm x) by (by intros [E _]). by rewrite !decide_False.
    + rewrite put_entry_S. cbn [list_find]. cbn in Hq. rewrite (IH q ltac:(lia) Hfree eq_refl). destruct (decide (nm = name)) as [->|Hne].
      * by rewrite decide_False.
      * done.
Qed.
Lemma cut0_zeros name k : Forall (fun z => z <> 0) name -> cut0 (name ++ replicate k 0) = name.
Proof. induction 1 as [|z name Hz _ IH]; [by destruct k|]. cbn. by rewrite (proj2 (Z.eqb_neq z 0) Hz), IH. Qed.
Lemma make_dirent_entry name num : name_ok name -> 0 <= num < 65536 -> entry_of (make_dirent name num) = (num, name) /\ length (make_dirent name num) = sizeof_dirent.
Proof.
  intros [Hz Hl] Hnum. unfold entry_of, make_dirent, de_inum, de_name, get16.
  assert (Hs : length (strncpy name DIRSIZ) = DIRSIZ) by (unfold strncpy; rewrite length_take, length_app, length_replicate; lia).
  split; [|rewrite length_app, length_le_bytes, Hs; done]. f_equal.
  - unfold get_bytes. rewrite drop_0, take_app_le, take_ge by (rewrite length_le_bytes; lia). rewrite le_val_le_bytes. by rewrite Z.mod_small.
  - unfold get_bytes. rewrite drop_app_ge by (rewrite length_le_bytes; lia). rewrite length_le_bytes. change (2 - 2)%nat with 0%nat. rewrite drop_0, take_ge by lia.
    unfold strncpy. rewrite take_app_ge, take_replicate by lia. by apply cut0_zeros.
Qed.

Lemma free_slot_spec l : (free_slot l <= length l)%nat /\ forall e, l !! free_slot l = Some e -> fst e = 0.
Proof.
  unfold free_slot. destruct (list_find is_free l) as [[q e]|] eqn:E.
  - apply list_find_Some in E as (Hq & He & _). split; [apply lookup_lt_Some in Hq; lia|]. intros e' ?. by simplify_eq.
  - split; [done|]. intros e He. by rewrite lookup_ge_None_2 in He by done.
Qed.
Lemma elem_put_entry {A} q (e : A) l z : z ∈ put_entry q e l -> z = e \/ z ∈ l.
Proof.
  unfold put_entry. case_decide; [|rewrite elem_of_app, list_elem_of_singleton; tauto]. intros [j Hj]%list_elem_of_lookup.
  apply list_lookup_insert_Some in Hj as [(_ & -> & _)|[_ Hj]]; [by left|right; by eapply list_elem_of_lookup_2].
Qed.

Section links.
Context {W : Type} `{!Blocks W} `{!BlocksSpec W}.
Variable B : superblock.
Hypothesis HL : layout B.
(** An inode number fits in a directory entry. *)
Hypothesis Hmany : sb_ninodes B <= 65536.
Variable me : Z.
Variable devsw : Z -> @devfun W.
Implicit Types (I : list inode) (V : Z -> list Z) (R : gmap Z Z) (H : list nat) (c : nat) (w : W).

Local Notation st I c w := (MkFs B false I c w).
Local Notation synced := (Files.synced B).
Local Notation disk_inode := (Files.disk_inode B).
Local Notation icache := (Inodes.icache B me).
Local Notation file_ok := (Files.file_ok B).
Local Notation ino := (Dirs.ino B).
Local Notation entries := (Dirs.entries B).
Local Notation dentry := (Dirs.dentry B).
Local Notation good := (Dirs.good B).
Local Notation find_entry := (Dirs.find_entry B).

(** An inode in use that has contents. *)
Definition regular V n : Prop := 0 < n < sb_ninodes B /\ d_type (disk_inode V n) <> 0 /\ d_type (disk_inode V n) <> T_DEV.
Definition data V n : list Z := fbytes V (ino V n) 0 (Z.to_nat (d_size (disk_inode V n))).
Record fs_ok V : Prop := MkFsOk {
  fk_meta : meta_used B V;
  fk_file n : regular V n -> file_ok V (ino V n);
  fk_disj n m : regular V n -> regular V m -> n <> m -> disjoint_files V (ino V n) (ino V m);
  fk_dirs : dirs_ok B V
}.

Lemma length_data V n : length (data V n) = Z.to_nat (d_size (disk_inode V n)).
Proof. apply length_fbytes. Qed.
Lemma dentry_chunk V n k : (sizeof_dirent * k + sizeof_dirent <= length (data V n))%nat -> dentry V n k = chunk k (data V n).
Proof.
  rewrite length_data. intros Hk. unfold Dirs.dentry, chunk, data. change sizeof_de with 16. change sizeof_dirent with 16%nat in *. apply (list_eq_same_length _ _ 16).
  - rewrite length_take, length_drop, length_fbytes. lia.
  - apply length_fbytes.
  - intros p x y Hp Hx Hy. rewrite lookup_fbytes in Hx by done. rewrite lookup_take_lt, lookup_drop, lookup_fbytes in Hy by lia.
    injection Hx as <-. injection Hy as <-. f_equal. lia.
Qed.
Lemma entries_chunks V n : 0 <= d_size (disk_inode V n) -> entries V n = map (fun k => entry_of (chunk k (data V n))) (seq 0 (length (data V n) / sizeof_dirent)).
Proof.
  intros H0. unfold Dirs.entries. rewrite length_data. set (z := d_size (disk_inode V n)) in *.
  assert (Z.to_nat z / sizeof_dirent = Z.to_nat (z / sizeof_de))%nat as ->.
  { change sizeof_de with (Z.of_nat sizeof_dirent). rewrite Z2Nat.inj_div by (done || lia). by rewrite Nat2Z.id. }
  apply map_ext_in. intros k Hk%in_seq. unfold entry_of. rewrite dentry_chunk; [done|]. rewrite length_data. fold z.
  change sizeof_de with 16 in *. change sizeof_dirent with 16%nat. pose proof (Z.mul_div_le z 16 ltac:(lia)). lia.
Qed.
(** A directory with the same bytes has the same entries. *)
Lemma entries_same V V' n : dir_ok B V n -> d_size (disk_inode V' n) = d_size (disk_inode V n) -> file_ok V' (ino V' n) -> data V' n = data V n -> entries V' n = entries V n.
Proof.
  intros Hd Hs Hf Hdata. destruct (slots_eq B V n Hd) as (H0 & _ & Hz & Hl). unfold Dirs.entries. rewrite Hs. apply map_ext_in. intros k Hk%in_seq.
  assert (Hfit : (sizeof_dirent * k + sizeof_dirent <= length (data V n))%nat).
  { rewrite length_data. change sizeof_de with 16 in *. change sizeof_dirent with 16%nat. lia. }
  by rewrite !dentry_chunk, Hdata by (rewrite ?Hdata; done).
Qed.
Lemma i16_range z : -32768 <= i16 z < 32768.
Proof. unfold i16. pose proof (Z.mod_pos_bound (z + 32768) 65536 ltac:(lia)). lia. Qed.
Lemma synced_shorts V x : synced V x -> shorts_ok x.
Proof.
  intros Hs. unfold Files.synced, Files.disk_inode in Hs. unfold shorts_ok. pose proof (f_equal d_type Hs) as E1. pose proof (f_equal d_major Hs) as E2.
  pose proof (f_equal d_minor Hs) as E3. pose proof (f_equal d_nlink Hs) as E4. cbn in E1, E2, E3, E4. rewrite <- E1, <- E2, <- E3, <- E4. pose proof i16_range. eauto.
Qed.

(** ** One file is written *)
Lemma owned_addrs V x y a : addrs x = addrs y -> owned V x a <-> owned V y a.
Proof. intros E. unfold owned, fblk. by rewrite E. Qed.

Section written.
Variables (V V' : Z -> list Z) (n : Z) (x x' : inode) (off : Z) (src : list Z).
Hypotheses (Hfs : fs_ok V) (Hreg : regular V n) (Hdev : dev x = 1) (Hin : inum x = n) (Hsy : synced V x) (Hp : write_post B V x V' x' off src).

Lemma wr_inode m : 0 <= m < sb_ninodes B -> m <> n -> disk_inode V' m = disk_inode V m /\ ino V' m = ino V m.
Proof. intros Hm Hne. rewrite <- Hin in Hne. pose proof (wp_inodes _ _ _ _ _ _ _ Hp m Hm Hne) as E. split; [done|]. unfold Dirs.ino. by rewrite E. Qed.
Lemma wr_fields : type x' = type x /\ nlink x' = nlink x /\ dev x' = 1 /\ inum x' = n.
Proof. rewrite (wp_same _ _ _ _ _ _ _ Hp). cbn. by rewrite Hdev. Qed.
Lemma wr_ino : type (ino V' n) = type x' /\ size (ino V' n) = size x' /\ addrs (ino V' n) = addrs x' /\ nlink (ino V' n) = nlink x'.
Proof.
  destruct wr_fields as (_ & _ & Hd & Hn). destruct (synced_ino B V' x' Hd (wp_sync _ _ _ _ _ _ _ Hp)) as (H1 & H2 & H3 & H4). by rewrite Hn in *.
Qed.
Lemma wr_kind m : 0 < m < sb_ninodes B -> d_type (disk_inode V' m) = d_type (disk_inode V m) /\ d_nlink (disk_inode V' m) = d_nlink (disk_inode V m).
Proof.
  intros Hm. destruct (decide (m = n)) as [->|Hne]; [|destruct (wr_inode m ltac:(lia) Hne) as [-> _]; done].
  destruct wr_ino as (H1 & _ & _ & H2), wr_fields as (H3 & H4 & _). destruct (synced_ino B V x Hdev Hsy) as (H5 & _ & _ & H6). rewrite Hin in *.
  change (type (ino V' n)) with (d_type (disk_inode V' n)) in H1. change (nlink (ino V' n)) with (d_nlink (disk_inode V' n)) in H2.
  change (type (ino V n)) with (d_type (disk_inode V n)) in H5. change (nlink (ino V n)) with (d_nlink (disk_inode V n)) in H6. split; congruence.
Qed.
Lemma wr_regular m : regular V' m <-> regular V m.
Proof. unfold regular. split; intros (Hm & ?); destruct (wr_kind m Hm) as [E _]; [rewrite <- E|rewrite E]; done. Qed.
Lemma wr_good m : good V' m <-> good V m.
Proof. unfold Dirs.good. split; intros (Hm & ?); destruct (wr_kind m Hm) as [E E']; [rewrite <- E, <- E'|rewrite E, E']; done. Qed.
Lemma wr_apart m : regular V m -> m <> n -> disjoint_files V x (ino V m).
Proof.
  intros Hm Hne a Ha. rewrite (owned_addrs V x (ino V n)) in Ha; [by apply (fk_disj _ Hfs n m Hreg Hm (not_eq_sym Hne))|].
  destruct (synced_ino B V x Hdev Hsy) as (_ & _ & E & _). by rewrite Hin in E.
Qed.
Lemma wr_other m : regular V m -> m <> n -> file_ok V' (ino V' m) /\ disjoint_files V' x' (ino V' m) /\ data V' m = data V m.
Proof.
  intros Hm Hne. destruct (wr_inode m ltac:(destruct Hm; lia) Hne) as [E ->]. destruct (wp_other _ _ _ _ _ _ _ Hp (ino V m) (fk_file _ Hfs m Hm) (wr_apart m Hm Hne)) as (H1 & H2 & H3).
  split_and!; [done..|]. unfold data. rewrite E. destruct (wr_inode m ltac:(destruct Hm; lia) Hne) as [_ ->]. exact H3.
Qed.
Lemma wr_file : file_ok V' (ino V' n).
Proof.
  destruct wr_ino as (H1 & H2 & H3 & _), wr_fields as (_ & _ & Hd & _). apply (file_ok_same B V' x'); [by rewrite Hd|done..|]. apply Hp.
Qed.
Lemma wr_disj m m' : regular V m -> regular V m' -> m <> m' -> disjoint_files V' (ino V' m) (ino V' m').
Proof.
  intros Hm Hm' Hne. destruct wr_ino as (_ & _ & Ea & _). destruct (decide (m = n)) as [->|Hn], (decide (m' = n)) as [->|Hn']; [done|..]; intros a Ha Hb.
  - rewrite (owned_addrs V' _ x') in Ha by done. by apply (proj1 (proj2 (wr_other m' Hm' Hn')) a).
  - rewrite (owned_addrs V' _ x') in Hb by done. by apply (proj1 (proj2 (wr_other m Hm Hn)) a).
  - destruct (wr_inode m ltac:(destruct Hm; lia) Hn) as [_ Em], (wr_inode m' ltac:(destruct Hm'; lia) Hn') as [_ Em']. rewrite Em in Ha. rewrite Em' in Hb.
    rewrite (wp_owned _ _ _ _ _ _ _ Hp _ (fk_file _ Hfs m Hm) (wr_apart m Hm Hn)) in Ha.
    rewrite (wp_owned _ _ _ _ _ _ _ Hp _ (fk_file _ Hfs m' Hm') (wr_apart m' Hm' Hn')) in Hb. by apply (fk_disj _ Hfs m m' Hm Hm' Hne a).
Qed.
Lemma wr_data : data V' n = take (Z.to_nat off) (data V n) ++ src ++ drop (Z.to_nat off + length src) (data V n).
Proof.
  destruct wr_ino as (_ & Es & Ea & _). destruct (synced_ino B V x Hdev Hsy) as (_ & Es0 & Ea0 & _). rewrite Hin in *. unfold data.
  change (d_size (disk_inode V' n)) with (size (ino V' n)). change (d_size (disk_inode V n)) with (size (ino V n)). rewrite Es, <- Es0.
  rewrite (fbytes_addrs V' _ x') by done. rewrite (fbytes_addrs V _ x) by done. apply Hp.
Qed.
(** Other directories are as they were. *)
Lemma wr_dir m : dir_ok B V m -> d_type (disk_inode V m) = T_DIR -> m <> n -> entries V' m = entries V m /\ dir_ok B V' m.
Proof.
  intros Hd Ht Hne. assert (Hm : regular V m) by (split; [apply Hd|by rewrite Ht]). destruct (wr_other m Hm Hne) as (H1 & _ & H3).
  destruct (wr_inode m ltac:(destruct Hm; lia) Hne) as [E Ei]. assert (Hs : d_size (disk_inode V' m) = d_size (disk_inode V m)) by (by rewrite E).
  assert (He : entries V' m = entries V m) by (by apply entries_same). split; [done|]. split; [apply Hd|done|rewrite Hs; apply Hd|].
  rewrite He. intros e Hin' Hz. apply wr_good. by apply (do_entries _ _ _ Hd).
Qed.
End written.

(** ** An entry is written *)
Record entry_written V n q (e : Z * list Z) V' : Prop := MkEntryWritten {
  ew_fs : fst e = 0 \/ good V (fst e) -> fs_ok V';
  ew_entries : entries V' n = put_entry q e (entries V n);
  ew_kind m : 0 < m < sb_ninodes B -> d_type (disk_inode V' m) = d_type (disk_inode V m) /\ d_nlink (disk_inode V' m) = d_nlink (disk_inode V m);
  ew_inode m : 0 <= m < sb_ninodes B -> m <> n -> disk_inode V' m = disk_inode V m;
  ew_data m : regular V m -> m <> n -> data V' m = data V m
}.
Lemma dir_regular V n : fs_ok V -> 0 < n < sb_ninodes B -> d_type (disk_inode V n) = T_DIR -> regular V n.
Proof. intros _ Hn Ht. split; [done|]. by rewrite Ht. Qed.

Lemma post_entry V V' n x x' q src : fs_ok V -> dir_ok B V n -> d_type (disk_inode V n) = T_DIR -> d_nlink (disk_inode V n) <> 0 -> dev x = 1 -> inum x = n -> synced V x ->
  write_post B V x V' x' (Z.of_nat q * sizeof_de) src -> length src = sizeof_dirent -> (q <= length (entries V n))%nat -> entry_written V n q (entry_of src) V'.
Proof.
  intros Hfs Hd Ht Hnl Hdev Hin Hsy Hp Hls Hq. pose proof (dir_regular V n Hfs (do_inum _ _ _ Hd) Ht) as Hreg. destruct (slots_eq B V n Hd) as (H0 & _ & Hz & Hl).
  pose proof (wr_data V V' n x x' _ src Hdev Hin Hsy Hp) as Hdata. replace (Z.to_nat (Z.of_nat q * sizeof_de)) with (sizeof_dirent * q)%nat in Hdata by (change sizeof_de with 16; change sizeof_dirent with 16%nat; lia).
  rewrite Hls in Hdata. assert (Hlen : length (data V n) = (sizeof_dirent * length (entries V n))%nat).
  { rewrite length_data, Hl. change sizeof_de with 16 in *. change sizeof_dirent with 16%nat. lia. }
  destruct (chunks_splice entry_of (data V n) src q _ Hlen Hq Hls) as [Hlen' Hmap]. rewrite <- Hdata in Hlen', Hmap.
  pose proof (wr_file V V' n x x' _ src Hdev Hin Hp) as Hf'. pose proof (fo_size _ _ _ Hf') as Hs'. change (size (ino V' n)) with (d_size (disk_inode V' n)) in Hs'.
  assert (He : entries V' n = put_entry q (entry_of src) (entries V n)).
  { rewrite (entries_chunks V' n) by lia. rewrite Hmap. f_equal. symmetry. etrans; [apply entries_chunks; lia|]. by rewrite Hlen, Nat.mul_comm, Nat.div_mul by done. }
  split.
  - intros Hg. split.
    + apply Hp.
    + intros m Hm%(wr_regular V V' n x x' _ src Hdev Hin Hsy Hp). destruct (decide (m = n)) as [->|Hne]; [done|]. by eapply (wr_other V V' n x x').
    + intros m m' Hm%(wr_regular V V' n x x' _ src Hdev Hin Hsy Hp) Hm'%(wr_regular V V' n x x' _ src Hdev Hin Hsy Hp). by eapply (wr_disj V V' n x x').
    + intros m Hm Htm Hnm. destruct (wr_kind V V' n x x' _ src Hdev Hin Hsy Hp m Hm) as [E1 E2]. rewrite E1 in Htm. rewrite E2 in Hnm.
      destruct (decide (m = n)) as [->|Hne]; [|eapply (wr_dir V V' n x x'); try done; by apply (fk_dirs _ Hfs)].
      split; [done|done| |].
      * rewrite length_data in Hlen'. change sizeof_dirent with 16%nat in Hlen'. change sizeof_de with 16. apply Z.mod_divide; [done|].
        exists (Z.of_nat (Nat.max (length (entries V n)) (S q))). lia.
      * rewrite He. intros e [->|Hin']%elem_put_entry Hne; apply (wr_good V V' n x x' _ src Hdev Hin Hsy Hp); [by destruct Hg|by apply (do_entries _ _ _ Hd)].
  - done.
  - intros m Hm. by eapply (wr_kind V V' n x x').
  - intros m Hm Hne. by eapply (wr_inode V V' n x x').
  - intros m Hm Hne. by eapply (wr_other V V' n x x').
Qed.

(** A file that is no directory is written. *)
Lemma post_file V V' n x x' off src : fs_ok V -> regular V n -> d_type (disk_inode V n) <> T_DIR -> dev x = 1 -> inum x = n -> synced V x ->
  write_post B V x V' x' off src -> fs_ok V'.
Proof.
  intros Hfs Hreg Hnd Hdev Hin Hsy Hp. split.
  - apply Hp.
  - intros m Hm%(wr_regular V V' n x x' _ src Hdev Hin Hsy Hp). destruct (decide (m = n)) as [->|Hne]; [by eapply (wr_file V V' n x x')|]. by eapply (wr_other V V' n x x').
  - intros m m' Hm%(wr_regular V V' n x x' _ src Hdev Hin Hsy Hp) Hm'%(wr_regular V V' n x x' _ src Hdev Hin Hsy Hp). by eapply (wr_disj V V' n x x').
  - intros m Hm Htm Hnm. destruct (wr_kind V V' n x x' _ src Hdev Hin Hsy Hp m Hm) as [E1 E2]. rewrite E1 in Htm. rewrite E2 in Hnm.
    assert (m <> n) by (by intros ->). eapply (wr_dir V V' n x x'); try done. by apply (fk_dirs _ Hfs).
Qed.

(** ** A new inode *)
Lemma no_blocks V x : addrs x = replicate (S NDIRECT) 0 -> (forall k, (k < MAXFILE)%nat -> fblk V x k = 0) /\ forall a, ~ owned V x a.
Proof.
  intros E. assert (Hz : forall k, (k < S NDIRECT)%nat -> addrs x !!! k = 0) by (intros k Hk; rewrite E; by apply lookup_total_replicate_2).
  assert (Hb : forall k, (k < MAXFILE)%nat -> fblk V x k = 0).
  { intros k Hk. unfold fblk. case_decide; [apply Hz; lia|]. by rewrite decide_True by (apply Hz; lia). }
  split; [done|]. intros a (Ha & [(k & Hk & <-)|<-]); [by rewrite Hb in Ha|by rewrite Hz in Ha by lia].
Qed.
Lemma empty_file V x : dev x = 1 -> type x <> T_DEV -> size x = 0 -> addrs x = replicate (S NDIRECT) 0 -> file_ok V x.
Proof.
  intros Hd Ht Hs Ha. destruct (no_blocks V x Ha) as [Hb Ho]. split; try done.
  - by rewrite Ha.
  - rewrite Hs. done.
  - intros k Hk. rewrite Hs. lia.
  - intros a Hown. by destruct (Ho a).
  - intros k k' Hk _ Hne. by rewrite Hb in Hne.
  - intros k Hk Hne. by rewrite Hb in Hne.
Qed.

Section created.
Variables (V : Z -> list Z) (x : inode).
Hypotheses (Hfs : fs_ok V) (Hn : 0 < inum x < sb_ninodes B) (Hfree : d_type (disk_inode V (inum x)) = 0) (Hdev : dev x = 1) (Hnd : type x <> T_DEV)
  (Hsz : size x = 0) (Had : addrs x = replicate (S NDIRECT) 0) (Hsh : shorts_ok x) (Hlen : length (V (IBLOCK (inum x) B)) = BSIZE).
Local Notation V' := (update_view B V x).

Lemma cr_file : file_ok V' x.
Proof. by apply empty_file. Qed.
Lemma cr_sync : synced V' x.
Proof. apply update_synced; [done|by apply empty_file|done|done]. Qed.
Lemma cr_inode m : 0 <= m -> m <> inum x -> disk_inode V' m = disk_inode V m.
Proof. intros Hm Hne. apply update_other; [by apply empty_file|done..]. Qed.
Lemma cr_ino m : 0 <= m -> m <> inum x -> ino V' m = ino V m.
Proof. intros Hm Hne. unfold Dirs.ino. by rewrite cr_inode. Qed.
Lemma cr_regular m : regular V' m -> m = inum x \/ regular V m /\ m <> inum x.
Proof.
  intros (Hm & Ht & Htd). destruct (decide (m = inum x)) as [|Hne]; [by left|right]. rewrite cr_inode in Ht, Htd by (done || lia). done.
Qed.
Lemma cr_old m : regular V m -> m <> inum x /\ file_ok V (ino V m).
Proof. intros Hm. split; [|by apply (fk_file _ Hfs)]. intros ->. by destruct Hm as (_ & ? & _). Qed.
Lemma cr_owned m a : regular V m -> owned V' (ino V' m) a <-> owned V (ino V m) a.
Proof.
  intros Hm. destruct (cr_old m Hm) as [Hne Hf]. rewrite cr_ino by (done || (destruct Hm; lia)). apply owned_ext. intros k Hk. apply (update_fblk B HL); (done || lia).
Qed.
Lemma cr_new_owned a : ~ owned V' (ino V' (inum x)) a.
Proof. apply no_blocks. destruct (synced_ino B V' x Hdev cr_sync) as (_ & _ & E & _). by rewrite <- E. Qed.
Lemma cr_data m : regular V m -> data V' m = data V m.
Proof.
  intros Hm. destruct (cr_old m Hm) as [Hne Hf]. unfold data. rewrite cr_ino, cr_inode by (done || (destruct Hm; lia)). apply fbytes_ext. intros p Hp.
  apply (update_fbyte B HL); [lia|done|]. pose proof (fo_size _ _ _ Hf) as Hs. change (size (ino V m)) with (d_size (disk_inode V m)) in *. lia.
Qed.
Lemma cr_entries m : regular V m -> dir_ok B V m -> entries V' m = entries V m.
Proof.
  intros Hm Hd. destruct (cr_old m Hm) as [Hne Hf]. assert (0 <= m) by (destruct Hm; lia). apply entries_same; [done|by rewrite cr_inode|rewrite cr_ino by done|by apply cr_data].
  apply (update_file B HL); (done || lia).
Qed.
Lemma cr_good m : good V m -> good V' m.
Proof. intros (Hm & Ht & Hl). assert (m <> inum x) by (by intros ->). unfold Dirs.good. by rewrite cr_inode by (done || lia). Qed.
Lemma cr_empty : entries V' (inum x) = [].
Proof. unfold Dirs.entries. rewrite cr_sync. cbn [dinode_of d_size]. by rewrite Hsz. Qed.

Lemma created_ok : fs_ok V'.
Proof.
  assert (Hnew : file_ok V' (ino V' (inum x))).
  { destruct (synced_ino B V' x Hdev cr_sync) as (E1 & E2 & E3 & _). apply (file_ok_same B V' x); [done..|apply cr_file]. }
  assert (Hfile : forall m, regular V' m -> file_ok V' (ino V' m)).
  { intros m [->|[Hm Hne]]%cr_regular; [done|]. rewrite cr_ino by (done || (destruct Hm; lia)). apply (update_file B HL); [lia|]. by apply cr_old. }
  split; [|done|..].
  - intros b Hb. rewrite (update_bit B HL) by (pose proof (lay_data B HL); lia). by apply (fk_meta _ Hfs).
  - intros m m' [->|[Hm Hne]]%cr_regular [->|[Hm' Hne']]%cr_regular Hmm a Ha Hb; [done|by apply (cr_new_owned a)..|].
    apply (cr_owned m a Hm) in Ha. apply (cr_owned m' a Hm') in Hb. by apply (fk_disj _ Hfs m m' Hm Hm' Hmm a).
  - intros m Hm Ht Hl. assert (Hreg : regular V' m) by (split; [done|by rewrite Ht]). pose proof (Hfile m Hreg) as Hf. destruct (cr_regular m Hreg) as [->|[Hr Hne]].
    + split; [done..| |].
      * rewrite cr_sync. cbn [dinode_of d_size]. by rewrite Hsz.
      * rewrite cr_empty. by intros e ?%elem_of_nil.
    + rewrite cr_inode in Ht, Hl by (done || lia). pose proof (fk_dirs _ Hfs m Hm Ht Hl) as Hd. split; [done..| |].
      * rewrite cr_inode by (done || lia). apply Hd.
      * rewrite cr_entries by done. intros e He Hz. by apply cr_good, (do_entries _ _ _ Hd).
Qed.
End created.

Lemma write_entry_ok I V R H i n c w k f q src :
  icache I V R H -> refers I i n -> i ∈ H -> fs_ok V -> d_type (disk_inode V n) = T_DIR -> d_nlink (disk_inode V n) <> 0 ->
  length src = sizeof_dirent -> (q <= length (entries V n))%nat -> Z.of_nat (S q) * sizeof_de <= maxfile ->
  owns w V [] [] (7 + k) -> frees B V (2 + f) ->
  exists w' V' I', writei devsw i src (Z.of_nat q * sizeof_de) sizeof_de (st I c w) = Ret sizeof_de (st I' c w') /\ owns w' V' [] [] k /\
    icache I' V' R H /\ (forall j m, refers I j m -> refers I' j m) /\ entry_written V n q (entry_of src) V'.
Proof.
  intros Hi Hr HiH Hfs Ht Hnl Hls Hq Hmax Ho Hfree.
  assert (Hn : 0 < n < sb_ninodes B) by (destruct (locked_inode B me I V R H i n Hi Hr HiH) as (y & _ & _ & _ & _ & _ & ? & _); done).
  pose proof (fk_dirs _ Hfs n Hn Ht Hnl) as Hd. destruct (locked_file B me I V R H i n Hi Hr HiH (do_file _ _ _ Hd)) as (x & Hx & Hxt & Hin & Hdev & _ & Hsy & Hf & Hsz & _ & _).
  destruct (slots_eq B V n Hd) as (H0 & _ & Hz & Hl). assert (Hoff : 0 <= Z.of_nat q * sizeof_de <= size x) by (rewrite Hsz; change sizeof_de with 16 in *; lia).
  assert (Hturn : turns (Z.of_nat q * sizeof_de) (Z.of_nat (length src)) = 1%nat).
  { rewrite Hls. unfold turns. change (Z.of_nat sizeof_dirent) with 16. change (Z.of_nat BSIZE) with 512. change sizeof_de with 16. cbn [Z.leb]. cbn.
    assert ((Z.of_nat q * 16 + 16 - 1) / 512 = Z.of_nat q * 16 / 512) as ->; [|lia].
    pose proof (Z.div_mod (Z.of_nat q * 16) 512 ltac:(lia)). pose proof (Z.mod_pos_bound (Z.of_nat q * 16) 512 ltac:(lia)). symmetry.
    apply (Z.div_unique _ _ _ ((Z.of_nat q * 16) mod 512 + 15)); [|lia]. left.
    assert ((Z.of_nat q * 16) mod 512 = 16 * (Z.of_nat q mod 32)) as E by (rewrite Z.mul_comm; apply (Z.mul_mod_distr_l (Z.of_nat q) 32 16); lia).
    pose proof (Z.mod_pos_bound (Z.of_nat q) 32 ltac:(lia)). lia. }
  destruct (writei_ok B HL i devsw (st I c w) w V src (Z.of_nat q * sizeof_de) k f) as (w' & V' & x' & E & Ho' & Hp); unfold geti; cbn [inodes sb]; rewrite ?Hxt, ?Hturn, ?Hin; try done.
  { by eapply lookup_lt_Some. }
  { by eapply synced_shorts. }
  { lia. }
  { apply Hfs. }
  { rewrite Hls. change (Z.of_nat sizeof_dirent) with 16. change sizeof_de with 16 in *. lia. }
  unfold geti in Hp. cbn [inodes] in Hp. rewrite Hxt in Hp. pose proof (wp_same _ _ _ _ _ _ _ Hp) as Es.
  assert (Hrx : 0 < ref x) by (destruct Hr as (y & Hy & ? & _); by simplify_eq).
  destruct (icache_sync B me I V V' R H i x x' Hi Hx Hrx) as [Hi' Hk']; try (rewrite Es; done); [apply Hp|intros m Hm Hne; apply (wp_inodes _ _ _ _ _ _ _ Hp); (done || lia)|].
  exists w', V', (<[i := x']> I). split_and!; [|done..|by eapply post_entry].
  rewrite Hls in E. exact E.
Qed.

(** ** [dirlink] *)
Lemma slot_loop I V R H i n c k : icache I V R H -> refers I i n -> i ∈ H -> dir_ok B V n ->
  forall cnt p w, (p + cnt = length (entries V n))%nat -> owns w V [] [] k ->
  exists w', owns w' V [] [] k /\ for_loop (dirlink_slot devsw i) p cnt (st I c w) =
    Ret (match list_find is_free (drop p (entries V n)) with Some (q, _) => Some (Z.of_nat (p + q) * sizeof_de) | None => None end) (st I c w').
Proof.
  intros Hi Hr HiH Hd. induction cnt as [|cnt IH]; intros p w Hp Ho.
  - exists w. split; [done|]. by rewrite drop_ge by lia.
  - destruct (read_entry B HL me devsw I V R H i n c w k p Hi Hr HiH Hd Ho ltac:(lia)) as (w1 & E1 & Ho1). rewrite (drop_S _ _ _ (entry_at B V n p ltac:(lia))). cbn [for_loop list_find].
    assert (E2 : dirlink_slot devsw i p (st I c w) = Ret (if decide (is_free (de_inum (dentry V n p), cut0 (de_name (dentry V n p)))) then Some (Z.of_nat p * sizeof_de) else None) (st I c w1)).
    { unfold dirlink_slot. rewrite (bind_Ret _ _ _ _ _ E1). cbn [fst snd]. rewrite Z.eqb_refl. cbn [negb].
      case_decide as Hq; unfold is_free in Hq; cbn [fst] in Hq; [by rewrite Hq|by rewrite (proj2 (Z.eqb_neq _ 0) Hq)]. }
    rewrite (bind_Ret _ _ _ _ _ E2). case_decide; [exists w1; split; [done|]; by rewrite Nat.add_0_r|].
    destruct (IH (S p) w1 ltac:(lia) Ho1) as (w2 & Ho2 & E). exists w2. split; [done|]. rewrite E. destruct (list_find is_free (drop (S p) (entries V n))) as [[q e]|]; [|done].
    cbn [fmap option_fmap option_map prod_map]. by rewrite Nat.add_succ_r.
Qed.

Section dirlink.
Variables (I : list inode) (V : Z -> list Z) (R : gmap Z Z) (i : nat) (n : Z) (c : nat) (w : W) (k f : nat) (name : list Z).
Hypotheses (Hi : icache I V R [i]) (Hr : refers I i n) (Hfs : fs_ok V) (Ht : d_type (disk_inode V n) = T_DIR) (Hnl : d_nlink (disk_inode V n) <> 0)
  (Hname : name_ok name) (Ho : owns w V [] [] (7 + k)) (Hroom : (base.size R < NINODE)%nat).

Lemma dirlink_dir : 0 < n < sb_ninodes B /\ dir_ok B V n.
Proof.
  destruct (locked_inode B me I V R [i] i n Hi Hr ltac:(by left)) as (y & _ & _ & _ & _ & _ & Hn & _). split; [done|]. by apply (fk_dirs _ Hfs).
Qed.
(** A name that is there already. *)
Lemma dirlink_exists num q m nm : find_entry V n name = Some (q, (m, nm)) -> m <> n ->
  exists I' w', dirlink me devsw i name num (st I c w) = Ret (-1) (st I' c w') /\ owns w' V [] [] (7 + k) /\ icache I' V R [i] /\ (forall j m', refers I j m' -> refers I' j m').
Proof.
  intros Ef Hne. destruct dirlink_dir as [Hn Hd]. destruct (found_entry B V n name q m nm Hd Ef) as [(Hm & _ & Hml) _].
  pose proof (dirlookup_ok B HL me devsw I V R [i] i n c w (7 + k) name Hi Hr ltac:(by left) Hd Ht Hname Ho Hroom) as Hlk. rewrite Ef in Hlk.
  destruct Hlk as (j & I1 & w1 & E1 & Ho1 & Hi1 & Hj & Hk1). unfold dirlink. rewrite (bind_Ret _ _ _ _ _ E1).
  assert (Hji : j ∉ [i]).
  { rewrite list_elem_of_singleton. intros ->. destruct Hj as (x & Hx & _ & Ex), (Hk1 _ _ Hr) as (y & Hy & _ & Ey). congruence. }
  destruct (iput_ok B me I1 V (inc m R) [i] j m c w1 Hi1 Hj Hji ltac:(by left)) as (I2 & E2 & Hi2 & Hk2). rewrite (bind_Ret _ _ _ _ _ E2).
  assert (Hpos : forall a, R !! m = Some a -> 0 < a) by (intros a E; by apply (ic_R _ _ _ _ _ _ Hi m a)). rewrite dec_inc in Hi2 by done.
  exists I2, w1. split_and!; try done. intros j' m' Hj'. apply Hk2; [by apply Hk1|]. destruct (decide (m' = m)) as [->|]; [right|by left].
  apply inc_not1; [|done]. destruct Hj' as (x & Hx & Hrx & Ex). destruct (ic_busy _ _ _ _ _ _ Hi j' x Hx Hrx) as (_ & _ & HR & _). rewrite Ex in HR. by eexists.
Qed.
(** An entry of the directory for itself: [iput] waits for the lock that the process holds. *)
Lemma dirlink_self num q nm : find_entry V n name = Some (q, (n, nm)) -> exists s', dirlink me devsw i name num (st I c w) = Sleep (inode_chan i) s'.
Proof.
  intros Ef. destruct dirlink_dir as [Hn Hd].
  pose proof (dirlookup_ok B HL me devsw I V R [i] i n c w (7 + k) name Hi Hr ltac:(by left) Hd Ht Hname Ho Hroom) as Hlk. rewrite Ef in Hlk.
  destruct Hlk as (j & I1 & w1 & E1 & Ho1 & Hi1 & Hj & Hk1). unfold dirlink. rewrite (bind_Ret _ _ _ _ _ E1).
  assert (j = i) as ->. { destruct Hj as (x & Hx & Hrx & Ex), (Hk1 _ _ Hr) as (y & Hy & Hry & Ey). apply (ic_inj _ _ _ _ _ _ Hi1 j i x y); congruence. }
  destruct Hj as (x & Hx & Hrx & Ex). pose proof (ic_held _ _ _ _ _ _ Hi1 i x Hx) as Hl. rewrite decide_True in Hl by (by left). destruct Hl as [Hl _].
  exists (st (alter (set_lock (lock x)) i I1) c w1). apply bind_Sleep. unfold iput. apply bind_Sleep. unfold on_lock, zoom, geti. cbn [inodes]. rewrite (total _ _ _ Hx), Hl.
  by rewrite (acquiresleep_busy (inode_chan i) me (MkSleep 1 false me)).
Qed.
(** A new name. *)
Lemma dirlink_new num : find_entry V n name = None -> good V num -> Z.of_nat (S (length (entries V n))) * sizeof_de <= maxfile -> frees B V (2 + f) ->
  exists I' w' V', dirlink me devsw i name num (st I c w) = Ret 0 (st I' c w') /\ owns w' V' [] [] k /\ icache I' V' R [i] /\ (forall j m', refers I j m' -> refers I' j m') /\
    entry_written V n (free_slot (entries V n)) (num, name) V'.
Proof.
  intros Ef Hg Hmax Hfree. destruct dirlink_dir as [Hn Hd]. destruct (make_dirent_entry name num Hname ltac:(destruct Hg; lia)) as [Ee El].
  pose proof (dirlookup_ok B HL me devsw I V R [i] i n c w (7 + k) name Hi Hr ltac:(by left) Hd Ht Hname Ho Hroom) as Hlk. rewrite Ef in Hlk.
  destruct Hlk as (w1 & E1 & Ho1). unfold dirlink. rewrite (bind_Ret _ _ _ _ _ E1), run_geti.
  destruct (locked_file B me I V R [i] i n Hi Hr ltac:(by left) (do_file _ _ _ Hd)) as (x & Hx & Hxt & _ & _ & _ & _ & _ & Hsz & _ & _). rewrite Hxt, Hsz.
  destruct (slots_eq B V n Hd) as (_ & Hs & _ & Hl). rewrite Hs, <- Hl.
  destruct (slot_loop I V R [i] i n c (7 + k) Hi Hr ltac:(by left) Hd (length (entries V n)) 0 w1 ltac:(lia) Ho1) as (w2 & Ho2 & E2). rewrite (bind_Ret _ _ _ _ _ E2), drop_0.
  destruct (free_slot_spec (entries V n)) as [Hq _]. set (q := free_slot (entries V n)) in *.
  assert (Eq : match match list_find is_free (entries V n) with Some (q, _) => Some (Z.of_nat (0 + q) * sizeof_de) | None => None end with Some off => off | None => Z.of_nat (length (entries V n)) * sizeof_de end = Z.of_nat q * sizeof_de).
  { unfold q, free_slot. destruct (list_find is_free (entries V n)) as [[p e]|]; done. }
  rewrite Eq. destruct (write_entry_ok I V R [i] i n c w2 k f q (make_dirent name num) Hi Hr ltac:(by left) Hfs Ht Hnl El Hq) as (w3 & V' & I' & E3 & Ho3 & Hi3 & Hk3 & Hw); [|done|done|].
  { change sizeof_de with 16 in *. lia. }
  rewrite (bind_Ret _ _ _ _ _ E3), Z.eqb_refl. cbn [negb]. exists I', w3, V'. rewrite Ee in Hw. done.
Qed.
End dirlink.
End links.
End Links.
