(* ===== verification/DirProps.v ===== *)
(** Directories and paths, as theorems, and a small file system to apply them to. *)

From S2P Require Import Prelude Params Bytes Sleeplock Bio Cache Log Fs FsSpec FsFile FsProps Inodes Dirs Links.

Module DirProps.
Import SleepLock Fs FreeMap Files RamDisk Inodes Dirs Links.

Section props.
Context {W : Type} `{!Blocks W} `{!BlocksSpec W}.
Variable B : superblock.
Hypothesis HL : layout B.
Hypothesis Hmany : sb_ninodes B <= 65536.
Variable me : Z.
Variable devsw : Z -> @devfun W.
Local Notation st I c w := (MkFs B false I c w).
Local Notation icache := (Inodes.icache B me).

(** C25: [namei] and [nameiparent] follow a path as it is meant.  From the root or from the
    current directory, whose inode is [nc], they go through the directories on the disk name
    by name ([walk]) and return a reference to the inode where the path ends, or to the
    directory of its last name together with that name; they fail where the walk fails.  The
    disk is not changed, and no reference is lost: the counts of all inodes are as before,
    but for the inode returned, which has one more. *)
Theorem paths_resolved I V R c w k nc path :
  icache I V R [] -> dirs_ok B V -> owns w V [] [] k -> (base.size R + 2 <= NINODE)%nat -> refers I c nc ->
  good B V nc -> good B V ROOTINO -> Forall (fun z => z <> 0) path ->
  (exists o I' w', namei me devsw path (st I c w) = Ret o (st I' c w') /\ owns w' V [] [] k /\
     match walk B V (start_of path nc) (elems path) with
     | Some n => icache I' V (inc n R) [] /\ exists j, o = Some j /\ refers I' j n
     | None => icache I' V R [] /\ o = None
     end) /\
  (exists o I' w', nameiparent me devsw path (st I c w) = Ret o (st I' c w') /\ owns w' V [] [] k /\
     match walk_parent B V (start_of path nc) (elems path) with
     | Some (n, name) => icache I' V (inc n R) [] /\ exists j, o = Some (j, name) /\ refers I' j n
     | None => icache I' V R [] /\ o = None
     end).
Proof.
  intros Hi Hd Ho Hroom Hc Hg Hroot Hz. split.
  - destruct (namex_ok B HL me devsw I V R c w k nc path false Hi Hd Ho Hroom Hc Hg Hroot Hz) as (o & I' & w' & E & Ho' & Hi' & _ & Hres).
    exists (fst <$> o), I', w'. unfold namei. rewrite (bind_Ret _ _ _ _ _ E). split; [done|]. split; [done|]. cbn [target] in *.
    destruct (walk B V (start_of path nc) (elems path)) as [n|]; [|by subst o]. destruct Hres as (j & -> & Hj). split; [done|]. by exists j.
  - destruct (namex_ok B HL me devsw I V R c w k nc path true Hi Hd Ho Hroom Hc Hg Hroot Hz) as (o & I' & w' & E & Ho' & Hi' & _ & Hres).
    exists o, I', w'. split; [done|]. split; [done|]. cbn [target] in *. destruct (walk_parent B V (start_of path nc) (elems path)) as [[n nm]|]; [|done]. done.
Qed.


(** C27: linking a name by which a directory has itself, as [.] or [..] of the root, never
    ends: [dirlink] finds the name and gives the reference back with [iput], which waits for
    the lock of the directory.  The process itself holds that lock. *)
Theorem dirlink_self_deadlock I V R i n c w k name num q nm :
  icache I V R [i] -> refers I i n -> fs_ok B V -> d_type (disk_inode B V n) = T_DIR -> d_nlink (disk_inode B V n) <> 0 ->
  name_ok name -> owns w V [] [] (7 + k) -> (base.size R < NINODE)%nat ->
  find_entry B V n name = Some (q, (n, nm)) ->
  held_by me (lock (I !!! i)) /\ exists s', dirlink me devsw i name num (st I c w) = Sleep (inode_chan i) s'.
Proof.
  intros Hi Hr Hfs Ht Hnl Hname Ho Hroom Ef. split.
  - destruct Hr as (x & Hx & _). rewrite (total _ _ _ Hx). pose proof (ic_held _ _ _ _ _ _ Hi i x Hx) as Hl. rewrite decide_True in Hl by (by left). apply Hl.
  - by apply (dirlink_self B HL me devsw I V R i n c w k name Hi Hr Hfs Ht Hnl Hname Ho Hroom num q nm).
Qed.
End props.

(** ** A file system with a root directory and a file [a], which has a small program *)
Import FsProps.
Definition dot : list Z := [46].
Definition root_d : dinode := MkDinode T_DIR 0 0 1 48 (4 :: replicate 12 0).
Definition file_d : dinode := MkDinode T_FILE 0 0 1 88 (5 :: replicate 12 0).
(** An ELF header, a program header for 4 bytes at address 0, and the bytes. *)
Definition prog_bytes : list Z :=
  le_bytes 4 1179403647 ++ replicate 12 0 ++ le_bytes 2 2 ++ le_bytes 2 3 ++ le_bytes 4 1 ++ le_bytes 4 0 ++ le_bytes 4 52 ++
  le_bytes 4 0 ++ le_bytes 4 0 ++ le_bytes 2 52 ++ le_bytes 2 32 ++ le_bytes 2 1 ++ le_bytes 2 0 ++ le_bytes 2 0 ++ le_bytes 2 0 ++
  le_bytes 4 1 ++ le_bytes 4 84 ++ le_bytes 4 0 ++ le_bytes 4 0 ++ le_bytes 4 4 ++ le_bytes 4 100 ++ le_bytes 4 7 ++ le_bytes 4 4096 ++
  [235; 254; 0; 0].
Definition prog_block : list Z := prog_bytes ++ replicate 424 0.
Definition root_block : list Z := make_dirent dot 1 ++ make_dirent [46; 46] 1 ++ make_dirent [97] 2 ++ replicate 464 0.
Definition disk1 : list (list Z) :=
  [zero_block; zero_block; put_dinode (put_dinode zero_block 1 root_d) 2 file_d; <[0%nat := 63]> zero_block; root_block; prog_block] ++ replicate 4 zero_block.
Definition V1 (b : Z) : list Z := disk1 !!! Z.to_nat b.
Definition cwd_inode : inode := MkInode 1 1 1 initsleeplock 0 0 0 0 0 0 (replicate 13 0).
Definition I1 : list inode := cwd_inode :: replicate 49 zero_inode.
#[local] Instance spec10' : BlocksSpec (list (list Z)) := ram_spec 10.

Lemma owns1 k : owns disk1 V1 [] [] k.
Proof.
  split_and!; [done| |by intros i b ?%elem_of_nil]. intros b Hb. split; [done|]. unfold V1.
  assert (Hall : Forall (fun x => length x = BSIZE) disk1) by (repeat constructor).
  rewrite Forall_lookup in Hall. eapply Hall, list_lookup_lookup_total_lt. cbn [nblk spec10' ram_spec] in Hb. cbn [length disk1 app replicate]. lia.
Qed.
Lemma bits1 b : 0 <= b < 10 -> bit sb0 V1 b = (b <? 6).
Proof.
  intros Hb. assert (Hc : b = 0 \/ b = 1 \/ b = 2 \/ b = 3 \/ b = 4 \/ b = 5 \/ b = 6 \/ b = 7 \/ b = 8 \/ b = 9) by lia.
  repeat destruct Hc as [->|Hc]; subst; vm_compute; reflexivity.
Qed.
Lemma inodes1 n : 0 < n < 8 -> disk_inode sb0 V1 n = if n =? 1 then root_d else if n =? 2 then file_d else MkDinode 0 0 0 0 0 (replicate 13 0).
Proof.
  intros Hn. assert (Hc : n = 1 \/ n = 2 \/ n = 3 \/ n = 4 \/ n = 5 \/ n = 6 \/ n = 7) by lia. repeat destruct Hc as [->|Hc]; subst; vm_compute; reflexivity.
Qed.
Lemma used1 n : 0 < n < 8 -> d_type (disk_inode sb0 V1 n) <> 0 -> n = 1 \/ n = 2.
Proof. intros Hn. rewrite inodes1 by done. destruct (Z.eqb_spec n 1), (Z.eqb_spec n 2); [by left|by left|by right|done]. Qed.
Lemma blocks1 n k : n = 1 \/ n = 2 -> (k < MAXFILE)%nat -> fblk V1 (ino sb0 V1 n) k = if decide (k = 0%nat) then n + 3 else 0.
Proof.
  intros Hn Hk. unfold fblk, ino. cbn [addrs]. rewrite inodes1 by lia. destruct Hn as [-> | ->]; cbn [Z.eqb Pos.eqb d_addrs root_d file_d].
  all: case_decide as Hd; [|by rewrite (decide_False (P := k = _)) by (unfold NDIRECT in Hd; lia)]; destruct k as [|k]; [done|]; rewrite decide_False by lia;
    match goal with |- (?x :: replicate 12 0) !!! S k = 0 => change ((x :: replicate 12 0) !!! S k) with (replicate 12 0 !!! k) end;
    apply lookup_total_replicate_2; unfold NDIRECT in Hd; lia.
Qed.
Lemma owned1 n a : n = 1 \/ n = 2 -> owned V1 (ino sb0 V1 n) a -> a = n + 3.
Proof.
  intros Hn (Ha & [(k & Hk & E)|E]); [rewrite blocks1 in E by done; case_decide; lia|]. unfold ino in E. cbn [addrs] in E. rewrite inodes1 in E by lia.
  destruct Hn as [-> | ->]; cbn in E; lia.
Qed.
Lemma file1 n : n = 1 \/ n = 2 -> file_ok sb0 V1 (ino sb0 V1 n).
Proof.
  intros Hn. assert (Hi : disk_inode sb0 V1 n = if n =? 1 then root_d else file_d) by (rewrite inodes1 by lia; destruct Hn as [-> | ->]; done).
  split.
  - reflexivity.
  - unfold ino. cbn [type]. rewrite Hi. destruct Hn as [-> | ->]; discriminate.
  - unfold ino. cbn [addrs]. rewrite Hi. destruct Hn as [-> | ->]; reflexivity.
  - unfold ino. cbn [size]. rewrite Hi. destruct Hn as [-> | ->]; vm_compute; intuition discriminate.
  - intros k Hk Hlt. rewrite blocks1 by done. unfold ino in Hlt. cbn [size] in Hlt. rewrite Hi in Hlt. change (Z.of_nat BSIZE) with 512 in Hlt.
    rewrite decide_True; [lia|]. destruct Hn as [-> | ->]; cbn in Hlt; lia.
  - intros a ->%owned1; [|done]. destruct Hn as [-> | ->]; (split; [vm_compute; intuition discriminate|by rewrite bits1]).
  - intros k k' Hk Hk'. rewrite !blocks1 by done. repeat case_decide; lia.
  - intros k Hk Hne E. rewrite blocks1 in Hne, E by done. case_decide as Hc; [|done]. unfold ino in E. cbn [addrs] in E. rewrite Hi in E.
    destruct Hn as [-> | ->]; done.
Qed.
Lemma entries1 : entries sb0 V1 1 = [(1, dot); (1, [46; 46]); (2, [97])].
Proof. vm_compute. reflexivity. Qed.
Lemma good1 n : n = 1 \/ n = 2 -> good sb0 V1 n.
Proof. intros Hn. unfold good. rewrite inodes1 by lia. destruct Hn as [-> | ->]; cbn; split_and!; (done || lia). Qed.
Lemma dirs1 : dirs_ok sb0 V1.
Proof.
  intros n Hn Ht _. assert (n = 1) as ->. { change (sb_ninodes sb0) with 8 in Hn. rewrite inodes1 in Ht by done. destruct (Z.eqb_spec n 1); [done|]. destruct (Z.eqb_spec n 2); done. }
  split; [done|apply file1; by left|by rewrite inodes1|]. rewrite entries1. intros e He _. apply good1.
  repeat (apply elem_of_cons in He as [->|He]; [cbn; tauto|]). by apply elem_of_nil in He.
Qed.
Lemma fs1 : fs_ok sb0 V1.
Proof.
  split; [|intros n (Hn & Ht & _); apply file1; by apply used1| |apply dirs1].
  - intros b Hb. change (datastart sb0) with 4 in Hb. rewrite bits1 by lia. apply Z.ltb_lt. lia.
  - intros n m (Hn & Htn & _) (Hm & Htm & _) Hne a Ha Hb. apply owned1 in Ha; [|by apply used1]. apply owned1 in Hb; [|by apply used1]. lia.
Qed.
Lemma lookup_I1 i x : I1 !! i = Some x -> i = 0%nat /\ x = cwd_inode \/ x = zero_inode.
Proof. destruct i; cbn [I1 lookup list_lookup]; [intros [= <-]; by left|]. intros [-> _]%lookup_replicate. by right. Qed.
Lemma icache1 me : icache sb0 me I1 V1 {[1 := 1]} [].
Proof.
  split; [done|..].
  - intros i x [[_ ->]| ->]%lookup_I1; done.
  - intros i x [[-> ->]| ->]%lookup_I1 Hr; [|done]. by split_and!.
  - intros i j x y [[-> ->]| ->]%lookup_I1 [[-> ->]| ->]%lookup_I1 ? ? ?; done.
  - intros n z [<- <-]%lookup_singleton_Some. split; [done|]. by exists 0%nat, cwd_inode.
  - intros i x [[-> ->]| ->]%lookup_I1; done.
Qed.
Lemma refers1 : refers I1 0 1.
Proof. by exists cwd_inode. Qed.
Lemma frees1 : frees sb0 V1 4.
Proof.
  exists [6; 7; 8; 9]. split_and!; [apply (bool_decide_unpack _); vm_compute; exact I|done|].
  intros b Hb. change (sb_size sb0) with 10. assert (Hr : 6 <= b < 10) by (repeat (apply elem_of_cons in Hb as [->|Hb]; [lia|]); by apply elem_of_nil in Hb).
  split; [lia|]. rewrite bits1 by lia. apply Z.ltb_ge. lia.
Qed.

Lemma walk1 : walk sb0 V1 (start_of [47; 97] 1) (elems [47; 97]) = Some 2.
Proof.
  change (walk sb0 V1 1 [[97]] = Some 2). cbn [walk]. rewrite inodes1 by lia. cbn [Z.eqb Pos.eqb]. rewrite bool_decide_eq_true_2 by reflexivity.
  unfold find_entry. by rewrite entries1.
Qed.
(** The path [/a]. *)
Lemma paths_resolved_witness : exists j I' w', namei 3 no_dev [47; 97] (MkFs sb0 false I1 0 disk1) = Ret (Some j) (MkFs sb0 false I' 0 w') /\ refers I' j 2.
Proof.
  destruct (paths_resolved sb0 layout0 3 no_dev I1 V1 {[1 := 1]} 0 disk1 0 1 [47; 97] (icache1 3) dirs1 (owns1 0)) as [(o & I' & w' & E & _ & Hw) _].
  - vm_compute. lia.
  - exact refers1.
  - apply good1. by left.
  - apply good1. by left.
  - repeat constructor; discriminate.
  - rewrite walk1 in Hw. destruct Hw as [_ (j & -> & Hj)]. exists j, I', w'. split; [exact E|exact Hj].
Defined.

Lemma locked1 : exists I w, icache sb0 3 I V1 {[1 := 1]} [0%nat] /\ refers I 0 1 /\ owns w V1 [] [] 20.
Proof.
  destruct (ilock_ok sb0 layout0 3 I1 V1 {[1 := 1]} [] 0 1 0 disk1 20 (icache1 3) refers1 (not_elem_of_nil _)) as (I & w & _ & Ho & Hi & Hk); [by rewrite inodes1|apply owns1|].
  exists I, w. split; [done|]. split; [by apply Hk, refers1|done].
Qed.
Lemma find1 : find_entry sb0 V1 1 [97] = Some (2%nat, (2, [97])) /\ find_entry sb0 V1 1 [98] = None /\ find_entry sb0 V1 1 dot = Some (0%nat, (1, dot)).
Proof. unfold find_entry. rewrite entries1. done. Qed.
Lemma room1 : (base.size ({[1%Z := 1%Z]} : gmap Z Z) < NINODE)%nat /\ Z.of_nat (S (length (entries sb0 V1 1))) * sizeof_de <= maxfile.
Proof. rewrite entries1. split; [vm_compute; lia|vm_compute; discriminate]. Qed.
Lemma root1 : d_type (disk_inode sb0 V1 1) = T_DIR /\ d_nlink (disk_inode sb0 V1 1) <> 0.
Proof. by rewrite inodes1. Qed.
Lemma many1 : sb_ninodes sb0 <= 65536.
Proof. vm_compute. discriminate. Qed.
Lemma dirlink_self_deadlock_witness : exists I w s', dirlink 3 no_dev 0 dot 2 (MkFs sb0 false I 0 w) = Sleep (inode_chan 0) s'.
Proof.
  destruct locked1 as (I & w & Hi & Hr & Ho).
  destruct (dirlink_self_deadlock sb0 layout0 3 no_dev I V1 {[1 := 1]} 0 1 0 w 13 dot 2 0 dot Hi Hr fs1 (proj1 root1) (proj2 root1)) as [_ [s' E]].
  - split; [apply Forall_singleton; discriminate|unfold DIRSIZ; cbn; lia].
  - exact Ho.
  - apply room1.
  - apply find1.
  - exists I, w, s'. exact E.
Defined.
End DirProps.
