(* ===== verification/Mkfs.v ===== *)
(** The image builder ([mkfs.c]): the program that writes the initial file system.

    Its state is the image, a sequence of sectors, and the counters of the next free inode
    and the next free block.  [exit(1)] and a failed [assert] are outcomes.  The host's files
    are arguments: the name of each, and the results of the successive calls to [read] on it.
    What the image holds is in [MkfsSpec.v]. *)

From S2P Require Import Prelude Params Bytes Fs.

Module Mkfs.
Import Fs.

Record mkfs := MkMkfs { fsfd : list (list Z); sb : superblock; freeinode : Z; freeblock : Z }.
Definition set_img (x : list (list Z)) (s : mkfs) : mkfs := MkMkfs x (sb s) (freeinode s) (freeblock s).
Definition set_sb (x : superblock) (s : mkfs) : mkfs := MkMkfs (fsfd s) x (freeinode s) (freeblock s).
Definition set_freeinode (x : Z) (s : mkfs) : mkfs := MkMkfs (fsfd s) (sb s) x (freeblock s).
Definition set_freeblock (x : Z) (s : mkfs) : mkfs := MkMkfs (fsfd s) (sb s) (freeinode s) x.

Definition exit1 (what : string) {A} : M mkfs A := panic (String.append "exit(1): " what).
Definition assert (b : bool) : M mkfs unit := if b then ret tt else panic "assert".

Definition NINODES : Z := 200.
Definition nbitmap : Z := FSSIZE / (Z.of_nat BSIZE * 8) + 1.
Definition ninodeblocks : Z := NINODES / IPB + 1.
Definition nlog : Z := LOGSIZE.

(** [xshort] and [xint] put the bytes of their argument in memory, least significant first,
    and return the number they are on an x86 host. *)
Definition xshort (x : Z) : Z := le_val [u8 x; u8 (Z.shiftr x 8)].
Definition xint (x : Z) : Z := le_val [u8 x; u8 (Z.shiftr x 8); u8 (Z.shiftr x 16); u8 (Z.shiftr x 24)].

(** The sector at the position that [lseek] is asked for.  A write past the end of the file
    fills the gap with zeros; a read there returns less than a sector. *)
Definition zeroes : list Z := replicate BSIZE 0.
Definition sector (sec : Z) : nat := Z.to_nat (u32 (sec * Z.of_nat BSIZE) / Z.of_nat BSIZE).
Definition put_sector (img : list (list Z)) (n : nat) (buf : list Z) : list (list Z) :=
  if decide (n < length img)%nat then <[n := buf]> img else img ++ replicate (n - length img) zeroes ++ [buf].
Definition wsect (sec : Z) (buf : list Z) : M mkfs unit :=
  modify (fun s => set_img (put_sector (fsfd s) (sector sec) buf) s).
Definition rsect (sec : Z) : M mkfs (list Z) :=
  img <- reads fsfd ;;
  match img !! sector sec with
  | Some buf => ret buf
  | None => exit1 "read"
  end.

Definition winode (inum : Z) (ip : dinode) : M mkfs unit :=
  b <- reads sb ;;
  let bn := IBLOCK inum b in
  buf <- rsect bn ;;
  wsect bn (put_dinode buf inum ip).
Definition rinode (inum : Z) : M mkfs dinode :=
  b <- reads sb ;;
  let bn := IBLOCK inum b in
  buf <- rsect bn ;;
  ret (get_dinode buf inum).

Definition ialloc (type : Z) : M mkfs Z :=
  inum <- reads freeinode ;;
  modify (set_freeinode (u32 (inum + 1))) ;;;
  winode inum (MkDinode (i16 (xshort type)) 0 0 (i16 (xshort 1)) (xint 0) (replicate (S NDIRECT) 0)) ;;;
  ret inum.

(** The bitmap with the first [used] bits set, as the loop sets them. *)
Fixpoint set_bits (used : nat) : list Z :=
  match used with
  | O => zeroes
  | S i => let buf := set_bits i in
           <[(i / 8)%nat := u8 (Z.lor (buf !!! (i / 8)%nat) (Z.shiftl 1 (Z.of_nat (i mod 8))))]> buf
  end.
Definition balloc (used : Z) : M mkfs unit :=
  assert (used <? Z.of_nat BSIZE * 8) ;;;
  b <- reads sb ;;
  wsect (sb_bmapstart b) (set_bits (Z.to_nat used)).

(** [freeblock++] *)
Definition next_block : M mkfs Z :=
  b <- reads freeblock ;;
  modify (set_freeblock (u32 (b + 1))) ;;;
  ret b.

(** The block of the file that holds block number [fbn], which is added when it is missing. *)
Definition set_daddr (n : nat) (a : Z) (d : dinode) : dinode :=
  MkDinode (d_type d) (d_major d) (d_minor d) (d_nlink d) (d_size d) (<[n := a]> (d_addrs d)).
Definition set_dsize (z : Z) (d : dinode) : dinode :=
  MkDinode (d_type d) (d_major d) (d_minor d) (d_nlink d) z (d_addrs d).
Definition data_block (din : dinode) (fbn : Z) : M mkfs (Z * dinode) :=
  if fbn <? Z.of_nat NDIRECT then
    let n := Z.to_nat fbn in
    din <- (if xint (d_addrs din !!! n) =? 0 then
              b <- next_block ;; ret (set_daddr n (xint b) din)
            else ret din) ;;
    ret (xint (d_addrs din !!! n), din)
  else
    let j := (4 * Z.to_nat (fbn - Z.of_nat NDIRECT))%nat in
    din <- (if xint (d_addrs din !!! NDIRECT) =? 0 then
              b <- next_block ;; ret (set_daddr NDIRECT (xint b) din)
            else ret din) ;;
    indirect <- rsect (xint (d_addrs din !!! NDIRECT)) ;;
    indirect <- (if get32 indirect j =? 0 then
                   b <- next_block ;;
                   let indirect := put32 indirect j (xint b) in
                   wsect (xint (d_addrs din !!! NDIRECT)) indirect ;;;
                   ret indirect
                 else ret indirect) ;;
    ret (xint (get32 indirect j), din).

(** The loop of [iappend]; a turn takes at least a byte, so [n] turns are enough. *)
Definition no_fuel : string := "out of fuel".
Fixpoint iappend_loop (fuel : nat) (din : dinode) (off : Z) (p : list Z) (n : Z) : M mkfs (dinode * Z) :=
  if negb (0 <? n) then ret (din, off) else
  match fuel with
  | O => panic no_fuel
  | S fuel =>
      let fbn := off / Z.of_nat BSIZE in
      assert (fbn <? Z.of_nat MAXFILE) ;;;
      xd <- data_block din fbn ;;
      let x := fst xd in
      let n1 := Z.min n ((fbn + 1) * Z.of_nat BSIZE - off) in
      buf <- rsect x ;;
      wsect x (put_bytes buf (Z.to_nat (off - fbn * Z.of_nat BSIZE)) (take (Z.to_nat n1) p)) ;;;
      iappend_loop fuel (snd xd) (u32 (off + n1)) (drop (Z.to_nat n1) p) (n - n1)
  end.
Definition iappend (inum : Z) (p : list Z) (n : Z) : M mkfs unit :=
  din <- rinode inum ;;
  r <- iappend_loop (Z.to_nat n) din (xint (d_size din)) p n ;;
  winode inum (set_dsize (xint (snd r)) (fst r)).

(** A file of the host: its name, and what [read] returns for it, sector by sector; [None]
    when it cannot be opened. *)
Record host_file := MkHost { h_name : list Z; h_reads : option (list (list Z)) }.
Fixpoint append_all (inum : Z) (l : list (list Z)) : M mkfs unit :=
  match l with
  | [] => ret tt
  | buf :: l =>
      let cc := Z.of_nat (length buf) in
      if 0 <? cc then iappend inum buf cc ;;; append_all inum l else ret tt
  end.
(** The name without a leading underscore. *)
Definition image_name (name : list Z) : list Z :=
  match name with
  | c :: rest => if c =? 95 then rest else name
  | [] => name
  end.
Definition add_file (rootino : Z) (f : host_file) : M mkfs unit :=
  assert (forallb (fun c => negb (c =? 47)) (h_name f)) ;;;
  match h_reads f with
  | None => exit1 "open"
  | Some l =>
      inum <- ialloc T_FILE ;;
      iappend rootino (make_dirent (image_name (h_name f)) (xshort inum)) sizeof_de ;;;
      append_all inum l
  end.
Fixpoint add_files (rootino : Z) (fs : list host_file) : M mkfs unit :=
  match fs with
  | [] => ret tt
  | f :: fs => add_file rootino f ;;; add_files rootino fs
  end.

Definition nmeta : Z := 2 + nlog + ninodeblocks + nbitmap.
Definition nblocks : Z := FSSIZE - nmeta.
Definition new_sb : superblock :=
  MkSb (xint FSSIZE) (xint nblocks) (xint NINODES) (xint nlog) (xint 2) (xint (2 + nlog)) (xint (2 + nlog + ninodeblocks)).
Definition sb_bytes (b : superblock) : list Z :=
  concat (map (le_bytes 4) [sb_size b; sb_nblocks b; sb_ninodes b; sb_nlog b; sb_logstart b; sb_inodestart b; sb_bmapstart b]).
(** [.] and [..] *)
Definition dot : list Z := [46].
Definition dotdot : list Z := [46; 46].

(** [main].  [image] is the first argument, the image: missing, or whether it can be opened,
    which makes it empty.  [files] are the arguments that follow. *)
Definition main (image : option bool) (files : list host_file) : M mkfs unit :=
  match image with
  | None => exit1 "usage"
  | Some false => exit1 "open image"
  | Some true =>
  modify (set_sb new_sb) ;;;
  modify (set_freeblock nmeta) ;;;
  for_loop (fun i => wsect (Z.of_nat i) zeroes ;;; ret (None : option unit)) 0 (Z.to_nat FSSIZE) ;;;
  b <- reads sb ;;
  wsect 1 (put_bytes zeroes 0 (sb_bytes b)) ;;;
  rootino <- ialloc T_DIR ;;
  assert (rootino =? ROOTINO) ;;;
  iappend rootino (make_dirent dot (xshort rootino)) sizeof_de ;;;
  iappend rootino (make_dirent dotdot (xshort rootino)) sizeof_de ;;;
  add_files rootino files ;;;
  din <- rinode rootino ;;
  let off := xint (d_size din) in
  let off := u32 (u32 (off / Z.of_nat BSIZE + 1) * Z.of_nat BSIZE) in
  winode rootino (set_dsize (xint off) din) ;;;
  f <- reads freeblock ;;
  balloc (i32 f)
  end.

(** The program starts with an empty image and zeros in [sb] and [freeblock]. *)
Definition start : mkfs := MkMkfs [] (MkSb 0 0 0 0 0 0 0) 1 0.
End Mkfs.
