(* ===== verification/MkfsSpec.v ===== *)
(** What [mkfs.c] puts in the image.

    [mkfs] allocates blocks by counting; the bitmap is written only at the end.  A [view] of
    its state is the disk with the bitmap that it would write now: for the view, taking the
    next block is an allocation like the kernel's, and the facts about files of [FsFile.v]
    and [Links.v] apply.  [built] is the invariant of [main]: a consistent file system with a
    root directory, the files added so far, and exactly the blocks that they need. *)

From S2P Require Import Prelude Params Bytes Sleeplock Bio Cache Log Fs FsSpec FsFile FsProps Inodes Dirs Links Mkfs.

Module MkfsSpec.
Import Fs FreeMap Files RamDisk Dirs Links Mkfs.

#[local] Instance image_spec : BlocksSpec ram := ram_spec (Z.to_nat FSSIZE).

(** ** Byte order *)
Lemma xint_id z : 0 <= z < W32 -> xint z = z.
Proof.
  intros Hz. unfold xint. rewrite !Z.shiftr_div_pow2 by lia.
  assert (E : [u8 z; u8 (z / 2 ^ 8); u8 (z / 2 ^ 16); u8 (z / 2 ^ 24)] = le_bytes 4 z).
  { cbn [le_bytes]. change (2 ^ 8) with 256. change (2 ^ 16) with (256 * 256). change (2 ^ 24) with (256 * 256 * 256). by rewrite <- !Z.div_div by lia. }
  rewrite E. by apply u32_le.
Qed.
Lemma xshort_id z : 0 <= z < 65536 -> xshort z = z.
Proof.
  intros Hz. unfold xshort. rewrite Z.shiftr_div_pow2 by lia. change ([u8 z; u8 (z / 2 ^ 8)]) with (le_bytes 2 z). rewrite le_val_le_bytes. by apply Z.mod_small.
Qed.
Lemma new_sb_eq : new_sb = MkSb 1000 941 200 30 2 32 58.
Proof. by vm_compute. Qed.

(** ** The view *)
Definition B : superblock := MkSb 1000 941 200 30 2 32 58.
Lemma layout_B : layout B.
Proof.
  split; try done. intros n Hn. unfold IBLOCK. change IPB with 8. cbn [sb_ninodes sb_inodestart sb_bmapstart B] in *.
  pose proof (Z.div_le_upper_bound n 8 25 ltac:(lia) ltac:(lia)). lia.
Qed.
Lemma datastart_B : datastart B = 59.
Proof. done. Qed.
Lemma nblk_B : nblk = 1000.
Proof. done. Qed.

Record view (s : mkfs) (V : Z -> list Z) : Prop := MkView {
  v_sb : sb s = B;
  v_img : length (fsfd s) = Z.to_nat FSSIZE;
  v_free : 59 <= freeblock s <= 1000;
  v_len b : 0 <= b < 1000 -> length (V b) = BSIZE;
  v_blk b : 0 <= b < 1000 -> b <> 58 -> fsfd s !! Z.to_nat b = Some (V b);
  v_map : V 58 = set_bits (Z.to_nat (freeblock s));
  v_zero b : freeblock s <= b < 1000 -> V b = zeroes
}.

(** ** The bitmap *)
Lemma length_set_bits n : length (set_bits n) = BSIZE.
Proof. induction n as [|n IH]; [done|]. cbn [set_bits]. by rewrite length_insert. Qed.
Lemma set_bits_S n : (n < 4096)%nat -> set_bits (S n) = set_bit (set_bits n) (Z.of_nat n) true.
Proof.
  intros Hn. cbn [set_bits]. unfold set_bit, bit_byte, bit_mask. rewrite BPB_eq. rewrite (Z.mod_small (Z.of_nat n) 4096) by lia.
  change 8 with (Z.of_nat 8). rewrite <- Nat2Z.inj_div, <- Nat2Z.inj_mod, Nat2Z.id. done.
Qed.
Lemma BBLOCK_B b : 0 <= b < 1000 -> BBLOCK b B = 58.
Proof. intros Hb. unfold BBLOCK. rewrite BPB_eq. by rewrite Z.div_small by lia. Qed.
Lemma bit_set_bits n b : forall V, 0 <= b < 1000 -> (n <= 1000)%nat -> V 58 = set_bits n -> bit B V b = (b <? Z.of_nat n).
Proof.
  induction n as [|n IH]; intros V Hb Hn HV.
  - unfold bit. rewrite BBLOCK_B, HV by done. unfold bit_byte. cbn [set_bits]. unfold zeroes.
    rewrite lookup_total_replicate_2; [|change BSIZE with 512%nat; rewrite BPB_eq; pose proof (Z.div_lt_upper_bound (b mod 4096) 8 512 ltac:(lia) ltac:(pose proof (Z.mod_pos_bound b 4096 ltac:(lia)); lia)); lia].
    rewrite Z.testbit_0_l. symmetry. apply Z.ltb_ge. lia.
  - set (V0 := <[58 := set_bits n]> V). assert (E0 : V0 58 = set_bits n) by (unfold V0; by rewrite fn_lookup_insert).
    assert (bit B V b = bit B (with_bit B V0 (Z.of_nat n) true) b) as ->.
    { unfold bit, with_bit. rewrite !BBLOCK_B by lia. rewrite fn_lookup_insert, E0, HV. by rewrite set_bits_S by lia. }
    rewrite bit_with_bit; [|lia|lia|by rewrite BBLOCK_B, E0, length_set_bits by lia].
    case_decide as E; [subst b; symmetry; apply Z.ltb_lt; lia|]. rewrite (IH V0) by (done || lia).
    destruct (Z.ltb_spec b (Z.of_nat n)), (Z.ltb_spec b (Z.of_nat (S n))); (done || lia).
Qed.

Section viewed.
Variables (s : mkfs) (V : Z -> list Z).
Hypothesis Hv : view s V.

Lemma view_bit b : 0 <= b < 1000 -> bit B V b = (b <? freeblock s).
Proof.
  intros Hb. pose proof (v_free _ _ Hv). rewrite (bit_set_bits (Z.to_nat (freeblock s))) by (done || lia || apply Hv). by rewrite Z2Nat.id by lia.
Qed.
Lemma view_meta : meta_used B V.
Proof. intros b Hb. rewrite datastart_B in Hb. pose proof (v_free _ _ Hv). rewrite view_bit by lia. apply Z.ltb_lt. lia. Qed.
Lemma view_owns : owns (map V (seqZ 0 1000)) V [] [] 0.
Proof.
  split_and!; [done| |by intros i b ?%elem_of_nil]. intros b Hb. split; [|by apply Hv]. symmetry. apply list_lookup_total_correct.
  rewrite list_lookup_fmap, lookup_seqZ_lt by (change (Z.to_nat FSSIZE) with 1000%nat in Hb; lia). cbn. f_equal. f_equal. lia.
Qed.
Lemma sector_id b : 0 <= b < 1000 -> sector b = Z.to_nat b.
Proof.
  intros Hb. unfold sector. change (Z.of_nat BSIZE) with 512. rewrite u32_id by (lia). by rewrite Z.div_mul.
Qed.
Lemma rsect_ok b : 0 <= b < 1000 -> b <> 58 -> rsect b s = Ret (V b) s.
Proof. intros Hb Hne. unfold rsect, bind, reads. rewrite sector_id, (v_blk _ _ Hv) by done. done. Qed.
Lemma wsect_ok b buf : 0 <= b < freeblock s -> b <> 58 -> length buf = BSIZE ->
  exists s', wsect b buf s = Ret tt s' /\ view s' (<[b := buf]> V) /\ freeblock s' = freeblock s /\ freeinode s' = freeinode s.
Proof.
  intros Hb Hne Hl. pose proof (v_free _ _ Hv) as Hf. pose proof (v_img _ _ Hv) as Hi. exists (set_img (<[Z.to_nat b := buf]> (fsfd s)) s).
  change (Z.to_nat FSSIZE) with (Z.to_nat 1000) in Hi. split_and!; try done.
  - unfold wsect, modify, put_sector. rewrite sector_id by lia. by rewrite decide_True by lia.
  - split; cbn [sb fsfd freeblock set_img]; try apply Hv.
    + by rewrite length_insert.
    + intros c Hc. destruct (decide (c = b)) as [->|]; [by rewrite fn_lookup_insert|rewrite fn_lookup_insert_ne by done; by apply Hv].
    + intros c Hc Hc'. destruct (decide (c = b)) as [->|].
      * rewrite fn_lookup_insert. apply list_lookup_insert_eq. lia.
      * rewrite fn_lookup_insert_ne, list_lookup_insert_ne by lia. by apply Hv.
    + rewrite fn_lookup_insert_ne by done. apply Hv.
    + intros c Hc. rewrite fn_lookup_insert_ne by lia. by apply Hv.
Qed.
Lemma next_block_ok : freeblock s < 1000 ->
  let c := freeblock s in let s' := set_freeblock (c + 1) s in
  next_block s = Ret c s' /\ view s' (alloc_view B V c) /\ datastart B <= c < sb_size B /\ bit B V c = false /\ meta_used B (alloc_view B V c).
Proof.
  intros Hlt c s'. pose proof (v_free _ _ Hv) as Hf. assert (Hc : datastart B <= c < sb_size B) by (rewrite datastart_B; unfold c; cbn; lia).
  assert (Hvw : view s' (alloc_view B V c)).
  { assert (Hat : forall b, b <> 58 -> alloc_view B V c b = if decide (b = c) then zeroes else V b).
    { intros b Hb. unfold alloc_view, with_bit. rewrite BBLOCK_B by (unfold c; lia). case_decide; [subst; by rewrite fn_lookup_insert|]. by rewrite !fn_lookup_insert_ne. }
    split; cbn [sb fsfd freeblock s' set_freeblock]; try apply Hv.
    - lia.
    - intros b Hb. destruct (decide (b = 58)) as [->|Hne].
      + unfold alloc_view, with_bit. rewrite fn_lookup_insert_ne by (unfold c; lia). rewrite BBLOCK_B by (unfold c; lia). rewrite fn_lookup_insert, length_set_bit. by apply Hv.
      + rewrite Hat by done. case_decide; [done|by apply Hv].
    - intros b Hb Hne. rewrite Hat by done. case_decide; [|by apply Hv]. rewrite (v_blk _ _ Hv) by done. f_equal. apply Hv. unfold c in *. lia.
    - unfold alloc_view, with_bit. rewrite fn_lookup_insert_ne by (unfold c; lia). rewrite BBLOCK_B by (unfold c; lia). rewrite fn_lookup_insert, (v_map _ _ Hv).
      replace (Z.to_nat (c + 1)) with (S (Z.to_nat c)) by (unfold c; lia). rewrite set_bits_S by (unfold c; lia). by rewrite Z2Nat.id by (unfold c; lia).
    - intros b Hb. rewrite Hat by lia. case_decide; [done|]. apply Hv. unfold c in *. lia. }
  split_and!; try done; try lia.
  - unfold next_block, bind, reads, modify, ret. fold c. by rewrite u32_id by (unfold c; lia).
  - rewrite view_bit by (unfold c; lia). apply Z.ltb_ge. unfold c. lia.
  - intros b Hb. rewrite datastart_B in Hb. rewrite (bit_set_bits (Z.to_nat (c + 1)) b (alloc_view B V c)); [apply Z.ltb_lt; unfold c; lia|lia|unfold c; lia|]. apply (v_map _ _ Hvw).
Qed.
End viewed.

(** ** The blocks of a file *)
(** The file has [m] blocks, and an indirect block when it needs one. *)
Definition exactly (V : Z -> list Z) (x : inode) (m : nat) : Prop :=
  (forall k, (k < MAXFILE)%nat -> fblk V x k <> 0 <-> (k < m)%nat) /\ (addrs x !!! NDIRECT <> 0 <-> (NDIRECT < m)%nat).
(** What it takes of the disk. *)
Definition cost (m : nat) : Z := Z.of_nat m + (if decide (NDIRECT < m)%nat then 1 else 0).
Lemma cost_S m : cost m < cost (S m).
Proof. unfold cost. repeat case_decide; lia. Qed.

(** A block is added, or it is there: block [n] is at [c], and holds zeros if it is new. *)
Record added (s : mkfs) (V : Z -> list Z) (x : inode) (m n : nat) (c : Z) (s' : mkfs) (V' : Z -> list Z) (x' : inode) : Prop := MkAdded {
  ad_view : view s' V';
  ad_grown : grown B V x V' x';
  ad_blk : fblk V' x' n = c;
  ad_nz : c <> 0;
  ad_exact : exactly V' x' (S n);
  ad_same : m = S n -> V' = V /\ x' = x;
  ad_new : m = n -> V' c = zeroes;
  ad_free : freeblock s' = freeblock s + cost (S n) - cost m;
  ad_inode : freeinode s' = freeinode s
}.

Lemma addr_xint V x j : file_ok B V x -> (j < S NDIRECT)%nat -> xint (addrs x !!! j) = addrs x !!! j.
Proof. intros Hf Hj. apply xint_id. by eapply (addr_range B layout_B). Qed.
Lemma data_range V x a : file_ok B V x -> owned V x a -> 59 <= a < 1000.
Proof. intros Hf Ha. destruct (fo_data _ _ _ Hf a Ha) as [Hr _]. rewrite datastart_B in Hr. exact Hr. Qed.

(** The block is there. *)
Lemma data_block_hit s V x n : view s V -> file_ok B V x -> exactly V x (S n) -> (n < MAXFILE)%nat ->
  data_block (dinode_of x) (Z.of_nat n) s = Ret (fblk V x n, dinode_of x) s.
Proof.
  intros Hv Hf [He Hi] Hn. assert (Hne : fblk V x n <> 0) by (apply He; lia). pose proof (data_range V x _ Hf (owned_blk V x n Hn Hne)) as Hr.
  unfold data_block. destruct (Z.ltb_spec (Z.of_nat n) (Z.of_nat NDIRECT)) as [Hd|Hd].
  - rewrite Nat2Z.id. cbn [d_addrs dinode_of]. rewrite (addr_xint V) by (done || lia). unfold fblk in *. rewrite decide_True in * by lia.
    rewrite (proj2 (Z.eqb_neq _ _) Hne), (bind_Ret _ _ _ _ _ eq_refl). cbn [d_addrs dinode_of]. by rewrite (addr_xint V) by (done || lia).
  - assert (Hind : addrs x !!! NDIRECT <> 0) by (apply Hi; lia). cbn [d_addrs dinode_of]. rewrite (addr_xint V) by (done || lia).
    assert (Hri : 59 <= addrs x !!! NDIRECT < 1000) by (apply (data_range V x); [done|split; [done|by right]]).
    rewrite (proj2 (Z.eqb_neq _ _) Hind), (bind_Ret _ _ _ _ _ eq_refl). cbn [d_addrs dinode_of]. rewrite (addr_xint V) by (done || lia).
    assert (E1 : rsect (addrs x !!! NDIRECT) s = Ret (V (addrs x !!! NDIRECT)) s) by (apply rsect_ok; [done|lia..]). rewrite (bind_Ret _ _ _ _ _ E1). replace (Z.to_nat (Z.of_nat n - Z.of_nat NDIRECT)) with (n - NDIRECT)%nat by lia.
    unfold fblk in *. rewrite !decide_False in * by (done || lia). rewrite (proj2 (Z.eqb_neq _ _) Hne), (bind_Ret _ _ _ _ _ eq_refl). by rewrite xint_id by lia.
Qed.

(** A direct block is added. *)
Lemma data_block_direct s V x n : view s V -> file_ok B V x -> exactly V x n -> (n < NDIRECT)%nat -> freeblock s < 1000 ->
  exists c s' V' x', data_block (dinode_of x) (Z.of_nat n) s = Ret (c, dinode_of x') s' /\ added s V x n n c s' V' x'.
Proof.
  intros Hv Hf [He Hi] Hn Hlt. destruct (next_block_ok s V Hv Hlt) as (E & Hv' & Hc & Hbit & Hmeta). set (c := freeblock s) in *.
  pose proof (fo_len _ _ _ Hf) as Hlen. assert (Hz : fblk V x n = 0) by (destruct (decide (fblk V x n = 0)) as [|Hne]; [done|]; apply He in Hne; unfold MAXFILE; lia).
  assert (Hz' : addrs x !!! n = 0) by (unfold fblk in Hz; by rewrite decide_True in Hz).
  assert (Hc' : 59 <= c < 1000) by (rewrite datastart_B in Hc; exact Hc).
  exists c, (set_freeblock (c + 1) s), (alloc_view B V c), (set_addrs (<[n := c]> (addrs x)) x). split.
  - unfold data_block. destruct (Z.ltb_spec (Z.of_nat n) (Z.of_nat NDIRECT)) as [Hd|Hd]; [|lia]. rewrite Nat2Z.id. cbn [d_addrs dinode_of].
    rewrite (addr_xint V), Hz' by (done || lia). cbn [Z.eqb].
    assert (E2 : (b <- next_block ;; ret (set_daddr n (xint b) (dinode_of x))) s = Ret (set_daddr n (xint c) (dinode_of x)) (set_freeblock (c + 1) s)) by (by rewrite (bind_Ret _ _ _ _ _ E)).
    rewrite (bind_Ret _ _ _ _ _ E2). cbn [set_daddr d_addrs dinode_of]. rewrite list_lookup_total_insert_eq by lia. by rewrite !xint_id by (rewrite ?xint_id; lia).
  - assert (Hb : forall k, (k < MAXFILE)%nat -> fblk (alloc_view B V c) (set_addrs (<[n := c]> (addrs x)) x) k = if decide (k = n) then c else fblk V x k)
      by (intros k Hk; apply (direct_blk B layout_B); done).
    split; try done.
    + eapply (grown_direct B layout_B); try done. by eapply view_owns.
    + rewrite Hb by (unfold MAXFILE; lia). by rewrite decide_True.
    + lia.
    + split.
      * intros k Hk. rewrite Hb by done. case_decide; [subst; lia|]. rewrite He by done. lia.
      * cbn [addrs set_addrs]. rewrite list_lookup_total_insert_ne by lia. rewrite Hi. lia.
    + lia.
    + intros _. unfold alloc_view. by rewrite fn_lookup_insert.
    + cbn [freeblock set_freeblock]. unfold cost. rewrite !decide_False by lia. fold c. lia.
Qed.
(** An entry of the indirect block is added. *)
Lemma data_block_entry s V x n : view s V -> file_ok B V x -> (NDIRECT <= n < MAXFILE)%nat -> addrs x !!! NDIRECT <> 0 -> fblk V x n = 0 -> freeblock s < 1000 ->
  exists s' V', data_block (dinode_of x) (Z.of_nat n) s = Ret (freeblock s, dinode_of x) s' /\ view s' V' /\ grown B V x V' x /\
    (forall k, (k < MAXFILE)%nat -> fblk V' x k = if decide (k = n) then freeblock s else fblk V x k) /\
    V' (freeblock s) = zeroes /\ freeblock s' = freeblock s + 1 /\ freeinode s' = freeinode s.
Proof.
  intros Hv Hf Hn Hind Hz Hlt. destruct (next_block_ok s V Hv Hlt) as (E & Hv' & Hc & Hbit & Hmeta). set (c := freeblock s) in *. set (s1 := set_freeblock (c + 1) s) in *.
  set (ind := addrs x !!! NDIRECT) in *. assert (Hown : owned V x ind) by (split; [done|by right]).
  assert (Hri : 59 <= ind < 1000) by (by apply (data_range V x)). assert (Hc' : 59 <= c < 1000) by (rewrite datastart_B in Hc; exact Hc).
  assert (Hlow : ind < c). { destruct (fo_data _ _ _ Hf ind Hown) as [_ Hb]. rewrite (view_bit s V Hv) in Hb by lia. by apply Z.ltb_lt. }
  assert (Eind : alloc_view B V c ind = V ind) by (apply (alloc_view_data B layout_B); [done|rewrite datastart_B; lia|lia]).
  set (j := (n - NDIRECT)%nat). assert (Hj : (j < NINDIRECT)%nat) by (unfold MAXFILE in Hn; lia).
  assert (Hnj : n = (NDIRECT + j)%nat) by lia. assert (Hlv : length (V ind) = BSIZE) by (apply (v_len _ _ Hv); lia).
  destruct (wsect_ok s1 _ Hv' ind (put32 (V ind) (4 * j) c)) as (s2 & E2 & Hv2 & F2 & I2); [unfold s1; cbn [freeblock set_freeblock]; lia|lia|rewrite length_put32; [done|by apply entry_fits]|].
  exists s2, (entry_view B V ind j c). split_and!; try done.
  - unfold data_block. destruct (Z.ltb_spec (Z.of_nat n) (Z.of_nat NDIRECT)) as [Hd|Hd]; [lia|]. cbn [d_addrs dinode_of]. rewrite (addr_xint V) by (done || lia).
    fold ind. rewrite (proj2 (Z.eqb_neq _ _) Hind), (bind_Ret _ _ _ _ _ eq_refl). cbn [d_addrs dinode_of]. rewrite (addr_xint V) by (done || lia). fold ind.
    assert (E1 : rsect ind s = Ret (V ind) s) by (apply rsect_ok; [done|lia..]). rewrite (bind_Ret _ _ _ _ _ E1).
    replace (Z.to_nat (Z.of_nat n - Z.of_nat NDIRECT)) with j by lia. unfold fblk in Hz. rewrite !decide_False in Hz by (done || lia). fold j ind in Hz.
    rewrite Hz. cbn [Z.eqb]. match goal with |- bind ?inner _ _ = _ => assert (E3 : inner s = Ret (put32 (V ind) (4 * j) c) s2) end.
    { rewrite (bind_Ret _ _ _ _ _ E). cbv zeta. rewrite xint_id by lia. by rewrite (bind_Ret _ _ _ _ _ E2). }
    rewrite (bind_Ret _ _ _ _ _ E3). rewrite get32_put32_same by (by apply entry_fits). rewrite u32_id by lia. by rewrite xint_id by lia.
  - rewrite Hnj in Hz. apply (grown_entry B layout_B _ V x c j 0 (view_owns s V Hv) Hf Hc Hbit Hmeta Hj Hind Hz).
  - intros k Hk. rewrite Hnj. by apply (entry_blk B layout_B).
  - unfold entry_view. rewrite fn_lookup_insert_ne by lia. unfold alloc_view. by rewrite fn_lookup_insert.
Qed.
(** The indirect block is added. *)
Lemma data_block_ind s V x n : view s V -> file_ok B V x -> (NDIRECT <= n < MAXFILE)%nat -> addrs x !!! NDIRECT = 0 -> freeblock s < 1000 ->
  let c := freeblock s in let s1 := set_freeblock (c + 1) s in let x1 := set_addrs (<[NDIRECT := c]> (addrs x)) x in let V1 := alloc_view B V c in
  data_block (dinode_of x) (Z.of_nat n) s = data_block (dinode_of x1) (Z.of_nat n) s1 /\ view s1 V1 /\ grown B V x V1 x1 /\ addrs x1 !!! NDIRECT = c /\ c <> 0 /\
  forall k, (k < MAXFILE)%nat -> fblk V1 x1 k = fblk V x k.
Proof.
  intros Hv Hf Hn Hz Hlt c s1 x1 V1. destruct (next_block_ok s V Hv Hlt) as (E & Hv' & Hc & Hbit & Hmeta). fold c s1 in E, Hv', Hc, Hbit, Hmeta.
  pose proof (fo_len _ _ _ Hf) as Hlen. assert (Hc' : 59 <= c < 1000) by (rewrite datastart_B in Hc; exact Hc).
  assert (Ec : addrs x1 !!! NDIRECT = c) by (cbn; by rewrite list_lookup_total_insert_eq by lia).
  split_and!; try done; try lia.
  - unfold data_block. destruct (Z.ltb_spec (Z.of_nat n) (Z.of_nat NDIRECT)) as [Hd|Hd]; [lia|]. cbn [d_addrs dinode_of]. rewrite (addr_xint V), Hz, Ec by (done || lia). cbn [Z.eqb].
    match goal with |- bind ?inner _ _ = _ => assert (E3 : inner s = Ret (dinode_of x1) s1) by (rewrite (bind_Ret _ _ _ _ _ E); by rewrite xint_id by lia) end.
    rewrite (bind_Ret _ _ _ _ _ E3). cbn [d_addrs dinode_of]. rewrite Ec, xint_id by lia. destruct (Z.eqb_spec c 0); [lia|].
    rewrite (bind_Ret _ _ _ _ _ eq_refl). cbn [d_addrs dinode_of]. by rewrite Ec, xint_id by lia.
  - eapply (grown_ind B layout_B); try done. by eapply view_owns.
  - intros k Hk. by apply (ind_blk B).
Qed.

(** [data_block] with room for what it adds. *)
Lemma data_block_ok s V x m n : view s V -> file_ok B V x -> exactly V x m -> (n < MAXFILE)%nat -> m = n \/ m = S n -> freeblock s + cost (S n) - cost m <= 1000 ->
  exists c s' V' x', data_block (dinode_of x) (Z.of_nat n) s = Ret (c, dinode_of x') s' /\ added s V x m n c s' V' x'.
Proof.
  intros Hv Hf He Hn [->| ->] Hroom.
  2: { exists (fblk V x n), s, V, x. split; [by apply data_block_hit|]. split; try done; [|apply (proj1 He); lia|lia|lia]. apply grown_refl; [done|by eapply view_meta]. }
  pose proof (cost_S n). destruct (decide (n < NDIRECT)%nat) as [Hd|Hd]; [apply data_block_direct; (done || lia)|].
  destruct He as [He Hi]. assert (Hz : fblk V x n = 0) by (destruct (decide (fblk V x n = 0)) as [|Hne]; [done|]; apply He in Hne; lia).
  assert (Hlast : forall V' x', (forall k, (k < MAXFILE)%nat -> fblk V' x' k = if decide (k = n) then fblk V' x' n else fblk V x k) -> fblk V' x' n <> 0 -> addrs x' !!! NDIRECT <> 0 -> exactly V' x' (S n)).
  { intros V' x' Hb Hne Hind. split; [|split; [lia|done]]. intros k Hk. rewrite Hb by done. case_decide; [subst; split; [lia|done]|]. rewrite He by done. lia. }
  destruct (decide (n = NDIRECT)) as [E|E].
  - assert (Hind : addrs x !!! NDIRECT = 0) by (destruct (decide (addrs x !!! NDIRECT = 0)) as [|Hne]; [done|]; apply Hi in Hne; lia).
    assert (Hcost : cost (S n) - cost n = 2) by (unfold cost; rewrite decide_True, decide_False by lia; lia).
    destruct (data_block_ind s V x n Hv Hf ltac:(lia) Hind ltac:(lia)) as (E1 & Hv1 & Hg1 & Hi1 & Hc1 & Hb1). set (c1 := freeblock s) in *. set (s1 := set_freeblock _ s) in *.
    set (x1 := set_addrs _ x) in *. set (V1 := alloc_view B V c1) in *.
    destruct (data_block_entry s1 V1 x1 n Hv1 (ex_ok _ _ _ _ _ (gr_ext _ _ _ _ _ Hg1)) ltac:(lia) ltac:(congruence) ltac:(by rewrite Hb1) ltac:(cbn; lia)) as (s2 & V2 & E2 & Hv2 & Hg2 & Hb2 & Hz2 & F2 & I2).
    cbn [freeblock s1 set_freeblock] in *. assert (Ebn : fblk V2 x1 n = c1 + 1) by (rewrite Hb2 by done; by rewrite decide_True). pose proof (v_free _ _ Hv) as Hf0. fold c1 in Hf0.
    exists (c1 + 1), s2, V2, x1. split; [by rewrite E1|]. split; try done; try lia.
    + by eapply (grown_trans B layout_B).
    + apply Hlast; [|lia|congruence]. intros k Hk. rewrite Hb2, Hb2, Hb1 by done. rewrite (decide_True (P := n = n)) by done. done.
  - assert (Hind : addrs x !!! NDIRECT <> 0) by (apply Hi; lia).
    assert (Hcost : cost (S n) - cost n = 1) by (unfold cost; rewrite !decide_True by lia; lia).
    destruct (data_block_entry s V x n Hv Hf ltac:(lia) Hind Hz ltac:(lia)) as (s2 & V2 & E2 & Hv2 & Hg2 & Hb2 & Hz2 & F2 & I2). pose proof (v_free _ _ Hv) as Hf0.
    assert (Ebn : fblk V2 x n = freeblock s) by (rewrite Hb2 by done; by rewrite decide_True).
    exists (freeblock s), s2, V2, x. split; [done|]. split; try done; try lia. apply Hlast; [|lia|done]. intros k Hk. rewrite Hb2 by done. by rewrite Ebn.
Qed.

(** ** [iappend] *)
(** The number of blocks for [z] bytes. *)
Definition blocks_of (z : Z) : nat := Z.to_nat ((z + 511) / 512).
(** What is past [off] in the blocks of the file is zeros. *)
Definition tailz (V : Z -> list Z) (x : inode) (off : Z) : Prop :=
  forall p, off <= p < maxfile -> fblk V x (Z.to_nat (p / 512)) <> 0 -> fbyte V x p = 0.

Lemma cost_mono m m' : (m <= m')%nat -> cost m <= cost m'.
Proof. intros Hm. unfold cost. repeat case_decide; lia. Qed.
Lemma blocks_mono a b : a <= b -> (blocks_of a <= blocks_of b)%nat.
Proof. intros Hab. unfold blocks_of. pose proof (Z.div_le_mono (a + 511) (b + 511) 512 ltac:(lia) ltac:(lia)). lia. Qed.
Lemma blocks_in z q : 0 <= q -> q * 512 < z <= (q + 1) * 512 -> blocks_of z = S (Z.to_nat q).
Proof. intros Hq Hz. unfold blocks_of. assert ((z + 511) / 512 = q + 1) as -> by (symmetry; apply (Z.div_unique _ _ _ (z + 511 - 512 * (q + 1))); lia). lia. Qed.
Lemma blocks_at off : 0 <= off -> let n := Z.to_nat (off / 512) in blocks_of off = n /\ off mod 512 = 0 \/ blocks_of off = S n /\ 0 < off mod 512.
Proof.
  intros Hoff n. pose proof (Z.div_mod off 512 ltac:(lia)). pose proof (Z.mod_pos_bound off 512 ltac:(lia)). pose proof (Z.div_pos off 512 ltac:(lia) ltac:(lia)).
  destruct (decide (off mod 512 = 0)) as [E|E]; [left|right].
  - split; [|done]. unfold blocks_of, n. f_equal. symmetry. apply (Z.div_unique _ _ _ 511); lia.
  - split; [|lia]. apply blocks_in; lia.
Qed.

Record appended (s : mkfs) (V : Z -> list Z) (x : inode) (off : Z) (p : list Z) (s' : mkfs) (V' : Z -> list Z) (x' : inode) : Prop := MkAppended {
  ap_view : view s' V';
  ap_written : written B V x V' x' off p;
  ap_exact : exactly V' x' (blocks_of (off + Z.of_nat (length p)));
  ap_tail : tailz V' x' (off + Z.of_nat (length p));
  ap_free : freeblock s' = freeblock s + cost (blocks_of (off + Z.of_nat (length p))) - cost (blocks_of off);
  ap_inode : freeinode s' = freeinode s
}.
Lemma appended_nil s V x off : view s V -> file_ok B V x -> exactly V x (blocks_of off) -> tailz V x off -> appended s V x off [] s V x.
Proof.
  intros Hv Hf He Ht. split; cbn [length]; rewrite ?Z.add_0_r; try done; [|lia]. split; try done; [by apply extends_refl|by eapply view_meta|]. intros p Hp. cbn in Hp. lia.
Qed.
Lemma appended_trans s V x off a b s1 V1 x1 s2 V2 x2 : file_ok B V x -> 0 <= off -> off + Z.of_nat (length (a ++ b)) <= maxfile ->
  appended s V x off a s1 V1 x1 -> appended s1 V1 x1 (off + Z.of_nat (length a)) b s2 V2 x2 -> appended s V x off (a ++ b) s2 V2 x2.
Proof.
  intros Hf Hoff Hmax [] []. assert (E : off + Z.of_nat (length (a ++ b)) = off + Z.of_nat (length a) + Z.of_nat (length b)) by (rewrite length_app; lia).
  split; rewrite ?E; try done; [by eapply (written_trans B layout_B)|lia|congruence].
Qed.

(** A turn of the loop: part of a block. *)
Lemma append_turn s V x off bs c s1 V1 x1 : let n := Z.to_nat (off / 512) in view s V -> file_ok B V x -> exactly V x (blocks_of off) -> tailz V x off -> 0 <= off ->
  (0 < length bs)%nat -> off mod 512 + Z.of_nat (length bs) <= 512 -> off + Z.of_nat (length bs) <= maxfile ->
  added s V x (blocks_of off) n c s1 V1 x1 ->
  exists s2, wsect c (put_bytes (V1 c) (Z.to_nat (off mod 512)) bs) s1 = Ret tt s2 /\
    appended s V x off bs s2 (<[c := put_bytes (V1 c) (Z.to_nat (off mod 512)) bs]> V1) x1.
Proof.
  intros n Hv Hf [He0 _] Ht Hoff Hbs Hfit Hmax [Hv1 Hg Hb Hnz [He Hi] Hsame Hnew Hfr Hin]. set (d := put_bytes _ _ _). pose proof (Z.mod_pos_bound off 512 ltac:(lia)) as Hmod.
  pose proof (Z.div_mod off 512 ltac:(lia)) as Hdm. pose proof (Z.div_pos off 512 ltac:(lia) ltac:(lia)) as Hq. assert (Hn : (n < MAXFILE)%nat) by (apply block_of_pos; lia).
  pose proof (ex_ok _ _ _ _ _ (gr_ext _ _ _ _ _ Hg)) as Hf1. assert (Hown : owned V1 x1 c) by (rewrite <- Hb; apply owned_blk; [done|by rewrite Hb]).
  pose proof (data_range V1 x1 c Hf1 Hown) as Hr. assert (Hc : c < freeblock s1). { destruct (fo_data _ _ _ Hf1 c Hown) as [_ Hbit]. rewrite (view_bit s1 V1 Hv1) in Hbit by lia. by apply Z.ltb_lt. }
  assert (Hlc : length (V1 c) = 512%nat) by (apply (v_len _ _ Hv1); lia). assert (Hld : length d = BSIZE) by (unfold d; rewrite length_put_bytes; [done|rewrite Hlc; lia]).
  destruct (wsect_ok s1 V1 Hv1 c d) as (s2 & E2 & Hv2 & F2 & I2); [lia|lia|done|]. exists s2. split; [done|].
  assert (Hblk : blocks_of (off + Z.of_nat (length bs)) = S n) by (apply blocks_in; lia).
  destruct (set_data_ext B layout_B V1 x1 n d Hf1 (gr_meta _ _ _ _ _ Hg) Hn ltac:(by rewrite Hb)) as (_ & _ & Hbk & _). rewrite Hb in Hbk.
  split; [done| |..].
  - unfold d. rewrite <- Hb. apply (write_step B layout_B V x V1 x1 off bs); try done; [intros b Hbb; apply Hv1; exact Hbb|by rewrite BSIZE_eq; fold n; rewrite Hb|].
    rewrite BSIZE_eq. fold n. intros Hne. apply Hsame. destruct (blocks_at off Hoff) as [[E _]|[E _]]; [|exact E]. exfalso. apply He0 in Hne; [|done]. fold n in E. lia.
  - rewrite Hblk. split; [|done]. intros k Hk. rewrite Hbk by done. by apply He.
  - intros p Hp Hne. assert (Hk : (Z.to_nat (p / 512) < MAXFILE)%nat) by (apply block_of_pos; lia). rewrite Hbk in Hne by done. apply He in Hne; [|done].
    pose proof (Z.div_le_mono off p 512 ltac:(lia) ltac:(lia)). assert (Ep : p / 512 = off / 512) by (unfold n in Hne; lia).
    pose proof (Z.div_mod p 512 ltac:(lia)). pose proof (Z.mod_pos_bound p 512 ltac:(lia)).
    assert (Eb : fbyte (<[c := d]> V1) x1 p = V1 c !!! Z.to_nat (p mod 512)).
    { unfold fbyte. rewrite BSIZE_eq, Ep. change (Z.to_nat (off / 512)) with n. rewrite Hbk, Hb, fn_lookup_insert by done. unfold d.
      rewrite !list_lookup_total_alt. rewrite lookup_put_bytes_out; [done|rewrite Hlc; lia|lia]. }
    rewrite Eb. destruct (blocks_at off Hoff) as [[E _]|[E _]]; fold n in E.
    + rewrite (Hnew E). apply lookup_total_replicate_2. change BSIZE with 512%nat. lia.
    + destruct (Hsame E) as [EV Ex]. subst V1 x1. rewrite <- Hb. rewrite <- (Ht p); [|lia|].
      * unfold fbyte. by rewrite BSIZE_eq, Ep.
      * rewrite Ep. change (Z.to_nat (off / 512)) with n. by rewrite Hb.
  - rewrite Hblk. lia.
  - congruence.
Qed.

Lemma iappend_loop_ok fuel : forall s V x off p, view s V -> file_ok B V x -> exactly V x (blocks_of off) -> tailz V x off -> 0 <= off ->
  off + Z.of_nat (length p) <= maxfile -> (length p <= fuel)%nat -> freeblock s + cost (blocks_of (off + Z.of_nat (length p))) - cost (blocks_of off) <= 1000 ->
  exists s' V' x', iappend_loop fuel (dinode_of x) off p (Z.of_nat (length p)) s = Ret (dinode_of x', off + Z.of_nat (length p)) s' /\ appended s V x off p s' V' x'.
Proof.
  induction fuel as [|fuel IH]; intros s V x off p Hv Hf He Ht Hoff Hmax Hfuel Hroom.
  { destruct p; [|cbn in Hfuel; lia]. exists s, V, x. split; [by rewrite Z.add_0_r|by apply appended_nil]. }
  destruct (decide (p = [])) as [->|Hp]; [exists s, V, x; split; [by rewrite Z.add_0_r|by apply appended_nil]|].
  assert (Hlp : (0 < length p)%nat) by (destruct p; [done|cbn; lia]). cbn [iappend_loop]. destruct (Z.ltb_spec 0 (Z.of_nat (length p))); [|lia]. cbn [negb].
  change (Z.of_nat BSIZE) with 512. pose proof (Z.div_mod off 512 ltac:(lia)) as Hdm. pose proof (Z.mod_pos_bound off 512 ltac:(lia)) as Hmod. pose proof (Z.div_pos off 512 ltac:(lia) ltac:(lia)) as Hq.
  set (n := Z.to_nat (off / 512)). assert (Hn : (n < MAXFILE)%nat) by (apply block_of_pos; lia). assert (Eq : off / 512 = Z.of_nat n) by (unfold n; lia).
  set (n1 := Z.min (Z.of_nat (length p)) ((off / 512 + 1) * 512 - off)). assert (Hn1 : 0 < n1 <= Z.of_nat (length p)) by (unfold n1; lia). assert (Hfit : off mod 512 + n1 <= 512) by (unfold n1; lia).
  rewrite Eq. unfold assert. destruct (Z.ltb_spec (Z.of_nat n) (Z.of_nat MAXFILE)); [|lia]. rewrite (bind_Ret _ _ _ _ _ eq_refl).
  assert (Eb : blocks_of (off + n1) = S n) by (apply blocks_in; lia).
  assert (Hm : (blocks_of (off + n1) <= blocks_of (off + Z.of_nat (length p)))%nat) by (apply blocks_mono; lia). pose proof (cost_mono _ _ Hm) as Hcm. rewrite Eb in Hcm.
  destruct (data_block_ok s V x (blocks_of off) n Hv Hf He Hn) as (c & s1 & V1 & x1 & E1 & Ha); [destruct (blocks_at off Hoff) as [[E _]|[E _]]; [by left|by right]|lia|].
  rewrite (bind_Ret _ _ _ _ _ E1). cbn [fst snd]. pose proof (ex_ok _ _ _ _ _ (gr_ext _ _ _ _ _ (ad_grown _ _ _ _ _ _ _ _ _ Ha))) as Hf1.
  assert (Hr : 59 <= c < 1000). { apply (data_range V1 x1); [done|]. rewrite <- (ad_blk _ _ _ _ _ _ _ _ _ Ha). apply owned_blk; [done|]. rewrite (ad_blk _ _ _ _ _ _ _ _ _ Ha). apply (ad_nz _ _ _ _ _ _ _ _ _ Ha). }
  assert (E2 : rsect c s1 = Ret (V1 c) s1) by (apply rsect_ok; [apply Ha|lia..]). rewrite (bind_Ret _ _ _ _ _ E2).
  replace (off - Z.of_nat n * 512) with (off mod 512) by lia.
  set (bs := take (Z.to_nat n1) p). assert (Hlb : Z.of_nat (length bs) = n1) by (unfold bs; rewrite length_take; lia).
  destruct (append_turn s V x off bs c s1 V1 x1 Hv Hf He Ht Hoff) as (s2 & E3 & Ha2); [lia|lia|lia|done|]. rewrite (bind_Ret _ _ _ _ _ E3).
  set (V2 := <[c := _]> V1) in *. rewrite u32_id by (assert (maxfile < W32) by done; lia). rewrite <- Hlb in *.
  assert (Hld : Z.of_nat (length (drop (Z.to_nat (Z.of_nat (length bs))) p)) = Z.of_nat (length p) - Z.of_nat (length bs)) by (rewrite length_drop; lia).
  assert (Esum : off + Z.of_nat (length bs) + (Z.of_nat (length p) - Z.of_nat (length bs)) = off + Z.of_nat (length p)) by lia.
  destruct (IH s2 V2 x1 (off + Z.of_nat (length bs)) (drop (Z.to_nat (Z.of_nat (length bs))) p)) as (s3 & V3 & x3 & E4 & Ha3); try apply Ha2; rewrite ?Hld, ?Esum; try lia.
  { pose proof (ap_free _ _ _ _ _ _ _ _ Ha2). lia. }
  exists s3, V3, x3. rewrite <- Hld, E4, Hld, Esum. split; [done|].
  assert (Ep : p = bs ++ drop (Z.to_nat (Z.of_nat (length bs))) p) by (unfold bs at 1; rewrite Hlb; by rewrite take_drop).
  rewrite Ep. eapply appended_trans; [done|done| |exact Ha2|exact Ha3]. rewrite <- Ep. lia.
Qed.

Lemma IBLOCK_B n : 0 <= n < 200 -> 32 <= IBLOCK n B < 58.
Proof. intros Hn. pose proof (IBLOCK_range B layout_B n Hn) as H. cbn [sb_inodestart sb_bmapstart B] in H. unfold IBLOCK in *. change IPB with 8 in *. cbn [sb_inodestart B] in *. pose proof (Z.div_pos n 8). lia. Qed.
Lemma rinode_ok s V n : view s V -> 0 <= n < 200 -> rinode n s = Ret (disk_inode B V n) s.
Proof.
  intros Hv Hn. pose proof (IBLOCK_B n Hn) as Hb. unfold rinode. rewrite bind_reads, (v_sb _ _ Hv). cbv zeta.
  assert (E : rsect (IBLOCK n B) s = Ret (V (IBLOCK n B)) s) by (apply rsect_ok; [done|lia..]). by rewrite (bind_Ret _ _ _ _ _ E).
Qed.
Lemma winode_ok s V x : view s V -> 0 <= inum x < 200 -> length (addrs x) = S NDIRECT ->
  exists s', winode (inum x) (dinode_of x) s = Ret tt s' /\ view s' (update_view B V x) /\ freeblock s' = freeblock s /\ freeinode s' = freeinode s.
Proof.
  intros Hv Hn Hl. pose proof (IBLOCK_B _ Hn) as Hb. pose proof (v_free _ _ Hv) as Hf. unfold winode. rewrite bind_reads, (v_sb _ _ Hv). cbv zeta.
  assert (E : rsect (IBLOCK (inum x) B) s = Ret (V (IBLOCK (inum x) B)) s) by (apply rsect_ok; [done|lia..]). rewrite (bind_Ret _ _ _ _ _ E).
  assert (Hlv : length (V (IBLOCK (inum x) B)) = BSIZE) by (apply Hv; lia).
  apply (wsect_ok s V Hv); [lia..|]. unfold put_dinode. rewrite length_put_bytes; [done|]. rewrite length_dinode by done. rewrite Hlv. apply dino_fits.
Qed.

(** The blocks of a file and their bytes are as they were. *)
Definition same_file (V V' : Z -> list Z) (y : inode) : Prop :=
  (forall k, (k < MAXFILE)%nat -> fblk V' y k = fblk V y k) /\
  forall p, 0 <= p < maxfile -> fblk V y (Z.to_nat (p / 512)) <> 0 -> fbyte V' y p = fbyte V y p.
Definition shaped (V : Z -> list Z) (x : inode) : Prop := exactly V x (blocks_of (size x)) /\ tailz V x (size x).
Lemma same_shaped V V' y : 0 <= size y -> same_file V V' y -> shaped V y -> shaped V' y.
Proof.
  intros Hs [Hb Hp] [[He Hi] Ht]. split; [split; [|done]; intros k Hk; rewrite Hb by done; by apply He|].
  intros p Hpp Hne. rewrite Hb in Hne by (apply block_of_pos; lia). rewrite Hp by (done || lia). by apply Ht.
Qed.
Lemma update_same V x y : 0 <= inum x < 200 -> file_ok B V y -> same_file V (update_view B V x) y.
Proof.
  intros Hn Hf. assert (Hb : forall k, (k < MAXFILE)%nat -> fblk (update_view B V x) y k = fblk V y k) by (intros k Hk; by apply (update_fblk B layout_B)).
  split; [done|]. intros p Hp Hne. assert (Hk : (Z.to_nat (p / 512) < MAXFILE)%nat) by (apply block_of_pos; lia). unfold fbyte. rewrite BSIZE_eq, Hb by done. f_equal.
  apply (update_view_ne B layout_B); [done|]. apply (bmap_data B layout_B). by apply (fo_data _ _ _ Hf), owned_blk.
Qed.
Lemma extends_same V x V' x' y : extends B V x V' x' -> file_ok B V y -> disjoint_files V x y -> same_file V V' y.
Proof.
  intros He Hf Hd. assert (Hb : forall k, (k < MAXFILE)%nat -> fblk V' y k = fblk V y k) by (intros k Hk; by eapply (other_fblk B V x V' x')).
  split; [done|]. intros p Hp Hne. assert (Hk : (Z.to_nat (p / 512) < MAXFILE)%nat) by (apply block_of_pos; lia). unfold fbyte. rewrite BSIZE_eq, Hb by done. f_equal.
  eapply (other_block B V x V' x'); try done. by apply owned_blk.
Qed.
Lemma same_trans V1 V2 V3 y : same_file V1 V2 y -> same_file V2 V3 y -> same_file V1 V3 y.
Proof.
  intros [B1 P1] [B2 P2]. split; [intros k Hk; rewrite B2 by done; by apply B1|]. intros p Hp Hne. rewrite P2; [by apply P1|done|]. rewrite B1 by (apply block_of_pos; lia). done.
Qed.

(** [iappend] adds the bytes at the end of the file. *)
Record grew (s : mkfs) (V : Z -> list Z) (x : inode) (p : list Z) (s' : mkfs) (V' : Z -> list Z) (x' : inode) : Prop := MkGrew {
  gw_view : view s' V';
  gw_post : write_post B V x V' x' (size x) p;
  gw_shape : shaped V' x';
  gw_size : size x' = size x + Z.of_nat (length p);
  gw_low b : 0 <= b < 32 -> V' b = V b;
  gw_other y : file_ok B V y -> disjoint_files V x y -> same_file V V' y;
  gw_free : freeblock s' = freeblock s + cost (blocks_of (size x + Z.of_nat (length p))) - cost (blocks_of (size x));
  gw_inode : freeinode s' = freeinode s
}.
Lemma iappend_ok s V x p : view s V -> file_ok B V x -> synced B V x -> shorts_ok x -> 0 <= inum x < 200 -> shaped V x -> (0 < length p)%nat ->
  size x + Z.of_nat (length p) <= maxfile -> freeblock s + cost (blocks_of (size x + Z.of_nat (length p))) - cost (blocks_of (size x)) <= 1000 ->
  exists s' V' x', iappend (inum x) p (Z.of_nat (length p)) s = Ret tt s' /\ grew s V x p s' V' x'.
Proof.
  intros Hv Hf Hsy Hsh Hn [He Ht] Hp Hmax Hroom. pose proof (fo_size _ _ _ Hf) as Hsz. assert (Hmw : maxfile < W32) by done. unfold iappend.
  rewrite (bind_Ret _ _ _ _ _ (rinode_ok s V (inum x) Hv Hn)). rewrite Hsy. cbn [d_size dinode_of]. rewrite xint_id by lia. rewrite Nat2Z.id.
  destruct (iappend_loop_ok (length p) s V x (size x) p) as (s1 & V1 & x1 & E1 & [Hv1 Hw1 He1 Ht1 F1 I1]); try done; [lia|].
  rewrite (bind_Ret _ _ _ _ _ E1). cbn [fst snd]. rewrite xint_id by lia.
  pose proof (IBLOCK_B _ Hn) as HI. destruct (post_grown B layout_B V x V1 x1 (size x) p Hf Hn Hsh Hw1) as [Hf2 Hpost]; [lia|done|lia|intros b Hb; apply Hv1; exact Hb|rewrite nblk_B; lia|].
  set (x2 := set_size (size x + Z.of_nat (length p)) x1) in *. pose proof (wr_ext _ _ _ _ _ _ _ Hw1) as Hext.
  assert (Hin : inum x2 = inum x) by (unfold x2; by rewrite (ex_x _ _ _ _ _ Hext)). assert (Hn2 : 0 <= inum x2 < 200) by (by rewrite Hin).
  destruct (winode_ok s1 V1 x2 Hv1 Hn2 (fo_len _ _ _ Hf2)) as (s2 & E2 & Hv2 & F2 & I2). rewrite Hin in E2.
  exists s2, (update_view B V1 x2), x2. split; [exact E2|]. split; try done; [|intros b Hb|intros y Hy Hd|lia|congruence].
  - apply (same_shaped V1); [unfold x2; cbn; lia|by apply update_same|]. by split.
  - unfold update_view. rewrite Hin, fn_lookup_insert_ne by lia. apply (ex_low _ _ _ _ _ Hext). cbn. lia.
  - eapply same_trans; [by eapply extends_same|]. apply update_same; [done|]. by eapply (other_file B layout_B V x V1 x1).
Qed.

(** ** The file system so far *)
Definition total (cs : list (list Z)) : Z := foldr (fun c a => cost (blocks_of (Z.of_nat (length c))) + a) 0 cs.
Lemma total_app a b : total (a ++ b) = total a + total b.
Proof. unfold total. induction a as [|c a IH]; [done|]. cbn [app foldr]. rewrite IH. lia. Qed.
(** The blocks before the inodes: the boot block, the super block and an empty log. *)
Definition low_block (b : Z) : list Z := if decide (b = 1) then put_bytes zeroes 0 (sb_bytes new_sb) else zeroes.

(** [es] are the entries of the root directory, [cs] the contents of the files, whose inodes
    follow the root's. *)
Record built (s : mkfs) (V : Z -> list Z) (es : list (Z * list Z)) (cs : list (list Z)) : Prop := MkBuilt {
  bu_view : view s V;
  bu_fs : fs_ok B V;
  bu_next : freeinode s = 2 + Z.of_nat (length cs) /\ freeinode s <= 200;
  bu_none n : freeinode s <= n < 200 -> d_type (disk_inode B V n) = 0;
  bu_shape n : 1 <= n < freeinode s -> shaped V (ino B V n);
  bu_root : d_type (disk_inode B V 1) = T_DIR /\ d_nlink (disk_inode B V 1) = 1;
  bu_entries : entries B V 1 = es;
  bu_file j c : cs !! j = Some c -> let n := 2 + Z.of_nat j in
    d_type (disk_inode B V n) = T_FILE /\ d_nlink (disk_inode B V n) = 1 /\ data B V n = c;
  bu_low b : 0 <= b < 32 -> V b = low_block b;
  bu_free : freeblock s = 59 + cost (blocks_of (sizeof_de * Z.of_nat (length es))) + total cs
}.

Lemma dinode_ino V n : dinode_of (ino B V n) = disk_inode B V n.
Proof. unfold ino. by destruct (disk_inode B V n). Qed.
Lemma ino_synced V n : synced B V (ino B V n).
Proof. unfold synced. by rewrite dinode_ino. Qed.

Section built_facts.
Context s V es cs (Hb : built s V es cs).
Lemma bu_kind n : 1 <= n < freeinode s -> regular B V n /\ d_nlink (disk_inode B V n) = 1.
Proof.
  intros Hn. pose proof (bu_next _ _ _ _ Hb) as [Hnx Hmax]. unfold regular. change (sb_ninodes B) with 200. destruct (decide (n = 1)) as [->|Hne].
  - destruct (bu_root _ _ _ _ Hb) as [-> ->]. by split_and!.
  - destruct (lookup_lt_is_Some_2 cs (Z.to_nat (n - 2)) ltac:(lia)) as [c Hc]. destruct (bu_file _ _ _ _ Hb _ _ Hc) as (H1 & H2 & _).
    replace (2 + Z.of_nat (Z.to_nat (n - 2))) with n in * by lia. rewrite H1, H2. split_and!; (done || lia).
Qed.
Lemma bu_dir : dir_ok B V 1 /\ d_size (disk_inode B V 1) = sizeof_de * Z.of_nat (length es).
Proof.
  destruct (bu_root _ _ _ _ Hb) as [Ht Hl]. assert (Hd : dir_ok B V 1) by (apply (fk_dirs _ _ (bu_fs _ _ _ _ Hb)); [done|done|by rewrite Hl]). split; [done|].
  destruct (slots_eq B V 1 Hd) as (H0 & _ & Hz & Hlen). rewrite (bu_entries _ _ _ _ Hb) in Hlen. rewrite Hlen, Z2Nat.id; [done|]. apply Z.div_pos; [done|]. done.
Qed.
Lemma bu_size j c : cs !! j = Some c -> d_size (disk_inode B V (2 + Z.of_nat j)) = Z.of_nat (length c).
Proof.
  intros Hc. destruct (bu_file _ _ _ _ Hb _ _ Hc) as (_ & _ & Hd). pose proof (lookup_lt_Some _ _ _ Hc) as Hj. destruct (bu_next _ _ _ _ Hb) as [Hnx _].
  destruct (bu_kind (2 + Z.of_nat j) ltac:(lia)) as [Hr _]. pose proof (fo_size _ _ _ (fk_file _ _ (bu_fs _ _ _ _ Hb) _ Hr)) as Hs. cbn [size ino] in Hs.
  rewrite <- Hd, length_data. lia.
Qed.

(** Appending to any of the files. *)
Lemma append_any n p : 1 <= n < freeinode s -> (0 < length p)%nat -> let z := d_size (disk_inode B V n) in
  z + Z.of_nat (length p) <= maxfile -> freeblock s + cost (blocks_of (z + Z.of_nat (length p))) - cost (blocks_of z) <= 1000 ->
  exists s' V' x', iappend n p (Z.of_nat (length p)) s = Ret tt s' /\ grew s V (ino B V n) p s' V' x' /\
    (forall m, 1 <= m < freeinode s -> shaped V' (ino B V' m)) /\ (forall m, freeinode s <= m < 200 -> d_type (disk_inode B V' m) = 0).
Proof.
  intros Hn Hp z Hmax Hroom. destruct (bu_kind n Hn) as [Hr _]. pose proof (bu_fs _ _ _ _ Hb) as Hfs. pose proof (fk_file _ _ Hfs n Hr) as Hf. destruct (bu_next _ _ _ _ Hb) as [Hnx Hm200].
  destruct (iappend_ok s V (ino B V n) p) as (s' & V' & x' & E & Hg); try done; [apply Hb|exact (synced_shorts B V _ (ino_synced V n))|cbn; lia|by apply (bu_shape _ _ _ _ Hb)|].
  exists s', V', x'. split; [exact E|]. split; [done|]. pose proof (gw_post _ _ _ _ _ _ _ Hg) as Hpost. split.
  - intros m Hm. destruct (bu_kind m Hm) as [Hrm _]. destruct (decide (m = n)) as [->|Hne].
    + destruct (wr_ino B V V' n (ino B V n) x' _ p eq_refl eq_refl Hpost) as (_ & Es & Ea & _). destruct (gw_shape _ _ _ _ _ _ _ Hg) as [He Ht].
      unfold shaped, exactly, tailz, fbyte, fblk in *. by rewrite Es, Ea.
    + destruct (wr_inode B V V' n (ino B V n) x' _ p eq_refl Hpost m ltac:(cbn; lia) Hne) as [_ ->]. pose proof (fk_file _ _ Hfs m Hrm) as Hfm.
      apply (same_shaped V); [apply Hfm|apply (gw_other _ _ _ _ _ _ _ Hg); [done|]|by apply (bu_shape _ _ _ _ Hb)].
      by apply (fk_disj _ _ Hfs n m Hr Hrm (not_eq_sym Hne)).
  - intros m Hm. destruct (wr_inode B V V' n (ino B V n) x' _ p eq_refl Hpost m ltac:(cbn; lia) ltac:(lia)) as [-> _]. by apply (bu_none _ _ _ _ Hb).
Qed.
End built_facts.

(** An entry of the root directory. *)
Definition short_name (name : list Z) : list Z := take DIRSIZ name.
Lemma short_dirent name num : make_dirent (short_name name) num = make_dirent name num.
Proof.
  unfold make_dirent, strncpy, short_name. f_equal. destruct (decide (length name <= DIRSIZ)%nat) as [Hl|Hl]; [by rewrite (take_ge name) by done|].
  rewrite !take_app_le by (rewrite ?length_take; lia). by rewrite take_take, Nat.min_id.
Qed.
Lemma short_name_ok name : Forall (fun c => c <> 0) name -> name_ok (short_name name).
Proof. intros Hz. split; [by apply Forall_take|]. unfold short_name. rewrite length_take. lia. Qed.
Lemma add_entry_ok s V es cs name num : built s V es cs -> 1 <= num < freeinode s -> Forall (fun c => c <> 0) name ->
  let z := sizeof_de * Z.of_nat (length es) in z + sizeof_de <= maxfile -> freeblock s + cost (blocks_of (z + sizeof_de)) - cost (blocks_of z) <= 1000 ->
  exists s' V', iappend 1 (make_dirent name num) sizeof_de s = Ret tt s' /\ built s' V' (es ++ [(num, short_name name)]) cs.
Proof.
  intros Hb Hnum Hz z Hmax Hroom. destruct (bu_dir _ _ _ _ Hb) as [Hd Hsz]. destruct (bu_next _ _ _ _ Hb) as [Hnx H200].
  destruct (make_dirent_entry (short_name name) num (short_name_ok name Hz) ltac:(lia)) as [Hent Hlen]. rewrite short_dirent in Hent, Hlen. set (src := make_dirent name num) in *.
  assert (Els : Z.of_nat (length src) = sizeof_de) by (by rewrite Hlen). pose proof (append_any s V es cs Hb 1 src) as Hap. rewrite Els, Hsz in Hap.
  destruct Hap as (s' & V' & x' & E & Hg & Hsh & Hnone); [lia|rewrite Hlen; unfold sizeof_dirent; lia|done|done|]. exists s', V'. split; [exact E|].
  pose proof (gw_post _ _ _ _ _ _ _ Hg) as Hpost. destruct (bu_root _ _ _ _ Hb) as [Ht Hl].
  assert (He : entry_written B V 1 (length es) (num, short_name name) V').
  { rewrite <- Hent. apply (post_entry B V V' 1 (ino B V 1) x'); try done; [apply Hb|by rewrite Hl| |by rewrite (bu_entries _ _ _ _ Hb)].
    cbn [size ino] in Hpost. rewrite Hsz in Hpost. by rewrite Z.mul_comm. }
  destruct (bu_kind _ _ _ _ Hb num Hnum) as [(Hr & Hrt & _) Hnl].
  split; try (rewrite (gw_inode _ _ _ _ _ _ _ Hg); try done).
  - apply Hg.
  - apply (ew_fs _ _ _ _ _ _ He). right. cbn [fst]. split; [exact Hr|]. by rewrite Hnl.
  - destruct (ew_kind _ _ _ _ _ _ He 1 ltac:(done)) as [-> ->]. done.
  - rewrite (ew_entries _ _ _ _ _ _ He), (bu_entries _ _ _ _ Hb). unfold put_entry. by rewrite decide_False by lia.
  - intros j c Hc n. pose proof (lookup_lt_Some _ _ _ Hc) as Hj. destruct (bu_file _ _ _ _ Hb j c Hc) as (H1 & H2 & H3).
    destruct (bu_kind _ _ _ _ Hb n ltac:(unfold n; lia)) as [Hrn _]. rewrite (ew_inode _ _ _ _ _ _ He n) by (unfold n; cbn; lia). split_and!; [done..|].
    rewrite (ew_data _ _ _ _ _ _ He n Hrn) by (unfold n; lia). done.
  - intros b Hbb. rewrite (gw_low _ _ _ _ _ _ _ Hg) by done. by apply (bu_low _ _ _ _ Hb).
  - rewrite (gw_free _ _ _ _ _ _ _ Hg), Els, (bu_free _ _ _ _ Hb). cbn [size ino]. rewrite Hsz. rewrite length_app. cbn [length].
    replace (sizeof_de * Z.of_nat (length es + 1)) with (sizeof_de * Z.of_nat (length es) + sizeof_de) by lia. lia.
Qed.

(** More bytes for the last file. *)
Lemma append_file_ok s V es cs c p : built s V es (cs ++ [c]) -> (0 < length p)%nat -> let z := Z.of_nat (length c) in z + Z.of_nat (length p) <= maxfile ->
  freeblock s + cost (blocks_of (z + Z.of_nat (length p))) - cost (blocks_of z) <= 1000 ->
  exists s' V', iappend (2 + Z.of_nat (length cs)) p (Z.of_nat (length p)) s = Ret tt s' /\ built s' V' es (cs ++ [c ++ p]).
Proof.
  intros Hb Hp z Hmax Hroom. set (n := 2 + Z.of_nat (length cs)). destruct (bu_next _ _ _ _ Hb) as [Hnx H200]. rewrite length_app in Hnx. cbn [length] in Hnx.
  assert (Hc : (cs ++ [c]) !! length cs = Some c) by (by apply list_lookup_middle). pose proof (bu_size _ _ _ _ Hb _ _ Hc) as Hsz. destruct (bu_file _ _ _ _ Hb _ _ Hc) as (Ht & Hl & Hdata). fold n in Hsz, Ht, Hl, Hdata.
  pose proof (append_any _ _ _ _ Hb n p) as Hap. rewrite Hsz in Hap. destruct Hap as (s' & V' & x' & E & Hg & Hsh & Hnone); [lia|lia|done|done|]. exists s', V'. split; [exact E|].
  pose proof (gw_post _ _ _ _ _ _ _ Hg) as Hpost. destruct (bu_kind _ _ _ _ Hb n ltac:(lia)) as [Hr _]. pose proof (bu_fs _ _ _ _ Hb) as Hfs.
  assert (Hkind : forall m, 0 < m < 200 -> d_type (disk_inode B V' m) = d_type (disk_inode B V m) /\ d_nlink (disk_inode B V' m) = d_nlink (disk_inode B V m))
    by (intros m Hm; by apply (wr_kind B V V' n (ino B V n) x' _ p eq_refl eq_refl (ino_synced V n) Hpost)).
  destruct (bu_root _ _ _ _ Hb) as [Ht1 Hl1]. destruct (bu_dir _ _ _ _ Hb) as [Hd1 _].
  split; try (rewrite (gw_inode _ _ _ _ _ _ _ Hg); try done).
  - apply Hg.
  - apply (post_file B V V' n (ino B V n) x' (size (ino B V n)) p); try done; by rewrite Ht.
  - rewrite length_app. cbn. lia.
  - destruct (Hkind 1 ltac:(lia)) as [-> ->]. done.
  - destruct (wr_dir B V V' n (ino B V n) x' _ p Hfs Hr eq_refl eq_refl (ino_synced V n) Hpost 1 Hd1 Ht1 ltac:(lia)) as [-> _]. apply Hb.
  - intros j c' Hc' m. destruct (decide (j = length cs)) as [->|Hj].
    + rewrite list_lookup_middle in Hc' by done. injection Hc' as <-. destruct (Hkind n ltac:(lia)) as [E1 E2]. fold n in m. unfold m. rewrite E1, E2. split_and!; [done..|].
      rewrite (wr_data B V V' n (ino B V n) x' _ p eq_refl eq_refl (ino_synced V n) Hpost). rewrite Hdata. cbn [size ino]. rewrite Hsz, Nat2Z.id. by rewrite take_ge, drop_ge, app_nil_r by lia.
    + assert (Hjc : (cs ++ [c]) !! j = Some c').
      { pose proof (lookup_lt_Some _ _ _ Hc') as Hlt. rewrite length_app in Hlt. cbn in Hlt. rewrite lookup_app_l in Hc' |- * by lia. done. }
      pose proof (lookup_lt_Some _ _ _ Hjc) as Hlt. rewrite length_app in Hlt. cbn in Hlt. destruct (bu_file _ _ _ _ Hb j c' Hjc) as (H1 & H2 & H3). fold m in H1, H2, H3.
      destruct (Hkind m ltac:(unfold m; lia)) as [E1 E2]. rewrite E1, E2. split_and!; [done..|]. destruct (bu_kind _ _ _ _ Hb m ltac:(unfold m; lia)) as [Hrm _]. rewrite <- H3.
      by apply (wr_other B V V' n (ino B V n) x' _ p Hfs Hr eq_refl eq_refl (ino_synced V n) Hpost m Hrm ltac:(unfold m, n; lia)).
  - intros b Hbb. rewrite (gw_low _ _ _ _ _ _ _ Hg) by done. by apply (bu_low _ _ _ _ Hb).
  - rewrite (gw_free _ _ _ _ _ _ _ Hg), (bu_free _ _ _ _ Hb). cbn [size ino]. rewrite Hsz. rewrite !total_app. cbn [total foldr]. rewrite length_app, Nat2Z.inj_add. fold z. lia.
Qed.

(** ** New inodes *)
Definition fresh (ty n : Z) : inode := MkInode 1 n 1 SleepLock.initsleeplock 1 ty 0 0 1 0 (replicate (S NDIRECT) 0).
Lemma ialloc_ok s V ty : view s V -> 1 <= freeinode s < 200 -> ty = T_DIR \/ ty = T_FILE ->
  exists s', ialloc ty s = Ret (freeinode s) s' /\ view s' (update_view B V (fresh ty (freeinode s))) /\ freeblock s' = freeblock s /\ freeinode s' = freeinode s + 1.
Proof.
  intros Hv Hn Hty. set (n := freeinode s) in *. unfold ialloc. rewrite bind_reads. fold n. rewrite bind_modify, u32_id by lia. set (s1 := set_freeinode (n + 1) s).
  assert (Hv1 : view s1 V) by (by destruct Hv). destruct (winode_ok s1 V (fresh ty n) Hv1) as (s2 & E & Hv2 & F2 & I2); [cbn; lia|done|].
  exists s2. split_and!; [|done..]. assert (Ed : MkDinode (i16 (xshort ty)) 0 0 (i16 (xshort 1)) (xint 0) (replicate (S NDIRECT) 0) = dinode_of (fresh ty n)) by (by destruct Hty as [-> | ->]).
  rewrite Ed, (bind_Ret _ _ _ _ _ E). done.
Qed.
Lemma fresh_shaped V ty n : shaped V (fresh ty n).
Proof.
  destruct (no_blocks V (fresh ty n) eq_refl) as [Hb _]. unfold shaped. change (blocks_of (size (fresh ty n))) with 0%nat. split; [split|].
  - intros k Hk. rewrite Hb by done. split; [done|lia].
  - cbn [addrs fresh]. rewrite lookup_total_replicate_2 by lia. split; [done|lia].
  - intros p Hp. cbn in Hp. rewrite Hb; [done|]. apply block_of_pos. lia.
Qed.
Lemma new_file_ok s V es cs : built s V es cs -> freeinode s < 200 ->
  exists s' V', ialloc T_FILE s = Ret (2 + Z.of_nat (length cs)) s' /\ built s' V' es (cs ++ [[]]).
Proof.
  intros Hb Hlt. destruct (bu_next _ _ _ _ Hb) as [Hnx H200]. pose proof (bu_view _ _ _ _ Hb) as Hv. pose proof (bu_fs _ _ _ _ Hb) as Hfs.
  destruct (ialloc_ok s V T_FILE Hv ltac:(lia) ltac:(by right)) as (s' & E & Hv' & F & I). set (n := freeinode s) in *. set (x := fresh T_FILE n) in *. set (V' := update_view B V x) in *.
  exists s', V'. rewrite <- Hnx. split; [done|]. assert (Hnx' : 0 < inum x < sb_ninodes B) by (cbn; lia). assert (Hfree : d_type (disk_inode B V (inum x)) = 0) by (apply (bu_none _ _ _ _ Hb); cbn; lia).
  assert (Hlen : length (V (IBLOCK (inum x) B)) = BSIZE) by (apply Hv; pose proof (IBLOCK_B (inum x) ltac:(cbn; lia)); lia).
  pose proof (cr_sync B layout_B V x eq_refl ltac:(done) eq_refl eq_refl ltac:(done) Hlen) as Hsy. fold V' in Hsy.
  assert (Hold : forall m, 1 <= m < n -> disk_inode B V' m = disk_inode B V m /\ ino B V' m = ino B V m).
  { intros m Hm. split; [apply (cr_inode B V x)|apply (cr_ino B V x)]; try done; cbn; lia. }
  destruct (bu_root _ _ _ _ Hb) as [Ht1 Hl1]. destruct (bu_dir _ _ _ _ Hb) as [Hd1 _]. destruct (Hold 1 ltac:(lia)) as [E1 _].
  split.
  - done.
  - by apply (created_ok B layout_B V x).
  - rewrite length_app. cbn. lia.
  - intros m Hm. rewrite (cr_inode B V x) by (try done; cbn; lia). apply (bu_none _ _ _ _ Hb). fold n. lia.
  - intros m Hm. destruct (decide (m = n)) as [->|Hne].
    + assert (ino B V' n = x) as -> by (unfold ino; unfold synced in Hsy; cbn [inum x fresh] in Hsy; by rewrite Hsy). apply fresh_shaped.
    + destruct (Hold m ltac:(lia)) as [_ ->]. destruct (bu_kind _ _ _ _ Hb m ltac:(fold n; lia)) as [Hr _]. pose proof (fk_file _ _ Hfs m Hr) as Hfm.
      apply (same_shaped V); [apply Hfm|apply update_same; [cbn; lia|done]|]. apply (bu_shape _ _ _ _ Hb). fold n. lia.
  - by rewrite E1.
  - assert (Hr1 : regular B V 1) by (split; [done|by rewrite Ht1]).
    unfold V'. rewrite (cr_entries B layout_B V x Hfs Hnx' Hfree eq_refl ltac:(done) eq_refl eq_refl Hlen 1 Hr1 Hd1). apply Hb.
  - intros j c Hc m. destruct (decide (j = length cs)) as [->|Hj].
    + rewrite list_lookup_middle in Hc by done. injection Hc as <-. unfold m. rewrite <- Hnx. unfold synced in Hsy. cbn [inum x fresh] in Hsy. unfold data. rewrite Hsy. done.
    + pose proof (lookup_lt_Some _ _ _ Hc) as Hjl. rewrite length_app in Hjl. cbn in Hjl. rewrite lookup_app_l in Hc by lia. destruct (bu_file _ _ _ _ Hb j c Hc) as (H1 & H2 & H3).
      destruct (Hold m ltac:(unfold m; lia)) as [-> _]. split_and!; [done..|]. rewrite (cr_data B layout_B V x); try done. apply (bu_kind _ _ _ _ Hb). fold n. unfold m. lia.
  - intros b Hbb. unfold V', update_view. pose proof (IBLOCK_B (inum x) ltac:(cbn; lia)). rewrite fn_lookup_insert_ne by lia. by apply (bu_low _ _ _ _ Hb).
  - rewrite F, (bu_free _ _ _ _ Hb), total_app. cbn [total foldr length]. change (cost (blocks_of (Z.of_nat 0))) with 0. lia.
Qed.

(** ** The files of the host *)
Lemma cost_pos m : 0 <= cost m.
Proof. unfold cost. case_decide; lia. Qed.
Lemma total_pos cs : 0 <= total cs.
Proof. unfold total. induction cs as [|c cs IH]; [done|]. cbn [foldr]. pose proof (cost_pos (blocks_of (Z.of_nat (length c)))). lia. Qed.
Lemma total_one c : total [c] = cost (blocks_of (Z.of_nat (length c))).
Proof. cbn. lia. Qed.

Definition contents (f : host_file) : list Z := match h_reads f with Some l => concat l | None => [] end.
Record host_ok (f : host_file) : Prop := MkHostOk {
  ho_name : Forall (fun c => c <> 0 /\ c <> 47) (h_name f);
  ho_reads : exists l, h_reads f = Some l /\ Forall (fun b => (0 < length b)%nat) l;
  ho_size : Z.of_nat (length (contents f)) <= maxfile
}.
(** The entries of the files, whose inodes are numbered from [n]. *)
Fixpoint file_entries (n : Z) (fs : list host_file) : list (Z * list Z) :=
  match fs with
  | [] => []
  | f :: fs => (n, short_name (image_name (h_name f))) :: file_entries (n + 1) fs
  end.
Lemma length_file_entries n fs : length (file_entries n fs) = length fs.
Proof. revert n. induction fs as [|f fs IH]; intros n; [done|]. cbn. by rewrite IH. Qed.

Lemma append_all_ok l : forall s V es cs c, built s V es (cs ++ [c]) -> Forall (fun b => (0 < length b)%nat) l ->
  let z := Z.of_nat (length c + length (concat l)) in z <= maxfile -> freeblock s + cost (blocks_of z) - cost (blocks_of (Z.of_nat (length c))) <= 1000 ->
  exists s' V', append_all (2 + Z.of_nat (length cs)) l s = Ret tt s' /\ built s' V' es (cs ++ [c ++ concat l]).
Proof.
  induction l as [|b l IH]; intros s V es cs c Hb Hl z Hmax Hroom; [exists s, V; split; [done|]; by rewrite app_nil_r|].
  inversion_clear Hl as [|? ? Hb0 Hl']. cbn [append_all concat] in *. unfold z in *. rewrite length_app in *. destruct (Z.ltb_spec 0 (Z.of_nat (length b))) as [_|]; [|lia].
  assert (Hm : (blocks_of (Z.of_nat (length c) + Z.of_nat (length b)) <= blocks_of (Z.of_nat (length c + (length b + length (concat l)))))%nat) by (apply blocks_mono; lia). pose proof (cost_mono _ _ Hm) as Hcm.
  destruct (append_file_ok s V es cs c b Hb Hb0 ltac:(lia) ltac:(lia)) as (s1 & V1 & E1 & Hb1). rewrite (bind_Ret _ _ _ _ _ E1).
  assert (Hfr : freeblock s1 = freeblock s + cost (blocks_of (Z.of_nat (length c) + Z.of_nat (length b))) - cost (blocks_of (Z.of_nat (length c)))).
  { rewrite (bu_free _ _ _ _ Hb), (bu_free _ _ _ _ Hb1), !total_app, !total_one, length_app, Nat2Z.inj_add. lia. }
  rewrite (assoc_L (++)). apply (IH s1 V1 es cs (c ++ b) Hb1 Hl'); rewrite length_app; replace (length c + length b + length (concat l))%nat with (length c + (length b + length (concat l)))%nat by lia; [done|].
  rewrite (Nat2Z.inj_add (length c) (length b)). lia.
Qed.

Lemma image_name_ok name : Forall (fun c => c <> 0 /\ c <> 47) name -> Forall (fun c => c <> 0) (image_name name) /\ forallb (fun c => negb (c =? 47)) name = true.
Proof.
  intros Hn. split.
  - assert (Hz : Forall (fun c => c <> 0) name) by (eapply Forall_impl; [exact Hn|by intros ? []]). unfold image_name. destruct name as [|c rest]; [done|]. case_match; [by inversion Hz|done].
  - rewrite forallb_forall. intros c Hc%list_elem_of_In. rewrite Forall_forall in Hn. destruct (Hn c Hc) as [_ Hs]. by rewrite (proj2 (Z.eqb_neq _ _) Hs).
Qed.
Lemma add_host_file_ok s V es cs f : built s V es cs -> host_ok f -> 3 + Z.of_nat (length cs) <= 200 -> (length es <= 200)%nat ->
  59 + cost (blocks_of (sizeof_de * Z.of_nat (S (length es)))) + total (cs ++ [contents f]) <= 1000 ->
  exists s' V', add_file 1 f s = Ret tt s' /\ built s' V' (es ++ [(2 + Z.of_nat (length cs), short_name (image_name (h_name f)))]) (cs ++ [contents f]).
Proof.
  intros Hb [Hname (l & El & Hl) Hsz] Hn Hes Hroom. destruct (image_name_ok _ Hname) as [Hz Hslash]. unfold add_file. unfold assert. rewrite Hslash, (bind_Ret _ _ _ _ _ eq_refl), El. unfold contents in *. rewrite El in *.
  destruct (bu_next _ _ _ _ Hb) as [Hnx _]. destruct (new_file_ok s V es cs Hb ltac:(lia)) as (s1 & V1 & E1 & Hb1). rewrite (bind_Ret _ _ _ _ _ E1). set (n := 2 + Z.of_nat (length cs)) in *.
  rewrite xshort_id by (unfold n; lia). destruct (bu_next _ _ _ _ Hb1) as [Hnx1 _]. rewrite length_app in Hnx1. cbn in Hnx1.
  rewrite total_app, total_one in Hroom. pose proof (bu_free _ _ _ _ Hb1) as Hf1. rewrite total_app, total_one in Hf1. change (cost (blocks_of (Z.of_nat (length [])))) with 0 in Hf1.
  pose proof (cost_pos (blocks_of (Z.of_nat (length (concat l))))) as Hcp. assert (Esz : sizeof_de * Z.of_nat (S (length es)) = sizeof_de * Z.of_nat (length es) + sizeof_de) by lia. rewrite Esz in Hroom.
  destruct (add_entry_ok s1 V1 es _ (image_name (h_name f)) n Hb1) as (s2 & V2 & E2 & Hb2); [unfold n; lia|done|change sizeof_de with 16; change maxfile with 71680; lia|lia|].
  rewrite (bind_Ret _ _ _ _ _ E2). pose proof (bu_free _ _ _ _ Hb2) as Hf2. rewrite total_app, total_one, length_app in Hf2. change (cost (blocks_of (Z.of_nat (length [])))) with 0 in Hf2. cbn [length] in Hf2. rewrite Nat.add_1_r, Esz in Hf2.
  destruct (append_all_ok l s2 V2 _ cs [] Hb2 Hl) as (s3 & V3 & E3 & Hb3); cbn [length Nat.add]; [done|change (cost (blocks_of (Z.of_nat 0))) with 0; lia|]. exists s3, V3. split; [exact E3|exact Hb3].
Qed.

Lemma add_files_ok fs : forall s V es cs, built s V es cs -> Forall host_ok fs -> 2 + Z.of_nat (length cs + length fs) <= 200 -> (length es + length fs <= 200)%nat ->
  59 + cost (blocks_of (sizeof_de * Z.of_nat (length es + length fs))) + total (cs ++ map contents fs) <= 1000 ->
  exists s' V', add_files 1 fs s = Ret tt s' /\ built s' V' (es ++ file_entries (2 + Z.of_nat (length cs)) fs) (cs ++ map contents fs).
Proof.
  induction fs as [|f fs IH]; intros s V es cs Hb Hfs Hn Hes Hroom; [exists s, V; split; [done|]; by rewrite !app_nil_r|].
  inversion_clear Hfs as [|? ? Hf Hfs']. cbn [length map add_files file_entries] in *. rewrite total_app in Hroom. change (contents f :: map contents fs) with ([contents f] ++ map contents fs) in *. rewrite total_app in Hroom.
  pose proof (total_pos (map contents fs)) as Htp.
  assert (Hm : (blocks_of (sizeof_de * Z.of_nat (S (length es))) <= blocks_of (sizeof_de * Z.of_nat (length es + S (length fs))))%nat) by (apply blocks_mono; change sizeof_de with 16; lia). pose proof (cost_mono _ _ Hm) as Hcm.
  destruct (add_host_file_ok s V es cs f Hb Hf) as (s1 & V1 & E1 & Hb1); [lia|lia|rewrite total_app; lia|]. rewrite (bind_Ret _ _ _ _ _ E1).
  destruct (IH s1 V1 _ _ Hb1 Hfs') as (s2 & V2 & E2 & Hb2); rewrite ?length_app; cbn [length]; [lia|lia| |].
  - rewrite <- (assoc_L (++)), !total_app. replace (length es + 1 + length fs)%nat with (length es + S (length fs))%nat by lia. lia.
  - exists s2, V2. split; [done|]. rewrite length_app in Hb2. cbn [length] in Hb2. replace (2 + Z.of_nat (length cs + 1)) with (2 + Z.of_nat (length cs) + 1) in Hb2 by lia. by rewrite <- !(assoc_L (++)) in Hb2.
Qed.

(** ** The end: the size of the root directory *)
Section resized.
Context s V es cs (Hb : built s V es cs) (z' : Z).
Let z := sizeof_de * Z.of_nat (length es).
Hypotheses (Hz : z <= z' <= maxfile) (Hmod : z' mod sizeof_de = 0) (Hblk : blocks_of z' = blocks_of z).
Let x := set_size z' (ino B V 1).
Let V' := update_view B V x.

Lemma rs_root : dir_ok B V 1 /\ file_ok B V (ino B V 1) /\ d_size (disk_inode B V 1) = z.
Proof. destruct (bu_dir _ _ _ _ Hb) as [Hd Hs]. split_and!; [done|apply Hd|done]. Qed.
Lemma rs_blocks k : (k < MAXFILE)%nat -> Z.of_nat k * 512 < z' -> fblk V (ino B V 1) k <> 0.
Proof.
  intros Hk Hlt. destruct (bu_next _ _ _ _ Hb) as [Hnx _]. destruct (bu_shape _ _ _ _ Hb 1 ltac:(lia)) as [[He _] _]. apply He; [done|]. destruct rs_root as (_ & _ & Hs). cbn [size ino]. rewrite Hs, <- Hblk.
  pose proof (blocks_mono (Z.of_nat k * 512 + 1) z' ltac:(lia)) as Hm. rewrite (blocks_in _ (Z.of_nat k)) in Hm by lia. rewrite Nat2Z.id in Hm. lia.
Qed.
Lemma rs_file : file_ok B V x.
Proof. destruct rs_root as (_ & Hf & _). pose proof (fo_size _ _ _ Hf). destruct rs_root as (_ & _ & Hs). apply resize_ok; [done|cbn [size ino] in *; lia|]. apply rs_blocks. Qed.
Lemma rs_len : length (V (IBLOCK (inum x) B)) = BSIZE.
Proof. pose proof (IBLOCK_B (inum x) ltac:(cbn; lia)). apply (bu_view _ _ _ _ Hb). lia. Qed.
Lemma rs_sync : disk_inode B V' 1 = dinode_of x.
Proof.
  apply (update_synced B layout_B V x); [apply rs_file| |apply rs_len]. apply (synced_shorts B V (ino B V 1)), ino_synced.
Qed.
Lemma rs_other m : 0 <= m -> m <> 1 -> disk_inode B V' m = disk_inode B V m /\ ino B V' m = ino B V m.
Proof. intros Hm Hne. assert (E : disk_inode B V' m = disk_inode B V m) by (apply update_other; [apply rs_file|apply rs_len|done..]). split; [done|]. unfold ino. by rewrite E. Qed.
Lemma rs_kind m : 0 <= m -> d_type (disk_inode B V' m) = d_type (disk_inode B V m) /\ d_nlink (disk_inode B V' m) = d_nlink (disk_inode B V m) /\ addrs (ino B V' m) = addrs (ino B V m).
Proof. intros Hm. destruct (decide (m = 1)) as [->|Hne]; [unfold ino; by rewrite rs_sync|destruct (rs_other m Hm Hne) as [-> ->]; done]. Qed.
Lemma rs_regular m : regular B V' m <-> regular B V m.
Proof. unfold regular. split; intros (Hm & ?); destruct (rs_kind m ltac:(lia)) as (E & _); [rewrite <- E|rewrite E]; done. Qed.
Lemma rs_same y : file_ok B V y -> same_file V V' y.
Proof. apply update_same. cbn. lia. Qed.
Lemma rs_owned m a : regular B V m -> owned V' (ino B V' m) a <-> owned V (ino B V m) a.
Proof.
  intros Hm. destruct (rs_kind m ltac:(destruct Hm; lia)) as (_ & _ & Ea). rewrite (owned_addrs V' _ (ino B V m)) by done. apply owned_ext.
  apply rs_same, (fk_file _ _ (bu_fs _ _ _ _ Hb) m Hm).
Qed.
Lemma rs_files m : regular B V m -> file_ok B V' (ino B V' m).
Proof.
  intros Hm. destruct (decide (m = 1)) as [->|Hne].
  - assert (ino B V' 1 = x) as -> by (unfold ino; by rewrite rs_sync). apply (update_file B layout_B); [cbn; lia|apply rs_file].
  - destruct (rs_other m ltac:(destruct Hm; lia) Hne) as [_ ->]. apply (update_file B layout_B); [cbn; lia|]. by apply (fk_file _ _ (bu_fs _ _ _ _ Hb)).
Qed.
Lemma rs_data m : regular B V m -> m <> 1 -> data B V' m = data B V m.
Proof.
  intros Hm Hne. pose proof (fk_file _ _ (bu_fs _ _ _ _ Hb) m Hm) as Hf. destruct (rs_other m ltac:(destruct Hm; lia) Hne) as [E1 E2]. unfold data. rewrite E1, E2. apply fbytes_ext. intros p Hp.
  pose proof (fo_size _ _ _ Hf) as Hs. cbn [size ino] in Hs. apply (update_fbyte B layout_B); [cbn; lia|done|cbn [size ino]; lia].
Qed.

(** The bytes of the directory, and zeros. *)
Lemma rs_byte p : 0 <= p < z' -> fbyte V' (ino B V' 1) p = if decide (p < z) then fbyte V (ino B V 1) p else 0.
Proof.
  intros Hp. destruct rs_root as (_ & Hf & Hs). destruct (rs_kind 1 ltac:(lia)) as (_ & _ & Ea). destruct (rs_same _ Hf) as [_ Hbyte].
  assert (Hne : fblk V (ino B V 1) (Z.to_nat (p / 512)) <> 0).
  { apply rs_blocks; [apply block_of_pos; lia|]. rewrite Z2Nat.id by (apply Z.div_pos; lia). pose proof (Z.mul_div_le p 512 ltac:(lia)). lia. }
  assert (E : fbyte V' (ino B V' 1) p = fbyte V (ino B V 1) p) by (rewrite <- (Hbyte p) by (done || lia); unfold fbyte, fblk; by rewrite Ea).
  rewrite E. case_decide; [done|]. destruct (bu_next _ _ _ _ Hb) as [Hnx _]. destruct (bu_shape _ _ _ _ Hb 1 ltac:(lia)) as [_ Ht]. apply Ht; [cbn [size ino]; lia|done].
Qed.
Lemma rs_entries : entries B V' 1 = es ++ replicate (Z.to_nat ((z' - z) / sizeof_de)) (0, []).
Proof.
  destruct rs_root as (Hd & Hf & Hs). assert (Hes : length (entries B V 1) = length es) by (by rewrite (bu_entries _ _ _ _ Hb)).
  assert (Ed : z' - z = sizeof_de * ((z' - z) / sizeof_de)).
  { assert ((z' - z) mod sizeof_de = 0) as Em. { unfold z. rewrite Zminus_mod, Hmod, Z.mul_comm, Z.mod_mul by done. done. } pose proof (Z.div_mod (z' - z) sizeof_de ltac:(done)). lia. }
  set (q := (z' - z) / sizeof_de) in *. assert (Hq : 0 <= q) by (apply Z.div_pos; [lia|done]). change sizeof_de with 16 in *.
  assert (Ez : z' / sizeof_de = Z.of_nat (length es + Z.to_nat q)) by (change sizeof_de with 16; symmetry; apply (Z.div_unique _ _ _ 0); unfold z in *; lia).
  unfold entries at 1. rewrite rs_sync. cbn [d_size dinode_of x set_size size]. rewrite Ez, Nat2Z.id, seq_app, map_app. f_equal.
  - etransitivity; [|exact (bu_entries _ _ _ _ Hb)]. unfold entries. rewrite Hs. assert (Z.to_nat (z / sizeof_de) = length es) as -> by (unfold z; change sizeof_de with 16; rewrite Z.mul_comm, Z.div_mul by done; lia).
    apply map_ext_in. intros k Hk%in_seq. assert (E : dentry B V' 1 k = dentry B V 1 k); [|by rewrite E]. unfold dentry, fbytes. apply map_ext_in. intros p Hp%in_seq. change sizeof_de with 16. unfold sizeof_dirent, DIRSIZ in Hp.
    rewrite rs_byte by (unfold z in *; lia). by rewrite decide_True by (unfold z; lia).
  - apply list_eq_same_length with (n := Z.to_nat q); [by rewrite length_replicate|by rewrite length_map, length_seq|]. intros k a b Hk Ha Hb'.
    rewrite list_lookup_fmap, lookup_seq_lt in Ha by done. cbn [fmap option_fmap option_map] in Ha. rewrite lookup_replicate_2 in Hb' by done. apply (inj Some) in Ha, Hb'. subst a b.
    assert (E : dentry B V' 1 (length es + k) = replicate sizeof_dirent 0); [|change (0 + length es + k)%nat with (length es + k)%nat; by rewrite E].
    unfold dentry. apply (list_eq_same_length _ _ sizeof_dirent); [by rewrite length_replicate|apply length_fbytes|]. intros p u v Hp Hu Hv. rewrite lookup_fbytes in Hu by done. rewrite lookup_replicate_2 in Hv by done.
    injection Hu as <-. injection Hv as <-. change sizeof_de with 16. unfold sizeof_dirent, DIRSIZ in Hp. rewrite rs_byte by (unfold z in *; lia). by rewrite decide_False by (unfold z; lia).
Qed.
Lemma resized_ok : fs_ok B V'.
Proof.
  pose proof (bu_fs _ _ _ _ Hb) as Hfs. split.
  - intros b Hbb. unfold V'. rewrite (update_bit B layout_B) by (try (cbn; lia); rewrite datastart_B in Hbb; cbn; lia). by apply (fk_meta _ _ Hfs).
  - intros m Hm%rs_regular. by apply rs_files.
  - intros m m' Hm%rs_regular Hm'%rs_regular Hne a Ha Hb'. apply (proj1 (rs_owned m a Hm)) in Ha. apply (proj1 (rs_owned m' a Hm')) in Hb'. by apply (fk_disj _ _ Hfs m m' Hm Hm' Hne a).
  - intros m Hm Ht Hl. destruct (rs_kind m ltac:(lia)) as (E1 & E2 & _). rewrite E1 in Ht. rewrite E2 in Hl. pose proof (fk_dirs _ _ Hfs m Hm Ht Hl) as Hd. assert (Hr : regular B V m) by (split; [done|by rewrite Ht]).
    assert (Hgood : forall k, good B V k -> good B V' k) by (intros k (Hk & Hg); destruct (rs_kind k ltac:(lia)) as (F1 & F2 & _); unfold good; by rewrite F1, F2).
    split; [done|by apply rs_files|..]; destruct (decide (m = 1)) as [->|Hne].
    + rewrite rs_sync. done.
    + destruct (rs_other m ltac:(lia) Hne) as [-> _]. apply Hd.
    + rewrite rs_entries. intros e [He|[-> _]%elem_of_replicate]%elem_of_app Hz0; [|done]. apply Hgood, (do_entries _ _ _ Hd); [by rewrite (bu_entries _ _ _ _ Hb)|done].
    + assert (E : entries B V' m = entries B V m) by (apply entries_same; [done|by destruct (rs_other m ltac:(lia) Hne) as [-> _]|by apply rs_files|by apply rs_data]).
      rewrite E. intros e He Hz0. by apply Hgood, (do_entries _ _ _ Hd).
Qed.
End resized.
End MkfsSpec.
