(* ===== verification/MkfsProps.v ===== *)
(** The correctness of [mkfs.c]: the image is a consistent file system with the files in it,
    when they fit; and what goes wrong when the root directory fills its blocks exactly. *)

From S2P Require Import Prelude Params Bytes Sleeplock Bio Cache Log Fs FsSpec FsFile FsProps Inodes Dirs Links Mkfs MkfsSpec.

Module MkfsProps.
Import Fs FreeMap Files RamDisk Dirs Links Mkfs MkfsSpec.

#[local] Existing Instance image_spec.

(** ** The beginning: an empty disk and the root directory *)
Lemma zero_loop s cnt : forall p, fsfd s = replicate p zeroes -> (p + cnt <= 1000)%nat ->
  for_loop (fun i => wsect (Z.of_nat i) zeroes ;;; ret (None : option unit)) p cnt s = Ret None (set_img (replicate (p + cnt) zeroes) s).
Proof.
  revert s. induction cnt as [|cnt IH]; intros s p Hs Hp.
  - cbn [for_loop]. rewrite Nat.add_0_r, <- Hs. by destruct s.
  - cbn [for_loop]. assert (E : wsect (Z.of_nat p) zeroes s = Ret tt (set_img (replicate (S p) zeroes) s)).
    { unfold wsect, modify, put_sector. rewrite sector_id, Nat2Z.id by lia. rewrite Hs, length_replicate, decide_False by lia. rewrite Nat.sub_diag. by rewrite replicate_S_end. }
    match goal with |- bind ?b _ _ = _ => assert (Eb : b s = Ret None (set_img (replicate (S p) zeroes) s)) by (by rewrite (bind_Ret _ _ _ _ _ E)) end.
    rewrite (bind_Ret _ _ _ _ _ Eb). rewrite IH by (done || lia). by replace (S p + cnt)%nat with (p + S cnt)%nat by lia.
Qed.
Definition blank : Z -> list Z := fun b => if decide (b = 58) then set_bits 59 else low_block b.
Definition blank_state : mkfs := MkMkfs (<[1%nat := low_block 1]> (replicate (Z.to_nat FSSIZE) zeroes)) B 1 59.
Lemma length_low b : length (low_block b) = BSIZE.
Proof. unfold low_block. case_decide; [by vm_compute|done]. Qed.
Lemma blank_view : view blank_state blank.
Proof.
  split; cbn [sb fsfd freeblock blank_state]; try done.
  - intros b Hb. unfold blank. case_decide; [apply length_set_bits|apply length_low].
  - intros b Hb Hne. unfold blank. rewrite decide_False by done. destruct (decide (b = 1)) as [->|H1].
    + apply list_lookup_insert_eq. rewrite length_replicate. unfold FSSIZE. lia.
    + rewrite list_lookup_insert_ne by lia. rewrite lookup_replicate_2 by (unfold FSSIZE; lia). unfold low_block. by rewrite decide_False.
  - intros b Hb. unfold blank, low_block. by rewrite !decide_False by lia.
Qed.
Lemma zeros16 j : get16 zeroes j = 0.
Proof. unfold get16, get_bytes, zeroes. rewrite drop_replicate, take_replicate. generalize (2 `min` (BSIZE - j))%nat. intros n. induction n as [|n IH]; [done|]. cbn. lia. Qed.
Lemma blank_inode n : 0 <= n < 200 -> d_type (disk_inode B blank n) = 0.
Proof.
  intros Hn. pose proof (IBLOCK_B n Hn). unfold disk_inode, blank, low_block. rewrite !decide_False by lia. unfold get_dinode. cbn [d_type]. by rewrite zeros16.
Qed.
Lemma blank_fs : fs_ok B blank.
Proof.
  assert (Hno : forall n, regular B blank n -> False) by (intros n (Hn & Ht & _); change (sb_ninodes B) with 200 in Hn; by rewrite blank_inode in Ht by lia).
  split; [by apply (view_meta blank_state), blank_view|intros n Hn; by destruct (Hno n)|intros n m Hn; by destruct (Hno n)|].
  intros n Hn Ht. change (sb_ninodes B) with 200 in Hn. by rewrite blank_inode in Ht by lia.
Qed.
Lemma root_ok : exists s V, ialloc T_DIR blank_state = Ret ROOTINO s /\ built s V [] [].
Proof.
  destruct (ialloc_ok blank_state blank T_DIR blank_view ltac:(cbn; lia) ltac:(by left)) as (s & E & Hv & F & I). cbn [freeinode freeblock blank_state] in *. set (x := fresh T_DIR 1) in *.
  assert (Hlen : length (blank (IBLOCK (inum x) B)) = BSIZE) by (pose proof (IBLOCK_B (inum x) ltac:(cbn; lia)); apply (v_len _ _ blank_view); lia).
  assert (Hfree : d_type (disk_inode B blank (inum x)) = 0) by (by apply blank_inode).
  assert (Hn : 0 < inum x < sb_ninodes B) by done. assert (Hnd : type x <> T_DEV) by done. assert (Hsh : shorts_ok x) by done.
  pose proof (cr_sync B layout_B blank x eq_refl Hnd eq_refl eq_refl Hsh Hlen) as Hsy. unfold synced in Hsy. cbn [inum x fresh] in Hsy.
  exists s, (update_view B blank x). split; [exact E|]. split.
  - exact Hv.
  - exact (created_ok B layout_B blank x blank_fs Hn Hfree eq_refl Hnd eq_refl eq_refl Hsh Hlen).
  - rewrite I. done.
  - intros n Hm. rewrite (cr_inode B blank x eq_refl Hnd eq_refl eq_refl Hlen) by (cbn; lia). apply blank_inode. lia.
  - intros n Hm. assert (n = 1) as -> by lia. assert (ino B (update_view B blank x) 1 = x) as -> by (unfold ino; by rewrite Hsy). apply fresh_shaped.
  - rewrite Hsy. done.
  - exact (cr_empty B layout_B blank x eq_refl Hnd eq_refl eq_refl Hsh Hlen).
  - intros j c Hc. by rewrite lookup_nil in Hc.
  - intros b Hb. unfold update_view. pose proof (IBLOCK_B (inum x) ltac:(cbn; lia)). rewrite fn_lookup_insert_ne by lia. unfold blank. by rewrite decide_False by lia.
  - rewrite F. done.
Qed.

(** ** The end: the bitmap *)
Lemma bitmap_written_ok s V : view s V -> exists s', balloc (freeblock s) s = Ret tt s' /\ forall k, owns (fsfd s') V [] [] k.
Proof.
  intros Hv. pose proof (v_free _ _ Hv) as Hf. pose proof (v_img _ _ Hv) as Hi. exists (set_img (<[58%nat := set_bits (Z.to_nat (freeblock s))]> (fsfd s)) s). split.
  - unfold balloc, assert. destruct (Z.ltb_spec (freeblock s) (Z.of_nat BSIZE * 8)) as [_|Hge]; [|change (Z.of_nat BSIZE * 8) with 4096 in Hge; lia].
    rewrite (bind_Ret _ _ _ _ _ eq_refl), bind_reads, (v_sb _ _ Hv). cbn [sb_bmapstart B]. unfold wsect, modify, put_sector. rewrite sector_id by lia.
    rewrite decide_True by (rewrite Hi; unfold FSSIZE; lia). done.
  - intros k. split_and!; [cbn [fsfd set_img]; by rewrite length_insert| |by intros i b ?%elem_of_nil]. intros b Hb. change (Z.of_nat (Z.to_nat FSSIZE)) with 1000 in Hb. split; [|by apply Hv]. cbn [fsfd set_img].
    symmetry. apply list_lookup_total_correct. destruct (decide (b = 58)) as [->|Hne].
    + rewrite (v_map _ _ Hv). apply list_lookup_insert_eq. rewrite Hi. unfold FSSIZE. lia.
    + rewrite list_lookup_insert_ne by lia. by apply Hv.
Qed.
(** The last statements of [main], from the size of the root directory. *)
Definition finish : M mkfs unit :=
  din <- rinode 1 ;;
  let off := xint (d_size din) in let off := u32 (u32 (off / Z.of_nat BSIZE + 1) * Z.of_nat BSIZE) in
  winode 1 (set_dsize (xint off) din) ;;; f <- reads freeblock ;; balloc (i32 f).
Definition rounded (z : Z) : Z := (z / 512 + 1) * 512.
Lemma finish_run s V es cs : built s V es cs -> let z := sizeof_de * Z.of_nat (length es) in z + 512 <= maxfile ->
  let V' := update_view B V (set_size (rounded z) (ino B V 1)) in
  exists s', finish s = Ret tt s' /\ (forall k, owns (fsfd s') V' [] [] k) /\
    (forall b, 0 <= b < 32 -> V' b = low_block b) /\ forall b, 0 <= b < 1000 -> bit B V' b = (b <? freeblock s).
Proof.
  intros Hb z Hmax V'. destruct (bu_dir _ _ _ _ Hb) as [Hd Hsz]. pose proof (bu_view _ _ _ _ Hb) as Hv. fold z in Hsz. assert (Hz0 : 0 <= z) by (unfold z; change sizeof_de with 16; lia).
  pose proof (Z.div_mod z 512 ltac:(lia)) as Hdm. pose proof (Z.mod_pos_bound z 512 ltac:(lia)) as Hmb. change maxfile with 71680 in Hmax. unfold finish.
  rewrite (bind_Ret _ _ _ _ _ (rinode_ok s V 1 Hv ltac:(lia))). cbv zeta. rewrite Hsz. change (Z.of_nat BSIZE) with 512. rewrite (xint_id z) by lia.
  rewrite (u32_id (z / 512 + 1)) by lia. fold (rounded z). rewrite (u32_id (rounded z)) by (unfold rounded; lia). rewrite (xint_id (rounded z)) by (unfold rounded; lia).
  destruct (winode_ok s V (set_size (rounded z) (ino B V 1)) Hv) as (s1 & E1 & Hv1 & F1 & _); [cbn; lia|apply (do_file _ _ _ Hd)|].
  assert (Ed : set_dsize (rounded z) (disk_inode B V 1) = dinode_of (set_size (rounded z) (ino B V 1))) by (by rewrite <- dinode_ino). rewrite Ed. rewrite (bind_Ret _ _ _ _ _ E1), bind_reads.
  pose proof (v_free _ _ Hv1) as Hf. assert (Ei : i32 (freeblock s1) = freeblock s1) by (unfold i32; rewrite Z.mod_small; lia). rewrite Ei.
  destruct (bitmap_written_ok s1 _ Hv1) as (s2 & E2 & Ho). exists s2. split_and!; [exact E2|exact Ho|..].
  - intros b Hbb. unfold V', update_view. pose proof (IBLOCK_B 1 ltac:(lia)). cbn [inum set_size ino]. rewrite fn_lookup_insert_ne by lia. by apply (bu_low _ _ _ _ Hb).
  - intros b Hbb. rewrite <- F1. by apply view_bit.
Qed.
Lemma finish_ok s V es cs : built s V es cs -> let z := sizeof_de * Z.of_nat (length es) in z mod 512 <> 0 -> z + 512 <= maxfile ->
  let V' := update_view B V (set_size (rounded z) (ino B V 1)) in
  fs_ok B V' /\ entries B V' 1 = es ++ replicate (Z.to_nat ((rounded z - z) / sizeof_de)) (0, []) /\
  forall j c, cs !! j = Some c -> disk_inode B V' (2 + Z.of_nat j) = disk_inode B V (2 + Z.of_nat j) /\ data B V' (2 + Z.of_nat j) = c.
Proof.
  intros Hb z Hmod Hmax V'. assert (Hz0 : 0 <= z) by (unfold z; change sizeof_de with 16; lia). pose proof (Z.div_mod z 512 ltac:(lia)) as Hdm. pose proof (Z.mod_pos_bound z 512 ltac:(lia)) as Hmb.
  change maxfile with 71680 in Hmax. assert (Hq : 0 <= z / 512) by (apply Z.div_pos; lia).
  assert (Hz' : z <= rounded z <= maxfile) by (change maxfile with 71680; unfold rounded; lia).
  assert (Hm' : rounded z mod sizeof_de = 0) by (apply Z.mod_divide; [done|]; exists (32 * (z / 512 + 1)); unfold rounded; change sizeof_de with 16; lia).
  assert (Hb' : blocks_of (rounded z) = blocks_of z) by (rewrite (blocks_in (rounded z) (z / 512)), (blocks_in z (z / 512)); unfold rounded; lia).
  split_and!; [by apply (resized_ok s V es cs Hb)|by apply (rs_entries s V es cs Hb)|].
  intros j c Hc. destruct (bu_file _ _ _ _ Hb j c Hc) as (_ & _ & Hdata). pose proof (lookup_lt_Some _ _ _ Hc). destruct (bu_next _ _ _ _ Hb) as [Hnx _]. destruct (bu_kind _ _ _ _ Hb (2 + Z.of_nat j) ltac:(lia)) as [Hr _].
  split; [apply (rs_other s V es cs Hb _ Hz' Hb'); lia|]. rewrite <- Hdata. apply (rs_data s V es cs Hb _ Hz' Hb'); [done|lia].
Qed.
(** When the directory fills its blocks, the new size has one block more than there is. *)
Lemma finish_hole s V es cs : built s V es cs -> let z := sizeof_de * Z.of_nat (length es) in z mod 512 = 0 -> z + 512 <= maxfile ->
  let V' := update_view B V (set_size (rounded z) (ino B V 1)) in
  d_size (disk_inode B V' 1) = z + 512 /\ d_type (disk_inode B V' 1) = T_DIR /\ fblk V' (ino B V' 1) (Z.to_nat (z / 512)) = 0.
Proof.
  intros Hb z Hmod Hmax V'. destruct (bu_dir _ _ _ _ Hb) as [Hd Hsz]. fold z in Hsz. assert (Hz0 : 0 <= z) by (unfold z; change sizeof_de with 16; lia). pose proof (Z.div_mod z 512 ltac:(lia)) as Hdm.
  change maxfile with 71680 in Hmax. set (x := set_size (rounded z) (ino B V 1)). pose proof (do_file _ _ _ Hd) as Hf.
  assert (Hsy : disk_inode B V' 1 = dinode_of x).
  { unfold disk_inode, V', update_view. change (inum x) with 1. rewrite fn_lookup_insert. apply get_put_dinode; [apply (v_len _ _ (bu_view _ _ _ _ Hb)); pose proof (IBLOCK_B 1 ltac:(lia)); change (0 <= IBLOCK 1 B < 1000); lia|].
    destruct (file_dino_ok B layout_B V _ Hf (synced_shorts B V _ (ino_synced V 1))) as [D1 D2 D3 D4 _ D6 D7]. split; try done. cbn [d_size dinode_of x set_size size]. unfold rounded. lia. }
  rewrite Hsy. split_and!; [cbn [d_size dinode_of x set_size size]; unfold rounded; lia|apply (bu_root _ _ _ _ Hb)|]. destruct (bu_next _ _ _ _ Hb) as [Hnx _].
  destruct (bu_shape _ _ _ _ Hb 1 ltac:(lia)) as [[He _] _]. cbn [size ino] in He. rewrite Hsz in He. destruct (blocks_at z Hz0) as [[Eb _]|[_ ?]]; [|lia]. rewrite Eb in He.
  assert (Hk : (Z.to_nat (z / 512) < MAXFILE)%nat) by (apply block_of_pos; change maxfile with 71680; lia).
  assert (Ea : fblk V' (ino B V' 1) (Z.to_nat (z / 512)) = fblk V' (ino B V 1) (Z.to_nat (z / 512))) by (unfold ino at 1; rewrite Hsy; done). rewrite Ea.
  unfold V'. rewrite (update_fblk B layout_B) by (done || (cbn; lia)). destruct (decide (fblk V (ino B V 1) (Z.to_nat (z / 512)) = 0)) as [|Hne]; [done|]. apply He in Hne; [lia|done].
Qed.

(** ** The whole program *)
(** The data blocks that the files and the root directory take. *)
Definition need (files : list host_file) : Z := cost (blocks_of (sizeof_de * Z.of_nat (2 + length files))) + total (map contents files).
Definition pad (files : list host_file) : nat := 32 - (2 + length files) mod 32.

Lemma main_starts files : exists s V, built s V [] [] /\ main (Some true) files start =
  (iappend 1 (make_dirent dot 1) sizeof_de ;;; iappend 1 (make_dirent dotdot 1) sizeof_de ;;; add_files 1 files ;;; finish) s.
Proof.
  destruct root_ok as (s & V & E & Hb). exists s, V. split; [done|]. unfold main. rewrite !bind_modify.
  rewrite (bind_Ret _ _ _ _ _ (zero_loop (set_freeblock nmeta (set_sb new_sb start)) (Z.to_nat FSSIZE) 0 eq_refl ltac:(unfold FSSIZE; lia))). rewrite bind_reads. cbn [sb set_img set_freeblock set_sb].
  match goal with |- bind (wsect 1 ?b) _ ?s0 = _ => assert (Ew : wsect 1 b s0 = Ret tt blank_state) end.
  { unfold wsect, modify, put_sector. rewrite sector_id by lia. rewrite decide_True by (cbn [fsfd set_img]; rewrite length_replicate; unfold FSSIZE; lia). unfold blank_state. rewrite new_sb_eq. done. }
  rewrite (bind_Ret _ _ _ _ _ Ew), (bind_Ret _ _ _ _ _ E). change (ROOTINO =? ROOTINO) with true. unfold assert at 1. rewrite (bind_Ret _ _ _ _ _ eq_refl). by rewrite xshort_id by (unfold ROOTINO; lia).
Qed.
Lemma root_entries_ok s V : built s V [] [] ->
  exists s1 s2 V', iappend 1 (make_dirent dot 1) sizeof_de s = Ret tt s1 /\ iappend 1 (make_dirent dotdot 1) sizeof_de s1 = Ret tt s2 /\ built s2 V' [(1, dot); (1, dotdot)] [].
Proof.
  intros Hb. destruct (bu_next _ _ _ _ Hb) as [Hn _]. pose proof (bu_free _ _ _ _ Hb) as Hf. cbn [length] in Hn. change (freeblock s = 59) in Hf.
  destruct (add_entry_ok s V [] [] dot 1 Hb) as (s1 & V1 & E1 & Hb1); [lia|by repeat constructor|done|by rewrite Hf|].
  destruct (bu_next _ _ _ _ Hb1) as [Hn1 _]. pose proof (bu_free _ _ _ _ Hb1) as Hf1. cbn [length] in Hn1. change (freeblock s1 = 60) in Hf1.
  destruct (add_entry_ok s1 V1 _ [] dotdot 1 Hb1) as (s2 & V2 & E2 & Hb2); [lia|by repeat constructor|done|by rewrite Hf1|].
  exists s1, s2, V2. split_and!; [exact E1|exact E2|exact Hb2].
Qed.

(** Everything before the end. *)
Lemma files_added files : Forall host_ok files -> 2 + Z.of_nat (length files) <= NINODES -> need files <= nblocks ->
  exists s V, built s V ((1, dot) :: (1, dotdot) :: file_entries 2 files) (map contents files) /\ main (Some true) files start = finish s.
Proof.
  intros Hok Hn Hneed. change NINODES with 200 in Hn. assert (nblocks = 941) as En by done. rewrite En in Hneed. destruct (main_starts files) as (s0 & V0 & Hb0 & ->).
  destruct (root_entries_ok s0 V0 Hb0) as (s1 & s2 & V2 & E1 & E2 & Hb2). rewrite (bind_Ret _ _ _ _ _ E1), (bind_Ret _ _ _ _ _ E2).
  destruct (add_files_ok files s2 V2 _ _ Hb2 Hok) as (s3 & V3 & E3 & Hb3); cbn [length app]; [lia|lia|unfold need in Hneed; lia|].
  exists s3, V3. by rewrite (bind_Ret _ _ _ _ _ E3).
Qed.


(** A file of the host: [_cat], of one block and a byte. *)
Definition cat_file : host_file := MkHost [95; 99; 97; 116] (Some [replicate BSIZE 65; [66]]).
Lemma cat_ok : host_ok cat_file.
Proof.
  split; [by repeat constructor|..|by vm_compute]. exists [replicate BSIZE 65; [66]]. split; [done|]. repeat constructor.
Qed.

(** A root directory that fills its blocks exactly (with 30 files, for example) gets a size
    one block too large: [mkfs] rounds its size up even when it is a multiple of the block size,
    so the image has a directory whose last block does not exist, and is not consistent. *)
Theorem mkfs_root_hole files :
  Forall host_ok files -> 2 + Z.of_nat (length files) <= NINODES -> ((2 + length files) mod 32)%nat = 0%nat -> need files <= nblocks ->
  exists s V, main (Some true) files start = Ret tt s /\ (forall k, owns (fsfd s) V [] [] k) /\
    let z := sizeof_de * Z.of_nat (2 + length files) in
    d_size (disk_inode new_sb V ROOTINO) = z + Z.of_nat BSIZE /\ fblk V (ino new_sb V ROOTINO) (Z.to_nat (z / Z.of_nat BSIZE)) = 0 /\ ~ fs_ok new_sb V.
Proof.
  intros Hok Hn Hmod Hneed. destruct (files_added files Hok Hn Hneed) as (s3 & V3 & Hb3 & ->). change NINODES with 200 in Hn. rewrite new_sb_eq. fold B. set (N := length files) in *.
  set (es := (1, dot) :: (1, dotdot) :: file_entries 2 files) in *. assert (Hes : length es = (2 + N)%nat) by (unfold es; cbn [length]; by rewrite length_file_entries).
  pose proof (Nat2Z.inj_mod (2 + N) 32) as Hm32. change (Z.of_nat 32) with 32 in Hm32. assert (Hfit : sizeof_de * Z.of_nat (length es) + 512 <= maxfile) by (change maxfile with 71680; rewrite Hes; change sizeof_de with 16; lia).
  assert (Em : Z.of_nat (2 + N) mod 32 = 0) by (by rewrite <- Hm32, Hmod).
  destruct (finish_run s3 V3 es _ Hb3 Hfit) as (s4 & E4 & Ho & _ & _). destruct (finish_hole s3 V3 es _ Hb3) as (Hsz & Ht & Hhole); [rewrite Hes; change 512 with (sizeof_de * 32); by rewrite Z.mul_mod_distr_l, Em by done|done|].
  set (V4 := update_view B V3 _) in *. rewrite Hes in *. exists s4, V4. change (Z.of_nat BSIZE) with 512. change ROOTINO with 1. cbv zeta. split_and!; [exact E4|exact Ho|exact Hsz|exact Hhole|]. intros Hfs.
  change maxfile with 71680 in Hfit. assert (Hf : file_ok B V4 (ino B V4 1)) by (apply (fk_file _ _ Hfs); split; [done|by rewrite Ht]).
  set (z := sizeof_de * Z.of_nat (2 + N)) in *. assert (Hz0 : 0 <= z) by (unfold z; change sizeof_de with 16; lia). pose proof (Z.div_pos z 512 ltac:(lia) ltac:(lia)) as Hq.
  apply (fo_full _ _ _ Hf (Z.to_nat (z / 512))); [apply block_of_pos; change maxfile with 71680; lia| |done]. cbn [size ino]. rewrite Hsz, Z2Nat.id by done. change (Z.of_nat BSIZE) with 512. pose proof (Z.mul_div_le z 512 ltac:(lia)). lia.
Qed.
Definition byte_file : host_file := MkHost [97] (Some [[65]]).
Lemma byte_ok : host_ok byte_file.
Proof. split; [by repeat constructor|..|done]. exists [[65]]. split; [done|]. repeat constructor. Qed.
Lemma mkfs_root_hole_witness : exists s V, main (Some true) (replicate 30 byte_file) start = Ret tt s /\
  d_size (disk_inode new_sb V ROOTINO) = 1024 /\ fblk V (ino new_sb V ROOTINO) 1 = 0 /\ ~ fs_ok new_sb V.
Proof.
  destruct (mkfs_root_hole (replicate 30 byte_file)) as (s & V & E & _ & Hz & Hb & Hfs); [by apply Forall_replicate, byte_ok|done|done|by vm_compute|].
  exists s, V. split_and!; [exact E|exact Hz|exact Hb|exact Hfs].
Defined.
End MkfsProps.
