(* ===== verification/Vm.v ===== *)
(** Virtual memory ([vm.c], [mmu.h]).

    Page directories and page tables are words in the memory that [kalloc] hands out, so the
    state is the allocator's.  [Module Vm] has the functions of [vm.c] that build, search,
    copy and free them; those that load processor registers ([seginit], [switchkvm],
    [switchuvm]) are not modelled.  [Module VmSpec] shows what a page table maps. *)

From S2P Require Import Prelude Bytes CString Sleeplock Kalloc.

Module Vm.
Import KString Kalloc.

Definition PDX (va : Z) : Z := Z.land (Z.shiftr (u32 va) 22) 1023.
Definition PTX (va : Z) : Z := Z.land (Z.shiftr (u32 va) 12) 1023.
Definition PGADDR (d t o : Z) : Z := u32 (Z.lor (Z.lor (Z.shiftl d 22) (Z.shiftl t 12)) o).
Definition NPDENTRIES : nat := 1024.
Definition PTE_P : Z := 1.
Definition PTE_W : Z := 2.
Definition PTE_U : Z := 4.
Definition PTE_ADDR (pte : Z) : Z := Z.land pte (u32 (Z.lnot 4095)).
Definition PTE_FLAGS (pte : Z) : Z := Z.land pte 4095.
Definition EXTMEM : Z := 1048576.
Definition DEVSPACE : Z := 4261412864.
Definition KERNLINK : Z := KERNBASE + EXTMEM.

(** [*p] and [*p = v] for a word.  Page tables are never at 0: an access through a null
    pointer goes to whatever the running process has at address 0, and is reported here. *)
Definition null : string := "null dereference".
Definition no_fuel : string := "out of fuel".
Definition get (p : Z) : M kmem Z :=
  if p =? 0 then panic null else reads (fun k => load32 (ram k) p).
Definition set (p v : Z) : M kmem unit :=
  if p =? 0 then panic null else set_ram (fun m => store32 m p v).
Definition present (pte : Z) : bool := negb (Z.land pte PTE_P =? 0).

Section vm.
(** From the linker: the end of the kernel, and the start of its writable data. *)
Variable end_ : Z.
Variable data : Z.

Definition walkpgdir (pgdir va : Z) (alloc : bool) : M kmem Z :=
  let pde := u32 (pgdir + 4 * PDX va) in
  e <- get pde ;;
  if present e then ret (u32 (P2V (PTE_ADDR e) + 4 * PTX va))
  else if negb alloc then ret 0 else
  pgtab <- kalloc ;;
  if pgtab =? 0 then ret 0 else
  set_ram (fun m => memset m pgtab 0 PGSIZE) ;;;
  set pde (Z.lor (Z.lor (Z.lor (V2P pgtab) PTE_P) PTE_W) PTE_U) ;;;
  ret (u32 (pgtab + 4 * PTX va)).

(** The loop of [mappages] ends when it reaches [last], at most the pages from [a] to [last]
    (around the end of the address space) later. *)
Fixpoint mappages_loop (fuel : nat) (pgdir a last pa perm : Z) : M kmem Z :=
  match fuel with
  | O => panic no_fuel
  | S f =>
      pte <- walkpgdir pgdir a true ;;
      if pte =? 0 then ret (-1) else
      e <- get pte ;;
      if present e then panic "remap" else
      set pte (Z.lor (Z.lor pa perm) PTE_P) ;;;
      if a =? last then ret 0 else
      mappages_loop f pgdir (u32 (a + PGSIZE)) last (u32 (pa + PGSIZE)) perm
  end.
Definition mappages (pgdir va size pa perm : Z) : M kmem Z :=
  let a := PGROUNDDOWN va in
  let last := PGROUNDDOWN (u32 (va + size - 1)) in
  mappages_loop (S (Z.to_nat (u32 (last - a) / PGSIZE))) pgdir a last pa perm.

(** [deallocuvm]: the loop visits the pages below [oldsz]; it skips to the next page table
    when there is none for [a]. *)
Fixpoint deallocuvm_loop (fuel : nat) (pgdir a oldsz : Z) : M kmem unit :=
  if negb (a <? oldsz) then ret tt else
  match fuel with
  | O => panic no_fuel
  | S f =>
      pte <- walkpgdir pgdir a false ;;
      if pte =? 0 then
        deallocuvm_loop f pgdir (u32 (u32 (PGADDR (PDX a + 1) 0 0 - PGSIZE) + PGSIZE)) oldsz
      else
        e <- get pte ;;
        when (present e)
          (let pa := PTE_ADDR e in
           (if pa =? 0 then panic "kfree" else ret tt) ;;;
           kfree end_ (P2V pa) ;;;
           set pte 0) ;;;
        deallocuvm_loop f pgdir (u32 (a + PGSIZE)) oldsz
  end.
Definition deallocuvm (pgdir oldsz newsz : Z) : M kmem Z :=
  if oldsz <=? newsz then ret oldsz else
  deallocuvm_loop (Z.to_nat (oldsz / PGSIZE + 1)) pgdir (PGROUNDUP newsz) oldsz ;;;
  ret newsz.

Definition freevm (pgdir : Z) : M kmem unit :=
  if pgdir =? 0 then panic "freevm: no pgdir" else
  deallocuvm pgdir KERNBASE 0 ;;;
  for_loop (A := unit) (fun i =>
    e <- get (u32 (pgdir + 4 * Z.of_nat i)) ;;
    when (present e) (kfree end_ (P2V (PTE_ADDR e))) ;;;
    ret None) 0 NPDENTRIES ;;;
  kfree end_ pgdir.

(** [kmap]: where, from, to, permissions. *)
Record kmapent := MkKmap { virt : Z; phys_start : Z; phys_end : Z; kperm : Z }.
Definition kmap : list kmapent :=
  [ MkKmap KERNBASE 0 EXTMEM PTE_W;
    MkKmap KERNLINK (V2P KERNLINK) (V2P data) 0;
    MkKmap data (V2P data) PHYSTOP PTE_W;
    MkKmap DEVSPACE DEVSPACE 0 PTE_W ].

Fixpoint setupkvm_loop (pgdir : Z) (l : list kmapent) : M kmem Z :=
  match l with
  | [] => ret pgdir
  | k :: l =>
      r <- mappages pgdir (virt k) (u32 (phys_end k - phys_start k)) (phys_start k) (kperm k) ;;
      if r <? 0 then freevm pgdir ;;; ret 0
      else setupkvm_loop pgdir l
  end.
Definition setupkvm : M kmem Z :=
  pgdir <- kalloc ;;
  if pgdir =? 0 then ret 0 else
  set_ram (fun m => memset m pgdir 0 PGSIZE) ;;;
  if DEVSPACE <? P2V PHYSTOP then panic "PHYSTOP too high" else
  setupkvm_loop pgdir kmap.

(** [init] is where the program's bytes are in the kernel. *)
Definition inituvm (pgdir init sz : Z) : M kmem unit :=
  if PGSIZE <=? sz then panic "inituvm: more than a page" else
  p <- kalloc ;;
  (if p =? 0 then panic null else set_ram (fun m => memset m p 0 PGSIZE)) ;;;
  mappages pgdir 0 PGSIZE (V2P p) (Z.lor PTE_W PTE_U) ;;;
  set_ram (fun m => memmove m p init sz).

Fixpoint allocuvm_loop (fuel : nat) (pgdir a oldsz newsz : Z) : M kmem Z :=
  if negb (a <? newsz) then ret newsz else
  match fuel with
  | O => panic no_fuel
  | S f =>
      p <- kalloc ;;
      if p =? 0 then deallocuvm pgdir newsz oldsz ;;; ret 0 else
      set_ram (fun m => memset m p 0 PGSIZE) ;;;
      r <- mappages pgdir a PGSIZE (V2P p) (Z.lor PTE_W PTE_U) ;;
      if r <? 0 then deallocuvm pgdir newsz oldsz ;;; kfree end_ p ;;; ret 0
      else allocuvm_loop f pgdir (u32 (a + PGSIZE)) oldsz newsz
  end.
Definition allocuvm (pgdir oldsz newsz : Z) : M kmem Z :=
  if KERNBASE <=? newsz then ret 0 else
  if newsz <? oldsz then ret oldsz else
  allocuvm_loop (Z.to_nat (newsz / PGSIZE + 1)) pgdir (PGROUNDUP oldsz) oldsz newsz.

Definition clearpteu (pgdir uva : Z) : M kmem unit :=
  pte <- walkpgdir pgdir uva false ;;
  if pte =? 0 then panic "clearpteu" else
  e <- get pte ;;
  set pte (Z.land e (u32 (Z.lnot PTE_U))).

Fixpoint copyuvm_loop (fuel : nat) (pgdir d i sz : Z) : M kmem Z :=
  if negb (i <? sz) then ret d else
  match fuel with
  | O => panic no_fuel
  | S f =>
      pte <- walkpgdir pgdir i false ;;
      if pte =? 0 then panic "copyuvm: pte should exist" else
      e <- get pte ;;
      if negb (present e) then panic "copyuvm: page not present" else
      p <- kalloc ;;
      if p =? 0 then freevm d ;;; ret 0 else
      set_ram (fun m => memmove m p (P2V (PTE_ADDR e)) PGSIZE) ;;;
      r <- mappages d i PGSIZE (V2P p) (PTE_FLAGS e) ;;
      if r <? 0 then kfree end_ p ;;; freevm d ;;; ret 0
      else copyuvm_loop f pgdir d (u32 (i + PGSIZE)) sz
  end.
Definition copyuvm (pgdir sz : Z) : M kmem Z :=
  d <- setupkvm ;;
  if d =? 0 then ret 0 else
  copyuvm_loop (Z.to_nat (sz / PGSIZE + 1)) pgdir d 0 sz.

Definition uva2ka (pgdir uva : Z) : M kmem Z :=
  pte <- walkpgdir pgdir uva false ;;
  e <- get pte ;;
  if negb (present e) then ret 0 else
  if Z.land e PTE_U =? 0 then ret 0 else
  ret (P2V (PTE_ADDR e)).

(** [buf m i] is byte [i] of the source, which the running process may have in its own
    memory or on its kernel stack; for a pointer [p] into [ram] it is [m (p + i)]. *)
Fixpoint copyout_loop (fuel : nat) (pgdir va : Z) (buf : mem -> Z -> Z) (i len : Z) : M kmem Z :=
  if negb (0 <? len) then ret 0 else
  match fuel with
  | O => panic no_fuel
  | S f =>
      let va0 := PGROUNDDOWN va in
      pa0 <- uva2ka pgdir va0 ;;
      if pa0 =? 0 then ret (-1) else
      let n := Z.min (PGSIZE - (va - va0)) len in
      set_ram (fun m => move_from buf m (pa0 + (va - va0)) i n) ;;;
      copyout_loop f pgdir (u32 (va0 + PGSIZE)) buf (i + n) (len - n)
  end.
Definition copyout (pgdir va : Z) (buf : mem -> Z -> Z) (len : Z) : M kmem Z :=
  copyout_loop (Z.to_nat len) pgdir va buf 0 len.

End vm.

Section loaduvm.
(** [loaduvm] reads from an inode, in a state that has the memory and the file system:
    [readi off n] gives a number of bytes and the bytes. *)
Context {X : Type} (get_km : X -> kmem) (put_km : kmem -> X -> X).
Variable readi : Z -> Z -> M X (Z * list Z).
Local Notation on_km := (zoom get_km put_km).
Fixpoint loaduvm_loop (fuel : nat) (pgdir addr offset i sz : Z) : M X Z :=
  if negb (i <? sz) then ret 0 else
  match fuel with
  | O => panic no_fuel
  | S f =>
      pte <- on_km (walkpgdir pgdir (u32 (addr + i)) false) ;;
      if pte =? 0 then panic "loaduvm: address should exist" else
      e <- on_km (get pte) ;;
      let n := if sz - i <? PGSIZE then sz - i else PGSIZE in
      r <- readi (u32 (offset + i)) n ;;
      on_km (set_ram (fun m => store_bytes m (P2V (PTE_ADDR e)) (snd r))) ;;;
      if negb (fst r =? n) then ret (-1)
      else loaduvm_loop f pgdir addr offset (u32 (i + PGSIZE)) sz
  end.
Definition loaduvm (pgdir addr offset sz : Z) : M X Z :=
  if negb (addr mod PGSIZE =? 0) then panic "loaduvm: addr must be page aligned" else
  loaduvm_loop (Z.to_nat (sz / PGSIZE + 1)) pgdir addr offset 0 sz.
End loaduvm.
End Vm.

Module VmSpec.
Import KString Kalloc Pages Vm.

(** ** Addresses and entries *)
Lemma PDX_eq va : 0 <= va < 2 ^ 32 -> PDX va = va / 2 ^ 22.
Proof.
  intros. unfold PDX. rewrite u32_id by lia. change 1023 with (Z.ones 10).
  rewrite Z.land_ones, Z.shiftr_div_pow2 by lia. apply Z.mod_small.
  split; [apply Z.div_pos; lia|apply Z.div_lt_upper_bound; lia].
Qed.
Lemma PTX_eq va : 0 <= va < 2 ^ 32 -> PTX va = va / PGSIZE mod 1024.
Proof.
  intros. unfold PTX. rewrite u32_id by lia. change 1023 with (Z.ones 10).
  by rewrite Z.land_ones, Z.shiftr_div_pow2 by lia.
Qed.
Lemma PTX_range va : 0 <= PTX va < 1024.
Proof. unfold PTX. change 1023 with (Z.ones 10). rewrite Z.land_ones by lia. by apply Z.mod_pos_bound. Qed.
Lemma PDX_range va : 0 <= PDX va < 1024.
Proof. unfold PDX. change 1023 with (Z.ones 10). rewrite Z.land_ones by lia. by apply Z.mod_pos_bound. Qed.
Lemma PDX_PTX va : 0 <= va < 2 ^ 32 -> va / PGSIZE = PDX va * 1024 + PTX va.
Proof.
  intros. rewrite PDX_eq, PTX_eq by done. change (2 ^ 22) with (PGSIZE * 1024).
  rewrite <- Z.div_div by (unfold PGSIZE; lia). rewrite (Z.div_mod (va / PGSIZE) 1024) at 1 by done. lia.
Qed.

(** A page-aligned address and flags. *)
Lemma entry_eq pa f : pa mod PGSIZE = 0 -> 0 <= f < PGSIZE -> Z.lor pa f = pa + f.
Proof.
  intros Hpa Hf. replace pa with (2 ^ 12 * (pa / PGSIZE)).
  - apply lor_add; [done|]. exact Hf.
  - change (2 ^ 12) with PGSIZE. rewrite (Z.div_mod pa PGSIZE) at 2 by done. lia.
Qed.
Lemma PTE_ADDR_eq pa f : 0 <= pa < 2 ^ 32 -> pa mod PGSIZE = 0 -> 0 <= f < PGSIZE -> PTE_ADDR (pa + f) = pa.
Proof.
  intros Hr Hpa Hf. unfold PTE_ADDR. change 4095 with (PGSIZE - 1). rewrite land_page_mask.
  - pose proof (Z.div_mod pa PGSIZE) as Hd. assert (PGSIZE <> 0) by done.
    replace ((pa + f) / PGSIZE) with (pa / PGSIZE); [lia|].
    apply (Z.div_unique _ _ _ f); [left; done|lia].
  - pose proof (Z.div_mod pa PGSIZE). unfold PGSIZE in *. lia.
Qed.
Lemma present_odd e : present e = Z.odd e.
Proof.
  unfold present, PTE_P. change 1 with (Z.ones 1) at 1. rewrite Z.land_ones by lia. change (2 ^ 1) with 2.
  rewrite Zmod_odd. by destruct (Z.odd e).
Qed.
Lemma present_entry pa f : pa mod PGSIZE = 0 -> present (pa + Z.lor f 1) = true.
Proof.
  intros Hpa. rewrite present_odd, Z.odd_add, <- !Z.bit0_odd, Z.lor_spec, orb_true_r, Z.bit0_odd.
  rewrite (Z.div_mod pa PGSIZE), Hpa, Z.add_0_r by done. change PGSIZE with (2 * 2048).
  by rewrite <- Z.mul_assoc, Z.odd_mul.
Qed.

(** ** Page tables in memory *)
Section spec.
Variable end_ : Z.
Hypothesis Hend : 0 < end_.
Local Notation page := (Pages.page end_).
Local Notation inv := (Pages.inv end_).
Implicit Types (k : kmem) (l : list Z) (T : gmap Z Z).

Definition vals (T : gmap Z Z) : list Z := (map_to_list T).*2.

Lemma elem_of_vals T t : t ∈ vals T <-> exists d, T !! d = Some t.
Proof.
  unfold vals. rewrite list_elem_of_fmap. split.
  - intros ([d t'] & -> & H%elem_of_map_to_list). eauto.
  - intros [d H%elem_of_map_to_list]. by exists (d, t).
Qed.
Lemma vals_insert T d t : T !! d = None -> vals (<[d := t]> T) ≡ₚ t :: vals T.
Proof. intros H. unfold vals. by rewrite map_to_list_insert. Qed.

(** The page directory [pd] has the page tables [T], by their index; no page is at two of
    the places: directory, tables, free list. *)
Record shape k l (pd : Z) T : Prop := MkShape {
  sh_inv : inv k l;
  sh_page : Forall page (pd :: vals T);
  sh_nodup : NoDup (pd :: vals T ++ l);
  sh_some d t : T !! d = Some t -> 0 <= d < 1024 /\
    present (load32 (ram k) (pd + 4 * d)) = true /\ P2V (PTE_ADDR (load32 (ram k) (pd + 4 * d))) = t;
  sh_none d : 0 <= d < 1024 -> T !! d = None -> present (load32 (ram k) (pd + 4 * d)) = false
}.

(** What the tables say of [va]: its entry, 0 when there is no table. *)
Definition entry (m : mem) T (va : Z) : Z :=
  match T !! PDX va with Some t => load32 m (t + 4 * PTX va) | None => 0 end.

(** Only the directory and the tables of [T] are written. *)
Definition only (m m' : mem) (ps : list Z) : Prop :=
  forall x, (forall p, p ∈ ps -> x < p \/ p + PGSIZE <= x) -> m' x = m x.

Lemma page_range v : page v -> v mod PGSIZE = 0 /\ KERNBASE <= v <= KERNBASE + PHYSTOP - PGSIZE.
Proof.
  intros (Hm & Hv & Hp). split; [done|]. unfold V2P, u32, KERNBASE, PHYSTOP, PGSIZE in *.
  destruct (Z.ltb_spec v 2147483648).
  - rewrite <- (Z.mod_add _ 1), Z.mod_small in Hp by lia. lia.
  - rewrite Z.mod_small in Hp by lia. pose proof (Z.div_mod v 4096). lia.
Qed.
Lemma page_V2P v : page v -> V2P v = v - KERNBASE /\ V2P v mod PGSIZE = 0 /\ P2V (V2P v) = v.
Proof.
  intros (Hm & Hv)%page_range. unfold V2P, P2V. rewrite (u32_id (v - KERNBASE)) by (unfold KERNBASE, PHYSTOP, PGSIZE in *; lia).
  split; [done|]. split; [|rewrite u32_id; unfold KERNBASE, PHYSTOP, PGSIZE in *; lia].
  rewrite Zminus_mod, Hm. done.
Qed.

Lemma shape_page k l pd T p : shape k l pd T -> p ∈ pd :: vals T ++ l -> page p.
Proof.
  intros Hs Hp. apply (sh_page _ _ _ _) in Hs as Hpg. destruct Hs as [[_ _ Hl _] _ _ _ _].
  rewrite !Forall_forall in *. set_solver.
Qed.
Lemma shape_pd k l pd T : shape k l pd T -> page pd.
Proof. intros Hs. eapply shape_page; [done|by left]. Qed.
Lemma shape_tab k l pd T d t : shape k l pd T -> T !! d = Some t -> page t.
Proof. intros Hs Ht. eapply shape_page; [done|]. right. apply elem_of_app. left. apply elem_of_vals. eauto. Qed.

Lemma shape_free k l pd T t : shape k (t :: l) pd T -> page t.
Proof. intros Hs. eapply shape_page; [done|]. right. apply elem_of_app. right. by left. Qed.

Lemma shape_apart k l pd T p q :
  shape k l pd T -> p ∈ pd :: vals T ++ l -> q ∈ pd :: vals T ++ l -> p <> q ->
  p + PGSIZE <= q \/ q + PGSIZE <= p.
Proof. intros Hs Hp Hq. apply (page_apart end_); by eapply shape_page. Qed.

Lemma shape_inj k l pd T d d' t : shape k l pd T -> T !! d = Some t -> T !! d' = Some t -> d = d'.
Proof.
  intros Hs H1 H2. destruct (decide (d = d')) as [|Hne]; [done|]. exfalso.
  pose proof (sh_nodup _ _ _ _ Hs) as [_ Hn]%NoDup_cons. apply NoDup_app in Hn as (Hn & _).
  rewrite <- (insert_delete_id T d t H1) in Hn. rewrite vals_insert in Hn by apply lookup_delete_eq.
  apply NoDup_cons in Hn as [Hn _]. apply Hn, elem_of_vals. exists d'. by rewrite lookup_delete_ne.
Qed.

Lemma entry_addr t i : page t -> 0 <= i < 1024 -> u32 (t + 4 * i) = t + 4 * i /\ t + 4 * i <> 0.
Proof.
  intros (_ & Ht)%page_range Hi. rewrite u32_id; unfold KERNBASE, PHYSTOP, PGSIZE in *; lia.
Qed.

Lemma only_word m m' ps t i :
  only m m' ps -> Forall page ps -> page t -> t ∉ ps -> 0 <= i < 1024 ->
  load32 m' (t + 4 * i) = load32 m (t + 4 * i).
Proof.
  intros Ho Hps Ht Hn Hi. apply load32_ext. intros x Hx. apply Ho. intros p Hp.
  rewrite Forall_forall in Hps. destruct (page_apart end_ t p Ht (Hps p Hp)); [congruence|..];
    unfold PGSIZE in *; lia.
Qed.
Lemma only_trans m1 m2 m3 ps : only m1 m2 ps -> only m2 m3 ps -> only m1 m3 ps.
Proof. intros H1 H2 x Hx. by rewrite (H2 x), (H1 x). Qed.
Lemma only_mono m m' ps qs : only m m' ps -> ps ⊆ qs -> only m m' qs.
Proof. intros Ho Hs x Hx. apply Ho. intros p Hp. apply Hx, Hs, Hp. Qed.
Lemma only_refl m ps : only m m ps.
Proof. by intros x. Qed.
Lemma only_store m t i v : 0 <= i < 1024 -> only m (store32 m (t + 4 * i) v) [t].
Proof.
  intros Hi x Hx. apply store32_out. specialize (Hx t ltac:(by left)). unfold PGSIZE in *. lia.
Qed.
Lemma only_memset m t c : only m (memset m t c PGSIZE) [t].
Proof.
  intros x Hx. specialize (Hx t ltac:(by left)). rewrite StringFacts.memset_range by (unfold PGSIZE; lia).
  destruct (Z.leb_spec t x), (Z.ltb_spec x (t + PGSIZE)); cbn; (done || lia).
Qed.

Lemma load32_memset0 m t i : 0 <= i < 1024 -> load32 (memset m t 0 PGSIZE) (t + 4 * i) = 0.
Proof.
  intros Hi. assert (Hb : forall x, t <= x < t + PGSIZE -> memset m t 0 PGSIZE x = 0).
  { intros x Hx. rewrite StringFacts.memset_range by (unfold PGSIZE; lia).
    destruct (Z.leb_spec t x), (Z.ltb_spec x (t + PGSIZE)); (done || lia). }
  unfold load32. by rewrite !Hb by (unfold PGSIZE; lia).
Qed.

Lemma inv_frame k k' l ps :
  inv k l -> lock k' = lock k -> freelist k' = freelist k -> only (ram k) (ram k') ps ->
  Forall page ps -> (forall p, p ∈ ps -> p ∉ l) -> inv k' l.
Proof.
  intros [Hl Hc Hp Hn] Hlk Hf Ho Hps Hd. split; [congruence| |done|done]. rewrite Hf.
  apply (chain_ext (ram k)); [|done]. intros v x Hv Hx. apply Ho. intros p Hpp.
  rewrite Forall_forall in Hps, Hp. destruct (page_apart end_ v p (Hp v Hv) (Hps p Hpp)).
  - intros ->. by apply (Hd p Hpp).
  - unfold PGSIZE in *. lia.
  - lia.
Qed.

(** The free list changes, and pages that are not the directory. *)
Lemma shape_move k k' l l' pd T ps :
  shape k l pd T -> inv k' l' -> NoDup (pd :: vals T ++ l') -> only (ram k) (ram k') ps ->
  Forall page ps -> pd ∉ ps -> shape k' l' pd T.
Proof.
  intros Hs Hi' Hnd Ho Hps Hpd. pose proof (shape_pd _ _ _ _ Hs) as Hpp. destruct Hs as [Hi Hp Hn Hsm Hno].
  split; [done|done|done| |].
  - intros d t Ht. destruct (Hsm d t Ht) as (Hr & H1 & H2). split; [done|].
    by rewrite (only_word (ram k) _ ps).
  - intros d Hr Ht. rewrite (only_word (ram k) _ ps) by done. by apply Hno.
Qed.

Lemma shape_frame k k' l pd T ps :
  shape k l pd T -> lock k' = lock k -> freelist k' = freelist k -> only (ram k) (ram k') ps ->
  Forall page ps -> pd ∉ ps -> (forall p, p ∈ ps -> p ∉ l) -> shape k' l pd T.
Proof.
  intros Hs Hlk Hf Ho Hps Hpd Hd. eapply shape_move; [done| |apply Hs|done..].
  eapply inv_frame; [apply Hs|done..].
Qed.

Definition with_ram k (m : mem) : kmem := MkKmem (lock k) (use_lock k) (freelist k) m.

(** Writing an entry of a table. *)
Lemma shape_store k l pd T va t v :
  shape k l pd T -> T !! PDX va = Some t -> 0 <= va < 2 ^ 32 -> 0 <= v < 2 ^ 32 ->
  shape (with_ram k (store32 (ram k) (t + 4 * PTX va) v)) l pd T /\
  forall va', 0 <= va' < 2 ^ 32 -> entry (store32 (ram k) (t + 4 * PTX va) v) T va' =
    if va' / PGSIZE =? va / PGSIZE then v else entry (ram k) T va'.
Proof.
  intros Hs Ht Hva Hv. pose proof (shape_tab _ _ _ _ _ _ Hs Ht) as Hpt. pose proof (PTX_range va) as Hr.
  assert (Hin : t ∈ vals T) by (apply elem_of_vals; eauto).
  pose proof (sh_nodup _ _ _ _ Hs) as [Hn1 (_ & Hn2 & _)%NoDup_app]%NoDup_cons.
  split.
  - apply (shape_frame k _ l pd T [t]); [done..|by apply only_store|by constructor| |].
    + rewrite list_elem_of_singleton. intros ->. apply Hn1, elem_of_app. by left.
    + intros p ->%list_elem_of_singleton. by apply Hn2.
  - intros va' Hva'. rewrite !PDX_PTX by done. pose proof (PTX_range va') as Hr'. unfold entry.
    destruct (Z.eqb_spec (PDX va' * 1024 + PTX va') (PDX va * 1024 + PTX va)) as [He|He].
    + assert (PDX va' = PDX va /\ PTX va' = PTX va) as [-> ->] by lia. rewrite Ht. by apply load32_store32.
    + destruct (T !! PDX va') as [t'|] eqn:Et; [|done].
      destruct (decide (t' = t)) as [->|Hne].
      * assert (PDX va' = PDX va) by (by eapply shape_inj). apply load32_ext.
        intros x Hx. apply store32_out. lia.
      * apply (only_word (ram k) _ [t]); [by apply only_store|by constructor|by eapply shape_tab| |done].
        by rewrite list_elem_of_singleton.
Qed.

(** *** [walkpgdir] *)
Lemma get_ok p k : p <> 0 -> get p k = Ret (load32 (ram k) p) k.
Proof. intros. unfold get. by destruct (Z.eqb_spec p 0). Qed.
Lemma set_ok p v k : p <> 0 -> set p v k = Ret tt (with_ram k (store32 (ram k) p v)).
Proof. intros. unfold set. by destruct (Z.eqb_spec p 0). Qed.

Lemma get_pde k l pd T va : shape k l pd T ->
  get (u32 (pd + 4 * PDX va)) k = Ret (load32 (ram k) (pd + 4 * PDX va)) k.
Proof.
  intros Hs%shape_pd. destruct (entry_addr pd (PDX va) Hs (PDX_range va)) as [-> Hne]. by apply get_ok.
Qed.

Lemma walkpgdir_hit k l pd T va t al :
  shape k l pd T -> T !! PDX va = Some t -> walkpgdir pd va al k = Ret (t + 4 * PTX va) k.
Proof.
  intros Hs Ht. unfold walkpgdir. rewrite (bind_Ret _ _ _ _ _ (get_pde _ _ _ _ _ Hs)).
  destruct (sh_some _ _ _ _ Hs _ _ Ht) as (_ & -> & ->). 
  by destruct (entry_addr t (PTX va) (shape_tab _ _ _ _ _ _ Hs Ht) (PTX_range va)) as [-> _].
Qed.
Lemma walkpgdir_miss k l pd T va :
  shape k l pd T -> T !! PDX va = None -> walkpgdir pd va false k = Ret 0 k.
Proof.
  intros Hs Ht. unfold walkpgdir. rewrite (bind_Ret _ _ _ _ _ (get_pde _ _ _ _ _ Hs)).
  by rewrite (sh_none _ _ _ _ Hs _ (PDX_range va) Ht).
Qed.

Lemma shape_ram k k' l pd T : shape k l pd T -> inv k' l -> ram k' = ram k -> shape k' l pd T.
Proof. intros [_ ? ? ? ?] Hi Hr. by split; rewrite ?Hr. Qed.

Lemma walkpgdir_full k pd T va :
  shape k [] pd T -> T !! PDX va = None ->
  exists k', walkpgdir pd va true k = Ret 0 k' /\ ram k' = ram k /\ shape k' [] pd T.
Proof.
  intros Hs Ht. unfold walkpgdir. rewrite (bind_Ret _ _ _ _ _ (get_pde _ _ _ _ _ Hs)).
  rewrite (sh_none _ _ _ _ Hs _ (PDX_range va) Ht). cbn [negb].
  destruct (kalloc_spec end_ Hend k [] (sh_inv _ _ _ _ Hs)) as (k' & Hk & Hi & _ & Hr).
  rewrite (bind_Ret _ _ _ _ _ Hk). exists k'. split; [done|]. split; [done|]. by eapply shape_ram.
Qed.

(** A fresh table in the directory. *)
Lemma shape_link k0 k l pd T d t e :
  shape k0 (t :: l) pd T -> inv k l -> ram k = ram k0 -> T !! d = None -> 0 <= d < 1024 ->
  present e = true -> P2V (PTE_ADDR e) = t -> 0 <= e < 2 ^ 32 ->
  let m := store32 (memset (ram k) t 0 PGSIZE) (pd + 4 * d) e in
  shape (with_ram k m) l pd (<[d := t]> T) /\ only (ram k) m [pd; t] /\
  forall va, entry m (<[d := t]> T) va = entry (ram k) T va.
Proof.
  intros Hs Hi Hram Ht Hd He Ha Hr m. pose proof (shape_pd _ _ _ _ Hs) as Hpd.
  pose proof (shape_free _ _ _ _ _ Hs) as Hpt.
  pose proof (sh_nodup _ _ _ _ Hs) as Hnd. pose proof (NoDup_cons_1_1 _ _ Hnd) as Hn1.
  assert (Hnd' : NoDup (pd :: vals (<[d := t]> T) ++ l)).
  { rewrite vals_insert by done. cbn. by rewrite Permutation_middle. }
  assert (Hpp : Forall page [pd; t]) by (rewrite !Forall_cons; auto).
  assert (Ho : only (ram k) m [pd; t]).
  { apply (only_trans _ (memset (ram k) t 0 PGSIZE)).
    - eapply only_mono; [apply only_memset|set_solver].
    - eapply only_mono; [by apply only_store|set_solver]. }
  assert (Hm1 : forall j, 0 <= j < 1024 -> j <> d -> load32 m (pd + 4 * j) = load32 (ram k) (pd + 4 * j)).
  { intros j Hj Hne. unfold m. rewrite (load32_ext (memset (ram k) t 0 PGSIZE)).
    - apply (only_word _ _ [t]); [apply only_memset|by constructor|done|set_solver|done].
    - intros x Hx. apply store32_out. lia. }
  assert (Hm2 : load32 m (pd + 4 * d) = e) by (by apply load32_store32).
  split; [|split; [done|]].
  - split; [| |done| |]; cbn [ram with_ram].
    + apply (inv_frame k _ l [pd; t]); [done..|done|].
      intros p Hp Hl. apply NoDup_cons in Hnd' as [H1 H2]. rewrite vals_insert in H1, H2 by done.
      apply NoDup_app in H2 as (_ & H2 & _). set_solver.
    + apply Forall_forall. intros p Hp. eapply shape_page; [done|].
      rewrite vals_insert in Hp by done. set_solver.
    + intros d' t' [[<- <-]|[Hne H]]%lookup_insert_Some; [by rewrite Hm2|].
      destruct (sh_some _ _ _ _ Hs _ _ H) as (Hr' & ?). by rewrite Hm1, Hram.
    + intros d' Hr' [H Hne]%lookup_insert_None. rewrite Hm1, Hram by done. by apply (sh_none _ _ _ _ Hs).
  - intros va. unfold entry. destruct (decide (PDX va = d)) as [->|Hne].
    + rewrite lookup_insert_eq, Ht. unfold m. pose proof (PTX_range va) as Hx.
      rewrite (only_word (memset (ram k) t 0 PGSIZE) _ [pd]); [|by apply only_store|by constructor|done|set_solver|done].
      by apply load32_memset0.
    + rewrite lookup_insert_ne by done. destruct (T !! PDX va) as [t'|] eqn:E; [|done].
      apply (only_word _ _ [pd; t]); [done|done|by eapply shape_tab| |apply PTX_range].
      assert (t' ∈ vals T) by (apply elem_of_vals; eauto). apply NoDup_cons in Hnd as [_ Hnd].
      apply NoDup_app in Hnd as (_ & Hnd & _). clear - Hn1 Hnd H. set_solver.
Qed.

Lemma walkpgdir_alloc k l pd T va t :
  shape k (t :: l) pd T -> T !! PDX va = None ->
  exists k', walkpgdir pd va true k = Ret (t + 4 * PTX va) k' /\ shape k' l pd (<[PDX va := t]> T) /\
    only (ram k) (ram k') [pd; t] /\
    forall va', entry (ram k') (<[PDX va := t]> T) va' = entry (ram k) T va'.
Proof.
  intros Hs Ht. unfold walkpgdir. rewrite (bind_Ret _ _ _ _ _ (get_pde _ _ _ _ _ Hs)).
  rewrite (sh_none _ _ _ _ Hs _ (PDX_range va) Ht). cbn [negb].
  destruct (kalloc_spec end_ Hend k (t :: l) (sh_inv _ _ _ _ Hs)) as (k' & Hk & Hi & _ & Hr).
  rewrite (bind_Ret _ _ _ _ _ Hk). cbn in Hi. change (default 0 (head (t :: l))) with t.
  pose proof (shape_free _ _ _ _ _ Hs) as Hpt.
  destruct (page_range t Hpt) as [Hmod Hrng]. destruct (Z.eqb_spec t 0); [unfold KERNBASE in *; lia|].
  destruct (page_V2P t Hpt) as (Hv & Hvm & Hvp). rewrite <- !Z.lor_assoc. change (Z.lor PTE_P (Z.lor PTE_W PTE_U)) with 7.
  rewrite entry_eq by done. assert (0 <= V2P t < 2 ^ 32) by apply u32_range.
  destruct (shape_link k k' l pd T (PDX va) t (V2P t + 7)) as (Hs' & Ho & He); try done.
  - apply PDX_range.
  - rewrite present_odd, Z.odd_add, Hv. rewrite (Z.div_mod (t - KERNBASE) PGSIZE), <- Hv, Hvm by done.
    change PGSIZE with (2 * 2048). by rewrite <- Z.mul_assoc, Z.add_0_r, Z.odd_mul.
  - by rewrite PTE_ADDR_eq.
  - rewrite Hv. unfold KERNBASE, PHYSTOP, PGSIZE in *. lia.
  - exists (with_ram k' (store32 (memset (ram k') t 0 PGSIZE) (pd + 4 * PDX va) (V2P t + 7))).
    rewrite <- Hr. split; [|done]. rewrite (bind_Ret _ _ _ tt (with_ram k' (memset (ram k') t 0 PGSIZE))) by done.
    destruct (entry_addr pd (PDX va) (shape_pd _ _ _ _ Hs) (PDX_range va)) as [-> Hne].
    rewrite (bind_Ret _ _ _ _ _ (set_ok _ _ _ Hne)).
    by destruct (entry_addr t (PTX va) Hpt (PTX_range va)) as [-> _].
Qed.

(** What an operation that may add tables to [pd] does besides its changes of entries. *)
Record grows (pd : Z) k l T k' l' T' : Prop := MkGrows {
  gr_shape : shape k' l' pd T';
  gr_tabs : T ⊆ T';
  gr_suffix : suffix l' l;
  gr_keep : vals T' ++ l' ≡ₚ vals T ++ l;
  gr_only : only (ram k) (ram k') (pd :: vals T ++ l)
}.

Lemma vals_mono T T' : T ⊆ T' -> vals T ⊆ vals T'.
Proof.
  intros Hs t. rewrite !elem_of_vals. intros [d Hd]. exists d. by eapply lookup_weaken.
Qed.

Lemma grows_refl pd k l T k' : shape k' l pd T -> ram k' = ram k -> grows pd k l T k' l T.
Proof. intros Hs Hr. split; [done..|]. rewrite Hr. apply only_refl. Qed.

Lemma grows_trans pd k1 l1 T1 k2 l2 T2 k3 l3 T3 :
  grows pd k1 l1 T1 k2 l2 T2 -> grows pd k2 l2 T2 k3 l3 T3 -> grows pd k1 l1 T1 k3 l3 T3.
Proof.
  intros [H1 H2 H3 H4 H5] [G1 G2 G3 G4 G5]. split; [done|by etrans|by etrans|by etrans|].
  apply (only_trans _ (ram k2)); [done|]. eapply only_mono; [done|].
  intros p. rewrite !elem_of_cons, H4. done.
Qed.

Lemma walk_ok k l pd T va :
  shape k l pd T ->
  exists r k' l' T', walkpgdir pd va true k = Ret r k' /\ grows pd k l T k' l' T' /\
    (forall va', entry (ram k') T' va' = entry (ram k) T va') /\
    (r = 0 /\ l' = [] \/ exists t, r <> 0 /\ T' !! PDX va = Some t /\ r = t + 4 * PTX va).
Proof.
  intros Hs. destruct (T !! PDX va) as [t|] eqn:Et.
  - exists (t + 4 * PTX va), k, l, T. rewrite (walkpgdir_hit _ _ _ _ _ _ _ Hs Et).
    split_and!; [done|by apply grows_refl|done|]. right. exists t. split; [|done].
    by destruct (entry_addr t (PTX va) (shape_tab _ _ _ _ _ _ Hs Et) (PTX_range va)).
  - destruct l as [|t l].
    + destruct (walkpgdir_full k pd T va Hs Et) as (k' & Hw & Hr & Hs').
      exists 0, k', [], T. split_and!; [done|by apply grows_refl| |by left]. by rewrite Hr.
    + destruct (walkpgdir_alloc k l pd T va t Hs Et) as (k' & Hw & Hs' & Ho & He).
      exists (t + 4 * PTX va), k', l, (<[PDX va := t]> T). split_and!; [done| |done|].
      * split; [done|by apply insert_subseteq|by exists [t]| |].
        -- rewrite vals_insert by done. cbn. apply Permutation_middle.
        -- eapply only_mono; [done|]. clear. set_solver.
      * right. exists t. split; [|by rewrite lookup_insert_eq].
        by destruct (entry_addr t (PTX va) (shape_free _ _ _ _ _ Hs) (PTX_range va)).
Qed.

(** Storing the entry of [va], whose table is there. *)
Lemma store_ok k l pd T va t v :
  shape k l pd T -> T !! PDX va = Some t -> 0 <= va < 2 ^ 32 -> 0 <= v < 2 ^ 32 ->
  exists k', set (t + 4 * PTX va) v k = Ret tt k' /\ grows pd k l T k' l T /\
    forall va', 0 <= va' < 2 ^ 32 ->
      entry (ram k') T va' = if va' / PGSIZE =? va / PGSIZE then v else entry (ram k) T va'.
Proof.
  intros Hs Ht Hva Hv. destruct (shape_store k l pd T va t v Hs Ht Hva Hv) as [Hs' He].
  exists (with_ram k (store32 (ram k) (t + 4 * PTX va) v)).
  split_and!; [|split; [done|done|done|done|]|done].
  - apply set_ok. by destruct (entry_addr t (PTX va) (shape_tab _ _ _ _ _ _ Hs Ht) (PTX_range va)).
  - eapply only_mono; [apply only_store, PTX_range|]. intros p ->%list_elem_of_singleton.
    right. apply elem_of_app. left. apply elem_of_vals. eauto.
Qed.

(** *** [mappages] *)
Definition pte (pa perm : Z) : Z := Z.lor (Z.lor pa perm) PTE_P.

Lemma lor1_range perm : 0 <= perm < PGSIZE -> 0 <= Z.lor perm 1 < PGSIZE.
Proof.
  intros Hp. change PGSIZE with (2 ^ 12) in *. split; [apply Z.lor_nonneg; lia|].
  destruct (decide (perm = 0)) as [->|]; [done|]. apply Z.log2_lt_cancel. rewrite Z.log2_pow2 by lia.
  rewrite Z.log2_lor by lia. assert (Z.log2 perm < 12) by (apply Z.log2_lt_pow2; lia). by apply Z.max_lub_lt.
Qed.
Lemma pte_eq pa perm : pa mod PGSIZE = 0 -> 0 <= perm < PGSIZE -> pte pa perm = pa + Z.lor perm 1.
Proof.
  intros Hpa Hp. unfold pte, PTE_P. rewrite <- Z.lor_assoc. apply entry_eq; [done|]. by apply lor1_range.
Qed.
Lemma pte_range pa perm : 0 <= pa < 2 ^ 32 -> pa mod PGSIZE = 0 -> 0 <= perm < PGSIZE -> 0 <= pte pa perm < 2 ^ 32.
Proof.
  intros Hpa Hm Hp. rewrite pte_eq by done. pose proof (lor1_range perm Hp).
  pose proof (Z.div_mod pa PGSIZE). unfold PGSIZE in *. lia.
Qed.
Lemma pte_present pa perm : pa mod PGSIZE = 0 -> 0 <= perm < PGSIZE -> present (pte pa perm) = true.
Proof. intros. rewrite pte_eq by done. by apply present_entry. Qed.
Lemma pte_addr pa perm : 0 <= pa < 2 ^ 32 -> pa mod PGSIZE = 0 -> 0 <= perm < PGSIZE -> PTE_ADDR (pte pa perm) = pa.
Proof. intros. rewrite pte_eq by done. apply PTE_ADDR_eq; [done..|by apply lor1_range]. Qed.

(** The entry of [va] when the [c] pages from [a] have been mapped to those from [pa]. *)
Definition mapped (a pa perm : Z) (c : nat) (old : Z -> Z) (va : Z) : Z :=
  let i := va / PGSIZE - a / PGSIZE in
  if (0 <=? i) && (i <? Z.of_nat c) then pte (pa + i * PGSIZE) perm else old va.

Lemma mapped_0 a pa perm old va : mapped a pa perm 0 old va = old va.
Proof. unfold mapped. cbn zeta. destruct (0 <=? _) eqn:?, (_ <? Z.of_nat 0) eqn:?; b2p; (done || lia). Qed.
Lemma mapped_1 a pa perm old va :
  mapped a pa perm 1 old va = if va / PGSIZE =? a / PGSIZE then pte pa perm else old va.
Proof.
  unfold mapped. cbn zeta. destruct (Z.eqb_spec (va / PGSIZE) (a / PGSIZE)) as [->|].
  - rewrite Z.sub_diag. cbn. by rewrite Z.add_0_r.
  - destruct (0 <=? _) eqn:?, (_ <? Z.of_nat 1) eqn:?; b2p; (done || lia).
Qed.
Lemma mapped_S a pa perm c old va :
  mapped (a + PGSIZE) (pa + PGSIZE) perm c (mapped a pa perm 1 old) va = mapped a pa perm (S c) old va.
Proof.
  rewrite (Z.add_comm a). unfold mapped at 1 3. cbn zeta.
  replace (PGSIZE + a) with (a + 1 * PGSIZE) by lia. rewrite Z.div_add by done. rewrite mapped_1.
  destruct (Z.eqb_spec (va / PGSIZE) (a / PGSIZE)) as [->|].
  - destruct (0 <=? a / PGSIZE - (a / PGSIZE + 1)) eqn:?; b2p; [lia|]. cbn [andb].
    rewrite Z.sub_diag. cbn [Z.leb Z.compare]. destruct (_ <? Z.of_nat (S c)) eqn:?; b2p; [|lia]. cbn.
    by rewrite Z.add_0_r.
  - destruct (0 <=? va / PGSIZE - (a / PGSIZE + 1)) eqn:?, (va / PGSIZE - (a / PGSIZE + 1) <? Z.of_nat c) eqn:?,
      (0 <=? va / PGSIZE - a / PGSIZE) eqn:?, (va / PGSIZE - a / PGSIZE <? Z.of_nat (S c)) eqn:?; b2p; cbn [andb]; try (done || lia).
    f_equal. lia.
Qed.

(** One turn of the loop. *)
Lemma map_one k l pd T a pa perm (next : M kmem Z) :
  shape k l pd T -> 0 <= a < 2 ^ 32 -> 0 <= pa < 2 ^ 32 -> pa mod PGSIZE = 0 -> 0 <= perm < PGSIZE ->
  present (entry (ram k) T a) = false ->
  let body := p <- walkpgdir pd a true ;; if p =? 0 then ret (-1) else
    e <- get p ;; if present e then panic "remap" else set p (pte pa perm) ;;; next in
  exists k' l' T', grows pd k l T k' l' T' /\
    (body k = Ret (-1) k' /\ l' = [] /\
     (forall va, 0 <= va < 2 ^ 32 -> entry (ram k') T' va = mapped a pa perm 0 (entry (ram k) T) va) \/
     body k = next k' /\
     (forall va, 0 <= va < 2 ^ 32 -> entry (ram k') T' va = mapped a pa perm 1 (entry (ram k) T) va)).
Proof.
  intros Hs Ha Hpa Hpm Hperm Habs body. unfold body.
  destruct (walk_ok k l pd T a Hs) as (r & k1 & l1 & T1 & Hw & Hg1 & He1 & [[-> ->]|(t & Hr & Ht & ->)]).
  - rewrite (bind_Ret _ _ _ _ _ Hw). exists k1, [], T1. split; [done|]. left. split_and!; [done..|].
    intros va Hva. by rewrite He1, mapped_0.
  - rewrite (bind_Ret _ _ _ _ _ Hw). destruct (Z.eqb_spec (t + 4 * PTX a) 0); [done|].
    rewrite (bind_Ret _ _ _ _ _ (get_ok _ _ Hr)).
    assert (load32 (ram k1) (t + 4 * PTX a) = entry (ram k) T a) as ->.
    { rewrite <- He1. unfold entry. by rewrite Ht. }
    rewrite Habs.
    destruct (store_ok k1 l1 pd T1 a t (pte pa perm) (gr_shape _ _ _ _ _ _ _ Hg1) Ht Ha) as (k2 & H2 & Hg2 & He2);
      [by apply pte_range|].
    rewrite (bind_Ret _ _ _ _ _ H2). exists k2, l1, T1. split; [by eapply grows_trans|]. right. split; [done|].
    intros va Hva. by rewrite mapped_1, He2, He1.
Qed.

Lemma mappages_loop_ok n : forall k l pd T a pa perm fuel,
  shape k l pd T -> (n < fuel)%nat ->
  a mod PGSIZE = 0 -> 0 <= a -> a + Z.of_nat n * PGSIZE < 2 ^ 32 ->
  pa mod PGSIZE = 0 -> 0 <= pa -> pa + Z.of_nat n * PGSIZE < 2 ^ 32 -> 0 <= perm < PGSIZE ->
  (forall i, (i <= n)%nat -> present (entry (ram k) T (a + Z.of_nat i * PGSIZE)) = false) ->
  exists r k' l' T', mappages_loop fuel pd a (a + Z.of_nat n * PGSIZE) pa perm k = Ret r k' /\
    grows pd k l T k' l' T' /\ exists c,
    (r = 0 /\ c = S n \/ r = -1 /\ (c <= n)%nat /\ l' = []) /\
    forall va, 0 <= va < 2 ^ 32 -> entry (ram k') T' va = mapped a pa perm c (entry (ram k) T) va.
Proof.
  induction n as [|n IH]; intros k l pd T a pa perm fuel Hs Hf Ha Ha0 Ha1 Hpa Hpa0 Hpa1 Hperm Habs;
    (destruct fuel as [|fuel]; [lia|]); cbn [mappages_loop];
    (edestruct (map_one k l pd T a pa perm) as (k1 & l1 & T1 & Hg & [(Hb & -> & He)|(Hb & He)]);
      [done|unfold PGSIZE in *; lia|unfold PGSIZE in *; lia|done|done|specialize (Habs 0%nat ltac:(lia)); cbn in Habs; by rewrite Z.add_0_r in Habs| |]);
    unfold pte in Hb; rewrite Hb.
  1, 3: exists (-1), k1, [], T1; split_and!; [done..|]; exists 0%nat; split; [right; split_and!; (done || lia)|done].
  - cbn. rewrite Z.add_0_r, Z.eqb_refl. exists 0, k1, l1, T1. split_and!; [done..|]. exists 1%nat. split; [by left|done].
  - destruct (Z.eqb_spec a (a + Z.of_nat (S n) * PGSIZE)); [unfold PGSIZE in *; lia|].
    rewrite !u32_id by (unfold PGSIZE in *; lia).
    destruct (IH k1 l1 pd T1 (a + PGSIZE) (pa + PGSIZE) perm fuel) as (r & k2 & l2 & T2 & H2 & Hg2 & c & Hc & He2).
    + apply Hg.
    + lia.
    + by rewrite Zplus_mod, Ha.
    + unfold PGSIZE in *; lia.
    + lia.
    + by rewrite Zplus_mod, Hpa.
    + unfold PGSIZE in *; lia.
    + lia.
    + done.
    + intros i Hi. rewrite He by (unfold PGSIZE in *; lia). rewrite mapped_1.
      replace (a + PGSIZE + Z.of_nat i * PGSIZE) with (a + Z.of_nat (S i) * PGSIZE) by lia.
      rewrite Z.div_add by done. destruct (Z.eqb_spec (a / PGSIZE + Z.of_nat (S i)) (a / PGSIZE)); [lia|].
      apply Habs. lia.
    + replace (a + Z.of_nat (S n) * PGSIZE) with (a + PGSIZE + Z.of_nat n * PGSIZE) by lia.
      exists r, k2, l2, T2. split; [done|]. split; [by eapply grows_trans|]. exists (S c). split.
      { destruct Hc as [[-> ->]|(-> & ? & ->)]; [by left|right; split_and!; (done || lia)]. }
      intros va Hva. rewrite He2, <- mapped_S by done. unfold mapped at 1 2. cbn zeta.
      by destruct (_ && _); [|apply He].
Qed.

Lemma PGROUNDDOWN_eq va : 0 <= va < 2 ^ 32 -> PGROUNDDOWN va = va / PGSIZE * PGSIZE.
Proof. intros. by apply land_page_mask. Qed.

Lemma mappages_ok k l pd T va size pa perm n :
  shape k l pd T -> 0 <= va -> 0 < size -> va + size <= 2 ^ 32 ->
  Z.of_nat n = (va + size - 1) / PGSIZE - va / PGSIZE ->
  pa mod PGSIZE = 0 -> 0 <= pa -> pa + Z.of_nat n * PGSIZE < 2 ^ 32 -> 0 <= perm < PGSIZE ->
  (forall va', 0 <= va' < 2 ^ 32 -> va / PGSIZE <= va' / PGSIZE <= (va + size - 1) / PGSIZE ->
     present (entry (ram k) T va') = false) ->
  exists r k' l' T', mappages pd va size pa perm k = Ret r k' /\
    grows pd k l T k' l' T' /\ exists c,
    (r = 0 /\ c = S n \/ r = -1 /\ (c <= n)%nat /\ l' = []) /\
    forall va', 0 <= va' < 2 ^ 32 -> entry (ram k') T' va' = mapped va pa perm c (entry (ram k) T) va'.
Proof.
  intros Hs Hva Hsz Hmax Hn Hpa Hpa0 Hpa1 Hperm Habs. unfold mappages. rewrite (u32_id (va + size - 1)) by lia.
  rewrite !PGROUNDDOWN_eq by lia. set (a := va / PGSIZE * PGSIZE).
  assert (Hlast : (va + size - 1) / PGSIZE * PGSIZE = a + Z.of_nat n * PGSIZE) by (unfold a; lia).
  assert (0 <= va / PGSIZE) by (apply Z.div_pos; [done|by unfold PGSIZE]).
  assert ((va + size - 1) / PGSIZE * PGSIZE <= va + size - 1) by (rewrite Z.mul_comm; by apply Z.mul_div_le).
  assert (0 <= a) by (unfold a, PGSIZE in *; lia).
  rewrite Hlast. replace (a + Z.of_nat n * PGSIZE - a) with (Z.of_nat n * PGSIZE) by lia.
  rewrite u32_id by (unfold PGSIZE in *; lia). rewrite Z.div_mul, Nat2Z.id by done.
  destruct (mappages_loop_ok n k l pd T a pa perm (S n)) as (r & k' & l' & T' & Hm & Hg & c & Hc & He);
    [done|lia|by apply Z.mod_mul|lia|lia|done..| |].
  - intros i Hi. apply Habs; [unfold a, PGSIZE in *; lia|]. rewrite Z.div_add by done. unfold a. rewrite Z.div_mul by done. lia.
  - exists r, k', l', T'. split; [done|]. split; [done|]. exists c. split; [done|]. intros va' Hva'.
    rewrite He by done. unfold mapped, a. by rewrite Z.div_mul.
Qed.
End spec.
End VmSpec.
