(* ===== verification/Uvm.v ===== *)
(** User memory: what the functions of [vm.c] that grow, shrink, copy and free an address
    space promise.

    A user address space is a page directory, its page tables and a map from page numbers
    below [KERNBASE] to the pages that hold their contents ([uspace]).  The theorems say
    which pages an operation maps, that no page is lost or used twice, and that it leaves the
    contents of the others alone. *)

From S2P Require Import Prelude Bytes CString Sleeplock Kalloc Vm.

Module Uvm.
Import KString Kalloc Pages Vm VmSpec.

Section uvm.
Variable end_ : Z.
Hypothesis Hend : KERNBASE < end_.
Local Notation page := (Pages.page end_).
Local Notation inv := (Pages.inv end_).
Local Notation shape := (VmSpec.shape end_).
Local Notation grows := (VmSpec.grows end_).
Implicit Types (k : kmem) (l : list Z) (T U : gmap Z Z).

Lemma Hend0 : 0 < end_.
Proof. unfold KERNBASE in Hend. lia. Qed.

Definition UPAGES : Z := KERNBASE / PGSIZE.

(** The user pages of [pd] are [U], by page number. *)
Record uspace k l (pd : Z) T U : Prop := MkUspace {
  us_shape : shape k l pd T;
  us_page : Forall page (vals U);
  us_nodup : NoDup (pd :: vals T ++ vals U ++ l);
  us_some n f : U !! n = Some f -> 0 <= n < UPAGES /\
    present (entry (ram k) T (n * PGSIZE)) = true /\ P2V (PTE_ADDR (entry (ram k) T (n * PGSIZE))) = f;
  us_none n : 0 <= n < UPAGES -> U !! n = None -> present (entry (ram k) T (n * PGSIZE)) = false
}.

Lemma entry_page m T va : 0 <= va < 2 ^ 32 -> entry m T va = entry m T (va / PGSIZE * PGSIZE).
Proof.
  intros Hva. assert (0 <= va / PGSIZE) by (apply Z.div_pos; [lia|by unfold PGSIZE]).
  assert (va / PGSIZE * PGSIZE <= va) by (rewrite Z.mul_comm; by apply Z.mul_div_le).
  assert (Hr : 0 <= va / PGSIZE * PGSIZE < 2 ^ 32) by (unfold PGSIZE in *; lia).
  pose proof (PDX_PTX va Hva) as H1. pose proof (PDX_PTX _ Hr) as H2. rewrite Z.div_mul in H2 by done.
  pose proof (PTX_range va). pose proof (PTX_range (va / PGSIZE * PGSIZE)).
  assert (PDX va = PDX (va / PGSIZE * PGSIZE) /\ PTX va = PTX (va / PGSIZE * PGSIZE)) as [E1 E2] by lia.
  unfold entry. by rewrite E1, E2.
Qed.

Lemma upage_range n : 0 <= n < UPAGES -> 0 <= n * PGSIZE < KERNBASE /\ n * PGSIZE < 2 ^ 32.
Proof. unfold UPAGES, KERNBASE, PGSIZE. change (2147483648 / 4096) with 524288. lia. Qed.

Lemma PTE_ADDR_range e : 0 <= PTE_ADDR e < 2 ^ 32.
Proof.
  unfold PTE_ADDR. split; [apply Z.land_nonneg; by right|].
  destruct (decide (Z.land e (u32 (Z.lnot 4095)) <= 0)); [lia|]. apply Z.log2_lt_pow2; [lia|].
  change (u32 (Z.lnot 4095)) with (Z.shiftl (Z.ones 20) 12) in *.
  destruct (Z.ltb_spec (Z.log2 (Z.land e (Z.shiftl (Z.ones 20) 12))) 32) as [|Hge]; [done|].
  exfalso. pose proof (Z.bit_log2 (Z.land e (Z.shiftl (Z.ones 20) 12)) ltac:(lia)) as Hb.
  rewrite Z.land_spec, Z.shiftl_spec, Z.ones_spec_high, andb_false_r in Hb by lia. done.
Qed.

(** The physical address in the entry of a user page. *)
Lemma frame_addr e f : page f -> P2V (PTE_ADDR e) = f -> PTE_ADDR e = V2P f /\ PTE_ADDR e <> 0.
Proof.
  intros Hf He. destruct (page_range end_ Hend0 f Hf) as [_ Hr]. destruct (page_V2P end_ Hend0 f Hf) as (Hv & _).
  pose proof (PTE_ADDR_range e) as Hp. unfold P2V, u32 in He. rewrite Hv.
  assert (PTE_ADDR e = f - KERNBASE).
  { destruct (Z.ltb_spec (PTE_ADDR e + KERNBASE) 4294967296) as [|Hge].
    - rewrite Z.mod_small in He by (unfold KERNBASE in *; lia). lia.
    - exfalso. rewrite <- (Z.mod_add _ (-1)), Z.mod_small in He by (unfold KERNBASE in *; lia).
      unfold KERNBASE, PHYSTOP, PGSIZE in *. lia. }
  split; [done|]. destruct Hf as (_ & ? & _). unfold KERNBASE in *. lia.
Qed.

Lemma uspace_frame_page k l pd T U n f : uspace k l pd T U -> U !! n = Some f -> page f.
Proof.
  intros Hu Hf. pose proof (us_page _ _ _ _ _ Hu) as Hp. rewrite Forall_forall in Hp.
  apply Hp, elem_of_vals. eauto.
Qed.

(** Inserting and removing a user page. *)
Lemma vals_delete U n f : U !! n = Some f -> vals U ≡ₚ f :: vals (delete n U).
Proof. intros H. rewrite <- (insert_delete_id U n f H) at 1. apply vals_insert, lookup_delete_eq. Qed.

Lemma entry_frame k l pd T m' ps va :
  shape k l pd T -> only (ram k) m' ps -> Forall page ps -> (forall t, t ∈ vals T -> t ∉ ps) ->
  entry m' T va = entry (ram k) T va.
Proof.
  intros Hs Ho Hps Hd. unfold entry. destruct (T !! PDX va) as [t|] eqn:Et; [|done].
  apply (only_word end_ (ram k) _ ps); [done|done| |apply Hd, elem_of_vals; eauto|apply PTX_range].
  exact (shape_tab end_ Hend0 k l pd T _ t Hs Et).
Qed.

Lemma uspace_tab k l pd T U n f :
  uspace k l pd T U -> U !! n = Some f -> exists t, T !! PDX (n * PGSIZE) = Some t.
Proof.
  intros Hu Hf. destruct (us_some _ _ _ _ _ Hu _ _ Hf) as (_ & Hp & _). unfold entry in Hp.
  destruct (T !! PDX (n * PGSIZE)) as [t|]; [by exists t|done].
Qed.

(** *** [deallocuvm] *)
Lemma free_one k l pd T U n f t :
  uspace k l pd T U -> U !! n = Some f -> T !! PDX (n * PGSIZE) = Some t ->
  exists k', (kfree end_ f ;;; set (t + 4 * PTX (n * PGSIZE)) 0) k = Ret tt k' /\
    uspace k' (f :: l) pd T (delete n U) /\ only (ram k) (ram k') (f :: vals T) /\
    forall va, 0 <= va < 2 ^ 32 -> va / PGSIZE <> n -> entry (ram k') T va = entry (ram k) T va.
Proof.
  intros Hu Hf Ht. pose proof (us_shape _ _ _ _ _ Hu) as Hs. pose proof (uspace_frame_page _ _ _ _ _ _ _ Hu Hf) as Hpf.
  destruct (us_some _ _ _ _ _ Hu _ _ Hf) as (Hn & _). pose proof (upage_range n Hn) as [Hva Hva2].
  pose proof (us_nodup _ _ _ _ _ Hu) as Hnd. rewrite (vals_delete U n f Hf) in Hnd. cbn in Hnd.
  assert (Hpf' : Forall page [f]) by (by apply Forall_singleton).
  assert (Hnd1 : NoDup (f :: pd :: vals T ++ vals (delete n U) ++ l)).
  { by rewrite <- Permutation_middle, (Permutation_swap f pd) in Hnd. }
  apply NoDup_cons in Hnd1 as [Hfn Hnd1].
  destruct (kfree_spec end_ Hend0 k l f (sh_inv _ _ _ _ _ Hs) Hpf) as (k1 & H1 & Hi1 & _ & Hr1);
    [clear - Hfn; set_solver|].
  assert (Ho1 : only (ram k) (ram k1) [f]) by (intros x Hx; apply Hr1, Hx; by left).
  assert (He1 : forall va, entry (ram k1) T va = entry (ram k) T va).
  { intros va. apply (entry_frame k l pd T _ [f]); [done..|]. clear - Hfn. set_solver. }
  assert (Hs1 : shape k1 (f :: l) pd T).
  { eapply (shape_move end_ Hend0); [done|done| |done|done|clear - Hfn; set_solver].
    eapply sublist_NoDup; [exact Hnd|]. apply sublist_skip, sublist_app; [done|]. by apply sublist_skip, sublist_inserts_l. }
  destruct (store_ok end_ Hend0 k1 (f :: l) pd T (n * PGSIZE) t 0 Hs1 Ht) as (k2 & H2 & Hg2 & He2); [lia|done|].
  exists k2. rewrite (bind_Ret _ _ _ _ _ H1). split; [done|].
  assert (He : forall va, 0 <= va < 2 ^ 32 -> entry (ram k2) T va = if va / PGSIZE =? n then 0 else entry (ram k) T va).
  { intros va Hr. rewrite He2, He1, Z.div_mul by done. done. }
  split; [split|split].
  - apply Hg2.
  - pose proof (us_page _ _ _ _ _ Hu) as Hp. rewrite (vals_delete U n f Hf) in Hp. by apply Forall_cons in Hp as [_ ?].
  - rewrite <- (Permutation_middle (vals (delete n U))). exact Hnd.
  - intros n' f' [Hne Hf']%lookup_delete_Some. destruct (us_some _ _ _ _ _ Hu _ _ Hf') as (Hn' & ?).
    pose proof (upage_range n' Hn'). rewrite He, Z.div_mul by (done || lia). by destruct (Z.eqb_spec n' n).
  - intros n' Hn' Hf'. pose proof (upage_range n' Hn'). rewrite He, Z.div_mul by (done || lia).
    destruct (Z.eqb_spec n' n) as [|Hne]; [done|]. rewrite lookup_delete_ne in Hf' by done. by apply (us_none _ _ _ _ _ Hu).
  - apply (only_trans _ (ram k1)); [eapply only_mono; [done|clear; set_solver]|].
    assert (Hset : set (t + 4 * PTX (n * PGSIZE)) 0 k1 = Ret tt k2) by done.
    rewrite set_ok in Hset; [|by destruct (entry_addr end_ Hend0 t (PTX (n * PGSIZE)) (shape_tab end_ Hend0 _ _ _ _ _ _ Hs Ht) (PTX_range _))].
    injection Hset as <-. cbn. eapply only_mono; [apply only_store, PTX_range|]. intros p ->%list_elem_of_singleton.
    right. apply elem_of_vals. eauto.
  - intros va Hr Hne. rewrite He by done. by destruct (Z.eqb_spec (va / PGSIZE) n).
Qed.

(** The pages of [U] outside [a] to [b]. *)
Definition cut (a b : Z) U : gmap Z Z := filter (fun nf => ~ (a <= nf.1 * PGSIZE < b)) U.

Lemma lookup_cut a b U n : cut a b U !! n = if bool_decide (a <= n * PGSIZE < b) then None else U !! n.
Proof.
  unfold cut. destruct (bool_decide_reflect (a <= n * PGSIZE < b)) as [H|H].
  - apply map_lookup_filter_None. right. intros f _. naive_solver.
  - destruct (U !! n) as [f|] eqn:E.
    + apply map_lookup_filter_Some. done.
    + apply map_lookup_filter_None. by left.
Qed.
Lemma cut_skip a a' b U :
  a <= a' -> (forall n f, U !! n = Some f -> ~ (a <= n * PGSIZE < Z.min a' b)) -> cut a' b U = cut a b U.
Proof.
  intros Ha Hn. apply map_eq. intros n. rewrite !lookup_cut.
  destruct (U !! n) as [f|] eqn:E; [|by repeat case_bool_decide]. specialize (Hn n f E).
  repeat case_bool_decide; (done || lia).
Qed.
Lemma cut_delete n b U : n * PGSIZE < b -> cut (n * PGSIZE + PGSIZE) b (delete n U) = cut (n * PGSIZE) b U.
Proof.
  intros Hb. apply map_eq. intros n'. rewrite !lookup_cut, lookup_delete. unfold PGSIZE in *.
  repeat (case_bool_decide || case_decide); subst; (done || lia).
Qed.
Lemma cut_all a b U : (forall n f, U !! n = Some f -> ~ (a <= n * PGSIZE < b)) -> cut a b U = U.
Proof.
  intros H. apply map_eq. intros n. rewrite lookup_cut. case_bool_decide; [|done].
  destruct (U !! n) as [f|] eqn:E; [|done]. by apply H in E.
Qed.

(** The address of the next page table. *)
Lemma next_table a : 0 <= a < KERNBASE ->
  u32 (u32 (PGADDR (PDX a + 1) 0 0 - PGSIZE) + PGSIZE) = (PDX a + 1) * (1024 * PGSIZE) /\ PDX a < 512.
Proof.
  intros Ha. assert (Hd : 0 <= PDX a < 512).
  { rewrite PDX_eq by (unfold KERNBASE in *; lia). unfold KERNBASE in *.
    split; [apply Z.div_pos; lia|apply Z.div_lt_upper_bound; lia]. }
  split; [|lia]. rewrite u32_add_l, Z.sub_add. unfold PGADDR. rewrite !Z.lor_0_r, u32_u32.
  rewrite Z.shiftl_mul_pow2 by lia. rewrite u32_id; unfold PGSIZE; lia.
Qed.

Lemma aligned a : a mod PGSIZE = 0 -> a = a / PGSIZE * PGSIZE.
Proof. intros Ha. rewrite (Z.div_mod a PGSIZE) at 1 by done. lia. Qed.

(** One page that has a table. *)
Lemma dealloc_page k l pd T U n t :
  uspace k l pd T U -> 0 <= n < UPAGES -> T !! PDX (n * PGSIZE) = Some t ->
  let e := entry (ram k) T (n * PGSIZE) in
  exists k' l', when (present e)
      ((if PTE_ADDR e =? 0 then panic "kfree" else ret tt) ;;; kfree end_ (P2V (PTE_ADDR e)) ;;;
       set (t + 4 * PTX (n * PGSIZE)) 0) k = Ret tt k' /\
    uspace k' l' pd T (delete n U) /\ vals (delete n U) ++ l' ≡ₚ vals U ++ l /\ l ⊆ l' /\
    only (ram k) (ram k') (vals T ++ l') /\
    forall va, 0 <= va < 2 ^ 32 -> va / PGSIZE <> n -> entry (ram k') T va = entry (ram k) T va.
Proof.
  intros Hu Hn Ht e. destruct (U !! n) as [f|] eqn:Ef.
  - destruct (us_some _ _ _ _ _ Hu _ _ Ef) as (_ & Hpr & Hfa). fold e in Hpr, Hfa. rewrite Hpr. cbn [when].
    destruct (frame_addr _ f (uspace_frame_page _ _ _ _ _ _ _ Hu Ef) Hfa) as [_ Hne].
    destruct (Z.eqb_spec (PTE_ADDR e) 0); [done|]. rewrite Hfa.
    destruct (free_one k l pd T U n f t Hu Ef Ht) as (k1 & H1 & Hu1 & Ho1 & He1).
    exists k1, (f :: l). split_and!; [done|done| |clear; set_solver| |done].
    + by rewrite (vals_delete U n f Ef), <- Permutation_middle.
    + eapply only_mono; [done|]. clear. set_solver.
  - unfold e. rewrite (us_none _ _ _ _ _ Hu n Hn Ef). rewrite delete_id by done. exists k, l. by split_and!.
Qed.

Lemma deallocuvm_loop_ok fuel : forall k l pd T U a b,
  uspace k l pd T U -> a mod PGSIZE = 0 -> 0 <= a -> b <= KERNBASE -> b <= a + Z.of_nat fuel * PGSIZE ->
  exists k' l', deallocuvm_loop end_ fuel pd a b k = Ret tt k' /\ uspace k' l' pd T (cut a b U) /\
    vals (cut a b U) ++ l' ≡ₚ vals U ++ l /\ l ⊆ l' /\ only (ram k) (ram k') (vals T ++ l') /\
    forall va, 0 <= va < 2 ^ 32 -> va < a \/ KERNBASE <= va -> entry (ram k') T va = entry (ram k) T va.
Proof.
  induction fuel as [|fuel IH]; intros k l pd T U a b Hu Ha Ha0 Hb Hf; cbn [deallocuvm_loop];
    (destruct (Z.ltb_spec a b) as [Hlt|Hge]; cbn [negb];
      [|exists k, l; rewrite cut_all by lia; by split_and!]); [lia|].
  pose proof (us_shape _ _ _ _ _ Hu) as Hs. pose proof (aligned a Ha) as Hn. set (n := a / PGSIZE) in *.
  assert (Hn2 : 0 <= n < UPAGES) by (unfold UPAGES, KERNBASE, PGSIZE in *; change (2147483648 / 4096) with 524288; lia).
  destruct (T !! PDX a) as [t|] eqn:Et.
  - rewrite (bind_Ret _ _ _ _ _ (walkpgdir_hit end_ Hend0 _ _ _ _ _ _ _ Hs Et)).
    destruct (entry_addr end_ Hend0 t (PTX a) (shape_tab end_ Hend0 _ _ _ _ _ _ Hs Et) (PTX_range a)) as [_ Hne].
    destruct (Z.eqb_spec (t + 4 * PTX a) 0); [done|]. rewrite (bind_Ret _ _ _ _ _ (get_ok _ _ Hne)).
    assert (load32 (ram k) (t + 4 * PTX a) = entry (ram k) T (n * PGSIZE)) as -> by (unfold entry; by rewrite <- Hn, Et).
    rewrite u32_id by (unfold KERNBASE, PGSIZE in *; lia). rewrite Hn in Et |- *.
    destruct (dealloc_page k l pd T U n t Hu Hn2 Et) as (k1 & l1 & H1 & Hu1 & Hp1 & Hl1 & Ho1 & He1).
    rewrite (bind_Ret _ _ _ _ _ H1).
    destruct (IH k1 l1 pd T (delete n U) (n * PGSIZE + PGSIZE) b Hu1) as (k2 & l2 & H2 & Hu2 & Hp2 & Hl2 & Ho2 & He2);
      [by rewrite Zplus_mod, Z.mod_mul|unfold PGSIZE in *; lia|done|lia|].
    rewrite cut_delete in Hu2, Hp2 by lia. exists k2, l2. split_and!; [done|done|by etrans|by etrans| |].
    + eapply only_trans; [|done]. eapply only_mono; [done|]. clear - Hl2. set_solver.
    + intros va Hr Hv. pose proof (Z.mul_div_le va PGSIZE ltac:(done)). pose proof (Z.mod_pos_bound va PGSIZE ltac:(done)).
      pose proof (Z.div_mod va PGSIZE ltac:(done)). unfold PGSIZE, KERNBASE in *.
      rewrite He2, He1; (done || lia).
  - rewrite (bind_Ret _ _ _ _ _ (walkpgdir_miss end_ Hend0 _ _ _ _ _ Hs Et)). cbn [Z.eqb].
    destruct (next_table a) as [-> Hd]; [lia|].
    assert (Hdx : forall v, 0 <= v < 2 ^ 32 -> PDX v * (1024 * PGSIZE) <= v < (PDX v + 1) * (1024 * PGSIZE)).
    { intros v Hv. rewrite PDX_eq by done. unfold PGSIZE. pose proof (Z.div_mod v (2 ^ 22)). pose proof (Z.mod_pos_bound v (2 ^ 22)). lia. }
    pose proof (Hdx a ltac:(unfold KERNBASE in *; lia)) as Hda.
    assert (Hnx : a + PGSIZE <= (PDX a + 1) * (1024 * PGSIZE)) by (unfold PGSIZE in *; lia).
    destruct (IH k l pd T U ((PDX a + 1) * (1024 * PGSIZE)) b Hu) as (k2 & l2 & H2 & Hu2 & Hp2 & Hl2 & Ho2 & He2);
      [by rewrite Z.mul_assoc, Z.mod_mul|unfold PGSIZE in *; lia|done|lia|].
    assert (Hcut : cut ((PDX a + 1) * (1024 * PGSIZE)) b U = cut a b U);
      [apply cut_skip; [lia|]|rewrite Hcut in Hu2, Hp2; exists k2, l2; split_and!; [done..|];
       intros va Hr Hv; apply He2; [done|]; unfold PGSIZE in *; lia].
    intros n' f' Hf' Hr. destruct (us_some _ _ _ _ _ Hu _ _ Hf') as (Hn' & Hpr & _).
    pose proof (upage_range n' Hn') as Hur. pose proof (Hdx (n' * PGSIZE) ltac:(lia)) as Hd'.
    assert (PDX (n' * PGSIZE) = PDX a) as Hq by (unfold PGSIZE in *; nia).
    unfold entry in Hpr. by rewrite Hq, Et in Hpr.
Qed.

Lemma roundup_range b : 0 <= b <= KERNBASE ->
  PGROUNDUP b mod PGSIZE = 0 /\ b <= PGROUNDUP b < b + PGSIZE /\ PGROUNDUP b <= KERNBASE.
Proof.
  intros Hb. destruct (PGROUNDUP_spec b) as [Hm Hr]; [lia|unfold KERNBASE, PGSIZE in *; lia|].
  split_and!; [done|lia|lia|]. pose proof (aligned _ Hm). unfold KERNBASE, PGSIZE in *. lia.
Qed.

Lemma deallocuvm_ok k l pd T U a b :
  uspace k l pd T U -> 0 <= a <= KERNBASE -> 0 <= b <= KERNBASE ->
  let U' := cut (PGROUNDUP a) b U in
  exists k' l', deallocuvm end_ pd b a k = Ret (Z.min a b) k' /\ uspace k' l' pd T U' /\
    vals U' ++ l' ≡ₚ vals U ++ l /\ l ⊆ l' /\ only (ram k) (ram k') (vals T ++ l') /\
    forall va, 0 <= va < 2 ^ 32 -> va < PGROUNDUP a \/ KERNBASE <= va -> entry (ram k') T va = entry (ram k) T va.
Proof.
  intros Hu Ha Hb U'. unfold deallocuvm. destruct (Z.leb_spec b a) as [Hle|Hlt].
  - exists k, l. unfold U'. rewrite Z.min_r by done. rewrite cut_all; [by split_and!|].
    intros n f Hf. pose proof (roundup_range a Ha). lia.
  - destruct (roundup_range a Ha) as (Hm & Hr & _).
    destruct (deallocuvm_loop_ok (Z.to_nat (b / PGSIZE + 1)) k l pd T U (PGROUNDUP a) b Hu)
      as (k' & l' & H1 & Hu1 & Hp1 & Hl1 & Ho1 & He1); [done|lia|lia| |].
    { assert (0 <= b / PGSIZE) by (apply Z.div_pos; [lia|by unfold PGSIZE]). rewrite Z2Nat.id by lia.
      pose proof (Z.div_mod b PGSIZE ltac:(done)). pose proof (Z.mod_pos_bound b PGSIZE ltac:(done)). lia. }
    exists k', l'. rewrite (bind_Ret _ _ _ _ _ H1), Z.min_l by lia. by split_and!.
Qed.

(** The user pages stay when their entries do. *)
Lemma uspace_keep k l pd T U k' l' T' :
  uspace k l pd T U -> shape k' l' pd T' -> NoDup (pd :: vals T' ++ vals U ++ l') ->
  (forall n, 0 <= n < UPAGES -> entry (ram k') T' (n * PGSIZE) = entry (ram k) T (n * PGSIZE)) ->
  uspace k' l' pd T' U.
Proof.
  intros Hu Hs Hnd He. split; [done|apply Hu|done| |].
  - intros n f Hf. destruct (us_some _ _ _ _ _ Hu _ _ Hf) as (Hn & ?). by rewrite He.
  - intros n Hn Hf. rewrite He by done. by apply (us_none _ _ _ _ _ Hu).
Qed.

(** *** [allocuvm] *)
Lemma perm_outer (A B C A' C' : list Z) : A' ++ C' ≡ₚ A ++ C -> A' ++ B ++ C' ≡ₚ A ++ B ++ C.
Proof.
  intros H. rewrite (Permutation_app_comm B C'), app_assoc, H, <- app_assoc. by rewrite (Permutation_app_comm C B).
Qed.
Lemma perm_mid (A B C : list Z) p : A ++ B ++ p :: C ≡ₚ p :: A ++ B ++ C.
Proof. by rewrite app_assoc, <- Permutation_middle, <- app_assoc. Qed.

(** A page from the free list. *)
Lemma kalloc_page k p l pd T U :
  uspace k (p :: l) pd T U ->
  exists k1, kalloc k = Ret p k1 /\ ram k1 = ram k /\ uspace k1 l pd T U /\ page p /\ p <> 0 /\
    p ∉ pd :: vals T ++ vals U ++ l.
Proof.
  intros Hu. pose proof (us_shape _ _ _ _ _ Hu) as Hs. pose proof (shape_free end_ Hend0 _ _ _ _ _ Hs) as Hp.
  destruct (kalloc_spec end_ Hend0 k (p :: l) (sh_inv _ _ _ _ _ Hs)) as (k1 & H1 & Hi1 & _ & Hr1).
  cbn in Hi1. pose proof (us_nodup _ _ _ _ _ Hu) as Hnd.
  rewrite app_assoc, <- (Permutation_middle (vals T ++ vals U)), <- app_assoc, (Permutation_swap p pd) in Hnd.
  apply NoDup_cons in Hnd as [Hnp Hnd].
  exists k1. split_and!; [done|done| |done|destruct Hp as (_ & ? & _); unfold KERNBASE in *; lia|done].
  apply (uspace_keep k (p :: l) pd T U); [done| |done|by rewrite Hr1].
  apply (shape_move end_ Hend0 k k1 (p :: l) l pd T []); [done|done| |rewrite Hr1; apply only_refl|done|by intros ?%elem_of_nil].
  eapply sublist_NoDup; [exact Hnd|]. apply sublist_skip, sublist_app; [done|]. by apply sublist_inserts_l.
Qed.

(** Writing a page that is in no space and not free. *)
Lemma write_page k l pd T U p m :
  uspace k l pd T U -> page p -> p ∉ pd :: vals T ++ vals U ++ l -> only (ram k) m [p] ->
  uspace (with_ram k m) l pd T U.
Proof.
  intros Hu Hp Hnp Ho. pose proof (us_shape _ _ _ _ _ Hu) as Hs.
  assert (Hpp : Forall page [p]) by (by apply Forall_singleton).
  apply (uspace_keep k l pd T U); [done| |apply Hu|].
  - apply (shape_frame end_ Hend0 k _ l pd T [p]); [done..| |]; clear - Hnp; set_solver.
  - intros n _. apply (entry_frame k l pd T _ [p]); [done..|]. clear - Hnp. set_solver.
Qed.

(** Mapping the page [p], which the caller has, at the free page number [n]. *)
Lemma map_user k l pd T U n p perm :
  uspace k l pd T U -> page p -> p ∉ pd :: vals T ++ vals U ++ l ->
  U !! n = None -> 0 <= n < UPAGES -> 0 <= perm < PGSIZE ->
  exists r k' l' T', mappages pd (n * PGSIZE) PGSIZE (V2P p) perm k = Ret r k' /\ grows pd k l T k' l' T' /\
    (forall va, 0 <= va < 2 ^ 32 -> va / PGSIZE <> n -> entry (ram k') T' va = entry (ram k) T va) /\
    (r = 0 /\ uspace k' l' pd T' (<[n := p]> U) /\ entry (ram k') T' (n * PGSIZE) = pte (V2P p) perm \/
     r = -1 /\ l' = [] /\ uspace k' l' pd T' U).
Proof.
  intros Hu Hp Hnp Hn Hnr Hperm. destruct (page_V2P end_ Hend0 p Hp) as (Hv & Hvm & Hvp).
  assert (Hvr : 0 <= V2P p < 2 ^ 32) by apply u32_range. pose proof (upage_range n Hnr) as [Hr1 Hr2].
  assert (Hlast : (n * PGSIZE + PGSIZE - 1) / PGSIZE = n).
  { symmetry. apply (Z.div_unique _ _ _ (PGSIZE - 1)); [left; unfold PGSIZE; lia|lia]. }
  destruct (mappages_ok end_ Hend0 k l pd T (n * PGSIZE) PGSIZE (V2P p) perm 0 (us_shape _ _ _ _ _ Hu))
    as (r & k' & l' & T' & Hm & Hg & c & Hc & He); try done; try (unfold PGSIZE, KERNBASE in *; lia).
  { rewrite Hlast, Z.div_mul by done. lia. }
  { intros va Hva. rewrite Hlast, Z.div_mul by done. intros Hq. assert (Hn2 : va / PGSIZE = n) by lia.
    rewrite entry_page, Hn2 by done. by apply (us_none _ _ _ _ _ Hu). }
  assert (Hoth : forall va, 0 <= va < 2 ^ 32 -> va / PGSIZE <> n -> entry (ram k') T' va = entry (ram k) T va).
  { intros va Hva Hne. rewrite He by done.
    assert (c = 0%nat \/ c = 1%nat) as [->| ->] by lia; [apply mapped_0|]. rewrite mapped_1, Z.div_mul by done.
    by destruct (Z.eqb_spec (va / PGSIZE) n). }
  assert (Hnd : NoDup (pd :: vals T' ++ vals U ++ l')).
  { pose proof (us_nodup _ _ _ _ _ Hu) as Hnd. rewrite (Permutation_app_comm (vals U) l), app_assoc in Hnd.
    rewrite <- (gr_keep _ _ _ _ _ _ _ _ Hg), <- app_assoc in Hnd. by rewrite (Permutation_app_comm (vals U)). }
  exists r, k', l', T'. split_and!; [done..|]. destruct Hc as [[-> ->]|(-> & Hc & ->)].
  - left. assert (Hen : entry (ram k') T' (n * PGSIZE) = pte (V2P p) perm).
    { rewrite He, mapped_1 by lia. by rewrite Z.eqb_refl. }
    split_and!; [done| |done]. split; [apply Hg| | | |].
    + rewrite vals_insert by done. constructor; [done|apply Hu].
    + rewrite vals_insert by done. cbn. rewrite <- !Permutation_middle, (Permutation_swap p pd). constructor; [|done].
      intros Hin. apply Hnp. pose proof (gr_keep _ _ _ _ _ _ _ _ Hg) as Hk.
      assert (Hpq : pd :: vals T' ++ vals U ++ l' ≡ₚ pd :: vals T ++ vals U ++ l).
      { rewrite (Permutation_app_comm (vals U) l'), app_assoc, Hk, <- app_assoc. by rewrite (Permutation_app_comm (vals U)). }
      by rewrite <- Hpq.
    + intros n' f' [[<- <-]|[Hne Hf']]%lookup_insert_Some.
      * rewrite Hen, pte_present, pte_addr by done. done.
      * destruct (us_some _ _ _ _ _ Hu _ _ Hf') as (Hn' & ?). pose proof (upage_range n' Hn').
        rewrite Hoth; rewrite ?Z.div_mul; (done || lia).
    + intros n' Hn' [Hf' Hne]%lookup_insert_None. pose proof (upage_range n' Hn').
      rewrite Hoth; rewrite ?Z.div_mul by done; [by apply (us_none _ _ _ _ _ Hu)|lia|done].
  - right. assert (c = 0%nat) as -> by lia. split_and!; [done..|]. 
    assert (He0 : forall va, 0 <= va < 2 ^ 32 -> entry (ram k') T' va = entry (ram k) T va).
    { intros va Hva. by rewrite He, mapped_0. }
    apply (uspace_keep k l pd T U); [done|apply Hg|done|]. intros n' Hn'. pose proof (upage_range n' Hn').
    apply He0. lia.
Qed.

Lemma kalloc_none k pd T U :
  uspace k [] pd T U -> exists k1, kalloc k = Ret 0 k1 /\ ram k1 = ram k /\ uspace k1 [] pd T U.
Proof.
  intros Hu. pose proof (us_shape _ _ _ _ _ Hu) as Hs.
  destruct (kalloc_spec end_ Hend0 k [] (sh_inv _ _ _ _ _ Hs)) as (k1 & H1 & Hi1 & _ & Hr1).
  exists k1. split_and!; [done|done|]. apply (uspace_keep k [] pd T U); [done| |apply Hu|by rewrite Hr1].
  by apply (shape_ram end_ k).
Qed.

Lemma free_page k l pd T U p :
  uspace k l pd T U -> page p -> p ∉ pd :: vals T ++ vals U ++ l ->
  exists k', kfree end_ p k = Ret tt k' /\ uspace k' (p :: l) pd T U /\ only (ram k) (ram k') [p].
Proof.
  intros Hu Hp Hnp. pose proof (us_shape _ _ _ _ _ Hu) as Hs.
  assert (Hpp : Forall page [p]) by (by apply Forall_singleton).
  destruct (kfree_spec end_ Hend0 k l p (sh_inv _ _ _ _ _ Hs) Hp) as (k1 & H1 & Hi1 & _ & Hr1);
    [clear - Hnp; set_solver|].
  assert (Ho : only (ram k) (ram k1) [p]) by (intros x Hx; apply Hr1, Hx; by left).
  assert (Hnd : NoDup (pd :: vals T ++ vals U ++ p :: l)).
  { rewrite (app_assoc _ (vals U)), <- (Permutation_middle (vals T ++ vals U)), <- app_assoc, (Permutation_swap p pd).
    constructor; [done|apply Hu]. }
  exists k1. split_and!; [done| |done]. apply (uspace_keep k l pd T U); [done| |done|].
  - apply (shape_move end_ Hend0 k k1 l (p :: l) pd T [p]); [done|done| |done|done|clear - Hnp; set_solver].
    eapply sublist_NoDup; [exact Hnd|]. apply sublist_skip, sublist_app; [done|]. by apply sublist_inserts_l.
  - intros n _. apply (entry_frame k l pd T _ [p]); [done..|]. clear - Hnp. set_solver.
Qed.

(** A page from the free list, filled by [g] and mapped at [n]: what a turn of the loops of
    [allocuvm] and [copyuvm] does when there is memory. *)
Lemma fresh_turn k p l pd T U n (g : mem -> mem) perm :
  uspace k (p :: l) pd T U -> 0 <= n < UPAGES -> U !! n = None -> 0 <= perm < PGSIZE ->
  only (ram k) (g (ram k)) [p] ->
  exists k1 k2 r l' T', kalloc k = Ret p k1 /\ p <> 0 /\ page p /\
    mappages pd (n * PGSIZE) PGSIZE (V2P p) perm (with_ram k1 (g (ram k1))) = Ret r k2 /\
    T ⊆ T' /\ vals T' ++ l' ≡ₚ vals T ++ l /\ only (ram k) (ram k2) (pd :: vals T ++ p :: l) /\
    (forall va, 0 <= va < 2 ^ 32 -> va / PGSIZE <> n -> entry (ram k2) T' va = entry (ram k) T va) /\
    (r = 0 /\ uspace k2 l' pd T' (<[n := p]> U) /\ entry (ram k2) T' (n * PGSIZE) = pte (V2P p) perm /\
       (forall x, p <= x < p + PGSIZE -> ram k2 x = g (ram k) x) \/
     r = -1 /\ l' = [] /\ uspace k2 l' pd T' U /\ p ∉ pd :: vals T' ++ vals U ++ l').
Proof.
  intros Hu Hn Hun Hperm Hg0. destruct (kalloc_page k p l pd T U Hu) as (k1 & H1 & Hr1 & Hu1 & Hp & Hp0 & Hnp).
  rewrite <- Hr1 in Hg0. pose proof (write_page k1 l pd T U p _ Hu1 Hp Hnp Hg0) as Hu2. set (k1' := with_ram k1 (g (ram k1))) in *.
  destruct (map_user k1' l pd T U n p perm Hu2 Hp Hnp Hun Hn Hperm) as (r & k2 & l' & T' & Hm & Hg & He & Hr).
  exists k1, k2, r, l', T'. split_and!; [done..|apply Hg|apply Hg| | |].
  - apply (only_trans _ (ram k1')); [rewrite <- Hr1; eapply only_mono; [done|]|eapply only_mono; [apply Hg|]]; clear; set_solver.
  - intros va Hva Hne. rewrite He by done. unfold k1'. cbn [with_ram ram]. rewrite <- Hr1.
    apply (entry_frame k1 l pd T _ [p]); [apply Hu1|done|by apply Forall_singleton|]. clear - Hnp. set_solver.
  - destruct Hr as [(-> & Hu3 & Hen)|(-> & -> & Hu3)]; [left|right]; split_and!; try done.
    + intros x Hx. rewrite (gr_only _ _ _ _ _ _ _ _ Hg), <- Hr1; [done|].
      intros q Hq. assert (Hne : p <> q) by (clear - Hnp Hq; set_solver).
      destruct (page_apart end_ p q Hp); [|done|unfold PGSIZE in *; lia..].
      apply (shape_page end_ Hend0 k1' l pd T); [apply Hu2|done].
    + intros Hin. apply Hnp. revert Hin. rewrite !elem_of_cons, (perm_outer (vals T) (vals U) l (vals T') []); [done|apply Hg].
Qed.

Lemma memset0_in (m : mem) p x : p <= x < p + PGSIZE -> memset m p 0 PGSIZE x = 0.
Proof.
  intros Hx. rewrite StringFacts.memset_range by (unfold PGSIZE; lia).
  destruct (Z.leb_spec p x), (Z.ltb_spec x (p + PGSIZE)); (done || lia).
Qed.
Lemma page_ne va n : va < n * PGSIZE \/ n * PGSIZE + PGSIZE <= va -> va / PGSIZE <> n.
Proof.
  intros Hv <-. pose proof (Z.div_mod va PGSIZE ltac:(done)). pose proof (Z.mod_pos_bound va PGSIZE ltac:(done)). lia.
Qed.
Lemma cut_insert a c U n p : a <= n * PGSIZE < c -> cut a c (<[n := p]> U) = cut a c U.
Proof.
  intros H. apply map_eq. intros n'. rewrite !lookup_cut. case_bool_decide; [done|].
  apply lookup_insert_ne. by intros ->.
Qed.

(** Contents of a page that is in the space stay when only tables and free pages change. *)
Lemma contents_kept pd k l T U n f m' x :
  uspace k l pd T U -> U !! n = Some f -> only (ram k) m' (pd :: vals T ++ l) -> f <= x < f + PGSIZE -> m' x = ram k x.
Proof.
  intros Hu Hf Hon Hx. apply Hon. intros q Hq. pose proof (uspace_frame_page _ _ _ _ _ _ _ Hu Hf) as Hp.
  pose proof (us_nodup _ _ _ _ _ Hu) as Hnd. rewrite (vals_delete U n f Hf) in Hnd.
  cbn in Hnd. rewrite <- Permutation_middle, (Permutation_swap f pd) in Hnd. apply NoDup_cons in Hnd as [Hnd _].
  destruct (page_apart end_ f q Hp) as [|]; [|clear - Hnd Hq; set_solver|unfold PGSIZE in *; lia..].
  apply (shape_page end_ Hend0 k l pd T); [apply Hu|done].
Qed.

(** ** How much memory is enough *)
Definition pages_below (b : Z) : Z := (b + PGSIZE - 1) / PGSIZE.
Lemma keys_bound (T : gmap Z Z) N : (forall d t, T !! d = Some t -> 0 <= d < N) -> Z.of_nat (length (vals T)) <= Z.max 0 N.
Proof.
  intros Hk. unfold vals. rewrite length_fmap. rewrite <- (length_fmap fst (map_to_list T)).
  assert (Hl : (length (map_to_list T).*1 <= length (seqZ 0 N))%nat).
  { apply submseteq_length, NoDup_submseteq; [apply NoDup_fst_map_to_list|].
    intros x [[d t] [-> Hd]]%list_elem_of_fmap. apply elem_of_map_to_list, Hk in Hd. apply elem_of_seqZ. cbn. lia. }
  rewrite length_seqZ in Hl. lia.
Qed.
Lemma tables_bound k l pd T : shape k l pd T -> (length (vals T) <= 1024)%nat.
Proof.
  intros Hs. assert (Z.of_nat (length (vals T)) <= Z.max 0 1024); [|lia].
  apply keys_bound. intros d t Ht. by destruct (sh_some _ _ _ _ _ Hs d t Ht).
Qed.
Lemma pages_bound U b : 0 <= b -> (forall n f, U !! n = Some f -> 0 <= n /\ n * PGSIZE < b) ->
  Z.of_nat (length (vals U)) <= pages_below b.
Proof.
  intros Hb Hn. unfold pages_below. pose proof (keys_bound U ((b + PGSIZE - 1) / PGSIZE)) as Hk.
  unfold PGSIZE in *. rewrite Z.max_r in Hk by (apply Z.div_pos; lia).
  apply Hk. intros n f Hf. apply Hn in Hf. pose proof (Z.div_mod (b + 4096 - 1) 4096 ltac:(done)). pose proof (Z.mod_pos_bound (b + 4096 - 1) 4096 ltac:(done)). lia.
Qed.
Lemma exhausted k pd T U b :
  uspace k [] pd T U -> 0 <= b -> (forall n f, U !! n = Some f -> n * PGSIZE < b) ->
  Z.of_nat (length (vals T ++ vals U ++ [])) <= 1024 + pages_below b.
Proof.
  intros Hu Hb Hm. rewrite app_nil_r, length_app. pose proof (tables_bound _ _ _ _ (us_shape _ _ _ _ _ Hu)).
  assert (Z.of_nat (length (vals U)) <= pages_below b); [|lia].
  apply pages_bound; [done|]. intros n f Hf. destruct (us_some _ _ _ _ _ Hu _ _ Hf) as [[? _] _]. eauto.
Qed.

Section grow.
(** Growing from [o] to [b]; [ps] are the pages that may be written. *)
Variables (pd o b : Z) (U0 : gmap Z Z) (ps : list Z).
Hypothesis Ho : 0 <= o <= b.
Hypothesis Hb : b < KERNBASE.
Let a0 := PGROUNDUP o.

Definition ours T U l : Prop :=
  cut a0 b U = U0 /\ pd :: vals T ++ l ⊆ ps /\ forall n f, U !! n = Some f -> a0 <= n * PGSIZE < b -> f ∈ ps.

Lemma dealloc_undo k l T U :
  uspace k l pd T U -> ours T U l ->
  exists r k' l', deallocuvm end_ pd b o k = Ret r k' /\ uspace k' l' pd T U0 /\
    vals U0 ++ l' ≡ₚ vals U ++ l /\ only (ram k) (ram k') ps /\
    forall va, 0 <= va < 2 ^ 32 -> va < a0 \/ KERNBASE <= va -> entry (ram k') T va = entry (ram k) T va.
Proof.
  intros Hu (HU & Hps & Hin).
  destruct (deallocuvm_ok k l pd T U o b Hu) as (k' & l' & H1 & Hu1 & Hp1 & Hl1 & Ho1 & He1); [lia|lia|].
  fold a0 in Hu1, Hp1, He1. rewrite HU in Hu1, Hp1. exists (Z.min o b), k', l'. split_and!; [done..| |done].
  eapply only_mono; [done|]. intros p [Hp|Hp]%elem_of_app; [apply Hps; clear - Hp; set_solver|].
  assert (Hpu : p ∈ vals U ++ l) by (rewrite <- Hp1; apply elem_of_app; by right).
  apply elem_of_app in Hpu as [(n & Hn)%elem_of_vals|Hpl]; [|apply Hps; clear - Hpl; set_solver].
  pose proof (lookup_cut a0 b U n) as Hc. rewrite HU, Hn in Hc. case_bool_decide as Hr; [by eapply Hin|].
  pose proof (us_nodup _ _ _ _ _ Hu1) as [_ (_ & _ & (_ & Hd & _)%NoDup_app)%NoDup_app]%NoDup_cons.
  exfalso. apply (Hd p); [|done]. apply elem_of_vals. eauto.
Qed.

(** A page of zeros, writable by the user. *)
Definition blank (m : mem) T n f : Prop :=
  entry m T (n * PGSIZE) = pte (V2P f) (Z.lor PTE_W PTE_U) /\ forall x, f <= x < f + PGSIZE -> m x = 0.

Definition grown_to (a : Z) k l T U k' T' U' : Prop :=
  (forall n, a <= n * PGSIZE < b -> exists f, U' !! n = Some f /\ blank (ram k') T' n f) /\
  (forall n, ~ (a <= n * PGSIZE < b) -> U' !! n = U !! n) /\
  only (ram k) (ram k') (pd :: vals T ++ l) /\
  forall va, 0 <= va < 2 ^ 32 -> va < a -> entry (ram k') T' va = entry (ram k) T va.

Lemma grown_step k p l T U n k1 l1 T1 k2 T2 U2 :
  U !! n = None -> n * PGSIZE < b -> 0 <= n < UPAGES ->
  uspace k1 l1 pd T1 (<[n := p]> U) -> blank (ram k1) T1 n p ->
  vals T1 ++ l1 ≡ₚ vals T ++ l -> only (ram k) (ram k1) (pd :: vals T ++ p :: l) ->
  (forall va, 0 <= va < 2 ^ 32 -> va / PGSIZE <> n -> entry (ram k1) T1 va = entry (ram k) T va) ->
  grown_to (n * PGSIZE + PGSIZE) k1 l1 T1 (<[n := p]> U) k2 T2 U2 ->
  grown_to (n * PGSIZE) k (p :: l) T U k2 T2 U2.
Proof.
  intros Hun Hnb Hnr Hu1 [Hb1 Hb2] Hk Ho1 He1 (Hg1 & Hg2 & Hg3 & Hg4). pose proof (upage_range n Hnr) as Hr.
  split_and!.
  - intros n' Hn'. destruct (decide (n' = n)) as [->|Hne]; [|apply Hg1; unfold PGSIZE in *; lia].
    exists p. rewrite Hg2, lookup_insert_eq by (unfold PGSIZE; lia). split; [done|]. split.
    + rewrite Hg4; [done|lia|unfold PGSIZE; lia].
    + intros x Hx. rewrite (contents_kept pd k1 l1 T1 (<[n := p]> U) n p _ x Hu1); [by apply Hb2| |done|done].
      by rewrite lookup_insert_eq.
  - intros n' Hn'. rewrite Hg2 by (unfold PGSIZE in *; lia). apply lookup_insert_ne. intros ->. lia.
  - eapply only_trans; [done|]. eapply only_mono; [done|]. intros q. rewrite !elem_of_cons, Hk. clear. set_solver.
  - intros va Hva Hlt. rewrite Hg4 by (unfold PGSIZE in *; lia). apply He1; [done|]. apply page_ne. by left.
Qed.

Lemma allocuvm_loop_ok fuel : forall k l T U a,
  uspace k l pd T U -> ours T U l -> a mod PGSIZE = 0 -> a0 <= a -> b <= a + Z.of_nat fuel * PGSIZE ->
  (forall n f, U !! n = Some f -> n * PGSIZE < a) ->
  exists r k' l' T' U', allocuvm_loop end_ fuel pd a o b k = Ret r k' /\ uspace k' l' pd T' U' /\ T ⊆ T' /\
    vals T' ++ vals U' ++ l' ≡ₚ vals T ++ vals U ++ l /\ only (ram k) (ram k') ps /\
    (forall va, 0 <= va < 2 ^ 32 -> va < a0 \/ KERNBASE <= va -> entry (ram k') T' va = entry (ram k) T va) /\
    (r = b /\ grown_to a k l T U k' T' U' \/ r = 0 /\ U' = U0 /\ Z.of_nat (length (vals T ++ vals U ++ l)) <= 1024 + pages_below b).
Proof.
  induction fuel as [|fuel IH]; intros k l T U a Hu Hours Ha Hge Hf Hmax; cbn [allocuvm_loop];
    (destruct (Z.ltb_spec a b) as [Hlt|Hnb]; cbn [negb];
      [|exists b, k, l, T, U; split_and!; [done..|apply only_refl|done|left]; split; [done|]; split_and!; try done; intros n Hn; lia]);
    [lia|].
  pose proof (roundup_range o ltac:(lia)) as Hro. fold a0 in Hro.
  pose proof (aligned a Ha) as Hn. set (n := a / PGSIZE) in *.
  assert (Hn2 : 0 <= n < UPAGES) by (unfold UPAGES, KERNBASE, PGSIZE in *; change (2147483648 / 4096) with 524288; lia).
  assert (Hun : U !! n = None) by (destruct (U !! n) as [f|] eqn:E; [apply Hmax in E; lia|done]).
  destruct l as [|p l].
  - destruct (kalloc_none k pd T U Hu) as (k1 & H1 & Hr1 & Hu1). rewrite (bind_Ret _ _ _ _ _ H1). cbn [Z.eqb].
    destruct (dealloc_undo k1 [] T U Hu1 Hours) as (r & k2 & l2 & H2 & Hu2 & Hp2 & Ho2 & He2).
    rewrite (bind_Ret _ _ _ _ _ H2). rewrite Hr1 in Ho2, He2.
    exists 0, k2, l2, T, U0. split_and!; [done..|by rewrite Hp2|done|done|right]. split_and!; [done|done|].
    eapply exhausted; [exact Hu|lia|]. intros n' f' Hf'. apply Hmax in Hf'. lia.
  - destruct (fresh_turn k p l pd T U n (fun m => memset m p 0 PGSIZE) (Z.lor PTE_W PTE_U) Hu Hn2 Hun)
      as (k1 & k2 & r & l' & T' & H1 & Hp0 & Hpp & Hm & HT & Hk & Ho2 & He2 & Hr); [done|apply only_memset|].
    rewrite (bind_Ret _ _ _ _ _ H1). destruct (Z.eqb_spec p 0); [done|].
    rewrite (bind_Ret _ _ _ tt (with_ram k1 (memset (ram k1) p 0 PGSIZE))) by done.
    rewrite <- Hn in Hm. rewrite (bind_Ret _ _ _ _ _ Hm).
    destruct Hours as (HU & Hps & Hin).
    assert (Hps' : pd :: vals T' ++ l' ⊆ ps).
    { intros q. rewrite elem_of_cons, Hk. intros Hq. apply Hps. clear - Hq. set_solver. }
    assert (Hop : only (ram k) (ram k2) ps) by (by eapply only_mono).
    assert (Hpin : p ∈ ps) by (apply Hps; clear; set_solver).
    destruct Hr as [(-> & Hu2 & Hen & Hbl)|(-> & -> & Hu2 & Hnp)]; cbn [Z.ltb Z.compare].
    + destruct (IH k2 l' T' (<[n := p]> U) (a + PGSIZE) Hu2) as (r & k3 & l3 & T3 & U3 & H3 & Hu3 & HT3 & Hp3 & Ho3 & He3 & Hr3).
      * split_and!; [rewrite cut_insert by lia; done|done|].
        intros n' f' [[<- <-]|[_ Hf']]%lookup_insert_Some Hr'; [done|by eapply Hin].
      * by rewrite Zplus_mod, Ha.
      * unfold PGSIZE; lia.
      * lia.
      * intros n' f' [[<- <-]|[_ Hf']]%lookup_insert_Some; [|apply Hmax in Hf']; unfold PGSIZE in *; lia.
      * rewrite u32_id by (unfold KERNBASE, PGSIZE in *; lia). exists r, k3, l3, T3, U3.
        split_and!; [done|done|by etrans| |by eapply only_trans| |].
        -- rewrite Hp3, vals_insert by done. cbn. rewrite <- Permutation_middle, perm_mid. constructor. by apply perm_outer.
        -- intros va Hva Hv. rewrite He3 by done. apply He2; [done|]. apply page_ne. unfold KERNBASE, PGSIZE in *; lia.
        -- assert (Ht : length (vals T' ++ vals (<[n:=p]> U) ++ l') = length (vals T ++ vals U ++ p :: l)).
           { rewrite vals_insert by done. apply Permutation_length. cbn. rewrite <- Permutation_middle, perm_mid. constructor. by apply perm_outer. }
           rewrite Ht in Hr3. destruct Hr3 as [[-> Hg]|(-> & -> & Hx)]; [left|by right]. split; [done|]. rewrite Hn in Hg |- *.
           eapply grown_step; try done; [lia|]. split; [done|]. intros x Hx.
           rewrite Hbl by done. by apply memset0_in.
    + destruct (dealloc_undo k2 [] T' U Hu2) as (r & k3 & l3 & H3 & Hu3 & Hp3 & Ho3 & He3); [done|].
      rewrite (bind_Ret _ _ _ _ _ H3).
      assert (Hnp3 : p ∉ pd :: vals T' ++ vals U0 ++ l3) by (by rewrite Hp3).
      destruct (free_page k3 l3 pd T' U0 p Hu3 Hpp Hnp3) as (k4 & H4 & Hu4 & Ho4).
      rewrite (bind_Ret _ _ _ _ _ H4). exists 0, k4, (p :: l3), T', U0. split_and!; [done..| | | |right; split_and!; [done|done|]].
      4: { assert (Ht : length (vals T' ++ vals (<[n:=p]> U)) = length (vals T ++ vals U ++ p :: l)).
           { rewrite vals_insert by done. apply Permutation_length. rewrite <- Permutation_middle, perm_mid. constructor. rewrite <- (app_nil_r (vals U)) at 1. by apply perm_outer. }
           rewrite <- Ht, length_app, Nat2Z.inj_add. pose proof (tables_bound _ _ _ _ (us_shape _ _ _ _ _ Hu2)). 
           assert (Z.of_nat (length (vals (<[n:=p]> U))) <= pages_below b); [apply pages_bound; [lia|]|lia].
           intros n' f' [[<- <-]|[_ Hf']]%lookup_insert_Some; [lia|]. destruct (us_some _ _ _ _ _ Hu _ _ Hf') as [? _]. apply Hmax in Hf'. lia. }
      * rewrite !perm_mid, Hp3. constructor. by apply perm_outer.
      * eapply only_trans; [done|]. eapply only_trans; [done|]. eapply only_mono; [done|]. intros q ->%list_elem_of_singleton. done.
      * intros va Hva Hv. rewrite <- He2 by (done || (apply page_ne; unfold KERNBASE, PGSIZE in *; lia)). rewrite <- He3 by done.
        apply (entry_frame k3 l3 pd T' _ [p]); [apply Hu3|done|by apply Forall_singleton|]. clear - Hnp3. set_solver.
Qed.
End grow.

Lemma allocuvm_ok k l pd T U o b :
  uspace k l pd T U -> (forall n f, U !! n = Some f -> n * PGSIZE < o) -> 0 <= o <= KERNBASE -> 0 <= b ->
  exists r k' l' T' U', allocuvm end_ pd o b k = Ret r k' /\ uspace k' l' pd T' U' /\ T ⊆ T' /\
    vals T' ++ vals U' ++ l' ≡ₚ vals T ++ vals U ++ l /\ only (ram k) (ram k') (pd :: vals T ++ l) /\
    (forall va, 0 <= va < 2 ^ 32 -> va < o \/ KERNBASE <= va -> entry (ram k') T' va = entry (ram k) T va) /\
    (KERNBASE <= b /\ r = 0 /\ U' = U \/ b < o /\ r = o /\ U' = U \/
     o <= b < KERNBASE /\ (r = 0 /\ U' = U /\ Z.of_nat (length (vals T ++ vals U ++ l)) <= 1024 + pages_below b \/
       r = b /\ grown_to pd b (PGROUNDUP o) k l T U k' T' U')).
Proof.
  intros Hu Hmax Ho Hb0. unfold allocuvm. destruct (Z.leb_spec KERNBASE b) as [Hk|Hk].
  { exists 0, k, l, T, U. split_and!; [done..|apply only_refl|done|]. left. done. }
  destruct (Z.ltb_spec b o) as [Hlt|Hle].
  { exists o, k, l, T, U. split_and!; [done..|apply only_refl|done|]. right; left. split; [lia|done]. }
  pose proof (roundup_range o Ho) as (Hm & Hr & _).
  destruct (allocuvm_loop_ok pd o b U (pd :: vals T ++ l) ltac:(lia) Hk (Z.to_nat (b / PGSIZE + 1)) k l T U (PGROUNDUP o) Hu)
    as (r & k' & l' & T' & U' & H1 & Hu1 & HT & Hp & Hon & He & Hres).
  - split_and!; [|done|intros n f Hf Hr'; apply Hmax in Hf; lia].
    apply cut_all. intros n f Hf Hr'. apply Hmax in Hf. lia.
  - done.
  - done.
  - assert (0 <= b / PGSIZE) by (apply Z.div_pos; [lia|by unfold PGSIZE]). rewrite Z2Nat.id by lia.
    pose proof (Z.div_mod b PGSIZE ltac:(done)). pose proof (Z.mod_pos_bound b PGSIZE ltac:(done)). lia.
  - intros n f Hf. apply Hmax in Hf. lia.
  - exists r, k', l', T', U'. split_and!; [done..| |].
    + intros va Hva Hv. apply He; [done|]. lia.
    + right; right. split; [lia|]. destruct Hres as [Hres|Hres]; [by right|by left].
Qed.

(** *** [freevm] *)
Definition from (i : Z) T : gmap Z Z := filter (fun dt => i <= dt.1) T.
Lemma from_step i T :
  match T !! i with Some t => vals (from i T) ≡ₚ t :: vals (from (i + 1) T) | None => from i T = from (i + 1) T end.
Proof.
  destruct (T !! i) as [t|] eqn:E.
  - assert (from i T = <[i := t]> (from (i + 1) T)) as ->.
    { apply map_eq. intros j. unfold from. destruct (decide (j = i)) as [->|].
      - rewrite lookup_insert_eq. apply map_lookup_filter_Some. cbn. split; [done|lia].
      - rewrite lookup_insert_ne by done. apply option_eq. intros u. rewrite !map_lookup_filter_Some. cbn. naive_solver lia. }
    apply vals_insert. apply map_lookup_filter_None. right. cbn. lia.
  - apply map_eq. intros j. apply option_eq. intros u. unfold from. rewrite !map_lookup_filter_Some. cbn.
    destruct (decide (j = i)) as [->|]; [naive_solver|]. naive_solver lia.
Qed.

Lemma free_tables k l pd T :
  shape k l pd T ->
  exists k' l', for_loop (A := unit) (fun i =>
      e <- get (u32 (pd + 4 * Z.of_nat i)) ;;
      when (present e) (kfree end_ (P2V (PTE_ADDR e))) ;;; ret None) 0 NPDENTRIES k = Ret None k' /\
    inv k' l' /\ l' ≡ₚ vals T ++ l /\ only (ram k) (ram k') (vals T).
Proof.
  intros Hs. pose proof (shape_pd end_ Hend0 _ _ _ _ Hs) as Hpd.
  pose proof (sh_nodup _ _ _ _ _ Hs) as [Hpn Hnd]%NoDup_cons.
  assert (Hpt : Forall page (vals T)) by (pose proof (sh_page _ _ _ _ _ Hs) as [_ ?]%Forall_cons; done).
  destruct (for_loop_inv (A := unit) (fun i =>
      e <- get (u32 (pd + 4 * Z.of_nat i)) ;;
      when (present e) (kfree end_ (P2V (PTE_ADDR e))) ;;; ret None)
    (fun i s => exists lf, inv s lf /\ vals (from (Z.of_nat i) T) ++ lf ≡ₚ vals T ++ l /\ only (ram k) (ram s) (vals T))
    0 NPDENTRIES k) as (k' & Hl & l' & Hi & Hp & Hon).
  - exists l. split_and!; [apply Hs| |apply only_refl]. replace (from (Z.of_nat 0) T) with T; [done|].
    symmetry. apply map_filter_id. intros d t Ht. destruct (sh_some _ _ _ _ _ Hs _ _ Ht). cbn. lia.
  - intros j s Hj (lf & Hi & Hp & Hon). unfold NPDENTRIES in Hj.
    destruct (entry_addr end_ Hend0 pd (Z.of_nat j) Hpd) as [-> Hne]; [lia|].
    rewrite (bind_Ret _ _ _ _ _ (get_ok _ _ Hne)).
    assert (load32 (ram s) (pd + 4 * Z.of_nat j) = load32 (ram k) (pd + 4 * Z.of_nat j)) as ->.
    { apply (only_word end_ _ _ (vals T)); [done|done|done| |lia]. clear - Hpn. set_solver. }
    pose proof (from_step (Z.of_nat j) T) as Hst. replace (Z.of_nat (S j)) with (Z.of_nat j + 1) by lia.
    destruct (T !! Z.of_nat j) as [t|] eqn:Et.
    + destruct (sh_some _ _ _ _ _ Hs _ _ Et) as (_ & -> & ->). cbn [when].
      rewrite Hst in Hp. cbn in Hp.
      assert (Htn : t ∉ lf). { rewrite <- Hp in Hnd. apply NoDup_cons in Hnd as [Hnd _]. clear - Hnd. set_solver. }
      destruct (kfree_spec end_ Hend0 s lf t Hi (shape_tab end_ Hend0 _ _ _ _ _ _ Hs Et) Htn) as (s' & Hk & Hi' & _ & Hr).
      exists s'. rewrite (bind_Ret _ _ _ _ _ Hk). split; [done|]. exists (t :: lf). split_and!; [done| |].
      * by rewrite <- Permutation_middle.
      * eapply only_trans; [done|]. intros x Hx. apply Hr, Hx, elem_of_vals. eauto.
    + rewrite (sh_none _ _ _ _ _ Hs (Z.of_nat j) ltac:(lia) Et). exists s. split; [done|]. rewrite <- Hst. eauto.
  - exists k', l'. split_and!; [done..| |done]. replace (from _ T) with (∅ : gmap Z Z) in Hp; [done|].
    symmetry. apply map_empty. intros d. apply map_lookup_filter_None. right. intros t Ht Hle.
    destruct (sh_some _ _ _ _ _ Hs _ _ Ht) as [? _]. change (1024 <= d) in Hle. lia.
Qed.

Lemma freevm_ok k l pd T U :
  uspace k l pd T U ->
  exists k' l', freevm end_ pd k = Ret tt k' /\ inv k' l' /\ l' ≡ₚ pd :: vals T ++ vals U ++ l /\
    only (ram k) (ram k') (pd :: vals T ++ vals U ++ l).
Proof.
  intros Hu. unfold freevm. pose proof (shape_pd end_ Hend0 _ _ _ _ (us_shape _ _ _ _ _ Hu)) as Hpd.
  destruct (Z.eqb_spec pd 0) as [|_]; [destruct Hpd as (_ & ? & _); unfold KERNBASE in *; lia|].
  destruct (deallocuvm_ok k l pd T U 0 KERNBASE Hu) as (k1 & l1 & H1 & Hu1 & Hp1 & _ & Ho1 & _);
    [unfold KERNBASE; lia|unfold KERNBASE; lia|]. rewrite (bind_Ret _ _ _ _ _ H1).
  change (PGROUNDUP 0) with 0 in *. assert (HU : cut 0 KERNBASE U = ∅).
  { apply map_empty. intros n. rewrite lookup_cut. case_bool_decide as Hn; [done|].
    destruct (U !! n) as [f|] eqn:E; [|done]. destruct (us_some _ _ _ _ _ Hu _ _ E) as [?%upage_range _]. lia. }
  rewrite HU in Hu1, Hp1. cbn in Hp1.
  destruct (free_tables k1 l1 pd T (us_shape _ _ _ _ _ Hu1)) as (k2 & l2 & H2 & Hi2 & Hp2 & Ho2).
  rewrite (bind_Ret _ _ _ _ _ H2).
  assert (Hpn : pd ∉ l2). { rewrite Hp2, Hp1. pose proof (us_nodup _ _ _ _ _ Hu) as [? _]%NoDup_cons. done. }
  destruct (kfree_spec end_ Hend0 k2 l2 pd Hi2 Hpd Hpn) as (k3 & H3 & Hi3 & _ & Hr3).
  exists k3, (pd :: l2). split_and!; [done|done|by rewrite Hp2, Hp1|].
  eapply only_trans; [eapply only_mono; [done|]|eapply only_trans; [eapply only_mono; [done|]|]].
  - intros q. rewrite elem_of_cons, Hp1. by right.
  - clear. set_solver.
  - intros x Hx. apply Hr3, Hx. by left.
Qed.

(** *** [setupkvm] *)
Definition kpages (e : kmapent) : nat := Z.to_nat (u32 (phys_end e - phys_start e) / PGSIZE).
Definition kmapped (E : Z -> Z) (e : kmapent) : Z -> Z := mapped (virt e) (phys_start e) (kperm e) (kpages e) E.

(** The ranges are whole pages and do not overlap. *)
Inductive sorted : Z -> list kmapent -> Prop :=
| sorted_nil lo : sorted lo []
| sorted_cons lo e es sz :
    lo <= virt e -> virt e mod PGSIZE = 0 -> sz = u32 (phys_end e - phys_start e) -> sz mod PGSIZE = 0 -> 0 < sz ->
    virt e + sz <= 2 ^ 32 -> phys_start e mod PGSIZE = 0 -> 0 <= phys_start e -> phys_start e + sz <= 2 ^ 32 ->
    0 <= kperm e < PGSIZE -> sorted (virt e + sz) es -> sorted lo (e :: es).

Lemma setupkvm_loop_ok es : forall k l pd T lo E,
  uspace k l pd T ∅ -> KERNBASE <= lo -> sorted lo es ->
  (forall va, 0 <= va < 2 ^ 32 -> entry (ram k) T va = E va) ->
  (forall va, 0 <= va < 2 ^ 32 -> lo <= va -> present (E va) = false) ->
  exists r k' l', setupkvm_loop end_ pd es k = Ret r k' /\ only (ram k) (ram k') (pd :: vals T ++ l) /\
    ((r = pd /\ exists T', uspace k' l' pd T' ∅ /\ vals T' ++ l' ≡ₚ vals T ++ l /\
      forall va, 0 <= va < 2 ^ 32 -> entry (ram k') T' va = fold_left kmapped es E va) \/
     (r = 0 /\ inv k' l' /\ l' ≡ₚ pd :: vals T ++ l /\ (length (vals T ++ l) <= 1024)%nat)).
Proof.
  induction es as [|e es IH]; intros k l pd T lo E Hu Hlo Hso He Habs; cbn [setupkvm_loop fold_left].
  { exists pd, k, l. split_and!; [done|apply only_refl|]. left. split; [done|]. by exists T. }
  inversion Hso as [|? ? ? sz H1 H2 H3 H4 H5 H6 H7 H8 H9 H10 H11]; subst. set (sz := u32 (phys_end e - phys_start e)) in *.
  pose proof (aligned _ H2) as Hv. pose proof (aligned _ H4) as Hsz.
  assert (Hlast : (virt e + sz - 1) / PGSIZE = virt e / PGSIZE + sz / PGSIZE - 1).
  { symmetry. apply (Z.div_unique _ _ _ (PGSIZE - 1)); [left; unfold PGSIZE; lia|lia]. }
  assert (Hn : (1 <= kpages e)%nat /\ Z.of_nat (kpages e) = sz / PGSIZE).
  { unfold kpages. fold sz. unfold PGSIZE in *. lia. }
  destruct (mappages_ok end_ Hend0 k l pd T (virt e) sz (phys_start e) (kperm e) (kpages e - 1) (us_shape _ _ _ _ _ Hu))
    as (r & k1 & l1 & T1 & Hm & Hg & c & Hc & He1); try done.
  { unfold KERNBASE in *. lia. }
  { rewrite Hlast. lia. }
  { unfold PGSIZE in *. lia. }
  { intros va Hva [Hr _]. rewrite He by done. apply Habs; [done|].
    pose proof (Z.mul_div_le va PGSIZE ltac:(done)). unfold PGSIZE in *. lia. }
  rewrite (bind_Ret _ _ _ _ _ Hm).
  assert (Hu1 : uspace k1 l1 pd T1 ∅).
  { apply (uspace_keep k l pd T ∅); [done|apply Hg| |].
    - pose proof (us_nodup _ _ _ _ _ Hu) as Hnd. cbn in Hnd |- *. by rewrite (gr_keep _ _ _ _ _ _ _ _ Hg).
    - intros n Hn'. pose proof (upage_range n Hn') as Hr. rewrite He1 by lia. unfold mapped. cbn zeta.
      rewrite Z.div_mul by done. destruct (Z.leb_spec 0 (n - virt e / PGSIZE)); [|done].
      unfold KERNBASE, PGSIZE in *. lia. }
  destruct Hc as [[-> ->]|(-> & _ & ->)]; cbn [Z.ltb Z.compare].
  - destruct (IH k1 l1 pd T1 (virt e + sz) (kmapped E e) Hu1) as (r & k2 & l2 & Hl2 & Ho2 & Hr2); [lia|done| | |].
    + intros va Hva. rewrite He1 by done. unfold kmapped, mapped. cbn zeta. rewrite He by done.
      by replace (S (kpages e - 1)) with (kpages e) by lia.
    + intros va Hva Hge. unfold kmapped, mapped. cbn zeta.
      assert (virt e / PGSIZE + sz / PGSIZE <= va / PGSIZE) by (apply Z.div_le_lower_bound; unfold PGSIZE in *; lia).
      destruct (Z.ltb_spec (va / PGSIZE - virt e / PGSIZE) (Z.of_nat (kpages e))); [lia|].
      rewrite andb_false_r. apply Habs; [done|lia].
    + exists r, k2, l2. split_and!; [done| |].
      * eapply only_trans; [apply Hg|]. eapply only_mono; [done|]. intros q. rewrite !elem_of_cons, (gr_keep _ _ _ _ _ _ _ _ Hg). done.
      * destruct Hr2 as [(-> & T2 & Hu2 & Hp2 & He2)|(-> & Hi2 & Hp2 & Hn2)]; [left|right]; split_and!; try done.
        -- exists T2. split_and!; [done|by rewrite Hp2, (gr_keep _ _ _ _ _ _ _ _ Hg)|done].
        -- by rewrite Hp2, (gr_keep _ _ _ _ _ _ _ _ Hg).
        -- by rewrite (gr_keep _ _ _ _ _ _ _ _ Hg) in Hn2.
  - destruct (freevm_ok k1 [] pd T1 ∅ Hu1) as (k2 & l2 & Hf & Hi2 & Hp2 & Ho2). rewrite (bind_Ret _ _ _ _ _ Hf).
    cbn in Hp2, Ho2. pose proof (gr_keep _ _ _ _ _ _ _ _ Hg) as Hk. exists 0, k2, l2. split_and!; [done| |right; split_and!; [done..|by rewrite Hp2, Hk|]].
    2: { rewrite <- Hk, app_nil_r. by eapply tables_bound, us_shape. }
    eapply only_trans; [apply Hg|]. eapply only_mono; [done|]. intros q. by rewrite !elem_of_cons, Hk.
Qed.

Section data.
(** [kernel.ld] puts [data] on a page after the read-only part of the kernel. *)
Variable data : Z.
Hypothesis Hdata : KERNLINK < data < P2V PHYSTOP.
Hypothesis Hdalign : data mod PGSIZE = 0.

(** The kernel's part of every page table. *)
Definition kernel_entry (va : Z) : Z := fold_left kmapped (kmap data) (fun _ => 0) va.

Lemma kmap_sorted : sorted KERNBASE (kmap data).
Proof.
  assert (Hd : 2148532224 < data < 2382364672) by exact Hdata.
  assert (Hv : V2P data = data - 2147483648) by (unfold V2P, KERNBASE; rewrite u32_id; lia).
  assert (Hvm : V2P data mod PGSIZE = 0) by (rewrite Hv, Zminus_mod, Hdalign; done).
  unfold kmap. econstructor; [done|done|done|done|done|done|done|done|done|done|].
  econstructor; cbn [virt phys_start phys_end kperm]; [done|done|done| | | |done|done| |done|];
    change (V2P KERNLINK) with 1048576; rewrite u32_id by (rewrite Hv; lia);
    try (rewrite Hv; change KERNLINK with 2148532224; lia).
  { by rewrite Zminus_mod, Hvm. }
  econstructor; cbn [virt phys_start phys_end kperm]; [rewrite Hv; change KERNLINK with 2148532224; lia|done|done| | | |done|apply u32_range| |done|];
    change PHYSTOP with 234881024; rewrite u32_id by (rewrite Hv; lia); try (rewrite Hv; lia).
  { by rewrite Zminus_mod, Hvm. }
  econstructor; cbn [virt phys_start phys_end kperm]; [rewrite Hv; unfold DEVSPACE; lia|done..|]. constructor.
Qed.

Lemma shape_new k p l :
  inv k l -> page p -> p ∉ l -> NoDup l ->
  shape (with_ram k (memset (ram k) p 0 PGSIZE)) l p ∅.
Proof.
  intros Hi Hp Hn Hnd. split; [| |by constructor|done|].
  - apply (inv_frame end_ k _ l [p]); [done..|apply only_memset|by apply Forall_singleton|].
    by intros q ->%list_elem_of_singleton.
  - by apply Forall_singleton.
  - intros d Hd _. cbn. by rewrite load32_memset0.
Qed.

Lemma setupkvm_ok k l :
  inv k l ->
  exists r k' l', setupkvm end_ data k = Ret r k' /\ only (ram k) (ram k') l /\
    ((r <> 0 /\ exists T', uspace k' l' r T' ∅ /\ r :: vals T' ++ l' ≡ₚ l /\
      forall va, 0 <= va < 2 ^ 32 -> entry (ram k') T' va = kernel_entry va) \/
     (r = 0 /\ inv k' l' /\ l' ≡ₚ l /\ (length l <= 1025)%nat)).
Proof.
  intros Hi. unfold setupkvm. destruct (kalloc_spec end_ Hend0 k l Hi) as (k1 & H1 & Hi1 & _ & Hr1).
  rewrite (bind_Ret _ _ _ _ _ H1). destruct l as [|p l].
  { exists 0, k1, []. split_and!; [done|rewrite Hr1; apply only_refl|right]. split_and!; (done || cbn; lia). }
  change (default 0 (head (p :: l))) with p. cbn in Hi1.
  pose proof (inv_pages _ _ _ Hi) as [Hp _]%Forall_cons. pose proof (inv_nodup _ _ _ Hi) as [Hpn Hnd]%NoDup_cons.
  destruct (Z.eqb_spec p 0); [destruct Hp as (_ & ? & _); unfold KERNBASE in *; lia|].
  rewrite (bind_Ret _ _ _ tt (with_ram k1 (memset (ram k1) p 0 PGSIZE))) by done.
  replace (DEVSPACE <? P2V PHYSTOP) with false by reflexivity.
  set (k2 := with_ram k1 (memset (ram k1) p 0 PGSIZE)).
  assert (Hu : uspace k2 l p ∅ ∅).
  { split; [by apply shape_new|constructor|by constructor|done|done]. }
  destruct (setupkvm_loop_ok (kmap data) k2 l p ∅ KERNBASE (fun _ => 0) Hu) as (r & k' & l' & Hs & Hon & Hr);
    [done|apply kmap_sorted|done|done|].
  exists r, k', l'. split_and!; [done| |].
  - eapply only_trans; [|exact Hon]. rewrite <- Hr1. eapply only_mono; [apply only_memset|]. clear. set_solver.
  - destruct Hr as [(-> & T' & Hu' & Hp' & He')|(-> & Hi' & Hp' & Hn')]; [left|right; split_and!; [done..|change (vals ∅ ++ l) with l in Hn'; cbn [length]; lia]].
    split; [done|]. exists T'. split_and!; [done|by rewrite Hp'|done].
Qed.

(** *** [copyuvm] *)

(** A space whose directory and tables are not written stays. *)
Lemma uspace_other k l pd T U k' l' ps :
  uspace k l pd T U -> inv k' l' -> only (ram k) (ram k') ps -> Forall page ps ->
  (forall p, p ∈ ps -> p ∉ pd :: vals T) -> NoDup (pd :: vals T ++ vals U ++ l') ->
  uspace k' l' pd T U /\ forall va, entry (ram k') T va = entry (ram k) T va.
Proof.
  intros Hu Hi Hon Hps Hd Hnd. pose proof (us_shape _ _ _ _ _ Hu) as Hs.
  assert (He : forall va, entry (ram k') T va = entry (ram k) T va).
  { intros va. apply (entry_frame k l pd T _ ps); [done..|]. intros t Ht Hp. apply (Hd t Hp). by right. }
  split; [|done]. apply (uspace_keep k l pd T U); [done| |done|done].
  apply (shape_move end_ Hend0 k k' l l' pd T ps); [done..| |done|done|].
  - eapply sublist_NoDup; [exact Hnd|]. apply sublist_skip, sublist_app; [done|]. by apply sublist_inserts_l.
  - intros Hp. apply (Hd pd Hp). by left.
Qed.

Lemma PTE_FLAGS_range e : 0 <= PTE_FLAGS e < PGSIZE.
Proof. unfold PTE_FLAGS. change 4095 with (Z.ones 12). rewrite Z.land_ones by lia. by apply Z.mod_pos_bound. Qed.

Section copy.
(** The parent and its size. *)
Variables (pd sz : Z) (T U : gmap Z Z).
Hypothesis Hsz : 0 <= sz <= KERNBASE.
Hypothesis Hall : forall n, 0 <= n -> n * PGSIZE < sz -> is_Some (U !! n).

(** Page [n] of the child has the contents and the flags of the parent's. *)
Definition copied (m m' : mem) (Td Ud : gmap Z Z) n : Prop :=
  exists f f', U !! n = Some f /\ Ud !! n = Some f' /\
    entry m' Td (n * PGSIZE) = pte (V2P f') (PTE_FLAGS (entry m T (n * PGSIZE))) /\
    forall x, 0 <= x < PGSIZE -> m' (f' + x) = m (f + x).

Definition both k l d (Td Ud : gmap Z Z) : Prop :=
  uspace k l pd T U /\ uspace k l d Td Ud /\
  NoDup ((pd :: vals T ++ vals U) ++ (d :: vals Td ++ vals Ud) ++ l).

(** [memmove] of a page onto another. *)
Lemma page_move (m : mem) p f :
  only m (memmove m p f PGSIZE) [p] /\ forall x, 0 <= x < PGSIZE -> memmove m p f PGSIZE (p + x) = m (f + x).
Proof.
  assert (Hmv : forall x, memmove m p f PGSIZE x = if (p <=? x) && (x <? p + PGSIZE) then m (f + (x - p)) else m x).
  { intros x. apply StringFacts.memmove_range. by unfold PGSIZE. }
  split; intros x Hx; rewrite Hmv.
  - specialize (Hx p ltac:(by left)). destruct (Z.leb_spec p x), (Z.ltb_spec x (p + PGSIZE)); (done || lia).
  - destruct (Z.leb_spec p (p + x)), (Z.ltb_spec (p + x) (p + PGSIZE)); try lia. cbn. f_equal. lia.
Qed.

Definition same_parent (m m' : mem) : Prop :=
  (forall va, entry m' T va = entry m T va) /\
  forall n f x, U !! n = Some f -> 0 <= x < PGSIZE -> m' (f + x) = m (f + x).

Lemma parent_keep k l k' l' ps :
  uspace k l pd T U -> inv k' l' -> l' ⊆ ps -> only (ram k) (ram k') ps -> Forall page ps ->
  (forall q, q ∈ ps -> q ∉ pd :: vals T ++ vals U) ->
  uspace k' l' pd T U /\ same_parent (ram k) (ram k').
Proof.
  intros Hup Hi Hl Hon Hpg Hdis. destruct (uspace_other k l pd T U k' l' ps) as [Hup' He]; try done.
  - intros q Hq Hq'. apply (Hdis q Hq). clear - Hq'. set_solver.
  - rewrite (app_assoc (vals T)). change (NoDup ((pd :: vals T ++ vals U) ++ l')). apply NoDup_app. split_and!; [| |apply Hi].
    + pose proof (us_nodup _ _ _ _ _ Hup) as Hnd. rewrite (app_assoc (vals T)) in Hnd.
      change (NoDup ((pd :: vals T ++ vals U) ++ l)) in Hnd. by apply NoDup_app in Hnd as (? & _).
    + intros q Hq Hq'. by apply (Hdis q); [apply Hl|].
  - split; [done|]. split; [done|]. intros n f x Hf Hx. apply Hon. intros q Hq.
    rewrite Forall_forall in Hpg. pose proof (uspace_frame_page _ _ _ _ _ _ _ Hup Hf) as Hpf.
    destruct (page_apart end_ f q Hpf (Hpg q Hq)) as [|]; [|lia..]. intros ->. apply (Hdis q Hq).
    right. apply elem_of_app. right. apply elem_of_vals. eauto.
Qed.

Lemma parent_kept k l d Td Ud k' l' :
  both k l d Td Ud -> inv k' l' -> l' ⊆ d :: vals Td ++ vals Ud ++ l ->
  only (ram k) (ram k') (d :: vals Td ++ vals Ud ++ l) ->
  uspace k' l' pd T U /\ same_parent (ram k) (ram k').
Proof.
  intros (Hup & Huc & Hnd) Hi Hl Hon. apply NoDup_app in Hnd as (Hndp & Hd & Hndc).
  apply (parent_keep k l k' l' (d :: vals Td ++ vals Ud ++ l)); [done..| |].
  - apply Forall_forall. intros q Hq. pose proof (us_page _ _ _ _ _ Huc) as Hpu. rewrite Forall_forall in Hpu.
    assert (q ∈ d :: vals Td ++ l \/ q ∈ vals Ud) as [Hq'|Hq'] by (clear - Hq; set_solver); [|by apply Hpu].
    apply (shape_page end_ Hend0 k l d Td); [apply Huc|done].
  - intros q Hq Hq'. apply (Hd q Hq'). clear - Hq. set_solver.
Qed.

Lemma both_step k l d Td Ud k' l' Td' Ud' :
  both k l d Td Ud -> uspace k' l' d Td' Ud' -> vals Td' ++ vals Ud' ++ l' ≡ₚ vals Td ++ vals Ud ++ l ->
  only (ram k) (ram k') (d :: vals Td ++ vals Ud ++ l) ->
  both k' l' d Td' Ud' /\ same_parent (ram k) (ram k').
Proof.
  intros Hb Hu Hp Hon. destruct (parent_kept k l d Td Ud k' l' Hb) as [Hup Hsp]; [apply Hu| |done|].
  - intros q Hq. rewrite elem_of_cons, <- Hp. clear - Hq. set_solver.
  - split; [|done]. split_and!; [done..|]. destruct Hb as (_ & _ & Hnd). cbn in Hnd |- *.
    by rewrite <- !app_assoc, Hp, !app_assoc, <- (app_assoc (vals T) _ (_ :: _)), <- !app_assoc in *.
Qed.

Lemma copied_parent m m1 m' Td Ud n : same_parent m m1 -> copied m1 m' Td Ud n -> copied m m' Td Ud n.
Proof.
  intros [He Hc] (f & f' & Hf & Hf' & Hen & Hx). exists f, f'. rewrite <- He. split_and!; [done..|].
  intros x Hr. rewrite Hx by done. by eapply Hc.
Qed.

Definition copy_done (n : Z) k l d Td Ud k' l' Td' Ud' : Prop :=
  both k' l' d Td' Ud' /\ vals Td' ++ vals Ud' ++ l' ≡ₚ vals Td ++ vals Ud ++ l /\
  only (ram k) (ram k') (d :: vals Td ++ l) /\
  (forall j, ~ (n <= j /\ j * PGSIZE < sz) -> Ud' !! j = Ud !! j) /\
  (forall j, n <= j -> j * PGSIZE < sz -> copied (ram k) (ram k') Td' Ud' j) /\
  forall va, 0 <= va < 2 ^ 32 -> va < n * PGSIZE \/ KERNBASE <= va -> entry (ram k') Td' va = entry (ram k) Td va.

Lemma copy_step k p l d Td Ud n f k1 l1 Td1 k2 l2 Td2 Ud2 :
  0 <= n < UPAGES -> n * PGSIZE < sz -> U !! n = Some f -> Ud !! n = None ->
  both k (p :: l) d Td Ud -> both k1 l1 d Td1 (<[n := p]> Ud) -> same_parent (ram k) (ram k1) ->
  vals Td1 ++ l1 ≡ₚ vals Td ++ l -> only (ram k) (ram k1) (d :: vals Td ++ p :: l) ->
  (forall va, 0 <= va < 2 ^ 32 -> va / PGSIZE <> n -> entry (ram k1) Td1 va = entry (ram k) Td va) ->
  entry (ram k1) Td1 (n * PGSIZE) = pte (V2P p) (PTE_FLAGS (entry (ram k) T (n * PGSIZE))) ->
  (forall x, 0 <= x < PGSIZE -> ram k1 (p + x) = ram k (f + x)) ->
  copy_done (n + 1) k1 l1 d Td1 (<[n := p]> Ud) k2 l2 Td2 Ud2 ->
  copy_done n k (p :: l) d Td Ud k2 l2 Td2 Ud2.
Proof.
  intros Hn Hns Hf Hun Hb Hb1 Hsp Hk Ho1 He1 Hen Hcp (Hb2 & Hp2 & Ho2 & Hlk & Hcd & He2). pose proof (upage_range n Hn) as Hr.
  split_and!; [done| | | | |].
  - rewrite Hp2, vals_insert by done. cbn. rewrite <- Permutation_middle, perm_mid. constructor. by apply perm_outer.
  - eapply only_trans; [done|]. eapply only_mono; [done|]. intros q. rewrite !elem_of_cons, Hk. clear. set_solver.
  - intros j Hj. rewrite Hlk by lia. apply lookup_insert_ne. lia.
  - intros j Hj Hjs. destruct (decide (j = n)) as [->|Hne]; [|apply (copied_parent (ram k) (ram k1)); [done|apply Hcd; lia]].
    exists f, p. split_and!; [done| | |].
    + rewrite Hlk by lia. apply lookup_insert_eq.
    + rewrite He2; [done|lia|unfold PGSIZE in *; lia].
    + intros x Hx. rewrite <- Hcp by done. destruct Hb1 as (_ & Hu1 & _).
      apply (contents_kept d k1 l1 Td1 (<[n := p]> Ud) n p); [done|apply lookup_insert_eq|done|lia].
  - intros va Hva Hv. rewrite He2; [|done|unfold PGSIZE in *; lia]. apply He1; [done|]. apply page_ne.
    unfold KERNBASE, PGSIZE, UPAGES in *. change (2147483648 / 4096) with 524288 in Hn. lia.
Qed.

Lemma copyuvm_loop_ok fuel : forall k l d Td Ud n,
  both k l d Td Ud -> 0 <= n -> sz <= n * PGSIZE + Z.of_nat fuel * PGSIZE ->
  (forall j f, Ud !! j = Some f -> j < n) ->
  exists r k' l', copyuvm_loop end_ fuel pd d (n * PGSIZE) sz k = Ret r k' /\
    only (ram k) (ram k') (d :: vals Td ++ vals Ud ++ l) /\
    ((r = d /\ exists Td' Ud', copy_done n k l d Td Ud k' l' Td' Ud') \/
     (r = 0 /\ inv k' l' /\ l' ≡ₚ d :: vals Td ++ vals Ud ++ l)).
Proof.
  induction fuel as [|fuel IH]; intros k l d Td Ud n Hb Hn0 Hf Hmax; cbn [copyuvm_loop];
    (destruct (Z.ltb_spec (n * PGSIZE) sz) as [Hlt|Hge]; cbn [negb];
      [|exists d, k, l; split_and!; [done|apply only_refl|left]; split; [done|]; exists Td, Ud;
        split_and!; try done; intros j Hj Hjs; unfold PGSIZE in *; lia]); [lia|].
  assert (Hn : 0 <= n < UPAGES) by (unfold UPAGES, KERNBASE, PGSIZE in *; change (2147483648 / 4096) with 524288; lia).
  destruct (Hall n Hn0 Hlt) as [f Hfn]. pose proof Hb as (Hup & Hu & Hnd).
  destruct (uspace_tab _ _ _ _ _ _ _ Hup Hfn) as [t Ht]. pose proof (us_shape _ _ _ _ _ Hup) as Hs.
  rewrite (bind_Ret _ _ _ _ _ (walkpgdir_hit end_ Hend0 _ _ _ _ _ _ _ Hs Ht)).
  destruct (entry_addr end_ Hend0 t (PTX (n * PGSIZE)) (shape_tab end_ Hend0 _ _ _ _ _ _ Hs Ht) (PTX_range _)) as [_ Hne].
  destruct (Z.eqb_spec (t + 4 * PTX (n * PGSIZE)) 0) as [|_]; [done|]. rewrite (bind_Ret _ _ _ _ _ (get_ok _ _ Hne)).
  assert (load32 (ram k) (t + 4 * PTX (n * PGSIZE)) = entry (ram k) T (n * PGSIZE)) as -> by (unfold entry; by rewrite Ht).
  destruct (us_some _ _ _ _ _ Hup _ _ Hfn) as (_ & -> & Hfa). cbn [negb].
  destruct l as [|p l].
  - destruct (kalloc_none k d Td Ud Hu) as (k1 & H1 & Hr1 & Hu1). rewrite (bind_Ret _ _ _ _ _ H1). cbn [Z.eqb].
    destruct (freevm_ok k1 [] d Td Ud Hu1) as (k2 & l2 & H2 & Hi2 & Hp2 & Ho2). rewrite (bind_Ret _ _ _ _ _ H2).
    rewrite Hr1 in Ho2. exists 0, k2, l2. split_and!; [done..|]. by right.
  - assert (Hun : Ud !! n = None) by (destruct (Ud !! n) as [?|] eqn:E; [apply Hmax in E; lia|done]).
    destruct (page_move (ram k) p f) as [Hmo Hmc].
    destruct (fresh_turn k p l d Td Ud n (fun m => memmove m p f PGSIZE) (PTE_FLAGS (entry (ram k) T (n * PGSIZE))) Hu Hn Hun)
      as (k1 & k2 & r & l' & T' & H1 & Hp0 & Hpp & Hm & HT & Hk & Ho2 & He2 & Hr); [apply PTE_FLAGS_range|done|].
    rewrite (bind_Ret _ _ _ _ _ H1). destruct (Z.eqb_spec p 0) as [|_]; [done|]. rewrite Hfa.
    rewrite (bind_Ret _ _ _ tt (with_ram k1 (memmove (ram k1) p f PGSIZE))) by done. rewrite (bind_Ret _ _ _ _ _ Hm).
    assert (Ho2' : only (ram k) (ram k2) (d :: vals Td ++ vals Ud ++ p :: l)) by (eapply only_mono; [done|clear; set_solver]).
    destruct Hr as [(-> & Hu2 & Hen & Hbl)|(-> & _ & Hu2 & Hnp)]; cbn [Z.ltb Z.compare].
    + assert (Hpe : vals T' ++ vals (<[n := p]> Ud) ++ l' ≡ₚ vals Td ++ vals Ud ++ p :: l).
      { rewrite vals_insert by done. cbn. rewrite <- Permutation_middle, perm_mid. constructor. by apply perm_outer. }
      destruct (both_step k (p :: l) d Td Ud k2 l' T' (<[n := p]> Ud) Hb Hu2 Hpe Ho2') as [Hb2 Hsp].
      rewrite u32_id by (unfold KERNBASE, PGSIZE in *; lia). replace (n * PGSIZE + PGSIZE) with ((n + 1) * PGSIZE) by lia.
      destruct (IH k2 l' d T' (<[n := p]> Ud) (n + 1) Hb2) as (r & k3 & l3 & H3 & Ho3 & Hr3); [lia|lia| |].
      { intros j fj [[<- <-]|[_ Hj]]%lookup_insert_Some; [lia|]. apply Hmax in Hj. lia. }
      exists r, k3, l3. split_and!; [done| |].
      * eapply only_trans; [done|]. eapply only_mono; [done|]. intros q. by rewrite !elem_of_cons, Hpe.
      * destruct Hr3 as [(-> & Td3 & Ud3 & Hd3)|(-> & Hi3 & Hp3)]; [left|right; split_and!; [done|done|by rewrite Hp3, Hpe]].
        split; [done|]. exists Td3, Ud3. eapply (copy_step k p l d Td Ud n f k2 l'); try done.
        intros x Hx. by rewrite Hbl, Hmc by lia.
    + destruct (free_page k2 l' d T' Ud p Hu2 Hpp Hnp) as (k3 & H3 & Hu3 & Ho3). rewrite (bind_Ret _ _ _ _ _ H3).
      destruct (freevm_ok k3 (p :: l') d T' Ud Hu3) as (k4 & l4 & H4 & Hi4 & Hp4 & Ho4). rewrite (bind_Ret _ _ _ _ _ H4).
      assert (Hpe : d :: vals T' ++ vals Ud ++ p :: l' ≡ₚ d :: vals Td ++ vals Ud ++ p :: l).
      { rewrite !perm_mid. do 2 constructor. by apply perm_outer. }
      exists 0, k4, l4. split_and!; [done| |right; split_and!; [done|done|by rewrite Hp4]].
      eapply only_trans; [done|]. eapply only_trans; [eapply only_mono; [done|clear; set_solver]|].
      eapply only_mono; [done|]. intros q. by rewrite Hpe.
Qed.

Lemma copyuvm_ok k l :
  uspace k l pd T U ->
  exists r k' l', copyuvm end_ data pd sz k = Ret r k' /\ uspace k' l' pd T U /\ same_parent (ram k) (ram k') /\
    (r = 0 /\ l' ≡ₚ l \/
     r <> 0 /\ exists Td Ud, both k' l' r Td Ud /\ r :: vals Td ++ vals Ud ++ l' ≡ₚ l /\
      (forall n, 0 <= n -> n * PGSIZE < sz -> copied (ram k) (ram k') Td Ud n) /\
      (forall n f, Ud !! n = Some f -> 0 <= n /\ n * PGSIZE < sz) /\
      forall va, KERNBASE <= va < 2 ^ 32 -> entry (ram k') Td va = kernel_entry va).
Proof.
  intros Hu. unfold copyuvm.
  assert (Hi : inv k l) by apply Hu.
  destruct (setupkvm_ok k l Hi) as (d & k1 & l1 & H1 & Ho1 & Hr1). rewrite (bind_Ret _ _ _ _ _ H1).
  assert (Hndp : NoDup ((pd :: vals T ++ vals U) ++ l)).
  { pose proof (us_nodup _ _ _ _ _ Hu) as Hnd. cbn. by rewrite <- app_assoc. }
  assert (Hrest : forall k' l', inv k' l' -> l' ⊆ l -> only (ram k) (ram k') l ->
    uspace k' l' pd T U /\ same_parent (ram k) (ram k')).
  { intros k' l' Hi' Hl' Hon'. apply (parent_keep k l k' l' l); [done..|apply Hi|].
    intros q Hq Hq'. apply NoDup_app in Hndp as (_ & Hd & _). by apply (Hd q). }
  destruct Hr1 as [(Hd0 & Td & Hud & Hpd & Hed)|(-> & Hi1 & Hp1 & _)]; [|
    exists 0, k1, l1; destruct (Hrest k1 l1) as [? ?]; [done|intros q; by rewrite Hp1|done|];
    split_and!; [done..|by left]].
  destruct (Z.eqb_spec d 0) as [|_]; [done|].
  destruct (Hrest k1 l1) as [Hup1 Hsp1]; [apply Hud|intros q; rewrite <- Hpd; clear; set_solver|done|].
  assert (Hb : both k1 l1 d Td ∅).
  { split_and!; [done..|]. cbn. rewrite app_nil_r. change (NoDup ((pd :: vals T ++ vals U) ++ (d :: vals Td ++ l1))). by rewrite Hpd. }
  destruct (copyuvm_loop_ok (Z.to_nat (sz / PGSIZE + 1)) k1 l1 d Td ∅ 0 Hb) as (r & k2 & l2 & H2 & Ho2 & Hr2); [lia| |done|].
  { assert (0 <= sz / PGSIZE) by (apply Z.div_pos; [lia|by unfold PGSIZE]). rewrite Z2Nat.id by lia.
    pose proof (Z.div_mod sz PGSIZE ltac:(done)). pose proof (Z.mod_pos_bound sz PGSIZE ltac:(done)). lia. }
  rewrite Z.mul_0_l in H2. exists r, k2, l2. cbn in Ho2.
  assert (Hon : only (ram k) (ram k2) l).
  { eapply only_trans; [done|]. eapply only_mono; [done|]. intros q. by rewrite <- Hpd. }
  destruct Hr2 as [(-> & Td' & Ud' & Hb2 & Hp2 & _ & Hlk & Hcd & He2)|(-> & Hi2 & Hp2)].
  - destruct (Hrest k2 l2) as [Hup2 Hsp2]; [by destruct Hb2 as (_ & ? & _); apply H| |done|].
    { intros q Hq. rewrite <- Hpd, elem_of_cons. right. revert q Hq. intros q Hq.
      assert (q ∈ vals Td ++ vals ∅ ++ l1) by (rewrite <- Hp2; clear - Hq; set_solver). done. }
    split_and!; [done..|right]. split; [done|]. exists Td', Ud'. split_and!; [done|by rewrite Hp2| | |].
    + intros n Hn Hns. apply (copied_parent (ram k) (ram k1)); [done|]. by apply Hcd.
    + intros n f Hf. destruct (decide (0 <= n /\ n * PGSIZE < sz)) as [|Hno]; [done|]. by rewrite Hlk in Hf.
    + intros va Hva. rewrite He2 by (unfold KERNBASE in *; lia). apply Hed. unfold KERNBASE in *; lia.
  - destruct (Hrest k2 l2) as [Hup2 Hsp2]; [done|intros q; by rewrite Hp2, <- Hpd|done|].
    split_and!; [done..|left]. split; [done|]. by rewrite Hp2.
Qed.
End copy.
End data.

(** *** [uva2ka] and [copyout] *)
Definition user (e : Z) : bool := negb (Z.land e PTE_U =? 0).
Lemma uva2ka_eq k l pd T va t :
  shape k l pd T -> T !! PDX va = Some t ->
  uva2ka pd va k = Ret (if present (entry (ram k) T va) && user (entry (ram k) T va) then P2V (PTE_ADDR (entry (ram k) T va)) else 0) k.
Proof.
  intros Hs Et. unfold uva2ka, user. rewrite (bind_Ret _ _ _ _ _ (walkpgdir_hit end_ Hend0 _ _ _ _ _ _ _ Hs Et)).
  destruct (entry_addr end_ Hend0 t (PTX va) (shape_tab end_ Hend0 _ _ _ _ _ _ Hs Et) (PTX_range va)) as [_ Hne].
  rewrite (bind_Ret _ _ _ _ _ (get_ok _ _ Hne)).
  assert (load32 (ram k) (t + 4 * PTX va) = entry (ram k) T va) as -> by (unfold entry; by rewrite Et).
  destruct (present (entry (ram k) T va)); [|done]. cbn [negb andb]. by destruct (Z.land (entry (ram k) T va) PTE_U =? 0).
Qed.
Lemma uva2ka_ok k l pd T U va f :
  uspace k l pd T U -> 0 <= va < KERNBASE -> U !! (va / PGSIZE) = Some f ->
  uva2ka pd va k = Ret (if user (entry (ram k) T va) then f else 0) k.
Proof.
  intros Hu Hva Hf. destruct (us_some _ _ _ _ _ Hu _ _ Hf) as (Hn & Hpr & Hfa).
  rewrite <- entry_page in Hpr, Hfa by (unfold KERNBASE in *; lia).
  destruct (T !! PDX va) as [t|] eqn:Et; [|unfold entry in Hpr; by rewrite Et in Hpr].
  rewrite (uva2ka_eq _ _ _ _ _ _ (us_shape _ _ _ _ _ Hu) Et). by rewrite Hpr, Hfa.
Qed.

(** The entry of a user page, found and read. *)
Lemma walk_user k l pd T U n f :
  uspace k l pd T U -> U !! n = Some f ->
  exists t, T !! PDX (n * PGSIZE) = Some t /\ let p := t + 4 * PTX (n * PGSIZE) in
    walkpgdir pd (n * PGSIZE) false k = Ret p k /\ p <> 0 /\ get p k = Ret (entry (ram k) T (n * PGSIZE)) k.
Proof.
  intros Hu Hf. destruct (uspace_tab _ _ _ _ _ _ _ Hu Hf) as [t Et]. exists t. split; [done|]. cbn zeta.
  pose proof (us_shape _ _ _ _ _ Hu) as Hs.
  destruct (entry_addr end_ Hend0 t (PTX (n * PGSIZE)) (shape_tab end_ Hend0 _ _ _ _ _ _ Hs Et) (PTX_range _)) as [_ Hne].
  split_and!; [by apply (walkpgdir_hit end_ Hend0 _ l _ T)|done|]. rewrite (get_ok _ _ Hne). unfold entry. by rewrite Et.
Qed.

(** Writing the contents of user pages. *)
Lemma uspace_write k l pd T U m :
  uspace k l pd T U -> only (ram k) m (vals U) ->
  uspace (with_ram k m) l pd T U /\ forall va, entry m T va = entry (ram k) T va.
Proof.
  intros Hu Hon. pose proof (us_nodup _ _ _ _ _ Hu) as [Hpd (Hn1 & Hn2 & (Hn3 & Hn4 & _)%NoDup_app)%NoDup_app]%NoDup_cons.
  pose proof (us_shape _ _ _ _ _ Hu) as Hs.
  assert (He : forall va, entry m T va = entry (ram k) T va).
  { intros va. apply (entry_frame k l pd T _ (vals U)); [done..|apply Hu|]. intros t Ht Ht'. apply (Hn2 t Ht), elem_of_app. by left. }
  split; [|done]. apply (uspace_keep k l pd T U); [done| |apply Hu|done].
  apply (shape_frame end_ Hend0 k _ l pd T (vals U)); [done..|apply Hu| |done]. clear - Hpd. set_solver.
Qed.

Lemma uspace_inj k l pd T U n n' f : uspace k l pd T U -> U !! n = Some f -> U !! n' = Some f -> n = n'.
Proof.
  intros Hu Hf Hf'. destruct (decide (n = n')) as [|Hne]; [done|]. exfalso.
  pose proof (us_nodup _ _ _ _ _ Hu) as [_ (_ & _ & (Hn3 & _)%NoDup_app)%NoDup_app]%NoDup_cons.
  rewrite (vals_delete U n f Hf) in Hn3. apply NoDup_cons in Hn3 as [Hn3 _]. apply Hn3, elem_of_vals.
  exists n'. by rewrite lookup_delete_ne.
Qed.

(** The pages of the range [va] to [va + len]. *)
Definition in_range (va len n : Z) : Prop := 0 < len /\ 0 <= n /\ va / PGSIZE <= n /\ n * PGSIZE < va + len.

(** The source does not change when user pages do. *)
Definition steady (buf : mem -> Z -> Z) (m : mem) U (i len : Z) : Prop :=
  forall m' j, only m m' (vals U) -> i <= j < i + len -> buf m' j = buf m j.

(** Bytes from the source in the range, the others as before. *)
Definition copied_out (m m' : mem) U (va : Z) (buf : mem -> Z -> Z) (i len : Z) : Prop :=
  forall n f x, U !! n = Some f -> 0 <= x < PGSIZE ->
    m' (f + x) = if (va <=? n * PGSIZE + x) && (n * PGSIZE + x <? va + len)
                 then buf m (i + (n * PGSIZE + x - va)) else m (f + x).

Lemma page_part va len :
  0 <= va -> 0 < len -> va + len <= KERNBASE ->
  let n0 := va / PGSIZE in let off := va - n0 * PGSIZE in let c := Z.min (PGSIZE - off) len in
  0 <= n0 /\ 0 <= off < PGSIZE /\ 0 < c <= len /\ off + c <= PGSIZE /\ (c < len -> off + c = PGSIZE) /\
  in_range va len n0 /\ 0 <= n0 * PGSIZE + PGSIZE <= KERNBASE /\
  forall n, in_range (n0 * PGSIZE + PGSIZE) (len - c) n -> in_range va len n /\ n0 < n.
Proof.
  intros Hva Hlen Hmax n0 off c.
  pose proof (Z.div_mod va PGSIZE ltac:(done)) as Hdm. pose proof (Z.mod_pos_bound va PGSIZE ltac:(done)) as Hmb.
  fold n0 in Hdm. assert (Hn0 : 0 <= n0) by (apply Z.div_pos; [done|by unfold PGSIZE]).
  unfold in_range. fold n0. split_and!; try (unfold off, c, KERNBASE, PGSIZE in *; lia).
  intros n (Hpos & Hn & Hge & Hlt). replace (n0 * PGSIZE + PGSIZE) with ((n0 + 1) * PGSIZE) in Hge by lia.
  rewrite Z.div_mul in Hge by done. unfold off, c, PGSIZE in *. lia.
Qed.

(** One page. *)
Lemma move_page k l pd T U n0 f0 off buf i c :
  uspace k l pd T U -> U !! n0 = Some f0 -> 0 <= off -> 0 <= c -> off + c <= PGSIZE ->
  let m1 := move_from buf (ram k) (f0 + off) i c in
  only (ram k) m1 (vals U) /\ uspace (with_ram k m1) l pd T U /\ (forall va, entry m1 T va = entry (ram k) T va) /\
  copied_out (ram k) m1 U (n0 * PGSIZE + off) buf i c.
Proof.
  intros Hu Hf0 Hoff Hc Hle m1.
  assert (Hm1 : forall x, m1 x = if (f0 + off <=? x) && (x <? f0 + off + c) then buf (ram k) (i + (x - (f0 + off))) else ram k x).
  { intros x. by apply StringFacts.move_from_range. }
  assert (Hon : only (ram k) m1 (vals U)).
  { intros x Hx. rewrite Hm1. specialize (Hx f0 ltac:(apply elem_of_vals; eauto)).
    destruct (Z.leb_spec (f0 + off) x), (Z.ltb_spec x (f0 + off + c)); (done || lia). }
  destruct (uspace_write k l pd T U m1 Hu Hon) as [Hu1 He1]. split_and!; [done..|].
  intros n f x Hf Hx. rewrite Hm1. destruct (decide (n = n0)) as [->|Hnn].
  - assert (f = f0) as -> by congruence.
    destruct (Z.leb_spec (f0 + off) (f0 + x)), (Z.leb_spec (n0 * PGSIZE + off) (n0 * PGSIZE + x)); cbn [andb]; try lia.
    destruct (Z.ltb_spec (f0 + x) (f0 + off + c)), (Z.ltb_spec (n0 * PGSIZE + x) (n0 * PGSIZE + off + c)); try lia.
    f_equal. lia.
  - assert (f + PGSIZE <= f0 \/ f0 + PGSIZE <= f).
    { pose proof (uspace_frame_page _ _ _ _ _ _ _ Hu Hf). pose proof (uspace_frame_page _ _ _ _ _ _ _ Hu Hf0).
      apply (page_apart end_); [done..|]. intros ->. apply Hnn. by eapply uspace_inj. }
    destruct (Z.leb_spec (f0 + off) (f + x)), (Z.ltb_spec (f + x) (f0 + off + c)); cbn [andb]; try lia;
    destruct (Z.leb_spec (n0 * PGSIZE + off) (n * PGSIZE + x)), (Z.ltb_spec (n * PGSIZE + x) (n0 * PGSIZE + off + c)); cbn [andb]; try done;
    exfalso; unfold PGSIZE in *; lia.
Qed.

Lemma copied_out_app m m1 m' U va va' buf i c len :
  0 <= c <= len -> (c < len -> va' = va + c) -> (forall j, i <= j < i + len -> buf m1 j = buf m j) ->
  copied_out m m1 U va buf i c -> copied_out m1 m' U va' buf (i + c) (len - c) -> copied_out m m' U va buf i len.
Proof.
  intros Hc Hva Hst Hc1 Hc2 n f x Hf Hx. rewrite (Hc2 n f x Hf Hx), (Hc1 n f x Hf Hx). set (a := n * PGSIZE + x).
  destruct (Z.leb_spec va' a), (Z.ltb_spec a (va' + (len - c))), (Z.leb_spec va a), (Z.ltb_spec a (va + len)), (Z.ltb_spec a (va + c));
    cbn [andb]; try done; try (exfalso; lia). rewrite Hst by lia. f_equal. lia.
Qed.

Lemma copyout_loop_ok fuel : forall k l pd T U va buf i len,
  uspace k l pd T U -> 0 <= va -> 0 <= len <= Z.of_nat fuel -> va + len <= KERNBASE ->
  (forall n, in_range va len n -> is_Some (U !! n)) -> steady buf (ram k) U i len ->
  exists r k', copyout_loop fuel pd va buf i len k = Ret r k' /\ uspace k' l pd T U /\ only (ram k) (ram k') (vals U) /\
    (forall a, entry (ram k') T a = entry (ram k) T a) /\
    (r = 0 /\ (forall n, in_range va len n -> user (entry (ram k) T (n * PGSIZE)) = true) /\
       copied_out (ram k) (ram k') U va buf i len \/
     r = -1 /\ exists n, in_range va len n /\ user (entry (ram k) T (n * PGSIZE)) = false).
Proof.
  induction fuel as [|fuel IH]; intros k l pd T U va buf i len Hu Hva Hlen Hmax Hur Hst; cbn [copyout_loop];
    (destruct (Z.ltb_spec 0 len) as [Hpos|Hz]; cbn [negb];
     [|exists 0, k; split_and!; [done|done|apply only_refl|done|left; split_and!; [done|intros n (? & _)|intros n f x Hf Hx]]; [lia|];
       destruct (Z.leb_spec va (n * PGSIZE + x)), (Z.ltb_spec (n * PGSIZE + x) (va + len)); (done || lia)]); [lia|].
  rewrite !PGROUNDDOWN_eq by (unfold KERNBASE in *; lia).
  destruct (page_part va len Hva Hpos Hmax) as (Hn0 & Hoff & Hc & Hle & Hfull & Hin0 & Hnext & Hrest).
  set (n0 := va / PGSIZE) in *. set (off := va - n0 * PGSIZE) in *. set (c := Z.min (PGSIZE - off) len) in *.
  destruct (Hur n0 Hin0) as [f0 Hf0].
  assert (Hua := uva2ka_ok k l pd T U (n0 * PGSIZE) f0 Hu ltac:(unfold KERNBASE, PGSIZE in *; lia)).
  rewrite Z.div_mul in Hua by done. rewrite (bind_Ret _ _ _ _ _ (Hua Hf0)). clear Hua.
  destruct (user (entry (ram k) T (n0 * PGSIZE))) eqn:Hus.
  2: { exists (-1), k. split_and!; [done|done|apply only_refl|done|right]. split; [done|]. by exists n0. }
  pose proof (uspace_frame_page _ _ _ _ _ _ _ Hu Hf0) as Hpf0.
  destruct (Z.eqb_spec f0 0) as [|_]; [destruct Hpf0 as (_ & ? & _); unfold KERNBASE in *; lia|].
  destruct (move_page k l pd T U n0 f0 off buf i c Hu Hf0) as (Hon & Hu1 & He1 & Hc1); [lia..|].
  set (m1 := move_from buf (ram k) (f0 + off) i c) in *. rewrite (bind_Ret _ _ _ tt (with_ram k m1)) by done.
  rewrite u32_id by (unfold KERNBASE in *; lia).
  destruct (IH (with_ram k m1) l pd T U (n0 * PGSIZE + PGSIZE) buf (i + c) (len - c) Hu1) as (r & k' & Hk' & Hu' & Hon' & He' & Hr);
    [lia|lia|unfold off in *; lia|intros n Hn; by apply Hur, Hrest| |].
  { intros m' j Hm' Hj. cbn [with_ram ram] in *. rewrite (Hst m' j), (Hst m1 j); [done|done|lia|by eapply only_trans|lia]. }
  exists r, k'. split_and!; [done|done|by eapply only_trans|intros a; by rewrite He', <- He1|].
  destruct Hr as [(-> & Hall & Hct)|(-> & n & Hn & Hbad)]; [left|right].
  - split_and!; [done| |].
    + intros n (_ & Hn & Hge & Hlt). destruct (decide (n = n0)) as [->|]; [done|]. rewrite <- He1. apply Hall.
      split_and!; [unfold off, c, PGSIZE in *; lia|done| |unfold off, c, PGSIZE in *; lia].
      replace (n0 * PGSIZE + PGSIZE) with ((n0 + 1) * PGSIZE) by lia. rewrite Z.div_mul by done. lia.
    + replace (n0 * PGSIZE + off) with va in Hc1 by (unfold off; lia). refine (copied_out_app _ _ _ _ _ _ _ _ _ _ _ _ _ Hc1 Hct);
        [lia|unfold off in *; lia|]. intros j Hj. by apply Hst.
  - split; [done|]. exists n. rewrite <- He1. split; [by apply Hrest|done].
Qed.
End uvm.
End Uvm.
