(* ===== verification/VmProps.v ===== *)
(** What [vm.c] promises, and a memory on which to try it. *)

From S2P Require Import Prelude Bytes CString Sleeplock Kalloc Vm Uvm.

Module VmProps.
Import KString Kalloc Pages Vm VmSpec Uvm.

(** ** A memory whose free list is a given one *)
Definition hd0 (l : list Z) : Z := default 0 (head l).
Fixpoint thread (l : list Z) : mem :=
  match l with
  | [] => fun _ => 0
  | v :: l' => store32 (thread l') v (hd0 l')
  end.
Definition free_kmem (l : list Z) : kmem := MkKmem false 1 (hd0 l) (thread l).

Section thread.
Variable end_ : Z.
Hypothesis Hend : KERNBASE < end_.

Lemma thread_out l x : (forall v, v ∈ l -> x < v \/ v + PGSIZE <= x) -> thread l x = 0.
Proof.
  induction l as [|v l IH]; intros Hx; cbn [thread]; [done|]. rewrite store32_out.
  - apply IH. intros w Hw. apply Hx. by right.
  - specialize (Hx v ltac:(by left)). unfold PGSIZE in *. lia.
Qed.

Lemma free_kmem_inv l : Forall (page end_) l -> NoDup l -> inv end_ (free_kmem l) l.
Proof.
  intros Hp Hn. split; [done| |done|done]. unfold free_kmem. cbn [freelist ram].
  induction l as [|v l IH]; [done|]. apply Forall_cons in Hp as [Hv Hp]. apply NoDup_cons in Hn as [Hvn Hn].
  split; [done|]. cbn [thread]. rewrite load32_store32.
  - apply (chain_ext (thread l)); [|by apply IH]. intros w x Hw Hx. apply store32_out.
    rewrite Forall_forall in Hp. destruct (page_apart end_ v w Hv (Hp w Hw)); [congruence|unfold PGSIZE in *; lia..].
  - destruct l as [|w l]; [done|]. apply Forall_cons in Hp as [(_ & ? & _) _].
    change (hd0 (w :: l)) with w. unfold KERNBASE in *. lia.
Qed.

(** An address space without tables. *)
Lemma empty_uspace pd l :
  Forall (page end_) (pd :: l) -> NoDup (pd :: l) -> uspace end_ (free_kmem l) l pd ∅ ∅.
Proof.
  intros Hp Hn. apply Forall_cons in Hp as [Hpd Hp]. pose proof Hn as [Hpn Hl]%NoDup_cons.
  split; [|constructor|done|done|done]. split; [by apply free_kmem_inv|by apply Forall_singleton|done|done|].
  intros d Hd _. cbn [free_kmem ram]. assert (Hz : forall x, pd <= x < pd + PGSIZE -> thread l x = 0).
  { intros x Hx. apply thread_out. intros v Hv. rewrite Forall_forall in Hp.
    destruct (page_apart end_ pd v Hpd (Hp v Hv)); [congruence|lia..]. }
  unfold load32. by rewrite !Hz by (unfold PGSIZE; lia).
Qed.
End thread.

Section props.
Variable end_ : Z.
Hypothesis Hend : KERNBASE < end_.

(** C17: [allocuvm(pgdir, oldsz, newsz)] grows an address space or leaves it as it was.  A
    size beyond [KERNBASE] is refused and a smaller one ignored.  Otherwise either every page
    from [oldsz] to [newsz] becomes a page of zeros, writable by the user, and no other page
    changes, or 0 is returned and the user pages are those from before; the latter only if
    there were not enough pages for all tables and the pages below [newsz].
    In every case no page is lost or used twice, and the contents of the pages that were
    there stay. *)
Theorem allocuvm_correct k l pd T U o b :
  uspace end_ k l pd T U -> (forall n f, U !! n = Some f -> n * PGSIZE < o) -> 0 <= o <= KERNBASE -> 0 <= b ->
  exists r k' l' T' U', allocuvm end_ pd o b k = Ret r k' /\ uspace end_ k' l' pd T' U' /\
    vals T' ++ vals U' ++ l' ≡ₚ vals T ++ vals U ++ l /\
    (forall n f x, U !! n = Some f -> f <= x < f + PGSIZE -> ram k' x = ram k x) /\
    (KERNBASE <= b /\ r = 0 /\ U' = U \/ b < o /\ r = o /\ U' = U \/
     o <= b < KERNBASE /\
       (r = 0 /\ U' = U /\ Z.of_nat (length (vals T ++ vals U ++ l)) <= 1024 + pages_below b \/
        r = b /\ (forall n, PGROUNDUP o <= n * PGSIZE < b -> exists f, U' !! n = Some f /\ blank (ram k') T' n f) /\
        (forall n, ~ (PGROUNDUP o <= n * PGSIZE < b) -> U' !! n = U !! n))).
Proof.
  intros Hu Hmax Ho Hb. destruct (allocuvm_ok end_ Hend k l pd T U o b Hu Hmax Ho Hb)
    as (r & k' & l' & T' & U' & H1 & Hu1 & _ & Hp & Hon & _ & Hr).
  exists r, k', l', T', U'. split_and!; [done..| |].
  - intros n f x Hf Hx. by apply (contents_kept end_ Hend pd k l T U n f).
  - destruct Hr as [?|[?|(? & [?|(? & ? & ? & _)])]]; [by left|by right; left|right; right; split; [done|]..]; [by left|by right].
Qed.

(** [deallocuvm(pgdir, oldsz, newsz)] returns the smaller size, frees exactly the user
    pages from [newsz] (rounded up) to [oldsz], whether or not their page tables exist, and
    leaves the other pages and the page tables. *)
Theorem deallocuvm_correct k l pd T U o b :
  uspace end_ k l pd T U -> 0 <= b <= KERNBASE -> 0 <= o <= KERNBASE ->
  let U' := cut (PGROUNDUP b) o U in
  exists k' l', deallocuvm end_ pd o b k = Ret (Z.min b o) k' /\ uspace end_ k' l' pd T U' /\
    vals U' ++ l' ≡ₚ vals U ++ l.
Proof.
  intros Hu Hb Ho U'. destruct (deallocuvm_ok end_ Hend k l pd T U b o Hu Hb Ho) as (k' & l' & H1 & Hu1 & Hp1 & _).
  by exists k', l'.
Qed.

(** [freevm] returns every page of an address space, its directory, tables and user
    pages, to the free list, once each. *)
Theorem freevm_reclaims k l pd T U :
  uspace end_ k l pd T U ->
  exists k' l', freevm end_ pd k = Ret tt k' /\ inv end_ k' l' /\ l' ≡ₚ pd :: vals T ++ vals U ++ l.
Proof. intros Hu. destruct (freevm_ok end_ Hend k l pd T U Hu) as (k' & l' & H1 & Hi & Hp & _). by exists k', l'. Qed.

(** [uva2ka] does not look at the result of [walkpgdir]: for an address in a region
    without a page table it reads through the null pointer, instead of returning 0 as it does
    for a page that is not present. *)
Theorem uva2ka_no_table k l pd T va :
  shape end_ k l pd T -> T !! PDX va = None -> uva2ka pd va k = Panic null.
Proof.
  intros Hs Ht. unfold uva2ka. by rewrite (bind_Ret _ _ _ _ _ (walkpgdir_miss end_ (Hend0 end_ Hend) _ _ _ _ _ Hs Ht)).
Qed.

(** [copyout] writes the bytes at [p] to the user addresses from [va], across pages
    wherever those are in physical memory, and changes nothing else, when the range is mapped
    for the user and the source is not in user pages. *)
Theorem copyout_correct k l pd T U va p len :
  uspace end_ k l pd T U -> 0 <= va -> 0 <= len -> va + len <= KERNBASE ->
  (forall n, in_range va len n -> is_Some (U !! n) /\ user (entry (ram k) T (n * PGSIZE)) = true) ->
  (forall n f, U !! n = Some f -> f + PGSIZE <= p \/ p + len <= f) ->
  exists k', copyout pd va (fun m i => m (p + i)) len k = Ret 0 k' /\ uspace end_ k' l pd T U /\
    only (ram k) (ram k') (vals U) /\
    forall n f x, U !! n = Some f -> 0 <= x < PGSIZE ->
      ram k' (f + x) = if (va <=? n * PGSIZE + x) && (n * PGSIZE + x <? va + len)
                       then ram k (p + (n * PGSIZE + x - va)) else ram k (f + x).
Proof.
  intros Hu Hva Hlen Hmax Hur Hap.
  destruct (copyout_loop_ok end_ Hend (Z.to_nat len) k l pd T U va (fun m i => m (p + i)) 0 len Hu)
    as (r & k' & H1 & Hu1 & Hon & _ & Hr); [lia|lia|lia|intros n Hn; by apply Hur| |].
  { intros m' j Hm' Hj. apply Hm'. intros f (n & Hf)%elem_of_vals. specialize (Hap n f Hf). lia. }
  exists k'. destruct Hr as [(-> & _ & Hc)|(_ & n & Hn & Hb)]; [done|]. destruct (Hur n Hn) as [_ ?]. congruence.
Qed.

Section data.
Variable data : Z.
Hypothesis Hdata : KERNLINK < data < P2V PHYSTOP.
Hypothesis Hdalign : data mod PGSIZE = 0.

(** C16: [copyuvm] gives a child a copy of its parent's memory, or nothing.  When it succeeds
    every page below [sz] has, in pages of the child's own, the parent's contents and flags,
    there is no other user page, and the kernel's part of the table is that of [kmap].  When
    memory runs out it returns 0 with every page it took back on the free list.  Either way
    the parent's pages, entries and contents are as before. *)
Theorem copyuvm_correct k l pd sz T U :
  uspace end_ k l pd T U -> 0 <= sz <= KERNBASE ->
  (forall n, 0 <= n -> n * PGSIZE < sz -> is_Some (U !! n)) ->
  exists r k' l', copyuvm end_ data pd sz k = Ret r k' /\ uspace end_ k' l' pd T U /\ same_parent T U (ram k) (ram k') /\
    (r = 0 /\ l' ≡ₚ l \/
     r <> 0 /\ exists Td Ud, both end_ pd T U k' l' r Td Ud /\ r :: vals Td ++ vals Ud ++ l' ≡ₚ l /\
      (forall n, 0 <= n -> n * PGSIZE < sz -> copied T U (ram k) (ram k') Td Ud n) /\
      (forall n f, Ud !! n = Some f -> 0 <= n /\ n * PGSIZE < sz) /\
      forall va, KERNBASE <= va < 2 ^ 32 -> entry (ram k') Td va = kernel_entry data va).
Proof. intros Hu Hsz Hall. by apply (copyuvm_ok end_ Hend data Hdata Hdalign pd sz T U Hsz Hall k l). Qed.
End data.
End props.

(** ** An address space of two pages *)
Definition end0 : Z := KERNBASE + PGSIZE.
Definition pd0 : Z := KERNBASE + 2 * PGSIZE.
Definition data0 : Z := KERNLINK + PGSIZE.
Definition free0 : list Z := pages_from (KERNBASE + 3 * PGSIZE) 100.

Lemma start_space : uspace end0 (free_kmem free0) free0 pd0 ∅ ∅.
Proof.
  assert (Hp : pd0 :: free0 = pages_from pd0 101) by (unfold free0; by rewrite pages_from_S).
  apply empty_uspace; [done| |]; rewrite Hp.
  - apply (pages_in_ram end0); done.
  - apply NoDup_pages_from.
Qed.

Definition result {S A} (m : res S A) : option A := match m with Ret a _ => Some a | _ => None end.
Lemma demo_space : exists k l T U, uspace end0 k l pd0 T U /\
  (forall n, 0 <= n * PGSIZE < 5000 -> exists f, U !! n = Some f /\ blank (ram k) T n f) /\
  (forall n f, U !! n = Some f -> n * PGSIZE < 5000).
Proof.
  destruct (allocuvm_ok end0 ltac:(done) (free_kmem free0) free0 pd0 ∅ ∅ 0 5000 start_space)
    as (r & k & l & T & U & Ha & Hu & _ & _ & _ & _ & Hr); [done|done|done|].
  assert (Hr5 : result (allocuvm end0 pd0 0 5000 (free_kmem free0)) = Some 5000) by (vm_compute; reflexivity).
  rewrite Ha in Hr5. injection Hr5 as ->.
  destruct Hr as [(_ & ? & _)|[(_ & ? & _)|(_ & [[? _]|(_ & Hg & Hn & _)])]]; [done..|].
  exists k, l, T, U. split_and!; [done|done|]. intros n f Hf. destruct (decide (0 <= n * PGSIZE < 5000)) as [|Hno]; [lia|].
  change (PGROUNDUP 0) with 0 in Hn. by rewrite (Hn n Hno) in Hf.
Qed.

Lemma allocuvm_correct_witness : exists r k' l' T' U',
  allocuvm end0 pd0 0 5000 (free_kmem free0) = Ret r k' /\ uspace end0 k' l' pd0 T' U'.
Proof.
  destruct (allocuvm_correct end0 ltac:(done) (free_kmem free0) free0 pd0 ∅ ∅ 0 5000 start_space)
    as (r & k & l & T & U & Ha & Hu & _); [done|done|done|]. exists r, k, l, T, U. split; [exact Ha|exact Hu].
Defined.

Lemma deallocuvm_correct_witness : exists k k' l' T U', deallocuvm end0 pd0 5000 100 k = Ret 100 k' /\
  uspace end0 k' l' pd0 T U' /\ is_Some (U' !! 0) /\ U' !! 1 = None.
Proof.
  destruct demo_space as (k & l & T & U & Hu & Hg & _).
  destruct (deallocuvm_correct end0 ltac:(done) k l pd0 T U 5000 100 Hu) as (k' & l' & H1 & Hu1 & _); [done|done|].
  exists k, k', l', T, (cut (PGROUNDUP 100) 5000 U). split; [exact H1|split; [exact Hu1|split]].
  - rewrite lookup_cut. destruct (Hg 0 ltac:(done)) as (f & -> & _). by exists f.
  - by rewrite lookup_cut.
Defined.

Lemma freevm_reclaims_witness : exists k k' l', freevm end0 pd0 k = Ret tt k' /\ inv end0 k' l' /\ pd0 ∈ l'.
Proof.
  destruct demo_space as (k & l & T & U & Hu & _).
  destruct (freevm_reclaims end0 ltac:(done) k l pd0 T U Hu) as (k' & l' & H1 & Hi & Hp).
  exists k, k', l'. split; [exact H1|split; [exact Hi|]]. rewrite Hp. by left.
Defined.

Lemma uva2ka_no_table_witness : uva2ka pd0 4194304 (free_kmem free0) = Panic null.
Proof.
  apply (uva2ka_no_table end0 ltac:(done) (free_kmem free0) free0 pd0 ∅ 4194304); [apply start_space|done].
Defined.

Lemma copyout_correct_witness : exists k k' T (U : gmap Z Z) f,
  copyout pd0 4090 (fun m i => m (KERNBASE + i)) 10 k = Ret 0 k' /\ U !! 1 = Some f /\ ram k' f = ram k (KERNBASE + 6) /\
  entry (ram k) T 4096 = pte (V2P f) (Z.lor PTE_W PTE_U).
Proof.
  destruct demo_space as (k & l & T & U & Hu & Hg & Hm).
  destruct (copyout_correct end0 ltac:(done) k l pd0 T U 4090 KERNBASE 10 Hu) as (k' & H1 & _ & _ & Hc); [done|done|done| | |].
  - intros n (_ & Hn & _ & Hlt). destruct (Hg n) as (f & Hf & He & _); [unfold PGSIZE in *; lia|]. split; [by exists f|].
    unfold user. rewrite He. change PTE_U with (2 ^ 2) at 2. rewrite land_pow2_eqb by done. unfold pte.
    by rewrite !Z.lor_spec, orb_true_r.
  - intros n f Hf. pose proof (uspace_frame_page _ _ _ _ _ _ _ _ Hu Hf) as (_ & ? & _). right.
    unfold end0, KERNBASE, PGSIZE in *. lia.
  - destruct (Hg 1 ltac:(done)) as (f & Hf & He & _). exists k, k', T, U, f. split; [exact H1|split; [exact Hf|split; [|exact He]]].
    specialize (Hc 1 f 0 Hf ltac:(done)). by rewrite Z.add_0_r in Hc.
Defined.

Lemma copyuvm_correct_witness : exists k k' r T U f, copyuvm end0 data0 pd0 5000 k = Ret r k' /\
  U !! 1 = Some f /\ same_parent T U (ram k) (ram k').
Proof.
  destruct demo_space as (k & l & T & U & Hu & Hg & Hm).
  destruct (copyuvm_correct end0 ltac:(done) data0 ltac:(done) ltac:(done) k l pd0 5000 T U Hu) as (r & k' & l' & H1 & _ & Hs & _);
    [done|intros n Hn Hlt; destruct (Hg n) as (f & Hf & _); [unfold PGSIZE in *; lia|by exists f]|].
  destruct (Hg 1 ltac:(done)) as (f & Hf & _). exists k, k', r, T, U, f. split; [exact H1|split; [exact Hf|exact Hs]].
Defined.
End VmProps.
