(* ===== verification/Loaduvm.v ===== *)
(** [loaduvm] and [clearpteu] of [vm.c]: reading a file into the pages of an address space,
    and taking a page from the user. *)

From S2P Require Import Prelude Bytes CString Sleeplock Kalloc Vm Uvm.

Module Loaduvm.
Import KString Kalloc Pages Vm VmSpec Uvm.

Section clearpteu.
Variable end_ : Z.
Hypothesis Hend : KERNBASE < end_.
Local Notation uspace := (Uvm.uspace end_).
Implicit Types (k : kmem) (l : list Z) (T U : gmap Z Z).

Definition not_user (e : Z) : Z := Z.land e (u32 (Z.lnot PTE_U)).
Lemma not_user_ok e : 0 <= not_user e < 2 ^ 32 /\ present (not_user e) = present e /\
  PTE_ADDR (not_user e) = PTE_ADDR e /\ user (not_user e) = false.
Proof.
  unfold not_user, present, PTE_ADDR, user. rewrite <- !Z.land_assoc.
  change (Z.land (u32 (Z.lnot PTE_U)) PTE_P) with PTE_P. change (Z.land (u32 (Z.lnot PTE_U)) (u32 (Z.lnot 4095))) with (u32 (Z.lnot 4095)).
  change (Z.land (u32 (Z.lnot PTE_U)) PTE_U) with 0. rewrite Z.land_0_r. split_and!; try done.
  all: change (u32 (Z.lnot PTE_U)) with (Z.land (u32 (Z.lnot PTE_U)) (Z.ones 32)); rewrite Z.land_assoc, Z.land_ones by done;
    by apply Z.mod_pos_bound.
Qed.

Lemma clearpteu_ok k l pd T U n f :
  uspace k l pd T U -> U !! n = Some f ->
  exists k', clearpteu pd (n * PGSIZE) k = Ret tt k' /\ uspace k' l pd T U /\ only (ram k) (ram k') (pd :: vals T ++ l) /\
    forall va, 0 <= va < 2 ^ 32 ->
      entry (ram k') T va = if va / PGSIZE =? n then not_user (entry (ram k) T (n * PGSIZE)) else entry (ram k) T va.
Proof.
  intros Hu Hf. destruct (walk_user end_ Hend _ _ _ _ _ _ _ Hu Hf) as (t & Ht & Hw & Hne & Hg).
  unfold clearpteu. rewrite (bind_Ret _ _ _ _ _ Hw). destruct (Z.eqb_spec (t + 4 * PTX (n * PGSIZE)) 0) as [|_]; [done|].
  rewrite (bind_Ret _ _ _ _ _ Hg). fold (not_user (entry (ram k) T (n * PGSIZE))). set (e := entry (ram k) T (n * PGSIZE)) in *.
  destruct (not_user_ok e) as (Hr & Hp & Ha & _). pose proof (us_some _ _ _ _ _ _ Hu _ _ Hf) as (Hn & _). pose proof (upage_range n Hn) as Hva.
  destruct (store_ok end_ (Hend0 _ Hend) k l pd T (n * PGSIZE) t (not_user e) (us_shape _ _ _ _ _ _ Hu) Ht) as (k' & Hs & Hgr & He); [lia|done|].
  rewrite Z.div_mul in He by done. exists k'. split_and!; [done| |apply Hgr|done].
  split; [apply Hgr|apply Hu|apply Hu| |].
  - intros n' f' Hf'. destruct (us_some _ _ _ _ _ _ Hu _ _ Hf') as (Hn' & Hp' & Ha'). pose proof (upage_range n' Hn').
    rewrite He, Z.div_mul by (done || lia). destruct (Z.eqb_spec n' n) as [->|]; [|done]. fold e in Hp', Ha'. by rewrite Hp, Ha.
  - intros n' Hn' Hf'. pose proof (upage_range n' Hn'). rewrite He, Z.div_mul by (done || lia).
    destruct (Z.eqb_spec n' n) as [->|]; [congruence|]. by apply (us_none _ _ _ _ _ _ Hu).
Qed.
End clearpteu.

Section loaduvm.
Variable end_ : Z.
Hypothesis Hend : KERNBASE < end_.
Local Notation uspace := (Uvm.uspace end_).
Implicit Types (k : kmem) (l : list Z) (T U : gmap Z Z).

(** ** What [loaduvm] uses of the file system

    The state has the memory beside the rest.  [readi] gives the bytes [file] of a file of
    [fsize] bytes, in states that satisfy [P], and leaves the memory alone. *)
Context {X : Type} (get_km : X -> kmem) (put_km : kmem -> X -> X).
Variable readi : Z -> Z -> M X (Z * list Z).
Variables (P : X -> Prop) (file : Z -> Z) (fsize : Z).
Record reader : Prop := MkReader {
  rd_get k x : get_km (put_km k x) = k;
  rd_id x : put_km (get_km x) x = x;
  rd_put k x : P x -> P (put_km k x);
  rd_size : 0 <= fsize < 2 ^ 31;
  rd_in x off n : P x -> 0 <= off <= fsize -> 0 <= n < 2 ^ 31 ->
    let n' := Z.min n (fsize - off) in
    exists x', readi off n x = Ret (n', map file (seqZ off n')) x' /\ P x' /\ get_km x' = get_km x;
  rd_out x off n : P x -> fsize < off < W32 -> 0 <= n < 2 ^ 31 ->
    exists x', readi off n x = Ret (-1, []) x' /\ P x' /\ get_km x' = get_km x
}.
Hypothesis Hrd : reader.

(** One turn of the loop: a page, or its beginning, is read. *)
Lemma load_turn x l pd T U n0 f0 off c :
  P x -> uspace (get_km x) l pd T U -> U !! n0 = Some f0 -> 0 <= off < W32 -> 0 < c <= PGSIZE ->
  let m := ram (get_km x) in
  exists r bs x1, readi off c x = Ret (r, bs) x1 /\
    let m1 := store_bytes m f0 bs in let x2 := put_km (with_ram (get_km x) m1) x1 in
    get_km x1 = get_km x /\ P x2 /\ uspace (get_km x2) l pd T U /\ only m m1 (vals U) /\ (forall va, entry m1 T va = entry m T va) /\
    (r = c /\ off + c <= fsize /\ copied_out m m1 U (n0 * PGSIZE) (fun _ => file) off c \/ r <> c /\ fsize < off + c).
Proof.
  intros Hp Hu Hf0 Hoff Hc m.
  assert (Hdo : forall r n' x1, 0 <= n' <= PGSIZE -> readi off c x = Ret (r, map file (seqZ off n')) x1 -> P x1 -> get_km x1 = get_km x ->
    (r = c /\ n' = c /\ off + c <= fsize \/ r <> c /\ fsize < off + c) ->
    exists r bs x1, readi off c x = Ret (r, bs) x1 /\
    let m1 := store_bytes m f0 bs in let x2 := put_km (with_ram (get_km x) m1) x1 in
    get_km x1 = get_km x /\ P x2 /\ uspace (get_km x2) l pd T U /\ only m m1 (vals U) /\ (forall va, entry m1 T va = entry m T va) /\
    (r = c /\ off + c <= fsize /\ copied_out m m1 U (n0 * PGSIZE) (fun _ => file) off c \/ r <> c /\ fsize < off + c)).
  { intros r n' x1 Hn' E Hp1 Hk1 Hr. exists r, (map file (seqZ off n')), x1. split; [done|].
    destruct (move_page end_ Hend (get_km x) l pd T U n0 f0 0 (fun _ => file) off n' Hu Hf0) as (Ho1 & Hu1 & He1 & Hc1); [lia..|].
    rewrite !Z.add_0_r in *. cbn zeta. rewrite (rd_get Hrd). split_and!; [done|by apply Hrd|done..|].
    destruct Hr as [(-> & -> & ?)|?]; [by left|by right]. }
  destruct (decide (off <= fsize)) as [Hin|Hout].
  - destruct (rd_in Hrd x off c) as (x1 & E & Hp1 & Hk1); [done|lia|unfold PGSIZE in *; lia|].
    eapply Hdo; [|exact E|done|done|]; [lia|]. destruct (decide (off + c <= fsize)); [left|right]; lia.
  - destruct (rd_out Hrd x off c) as (x1 & E & Hp1 & Hk1); [done|lia|unfold PGSIZE in *; lia|].
    apply (Hdo (-1) 0 x1); [unfold PGSIZE; lia|done|done|done|right; lia].
Qed.

Lemma on_km_same {A} (m : M kmem A) x a : m (get_km x) = Ret a (get_km x) -> zoom get_km put_km m x = Ret a x.
Proof. intros H. unfold zoom. by rewrite H, (rd_id Hrd). Qed.

(** After the file's part up to [i] has been loaded, the rest is, or the file is too short. *)
Lemma loaduvm_loop_ok fuel : forall x l pd T U addr offset i sz,
  P x -> uspace (get_km x) l pd T U -> addr mod PGSIZE = 0 -> i mod PGSIZE = 0 -> 0 <= addr -> 0 <= i -> addr + sz <= KERNBASE ->
  0 <= offset < W32 -> (0 < i < sz -> offset + i <= fsize) -> sz - i <= Z.of_nat fuel * PGSIZE ->
  (forall n, in_range addr sz n -> is_Some (U !! n)) ->
  let m := ram (get_km x) in
  exists r x', loaduvm_loop get_km put_km readi fuel pd addr offset i sz x = Ret r x' /\
    let m' := ram (get_km x') in
    P x' /\ uspace (get_km x') l pd T U /\ only m m' (vals U) /\ (forall va, entry m' T va = entry m T va) /\
    (r = 0 /\ (i < sz -> offset + sz <= fsize) /\ copied_out m m' U (addr + i) (fun _ => file) (offset + i) (sz - i) \/
     r = -1 /\ i < sz /\ fsize < offset + sz).
Proof.
  induction fuel as [|fuel IH]; intros x l pd T U addr offset i sz Hp Hu Ha Hi Ha0 Hi0 Hmax Hoff Hprev Hfuel Hall m; cbn [loaduvm_loop];
    (destruct (Z.ltb_spec i sz) as [Hlt|Hge]; cbn [negb];
      [|exists 0, x; split; [done|]; split_and!; [done|done|apply only_refl|done|left; split_and!; [done|lia|]];
        intros n f y Hf Hy; destruct (Z.leb_spec (addr + i) (n * PGSIZE + y)), (Z.ltb_spec (n * PGSIZE + y) (addr + i + (sz - i))); (done || lia)]);
    [lia|].
  pose proof (rd_size Hrd) as Hfs. set (va := addr + i).
  assert (Hva : va = va / PGSIZE * PGSIZE) by (apply (aligned va); unfold va; by rewrite Zplus_mod, Ha, Hi).
  set (n0 := va / PGSIZE) in *. assert (Hr : in_range addr sz n0).
  { split_and!; [lia|apply Z.div_pos; unfold va, PGSIZE; lia|apply Z.div_le_mono; unfold va, PGSIZE; lia|lia]. }
  destruct (Hall n0 Hr) as [f0 Hf0].
  assert (Hoi : 0 <= offset + i < W32) by lia. rewrite (u32_id va) by (unfold va, KERNBASE in *; lia). rewrite Hva.
  destruct (walk_user end_ Hend _ _ _ _ _ _ _ Hu Hf0) as (t & Ht & Hw & Hne & Hg). destruct (us_some _ _ _ _ _ _ Hu _ _ Hf0) as (_ & _ & Hpa).
  rewrite (bind_Ret _ _ _ _ _ (on_km_same _ _ _ Hw)). destruct (Z.eqb_spec (t + 4 * PTX (n0 * PGSIZE)) 0) as [|_]; [done|].
  rewrite (bind_Ret _ _ _ _ _ (on_km_same _ _ _ Hg)), (u32_id (offset + i)), Hpa by done.
  set (c := if sz - i <? PGSIZE then sz - i else PGSIZE).
  assert (Hc : 0 < c <= PGSIZE /\ c <= sz - i /\ (c < sz - i -> c = PGSIZE)) by (unfold c; destruct (Z.ltb_spec (sz - i) PGSIZE); unfold PGSIZE in *; lia).
  destruct (load_turn x l pd T U n0 f0 (offset + i) c Hp Hu Hf0 Hoi) as (r & bs & x1 & E & Hk1 & Hp2 & Hu2 & Ho2 & He2 & Hr2); [lia|].
  rewrite (bind_Ret _ _ _ _ _ E). cbn [fst snd]. set (m1 := store_bytes _ f0 bs) in *.
  rewrite (bind_Ret _ _ _ tt (put_km (with_ram (get_km x) m1) x1)) by (unfold zoom; cbn; by rewrite Hk1).
  set (x2 := put_km _ x1) in *. assert (Hm2 : ram (get_km x2) = m1) by (unfold x2; by rewrite (rd_get Hrd)).
  destruct Hr2 as [(-> & Hin & Hc2)|(Hrc & Hshort)].
  2: { destruct (Z.eqb_spec r c) as [|_]; [done|]. exists (-1), x2. split; [done|]. cbn zeta. rewrite Hm2. split_and!; [done..|right]. lia. }
  rewrite Z.eqb_refl. cbn [negb].
  assert (Hiw : 0 <= i + PGSIZE < W32) by (unfold KERNBASE, PGSIZE in *; lia). rewrite (u32_id (i + PGSIZE)) by done.
  destruct (IH x2 l pd T U addr offset (i + PGSIZE) sz Hp2 Hu2 Ha) as (r & x' & E' & Hp' & Hu' & Ho' & He' & Hr');
    [by rewrite Zplus_mod, Hi|lia..|done|lia|lia|done|].
  exists r, x'. split; [done|]. cbn zeta. rewrite Hm2 in *. split_and!; [done|done|by eapply only_trans|intros a; by rewrite He', <- He2|].
  destruct Hr' as [(-> & Hle & Hct)|(-> & Hlt' & Hsh)]; [left|right; split_and!; [done|lia..]]. split_and!; [done|lia|].
  eapply (copied_out_app _ m1 _ _ _ (addr + (i + PGSIZE)) _ _ c); [lia|rewrite <- Hva; unfold va; lia|done|exact Hc2|].
  intros n f y Hf Hy. rewrite (Hct n f y Hf Hy). set (a := n * PGSIZE + y).
  destruct (Z.leb_spec (addr + (i + PGSIZE)) a), (Z.ltb_spec a (addr + (i + PGSIZE) + (sz - (i + PGSIZE)))),
    (Z.ltb_spec a (addr + (i + PGSIZE) + (sz - i - c))); cbn [andb]; try done; try (exfalso; lia). f_equal. lia.
Qed.

Lemma loaduvm_ok x l pd T U addr offset sz :
  P x -> uspace (get_km x) l pd T U -> addr mod PGSIZE = 0 -> 0 <= addr -> 0 <= sz -> addr + sz <= KERNBASE -> 0 <= offset < W32 ->
  (forall n, in_range addr sz n -> is_Some (U !! n)) ->
  let m := ram (get_km x) in
  exists r x', loaduvm get_km put_km readi pd addr offset sz x = Ret r x' /\
    let m' := ram (get_km x') in
    P x' /\ uspace (get_km x') l pd T U /\ only m m' (vals U) /\ (forall va, entry m' T va = entry m T va) /\
    (r = 0 /\ (0 < sz -> offset + sz <= fsize) /\ copied_out m m' U addr (fun _ => file) offset sz \/
     r = -1 /\ 0 < sz /\ fsize < offset + sz).
Proof.
  intros Hp Hu Ha Ha0 Hsz Hmax Hoff Hall m. unfold loaduvm. rewrite Ha. cbn [Z.eqb negb].
  assert (0 <= sz / PGSIZE) by (apply Z.div_pos; [lia|by unfold PGSIZE]).
  pose proof (Z.div_mod sz PGSIZE ltac:(done)). pose proof (Z.mod_pos_bound sz PGSIZE ltac:(done)).
  destruct (loaduvm_loop_ok (Z.to_nat (sz / PGSIZE + 1)) x l pd T U addr offset 0 sz Hp Hu Ha) as (r & x' & H'); [done|lia..|done|].
  rewrite !Z.add_0_r, Z.sub_0_r in H'. by exists r, x'.
Qed.
End loaduvm.
End Loaduvm.
