(* ===== verification/ExecMem.v ===== *)
(** The memory of a new program while [exec] builds it.

    [built] relates the page tables and pages taken from the free list [l0] to a plain image:
    a size, a byte for every address below it, and one page the user cannot touch.  The
    functions of [vm.c] that [exec] calls act on the image as one expects, or run out of
    memory. *)

From S2P Require Import Prelude Bytes CString Sleeplock Kalloc Vm Uvm Loaduvm.

Module ExecMem.
Import KString Kalloc Pages Vm VmSpec Uvm Loaduvm.

(** [len] bytes [g] at [va]. *)
Definition blit (img : Z -> Z) (va len : Z) (g : Z -> Z) : Z -> Z :=
  fun a => if (va <=? a) && (a <? va + len) then g (a - va) else img a.

Section mem.
Variable end_ : Z.
Hypothesis Hend : KERNBASE < end_.
Variable data : Z.
Hypothesis Hdata : KERNLINK < data < P2V PHYSTOP.
Hypothesis Hdalign : data mod PGSIZE = 0.
Local Notation uspace := (Uvm.uspace end_).
Local Notation inv := (Pages.inv end_).
Implicit Types (k : kmem) (l : list Z) (T U : gmap Z Z) (img : Z -> Z).

(** The memory and the free pages when [exec] starts. *)
Variables (k0 : kmem) (l0 : list Z).

(** A space made of pages of [l0] only. *)
Record taken k l pd T U : Prop := MkTaken {
  tk_space : uspace k l pd T U;
  tk_pages : pd :: vals T ++ vals U ++ l ≡ₚ l0;
  tk_only : only (ram k0) (ram k) l0
}.

Record built k l pd T U (size guard : Z) img : Prop := MkBuilt {
  bu_taken : taken k l pd T U;
  bu_size : 0 <= size < KERNBASE;
  bu_pages n : is_Some (U !! n) <-> 0 <= n /\ n * PGSIZE < size;
  bu_user n f : U !! n = Some f -> user (entry (ram k) T (n * PGSIZE)) = negb (n =? guard);
  bu_img n f x : U !! n = Some f -> 0 <= x < PGSIZE -> ram k (f + x) = img (n * PGSIZE + x);
  bu_zero a : PGROUNDUP size <= a -> img a = 0;
  bu_kernel va : KERNBASE <= va < 2 ^ 32 -> entry (ram k) T va = kernel_entry data va
}.

Lemma taken_step k l pd T U k' l' T' U' :
  taken k l pd T U -> uspace k' l' pd T' U' -> vals T' ++ vals U' ++ l' ≡ₚ vals T ++ vals U ++ l ->
  only (ram k) (ram k') (pd :: vals T ++ vals U ++ l) -> taken k' l' pd T' U'.
Proof.
  intros [Hu Hp Ho] Hu' Hp' Ho'. split; [done|by rewrite Hp'|]. eapply only_trans; [done|]. eapply only_mono; [done|].
  intros q. by rewrite Hp.
Qed.
Lemma taken_total k l pd T U : taken k l pd T U -> length l0 = S (length (vals T ++ vals U ++ l)).
Proof. intros Ht. by rewrite <- (tk_pages _ _ _ _ _ Ht). Qed.

(** [setupkvm] *)
Lemma built_new : inv k0 l0 ->
  exists r k l, setupkvm end_ data k0 = Ret r k /\
    (r <> 0 /\ (exists T, built k l r T ∅ 0 (-1) (fun _ => 0)) \/
     r = 0 /\ inv k l /\ l ≡ₚ l0 /\ only (ram k0) (ram k) l0 /\ (length l0 <= 1025)%nat).
Proof.
  intros Hi. destruct (setupkvm_ok end_ Hend data Hdata Hdalign k0 l0 Hi) as (r & k & l & E & Ho & Hr). exists r, k, l. split; [done|].
  destruct Hr as [(Hr & T & Hu & Hp & He)|(-> & Hi' & Hp & Hl)]; [left|by right]. split; [done|]. exists T. split; [by split| |..]; try done.
  - intros n. rewrite lookup_empty. split; [by intros []|unfold PGSIZE; lia].
  - intros va Hva. apply He. unfold KERNBASE in *. lia.
Qed.

Lemma user_blank m T n f : blank m T n f -> user (entry m T (n * PGSIZE)) = true.
Proof.
  intros [-> _]. unfold user. change PTE_U with (2 ^ 2) at 2. rewrite land_pow2_eqb by done. unfold pte.
  by rewrite !Z.lor_spec, orb_true_r.
Qed.

(** [allocuvm] *)
Lemma built_alloc k l pd T U size guard img b :
  built k l pd T U size guard img -> 0 <= b -> (forall n, 0 <= n -> PGROUNDUP size <= n * PGSIZE -> n <> guard) ->
  exists r k' l' T' U', allocuvm end_ pd size b k = Ret r k' /\ taken k' l' pd T' U' /\
    (b < KERNBASE /\ r = Z.max size b /\ built k' l' pd T' U' (Z.max size b) guard img \/
     r = 0 /\ (KERNBASE <= b \/ size <= b < KERNBASE /\ Z.of_nat (length l0) <= 1025 + pages_below b)).
Proof.
  intros [Ht Hs Hpg Hus Himg Hz Hk] Hb Hg. pose proof (tk_space _ _ _ _ _ Ht) as Hu.
  assert (Hmax : forall n f, U !! n = Some f -> n * PGSIZE < size) by (intros n f Hf; apply Hpg; by exists f).
  destruct (allocuvm_ok end_ Hend k l pd T U size b Hu Hmax) as (r & k' & l' & T' & U' & E & Hu' & HT & Hp & Ho & He & Hr); [lia|done|].
  assert (Ht' : taken k' l' pd T' U').
  { eapply taken_step; [done|done|done|]. eapply only_mono; [done|]. clear. set_solver. }
  exists r, k', l', T', U'. split_and!; [done|done|].
  assert (Hus' : forall n f, U !! n = Some f -> user (entry (ram k') T' (n * PGSIZE)) = negb (n =? guard)).
  { intros n f Hf. destruct (us_some _ _ _ _ _ _ Hu _ _ Hf) as [Hn _]. pose proof (upage_range n Hn).
    rewrite He by (lia || (left; by eapply Hmax)). by eapply Hus. }
  assert (Himg' : forall n f x, U !! n = Some f -> 0 <= x < PGSIZE -> ram k' (f + x) = img (n * PGSIZE + x)).
  { intros n f x Hf Hx. rewrite <- (Himg n f x Hf Hx). apply (contents_kept end_ Hend pd k l T U n f); [done..|lia]. }
  assert (Hk' : forall va, KERNBASE <= va < 2 ^ 32 -> entry (ram k') T' va = kernel_entry data va).
  { intros va Hva. rewrite He by (unfold KERNBASE in *; lia). by apply Hk. }
  destruct Hr as [(? & -> & ->)|[(? & -> & ->)|(Hb' & [(-> & -> & Hx)|(-> & Hg1 & Hg2 & _)])]].
  - right. split; [done|by left].
  - left. rewrite Z.max_l by lia. split_and!; [lia|done|]. by split.
  - right. split; [done|]. right. split; [done|]. rewrite (taken_total _ _ _ _ _ Ht). lia.
  - left. rewrite Z.max_r by lia. split_and!; [lia|done|]. pose proof (roundup_range size ltac:(lia)) as (Hm & Hr1 & Hr2).
    assert (Hnew : forall n, PGROUNDUP size <= n * PGSIZE < b \/ U' !! n = U !! n).
    { intros n. destruct (decide (PGROUNDUP size <= n * PGSIZE < b)) as [|Hno]; [by left|right; by apply Hg2]. }
    pose proof (aligned _ Hm) as Ha.
    split; [done|lia| | | | |done].
    + intros n. destruct (Hnew n) as [Hn|Hn].
      * destruct (Hg1 n Hn) as (f & -> & _). split; [intros _|by eauto]. unfold PGSIZE in *. lia.
      * rewrite Hn, Hpg. split; [lia|]. intros [? ?]. split; [done|].
        destruct (decide (n * PGSIZE < size)); [done|]. exfalso. assert (Hin : PGROUNDUP size <= n * PGSIZE < b) by (unfold PGSIZE in *; lia).
        destruct (Hg1 n Hin) as (f & Hf & _). rewrite Hn in Hf. apply Hmax in Hf. lia.
    + intros n f Hf. destruct (Hnew n) as [Hn|Hn]; [|rewrite Hn in Hf; by eapply Hus'].
      destruct (Hg1 n Hn) as (f' & Hf' & Hbl). rewrite (user_blank _ _ _ _ Hbl). symmetry. apply negb_true_iff, Z.eqb_neq. apply Hg; unfold PGSIZE in *; lia.
    + intros n f x Hf Hx. destruct (Hnew n) as [Hn|Hn]; [|rewrite Hn in Hf; by eapply Himg'].
      destruct (Hg1 n Hn) as (f' & Hf' & _ & Hbl). rewrite Hz by lia. apply Hbl. assert (f = f') by congruence. lia.
    + intros a Ha'. apply Hz. pose proof (roundup_range b ltac:(lia)) as (Hmb & Hrb & _). pose proof (aligned _ Hmb). unfold PGSIZE in *. lia.
Qed.

(** Bytes into the pages. *)
Lemma built_write k l pd T U size guard img k' va buf i len :
  built k l pd T U size guard img -> uspace k' l pd T U -> only (ram k) (ram k') (vals U) ->
  (forall a, entry (ram k') T a = entry (ram k) T a) -> copied_out (ram k) (ram k') U va buf i len -> va + len <= size ->
  built k' l pd T U size guard (blit img va len (fun j => buf (ram k) (i + j))).
Proof.
  intros [Ht Hs Hpg Hus Himg Hz Hk] Hu' Ho He Hc Hle. split; [|done|done| | | |].
  - eapply taken_step; [done|done|done|]. eapply only_mono; [done|]. clear. set_solver.
  - intros n f Hf. rewrite He. by eapply Hus.
  - intros n f x Hf Hx. rewrite (Hc n f x Hf Hx). unfold blit. by rewrite (Himg n f x Hf Hx).
  - intros a Ha. pose proof (roundup_range size ltac:(lia)) as (_ & Hr & _). unfold blit.
    destruct (Z.leb_spec va a), (Z.ltb_spec a (va + len)); try lia; by apply Hz.
  - intros a Ha. rewrite He. by apply Hk.
Qed.

(** [clearpteu] *)
Lemma built_clear k l pd T U size img n :
  built k l pd T U size (-1) img -> 0 <= n -> n * PGSIZE < size ->
  exists k', clearpteu pd (n * PGSIZE) k = Ret tt k' /\ built k' l pd T U size n img.
Proof.
  intros [Ht Hs Hpg Hus Himg Hz Hk] Hn Hlt. pose proof (tk_space _ _ _ _ _ Ht) as Hu.
  destruct (proj2 (Hpg n) ltac:(done)) as [f Hf]. destruct (clearpteu_ok end_ Hend k l pd T U n f Hu Hf) as (k' & E & Hu' & Ho & He).
  exists k'. split; [done|]. split; [|done|done| | |done|].
  - eapply taken_step; [done|done|done|]. eapply only_mono; [done|]. clear. set_solver.
  - intros n' f' Hf'. destruct (us_some _ _ _ _ _ _ Hu _ _ Hf') as [Hn' _]. pose proof (upage_range n' Hn').
    rewrite He, Z.div_mul by (done || lia). destruct (Z.eqb_spec n' n) as [->|]; [by destruct (not_user_ok (entry (ram k) T (n * PGSIZE))) as (_ & _ & _ & ->)|].
    rewrite (Hus n' f' Hf'). destruct (Z.eqb_spec n' (-1)); [lia|done].
  - intros n' f' x Hf' Hx. rewrite <- (Himg n' f' x Hf' Hx). apply (contents_kept end_ Hend pd k l T U n' f'); [done..|lia].
  - intros va Hva. rewrite He by (unfold KERNBASE in *; lia). destruct (Z.eqb_spec (va / PGSIZE) n) as [E1|]; [|by apply Hk].
    exfalso. pose proof (Z.div_mod va PGSIZE ltac:(done)). pose proof (Z.mod_pos_bound va PGSIZE ltac:(done)).
    unfold KERNBASE, PGSIZE in *. lia.
Qed.

(** [copyout] below the size: it succeeds when it does not meet the guard page. *)
Lemma built_copy k l pd T U size guard img va buf len :
  built k l pd T U size guard img -> 0 <= va -> 0 < len -> va + len <= size -> steady buf (ram k) U 0 len ->
  exists r k', copyout pd va buf len k = Ret r k' /\
    (r = 0 /\ ~ in_range va len guard /\ built k' l pd T U size guard (blit img va len (buf (ram k))) \/
     r = -1 /\ in_range va len guard /\ taken k' l pd T U).
Proof.
  intros Hb Hva Hlen Hle Hst. pose proof (tk_space _ _ _ _ _ (bu_taken _ _ _ _ _ _ _ _ Hb)) as Hu. pose proof (bu_size _ _ _ _ _ _ _ _ Hb) as Hs.
  assert (Hall : forall n, in_range va len n -> is_Some (U !! n)) by (intros n (? & ? & ? & ?); apply (bu_pages _ _ _ _ _ _ _ _ Hb); lia).
  destruct (copyout_loop_ok end_ Hend (Z.to_nat len) k l pd T U va buf 0 len Hu) as (r & k' & E & Hu' & Ho & He & Hr); [lia|lia|lia|done|done|].
  exists r, k'. split; [done|]. destruct Hr as [(-> & Hok & Hc)|(-> & n & Hn & Hno)]; [left|right]; split_and!; try done.
  - intros Hg. specialize (Hok guard Hg). destruct (Hall guard Hg) as [f Hf]. rewrite (bu_user _ _ _ _ _ _ _ _ Hb _ _ Hf), Z.eqb_refl in Hok. done.
  - by apply (built_write _ _ _ _ _ _ _ _ _ _ _ _ _ Hb Hu' Ho He Hc).
  - destruct (Hall n Hn) as [f Hf]. rewrite (bu_user _ _ _ _ _ _ _ _ Hb _ _ Hf) in Hno. destruct (Z.eqb_spec n guard); [by subst|done].
  - eapply taken_step; [apply Hb|done|done|]. eapply only_mono; [done|]. clear. set_solver.
Qed.

(** The kernel's part is not the user's, and up there all is mapped. *)
Lemma kernel_not_user va : user (kernel_entry data va) = false.
Proof.
  assert (Hp : forall pa perm, pa mod PGSIZE = 0 -> perm = PTE_W \/ perm = 0 -> user (pte pa perm) = false).
  { intros pa perm Hpa Hperm. unfold user, pte. change PTE_U with (2 ^ 2). rewrite land_pow2_eqb by done. rewrite !Z.lor_spec.
    assert (Z.testbit pa 2 = false) as ->.
    { rewrite <- (Z.mod_pow2_bits_low pa 12) by lia. change (2 ^ 12) with PGSIZE. by rewrite Hpa, Z.bits_0. }
    by destruct Hperm as [-> | ->]. }
  assert (Hal : V2P data mod PGSIZE = 0).
  { change (P2V PHYSTOP) with 2382364672 in Hdata. change KERNLINK with 2148532224 in Hdata.
    unfold V2P. rewrite u32_id by (unfold KERNBASE; lia). by rewrite Zminus_mod, Hdalign. }
  unfold kernel_entry, kmap. cbn [fold_left]. unfold kmapped at 1 2 3 4, mapped. cbn [virt phys_start phys_end kperm].
  repeat match goal with |- user (if ?b then _ else _) = false => destruct b end; try done; apply Hp; try tauto;
    rewrite Z.mod_add by done; done.
Qed.

Lemma kernel_high va : DEVSPACE <= va < 2 ^ 32 -> kernel_entry data va <> 0.
Proof.
  intros Hva. unfold kernel_entry, kmap. cbn [fold_left]. unfold kmapped at 1, mapped. cbn [virt phys_start phys_end kperm].
  change (kpages (MkKmap DEVSPACE DEVSPACE 0 PTE_W)) with (Z.to_nat 8192). change (DEVSPACE / PGSIZE) with 1040384. rewrite Z2Nat.id by done.
  assert (1040384 <= va / PGSIZE < 1048576).
  { split; [apply Z.div_le_lower_bound|apply Z.div_lt_upper_bound]; unfold DEVSPACE, PGSIZE in *; lia. }
  destruct (Z.leb_spec 0 (va / PGSIZE - 1040384)); [|lia]. destruct (Z.ltb_spec (va / PGSIZE - 1040384) 8192); [|lia]. cbn [andb].
  intros E. apply (f_equal (fun z => Z.testbit z 0)) in E. unfold pte in E. rewrite !Z.lor_spec, orb_true_r in E. done.
Qed.

(** [copyout] to the devices' part, where an address below 0 wraps to. *)
Lemma built_copy_high k l pd T U size guard img va buf len :
  built k l pd T U size guard img -> DEVSPACE <= va < 2 ^ 32 -> 0 < len -> copyout pd va buf len k = Ret (-1) k.
Proof.
  intros Hb Hva Hlen. unfold copyout. destruct (Z.to_nat len) as [|fu] eqn:E; [lia|]. cbn [copyout_loop].
  destruct (Z.ltb_spec 0 len); [|lia]. cbn [negb]. rewrite PGROUNDDOWN_eq by (unfold DEVSPACE in *; lia). set (va0 := va / PGSIZE * PGSIZE).
  pose proof (Z.div_mod va PGSIZE ltac:(done)). pose proof (Z.mod_pos_bound va PGSIZE ltac:(done)).
  assert (Hva0 : DEVSPACE <= va0 < 2 ^ 32) by (unfold va0, DEVSPACE, PGSIZE in *; lia).
  pose proof (bu_kernel _ _ _ _ _ _ _ _ Hb va0 ltac:(unfold DEVSPACE, KERNBASE in *; lia)) as Hk.
  pose proof (tk_space _ _ _ _ _ (bu_taken _ _ _ _ _ _ _ _ Hb)) as Hu.
  destruct (T !! PDX va0) as [t|] eqn:Et.
  - rewrite (bind_Ret _ _ _ _ _ (uva2ka_eq end_ Hend _ _ _ _ _ _ (us_shape _ _ _ _ _ _ Hu) Et)), Hk, kernel_not_user, andb_false_r. done.
  - exfalso. unfold entry in Hk. rewrite Et in Hk. by apply (kernel_high va0).
Qed.

(** [loaduvm], in a state that has the memory beside a file to read. *)
Section load.
Context {X : Type} (get_km : X -> kmem) (put_km : kmem -> X -> X).
Variable readi : Z -> Z -> M X (Z * list Z).
Variables (P : X -> Prop) (file : Z -> Z) (fsize : Z).
Hypothesis Hrd : reader get_km put_km readi P file fsize.

Lemma built_load x l pd T U size guard img addr off len :
  P x -> built (get_km x) l pd T U size guard img -> addr mod PGSIZE = 0 -> 0 <= addr -> 0 <= len -> addr + len <= size -> 0 <= off < W32 ->
  exists r x', loaduvm get_km put_km readi pd addr off len x = Ret r x' /\ P x' /\
    (r = 0 /\ (0 < len -> off + len <= fsize) /\ built (get_km x') l pd T U size guard (blit img addr len (fun j => file (off + j))) \/
     r = -1 /\ 0 < len /\ fsize < off + len /\ taken (get_km x') l pd T U).
Proof.
  intros Hp Hb Ha Ha0 Hl Hle Hoff. pose proof (tk_space _ _ _ _ _ (bu_taken _ _ _ _ _ _ _ _ Hb)) as Hu. pose proof (bu_size _ _ _ _ _ _ _ _ Hb) as Hs.
  destruct (loaduvm_ok end_ Hend get_km put_km readi P file fsize Hrd x l pd T U addr off len Hp Hu Ha) as (r & x' & E & Hp' & Hu' & Ho & He & Hr); [lia..|done| |].
  { intros n (? & ? & ? & ?). apply (bu_pages _ _ _ _ _ _ _ _ Hb). lia. }
  exists r, x'. split_and!; [done..|]. destruct Hr as [(-> & Hin & Hc)|(-> & Hpos & Hout)]; [left|right]; split_and!; try done.
  - by apply (built_write _ _ _ _ _ _ _ _ _ _ _ _ _ Hb Hu' Ho He Hc).
  - eapply taken_step; [apply Hb|done|done|]. eapply only_mono; [done|]. clear. set_solver.
Qed.
End load.

(** [freevm] gives the pages back. *)
Lemma taken_free k l pd T U : taken k l pd T U ->
  exists k' l', freevm end_ pd k = Ret tt k' /\ inv k' l' /\ l' ≡ₚ l0 /\ only (ram k0) (ram k') l0.
Proof.
  intros [Hu Hp Ho]. destruct (freevm_ok end_ Hend k l pd T U Hu) as (k' & l' & E & Hi & Hp' & Ho'). exists k', l'.
  split_and!; [done..|by rewrite Hp'|]. eapply only_trans; [done|]. eapply only_mono; [done|]. intros q. by rewrite Hp.
Qed.
End mem.
End ExecMem.
