(* ===== verification/File.v ===== *)
(** Open files ([file.c], [file.h]) and [pipealloc] of [pipe.c].

    The file table is shared by all processes; an open file is a pipe's end or an inode with
    an offset.  The state has what [file.c] reaches: the file system, the pipes by the page
    they are in, and the page allocator.  [Module FileSpec] has the table's invariant. *)

From S2P Require Import Prelude Params Bytes CString Sleeplock Kalloc Pipe Fs.

Module File.
Import Kalloc.

Inductive ftype := FD_NONE | FD_PIPE | FD_INODE.
Record file := MkFile {
  f_type : ftype; f_ref : Z; f_readable : Z; f_writable : Z; f_pipe : Z; f_ip : nat; f_off : Z
}.
Definition zero_file : file := MkFile FD_NONE 0 0 0 0 0 0.
#[global] Instance ftype_eq_dec : EqDecision ftype.
Proof. solve_decision. Defined.
#[global] Instance file_inhabited : Inhabited file := populate zero_file.

Definition set_ref (x : Z) (f : file) : file :=
  MkFile (f_type f) x (f_readable f) (f_writable f) (f_pipe f) (f_ip f) (f_off f).
Definition set_type (x : ftype) (f : file) : file :=
  MkFile x (f_ref f) (f_readable f) (f_writable f) (f_pipe f) (f_ip f) (f_off f).
Definition set_off (x : Z) (f : file) : file :=
  MkFile (f_type f) (f_ref f) (f_readable f) (f_writable f) (f_pipe f) (f_ip f) x.
(** The fields [pipealloc] and [sys_open] fill in. *)
Definition set_pipe (r w p : Z) (f : file) : file := MkFile FD_PIPE (f_ref f) r w p (f_ip f) (f_off f).
Definition set_inode (r w : Z) (i : nat) (f : file) : file := MkFile FD_INODE (f_ref f) r w (f_pipe f) i 0.

Section file.
Context {W : Type} `{!Blocks W}.
Local Notation fs := (@Fs.fs W).

(** The log's operations on the blocks, the running process and whether it has been killed,
    the devices, and the end of the kernel. *)
Variables (begin_op end_op : M W unit).
Variable me : Z.
Variable killed : bool.
Variable devsw : Z -> @Fs.devfun W.
Variable end_ : Z.

Record kst := MkKst {
  ft_lock : Klock.t; files : list file; fsys : fs; pipes : Z -> Pipe.pipe; km : kmem
}.

Definition getf (s : kst) (i : nat) : file := files s !!! i.
Definition updf (i : nat) (g : file -> file) : M kst unit := modify (fun s =>
  MkKst (ft_lock s) (alter g i (files s)) (fsys s) (pipes s) (km s)).
Definition ftable_lock (m : M Klock.t unit) : M kst unit :=
  zoom ft_lock (fun l s => MkKst l (files s) (fsys s) (pipes s) (km s)) m.
Definition on_fs {A} (m : M fs A) : M kst A :=
  zoom fsys (fun x s => MkKst (ft_lock s) (files s) x (pipes s) (km s)) m.
Definition on_log (m : M W unit) : M kst unit := on_fs (Fs.blocks m).
Definition on_pipe {A} (p : Z) (m : M Pipe.pipe A) : M kst A :=
  zoom (fun s => pipes s p) (fun x s => MkKst (ft_lock s) (files s) (fsys s) (<[p := x]> (pipes s)) (km s)) m.
Definition on_km {A} (m : M kmem A) : M kst A :=
  zoom km (fun x s => MkKst (ft_lock s) (files s) (fsys s) (pipes s) x) m.

Definition fileinit : M kst unit := modify (fun s =>
  MkKst false (files s) (fsys s) (pipes s) (km s)).

Definition filealloc : M kst (option nat) :=
  ftable_lock Klock.acquire ;;;
  r <- for_loop (fun i =>
    f <- reads (fun s => getf s i) ;;
    if f_ref f =? 0 then
      updf i (set_ref 1) ;;;
      ftable_lock Klock.release ;;;
      ret (Some i)
    else ret None) 0 NFILE ;;
  match r with
  | Some i => ret (Some i)
  | None => ftable_lock Klock.release ;;; ret None
  end.

Definition filedup (i : nat) : M kst nat :=
  ftable_lock Klock.acquire ;;;
  f <- reads (fun s => getf s i) ;;
  if f_ref f <? 1 then panic "filedup" else
  updf i (set_ref (i32 (f_ref f + 1))) ;;;
  ftable_lock Klock.release ;;;
  ret i.

Definition pipeclose (p : Z) (writable : Z) : M kst unit :=
  zoom (fun s => (pipes s p, km s))
    (fun x s => MkKst (ft_lock s) (files s) (fsys s) (<[p := fst x]> (pipes s)) (snd x))
    (Pipe.pipeclose end_ p (negb (writable =? 0))).

Definition fileclose (i : nat) : M kst unit :=
  ftable_lock Klock.acquire ;;;
  f <- reads (fun s => getf s i) ;;
  if f_ref f <? 1 then panic "fileclose" else
  updf i (set_ref (f_ref f - 1)) ;;;
  if 0 <? f_ref f - 1 then ftable_lock Klock.release else
  ff <- reads (fun s => getf s i) ;;
  updf i (set_ref 0) ;;;
  updf i (set_type FD_NONE) ;;;
  ftable_lock Klock.release ;;;
  match f_type ff with
  | FD_PIPE => pipeclose (f_pipe ff) (f_writable ff)
  | FD_INODE => on_log begin_op ;;; on_fs (Fs.iput me (f_ip ff)) ;;; on_log end_op
  | FD_NONE => ret tt
  end.

(** [None] is the error -1. *)
Definition filestat (i : nat) : M kst (option Fs.stat) :=
  f <- reads (fun s => getf s i) ;;
  match f_type f with
  | FD_INODE =>
      on_fs (Fs.ilock me (f_ip f)) ;;;
      st <- on_fs (Fs.stati (f_ip f)) ;;
      on_fs (Fs.iunlock me (f_ip f)) ;;;
      ret (Some st)
  | _ => ret None
  end.

(** The result and the bytes put in the caller's buffer, or that the process sleeps. *)
Definition fileread (i : nat) (n : Z) : M kst Pipe.rres :=
  f <- reads (fun s => getf s i) ;;
  if f_readable f =? 0 then ret (Pipe.RRet (-1) []) else
  match f_type f with
  | FD_PIPE => on_pipe (f_pipe f) (Pipe.piperead killed n)
  | FD_INODE =>
      on_fs (Fs.ilock me (f_ip f)) ;;;
      r <- on_fs (Fs.readi devsw (f_ip f) (f_off f) n) ;;
      when (0 <? fst r) (updf i (fun g => set_off (u32 (f_off g + fst r)) g)) ;;;
      on_fs (Fs.iunlock me (f_ip f)) ;;;
      ret (Pipe.RRet (fst r) (snd r))
  | FD_NONE => panic "fileread"
  end.

(** [max] in [filewrite]: a transaction writes no more bytes of a file than this. *)
Definition write_max : Z := (MAXOPBLOCKS - 1 - 1 - 2) / 2 * 512.

(** The loop of [filewrite]; every turn writes at least a byte or leaves the loop. *)
Fixpoint filewrite_loop (fuel : nat) (fi : nat) (ip : nat) (bs : list Z) (i n : Z) : M kst Z :=
  if negb (i <? n) then ret i else
  match fuel with
  | O => panic "out of fuel"
  | S fuel =>
      let n1 := if write_max <? n - i then write_max else n - i in
      on_log begin_op ;;;
      on_fs (Fs.ilock me ip) ;;;
      off <- reads (fun s => f_off (getf s fi)) ;;
      r <- on_fs (Fs.writei devsw ip (drop (Z.to_nat i) bs) off n1) ;;
      when (0 <? r) (updf fi (fun g => set_off (u32 (f_off g + r)) g)) ;;;
      on_fs (Fs.iunlock me ip) ;;;
      on_log end_op ;;;
      if r <? 0 then ret i else
      if negb (r =? n1) then panic "short filewrite" else
      filewrite_loop fuel fi ip bs (i + r) n
  end.
Definition filewrite (i : nat) (bs : list Z) (n : Z) : M kst Pipe.wres :=
  f <- reads (fun s => getf s i) ;;
  if f_writable f =? 0 then ret (Pipe.WRet (-1)) else
  match f_type f with
  | FD_PIPE => on_pipe (f_pipe f) (Pipe.pipewrite killed n bs)
  | FD_INODE =>
      r <- filewrite_loop (Z.to_nat n) i (f_ip f) bs 0 n ;;
      ret (Pipe.WRet (if r =? n then n else -1))
  | FD_NONE => panic "filewrite"
  end.

(** The offset of [data] in [struct pipe], after its spin lock. *)
Definition pipe_data : Z := 52.
Definition pipealloc_bad (p : Z) (f0 f1 : option nat) : M kst (option (nat * nat)) :=
  when (negb (p =? 0)) (on_km (kfree end_ p)) ;;;
  match f0 with Some i => fileclose i | None => ret tt end ;;;
  match f1 with Some i => fileclose i | None => ret tt end ;;;
  ret None.
(** The two files: the end to read from and the end to write to. *)
Definition pipealloc : M kst (option (nat * nat)) :=
  f0 <- filealloc ;;
  match f0 with
  | None => pipealloc_bad 0 None None
  | Some i0 =>
      f1 <- filealloc ;;
      match f1 with
      | None => pipealloc_bad 0 f0 None
      | Some i1 =>
          p <- on_km kalloc ;;
          if p =? 0 then pipealloc_bad 0 f0 f1 else
          junk <- reads (fun s => bytes_at (ram (km s)) (p + pipe_data) (Z.to_nat Pipe.PIPESIZE)) ;;
          on_pipe p (modify (fun _ => Pipe.init_pipe junk)) ;;;
          updf i0 (set_pipe 1 0 p) ;;;
          updf i1 (set_pipe 0 1 p) ;;;
          ret (Some (i0, i1))
      end
  end.
End file.
Arguments kst : clear implicits.
End File.
