(* ===== verification/Sysfile.v ===== *)
(** The system calls on files ([sysfile.c]) and the arguments of system calls ([syscall.c]).

    The state is what the running process can reach: its memory, size and stack pointer, its
    table of open files, and the kernel below.  Error returns are [-1], as in the code; the
    functions that fetch an argument give [None]. *)

From S2P Require Import Prelude Params Bytes CString Sleeplock Kalloc Pipe Fs File.

Module Sysfile.
Import KString Kalloc File.

Definition O_RDONLY : Z := 0.
Definition O_WRONLY : Z := 1.
Definition O_RDWR : Z := 2.
Definition O_CREATE : Z := 512.

Definition store16 (m : mem) (a v : Z) : mem := store_bytes m a (le_bytes 2 v).

Section sysfile.
Context {W : Type} `{!Blocks W}.
Local Notation fs := (@Fs.fs W).
Local Notation kst := (File.kst W).
Variables (begin_op end_op : M W unit).
Variable me : Z.
Variable killed : bool.
Variable devsw : Z -> @Fs.devfun W.
Variable end_ : Z.

Record ust := MkUst { umem : mem; usz : Z; uesp : Z; ofile : list (option nat); kern : kst }.

Definition K {A} (m : M kst A) : M ust A :=
  zoom kern (fun x s => MkUst (umem s) (usz s) (uesp s) (ofile s) x) m.
Definition F {A} (m : M fs A) : M ust A := K (on_fs m).
Definition op_begin : M ust unit := K (on_log begin_op).
Definition op_end : M ust unit := K (on_log end_op).
Definition set_fd (fd : nat) (x : option nat) : M ust unit := modify (fun s =>
  MkUst (umem s) (usz s) (uesp s) (<[fd := x]> (ofile s)) (kern s)).
Definition set_mem (f : mem -> mem) : M ust unit := modify (fun s =>
  MkUst (f (umem s)) (usz s) (uesp s) (ofile s) (kern s)).
Definition inode_of (i : nat) : M ust Fs.inode := reads (fun s => Fs.geti (fsys (kern s)) i).
Definition upd_inode (i : nat) (g : Fs.inode -> Fs.inode) : M ust unit := F (Fs.upd i g).

(** *** Arguments *)
Definition fetchint (addr : Z) : M ust (option Z) :=
  s <- reads id ;;
  if (usz s <=? addr) || (usz s <? u32 (addr + 4)) then ret None
  else ret (Some (i32 (load32 (umem s) addr))).

(** The loop of [fetchstr] from [s] to [ep]: the length of the string. *)
Fixpoint str_scan (m : mem) (s : Z) (n : nat) : option Z :=
  match n with
  | O => None
  | S n' => if m s =? 0 then Some 0 else
            match str_scan m (s + 1) n' with Some l => Some (l + 1) | None => None end
  end.
(** The string itself, where the code sets a pointer to it. *)
Definition fetchstr (addr : Z) : M ust (option (list Z)) :=
  s <- reads id ;;
  if usz s <=? addr then ret None else
  match str_scan (umem s) addr (Z.to_nat (usz s - addr)) with
  | Some l => ret (Some (bytes_at (umem s) addr (Z.to_nat l)))
  | None => ret None
  end.

Definition argint (n : Z) : M ust (option Z) :=
  esp <- reads uesp ;; fetchint (u32 (esp + 4 + 4 * n)).

Definition argptr (n size : Z) : M ust (option Z) :=
  i <- argint n ;;
  match i with
  | None => ret None
  | Some i =>
      s <- reads id ;;
      if (size <? 0) || (usz s <=? u32 i) || (usz s <? u32 (u32 i + size)) then ret None
      else ret (Some (u32 i))
  end.

Definition argstr (n : Z) : M ust (option (list Z)) :=
  a <- argint n ;;
  match a with
  | None => ret None
  | Some a => fetchstr (u32 a)
  end.

(** The descriptor and the file. *)
Definition argfd (n : Z) : M ust (option (nat * nat)) :=
  fd <- argint n ;;
  match fd with
  | None => ret None
  | Some fd =>
      if (fd <? 0) || (Z.of_nat NOFILE <=? fd) then ret None else
      fs <- reads ofile ;;
      match fs !!! Z.to_nat fd with
      | None => ret None
      | Some f => ret (Some (Z.to_nat fd, f))
      end
  end.

(** *** Descriptors *)
Definition fdalloc (f : nat) : M ust (option nat) :=
  for_loop (fun fd =>
    fs <- reads ofile ;;
    match fs !!! fd with
    | None => set_fd fd (Some f) ;;; ret (Some fd)
    | Some _ => ret None
    end) 0 NOFILE.

Definition sys_dup : M ust Z :=
  a <- argfd 0 ;;
  match a with
  | None => ret (-1)
  | Some (_, f) =>
      r <- fdalloc f ;;
      match r with
      | None => ret (-1)
      | Some fd => K (filedup f) ;;; ret (Z.of_nat fd)
      end
  end.

(** [None]: the process sleeps in [piperead] and repeats its loop when it is woken. *)
Definition sys_read : M ust (option Z) :=
  a <- argfd 0 ;;
  match a with None => ret (Some (-1)) | Some (_, f) =>
  n <- argint 2 ;;
  match n with None => ret (Some (-1)) | Some n =>
  p <- argptr 1 n ;;
  match p with None => ret (Some (-1)) | Some p =>
  r <- K (fileread me killed devsw f n) ;;
  match r with
  | Pipe.RRet r bs => set_mem (fun m => store_bytes m p bs) ;;; ret (Some r)
  | Pipe.RSleep => ret None
  end end end end.

Definition sys_write : M ust Pipe.wres :=
  a <- argfd 0 ;;
  match a with None => ret (Pipe.WRet (-1)) | Some (_, f) =>
  n <- argint 2 ;;
  match n with None => ret (Pipe.WRet (-1)) | Some n =>
  p <- argptr 1 n ;;
  match p with None => ret (Pipe.WRet (-1)) | Some p =>
  m <- reads umem ;;
  K (filewrite begin_op end_op me killed devsw f (bytes_at m p (Z.to_nat n)) n)
  end end end.

Definition sys_close : M ust Z :=
  a <- argfd 0 ;;
  match a with
  | None => ret (-1)
  | Some (fd, f) => set_fd fd None ;;; K (fileclose begin_op end_op me end_ f) ;;; ret 0
  end.

(** [struct stat] in memory: a short, three words and a short, on their alignments. *)
Definition sizeof_stat : Z := 20.
Definition store_stat (m : mem) (p : Z) (st : Fs.stat) : mem :=
  store32 (store16 (store32 (store32 (store16 m p (Fs.st_type st)) (p + 4) (u32 (Fs.st_dev st)))
    (p + 8) (Fs.st_ino st)) (p + 12) (Fs.st_nlink st)) (p + 16) (Fs.st_size st).
Definition sys_fstat : M ust Z :=
  a <- argfd 0 ;;
  match a with None => ret (-1) | Some (_, f) =>
  p <- argptr 1 sizeof_stat ;;
  match p with None => ret (-1) | Some p =>
  st <- K (filestat me f) ;;
  match st with
  | None => ret (-1)
  | Some st => set_mem (fun m => store_stat m p st) ;;; ret 0
  end end end.

(** *** Names *)
Definition sys_link_bad (ip : nat) : M ust Z :=
  F (Fs.ilock me ip) ;;;
  upd_inode ip (fun x => Fs.set_nlink (i16 (Fs.nlink x - 1)) x) ;;;
  F (Fs.iupdate ip) ;;;
  F (Fs.iunlockput me ip) ;;;
  op_end ;;;
  ret (-1).
Definition sys_link : M ust Z :=
  old <- argstr 0 ;;
  match old with None => ret (-1) | Some old =>
  new <- argstr 1 ;;
  match new with None => ret (-1) | Some new =>
  op_begin ;;;
  ip <- F (Fs.namei me devsw old) ;;
  match ip with None => op_end ;;; ret (-1) | Some ip =>
  F (Fs.ilock me ip) ;;;
  x <- inode_of ip ;;
  if Fs.type x =? T_DIR then F (Fs.iunlockput me ip) ;;; op_end ;;; ret (-1) else
  upd_inode ip (fun x => Fs.set_nlink (i16 (Fs.nlink x + 1)) x) ;;;
  F (Fs.iupdate ip) ;;;
  F (Fs.iunlock me ip) ;;;
  dp <- F (Fs.nameiparent me devsw new) ;;
  match dp with None => sys_link_bad ip | Some (dp, name) =>
  F (Fs.ilock me dp) ;;;
  d <- inode_of dp ;;
  x <- inode_of ip ;;
  ok <- (if negb (Fs.dev d =? Fs.dev x) then ret false
         else (r <- F (Fs.dirlink me devsw dp name (Fs.inum x)) ;; ret (negb (r <? 0)))) ;;
  if negb ok then F (Fs.iunlockput me dp) ;;; sys_link_bad ip else
  F (Fs.iunlockput me dp) ;;;
  F (Fs.iput me ip) ;;;
  op_end ;;;
  ret 0
  end end end end.

Definition isdirempty (dp : nat) : M ust bool :=
  x <- inode_of dp ;;
  r <- for_loop (fun k =>
    r <- F (Fs.readi devsw dp (Z.of_nat k * Fs.sizeof_de) Fs.sizeof_de) ;;
    if negb (fst r =? Fs.sizeof_de) then panic "isdirempty: readi" else
    if negb (Fs.de_inum (snd r) =? 0) then ret (Some tt) else ret None)
    2 (Z.to_nat ((Fs.size x + Fs.sizeof_de - 1) / Fs.sizeof_de) - 2) ;;
  ret (match r with Some _ => false | None => true end).

Definition dot : list Z := [46].
Definition dotdot : list Z := [46; 46].

Definition sys_unlink_bad (dp : nat) : M ust Z :=
  F (Fs.iunlockput me dp) ;;; op_end ;;; ret (-1).
Definition sys_unlink : M ust Z :=
  path <- argstr 0 ;;
  match path with None => ret (-1) | Some path =>
  op_begin ;;;
  dp <- F (Fs.nameiparent me devsw path) ;;
  match dp with None => op_end ;;; ret (-1) | Some (dp, name) =>
  F (Fs.ilock me dp) ;;;
  if (Fs.namecmp name dot =? 0) || (Fs.namecmp name dotdot =? 0) then sys_unlink_bad dp else
  r <- F (Fs.dirlookup devsw dp name) ;;
  match r with None => sys_unlink_bad dp | Some (ip, off) =>
  F (Fs.ilock me ip) ;;;
  x <- inode_of ip ;;
  if Fs.nlink x <? 1 then panic "unlink: nlink < 1" else
  full <- (if Fs.type x =? T_DIR then (e <- isdirempty ip ;; ret (negb e)) else ret false) ;;
  if full then F (Fs.iunlockput me ip) ;;; sys_unlink_bad dp else
  w <- F (Fs.writei devsw dp (replicate (Z.to_nat Fs.sizeof_de) 0) off Fs.sizeof_de) ;;
  if negb (w =? Fs.sizeof_de) then panic "unlink: writei" else
  x <- inode_of ip ;;
  when (Fs.type x =? T_DIR)
    (upd_inode dp (fun x => Fs.set_nlink (i16 (Fs.nlink x - 1)) x) ;;;
     F (Fs.iupdate dp)) ;;;
  F (Fs.iunlockput me dp) ;;;
  upd_inode ip (fun x => Fs.set_nlink (i16 (Fs.nlink x - 1)) x) ;;;
  F (Fs.iupdate ip) ;;;
  F (Fs.iunlockput me ip) ;;;
  op_end ;;;
  ret 0
  end end end.

(** The locked inode, new or (for a file) the one that was there. *)
Definition create (path : list Z) (type major minor : Z) : M ust (option nat) :=
  dp <- F (Fs.nameiparent me devsw path) ;;
  match dp with None => ret None | Some (dp, name) =>
  F (Fs.ilock me dp) ;;;
  r <- F (Fs.dirlookup devsw dp name) ;;
  match r with
  | Some (ip, _) =>
      F (Fs.iunlockput me dp) ;;;
      F (Fs.ilock me ip) ;;;
      x <- inode_of ip ;;
      if (type =? T_FILE) && (Fs.type x =? T_FILE) then ret (Some ip) else
      F (Fs.iunlockput me ip) ;;;
      ret None
  | None =>
      d <- inode_of dp ;;
      ip <- F (Fs.ialloc (Fs.dev d) type) ;;
      F (Fs.ilock me ip) ;;;
      upd_inode ip (Fs.set_major major) ;;;
      upd_inode ip (Fs.set_minor minor) ;;;
      upd_inode ip (Fs.set_nlink 1) ;;;
      F (Fs.iupdate ip) ;;;
      x <- inode_of ip ;;
      when (type =? T_DIR)
        (upd_inode dp (fun x => Fs.set_nlink (i16 (Fs.nlink x + 1)) x) ;;;
         F (Fs.iupdate dp) ;;;
         r <- F (Fs.dirlink me devsw ip dot (Fs.inum x)) ;;
         if r <? 0 then panic "create dots" else
         d <- inode_of dp ;;
         r <- F (Fs.dirlink me devsw ip dotdot (Fs.inum d)) ;;
         if r <? 0 then panic "create dots" else ret tt) ;;;
      r <- F (Fs.dirlink me devsw dp name (Fs.inum x)) ;;
      if r <? 0 then panic "create: dirlink" else
      F (Fs.iunlockput me dp) ;;;
      ret (Some ip)
  end end.

(** *** Opening *)
Definition sys_open_file (ip : nat) (omode : Z) : M ust Z :=
  f <- K filealloc ;;
  match f with
  | None => F (Fs.iunlockput me ip) ;;; op_end ;;; ret (-1)
  | Some f =>
      fd <- fdalloc f ;;
      match fd with
      | None =>
          K (fileclose begin_op end_op me end_ f) ;;;
          F (Fs.iunlockput me ip) ;;;
          op_end ;;;
          ret (-1)
      | Some fd =>
          F (Fs.iunlock me ip) ;;;
          op_end ;;;
          K (updf f (set_inode (if Z.land omode O_WRONLY =? 0 then 1 else 0)
              (if negb (Z.land omode O_WRONLY =? 0) || negb (Z.land omode O_RDWR =? 0) then 1 else 0) ip)) ;;;
          ret (Z.of_nat fd)
      end
  end.
Definition sys_open : M ust Z :=
  path <- argstr 0 ;;
  match path with None => ret (-1) | Some path =>
  omode <- argint 1 ;;
  match omode with None => ret (-1) | Some omode =>
  op_begin ;;;
  if negb (Z.land omode O_CREATE =? 0) then
    ip <- create path T_FILE 0 0 ;;
    match ip with
    | None => op_end ;;; ret (-1)
    | Some ip => sys_open_file ip omode
    end
  else
    ip <- F (Fs.namei me devsw path) ;;
    match ip with
    | None => op_end ;;; ret (-1)
    | Some ip =>
        F (Fs.ilock me ip) ;;;
        x <- inode_of ip ;;
        if (Fs.type x =? T_DIR) && negb (omode =? O_RDONLY) then
          F (Fs.iunlockput me ip) ;;; op_end ;;; ret (-1)
        else sys_open_file ip omode
    end
  end end.

Definition sys_mkdir : M ust Z :=
  op_begin ;;;
  path <- argstr 0 ;;
  ip <- (match path with None => ret None | Some path => create path T_DIR 0 0 end) ;;
  match ip with
  | None => op_end ;;; ret (-1)
  | Some ip => F (Fs.iunlockput me ip) ;;; op_end ;;; ret 0
  end.

Definition sys_mknod : M ust Z :=
  op_begin ;;;
  path <- argstr 0 ;;
  ip <- (match path with None => ret None | Some path =>
         major <- argint 1 ;;
         match major with None => ret None | Some major =>
         minor <- argint 2 ;;
         match minor with None => ret None | Some minor =>
         create path T_DEV (i16 major) (i16 minor) end end end) ;;
  match ip with
  | None => op_end ;;; ret (-1)
  | Some ip => F (Fs.iunlockput me ip) ;;; op_end ;;; ret 0
  end.

Definition sys_chdir : M ust Z :=
  op_begin ;;;
  path <- argstr 0 ;;
  ip <- (match path with None => ret None | Some path => F (Fs.namei me devsw path) end) ;;
  match ip with
  | None => op_end ;;; ret (-1)
  | Some ip =>
      F (Fs.ilock me ip) ;;;
      x <- inode_of ip ;;
      if negb (Fs.type x =? T_DIR) then F (Fs.iunlockput me ip) ;;; op_end ;;; ret (-1) else
      F (Fs.iunlock me ip) ;;;
      cwd <- reads (fun s => Fs.cwd (fsys (kern s))) ;;
      F (Fs.iput me cwd) ;;;
      op_end ;;;
      F (modify (fun s => Fs.MkFs (Fs.sb s) (Fs.ic_lock s) (Fs.inodes s) ip (Fs.blk s))) ;;;
      ret 0
  end.

(** [exec] gets the path and the strings of [argv]. *)
Variable exec : list Z -> list (list Z) -> M ust Z.
Fixpoint sys_exec_args (uargv : Z) (i : nat) (cnt : nat) : M ust (option (list (list Z))) :=
  match cnt with
  | O => ret None
  | S cnt =>
      uarg <- fetchint (u32 (uargv + 4 * Z.of_nat i)) ;;
      match uarg with None => ret None | Some uarg =>
      if u32 uarg =? 0 then ret (Some []) else
      arg <- fetchstr (u32 uarg) ;;
      match arg with None => ret None | Some arg =>
      rest <- sys_exec_args uargv (S i) cnt ;;
      match rest with None => ret None | Some rest => ret (Some (arg :: rest)) end end end
  end.
Definition sys_exec : M ust Z :=
  path <- argstr 0 ;;
  match path with None => ret (-1) | Some path =>
  uargv <- argint 1 ;;
  match uargv with None => ret (-1) | Some uargv =>
  argv <- sys_exec_args (u32 uargv) 0 MAXARG ;;
  match argv with
  | None => ret (-1)
  | Some argv => exec path argv
  end end end.

Definition sys_pipe : M ust Z :=
  fd <- argptr 0 8 ;;
  match fd with None => ret (-1) | Some fd =>
  r <- K (pipealloc begin_op end_op me end_) ;;
  match r with None => ret (-1) | Some (rf, wf) =>
  fd0 <- fdalloc rf ;;
  match fd0 with
  | None =>
      K (fileclose begin_op end_op me end_ rf) ;;;
      K (fileclose begin_op end_op me end_ wf) ;;;
      ret (-1)
  | Some fd0 =>
      fd1 <- fdalloc wf ;;
      match fd1 with
      | None =>
          set_fd fd0 None ;;;
          K (fileclose begin_op end_op me end_ rf) ;;;
          K (fileclose begin_op end_op me end_ wf) ;;;
          ret (-1)
      | Some fd1 =>
          set_mem (fun m => store32 m fd (Z.of_nat fd0)) ;;;
          set_mem (fun m => store32 m (fd + 4) (Z.of_nat fd1)) ;;;
          ret 0
      end
  end end end.
End sysfile.
End Sysfile.
