(* ===== verification/FileSpec.v ===== *)
(** Open files and descriptors: what the system calls on files keep and do.

    [counted] is the invariant of the file table: the reference count of a file is the number
    of descriptors that refer to it, in the running process and in all others, and a free
    entry has no type.  Every system call of [sysfile.c] keeps it. *)

From S2P Require Import Prelude Params Bytes CString Sleeplock Kalloc Pipe Fs File Sysfile.

Module FileSpec.
Import KString Kalloc File Sysfile.

(** A file but for its offset. *)
Definition ident (f : file) : file := set_off 0 f.

Lemma ident_eq f g : ident f = ident g -> f_ref f = f_ref g /\ f_type f = f_type g.
Proof. destruct f, g. unfold ident, set_off. cbn. by intros [= -> -> -> -> -> ->]. Qed.

Lemma alter_twice {A} (f g : A -> A) i (l : list A) : alter f i (alter g i l) = alter (fun x => f (g x)) i l.
Proof.
  apply list_eq. intros j. destruct (decide (j = i)) as [->|]; [|by rewrite !list_lookup_alter_ne].
  rewrite !list_lookup_alter_eq. by destruct (l !! i).
Qed.

Section rel.
Context {W : Type}.

(** The file table is the same; the same but for offsets; and so are the descriptors. *)
Definition same_files (s s' : File.kst W) : Prop := ft_lock s' = ft_lock s /\ files s' = files s.
Definition same_idents (s s' : File.kst W) : Prop :=
  ft_lock s' = ft_lock s /\ ident <$> files s' = ident <$> files s.
Definition same_fds (s s' : @Sysfile.ust W) : Prop := same_idents (kern s) (kern s') /\ ofile s' = ofile s.

#[global] Instance same_files_pre : PreOrder same_files.
Proof. split; [by intros s|]. intros s1 s2 s3 [H1 H2] [G1 G2]. unfold same_files. by rewrite G1, G2. Qed.
#[global] Instance same_idents_pre : PreOrder same_idents.
Proof. split; [by intros s|]. intros s1 s2 s3 [H1 H2] [G1 G2]. unfold same_idents. by rewrite G1, G2. Qed.
#[global] Instance same_fds_pre : PreOrder same_fds.
Proof. split; [by intros s|]. intros s1 s2 s3 [H1 H2] [G1 G2]. split; [by etrans|by rewrite G2]. Qed.

Lemma same_files_idents s s' : same_files s s' -> same_idents s s'.
Proof. intros [H1 H2]. split; [done|by rewrite H2]. Qed.
Lemma keeps_files_idents {A} (m : M (File.kst W) A) : keeps same_files m -> keeps same_idents m.
Proof. intros Hm s a s' H. by eapply same_files_idents, Hm. Qed.
Lemma keeps_K {A} (m : M (File.kst W) A) : keeps same_idents m -> keeps same_fds (K m).
Proof. intros Hm. eapply keeps_zoom_sub; [exact Hm|]. by intros s t H. Qed.
End rel.

Section calls.
Context {W : Type} `{!Blocks W}.
Local Notation kst := (File.kst W).
Local Notation ust := (@Sysfile.ust W).
Variables (begin_op end_op : M W unit).
Variable me : Z.
Variable killed : bool.
Variable devsw : Z -> @Fs.devfun W.
Variable end_ : Z.

(** ** Operations that leave the table and the descriptors alone *)
Lemma keeps_on_fs {A} (m : M (@Fs.fs W) A) : keeps same_files (on_fs m).
Proof. by apply keeps_zoom. Qed.
Lemma keeps_on_log (m : M W unit) : keeps same_files (on_log m).
Proof. apply keeps_on_fs. Qed.
Lemma keeps_on_pipe {A} p (m : M Pipe.pipe A) : keeps (same_files (W := W)) (on_pipe p m).
Proof. by apply keeps_zoom. Qed.
Lemma keeps_on_km {A} (m : M kmem A) : keeps (same_files (W := W)) (on_km m).
Proof. by apply keeps_zoom. Qed.
Lemma keeps_pipeclose p w : keeps (same_files (W := W)) (pipeclose end_ p w).
Proof. by apply keeps_zoom. Qed.
Hint Resolve keeps_on_fs keeps_on_log keeps_on_pipe keeps_on_km keeps_pipeclose : keeps.

Lemma keeps_set_off i g :
  keeps (same_idents (W := W)) (updf i (fun f => set_off (g f) f)).
Proof.
  apply keeps_modify. intros s. split; [done|]. cbn [files].
  apply list_eq. intros j. rewrite !list_lookup_fmap. destruct (decide (j = i)) as [->|].
  - rewrite list_lookup_alter_eq. by destruct (files s !! i).
  - by rewrite list_lookup_alter_ne.
Qed.
Hint Resolve keeps_set_off keeps_files_idents : keeps.

Lemma keeps_filestat i : keeps same_idents (filestat me i).
Proof. unfold filestat. keep. Qed.
Lemma keeps_fileread i n : keeps same_idents (fileread me killed devsw i n).
Proof. unfold fileread. keep. Qed.
Lemma keeps_filewrite_loop fuel fi ip bs : forall i n,
  keeps same_idents (filewrite_loop begin_op end_op me devsw fuel fi ip bs i n).
Proof. induction fuel as [|fuel IH]; intros i n; cbn [filewrite_loop]; keep. Qed.
Hint Resolve keeps_filewrite_loop : keeps.
Lemma keeps_filewrite i bs n : keeps same_idents (filewrite begin_op end_op me killed devsw i bs n).
Proof. unfold filewrite. keep. Qed.
Hint Resolve keeps_filestat keeps_fileread keeps_filewrite keeps_K : keeps.

Lemma keeps_F {A} (m : M (@Fs.fs W) A) : keeps same_fds (F m).
Proof. apply keeps_K, keeps_files_idents, keeps_on_fs. Qed.
Lemma keeps_set_mem f : keeps (same_fds (W := W)) (set_mem f).
Proof. by apply keeps_modify. Qed.
Hint Resolve keeps_F keeps_set_mem : keeps.
Lemma keeps_begin : keeps same_fds (op_begin begin_op).
Proof. apply keeps_F. Qed.
Lemma keeps_end : keeps same_fds (op_end end_op).
Proof. apply keeps_F. Qed.
Lemma keeps_upd_inode i g : keeps (same_fds (W := W)) (upd_inode i g).
Proof. apply keeps_F. Qed.
Lemma keeps_inode_of i : keeps (same_fds (W := W)) (inode_of i).
Proof. apply keeps_reads, _. Qed.
Lemma keeps_fetchint a : keeps (same_fds (W := W)) (fetchint a).
Proof. unfold fetchint. keep. Qed.
Lemma keeps_fetchstr a : keeps (same_fds (W := W)) (fetchstr a).
Proof. unfold fetchstr. keep. Qed.
Hint Resolve keeps_begin keeps_end keeps_upd_inode keeps_inode_of keeps_fetchint keeps_fetchstr : keeps.
Lemma keeps_argint n : keeps (same_fds (W := W)) (argint n).
Proof. unfold argint. keep. Qed.
Hint Resolve keeps_argint : keeps.
Lemma keeps_argptr n sz : keeps (same_fds (W := W)) (argptr n sz).
Proof. unfold argptr. keep. Qed.
Lemma keeps_argstr n : keeps (same_fds (W := W)) (argstr n).
Proof. unfold argstr. keep. Qed.
Lemma keeps_argfd n : keeps (same_fds (W := W)) (argfd n).
Proof. unfold argfd. keep. Qed.
Lemma keeps_create path t ma mi : keeps same_fds (create me devsw path t ma mi).
Proof. unfold create. keep. Qed.
Lemma keeps_isdirempty i : keeps same_fds (isdirempty devsw i).
Proof. unfold isdirempty. keep. Qed.
Hint Resolve keeps_argptr keeps_argstr keeps_argfd keeps_create keeps_isdirempty : keeps.

(** The calls that do not open or close. *)
Lemma keeps_read : keeps same_fds (sys_read me killed devsw).
Proof. unfold sys_read. keep. Qed.
Lemma keeps_write : keeps same_fds (sys_write begin_op end_op me killed devsw).
Proof. unfold sys_write. keep. Qed.
Lemma keeps_fstat : keeps same_fds (sys_fstat me).
Proof. unfold sys_fstat. keep. Qed.
Lemma keeps_link : keeps same_fds (sys_link begin_op end_op me devsw).
Proof. unfold sys_link, sys_link_bad. keep. Qed.
Lemma keeps_unlink : keeps same_fds (sys_unlink begin_op end_op me devsw).
Proof. unfold sys_unlink, sys_unlink_bad. keep. Qed.
Lemma keeps_mkdir : keeps same_fds (sys_mkdir begin_op end_op me devsw).
Proof. unfold sys_mkdir. keep. Qed.
Lemma keeps_mknod : keeps same_fds (sys_mknod begin_op end_op me devsw).
Proof. unfold sys_mknod. keep. Qed.
Lemma keeps_chdir : keeps same_fds (sys_chdir begin_op end_op me devsw).
Proof. unfold sys_chdir. keep. Qed.

(** ** The file table *)
Lemma filealloc_spec (s : kst) :
  ft_lock s = false -> length (files s) = NFILE ->
  (exists i, filealloc s = Ret (Some i) (MkKst false (alter (set_ref 1) i (files s)) (fsys s) (pipes s) (km s)) /\
    (i < NFILE)%nat /\ f_ref (getf s i) = 0) \/
  filealloc s = Ret None s /\ forall i, (i < NFILE)%nat -> f_ref (getf s i) <> 0.
Proof.
  intros Hl Hlen. destruct s as [lk fl fsy pi kme]. cbn in Hl, Hlen. subst lk. unfold filealloc.
  rewrite (bind_Ret _ _ _ tt (MkKst true fl fsy pi kme)) by done.
  set (s1 := MkKst true fl fsy pi kme).
  match goal with |- context [for_loop ?bd _ _] => set (body := bd) end.
  destruct (for_loop_search body (fun i => f_ref (fl !!! i) =? 0) 0 NFILE s1) as [(i & Hi & Hz & _ & Hf)|[Hall Hf]].
  - intros j _ Hj. unfold body, bind, reads, getf. cbn [files s1]. by rewrite Hj.
  - left. exists i. apply Z.eqb_eq in Hz. split_and!; [|lia|done].
    rewrite (bind_Ret _ _ _ (Some i) (MkKst false (alter (set_ref 1) i fl) fsy pi kme)); [done|].
    apply Hf. unfold body, bind, reads, getf. cbn [files s1]. by rewrite Hz.
  - right. split; [by rewrite (bind_Ret _ _ _ None s1)|]. intros i Hi. apply Z.eqb_neq, Hall. lia.
Qed.

Definition close_file (f : file) : file :=
  if 0 <? f_ref f - 1 then set_ref (f_ref f - 1) f else set_type FD_NONE (set_ref 0 f).

Lemma fileclose_inv i (s : kst) s' :
  fileclose begin_op end_op me end_ i s = Ret tt s' -> ft_lock s = false ->
  ft_lock s' = false /\ 1 <= f_ref (getf s i) /\ files s' = alter close_file i (files s).
Proof.
  destruct s as [lk fl fsy pi kme]. unfold fileclose. cbn [ft_lock files]. intros H ->.
  rewrite (bind_Ret _ _ _ tt (MkKst true fl fsy pi kme)) in H by done.
  rewrite (bind_Ret _ _ _ (fl !!! i) (MkKst true fl fsy pi kme)) in H by done. unfold getf. cbn [files].
  destruct (Z.ltb_spec (f_ref (fl !!! i)) 1); [done|].
  set (fl1 := alter (set_ref (f_ref (fl !!! i) - 1)) i fl) in H.
  rewrite (bind_Ret _ _ _ tt (MkKst true fl1 fsy pi kme)) in H by done.
  assert (Hc : forall g, close_file (fl !!! i) = g (fl !!! i) -> alter close_file i fl = alter g i fl).
  { intros g Hg. apply list_eq. intros j. destruct (decide (j = i)) as [->|]; [|by rewrite !list_lookup_alter_ne].
    rewrite !list_lookup_alter_eq. destruct (fl !! i) as [f|] eqn:E; [|done]. cbn. f_equal.
    by rewrite (list_lookup_total_correct _ _ _ E) in Hg. }
  destruct (Z.ltb_spec 0 (f_ref (fl !!! i) - 1)) as [Hpos|Hz].
  - injection H as <-. split_and!; [done|done|]. symmetry. apply Hc. unfold close_file.
    by destruct (Z.ltb_spec 0 (f_ref (fl !!! i) - 1)); [|lia].
  - rewrite (bind_Ret _ _ _ (fl1 !!! i) (MkKst true fl1 fsy pi kme)) in H by done.
    set (fl2 := alter (set_type FD_NONE) i (alter (set_ref 0) i fl1)).
    do 2 (rewrite (bind_Ret _ _ _ tt (MkKst true _ fsy pi kme)) in H by done). fold fl2 in H.
    rewrite (bind_Ret _ _ _ tt (MkKst false fl2 fsy pi kme)) in H by done.
    assert (Hk : keeps same_files (match f_type (fl1 !!! i) with
      | FD_NONE => ret tt
      | FD_PIPE => pipeclose end_ (f_pipe (fl1 !!! i)) (f_writable (fl1 !!! i))
      | FD_INODE => on_log begin_op ;;; on_fs (Fs.iput me (f_ip (fl1 !!! i))) ;;; on_log end_op end)) by keep.
    apply Hk in H as [-> ->]. split_and!; [done|done|]. cbn [files].
    rewrite (Hc (fun f => set_type FD_NONE (set_ref 0 f))).
    + unfold fl2, fl1. by rewrite !alter_twice.
    + unfold close_file. by destruct (Z.ltb_spec 0 (f_ref (fl !!! i) - 1)); [lia|].
Qed.

Lemma filedup_spec i (s : kst) :
  ft_lock s = false -> 1 <= f_ref (getf s i) < 2 ^ 31 - 1 ->
  filedup i s = Ret i (MkKst false (alter (set_ref (f_ref (getf s i) + 1)) i (files s)) (fsys s) (pipes s) (km s)).
Proof.
  destruct s as [lk fl fsy pi kme]. unfold getf. cbn [ft_lock files fsys pipes km]. intros -> Hr. unfold filedup.
  rewrite (bind_Ret _ _ _ tt (MkKst true fl fsy pi kme)) by done.
  rewrite (bind_Ret _ _ _ (fl !!! i) (MkKst true fl fsy pi kme)) by done.
  destruct (Z.ltb_spec (f_ref (fl !!! i)) 1); [lia|]. by rewrite i32_id by lia.
Qed.

Definition with_fds (l : list (option nat)) (s : ust) : ust := MkUst (umem s) (usz s) (uesp s) l (kern s).
Lemma fdalloc_spec f (s : ust) :
  (exists fd, fdalloc f s = Ret (Some fd) (with_fds (<[fd := Some f]> (ofile s)) s) /\ (fd < NOFILE)%nat /\
     ofile s !!! fd = None /\ forall j, (j < fd)%nat -> ofile s !!! j <> None) \/
  fdalloc f s = Ret None s /\ forall j, (j < NOFILE)%nat -> ofile s !!! j <> None.
Proof.
  unfold fdalloc. match goal with |- context [for_loop ?bd _ _] => set (body := bd) end.
  destruct (for_loop_search body (fun j => match ofile s !!! j with None => true | _ => false end) 0 NOFILE s)
    as [(i & Hi & Hz & Hb & Hf)|[Hall Hf]].
  - intros j _ Hj. unfold body, bind, reads. by destruct (ofile s !!! j).
  - left. exists i. destruct (ofile s !!! i) eqn:E; [done|]. split_and!; [|lia|done|].
    + apply Hf. unfold body, bind, reads. by rewrite E.
    + intros j Hj Hn. specialize (Hb j ltac:(lia)). by rewrite Hn in Hb.
  - right. split; [done|]. intros j Hj Hn. specialize (Hall j ltac:(lia)). by rewrite Hn in Hall.
Qed.

(** ** References

    [o] counts the references to each file that are not descriptors of the running
    process. *)
Definition refs (i : nat) (l : list (option nat)) : Z := Z.of_nat (length (filter (fun x => x = Some i) l)).
Definition one (x : option nat) (i : nat) : Z := if decide (x = Some i) then 1 else 0.
Definition bump (f : nat) (d : Z) (o : nat -> Z) : nat -> Z := fun j => o j + (if decide (j = f) then d else 0).

Record counted (o : nat -> Z) (s : ust) : Prop := MkCounted {
  ct_lock : ft_lock (kern s) = false;
  ct_len : length (files (kern s)) = NFILE;
  ct_fds : length (ofile s) = NOFILE;
  ct_ref i : (i < NFILE)%nat -> f_ref (getf (kern s) i) = o i + refs i (ofile s);
  ct_free i : (i < NFILE)%nat -> f_ref (getf (kern s) i) = 0 -> f_type (getf (kern s) i) = FD_NONE;
  ct_in f : Some f ∈ ofile s -> (f < NFILE)%nat;
  ct_max i : o i < 2 ^ 31 - 32
}.

Lemma refs_app i l1 l2 : refs i (l1 ++ l2) = refs i l1 + refs i l2.
Proof. unfold refs. rewrite filter_app, length_app. lia. Qed.
Lemma refs_cons i x l : refs i (x :: l) = one x i + refs i l.
Proof. unfold refs, one. rewrite filter_cons. case_decide; cbn [length]; lia. Qed.
Lemma refs_insert i l fd x y :
  l !! fd = Some x -> refs i (<[fd := y]> l) = refs i l - one x i + one y i.
Proof.
  intros H. rewrite <- (list_insert_id l fd x H) at 2. pose proof (lookup_lt_Some _ _ _ H) as Hl.
  rewrite !insert_take_drop by done. rewrite !refs_app, !refs_cons. lia.
Qed.
Lemma refs_range i l : 0 <= refs i l <= Z.of_nat (length l).
Proof. unfold refs. pose proof (length_filter (fun x => x = Some i) l). lia. Qed.

Lemma counted_same o s s' : counted o s -> same_fds s s' -> counted o s'.
Proof.
  intros [H1 H2 H3 H4 H5 H6 H7] [[G1 G2] G3].
  assert (Hlen : length (files (kern s')) = length (files (kern s))).
  { by rewrite <- (length_fmap ident), G2, length_fmap. }
  assert (Hid : forall i, (i < NFILE)%nat -> ident (getf (kern s') i) = ident (getf (kern s) i)).
  { intros i Hi. unfold getf. rewrite <- !(list_lookup_total_fmap ident) by lia. by rewrite G2. }
  split; [congruence|congruence|congruence| | |by rewrite G3|done].
  - intros i Hi. destruct (ident_eq _ _ (Hid i Hi)) as [-> _]. rewrite G3. by apply H4.
  - intros i Hi. destruct (ident_eq _ _ (Hid i Hi)) as [-> ->]. by apply H5.
Qed.

(** A change of one entry of the table. *)
Lemma counted_file o o' s s' i g :
  counted o s -> (i < NFILE)%nat -> ft_lock (kern s') = false -> files (kern s') = alter g i (files (kern s)) ->
  ofile s' = ofile s -> (forall j, j <> i -> o' j = o j) -> o' i < 2 ^ 31 - 32 ->
  f_ref (g (getf (kern s) i)) = o' i + refs i (ofile s) ->
  (f_ref (g (getf (kern s) i)) = 0 -> f_type (g (getf (kern s) i)) = FD_NONE) ->
  counted o' s'.
Proof.
  intros [H1 H2 H3 H4 H5 H6 H7] Hi Hl Hf Ho Hoj Hmax Hr Ht.
  assert (Hg : forall j, (j < NFILE)%nat -> getf (kern s') j = if decide (j = i) then g (getf (kern s) i) else getf (kern s) j).
  { intros j Hj. unfold getf. rewrite Hf. case_decide as E.
    - subst. apply list_lookup_total_alter_eq. lia.
    - by apply list_lookup_total_alter_ne. }
  split; [done|by rewrite Hf, length_alter|by rewrite Ho| | |by rewrite Ho|].
  - intros j Hj. rewrite Hg, Ho by done. case_decide as E; [by subst|]. rewrite Hoj by done. by apply H4.
  - intros j Hj. rewrite Hg by done. case_decide; [done|by apply H5].
  - intros j. destruct (decide (j = i)) as [->|]; [done|]. by rewrite Hoj.
Qed.

(** A change of one descriptor. *)
Lemma counted_fd o s fd x y :
  counted o s -> ofile s !! fd = Some x -> (forall f, y = Some f -> (f < NFILE)%nat) ->
  (forall i, o i + one x i - one y i < 2 ^ 31 - 32) ->
  counted (fun i => o i + one x i - one y i) (with_fds (<[fd := y]> (ofile s)) s).
Proof.
  intros [H1 H2 H3 H4 H5 H6 H7] Hx Hy Hm. split; cbn [with_fds kern ofile]; [done|done|by rewrite length_insert| |done| |done].
  - intros i Hi. rewrite (refs_insert _ _ _ _ _ Hx), H4 by done. lia.
  - intros f (j & Hj)%list_elem_of_lookup. pose proof (lookup_lt_Some _ _ _ Hx). destruct (decide (j = fd)) as [->|].
    + rewrite list_lookup_insert_eq in Hj by done. injection Hj as ->. by apply Hy.
    + rewrite list_lookup_insert_ne in Hj by done. apply H6. by eapply list_elem_of_lookup_2.
Qed.

Lemma counted_ext o o' s : (forall i, o i = o' i) -> counted o s -> counted o' s.
Proof. intros He [H1 H2 H3 H4 H5 H6 H7]. split; [done..| |done|done|]; intros; rewrite <- He; auto. Qed.

Lemma lookup_fd o s fd x : counted o s -> (fd < NOFILE)%nat -> ofile s !!! fd = x -> ofile s !! fd = Some x.
Proof. intros Hc Hfd <-. apply list_lookup_lookup_total_lt. by rewrite (ct_fds _ _ Hc). Qed.

Definition small (o : nat -> Z) : Prop := forall i, 0 <= o i < 2 ^ 31 - 40.

Lemma bump_small o f : small o -> forall i, bump f 1 o i < 2 ^ 31 - 32.
Proof. intros Hs i. specialize (Hs i). unfold bump. case_decide; lia. Qed.

(** The reference the caller of [filealloc] gets, and [fdalloc] takes over. *)
Lemma filealloc_counted o (s : ust) :
  counted o s -> small o ->
  (exists i s', K filealloc s = Ret (Some i) s' /\ counted (bump i 1 o) s' /\ (i < NFILE)%nat /\ ofile s' = ofile s /\
     getf (kern s') i = set_ref 1 (getf (kern s) i) /\ f_type (getf (kern s) i) = FD_NONE /\ refs i (ofile s) = 0 /\
     files (kern s') = alter (set_ref 1) i (files (kern s))) \/
  K filealloc s = Ret None s.
Proof.
  intros Hc Hs. destruct (filealloc_spec (kern s) (ct_lock _ _ Hc) (ct_len _ _ Hc)) as [(i & Hf & Hi & Hz)|[Hf _]].
  - left. exists i. eexists. split; [unfold K, zoom; by rewrite Hf|]. cbn [kern files].
    pose proof (ct_ref _ _ Hc i Hi) as Hr. pose proof (refs_range i (ofile s)). specialize (Hs i) as Hsi.
    split_and!; [|done|done|apply list_lookup_total_alter_eq; by rewrite (ct_len _ _ Hc)|by apply (ct_free _ _ Hc)|lia|done].
    apply (counted_file o _ s _ i (set_ref 1)); try done.
    + intros j Hj. unfold bump. case_decide; [done|lia].
    + by apply bump_small.
    + unfold bump. rewrite decide_True by done. cbn [f_ref set_ref]. lia.
  - right. unfold K, zoom. rewrite Hf. by destruct s.
Qed.

Lemma fdalloc_counted o f (s : ust) :
  counted (bump f 1 o) s -> small o -> (f < NFILE)%nat ->
  (exists fd, fdalloc f s = Ret (Some fd) (with_fds (<[fd := Some f]> (ofile s)) s) /\ (fd < NOFILE)%nat /\
     ofile s !!! fd = None /\ (forall j, (j < fd)%nat -> ofile s !!! j <> None) /\
     counted o (with_fds (<[fd := Some f]> (ofile s)) s)) \/
  fdalloc f s = Ret None s.
Proof.
  intros Hc Hs Hf. destruct (fdalloc_spec f s) as [(fd & Ha & Hfd & Hn & Hb)|[Ha _]]; [left|by right].
  exists fd. split_and!; [done..|].
  assert (He : forall i, bump f 1 o i + one None i - one (Some f) i = o i).
  { intros i. unfold bump, one. repeat case_decide; simplify_eq; lia. }
  apply (counted_ext (fun i => bump f 1 o i + one None i - one (Some f) i)); [done|].
  apply counted_fd; [done|by eapply lookup_fd|by intros ? [= <-]|].
  intros i. rewrite He. specialize (Hs i). lia.
Qed.

Lemma fileclose_counted o f (s : ust) s' :
  counted (bump f 1 o) s -> small o -> (f < NFILE)%nat -> K (fileclose begin_op end_op me end_ f) s = Ret tt s' ->
  counted o s' /\ ofile s' = ofile s /\ files (kern s') = alter close_file f (files (kern s)).
Proof.
  intros Hc Hs Hf. unfold K, zoom. destruct (fileclose _ _ _ _ f (kern s)) as [[] k'| |] eqn:E; [|done..]. intros [= <-].
  destruct (fileclose_inv f (kern s) k' E (ct_lock _ _ Hc)) as (Hl & Hr & Hfl). cbn [ofile kern files].
  split_and!; [|done|done].
  pose proof (ct_ref _ _ Hc f Hf) as Hrf. unfold bump in Hrf. rewrite decide_True in Hrf by done.
  pose proof (refs_range f (ofile s)). specialize (Hs f) as Hsf.
  apply (counted_file (bump f 1 o) o s _ f close_file); try done.
  - intros j Hj. unfold bump. case_decide; [done|lia].
  - lia.
  - unfold close_file. destruct (Z.ltb_spec 0 (f_ref (getf (kern s) f) - 1)); cbn [f_ref set_ref set_type]; lia.
  - unfold close_file. destruct (Z.ltb_spec 0 (f_ref (getf (kern s) f) - 1)); cbn [f_ref f_type set_ref set_type]; [lia|done].
Qed.

(** ** Arguments *)
Lemma argint_pure n (s : ust) : exists a, argint n s = Ret a s.
Proof. unfold argint, fetchint, bind, reads, ret. case_match; eauto. Qed.
Lemma argptr_pure n sz (s : ust) : exists a, argptr n sz s = Ret a s.
Proof.
  unfold argptr. destruct (argint_pure n s) as [[i|] Ha]; rewrite (bind_Ret _ _ _ _ _ Ha); [|by eexists].
  unfold bind, reads. case_match; by eexists.
Qed.
Lemma argstr_pure n (s : ust) : exists a, argstr n s = Ret a s.
Proof.
  unfold argstr. destruct (argint_pure n s) as [[i|] Ha]; rewrite (bind_Ret _ _ _ _ _ Ha); [|by eexists].
  unfold fetchstr, bind, reads. repeat case_match; by eexists.
Qed.
Lemma argfd_pure n (s : ust) :
  argfd n s = Ret None s \/
  exists fd f, argfd n s = Ret (Some (fd, f)) s /\ (fd < NOFILE)%nat /\ ofile s !!! fd = Some f.
Proof.
  unfold argfd. destruct (argint_pure n s) as [[i|] Ha]; rewrite (bind_Ret _ _ _ _ _ Ha); [|by left].
  destruct (_ || _) eqn:E; [by left|]. b2p. unfold bind, reads.
  destruct (ofile s !!! Z.to_nat i) as [f|] eqn:Ef; [right|by left]. exists (Z.to_nat i), f. split_and!; [done| |done].
  unfold NOFILE in *. lia.
Qed.

(** ** [sys_dup] and [sys_close] *)
Lemma file_of_fd o (s : ust) fd f :
  counted o s -> (fd < NOFILE)%nat -> ofile s !!! fd = Some f ->
  (f < NFILE)%nat /\ 1 <= refs f (ofile s).
Proof.
  intros Hc Hfd Hf. pose proof (lookup_fd _ _ _ _ Hc Hfd Hf) as Hl. split.
  - apply (ct_in _ _ Hc). by eapply list_elem_of_lookup_2.
  - rewrite <- (list_insert_id _ _ _ Hl). rewrite insert_take_drop by (by eapply lookup_lt_Some).
    rewrite refs_app, refs_cons. unfold one. rewrite decide_True by done.
    pose proof (refs_range f (take fd (ofile s))). pose proof (refs_range f (drop (S fd) (ofile s))). lia.
Qed.

Lemma dup_counted o (s : ust) :
  counted o s -> small o -> exists r s', sys_dup s = Ret r s' /\ counted o s' /\
    (r = -1 /\ s' = s \/
     exists fd0 fd f, r = Z.of_nat fd /\ ofile s !!! fd0 = Some f /\ ofile s !!! fd = None /\
       (forall j, (j < fd)%nat -> ofile s !!! j <> None) /\ ofile s' = <[fd := Some f]> (ofile s)).
Proof.
  intros Hc Hs. unfold sys_dup. destruct (argfd_pure 0 s) as [Ha|(fd0 & f & Ha & Hfd0 & Hf0)]; rewrite (bind_Ret _ _ _ _ _ Ha).
  { exists (-1), s. split_and!; [done|done|by left]. }
  destruct (file_of_fd o s fd0 f Hc Hfd0 Hf0) as [Hf Hr1].
  destruct (fdalloc_spec f s) as [(fd & Hal & Hfd & Hn & Hb)|[Hal _]]; rewrite (bind_Ret _ _ _ _ _ Hal);
    [|exists (-1), s; split_and!; [done|done|by left]].
  set (s1 := with_fds (<[fd := Some f]> (ofile s)) s).
  pose proof (ct_ref _ _ Hc f Hf) as Hrf. specialize (Hs f) as Hsf. pose proof (refs_range f (ofile s)) as Hrr.
  rewrite (ct_fds _ _ Hc) in Hrr. unfold NOFILE in Hrr.
  set (s2 := MkUst (umem s) (usz s) (uesp s) (<[fd := Some f]> (ofile s))
    (MkKst false (alter (set_ref (f_ref (getf (kern s) f) + 1)) f (files (kern s))) (fsys (kern s)) (pipes (kern s)) (km (kern s)))).
  rewrite (bind_Ret _ _ _ f s2).
  2: { unfold K, zoom. cbn [kern s1 with_fds]. rewrite filedup_spec; [done|apply Hc|lia]. }
  exists (Z.of_nat fd), s2. split; [done|]. split; [|right; by exists fd0, fd, f].
  assert (Hc1 : counted (fun i => o i + one None i - one (Some f) i) s1).
  { apply counted_fd; [done|by eapply lookup_fd|by intros ? [= <-]|].
    intros i. specialize (Hs i). unfold one. repeat case_decide; simplify_eq; lia. }
  apply (counted_file _ o s1 s2 f (set_ref (f_ref (getf (kern s) f) + 1)) Hc1); try done.
  - intros j Hj. unfold one. repeat case_decide; simplify_eq; lia.
  - lia.
  - cbn [ofile s1 with_fds f_ref set_ref]. rewrite (refs_insert _ _ _ None) by (by eapply lookup_fd).
    unfold one. repeat case_decide; simplify_eq; lia.
  - cbn [f_ref set_ref kern s1 with_fds]. lia.
Qed.

Lemma close_counted o (s : ust) r s' :
  counted o s -> small o -> sys_close begin_op end_op me end_ s = Ret r s' ->
  counted o s' /\ (r = -1 /\ s' = s \/ r = 0 /\ exists fd, is_Some (ofile s !!! fd) /\ ofile s' = <[fd := None]> (ofile s)).
Proof.
  intros Hc Hs. unfold sys_close. destruct (argfd_pure 0 s) as [Ha|(fd & f & Ha & Hfd & Hf)]; rewrite (bind_Ret _ _ _ _ _ Ha).
  { intros [= <- <-]. split; [done|by left]. }
  destruct (file_of_fd o s fd f Hc Hfd Hf) as [Hfl _].
  set (s1 := with_fds (<[fd := None]> (ofile s)) s). rewrite (bind_Ret _ _ _ tt s1) by done.
  intros ([] & s2 & Hcl & [= <- <-])%bind_inv.
  assert (Hc1 : counted (bump f 1 o) s1).
  { apply (counted_ext (fun i => o i + one (Some f) i - one None i)).
    - intros i. unfold bump, one. repeat case_decide; simplify_eq; lia.
    - apply counted_fd; [done|by eapply lookup_fd|done|].
      intros i. specialize (Hs i). unfold one. repeat case_decide; simplify_eq; lia. }
  destruct (fileclose_counted o f s1 s2 Hc1 Hs Hfl Hcl) as (Hc2 & Ho & _). split; [done|]. right. split; [done|].
  exists fd. rewrite Hf, Ho. by split.
Qed.

(** ** [sys_open] *)
Lemma put_fail ip (s : ust) r s' :
  (F (Fs.iunlockput me ip) ;;; op_end end_op ;;; ret (-1)) s = Ret r s' -> r = -1 /\ same_fds s s'.
Proof.
  intros (? & s1 & H1 & (? & s2 & H2 & [= <- <-])%bind_inv)%bind_inv. split; [done|].
  apply keeps_F in H1. apply keeps_end in H2. by etrans.
Qed.

Definition mode_r (omode : Z) : Z := if Z.land omode O_WRONLY =? 0 then 1 else 0.
Definition mode_w (omode : Z) : Z :=
  if negb (Z.land omode O_WRONLY =? 0) || negb (Z.land omode O_RDWR =? 0) then 1 else 0.

(** Nothing, or a new file at the lowest free descriptor. *)
Definition opened (omode : Z) (s : ust) (r : Z) (s' : ust) : Prop :=
  r = -1 /\ same_fds s s' \/
  exists f fd ip p, r = Z.of_nat fd /\ (fd < NOFILE)%nat /\ ofile s !!! fd = None /\
    (forall j, (j < fd)%nat -> ofile s !!! j <> None) /\ ofile s' = <[fd := Some f]> (ofile s) /\
    (f < NFILE)%nat /\ f_ref (getf (kern s) f) = 0 /\
    getf (kern s') f = MkFile FD_INODE 1 (mode_r omode) (mode_w omode) p ip 0 /\
    forall g, (g < NFILE)%nat -> g <> f -> ident (getf (kern s') g) = ident (getf (kern s) g).

Lemma same_fds_file o (s s' : ust) g :
  counted o s -> same_fds s s' -> (g < NFILE)%nat -> ident (getf (kern s') g) = ident (getf (kern s) g).
Proof.
  intros Hc [[_ G2] _] Hg. unfold getf. assert (length (files (kern s')) = length (files (kern s))).
  { by rewrite <- (length_fmap ident), G2, length_fmap. }
  rewrite <- !(list_lookup_total_fmap ident) by (rewrite ?H, (ct_len _ _ Hc); done). by rewrite G2.
Qed.

(** Opening and closing an entry leaves it as it was. *)
Lemma close_open o (s s1 s2 : ust) f :
  counted o s -> (f < NFILE)%nat -> f_type (getf (kern s) f) = FD_NONE -> f_ref (getf (kern s) f) = 0 ->
  files (kern s1) = alter (set_ref 1) f (files (kern s)) -> ofile s1 = ofile s ->
  files (kern s2) = alter close_file f (files (kern s1)) -> ofile s2 = ofile s1 -> ft_lock (kern s2) = false ->
  same_fds s s2.
Proof.
  intros Hc Hf Ht Hr H1 H2 H3 H4 H5. split; [split; [by rewrite H5, (ct_lock _ _ Hc)|]|by rewrite H4].
  rewrite H3, H1, alter_twice. f_equal. apply list_eq. intros j.
  destruct (decide (j = f)) as [->|]; [|by rewrite list_lookup_alter_ne].
  rewrite list_lookup_alter_eq. destruct (files (kern s) !! f) as [x|] eqn:E; [|done]. cbn. f_equal.
  unfold getf in Ht, Hr. rewrite (list_lookup_total_correct _ _ _ E) in Ht, Hr. destruct x. cbn in *. by subst.
Qed.

Lemma open_file_counted o ip omode (s : ust) r s' :
  counted o s -> small o -> sys_open_file begin_op end_op me end_ ip omode s = Ret r s' ->
  counted o s' /\ opened omode s r s'.
Proof.
  intros Hc Hs. unfold sys_open_file.
  destruct (filealloc_counted o s Hc Hs) as [(f & s1 & Ha & Hc1 & Hf & Ho1 & Hg1 & Ht & Hrf & Hfl1)|Ha]; rewrite (bind_Ret _ _ _ _ _ Ha).
  2: { intros [-> Hsf]%put_fail. split; [by eapply counted_same|by left]. }
  assert (Hz : f_ref (getf (kern s) f) = 0).
  { pose proof (ct_ref _ _ Hc1 f Hf) as Hr. rewrite Hg1, Ho1, Hrf in Hr. unfold bump in Hr. rewrite decide_True in Hr by done.
    cbn in Hr. rewrite (ct_ref _ _ Hc f Hf), Hrf. lia. }
  destruct (fdalloc_counted o f s1 Hc1 Hs Hf) as [(fd & Hd & Hfd & Hn & Hb & Hc2)|Hd]; rewrite (bind_Ret _ _ _ _ _ Hd).
  - rewrite Ho1 in *. set (s2 := with_fds (<[fd := Some f]> (ofile s)) s1) in *.
    intros (? & s3 & H3%keeps_F & (? & s4 & H4%keeps_end & H5)%bind_inv)%bind_inv.
    assert (H24 : same_fds s2 s4) by (by etrans). pose proof (counted_same _ _ _ Hc2 H24) as Hc4.
    rewrite (bind_Ret _ _ _ tt (MkUst (umem s4) (usz s4) (uesp s4) (ofile s4) (MkKst (ft_lock (kern s4))
      (alter (set_inode (mode_r omode) (mode_w omode) ip) f (files (kern s4))) (fsys (kern s4)) (pipes (kern s4)) (km (kern s4))))) in H5 by done.
    injection H5 as <- <-.
    pose proof (same_fds_file _ _ _ f Hc2 H24 Hf) as Hid. cbn [s2 with_fds kern] in Hid. rewrite Hg1 in Hid.
    assert (Hrf4 : f_ref (getf (kern s4) f) = 1) by (destruct (ident_eq _ _ Hid) as [-> _]; done).
    assert (Hlen4 : (f < length (files (kern s4)))%nat) by (by rewrite (ct_len _ _ Hc4)).
    split.
    + apply (counted_file o o s4 _ f (set_inode (mode_r omode) (mode_w omode) ip) Hc4); try done.
      * apply Hc4.
      * apply Hc4.
      * cbn [set_inode f_ref]. rewrite <- (ct_ref _ _ Hc4) by done. done.
      * cbn [set_inode f_ref]. lia.
    + right. exists f, fd, ip, (f_pipe (getf (kern s4) f)). split_and!; try done.
      * destruct H24 as [_ ->]. done.
      * unfold getf at 1. cbn [kern files]. rewrite list_lookup_total_alter_eq by done.
        fold (getf (kern s4) f). unfold set_inode. by rewrite Hrf4.
      * intros g Hg Hne. unfold getf at 1. cbn [kern files]. rewrite list_lookup_total_alter_ne by done.
        fold (getf (kern s4) g). rewrite (same_fds_file _ _ _ g Hc2 H24 Hg). cbn [s2 with_fds kern].
        unfold getf. rewrite Hfl1. by rewrite list_lookup_total_alter_ne.
  - intros ([] & s2 & H2 & [-> Hsf]%put_fail)%bind_inv.
    destruct (fileclose_counted o f s1 s2 Hc1 Hs Hf H2) as (Hc2 & Ho2 & Hfl2).
    split; [by eapply counted_same|]. left. split; [done|]. etrans; [|done].
    eapply (close_open o s s1 s2 f); try done. apply Hc2.
Qed.

Lemma open_counted o (s : ust) r s' :
  counted o s -> small o -> sys_open begin_op end_op me devsw end_ s = Ret r s' ->
  counted o s' /\ (r = -1 /\ same_fds s s' \/
    exists omode s1, argint 1 s = Ret (Some omode) s /\ same_fds s s1 /\ opened omode s1 r s').
Proof.
  intros Hc Hs. unfold sys_open.
  destruct (argstr_pure 0 s) as [[path|] Ha]; rewrite (bind_Ret _ _ _ _ _ Ha); [|by intros [= <- <-]; split; [|left]].
  destruct (argint_pure 1 s) as [[omode|] Hi]; rewrite (bind_Ret _ _ _ _ _ Hi); [|by intros [= <- <-]; split; [|left]].
  intros ([] & s1 & H1%keeps_begin & H)%bind_inv.
  assert (Hfin : forall ip s2, same_fds s s2 -> sys_open_file begin_op end_op me end_ ip omode s2 = Ret r s' ->
    counted o s' /\ (r = -1 /\ same_fds s s' \/ exists omode s1, argint 1 s = Ret (Some omode) s /\ same_fds s s1 /\ opened omode s1 r s')).
  { intros ip s2 H2 Hop. destruct (open_file_counted o ip omode s2 r s' (counted_same _ _ _ Hc H2) Hs Hop) as [Hc' Hop'].
    split; [done|]. right. by exists omode, s2. }
  assert (Hfail : forall s2 s3, same_fds s s2 -> same_fds s2 s3 -> r = -1 -> s' = s3 ->
    counted o s' /\ (r = -1 /\ same_fds s s' \/ exists omode s1, argint 1 s = Ret (Some omode) s /\ same_fds s s1 /\ opened omode s1 r s')).
  { intros s2 s3 H2 H3 -> ->. assert (same_fds s s3) by (by etrans). split; [by eapply counted_same|by left]. }
  destruct (negb _).
  - apply bind_inv in H as ([ip|] & s2 & H2%keeps_create & H); [eapply (Hfin ip s2); [by etrans|done]|].
    apply bind_inv in H as ([] & s3 & H3%keeps_end & [= <- <-]). eapply (Hfail s2 s3); [by etrans|done..].
  - apply bind_inv in H as ([ip|] & s2 & H2%keeps_F & H).
    2: { apply bind_inv in H as ([] & s3 & H3%keeps_end & [= <- <-]). eapply (Hfail s2 s3); [by etrans|done..]. }
    apply bind_inv in H as ([] & s3 & H3%keeps_F & H). apply bind_inv in H as (x & s3' & [= <- <-] & H).
    assert (H03 : same_fds s s3) by (do 2 (etrans; [done|]); done).
    destruct (_ && _); [|by eapply Hfin]. apply put_fail in H as [-> H4]. by eapply Hfail.
Qed.

(** ** [sys_pipe] *)
Lemma K_bind {A B} (m : M kst A) (k : A -> M kst B) (s : ust) : K (bind m k) s = bind (K m) (fun a => K (k a)) s.
Proof. unfold K, bind, zoom. by destruct (m (kern s)). Qed.
Lemma K_ret {A} (a : A) (s : ust) : K (ret a) s = Ret a s.
Proof. by destruct s. Qed.

Lemma bump_swap f g o i : bump f 1 (bump g 1 o) i = bump g 1 (bump f 1 o) i.
Proof. unfold bump. repeat case_decide; lia. Qed.

(** The files of a new pipe: two entries that were free. *)
Definition pipe_ends (s : ust) (i0 i1 : nat) : Prop :=
  f_type (getf (kern s) i0) = FD_PIPE /\ f_readable (getf (kern s) i0) = 1 /\ f_writable (getf (kern s) i0) = 0 /\
  f_type (getf (kern s) i1) = FD_PIPE /\ f_readable (getf (kern s) i1) = 0 /\ f_writable (getf (kern s) i1) = 1 /\
  f_pipe (getf (kern s) i0) = f_pipe (getf (kern s) i1).

Lemma close_counted2 o i0 i1 (s : ust) r s' :
  counted (bump i1 1 (bump i0 1 o)) s -> (forall i, 0 <= o i < 2 ^ 31 - 64) -> (i0 < NFILE)%nat -> (i1 < NFILE)%nat ->
  (K (fileclose begin_op end_op me end_ i0) ;;; K (fileclose begin_op end_op me end_ i1) ;;; ret (-1)) s = Ret r s' ->
  r = -1 /\ counted o s' /\ ofile s' = ofile s.
Proof.
  intros Hc Ho Hi0 Hi1 ([] & s1 & H1 & ([] & s2 & H2 & [= <- <-])%bind_inv)%bind_inv.
  assert (Hs : small o) by (intros i; specialize (Ho i); lia).
  assert (Hs1 : small (bump i1 1 o)) by (intros i; specialize (Ho i); unfold bump; case_decide; lia).
  destruct (fileclose_counted (bump i1 1 o) i0 s s1) as (Hc1 & Ho1 & _); [|done..|].
  { eapply counted_ext; [|done]. intros i. apply bump_swap. }
  destruct (fileclose_counted o i1 s1 s2 Hc1 Hs Hi1 H2) as (Hc2 & Ho2 & _).
  split_and!; [done|done|by rewrite Ho2].
Qed.

Definition close_opt (f : option nat) : M ust unit :=
  match f with Some i => K (fileclose begin_op end_op me end_ i) | None => ret tt end.
Lemma bad_eq f0 f1 (s : ust) :
  K (pipealloc_bad begin_op end_op me end_ 0 f0 f1) s = (close_opt f0 ;;; close_opt f1 ;;; ret None) s.
Proof.
  unfold pipealloc_bad, close_opt. cbn [Z.eqb negb when]. rewrite K_bind, (bind_Ret _ _ _ tt s) by apply K_ret.
  rewrite K_bind. destruct f0; destruct f1; unfold bind, K, zoom, ret; cbn [kern umem usz uesp ofile];
    repeat case_match; simplify_eq; try done; by destruct s.
Qed.

Lemma pipealloc_counted o (s : ust) r s' :
  counted o s -> (forall i, 0 <= o i < 2 ^ 31 - 64) -> K (pipealloc begin_op end_op me end_) s = Ret r s' ->
  ofile s' = ofile s /\
  match r with
  | None => counted o s'
  | Some (i0, i1) => counted (bump i1 1 (bump i0 1 o)) s' /\ (i0 < NFILE)%nat /\ (i1 < NFILE)%nat /\ i0 <> i1 /\ pipe_ends s' i0 i1
  end.
Proof.
  intros Hc Ho. assert (Hs : small o) by (intros i; specialize (Ho i); lia).
  unfold pipealloc. rewrite K_bind.
  destruct (filealloc_counted o s Hc Hs) as [(i0 & s1 & Ha & Hc1 & Hi0 & Ho1 & Hg0 & _)|Ha]; rewrite (bind_Ret _ _ _ _ _ Ha).
  2: { rewrite bad_eq. by intros [= <- <-]. }
  assert (Hs1 : small (bump i0 1 o)) by (intros i; specialize (Ho i); unfold bump; case_decide; lia).
  rewrite K_bind.
  destruct (filealloc_counted _ s1 Hc1 Hs1) as [(i1 & s2 & Ha2 & Hc2 & Hi1 & Ho2 & Hg1 & _ & Hr1 & Hfl2)|Ha2]; rewrite (bind_Ret _ _ _ _ _ Ha2).
  2: { rewrite bad_eq. cbn [close_opt]. intros ([] & s2 & H2 & [= <- <-])%bind_inv.
       destruct (fileclose_counted o i0 s1 s2 Hc1 Hs Hi0 H2) as (? & ? & _). split; [congruence|done]. }
  assert (Hne : i0 <> i1).
  { intros ->. pose proof (ct_ref _ _ Hc1 i1 Hi1) as Hr. rewrite Hg0 in Hr. cbn in Hr.
    pose proof (ct_ref _ _ Hc2 i1 Hi1) as Hr2. rewrite Hg1, Ho2, Ho1 in Hr2. cbn in Hr2. rewrite Ho1 in Hr.
    unfold bump in Hr, Hr2. rewrite !decide_True in Hr2 by done. rewrite decide_True in Hr by done. lia. }
  rewrite K_bind. intros (p & s3 & H3 & H)%bind_inv.
  apply (keeps_K _ (keeps_files_idents _ (keeps_on_km _))) in H3. pose proof (counted_same _ _ _ Hc2 H3) as Hc3.
  assert (Ho3 : ofile s3 = ofile s) by (destruct H3 as [_ ->]; congruence).
  destruct (Z.eqb_spec p 0) as [->|Hp].
  - rewrite bad_eq in H. cbn [close_opt] in H.
    assert ((K (fileclose begin_op end_op me end_ i0) ;;; K (fileclose begin_op end_op me end_ i1) ;;; ret (-1)) s3 = Ret (-1) s' /\ r = None) as [Hm ->].
    { apply bind_inv in H as ([] & s4 & H4 & ([] & s5 & H5 & [= <- <-])%bind_inv).
      by rewrite (bind_Ret _ _ _ _ _ H4), (bind_Ret _ _ _ _ _ H5). }
    destruct (close_counted2 o i0 i1 s3 _ _ Hc3 Ho Hi0 Hi1 Hm) as (_ & ? & ?). split; [congruence|done].
  - set (o2 := bump i1 1 (bump i0 1 o)) in *.
    set (kf := fun fl pi => MkUst (umem s3) (usz s3) (uesp s3) (ofile s3) (MkKst (ft_lock (kern s3)) fl (fsys (kern s3)) pi (km (kern s3)))).
    assert (exists pi, r = Some (i0, i1) /\ s' = kf (alter (set_pipe 0 1 p) i1 (alter (set_pipe 1 0 p) i0 (files (kern s3)))) pi)
      as (pi & -> & ->).
    { rewrite K_bind in H. rewrite (bind_Ret _ _ _ (bytes_at (ram (km (kern s3))) (p + pipe_data) (Z.to_nat Pipe.PIPESIZE)) s3) in H by (by destruct s3).
      set (junk := bytes_at _ _ _) in H. clearbody junk.
      unfold K, zoom, bind, on_pipe, updf, modify, ret, zoom in H. cbn [kern umem usz uesp ofile files ft_lock fsys pipes km] in H.
      injection H as <- <-. by eexists. }
    assert (Hr0 : f_ref (getf (kern s3) i0) <> 0 /\ f_ref (getf (kern s3) i1) <> 0).
    { rewrite !(ct_ref _ _ Hc3) by done. pose proof (refs_range i0 (ofile s3)). pose proof (refs_range i1 (ofile s3)).
      pose proof (Ho i0). pose proof (Ho i1). unfold o2, bump. repeat case_decide; lia. }
    assert (Hlen : forall i, (i < NFILE)%nat -> (i < length (files (kern s3)))%nat) by (by rewrite (ct_len _ _ Hc3)).
    assert (Hc4 : counted o2 (kf (alter (set_pipe 1 0 p) i0 (files (kern s3))) pi)).
    { apply (counted_file o2 o2 s3 _ i0 (set_pipe 1 0 p) Hc3); try done; [apply Hc3|apply Hc3| |]; cbn [f_ref set_pipe].
      - by apply (ct_ref _ _ Hc3).
      - lia. }
    assert (Hg1' : getf (kern (kf (alter (set_pipe 1 0 p) i0 (files (kern s3))) pi)) i1 = getf (kern s3) i1).
    { unfold getf, kf. cbn [kern files]. by apply list_lookup_total_alter_ne. }
    split; [done|]. split_and!; try done.
    + apply (counted_file o2 o2 _ _ i1 (set_pipe 0 1 p) Hc4); try done; [apply Hc3|apply Hc3| |]; cbn [f_ref set_pipe]; rewrite Hg1'.
      * by apply (ct_ref _ _ Hc3).
      * lia.
    + unfold pipe_ends, getf, kf. cbn [kern files].
      rewrite !(list_lookup_total_alter_ne _ _ i1) by done. rewrite !list_lookup_total_alter_eq; rewrite ?length_alter; auto.
      done.
Qed.

Lemma pipe_counted o (s : ust) r s' :
  counted o s -> (forall i, 0 <= o i < 2 ^ 31 - 64) -> sys_pipe begin_op end_op me end_ s = Ret r s' ->
  counted o s' /\
  (r = -1 /\ ofile s' = ofile s \/
   r = 0 /\ exists fd fd0 fd1 i0 i1, argptr 0 8 s = Ret (Some fd) s /\ i0 <> i1 /\ pipe_ends s' i0 i1 /\
     ofile s !!! fd0 = None /\ (forall j, (j < fd0)%nat -> ofile s !!! j <> None) /\
     <[fd0 := Some i0]> (ofile s) !!! fd1 = None /\ (forall j, (j < fd1)%nat -> <[fd0 := Some i0]> (ofile s) !!! j <> None) /\
     ofile s' = <[fd1 := Some i1]> (<[fd0 := Some i0]> (ofile s)) /\
     load32 (umem s') fd = Z.of_nat fd0 /\ load32 (umem s') (fd + 4) = Z.of_nat fd1).
Proof.
  intros Hc Ho. assert (Hs : small o) by (intros i; specialize (Ho i); lia). unfold sys_pipe.
  destruct (argptr_pure 0 8 s) as [[fd|] Ha]; rewrite (bind_Ret _ _ _ _ _ Ha); [|by intros [= <- <-]; split; [|left]].
  intros ([[i0 i1]|] & s1 & H1 & H)%bind_inv; destruct (pipealloc_counted o s _ _ Hc Ho H1) as [Ho1 Hc1].
  2: { injection H as <- <-. split; [done|]. left. by split. }
  destruct Hc1 as (Hc1 & Hi0 & Hi1 & Hne & Hpe).
  assert (Hs1 : small (bump i1 1 o)) by (intros i; specialize (Ho i); unfold bump; case_decide; lia).
  assert (Hc1' : counted (bump i0 1 (bump i1 1 o)) s1) by (eapply counted_ext; [|done]; intros; apply bump_swap).
  destruct (fdalloc_counted (bump i1 1 o) i0 s1 Hc1' Hs1 Hi0) as [(fd0 & Hd & Hfd0 & Hn0 & Hb0 & Hc2)|Hd]; rewrite (bind_Ret _ _ _ _ _ Hd) in H.
  2: { destruct (close_counted2 o i0 i1 s1 _ _ Hc1 Ho Hi0 Hi1 H) as (-> & ? & ?). split; [done|]. left. split; congruence. }
  set (s2 := with_fds (<[fd0 := Some i0]> (ofile s1)) s1) in *.
  destruct (fdalloc_counted o i1 s2 Hc2 Hs Hi1) as [(fd1 & Hd1 & Hfd1 & Hn1 & Hb1 & Hc3)|Hd1]; rewrite (bind_Ret _ _ _ _ _ Hd1) in H.
  - set (s3 := with_fds (<[fd1 := Some i1]> (ofile s2)) s2) in *.
    set (s4 := MkUst (store32 (umem s3) fd (Z.of_nat fd0)) (usz s3) (uesp s3) (ofile s3) (kern s3)).
    rewrite (bind_Ret _ _ _ tt s4) in H by done.
    injection H as <- <-. split; [eapply counted_same; [exact Hc3|done]|]. right. split; [done|].
    exists fd, fd0, fd1, i0, i1. cbn [s2 s3 s4 with_fds ofile kern umem] in *. rewrite Ho1 in *. split_and!; try done.
    + rewrite (Pages.load32_ext (store32 (umem s1) fd (Z.of_nat fd0))).
      * apply Pages.load32_store32. unfold NOFILE in *. lia.
      * intros x Hx. apply Pages.store32_out. lia.
    + apply Pages.load32_store32. unfold NOFILE in *. lia.
  - set (s3 := with_fds (<[fd0 := None]> (ofile s2)) s2).
    rewrite (bind_Ret _ _ _ tt s3) in H by done.
    assert (Hof : ofile s3 = ofile s1).
    { cbn [s3 s2 with_fds ofile]. rewrite list_insert_insert_eq. apply list_insert_id.
      apply (lookup_fd _ _ _ _ Hc1 Hfd0 Hn0). }
    assert (Hc3 : counted (bump i1 1 (bump i0 1 o)) s3).
    { eapply counted_same; [exact Hc1|]. split; [done|]. by rewrite Hof. }
    destruct (close_counted2 o i0 i1 s3 _ _ Hc3 Ho Hi0 Hi1 H) as (-> & ? & ?). split; [done|]. left. split; [done|]. congruence.
Qed.
End calls.
End FileSpec.
