(* ===== verification/FileProps.v ===== *)
(** The system calls on files, as theorems, and a small system to apply them to. *)

From S2P Require Import Prelude Params Bytes CString Sleeplock Kalloc Pipe Fs FsSpec FsFile FsProps File Sysfile FileSpec.

Module FileProps.
Import KString Kalloc File Sysfile FileSpec.

Section props.
Context {W : Type} `{!Blocks W}.
Local Notation ust := (@Sysfile.ust W).
Variables (begin_op end_op : M W unit).
Variable me : Z.
Variable killed : bool.
Variable devsw : Z -> @Fs.devfun W.
Variable end_ : Z.

(** The system calls of [sysfile.c] but [exec], which ends in another component. *)
Inductive call := Dup | Read | Write | Close | Fstat | Link | Unlink | Open | Mkdir | Mknod | Chdir | Pipe_.
Definition drop_result {A} (m : M ust A) : M ust unit := m ;;; ret tt.
Definition run (c : call) : M ust unit :=
  match c with
  | Dup => drop_result sys_dup
  | Read => drop_result (sys_read me killed devsw)
  | Write => drop_result (sys_write begin_op end_op me killed devsw)
  | Close => drop_result (sys_close begin_op end_op me end_)
  | Fstat => drop_result (sys_fstat me)
  | Link => drop_result (sys_link begin_op end_op me devsw)
  | Unlink => drop_result (sys_unlink begin_op end_op me devsw)
  | Open => drop_result (sys_open begin_op end_op me devsw end_)
  | Mkdir => drop_result (sys_mkdir begin_op end_op me devsw)
  | Mknod => drop_result (sys_mknod begin_op end_op me devsw)
  | Chdir => drop_result (sys_chdir begin_op end_op me devsw)
  | Pipe_ => drop_result (sys_pipe begin_op end_op me end_)
  end.

(** References from elsewhere: so many that a count cannot overflow. *)
Definition few (o : nat -> Z) : Prop := forall i, 0 <= o i < 2 ^ 31 - 64.

(** C18: Every system call on files keeps the file table right: the reference count of each
    file is the number of descriptors that refer to it, those of the process and those
    elsewhere, every descriptor refers to an entry of the table, the table's lock is free,
    and an entry without references has type [FD_NONE], so that closing a file that was
    never filled in frees neither a pipe nor an inode. *)
Theorem descriptors_counted c o (s s' : ust) :
  counted o s -> few o -> run c s = Ret tt s' -> counted o s'.
Proof.
  intros Hc Ho. assert (Hs : small o) by (intros i; specialize (Ho i); lia).
  destruct c; cbn [run]; intros (r & s1 & H1 & [= <-])%bind_inv.
  - destruct (dup_counted o s Hc Hs) as (r2 & s2 & H2 & Hc2 & _). rewrite H1 in H2. by injection H2 as -> ->.
  - eapply counted_same; [done|by eapply keeps_read].
  - eapply counted_same; [done|by eapply keeps_write].
  - by destruct (close_counted _ _ _ _ o s r s1 Hc Hs H1).
  - eapply counted_same; [done|by eapply keeps_fstat].
  - eapply counted_same; [done|by eapply keeps_link].
  - eapply counted_same; [done|by eapply keeps_unlink].
  - by destruct (open_counted _ _ _ _ _ o s r s1 Hc Hs H1).
  - eapply counted_same; [done|by eapply keeps_mkdir].
  - eapply counted_same; [done|by eapply keeps_mknod].
  - eapply counted_same; [done|by eapply keeps_chdir].
  - by destruct (pipe_counted _ _ _ _ o s r s1 Hc Ho H1).
Qed.

(** [sys_open] returns -1 with table and descriptors unchanged, or the lowest free
    descriptor, which then refers to an entry that was free and now is an inode's, with one
    reference, offset 0, readable unless [O_WRONLY] and writable with [O_WRONLY] or
    [O_RDWR]; nothing else in the table changes. *)
Theorem sys_open_result o (s s' : ust) r :
  counted o s -> few o -> sys_open begin_op end_op me devsw end_ s = Ret r s' ->
  r = -1 /\ same_fds s s' \/
  exists omode f fd ip p, argint 1 s = Ret (Some omode) s /\ r = Z.of_nat fd /\ (fd < NOFILE)%nat /\
    ofile s !!! fd = None /\ (forall j, (j < fd)%nat -> ofile s !!! j <> None) /\
    ofile s' = <[fd := Some f]> (ofile s) /\ (f < NFILE)%nat /\ f_ref (getf (kern s) f) = 0 /\
    getf (kern s') f = MkFile FD_INODE 1 (mode_r omode) (mode_w omode) p ip 0 /\
    forall g, (g < NFILE)%nat -> g <> f -> ident (getf (kern s') g) = ident (getf (kern s) g).
Proof.
  intros Hc Ho H. assert (Hs : small o) by (intros i; specialize (Ho i); lia).
  destruct (open_counted _ _ _ _ _ o s r s' Hc Hs H) as [_ [Hf|(omode & s1 & Ha & H1 & Hop)]]; [by left|].
  destruct Hop as [[-> Hsf]|(f & fd & ip & p & -> & Hfd & Hn & Hb & Hof & Hf & Hr & Hg & Hot)]; [left; split; [done|by etrans]|].
  right. exists omode, f, fd, ip, p. pose proof (proj2 H1) as Ho1. rewrite Ho1 in *.
  pose proof (same_fds_file o s s1 f Hc H1 Hf) as Hid. apply ident_eq in Hid as [Hid _].
  split_and!; try done; [congruence|]. intros g Hgf Hne. rewrite Hot by done. by apply (same_fds_file o).
Qed.

(** [sys_pipe] returns -1 with the descriptors unchanged, or 0 with the two lowest free
    descriptors stored in the caller's array; they refer to two new files, the ends of one
    pipe, the first for reading and the second for writing. *)
Theorem sys_pipe_result o (s s' : ust) r :
  counted o s -> few o -> sys_pipe begin_op end_op me end_ s = Ret r s' ->
  r = -1 /\ ofile s' = ofile s \/
  r = 0 /\ exists fd fd0 fd1 i0 i1, argptr 0 8 s = Ret (Some fd) s /\ i0 <> i1 /\ pipe_ends s' i0 i1 /\
    ofile s !!! fd0 = None /\ (forall j, (j < fd0)%nat -> ofile s !!! j <> None) /\
    <[fd0 := Some i0]> (ofile s) !!! fd1 = None /\ (forall j, (j < fd1)%nat -> <[fd0 := Some i0]> (ofile s) !!! j <> None) /\
    ofile s' = <[fd1 := Some i1]> (<[fd0 := Some i0]> (ofile s)) /\
    load32 (umem s') fd = Z.of_nat fd0 /\ load32 (umem s') (fd + 4) = Z.of_nat fd1.
Proof. intros Hc Ho H. by destruct (pipe_counted _ _ _ _ o s r s' Hc Ho H). Qed.
End props.

Section args.
Context {W : Type}.
Local Notation ust := (@Sysfile.ust W).

Lemma str_scan_spec m n : forall s l, str_scan m s n = Some l ->
  0 <= l < Z.of_nat n /\ m (s + l) = 0 /\ forall j, 0 <= j < l -> m (s + j) <> 0.
Proof.
  induction n as [|n IH]; intros s l; cbn [str_scan]; [done|]. destruct (Z.eqb_spec (m s) 0) as [Hz|Hz].
  - intros [= <-]. rewrite Z.add_0_r. split_and!; [lia..|done|lia].
  - destruct (str_scan m (s + 1) n) as [l'|] eqn:E; [|done]. intros [= <-]. destruct (IH _ _ E) as (Hr & H0 & Hj).
    split_and!; [lia..|by replace (s + (l' + 1)) with (s + 1 + l') by lia|].
    intros j Hjr. destruct (decide (j = 0)) as [->|]; [by rewrite Z.add_0_r|].
    replace (s + j) with (s + 1 + (j - 1)) by lia. apply Hj. lia.
Qed.
Lemma length_bytes_at m a n : length (bytes_at m a n) = n.
Proof. revert a. induction n as [|n IH]; intros a; cbn; [done|]. by rewrite IH. Qed.

(** C19: The kernel reads and writes only memory of the process for a system call's
    arguments: an integer argument is a word below [sz]; a buffer that [argptr] accepts lies
    wholly below [sz], whatever its address and size, because the sum cannot wrap around; a
    string that [argstr] accepts has its terminator below [sz], and is the bytes up to the
    first zero. *)
Theorem args_checked (s : ust) n size :
  0 <= usz s <= KERNBASE -> 0 <= uesp s < 2 ^ 32 -> -2 ^ 31 <= size < 2 ^ 31 ->
  (forall v s', argint n s = Ret (Some v) s' ->
     let a := u32 (uesp s + 4 + 4 * n) in s' = s /\ 0 <= a /\ a + 4 <= usz s /\ v = i32 (load32 (umem s) a)) /\
  (forall p s', argptr n size s = Ret (Some p) s' -> s' = s /\ 0 <= size /\ 0 <= p < usz s /\ p + size <= usz s) /\
  (forall str s', argstr n s = Ret (Some str) s' -> s' = s /\
     exists p, 0 <= p /\ p + Z.of_nat (length str) < usz s /\ umem s (p + Z.of_nat (length str)) = 0 /\
       str = bytes_at (umem s) p (length str) /\ forall j, 0 <= j < Z.of_nat (length str) -> umem s (p + j) <> 0).
Proof.
  intros Hsz Hesp Hsize. set (a := u32 (uesp s + 4 + 4 * n)). pose proof (u32_range (uesp s + 4 + 4 * n)) as Har. fold a in Har.
  assert (Hint : forall v s', argint n s = Ret (Some v) s' -> s' = s /\ 0 <= a /\ a + 4 <= usz s /\ v = i32 (load32 (umem s) a)).
  { intros v s'. unfold argint, fetchint, bind, reads, ret. fold a. destruct (_ || _) eqn:E; [done|]. b2p. intros [= <- <-].
    cbn [id] in *. split_and!; [done|lia| |done]. rewrite u32_id in * by (unfold KERNBASE in *; lia). lia. }
  split_and!; [exact Hint| |].
  - intros p s'. unfold argptr. intros ([v|] & s1 & Hv & H)%bind_inv; [|done]. apply Hint in Hv as (-> & _).
    unfold bind, reads, ret in H. destruct (_ || _ || _) eqn:E; [done|]. b2p. injection H as <- <-. cbn [id] in *.
    pose proof (u32_range v). rewrite (u32_id (u32 v + size)) in * by (unfold KERNBASE in *; lia). split_and!; (done || lia).
  - intros str s'. unfold argstr. intros ([v|] & s1 & Hv & H)%bind_inv; [|done]. apply Hint in Hv as (-> & _).
    unfold fetchstr, bind, reads, ret in H. destruct (Z.leb_spec (usz (id s)) (u32 v)) as [|Hlt]; [done|]. cbn [id] in *.
    destruct (str_scan _ _ _) as [l|] eqn:E; [|done]. injection H as <- <-. apply str_scan_spec in E as (Hr & H0 & Hj).
    pose proof (u32_range v). split; [done|]. exists (u32 v). rewrite length_bytes_at, Z2Nat.id by lia. split_and!; try done; lia.
Qed.
End args.

(** ** A small system *)
Import RamDisk.

(** Ten blocks with an empty root directory, and a process whose system call has the
    arguments ["/"] (or 0) and 0. *)
Definition root_ino : Fs.inode := Fs.MkInode 1 1 1 SleepLock.initsleeplock 1 T_DIR 0 0 1 0 (replicate 13 0).
Definition root_disk : list (list Z) :=
  [FsProps.zero_block; FsProps.zero_block; Fs.put_dinode FsProps.zero_block 1 (Fs.dinode_of root_ino); <[0%nat := 15]> FsProps.zero_block]
  ++ replicate 6 FsProps.zero_block.
Definition fs1 : @Fs.fs (list (list Z)) := Fs.MkFs FsProps.sb0 false (replicate NINODE Fs.zero_inode) 0 root_disk.
Definition kst1 : File.kst (list (list Z)) :=
  MkKst false (replicate NFILE zero_file) fs1 (fun _ => Pipe.init_pipe []) (MkKmem false 1 0 (fun _ => 0)).
Definition umem1 (arg0 : Z) : mem := store32 (<[200 := 47]> (fun _ => 0)) 104 arg0.
Definition ust1 (arg0 : Z) : @Sysfile.ust (list (list Z)) := MkUst (umem1 arg0) 4096 100 (replicate NOFILE None) kst1.

Lemma counted1 arg0 : counted (fun _ => 0) (ust1 arg0).
Proof.
  assert (Hg : forall i, (i < NFILE)%nat -> getf (kern (ust1 arg0)) i = zero_file).
  { intros i Hi. unfold getf. apply lookup_total_replicate_2. done. }
  split; try done.
  - intros i Hi. rewrite Hg by done. vm_compute. reflexivity.
  - intros i Hi _. by rewrite Hg.
  - intros f Hf. by apply elem_of_replicate in Hf as [? _].
Qed.
Lemma few1 : few (fun _ => 0).
Proof. intros i. lia. Qed.

Definition state_of {S A} (d : S) (m : res S A) : S := match m with Ret _ s => s | _ => d end.
Definition value_of {S A} (d : A) (m : res S A) : A := match m with Ret a _ => a | _ => d end.

Definition open1 := sys_open (ret tt) (ret tt) 7 FsProps.no_dev KERNBASE (ust1 200).
Lemma open1_returns : sys_open (ret tt) (ret tt) 7 FsProps.no_dev KERNBASE (ust1 200) = Ret 0 (state_of (ust1 200) open1).
Proof. vm_compute. reflexivity. Qed.

Lemma run_open1 : run (ret tt) (ret tt) 7 false FsProps.no_dev KERNBASE Open (ust1 200) = Ret tt (state_of (ust1 200) open1).
Proof. vm_compute. reflexivity. Qed.

Lemma descriptors_counted_witness : counted (fun _ => 0) (state_of (ust1 200) open1).
Proof.
  exact (descriptors_counted (ret tt) (ret tt) 7 false FsProps.no_dev KERNBASE Open (fun _ => 0) (ust1 200)
    (state_of (ust1 200) open1) (counted1 200) few1 run_open1).
Defined.

Lemma sys_open_result_witness : exists f, ofile (state_of (ust1 200) open1) = <[0%nat := Some f]> (replicate NOFILE None) /\
  f_type (getf (kern (state_of (ust1 200) open1)) f) = FD_INODE.
Proof.
  destruct (sys_open_result (ret tt) (ret tt) 7 FsProps.no_dev KERNBASE (fun _ => 0) (ust1 200) (state_of (ust1 200) open1) 0
    (counted1 200) few1 open1_returns)
    as [[? _]|(omode & f & fd & ip & p & _ & Hr & _ & _ & _ & Ho & _ & _ & Hg & _)]; [discriminate|].
  assert (fd = 0%nat) as -> by (clear - Hr; lia). exists f. split; [exact Ho|]. by rewrite Hg.
Defined.

(** A pipe for a process with one page of memory in reserve. *)
Definition pipe_page : Z := KERNBASE + 4096.
Definition kst2 : File.kst (list (list Z)) :=
  MkKst false (replicate NFILE zero_file) fs1 (fun _ => Pipe.init_pipe []) (MkKmem false 1 pipe_page (fun _ => 0)).
Definition ust2 : @Sysfile.ust (list (list Z)) := MkUst (umem1 300) 4096 100 (replicate NOFILE None) kst2.
Definition pipe2 := sys_pipe (ret tt) (ret tt) 7 KERNBASE ust2.
Lemma pipe2_returns : sys_pipe (ret tt) (ret tt) 7 KERNBASE ust2 = Ret 0 (state_of ust2 pipe2).
Proof. vm_compute. reflexivity. Qed.
Lemma counted2 : counted (fun _ => 0) ust2.
Proof. by destruct (counted1 300). Qed.
Lemma sys_pipe_result_witness : exists i0 i1, pipe_ends (state_of ust2 pipe2) i0 i1 /\ load32 (umem (state_of ust2 pipe2)) 304 = 1.
Proof.
  destruct (sys_pipe_result (ret tt) (ret tt) 7 KERNBASE (fun _ => 0) ust2 (state_of ust2 pipe2) 0 counted2 few1 pipe2_returns)
    as [[? _]|(_ & fd & fd0 & fd1 & i0 & i1 & _ & _ & Hp & _)]; [discriminate|].
  exists i0, i1. split; [exact Hp|]. vm_compute. reflexivity.
Defined.

Lemma args_checked_witness : argstr 0 (ust1 200) = Ret (Some [47]) (ust1 200) /\ 200 + 1 < usz (ust1 200).
Proof.
  destruct (args_checked (ust1 200) 0 1) as (_ & _ & Hs); [done|done|done|].
  assert (E : argstr 0 (ust1 200) = Ret (Some [47]) (ust1 200)) by reflexivity.
  destruct (Hs [47] (ust1 200) E) as (_ & p & _). split; [exact E|reflexivity].
Defined.
End FileProps.
