(* ===== verification/Sh.v ===== *)
(** The shell's parser ([sh.c]).

    The parser builds commands in memory that [malloc] gives and keeps pointers into the
    input buffer: [heap] has the structures, a pointer to one is its index, and a [char*] is
    a position of the buffer.  [parseexec] goes on filling in an [execcmd] that redirections
    already point to, so the structures are shared, not copied.  [malloc] is taken to
    succeed, as the code does.  [Module Sh] is the code; [Module ShSpec] shows that the
    parser terminates. *)

From S2P Require Import Prelude Params Bytes Sysfile.

Module Sh.

Definition MAXARGS : nat := 10.

(** [struct execcmd] (the words as pairs of [argv] and [eargv]), [redircmd], [pipecmd],
    [listcmd] and [backcmd]. *)
Inductive node :=
| EXEC (args : list (nat * nat))
| REDIR (cmd : nat) (file efile : nat) (mode fd : Z)
| PIPE (left right : nat)
| LIST (left right : nat)
| BACK (cmd : nat).
#[global] Instance node_inhabited : Inhabited node := populate (EXEC []).

Record sh := MkSh { buf : list Z; heap : list node; ps : nat }.
Definition set_ps (x : nat) (s : sh) : sh := MkSh (buf s) (heap s) x.
Definition set_buf (x : list Z) (s : sh) : sh := MkSh x (heap s) (ps s).

(** [*p] *)
Definition char (b : list Z) (p : nat) : Z := default 0 (b !! p).

(** [malloc] and the constructors' assignments. *)
Definition new (n : node) : M sh nat := fun s => Ret (length (heap s)) (MkSh (buf s) (heap s ++ [n]) (ps s)).
Definition execcmd : M sh nat := new (EXEC []).
Definition redircmd (subcmd file efile : nat) (mode fd : Z) : M sh nat := new (REDIR subcmd file efile mode fd).
Definition pipecmd (left right : nat) : M sh nat := new (PIPE left right).
Definition listcmd (left right : nat) : M sh nat := new (LIST left right).
Definition backcmd (subcmd : nat) : M sh nat := new (BACK subcmd).

(** [strchr] in a string constant. *)
Definition strchr (str : list Z) (c : Z) : bool := existsb (Z.eqb c) str.
Definition whitespace : list Z := [32; 9; 13; 10; 11].
Definition symbols : list Z := [60; 124; 62; 38; 59; 40; 41].

(** The loops that move [s] while it is before [es]; [n] is how far that is. *)
Fixpoint skip_ws (b : list Z) (s n : nat) : nat :=
  match n with
  | O => s
  | S n' => if strchr whitespace (char b s) then skip_ws b (S s) n' else s
  end.
Fixpoint skip_word (b : list Z) (s n : nat) : nat :=
  match n with
  | O => s
  | S n' => if negb (strchr whitespace (char b s)) && negb (strchr symbols (char b s))
            then skip_word b (S s) n' else s
  end.

Definition c_word : Z := 97.   (* 'a' *)
Definition c_append : Z := 43. (* '+' *)

Section sh.
(** The end of the input. *)
Variable es : nat.

(** The token, and where it starts and ends. *)
Definition gettoken : M sh (Z * nat * nat) :=
  st <- reads id ;;
  let b := buf st in
  let s := skip_ws b (ps st) (es - ps st) in
  let q := s in
  let c := char b s in
  let '(r, s) :=
    if c =? 0 then (c, s)
    else if strchr [124; 40; 41; 59; 38; 60] c then (c, S s)
    else if c =? 62 then
      if char b (S s) =? 62 then (c_append, S (S s)) else (c, S s)
    else (c_word, skip_word b s (es - s)) in
  let eq := s in
  modify (set_ps (skip_ws b s (es - s))) ;;;
  ret (r, q, eq).

Definition peek (toks : list Z) : M sh bool :=
  st <- reads id ;;
  let s := skip_ws (buf st) (ps st) (es - ps st) in
  modify (set_ps s) ;;;
  let c := char (buf st) s in
  ret (negb (c =? 0) && strchr toks c).

Definition no_fuel : string := "out of fuel".
Definition O_write : Z := Z.lor Sysfile.O_WRONLY Sysfile.O_CREATE.

Fixpoint parseredirs (fuel : nat) (cmd : nat) : M sh nat :=
  p <- peek [60; 62] ;;
  if negb p then ret cmd else
  match fuel with
  | O => panic no_fuel
  | S fuel =>
      t <- gettoken ;;
      let '(tok, _, _) := t in
      t <- gettoken ;;
      let '(w, q, eq) := t in
      if negb (w =? c_word) then panic "missing file for redirection" else
      cmd <- (if tok =? 60 then redircmd cmd q eq Sysfile.O_RDONLY 0
              else if tok =? 62 then redircmd cmd q eq O_write 1
              else if tok =? c_append then redircmd cmd q eq O_write 1
              else ret cmd) ;;
      parseredirs fuel cmd
  end.

(** [cmd->argv[argc] = q] and [cmd->eargv[argc] = eq] for the next [argc]. *)
Definition add_arg (cmd q eq : nat) : M sh unit := modify (fun s =>
  MkSh (buf s) (alter (fun n => match n with EXEC args => EXEC (args ++ [(q, eq)]) | n => n end) cmd (heap s)) (ps s)).

(** The loop of [parseexec]; a word or a redirection is a character at least. *)
Fixpoint parseargs (fuel : nat) (cmd : nat) (argc : nat) (r : nat) : M sh nat :=
  p <- peek [124; 41; 38; 59] ;;
  if p then ret r else
  match fuel with
  | O => panic no_fuel
  | S fuel =>
      t <- gettoken ;;
      let '(tok, q, eq) := t in
      if tok =? 0 then ret r else
      if negb (tok =? c_word) then panic "syntax" else
      add_arg cmd q eq ;;;
      if (MAXARGS <=? S argc)%nat then panic "too many args" else
      r <- parseredirs es r ;;
      parseargs fuel cmd (S argc) r
  end.

(** [while(peek(ps, es, "&"))] of [parseline]. *)
Fixpoint parseback (fuel : nat) (cmd : nat) : M sh nat :=
  p <- peek [38] ;;
  if negb p then ret cmd else
  match fuel with
  | O => panic no_fuel
  | S fuel =>
      gettoken ;;;
      cmd <- backcmd cmd ;;
      parseback fuel cmd
  end.

Fixpoint parseline (fuel : nat) : M sh nat :=
  match fuel with
  | O => panic no_fuel
  | S fuel =>
      cmd <- parsepipe fuel ;;
      cmd <- parseback es cmd ;;
      p <- peek [59] ;;
      if p then
        gettoken ;;;
        right <- parseline fuel ;;
        listcmd cmd right
      else ret cmd
  end
with parsepipe (fuel : nat) : M sh nat :=
  match fuel with
  | O => panic no_fuel
  | S fuel =>
      cmd <- parseexec fuel ;;
      p <- peek [124] ;;
      if p then
        gettoken ;;;
        right <- parsepipe fuel ;;
        pipecmd cmd right
      else ret cmd
  end
with parseexec (fuel : nat) : M sh nat :=
  match fuel with
  | O => panic no_fuel
  | S fuel =>
      p <- peek [40] ;;
      if p then parseblock fuel else
      cmd <- execcmd ;;
      r <- parseredirs es cmd ;;
      parseargs (S es) cmd 0 r
  end
with parseblock (fuel : nat) : M sh nat :=
  match fuel with
  | O => panic no_fuel
  | S fuel =>
      p <- peek [40] ;;
      if negb p then panic "parseblock" else
      gettoken ;;;
      cmd <- parseline fuel ;;
      p <- peek [41] ;;
      if negb p then panic "syntax - missing )" else
      gettoken ;;;
      parseredirs es cmd
  end.

(** [*p = 0] *)
Definition terminate (p : nat) : M sh unit := modify (fun s => set_buf (<[p := 0]> (buf s)) s).

(** [nulterminate]: a command's parts were made before it. *)
Fixpoint nulterminate (fuel : nat) (cmd : nat) : M sh unit :=
  match fuel with
  | O => panic no_fuel
  | S fuel =>
      n <- reads (fun s => heap s !!! cmd) ;;
      match n with
      | EXEC args => fold_right (fun a m => terminate (snd a) ;;; m) (ret tt) args
      | REDIR c _ efile _ _ => nulterminate fuel c ;;; terminate efile
      | PIPE l r => nulterminate fuel l ;;; nulterminate fuel r
      | LIST l r => nulterminate fuel l ;;; nulterminate fuel r
      | BACK c => nulterminate fuel c
      end
  end.
End sh.

(** [strlen] of the buffer. *)
Fixpoint strlen (b : list Z) : nat :=
  match b with c :: b' => if c =? 0 then O else S (strlen b') | [] => O end.

(** Four functions call each other before a character is read. *)
Definition parse_fuel (n : nat) : nat := 4 * n + 4.

(** What [parsecmd] prints before it panics, and the message of the panic. *)
Definition leftovers (rest : list Z) : string :=
  ("leftovers: " +:+ String.string_of_list_ascii (map (fun c => Ascii.ascii_of_nat (Z.to_nat c)) (rest ++ [10])) +:+ "syntax")%string.
Definition parsecmd : M sh nat :=
  b <- reads buf ;;
  let es := strlen b in
  modify (set_ps 0) ;;;
  cmd <- parseline es (parse_fuel es) ;;
  peek es [] ;;;
  s <- reads ps ;;
  if negb (s =? es)%nat then panic (leftovers (take (es - s) (drop s b))) else
  h <- reads heap ;;
  nulterminate (length h) cmd ;;;
  ret cmd.
End Sh.

Module ShSpec.
Import Sh.

(** ** Termination *)
Section total.
Variable es : nat.

(** Moves forward by [lo] characters at least, or stops with an error message. *)
Definition moves {A} (lo : nat) (m : M sh A) (s : sh) : Prop :=
  match m s with
  | Ret _ s' => (ps s + lo <= ps s' <= es)%nat /\ buf s' = buf s
  | Panic msg => msg <> no_fuel
  | Sleep _ _ => False
  end.
Definition input (s : sh) : Prop := (ps s <= es)%nat /\ char (buf s) es = 0.

Lemma skip_ws_range b s : (s <= es -> s <= skip_ws b s (es - s) <= es)%nat.
Proof.
  intros Hs. remember (es - s)%nat as n eqn:Hn. revert s Hs Hn. induction n as [|n IH]; intros s Hs Hn; cbn [skip_ws]; [lia|].
  case_match; [|lia]. specialize (IH (S s)). lia.
Qed.
Lemma skip_word_range b s : (s <= es -> s <= skip_word b s (es - s) <= es)%nat.
Proof.
  intros Hs. remember (es - s)%nat as n eqn:Hn. revert s Hs Hn. induction n as [|n IH]; intros s Hs Hn; cbn [skip_word]; [lia|].
  case_match; [|lia]. specialize (IH (S s)). lia.
Qed.
Lemma skip_ws_stop b s : (s <= es)%nat -> char b es = 0 -> strchr whitespace (char b (skip_ws b s (es - s))) = false.
Proof.
  intros Hs H0. remember (es - s)%nat as n eqn:Hn. revert s Hs Hn. induction n as [|n IH]; intros s Hs Hn; cbn [skip_ws].
  - assert (s = es) as -> by lia. by rewrite H0.
  - destruct (strchr whitespace (char b s)) eqn:E; [|done]. apply IH; lia.
Qed.

Lemma moves_bind {A B} lo lo' (m : M sh A) (k : A -> M sh B) s :
  moves lo m s ->
  (forall a s', m s = Ret a s' -> (ps s + lo <= ps s' <= es)%nat -> buf s' = buf s -> moves (lo' - (ps s' - ps s)) (k a) s') ->
  moves lo' (bind m k) s.
Proof.
  unfold moves, bind. destruct (m s) as [a s'| |]; [|done..]. intros [Hp Hb] Hk. specialize (Hk a s' eq_refl Hp Hb).
  destruct (k a s') as [b s2| |]; [|done..]. destruct Hk as [? Hb2]. rewrite Hb2. split; [lia|done].
Qed.
Lemma moves_ret {A} (a : A) s : (ps s <= es)%nat -> moves 0 (ret a) s.
Proof. intros. unfold moves, ret. split; [lia|done]. Qed.
Lemma moves_weaken {A} lo lo' (m : M sh A) s : (lo' <= lo)%nat -> moves lo m s -> moves lo' m s.
Proof. unfold moves. intros. destruct (m s); [|done..]. destruct H0. split; [lia|done]. Qed.
Lemma moves_new n s : (ps s <= es)%nat -> moves 0 (new n) s.
Proof. intros. unfold moves, new. cbn. split; [lia|done]. Qed.

Lemma moves_peek t s : input s -> moves 0 (peek es t) s.
Proof. intros [Hp _]. unfold moves, peek, bind, reads, modify, ret. cbn. pose proof (skip_ws_range (buf s) (ps s) Hp). split; [lia|done]. Qed.
(** A token takes a character, after [peek] has seen one. *)
Lemma peek_true t s s' : input s -> peek es t s = Ret true s' -> char (buf s') (skip_ws (buf s') (ps s') (es - ps s')) <> 0.
Proof.
  intros [Hp H0]. unfold peek, bind, reads, modify, ret. cbn [id set_ps buf ps]. intros [= E <-]. apply andb_true_iff in E as [E _].
  apply negb_true_iff, Z.eqb_neq in E. cbn [buf ps set_ps].
  pose proof (skip_ws_stop (buf s) (ps s) Hp H0) as Hst. set (s1 := skip_ws (buf s) (ps s) (es - ps s)) in *.
  destruct (es - s1)%nat; cbn [skip_ws]; [done|]. by rewrite Hst.
Qed.
Lemma gettoken_moves s :
  input s -> moves (if char (buf s) (skip_ws (buf s) (ps s) (es - ps s)) =? 0 then 0 else 1) (gettoken es) s.
Proof.
  intros [Hp H0]. unfold moves, gettoken, bind, reads, modify, ret. cbn [id].
  pose proof (skip_ws_range (buf s) (ps s) Hp) as Hr. pose proof (skip_ws_stop (buf s) (ps s) Hp H0) as Hst.
  set (s1 := skip_ws (buf s) (ps s) (es - ps s)) in *.
  assert (Hlt : char (buf s) s1 <> 0 -> (s1 < es)%nat).
  { intros Hc. destruct (decide (s1 = es)) as [->|]; [done|lia]. }
  destruct (Z.eqb_spec (char (buf s) s1) 0) as [Hz|Hnz]; [|specialize (Hlt Hnz)];
    [|destruct (strchr [124; 40; 41; 59; 38; 60] _) eqn:Esym; [|destruct (Z.eqb_spec (char (buf s) s1) 62) as [Hgt|Hgt]; [destruct (Z.eqb_spec (char (buf s) (S s1)) 62) as [Hg2|]|]]];
    cbn [buf ps set_ps].
  - pose proof (skip_ws_range (buf s) s1 ltac:(lia)). split; [lia|done].
  - pose proof (skip_ws_range (buf s) (S s1) ltac:(lia)). split; [lia|done].
  - assert (S s1 < es)%nat by (destruct (decide (S s1 = es)) as [E|]; [rewrite E, H0 in Hg2; done|lia]).
    pose proof (skip_ws_range (buf s) (S (S s1)) ltac:(lia)). split; [lia|done].
  - pose proof (skip_ws_range (buf s) (S s1) ltac:(lia)). split; [lia|done].
  - assert (Hw : (S s1 <= skip_word (buf s) s1 (es - s1) <= es)%nat).
    { destruct (es - s1)%nat as [|n] eqn:En; [lia|]. cbn [skip_word]. rewrite Hst. cbn [negb andb].
      assert (strchr symbols (char (buf s) s1) = false) as ->.
      { unfold strchr, symbols in *. cbn [existsb] in *. repeat (apply orb_false_iff in Esym as [? Esym]).
        rewrite !orb_false_iff. split_and!; try done. by apply Z.eqb_neq. }
      cbn [negb]. pose proof (skip_word_range (buf s) (S s1) ltac:(lia)) as Hsw. replace (es - S s1)%nat with n in Hsw by lia. lia. }
    pose proof (skip_ws_range (buf s) (skip_word (buf s) s1 (es - s1)) ltac:(lia)). split; [lia|done].
Qed.

Lemma input_after s s' lo : input s -> (ps s + lo <= ps s' <= es)%nat -> buf s' = buf s -> input s'.
Proof. intros [? H0] Hp Hb. split; [lia|by rewrite Hb]. Qed.

Lemma token_after_peek t s s' : input s -> peek es t s = Ret true s' -> input s' -> moves 1 (gettoken es) s'.
Proof.
  intros Hi Hp Hi'. pose proof (gettoken_moves s' Hi') as Hg. pose proof (peek_true t s s' Hi Hp) as Hc.
  by destruct (Z.eqb_spec (char (buf s') (skip_ws (buf s') (ps s') (es - ps s'))) 0).
Qed.
Lemma token_moves s : input s -> moves 0 (gettoken es) s.
Proof. intros Hi. eapply moves_weaken; [|by apply gettoken_moves]. lia. Qed.

Lemma peek_more t s s' : input s -> peek es t s = Ret true s' -> input s' -> (ps s' < es)%nat.
Proof.
  intros Hi Hp [Hi1 H0]. pose proof (peek_true t s s' Hi Hp) as Hc. destruct (decide (ps s' = es)) as [E|]; [|lia].
  exfalso. rewrite E, Nat.sub_diag in Hc. done.
Qed.

Lemma moves_redirs fuel : forall cmd s, input s -> (es - ps s <= fuel)%nat -> moves 0 (parseredirs es fuel cmd) s.
Proof.
  induction fuel as [|fuel IH]; intros cmd s Hi Hf; cbn [parseredirs].
  all: eapply moves_bind; [by apply moves_peek|intros p s1 E1 Hp1 Hb1]; pose proof (input_after _ _ _ Hi Hp1 Hb1) as Hi1.
  all: destruct p; cbn [negb]; [|eapply moves_weaken; [|apply moves_ret, Hi1]; lia].
  { pose proof (peek_more _ _ _ Hi E1 Hi1). lia. }
  eapply moves_bind; [exact (token_after_peek _ _ _ Hi E1 Hi1)|intros [[tok ?] ?] s2 E2 Hp2 Hb2]; pose proof (input_after _ _ _ Hi1 Hp2 Hb2) as Hi2.
  eapply moves_bind; [by apply token_moves|intros [[w q] eq] s3 E3 Hp3 Hb3]; pose proof (input_after _ _ _ Hi2 Hp3 Hb3) as Hi3.
  destruct (negb _); [done|].
  eapply (moves_bind 0); [repeat case_match; first [apply moves_new, Hi3|apply moves_ret, Hi3]|intros cmd' s4 E4 Hp4 Hb4].
  pose proof (input_after _ _ _ Hi3 Hp4 Hb4) as Hi4. eapply moves_weaken; [|apply IH; [done|lia]]. lia.
Qed.

Lemma moves_add_arg cmd q eq s : (ps s <= es)%nat -> moves 0 (add_arg cmd q eq) s.
Proof. intros. unfold moves, add_arg, modify. cbn. split; [lia|done]. Qed.

Lemma moves_args fuel : forall cmd argc r s, input s -> (es - ps s < fuel)%nat -> moves 0 (parseargs es fuel cmd argc r) s.
Proof.
  induction fuel as [|fuel IH]; intros cmd argc r s Hi Hf; [lia|]. cbn [parseargs].
  eapply moves_bind; [by apply moves_peek|intros p s1 E1 Hp1 Hb1]; pose proof (input_after _ _ _ Hi Hp1 Hb1) as Hi1.
  destruct p; [eapply moves_weaken; [|apply moves_ret, Hi1]; lia|].
  eapply moves_bind; [by apply gettoken_moves|intros [[tok q] eq] s2 E2 Hp2 Hb2]; pose proof (input_after _ _ _ Hi1 Hp2 Hb2) as Hi2.
  destruct (Z.eqb_spec tok 0); [eapply moves_weaken; [|apply moves_ret, Hi2]; lia|].
  assert (Hc : (ps s1 < ps s2)%nat).
  { destruct (Z.eqb_spec (char (buf s1) (skip_ws (buf s1) (ps s1) (es - ps s1))) 0) as [Hz|]; [|lia].
    unfold gettoken, bind, reads in E2. cbn [id] in E2. rewrite Hz in E2. injection E2 as <- _ _ _. done. }
  destruct (negb _); [done|].
  eapply moves_bind; [apply moves_add_arg, Hi2|intros [] s3 E3 Hp3 Hb3]; pose proof (input_after _ _ _ Hi2 Hp3 Hb3) as Hi3.
  destruct (_ <=? _)%nat; [done|].
  eapply moves_bind; [apply moves_redirs; [done|lia]|intros r' s4 E4 Hp4 Hb4]; pose proof (input_after _ _ _ Hi3 Hp4 Hb4) as Hi4.
  eapply moves_weaken; [|apply IH; [done|lia]]. lia.
Qed.

Lemma moves_back fuel : forall cmd s, input s -> (es - ps s <= fuel)%nat -> moves 0 (parseback es fuel cmd) s.
Proof.
  induction fuel as [|fuel IH]; intros cmd s Hi Hf; cbn [parseback].
  all: eapply moves_bind; [by apply moves_peek|intros p s1 E1 Hp1 Hb1]; pose proof (input_after _ _ _ Hi Hp1 Hb1) as Hi1.
  all: destruct p; cbn [negb]; [|eapply moves_weaken; [|apply moves_ret, Hi1]; lia].
  { pose proof (peek_more _ _ _ Hi E1 Hi1). lia. }
  eapply moves_bind; [exact (token_after_peek _ _ _ Hi E1 Hi1)|intros ? s2 E2 Hp2 Hb2]; pose proof (input_after _ _ _ Hi1 Hp2 Hb2) as Hi2.
  eapply moves_bind; [apply moves_new, Hi2|intros c s3 E3 Hp3 Hb3]; pose proof (input_after _ _ _ Hi2 Hp3 Hb3) as Hi3.
  eapply moves_weaken; [|apply IH; [done|lia]]. lia.
Qed.

Lemma moves_parse fuel :
  (forall s, input s -> (4 * (es - ps s) + 4 <= fuel)%nat -> moves 0 (parseline es fuel) s) /\
  (forall s, input s -> (4 * (es - ps s) + 3 <= fuel)%nat -> moves 0 (parsepipe es fuel) s) /\
  (forall s, input s -> (4 * (es - ps s) + 2 <= fuel)%nat -> moves 0 (parseexec es fuel) s) /\
  (forall s, input s -> (4 * (es - ps s) + 1 <= fuel)%nat -> moves 0 (parseblock es fuel) s).
Proof.
  induction fuel as [|fuel (IHl & IHp & IHe & IHb)]; [split_and!; intros; lia|]. split_and!; intros s Hi Hf; cbn [parseline parsepipe parseexec parseblock].
  - eapply moves_bind; [apply IHp; [done|lia]|intros c s1 E1 Hp1 Hb1]; pose proof (input_after _ _ _ Hi Hp1 Hb1) as Hi1.
    eapply moves_bind; [apply moves_back; [done|lia]|intros c' s2 E2 Hp2 Hb2]; pose proof (input_after _ _ _ Hi1 Hp2 Hb2) as Hi2.
    eapply moves_bind; [by apply moves_peek|intros p s3 E3 Hp3 Hb3]; pose proof (input_after _ _ _ Hi2 Hp3 Hb3) as Hi3.
    destruct p; [|eapply moves_weaken; [|apply moves_ret, Hi3]; lia].
    eapply moves_bind; [exact (token_after_peek _ _ _ Hi2 E3 Hi3)|intros ? s4 E4 Hp4 Hb4]; pose proof (input_after _ _ _ Hi3 Hp4 Hb4) as Hi4.
    eapply moves_bind; [apply IHl; [done|lia]|intros r s5 E5 Hp5 Hb5]; pose proof (input_after _ _ _ Hi4 Hp5 Hb5) as Hi5.
    eapply moves_weaken; [|apply moves_new, Hi5]. lia.
  - eapply moves_bind; [apply IHe; [done|lia]|intros c s1 E1 Hp1 Hb1]; pose proof (input_after _ _ _ Hi Hp1 Hb1) as Hi1.
    eapply moves_bind; [by apply moves_peek|intros p s3 E3 Hp3 Hb3]; pose proof (input_after _ _ _ Hi1 Hp3 Hb3) as Hi3.
    destruct p; [|eapply moves_weaken; [|apply moves_ret, Hi3]; lia].
    eapply moves_bind; [exact (token_after_peek _ _ _ Hi1 E3 Hi3)|intros ? s4 E4 Hp4 Hb4]; pose proof (input_after _ _ _ Hi3 Hp4 Hb4) as Hi4.
    eapply moves_bind; [apply IHp; [done|lia]|intros r s5 E5 Hp5 Hb5]; pose proof (input_after _ _ _ Hi4 Hp5 Hb5) as Hi5.
    eapply moves_weaken; [|apply moves_new, Hi5]. lia.
  - eapply moves_bind; [by apply moves_peek|intros p s3 E3 Hp3 Hb3]; pose proof (input_after _ _ _ Hi Hp3 Hb3) as Hi3.
    destruct p; [eapply moves_weaken; [|apply IHb; [done|lia]]; lia|].
    eapply moves_bind; [apply moves_new, Hi3|intros c s4 E4 Hp4 Hb4]; pose proof (input_after _ _ _ Hi3 Hp4 Hb4) as Hi4.
    eapply moves_bind; [apply moves_redirs; [done|lia]|intros r s5 E5 Hp5 Hb5]; pose proof (input_after _ _ _ Hi4 Hp5 Hb5) as Hi5.
    eapply moves_weaken; [|apply moves_args; [done|lia]]. lia.
  - eapply moves_bind; [by apply moves_peek|intros p s3 E3 Hp3 Hb3]; pose proof (input_after _ _ _ Hi Hp3 Hb3) as Hi3.
    destruct p; [|done]. cbn [negb].
    eapply moves_bind; [exact (token_after_peek _ _ _ Hi E3 Hi3)|intros ? s4 E4 Hp4 Hb4]; pose proof (input_after _ _ _ Hi3 Hp4 Hb4) as Hi4.
    eapply moves_bind; [apply IHl; [done|lia]|intros r s5 E5 Hp5 Hb5]; pose proof (input_after _ _ _ Hi4 Hp5 Hb5) as Hi5.
    eapply moves_bind; [by apply moves_peek|intros p s6 E6 Hp6 Hb6]; pose proof (input_after _ _ _ Hi5 Hp6 Hb6) as Hi6.
    destruct p; [|done]. cbn [negb].
    eapply moves_bind; [exact (token_after_peek _ _ _ Hi5 E6 Hi6)|intros ? s7 E7 Hp7 Hb7]; pose proof (input_after _ _ _ Hi6 Hp7 Hb7) as Hi7.
    eapply moves_weaken; [|apply moves_redirs; [done|lia]]. lia.
Qed.

(** ** Commands point to older commands *)
Definition parts (n : node) : list nat :=
  match n with EXEC _ => [] | REDIR c _ _ _ _ => [c] | PIPE l r => [l; r] | LIST l r => [l; r] | BACK c => [c] end.
Definition ordered (h : list node) : Prop := forall p n c, h !! p = Some n -> c ∈ parts n -> (c < p)%nat.
(** [n] commands at least. *)
Definition made (n : nat) (s : sh) : Prop := ordered (heap s) /\ (n <= length (heap s))%nat.
Definition makes (n : nat) (m : M sh nat) : Prop := forall s r s', made n s -> m s = Ret r s' -> made n s' /\ made (S r) s'.

Lemma same_heap_peek t s p s' : peek es t s = Ret p s' -> heap s' = heap s.
Proof. unfold peek, bind, reads, modify, ret. by intros [= _ <-]. Qed.
Lemma same_heap_token s t s' : gettoken es s = Ret t s' -> heap s' = heap s.
Proof. unfold gettoken, bind, reads, modify, ret. case_match. by intros [= _ <-]. Qed.
Lemma made_heap n s s' : heap s' = heap s -> made n s -> made n s'.
Proof. unfold made. by intros ->. Qed.

Lemma makes_new k n : (forall c, c ∈ parts n -> (c < k)%nat) -> makes k (new n).
Proof.
  intros Hn s r s' [Ho Hl] [= <- <-]. assert (Hord : ordered (heap s ++ [n])).
  { intros p x c Hx Hc. apply lookup_app_Some in Hx as [Hx|[Hp Hx]]; [by eapply Ho|].
    apply list_lookup_singleton_Some in Hx as [? <-]. specialize (Hn c Hc). lia. }
  unfold made. cbn [heap]. rewrite length_app. cbn. split; split; try done; lia.
Qed.
Lemma makes_redirs fuel : forall cmd n, (cmd < n)%nat -> makes n (parseredirs es fuel cmd).
Proof.
  induction fuel as [|fuel IH]; intros cmd n Hn s r s' Hm; cbn [parseredirs];
    intros ([] & s1 & E1%same_heap_peek & H)%bind_inv; cbn [negb] in H; pose proof (made_heap _ _ _ E1 Hm) as Hm1.
  - done.
  - injection H as <- <-. destruct Hm1. split; [done|split; [done|lia]].
  - apply bind_inv in H as ([[tok ?] ?] & s2 & E2%same_heap_token & H). apply bind_inv in H as ([[w q] eq] & s3 & E3%same_heap_token & H).
    pose proof (made_heap _ _ _ E3 (made_heap _ _ _ E2 Hm1)) as Hm3. destruct (negb _); [done|].
    apply bind_inv in H as (c & s4 & E4 & H).
    assert (made n s4 /\ made (S c) s4) as [Hm4 Hc4].
    { destruct (_ =? 60); [|destruct (_ =? 62); [|destruct (_ =? c_append)]];
        try (eapply makes_new; [|done|exact E4]; intros ? ->%list_elem_of_singleton; done).
      injection E4 as <- <-. destruct Hm3. split; [done|split; [done|lia]]. }
    eapply (IH c (Nat.max n (S c)) ltac:(lia)) in H as [H1 H2].
    + split; [destruct H1; split; [done|lia]|done].
    + destruct Hm4, Hc4. split; [done|lia].
  - injection H as <- <-. destruct Hm1. split; [done|split; [done|lia]].
Qed.
Lemma made_arg n cmd q eq s s' : add_arg cmd q eq s = Ret tt s' -> made n s -> made n s'.
Proof.
  intros [= <-] [Ho Hl]. unfold made. cbn [heap]. rewrite length_alter. split; [|done]. intros p x c Hx Hc.
  destruct (decide (cmd = p)) as [->|Hne]; [|rewrite list_lookup_alter_ne in Hx by done; by eapply Ho].
  rewrite list_lookup_alter_eq in Hx. apply fmap_Some in Hx as (y & Hy & ->).
  eapply Ho; [exact Hy|]. by destruct y.
Qed.
Lemma makes_args fuel : forall cmd argc r n, (r < n)%nat -> makes n (parseargs es fuel cmd argc r).
Proof.
  induction fuel as [|fuel IH]; intros cmd argc r0 n Hn s r s' Hm; cbn [parseargs];
    intros ([] & s1 & E1%same_heap_peek & H)%bind_inv; pose proof (made_heap _ _ _ E1 Hm) as Hm1.
  1, 3: injection H as <- <-; destruct Hm1; split; [done|split; [done|lia]].
  { done. }
  apply bind_inv in H as ([[tok q] eq] & s2 & E2%same_heap_token & H). pose proof (made_heap _ _ _ E2 Hm1) as Hm2.
  destruct (tok =? 0); [injection H as <- <-; destruct Hm2; split; [done|split; [done|lia]]|]. destruct (negb _); [done|].
  apply bind_inv in H as ([] & s3 & E3 & H). pose proof (made_arg _ _ _ _ _ _ E3 Hm2) as Hm3. destruct (_ <=? _)%nat; [done|].
  apply bind_inv in H as (r1 & s4 & E4 & H). destruct (makes_redirs _ r0 n Hn _ _ _ Hm3 E4) as [Hm4 Hr4].
  eapply (IH cmd (S argc) r1 (Nat.max n (S r1)) ltac:(lia)) in H as [H1 H2].
  - split; [destruct H1; split; [done|lia]|done].
  - destruct Hm4, Hr4. split; [done|lia].
Qed.
Lemma makes_back fuel : forall cmd n, (cmd < n)%nat -> makes n (parseback es fuel cmd).
Proof.
  induction fuel as [|fuel IH]; intros cmd n Hn s r s' Hm; cbn [parseback];
    intros ([] & s1 & E1%same_heap_peek & H)%bind_inv; cbn [negb] in H; pose proof (made_heap _ _ _ E1 Hm) as Hm1.
  2, 4: injection H as <- <-; destruct Hm1; split; [done|split; [done|lia]].
  { done. }
  apply bind_inv in H as (? & s2 & E2%same_heap_token & H). pose proof (made_heap _ _ _ E2 Hm1) as Hm2.
  apply bind_inv in H as (c & s4 & E4 & H).
  assert (made n s4 /\ made (S c) s4) as [Hm4 Hc4].
  { eapply makes_new; [|exact Hm2|exact E4]. by intros ? ->%list_elem_of_singleton. }
  eapply (IH c (Nat.max n (S c)) ltac:(lia)) in H as [H1 H2].
  - split; [destruct H1; split; [done|lia]|done].
  - destruct Hm4, Hc4. split; [done|lia].
Qed.

Lemma makes_parse fuel n :
  makes n (parseline es fuel) /\ makes n (parsepipe es fuel) /\ makes n (parseexec es fuel) /\ makes n (parseblock es fuel).
Proof.
  revert n. induction fuel as [|fuel IH]; intros n; [split_and!; by intros ? ? ? ?|].
  assert (Hmax : forall a b s, made a s -> made b s -> made (Nat.max a b) s) by (intros a b s [? ?] [? ?]; split; [done|lia]).
  assert (Hle : forall a b s, (a <= b)%nat -> made b s -> made a s) by (intros a b s ? [? ?]; split; [done|lia]).
  destruct (IH n) as (IHl & IHp & IHe & IHb).
  split_and!; intros s r s' Hm; cbn [parseline parsepipe parseexec parseblock].
  - intros (c & s1 & E1 & (c2 & s2 & E2 & (p & s3 & E3%same_heap_peek & H)%bind_inv)%bind_inv)%bind_inv.
    destruct (IHp _ _ _ Hm E1) as [Hm1 Hc1]. destruct (makes_back _ c (Nat.max n (S c)) ltac:(lia) _ _ _ (Hmax _ _ _ Hm1 Hc1) E2) as [Hm2 Hc2].
    apply (made_heap _ _ _ E3) in Hm2, Hc2. destruct p; [|injection H as <- <-; eauto using Nat.le_max_l].
    apply bind_inv in H as (? & s4 & E4%same_heap_token & (rt & s5 & E5 & H)%bind_inv). apply (made_heap _ _ _ E4) in Hm2, Hc2.
    destruct (proj1 (IH (Nat.max n (S c2))) _ _ _ (Hmax _ _ _ (Hle _ _ _ (Nat.le_max_l _ _) Hm2) Hc2) E5) as [Hm5 Hr5].
    eapply (makes_new (Nat.max (Nat.max n (S c2)) (S rt))) in H; [|intros ? [->| ->%list_elem_of_singleton]%elem_of_cons; lia|by apply Hmax].
    destruct H as [H ?]. split; [eapply Hle; [|exact H]; lia|done].
  - intros (c & s1 & E1 & (p & s3 & E3%same_heap_peek & H)%bind_inv)%bind_inv.
    destruct (IHe _ _ _ Hm E1) as [Hm2 Hc2]. apply (made_heap _ _ _ E3) in Hm2, Hc2. destruct p; [|injection H as <- <-; eauto].
    apply bind_inv in H as (? & s4 & E4%same_heap_token & (rt & s5 & E5 & H)%bind_inv). apply (made_heap _ _ _ E4) in Hm2, Hc2.
    destruct (proj1 (proj2 (IH (Nat.max n (S c)))) _ _ _ (Hmax _ _ _ Hm2 Hc2) E5) as [Hm5 Hr5].
    eapply (makes_new (Nat.max (Nat.max n (S c)) (S rt))) in H; [|intros ? [->| ->%list_elem_of_singleton]%elem_of_cons; lia|by apply Hmax].
    destruct H as [H ?]. split; [eapply Hle; [|exact H]; lia|done].
  - intros (p & s1 & E1%same_heap_peek & H)%bind_inv. apply (made_heap _ _ _ E1) in Hm. destruct p; [by eapply IHb|].
    apply bind_inv in H as (c & s2 & E2 & (rd & s3 & E3 & H)%bind_inv).
    eapply (makes_new n) in E2 as [Hm2 Hc2]; [|intros ? ?%elem_of_nil; done|done].
    destruct (makes_redirs _ c (Nat.max n (S c)) ltac:(lia) _ _ _ (Hmax _ _ _ Hm2 Hc2) E3) as [Hm3 Hc3].
    destruct (makes_args _ c _ rd (Nat.max (Nat.max n (S c)) (S rd)) ltac:(lia) _ _ _ (Hmax _ _ _ Hm3 Hc3) H) as [Hm4 ?].
    split; [eapply Hle; [|exact Hm4]; lia|done].
  - intros (p & s1 & E1%same_heap_peek & H)%bind_inv. apply (made_heap _ _ _ E1) in Hm. destruct p; [|done].
    apply bind_inv in H as (? & s2 & E2%same_heap_token & (c & s3 & E3 & (p & s4 & E4%same_heap_peek & H)%bind_inv)%bind_inv).
    apply (made_heap _ _ _ E2) in Hm. destruct (IHl _ _ _ Hm E3) as [Hm3 Hc3]. apply (made_heap _ _ _ E4) in Hm3, Hc3. destruct p; [|done].
    apply bind_inv in H as (? & s5 & E5%same_heap_token & H). apply (made_heap _ _ _ E5) in Hm3, Hc3.
    destruct (makes_redirs _ c (Nat.max n (S c)) ltac:(lia) _ _ _ (Hmax _ _ _ Hm3 Hc3) H) as [Hm4 ?].
    split; [eapply Hle; [|exact Hm4]; lia|done].
Qed.
End total.

(** [nulterminate] returns, and writes to the buffer only. *)
Lemma terminate_all (args : list (nat * nat)) s :
  exists b, fold_right (fun a m => terminate (snd a) ;;; m) (ret tt) args s = Ret tt (set_buf b s) /\ length b = length (buf s).
Proof.
  revert s. induction args as [|a args IH]; intros s; cbn [fold_right]; [exists (buf s); by destruct s|].
  destruct (IH (set_buf (<[a.2 := 0]> (buf s)) s)) as (b & E & Hl). exists b. split; [exact E|]. rewrite Hl. cbn. apply length_insert.
Qed.
Lemma nulterminate_total fuel : forall c s, ordered (heap s) -> (c < length (heap s))%nat -> (c < fuel)%nat ->
  exists b, nulterminate fuel c s = Ret tt (set_buf b s) /\ length b = length (buf s).
Proof.
  induction fuel as [|fuel IH]; intros c s Ho Hc Hf; [lia|]. cbn [nulterminate]. unfold bind at 1, reads.
  destruct (lookup_lt_is_Some_2 _ _ Hc) as [n Hn]. rewrite (list_lookup_total_correct _ _ _ Hn).
  assert (Hp : forall x, x ∈ parts n -> (x < c)%nat) by eauto.
  destruct n as [args|x q eq md fd|l r|l r|x]; cbn [parts] in Hp; [apply terminate_all| | | |].
  all: try specialize (Hp x ltac:(set_solver)); try (pose proof (Hp l ltac:(set_solver)); pose proof (Hp r ltac:(set_solver))).
  2, 3: destruct (IH l s Ho ltac:(lia) ltac:(lia)) as (b & E & Hl); rewrite (bind_Ret _ _ _ _ _ E);
    destruct (IH r (set_buf b s) Ho ltac:(cbn; lia) ltac:(lia)) as (b' & E' & Hl'); exists b'; rewrite E'; cbn in Hl'; split; [done|lia].
  - destruct (IH x s Ho ltac:(lia) ltac:(lia)) as (b & E & Hl). rewrite (bind_Ret _ _ _ _ _ E).
    exists (<[eq := 0]> b). split; [done|]. by rewrite length_insert.
  - apply IH; [done|lia..].
Qed.

Lemma strlen_end b : char b (strlen b) = 0.
Proof. induction b as [|c b IH]; [done|]. cbn [strlen]. destruct (Z.eqb_spec c 0); [by subst|]. exact IH. Qed.

End ShSpec.
