(* ===== verification/ShPrint.v ===== *)
(** What the shell's parser reads is what was written.

    [Module ShPrint] has commands as a grammar ([cmd]), a printer [pr] that writes a command
    with the parentheses it needs, and [repr], what it means that the structures the parser
    made in memory are a command.  The lemmas follow the parser: a level of the grammar has a
    predicate on a text and a command ([reads_exec], [reads_pipe], [reads_back], [reads_line]),
    each of which gives the next. *)

From S2P Require Import Prelude Params Bytes Sysfile Sh.

Module ShPrint.
Import Sh.

(** ** Commands and their text *)
Inductive dir := In | Out | App.
Inductive cmd :=
| Exec (ws : list (list Z))
| Redir (c : cmd) (d : dir) (file : list Z)
| Pipe (l r : cmd)
| Lst (l r : cmd)
| Back (c : cmd).

Definition wordchar (x : Z) : bool := negb (x =? 0) && negb (strchr whitespace x) && negb (strchr symbols x).
Definition is_word (w : list Z) : bool := negb (bool_decide (w = [])) && forallb wordchar w.
Fixpoint printable (c : cmd) : bool :=
  match c with
  | Exec ws => forallb is_word ws && (length ws <? MAXARGS)%nat
  | Redir c _ f => printable c && is_word f
  | Pipe l r => printable l && printable r
  | Lst l r => printable l && printable r
  | Back c => printable c
  end.

Definition sp : Z := 32.
Definition arrow (d : dir) : list Z := match d with In => [60] | Out => [62] | App => [62; 62] end.
Definition dir_mode (d : dir) : Z := match d with In => Sysfile.O_RDONLY | _ => O_write end.
Definition dir_fd (d : dir) : Z := match d with In => 0 | _ => 1 end.
Definition paren (b : bool) (t : list Z) : list Z := if b then [40; sp] ++ t ++ [41; sp] else t.

(** The levels are those of [parseexec], [parsepipe], the loop of [parseline] and [parseline]. *)
Fixpoint pr (lv : nat) (c : cmd) : list Z :=
  match c with
  | Exec ws => concat (map (fun w => w ++ [sp]) ws)
  | Redir c d f => pr 0 c ++ arrow d ++ [sp] ++ f ++ [sp]
  | Pipe l r => paren (lv <? 1)%nat (pr 0 l ++ [124; sp] ++ pr 1 r)
  | Back c => paren (lv <? 2)%nat (pr 2 c ++ [38; sp])
  | Lst l r => paren (lv <? 3)%nat (pr 2 l ++ [59; sp] ++ pr 3 r)
  end.

(** ** Commands in memory *)
(** The word is in the buffer, from where it starts up to a character of [T]. *)
Definition slice (T : list Z) (b : list Z) (qe : nat * nat) (w : list Z) : Prop :=
  let '(q, e) := qe in
  e = (q + length w)%nat /\ is_word w = true /\ (forall i x, w !! i = Some x -> b !! (q + i)%nat = Some x) /\ exists t, b !! e = Some t /\ t ∈ T.

Fixpoint repr (T : list Z) (b : list Z) (h : list node) (p : nat) (c : cmd) : Prop :=
  match c with
  | Exec ws => exists args, h !! p = Some (EXEC args) /\ Forall2 (slice T b) args ws
  | Redir c d f => exists x q e, h !! p = Some (REDIR x q e (dir_mode d) (dir_fd d)) /\ slice T b (q, e) f /\ repr T b h x c
  | Pipe l r => exists x y, h !! p = Some (PIPE x y) /\ repr T b h x l /\ repr T b h y r
  | Lst l r => exists x y, h !! p = Some (LIST x y) /\ repr T b h x l /\ repr T b h y r
  | Back c => exists x, h !! p = Some (BACK x) /\ repr T b h x c
  end.

Lemma repr_mono T b h h' p c : h `prefix_of` h' -> repr T b h p c -> repr T b h' p c.
Proof.
  intros Hp. assert (Hl : forall i x, h !! i = Some x -> h' !! i = Some x) by (intros; by eapply prefix_lookup_Some).
  revert p. induction c; intros p; cbn [repr]; naive_solver.
Qed.

(** ** Reading *)
Section reading.
Variables (es : nat) (b junk : list Z).

(** The rest of the line is [t]. *)
Definition at_ (s : sh) (t : list Z) : Prop :=
  buf s = b /\ exists pre, b = pre ++ t ++ 0 :: junk /\ ps s = length pre /\ es = (length pre + length t)%nat.

Definition starts (cs : list Z) (t : list Z) : Prop := match t with [] => True | c :: _ => c ∈ cs end.
Definition nonws (t : list Z) : Prop := match t with [] => True | c :: _ => strchr whitespace c = false end.

Lemma at_char s t i : at_ s t -> char b (ps s + i) = default 0 ((t ++ 0 :: junk) !! i).
Proof. intros (_ & pre & -> & -> & _). unfold char. rewrite lookup_app_r by lia. do 2 f_equal. lia. Qed.
Lemma at_lookup s t i x : at_ s t -> t !! i = Some x -> b !! (ps s + i)%nat = Some x.
Proof.
  intros (_ & pre & -> & -> & _) Hx. rewrite lookup_app_r by lia.
  replace (length pre + i - length pre)%nat with i by lia. by apply lookup_app_l_Some.
Qed.
Lemma at_moved s t u : at_ s (t ++ u) -> at_ (set_ps (ps s + length t) s) u.
Proof.
  intros (Hb & pre & Eb & Hp & He). split; [done|]. exists (pre ++ t). cbn. rewrite Hp, He, !length_app, Eb, <- !app_assoc. split_and!; [done|done|lia].
Qed.
Lemma at_le s t : at_ s t -> (ps s + length t = es)%nat.
Proof. intros (_ & pre & _ & -> & ->). done. Qed.
Lemma at_heap s t h : at_ s t -> at_ (MkSh (buf s) h (ps s)) t.
Proof. done. Qed.

Lemma no_skip p n : strchr whitespace (char b p) = false -> skip_ws b p n = p.
Proof. intros H. destruct n; cbn [skip_ws]; [done|]. by rewrite H. Qed.
Lemma at_no_skip s t n : at_ s t -> nonws t -> skip_ws b (ps s) n = ps s.
Proof.
  intros Ha Hn. apply no_skip. pose proof (at_char s t 0 Ha) as Hc. rewrite Nat.add_0_r in Hc. rewrite Hc.
  destruct t; [done|exact Hn].
Qed.

(** [peek] looks at the first character. *)
Lemma peek_at toks s t : at_ s t -> nonws t ->
  peek es toks s = Ret (match t with [] => false | c :: _ => negb (c =? 0) && strchr toks c end) s.
Proof.
  intros Ha Hn. unfold peek, bind, reads, modify, ret. cbn [id]. pose proof Ha as [Hb _].
  rewrite Hb, (at_no_skip s t _ Ha Hn). pose proof (at_char s t 0 Ha) as Hc. rewrite Nat.add_0_r in Hc. rewrite Hc.
  destruct s, t; done.
Qed.

(** A token of [k] characters and the space after it. *)
Lemma skip_sp s t u : at_ s (t ++ sp :: u) -> nonws u -> skip_ws b (ps s + length t) (es - (ps s + length t)) = (ps s + length t + 1)%nat.
Proof.
  intros Ha Hn. pose proof (at_le _ _ Ha) as Hle. rewrite length_app in Hle. cbn [length] in Hle.
  destruct (es - (ps s + length t))%nat eqn:E; [lia|]. cbn [skip_ws].
  rewrite (at_char s _ _ Ha), <- app_assoc, lookup_app_r, Nat.sub_diag by lia. cbn [lookup list_lookup app from_option].
  change (strchr whitespace (default 0 (Some sp))) with true. cbn match.
  assert (Ha' : at_ (set_ps (ps s + length (t ++ [sp])) s) u) by (apply at_moved; by rewrite <- app_assoc).
  rewrite length_app in Ha'. cbn [length] in Ha'. pose proof (at_no_skip _ _ n Ha' Hn) as Hs. cbn [ps set_ps] in Hs.
  rewrite Nat.add_assoc in Hs. by replace (S (ps s + length t)) with (ps s + length t + 1)%nat by lia.
Qed.
Lemma after_token s t u : at_ s (t ++ sp :: u) -> at_ (set_ps (ps s + length t + 1) s) u.
Proof.
  intros Ha. assert (at_ (set_ps (ps s + length (t ++ [sp])) s) u) as Ha' by (apply at_moved; by rewrite <- app_assoc).
  rewrite length_app in Ha'. cbn [length] in Ha'. by rewrite Nat.add_assoc in Ha'.
Qed.

Lemma token_symbol s c u : at_ s (c :: sp :: u) -> nonws u -> c ∈ [124; 40; 41; 59; 38; 60; 62] ->
  gettoken es s = Ret (c, ps s, (ps s + 1)%nat) (set_ps (ps s + 1 + 1) s).
Proof.
  intros Ha Hn Hc. unfold gettoken, bind, reads, modify, ret. cbn [id]. pose proof Ha as [Hb _]. rewrite Hb.
  assert (Hws : nonws (c :: sp :: u)).
  { rewrite !elem_of_cons, elem_of_nil in Hc. cbn [nonws]. by destruct_or! Hc; subst. }
  rewrite (at_no_skip s _ _ Ha Hws). pose proof (at_char s _ 0 Ha) as H0. rewrite Nat.add_0_r in H0. rewrite H0.
  pose proof (at_char s _ 1 Ha) as H1. rewrite Nat.add_1_r in H1. rewrite H1. cbn [app lookup list_lookup from_option default].
  pose proof (skip_sp s [c] u Ha Hn) as Hsk. cbn [length] in Hsk. rewrite <- (Nat.add_1_r (ps s)).
  rewrite !elem_of_cons, elem_of_nil in Hc. destruct_or! Hc; subst; cbn -[skip_ws Nat.add Nat.sub]; rewrite ?Hsk; done.
Qed.
Lemma token_append s u : at_ s (62 :: 62 :: sp :: u) -> nonws u ->
  gettoken es s = Ret (c_append, ps s, (ps s + 2)%nat) (set_ps (ps s + 2 + 1) s).
Proof.
  intros Ha Hn. unfold gettoken, bind, reads, modify, ret. cbn [id]. pose proof Ha as [Hb _]. rewrite Hb.
  rewrite (at_no_skip s _ _ Ha) by done. pose proof (at_char s _ 0 Ha) as H0. rewrite Nat.add_0_r in H0. rewrite H0.
  pose proof (at_char s _ 1 Ha) as H1. rewrite Nat.add_1_r in H1. rewrite H1. cbn [app lookup list_lookup from_option default].
  pose proof (skip_sp s [62; 62] u Ha Hn) as Hsk. cbn [length] in Hsk. replace (S (S (ps s))) with (ps s + 2)%nat by lia.
  cbn -[skip_ws]. rewrite Hsk. done.
Qed.
Lemma skip_word_all w : forall p n, (length w <= n)%nat -> forallb wordchar w = true ->
  (forall i x, w !! i = Some x -> char b (p + i) = x) -> strchr whitespace (char b (p + length w)) = true ->
  skip_word b p n = (p + length w)%nat.
Proof.
  induction w as [|x w IH]; intros p n Hn Hw Hc He; cbn [length] in *.
  - rewrite Nat.add_0_r in *. destruct n; cbn [skip_word]; [done|]. by rewrite He.
  - destruct n as [|n]; [lia|]. cbn [skip_word forallb] in *. apply andb_true_iff in Hw as [Hx Hw].
    pose proof (Hc 0%nat x eq_refl) as H0. rewrite Nat.add_0_r in H0. rewrite H0.
    unfold wordchar in Hx. apply andb_true_iff in Hx as [[_ Hx1]%andb_true_iff Hx2]. rewrite Hx1, Hx2. cbn [andb].
    rewrite (IH (S p) n); [lia|lia|done| |].
    + intros i y Hy. rewrite <- (Hc (S i) y Hy). f_equal. lia.
    + rewrite <- He. do 2 f_equal. lia.
Qed.
Lemma is_word_inv w : is_word w = true -> exists x w', w = x :: w' /\ wordchar x = true /\ forallb wordchar w = true.
Proof. unfold is_word. destruct w as [|x w']; [done|]. cbn. intros H. exists x, w'. by apply andb_true_iff in H as [-> ->]. Qed.
Lemma wordchar_inv x : wordchar x = true -> x <> 0 /\ strchr whitespace x = false /\ strchr symbols x = false.
Proof. unfold wordchar. rewrite !andb_true_iff, !negb_true_iff, Z.eqb_neq. tauto. Qed.

Lemma token_word s w u : at_ s (w ++ sp :: u) -> nonws u -> is_word w = true ->
  gettoken es s = Ret (c_word, ps s, (ps s + length w)%nat) (set_ps (ps s + length w + 1) s).
Proof.
  intros Ha Hn Hw. destruct (is_word_inv w Hw) as (x & w' & E & Hx & Hall). destruct (wordchar_inv x Hx) as (Hx0 & Hxw & Hxs).
  unfold gettoken, bind, reads, modify, ret. cbn [id]. pose proof Ha as [Hb _]. rewrite Hb.
  rewrite (at_no_skip s _ _ Ha) by (by rewrite E). pose proof (at_char s _ 0 Ha) as H0. rewrite Nat.add_0_r in H0.
  rewrite H0, E. cbn [app lookup list_lookup from_option default id]. rewrite (proj2 (Z.eqb_neq x 0) Hx0).
  unfold strchr, symbols in Hxs. cbn [existsb] in Hxs. rewrite !orb_false_iff in Hxs. destruct Hxs as (E1 & E2 & E3 & E4 & E5 & E6 & E7 & _).
  unfold strchr at 1. cbn [existsb]. rewrite E1, E2, E3, E4, E5, E6, E7. cbn [orb]. rewrite <- E.
  assert (Hsk : skip_word b (ps s) (es - ps s) = (ps s + length w)%nat).
  { apply skip_word_all; [|done| |].
    - pose proof (at_le _ _ Ha) as Hle. rewrite length_app in Hle. lia.
    - intros i y Hy. rewrite (at_char s _ _ Ha), <- app_assoc, lookup_app_l by (by eapply lookup_lt_Some). by rewrite Hy.
    - rewrite (at_char s _ _ Ha), <- app_assoc, lookup_app_r, Nat.sub_diag by lia. done. }
  rewrite Hsk, (skip_sp s w u Ha Hn). done.
Qed.
Lemma slice_at s w u : at_ s (w ++ sp :: u) -> is_word w = true -> slice [sp; 0] b (ps s, ps s + length w)%nat w.
Proof.
  intros Ha Hw. split_and!; [done|done| |].
  - intros i x Hx. eapply at_lookup; [exact Ha|]. by apply lookup_app_l_Some.
  - exists sp. split; [|set_solver]. eapply at_lookup; [exact Ha|]. by rewrite lookup_app_r, Nat.sub_diag.
Qed.

(** ** The levels *)
Definition stops : list Z := [124; 41; 38; 59].
Definition ends : list Z := [41; 38; 59].

(** [parseexec] reads [t] and is then in its loop over redirections. *)
Definition reads_exec (t : list Z) (c : cmd) : Prop := forall f s u,
  at_ s (t ++ u) -> starts (60 :: 62 :: stops) u -> (4 * (es - ps s) + 2 <= f)%nat ->
  exists n G p s', parseexec es f s = (r <- parseredirs es n p ;; G r) s' /\ at_ s' u /\
    repr [sp; 0] b (heap s') p c /\ heap s `prefix_of` heap s' /\ (es - ps s' <= n)%nat /\
    forall r s2 u2, at_ s2 u2 -> starts stops u2 -> G r s2 = Ret r s2.
Definition reads_pipe (t : list Z) (c : cmd) : Prop := forall f s u,
  at_ s (t ++ u) -> starts ends u -> (4 * (es - ps s) + 3 <= f)%nat ->
  exists p s', parsepipe es f s = Ret p s' /\ at_ s' u /\ repr [sp; 0] b (heap s') p c /\ heap s `prefix_of` heap s'.
(** The loop of [parseline] reads [t] and goes on. *)
Definition reads_back (t : list Z) (c : cmd) : Prop := forall f s u,
  at_ s (t ++ u) -> starts ends u -> (4 * (es - ps s) + 3 <= f)%nat ->
  exists n p s', (c <- parsepipe es f ;; parseback es es c) s = parseback es n p s' /\ at_ s' u /\
    repr [sp; 0] b (heap s') p c /\ heap s `prefix_of` heap s' /\ (es - ps s' <= n)%nat.
Definition reads_line (t : list Z) (c : cmd) : Prop := forall f s u,
  at_ s (t ++ u) -> starts [41] u -> (4 * (es - ps s) + 4 <= f)%nat ->
  exists p s', parseline es f s = Ret p s' /\ at_ s' u /\ repr [sp; 0] b (heap s') p c /\ heap s `prefix_of` heap s'.

Lemma starts_nonws cs u : starts cs u -> forallb (fun c => negb (strchr whitespace c)) cs = true -> nonws u.
Proof.
  destruct u as [|c u]; [done|]. cbn. intros Hc Hf. rewrite forallb_forall in Hf. apply negb_true_iff, Hf.
  by apply list_elem_of_In.
Qed.
(** A [peek] that finds none of its characters. *)
Lemma peek_none cs toks s u : at_ s u -> starts cs u -> forallb (fun c => negb (strchr whitespace c) && negb (strchr toks c)) cs = true ->
  peek es toks s = Ret false s.
Proof.
  intros Ha Hs Hf. rewrite (peek_at toks s u Ha).
  - destruct u as [|c u]; [done|]. cbn in Hs. rewrite forallb_forall in Hf. specialize (Hf c (proj1 (list_elem_of_In _ _) Hs)).
    apply andb_true_iff in Hf as [_ ->%negb_true_iff]. by rewrite andb_false_r.
  - eapply starts_nonws; [exact Hs|]. rewrite forallb_forall in *. intros x Hx. by specialize (Hf x Hx); apply andb_true_iff in Hf as [? _].
Qed.
Lemma peek_some c toks s u : at_ s (c :: u) -> (c =? 0) = false -> strchr whitespace c = false -> strchr toks c = true -> peek es toks s = Ret true s.
Proof. intros Ha H0 Hw Ht. rewrite (peek_at toks s _ Ha) by done. by rewrite H0, Ht. Qed.

Lemma nonws_app t u : nonws t -> nonws u -> nonws (t ++ u).
Proof. by destruct t. Qed.
Lemma redirs_done n p s u : at_ s u -> starts stops u -> parseredirs es n p s = Ret p s.
Proof. intros Ha Hs. destruct n; cbn [parseredirs]; rewrite (bind_Ret _ _ _ _ _ (peek_none _ [60; 62] _ _ Ha Hs eq_refl)); done. Qed.
Lemma back_done n p s u : at_ s u -> starts [41; 59] u -> parseback es n p s = Ret p s.
Proof. intros Ha Hs. destruct n; cbn [parseback]; rewrite (bind_Ret _ _ _ _ _ (peek_none _ [38] _ _ Ha Hs eq_refl)); done. Qed.
Lemma starts_sub cs cs' u : starts cs u -> cs ⊆ cs' -> starts cs' u.
Proof. destruct u; [done|]. cbn. set_solver. Qed.
Lemma new_at n s u : at_ s u ->
  exists s', new n s = Ret (length (heap s)) s' /\ at_ s' u /\ heap s' = heap s ++ [n] /\ heap s' !! length (heap s) = Some n.
Proof.
  intros Ha. eexists. split; [done|]. split; [exact (at_heap _ _ _ Ha)|]. split; [done|]. cbn. by rewrite lookup_app_r, Nat.sub_diag.
Qed.

Lemma reads_exec_pipe t c : reads_exec t c -> reads_pipe t c.
Proof.
  intros He f s u Ha Hu Hf. destruct f as [|f]; [lia|]. cbn [parsepipe].
  assert (Hu' : starts stops u) by (eapply starts_sub; [exact Hu|unfold ends, stops; set_solver]).
  destruct (He f s u Ha) as (n & G & p & s' & E & Ha' & Hr & Hp & _ & HG); [by eapply starts_sub; [exact Hu'|set_solver]|lia|].
  exists p, s'. split_and!; [|done..].
  rewrite (bind_Ret _ _ _ p s') by (rewrite E, (bind_Ret _ _ _ _ _ (redirs_done n p s' u Ha' Hu')); eauto).
  by rewrite (bind_Ret _ _ _ _ _ (peek_none _ [124] _ _ Ha' Hu eq_refl)).
Qed.
Lemma reads_pipe_back t c : reads_pipe t c -> reads_back t c.
Proof.
  intros He f s u Ha Hu Hf. destruct (He f s u Ha Hu Hf) as (p & s' & E & Ha' & Hr & Hp).
  exists es, p, s'. split_and!; [by rewrite (bind_Ret _ _ _ _ _ E)|done..|lia].
Qed.
Lemma bind_assoc {A B C} (m : M sh A) (k : A -> M sh B) (l : B -> M sh C) s : (a <- m ;; b <- k a ;; l b) s = (b <- (a <- m ;; k a) ;; l b) s.
Proof. unfold bind. by destruct (m s). Qed.
Lemma reads_back_line t c : reads_back t c -> reads_line t c.
Proof.
  intros He f s u Ha Hu Hf. destruct f as [|f]; [lia|]. cbn [parseline].
  destruct (He f s u Ha) as (n & p & s' & E & Ha' & Hr & Hp & _); [by eapply starts_sub; [exact Hu|unfold ends; set_solver]|lia|].
  exists p, s'. split_and!; [|done..]. rewrite bind_assoc.
  rewrite (back_done n p s' u Ha') in E by (eapply starts_sub; [exact Hu|set_solver]). rewrite (bind_Ret _ _ _ _ _ E).
  by rewrite (bind_Ret _ _ _ _ _ (peek_none _ [59] _ _ Ha' Hu eq_refl)).
Qed.
Lemma reads_block t c : reads_line t c -> nonws t -> reads_exec (paren true t) c.
Proof.
  intros He Ht f s u Ha Hu Hf. unfold paren in Ha. rewrite <- !app_assoc in Ha. cbn [app] in Ha.
  pose proof (at_le _ _ Ha) as Hle. cbn [length] in Hle. destruct f as [|[|f]]; [lia..|]. cbn [parseexec parseblock].
  do 2 rewrite (bind_Ret _ _ _ _ _ (peek_some 40 [40] s _ Ha eq_refl eq_refl eq_refl)). cbn [negb].
  assert (Hn : nonws (t ++ [41; sp] ++ u)) by (by apply nonws_app).
  rewrite (bind_Ret _ _ _ _ _ (token_symbol s 40 _ Ha Hn ltac:(set_solver))). pose proof (after_token s [40] _ Ha) as Ha1.
  destruct (He f _ _ Ha1) as (p & s' & E & Ha' & Hr & Hp); [cbn; set_solver|cbn [ps set_ps length] in *; lia|].
  rewrite (bind_Ret _ _ _ _ _ E), (bind_Ret _ _ _ _ _ (peek_some 41 [41] s' _ Ha' eq_refl eq_refl eq_refl)). cbn [negb].
  assert (Hnu : nonws u) by (by eapply starts_nonws; [exact Hu|]).
  rewrite (bind_Ret _ _ _ _ _ (token_symbol s' 41 _ Ha' Hnu ltac:(set_solver))).
  exists es, ret, p, (set_ps (ps s' + 1 + 1) s'). split_and!; [|exact (after_token s' [41] _ Ha')|done|done|lia|done].
  unfold bind, ret. by destruct (parseredirs es es p _).
Qed.

Lemma token_end s : at_ s [] -> gettoken es s = Ret (0, ps s, ps s) s.
Proof.
  intros Ha. unfold gettoken, bind, reads, modify, ret. cbn [id]. pose proof Ha as [Hb _]. rewrite Hb, (at_no_skip s [] _ Ha) by done.
  pose proof (at_char s _ 0 Ha) as H0. rewrite Nat.add_0_r in H0. rewrite H0. cbn -[skip_ws]. rewrite (at_no_skip s [] _ Ha) by done. by destruct s.
Qed.
Lemma args_stop k cmd argc r s u : at_ s u -> starts stops u -> (0 < k)%nat -> parseargs es k cmd argc r s = Ret r s.
Proof.
  intros Ha Hs Hk. destruct k as [|k]; [lia|]. cbn [parseargs]. rewrite (bind_Ret _ _ _ _ _ (peek_at [124; 41; 38; 59] s u Ha ltac:(by eapply starts_nonws; [exact Hs|]))).
  destruct u as [|c u]; [by rewrite (bind_Ret _ _ _ _ _ (token_end s Ha))|].
  cbn [starts] in Hs. unfold stops in Hs. rewrite !elem_of_cons, elem_of_nil in Hs. by destruct_or! Hs; subst.
Qed.
(** A word is not a character the loops look for. *)
Lemma peek_word toks s w u : at_ s (w ++ u) -> is_word w = true -> forallb (fun c => strchr symbols c) toks = true -> peek es toks s = Ret false s.
Proof.
  intros Ha Hw Ht. destruct (is_word_inv w Hw) as (x & w' & -> & Hx & _). destruct (wordchar_inv x Hx) as (_ & Hxw & Hxs).
  rewrite (peek_at toks s _ Ha) by done. cbn [app]. destruct (strchr toks x) eqn:E; [|by rewrite andb_false_r].
  exfalso. unfold strchr in E. apply existsb_exists in E as (y & Hy & ->%Z.eqb_eq). rewrite forallb_forall in Ht. specialize (Ht y Hy). congruence.
Qed.

Definition words (ws : list (list Z)) : list Z := concat (map (fun w => w ++ [sp]) ws).
Lemma words_nonws ws : forallb is_word ws = true -> nonws (words ws).
Proof.
  destruct ws as [|w ws]; [done|]. cbn. intros [Hw _]%andb_true_iff. destruct (is_word_inv w Hw) as (x & w' & -> & Hx & _).
  by destruct (wordchar_inv x Hx) as (_ & ? & _).
Qed.
(** The loop of [parseexec] on words; the command it fills in is the last one made. *)
Lemma words_loop ws : forall n k s h args u,
  at_ s (words ws ++ u) -> heap s = h ++ [EXEC args] -> (length args + length ws < MAXARGS)%nat -> forallb is_word ws = true ->
  nonws u -> (es - ps s <= n)%nat -> (es - ps s < k)%nat ->
  exists n' k' args' s',
    (r <- parseredirs es n (length h) ;; parseargs es k (length h) (length args) r) s
    = (r <- parseredirs es n' (length h) ;; parseargs es k' (length h) (length args + length args') r) s' /\
    at_ s' u /\ heap s' = h ++ [EXEC (args ++ args')] /\ Forall2 (slice [sp; 0] b) args' ws /\ (es - ps s' <= n')%nat /\ (0 < k')%nat.
Proof.
  induction ws as [|w ws IH]; intros n k s h args u Ha Hh Hl Hw Hu Hn Hk.
  { exists n, k, [], s. rewrite app_nil_r, Nat.add_0_r. split_and!; try done. lia. }
  cbn [words map concat] in Ha. fold (words ws) in Ha. rewrite <- !app_assoc in Ha. cbn [app] in Ha.
  cbn [forallb length] in Hw, Hl. apply andb_true_iff in Hw as [Hw Hws].
  assert (Hnw : nonws (words ws ++ u)) by (by apply nonws_app; [apply words_nonws|]).
  pose proof (after_token s w _ Ha) as Ha1. pose proof (at_le _ _ Ha) as Hle. rewrite length_app in Hle. cbn [length] in Hle.
  set (s1 := MkSh (buf s) (h ++ [EXEC (args ++ [(ps s, ps s + length w)%nat])]) (ps s + length w + 1)).
  destruct k as [|k]; [lia|].
  assert (E : (r <- parseredirs es n (length h) ;; parseargs es (S k) (length h) (length args) r) s
    = (r <- parseredirs es es (length h) ;; parseargs es k (length h) (length (args ++ [(ps s, ps s + length w)%nat])) r) s1).
  { assert (parseredirs es n (length h) s = Ret (length h) s) as Er
      by (destruct n; cbn [parseredirs]; rewrite (bind_Ret _ _ _ _ _ (peek_word [60; 62] s w _ Ha Hw eq_refl)); done).
    rewrite (bind_Ret _ _ _ _ _ Er). cbn [parseargs]. rewrite (bind_Ret _ _ _ _ _ (peek_word [124; 41; 38; 59] s w _ Ha Hw eq_refl)).
    rewrite (bind_Ret _ _ _ _ _ (token_word s w _ Ha Hnw Hw)). change (c_word =? 0) with false. change (negb (c_word =? c_word)) with false. cbn match.
    assert (add_arg (length h) (ps s) (ps s + length w) (set_ps (ps s + length w + 1) s) = Ret tt s1) as Ea.
    { unfold add_arg, modify, s1. cbn [buf heap ps set_ps]. rewrite Hh, alter_app_r_alt, Nat.sub_diag by lia. done. }
    rewrite (bind_Ret _ _ _ _ _ Ea). destruct (Nat.leb_spec MAXARGS (S (length args))); [lia|]. rewrite length_app. by rewrite Nat.add_1_r. }
  destruct (IH es k s1 h (args ++ [(ps s, ps s + length w)%nat]) u) as (n' & k' & args' & s' & E' & Ha' & Hh' & Hs' & Hn' & Hk');
    [exact (at_heap _ _ _ Ha1)|done|rewrite length_app; cbn [length]; lia|done|done|lia|unfold s1; cbn [ps]; lia|].
  exists n', k', ((ps s, ps s + length w)%nat :: args'), s'. rewrite E, E', length_app, <- Nat.add_assoc, <- app_assoc in *. cbn [length Nat.add app] in *.
  split_and!; try done. constructor; [|done]. by eapply slice_at.
Qed.
Lemma reads_words ws : forallb is_word ws = true -> (length ws < MAXARGS)%nat -> reads_exec (words ws) (Exec ws).
Proof.
  intros Hw Hl f s u Ha Hu Hf. destruct f as [|f]; [lia|]. cbn [parseexec].
  assert (Hnu : nonws u) by (by eapply starts_nonws; [exact Hu|]).
  assert (peek es [40] s = Ret false s) as Ep.
  { destruct ws as [|w ws]; [by eapply peek_none; [exact Ha|exact Hu|]|]. cbn [forallb] in Hw. apply andb_true_iff in Hw as [Hw _].
    unfold words in Ha. cbn [map concat] in Ha. rewrite <- !app_assoc in Ha. by eapply peek_word; [exact Ha|..]. }
  rewrite (bind_Ret _ _ _ _ _ Ep). destruct (new_at (EXEC []) s _ Ha) as (s1 & E1 & Ha1 & Hh1 & _). unfold execcmd. rewrite (bind_Ret _ _ _ _ _ E1).
  destruct (words_loop ws es (S es) s1 (heap s) [] u Ha1 Hh1 Hl Hw Hnu) as (n & k & args & s' & E & Ha' & Hh' & Hs' & Hn & Hk); [lia|lia|].
  eexists n, _, (length (heap s)), s'. split_and!; [exact E|done| |rewrite Hh'; by apply prefix_app_r|done|intros; by eapply args_stop].
  exists args. rewrite Hh', lookup_app_r, Nat.sub_diag by lia. done.
Qed.

(** One turn of [parseredirs]. *)
Lemma redir_turn n p d w s u : at_ s (arrow d ++ [sp] ++ w ++ [sp] ++ u) -> is_word w = true -> nonws u -> (es - ps s <= S n)%nat ->
  exists s' q e, parseredirs es (S n) p s = parseredirs es n (length (heap s)) s' /\ at_ s' u /\
    heap s' = heap s ++ [REDIR p q e (dir_mode d) (dir_fd d)] /\ slice [sp; 0] b (q, e) w /\ (es - ps s' <= n)%nat.
Proof.
  intros Ha Hw Hu Hn. cbn [parseredirs].
  rewrite (bind_Ret _ _ _ true s) by (destruct d; exact (peek_some _ [60; 62] s _ Ha eq_refl eq_refl eq_refl)). cbn [negb].
  assert (Hnw : nonws (w ++ [sp] ++ u)).
  { destruct (is_word_inv w Hw) as (x & w' & -> & Hx & _). by destruct (wordchar_inv x Hx) as (_ & ? & _). }
  set (tok := match d with In => 60 | Out => 62 | App => c_append end).
  set (s1 := set_ps (ps s + length (arrow d) + 1) s).
  assert (gettoken es s = Ret (tok, ps s, (ps s + length (arrow d))%nat) s1) as Et.
  { destruct d; [apply (token_symbol s 60 _ Ha Hnw); set_solver|apply (token_symbol s 62 _ Ha Hnw); set_solver|exact (token_append s _ Ha Hnw)]. }
  pose proof (after_token s (arrow d) _ Ha) as Ha1. fold s1 in Ha1. pose proof (after_token s1 w _ Ha1) as Ha2.
  rewrite (bind_Ret _ _ _ _ _ Et), (bind_Ret _ _ _ _ _ (token_word s1 w _ Ha1 Hu Hw)). change (negb (c_word =? c_word)) with false. cbn match.
  destruct (new_at (REDIR p (ps s1) (ps s1 + length w) (dir_mode d) (dir_fd d)) _ _ Ha2) as (s3 & E3 & Ha3 & Hh3 & _).
  exists s3, (ps s1), (ps s1 + length w)%nat. cbn [heap set_ps] in E3, Hh3. unfold s1 in E3, Hh3. cbn [heap set_ps] in E3, Hh3.
  split_and!; [|done|done|by eapply slice_at|].
  - destruct d; cbn -[parseredirs new s1]; unfold redircmd; by rewrite (bind_Ret _ _ _ _ _ E3).
  - pose proof (at_le _ _ Ha3) as H3. pose proof (at_le _ _ Ha) as H0. rewrite !length_app in H0. cbn [length] in H0. lia.
Qed.
Lemma reads_redir t c d w : reads_exec t c -> is_word w = true -> reads_exec (t ++ arrow d ++ [sp] ++ w ++ [sp]) (Redir c d w).
Proof.
  intros He Hw f s u Ha Hu Hf. rewrite <- !app_assoc in Ha.
  destruct (He f s _ Ha) as (n & G & p & s1 & E & Ha1 & Hr & Hp & Hn & HG); [destruct d; cbn; set_solver|lia|].
  pose proof (at_le _ _ Ha1) as Hle. rewrite !length_app in Hle. cbn [length] in Hle. destruct n as [|n]; [lia|].
  destruct (redir_turn n p d w s1 u Ha1 Hw) as (s' & q & e & E' & Ha' & Hh' & Hs' & Hn'); [by eapply starts_nonws; [exact Hu|]|done|].
  exists n, G, (length (heap s1)), s'. split_and!; [|done| | |done|done].
  - rewrite E. unfold bind. by rewrite E'.
  - exists p, q, e. rewrite Hh', lookup_app_r, Nat.sub_diag by lia. split_and!; [done|done|]. eapply repr_mono; [|exact Hr]. by apply prefix_app_r.
  - rewrite Hh'. by apply prefix_app_r.
Qed.

Lemma reads_pipes t1 t2 l r : reads_exec t1 l -> reads_pipe t2 r -> nonws t2 -> reads_pipe (t1 ++ [124; sp] ++ t2) (Pipe l r).
Proof.
  intros Hl Hr Ht f s u Ha Hu Hf. rewrite <- !app_assoc in Ha. destruct f as [|f]; [lia|]. cbn [parsepipe].
  assert (Hs : starts stops ([124; sp] ++ t2 ++ u)) by (cbn; unfold stops; set_solver).
  destruct (Hl f s _ Ha) as (n & G & p & s1 & E & Ha1 & Hr1 & Hp1 & _ & HG); [by eapply starts_sub; [exact Hs|set_solver]|lia|].
  rewrite (bind_Ret _ _ _ p s1) by (rewrite E, (bind_Ret _ _ _ _ _ (redirs_done n p s1 _ Ha1 Hs)); eauto).
  rewrite (bind_Ret _ _ _ _ _ (peek_some 124 [124] s1 _ Ha1 eq_refl eq_refl eq_refl)).
  assert (Hn : nonws (t2 ++ u)) by (apply nonws_app; [done|by eapply starts_nonws; [exact Hu|]]).
  rewrite (bind_Ret _ _ _ _ _ (token_symbol s1 124 _ Ha1 Hn ltac:(set_solver))). pose proof (after_token s1 [124] _ Ha1) as Ha2.
  pose proof (at_le _ _ Ha1) as L1. pose proof (at_le _ _ Ha) as L0. rewrite !length_app in L1. do 3 rewrite length_app in L0. cbn [length] in L0, L1.
  destruct (Hr f _ _ Ha2 Hu) as (p' & s3 & E3 & Ha3 & Hr3 & Hp3); [cbn [ps set_ps length] in *; lia|].
  rewrite (bind_Ret _ _ _ _ _ E3). destruct (new_at (PIPE p p') s3 _ Ha3) as (s4 & E4 & Ha4 & Hh4 & Hl4).
  assert (heap s3 `prefix_of` heap s4) by (rewrite Hh4; by apply prefix_app_r). cbn [heap set_ps] in Hp3.
  eexists _, s4. split_and!; [exact E4|done| |by do 2 (etrans; [eassumption|])].
  exists p, p'. split_and!; [done| |]; (eapply repr_mono; [|eassumption]); [by etrans|done].
Qed.
Lemma reads_bg t c : reads_back t c -> reads_back (t ++ [38; sp]) (Back c).
Proof.
  intros He f s u Ha Hu Hf. rewrite <- !app_assoc in Ha.
  destruct (He f s _ Ha) as (n & p & s1 & E & Ha1 & Hr1 & Hp1 & Hn1); [cbn; unfold ends; set_solver|lia|].
  pose proof (at_le _ _ Ha1) as Hle. cbn [length app] in Hle. destruct n as [|n]; [lia|]. cbn [parseback] in E.
  rewrite (bind_Ret _ _ _ _ _ (peek_some 38 [38] s1 _ Ha1 eq_refl eq_refl eq_refl)) in E. cbn [negb] in E.
  rewrite (bind_Ret _ _ _ _ _ (token_symbol s1 38 _ Ha1 ltac:(by eapply starts_nonws; [exact Hu|]) ltac:(set_solver))) in E.
  pose proof (after_token s1 [38] _ Ha1) as Ha2. destruct (new_at (BACK p) _ _ Ha2) as (s3 & E3 & Ha3 & Hh3 & Hl3).
  unfold backcmd in E. rewrite (bind_Ret _ _ _ _ _ E3) in E. cbn [heap set_ps] in *.
  eexists n, _, s3. split_and!; [exact E|done| | |pose proof (at_le _ _ Ha3); lia].
  - exists p. split; [done|]. eapply repr_mono; [|exact Hr1]. rewrite Hh3. by apply prefix_app_r.
  - etrans; [exact Hp1|]. rewrite Hh3. by apply prefix_app_r.
Qed.
Lemma reads_list t1 t2 l r : reads_back t1 l -> reads_line t2 r -> nonws t2 -> reads_line (t1 ++ [59; sp] ++ t2) (Lst l r).
Proof.
  intros Hl Hr Ht f s u Ha Hu Hf. rewrite <- !app_assoc in Ha. destruct f as [|f]; [lia|]. cbn [parseline].
  destruct (Hl f s _ Ha) as (n & p & s1 & E & Ha1 & Hr1 & Hp1 & Hn1); [cbn; unfold ends; set_solver|lia|].
  rewrite bind_assoc. rewrite (back_done n p s1 _ Ha1) in E by (cbn; set_solver). rewrite (bind_Ret _ _ _ _ _ E).
  rewrite (bind_Ret _ _ _ _ _ (peek_some 59 [59] s1 _ Ha1 eq_refl eq_refl eq_refl)).
  assert (Hn : nonws (t2 ++ u)) by (apply nonws_app; [done|by eapply starts_nonws; [exact Hu|]]).
  rewrite (bind_Ret _ _ _ _ _ (token_symbol s1 59 _ Ha1 Hn ltac:(set_solver))). pose proof (after_token s1 [59] _ Ha1) as Ha2.
  pose proof (at_le _ _ Ha1) as L1. pose proof (at_le _ _ Ha) as L0. rewrite !length_app in L1. do 3 rewrite length_app in L0. cbn [length] in L0, L1.
  destruct (Hr f _ _ Ha2 Hu) as (p' & s3 & E3 & Ha3 & Hr3 & Hp3); [cbn [ps set_ps length] in *; lia|].
  rewrite (bind_Ret _ _ _ _ _ E3). destruct (new_at (LIST p p') s3 _ Ha3) as (s4 & E4 & Ha4 & Hh4 & Hl4).
  assert (heap s3 `prefix_of` heap s4) by (rewrite Hh4; by apply prefix_app_r). cbn [heap set_ps] in Hp3.
  eexists _, s4. split_and!; [exact E4|done| |by do 2 (etrans; [eassumption|])].
  exists p, p'. split_and!; [done| |]; (eapply repr_mono; [|eassumption]); [by etrans|done].
Qed.

Lemma pr_nonws c lv : printable c = true -> nonws (pr lv c).
Proof.
  revert lv. induction c as [ws|c IH d w|l IHl r IHr|l IHl r IHr|c IH]; intros lv; cbn [printable pr]; intros H;
    try apply andb_true_iff in H as [H1 H2].
  - by apply words_nonws.
  - apply nonws_app; [by apply IH|by destruct d].
  - unfold paren. case_match; [done|]. by apply nonws_app; [apply IHl|].
  - unfold paren. case_match; [done|]. by apply nonws_app; [apply IHl|].
  - unfold paren. case_match; [done|]. by apply nonws_app; [apply IH|].
Qed.
(** Every level reads what is printed for it. *)
Lemma reads_pr c : printable c = true ->
  reads_exec (pr 0 c) c /\ reads_pipe (pr 1 c) c /\ reads_back (pr 2 c) c /\ reads_line (pr 3 c) c.
Proof.
  induction c as [ws|c IH d w|l IHl r IHr|l IHl r IHr|c IH]; intros H; pose proof (fun lv => pr_nonws _ lv H) as Hws; cbn [printable] in H;
    try apply andb_true_iff in H as [H1 H2].
  - assert (reads_exec (words ws) (Exec ws)) by (apply reads_words; [done|by apply Nat.ltb_lt]).
    split_and!; auto using reads_exec_pipe, reads_pipe_back, reads_back_line.
  - assert (reads_exec (pr 0 (Redir c d w)) (Redir c d w)) by (apply reads_redir; [by apply IH|done]).
    split_and!; auto using reads_exec_pipe, reads_pipe_back, reads_back_line.
  - assert (reads_pipe (pr 1 (Pipe l r)) (Pipe l r)) by (apply reads_pipes; [by apply IHl|by apply IHr|by apply pr_nonws]).
    assert (reads_line (pr 3 (Pipe l r)) (Pipe l r)) by auto using reads_pipe_back, reads_back_line.
    split_and!; auto using reads_pipe_back. by apply reads_block; [|apply (Hws 3%nat)].
  - assert (reads_line (pr 3 (Lst l r)) (Lst l r)) by (apply reads_list; [by apply IHl|by apply IHr|by apply pr_nonws]).
    assert (reads_exec (pr 0 (Lst l r)) (Lst l r)) by (by apply reads_block; [|apply (Hws 3%nat)]).
    split_and!; auto using reads_exec_pipe, reads_pipe_back.
  - assert (reads_back (pr 2 (Back c)) (Back c)) by (apply reads_bg; by apply IH).
    assert (reads_exec (pr 0 (Back c)) (Back c)) by (apply reads_block; [by apply reads_back_line|apply (Hws 2%nat)]).
    split_and!; auto using reads_exec_pipe, reads_back_line.
Qed.
End reading.

(** ** Terminating the words *)
(** Spaces become zeros. *)
Definition zap (b b' : list Z) : Prop :=
  forall i, b' !! i = b !! i \/ ((b !! i = Some sp \/ b !! i = Some 0) /\ b' !! i = Some 0).
#[local] Instance zap_preorder : PreOrder zap.
Proof.
  split; [by left|]. intros b1 b2 b3 H1 H2 i. specialize (H1 i). specialize (H2 i). destruct H1 as [H1|[? H1]], H2 as [H2|[? H2]]; rewrite ?H1, ?H2 in *; auto.
Qed.

Lemma slice_zap T b b' qe w : 0 ∈ T -> zap b b' -> slice T b qe w -> slice T b' qe w.
Proof.
  intros HT Hz. destruct qe as [q e]. intros (He & Hw & Hc & t & Ht & Hin). split_and!; [done|done| |].
  - intros i x Hx. destruct (Hz (q + i)%nat) as [->|[Hs _]]; [by apply Hc|]. exfalso. rewrite (Hc i x Hx) in Hs.
    destruct (is_word_inv w Hw) as (_ & _ & _ & _ & Hall). rewrite forallb_forall in Hall.
    assert (In' : List.In x w) by (apply list_elem_of_In; by eapply list_elem_of_lookup_2).
    destruct (wordchar_inv x (Hall x In')) as (? & Hws & _). destruct Hs as [[= ->]|[= ->]]; [|done]. discriminate Hws.
  - destruct (Hz e) as [->|[_ ->]]; eauto.
Qed.
Lemma repr_zap T b b' h p c : 0 ∈ T -> zap b b' -> repr T b h p c -> repr T b' h p c.
Proof.
  intros HT Hz. revert p. induction c as [ws|c IH d w|l IHl r IHr|l IHl r IHr|c IH]; intros p; cbn [repr].
  - intros (args & ? & Hf). exists args. split; [done|]. eapply Forall2_impl; [exact Hf|]. intros ? ?. by apply slice_zap.
  - intros (x & q & e & ? & ? & ?). exists x, q, e. eauto using slice_zap.
  - intros (x & y & ? & ? & ?). exists x, y. eauto.
  - intros (x & y & ? & ? & ?). exists x, y. eauto.
  - intros (x & ? & ?). exists x. eauto.
Qed.
Lemma zap_insert b q e w : slice [sp; 0] b (q, e) w -> zap b (<[e := 0]> b) /\ slice [0] (<[e := 0]> b) (q, e) w.
Proof.
  intros Hs. pose proof Hs as (_ & Hw & Hc & t & Ht & Hin). pose proof (lookup_lt_Some _ _ _ Ht) as Hlt.
  assert (Hz : zap b (<[e := 0]> b)).
  { intros i. destruct (decide (i = e)) as [->|]; [right|left; by rewrite list_lookup_insert_ne by done].
    rewrite list_lookup_insert_eq by done. split; [|done]. rewrite Ht. rewrite !elem_of_cons, elem_of_nil in Hin. naive_solver. }
  split; [done|]. destruct (slice_zap [sp; 0] _ _ (q, e) w ltac:(set_solver) Hz Hs) as (He & _ & Hc' & _). split_and!; try done.
  exists 0. rewrite list_lookup_insert_eq by done. split; [done|set_solver].
Qed.
Lemma terminate_words args : forall ws s, Forall2 (slice [sp; 0] (buf s)) args ws ->
  exists b', fold_right (fun a m => terminate (snd a) ;;; m) (ret tt) args s = Ret tt (set_buf b' s) /\
    zap (buf s) b' /\ Forall2 (slice [0] b') args ws.
Proof.
  induction args as [|[q e] args IH]; intros ws s; intros H; inversion H as [|? w ? ws' Hw Hws]; subst; clear H; cbn [fold_right].
  { exists (buf s). by destruct s. }
  destruct (zap_insert _ _ _ _ Hw) as [Hz Hs]. destruct (IH ws' (set_buf (<[e := 0]> (buf s)) s)) as (b' & E & Hz' & Hf).
  { cbn. eapply Forall2_impl; [exact Hws|]. intros ? ?. apply slice_zap; [set_solver|done]. }
  exists b'. split_and!; [exact E|by etrans|]. constructor; [|done]. by eapply slice_zap; [set_solver|exact Hz'|].
Qed.
Lemma nulterminate_at fuel p s n : heap s !! p = Some n ->
  nulterminate (S fuel) p s =
    match n with
    | EXEC args => fold_right (fun a m => terminate (snd a) ;;; m) (ret tt) args s
    | REDIR c _ efile _ _ => (nulterminate fuel c ;;; terminate efile) s
    | PIPE l r | LIST l r => (nulterminate fuel l ;;; nulterminate fuel r) s
    | BACK c => nulterminate fuel c s
    end.
Proof. intros Hp. cbn [nulterminate]. unfold bind at 1, reads. rewrite (list_lookup_total_correct _ _ _ Hp). by destruct n. Qed.
Lemma nulterminate_reads c : forall fuel p s, ShSpec.ordered (heap s) -> (p < fuel)%nat -> repr [sp; 0] (buf s) (heap s) p c ->
  exists b', nulterminate fuel p s = Ret tt (set_buf b' s) /\ zap (buf s) b' /\ repr [0] b' (heap s) p c.
Proof.
  induction c as [ws|c IH d w|l IHl r IHr|l IHl r IHr|c IH]; intros [|fuel] p s Ho Hf Hr; try lia; cbn [repr] in Hr.
  - destruct Hr as (args & Hp & Hs). rewrite (nulterminate_at _ _ _ _ Hp).
    destruct (terminate_words args ws s Hs) as (b' & E & Hz & Hf'). exists b'. split_and!; [done..|]. by exists args.
  - destruct Hr as (x & q & e & Hp & Hs & Hr). pose proof (Ho p _ x Hp ltac:(cbn; set_solver)).
    rewrite (nulterminate_at _ _ _ _ Hp).
    destruct (IH fuel x s Ho ltac:(lia) Hr) as (b' & E & Hz & Hr'). rewrite (bind_Ret _ _ _ _ _ E).
    destruct (zap_insert b' q e w) as [Hz' Hs']; [by eapply slice_zap; [set_solver|exact Hz|]|].
    exists (<[e := 0]> b'). split_and!; [done|by etrans|]. exists x, q, e. split_and!; [done|done|]. by eapply repr_zap; [set_solver|exact Hz'|].
  - destruct Hr as (x & y & Hp & Hl & Hr). pose proof (Ho p _ x Hp ltac:(cbn; set_solver)). pose proof (Ho p _ y Hp ltac:(cbn; set_solver)).
    rewrite (nulterminate_at _ _ _ _ Hp).
    destruct (IHl fuel x s Ho ltac:(lia) Hl) as (b' & E & Hz & Hl'). rewrite (bind_Ret _ _ _ _ _ E).
    destruct (IHr fuel y (set_buf b' s) Ho ltac:(lia)) as (b2 & E2 & Hz2 & Hr'); [by eapply repr_zap; [set_solver|exact Hz|]|].
    exists b2. split_and!; [done|by etrans|]. exists x, y. split_and!; [done| |done]. by eapply repr_zap; [set_solver|exact Hz2|].
  - destruct Hr as (x & y & Hp & Hl & Hr). pose proof (Ho p _ x Hp ltac:(cbn; set_solver)). pose proof (Ho p _ y Hp ltac:(cbn; set_solver)).
    rewrite (nulterminate_at _ _ _ _ Hp).
    destruct (IHl fuel x s Ho ltac:(lia) Hl) as (b' & E & Hz & Hl'). rewrite (bind_Ret _ _ _ _ _ E).
    destruct (IHr fuel y (set_buf b' s) Ho ltac:(lia)) as (b2 & E2 & Hz2 & Hr'); [by eapply repr_zap; [set_solver|exact Hz|]|].
    exists b2. split_and!; [done|by etrans|]. exists x, y. split_and!; [done| |done]. by eapply repr_zap; [set_solver|exact Hz2|].
  - destruct Hr as (x & Hp & Hr). pose proof (Ho p _ x Hp ltac:(cbn; set_solver)).
    rewrite (nulterminate_at _ _ _ _ Hp).
    destruct (IH fuel x s Ho ltac:(lia) Hr) as (b' & E & Hz & Hr'). exists b'. split_and!; [done..|]. by exists x.
Qed.

(** ** The round trip *)
Definition nonzero (t : list Z) : Prop := Forall (fun x => x <> 0) t.
(** What holds of the characters of words, of the blank and of the symbols. *)
Lemma pr_chars (P : Z -> Prop) c lv : (forall x, wordchar x = true -> P x) -> Forall P (sp :: symbols) -> printable c = true -> Forall P (pr lv c).
Proof.
  intros Hx Hs. apply Forall_cons in Hs as [Hsp Hsy]. rewrite Forall_forall in Hsy.
  assert (Hw : forall w, is_word w = true -> Forall P w).
  { intros w (_ & _ & _ & _ & Hall)%is_word_inv. apply Forall_forall. intros x Hi%list_elem_of_In. rewrite forallb_forall in Hall. by apply Hx, Hall. }
  assert (H1 : Forall P [sp]) by (by constructor). assert (H2 : forall x, x ∈ symbols -> Forall P [x; sp]) by (intros x Hi; constructor; [by apply Hsy|done]).
  assert (Hpar : forall b t, Forall P t -> Forall P (paren b t)).
  { intros b t Ht. unfold paren. case_match; [|done]. rewrite !Forall_app. split_and!; [apply H2; set_solver|done|apply H2; set_solver]. }
  revert lv. induction c as [ws|c IH d w|l IHl r IHr|l IHl r IHr|c IH]; intros lv; cbn [printable pr]; intros H; try apply andb_true_iff in H as [Ha Hb].
  - apply Forall_concat, Forall_map, Forall_forall. intros w Hi%list_elem_of_In. rewrite forallb_forall in Ha. apply Forall_app. split; [by apply Hw, Ha|done].
  - rewrite !Forall_app. split_and!; [by apply IH|destruct d; repeat (apply Forall_cons; split; [apply Hsy; set_solver|]); done|done|by apply Hw|done].
  - apply Hpar. rewrite !Forall_app. split_and!; [by apply IHl|apply H2; set_solver|by apply IHr].
  - apply Hpar. rewrite !Forall_app. split_and!; [by apply IHl|apply H2; set_solver|by apply IHr].
  - apply Hpar. rewrite !Forall_app. split_and!; [by apply IH|apply H2; set_solver].
Qed.
Lemma pr_nonzero c lv : printable c = true -> nonzero (pr lv c).
Proof. apply pr_chars; [by intros x (? & _)%wordchar_inv|by repeat (apply Forall_cons; split)]. Qed.
Lemma strlen_text t junk : nonzero t -> strlen (t ++ 0 :: junk) = length t.
Proof. induction 1 as [|x t Hx _ IH]; [done|]. cbn [app strlen length]. by rewrite (proj2 (Z.eqb_neq x 0) Hx), IH. Qed.

Lemma parsecmd_struct c junk : printable c = true ->
  exists p s, parsecmd (MkSh (pr 3 c ++ 0 :: junk) [] 0) = Ret p s /\ repr [0] (buf s) (heap s) p c /\ ShSpec.ordered (heap s) /\ (p < length (heap s))%nat.
Proof.
  intros Hc. set (b := pr 3 c ++ 0 :: junk). set (es := length (pr 3 c)).
  assert (Es : strlen b = es) by (apply strlen_text, pr_nonzero, Hc).
  assert (Ha : at_ es b junk (MkSh b [] 0) (pr 3 c ++ [])).
  { rewrite app_nil_r. split; [done|]. by exists []. }
  destruct (reads_pr es b junk c Hc) as (_ & _ & _ & Hl).
  destruct (Hl (parse_fuel es) _ [] Ha I ltac:(unfold parse_fuel; cbn; lia)) as (p & s & E & Ha' & Hr & _).
  assert (Hm : ShSpec.made 0 (MkSh b [] 0)) by (split; [by intros ? ? ? ?|cbn; lia]).
  destruct (proj1 (ShSpec.makes_parse es (parse_fuel es) 0) _ _ _ Hm E) as [_ [Ho Hp]].
  pose proof Ha' as [Hb _]. rewrite <- Hb in Hr. destruct (nulterminate_reads c (length (heap s)) p s Ho ltac:(lia) Hr) as (b' & E' & _ & Hr').
  exists p, (set_buf b' s). split; [|split; [exact Hr'|split; [done|cbn; lia]]]. unfold parsecmd. rewrite (bind_Ret (reads buf) _ (MkSh b [] 0) b (MkSh b [] 0) eq_refl), Es.
  rewrite (bind_Ret (modify (set_ps 0)) _ (MkSh b [] 0) tt (MkSh b [] 0) eq_refl), (bind_Ret _ _ _ _ _ E).
  rewrite (bind_Ret _ _ _ _ _ (peek_at es b junk [] s [] Ha' I)), (bind_Ret (reads ps) _ s es s).
  - rewrite Nat.eqb_refl. cbn [negb]. rewrite (bind_Ret (reads heap) _ s (heap s) s eq_refl), (bind_Ret _ _ _ _ _ E'). done.
  - pose proof (at_le _ _ _ _ _ Ha') as Hle. cbn [length] in Hle. unfold reads. f_equal. lia.
Qed.
(** C21: the parser reads back what [pr] prints: from the text of a command, [parsecmd] makes
    that command, with every word a terminated string in the buffer, whatever follows the
    line in the buffer. *)
Theorem parsecmd_reads c junk : printable c = true ->
  exists p s, parsecmd (MkSh (pr 3 c ++ 0 :: junk) [] 0) = Ret p s /\ repr [0] (buf s) (heap s) p c.
Proof. intros Hc. destruct (parsecmd_struct c junk Hc) as (p & s & E & Hr & _). by exists p, s. Qed.

(** [( a & ) | b x < f >> g ; c &] *)
Definition sample : cmd :=
  Lst (Pipe (Back (Exec [[97]])) (Redir (Redir (Exec [[98]; [120]]) In [102; 102]) App [103])) (Back (Exec [[99]])).
Lemma parsecmd_reads_witness :
  printable sample = true /\ exists p s, parsecmd (MkSh (pr 3 sample ++ 0 :: [7; 7]) [] 0) = Ret p s /\ repr [0] (buf s) (heap s) p sample.
Proof. split; [reflexivity|]. apply (parsecmd_reads sample [7; 7]). reflexivity. Defined.
End ShPrint.
