(* ===== verification/ShLine.v ===== *)
(** The parser and the blanks of a line.

    The parser does not tell one blank from another: on two buffers that differ in blanks only
    it makes the same structures.  So a command followed by a newline, as [gets] leaves it in
    the buffer, is read as the command that [ShPrint.pr] prints. *)

From S2P Require Import Prelude Params Bytes Sysfile Sh ShPrint.

Module ShLine.
Import Sh ShPrint.

Definition ws (x : Z) : bool := strchr whitespace x.
Definition same_char (x y : Z) : Prop := x = y \/ (ws x = true /\ ws y = true).
Definition sim (b b' : list Z) : Prop := Forall2 same_char b b'.
Record like (s s' : sh) : Prop := MkLike { li_buf : sim (buf s) (buf s'); li_heap : heap s = heap s'; li_ps : ps s = ps s' }.
Definition blind {A} (m : M sh A) : Prop := forall s s', like s s' ->
  match m s, m s' with
  | Ret a t, Ret a' t' => a = a' /\ like t t'
  | Panic _, Panic _ => True
  | _, _ => False
  end.

Lemma sim_char b b' p : sim b b' -> same_char (char b p) (char b' p).
Proof.
  intros Hs. unfold char. destruct (b !! p) as [x|] eqn:E.
  - destruct (Forall2_lookup_l _ _ _ _ _ Hs E) as (y & -> & H). done.
  - apply lookup_ge_None in E. rewrite (Forall2_length _ _ _ Hs) in E. rewrite lookup_ge_None_2 by done. by left.
Qed.
(** A test that is false of all blanks. *)
Lemma same_test (f : Z -> bool) x y : same_char x y -> (forall z, ws z = true -> f z = false) -> f x = f y.
Proof. intros [-> |[Hx Hy]] Hf; [done|]. by rewrite !Hf. Qed.
Lemma ws_inv z : ws z = true -> z ∈ whitespace.
Proof. unfold ws, strchr. rewrite existsb_exists. intros (y & Hy & ->%Z.eqb_eq). by apply list_elem_of_In. Qed.
Ltac blanks := intros z Hz%ws_inv; unfold whitespace in Hz; rewrite !elem_of_cons, elem_of_nil in Hz; by destruct_or! Hz; subst.
Lemma same_ws x y : same_char x y -> ws x = ws y.
Proof. intros [-> |[-> ->]]; done. Qed.
Lemma skip_ws_sim b b' n : sim b b' -> forall p, skip_ws b p n = skip_ws b' p n.
Proof. intros Hs. induction n as [|n IH]; intros p; [done|]. cbn [skip_ws]. pose proof (same_ws _ _ (sim_char b b' p Hs)) as E. unfold ws in E. rewrite E. by case_match. Qed.
Lemma same_symbols x y : same_char x y -> strchr symbols x = strchr symbols y.
Proof. intros H. apply same_test; [done|]. blanks. Qed.
Lemma skip_word_sim b b' n : sim b b' -> forall p, skip_word b p n = skip_word b' p n.
Proof.
  intros Hs. induction n as [|n IH]; intros p; [done|]. cbn [skip_word]. pose proof (same_ws _ _ (sim_char b b' p Hs)) as E. unfold ws in E. rewrite E, (same_symbols _ _ (sim_char b b' p Hs)). by case_match.
Qed.

Lemma blind_ret {A} (a : A) : blind (ret a).
Proof. by intros s s' H. Qed.
Lemma blind_panic {A} msg : blind (panic (A := A) msg).
Proof. by intros s s' H. Qed.
Lemma blind_bind {A B} (m : M sh A) (k : A -> M sh B) : blind m -> (forall a, blind (k a)) -> blind (bind m k).
Proof. intros Hm Hk s s' H. unfold bind. specialize (Hm s s' H). destruct (m s), (m s'); try done. destruct Hm as [<- Ht]. by apply Hk. Qed.
Lemma blind_new n : blind (new n).
Proof. intros s s' [H1 H2 H3]. cbn. rewrite H2. split; [done|]. split; cbn; congruence || done. Qed.
Lemma blind_add_arg c q e : blind (add_arg c q e).
Proof. intros s s' [H1 H2 H3]. cbn. split; [done|]. split; cbn; congruence || done. Qed.
Lemma blind_peek es toks : forallb (fun c => negb (ws c)) toks = true -> blind (peek es toks).
Proof.
  intros Ht s s' [H1 H2 H3]. unfold peek, bind, reads, modify, ret. cbn [id]. rewrite H3, (skip_ws_sim _ _ _ H1). split; [|by split].
  set (p := skip_ws _ _ _). rewrite (same_test (fun c => negb (c =? 0) && strchr toks c) _ _ (sim_char _ _ p H1)); [done|].
  intros z Hz. destruct (strchr toks z) eqn:E; [|by rewrite andb_false_r]. exfalso. unfold strchr in E. apply existsb_exists in E as (y & Hy & ->%Z.eqb_eq).
  rewrite forallb_forall in Ht. specialize (Ht y Hy). by rewrite Hz in Ht.
Qed.
Lemma blind_gettoken es : blind (gettoken es).
Proof.
  intros s s' [H1 H2 H3]. unfold gettoken, bind, reads, modify, ret. cbn [id]. rewrite H3, (skip_ws_sim _ _ _ H1). set (p := skip_ws _ _ _). pose proof (sim_char _ _ p H1) as Hc.
  rewrite (same_test (fun c => c =? 0) _ _ Hc) by blanks. rewrite (same_test (strchr [124; 40; 41; 59; 38; 60]) _ _ Hc) by blanks. rewrite (same_test (fun c => c =? 62) _ _ Hc) by blanks.
  rewrite (same_test (fun c => c =? 62) _ _ (sim_char _ _ (S p) H1)) by blanks. rewrite (skip_word_sim _ _ _ H1).
  assert (Ht : char (buf s') p =? 0 = true \/ strchr [124; 40; 41; 59; 38; 60] (char (buf s') p) = true \/ char (buf s') p =? 62 = true -> char (buf s) p = char (buf s') p).
  { intros H. destruct Hc as [-> |[_ Hy%ws_inv]]; [done|]. exfalso. unfold whitespace in Hy. rewrite !elem_of_cons, elem_of_nil in Hy. destruct_or! Hy; rewrite Hy in H; by destruct_or! H. }
  destruct (char (buf s') p =? 0); [|destruct (strchr _ _); [|destruct (char (buf s') p =? 62); [destruct (char (buf s') (S p) =? 62)|]]]; rewrite ?Ht by auto; rewrite (skip_ws_sim _ _ _ H1); (split; [done|by split]).
Qed.
Create HintDb blind discriminated.
#[export] Hint Resolve blind_ret blind_panic blind_new blind_add_arg blind_gettoken : blind.
Ltac blinds := repeat first [assumption | solve [auto with blind] | lazymatch goal with |- blind (peek _ _) => by apply blind_peek end | apply blind_bind; [|intros ?] | case_match].
Lemma blind_redirs es fuel : forall c, blind (parseredirs es fuel c).
Proof. induction fuel as [|fuel IH]; intros c; cbn [parseredirs]; blinds; by apply IH || apply blind_new. Qed.
#[export] Hint Resolve blind_redirs : blind.
Lemma blind_args es fuel : forall c argc r, blind (parseargs es fuel c argc r).
Proof. induction fuel as [|fuel IH]; intros c argc r; cbn [parseargs]; blinds; by apply IH. Qed.
#[export] Hint Resolve blind_args : blind.
Lemma blind_back es fuel : forall c, blind (parseback es fuel c).
Proof. induction fuel as [|fuel IH]; intros c; cbn [parseback]; blinds; by apply IH || apply blind_new. Qed.
#[export] Hint Resolve blind_back : blind.
Lemma blind_parse es fuel : blind (parseline es fuel) /\ blind (parsepipe es fuel) /\ blind (parseexec es fuel) /\ blind (parseblock es fuel).
Proof.
  induction fuel as [|fuel (IHl & IHp & IHe & IHb)]; [split_and!; apply blind_panic|]. split_and!; cbn [parseline parsepipe parseexec parseblock]; unfold listcmd, pipecmd, execcmd; blinds.
Qed.
Lemma blind_terminate p : blind (terminate p).
Proof. intros s s' [H1 H2 H3]. cbn. split; [done|]. split; cbn; [|done|done]. apply Forall2_insert; [done|by left]. Qed.
#[export] Hint Resolve blind_terminate : blind.
Lemma blind_nulterminate fuel : forall c, blind (nulterminate fuel c).
Proof.
  induction fuel as [|fuel IH]; intros c; [apply blind_panic|]. cbn [nulterminate]. apply blind_bind; [intros s s' H; cbn; by rewrite (li_heap _ _ H)|]. intros [args| | | |]; blinds; try by apply IH.
  induction args as [|x args IHa]; cbn [fold_right]; blinds.
Qed.
Lemma strlen_sim b b' : sim b b' -> strlen b = strlen b'.
Proof. induction 1 as [|x y b b' Hx _ IH]; [done|]. cbn [strlen]. rewrite (same_test (fun c => c =? 0) x y Hx) by blanks. case_match; [done|]. by rewrite IH. Qed.
(** The parser up to its last test. *)
Definition scan (es : nat) : M sh (nat * nat) := modify (set_ps 0) ;;; cmd <- parseline es (parse_fuel es) ;; peek es [] ;;; s <- reads ps ;; ret (cmd, s).
Lemma scan_bind {A} es (K : nat -> nat -> M sh A) st :
  (modify (set_ps 0) ;;; cmd <- parseline es (parse_fuel es) ;; peek es [] ;;; s <- reads ps ;; K cmd s) st = (r <- scan es ;; K (fst r) (snd r)) st.
Proof. unfold scan, bind, reads, modify, ret. destruct (parseline _ _ _); [|done..]. by destruct (peek _ _ _). Qed.
Lemma blind_scan es : blind (scan es).
Proof.
  apply blind_bind; [by intros s s' [H1 H2 H3]|]. intros []. apply blind_bind; [apply blind_parse|]. intros c. apply blind_bind; [by apply blind_peek|]. intros t.
  apply blind_bind; [|intros q; apply blind_ret]. intros s s' H. cbn. by rewrite (li_ps _ _ H).
Qed.
Lemma parsecmd_sim b b' c s : sim b b' -> parsecmd (MkSh b [] 0) = Ret c s -> exists s', parsecmd (MkSh b' [] 0) = Ret c s' /\ like s s'.
Proof.
  intros Hb. unfold parsecmd. rewrite !bind_reads. cbn [buf]. rewrite <- (strlen_sim b b' Hb). set (es := strlen b). rewrite !scan_bind.
  pose proof (blind_scan es (MkSh b [] 0) (MkSh b' [] 0) ltac:(by split)) as H. destruct (scan es (MkSh b [] 0)) as [[c1 s1] t| |] eqn:E1; [|by unfold bind at 1; rewrite E1|by unfold bind at 1; rewrite E1].
  destruct (scan es (MkSh b' [] 0)) as [[c1' s1'] t'| |] eqn:E2; [|done..]. destruct H as [[= <- <-] H]. rewrite (bind_Ret _ _ _ _ _ E1), (bind_Ret _ _ _ _ _ E2). cbn [fst snd].
  destruct (negb _); [done|]. rewrite !bind_reads, <- (li_heap _ _ H).
  pose proof (blind_bind _ _ (blind_nulterminate (length (heap t)) c1) (fun _ => blind_ret c1) t t' H) as H'. intros E. rewrite E in H'. destruct (bind _ _ t') as [c' s'| |] eqn:E'; try done. destruct H' as [<- H']. by exists s'.
Qed.

(** Words are the same in both buffers. *)
Lemma slice_sim b b' qe x : sim b b' -> slice [0] b qe x -> slice [0] b' qe x.
Proof.
  destruct qe as [q e]. intros Hs (-> & Hw & Hb & (t & Ht & ->%list_elem_of_singleton)). split; [done|]. split; [done|]. split.
  - intros i y Hy. destruct (Forall2_lookup_l _ _ _ _ _ Hs (Hb i y Hy)) as (z & Hz & [-> |[H _]]); [done|]. exfalso.
    apply is_word_inv in Hw as (_ & _ & _ & _ & Hall). rewrite forallb_forall in Hall. specialize (Hall y). apply list_elem_of_lookup_2 in Hy. apply list_elem_of_In in Hy.
    apply Hall, wordchar_inv in Hy as (_ & Hy & _). unfold ws in H. congruence.
  - destruct (Forall2_lookup_l _ _ _ _ _ Hs Ht) as (z & Hz & [<- |[H _]]); [|done]. exists 0. split; [done|left].
Qed.
Lemma repr_sim b b' h c : sim b b' -> forall p, repr [0] b h p c -> repr [0] b' h p c.
Proof.
  intros Hs. induction c as [xs|c IH d f|ca IHa cb IHb|ca IHa cb IHb|c IH]; intros p; cbn [repr].
  - intros (args & Hp & Hf). exists args. split; [done|]. eapply Forall2_impl; [exact Hf|]. intros; by eapply slice_sim.
  - intros (x & q & e & Hp & Hf & Hr). exists x, q, e. split; [done|]. split; [by eapply slice_sim|by apply IH].
  - intros (x & y & Hp & Ha & Hb). exists x, y. auto.
  - intros (x & y & Hp & Ha & Hb). exists x, y. auto.
  - intros (x & Hp & Hr). exists x. auto.
Qed.
Lemma sim_refl b : sim b b.
Proof. induction b; constructor; [by left|done]. Qed.
Lemma sim_blank t u : sim (t ++ sp :: u) (t ++ 10 :: u).
Proof. apply Forall2_app; [apply sim_refl|]. constructor; [by right|apply sim_refl]. Qed.
(** A command and a newline, as the line that was typed. *)
Lemma parsecmd_line c t junk : printable c = true -> pr 3 c = t ++ [sp] ->
  exists p s, parsecmd (MkSh (t ++ 10 :: 0 :: junk) [] 0) = Ret p s /\ repr [0] (buf s) (heap s) p c /\ ShSpec.ordered (heap s) /\ (p < length (heap s))%nat.
Proof.
  intros Hc Ht. destruct (parsecmd_struct c junk Hc) as (p & s & E & Hr & Ho & Hp). rewrite Ht, <- app_assoc in E.
  destruct (parsecmd_sim _ (t ++ 10 :: 0 :: junk) _ _ (sim_blank t (0 :: junk)) E) as (s' & E' & [H1 H2 H3]).
  exists p, s'. rewrite <- H2. split; [done|]. split; [by apply (repr_sim (buf s))|done].
Qed.
End ShLine.
