(* ===== verification/Grep.v ===== *)
(** The pattern search of [grep.c].

    Strings are lists of the bytes before the terminating zero, so that the end of a list is
    where the code finds ['\0'].  [Module Grep] has the matcher and the loop over the input;
    [Module GrepSpec] says which strings a pattern stands for and shows that [match] finds
    them, and that [grep] prints the matching lines of a file. *)

From S2P Require Import Prelude.

Module Grep.

Definition c_star : Z := 42.
Definition c_dot : Z := 46.
Definition c_dollar : Z := 36.
Definition c_caret : Z := 94.
Definition c_nl : Z := 10.

(** [matchstar]; [here] is [matchhere] of the rest of the pattern. *)
Fixpoint matchstar_ (here : list Z -> bool) (c : Z) (text : list Z) : bool :=
  here text ||
  match text with
  | [] => false
  | x :: text' => ((x =? c) || (c =? c_dot)) && matchstar_ here c text'
  end.

Fixpoint matchhere (re text : list Z) : bool :=
  match re with
  | [] => true
  | r0 :: re1 =>
      let one :=
        if (r0 =? c_dollar) && match re1 with [] => true | _ => false end
        then match text with [] => true | _ => false end
        else match text with
             | [] => false
             | x :: text' => ((r0 =? c_dot) || (r0 =? x)) && matchhere re1 text'
             end in
      match re1 with
      | r1 :: re2 => if r1 =? c_star then matchstar_ (matchhere re2) r0 text else one
      | [] => one
      end
  end.
Definition matchstar (c : Z) (re text : list Z) : bool := matchstar_ (matchhere re) c text.

(** The loop of [match]. *)
Fixpoint match_from (re text : list Z) : bool :=
  matchhere re text || match text with [] => false | _ :: text' => match_from re text' end.
Definition match_ (re text : list Z) : bool :=
  match re with
  | r0 :: re1 => if r0 =? c_caret then matchhere re1 text else match_from re text
  | [] => match_from re text
  end.

(** [strchr(p, '\n')] *)
Fixpoint strchr_nl (s : list Z) : option nat :=
  match s with
  | [] => None
  | c :: s' => if c =? 0 then None else if c =? c_nl then Some O else S <$> strchr_nl s'
  end.

(** The inner loop of [grep]: the lines written, and what is left at [p]. *)
Fixpoint scan (fuel : nat) (pattern p : list Z) : list (list Z) * list Z :=
  match fuel, strchr_nl p with
  | S fuel, Some q =>
      let '(out, rest) := scan fuel pattern (drop (S q) p) in
      ((if match_ pattern (take q p) then [take (S q) p] else []) ++ out, rest)
  | _, _ => ([], p)
  end.

Definition BUFSZ : nat := 1024.

(** [read] of at most [k] bytes: the next number of [ns] says how many there are to have. *)
Definition read (k : nat) (inp : list Z) (ns : list nat) : list Z * list Z * list nat :=
  let n := Nat.min k (match ns with n :: _ => S n | [] => length inp end) in
  (take n inp, drop n inp, tail ns).

(** The outer loop; [b] is the first [m] bytes of [buf].  A turn takes a byte at least. *)
Fixpoint grep_loop (fuel : nat) (pattern b inp : list Z) (ns : list nat) : option (list (list Z)) :=
  let '(got, inp', ns') := read (BUFSZ - length b - 1) inp ns in
  if (length got =? 0)%nat then Some [] else
  match fuel with
  | O => None
  | S fuel =>
      let b := b ++ got in
      let '(out, rest) := scan (length b) pattern b in
      let b := if (length rest =? length b)%nat then [] else rest in
      app out <$> grep_loop fuel pattern b inp' ns'
  end.
Definition grep (pattern inp : list Z) (ns : list nat) : option (list (list Z)) :=
  grep_loop (length inp) pattern [] inp ns.
End Grep.

Module GrepSpec.
Import Grep.

(** ** What a pattern stands for *)
(** Characters with or without a star; whether the pattern ends in [$]. *)
Fixpoint items (re : list Z) : list (Z * bool) * bool :=
  match re with
  | [] => ([], false)
  | r0 :: re1 =>
      let one := if (r0 =? c_dollar) && match re1 with [] => true | _ => false end then ([], true)
                 else let '(l, e) := items re1 in ((r0, false) :: l, e) in
      match re1 with
      | r1 :: re2 => if r1 =? c_star then let '(l, e) := items re2 in ((r0, true) :: l, e) else one
      | [] => one
      end
  end.
(** [^] at the start. *)
Definition anchored (re : list Z) : bool := match re with r0 :: _ => r0 =? c_caret | [] => false end.
Definition body (re : list Z) : list Z := if anchored re then tail re else re.

Definition stands_for (c x : Z) : Prop := c = c_dot \/ c = x.
Inductive lang : list (Z * bool) -> list Z -> Prop :=
| lang_nil : lang [] []
| lang_one c l x w : stands_for c x -> lang l w -> lang ((c, false) :: l) (x :: w)
| lang_star c l v w : Forall (stands_for c) v -> lang l w -> lang ((c, true) :: l) (v ++ w).

(** [text] starts with a string of the pattern, which is all of it if it ends in [$]. *)
Definition here (p : list (Z * bool) * bool) (text : list Z) : Prop :=
  exists w rest, text = w ++ rest /\ lang (fst p) w /\ (snd p = true -> rest = []).

Lemma stands_for_b c x : (c =? c_dot) || (c =? x) = true <-> stands_for c x.
Proof. unfold stands_for. rewrite orb_true_iff, !Z.eqb_eq. done. Qed.

Lemma here_one c l e text : here ((c, false) :: l, e) text <-> exists x t, text = x :: t /\ stands_for c x /\ here (l, e) t.
Proof.
  split.
  - intros (w & rest & -> & Hl & He). cbn in Hl. inversion Hl as [|? ? x w' Hx Hw|]; subst. exists x, (w' ++ rest). split_and!; [done..|]. by exists w', rest.
  - intros (x & t & -> & Hx & w & rest & -> & Hl & He). exists (x :: w), rest. split_and!; [done| |done]. by constructor.
Qed.
Lemma here_star c l e text : here ((c, true) :: l, e) text <-> exists v t, text = v ++ t /\ Forall (stands_for c) v /\ here (l, e) t.
Proof.
  split.
  - intros (w & rest & -> & Hl & He). cbn in Hl. inversion Hl as [| |? ? v w' Hv Hw]; subst. exists v, (w' ++ rest). rewrite app_assoc. split_and!; [done..|]. by exists w', rest.
  - intros (v & t & -> & Hv & w & rest & -> & Hl & He). exists (v ++ w), rest. rewrite app_assoc. split_and!; [done| |done]. by constructor.
Qed.
Lemma star_correct (h : list Z -> bool) (H : list Z -> Prop) c text : (forall t, h t = true <-> H t) ->
  matchstar_ h c text = true <-> exists v t, text = v ++ t /\ Forall (stands_for c) v /\ H t.
Proof.
  intros Hh. induction text as [|x text IH]; cbn [matchstar_]; rewrite orb_true_iff.
  - split; [intros [Ht|Ht]; [|done]; exists [], []; split_and!; [done..|by apply Hh]|].
    intros (v & t & E & _ & Ht). symmetry in E. apply app_nil in E as [-> ->]. left. by apply Hh.
  - rewrite andb_true_iff, IH, Hh, orb_comm, (Z.eqb_sym x), stands_for_b. split.
    + intros [Ht|[Hx (v & t & -> & Hv & Ht)]]; [by exists [], (x :: text)|]. exists (x :: v), t. split_and!; [done| |done]. by constructor.
    + intros ([|y v] & t & E & Hv & Ht); cbn in E; [subst; by left|]. injection E as <- ->. right. apply Forall_cons in Hv as [? ?]. eauto 6.
Qed.

Lemma matchhere_correct_aux n : forall re text, (length re <= n)%nat -> matchhere re text = true <-> here (items re) text.
Proof.
  assert (Hend : forall text : list Z, match text with [] => true | _ => false end = true <-> here ([], true) text).
  { intros text. split; [destruct text; [|done]; intros _; exists [], []; split_and!; [done|constructor|done]|].
    intros (w & rest & -> & Hl & He). inversion Hl. by rewrite (He eq_refl). }
  induction n as [|n IH]; intros [|r0 re1] text Hn; cbn [length] in Hn; try lia; cbn [matchhere items].
  1, 2: split; [intros _; exists [], text; split_and!; [done|constructor|done]|done].
  assert (Hone : match text with [] => false | x :: text' => ((r0 =? c_dot) || (r0 =? x)) && matchhere re1 text' end = true <->
    here (let '(l, e) := items re1 in ((r0, false) :: l, e)) text).
  { destruct (items re1) as [l e] eqn:E. rewrite here_one. destruct text as [|x text]; [split; [done|intros (? & ? & ? & _); done]|].
    rewrite andb_true_iff, stands_for_b, IH, E by lia. split; [intros [? ?]; eauto|]. intros (? & ? & [= <- <-] & ? & ?). done. }
  destruct re1 as [|r1 re2].
  - rewrite andb_true_r. destruct (r0 =? c_dollar); [apply Hend|exact Hone].
  - destruct (r1 =? c_star); [|rewrite andb_false_r; exact Hone].
    destruct (items re2) as [l e] eqn:E. rewrite here_star. apply star_correct. intros t. rewrite IH, E by (cbn [length] in Hn; lia). done.
Qed.
Lemma matchhere_correct re text : matchhere re text = true <-> here (items re) text.
Proof. by apply (matchhere_correct_aux (length re)). Qed.

Lemma match_from_correct re text : match_from re text = true <-> exists before t, text = before ++ t /\ here (items re) t.
Proof.
  induction text as [|x text IH]; cbn [match_from]; rewrite orb_true_iff, matchhere_correct.
  - split; [intros [?|?]; [by exists [], []|done]|]. intros (b & t & E & Ht). symmetry in E. apply app_nil in E as [-> ->]. by left.
  - rewrite IH. split.
    + intros [?|(b & t & -> & Ht)]; [by exists [], (x :: text)|by exists (x :: b), t].
    + intros ([|y b] & t & E & Ht); cbn in E; [subst; by left|]. injection E as <- ->. right. eauto.
Qed.

(** C22: [match] decides what patterns mean: it returns 1 exactly when the text has a part that
    is a string of the pattern (characters, [.] for any of them, [*] after one for any number
    of them), from the start of the text if the pattern begins with [^] and up to its end if
    it ends with [$]. *)
Theorem match_correct re text :
  match_ re text = true <->
  exists before w after, text = before ++ w ++ after /\ lang (fst (items (body re))) w /\
    (anchored re = true -> before = []) /\ (snd (items (body re)) = true -> after = []).
Proof.
  assert (Hfree : match_from re text = true <->
    exists before w after, text = before ++ w ++ after /\ lang (fst (items re)) w /\ (snd (items re) = true -> after = [])).
  { rewrite match_from_correct. unfold here. split; [intros (b & ? & -> & w & r & -> & ? & ?)|intros (b & w & r & -> & ? & ?)]; eauto 10. }
  destruct re as [|r0 re1]; cbn [match_ anchored body]; [rewrite Hfree; naive_solver|].
  unfold body. cbn [anchored tail]. destruct (r0 =? c_caret); [|rewrite Hfree; naive_solver].
  rewrite matchhere_correct. unfold here. split; [intros (w & r & -> & ? & ?)|intros (b & w & r & -> & ? & Hb & ?)].
  - by exists [], w, r.
  - rewrite (Hb eq_refl). by exists w, r.
Qed.

(** ** The lines of a file *)
(** The terminated lines, without their newlines. *)
Fixpoint lines_from (cur s : list Z) : list (list Z) :=
  match s with
  | [] => []
  | c :: s' => if c =? c_nl then cur :: lines_from [] s' else lines_from (cur ++ [c]) s'
  end.
Definition lines : list Z -> list (list Z) := lines_from [].
Definition no_nl (s : list Z) : Prop := Forall (fun c => c <> c_nl) s.
Definition no_nul (s : list Z) : Prop := Forall (fun c => c <> 0) s.

Lemma lines_no_nl cur b s : no_nl b -> lines_from cur (b ++ s) = lines_from (cur ++ b) s.
Proof.
  intros Hb. revert cur. induction Hb as [|c b Hc _ IH]; intros cur; [by rewrite app_nil_r|].
  cbn [app lines_from]. rewrite (proj2 (Z.eqb_neq c c_nl) Hc), IH, <- app_assoc. done.
Qed.
Lemma lines_none s cur : no_nl s -> lines_from cur s = [].
Proof. intros Hs. rewrite <- (app_nil_r s), lines_no_nl by done. done. Qed.

Lemma lines_nil s : no_nl s -> lines s = [].
Proof. apply lines_none. Qed.

Lemma strchr_nl_spec s : no_nul s ->
  match strchr_nl s with
  | Some q => s = take q s ++ c_nl :: drop (S q) s /\ no_nl (take q s)
  | None => no_nl s
  end.
Proof.
  induction 1 as [|c s Hc Hs IH]; cbn [strchr_nl]; [constructor|]. rewrite (proj2 (Z.eqb_neq c 0) Hc).
  destruct (Z.eqb_spec c c_nl) as [->|Hn]; [by split; [|constructor]|].
  destruct (strchr_nl s) as [q|]; cbn; [|by constructor]. destruct IH as [E ?]. split; [by rewrite E at 1|by constructor].
Qed.

(** The lines of [lines p] that match, as they are written. *)
Definition matching (pattern : list Z) (ls : list (list Z)) : list (list Z) :=
  map (fun l => l ++ [c_nl]) (filter (fun l => match_ pattern l = true) ls).

Lemma scan_spec fuel : forall pattern p, no_nul p -> (length p <= fuel)%nat ->
  exists rest, scan fuel pattern p = (matching pattern (lines p), rest) /\ no_nl rest /\ rest `suffix_of` p /\
    (length rest = length p <-> no_nl p) /\ forall s, lines (p ++ s) = lines p ++ lines (rest ++ s).
Proof.
  induction fuel as [|fuel IH]; intros pattern p Hz Hl; cbn [scan].
  { destruct p; cbn in Hl; [|lia]. exists []. split; [done|]. split; [constructor|]. split; [done|]. split; [|done]. split; [intros _; constructor|done]. }
  pose proof (strchr_nl_spec p Hz) as Hq. destruct (strchr_nl p) as [q|].
  2:{ exists p. rewrite (lines_nil p Hq). split_and!; try done. }
  destruct Hq as [E Hn]. assert (Hlp : length p = (length (take q p) + S (length (drop (S q) p)))%nat) by (rewrite E at 1; by rewrite length_app).
  destruct (IH pattern (drop (S q) p)) as (rest & Es & Hr & Hsuf & _ & Happ); [by apply Forall_drop|lia|].
  assert (Elp : lines p = take q p :: lines (drop (S q) p)) by (rewrite E at 1; unfold lines; by rewrite lines_no_nl by done).
  rewrite Es. exists rest. split_and!; [|done| | |].
  - f_equal. rewrite Elp. unfold matching. rewrite filter_cons. replace (take (S q) p) with (take q p ++ [c_nl]).
    + case_decide as Hm; [by rewrite Hm|]. by apply not_true_is_false in Hm as ->.
    + rewrite E at 2. rewrite E in Hlp. rewrite take_app_ge, length_take by (rewrite length_take; lia).
      replace (S q - q `min` length p)%nat with 1%nat; [done|]. rewrite <- E in Hlp. pose proof (length_take p q). lia.
  - etrans; [exact Hsuf|]. exists (take (S q) p). by rewrite take_drop.
  - apply suffix_length in Hsuf. split; [lia|]. intros Hno. rewrite E in Hno. apply Forall_app in Hno as [_ [? _]%Forall_cons]. done.
  - intros s. rewrite Elp. rewrite E at 1. rewrite <- app_assoc. cbn [app]. unfold lines in *. rewrite lines_no_nl by done. cbn [app lines_from].
    change (c_nl =? c_nl) with true. cbn match. by rewrite Happ.
Qed.

(** Lines that fit in the buffer with their newline. *)
Definition fit (ls : list (list Z)) : Prop := Forall (fun l => (S (length l) <= BUFSZ - 1)%nat) ls.

Lemma first_line_long b s : no_nl b -> (BUFSZ - 1 <= length b)%nat -> fit (lines (b ++ s)) -> lines s = [] /\ lines (b ++ s) = [].
Proof.
  intros Hb Hl Hf. unfold lines in *. rewrite lines_no_nl in * by done. cbn [app] in *.
  assert (Hno : no_nl s).
  { revert Hl Hf. generalize b. clear Hb b. induction s as [|c s IH]; intros b Hl Hf; [constructor|]. cbn [lines_from] in Hf.
    destruct (Z.eqb_spec c c_nl) as [->|]; [apply Forall_cons in Hf as [? _]; lia|]. constructor; [done|].
    apply (IH (b ++ [c])); [rewrite length_app; lia|done]. }
  split; by apply lines_none.
Qed.

Lemma grep_loop_ok fuel : forall pattern b inp, no_nul (b ++ inp) -> no_nl b -> (length b < BUFSZ - 1)%nat -> (length inp <= fuel)%nat ->
  fit (lines (b ++ inp)) -> grep_loop fuel pattern b inp [] = Some (matching pattern (lines (b ++ inp))).
Proof.
  induction fuel as [|fuel IH]; intros pattern b inp Hz Hb Hlb Hf Hfit; cbn [grep_loop read].
  { destruct inp; cbn in Hf; [|lia]. rewrite app_nil_r, (lines_nil b Hb). rewrite take_nil. done. }
  set (n := Nat.min (BUFSZ - length b - 1) (length inp)). rewrite length_take.
  destruct (Nat.eqb_spec (Nat.min n (length inp)) 0) as [E0|E0].
  { destruct inp; cbn [length] in *; [|lia]. by rewrite app_nil_r, (lines_nil b Hb). }
  set (b' := b ++ take n inp). assert (Eb : b ++ inp = b' ++ drop n inp) by (unfold b'; by rewrite <- app_assoc, take_drop).
  assert (Hlb' : length b' = (length b + n)%nat) by (unfold b'; rewrite length_app, length_take; lia).
  rewrite Eb in Hz, Hfit |- *. apply Forall_app in Hz as [Hz1 Hz2].
  destruct (scan_spec (length b') pattern b' Hz1 (le_n _)) as (rest & -> & Hr & Hsuf & Hlen & Happ).
  assert (Hld : (length (drop n inp) <= fuel)%nat) by (rewrite length_drop; lia).
  destruct (Nat.eqb_spec (length rest) (length b')) as [El|El].
  - apply Hlen in El. rewrite (lines_nil b' El). change (matching pattern []) with (@nil (list Z)).
    destruct (decide (drop n inp = [])) as [Ed|Ed].
    { rewrite Ed, app_nil_r. rewrite (lines_nil b' El). rewrite IH; [done|constructor|constructor|cbn; lia|cbn; lia|constructor]. }
    assert (n < length inp)%nat by (destruct (Nat.lt_ge_cases n (length inp)); [done|]; by rewrite drop_ge in Ed).
    destruct (first_line_long b' (drop n inp) El) as [E1 E2]; [lia|done|]. rewrite E2, IH; [cbn [app]; by rewrite E1|done|constructor|cbn; lia|lia|].
    cbn [app]. rewrite E1. constructor.
  - assert (length rest < length b')%nat by (apply suffix_length in Hsuf; lia).
    rewrite Happ in Hfit. apply Forall_app in Hfit as [_ Hfit]. rewrite IH; [|apply Forall_app; split; [|done]|done|lia|lia|done].
    + cbn. f_equal. rewrite Happ. unfold matching. by rewrite filter_app, map_app.
    + destruct Hsuf as [pre ->]. by apply Forall_app in Hz1 as [_ ?].
Qed.

(** On a file, whose reads give what is asked for as long as there is more, [grep] prints
    exactly the lines that match, in order, when the file has no zero bytes and its lines fit
    in the buffer; text after the last newline is not a line. *)
Theorem grep_file pattern inp : no_nul inp -> fit (lines inp) -> grep pattern inp [] = Some (matching pattern (lines inp)).
Proof. intros Hz Hf. unfold grep. apply grep_loop_ok; [done|constructor|cbn; lia|done|done]. Qed.

(** A pipe or the console may give less than a line at a time.  Then the part that has been
    read is dropped, and the line is not found. *)
Theorem grep_partial_read :
  let hello := [104; 101; 108; 108; 111] in
  grep hello (hello ++ [c_nl]) [] = Some [hello ++ [c_nl]] /\ grep hello (hello ++ [c_nl]) [1%nat] = Some [].
Proof. done. Qed.

(** [a.*c$] in a file of three lines. *)
Lemma grep_file_witness :
  let inp := [97; 98; 99; 10; 120; 10; 98; 97; 99; 10] in
  no_nul inp /\ fit (lines inp) /\ grep [97; 46; 42; 99; 36] inp [] = Some [[97; 98; 99; 10]; [98; 97; 99; 10]].
Proof.
  split; [repeat constructor; done|]. split; [repeat constructor; cbn; lia|].
  apply (grep_file [97; 46; 42; 99; 36] [97; 98; 99; 10; 120; 10; 98; 97; 99; 10]); [repeat constructor; done|repeat constructor; cbn; lia].
Defined.
End GrepSpec.
