(* ===== verification/Printf.v ===== *)
(** Formatted output of user programs ([printf.c]).

    Output is the list of bytes [putc] writes.  The arguments are the words on the stack
    above [fmt], and [str] gives the string at an address.  [Module PrintfSpec] shows what
    numbers and formats print as. *)

From S2P Require Import Prelude CString.

Module Printf.

Definition digit_char (ten d : Z) : Z := if d <? 10 then 48 + d else ten + (d - 10).
(** The digits of [printint], as its first loop finds them: the last one first.  A number of
    32 bits has at most 32 digits. *)
Fixpoint digits_rev (fuel : nat) (x base : Z) : list Z :=
  match fuel with
  | O => []
  | S fuel => x mod base :: (if x / base =? 0 then [] else digits_rev fuel (x / base) base)
  end.

(** [buf] of [printint] from its end; [ten] is the character for the digit ten. *)
Definition int_chars (ten xx base : Z) (sgn : bool) : list Z :=
  let '(neg, x) := if sgn && (xx <? 0) then (true, u32 (- xx)) else (false, u32 xx) in
  let buf := map (digit_char ten) (digits_rev 32 x base) ++ (if neg then [45] else []) in
  rev buf.
Definition printint (xx base : Z) (sgn : bool) : list Z := int_chars 65 xx base sgn.

Definition null_str : list Z := [40; 110; 117; 108; 108; 41].

Section printf.
(** The words above [fmt] on the stack, and the strings in memory. *)
Variables (args : nat -> Z) (str : Z -> list Z).

(** The loop over [fmt]; [state] is 0 or ['%'] and [ap] counts the arguments taken. *)
Fixpoint printf_loop (fmt : list Z) (state : Z) (ap : nat) : list Z :=
  match fmt with
  | [] => []
  | f :: fmt =>
      let c := Z.land f 255 in
      if state =? 0 then
        if c =? 37 then printf_loop fmt 37 ap else c :: printf_loop fmt state ap
      else if state =? 37 then
        if c =? 100 then printint (i32 (args ap)) 10 true ++ printf_loop fmt 0 (S ap)
        else if (c =? 120) || (c =? 112) then printint (i32 (args ap)) 16 false ++ printf_loop fmt 0 (S ap)
        else if c =? 115 then (if args ap =? 0 then null_str else str (args ap)) ++ printf_loop fmt 0 (S ap)
        else if c =? 99 then u8 (args ap) :: printf_loop fmt 0 (S ap)
        else if c =? 37 then c :: printf_loop fmt 0 ap
        else 37 :: c :: printf_loop fmt 0 ap
      else printf_loop fmt state ap
  end.
Definition printf (fmt : list Z) : list Z := printf_loop fmt 0 0.
End printf.
End Printf.

Module PrintfSpec.
Import Printf.

(** ** Numbers *)
(** The number with these digits, the first one first. *)
Definition value (base : Z) (ds : list Z) : Z := foldl (fun n d => n * base + d) 0 ds.
Lemma value_snoc base ds d : value base (ds ++ [d]) = value base ds * base + d.
Proof. unfold value. by rewrite foldl_app. Qed.

Lemma digits_rev_ok base fuel : 2 <= base -> forall x, 0 <= x < 2 ^ Z.of_nat fuel -> fuel <> O ->
  value base (rev (digits_rev fuel x base)) = x /\ Forall (fun d => 0 <= d < base) (digits_rev fuel x base) /\
  (digits_rev fuel x base <> []) /\ (x <> 0 -> last (digits_rev fuel x base) <> Some 0).
Proof.
  intros Hb. induction fuel as [|fuel IH]; intros x Hx Hf; [done|]. cbn [digits_rev rev].
  pose proof (Z.div_mod x base ltac:(lia)) as Hd. pose proof (Z.mod_pos_bound x base ltac:(lia)) as Hm.
  destruct (Z.eqb_spec (x / base) 0) as [E|E].
  - split; [cbn; lia|]. split; [by constructor|]. split; [done|]. cbn. intros Hx0 [= ?]. lia.
  - assert (0 <= x / base) by (apply Z.div_pos; lia). assert (Hlt : x / base < 2 ^ Z.of_nat fuel).
    { apply Z.div_lt_upper_bound; [lia|]. rewrite Nat2Z.inj_succ, Z.pow_succ_r in Hx by lia. nia. }
    assert (Hf' : fuel <> O) by (intros ->; cbn in Hlt; lia).
    destruct (IH (x / base) ltac:(lia) Hf') as (Hv & Ha & Hne & Hl). rewrite value_snoc, Hv.
    split; [lia|]. split; [by constructor|]. split; [done|]. intros _. rewrite last_cons.
    destruct (last (digits_rev fuel (x / base) base)) eqn:El; [by apply Hl|]. by apply last_None in El.
Qed.

Lemma digits_length base fuel : 2 <= base -> forall x, (0 < length (digits_rev fuel x base))%nat -> 0 <= x ->
  base ^ (Z.of_nat (length (digits_rev fuel x base)) - 1) <= Z.max x 1.
Proof.
  intros Hb. induction fuel as [|fuel IH]; intros x Hl Hx; cbn [digits_rev] in *; [cbn in Hl; lia|].
  destruct (Z.eqb_spec (x / base) 0) as [E|E]; [cbn; lia|]. cbn [length].
  assert (0 <= x / base) by (apply Z.div_pos; lia). assert (Hxb : x / base * base <= x) by (pose proof (Z.mul_div_le x base ltac:(lia)); lia).
  destruct (digits_rev fuel (x / base) base) as [|d ds] eqn:Ed; [cbn [length]; change (Z.of_nat 1 - 1) with 0; rewrite Z.pow_0_r; lia|].
  specialize (IH (x / base)). rewrite Ed in IH. specialize (IH ltac:(cbn; lia) ltac:(lia)).
  replace (Z.of_nat (S (length (d :: ds))) - 1) with (Z.succ (Z.of_nat (length (d :: ds)) - 1)) by lia.
  rewrite Z.pow_succ_r by (cbn [length]; lia). rewrite Z.max_l in IH by lia. nia.
Qed.

(** Reading a digit back. *)
Definition digit_of (c : Z) : Z := if c <=? 57 then c - 48 else if c <=? 70 then c - 55 else c - 87.
Definition hex_ten (ten : Z) : Prop := ten = 65 \/ ten = 97.
Lemma digit_of_char ten d : hex_ten ten -> 0 <= d < 16 -> digit_of (digit_char ten d) = d.
Proof.
  intros Ht Hd. unfold digit_of, digit_char. destruct (Z.ltb_spec d 10).
  - destruct (Z.leb_spec (48 + d) 57); lia.
  - destruct Ht as [-> | ->]; repeat case_match; b2p; lia.
Qed.

(** What a printed number says. *)
Definition read_number (base : Z) (s : list Z) : Z :=
  match s with
  | c :: s' => if c =? 45 then - value base (map digit_of s') else value base (map digit_of s)
  | [] => 0
  end.

Lemma digits_read ten base x : hex_ten ten -> 2 <= base <= 16 -> 0 <= x < 2 ^ 32 ->
  value base (map digit_of (map (digit_char ten) (rev (digits_rev 32 x base)))) = x.
Proof.
  intros Ht Hb Hx. destruct (digits_rev_ok base 32 ltac:(lia) x Hx ltac:(done)) as (Hv & Ha & _).
  rewrite map_map. rewrite (map_ext_in _ (fun d => d)), map_id; [done|]. intros d Hd. apply digit_of_char; [done|].
  apply in_rev in Hd. rewrite Forall_forall in Ha. specialize (Ha d (proj2 (list_elem_of_In _ _) Hd)). lia.
Qed.
Lemma digits_first ten base x : hex_ten ten -> 2 <= base <= 16 -> 0 <= x < 2 ^ 32 ->
  exists c s, map (digit_char ten) (rev (digits_rev 32 x base)) = c :: s /\ c <> 45 /\ (x <> 0 -> c <> 48).
Proof.
  intros Ht Hb Hx. destruct (digits_rev_ok base 32 ltac:(lia) x Hx ltac:(done)) as (_ & Ha & Hne & Hz).
  destruct (rev (digits_rev 32 x base)) as [|d ds] eqn:E.
  { apply (f_equal (@rev Z)) in E. by rewrite rev_involutive in E. }
  assert (El : digits_rev 32 x base = rev ds ++ [d]) by (rewrite <- (rev_involutive (digits_rev 32 x base)), E; done).
  rewrite El in Ha, Hz. apply Forall_app in Ha as [_ [Hd _]%Forall_cons]. rewrite last_snoc in Hz.
  eexists _, _. split; [done|]. unfold digit_char. destruct Ht, (Z.ltb_spec d 10); (split; [lia|]); intros Hx0; specialize (Hz Hx0); [|lia| |lia].
  all: intros ?; apply Hz; f_equal; lia.
Qed.

Lemma int_chars_eq ten x base sgn : - 2 ^ 31 <= x < 2 ^ 31 ->
  int_chars ten x base sgn =
    (if sgn && (x <? 0) then [45] else []) ++
    map (digit_char ten) (rev (digits_rev 32 (if sgn && (x <? 0) then - x else u32 x) base)).
Proof.
  intros Hx. unfold int_chars. destruct sgn; cbn [andb]; [destruct (Z.ltb_spec x 0)|].
  - rewrite u32_id, rev_app_distr, map_rev by lia. done.
  - by rewrite app_nil_r, map_rev.
  - by rewrite app_nil_r, map_rev.
Qed.

Lemma int_chars_bytes ten x base sgn : hex_ten ten -> 2 <= base <= 16 -> Forall (fun c => 0 <= c < 256) (int_chars ten x base sgn).
Proof.
  intros Ht Hb. assert (Hd : forall z, Forall (fun c => 0 <= c < 256) (map (digit_char ten) (digits_rev 32 z base))).
  { intros z. generalize 32%nat. intros fuel. revert z. induction fuel as [|fuel IH]; intros z; cbn [digits_rev map]; constructor.
    - pose proof (Z.mod_pos_bound z base ltac:(lia)). unfold digit_char. destruct Ht, (Z.ltb_spec (z mod base) 10); lia.
    - case_match; [constructor|apply IH]. }
  unfold int_chars. destruct (sgn && (x <? 0)); apply Forall_rev, Forall_app; (split; [apply Hd|]); [by apply Forall_singleton|constructor].
Qed.

(** [int_chars] gives a number so that it can be read back, in base 10 with its sign or
    in base 16 as the unsigned word; there is no leading zero, and the text, the sign
    included, fits in [buf], also for the smallest integer. *)
Lemma int_chars_value ten x : hex_ten ten -> - 2 ^ 31 <= x < 2 ^ 31 ->
  read_number 10 (int_chars ten x 10 true) = x /\ read_number 16 (int_chars ten x 16 false) = u32 x /\
  (length (int_chars ten x 10 true) <= 11)%nat /\ (length (int_chars ten x 16 false) <= 8)%nat /\
  (x <> 0 -> head (int_chars ten x 10 true) <> Some 48 /\ head (int_chars ten x 16 false) <> Some 48).
Proof.
  intros Ht Hx. rewrite !int_chars_eq by done. cbn [andb app]. pose proof (u32_range x) as Hu.
  set (y := if x <? 0 then - x else u32 x). assert (Hy : 0 <= y <= 2 ^ 31).
  { unfold y. destruct (Z.ltb_spec x 0); [lia|]. rewrite u32_id; lia. }
  destruct (digits_first ten 10 y Ht ltac:(lia) ltac:(lia)) as (c & s & E & Hc & Hc0).
  destruct (digits_first ten 16 (u32 x) Ht ltac:(lia) ltac:(lia)) as (c' & s' & E' & Hc' & Hc0').
  pose proof (digits_read ten 10 y Ht ltac:(lia) ltac:(lia)) as R. pose proof (digits_read ten 16 (u32 x) Ht ltac:(lia) ltac:(lia)) as R'.
  assert (Hlen : forall b z k, 2 <= b <= 16 -> 0 <= z -> z < b ^ k -> 1 <= k -> Z.of_nat (length (digits_rev 32 z b)) <= k).
  { intros b z k Hb Hz Hk Hk1. destruct (Z.leb_spec (Z.of_nat (length (digits_rev 32 z b))) k) as [|Hgt]; [done|]. exfalso.
    pose proof (digits_length b 32 ltac:(lia) z ltac:(lia) Hz) as Hd.
    assert (b ^ k <= b ^ (Z.of_nat (length (digits_rev 32 z b)) - 1)) by (apply Z.pow_le_mono_r; lia).
    assert (b ^ 1 <= b ^ k) by (apply Z.pow_le_mono_r; lia). rewrite Z.pow_1_r in *. lia. }
  pose proof (Hlen 10 y 10 ltac:(lia) ltac:(lia) ltac:(lia) ltac:(lia)). pose proof (Hlen 16 (u32 x) 8 ltac:(lia) ltac:(lia) ltac:(lia) ltac:(lia)).
  rewrite E, E' in *. assert (Hl1 : length (c :: s) = length (digits_rev 32 y 10)) by (rewrite <- E, length_map, length_rev; done).
  assert (Hl2 : length (c' :: s') = length (digits_rev 32 (u32 x) 16)) by (rewrite <- E', length_map, length_rev; done).
  assert (Hu0 : x <> 0 -> u32 x <> 0) by (intros ?; unfold u32; destruct (Z.ltb_spec x 0); [rewrite <- (Z.mod_add _ 1), Z.mod_small|rewrite Z.mod_small]; lia).
  split_and!.
  - unfold y in *. destruct (Z.ltb_spec x 0); cbn [app read_number].
    + change (45 =? 45) with true. cbn match. rewrite R. lia.
    + rewrite (proj2 (Z.eqb_neq c 45) Hc), R. by apply u32_id; lia.
  - cbn [read_number]. by rewrite (proj2 (Z.eqb_neq c' 45) Hc'), R'.
  - rewrite length_app, Hl1. destruct (x <? 0); cbn [length]; lia.
  - lia.
  - intros Hx0. split; [|cbn; intros [= ?]; apply Hc0'; [by apply Hu0|done]]. unfold y in *. destruct (Z.ltb_spec x 0); cbn; intros [= ?].
    apply Hc0; [by apply Hu0|done].
Qed.

(** ** Formats *)
Inductive piece := Lit (c : Z) | Dec | Hex | Ptr | Str | Chr | Percent | Other (c : Z).
Definition text (p : piece) : list Z :=
  match p with
  | Lit c => [c] | Dec => [37; 100] | Hex => [37; 120] | Ptr => [37; 112] | Str => [37; 115] | Chr => [37; 99] | Percent => [37; 37]
  | Other c => [37; c]
  end.
Definition valid (p : piece) : Prop :=
  match p with
  | Lit c => 0 < c < 256 /\ c <> 37
  | Other c => 0 < c < 256 /\ c ∉ [100; 120; 112; 115; 99; 37]
  | _ => True
  end.
Definition takes (p : piece) : bool := match p with Dec | Hex | Ptr | Str | Chr => true | _ => false end.

Section formats.
Variables (args : nat -> Z) (str : Z -> list Z).

(** The pieces of a format with the arguments they are for. *)
Fixpoint given (ap : nat) (ps : list piece) : list (piece * Z) :=
  match ps with
  | [] => []
  | p :: ps => (p, args ap) :: given (if takes p then S ap else ap) ps
  end.
(** What is printed for a piece. *)
Definition shows (pa : piece * Z) (o : list Z) : Prop :=
  let '(p, a) := pa in
  match p with
  | Lit c => o = [c]
  | Dec => read_number 10 o = i32 a
  | Hex | Ptr => read_number 16 o = u32 a
  | Str => o = if a =? 0 then null_str else str a
  | Chr => o = [u8 a]
  | Percent => o = [37]
  | Other c => o = [37; c]
  end.

Lemma u32_i32 a : u32 (i32 a) = u32 a.
Proof. unfold i32, u32. rewrite Zminus_mod, Zmod_mod, <- Zminus_mod. f_equal. lia. Qed.
Lemma land_byte c : 0 < c < 256 -> Z.land c 255 = c.
Proof. intros. change 255 with (Z.ones 8). rewrite Z.land_ones by lia. apply Z.mod_small. lia. Qed.

Lemma printf_loop_pieces ps : forall ap, Forall valid ps ->
  exists outs, printf_loop args str (concat (map text ps)) 0 ap = concat outs /\ Forall2 shows (given ap ps) outs.
Proof.
  induction ps as [|p ps IH]; intros ap Hv; [by exists []|]. apply Forall_cons in Hv as [Hp Hv].
  destruct (IH (if takes p then S ap else ap) Hv) as (outs & E & Hs).
  assert (Hint : exists o, printf_loop args str (text p ++ concat (map text ps)) 0 ap = o ++ concat outs /\ shows (p, args ap) o).
  { pose proof (int_chars_value 65 (i32 (args ap)) ltac:(by left) (i32_range _)) as (Hd & Hh & _). rewrite u32_i32 in Hh.
    destruct p as [c| | | | | | |c]; cbn [text app printf_loop takes valid] in *; rewrite ?E.
    - destruct Hp as [Hc Hn]. rewrite land_byte, (proj2 (Z.eqb_neq c 37) Hn) by done. by exists [c].
    - by eexists.
    - by eexists.
    - by eexists.
    - by eexists.
    - by exists [u8 (args ap)].
    - by exists [37].
    - destruct Hp as [Hc Hn]. rewrite !(land_byte c) by done. rewrite !not_elem_of_cons in Hn. destruct Hn as (H1 & H2 & H3 & H4 & H5 & H6 & _).
      exists [37; c]. rewrite (proj2 (Z.eqb_neq c 100) H1), (proj2 (Z.eqb_neq c 120) H2), (proj2 (Z.eqb_neq c 112) H3),
        (proj2 (Z.eqb_neq c 115) H4), (proj2 (Z.eqb_neq c 99) H5), (proj2 (Z.eqb_neq c 37) H6). done. }
  destruct Hint as (o & Eo & Ho). exists (o :: outs). split; [exact Eo|]. cbn [given]. by constructor.
Qed.

(** [printf] prints a format piece by piece, each with the argument it is for: a number
    as text that reads back as that number (signed for [%d], unsigned for [%x] and [%p]), a
    string or [(null)], a character, the percent sign, and an unknown sequence as it is. *)
Theorem printf_correct ps : Forall valid ps ->
  exists outs, printf args str (concat (map text ps)) = concat outs /\ Forall2 shows (given 0 ps) outs.
Proof. apply printf_loop_pieces. Qed.
End formats.

(** [x=%d, %s%%] *)
Lemma printf_correct_witness :
  let ps := [Lit 120; Lit 61; Dec; Lit 44; Str; Percent] in
  let args := fun n => match n with O => u32 (-7) | _ => 0 end in
  Forall valid ps /\ exists outs, printf args (fun _ => []) (concat (map text ps)) = concat outs /\
    Forall2 (shows (fun _ => [])) (given args 0 ps) outs.
Proof.
  intros ps args. assert (Hv : Forall valid ps) by (repeat constructor; cbn; lia). split; [exact Hv|].
  exact (printf_correct args (fun _ => []) ps Hv).
Defined.
End PrintfSpec.
