(* ===== verification/Kbd.v ===== *)
(** The keyboard ([kbd.c], [kbd.h]).

    The controller has a queue of scan codes; [kbdgetc] takes one, keeps track of the shift
    keys and gives the character, or 0 for none.  [Module KbdSpec] shows that typing a text
    on the keys that have its characters gives that text. *)

From S2P Require Import Prelude.

Module Kbd.

Definition SHIFT : Z := Z.shiftl 1 0.
Definition CTL : Z := Z.shiftl 1 1.
Definition ALT : Z := Z.shiftl 1 2.
Definition CAPSLOCK : Z := Z.shiftl 1 3.
Definition NUMLOCK : Z := Z.shiftl 1 4.
Definition SCROLLLOCK : Z := Z.shiftl 1 5.
Definition E0ESC : Z := Z.shiftl 1 6.

Definition KEY_HOME : Z := 224.
Definition KEY_END : Z := 225.
Definition KEY_UP : Z := 226.
Definition KEY_DN : Z := 227.
Definition KEY_LF : Z := 228.
Definition KEY_RT : Z := 229.
Definition KEY_PGUP : Z := 230.
Definition KEY_PGDN : Z := 231.
Definition KEY_INS : Z := 232.
Definition KEY_DEL : Z := 233.

Definition C (x : Z) : Z := x - 64.

(** An array of 256 [uchar]s: the first ones, and some others by their index. *)
Definition table (first : list Z) (others : list (Z * Z)) (i : Z) : Z :=
  u8 (match list_find (fun p => fst p = i) others with
      | Some (_, (_, x)) => x
      | None => nth (Z.to_nat i) first 0
      end).

Definition shiftcode : Z -> Z := table [] [(29, CTL); (42, SHIFT); (54, SHIFT); (56, ALT); (157, CTL); (184, ALT)].
Definition togglecode : Z -> Z := table [] [(58, CAPSLOCK); (69, NUMLOCK); (70, SCROLLLOCK)].
Definition normalmap : Z -> Z := table
  [ 0; 27; 49; 50; 51; 52; 53; 54;
    55; 56; 57; 48; 45; 61; 8; 9;
    113; 119; 101; 114; 116; 121; 117; 105;
    111; 112; 91; 93; 10; 0; 97; 115;
    100; 102; 103; 104; 106; 107; 108; 59;
    39; 96; 0; 92; 122; 120; 99; 118;
    98; 110; 109; 44; 46; 47; 0; 42;
    0; 32; 0; 0; 0; 0; 0; 0;
    0; 0; 0; 0; 0; 0; 0; 55;
    56; 57; 45; 52; 53; 54; 43; 49;
    50; 51; 48; 46; 0; 0; 0; 0 ]
  [ (156, 10); (181, 47); (200, KEY_UP); (208, KEY_DN); (201, KEY_PGUP); (209, KEY_PGDN); (203, KEY_LF); (205, KEY_RT); (151, KEY_HOME); (207, KEY_END); (210, KEY_INS); (211, KEY_DEL) ].
Definition shiftmap : Z -> Z := table
  [ 0; 27; 33; 64; 35; 36; 37; 94;
    38; 42; 40; 41; 95; 43; 8; 9;
    81; 87; 69; 82; 84; 89; 85; 73;
    79; 80; 123; 125; 10; 0; 65; 83;
    68; 70; 71; 72; 74; 75; 76; 58;
    34; 126; 0; 124; 90; 88; 67; 86;
    66; 78; 77; 60; 62; 63; 0; 42;
    0; 32; 0; 0; 0; 0; 0; 0;
    0; 0; 0; 0; 0; 0; 0; 55;
    56; 57; 45; 52; 53; 54; 43; 49;
    50; 51; 48; 46; 0; 0; 0; 0 ]
  [ (156, 10); (181, 47); (200, KEY_UP); (208, KEY_DN); (201, KEY_PGUP); (209, KEY_PGDN); (203, KEY_LF); (205, KEY_RT); (151, KEY_HOME); (207, KEY_END); (210, KEY_INS); (211, KEY_DEL) ].
Definition ctlmap : Z -> Z := table
  [ 0; 0; 0; 0; 0; 0; 0; 0;
    0; 0; 0; 0; 0; 0; 0; 0;
    C 81; C 87; C 69; C 82; C 84; C 89; C 85; C 73;
    C 79; C 80; 0; 0; 13; 0; C 65; C 83;
    C 68; C 70; C 71; C 72; C 74; C 75; C 76; 0;
    0; 0; 0; C 92; C 90; C 88; C 67; C 86;
    C 66; C 78; C 77; 0; 0; C 47; 0; 0 ]
  [ (156, 13); (181, C 47); (200, KEY_UP); (208, KEY_DN); (201, KEY_PGUP); (209, KEY_PGDN); (203, KEY_LF); (205, KEY_RT); (151, KEY_HOME); (207, KEY_END); (210, KEY_INS); (211, KEY_DEL) ].


(** [charcode] *)
Definition charcode (i : Z) : Z -> Z :=
  if i =? 0 then normalmap else if i =? 1 then shiftmap else ctlmap.

(** [shift], and the scan codes in the controller. *)
Record kbd := MkKbd { shift : Z; port : list Z }.
Definition set_shift (f : Z -> Z) : M kbd unit := modify (fun k => MkKbd (f (shift k)) (port k)).

Definition kbdgetc : M kbd Z :=
  q <- reads port ;;
  match q with
  | [] => ret (-1)
  | data :: q =>
      modify (fun k => MkKbd (shift k) q) ;;;
      s <- reads shift ;;
      if data =? 224 then set_shift (fun s => Z.lor s E0ESC) ;;; ret 0
      else if negb (Z.land data 128 =? 0) then
        let data := if negb (Z.land s E0ESC =? 0) then data else Z.land data 127 in
        set_shift (fun s => Z.land s (Z.lnot (Z.lor (shiftcode data) E0ESC))) ;;; ret 0
      else
        data <- (if negb (Z.land s E0ESC =? 0)
                 then set_shift (fun s => Z.land s (Z.lnot E0ESC)) ;;; ret (Z.lor data 128)
                 else ret data) ;;
        set_shift (fun s => Z.lor s (shiftcode data)) ;;;
        set_shift (fun s => Z.lxor s (togglecode data)) ;;;
        s <- reads shift ;;
        let c := charcode (Z.land s (Z.lor CTL SHIFT)) data in
        ret (if negb (Z.land s CAPSLOCK =? 0) then
               if (97 <=? c) && (c <=? 122) then c + (65 - 97)
               else if (65 <=? c) && (c <=? 90) then c + (97 - 65)
               else c
             else c)
  end.
End Kbd.

Module KbdSpec.
Import Kbd.

(** The key that has a character, with or without the left shift key, pressed and released. *)
Definition key_in (m : Z -> Z) (c : Z) : option Z :=
  (fun p => Z.of_nat (fst p)) <$> list_find (fun k => m (Z.of_nat k) = c) (seq 0 88).
Definition press (c : Z) : option (list Z) :=
  match key_in normalmap c with
  | Some k => Some [k; k + 128]
  | None => match key_in shiftmap c with
            | Some k => Some [42; k; k + 128; 42 + 128]
            | None => None
            end
  end.
Definition typable (c : Z) : bool := (0 <? c) && (c <? 128) && bool_decide (is_Some (press c)).
Definition presses (s : list Z) : list Z := concat (map (fun c => default [] (press c)) s).

(** [kbdgetc] on one scan code. *)
Definition key (sh data : Z) : Z * Z :=
  match kbdgetc (MkKbd sh [data]) with Ret c k => (c, shift k) | _ => (0, sh) end.
Lemma kbdgetc_key sh data q : kbdgetc (MkKbd sh (data :: q)) = Ret (fst (key sh data)) (MkKbd (snd (key sh data)) q).
Proof.
  unfold key, kbdgetc, bind, reads, modify, set_shift, ret. cbn [port shift].
  destruct (data =? 224); [done|]. destruct (negb (Z.land data 128 =? 0)); [done|].
  by destruct (negb (Z.land sh E0ESC =? 0)).
Qed.

(** The characters that come of scan codes, and the shift state after them. *)
Fixpoint keys (sh : Z) (ds : list Z) : list Z * Z :=
  match ds with
  | [] => ([], sh)
  | d :: ds => let '(c, sh) := key sh d in let '(cs, sh) := keys sh ds in (if c =? 0 then cs else c :: cs, sh)
  end.
Lemma keys_app sh ds ds' :
  keys sh (ds ++ ds') = (fst (keys sh ds) ++ fst (keys (snd (keys sh ds)) ds'), snd (keys (snd (keys sh ds)) ds')).
Proof.
  revert sh. induction ds as [|d ds IH]; intros sh; cbn [app keys fst snd]; [by rewrite <- surjective_pairing|].
  destruct (key sh d) as [c sh1]. rewrite IH. destruct (keys sh1 ds) as [cs sh2]. cbn [fst snd]. by destruct (c =? 0).
Qed.

Lemma press_all : forallb (fun n =>
  let c := Z.of_nat n in negb (typable c) || bool_decide (keys 0 (default [] (press c)) = ([c], 0))) (seq 0 128) = true.
Proof. vm_compute. reflexivity. Qed.
Lemma press_ok c : typable c = true -> keys 0 (default [] (press c)) = ([c], 0).
Proof.
  intros Hc. pose proof press_all as Ha. rewrite forallb_forall in Ha. pose proof Hc as [[H1 H2]%andb_true_iff _]%andb_true_iff.
  specialize (Ha (Z.to_nat c)). rewrite Z2Nat.id in Ha by lia. cbv zeta in Ha. rewrite Hc in Ha. cbn [negb orb] in Ha.
  eapply bool_decide_eq_true, Ha. apply in_seq. lia.
Qed.
Lemma presses_ok s : forallb typable s = true -> keys 0 (presses s) = (s, 0).
Proof.
  unfold presses. induction s as [|c s IH]; [done|]. cbn [forallb map concat]. intros [Hc Hs]%andb_true_iff.
  rewrite keys_app, (press_ok c Hc). cbn [fst snd]. by rewrite (IH Hs).
Qed.

(** Every printable character, backspace, tab and newline has a key. *)
Lemma printable_typable c : 32 <= c < 127 \/ c ∈ [8; 9; 10] -> typable c = true.
Proof.
  intros Hc. assert (Ha : forallb (fun n => typable (Z.of_nat n)) (seq 32 95 ++ [8; 9; 10]%nat) = true) by (vm_compute; reflexivity).
  rewrite forallb_forall in Ha. specialize (Ha (Z.to_nat c)). assert (0 <= c) by (destruct Hc as [|Hc]; [lia|]; set_solver by lia).
  rewrite Z2Nat.id in Ha by done. apply Ha, in_app_iff. destruct Hc as [Hc|Hc]; [left; apply in_seq; lia|right].
  rewrite !elem_of_cons, elem_of_nil in Hc. destruct_or! Hc; subst; cbn; auto.
Qed.
End KbdSpec.
