(* ===== verification/Console.v ===== *)
(** The console ([console.c]) and the serial port ([uart.c]).

    The state is the screen and its cursor registers, the bytes sent to the serial port, and
    the input buffer with its three indices.  What the console promises is in
    [ConsoleSpec.v]. *)

From S2P Require Import Prelude Params Sleeplock Printf Kbd Fs.

Module Console.

(** [input] *)
Record input := MkInput { ibuf : list Z; ir : Z; iw : Z; ie : Z }.
Record cons := MkCons {
  c_lock : Klock.t; locking : Z; panicked : Z;
  uart : Z; serial : list Z;       (* is there a uart; what it has been sent *)
  cur_hi : Z; cur_lo : Z;          (* the CRT controller's registers 14 and 15 *)
  crt : Z -> Z;                    (* CGA memory *)
  inp : input;
  wakes : nat                      (* calls of wakeup(&input.r) *)
}.

Definition INPUT_BUF : Z := 128.
Definition BACKSPACE : Z := 256.
(** [C(x)] *)
Definition C (x : Z) : Z := x - 64.

Definition cons_lock (m : M Klock.t unit) : M cons unit := zoom c_lock (fun l s =>
  MkCons l (locking s) (panicked s) (uart s) (serial s) (cur_hi s) (cur_lo s) (crt s) (inp s) (wakes s)) m.
Definition set_inp (f : input -> input) : M cons unit := modify (fun s =>
  MkCons (c_lock s) (locking s) (panicked s) (uart s) (serial s) (cur_hi s) (cur_lo s) (crt s) (f (inp s)) (wakes s)).
Definition set_locking (x : Z) : M cons unit := modify (fun s =>
  MkCons (c_lock s) x (panicked s) (uart s) (serial s) (cur_hi s) (cur_lo s) (crt s) (inp s) (wakes s)).
Definition wakeup : M cons unit := modify (fun s =>
  MkCons (c_lock s) (locking s) (panicked s) (uart s) (serial s) (cur_hi s) (cur_lo s) (crt s) (inp s) (S (wakes s))).
Definition set_crt (f : (Z -> Z) -> Z -> Z) : M cons unit := modify (fun s =>
  MkCons (c_lock s) (locking s) (panicked s) (uart s) (serial s) (cur_hi s) (cur_lo s) (f (crt s)) (inp s) (wakes s)).
Definition set_cursor (hi lo : Z) : M cons unit := modify (fun s =>
  MkCons (c_lock s) (locking s) (panicked s) (uart s) (serial s) hi lo (crt s) (inp s) (wakes s)).

(** *** Output *)
(** [uartputc]: waiting for the port to be ready takes time only. *)
Definition uartputc (c : Z) : M cons unit :=
  u <- reads uart ;;
  if u =? 0 then ret tt else modify (fun s =>
  MkCons (c_lock s) (locking s) (panicked s) (uart s) (serial s ++ [u8 c]) (cur_hi s) (cur_lo s) (crt s) (inp s) (wakes s)).

Definition attr (c : Z) : Z := Z.lor (Z.land c 255) 1792.

Definition cgaputc (c : Z) : M cons unit :=
  s <- reads id ;;
  let pos := Z.lor (Z.shiftl (cur_hi s) 8) (cur_lo s) in
  pos <- (if c =? 10 then ret (pos + (80 - pos mod 80))
          else if c =? BACKSPACE then ret (if 0 <? pos then pos - 1 else pos)
          else set_crt (fun m => <[pos := attr c]> m) ;;; ret (pos + 1)) ;;
  if (pos <? 0) || (25 * 80 <? pos) then panic "pos under/overflow" else
  pos <- (if 24 <=? pos / 80 then
            (* memmove(crt, crt+80, sizeof(crt[0])*23*80) *)
            set_crt (fun m i => if (0 <=? i) && (i <? 23 * 80) then m (i + 80) else m i) ;;;
            let pos := pos - 80 in
            (* memset(crt+pos, 0, sizeof(crt[0])*(24*80 - pos)) *)
            set_crt (fun m i => if (pos <=? i) && (i <? 24 * 80) then 0 else m i) ;;;
            ret pos
          else ret pos) ;;
  set_cursor (u8 (Z.shiftr pos 8)) (u8 pos) ;;;
  set_crt (fun m => <[pos := attr 32]> m).

(** After a panic every processor that prints stops for good. *)
Definition consputc (c : Z) : M cons unit :=
  p <- reads panicked ;;
  if negb (p =? 0) then panic "panicked" else
  (if c =? BACKSPACE then uartputc 8 ;;; uartputc 32 ;;; uartputc 8
   else uartputc c) ;;;
  cgaputc c.

Fixpoint puts (cs : list Z) : M cons unit :=
  match cs with [] => ret tt | c :: cs => consputc c ;;; puts cs end.

Definition printint (xx base : Z) (sign : bool) : M cons unit := puts (Printf.int_chars 97 xx base sign).

Section cprintf.
(** The words above [fmt] on the stack, and the strings in memory.  [fmt] itself is a string,
    so that the panic for a null [fmt] is not among the outcomes. *)
Variables (args : nat -> Z) (str : Z -> list Z).

Fixpoint cprintf_loop (fmt : list Z) (argp : nat) : M cons unit :=
  match fmt with
  | [] => ret tt
  | f :: fmt1 =>
      let c := Z.land f 255 in
      if negb (c =? 37) then consputc c ;;; cprintf_loop fmt1 argp else
      match fmt1 with
      | [] => ret tt
      | f1 :: fmt2 =>
          let c := Z.land f1 255 in
          if c =? 100 then printint (i32 (args argp)) 10 true ;;; cprintf_loop fmt2 (S argp)
          else if (c =? 120) || (c =? 112) then printint (i32 (args argp)) 16 false ;;; cprintf_loop fmt2 (S argp)
          else if c =? 115 then
            puts (if args argp =? 0 then Printf.null_str else str (args argp)) ;;; cprintf_loop fmt2 (S argp)
          else if c =? 37 then consputc 37 ;;; cprintf_loop fmt2 argp
          else consputc 37 ;;; consputc c ;;; cprintf_loop fmt2 argp
      end
  end.
Definition cprintf (fmt : list Z) : M cons unit :=
  l <- reads locking ;;
  when (negb (l =? 0)) (cons_lock Klock.acquire) ;;;
  cprintf_loop fmt 0 ;;;
  when (negb (l =? 0)) (cons_lock Klock.release).
End cprintf.

(** *** Input *)
Definition slot (i : input) (n : Z) : Z := ibuf i !!! Z.to_nat (n mod INPUT_BUF).
Definition with_e (x : Z) (i : input) : input := MkInput (ibuf i) (ir i) (iw i) x.
Definition with_w (x : Z) (i : input) : input := MkInput (ibuf i) (ir i) x (ie i).
Definition with_r (x : Z) (i : input) : input := MkInput (ibuf i) x (iw i) (ie i).
Definition with_slot (n c : Z) (i : input) : input :=
  MkInput (<[Z.to_nat (n mod INPUT_BUF) := u8 c]> (ibuf i)) (ir i) (iw i) (ie i).

Definition no_fuel : string := "out of fuel".

(** Kill line. *)
Fixpoint kill_loop (fuel : nat) : M cons unit :=
  i <- reads inp ;;
  if (ie i =? iw i) || (slot i (u32 (ie i - 1)) =? 10) then ret tt else
  match fuel with
  | O => panic no_fuel
  | S fuel => set_inp (fun i => with_e (u32 (ie i - 1)) i) ;;; consputc BACKSPACE ;;; kill_loop fuel
  end.

(** The [switch] of [consoleintr] for a character other than [C('P')]. *)
Definition consolekey (c : Z) : M cons unit :=
  i <- reads inp ;;
  if c =? C 85 then kill_loop (Z.to_nat (u32 (ie i - iw i)))
  else if (c =? C 72) || (c =? 127) then
    when (negb (ie i =? iw i)) (set_inp (fun i => with_e (u32 (ie i - 1)) i) ;;; consputc BACKSPACE)
  else if negb (c =? 0) && (u32 (ie i - ir i) <? INPUT_BUF) then
    let c := if c =? 13 then 10 else c in
    set_inp (fun i => with_e (u32 (ie i + 1)) (with_slot (ie i) c i)) ;;;
    consputc c ;;;
    i <- reads inp ;;
    when ((c =? 10) || (c =? C 68) || (ie i =? u32 (ir i + INPUT_BUF)))
      (set_inp (fun i => with_w (ie i) i) ;;; wakeup)
  else ret tt.

Section intr.
(** A device's [getc], and [procdump], which prints. *)
Context {H : Type} (getc : M H Z).
Variable procdump : M cons unit.
Definition on_dev {A} (m : M H A) : M (H * cons) A := zoom fst (fun h s => (h, snd s)) m.
Definition on_con {A} (m : M cons A) : M (H * cons) A := zoom snd (fun c s => (fst s, c)) m.

Fixpoint consoleintr_loop (fuel : nat) (doprocdump : bool) : M (H * cons) bool :=
  c <- on_dev getc ;;
  if c <? 0 then ret doprocdump else
  match fuel with
  | O => panic no_fuel
  | S fuel =>
      if c =? C 80 then consoleintr_loop fuel true
      else on_con (consolekey c) ;;; consoleintr_loop fuel doprocdump
  end.
(** [fuel] bounds the characters the device has. *)
Definition consoleintr (fuel : nat) : M (H * cons) unit :=
  on_con (cons_lock Klock.acquire) ;;;
  d <- consoleintr_loop fuel false ;;
  on_con (cons_lock Klock.release) ;;;
  when d (on_con procdump).
End intr.

(** The loop of [consoleread], which ends with the lock released: the result and the bytes
    stored, or that the process sleeps with [n] bytes still to come. *)
Inductive rres := RRet (r : Z) (bs : list Z) | RSleep (n : Z) (bs : list Z).
Fixpoint consoleread_loop (fuel : nat) (killed : bool) (target n : Z) (got : list Z) : M cons rres :=
  let done := cons_lock Klock.release ;;; ret (RRet (i32 (target - n)) got) in
  if negb (0 <? n) then done else
  match fuel with
  | O => panic no_fuel
  | S fuel =>
      i <- reads inp ;;
      if ir i =? iw i then
        if killed then cons_lock Klock.release ;;; ret (RRet (-1) got)
        else cons_lock Klock.release ;;; ret (RSleep n got)
      else
        let c := slot i (ir i) in
        set_inp (fun i => with_r (u32 (ir i + 1)) i) ;;;
        if c =? C 68 then
          when (n <? target) (set_inp (fun i => with_r (u32 (ir i - 1)) i)) ;;;
          done
        else
          let got := got ++ [c] in
          let n := n - 1 in
          if c =? 10 then cons_lock Klock.release ;;; ret (RRet (i32 (target - n)) got)
          else consoleread_loop fuel killed target n got
  end.
(** From the start, and after a [sleep]. *)
Definition read_from (killed : bool) (target n : Z) (got : list Z) : M cons rres :=
  cons_lock Klock.acquire ;;; consoleread_loop (Z.to_nat n) killed target n got.

(** [uartgetc]: [port] is what the serial port has received. *)
Definition uartgetc (present : bool) : M (list Z) Z := fun port =>
  if negb present then Ret (-1) port else
  match port with [] => Ret (-1) [] | c :: port => Ret c port end.

Definition uartintr (present : bool) (procdump : M cons unit) (fuel : nat) : M (list Z * cons) unit :=
  consoleintr (uartgetc present) procdump fuel.
Definition kbdintr (procdump : M cons unit) (fuel : nat) : M (Kbd.kbd * cons) unit :=
  consoleintr Kbd.kbdgetc procdump fuel.

(** *** The device functions, on the kernel's state *)
Section devices.
Context {W : Type} `{!Blocks W}.
(** The console is a part of the state. *)
Variables (get_cons : W -> cons) (put_cons : cons -> W -> W).
Variable me : Z.
Variable killed : bool.
Definition on_cons {A} (m : M cons A) : M (@Fs.fs W) A := Fs.blocks (zoom get_cons put_cons m).
Definition input_chan : chan := ("input"%string, O).

(** [consoleread], up to its first [sleep]. *)
Definition consoleread (ip : nat) (n : Z) : M (@Fs.fs W) (Z * list Z) :=
  Fs.iunlock me ip ;;;
  r <- on_cons (read_from killed (u32 n) n []) ;;
  match r with
  | RRet r bs => Fs.ilock me ip ;;; ret (r, bs)
  | RSleep _ _ => sleep_on input_chan
  end.

Definition consolewrite (ip : nat) (buf : list Z) (n : Z) : M (@Fs.fs W) Z :=
  Fs.iunlock me ip ;;;
  on_cons (cons_lock Klock.acquire) ;;;
  for_loop (A := unit) (fun i => on_cons (consputc (Z.land (buf !!! i) 255)) ;;; ret None) 0 (Z.to_nat n) ;;;
  on_cons (cons_lock Klock.release) ;;;
  Fs.ilock me ip ;;;
  ret n.

(** The entry of [devsw] that [consoleinit] sets. *)
Definition CONSOLE : Z := 1.
Definition console_devsw (devsw : Z -> @Fs.devfun W) (major : Z) : @Fs.devfun W :=
  if major =? CONSOLE then Fs.MkDev (Some consoleread) (Some consolewrite) else devsw major.
Definition consoleinit : M (@Fs.fs W) unit :=
  on_cons (modify (fun s => MkCons false 1 (panicked s) (uart s) (serial s) (cur_hi s) (cur_lo s) (crt s) (inp s) (wakes s))).
End devices.
End Console.
