(* ===== verification/ConsoleSpec.v ===== *)
(** What the console promises ([console.c]).

    [akey] and [aread] are the line editor as it is meant: a queue of finished text and the
    line being typed.  The circular buffer, whose indices wrap around at 32 bits, implements
    it, and the screen's cursor stays on the screen. *)

From S2P Require Import Prelude Params Sleeplock Printf Kbd Console.

Module ConsoleSpec.
Import Console.

(** ** Output *)
(** The cursor is above the last row, and no processor has panicked. *)
Definition screen_ok (s : cons) : Prop :=
  panicked s = 0 /\ exists pos, 0 <= pos < 24 * 80 /\ cur_hi s = pos / 256 /\ cur_lo s = pos mod 256.
(** Only the screen and the serial port change. *)
Record printed (s s' : cons) (out : list Z) : Prop := MkPrinted {
  pr_screen : screen_ok s';
  pr_inp : inp s' = inp s;
  pr_lock : c_lock s' = c_lock s;
  pr_locking : locking s' = locking s;
  pr_wakes : wakes s' = wakes s;
  pr_uart : uart s' = uart s;
  pr_serial : serial s' = serial s ++ (if uart s =? 0 then [] else out)
}.

Lemma printed_refl s : screen_ok s -> printed s s [].
Proof. intros Hs. split; try done. by destruct (uart s =? 0); rewrite app_nil_r. Qed.
Lemma printed_trans s1 s2 s3 o o' : printed s1 s2 o -> printed s2 s3 o' -> printed s1 s3 (o ++ o').
Proof.
  intros [] []. split; try congruence. rewrite pr_serial1, pr_serial0, pr_uart0, <- app_assoc. by destruct (uart s1 =? 0).
Qed.

Lemma cursor_pos pos : 0 <= pos -> Z.lor (Z.shiftl (pos / 256) 8) (pos mod 256) = pos.
Proof.
  intros Hp. rewrite Z.shiftl_mul_pow2, Z.mul_comm, lor_add by (try lia; apply Z.mod_pos_bound; lia).
  change (2 ^ 8) with 256. pose proof (Z.div_mod pos 256). lia.
Qed.

(** [cgaputc] leaves the cursor on the screen, whatever is printed. *)
Lemma cgaputc_ok c s : screen_ok s -> exists s', cgaputc c s = Ret tt s' /\ screen_ok s' /\
  inp s' = inp s /\ c_lock s' = c_lock s /\ locking s' = locking s /\ wakes s' = wakes s /\ uart s' = uart s /\ serial s' = serial s.
Proof.
  intros (Hp & pos & Hpos & Hhi & Hlo). unfold cgaputc. rewrite bind_reads. cbn [id]. rewrite Hhi, Hlo, cursor_pos by lia.
  set (pos1 := if c =? 10 then pos + (80 - pos mod 80) else if c =? BACKSPACE then if 0 <? pos then pos - 1 else pos else pos + 1).
  assert (Hp1 : 0 <= pos1 <= 24 * 80).
  { unfold pos1. pose proof (Z.mod_pos_bound pos 80 ltac:(lia)). pose proof (Z.div_mod pos 80 ltac:(lia)).
    assert (pos / 80 <= 23) by (apply Z.lt_succ_r, Z.div_lt_upper_bound; lia).
    destruct (c =? 10); [lia|]. destruct (c =? BACKSPACE); [destruct (Z.ltb_spec 0 pos); lia|lia]. }
  set (m1 := if (c =? 10) || (c =? BACKSPACE) then crt s else <[pos := attr c]> (crt s)).
  set (s1 := MkCons (c_lock s) (locking s) (panicked s) (uart s) (serial s) (cur_hi s) (cur_lo s) m1 (inp s) (wakes s)).
  rewrite (bind_Ret _ _ s pos1 s1) by (unfold pos1, s1, m1; destruct s; by destruct (c =? 10), (c =? BACKSPACE)).
  destruct (Z.ltb_spec pos1 0), (Z.ltb_spec (25 * 80) pos1); try lia. cbn [orb].
  set (scroll := 24 <=? pos1 / 80). set (pos2 := if scroll then pos1 - 80 else pos1).
  assert (Hp2 : 0 <= pos2 < 24 * 80).
  { unfold pos2, scroll. destruct (Z.leb_spec 24 (pos1 / 80)) as [Hd|Hd].
    - assert (24 * 80 <= pos1) by (pose proof (Z.mul_div_le pos1 80 ltac:(lia)); lia). lia.
    - pose proof (Z.div_mod pos1 80 ltac:(lia)). pose proof (Z.mod_pos_bound pos1 80 ltac:(lia)). lia. }
  assert (exists m2, (if scroll then set_crt (fun m i => if (0 <=? i) && (i <? 23 * 80) then m (i + 80) else m i) ;;;
      (let pos := pos1 - 80 in set_crt (fun m i => if (pos <=? i) && (i <? 24 * 80) then 0 else m i) ;;; ret pos) else ret pos1) s1
    = Ret pos2 (MkCons (c_lock s) (locking s) (panicked s) (uart s) (serial s) (cur_hi s) (cur_lo s) m2 (inp s) (wakes s))) as [m2 E2].
  { unfold pos2. destruct scroll; eexists; reflexivity. }
  rewrite (bind_Ret _ _ _ _ _ E2). eexists. split; [reflexivity|]. cbn. split_and!; try done.
  split; [done|]. exists pos2. split; [done|]. unfold u8. rewrite Z.shiftr_div_pow2 by lia. change (2 ^ 8) with 256. split; [|done].
  apply Z.mod_small. split; [apply Z.div_pos; lia|apply Z.div_lt_upper_bound; lia].
Qed.

Definition echo (c : Z) : list Z := if c =? BACKSPACE then [8; 32; 8] else [u8 c].
Lemma consputc_ok c s : screen_ok s -> exists s', consputc c s = Ret tt s' /\ printed s s' (echo c).
Proof.
  intros Hs. pose proof Hs as [Hp _]. unfold consputc. rewrite bind_reads, Hp. cbn [negb Z.eqb].
  set (s1 := MkCons (c_lock s) (locking s) (panicked s) (uart s) (serial s ++ (if uart s =? 0 then [] else echo c)) (cur_hi s) (cur_lo s) (crt s) (inp s) (wakes s)).
  rewrite (bind_Ret _ _ s tt s1).
  - destruct (cgaputc_ok c s1 Hs) as (s' & E & ? & ? & ? & ? & ? & ? & Es). exists s'. split; [done|]. by split.
  - unfold s1, echo, uartputc, bind, reads, modify, ret. destruct (c =? BACKSPACE), (uart s =? 0) eqn:Eu; cbn; rewrite ?Eu; cbn; rewrite ?Eu; cbn;
      rewrite ?app_nil_r, <- ?app_assoc; by destruct s.
Qed.
Lemma puts_ok cs s : screen_ok s -> exists s', puts cs s = Ret tt s' /\ printed s s' (concat (map echo cs)).
Proof.
  revert s. induction cs as [|c cs IH]; intros s Hs; cbn [puts map concat]; [exists s; split; [done|by apply printed_refl]|].
  destruct (consputc_ok c s Hs) as (s1 & E1 & H1). destruct (IH s1 (pr_screen _ _ _ H1)) as (s2 & E2 & H2).
  exists s2. rewrite (bind_Ret _ _ _ _ _ E1). split; [done|by eapply printed_trans].
Qed.

(** ** The line editor *)
(** Finished text that has not been read, and the line being typed. *)
Record ed := MkEd { fin : list Z; line : list Z }.

Definition akey (c : Z) (a : ed) : ed :=
  if c =? C 80 then a
  else if c =? C 85 then MkEd (fin a) []
  else if (c =? C 72) || (c =? 127) then MkEd (fin a) (removelast (line a))
  else if negb (c =? 0) && (Z.of_nat (length (fin a) + length (line a)) <? INPUT_BUF) then
    let c := if c =? 13 then 10 else c in
    let l := line a ++ [u8 c] in
    if (c =? 10) || (c =? C 68) || (Z.of_nat (length (fin a) + length l) =? INPUT_BUF) then MkEd (fin a ++ l) [] else MkEd (fin a) l
  else a.
(** A read takes up to a line, or up to the end-of-file mark, which is left for the next read
    if there is something before it. *)
Fixpoint aread (killed : bool) (q : list Z) (target n : Z) (got : list Z) : rres * list Z :=
  if negb (0 <? n) then (RRet (target - n) got, q) else
  match q with
  | [] => (if killed then RRet (-1) got else RSleep n got, [])
  | c :: q' =>
      if c =? C 68 then (RRet (target - n) got, if n <? target then q else q')
      else if c =? 10 then (RRet (target - (n - 1)) (got ++ [c]), q')
      else aread killed q' target (n - 1) (got ++ [c])
  end.

(** The buffer holds the text. *)
Record holds (i : input) (a : ed) : Prop := MkHolds {
  h_len : length (ibuf i) = Z.to_nat INPUT_BUF;
  h_r : 0 <= ir i < 2 ^ 32;
  h_w : iw i = u32 (ir i + Z.of_nat (length (fin a)));
  h_e : ie i = u32 (ir i + Z.of_nat (length (fin a ++ line a)));
  h_max : Z.of_nat (length (fin a ++ line a)) <= INPUT_BUF;
  h_slot : forall j x, (fin a ++ line a) !! j = Some x -> slot i (ir i + Z.of_nat j) = x;
  h_nl : 10 ∉ line a
}.

Lemma u32_mod128 x : u32 x mod 128 = x mod 128.
Proof. unfold u32. apply Z.mod_mod_divide. by exists 33554432. Qed.
Lemma slot_u32 i x : slot i (u32 x) = slot i x.
Proof. unfold slot, INPUT_BUF. by rewrite u32_mod128. Qed.
Lemma u32_diff r a b : 0 <= b - a < 2 ^ 32 -> u32 (u32 (r + b) - u32 (r + a)) = b - a.
Proof. intros H. rewrite u32_sub_l, u32_sub_r. replace (r + b - (r + a)) with (b - a) by lia. apply u32_id. lia. Qed.
Lemma u32_eqb r a b : 0 <= b - a < 2 ^ 32 -> (u32 (r + b) =? u32 (r + a)) = (b =? a).
Proof.
  intros H. pose proof (u32_diff r a b H) as Hd. destruct (Z.eqb_spec b a) as [->|Hne]; [apply Z.eqb_refl|].
  apply Z.eqb_neq. intros E. rewrite E, Z.sub_diag in Hd. change (u32 0) with 0 in Hd. lia.
Qed.
Lemma u32_pred r a : u32 (u32 (r + a) - 1) = u32 (r + (a - 1)).
Proof. rewrite u32_sub_l. f_equal. lia. Qed.

(** Taking back the last character of the line. *)
Lemma holds_back i a x l : holds i a -> line a = l ++ [x] ->
  (ie i =? iw i) = false /\ slot i (u32 (ie i - 1)) = x /\ holds (with_e (u32 (ie i - 1)) i) (MkEd (fin a) l).
Proof.
  intros [Hl Hr Hw He Hm Hs Hn] E. rewrite E in *. rewrite app_assoc in Hm, He, Hs. unfold INPUT_BUF in *.
  assert (El : length ((fin a ++ l) ++ [x]) = S (length (fin a ++ l))) by (rewrite length_app; cbn; lia). rewrite El in Hm, He.
  assert (Epred : u32 (ie i - 1) = u32 (ir i + Z.of_nat (length (fin a ++ l)))) by (rewrite He, u32_pred; f_equal; lia).
  split_and!.
  - rewrite length_app in He, Hm. rewrite He, Hw, u32_eqb; [apply Z.eqb_neq|]; lia.
  - rewrite Epred, slot_u32. apply Hs. by rewrite lookup_app_r, Nat.sub_diag by lia.
  - split; cbn [fin line ie ir iw with_e ibuf]; [exact Hl|exact Hr|exact Hw|exact Epred|unfold INPUT_BUF; lia| |set_solver].
    intros j y Hy. apply (Hs j y). by apply lookup_app_l_Some.
Qed.
Lemma holds_empty i a : holds i a -> line a = [] -> (ie i =? iw i) = true.
Proof. intros [Hl Hr Hw He Hm Hs Hn] E. rewrite E, app_nil_r in He. rewrite He, Hw. apply Z.eqb_refl. Qed.

Lemma kill_ok n : forall s a, screen_ok s -> holds (inp s) a -> length (line a) = n ->
  exists s' out, kill_loop n s = Ret tt s' /\ holds (inp s') (MkEd (fin a) []) /\
    printed (MkCons (c_lock s) (locking s) (panicked s) (uart s) (serial s) (cur_hi s) (cur_lo s) (crt s) (inp s') (wakes s)) s' out.
Proof.
  induction n as [|n IH]; intros s a Hsc Hh Hn; cbn [kill_loop]; rewrite bind_reads.
  - destruct a as [f [|]]; [|done]. rewrite (holds_empty _ _ Hh eq_refl). cbn [orb]. exists s, []. split; [done|]. split; [done|]. destruct s. by apply printed_refl.
  - destruct (exists_last (l := line a)) as (l & x & E); [by intros E; rewrite E in Hn|].
    destruct (holds_back _ _ _ _ Hh E) as (H1 & H2 & H3). rewrite H1, H2. cbn [orb].
    assert ((x =? 10) = false) as -> by (apply Z.eqb_neq; intros ->; apply (h_nl _ _ Hh); rewrite E; set_solver).
    unfold set_inp at 1. rewrite bind_modify. set (s1 := MkCons _ _ _ _ _ _ _ _ _ _).
    destruct (consputc_ok BACKSPACE s1 Hsc) as (s2 & E2 & P2). rewrite (bind_Ret _ _ _ _ _ E2).
    destruct (IH s2 (MkEd (fin a) l) (pr_screen _ _ _ P2)) as (s' & out & E' & Hh' & P'); [by rewrite (pr_inp _ _ _ P2)|rewrite E, length_app in Hn; cbn in *; lia|].
    exists s', (echo BACKSPACE ++ out). split; [done|]. split; [done|]. destruct P2, P'. cbn in *. split; cbn; try congruence.
    rewrite pr_serial1, pr_serial0, pr_uart0, <- app_assoc. by destruct (uart s =? 0).
Qed.

(** Adding a character at the edit index. *)
Lemma push_slots i a c : holds i a -> Z.of_nat (length (fin a ++ line a)) < INPUT_BUF ->
  forall j x, ((fin a ++ line a) ++ [u8 c]) !! j = Some x -> slot (with_slot (ie i) c i) (ir i + Z.of_nat j) = x.
Proof.
  intros [Hl Hr Hw He Hm Hs Hn] Hlt j x Hx. set (n := length (fin a ++ line a)) in *.
  assert (Hie : ie i mod INPUT_BUF = (ir i + Z.of_nat n) mod INPUT_BUF).
  { rewrite He. unfold INPUT_BUF. apply u32_mod128. }
  unfold slot, with_slot. cbn [ibuf]. rewrite Hie. unfold INPUT_BUF in *.
  pose proof (Z.mod_pos_bound (ir i + Z.of_nat n) 128 ltac:(lia)). pose proof (Z.mod_pos_bound (ir i + Z.of_nat j) 128 ltac:(lia)).
  apply lookup_app_Some in Hx as [Hx|[Hj Hx]].
  - pose proof (lookup_lt_Some _ _ _ Hx) as Hjn. fold n in Hjn. rewrite list_lookup_total_insert_ne; [by apply Hs|].
    intros E. apply Z2Nat.inj in E; [|lia..]. pose proof (Z.div_mod (ir i + Z.of_nat n) 128 ltac:(lia)).
    pose proof (Z.div_mod (ir i + Z.of_nat j) 128 ltac:(lia)). lia.
  - apply list_lookup_singleton_Some in Hx as [Hj0 <-]. fold n in Hj, Hj0. replace j with n by lia. apply list_lookup_total_insert_eq. rewrite Hl. lia.
Qed.
Lemma length_ed (a : ed) x : length (fin a ++ line a ++ [x]) = S (length (fin a ++ line a)).
Proof. rewrite !length_app. cbn. lia. Qed.
Lemma holds_push i a c : holds i a -> Z.of_nat (length (fin a ++ line a)) < INPUT_BUF -> u8 c <> 10 ->
  holds (with_e (u32 (ie i + 1)) (with_slot (ie i) c i)) (MkEd (fin a) (line a ++ [u8 c])).
Proof.
  intros Hh Hlt Hc. pose proof (push_slots i a c Hh Hlt) as Hp. destruct Hh as [Hl Hr Hw He Hm Hs Hn].
  split; cbn [fin line ie ir iw ibuf with_e with_slot]; rewrite ?length_ed.
  - by rewrite length_insert.
  - done.
  - done.
  - rewrite He, u32_add_l. f_equal. lia.
  - lia.
  - rewrite app_assoc. exact Hp.
  - set_solver.
Qed.
Lemma holds_commit i a c : holds i a -> Z.of_nat (length (fin a ++ line a)) < INPUT_BUF ->
  let i' := with_e (u32 (ie i + 1)) (with_slot (ie i) c i) in
  holds (with_w (ie i') i') (MkEd (fin a ++ line a ++ [u8 c]) []).
Proof.
  intros Hh Hlt i'. pose proof (push_slots i a c Hh Hlt) as Hp. destruct Hh as [Hl Hr Hw He Hm Hs Hn].
  assert (Ee : ie i' = u32 (ir i + Z.of_nat (length (fin a ++ line a ++ [u8 c])))).
  { unfold i'. cbn [ie with_e]. rewrite He, u32_add_l, length_ed. f_equal. lia. }
  split; cbn [fin line]; rewrite ?app_nil_r.
  - unfold i'. cbn. by rewrite length_insert.
  - done.
  - exact Ee.
  - exact Ee.
  - rewrite length_ed. lia.
  - rewrite app_assoc. exact Hp.
  - set_solver.
Qed.

(** A key: only the text, the screen and the count of wakeups change. *)
Record edited (s s' : cons) : Prop := MkEdited {
  e_screen : screen_ok s';
  e_lock : c_lock s' = c_lock s;
  e_locking : locking s' = locking s;
  e_uart : uart s' = uart s
}.
Lemma eqb_u8 c : 0 <= c < 256 -> u8 c = c.
Proof. intros. unfold u8. apply Z.mod_small. lia. Qed.
Lemma ie_full i a : holds i a -> (u32 (ie i - ir i) <? INPUT_BUF) = (Z.of_nat (length (fin a) + length (line a)) <? INPUT_BUF).
Proof.
  intros Hh. pose proof (h_max _ _ Hh). rewrite (h_e _ _ Hh), u32_sub_l, length_app. replace (ir i + _ - ir i) with (Z.of_nat (length (fin a) + length (line a))) by lia.
  rewrite u32_id; [done|]. rewrite length_app in *. unfold INPUT_BUF in *. lia.
Qed.

Lemma consolekey_ok c s a : screen_ok s -> holds (inp s) a -> 0 <= c < 256 -> c <> C 80 ->
  exists s', consolekey c s = Ret tt s' /\ holds (inp s') (akey c a) /\ edited s s' /\
    (wakes s' = if bool_decide (fin (akey c a) = fin a) then wakes s else S (wakes s)).
Proof.
  intros Hsc Hh Hc HP. unfold consolekey, akey. rewrite bind_reads, (proj2 (Z.eqb_neq _ _) HP).
  destruct (c =? C 85).
  { assert (Z.to_nat (u32 (ie (inp s) - iw (inp s))) = length (line a)) as ->.
    { destruct Hh as [Hl Hr Hw He Hm Hs Hn]. rewrite He, Hw, length_app, u32_diff; unfold INPUT_BUF in *; rewrite length_app in *; lia. }
    destruct (kill_ok (length (line a)) s a Hsc Hh eq_refl) as (s' & out & E & Hh' & P). exists s'. split_and!; [done..| |].
    - destruct P. by split.
    - rewrite bool_decide_eq_true_2 by done. by destruct P. }
  destruct ((c =? C 72) || (c =? 127)).
  { destruct (decide (line a = [])) as [E|E].
    - rewrite (holds_empty _ _ Hh E). exists s. cbn. rewrite E. cbn. rewrite bool_decide_eq_true_2 by done. split_and!; [done| |by split|done].
      destruct a; cbn in *. by subst.
    - destruct (exists_last E) as (l & x & El). destruct (holds_back _ _ _ _ Hh El) as (H1 & _ & H3). rewrite H1. cbn [negb when].
      unfold set_inp. rewrite bind_modify. set (s1 := MkCons _ _ _ _ _ _ _ _ _ _). destruct (consputc_ok BACKSPACE s1 Hsc) as (s2 & E2 & P2).
      exists s2. rewrite El, removelast_last. rewrite bool_decide_eq_true_2 by done. split; [done|]. rewrite (pr_inp _ _ _ P2).
      split_and!; [done|by destruct P2|by rewrite (pr_wakes _ _ _ P2)]. }
  rewrite (ie_full _ _ Hh). destruct (negb (c =? 0)); cbn [andb].
  2:{ exists s. rewrite bool_decide_eq_true_2 by done. by split_and!. }
  destruct (Z.ltb_spec (Z.of_nat (length (fin a) + length (line a))) INPUT_BUF) as [Hlt|Hge].
  2:{ exists s. rewrite bool_decide_eq_true_2 by done. by split_and!. }
  rewrite <- length_app in Hlt. set (c1 := if c =? 13 then 10 else c). assert (Hc1 : u8 c1 = c1) by (unfold c1; destruct (c =? 13); [done|by apply eqb_u8]).
  unfold set_inp at 1. rewrite bind_modify. set (s1 := MkCons _ _ _ _ _ _ _ _ _ _). destruct (consputc_ok c1 s1 Hsc) as (s2 & E2 & P2).
  rewrite (bind_Ret _ _ _ _ _ E2), bind_reads, (pr_inp _ _ _ P2). unfold s1 at 1 2. cbn [inp ie ir with_e with_slot].
  assert (Efull : (u32 (ie (inp s) + 1) =? u32 (ir (inp s) + INPUT_BUF)) = (Z.of_nat (length (fin a) + length (line a ++ [u8 c1])) =? INPUT_BUF)).
  { rewrite (h_e _ _ Hh), u32_add_l. replace (ir (inp s) + _ + 1) with (ir (inp s) + Z.of_nat (length (fin a) + length (line a ++ [u8 c1]))) by (rewrite !length_app; cbn; lia).
    rewrite Z.eqb_sym, u32_eqb; [apply Z.eqb_sym|]. rewrite !length_app in *. cbn. unfold INPUT_BUF in *. lia. }
  rewrite Efull. destruct ((c1 =? 10) || (c1 =? C 68) || (Z.of_nat (length (fin a) + length (line a ++ [u8 c1])) =? INPUT_BUF)) eqn:Ecommit; cbn [when].
  - eexists. split; [reflexivity|]. cbn [inp wakes fin]. rewrite (pr_inp _ _ _ P2). split_and!; [by apply holds_commit| |].
    + destruct P2. by split.
    + rewrite bool_decide_eq_false_2; [cbn; by rewrite (pr_wakes _ _ _ P2)|]. intros E. apply (f_equal length) in E. rewrite !length_app in E. cbn in E. lia.
  - exists s2. split; [done|]. rewrite (pr_inp _ _ _ P2). split_and!; [apply holds_push; [done|done|]|by destruct P2|].
    + rewrite Hc1. intros ->. done.
    + cbn [fin]. rewrite bool_decide_eq_true_2 by done. by rewrite (pr_wakes _ _ _ P2).
Qed.

(** ** Interrupts *)
(** A device gives characters until it has no more. *)
Inductive gives {H} (getc : M H Z) : H -> list Z -> H -> Prop :=
| gives_nil h c h' : getc h = Ret c h' -> c < 0 -> gives getc h [] h'
| gives_cons h c h1 cs h' : getc h = Ret c h1 -> 0 <= c < 256 -> gives getc h1 cs h' -> gives getc h (c :: cs) h'.

Definition akeys (cs : list Z) (a : ed) : ed := foldl (fun a c => akey c a) a cs.
Lemma akey_P a : akey (C 80) a = a.
Proof. done. Qed.

(** Either no text was finished or a reader has been woken up. *)
Definition woken (s s' : cons) (a a' : ed) : Prop :=
  (fin a' = fin a /\ wakes s' = wakes s) \/ (wakes s < wakes s')%nat.

Lemma intr_loop_ok {H} (getc : M H Z) h cs h' : gives getc h cs h' -> forall fuel d s a,
  (length cs <= fuel)%nat -> screen_ok s -> holds (inp s) a ->
  exists s', consoleintr_loop getc fuel d (h, s) = Ret (d || bool_decide (C 80 ∈ cs)) (h', s') /\
    holds (inp s') (akeys cs a) /\ edited s s' /\ woken s s' a (akeys cs a).
Proof.
  induction 1 as [h c h' Hg Hc|h c h1 cs h' Hg Hc _ IH]; intros fuel d s a Hf Hsc Hh.
  - exists s. split; [|split_and!; [done|by split|by left]]. destruct fuel; cbn [consoleintr_loop]; unfold on_dev;
      rewrite (bind_Ret _ _ _ _ _ (zoom_Ret fst _ _ (h, s) _ _ Hg)); rewrite (proj2 (Z.ltb_lt _ _) Hc); unfold ret; rewrite orb_false_r; done.
  - destruct fuel as [|fuel]; [cbn in Hf; lia|]. cbn [consoleintr_loop length] in *. unfold on_dev.
    rewrite (bind_Ret _ _ _ _ _ (zoom_Ret fst _ _ (h, s) _ _ Hg)). destruct (Z.ltb_spec c 0); [lia|]. cbn [snd].
    destruct (Z.eqb_spec c (C 80)) as [->|Hne].
    + destruct (IH fuel true s a ltac:(lia) Hsc Hh) as (s' & E & Hh' & He & Hw). exists s'. split_and!; [|done..].
      rewrite E. cbn [orb]. rewrite bool_decide_eq_true_2 by set_solver. by rewrite orb_true_r.
    + destruct (consolekey_ok c s a Hsc Hh Hc Hne) as (s1 & E1 & Hh1 & He1 & Hw1). unfold on_con.
      rewrite (bind_Ret _ _ _ _ _ (zoom_Ret snd _ _ (h1, s) _ _ E1)). cbn [fst].
      destruct (IH fuel d s1 (akey c a) ltac:(lia) (e_screen _ _ He1) Hh1) as (s' & E & Hh' & He & Hw). exists s'. split_and!; [|done|..].
      * rewrite E. do 2 f_equal. apply bool_decide_ext. set_solver.
      * destruct He, He1. split; congruence.
      * change (akeys (c :: cs) a) with (akeys cs (akey c a)). unfold woken in *. 
        clear E. case_bool_decide as Hb; destruct Hw as [[Hf1 Hw2]|Hw2]; [left|right; lia..]. split; [by rewrite Hf1|lia].
Qed.
Lemma consoleintr_ok {H} (getc : M H Z) procdump h cs h' fuel s a : gives getc h cs h' ->
  (length cs <= fuel)%nat -> screen_ok s -> c_lock s = false -> holds (inp s) a -> C 80 ∉ cs ->
  exists s', consoleintr getc procdump fuel (h, s) = Ret tt (h', s') /\
    holds (inp s') (akeys cs a) /\ edited s s' /\ woken s s' a (akeys cs a).
Proof.
  intros Hg Hf Hsc Hl Hh HP. destruct s as [lk lo pa ua se hi cl crt_ inp_ wk]. cbn in Hl. subst lk. unfold consoleintr.
  set (s1 := MkCons true lo pa ua se hi cl crt_ inp_ wk).
  rewrite (bind_Ret (on_con (cons_lock Klock.acquire)) _ _ tt (h, s1)) by reflexivity.
  destruct (intr_loop_ok getc h cs h' Hg fuel false s1 a Hf Hsc Hh) as (s2 & E & Hh2 & He2 & Hw2). rewrite (bind_Ret _ _ _ _ _ E).
  destruct s2 as [lk2 lo2 pa2 ua2 se2 hi2 cl2 crt2 inp2 wk2]. pose proof (e_lock _ _ He2) as El. cbn in El. subst lk2.
  exists (MkCons false lo2 pa2 ua2 se2 hi2 cl2 crt2 inp2 wk2). cbn [orb]. rewrite (bool_decide_eq_false_2 _ HP). split; [reflexivity|].
  split_and!; [exact Hh2| |exact Hw2]. destruct He2. by split.
Qed.

(** ** Reading *)
Definition unlocked (s : cons) (i : input) : cons :=
  MkCons false (locking s) (panicked s) (uart s) (serial s) (cur_hi s) (cur_lo s) (crt s) i (wakes s).
Definition locked (s : cons) (i : input) : cons :=
  MkCons true (locking s) (panicked s) (uart s) (serial s) (cur_hi s) (cur_lo s) (crt s) i (wakes s).

Lemma holds_take i a c q : holds i a -> fin a = c :: q ->
  (ir i =? iw i) = false /\ slot i (ir i) = c /\ holds (with_r (u32 (ir i + 1)) i) (MkEd q (line a)).
Proof.
  intros [Hl Hr Hw He Hm Hs Hn] E. rewrite E in *. cbn [app length] in *. unfold INPUT_BUF in *. split_and!.
  - rewrite Hw, <- (u32_id (ir i)) at 1 by lia. rewrite <- (Z.add_0_r (ir i)) at 1. rewrite Z.eqb_sym, u32_eqb; [apply Z.eqb_neq|]; rewrite ?length_app in *; lia.
  - pose proof (Hs 0%nat c eq_refl) as H0. by rewrite Z.add_0_r in H0.
  - split; cbn [fin line ir iw ie ibuf with_r]; unfold INPUT_BUF; [done|apply u32_range| | |lia| |done].
    + rewrite Hw, u32_add_l. f_equal. lia.
    + rewrite He, u32_add_l. f_equal. lia.
    + intros j x Hx. rewrite <- (Hs (S j) x Hx), <- slot_u32, u32_add_l, slot_u32.
      unfold slot. cbn [ibuf]. do 3 f_equal. lia.
Qed.
Lemma holds_none i a : holds i a -> fin a = [] -> (ir i =? iw i) = true.
Proof. intros [Hl Hr Hw He Hm Hs Hn] E. rewrite Hw, E. cbn [length]. rewrite Z.add_0_r, u32_id by lia. apply Z.eqb_refl. Qed.
Lemma with_r_back i : 0 <= ir i < 2 ^ 32 -> with_r (u32 (u32 (ir i + 1) - 1)) (with_r (u32 (ir i + 1)) i) = i.
Proof.
  intros Hr. rewrite u32_sub_l. replace (ir i + 1 - 1) with (ir i) by lia. rewrite u32_id by lia. by destruct i.
Qed.

Lemma read_loop_ok killed target fuel : target < 2 ^ 31 -> forall n got s i a, holds i a -> n <= Z.of_nat fuel -> 0 <= n <= target ->
  exists i', consoleread_loop fuel killed target n got (locked s i) = Ret (fst (aread killed (fin a) target n got)) (unlocked s i') /\
    holds i' (MkEd (snd (aread killed (fin a) target n got)) (line a)).
Proof.
  intros Ht. induction fuel as [|fuel IH]; intros n got s i a Hh Hf Hn; cbn [consoleread_loop].
  { assert (n = 0) as -> by lia. cbn [Z.ltb negb]. exists i. destruct (fin a) eqn:E; cbn [aread Z.ltb negb fst snd]; (split; [by rewrite i32_id by lia|]); rewrite <- E; by destruct a. }
  destruct (Z.ltb_spec 0 n) as [Hp|Hz]; cbn [negb].
  2:{ assert (n = 0) as -> by lia. exists i. destruct (fin a) eqn:E; cbn [aread Z.ltb negb fst snd]; (split; [by rewrite i32_id by lia|]); rewrite <- E; by destruct a. }
  rewrite bind_reads. change (inp (locked s i)) with i. destruct (fin a) as [|c q] eqn:E; cbn [aread]; rewrite (proj2 (Z.ltb_lt _ _) Hp); cbn [negb].
  { rewrite (holds_none _ _ Hh E). exists i. cbn [snd]. assert (holds i (MkEd [] (line a))) by (rewrite <- E; by destruct a). by destruct killed. }
  destruct (holds_take _ _ _ _ Hh E) as (H1 & H2 & H3). rewrite H1, H2. unfold set_inp at 1. rewrite bind_modify.
  change (MkCons _ _ _ _ _ _ _ _ _ _) with (locked s (with_r (u32 (ir i + 1)) i)).
  destruct (c =? C 68).
  { destruct (n <? target) eqn:Ent; cbn [when fst snd].
    - exists i. split; [|rewrite <- E; by destruct a]. unfold set_inp. rewrite bind_modify. cbn [inp ir with_r locked].
      rewrite with_r_back by apply Hh. by rewrite i32_id by lia.
    - eexists. split; [|exact H3]. by rewrite i32_id by lia. }
  destruct (c =? 10).
  { eexists. split; [|exact H3]. by rewrite i32_id by lia. }
  by apply (IH (n - 1) (got ++ [c]) s (with_r (u32 (ir i + 1)) i) (MkEd q (line a)) H3); lia.
Qed.
Lemma read_from_ok killed target n got s a : holds (inp s) a -> c_lock s = false -> 0 <= n <= target -> target < 2 ^ 31 ->
  exists i', read_from killed target n got s = Ret (fst (aread killed (fin a) target n got)) (unlocked s i') /\
    holds i' (MkEd (snd (aread killed (fin a) target n got)) (line a)).
Proof.
  intros Hh Hl Hn Ht. unfold read_from. rewrite (bind_Ret _ _ _ tt (locked s (inp s))); [|destruct s; cbn in *; by subst].
  apply read_loop_ok; [done|done|lia|done].
Qed.

(** ** Runs *)
(** Characters arrive at the serial port, or a process reads: [n] bytes of [target] are
    missing, all of them when the read begins and fewer when it goes on after a sleep. *)
Inductive event := Typed (cs : list Z) | Read (killed : bool) (target n : Z).
Definition well (e : event) : Prop :=
  match e with
  | Typed cs => Forall (fun c => 0 <= c < 256) cs /\ C 80 ∉ cs
  | Read _ target n => 0 <= n <= target /\ target < 2 ^ 31
  end.

Definition crun1 (procdump : M cons unit) (e : event) : M cons (option rres) :=
  match e with
  | Typed cs => fun s =>
      match uartintr true procdump (length cs) (cs, s) with
      | Ret _ s' => Ret None (snd s')
      | Panic msg => Panic msg
      | Sleep ch s' => Sleep ch (snd s')
      end
  | Read killed target n => r <- read_from killed target n [] ;; ret (Some r)
  end.
Definition arun1 (e : event) (a : ed) : option rres * ed :=
  match e with
  | Typed cs => (None, akeys cs a)
  | Read killed target n => let '(r, q) := aread killed (fin a) target n [] in (Some r, MkEd q (line a))
  end.
Fixpoint crun (procdump : M cons unit) (es : list event) : M cons (list (option rres)) :=
  match es with [] => ret [] | e :: es => r <- crun1 procdump e ;; rs <- crun procdump es ;; ret (r :: rs) end.
Fixpoint arun (es : list event) (a : ed) : list (option rres) * ed :=
  match es with
  | [] => ([], a)
  | e :: es => let '(r, a) := arun1 e a in let '(rs, a) := arun es a in (r :: rs, a)
  end.

Record sound (s : cons) (a : ed) : Prop := MkSound {
  s_screen : screen_ok s;
  s_lock : c_lock s = false;
  s_holds : holds (inp s) a
}.

Lemma uart_gives cs : Forall (fun c => 0 <= c < 256) cs -> gives (uartgetc true) cs cs [].
Proof. induction 1 as [|c cs Hc _ IH]; [by eapply gives_nil|by eapply gives_cons]. Qed.

Lemma crun1_ok procdump e s a : sound s a -> well e ->
  exists s', crun1 procdump e s = Ret (fst (arun1 e a)) s' /\ sound s' (snd (arun1 e a)).
Proof.
  intros [Hs Hl Hh]. destruct e as [cs|killed target n]; cbn [well crun1 arun1 fst snd].
  - intros [Hb HP]. unfold uartintr.
    destruct (consoleintr_ok (uartgetc true) procdump cs cs [] (length cs) s a (uart_gives cs Hb) (le_n _) Hs Hl Hh HP) as (s' & E & Hh' & [] & _).
    exists s'. rewrite E. split; [done|]. split; [done|congruence|done].
  - intros [Hn Ht]. destruct (read_from_ok killed target n [] s a Hh Hl Hn Ht) as (i' & E & Hh').
    destruct (aread killed (fin a) target n []) as [r q]. exists (unlocked s i'). by rewrite (bind_Ret _ _ _ _ _ E).
Qed.

(** C23: the console's circular buffer implements the line editor: for characters arriving at
    the serial port and reads in any order, each read returns what the editor gives (a line,
    the text before an end-of-file mark, as much as was asked for, or the process sleeps),
    backspace and kill-line work on the unfinished line only, and nothing panics; the
    indices may wrap around at 32 bits. *)
Theorem console_refines procdump es s a : sound s a -> Forall well es ->
  exists s', crun procdump es s = Ret (fst (arun es a)) s' /\ sound s' (snd (arun es a)).
Proof.
  intros Hs He. revert s a Hs. induction He as [|e es Hw _ IH]; intros s a Hs; [by exists s|]. cbn [crun arun].
  destruct (crun1_ok procdump e s a Hs Hw) as (s1 & E1 & Hs1). rewrite (bind_Ret _ _ _ _ _ E1). destruct (arun1 e a) as [r a1]. cbn [fst snd] in *.
  destruct (IH s1 a1 Hs1) as (s2 & E2 & Hs2). rewrite (bind_Ret _ _ _ _ _ E2). destruct (arun es a1). by exists s2.
Qed.

(** *** From the keyboard to the reader *)
Lemma key_range sh d : 0 <= fst (KbdSpec.key sh d) < 256.
Proof.
  assert (Ht : forall i x, 0 <= Kbd.charcode i x < 256).
  { intros i x. unfold Kbd.charcode, Kbd.normalmap, Kbd.shiftmap, Kbd.ctlmap, Kbd.table. repeat case_match; apply u8_range. }
  unfold KbdSpec.key, Kbd.kbdgetc, Kbd.set_shift, bind, reads, modify, ret. cbn [Kbd.port Kbd.shift].
  destruct (d =? 224); [done|]. destruct (negb (Z.land d 128 =? 0)); [done|].
  destruct (negb (Z.land sh Kbd.E0ESC =? 0)); cbv beta iota zeta; cbn [fst Kbd.shift].
  all: match goal with |- context [Kbd.charcode ?i ?x] => pose proof (Ht i x); set (c := Kbd.charcode i x) in * end;
    repeat case_match; b2p; lia.
Qed.
Lemma kbd_gives ds : forall sh, exists cs, gives Kbd.kbdgetc (Kbd.MkKbd sh ds) cs (Kbd.MkKbd (snd (KbdSpec.keys sh ds)) []) /\
  filter (fun c => c <> 0) cs = fst (KbdSpec.keys sh ds) /\ length cs = length ds.
Proof.
  induction ds as [|d ds IH]; intros sh; [exists []; split_and!; [by eapply gives_nil|done|done]|].
  pose proof (KbdSpec.kbdgetc_key sh d ds) as Hk. pose proof (key_range sh d) as Hr. cbn [KbdSpec.keys]. destruct (KbdSpec.key sh d) as [c sh1].
  destruct (IH sh1) as (cs & Hg & Hf & Hl). destruct (KbdSpec.keys sh1 ds) as [cs' sh2]. cbn [fst snd] in *. exists (c :: cs). split_and!; [by eapply gives_cons| |cbn; lia].
  rewrite filter_cons, Hf. destruct (Z.eqb_spec c 0) as [->|]; case_decide; done.
Qed.
Lemma akeys_filter cs a : akeys (filter (fun c => c <> 0) cs) a = akeys cs a.
Proof.
  unfold akeys. revert a. induction cs as [|c cs IH]; intros a; [done|]. rewrite filter_cons. cbn [foldl].
  destruct (decide (c = 0)) as [->|Hne]; [by rewrite decide_False by (by intros [])|]. rewrite decide_True by done. apply IH.
Qed.
Lemma akeys_text s a : Forall (fun c => 32 <= c < 127) s -> Z.of_nat (length (fin a) + length (line a) + length s) < INPUT_BUF ->
  akeys s a = MkEd (fin a) (line a ++ s).
Proof.
  intros Hs. revert a. unfold INPUT_BUF. induction Hs as [|c s Hc _ IH]; intros a Hl; [destruct a; cbn; by rewrite app_nil_r|].
  change (akeys (c :: s) a) with (akeys s (akey c a)). cbn [length] in Hl.
  assert (akey c a = MkEd (fin a) (line a ++ [c])) as ->.
  { unfold akey, C, INPUT_BUF. repeat (rewrite (proj2 (Z.eqb_neq c _)) by lia). cbn [orb negb andb]. rewrite (proj2 (Z.ltb_lt _ _)) by lia.
    rewrite (proj2 (Z.eqb_neq _ 128)) by (rewrite length_app; cbn; lia). by rewrite eqb_u8 by lia. }
  rewrite IH by (cbn [fin line]; rewrite length_app; cbn; lia). cbn [fin line]. by rewrite <- app_assoc.
Qed.
Lemma aread_line s q n k got : 10 ∉ s -> C 68 ∉ s -> Z.of_nat (length s) < k <= n ->
  aread false (s ++ 10 :: q) n k got = (RRet (n - (k - Z.of_nat (length s) - 1)) (got ++ s ++ [10]), q).
Proof.
  revert k got. induction s as [|c s IH]; intros k got H1 H2 Hk; cbn [app aread length] in *; rewrite (proj2 (Z.ltb_lt 0 k)) by lia; cbn [negb].
  - do 3 f_equal. lia.
  - rewrite (proj2 (Z.eqb_neq c (C 68))), (proj2 (Z.eqb_neq c 10)) by set_solver.
    rewrite IH by (set_solver || lia). rewrite <- app_assoc. cbn [app]. do 3 f_equal. lia.
Qed.

(** From the keyboard to a reader: when the keys of a printable text of at most 126
    characters and of the enter key are pressed and released (with the shift key where the
    character needs it), the next read of enough bytes returns that text and a newline. *)
Theorem typed_line procdump s a n text :
  sound s a -> a = MkEd [] [] -> Forall (fun c => 32 <= c < 127) text -> (length text <= 126)%nat -> Z.of_nat (length text) < n < 2 ^ 31 ->
  let codes := KbdSpec.presses (text ++ [10]) in
  exists s1 s2, kbdintr procdump (length codes) (Kbd.MkKbd 0 codes, s) = Ret tt (Kbd.MkKbd 0 [], s1) /\
    read_from false n n [] s1 = Ret (RRet (Z.of_nat (length text) + 1) (text ++ [10])) s2.
Proof.
  intros [Hs Hl Hh] -> Ht Hlen Hn codes. destruct (kbd_gives codes 0) as (cs & Hg & Hf & Hlc).
  assert (Htyp : forallb KbdSpec.typable (text ++ [10]) = true).
  { rewrite forallb_forall. intros c Hc%list_elem_of_In. apply KbdSpec.printable_typable. rewrite Forall_forall in Ht. apply elem_of_app in Hc as [Hc|Hc]; [left; by apply Ht|right; set_solver]. }
  assert (Ekeys : KbdSpec.keys 0 codes = (text ++ [10], 0)) by exact (KbdSpec.presses_ok _ Htyp). rewrite Ekeys in Hf, Hg. cbn [fst snd] in Hf, Hg.
  assert (HP : C 80 ∉ cs).
  { intros HP. assert (Hin : C 80 ∈ filter (fun c => c <> 0) cs) by (by apply list_elem_of_filter). rewrite Hf in Hin. apply elem_of_app in Hin as [Hin|Hin]; [|set_solver].
    rewrite Forall_forall in Ht. specialize (Ht _ Hin). unfold C in Ht. lia. }
  assert (Ek : akeys cs (MkEd [] []) = MkEd (text ++ [10]) []).
  { rewrite <- akeys_filter, Hf. unfold akeys. rewrite foldl_app. fold (akeys text (MkEd [] [])). rewrite akeys_text by (done || (cbn [fin line length]; unfold INPUT_BUF; lia)).
    cbn [foldl fin line app]. unfold akey. cbn [fin line length C Z.eqb orb negb andb]. rewrite (proj2 (Z.ltb_lt _ _)) by (unfold INPUT_BUF; cbn [Nat.add]; lia). done. }
  destruct (consoleintr_ok Kbd.kbdgetc procdump _ cs _ (length codes) s (MkEd [] []) Hg ltac:(lia) Hs Hl Hh HP) as (s1 & E1 & Hh1 & [] & _). rewrite Ek in Hh1.
  destruct (read_from_ok false n n [] s1 _ Hh1 ltac:(congruence) ltac:(lia) ltac:(lia)) as (i' & E2 & _).
  exists s1, (unlocked s1 i'). split; [exact E1|]. rewrite E2. cbn [fin]. rewrite (aread_line text [] n n []); [cbn [fst]; do 2 f_equal; cbn; f_equal; lia| | |lia].
  - rewrite Forall_forall in Ht. intros Hin%Ht. lia.
  - rewrite Forall_forall in Ht. intros Hin%Ht. unfold C in Hin. lia.
Qed.

(** ** Formatted output *)
Section formats.
Variables (args : nat -> Z) (str : Z -> list Z).
Hypothesis str_bytes : forall a, Forall (fun c => 0 <= c < 256) (str a).

Lemma echo_bytes cs : Forall (fun c => 0 <= c < 256) cs -> concat (map echo cs) = cs.
Proof.
  induction 1 as [|c cs Hc _ IH]; [done|]. cbn [map concat]. rewrite IH. unfold echo, BACKSPACE. rewrite (proj2 (Z.eqb_neq c 256)) by lia.
  by rewrite eqb_u8.
Qed.
Lemma puts_bytes cs s : Forall (fun c => 0 <= c < 256) cs -> screen_ok s -> exists s', puts cs s = Ret tt s' /\ printed s s' cs.
Proof. intros Hb Hs. destruct (puts_ok cs s Hs) as (s' & E & P). rewrite echo_bytes in P by done. eauto. Qed.

(** One piece of a format; [%c] is not one that [cprintf] knows. *)
Lemma cprintf_piece p fmt ap s : PrintfSpec.valid p -> p <> PrintfSpec.Chr -> screen_ok s ->
  exists s1 o, cprintf_loop args str (PrintfSpec.text p ++ fmt) ap s = cprintf_loop args str fmt (if PrintfSpec.takes p then S ap else ap) s1 /\
    printed s s1 o /\ PrintfSpec.shows str (p, args ap) o.
Proof.
  intros Hv Hp Hs. pose proof (PrintfSpec.int_chars_value 97 (i32 (args ap)) ltac:(by right) (i32_range _)) as (Hd & Hh & _).
  rewrite PrintfSpec.u32_i32 in Hh.
  assert (Hnum : forall base sgn, 2 <= base <= 16 -> exists s1, printint (i32 (args ap)) base sgn s = Ret tt s1 /\ printed s s1 (Printf.int_chars 97 (i32 (args ap)) base sgn)).
  { intros. apply puts_bytes; [apply PrintfSpec.int_chars_bytes; [by right|done]|done]. }
  destruct p as [c| | | | | | |c]; cbn [PrintfSpec.text app PrintfSpec.takes PrintfSpec.valid] in *; cbn [cprintf_loop].
  - destruct Hv as [Hc Hn]. rewrite PrintfSpec.land_byte, (proj2 (Z.eqb_neq c 37) Hn) by done. cbn [negb].
    destruct (consputc_ok c s Hs) as (s1 & E & P). exists s1, [c]. rewrite (bind_Ret _ _ _ _ _ E). split_and!; [done| |done].
    unfold echo, BACKSPACE in P. rewrite (proj2 (Z.eqb_neq c 256)) in P by lia. by rewrite eqb_u8 in P by lia.
  - destruct (Hnum 10 true ltac:(lia)) as (s1 & E & P). rewrite !PrintfSpec.land_byte by lia. cbn [Z.eqb Pos.eqb negb orb]. eexists s1, _. by rewrite (bind_Ret _ _ _ _ _ E).
  - destruct (Hnum 16 false ltac:(lia)) as (s1 & E & P). rewrite !PrintfSpec.land_byte by lia. cbn [Z.eqb Pos.eqb negb orb]. eexists s1, _. by rewrite (bind_Ret _ _ _ _ _ E).
  - destruct (Hnum 16 false ltac:(lia)) as (s1 & E & P). rewrite !PrintfSpec.land_byte by lia. cbn [Z.eqb Pos.eqb negb orb]. eexists s1, _. by rewrite (bind_Ret _ _ _ _ _ E).
  - destruct (puts_bytes (if args ap =? 0 then Printf.null_str else str (args ap)) s) as (s1 & E & P); [|done|].
    { destruct (args ap =? 0); [repeat constructor; lia|done]. }
    rewrite !PrintfSpec.land_byte by lia. cbn [Z.eqb Pos.eqb negb orb]. eexists s1, _. by rewrite (bind_Ret _ _ _ _ _ E).
  - done.
  - destruct (consputc_ok 37 s Hs) as (s1 & E & P). rewrite !PrintfSpec.land_byte by lia. cbn [Z.eqb Pos.eqb negb orb]. eexists s1, _. by rewrite (bind_Ret _ _ _ _ _ E).
  - destruct Hv as [Hc Hn]. rewrite !(PrintfSpec.land_byte c) by done. rewrite !not_elem_of_cons in Hn. destruct Hn as (H1 & H2 & H3 & H4 & _ & H6 & _).
    rewrite (proj2 (Z.eqb_neq c 100) H1), (proj2 (Z.eqb_neq c 120) H2), (proj2 (Z.eqb_neq c 112) H3), (proj2 (Z.eqb_neq c 115) H4), (proj2 (Z.eqb_neq c 37) H6).
    change (negb (Z.land 37 255 =? 37)) with false. cbn [orb].
    destruct (consputc_ok 37 s Hs) as (s1 & E & P). rewrite (bind_Ret _ _ _ _ _ E). destruct (consputc_ok c s1 (pr_screen _ _ _ P)) as (s2 & E2 & P2).
    rewrite (bind_Ret _ _ _ _ _ E2). exists s2, (echo 37 ++ echo c). split_and!; [done|exact (printed_trans _ _ _ _ _ P P2)|].
    unfold echo, BACKSPACE. rewrite (proj2 (Z.eqb_neq c 256)) by lia. by rewrite (eqb_u8 c) by lia.
Qed.
Lemma cprintf_loop_ok ps : forall ap s, Forall PrintfSpec.valid ps -> PrintfSpec.Chr ∉ ps -> screen_ok s ->
  exists s' outs, cprintf_loop args str (concat (map PrintfSpec.text ps)) ap s = Ret tt s' /\ printed s s' (concat outs) /\
    Forall2 (PrintfSpec.shows str) (PrintfSpec.given args ap ps) outs.
Proof.
  induction ps as [|p ps IH]; intros ap s Hv Hc Hs.
  { exists s, []. split_and!; [done|by apply printed_refl|constructor]. }
  apply Forall_cons in Hv as [Hp Hv]. apply not_elem_of_cons in Hc as [Hpc Hc].
  cbn [map concat]. destruct (cprintf_piece p (concat (map PrintfSpec.text ps)) ap s Hp ltac:(congruence) Hs) as (s1 & o & E1 & P1 & Ho).
  destruct (IH (if PrintfSpec.takes p then S ap else ap) s1 Hv Hc (pr_screen _ _ _ P1)) as (s' & outs & E & P & Hf).
  exists s', (o :: outs). rewrite E1, E. split_and!; [done|exact (printed_trans _ _ _ _ _ P1 P)|by constructor].
Qed.

Lemma cprintf_ok ps s : screen_ok s -> (locking s <> 0 -> c_lock s = false) -> Forall PrintfSpec.valid ps -> PrintfSpec.Chr ∉ ps ->
  exists s' outs, cprintf args str (concat (map PrintfSpec.text ps)) s = Ret tt s' /\
    serial s' = serial s ++ (if uart s =? 0 then [] else concat outs) /\ Forall2 (PrintfSpec.shows str) (PrintfSpec.given args 0 ps) outs /\
    screen_ok s' /\ inp s' = inp s /\ c_lock s' = c_lock s.
Proof.
  intros Hs Hl Hv Hc. unfold cprintf. rewrite bind_reads. destruct (Z.eqb_spec (locking s) 0) as [E0|E0]; cbn [negb when].
  - destruct (cprintf_loop_ok ps 0 s Hv Hc Hs) as (s' & outs & E & [] & Hf). exists s', outs.
    rewrite (bind_Ret (ret tt) _ s tt s eq_refl), (bind_Ret _ _ _ _ _ E). by split_and!.
  - rewrite (bind_Ret _ _ s tt (locked s (inp s))) by (specialize (Hl E0); destruct s; cbn in *; by subst).
    destruct (cprintf_loop_ok ps 0 (locked s (inp s)) Hv Hc Hs) as (s' & outs & E & [] & Hf). rewrite (bind_Ret _ _ _ _ _ E).
    exists (unlocked s' (inp s')), outs. split; [destruct s'; cbn in *; by subst|]. split_and!; try done. cbn. symmetry. by apply Hl.
Qed.

(** A format without [%]. *)
Lemma cprintf_literal cs s : screen_ok s -> (locking s <> 0 -> c_lock s = false) -> Forall (fun c => 0 < c < 256 /\ c <> 37) cs ->
  exists s', cprintf args str cs s = Ret tt s' /\ serial s' = serial s ++ (if uart s =? 0 then [] else cs) /\
    screen_ok s' /\ inp s' = inp s /\ c_lock s' = c_lock s.
Proof.
  intros Hs Hl Hc. assert (Ht : forall ds, concat (map PrintfSpec.text (map PrintfSpec.Lit ds)) = ds) by (intros ds; induction ds; cbn; congruence).
  destruct (cprintf_ok (map PrintfSpec.Lit cs) s Hs Hl) as (s' & outs & E & Hser & Hsh & Hrest).
  - apply Forall_map. exact Hc.
  - intros (c & ? & _)%list_elem_of_fmap. done.
  - exists s'. rewrite Ht in E. split; [done|]. split; [|done]. rewrite Hser. destruct (uart s =? 0); [done|]. f_equal.
    clear - Hsh. assert (Hg : forall ap ds o, Forall2 (PrintfSpec.shows str) (PrintfSpec.given args ap (map PrintfSpec.Lit ds)) o -> concat o = ds).
    { intros ap ds. revert ap. induction ds as [|d ds IH]; intros ap o Ho; cbn in Ho; inversion Ho as [|? ? ? ? Hd Hr]; subst; [done|]. cbn in Hd. subst. cbn. f_equal. by eapply IH. }
    by eapply Hg.
Qed.

(** [cprintf] prints a format on the console piece by piece, as [printf] does except that
    it does not know [%c]: what it sends to the serial port are the pieces in order, numbers
    as text that reads back as the number; the cursor stays on the screen, the input and the
    lock are as before. *)
Theorem cprintf_correct ps s : screen_ok s -> (locking s <> 0 -> c_lock s = false) -> Forall PrintfSpec.valid ps -> PrintfSpec.Chr ∉ ps ->
  exists s' outs, cprintf args str (concat (map PrintfSpec.text ps)) s = Ret tt s' /\
    serial s' = serial s ++ (if uart s =? 0 then [] else concat outs) /\ Forall2 (PrintfSpec.shows str) (PrintfSpec.given args 0 ps) outs /\
    screen_ok s' /\ inp s' = inp s /\ c_lock s' = c_lock s.
Proof. apply cprintf_ok. Qed.
End formats.

(** ** A console *)
Definition input0 : input := MkInput (replicate 128 0) (2 ^ 32 - 3) (2 ^ 32 - 3) (2 ^ 32 - 3).
Definition cons0 : cons := MkCons false 1 0 1 [] 0 0 (fun _ => 0) input0 0.
Lemma cons0_sound : sound cons0 (MkEd [] []).
Proof.
  split; [split; [done|by exists 0]|done|]. split; try done; cbn; try lia. set_solver.
Qed.

(** [ab], backspace, [c], enter: the reader gets [ac]; a second read sleeps. *)
Definition events0 : list event := [Typed [97; 98; 8; 99; 13]; Read false 10 10; Read false 10 10].
Lemma console_refines_witness : sound cons0 (MkEd [] []) /\ Forall well events0 /\
  exists s', crun (ret tt) events0 cons0 = Ret [None; Some (RRet 3 [97; 99; 10]); Some (RSleep 10 [])] s'.
Proof.
  assert (Hw : Forall well events0) by (repeat constructor; cbn; try lia; set_solver).
  split; [exact cons0_sound|]. split; [exact Hw|]. destruct (console_refines (ret tt) events0 cons0 (MkEd [] []) cons0_sound Hw) as (s' & E & _).
  exists s'. exact E.
Defined.
Lemma typed_line_witness : exists s1 s2,
  let codes := KbdSpec.presses [76; 115; 10] in
  kbdintr (ret tt) (length codes) (Kbd.MkKbd 0 codes, cons0) = Ret tt (Kbd.MkKbd 0 [], s1) /\
  read_from false 100 100 [] s1 = Ret (RRet 3 [76; 115; 10]) s2.
Proof. apply (typed_line (ret tt) cons0 (MkEd [] []) 100 [76; 115] cons0_sound eq_refl); [repeat constructor; lia|cbn; lia|cbn; lia]. Defined.
Lemma cprintf_correct_witness :
  let ps := [PrintfSpec.Lit 120; PrintfSpec.Dec; PrintfSpec.Str] in
  exists s' outs, cprintf (fun _ => 0) (fun _ => []) (concat (map PrintfSpec.text ps)) cons0 = Ret tt s' /\ serial s' = concat outs.
Proof.
  intros ps. destruct (cprintf_correct (fun _ => 0) (fun _ => []) ltac:(constructor) ps cons0) as (s' & outs & E & Hs & _);
    [apply cons0_sound|done|repeat constructor; cbn; lia|set_solver|]. exists s', outs. split; [exact E|exact Hs].
Defined.
End ConsoleSpec.
