(* ===== verification/Exec.v ===== *)
(** The program loader ([exec.c], [elf.h]).

    [exec] touches most of the kernel: the file system for the program, the allocator and
    the page tables for its memory, the console, the running process and the processor.  The
    state has those parts, and every call runs on its own.  What [exec] promises is in
    [ExecSpec.v] and [ExecProps.v]. *)

From S2P Require Import Prelude Params Bytes CString Sleeplock Kalloc Fs Vm Printf Kbd Console Segments.

Module Exec.
Import Kalloc Vm.

(** ** The file format *)
Definition ELF_MAGIC : Z := 1179403647.
Definition ELF_PROG_LOAD : Z := 1.

Record elfhdr := MkElf {
  magic : Z; elf : list Z; e_type : Z; machine : Z; version : Z; entry : Z; phoff : Z; shoff : Z; e_flags : Z;
  ehsize : Z; phentsize : Z; phnum : Z; shentsize : Z; shnum : Z; shstrndx : Z
}.
Definition sizeof_elfhdr : Z := 52.
Definition elf_of (b : list Z) : elfhdr :=
  MkElf (get32 b 0) (get_bytes b 4 12) (get16 b 16) (get16 b 18) (get32 b 20) (get32 b 24) (get32 b 28) (get32 b 32) (get32 b 36)
    (get16 b 40) (get16 b 42) (get16 b 44) (get16 b 46) (get16 b 48) (get16 b 50).

Record proghdr := MkProg {
  p_type : Z; p_off : Z; p_vaddr : Z; p_paddr : Z; p_filesz : Z; p_memsz : Z; p_flags : Z; p_align : Z
}.
Definition sizeof_proghdr : Z := 32.
Definition prog_of (b : list Z) : proghdr :=
  MkProg (get32 b 0) (get32 b 4) (get32 b 8) (get32 b 12) (get32 b 16) (get32 b 20) (get32 b 24) (get32 b 28).

Section exec.
Context {W : Type} `{!Blocks W}.
Local Notation fs := (@Fs.fs W).

(** The log's operations, the running process, the devices, the end of the kernel and of its
    read-only part, and the processor's task state. *)
Variables (begin_op end_op : M W unit).
Variable me : Z.
Variable devsw : Z -> @Fs.devfun W.
Variables (end_ data : Z).
Variable ts_addr : Z.

(** The fields of [struct proc] and of its trap frame that [exec] uses; [name] is the string
    in the array. *)
Record task := MkTask { sz : Z; pgdir : Z; kstack : Z; eip : Z; esp : Z; name : list Z }.
Record est := MkEst { e_fs : fs; e_km : kmem; e_cons : Console.cons; e_proc : task; e_cpu : Segments.cpu }.

Definition put_km (x : kmem) (s : est) : est := MkEst (e_fs s) x (e_cons s) (e_proc s) (e_cpu s).
Definition on_fs {A} (m : M fs A) : M est A := zoom e_fs (fun x s => MkEst x (e_km s) (e_cons s) (e_proc s) (e_cpu s)) m.
Definition on_log (m : M W unit) : M est unit := on_fs (Fs.blocks m).
Definition on_km {A} (m : M kmem A) : M est A := zoom e_km put_km m.
Definition on_cons (m : M Console.cons unit) : M est unit :=
  zoom e_cons (fun x s => MkEst (e_fs s) (e_km s) x (e_proc s) (e_cpu s)) m.
Definition on_cpu (m : M Segments.cpu unit) : M est unit :=
  zoom e_cpu (fun x s => MkEst (e_fs s) (e_km s) (e_cons s) (e_proc s) x) m.
Definition upd_proc (f : task -> task) : M est unit := modify (fun s =>
  MkEst (e_fs s) (e_km s) (e_cons s) (f (e_proc s)) (e_cpu s)).
Definition set_name (x : list Z) (p : task) : task := MkTask (sz p) (pgdir p) (kstack p) (eip p) (esp p) x.
Definition set_pgdir (x : Z) (p : task) : task := MkTask (sz p) x (kstack p) (eip p) (esp p) (name p).
Definition set_sz (x : Z) (p : task) : task := MkTask x (pgdir p) (kstack p) (eip p) (esp p) (name p).
Definition set_eip (x : Z) (p : task) : task := MkTask (sz p) (pgdir p) (kstack p) x (esp p) (name p).
Definition set_esp (x : Z) (p : task) : task := MkTask (sz p) (pgdir p) (kstack p) (eip p) x (name p).

(** [bad:] with the page directory, 0 if there is none yet, and the inode if it is locked. *)
Definition bad (pd : Z) (ip : option nat) : M est Z :=
  when (negb (pd =? 0)) (on_km (freevm end_ pd)) ;;;
  match ip with
  | Some i => on_fs (Fs.iunlockput me i) ;;; on_log end_op
  | None => ret tt
  end ;;;
  ret (-1).

(** The loop over the program headers; [None] goes to [bad]. *)
Fixpoint load_segments (cnt : nat) (ip : nat) (pd off size : Z) : M est (option Z) :=
  match cnt with
  | O => ret (Some size)
  | S cnt =>
      r <- on_fs (Fs.readi devsw ip (u32 off) sizeof_proghdr) ;;
      if negb (fst r =? sizeof_proghdr) then ret None else
      let ph := prog_of (snd r) in
      if negb (p_type ph =? ELF_PROG_LOAD) then load_segments cnt ip pd (i32 (off + sizeof_proghdr)) size else
      if p_memsz ph <? p_filesz ph then ret None else
      if u32 (p_vaddr ph + p_memsz ph) <? p_vaddr ph then ret None else
      size <- on_km (allocuvm end_ pd size (u32 (p_vaddr ph + p_memsz ph))) ;;
      if size =? 0 then ret None else
      if negb (p_vaddr ph mod PGSIZE =? 0) then ret None else
      r <- loaduvm e_km put_km (fun o n => on_fs (Fs.readi devsw ip o n)) pd (p_vaddr ph) (p_off ph) (p_filesz ph) ;;
      if r <? 0 then ret None else
      load_segments cnt ip pd (i32 (off + sizeof_proghdr)) size
  end.

(** A source for [copyout]: bytes that the running process can read and [exec] does not
    change. *)
Definition from_bytes (bs : list Z) : mem -> Z -> Z := fun _ i => bs !!! Z.to_nat i.
Definition copy_bytes (pd va : Z) (bs : list Z) : M est Z := on_km (copyout pd va (from_bytes bs) (Z.of_nat (length bs))).

(** The loop over the arguments, whose strings are given; the pointers go to [ustack]. *)
Fixpoint push_args (pd : Z) (argv : list (list Z)) (sp : Z) (args : list Z) : M est (option (Z * list Z)) :=
  match argv with
  | [] => ret (Some (sp, args))
  | s :: argv =>
      if (MAXARG <=? length args)%nat then ret None else
      let sp := Z.land (u32 (sp - (Z.of_nat (length s) + 1))) (u32 (Z.lnot 3)) in
      r <- copy_bytes pd sp (s ++ [0]) ;;
      if r <? 0 then ret None else
      push_args pd argv sp (args ++ [sp])
  end.
Definition words (ws : list Z) : list Z := concat (map (le_bytes 4) ws).

(** The path's part after the last slash. *)
Fixpoint last_elem (s last : list Z) : list Z :=
  match s with [] => last | c :: s => last_elem s (if c =? 47 then s else last) end.

Definition fail_message : list Z := [101; 120; 101; 99; 58; 32; 102; 97; 105; 108; 10].

Definition exec (path : list Z) (argv : list (list Z)) : M est Z :=
  on_log begin_op ;;;
  r <- on_fs (Fs.namei me devsw path) ;;
  match r with
  | None =>
      on_log end_op ;;;
      on_cons (Console.cprintf (fun _ => 0) (fun _ => []) fail_message) ;;;
      ret (-1)
  | Some ip =>
      on_fs (Fs.ilock me ip) ;;;
      r <- on_fs (Fs.readi devsw ip 0 sizeof_elfhdr) ;;
      if negb (fst r =? sizeof_elfhdr) then bad 0 (Some ip) else
      let elf := elf_of (snd r) in
      if negb (magic elf =? ELF_MAGIC) then bad 0 (Some ip) else
      pd <- on_km (setupkvm end_ data) ;;
      if pd =? 0 then bad 0 (Some ip) else
      r <- load_segments (Z.to_nat (phnum elf)) ip pd (i32 (phoff elf)) 0 ;;
      match r with
      | None => bad pd (Some ip)
      | Some size =>
          on_fs (Fs.iunlockput me ip) ;;;
          on_log end_op ;;;
          let size := PGROUNDUP size in
          size <- on_km (allocuvm end_ pd size (u32 (size + 2 * PGSIZE))) ;;
          if size =? 0 then bad pd None else
          on_km (clearpteu pd (u32 (size - 2 * PGSIZE))) ;;;
          r <- push_args pd argv size [] ;;
          match r with
          | None => bad pd None
          | Some (sp, args) =>
              let argc := Z.of_nat (length args) in
              let ustack := [4294967295; argc; u32 (sp - (argc + 1) * 4)] ++ args ++ [0] in
              let sp := u32 (sp - (3 + argc + 1) * 4) in
              r <- copy_bytes pd sp (words ustack) ;;
              if r <? 0 then bad pd None else
              upd_proc (set_name (take 15 (last_elem path path))) ;;;
              old <- reads (fun s => pgdir (e_proc s)) ;;
              upd_proc (set_pgdir pd) ;;;
              upd_proc (set_sz size) ;;;
              upd_proc (set_eip (entry elf)) ;;;
              upd_proc (set_esp sp) ;;;
              p <- reads e_proc ;;
              on_cpu (Segments.switchuvm ts_addr (Some (kstack p, pgdir p))) ;;;
              on_km (freevm end_ old) ;;;
              ret 0
          end
      end
  end.
End exec.
End Exec.
