(* ===== verification/ExecSpec.v ===== *)
(** What [exec] should make of a program file.

    [program] is the loader without page tables: from the bytes of the file and the
    arguments it computes the image of the new process, its memory, size, entry point and
    stack pointer, or that the file or the arguments are not acceptable.  The second half
    shows that the loops of [exec] compute it in pages. *)

From S2P Require Import Prelude Params Bytes CString Sleeplock Kalloc Fs FsSpec FsFile Inodes Dirs Vm Uvm Loaduvm ExecMem Printf Kbd Console Segments Exec.

Module ExecSpec.
Import KString Kalloc Pages Vm VmSpec Uvm Loaduvm ExecMem Exec.

(** ** The image *)
Section image.
Variables (file : Z -> Z) (fsize : Z).

Definition file_bytes (off n : Z) : list Z := map file (seqZ off n).

(** The segments from the program header at [off] on. *)
Fixpoint segments (cnt : nat) (off size : Z) (img : Z -> Z) : option (Z * (Z -> Z)) :=
  match cnt with
  | O => Some (size, img)
  | S cnt =>
      if fsize <? off + 32 then None else
      let ph := prog_of (file_bytes off 32) in
      if negb (p_type ph =? ELF_PROG_LOAD) then segments cnt (off + 32) size img else
      if p_memsz ph <? p_filesz ph then None else
      if KERNBASE <=? p_vaddr ph + p_memsz ph then None else
      let size := Z.max size (p_vaddr ph + p_memsz ph) in
      if size =? 0 then None else
      if negb (p_vaddr ph mod PGSIZE =? 0) then None else
      if (0 <? p_filesz ph) && (fsize <? p_off ph + p_filesz ph) then None else
      segments cnt (off + 32) size (blit img (p_vaddr ph) (p_filesz ph) (fun j => file (p_off ph + j)))
  end.

(** The strings of the arguments, on a stack that ends at [base]. *)
Fixpoint pushes (base : Z) (argv : list (list Z)) (sp : Z) (args : list Z) (img : Z -> Z) : option (Z * list Z * (Z -> Z)) :=
  match argv with
  | [] => Some (sp, args, img)
  | s :: argv =>
      if (MAXARG <=? length args)%nat then None else
      let len := Z.of_nat (length s) + 1 in
      let sp := (sp - len) / 4 * 4 in
      if sp <? base then None else
      pushes base argv sp (args ++ [sp]) (blit img sp len (fun j => (s ++ [0]) !!! Z.to_nat j))
  end.

Record image := MkImage { i_top : Z; i_guard : Z; i_entry : Z; i_sp : Z; i_mem : Z -> Z }.

Definition stack_words (sp : Z) (args : list Z) : list Z :=
  [4294967295; Z.of_nat (length args); sp - (Z.of_nat (length args) + 1) * 4] ++ args ++ [0].

Definition round_up (x : Z) : Z := (x + (PGSIZE - 1)) / PGSIZE * PGSIZE.

Definition program (argv : list (list Z)) : option image :=
  if fsize <? 52 then None else
  let h := elf_of (file_bytes 0 52) in
  if negb (magic h =? ELF_MAGIC) then None else
  match segments (Z.to_nat (phnum h)) (phoff h) 0 (fun _ => 0) with
  | None => None
  | Some (size, img) =>
      let base := round_up size in
      let top := base + 2 * PGSIZE in
      if KERNBASE <=? top then None else
      match pushes (base + PGSIZE) argv top [] img with
      | None => None
      | Some (sp, args, img) =>
          let n := (4 + Z.of_nat (length args)) * 4 in
          if sp - n <? base + PGSIZE then None else
          Some (MkImage top (base / PGSIZE) (entry h) (sp - n)
            (blit img (sp - n) n (fun j => words (stack_words sp args) !!! Z.to_nat j)))
      end
  end.

Lemma segments_grow cnt : forall off size img s img', segments cnt off size img = Some (s, img') -> size <= s.
Proof.
  induction cnt as [|cnt IH]; intros off size img s img' H; cbn [segments] in H; [injection H as <- _; lia|].
  repeat match goal with H : (if ?b then _ else _) = Some _ |- _ => destruct b end; try done; apply IH in H; lia.
Qed.
Lemma segments_size cnt : forall off size img s img', segments cnt off size img = Some (s, img') -> 0 <= size < KERNBASE -> 0 <= s < KERNBASE.
Proof.
  induction cnt as [|cnt IH]; intros off size img s img' H Hs; cbn [segments] in H; [by injection H as <- _|].
  set (ph := prog_of (file_bytes off 32)) in *.
  destruct (fsize <? off + 32); [done|]. destruct (negb (p_type ph =? ELF_PROG_LOAD)); [by eapply IH|].
  destruct (p_memsz ph <? p_filesz ph); [done|]. destruct (Z.leb_spec KERNBASE (p_vaddr ph + p_memsz ph)); [done|].
  repeat match goal with H : (if ?b then _ else _) = Some _ |- _ => destruct b end; try done. apply IH in H; [done|lia].
Qed.
Lemma pushes_count base argv : forall sp args img sp' args' img',
  pushes base argv sp args img = Some (sp', args', img') -> (length args <= MAXARG)%nat -> (length args' <= MAXARG)%nat.
Proof.
  induction argv as [|s argv IH]; intros sp args img sp' args' img' H Hl; cbn [pushes] in H; [by injection H as <- <- <-|].
  destruct (Nat.leb_spec MAXARG (length args)); [done|]. destruct (_ <? base); [done|]. eapply IH; [done|]. rewrite length_app. cbn. lia.
Qed.

(** *** What the new program finds on its stack *)
Definition word_at (m : Z -> Z) (a : Z) : Z := le_val (map m (seqZ a 4)).
Definition string_at (m : Z -> Z) (a : Z) (s : list Z) : Prop := map m (seqZ a (Z.of_nat (length s) + 1)) = s ++ [0].

Lemma blit_in img va len g a : va <= a < va + len -> blit img va len g a = g (a - va).
Proof. intros Ha. unfold blit. destruct (Z.leb_spec va a), (Z.ltb_spec a (va + len)); (done || lia). Qed.
Lemma blit_out img va len g a : a < va \/ va + len <= a -> blit img va len g a = img a.
Proof. intros Ha. unfold blit. destruct (Z.leb_spec va a), (Z.ltb_spec a (va + len)); (done || lia). Qed.
Lemma map_seqZ_ext (f g : Z -> Z) a n : (forall x, a <= x < a + n -> f x = g x) -> map f (seqZ a n) = map g (seqZ a n).
Proof. intros Hfg. apply map_ext_in. intros x Hx%list_elem_of_In%elem_of_seqZ. apply Hfg. lia. Qed.
Lemma map_seqZ_list (s : list Z) a : map (fun x => s !!! Z.to_nat (x - a)) (seqZ a (Z.of_nat (length s))) = s.
Proof.
  apply list_eq. intros j. change (map ?f ?x) with (f <$> x). rewrite list_lookup_fmap. destruct (decide (j < length s)%nat) as [Hj|Hj].
  - rewrite lookup_seqZ_lt by lia. cbn. replace (Z.to_nat (a + Z.of_nat j - a)) with j by lia. by rewrite list_lookup_lookup_total_lt.
  - rewrite lookup_seqZ_ge by lia. cbn. symmetry. apply lookup_ge_None. lia.
Qed.

Lemma pushes_strings base argv : forall sp args img sp' args' img',
  pushes base argv sp args img = Some (sp', args', img') -> base <= sp ->
  base <= sp' <= sp /\ (sp mod 4 = 0 -> sp' mod 4 = 0) /\ (forall a, sp <= a -> img' a = img a) /\
  exists ps, args' = args ++ ps /\ Forall2 (fun s p => sp' <= p /\ p + Z.of_nat (length s) + 1 <= sp /\ string_at img' p s) argv ps.
Proof.
  induction argv as [|s argv IH]; intros sp args img sp' args' img' H Hb; cbn [pushes] in H.
  { injection H as <- <- <-. split_and!; try done; try lia. exists []. by rewrite app_nil_r. }
  destruct (MAXARG <=? length args)%nat; [done|]. set (len := Z.of_nat (length s) + 1) in *. set (va := (sp - len) / 4 * 4) in *.
  destruct (Z.ltb_spec va base); [done|]. apply IH in H as (Hsp & Hal & Hkeep & ps & -> & Hps); [|done].
  pose proof (Z.div_mod (sp - len) 4 ltac:(done)). pose proof (Z.mod_pos_bound (sp - len) 4 ltac:(done)).
  split_and!; [lia|unfold va in *; lia|intros _; apply Hal; unfold va; by rewrite Z.mod_mul| |].
  - intros a Ha. rewrite Hkeep by (unfold va, len in *; lia). apply blit_out. right. unfold va, len in *; lia.
  - exists (va :: ps). split; [by rewrite <- app_assoc|]. constructor.
    + split_and!; [lia|unfold va, len in *; lia|]. unfold string_at. fold len.
      rewrite (map_seqZ_ext img' (fun x => (s ++ [0]) !!! Z.to_nat (x - va))).
      * replace len with (Z.of_nat (length (s ++ [0]))) by (rewrite length_app; cbn; unfold len; lia). apply map_seqZ_list.
      * intros x Hx. rewrite Hkeep by lia. by apply blit_in.
    + eapply Forall2_impl; [exact Hps|]. intros s' p (? & ? & ?). split_and!; [done|unfold va, len in *; lia|done].
Qed.

Lemma words_at ws : forall j x, ws !! j = Some x -> forall b, (b < 4)%nat -> words ws !!! (4 * j + b)%nat = le_bytes 4 x !!! b.
Proof.
  induction ws as [|y ws IH]; intros j x Hj b Hb; [done|]. unfold words. cbn [map concat]. fold (words ws). destruct j as [|j]; cbn in Hj.
  - injection Hj as ->. rewrite Nat.mul_0_r, Nat.add_0_l. apply lookup_total_app_l. by rewrite length_le_bytes.
  - rewrite lookup_total_app_r by (rewrite length_le_bytes; lia). rewrite length_le_bytes. replace (4 * S j + b - 4)%nat with (4 * j + b)%nat by lia. by apply IH.
Qed.
Lemma word_at_blit img va n ws j x : ws !! j = Some x -> 0 <= x < W32 -> n = 4 * Z.of_nat (length ws) ->
  word_at (blit img va n (fun i => words ws !!! Z.to_nat i)) (va + 4 * Z.of_nat j) = x.
Proof.
  intros Hj Hx ->. pose proof (lookup_lt_Some _ _ _ Hj) as Hlt. unfold word_at.
  rewrite (map_seqZ_ext _ (fun i => le_bytes 4 x !!! Z.to_nat (i - (va + 4 * Z.of_nat j)))).
  - change 4 with (Z.of_nat (length (le_bytes 4 x))) at 3. rewrite map_seqZ_list, le_val_le_bytes. by apply Z.mod_small.
  - intros i Hi. rewrite blit_in by lia. rewrite <- (words_at ws j x Hj) by lia. f_equal. lia.
Qed.

(** A program that [exec] starts finds its arguments.  Its stack pointer is at a word in the
    page below the top; above it are the number of arguments and the address of the vector,
    which has, for every argument, the address of its string in the same page, and then 0. *)
Theorem arguments_found argv im : program argv = Some im ->
  let sp := i_sp im in let m := i_mem im in let argc := Z.of_nat (length argv) in
  sp mod 4 = 0 /\ i_top im - PGSIZE <= sp /\ word_at m (sp + 4) = argc /\ word_at m (sp + 8) = sp + 12 /\ word_at m (sp + 12 + 4 * argc) = 0 /\
  forall j s, argv !! j = Some s -> exists p, word_at m (sp + 12 + 4 * Z.of_nat j) = p /\ string_at m p s /\ p + Z.of_nat (length s) < i_top im.
Proof.
  unfold program. destruct (fsize <? 52); [done|]. destruct (negb _); [done|]. destruct (segments _ _ _ _) as [[size img]|] eqn:Es; [|done].
  apply segments_size in Es; [|unfold KERNBASE; lia]. set (base := round_up size). destruct (Z.leb_spec KERNBASE (base + 2 * PGSIZE)) as [|Htop]; [done|].
  destruct (pushes _ _ _ _ _) as [[[sp args] img2]|] eqn:Ep; [|done]. set (n := (4 + Z.of_nat (length args)) * 4).
  destruct (Z.ltb_spec (sp - n) (base + PGSIZE)) as [|Hlow]; [done|]. intros [= <-]. cbn [i_sp i_mem i_top].
  assert (Hbase : 0 <= base) by (unfold base, round_up; pose proof (Z.div_pos (size + (PGSIZE - 1)) PGSIZE); unfold PGSIZE in *; lia).
  apply pushes_strings in Ep as (Hsp & Hal & _ & ps & -> & Hps); [|unfold PGSIZE; lia]. cbn [app] in *. pose proof (Forall2_length _ _ _ Hps) as Hlen.
  rewrite Hlen. set (argc := Z.of_nat (length ps)) in *. set (ws := stack_words sp ps).
  assert (Hn : n = 4 * Z.of_nat (length ws)) by (unfold n, ws, stack_words; rewrite !length_app; cbn [length]; unfold argc; lia).
  assert (Hw : forall j x, ws !! j = Some x -> 0 <= x < W32 -> word_at (blit img2 (sp - n) n (fun i => words ws !!! Z.to_nat i)) (sp - n + 4 * Z.of_nat j) = x).
  { intros j x Hj Hx. by apply word_at_blit. }
  assert (Hargs : forall j, ws !! (3 + j)%nat = (ps ++ [0]) !! j) by (intros j; done).
  assert (Hptr : forall p, p ∈ ps -> 0 <= p < W32).
  { intros p (j & Hj)%list_elem_of_lookup. destruct (Forall2_lookup_r _ _ _ _ _ Hps Hj) as (s & _ & Hp1 & Hp2 & _). unfold KERNBASE, PGSIZE in *. lia. }
  split_and!.
  - assert (sp mod 4 = 0) as Hm by (apply Hal; unfold base, round_up, PGSIZE; rewrite Z.add_mod, Z.mul_mod by done; by rewrite Z.mul_0_r).
    unfold n. by rewrite Zminus_mod, Z.mod_mul, Hm.
  - unfold PGSIZE in *. lia.
  - apply (Hw 1%nat argc); [done|unfold n, KERNBASE, PGSIZE in *; lia].
  - replace (sp - n + 12) with (sp - (argc + 1) * 4) by (unfold n; lia). apply (Hw 2%nat); [done|unfold n, KERNBASE, PGSIZE in *; lia].
  - replace (sp - n + 12 + 4 * argc) with (sp - n + 4 * Z.of_nat (3 + length ps)) by (unfold argc; lia). apply Hw; [|done].
    rewrite Hargs, lookup_app_r, Nat.sub_diag by lia. done.
  - intros j s Hj. destruct (Forall2_lookup_l _ _ _ _ _ Hps Hj) as (p & Hp & Hp1 & Hp2 & Hst). exists p. split_and!; [| |lia].
    + replace (sp - n + 12 + 4 * Z.of_nat j) with (sp - n + 4 * Z.of_nat (3 + j)) by lia. apply Hw; [|apply Hptr; by eapply list_elem_of_lookup_2].
      rewrite Hargs. by apply lookup_app_l_Some.
    + unfold string_at in *. rewrite <- Hst. apply map_seqZ_ext. intros x Hx. apply blit_out. right. lia.
Qed.
End image.

(** ** The loops of [exec] *)
Section loops.
Context {W : Type} `{!Blocks W} `{!BlocksSpec W}.
Variable B : superblock.
Hypothesis HL : FreeMap.layout B.
Variable me : Z.
Variable devsw : Z -> @Fs.devfun W.
Variable end_ : Z.
Hypothesis Hend : KERNBASE < end_.
Variable data : Z.
Hypothesis Hdata : KERNLINK < data < P2V PHYSTOP.
Hypothesis Hdalign : data mod PGSIZE = 0.

(** The program's inode is locked; the rest of the kernel is as it is. *)
Variables (I : list Fs.inode) (V : Z -> list Z) (R : gmap Z Z) (H : list nat) (i : nat) (n : Z) (c : nat) (room : nat).
Hypothesis Hic : Inodes.icache B me I V R H.
Hypothesis Href : Inodes.refers I i n.
Hypothesis Hheld : i ∈ H.
Hypothesis Hfile : Files.file_ok B V (Dirs.ino B V n).
Hypothesis Hbyte : forall b, Forall is_byte (V b).
Variables (cons : Console.cons) (proc : task) (cpu : Segments.cpu).
Definition st (w : W) (k : kmem) : @est W := MkEst (Fs.MkFs B false I c w) k cons proc cpu.
Definition file : Z -> Z := Files.fbyte V (Dirs.ino B V n).
Definition fsize : Z := Fs.d_size (Files.disk_inode B V n).
Definition P (x : est) : Prop := exists w k, x = st w k /\ owns w V [] [] room.
Definition read_prog (off cnt : Z) : M est (Z * list Z) := on_fs (Fs.readi devsw i off cnt).

Lemma file_byte p : is_byte (file p).
Proof.
  unfold file, Files.fbyte. set (b := V _). destruct (b !! Z.to_nat (p mod Z.of_nat BSIZE)) as [z|] eqn:E.
  - rewrite (list_lookup_total_correct _ _ _ E). pose proof (Hbyte (Files.fblk V (Dirs.ino B V n) (Z.to_nat (p / Z.of_nat BSIZE)))) as Hb.
    rewrite Forall_lookup in Hb. by eapply Hb.
  - rewrite list_lookup_total_alt, E. by split.
Qed.
Lemma fbytes_map x off cnt : Fs.addrs x = Fs.addrs (Dirs.ino B V n) -> Files.fbytes V x off (Z.to_nat cnt) = map file (seqZ off cnt).
Proof.
  intros Ha. rewrite (Dirs.fbytes_addrs V x (Dirs.ino B V n) off _ Ha). unfold Files.fbytes, seqZ.
  change (map file ((λ i0 : nat, Z.of_nat i0 + off) <$> seq 0 (Z.to_nat cnt))) with (file <$> ((λ i0 : nat, Z.of_nat i0 + off) <$> seq 0 (Z.to_nat cnt))).
  rewrite <- list_fmap_compose. apply list_fmap_ext. intros j p _. unfold file. cbn. f_equal. lia.
Qed.

Lemma prog_reader : reader e_km put_km read_prog P file fsize.
Proof.
  destruct (Dirs.locked_file B me I V R H i n Hic Href Hheld Hfile) as (x & Hx & Ht & _ & _ & _ & _ & Hf & Hsz & Hty & Ha).
  pose proof (Files.fo_size _ _ _ Hf) as Hs. assert (Files.maxfile < 2 ^ 30) by done. fold fsize in Hsz.
  split.
  - done.
  - by intros [].
  - intros k s (w & k' & -> & Ho). by exists w, k.
  - lia.
  - intros s off cnt (w & k & -> & Ho) Hoff Hn. cbn zeta.
    destruct (Files.readi_ok B HL i devsw (Fs.MkFs B false I c w) w V room off cnt) as (w' & E & Ho'); unfold Fs.geti in *; cbn [Fs.inodes] in *; rewrite ?Ht in *; try done; [lia|].
    exists (st w' k). split_and!; [|by exists w', k|done]. rewrite Hsz, (fbytes_map x) in E by done.
    unfold read_prog, on_fs, zoom, st. cbn [e_fs]. change (Fs.MkFs B false I c w) with (FreeMap.set_blk w (Fs.MkFs B false I c w)) at 1. by rewrite E.
  - intros s off cnt (w & k & -> & Ho) Hoff Hn. exists (st w k). split_and!; [|by exists w, k|done].
    unfold read_prog, on_fs, zoom, st. cbn [e_fs]. change (Fs.MkFs B false I c w) with (FreeMap.set_blk w (Fs.MkFs B false I c w)) at 1.
    rewrite (Files.readi_fails i devsw); [done|..]; unfold Fs.geti; cbn [Fs.inodes]; rewrite ?Ht; [apply Hf|lia|lia|left; lia].
Qed.

(** Reading a header: all of it, or too little. *)
Lemma read_header w k off cnt : owns w V [] [] room -> 0 <= off < W32 -> 0 < cnt < 2 ^ 31 ->
  exists r bs w', read_prog off cnt (st w k) = Ret (r, bs) (st w' k) /\ owns w' V [] [] room /\
    (r = cnt /\ off + cnt <= fsize /\ bs = file_bytes file off cnt \/ r <> cnt /\ fsize < off + cnt).
Proof.
  intros Ho Hoff Hc. pose proof (rd_size _ _ _ _ _ _ prog_reader) as Hs. assert (Hp : P (st w k)) by (by exists w, k).
  destruct (decide (off <= fsize)) as [Hin|Hout].
  - destruct (rd_in _ _ _ _ _ _ prog_reader _ off cnt Hp) as (x' & E & (w' & k' & -> & Ho') & Hk); [lia..|].
    cbn in Hk. subst k'. eexists _, _, w'. split; [exact E|]. split; [done|].
    destruct (decide (off + cnt <= fsize)); [left|right; lia]. rewrite Z.min_l by lia. done.
  - destruct (rd_out _ _ _ _ _ _ prog_reader _ off cnt Hp) as (x' & E & (w' & k' & -> & Ho') & Hk); [lia..|].
    cbn in Hk. subst k'. eexists _, _, w'. split; [exact E|]. split; [done|]. right. lia.
Qed.

Lemma prog_ranges off : let ph := prog_of (file_bytes file off 32) in
  0 <= p_off ph < W32 /\ 0 <= p_vaddr ph < W32 /\ 0 <= p_filesz ph < W32 /\ 0 <= p_memsz ph < W32.
Proof.
  assert (Hb : Forall is_byte (file_bytes file off 32)) by (apply Forall_map, Forall_forall; intros p _; apply file_byte).
  assert (Hl : length (file_bytes file off 32) = 32%nat) by (unfold file_bytes; by rewrite length_map, length_seqZ).
  cbn zeta. unfold prog_of. cbn [p_off p_vaddr p_filesz p_memsz]. split_and!; apply get32_range; rewrite ?Hl; (done || lia).
Qed.
Lemma u32_of_i32 z : 0 <= z < W32 -> u32 (i32 z) = z.
Proof.
  intros Hz. unfold u32, i32. rewrite Zminus_mod_idemp_l. replace (z + 2147483648 - 2147483648) with z by lia. by apply Z.mod_small.
Qed.
Lemma i32_add z y : i32 (i32 z + y) = i32 (z + y).
Proof.
  unfold i32. f_equal. replace ((z + 2147483648) mod W32 - 2147483648 + y + 2147483648) with ((z + 2147483648) mod W32 + y) by lia.
  rewrite Zplus_mod_idemp_l. f_equal. lia.
Qed.
Lemma pages_below_mono a b : a <= b -> pages_below a <= pages_below b.
Proof. intros. unfold pages_below. apply Z.div_le_mono; [by unfold PGSIZE|lia]. Qed.
Lemma on_km_ret {A} (m : M kmem A) w k a k' : m k = Ret a k' -> on_km m (st w k) = Ret a (st w k').
Proof. intros E. unfold on_km, zoom. cbn. by rewrite E. Qed.

Section pages.
Variables (k0 : kmem) (l0 : list Z).
Local Notation taken := (ExecMem.taken end_ k0 l0).
Local Notation built := (ExecMem.built end_ data k0 l0).
Implicit Types (k : kmem) (l : list Z) (T U : gmap Z Z) (img : Z -> Z) (w : W).

(** One segment of type [ELF_PROG_LOAD]: memory for it, and its bytes; [k] goes on. *)
Definition load_one (ph : proghdr) (pd size : Z) (next : Z -> M est (option Z)) : M est (option Z) :=
  if p_memsz ph <? p_filesz ph then ret None else
  if u32 (p_vaddr ph + p_memsz ph) <? p_vaddr ph then ret None else
  size <- on_km (allocuvm end_ pd size (u32 (p_vaddr ph + p_memsz ph))) ;;
  if size =? 0 then ret None else
  if negb (p_vaddr ph mod PGSIZE =? 0) then ret None else
  r <- loaduvm e_km put_km read_prog pd (p_vaddr ph) (p_off ph) (p_filesz ph) ;;
  if r <? 0 then ret None else next size.
Definition segment_one (ph : proghdr) (size : Z) img (next : Z -> (Z -> Z) -> option (Z * (Z -> Z))) : option (Z * (Z -> Z)) :=
  if p_memsz ph <? p_filesz ph then None else
  if KERNBASE <=? p_vaddr ph + p_memsz ph then None else
  let size := Z.max size (p_vaddr ph + p_memsz ph) in
  if size =? 0 then None else
  if negb (p_vaddr ph mod PGSIZE =? 0) then None else
  if (0 <? p_filesz ph) && (fsize <? p_off ph + p_filesz ph) then None else
  next size (blit img (p_vaddr ph) (p_filesz ph) (fun j => file (p_off ph + j))).

(** What a computation of the loop has done. *)
Definition loaded pd (m : res est (option Z)) (spec : option (Z * (Z -> Z))) : Prop :=
  exists r w k l T U, m = Ret r (st w k) /\ owns w V [] [] room /\ taken k l pd T U /\
    match r with
    | Some s => exists img, spec = Some (s, img) /\ built k l pd T U s (-1) img
    | None => forall s img, spec = Some (s, img) -> Z.of_nat (length l0) <= 1025 + pages_below s
    end.

Lemma load_one_ok ph w k l pd T U size img next next' :
  0 <= p_off ph < W32 -> 0 <= p_vaddr ph < W32 -> 0 <= p_filesz ph < W32 -> 0 <= p_memsz ph < W32 ->
  owns w V [] [] room -> built k l pd T U size (-1) img ->
  (forall s img s' img', next' s img = Some (s', img') -> s <= s') ->
  (forall w k l T U size img, owns w V [] [] room -> built k l pd T U size (-1) img -> loaded pd (next size (st w k)) (next' size img)) ->
  loaded pd (load_one ph pd size next (st w k)) (segment_one ph size img next').
Proof.
  intros Hof Hv Hfs Hms Ho Hb Hmono Hnext. pose proof (bu_taken _ _ _ _ _ _ _ _ _ _ _ _ Hb) as Ht. pose proof (bu_size _ _ _ _ _ _ _ _ _ _ _ _ Hb) as Hs.
  unfold load_one, segment_one. destruct (Z.ltb_spec (p_memsz ph) (p_filesz ph)).
  { exists None, w, k, l, T, U. done. }
  set (new := p_vaddr ph + p_memsz ph).
  destruct (Z.ltb_spec (u32 new) (p_vaddr ph)) as [Hw|Hw].
  { destruct (Z.leb_spec KERNBASE new) as [|Hk]; [exists None, w, k, l, T, U; done|]. exfalso. rewrite u32_id in Hw by (unfold KERNBASE, new in *; lia). unfold new in *. lia. }
  assert (Hnew : u32 new = new).
  { destruct (decide (new < W32)); [apply u32_id; unfold new; lia|]. exfalso. assert (u32 new = new - W32) as E.
    { unfold u32. symmetry. apply (Z.mod_unique _ _ 1); unfold new in *; lia. } unfold new in *. lia. }
  rewrite Hnew.
  destruct (built_alloc end_ Hend data k0 l0 k l pd T U size (-1) img new Hb) as (r & k1 & l1 & T1 & U1 & E & Ht1 & Hr); [unfold new; lia|lia|].
  rewrite (bind_Ret _ _ _ _ _ (on_km_ret _ w _ _ _ E)).
  destruct Hr as [(Hlt & -> & Hb1)|(-> & Hr)].
  - destruct (Z.leb_spec KERNBASE new); [lia|]. set (s1 := Z.max size new) in *.
    destruct (Z.eqb_spec s1 0); [exists None, w, k1, l1, T1, U1; done|].
    destruct (Z.eqb_spec (p_vaddr ph mod PGSIZE) 0) as [Hal|]; cbn [negb]; [|exists None, w, k1, l1, T1, U1; done].
    assert (Hp : P (st w k1)) by (by exists w, k1).
    destruct (built_load end_ Hend data k0 l0 e_km put_km read_prog P file fsize prog_reader (st w k1) l1 pd T1 U1 s1 (-1) img (p_vaddr ph) (p_off ph) (p_filesz ph))
      as (r & x' & E2 & (w2 & k2 & -> & Ho2) & Hr2); [done|done|done|lia|lia|unfold s1, new; lia|done|].
    rewrite (bind_Ret _ _ _ _ _ E2). cbn [e_km st] in Hr2. destruct Hr2 as [(-> & Hin & Hb2)|(-> & Hpos & Hout & Ht2)]; cbn [Z.ltb Z.compare].
    + assert ((0 <? p_filesz ph) && (fsize <? p_off ph + p_filesz ph) = false) as ->.
      { destruct (Z.ltb_spec 0 (p_filesz ph)), (Z.ltb_spec fsize (p_off ph + p_filesz ph)); (done || lia). }
      by apply Hnext with l1 T1 U1.
    + assert ((0 <? p_filesz ph) && (fsize <? p_off ph + p_filesz ph) = true) as ->.
      { destruct (Z.ltb_spec 0 (p_filesz ph)), (Z.ltb_spec fsize (p_off ph + p_filesz ph)); (done || lia). }
      exists None, w2, k2, l1, T1, U1. done.
  - cbn [Z.eqb]. exists None, w, k1, l1, T1, U1. split_and!; try done. intros s img' Hspec.
    destruct (Z.leb_spec KERNBASE new); [done|]. destruct Hr as [|[_ Hr]]; [lia|].
    repeat match goal with H : (if ?b then _ else _) = Some _ |- _ => destruct b end; try done.
    apply Hmono in Hspec. pose proof (pages_below_mono new s). lia.
Qed.

Lemma load_segments_ok cnt : forall w k l pd T U off size img,
  owns w V [] [] room -> built k l pd T U size (-1) img -> 0 <= off < W32 ->
  loaded pd (load_segments devsw end_ cnt i pd (i32 off) size (st w k)) (segments file fsize cnt off size img).
Proof.
  induction cnt as [|cnt IH]; intros w k l pd T U off size img Ho Hb Hoff; cbn [load_segments segments].
  { exists (Some size), w, k, l, T, U. split_and!; [done|done|apply Hb|]. by exists img. }
  pose proof (rd_size _ _ _ _ _ _ prog_reader) as Hfs. rewrite u32_of_i32, i32_add by done.
  destruct (read_header w k off 32 Ho Hoff) as (r & bs & w1 & E & Ho1 & Hr); [lia|]. rewrite (bind_Ret _ _ _ _ _ E). cbn [fst snd].
  destruct Hr as [(-> & Hin & ->)|(Hne & Hout)].
  2: { destruct (Z.eqb_spec r sizeof_proghdr) as [|_]; [done|]. exists None, w1, k, l, T, U. split_and!; [done|done|apply Hb|].
       destruct (Z.ltb_spec fsize (off + 32)); [done|lia]. }
  destruct (Z.ltb_spec fsize (off + 32)); [lia|]. cbn [negb Z.eqb sizeof_proghdr Pos.eqb].
  destruct (prog_ranges off) as (H1 & H2 & H3 & H4). set (ph := prog_of (file_bytes file off 32)) in *.
  destruct (negb (p_type ph =? ELF_PROG_LOAD)); [eapply IH; [done|done|lia]|].
  refine (load_one_ok ph w1 k l pd T U size img (load_segments devsw end_ cnt i pd (i32 (off + 32)))
    (segments file fsize cnt (off + 32)) H1 H2 H3 H4 Ho1 Hb _ _).
  - intros s img1 s' img'. apply segments_grow.
  - intros w2 k2 l2 T2 U2 s2 img2 Ho2 Hb2. eapply IH; [done|done|lia].
Qed.
End pages.
End loops.

(** ** The stack *)
Lemma align4 x : - W32 <= x < W32 -> Z.land (u32 x) (u32 (Z.lnot 3)) = u32 (x / 4 * 4).
Proof.
  intros Hx. assert (Hl : forall y, 0 <= y < W32 -> Z.land y (u32 (Z.lnot 3)) = y / 4 * 4).
  { intros y Hy. change (u32 (Z.lnot 3)) with (Z.shiftl (Z.ones 30) 2). change 4 with (2 ^ 2). rewrite <- Z.shiftr_div_pow2, <- Z.shiftl_mul_pow2 by lia.
    apply Z.bits_inj'. intros j Hj. rewrite Z.land_spec. destruct (Z.ltb_spec j 2).
    - by rewrite !Z.shiftl_spec_low, andb_false_r by lia.
    - rewrite !Z.shiftl_spec, Z.shiftr_spec by lia. replace (j - 2 + 2) with j by lia. destruct (Z.ltb_spec (j - 2) 30).
      + rewrite Z.ones_spec_low by lia. apply andb_true_r.
      + rewrite Z.ones_spec_high, andb_false_r by lia. symmetry. apply Z.testbit_false; [lia|]. rewrite Z.div_small; [done|].
        split; [lia|]. assert (2 ^ 32 <= 2 ^ j) by (apply Z.pow_le_mono_r; lia). lia. }
  rewrite Hl by apply u32_range. destruct (decide (0 <= x)).
  - rewrite !u32_id; [done| |lia]. pose proof (Z.div_mod x 4 ltac:(done)). pose proof (Z.mod_pos_bound x 4 ltac:(done)). lia.
  - assert (u32 x = x + 1 * W32) as ->.
    { unfold u32. symmetry. apply (Z.mod_unique _ _ (-1)); lia. }
    unfold u32. change W32 with (1073741824 * 4) at 1. rewrite Z.mul_assoc, Z.div_add by done.
    pose proof (Z.div_mod x 4 ltac:(done)). pose proof (Z.mod_pos_bound x 4 ltac:(done)). apply (Z.mod_unique _ _ (-1)); lia.
Qed.

Section stack.
Context {W : Type} `{!Blocks W}.
Variable end_ : Z.
Hypothesis Hend : KERNBASE < end_.
Variable data : Z.
Hypothesis Hdata : KERNLINK < data < P2V PHYSTOP.
Hypothesis Hdalign : data mod PGSIZE = 0.
Variables (k0 : kmem) (l0 : list Z).
Local Notation taken := (ExecMem.taken end_ k0 l0).
Local Notation built := (ExecMem.built end_ data k0 l0).
Implicit Types (k : kmem) (l : list Z) (T U : gmap Z Z) (img : Z -> Z) (s : @est W).

Lemma on_km_put {A} (m : M kmem A) s a k' : m (e_km s) = Ret a k' -> on_km m s = Ret a (put_km k' s).
Proof. intros E. unfold on_km, zoom. by rewrite E. Qed.

(** The stack is the page from [base] to [top]; the page [g] below it is the guard. *)
Variables (g : Z).
Hypothesis Hg : 0 <= g.
Let base : Z := (g + 1) * PGSIZE.
Let top : Z := base + PGSIZE.

Lemma copy_stack s l pd T U img va sp bs :
  built (e_km s) l pd T U top g img -> base <= sp <= top -> bs <> [] -> - 2 ^ 25 <= va ->
  sp - 4 < va + Z.of_nat (length bs) <= sp ->
  exists r k', copy_bytes pd (u32 va) bs s = Ret r (put_km k' s) /\
    (r = 0 /\ base <= va /\ built k' l pd T U top g (blit img va (Z.of_nat (length bs)) (fun j => bs !!! Z.to_nat j)) \/
     r = -1 /\ va < base /\ taken k' l pd T U).
Proof.
  intros Hb Hsp Hbs Hva Hend'. unfold copy_bytes. set (len := Z.of_nat (length bs)) in *.
  assert (Hlen : 0 < len) by (unfold len; destruct bs; [done|cbn; lia]). pose proof (bu_size _ _ _ _ _ _ _ _ _ _ _ _ Hb) as Hs.
  destruct (decide (0 <= va)) as [H0|H0].
  - rewrite u32_id by (unfold KERNBASE in *; lia).
    destruct (built_copy end_ Hend data k0 l0 (e_km s) l pd T U top g img va (from_bytes bs) len Hb) as (r & k' & E & Hr); [done|done|lia|by intros m' j _ _|].
    exists r, k'. split; [by apply on_km_put|]. destruct Hr as [(-> & Hno & Hb')|(-> & (_ & _ & Hin & _) & Ht)]; [left|right]; split_and!; try done.
    + destruct (decide (base <= va)); [done|]. exfalso. apply Hno. split_and!; [done|done| |unfold base, PGSIZE in *; lia].
      apply Z.lt_succ_r, Z.div_lt_upper_bound; [done|]. unfold base in *. lia.
    + pose proof (Z.div_mod va PGSIZE ltac:(done)). pose proof (Z.mod_pos_bound va PGSIZE ltac:(done)). unfold base, PGSIZE in *. lia.
  - exists (-1), (e_km s). assert (Hu : u32 va = va + W32) by (unfold u32; symmetry; apply (Z.mod_unique _ _ (-1)); lia).
    split.
    + apply on_km_put. apply (built_copy_high end_ Hend data Hdata Hdalign k0 l0 _ l pd T U top g img); [done|unfold DEVSPACE; lia|done].
    + right. split_and!; [done|unfold base, PGSIZE; lia|apply Hb].
Qed.

Lemma push_args_ok argv : forall s l pd T U img sp args,
  built (e_km s) l pd T U top g img -> base <= sp <= top -> sp mod 4 = 0 -> Forall (fun a => Z.of_nat (length a) < 2 ^ 25) argv ->
  exists r k', push_args pd argv sp args s = Ret r (put_km k' s) /\
    match r with
    | Some (sp', args') => exists img', pushes base argv sp args img = Some (sp', args', img') /\ built k' l pd T U top g img' /\
        base <= sp' <= top /\ sp' mod 4 = 0
    | None => pushes base argv sp args img = None /\ taken k' l pd T U
    end.
Proof.
  induction argv as [|a argv IH]; intros s l pd T U img sp args Hb Hsp Hal Hlen; cbn [push_args pushes].
  { exists (Some (sp, args)), (e_km s). split; [by destruct s|]. by exists img. }
  destruct (MAXARG <=? length args)%nat; [exists None, (e_km s); split; [by destruct s|split; [done|apply Hb]]|].
  apply Forall_cons in Hlen as [Ha Hlen]. set (len := Z.of_nat (length a) + 1). pose proof (bu_size _ _ _ _ _ _ _ _ _ _ _ _ Hb) as Hs.
  assert (Hbase : PGSIZE <= base) by (unfold base, PGSIZE; lia). assert (Hr : - W32 <= sp - len < W32) by (unfold len, KERNBASE, PGSIZE in *; lia). rewrite align4 by done.
  set (va := (sp - len) / 4 * 4). pose proof (Z.div_mod (sp - len) 4 ltac:(done)). pose proof (Z.mod_pos_bound (sp - len) 4 ltac:(done)).
  assert (Hl : Z.of_nat (length (a ++ [0])) = len) by (rewrite length_app; cbn; unfold len; lia).
  destruct (copy_stack s l pd T U img va sp (a ++ [0]) Hb Hsp) as (r & k' & E & Hres); [by destruct a|unfold va, len, PGSIZE in *; lia|rewrite Hl; unfold va; lia|].
  rewrite (bind_Ret _ _ _ _ _ E). rewrite Hl in Hres. destruct Hres as [(-> & Hva & Hb')|(-> & Hva & Ht)]; cbn [Z.ltb Z.compare].
  - destruct (Z.ltb_spec va base); [lia|]. rewrite u32_id by (unfold va, KERNBASE in *; lia).
    destruct (IH (put_km k' s) l pd T U _ va (args ++ [va]) Hb') as (r & k2 & E2 & Hr2); [unfold va, len in *; lia|unfold va; by rewrite Z.mod_mul|done|].
    exists r, k2. split; [exact E2|done].
  - destruct (Z.ltb_spec va base); [|lia]. by exists None, k'.
Qed.
End stack.
End ExecSpec.
