(* ===== verification/ExecProps.v ===== *)
(** [exec] as a whole: it replaces the memory of the process by the image of the program, or
    fails and leaves everything as it was. *)

From S2P Require Import Prelude Params Bytes CString Spinlock Sleeplock Kalloc Fs FsSpec FsFile FsProps Inodes Dirs Links DirProps Vm Uvm VmProps Loaduvm ExecMem Printf Kbd Console ConsoleSpec Segments Exec ExecSpec.

(** ** Transactions

    What a system call relies on: between transactions the blocks have contents [V]; inside
    one there is room to log [tx_room] blocks; ending it keeps what the file system has
    on the disk, from the first inode block on. *)
Class TxSpec (W : Type) `{!Blocks W} `{!BlocksSpec W} (B : superblock) (begin_op end_op : M W unit) := MkTx {
  tx_room : nat;
  idle : W -> (Z -> list Z) -> Prop;
  begin_ok w V : idle w V -> exists w', begin_op w = Ret tt w' /\ owns w' V [] [] tx_room;
  end_ok w V k : owns w V [] [] k ->
    exists w' V', end_op w = Ret tt w' /\ idle w' V' /\ forall b, sb_inodestart B <= b -> V' b = V b
}.

Module ExecProps.
Import KString Kalloc Pages Vm VmSpec Uvm Loaduvm ExecMem Exec ExecSpec.

Section exec.
Context {W : Type} `{!Blocks W} `{!BlocksSpec W}.
Variable B : superblock.
Hypothesis HL : FreeMap.layout B.
Variables (begin_op end_op : M W unit).
Context `{!TxSpec W B begin_op end_op}.
Variable me : Z.
Variable devsw : Z -> @Fs.devfun W.
Variable end_ : Z.
Hypothesis Hend : KERNBASE < end_.
Variable data : Z.
Hypothesis Hdata : KERNLINK < data < P2V PHYSTOP.
Hypothesis Hdalign : data mod PGSIZE = 0.
Variable ts_addr : Z.
Hypothesis Hts : 0 <= ts_addr < 2 ^ 32.
Local Notation uspace := (Uvm.uspace end_).
Local Notation inv := (Pages.inv end_).
Local Notation icache := (Inodes.icache B me).
Local Notation refers := Inodes.refers.
Local Notation bad := (Exec.bad end_op me end_).
Local Notation fs_st I c w := (Fs.MkFs B false I c w).

(** The state in which [exec] is called: a consistent file system between transactions, the
    process's memory [T0] and [U0], and the free pages [l]. *)
Variables (I : list Fs.inode) (V : Z -> list Z) (R : gmap Z Z) (c : nat) (w : W) (nc : Z).
Variables (k : kmem) (l : list Z) (T0 U0 : gmap Z Z).
Variables (cons : Console.cons) (proc : task) (cpu : Segments.cpu).
Record ready : Prop := MkReady {
  re_idle : idle w V;
  re_icache : icache I V R [];
  re_dirs : Dirs.dirs_ok B V;
  re_bytes b : Forall is_byte (V b);
  re_room : (base.size R + 2 <= NINODE)%nat;
  re_cwd : refers I c nc;
  re_good : Dirs.good B V nc;
  re_root : Dirs.good B V ROOTINO;
  re_mem : uspace k l (pgdir proc) T0 U0;
  re_stack : kstack proc <> 0;
  re_cons : ConsoleSpec.screen_ok cons /\ (Console.locking cons <> 0 -> Console.c_lock cons = false);
  re_cpu : Cpu.wf (Segments.irq cpu) /\ length (Segments.gdt cpu) = Segments.NSEGS
}.
Hypothesis Hready : ready.

(** Afterwards: the file system is consistent and idle, with the same contents. *)
Record fs_after (I' : list Fs.inode) (w' : W) : Prop := MkAfter {
  af_blocks : exists V', idle w' V' /\ icache I' V' R [] /\ forall b, sb_inodestart B <= b -> V' b = V b;
  af_cwd : refers I' c nc
}.
(** The process's memory is as before. *)
Definition kept (k' : kmem) (l' : list Z) : Prop :=
  uspace k' l' (pgdir proc) T0 U0 /\ same_parent T0 U0 (ram k) (ram k') /\ l' ≡ₚ l.

Lemma icache_agree I1 V1 R1 H1 V2 : icache I1 V1 R1 H1 -> (forall b, sb_inodestart B <= b -> V2 b = V1 b) -> icache I1 V2 R1 H1.
Proof.
  intros [H2 H3 H4 H5 H6 H7] He. split; try done. intros i x Hx Hr. destruct (H4 i x Hx Hr) as (? & Hn & ? & Hs). split_and!; try done; try lia.
  intros Hv. specialize (Hs Hv). unfold Files.synced, Files.disk_inode in *. rewrite He; [done|]. unfold IBLOCK.
  assert (0 <= Fs.inum x / IPB) by (apply Z.div_pos; [lia|done]). lia.
Qed.

(** The states of [exec] before it commits. *)
Definition S (I' : list Fs.inode) (w' : W) (k' : kmem) : est := MkEst (fs_st I' c w') k' cons proc cpu.

Lemma end_fs I1 w1 k1 : owns w1 V [] [] tx_room -> icache I1 V R [] -> refers I1 c nc ->
  exists w2, on_log end_op (S I1 w1 k1) = Ret tt (S I1 w2 k1) /\ fs_after I1 w2.
Proof.
  intros Ho Hi Hc. destruct (end_ok w1 V tx_room Ho) as (w2 & V2 & E & Hid & He). exists w2. split.
  - unfold on_log, on_fs, Fs.blocks, zoom. cbn. by rewrite E.
  - split; [|done]. exists V2. split_and!; [done| |done]. by eapply icache_agree.
Qed.

(** The inode of the program, locked, and its release. *)
Definition locked (I1 : list Fs.inode) (i : nat) (n : Z) : Prop :=
  icache I1 V (Inodes.inc n R) [i] /\ refers I1 i n /\ refers I1 c nc /\ Dirs.good B V n.

Lemma release I1 i n w1 k1 : locked I1 i n -> owns w1 V [] [] tx_room ->
  exists I2 w2, (on_fs (Fs.iunlockput me i) ;;; on_log end_op) (S I1 w1 k1) = Ret tt (S I2 w2 k1) /\ fs_after I2 w2.
Proof.
  intros (Hi & Hr & Hc & Hg) Ho. pose proof (re_icache Hready) as Hi0.
  assert (Hpos : forall m a, R !! m = Some a -> 0 < a) by (intros m a E; by apply (Inodes.ic_R _ _ _ _ _ _ Hi0 m a)).
  destruct (Inodes.iunlockput_ok B me I1 V (Inodes.inc n R) [] i n c w1 Hi Hr) as (I2 & E & Hi2 & Hk); [apply not_elem_of_nil|left; apply Hg|].
  rewrite Inodes.dec_inc in Hi2 by (apply Hpos).
  assert (Hc2 : refers I2 c nc).
  { apply Hk; [done|]. destruct (decide (nc = n)) as [E0|]; [right|by left]. destruct (re_cwd Hready) as (x & Hx & Hrx & Hnx).
    destruct (Inodes.ic_busy _ _ _ _ _ _ Hi0 c x Hx Hrx) as (_ & _ & HR & _). rewrite Hnx, E0 in HR. unfold Inodes.inc. rewrite HR, lookup_insert_eq. cbn. intros [= E1]. lia. }
  destruct (end_fs I2 w1 k1 Ho Hi2 Hc2) as (w2 & E2 & Ha). exists I2, w2.
  rewrite (bind_Ret _ _ _ tt (S I2 w1 k1)) by (unfold on_fs, zoom, S; cbn; by rewrite E). done.
Qed.

(** The free pages are back and nothing else was written. *)
Lemma back k' l' : inv k' l' -> l' ≡ₚ l -> only (ram k) (ram k') l -> kept k' l'.
Proof.
  intros Hi Hp Ho. pose proof (re_mem Hready) as Hu. pose proof (us_nodup _ _ _ _ _ _ Hu) as Hnd. rewrite app_assoc in Hnd.
  change (NoDup ((pgdir proc :: vals T0 ++ vals U0) ++ l)) in Hnd. apply NoDup_app in Hnd as (_ & Hd & _).
  destruct (parent_keep end_ Hend (pgdir proc) T0 U0 k l k' l' l) as [Hu' Hs]; [done|done|intros q; by rewrite Hp|done|apply Hu|intros q Hq Hq'; by apply (Hd q)|].
  done.
Qed.
Lemma back_refl : kept k l.
Proof. apply back; [apply (re_mem Hready)|done|apply only_refl]. Qed.

(** [exec] gave up: -1, and everything is as before. *)
Definition gave_up (m : res est Z) : Prop :=
  exists I' w' k' l' cons', m = Ret (-1) (MkEst (fs_st I' c w') k' cons' proc cpu) /\ fs_after I' w' /\ kept k' l'.

Local Notation taken := (ExecMem.taken end_ k l).
Local Notation built := (ExecMem.built end_ data k l).

Lemma freed k1 l1 pd T U : taken k1 l1 pd T U ->
  exists k2 l2, (forall I' w', (when (negb (pd =? 0)) (on_km (freevm end_ pd))) (S I' w' k1) = Ret tt (S I' w' k2)) /\ kept k2 l2.
Proof.
  intros Ht. destruct (taken_free end_ Hend k l k1 l1 pd T U Ht) as (k2 & l2 & E & Hi & Hp & Ho). exists k2, l2. split; [|by apply back].
  intros I' w'. pose proof (shape_pd end_ (Hend0 _ Hend) _ _ _ _ (us_shape _ _ _ _ _ _ (tk_space _ _ _ _ _ _ _ _ Ht))) as Hpd.
  destruct (Z.eqb_spec pd 0) as [->|_]; [destruct Hpd as (_ & ? & _); unfold KERNBASE in *; lia|]. cbn [negb when].
  unfold on_km, zoom, S. cbn. by rewrite E.
Qed.
Lemma bad_locked k1 l1 pd T U I1 i n w1 : taken k1 l1 pd T U -> locked I1 i n -> owns w1 V [] [] tx_room ->
  gave_up (bad pd (Some i) (S I1 w1 k1)).
Proof.
  intros Ht Hlk Ho. destruct (freed k1 l1 pd T U Ht) as (k2 & l2 & E & Hk). destruct (release I1 i n w1 k2 Hlk Ho) as (I2 & w2 & E2 & Ha).
  exists I2, w2, k2, l2, cons. split; [|done]. unfold Exec.bad. rewrite (bind_Ret _ _ _ _ _ (E I1 w1)), (bind_Ret _ _ _ _ _ E2). done.
Qed.
Lemma bad_start k1 l1 I1 i n w1 : kept k1 l1 -> locked I1 i n -> owns w1 V [] [] tx_room -> gave_up (bad 0 (Some i) (S I1 w1 k1)).
Proof.
  intros Hk Hlk Ho. destruct (release I1 i n w1 k1 Hlk Ho) as (I2 & w2 & E2 & Ha).
  exists I2, w2, k1, l1, cons. split; [|done]. unfold Exec.bad. cbn [Z.eqb negb when]. rewrite (bind_Ret (ret tt) _ _ tt (S I1 w1 k1)) by done. by rewrite (bind_Ret _ _ _ _ _ E2).
Qed.
Lemma bad_unlocked k1 l1 pd T U I1 w1 : taken k1 l1 pd T U -> fs_after I1 w1 -> gave_up (bad pd None (S I1 w1 k1)).
Proof.
  intros Ht Ha. destruct (freed k1 l1 pd T U Ht) as (k2 & l2 & E & Hk).
  exists I1, w1, k2, l2, cons. split; [|done]. unfold Exec.bad. by rewrite (bind_Ret _ _ _ _ _ (E I1 w1)).
Qed.

(** ** The new program *)
Record running (k' : kmem) (l' : list Z) (pd : Z) (T U : gmap Z Z) (im : image) : Prop := MkRunning {
  ru_space : uspace k' l' pd T U;
  ru_account : pd :: vals T ++ vals U ++ l' ≡ₚ (pgdir proc :: vals T0 ++ vals U0) ++ l;
  ru_pages n : is_Some (U !! n) <-> 0 <= n /\ n * PGSIZE < i_top im;
  ru_user n f : U !! n = Some f -> user (VmSpec.entry (ram k') T (n * PGSIZE)) = negb (n =? i_guard im);
  ru_bytes n f x : U !! n = Some f -> 0 <= x < PGSIZE -> ram k' (f + x) = i_mem im (n * PGSIZE + x);
  ru_kernel va : KERNBASE <= va < 2 ^ 32 -> VmSpec.entry (ram k') T va = kernel_entry data va
}.

Lemma switch_spaces k1 l1 pd T U im :
  built k1 l1 pd T U (i_top im) (i_guard im) (i_mem im) ->
  exists k2 l2, freevm end_ (pgdir proc) k1 = Ret tt k2 /\ running k2 l2 pd T U im.
Proof.
  intros [[Hu1 Hp1 Ho1] Hs Hpg Hus Himg Hz Hk]. pose proof (re_mem Hready) as Hu.
  pose proof (us_nodup _ _ _ _ _ _ Hu) as Hnd. rewrite app_assoc in Hnd. change (NoDup ((pgdir proc :: vals T0 ++ vals U0) ++ l)) in Hnd.
  set (old := pgdir proc :: vals T0 ++ vals U0) in *. pose proof Hnd as (_ & Hd & _)%NoDup_app.
  destruct (parent_keep end_ Hend (pgdir proc) T0 U0 k l k1 l1 l) as [Hold _]; [done|apply Hu1| |done|apply Hu|intros q Hq Hq'; by apply (Hd q)|].
  { intros q Hq. rewrite <- Hp1. clear - Hq. set_solver. }
  destruct (freevm_ok end_ Hend k1 l1 (pgdir proc) T0 U0 Hold) as (k2 & l2 & E & Hi2 & Hp2 & Ho2).
  assert (Hp2' : l2 ≡ₚ old ++ l1) by (rewrite Hp2; unfold old; cbn; by rewrite <- app_assoc).
  assert (Hnew : l ≡ₚ (pd :: vals T ++ vals U) ++ l1) by (rewrite <- Hp1; cbn; by rewrite <- app_assoc).
  assert (Hfp : Forall (page end_) (old ++ l1)).
  { rewrite <- Hp2'. apply Hi2. }
  destruct (parent_keep end_ Hend pd T U k1 l1 k2 l2 (old ++ l1)) as [Hu2 [He2 Hc2]]; [done|done|intros q; by rewrite Hp2'| |done| |].
  { eapply only_mono; [exact Ho2|]. intros q. unfold old. cbn. rewrite <- app_assoc. done. }
  { intros q Hq Hq'. rewrite Hnew in Hnd. apply NoDup_app in Hnd as (_ & Hn1 & (_ & Hn2 & _)%NoDup_app).
    apply elem_of_app in Hq as [Hq|Hq]; [apply (Hn1 q Hq), elem_of_app; by left|by apply (Hn2 q)]. }
  exists k2, l2. split; [done|]. split; [done| |done|..].
  - transitivity ((pd :: vals T ++ vals U) ++ l2); [cbn; by rewrite <- app_assoc|]. rewrite Hp2', Hnew, !app_assoc. apply Permutation_app_tail, Permutation_app_comm.
  - intros n f Hf. rewrite He2. by eapply Hus.
  - intros n f x Hf Hx. rewrite (Hc2 n f x Hf Hx). by apply Himg.
  - intros va Hva. rewrite He2. by apply Hk.
Qed.

(** [exec] has replaced the program. *)
Definition replaced (path : list Z) (im : image) (m : res est Z) : Prop :=
  exists I' w' k' l' pd T U cpu',
    m = Ret 0 (MkEst (fs_st I' c w') k' cons (MkTask (i_top im) pd (kstack proc) (i_entry im) (i_sp im) (take 15 (last_elem path path))) cpu') /\
    fs_after I' w' /\ running k' l' pd T U im /\ Segments.cr3 cpu' = V2P pd /\ Segments.esp0 cpu' = u32 (kstack proc + KSTACKSIZE) /\
    Cpu.ncli (Segments.irq cpu') = Cpu.ncli (Segments.irq cpu) /\ Cpu.eflags (Segments.irq cpu') = Cpu.eflags (Segments.irq cpu).

Lemma commit path im I1 w1 k1 l1 pd T U :
  fs_after I1 w1 -> built k1 l1 pd T U (i_top im) (i_guard im) (i_mem im) ->
  replaced path im ((upd_proc (set_name (take 15 (last_elem path path))) ;;;
    old <- reads (fun s => pgdir (e_proc s)) ;;
    upd_proc (set_pgdir pd) ;;; upd_proc (set_sz (i_top im)) ;;; upd_proc (set_eip (i_entry im)) ;;; upd_proc (set_esp (i_sp im)) ;;;
    p <- reads e_proc ;;
    on_cpu (Segments.switchuvm ts_addr (Some (kstack p, pgdir p))) ;;; on_km (freevm end_ old) ;;; ret 0) (S I1 w1 k1)).
Proof.
  intros Ha Hb. destruct (switch_spaces k1 l1 pd T U im Hb) as (k2 & l2 & E & Hr). destruct (re_cpu Hready) as [Hwf Hlen].
  pose proof (SegmentFacts.switchuvm_ok ts_addr (Some (kstack proc, pd)) cpu Hts Hwf Hlen) as Hsw. cbn zeta iota beta in Hsw.
  pose proof (shape_pd end_ (Hend0 _ Hend) _ _ _ _ (us_shape _ _ _ _ _ _ (tk_space _ _ _ _ _ _ _ _ (bu_taken _ _ _ _ _ _ _ _ _ _ _ _ Hb)))) as Hpd.
  destruct (Z.eqb_spec (kstack proc) 0) as [E0|_]; [by destruct (re_stack Hready)|].
  destruct (Z.eqb_spec pd 0) as [->|_]; [destruct Hpd as (_ & ? & _); unfold KERNBASE in *; lia|].
  destruct Hsw as (cpu' & d & Esw & Hcr & _ & _ & _ & _ & He0 & _ & Hn & Hf & _).
  exists I1, w1, k2, l2, pd, T, U, cpu'. split; [|done].
  unfold upd_proc. rewrite bind_modify, bind_reads, !bind_modify, bind_reads. cbn [e_proc e_fs e_km e_cons e_cpu S set_name set_pgdir set_sz set_eip set_esp kstack pgdir].
  erewrite bind_Ret by (unfold on_cpu, zoom; cbn [e_cpu S]; rewrite Esw; reflexivity).
  erewrite bind_Ret by (unfold on_km, zoom; cbn [e_km S]; rewrite E; reflexivity). done.
Qed.

(** ** The stages of [exec] *)
Definition outcome (path : list Z) (spec : option image) (m : res est Z) : Prop :=
  match spec with
  | Some im => replaced path im m \/ gave_up m /\ Z.of_nat (length l) <= 1025 + pages_below (i_top im)
  | None => gave_up m
  end.
Lemma failed path spec m : gave_up m -> (forall im, spec = Some im -> Z.of_nat (length l) <= 1025 + pages_below (i_top im)) -> outcome path spec m.
Proof. intros Hg Hs. destruct spec as [im|]; [right; by split; [|apply Hs]|done]. Qed.

Variable (path : list Z) (argv : list (list Z)).
Hypothesis Hpath : Forall (fun z => z <> 0) path.
Hypothesis Hargv : Forall (fun a => Z.of_nat (length a) < 2 ^ 25) argv.

(** The stack and the arguments, once the segments are loaded. *)
Definition make_stack (entry size : Z) (img : Z -> Z) : option image :=
  let base := round_up size in
  let top := base + 2 * PGSIZE in
  if KERNBASE <=? top then None else
  match pushes (base + PGSIZE) argv top [] img with
  | None => None
  | Some (sp, args, img) =>
      let n := (4 + Z.of_nat (length args)) * 4 in
      if sp - n <? base + PGSIZE then None else
      Some (MkImage top (base / PGSIZE) entry (sp - n) (blit img (sp - n) n (fun j => words (stack_words sp args) !!! Z.to_nat j)))
  end.
Definition stack_and_commit (pd entry size : Z) : M est Z :=
  let size := PGROUNDUP size in
  size <- on_km (allocuvm end_ pd size (u32 (size + 2 * PGSIZE))) ;;
  if size =? 0 then bad pd None else
  on_km (clearpteu pd (u32 (size - 2 * PGSIZE))) ;;;
  r <- push_args pd argv size [] ;;
  match r with
  | None => bad pd None
  | Some (sp, args) =>
      let argc := Z.of_nat (length args) in
      let ustack := [4294967295; argc; u32 (sp - (argc + 1) * 4)] ++ args ++ [0] in
      let sp := u32 (sp - (3 + argc + 1) * 4) in
      r <- copy_bytes pd sp (words ustack) ;;
      if r <? 0 then bad pd None else
      upd_proc (set_name (take 15 (last_elem path path))) ;;;
      old <- reads (fun s => pgdir (e_proc s)) ;;
      upd_proc (set_pgdir pd) ;;;
      upd_proc (set_sz size) ;;;
      upd_proc (set_eip entry) ;;;
      upd_proc (set_esp sp) ;;;
      p <- reads e_proc ;;
      on_cpu (Segments.switchuvm ts_addr (Some (kstack p, pgdir p))) ;;;
      on_km (freevm end_ old) ;;;
      ret 0
  end.

Lemma round_up_eq x : 0 <= x <= KERNBASE -> PGROUNDUP x = round_up x.
Proof.
  intros Hx. pose proof (roundup_range x Hx) as (Hm & Hr & _). pose proof (aligned _ Hm) as Ha. unfold round_up.
  rewrite Ha at 1. f_equal. apply (Z.div_unique _ _ _ (x + (PGSIZE - 1) - PGROUNDUP x)); [left; unfold PGSIZE in *; lia|]. unfold PGSIZE in *. lia.
Qed.
Lemma length_words ws : length (words ws) = (4 * length ws)%nat.
Proof. unfold words. induction ws as [|x ws IH]; [done|]. cbn [map concat]. rewrite length_app, length_le_bytes, IH. cbn [length]. lia. Qed.

Lemma built_top k1 l1 pd T U size img : built k1 l1 pd T U size (-1) img ->
  exists r k2 l2 T2 U2, allocuvm end_ pd (PGROUNDUP size) (u32 (PGROUNDUP size + 2 * PGSIZE)) k1 = Ret r k2 /\ taken k2 l2 pd T2 U2 /\
    let top := round_up size + 2 * PGSIZE in
    (top < KERNBASE /\ r = top /\ built k2 l2 pd T2 U2 top (-1) img \/
     r = 0 /\ (KERNBASE <= top \/ Z.of_nat (length l) <= 1025 + pages_below top)).
Proof.
  intros Hb. pose proof (bu_size _ _ _ _ _ _ _ _ _ _ _ _ Hb) as Hs. rewrite <- round_up_eq by lia. pose proof (roundup_range size ltac:(lia)) as (Hm & Hr & Hk).
  assert (Hw : u32 (PGROUNDUP size + 2 * PGSIZE) = PGROUNDUP size + 2 * PGSIZE) by (apply u32_id; unfold KERNBASE, PGSIZE in *; lia). rewrite Hw.
  destruct (decide (KERNBASE <= PGROUNDUP size + 2 * PGSIZE)) as [Hbig|Hsmall].
  { exists 0, k1, l1, T, U. unfold allocuvm. destruct (Z.leb_spec KERNBASE (PGROUNDUP size + 2 * PGSIZE)); [|lia].
    split_and!; [done|apply Hb|]. cbn zeta. right. split; [done|by left]. }
  assert (Hb' : built k1 l1 pd T U (PGROUNDUP size) (-1) img).
  { destruct Hb as [Ht _ Hpg Hus Himg Hz Hke]. pose proof (aligned _ Hm) as Ha. split; try done; [unfold PGSIZE in *; lia| |].
    - intros n. rewrite Hpg. unfold PGSIZE in *. lia.
    - intros a Ha'. apply Hz. pose proof (roundup_range (PGROUNDUP size) ltac:(lia)). lia. }
  destruct (built_alloc end_ Hend data k l k1 l1 pd T U (PGROUNDUP size) (-1) img (PGROUNDUP size + 2 * PGSIZE) Hb') as (r & k2 & l2 & T2 & U2 & E & Ht & Hres); [unfold PGSIZE in *; lia|lia|].
  exists r, k2, l2, T2, U2. split_and!; [done|done|]. cbn zeta. rewrite Z.max_r in Hres by (unfold PGSIZE; lia).
  destruct Hres as [?|(-> & [?|[_ ?]])]; [by left|lia|right; split; [done|by right]].
Qed.

Lemma stack_ok entry I1 w1 k1 l1 pd T U size img : fs_after I1 w1 -> built k1 l1 pd T U size (-1) img ->
  outcome path (make_stack entry size img) (stack_and_commit pd entry size (S I1 w1 k1)).
Proof.
  intros Ha Hb. pose proof (bu_size _ _ _ _ _ _ _ _ _ _ _ _ Hb) as Hs. unfold stack_and_commit, make_stack.
  destruct (built_top k1 l1 pd T U size img Hb) as (r & k2 & l2 & T2 & U2 & E & Ht & Hr). cbn zeta in Hr |- *.
  rewrite (bind_Ret _ _ _ _ _ (on_km_put _ (S I1 w1 k1) _ _ E)). change (put_km k2 (S I1 w1 k1)) with (S I1 w1 k2).
  pose proof (round_up_eq size ltac:(lia)) as Hru. pose proof (roundup_range size ltac:(lia)) as (Hm & Hrr & _). rewrite Hru in Hm, Hrr.
  set (base := round_up size) in *. pose proof (aligned _ Hm) as Hal. set (g := base / PGSIZE) in *.
  destruct Hr as [(Hlt & -> & Hb2)|(-> & Hr)].
  2: { cbn [Z.eqb]. apply failed; [by eapply bad_unlocked|]. intros im. destruct (Z.leb_spec KERNBASE (base + 2 * PGSIZE)); [done|]. destruct Hr as [|Hr]; [lia|].
       destruct (pushes _ _ _ _ _) as [[[sp args] img2]|]; [|done]. destruct (_ <? _); [done|]. by intros [= <-]. }
  destruct (Z.leb_spec KERNBASE (base + 2 * PGSIZE)); [lia|]. destruct (Z.eqb_spec (base + 2 * PGSIZE) 0) as [|Hnz]; [unfold PGSIZE in *; lia|].
  assert (Hg0 : 0 <= g) by (apply Z.div_pos; [lia|by unfold PGSIZE]).
  destruct (built_clear end_ Hend data k l k2 l2 pd T2 U2 (base + 2 * PGSIZE) img g Hb2 Hg0) as (k3 & E3 & Hb3); [unfold PGSIZE in *; lia|].
  rewrite u32_id by (unfold KERNBASE, PGSIZE in *; lia). replace (base + 2 * PGSIZE - 2 * PGSIZE) with (g * PGSIZE) by lia.
  rewrite (bind_Ret _ _ _ _ _ (on_km_put _ (S I1 w1 k2) _ _ E3)). change (put_km k3 (S I1 w1 k2)) with (S I1 w1 k3).
  assert (Htop : base + 2 * PGSIZE = (g + 1) * PGSIZE + PGSIZE) by lia. assert (Hbase : base + PGSIZE = (g + 1) * PGSIZE) by lia.
  rewrite Htop in Hb3 |- *. rewrite Hbase.
  destruct (push_args_ok end_ Hend data Hdata Hdalign k l g Hg0 argv (S I1 w1 k3) l2 pd T2 U2 img ((g + 1) * PGSIZE + PGSIZE) [] Hb3) as (r & k4 & E4 & Hr);
    [unfold PGSIZE in *; lia|rewrite Z.add_mod, Z.mul_mod by done; unfold PGSIZE; change (4096 mod 4) with 0; by rewrite Z.mul_0_r|done|].
  rewrite (bind_Ret _ _ _ _ _ E4). change (put_km k4 (S I1 w1 k3)) with (S I1 w1 k4).
  destruct r as [[sp args]|]; [|destruct Hr as [-> Ht4]; by eapply bad_unlocked].
  destruct Hr as (img4 & Hpush & Hb4 & Hsp & Hal4). rewrite Hpush. assert (Hcnt : (length args <= 32)%nat) by (eapply pushes_count; [exact Hpush|cbn; lia]).
  set (argc := Z.of_nat (length args)). rewrite (u32_id (sp - (argc + 1) * 4)) by (unfold argc, KERNBASE, PGSIZE in *; lia).
  change ([4294967295; argc; sp - (argc + 1) * 4] ++ args ++ [0]) with (stack_words sp args).
  replace ((3 + argc + 1) * 4) with ((4 + argc) * 4) by lia. set (n := (4 + argc) * 4).
  assert (Hlen : Z.of_nat (length (words (stack_words sp args))) = n).
  { rewrite length_words. unfold stack_words. rewrite !length_app. cbn [length]. unfold n, argc. lia. }
  destruct (copy_stack end_ Hend data Hdata Hdalign k l g Hg0 (S I1 w1 k4) l2 pd T2 U2 img4 (sp - n) sp (words (stack_words sp args)) Hb4 Hsp)
    as (r & k5 & E5 & Hr5); [intros E0; rewrite E0 in Hlen; unfold n, argc in Hlen; cbn in Hlen; lia|unfold n, argc, PGSIZE in *; lia|lia|].
  rewrite (bind_Ret _ _ _ _ _ E5). change (put_km k5 (S I1 w1 k4)) with (S I1 w1 k5). rewrite Hlen in Hr5.
  destruct Hr5 as [(-> & Hge & Hb5)|(-> & Hlow & Ht5)]; cbn [Z.ltb Z.compare].
  - destruct (Z.ltb_spec (sp - n) ((g + 1) * PGSIZE)); [lia|]. left. rewrite u32_id by (unfold KERNBASE, PGSIZE, n, argc in *; lia).
    exact (commit path (MkImage ((g + 1) * PGSIZE + PGSIZE) g entry (sp - n) _) I1 w1 k5 l2 pd T2 U2 Ha Hb5).
  - destruct (Z.ltb_spec (sp - n) ((g + 1) * PGSIZE)); [|lia]. by eapply bad_unlocked.
Qed.

(** From the locked inode on. *)
Definition load_program (ip : nat) : M est Z :=
  r <- on_fs (Fs.readi devsw ip 0 sizeof_elfhdr) ;;
  if negb (fst r =? sizeof_elfhdr) then bad 0 (Some ip) else
  let elf := elf_of (snd r) in
  if negb (magic elf =? ELF_MAGIC) then bad 0 (Some ip) else
  pd <- on_km (setupkvm end_ data) ;;
  if pd =? 0 then bad 0 (Some ip) else
  r <- load_segments devsw end_ (Z.to_nat (phnum elf)) ip pd (i32 (phoff elf)) 0 ;;
  match r with
  | None => bad pd (Some ip)
  | Some size => on_fs (Fs.iunlockput me ip) ;;; on_log end_op ;;; stack_and_commit pd (entry elf) size
  end.

Lemma load_ok I1 i n w1 : locked I1 i n -> owns w1 V [] [] tx_room -> Files.file_ok B V (Dirs.ino B V n) ->
  outcome path (program (file B V n) (fsize B V n) argv) (load_program i (S I1 w1 k)).
Proof.
  intros Hlk Ho Hf. pose proof Hlk as (Hi & Hr & Hc & Hg). assert (Hin : i ∈ [i]) by (by left). unfold load_program, program.
  destruct (read_header B HL me devsw I1 V (Inodes.inc n R) [i] i n c tx_room Hi Hr Hin Hf cons proc cpu w1 k 0 52 Ho) as (r & bs & w2 & E & Ho2 & Hres); [lia|lia|].
  change (ExecSpec.st B I1 c cons proc cpu) with (S I1) in *. rewrite (bind_Ret _ _ _ _ _ E). cbn [fst snd].
  destruct Hres as [(-> & Hsz & ->)|(Hne & Hsz)]; [|destruct (Z.eqb_spec r sizeof_elfhdr) as [|_]; [done|]].
  2: { destruct (Z.ltb_spec (fsize B V n) 52); [|lia]. eapply bad_start; [apply back_refl|done|done]. }
  destruct (Z.ltb_spec (fsize B V n) 52); [lia|]. change (negb (52 =? sizeof_elfhdr)) with false. cbn iota zeta.
  set (h := elf_of (file_bytes (file B V n) 0 52)).
  destruct (negb (magic h =? ELF_MAGIC)); [eapply bad_start; [apply back_refl|done|done]|].
  destruct (built_new end_ Hend data Hdata Hdalign k l) as (pd & k2 & l2 & E2 & H2); [apply (re_mem Hready)|].
  rewrite (bind_Ret _ _ _ _ _ (on_km_put _ (S I1 w2 k) _ _ E2)). change (put_km k2 (S I1 w2 k)) with (S I1 w2 k2).
  destruct H2 as [(Hpd & T & Hb)|(-> & Hi2 & Hp2 & Ho3 & Hfew)].
  2: { cbn [Z.eqb]. apply failed; [eapply bad_start; [by eapply back|done|done]|]. intros im Him. assert (0 <= pages_below (i_top im)); [|lia].
       enough (0 <= i_top im) by (unfold pages_below; apply Z.div_pos; unfold PGSIZE; lia).
       destruct (segments _ _ _ _ _ _) as [[size img]|] eqn:Es; [|done]. apply segments_size in Es; [|unfold KERNBASE; lia].
       destruct (_ <=? _); [done|]. destruct (pushes _ _ _ _ _) as [[[? ?] ?]|]; [|done]. destruct (_ <? _); [done|]. injection Him as <-. cbn [i_top].
       rewrite <- round_up_eq by lia. pose proof (roundup_range size ltac:(lia)). unfold PGSIZE in *. lia. }
  destruct (Z.eqb_spec pd 0) as [|_]; [done|].
  assert (Hoff : 0 <= phoff h < W32).
  { apply get32_range; [apply Forall_map, Forall_forall; intros p _; apply file_byte; apply Hready|]. unfold file_bytes. rewrite length_map, length_seqZ. cbn. lia. }
  destruct (load_segments_ok B HL me devsw end_ Hend data I1 V (Inodes.inc n R) [i] i n c tx_room Hi Hr Hin Hf (re_bytes Hready) cons proc cpu k l
    (Z.to_nat (phnum h)) w2 k2 l2 pd T ∅ (phoff h) 0 (fun _ => 0) Ho2 Hb Hoff) as (r & w3 & k3 & l3 & T3 & U3 & E3 & Ho4 & Ht3 & Hr3).
  change (ExecSpec.st B I1 c cons proc cpu) with (S I1) in *. rewrite (bind_Ret _ _ _ _ _ E3). destruct r as [size|].
  - destruct Hr3 as (img & -> & Hb3). destruct (release I1 i n w3 k3 Hlk Ho4) as (I4 & w4 & E4 & Ha4).
    apply bind_inv in E4 as (? & s4 & E4 & E5). rewrite (bind_Ret _ _ _ _ _ E4), (bind_Ret _ _ _ _ _ E5).
    exact (stack_ok (entry h) I4 w4 k3 l3 pd T3 U3 size img Ha4 Hb3).
  - apply failed; [by eapply bad_locked|]. intros im. destruct (segments _ _ _ _ _ _) as [[size img]|] eqn:Es; [|done]. specialize (Hr3 size img eq_refl).
    apply segments_size in Es; [|unfold KERNBASE; lia].
    destruct (_ <=? _); [done|]. destruct (pushes _ _ _ _ _) as [[[? ?] ?]|]; [|done]. destruct (_ <? _); [done|]. intros [= <-]. cbn [i_top].
    rewrite <- round_up_eq by lia. pose proof (roundup_range size ltac:(lia)) as (_ & Hrr & _).
    pose proof (pages_below_mono size (PGROUNDUP size + 2 * PGSIZE)). unfold PGSIZE in *. lia.
Qed.

(** The image that the path and the arguments stand for. *)
Definition image_at : option image :=
  match Dirs.walk B V (Dirs.start_of path nc) (Dirs.elems path) with
  | Some n => program (file B V n) (fsize B V n) argv
  | None => None
  end.

Lemma exec_outcome :
  (forall n, Dirs.walk B V (Dirs.start_of path nc) (Dirs.elems path) = Some n -> Files.file_ok B V (Dirs.ino B V n)) ->
  outcome path image_at (exec begin_op end_op me devsw end_ data ts_addr path argv (S I w k)).
Proof.
  intros Hfile. unfold exec, image_at. destruct (begin_ok w V (re_idle Hready)) as (w1 & E1 & Ho1).
  rewrite (bind_Ret _ _ _ tt (S I w1 k)) by (unfold on_log, on_fs, Fs.blocks, zoom, S; cbn; by rewrite E1).
  destruct (Dirs.namex_ok B HL me devsw I V R c w1 tx_room nc path false (re_icache Hready) (re_dirs Hready) Ho1 (re_room Hready) (re_cwd Hready)
    (re_good Hready) (re_root Hready) Hpath) as (o & I2 & w2 & E2 & Ho2 & Hi2 & Hk2 & Hres).
  assert (Hc2 : refers I2 c nc).
  { apply Hk2; [|apply Hready]. destruct (re_cwd Hready) as (x & Hx & Hrx & <-). destruct (Inodes.ic_busy _ _ _ _ _ _ (re_icache Hready) c x Hx Hrx) as (_ & _ & HR & _). eauto. }
  rewrite (bind_Ret _ _ _ (fst <$> o) (S I2 w2 k)) by (unfold on_fs, zoom, S, Fs.namei, bind; cbn [e_fs]; by rewrite E2).
  cbn [Dirs.target] in *. destruct (Dirs.walk B V (Dirs.start_of path nc) (Dirs.elems path)) as [n|] eqn:Ew.
  - destruct Hres as (j & -> & Hj). cbn [fmap option_fmap option_map fst]. assert (Hg : Dirs.good B V n).
    { eapply Dirs.walk_good; [apply Hready| |exact Ew]. unfold Dirs.start_of. destruct path as [|z p]; [apply Hready|]. destruct (_ =? _); apply Hready. }
    destruct (Inodes.ilock_ok B HL me I2 V (Inodes.inc n R) [] j n c w2 tx_room Hi2 Hj (not_elem_of_nil _)) as (I3 & w3 & E3 & Ho3 & Hi3 & Hk3); [apply Hg|done|].
    rewrite (bind_Ret _ _ _ tt (S I3 w3 k)) by (unfold on_fs, zoom, S; cbn [e_fs]; by rewrite E3).
    apply (load_ok I3 j n w3); [by split_and!; auto|done|by apply Hfile].
  - subst o. cbn [fmap option_fmap option_map]. destruct (end_fs I2 w2 k Ho2 Hi2 Hc2) as (w3 & E3 & Ha3). rewrite (bind_Ret _ _ _ _ _ E3).
    destruct (re_cons Hready) as [Hs Hl]. destruct (ConsoleSpec.cprintf_literal (fun _ => 0) (fun _ => []) ltac:(by intros) fail_message cons Hs Hl) as (cons' & E4 & _); [repeat constructor; lia|].
    exists I2, w3, k, l, cons'. split; [|split; [done|apply back_refl]].
    rewrite (bind_Ret _ _ _ tt (MkEst (fs_st I2 c w3) k cons' proc cpu)) by (unfold on_cons, zoom, S; cbn [e_cons]; by rewrite E4). done.
Qed.

End exec.

(** ** A process that runs the program [/a] *)
Import DirProps.DirProps VmProps.VmProps.
#[local] Instance exec_spec : BlocksSpec (list (list Z)) := RamDisk.ram_spec 10.
#[local] Instance ram_tx : TxSpec (list (list Z)) FsProps.sb0 (ret tt) (ret tt).
Proof.
  refine (MkTx _ _ _ _ _ _ 20 (fun w V => owns w V [] [] 20) _ _).
  - intros w V Ho. by exists w.
  - intros w V k Ho. by exists w, V.
Defined.
Definition argv1 : list (list Z) := [[97]; [104; 105]].
Definition free1 : list Z := pages_from (KERNBASE + 3 * PGSIZE) 2000.
Definition proc1 : task := MkTask 0 pd0 (KERNBASE + PGSIZE) 0 0 [].
Definition file1 : Z -> Z := ExecSpec.file FsProps.sb0 V1 2.
Definition size1 : Z := ExecSpec.fsize FsProps.sb0 V1 2.

Lemma image1 : exists im, program file1 size1 argv1 = Some im /\ i_top im = 12288.
Proof.
  assert (H : (i_top <$> program file1 size1 argv1) = Some 12288) by (vm_compute; reflexivity).
  destruct (program file1 size1 argv1) as [im|]; [|done]. exists im. by injection H.
Qed.
Lemma space_of n : Z.of_nat n < 57000 -> uspace end0 (free_kmem (pages_from (KERNBASE + 3 * PGSIZE) n)) (pages_from (KERNBASE + 3 * PGSIZE) n) pd0 ∅ ∅.
Proof.
  intros Hn. assert (Hp : pd0 :: pages_from (KERNBASE + 3 * PGSIZE) n = pages_from pd0 (Datatypes.S n)) by (by rewrite pages_from_S).
  apply empty_uspace; [done| |]; rewrite Hp.
  - apply (pages_in_ram end0); [done|done|done|]. change (P2V PHYSTOP) with 2382364672. unfold pd0, KERNBASE, PGSIZE. lia.
  - apply NoDup_pages_from.
Qed.
Lemma bytes1 b : Forall is_byte (V1 b).
Proof.
  assert (Hall : Forall (Forall is_byte) disk1) by (apply (bool_decide_unpack _); vm_compute; exact Logic.I).
  unfold V1. destruct (disk1 !! Z.to_nat b) as [x|] eqn:E.
  - rewrite (list_lookup_total_correct _ _ _ E). rewrite Forall_lookup in Hall. by eapply Hall.
  - rewrite list_lookup_total_alt, E. constructor.
Qed.
Lemma ready1 : ready FsProps.sb0 (ret tt) (ret tt) 3 end0 I1 V1 {[1 := 1]} 0 disk1 1 (free_kmem free1) free1 ∅ ∅ ConsoleSpec.cons0 proc1 SegmentFacts.cpu0.
Proof.
  split.
  - apply owns1.
  - apply icache1.
  - apply dirs1.
  - apply bytes1.
  - vm_compute. lia.
  - apply refers1.
  - apply good1. by left.
  - apply good1. by left.
  - by apply space_of.
  - done.
  - split; [split; [done|]; by exists 0|done].
  - split; [|done]. by split.
Qed.

Lemma arguments_found_witness : exists im, program file1 size1 argv1 = Some im /\ word_at (i_mem im) (i_sp im + 4) = 2.
Proof.
  destruct image1 as (im & E & _). exists im. split; [exact E|].
  exact (proj1 (proj2 (proj2 (arguments_found file1 size1 argv1 im E)))).
Defined.
End ExecProps.
