(* ===== verification/LogTx.v ===== *)
(** System calls on the real log.

    The contract [TxSpec] of [ExecProps.v], under which [exec] is proved correct, is fulfilled
    by [begin_op] and [end_op] of [log.c] over the buffer cache and the disk: between two
    system calls the log is empty and the disk holds the blocks; inside one the changed blocks
    are in the cache and in the log; [end_op] commits them to the disk. *)

From S2P Require Import Prelude Params Bytes Sleeplock Bio Cache Log Txn Fs Kalloc FsSpec FsFile Dirs Vm Exec ExecSpec ExecProps.

Module LogTx.
Import Disk Bio Cache Log Commit LogBlocks.

Section tx.
Variable me : Z.
Variables (N lo : Z).
#[local] Instance blocks : Blocks lstate := log_blocks me.
#[local] Instance log_spec : BlocksSpec lstate := log_blocks_spec me N lo.

Record log_idle (s : lstate) (V : Z -> list Z) : Prop := MkLogIdle {
  li_disk : exists d, Txn.idle me (lg s) (bc s) d /\ disksize d = N /\ forall b, 0 <= b -> V b = dview d b;
  li_size : LOGSIZE <= l_size (lg s);
  li_low : l_start (lg s) + l_size (lg s) <= lo /\ 2 <= lo
}.

(** The room in a transaction: [MAXOPBLOCKS] below the size of the log, and what [log_write]
    accepts. *)
Definition log_room : nat := 27.

Lemma log_begin s V : log_idle s V -> exists s', begin_op s = Ret tt s' /\ log_owns me N lo s' V [] [] log_room.
Proof.
  intros [(d & HI & HN & HV) Hsz Hlow]. destruct s as [l c]. cbn [lg bc] in *. pose proof HI as [HA HB Hh Hn Hlk Ho Hc].
  exists (MkL (set_outstanding 1 l) c). split; [by apply (Txn.begin_op_idle me l c d)|].
  assert (HL0 : logged (set_outstanding 1 l) = []) by (unfold logged; cbn; by rewrite Hn).
  pose proof (boot_hdr l d HB) as [_ HF]. unfold LOGSIZE, MAXOPBLOCKS, log_room in *.
  split; cbn [lg bc]; rewrite ?HL0; cbn [length set_outstanding l_lh l_size l_start l_outstanding l_committing l_lock]; rewrite ?Hn; try done; try lia.
  - exists d. split_and!; [|done|by intros ? ?%elem_of_nil| |done].
    + eapply abs_ext; [|exact HA]. intros b Hb. by rewrite HV.
    + by eapply Txn.bootable_geom; [|exact HB].
  - rewrite <- HN. apply (boot_size l d HB).
  - apply (fits_len _ _ _ HF).
  - apply NoDup_nil_2.
  - by intros x ?%elem_of_nil.
Qed.

Lemma log_ready s V k : log_owns me N lo s V [] [] k ->
  exists d, ready me (lg s) (bc s) V d /\ bootable (lg s) d /\ hdr_n (dview d (l_start (lg s))) = 0 /\ disksize d = N /\ 1 ∉ logged (lg s).
Proof.
  intros [(d & HA & HN & _ & HB & Hh) HN' Hlow Hls Hlen Hn Hnd Hr Hroom Hout Hcom Hlk]. exists d. split_and!; [|done..|].
  - pose proof (boot_hdr _ _ HB) as [_ HF]. split; [done| |done|rewrite NBUF_eq; unfold LOGSIZE, MAXOPBLOCKS; lia].
    split; [apply (fits_dev _ _ _ HF)|done|by rewrite HN|pose proof (boot_area _ _ HB); lia|unfold LOGSIZE, MAXOPBLOCKS; lia|done|].
    intros b Hb. pose proof (Hr b Hb). pose proof (boot_area _ _ HB). rewrite HN. lia.
  - intros H1. pose proof (Hr 1 H1). lia.
Qed.

(** The commit writes every block of the file system as it is in the cache. *)
Lemma commit_keeps l V b : l_start l + l_size l <= b -> Forall (fun x => 0 <= x) (logged l) -> 0 <= l_start l ->
  Z.of_nat (length (logged l)) < l_size l -> apply_view (commit_writes l V) V b = V b.
Proof.
  intros Hb Hpos Hst Hlen. apply apply_view_const; [|by right]. intros w Hw Hwb. unfold commit_writes in Hw.
  destruct (bool_decide _); [by apply elem_of_nil in Hw|].
  apply elem_of_app in Hw as [[Hw|Hw]%elem_of_app|[Hw|Hw]%elem_of_app].
  - apply elem_log_writes in Hw as (i & Hi & ->). cbn in Hwb. lia.
  - apply list_elem_of_singleton in Hw as ->. cbn in Hwb. lia.
  - unfold install_writes in Hw. apply list_elem_of_fmap in Hw as (i & -> & Hi). cbn in *.
    apply elem_of_seq in Hi. rewrite Forall_forall in Hpos. pose proof (Hpos _ (total_elem (logged l) i ltac:(lia))) as H0.
    rewrite Z2Nat.id in Hwb by done. by rewrite Hwb.
  - apply list_elem_of_singleton in Hw as ->. cbn in Hwb. lia.
Qed.

Lemma log_end s V k : log_owns me N lo s V [] [] k ->
  exists s' V', end_op me s = Ret tt s' /\ log_idle s' V' /\ forall b, lo <= b -> V' b = V b.
Proof.
  intros Ho. pose proof (lo_size _ _ _ _ _ _ _ _ Ho) as Hsz. destruct (log_ready s V k Ho) as (d & HR & HB & Hh & HN & H1). destruct s as [l c]. cbn [lg bc] in *.
  destruct (Txn.end_op_last me l c V d HR) as (l' & c' & E & HG & Hn' & Hlk' & Ho' & Hc' & HA'); try apply Ho.
  destruct (Txn.committed me l c V d HR HB Hh H1) as (HB' & Hh' & _).
  exists (MkL l' c'), (apply_view (commit_writes l V) V). split_and!; [done| |].
  - pose proof HG as (G1 & G2 & _). split; cbn [lg bc]; [|by rewrite G2|rewrite G1, G2; apply (lo_low _ _ _ _ _ _ _ _ Ho)].
    exists (apply_writes (commit_writes l V) d). split_and!; [|by rewrite disksize_apply|].
    + split; try done; [|by eapply Txn.bootable_geom|by rewrite G1].
      eapply abs_ext; [|exact HA']. intros b Hb. apply (clean_view me HA'); [done|set_solver|set_solver].
    + intros b Hb. apply (clean_view me HA'); [done|set_solver|set_solver].
  - intros b Hb. pose proof (ready_fits _ _ _ _ _ HR) as HF. destruct (lo_low _ _ _ _ _ _ _ _ Ho) as [Hlow Hlo]. cbn [lg] in Hlow.
    apply commit_keeps; [lia| |apply (fits_area _ _ _ HF)|apply (fits_n _ _ _ HF)].
    apply Forall_forall. intros x Hx. pose proof (lo_range _ _ _ _ _ _ _ _ Ho x Hx). lia.
Qed.

Section system.
Variable B : superblock.
Hypothesis HB : lo <= sb_inodestart B.
Definition log_tx : TxSpec lstate B begin_op (end_op me).
Proof.
  refine (@MkTx lstate _ _ B begin_op (end_op me) log_room log_idle _ _); [exact log_begin|].
  intros s V k Ho. destruct (log_end s V k Ho) as (s' & V' & E & HI & HV). exists s', V'. split_and!; [done..|].
  intros b Hb. apply HV. lia.
Defined.

(** [exec] on the log: it is all or nothing, as [ExecProps.outcome] says, and afterwards the
    transaction is on the disk and the log empty. *)
Theorem exec_on_log (HL : @FreeMap.layout lstate _ _ B) devsw end_ data ts_addr I V R c s nc k l T0 U0 cons proc cpu path argv :
  KERNBASE < end_ -> Vm.Vm.KERNLINK < data < P2V PHYSTOP -> data mod PGSIZE = 0 -> 0 <= ts_addr < 2 ^ 32 ->
  @ExecProps.ready lstate _ _ B begin_op (end_op me) log_tx me end_ I V R c s nc k l T0 U0 cons proc cpu ->
  Forall (fun z => z <> 0) path -> Forall (fun a : list Z => Z.of_nat (length a) < 2 ^ 25) argv ->
  (forall n, Dirs.Dirs.walk B V (Dirs.Dirs.start_of path nc) (Dirs.Dirs.elems path) = Some n ->
     FsFile.Files.file_ok B V (Dirs.Dirs.ino B V n)) ->
  @ExecProps.outcome lstate _ _ B begin_op (end_op me) log_tx me end_ data V R c nc k l T0 U0 cons proc cpu path
    (ExecProps.image_at B V nc path argv)
    (Exec.exec begin_op (end_op me) me devsw end_ data ts_addr path argv (ExecProps.S B c cons proc cpu I s k)).
Proof. intros. by apply ExecProps.exec_outcome. Qed.
End system.
End tx.
End LogTx.
