(* ===== verification/Umalloc.v ===== *)
(** The memory allocator of user programs ([umalloc.c]).

    Headers are in the process's memory, in front of the blocks: a pointer to the next free
    block and a size in units of a header.  [sbrk] is the system call as [sys_sbrk] and
    [growproc] implement it.  [Module MallocSpec] has the invariant: the free list is a circle
    of disjoint blocks sorted by address, no two of them adjacent, and no allocated block
    overlaps another or a free one. *)

From S2P Require Import Prelude CString Sleeplock Kalloc.

Module Umalloc.
Import KString Kalloc.

(** Memory, [freep], and the size of the process. *)
Record heap := MkHeap { hm : mem; freep : Z; brk : Z }.

Definition sizeof_Header : Z := 8.

Definition get_ptr (p : Z) : M heap Z := reads (fun h => load32 (hm h) p).
Definition get_size (p : Z) : M heap Z := reads (fun h => load32 (hm h) (p + 4)).
Definition set_ptr (p v : Z) : M heap unit := modify (fun h => MkHeap (store32 (hm h) p v) (freep h) (brk h)).
Definition set_size (p v : Z) : M heap unit := modify (fun h => MkHeap (store32 (hm h) (p + 4) v) (freep h) (brk h)).
Definition set_freep (p : Z) : M heap unit := modify (fun h => MkHeap (hm h) p (brk h)).

Definition no_fuel : string := "out of fuel".

Section malloc.
(** Where [base] is, and whether the kernel finds memory to grow the process to a size. *)
Variables (base : Z) (room : Z -> bool).

(** [sys_sbrk] and [growproc]: -1 on failure, the old size otherwise.  [allocuvm] and
    [deallocuvm] give the size the process then has, or 0. *)
Definition sbrk (n : Z) : M heap Z :=
  h <- reads id ;;
  let new := u32 (brk h + n) in
  let sz :=
    if 0 <? n then
      if KERNBASE <=? new then 0 else if new <? brk h then brk h else if room new then new else 0
    else if n <? 0 then (if brk h <=? new then brk h else new)
    else brk h in
  if negb (n =? 0) && (sz =? 0) then ret (-1) else
  modify (fun h => MkHeap (hm h) (freep h) sz) ;;;
  ret (brk h).

(** The search for the place of [bp]. *)
Fixpoint free_loop (fuel : nat) (bp p : Z) : M heap Z :=
  nx <- get_ptr p ;;
  if (p <? bp) && (bp <? nx) then ret p
  else if (nx <=? p) && ((p <? bp) || (bp <? nx)) then ret p
  else match fuel with
       | O => panic no_fuel
       | S fuel => free_loop fuel bp nx
       end.

(** No list of free blocks is longer than the process. *)
Definition list_fuel (h : heap) : nat := S (Z.to_nat (brk h)).

Definition free (ap : Z) : M heap unit :=
  let bp := ap - sizeof_Header in
  h <- reads id ;;
  p <- free_loop (list_fuel h) bp (freep h) ;;
  nx <- get_ptr p ;;
  bsz <- get_size bp ;;
  (if u32 (bp + sizeof_Header * bsz) =? nx then
     nsz <- get_size nx ;;
     set_size bp (u32 (bsz + nsz)) ;;;
     nnx <- get_ptr nx ;;
     set_ptr bp nnx
   else set_ptr bp nx) ;;;
  psz <- get_size p ;;
  (if u32 (p + sizeof_Header * psz) =? bp then
     bsz <- get_size bp ;;
     set_size p (u32 (psz + bsz)) ;;;
     bnx <- get_ptr bp ;;
     set_ptr p bnx
   else set_ptr p bp) ;;;
  set_freep p.

Definition morecore (nu : Z) : M heap Z :=
  let nu := if nu <? 4096 then 4096 else nu in
  p <- sbrk (i32 (nu * sizeof_Header)) ;;
  if p =? -1 then ret 0 else
  set_size p nu ;;;
  free (p + sizeof_Header) ;;;
  reads freep.

Fixpoint malloc_loop (fuel : nat) (nunits prevp p : Z) : M heap Z :=
  sz <- get_size p ;;
  if nunits <=? sz then
    p <- (if sz =? nunits then
            nx <- get_ptr p ;;
            set_ptr prevp nx ;;;
            ret p
          else
            set_size p (u32 (sz - nunits)) ;;;
            let p := u32 (p + sizeof_Header * u32 (sz - nunits)) in
            set_size p nunits ;;;
            ret p) ;;
    set_freep prevp ;;;
    ret (p + sizeof_Header)
  else
    fp <- reads freep ;;
    q <- (if p =? fp then morecore nunits else ret p) ;;
    if q =? 0 then ret 0 else
    match fuel with
    | O => panic no_fuel
    | S fuel =>
        nx <- get_ptr q ;;
        malloc_loop fuel nunits q nx
    end.

Definition nunits (nbytes : Z) : Z := u32 (nbytes + sizeof_Header - 1) / sizeof_Header + 1.

(** [malloc]: the loop goes around the list, and around it again after [morecore]. *)
Definition malloc (nbytes : Z) : M heap Z :=
  h <- reads id ;;
  prevp <- (if freep h =? 0 then
              set_ptr base base ;;; set_freep base ;;;
              set_size base 0 ;;;
              ret base
            else ret (freep h)) ;;
  p <- get_ptr prevp ;;
  malloc_loop (2 * list_fuel h + 2) (nunits nbytes) prevp p.
End malloc.
End Umalloc.

Module MallocSpec.
Import KString Kalloc Umalloc.

(** ** Words at aligned addresses *)
Lemma ld_st m a b v : a mod 4 = 0 -> b mod 4 = 0 -> 0 <= v < 2 ^ 32 ->
  load32 (store32 m a v) b = if decide (b = a) then v else load32 m b.
Proof.
  intros Ha Hb Hv. case_decide as E; [subst; by apply Pages.load32_store32|]. apply Pages.load32_ext. intros x Hx. apply Pages.store32_out.
  pose proof (Z.div_mod a 4). pose proof (Z.div_mod b 4). lia.
Qed.
Lemma mod8_4 a : a mod 8 = 0 -> a mod 4 = 0 /\ (a + 4) mod 4 = 0.
Proof. intros H. pose proof (Z.div_mod a 8). rewrite Z.add_mod, Z_mod_same_full, Z.add_0_r, Z.mod_mod by done. assert (a mod 4 = 0); [|done]. apply Z.mod_divide; [done|]. exists (2 * (a / 8)). lia. Qed.
Lemma mod8_cases a b : a mod 8 = 0 -> b mod 8 = 0 -> a < b -> a + 8 <= b.
Proof. intros Ha Hb. pose proof (Z.div_mod a 8). pose proof (Z.div_mod b 8). lia. Qed.
Lemma mod8_add a s : a mod 8 = 0 -> (a + 8 * s) mod 8 = 0.
Proof. intros H. rewrite Z.mul_comm, Z.mod_add by done. done. Qed.

Section spec.
Variables (base : Z) (room : Z -> bool).
Hypothesis Hbase : 0 < base /\ base mod 8 = 0.
Implicit Types (L F A : list (Z * Z)) (m : mem).

(** ** The list of free blocks *)
Definition hdq L (q : Z) : Z := match L with [] => q | (a, _) :: _ => a end.
(** The blocks [L] are linked in order, and the last one points to [q]. *)
Fixpoint seg m L (q : Z) : Prop :=
  match L with
  | [] => True
  | (a, s) :: L' => load32 m (a + 4) = s /\ load32 m a = hdq L' q /\ seg m L' q
  end.
(** From [lo] to [hi], by address, with a gap before every block; only [base] is empty. *)
Fixpoint sorted (lo : Z) L (hi : Z) : Prop :=
  match L with
  | [] => lo <= hi
  | (a, s) :: L' => lo < a /\ (1 <= s \/ s = 0 /\ a = base) /\ a mod 8 = 0 /\ sorted (a + 8 * s) L' hi
  end.
Definition apart (x y : Z * Z) : Prop := fst x + 8 * snd x <= fst y \/ fst y + 8 * snd y <= fst x.
Definition units L : Z := foldr (fun x n => snd x + n) 0 L.
Definition ring F : list (Z * Z) := (base, 0) :: F.

Record inv (h : heap) F A : Prop := MkInv {
  i_seg : seg (hm h) (ring F) base;
  i_sorted : sorted (base - 1) (ring F) (brk h);
  i_freep : exists s, (freep h, s) ∈ ring F;
  i_brk : brk h mod 8 = 0 /\ base < brk h < KERNBASE;
  i_alloc : forall a s, (a, s) ∈ A -> load32 (hm h) (a + 4) = s /\ a mod 8 = 0 /\ 1 <= s /\ base < a /\ a + 8 * s <= brk h;
  i_apart : forall x y, x ∈ F -> y ∈ A -> apart x y;
  i_pair : forall x y, x ∈ A -> y ∈ A -> x <> y -> apart x y;
  i_nodup : NoDup A
}.

Lemma hdq_app L1 L2 q : hdq (L1 ++ L2) q = hdq L1 (hdq L2 q).
Proof. by destruct L1 as [|[] ?]. Qed.
Lemma seg_app m L1 L2 q : seg m (L1 ++ L2) q <-> seg m L1 (hdq L2 q) /\ seg m L2 q.
Proof. induction L1 as [|[a s] L1 IH]; cbn [app seg]; [tauto|]. rewrite IH, hdq_app. tauto. Qed.
Lemma seg_ext m m' L q : seg m L q -> (forall a s, (a, s) ∈ L -> load32 m' a = load32 m a /\ load32 m' (a + 4) = load32 m (a + 4)) -> seg m' L q.
Proof.
  induction L as [|[a s] L IH]; [done|]. cbn [seg]. intros (H1 & H2 & H3) He. destruct (He a s ltac:(by left)) as [E1 E2].
  rewrite E1, E2. split_and!; [done..|]. apply IH; [done|]. intros b t Hb. apply (He b t). by right.
Qed.
Lemma sorted_app lo L1 L2 hi : sorted lo (L1 ++ L2) hi <-> exists mid, sorted lo L1 mid /\ sorted mid L2 hi.
Proof.
  revert lo. induction L1 as [|[a s] L1 IH]; intros lo; cbn [app sorted].
  - split; [intros H; exists lo; split; [lia|done]|]. intros (mid & H1 & H2). destruct L2 as [|[a s] L2]; cbn [sorted] in *; [lia|]. destruct H2 as (? & ? & ? & ?). split_and!; [lia|done..].
  - rewrite IH. split; [intros (? & ? & ? & mid & ? & ?); exists mid; tauto|intros (mid & (? & ? & ? & ?) & ?); split_and!; [done..|]; by exists mid].
Qed.
Lemma sorted_le lo L hi : sorted lo L hi -> lo <= hi.
Proof. revert lo. induction L as [|[a s] L IH]; intros lo; cbn [sorted]; [done|]. intros (? & ? & ? & H%IH). lia. Qed.
Lemma sorted_elem lo L hi a s : sorted lo L hi -> (a, s) ∈ L -> lo < a /\ (1 <= s \/ s = 0 /\ a = base) /\ a mod 8 = 0 /\ a + 8 * s <= hi.
Proof.
  revert lo. induction L as [|[b t] L IH]; intros lo; cbn [sorted]; [intros _ H; by apply elem_of_nil in H|]. intros (H1 & H2 & H3 & H4) [[= <- <-]|H]%elem_of_cons.
  - split_and!; [done..|]. by apply sorted_le in H4.
  - destruct (IH _ H4 H) as (? & ? & ? & ?). split_and!; [lia|done..].
Qed.
Lemma sorted_mono lo L hi hi' : sorted lo L hi -> hi <= hi' -> sorted lo L hi'.
Proof. revert lo. induction L as [|[a s] L IH]; intros lo; cbn [sorted]; [lia|]. intros (? & ? & ? & ?) ?. eauto. Qed.
Lemma units_app L1 L2 : units (L1 ++ L2) = units L1 + units L2.
Proof. unfold units. induction L1 as [|[a s] L1 IH]; cbn; [done|]. rewrite IH. lia. Qed.

(** No list is longer than the process. *)
Lemma sorted_length lo L hi : sorted lo L hi -> Z.of_nat (length L) <= hi - lo.
Proof. revert lo. induction L as [|[a s] L IH]; intros lo; cbn [sorted length]; [lia|]. intros (? & ? & ? & H%IH). lia. Qed.

(** The nodes of the ring are below [KERNBASE], so that nothing wraps around. *)
Lemma ring_elem h F A a s : inv h F A -> (a, s) ∈ ring F -> base <= a /\ a mod 8 = 0 /\ 0 <= s /\ a + 8 * s <= brk h /\ (1 <= s \/ a = base /\ s = 0).
Proof.
  intros Hi Ha. destruct (sorted_elem _ _ _ _ _ (i_sorted _ _ _ Hi) Ha) as (? & ? & ? & ?). split_and!; lia.
Qed.

(** ** [free] *)
(** Where a block belongs: after the last block below it. *)
Lemma find_place lo L hi bp : sorted lo L hi -> (forall s, (bp, s) ∉ L) -> hdq L (bp + 1) < bp ->
  exists L1 p s L2, L = L1 ++ (p, s) :: L2 /\ p < bp /\ bp < hdq L2 (bp + 1).
Proof.
  revert lo. induction L as [|[a s] L IH]; intros lo; cbn [sorted hdq]; [lia|]. intros (? & ? & ? & Hs) Hn Ha.
  destruct (Z.lt_trichotomy (hdq L (bp + 1)) bp) as [Hlt|[E|Hgt]].
  - destruct (IH _ Hs) as (L1 & p & t & L2 & -> & ? & ?); [intros t Ht; apply (Hn t); by right|done|]. by exists ((a, s) :: L1), p, t, L2.
  - exfalso. destruct L as [|[b t] L]; cbn in E; [lia|]. subst. apply (Hn t). set_solver.
  - by exists [], a, s, L.
Qed.

(** The ring as blocks before, at and after some block. *)
Lemma ring_split h F A L1 p s L2 : inv h F A -> ring F = L1 ++ (p, s) :: L2 ->
  load32 (hm h) (p + 4) = s /\ load32 (hm h) p = hdq L2 base /\ base <= p /\ (forall b t, (b, t) ∈ L1 -> b < p) /\ (forall b t, (b, t) ∈ L2 -> p < b).
Proof.
  intros Hi E. pose proof (i_seg _ _ _ Hi) as Hg. pose proof (i_sorted _ _ _ Hi) as Hs. rewrite E in Hg, Hs.
  apply seg_app in Hg as [_ (H1 & H2 & _)]. apply sorted_app in Hs as (mid & Hs1 & Hs2). cbn [sorted] in Hs2. destruct Hs2 as (? & ? & ? & Hs2).
  split_and!; [done|done| | |].
  - apply sorted_le in Hs1. lia.
  - intros b t Hb. destruct (sorted_elem _ _ _ _ _ Hs1 Hb) as (? & ? & ? & ?). lia.
  - intros b t Hb. destruct (sorted_elem _ _ _ _ _ Hs2 Hb) as (? & ? & ? & ?). lia.
Qed.

Section place.
Variables (h : heap) (F A : list (Z * Z)) (bp : Z) (L1 L2 : list (Z * Z)) (p s : Z).
Hypotheses (Hi : inv h F A) (Er : ring F = L1 ++ (p, s) :: L2) (Hp : p < bp) (Hn : bp < hdq L2 (bp + 1)).

Lemma loop_at fuel : free_loop fuel bp p h = Ret p h.
Proof.
  destruct (ring_split _ _ _ _ _ _ _ Hi Er) as (_ & H2 & Hb & _). destruct fuel; cbn [free_loop]; unfold get_ptr; rewrite bind_reads, H2.
  all: rewrite (proj2 (Z.ltb_lt p bp) Hp); destruct L2 as [|[b t] L2']; cbn [hdq] in *; [|by rewrite (proj2 (Z.ltb_lt bp b) Hn)].
  all: destruct (Z.ltb_spec bp base), (Z.leb_spec base p); try lia; done.
Qed.
Lemma loop_before Q : forall Q0 q t fuel, L1 = Q0 ++ (q, t) :: Q -> (S (length Q) <= fuel)%nat -> free_loop fuel bp q h = Ret p h.
Proof.
  induction Q as [|[q' t'] Q IH]; intros Q0 q t fuel E Hf; (destruct fuel as [|fuel]; [lia|]); cbn [free_loop]; unfold get_ptr; rewrite bind_reads.
  all: pose proof Er as Er1; rewrite E, <- app_assoc in Er1; cbn [app] in Er1; destruct (ring_split _ _ _ _ _ _ _ Hi Er1) as (_ & H2 & Hb & _ & Ha); rewrite H2; cbn [hdq app].
  - assert (q < p) by (apply (Ha p s); set_solver). destruct (Z.ltb_spec bp p), (Z.leb_spec p q); try lia. rewrite andb_false_r. cbn [andb]. apply loop_at.
  - assert (q < q') by (apply (Ha q' t'); set_solver).
    assert (q' < p) by (destruct (ring_split _ _ _ _ _ _ _ Hi Er) as (_ & _ & _ & Hl & _); apply (Hl q' t'); rewrite E; set_solver).
    destruct (Z.ltb_spec bp q'), (Z.leb_spec q' q); try lia. rewrite andb_false_r. cbn [andb].
    apply (IH (Q0 ++ [(q, t)]) q' t'); [by rewrite E, <- app_assoc|cbn in Hf; lia].
Qed.
Lemma loop_base fuel : (S (length L1) <= fuel)%nat -> free_loop fuel bp base h = Ret p h.
Proof.
  intros Hf. assert (L1 = [] \/ exists x Q, L1 = x :: Q) as [E|([q t] & Q & E)] by (destruct L1; eauto); pose proof Er as Er1; rewrite E in Er1.
  - injection Er1 as Eb _ _. rewrite Eb. apply loop_at.
  - injection Er1 as Eb Et _. subst q t. apply (loop_before Q [] base 0); [done|]. rewrite E in Hf. cbn in Hf. lia.
Qed.
Lemma loop_after Q : forall Q0 q t fuel, L2 = Q0 ++ (q, t) :: Q -> (S (length Q) + S (length L1) <= fuel)%nat -> free_loop fuel bp q h = Ret p h.
Proof.
  induction Q as [|[q' t'] Q IH]; intros Q0 q t fuel E Hf; (destruct fuel as [|fuel]; [lia|]); cbn [free_loop]; unfold get_ptr; rewrite bind_reads.
  all: assert (Er' : ring F = (L1 ++ (p, s) :: Q0) ++ (q, t) :: _) by (rewrite Er, E, <- app_assoc; done);
    destruct (ring_split _ _ _ _ _ _ _ Hi Er') as (_ & H2 & Hb & Hbe & Ha); rewrite H2; cbn [hdq].
  all: assert (Hq : bp < q) by (pose proof Hn as Hn1; rewrite E in Hn1; destruct Q0 as [|[c w] Q0]; cbn in Hn1; [done|]; assert (c < q) by (apply (Hbe c w); set_solver); lia).
  - destruct (ring_split _ _ _ _ _ _ _ Hi Er) as (_ & _ & Hb' & _).
    destruct (Z.ltb_spec q bp), (Z.ltb_spec bp base), (Z.leb_spec base q); try lia. cbn [andb orb]. apply loop_base. cbn in Hf. lia.
  - assert (q < q') by (apply (Ha q' t'); set_solver). destruct (Z.ltb_spec q bp), (Z.leb_spec q' q); try lia. cbn [andb].
    apply (IH (Q0 ++ [(q, t)]) q' t'); [by rewrite E, <- app_assoc|cbn in Hf; lia].
Qed.
Lemma free_loop_ok q t : (q, t) ∈ ring F -> free_loop (list_fuel h) bp q h = Ret p h.
Proof.
  intros Hq. assert (Hlen : (length (ring F) <= list_fuel h)%nat).
  { pose proof (sorted_length _ _ _ (i_sorted _ _ _ Hi)). unfold list_fuel. destruct (i_brk _ _ _ Hi). lia. }
  rewrite Er, length_app in Hlen. cbn [length] in Hlen. rewrite Er in Hq.
  apply elem_of_app in Hq as [Hq|[[= -> ->]|Hq]%elem_of_cons]; [|apply loop_at|]; apply list_elem_of_split in Hq as (Q0 & Q & E).
  - apply (loop_before Q Q0 q t); [done|]. rewrite E, length_app in Hlen. cbn in Hlen. lia.
  - apply (loop_after Q Q0 q t); [done|]. rewrite E, length_app in Hlen. cbn in Hlen. lia.
Qed.
End place.

(** Writing a header. *)
Lemma st_ptr_ptr m a b v : a mod 8 = 0 -> b mod 8 = 0 -> 0 <= v < 2 ^ 32 -> load32 (store32 m a v) b = if decide (b = a) then v else load32 m b.
Proof. intros Ha Hb Hv. destruct (mod8_4 a Ha), (mod8_4 b Hb). by apply ld_st. Qed.
Lemma st_ptr_size m a b v : a mod 8 = 0 -> b mod 8 = 0 -> 0 <= v < 2 ^ 32 -> load32 (store32 m a v) (b + 4) = load32 m (b + 4).
Proof.
  intros Ha Hb Hv. destruct (mod8_4 a Ha), (mod8_4 b Hb). rewrite ld_st by done. rewrite decide_False; [done|]. pose proof (Z.div_mod a 8). pose proof (Z.div_mod b 8). lia.
Qed.
Lemma st_size_ptr m a b v : a mod 8 = 0 -> b mod 8 = 0 -> 0 <= v < 2 ^ 32 -> load32 (store32 m (a + 4) v) b = load32 m b.
Proof.
  intros Ha Hb Hv. destruct (mod8_4 a Ha), (mod8_4 b Hb). rewrite ld_st by done. rewrite decide_False; [done|]. pose proof (Z.div_mod a 8). pose proof (Z.div_mod b 8). lia.
Qed.
Lemma st_size_size m a b v : a mod 8 = 0 -> b mod 8 = 0 -> 0 <= v < 2 ^ 32 ->
  load32 (store32 m (a + 4) v) (b + 4) = if decide (b = a) then v else load32 m (b + 4).
Proof. intros Ha Hb Hv. destruct (mod8_4 a Ha), (mod8_4 b Hb). rewrite ld_st by done. repeat case_decide; (done || lia). Qed.

(** Joining a block with the one after it, and with the one before it. *)
Definition join_right (x : Z * Z) L : list (Z * Z) :=
  match L with
  | (c, t) :: L' => if fst x + 8 * snd x =? c then (fst x, snd x + t) :: L' else x :: L
  | [] => [x]
  end.
Definition join_left (x y : Z * Z) L : list (Z * Z) :=
  if fst x + 8 * snd x =? fst y then (fst x, snd x + snd y) :: L else x :: y :: L.

Lemma ring_apart h F A x y : inv h F A -> x ∈ ring F -> y ∈ A -> apart x y.
Proof.
  intros Hi [->|Hx]%elem_of_cons Hy; [|by eapply i_apart]. destruct y as [a s]. destruct (i_alloc _ _ _ Hi a s Hy) as (_ & _ & _ & ? & _). left. cbn. lia.
Qed.
Lemma apart_join (a s t c u : Z) : 1 <= u -> apart (a, s) (c, u) -> apart (a + 8 * s, t) (c, u) -> apart (a, s + t) (c, u).
Proof. unfold apart. cbn. lia. Qed.

(** The part of the memory that allocated blocks do not have. *)
Definition kept A (h h' : heap) : Prop := forall a s x, (a, s) ∈ A -> a <= x < a + 8 * s -> hm h' x = hm h x.
Lemma kept_trans A h1 h2 h3 : kept A h1 h2 -> kept A h2 h3 -> kept A h1 h3.
Proof. intros H1 H2 a s x Ha Hx. rewrite (H2 a s x Ha Hx). by eapply H1. Qed.
Lemma kept_refl A h : kept A h h.
Proof. done. Qed.
(** A word in the header of a block that is apart. *)
Lemma out_of_block b t a s x : apart (b, t) (a, s) -> b mod 8 = 0 -> a mod 8 = 0 -> 1 <= t \/ b < a -> a <= x < a + 8 * s -> x < b \/ b + 8 <= x.
Proof. unfold apart. cbn. intros H Hb Ha Ht Hx. destruct H; [|lia]. destruct Ht; [lia|]. pose proof (mod8_cases b a Hb Ha). lia. Qed.

Section place2.
Variables (h : heap) (F A : list (Z * Z)) (bp s : Z) (L1 L2 : list (Z * Z)) (p sp : Z).
Hypotheses (Hi : inv h F ((bp, s) :: A)) (Er : ring F = L1 ++ (p, sp) :: L2) (Hp : p < bp) (Hn : bp < hdq L2 (bp + 1)).

Lemma place_bp : load32 (hm h) (bp + 4) = s /\ bp mod 8 = 0 /\ 1 <= s /\ base < bp /\ bp + 8 * s <= brk h.
Proof. apply (i_alloc _ _ _ Hi). by left. Qed.
Lemma place_p : base <= p /\ p mod 8 = 0 /\ 0 <= sp /\ p + 8 * sp <= bp /\ (1 <= sp \/ p = base /\ sp = 0).
Proof.
  assert (Hin : (p, sp) ∈ ring F) by (rewrite Er; set_solver). destruct (ring_elem _ _ _ _ _ Hi Hin) as (? & ? & ? & ? & ?). split_and!; try done.
  pose proof (ring_apart _ _ _ _ (bp, s) Hi Hin ltac:(by left)) as [Ha|Ha]; cbn in Ha; [done|]. destruct place_bp as (_ & _ & ? & _). lia.
Qed.
Lemma place_next c t L3 : L2 = (c, t) :: L3 -> bp < c /\ bp + 8 * s <= c /\ c mod 8 = 0 /\ 1 <= t /\ c + 8 * t <= brk h.
Proof.
  intros E. assert (Hin : (c, t) ∈ ring F) by (rewrite Er, E; set_solver). destruct (ring_elem _ _ _ _ _ Hi Hin) as (? & ? & ? & ? & ?).
  pose proof Hn as Hn1. rewrite E in Hn1. cbn in Hn1. destruct place_bp as (_ & _ & ? & ? & _).
  pose proof (ring_apart _ _ _ _ (bp, s) Hi Hin ltac:(by left)) as [Ha|Ha]; cbn in Ha; [lia|]. split_and!; (done || lia).
Qed.
Definition joined : list (Z * Z) :=
  match join_right (bp, s) L2 with y :: R => L1 ++ join_left (p, sp) y R | [] => [] end.

(** The blocks of [joined], as blocks of the ring and the new one. *)
Lemma joined_sorted : sorted (base - 1) joined (brk h).
Proof.
  pose proof (i_sorted _ _ _ Hi) as Hs. rewrite Er in Hs. apply sorted_app in Hs as (mid & Hs1 & Hs2). cbn [sorted] in Hs2. destruct Hs2 as (H1 & H2 & H3 & Hs2).
  destruct place_bp as (_ & Hb8 & Hs1' & Hbb & Hbk). destruct place_p as (Hpb & Hp8 & Hsp & Hpe & Hpz).
  assert (Hright : exists y R, join_right (bp, s) L2 = y :: R /\ fst y = bp /\ 1 <= snd y /\ sorted (bp + 8 * snd y) R (brk h)).
  { pose proof place_next as Hx. destruct L2 as [|[c t] L3]; cbn [join_right fst snd]; [by exists (bp, s), []|]. destruct (Hx c t L3 eq_refl) as (? & ? & ? & ? & ?).
    cbn [sorted] in Hs2. destruct Hs2 as (? & ? & ? & Hs3). destruct (Z.eqb_spec (bp + 8 * s) c) as [Ec|Ec].
    - eexists _, L3. split_and!; [done|done|cbn; lia|cbn; by replace (bp + 8 * (s + t)) with (c + 8 * t) by lia].
    - eexists _, _. split_and!; [done|done|done|]. cbn [sorted snd]. split_and!; [lia|done..]. }
  destruct Hright as (y & R & E & Ey & Hy1 & Hy2). unfold joined. rewrite E. apply sorted_app. exists mid. split; [done|]. unfold join_left. cbn [fst snd].
  rewrite Ey. destruct (Z.eqb_spec (p + 8 * sp) bp) as [Eb|Eb]; cbn [sorted].
  - split_and!; [done|lia|done|]. by replace (p + 8 * (sp + snd y)) with (bp + 8 * snd y) by lia.
  - destruct y as [y1 y2]. cbn [fst snd] in *. subst y1. split_and!; try done; lia.
Qed.

Definition with_mem (m : mem) (h : heap) : heap := MkHeap m (freep h) (brk h).
(** Only the header at [b] is different. *)
Definition only_at (b : Z) m m' : Prop :=
  (forall c, c mod 8 = 0 -> c <> b -> load32 m' c = load32 m c /\ load32 m' (c + 4) = load32 m (c + 4)) /\
  (forall x, x < b \/ b + 8 <= x -> m' x = m x).
Lemma only_at_ptr b m v : b mod 8 = 0 -> 0 <= v < 2 ^ 32 -> only_at b m (store32 m b v).
Proof.
  intros Hb Hv. split; [|intros x Hx; apply Pages.store32_out; lia]. intros c Hc Hne. rewrite st_ptr_ptr, st_ptr_size, decide_False by done. done.
Qed.
Lemma only_at_size b m v : b mod 8 = 0 -> 0 <= v < 2 ^ 32 -> only_at b m (store32 m (b + 4) v).
Proof.
  intros Hb Hv. split; [|intros x Hx; apply Pages.store32_out; lia]. intros c Hc Hne. rewrite st_size_ptr, st_size_size, decide_False by done. done.
Qed.
Lemma only_at_trans b m1 m2 m3 : only_at b m1 m2 -> only_at b m2 m3 -> only_at b m1 m3.
Proof.
  intros [H1 H1'] [H2 H2']. split; [|intros x Hx; by rewrite H2', H1']. intros c Hc Hne. destruct (H1 c Hc Hne), (H2 c Hc Hne). split; congruence.
Qed.

Definition right_code (nx : Z) : M heap unit :=
  if u32 (bp + sizeof_Header * s) =? nx then
    nsz <- get_size nx ;; set_size bp (u32 (s + nsz)) ;;; nnx <- get_ptr nx ;; set_ptr bp nnx
  else set_ptr bp nx.
Lemma hdq_word L3 : (forall c t, (c, t) ∈ L3 -> (c, t) ∈ ring F) -> 0 <= hdq L3 base < 2 ^ 32.
Proof.
  intros HL. destruct (i_brk _ _ _ Hi) as [_ Hk]. unfold KERNBASE in Hk. destruct L3 as [|[c t] L3]; cbn; [lia|].
  destruct (ring_elem _ _ _ _ _ Hi (HL c t ltac:(by left))) as (? & ? & ? & ? & ?). lia.
Qed.
Lemma free_right : exists m1 y R, join_right (bp, s) L2 = y :: R /\ fst y = bp /\ load32 m1 (bp + 4) = snd y /\ load32 m1 bp = hdq R base /\
  only_at bp (hm h) m1 /\ right_code (hdq L2 base) h = Ret tt (with_mem m1 h) /\ s <= snd y /\ units (y :: R) = s + units L2 /\
  (forall c t, (c, t) ∈ R -> (c, t) ∈ L2) /\ seg (hm h) R base /\ bp + 8 * snd y <= brk h /\
  (forall z, z ∈ A -> apart y z) /\ (length R <= length L2)%nat.
Proof.
  destruct place_bp as (Hsz & Hb8 & Hs1 & Hbb & Hbk). destruct (i_brk _ _ _ Hi) as [_ Hk]. unfold KERNBASE in Hk.
  pose proof (i_seg _ _ _ Hi) as Hg. rewrite Er in Hg. apply seg_app in Hg as [_ (_ & _ & Hg2)].
  assert (Hw : forall L3, (forall c t, (c, t) ∈ L3 -> (c, t) ∈ L2) -> 0 <= hdq L3 base < 2 ^ 32).
  { intros L3 HL. apply hdq_word. intros c t Hc. rewrite Er. apply HL in Hc. set_solver. }
  assert (HbA : forall z, z ∈ A -> apart (bp, s) z).
  { intros z Hz. apply (i_pair _ _ _ Hi); [by left|by right|]. intros <-. pose proof (i_nodup _ _ _ Hi) as [? _]%NoDup_cons. done. }
  unfold right_code, sizeof_Header. rewrite u32_id by lia. assert (L2 = [] \/ exists c t L3, L2 = (c, t) :: L3) as [E|(c & t & L3 & EL)] by (destruct L2 as [|[]]; eauto).
  { rewrite E. cbn [join_right hdq]. rewrite (proj2 (Z.eqb_neq _ base)) by lia. exists (store32 (hm h) bp base), (bp, s), []. cbn [fst snd hdq].
    split_and!; try done; try lia; [by rewrite st_ptr_size by (try done; lia)|by rewrite st_ptr_ptr, decide_True by (try done; lia)|apply only_at_ptr; [done|lia]]. }
  destruct (place_next c t L3 EL) as (Hc & Hce & Hc8 & Ht & Hck).
  rewrite EL in Hg2. cbn [seg] in Hg2. destruct Hg2 as (Hct & Hcp & Hg3). assert (Ehd : hdq L2 base = c) by (by rewrite EL). rewrite Ehd.
  assert (HinF : (c, t) ∈ F).
  { assert (Hin : (c, t) ∈ ring F) by (rewrite Er, EL; set_solver). apply elem_of_cons in Hin as [[= ? ?]|?]; [lia|done]. }
  rewrite EL. cbn [join_right fst snd]. destruct (Z.eqb_spec (bp + 8 * s) c) as [Ec|Ec].
  - pose proof (Hw L3 ltac:(rewrite EL; set_solver)) as Hw3. exists (store32 (store32 (hm h) (bp + 4) (s + t)) bp (hdq L3 base)), (bp, s + t), L3. cbn [fst snd].
    split_and!; try done; try (cbn [units foldr snd length]; lia); [| | | |set_solver|].
    + rewrite st_ptr_size, st_size_size, decide_True by (try done; lia). done.
    + rewrite st_ptr_ptr, decide_True by (try done; lia). done.
    + eapply only_at_trans; [|by apply only_at_ptr]. apply only_at_size; [done|lia].
    + unfold get_size, get_ptr, set_size, set_ptr. rewrite bind_reads, bind_modify, bind_reads. unfold modify. cbn [hm freep brk]. rewrite Hct, u32_id by lia.
      rewrite st_size_ptr, Hcp by (try done; lia). done.
    + intros [z u] Hz. apply apart_join; [by destruct (i_alloc _ _ _ Hi z u ltac:(by right)) as (_ & _ & ? & _)|by apply HbA|]. rewrite Ec. apply (i_apart _ _ _ Hi); [done|by right].
  - exists (store32 (hm h) bp c), (bp, s), ((c, t) :: L3). cbn [fst snd hdq].
    split_and!; try done; try lia; [by rewrite st_ptr_size by (try done; lia)|by rewrite st_ptr_ptr, decide_True by (try done; lia)|apply only_at_ptr; [done|lia]].
Qed.

Definition left_code (psz : Z) : M heap unit :=
  if u32 (p + sizeof_Header * psz) =? bp then
    bsz <- get_size bp ;; set_size p (u32 (psz + bsz)) ;;; bnx <- get_ptr bp ;; set_ptr p bnx
  else set_ptr p bp.
Lemma free_left m1 y R : fst y = bp -> load32 m1 (bp + 4) = snd y -> load32 m1 bp = hdq R base -> only_at bp (hm h) m1 ->
  (forall c t, (c, t) ∈ R -> (c, t) ∈ L2) -> seg (hm h) R base -> 0 <= snd y -> bp + 8 * snd y <= brk h ->
  exists m2, left_code sp (with_mem m1 h) = Ret tt (with_mem m2 h) /\ only_at p m1 m2 /\ seg m2 (L1 ++ join_left (p, sp) y R) base.
Proof.
  intros Ey Hsz Hpt Ho HR Hg Hy0 Hyb. destruct place_bp as (_ & Hb8 & Hs1 & Hbb & Hbk). destruct place_p as (Hpb & Hp8 & Hsp & Hpe & Hpz).
  destruct (i_brk _ _ _ Hi) as [_ Hk]. unfold KERNBASE in Hk. destruct y as [y1 sy]. cbn [fst snd] in *. subst y1.
  pose proof (i_seg _ _ _ Hi) as HgN. rewrite Er in HgN. apply seg_app in HgN as [Hg1 (HpS & _ & _)]. cbn [hdq] in Hg1.
  destruct (ring_split _ _ _ _ _ _ _ Hi Er) as (_ & _ & _ & Hbe & Haf).
  assert (HRw : 0 <= hdq R base < 2 ^ 32) by (apply hdq_word; intros c t Hc%HR; rewrite Er; set_solver).
  assert (Hmod : forall c t, (c, t) ∈ ring F -> c mod 8 = 0) by (intros c t Hc; by apply (ring_elem _ _ _ _ _ Hi Hc)).
  assert (Hnb : forall t, (bp, t) ∉ ring F).
  { intros t Hin. destruct (ring_elem _ _ _ _ _ Hi Hin) as (? & _ & ? & _ & Hz). pose proof (ring_apart _ _ _ _ (bp, s) Hi Hin ltac:(by left)) as Ha. unfold apart in Ha. cbn in Ha. lia. }
  (* what is before p and after bp keeps its words *)
  assert (Hframe : forall m2, only_at p m1 m2 -> seg m2 L1 p /\ seg m2 R base).
  { intros m2 [Hm2 _]. destruct Ho as [Hm1 _]. split; [apply (seg_ext (hm h) _ _ _ Hg1)|apply (seg_ext (hm h) _ _ _ Hg)]; intros c t Hc;
      [|apply HR in Hc]; assert (Hin : (c, t) ∈ ring F) by (rewrite Er; set_solver); pose proof (Hmod c t Hin) as Hc8;
      (assert (Hcb : c <> bp) by (intros ->; by apply (Hnb t)));
      [specialize (Hbe c t Hc)|specialize (Haf c t Hc)]; destruct (Hm1 c Hc8 Hcb), (Hm2 c Hc8 ltac:(lia)); split; congruence. }
  assert (Hp1 : load32 m1 (p + 4) = sp) by (destruct Ho as [Hm1 _]; destruct (Hm1 p Hp8 ltac:(lia)); congruence).
  unfold left_code, join_left, sizeof_Header. cbn [fst snd]. rewrite u32_id by lia. destruct (Z.eqb_spec (p + 8 * sp) bp) as [Eb|Eb].
  - assert (Hov : only_at p m1 (store32 (store32 m1 (p + 4) (sp + sy)) p (hdq R base))) by (eapply only_at_trans; [|by apply only_at_ptr]; apply only_at_size; [done|lia]).
    exists (store32 (store32 m1 (p + 4) (sp + sy)) p (hdq R base)). split_and!; [|done|].
    + unfold get_size, get_ptr, set_size, set_ptr. rewrite bind_reads, bind_modify, bind_reads. unfold modify. cbn [hm freep brk with_mem]. rewrite Hsz, u32_id by lia.
      rewrite st_size_ptr, Hpt by (try done; lia). done.
    + destruct (Hframe _ Hov). apply seg_app. cbn [hdq seg]. split_and!; [done| |by rewrite st_ptr_ptr, decide_True by done|done].
      rewrite st_ptr_size, st_size_size, decide_True by (try done; lia). done.
  - assert (Hov : only_at p m1 (store32 m1 p bp)) by (apply only_at_ptr; [done|lia]). exists (store32 m1 p bp). split_and!; [done|done|].
    destruct (Hframe _ Hov). destruct Hov as [Hm2 _]. destruct (Hm2 bp Hb8 ltac:(lia)) as [E1 E2]. apply seg_app. cbn [hdq seg].
    split_and!; [done| | |congruence|congruence|done]; [rewrite st_ptr_size by (try done; lia); done|rewrite st_ptr_ptr, decide_True by (try done; lia); done].
Qed.
End place2.

Lemma joined_ring F L1 L2 p sp y R bp : ring F = L1 ++ (p, sp) :: L2 -> fst y = bp -> base < bp ->
  exists F', ring F' = L1 ++ join_left (p, sp) y R.
Proof.
  intros Er Ey Hb. destruct L1 as [|x L1]; cbn [app] in *; [|injection Er as <- _; by exists (L1 ++ join_left (p, sp) y R)].
  injection Er as E1 E2 _. subst p sp. unfold join_left. cbn [fst snd]. rewrite (proj2 (Z.eqb_neq _ _)) by lia. by exists (y :: R).
Qed.
Lemma elem_join_left x y L z : z ∈ join_left x y L -> z ∈ x :: y :: L \/ (z = (fst x, snd x + snd y) /\ fst x + 8 * snd x = fst y).
Proof. unfold join_left. destruct (Z.eqb_spec (fst x + 8 * snd x) (fst y)); rewrite ?elem_of_cons; set_solver. Qed.
Lemma units_join_left x y L : units (join_left x y L) = snd x + units (y :: L).
Proof. unfold join_left, units. case_match; cbn; lia. Qed.

(** [free] puts a block back and joins it with its neighbours. *)
Lemma free_ok h F A bp s : inv h F ((bp, s) :: A) ->
  exists h' F', free (bp + 8) h = Ret tt h' /\ inv h' F' A /\ brk h' = brk h /\ units F' = units F + s /\
    (exists a t, (a, t) ∈ F' /\ s <= t) /\ kept A h h' /\ (length F' <= S (length F))%nat.
Proof.
  intros Hi. destruct (i_alloc _ _ _ Hi bp s ltac:(by left)) as (Hsz & Hb8 & Hs1 & Hbb & Hbk).
  destruct (find_place (base - 1) (ring F) (brk h) bp (i_sorted _ _ _ Hi)) as (L1 & p & sp & L2 & Er & Hp & Hn).
  { intros t Hin. destruct (ring_elem _ _ _ _ _ Hi Hin) as (? & _ & ? & _ & Hz). pose proof (ring_apart _ _ _ _ (bp, s) Hi Hin ltac:(by left)) as Ha. unfold apart in Ha. cbn in Ha. lia. }
  { cbn. lia. }
  destruct (place_p h F A bp s L1 L2 p sp Hi Er Hp Hn) as (Hpb & Hp8 & Hsp & Hpe & Hpz).
  destruct (free_right h F A bp s L1 L2 p sp Hi Er Hp Hn) as (m1 & y & R & Ej & Ey & H1 & H2 & Ho1 & C1 & Hsy & Hun & HR & HgR & Hyb & HyA & HlR).
  destruct (free_left h F A bp s L1 L2 p sp Hi Er Hp Hn m1 y R Ey H1 H2 Ho1 HR HgR ltac:(lia) Hyb) as (m2 & C2 & Ho2 & Hg2).
  destruct (joined_ring F L1 L2 p sp y R bp Er Ey Hbb) as (F' & Er'). exists (MkHeap m2 p (brk h)), F'.
  pose proof (joined_sorted h F A bp s L1 L2 p sp Hi Er Hp Hn) as Hsrt. unfold joined in Hsrt. rewrite Ej, <- Er' in Hsrt.
  assert (Hfree : free (bp + 8) h = Ret tt (MkHeap m2 p (brk h))).
  { unfold free. replace (bp + 8 - sizeof_Header) with bp by (unfold sizeof_Header; lia). rewrite bind_reads. cbn [id]. destruct (i_freep _ _ _ Hi) as (sf & Hf).
    rewrite (bind_Ret _ _ _ _ _ (free_loop_ok h F _ bp L1 L2 p sp Hi Er Hp Hn _ _ Hf)). unfold get_ptr at 1, get_size at 1. rewrite !bind_reads, Hsz.
    destruct (ring_split _ _ _ _ _ _ _ Hi Er) as (Hps & Hpp & _). rewrite Hpp. unfold right_code in C1. rewrite (bind_Ret _ _ _ _ _ C1). unfold get_size at 1. rewrite bind_reads.
    assert (load32 m1 (p + 4) = sp) as E by (destruct Ho1 as [Hm1 _]; destruct (Hm1 p Hp8 ltac:(lia)); congruence). cbn [hm with_mem]. rewrite E.
    unfold left_code in C2. rewrite (bind_Ret _ _ _ _ _ C2). done. }
  assert (Hblk : forall z, z ∈ F' -> forall v, v ∈ A -> apart z v).
  { intros z Hz v Hv. assert (Hz' : z ∈ ring F') by (by right). rewrite Er' in Hz'.
    assert (HN : forall w, w ∈ ring F -> apart w v) by (intros w Hw; apply (ring_apart _ _ _ _ _ Hi Hw); by right). rewrite Er in HN.
    apply elem_of_app in Hz' as [Hz'|Hz']; [apply HN; set_solver|]. apply elem_join_left in Hz' as [Hz'|[-> Eb]].
    - apply elem_of_cons in Hz' as [->|Hz']; [apply HN; set_solver|]. apply elem_of_cons in Hz' as [->|Hz']; [by apply HyA|]. destruct z as [c t]. apply HR in Hz'. apply HN; set_solver.
    - destruct v as [c u]. cbn [fst snd] in *. apply apart_join; [by destruct (i_alloc _ _ _ Hi c u ltac:(by right)) as (_ & _ & ? & _)|apply HN; set_solver|].
      rewrite Eb, <- surjective_pairing. by apply HyA. }
  assert (Hout : kept A h (MkHeap m2 p (brk h))).
  { intros a t x Ha Hx. destruct (i_alloc _ _ _ Hi a t ltac:(by right)) as (_ & Ha8 & Ht & Hba & _). destruct Ho1 as [_ Hm1], Ho2 as [_ Hm2]. cbn [hm].
    rewrite Hm2, Hm1; [done| |].
    - apply (out_of_block bp s a t); [|done|done|by left|done]. apply (i_pair _ _ _ Hi); [by left|by right|]. intros [= <- <-]. by pose proof (i_nodup _ _ _ Hi) as [? _]%NoDup_cons.
    - apply (out_of_block p sp a t); [|done|done|lia|done]. apply (ring_apart _ _ _ _ _ Hi); [rewrite Er; set_solver|by right]. }
  split_and!; [done| |done| | |done|].
  - split; cbn [hm freep brk]; [by rewrite Er'|done| |apply Hi| |intros x z Hx Hz; by apply Hblk| |by pose proof (i_nodup _ _ _ Hi) as [_ ?]%NoDup_cons].
    + rewrite Er'. unfold join_left. case_match; [exists (sp + snd y)|exists sp]; set_solver.
    + intros a t Ha. destruct (i_alloc _ _ _ Hi a t ltac:(by right)) as (E & ? & ? & ? & ?). split_and!; try done. rewrite <- E. apply Pages.load32_ext. intros x Hx.
      apply (Hout a t x Ha). lia.
    + intros x z Hx Hz. apply (i_pair _ _ _ Hi); by right.
  - assert (Eu : units (ring F') = units (L1 ++ join_left (p, sp) y R)) by (by rewrite Er'). rewrite units_app, units_join_left, Hun in Eu.
    assert (Eu' : units (ring F) = units (L1 ++ (p, sp) :: L2)) by (by rewrite Er). rewrite units_app in Eu'. cbn [units foldr ring fst snd] in *. fold (units F) (units F') (units L2) in *. lia.
  - assert (Hin : exists a t, (a, t) ∈ ring F' /\ s <= t).
    { rewrite Er'. unfold join_left. case_match; [exists p, (sp + snd y)|exists bp, (snd y)]; (split; [|cbn [snd]; lia]); [set_solver|]. rewrite <- Ey, <- surjective_pairing. set_solver. }
    destruct Hin as (a & t & [[= -> ->]|Ha]%elem_of_cons & ?); [lia|eauto].
  - apply (f_equal length) in Er, Er'. rewrite length_app in Er, Er'. unfold join_left in Er'. destruct (fst (p, sp) + _ =? _); cbn [ring length] in *; lia.
Qed.

(** ** [morecore] *)
Lemma sbrk_grow h n : 0 < n -> 0 < brk h -> brk h + n < 2 ^ 32 ->
  sbrk room n h = Ret (-1) h \/ brk h + n < KERNBASE /\ sbrk room n h = Ret (brk h) (MkHeap (hm h) (freep h) (brk h + n)).
Proof.
  intros Hn Hb Hw. unfold sbrk. rewrite bind_reads. cbn [id]. rewrite (proj2 (Z.ltb_lt 0 n) Hn), (proj2 (Z.eqb_neq n 0)), u32_id by lia. cbn [negb andb].
  destruct (Z.leb_spec KERNBASE (brk h + n)); [by left|]. destruct (Z.ltb_spec (brk h + n) (brk h)); [lia|].
  destruct (room (brk h + n)); [right|by left]. rewrite (proj2 (Z.eqb_neq _ 0)) by lia. done.
Qed.
Lemma morecore_ok h F A nu : inv h F A -> 1 <= nu < 2 ^ 28 ->
  morecore room nu h = Ret 0 h \/
  exists h' F' n, morecore room nu h = Ret (freep h') h' /\ inv h' F' A /\ freep h' <> 0 /\ brk h' = brk h + 8 * n /\ nu <= n /\
    units F' = units F + n /\ (exists a t, (a, t) ∈ F' /\ nu <= t) /\ kept A h h' /\ (length F' <= S (length F))%nat.
Proof.
  intros Hi Hnu. destruct (i_brk _ _ _ Hi) as [Hb8 Hbk]. unfold KERNBASE in Hbk. unfold morecore. set (n := if nu <? 4096 then 4096 else nu).
  assert (Hn : nu <= n < 2 ^ 28) by (unfold n; destruct (Z.ltb_spec nu 4096); lia). unfold sizeof_Header. rewrite i32_id by lia.
  replace (n * 8) with (8 * n) by lia.
  destruct (sbrk_grow h (8 * n) ltac:(lia) ltac:(lia) ltac:(lia)) as [Es|[Hlt Es]]; rewrite (bind_Ret _ _ _ _ _ Es); [by left|right].
  rewrite (proj2 (Z.eqb_neq (brk h) (-1))) by lia. unfold set_size. rewrite bind_modify. cbn [hm freep brk].
  set (h1 := MkHeap (store32 (hm h) (brk h + 4) n) (freep h) (brk h + 8 * n)).
  assert (Hout : forall a s, (a, s) ∈ A \/ (a, s) ∈ ring F -> a mod 8 = 0 /\ a <> brk h).
  { intros a s [Ha|Ha]; [destruct (i_alloc _ _ _ Hi a s Ha) as (_ & ? & ? & _ & ?); split; [done|lia]|].
    destruct (ring_elem _ _ _ _ _ Hi Ha) as (? & ? & ? & ? & ?). split; [done|lia]. }
  assert (Hi1 : inv h1 F ((brk h, n) :: A)).
  { split; cbn [h1 hm freep brk].
    - eapply seg_ext; [apply Hi|]. intros a s Ha. destruct (Hout a s ltac:(by right)). rewrite st_size_ptr, st_size_size, decide_False by (done || lia). done.
    - eapply sorted_mono; [apply Hi|lia].
    - apply Hi.
    - split; [by apply mod8_add|lia].
    - intros a s [[= -> ->]|Ha]%elem_of_cons; [split_and!; try lia; rewrite st_size_size, decide_True by (done || lia); done|].
      destruct (Hout a s ltac:(by left)). destruct (i_alloc _ _ _ Hi a s Ha) as (E & ? & ? & ? & ?). rewrite st_size_size, decide_False by (done || lia). split_and!; (done || lia).
    - intros [a s] y Hx [->|Hy]%elem_of_cons; [|by apply (i_apart _ _ _ Hi)]. left. cbn. destruct (ring_elem _ _ _ a s Hi ltac:(by right)) as (_ & _ & _ & ? & _). lia.
    - intros x y [->|Hx]%elem_of_cons [->|Hy]%elem_of_cons Hne; [done| | |by apply (i_pair _ _ _ Hi)].
      + destruct y as [a s]. right. cbn. by destruct (i_alloc _ _ _ Hi a s Hy) as (_ & _ & _ & _ & ?).
      + destruct x as [a s]. left. cbn. by destruct (i_alloc _ _ _ Hi a s Hx) as (_ & _ & _ & _ & ?).
    - constructor; [|apply Hi]. intros Hin. by destruct (Hout (brk h) n ltac:(by left)). }
  destruct (free_ok h1 F A (brk h) n Hi1) as (h' & F' & E & Hi' & Hbrk & Hu & (a & t & Ha & Ht) & Hk & Hl).
  exists h', F', n. rewrite (bind_Ret _ _ _ _ _ E). split_and!; try done; try lia.
  - destruct (i_freep _ _ _ Hi') as (sf & Hf). destruct (ring_elem _ _ _ _ _ Hi' Hf) as (? & _). lia.
  - exists a, t. split; [done|lia].
  - intros c s x Hc Hx. rewrite (Hk c s x Hc Hx). cbn. apply Pages.store32_out. destruct (i_alloc _ _ _ Hi c s Hc) as (_ & _ & _ & _ & ?). lia.
Qed.

(** ** [malloc] *)
Lemma ring_gaps h F A L1 p s L2 : inv h F A -> ring F = L1 ++ (p, s) :: L2 ->
  (forall b t, (b, t) ∈ L1 -> b + 8 * t < p) /\ (forall b t, (b, t) ∈ L2 -> p + 8 * s < b).
Proof.
  intros Hi E. pose proof (i_sorted _ _ _ Hi) as Hs. rewrite E in Hs. apply sorted_app in Hs as (mid & Hs1 & Hs2). cbn [sorted] in Hs2.
  destruct Hs2 as (? & ? & ? & Hs2). split; intros b t Hb.
  - destruct (sorted_elem _ _ _ _ _ Hs1 Hb) as (? & ? & ? & ?). lia.
  - destruct (sorted_elem _ _ _ _ _ Hs2 Hb) as (? & ? & ? & ?). lia.
Qed.

(** What [malloc_loop] does with a block that is large enough. *)
Definition take_code (nu pv p sz : Z) : M heap Z :=
  p <- (if sz =? nu then
          nx <- get_ptr p ;; set_ptr pv nx ;;; ret p
        else
          set_size p (u32 (sz - nu)) ;;;
          let p := u32 (p + sizeof_Header * u32 (sz - nu)) in
          set_size p nu ;;;
          ret p) ;;
  set_freep pv ;;;
  ret (p + sizeof_Header).

(** A block is given out: [A] grows, and the rest is as it was. *)
Record given (h : heap) F A (nu r : Z) (h' : heap) F' : Prop := MkGiven {
  gv_inv : inv h' F' ((r - 8, nu) :: A);
  gv_brk : brk h' = brk h;
  gv_units : units F = units F' + nu;
  gv_kept : kept A h h'
}.

Section take.
Variables (h : heap) (F A L1 L2 : list (Z * Z)) (pv spv p s nu : Z).
Hypotheses (Hi : inv h F A) (Er : ring F = (L1 ++ [(pv, spv)]) ++ (p, s) :: L2) (Hnu : 1 <= nu <= s).

Lemma take_F : (p, s) ∈ F /\ base < p /\ p mod 8 = 0 /\ p + 8 * s <= brk h.
Proof.
  assert (Hin : (p, s) ∈ ring F) by (rewrite Er; set_solver). destruct (ring_elem _ _ _ _ _ Hi Hin) as (? & ? & ? & ? & [?|[? ?]]); [|lia].
  apply elem_of_cons in Hin as [[= ? ?]|?]; [lia|]. split_and!; try done. pose proof Er as E. unfold ring in E.
  destruct L1 as [|x L1']; cbn in E; injection E as E1 E2.
  - destruct (ring_gaps _ _ _ _ _ _ _ Hi Er) as [Hg _]. specialize (Hg pv spv ltac:(set_solver)). lia.
  - destruct (ring_gaps _ _ _ _ _ _ _ Hi Er) as [Hg _]. specialize (Hg base 0 ltac:(set_solver)). lia.
Qed.
Lemma take_others x : x ∈ F -> x <> (p, s) -> apart x (p, s).
Proof.
  intros Hx Hne. assert (Hin : x ∈ ring F) by (by right). rewrite Er in Hin. destruct (ring_gaps _ _ _ _ _ _ _ Hi Er) as [Hb Ha]. destruct x as [a t].
  apply elem_of_app in Hin as [Hin|[[= -> ->]|Hin]%elem_of_cons]; [left; cbn; specialize (Hb _ _ Hin); lia|done|right; cbn; specialize (Ha _ _ Hin); lia].
Qed.
(** Part of a block is apart from what the block is apart from. *)
Lemma apart_sub a u y : apart (p, s) y -> p <= a -> a + 8 * u <= p + 8 * s -> apart (a, u) y /\ apart y (a, u).
Proof. unfold apart. cbn. lia. Qed.

Lemma take_inv F' m a : p <= a -> a + 8 * nu <= p + 8 * s -> a mod 8 = 0 ->
  seg m (ring F') base -> sorted (base - 1) (ring F') (brk h) -> (exists t, (pv, t) ∈ ring F') ->
  load32 m (a + 4) = nu -> kept A h (MkHeap m pv (brk h)) ->
  (forall x, x ∈ F' -> x ∈ F /\ x <> (p, s) \/ exists u, x = (p, u) /\ 0 <= u /\ p + 8 * u <= a) ->
  inv (MkHeap m pv (brk h)) F' ((a, nu) :: A).
Proof.
  intros Ha1 Ha2 Ha8 Hg Hs Hf Hsz Hk HF. destruct take_F as (HpF & Hbp & Hp8 & Hpe).
  assert (HpA : forall y, y ∈ A -> apart (p, s) y) by (intros y Hy; by apply (i_apart _ _ _ Hi)).
  assert (Hpos : forall c u, (c, u) ∈ A -> 1 <= u) by (intros c u Hc; by destruct (i_alloc _ _ _ Hi c u Hc) as (_ & _ & ? & _)).
  split; cbn [hm freep brk]; [done|done|done|apply Hi| | | |].
  - intros c u [[= -> ->]|Hc]%elem_of_cons; [split_and!; (done || lia)|]. destruct (i_alloc _ _ _ Hi c u Hc) as (E & ? & ? & ? & ?). split_and!; try done.
    rewrite <- E. apply Pages.load32_ext. intros x Hx. apply (Hk c u x Hc). lia.
  - intros x y Hx [->|Hy]%elem_of_cons; destruct (HF x Hx) as [[Hx1 Hx2]|(u & -> & Hu0 & Hu)].
    + pose proof (take_others x Hx1 Hx2) as Hap. unfold apart in *. destruct x. cbn in *. lia.
    + left. cbn. lia.
    + by apply (i_apart _ _ _ Hi).
    + apply (apart_sub p u y); [by apply HpA|lia|lia].
  - intros x y [->|Hx]%elem_of_cons [->|Hy]%elem_of_cons Hne; [done| | |by apply (i_pair _ _ _ Hi)].
    + by apply (apart_sub a nu y (HpA y Hy)).
    + by apply (apart_sub a nu x (HpA x Hx)).
  - constructor; [|apply Hi]. intros Hin. specialize (HpA _ Hin). unfold apart in HpA. cbn in HpA. lia.
Qed.

Lemma take_pv : base <= pv /\ pv mod 8 = 0 /\ 0 <= spv /\ pv + 8 * spv < p /\ (1 <= spv \/ pv = base) /\ forall c u, (c, u) ∈ A -> apart (pv, spv) (c, u) /\ base < c.
Proof.
  assert (Hin : (pv, spv) ∈ ring F) by (rewrite Er; set_solver). destruct (ring_elem _ _ _ _ _ Hi Hin) as (? & ? & ? & ? & ?).
  destruct (ring_gaps _ _ _ _ _ _ _ Hi Er) as [Hg _]. specialize (Hg pv spv ltac:(set_solver)). split_and!; try done; [tauto|].
  intros c u Hc. split; [by apply (ring_apart _ _ _ _ _ Hi)|by destruct (i_alloc _ _ _ Hi c u Hc) as (_ & _ & _ & ? & _)].
Qed.

Lemma take_split : exists T, F = T ++ (p, s) :: L2 /\ forall X, ring (T ++ X) = (L1 ++ [(pv, spv)]) ++ X.
Proof.
  pose proof Er as E. unfold ring in *. destruct L1 as [|x L1']; cbn [app] in *; injection E as E1 E2; [exists []|exists (L1' ++ [(pv, spv)])]; (split; [done|]); intros X; cbn; congruence.
Qed.
(** The other blocks keep their links when only [pv]'s pointer and the size of [p] change. *)
Lemma take_frame m : (forall b, b mod 8 = 0 -> b <> pv -> b <> p -> load32 m b = load32 (hm h) b /\ load32 m (b + 4) = load32 (hm h) (b + 4)) ->
  seg m L1 pv /\ seg m L2 base.
Proof.
  intros Hm. pose proof (i_seg _ _ _ Hi) as Hg. rewrite Er in Hg. apply seg_app in Hg as [Hg1 (_ & _ & Hg2)]. apply seg_app in Hg1 as [Hg0 _]. cbn [hdq] in Hg0.
  destruct (ring_gaps _ _ _ _ _ _ _ Hi Er) as [Hb Ha].
  assert (Hpv : forall b t, (b, t) ∈ L1 -> b + 8 * t < pv) by (eapply (proj1 (ring_gaps h F A L1 pv spv ((p, s) :: L2) Hi ltac:(by rewrite Er, <- app_assoc)))).
  destruct take_pv as (_ & _ & ? & ? & _).
  split; [eapply seg_ext; [exact Hg0|]|eapply seg_ext; [exact Hg2|]]; intros b t Hin;
    assert (HbF : (b, t) ∈ ring F) by (rewrite Er; set_solver); destruct (ring_elem _ _ _ _ _ Hi HbF) as (_ & ? & ? & _).
  - specialize (Hpv b t Hin). apply Hm; [done|lia|lia].
  - specialize (Ha b t Hin). destruct take_F. apply Hm; [done|lia|lia].
Qed.
Lemma take_exact : s = nu -> exists F' h', take_code nu pv p s h = Ret (p + 8) h' /\ given h F A nu (p + 8) h' F'.
Proof.
  intros Es. destruct take_F as (HpF & Hbp & Hp8 & Hpe). destruct take_pv as (Hv1 & Hv8 & Hv0 & Hvp & Hvz & HvA). destruct take_split as (T & EF & Hring).
  assert (Hhd : 0 <= hdq L2 base < 2 ^ 32).
  { destruct (i_brk _ _ _ Hi) as [_ Hk]. unfold KERNBASE in Hk. assert (HL : forall c t, (c, t) ∈ L2 -> (c, t) ∈ ring F) by (rewrite Er; set_solver).
    destruct L2 as [|[c t] L3]; cbn; [lia|]. destruct (ring_elem _ _ _ _ _ Hi (HL c t ltac:(by left))) as (? & ? & ? & ? & ?). lia. }
  destruct (ring_split _ _ _ _ _ _ _ Hi Er) as (Hps & Hpp & _). destruct (ring_gaps _ _ _ _ _ _ _ Hi Er) as [Hgb Hga].
  assert (Hvs : load32 (hm h) (pv + 4) = spv) by (eapply (ring_split h F A L1 pv spv ((p, s) :: L2) Hi); by rewrite Er, <- app_assoc).
  set (m := store32 (hm h) pv (hdq L2 base)).
  exists (T ++ L2), (MkHeap m pv (brk h)). split.
  { unfold take_code. rewrite (proj2 (Z.eqb_eq s nu) Es). unfold bind, get_ptr, reads, set_ptr, set_freep, modify, ret. cbn [hm freep brk]. by rewrite Hpp. }
  split; [|done| |].
  - replace (p + 8 - 8) with p by lia. apply take_inv; try done; try lia.
    + destruct (take_frame m) as [H1 H2]; [intros b Hb Hb1 Hb2; unfold m; rewrite st_ptr_ptr, st_ptr_size, decide_False by done; done|].
      rewrite Hring, <- app_assoc. apply seg_app. cbn [hdq app seg]. split_and!; [done| | |done]; unfold m; [by rewrite st_ptr_size by done|by rewrite st_ptr_ptr, decide_True by done].
    + pose proof (i_sorted _ _ _ Hi) as Hs. rewrite Er in Hs. rewrite Hring. apply sorted_app in Hs as (mid & Hs1 & Hs2). cbn [sorted] in Hs2. destruct Hs2 as (? & ? & ? & Hs2).
      apply sorted_app. exists mid. split; [done|]. destruct L2 as [|[b t] L2']; cbn [sorted] in *; [lia|]. destruct Hs2 as (? & ? & ? & ?). split_and!; (done || lia).
    + exists spv. rewrite Hring. set_solver.
    + unfold m. rewrite st_ptr_size by done. congruence.
    + intros c u x Hc Hx. cbn. destruct (HvA c u Hc) as [Hap Hbc]. apply Pages.store32_out. destruct (i_alloc _ _ _ Hi c u Hc) as (_ & Hc8 & _).
      pose proof (out_of_block pv spv c u x Hap Hv8 Hc8 ltac:(destruct Hvz; [by left|right; lia]) Hx). lia.
    + intros x Hx. left. rewrite EF. split; [set_solver|]. intros ->.
      assert (Hin : (p, s) ∈ (L1 ++ [(pv, spv)]) ++ L2) by (rewrite <- Hring; by right).
      apply elem_of_app in Hin as [Hin|Hin]; [specialize (Hgb _ _ Hin)|specialize (Hga _ _ Hin)]; lia.
  - rewrite EF, !units_app. cbn [units foldr snd]. fold (units L2). lia.
  - intros c u x Hc Hx. cbn. destruct (HvA c u Hc) as [Hap Hbc]. apply Pages.store32_out. destruct (i_alloc _ _ _ Hi c u Hc) as (_ & Hc8 & _).
    pose proof (out_of_block pv spv c u x Hap Hv8 Hc8 ltac:(destruct Hvz; [by left|right; lia]) Hx). lia.
Qed.
Lemma take_part : s <> nu -> exists F' h', take_code nu pv p s h = Ret (p + 8 * (s - nu) + 8) h' /\ given h F A nu (p + 8 * (s - nu) + 8) h' F'.
Proof.
  intros Es. destruct take_F as (HpF & Hbp & Hp8 & Hpe). destruct take_pv as (Hv1 & Hv8 & Hv0 & Hvp & Hvz & HvA). destruct take_split as (T & EF & Hring).
  destruct (i_brk _ _ _ Hi) as [_ Hk]. unfold KERNBASE in Hk. set (a := p + 8 * (s - nu)). assert (Ha8 : a mod 8 = 0) by (by apply mod8_add).
  destruct (ring_split _ _ _ _ _ _ _ Hi Er) as (Hps & Hpp & _).
  assert (Evr : load32 (hm h) (pv + 4) = spv /\ load32 (hm h) pv = p) by (destruct (ring_split h F A L1 pv spv ((p, s) :: L2) Hi) as (? & ? & _); [by rewrite Er, <- app_assoc|done]).
  destruct Evr as [Hvs Hvn]. destruct (ring_gaps _ _ _ _ _ _ _ Hi Er) as [Hgb Hga].
  set (m := store32 (store32 (hm h) (p + 4) (s - nu)) (a + 4) nu). exists (T ++ (p, s - nu) :: L2), (MkHeap m pv (brk h)).
  assert (Hpa : p < a) by (unfold a; lia).
  assert (Hm : forall b, b mod 8 = 0 -> b <> p -> b <> a -> load32 m b = load32 (hm h) b /\ load32 m (b + 4) = load32 (hm h) (b + 4)).
  { intros b Hb H1 H2. unfold m. rewrite !st_size_ptr, !st_size_size, !decide_False by (done || lia). done. }
  assert (Hkept : kept A h (MkHeap m pv (brk h))).
  { intros c u x Hc Hx. cbn. pose proof (i_apart _ _ _ Hi (p, s) (c, u) HpF Hc) as Hap. unfold apart in Hap. cbn in Hap. destruct (i_alloc _ _ _ Hi c u Hc) as (_ & _ & ? & _).
    unfold m. rewrite !Pages.store32_out by (unfold a in *; lia). done. }
  split.
  { unfold take_code. rewrite (proj2 (Z.eqb_neq s nu) Es). unfold bind, set_size, set_freep, modify, ret, sizeof_Header. cbn [hm freep brk].
    rewrite (u32_id (s - nu)) by lia. fold a. rewrite (u32_id a) by (unfold a; lia). done. }
  split; [|done| |done].
  - replace (a + 8 - 8) with a by lia. apply take_inv; try done; try (unfold a; lia).
    + assert (HL : forall b t, (b, t) ∈ L1 \/ (b, t) ∈ L2 -> load32 m b = load32 (hm h) b /\ load32 m (b + 4) = load32 (hm h) (b + 4)).
      { intros b t Hbt. assert (HbF : (b, t) ∈ ring F) by (rewrite Er; set_solver). destruct (ring_elem _ _ _ _ _ Hi HbF) as (_ & ? & ? & _).
        apply Hm; [done|destruct Hbt as [Hbt|Hbt]; [specialize (Hgb b t ltac:(set_solver))|specialize (Hga b t Hbt)]; lia|
          destruct Hbt as [Hbt|Hbt]; [specialize (Hgb b t ltac:(set_solver))|specialize (Hga b t Hbt)]; unfold a; lia]. }
      pose proof (i_seg _ _ _ Hi) as Hg. rewrite Er in Hg. apply seg_app in Hg as [Hg1 (_ & _ & Hg2)]. apply seg_app in Hg1 as [Hg0 _]. cbn [hdq] in Hg0.
      destruct (Hm pv Hv8 ltac:(lia) ltac:(unfold a; lia)) as [E1 E2].
      rewrite Hring, <- app_assoc. apply seg_app. cbn [hdq app seg]. split_and!; [|congruence|congruence| | |].
      * eapply seg_ext; [exact Hg0|]. intros b t Hb. apply (HL b t). by left.
      * unfold m. rewrite !st_size_size, decide_False, decide_True by (done || lia). done.
      * unfold m. rewrite !st_size_ptr by (done || lia). done.
      * eapply seg_ext; [exact Hg2|]. intros b t Hb. apply (HL b t). by right.
    + pose proof (i_sorted _ _ _ Hi) as Hs. rewrite Er in Hs. rewrite Hring. apply sorted_app in Hs as (mid & Hs1 & Hs2). cbn [sorted] in Hs2. destruct Hs2 as (? & ? & ? & Hs2).
      apply sorted_app. exists mid. split; [done|]. cbn [sorted]. split_and!; [done|lia|done|]. destruct L2 as [|[b t] L2']; cbn [sorted] in *; [lia|]. destruct Hs2 as (? & ? & ? & ?). split_and!; (done || lia).
    + exists spv. rewrite Hring. set_solver.
    + unfold m. rewrite st_size_size, decide_True by (done || lia). done.
    + intros x Hx. apply elem_of_app in Hx as [Hx|[->|Hx]%elem_of_cons]; [left|right; exists (s - nu); unfold a; split_and!; (done || lia)|left]; rewrite EF; (split; [set_solver|]); intros ->.
      * assert (Hin : (p, s) ∈ (L1 ++ [(pv, spv)]) ++ []) by (rewrite <- Hring; right; set_solver). rewrite app_nil_r in Hin. specialize (Hgb _ _ Hin). lia.
      * specialize (Hga _ _ Hx). lia.
  - rewrite EF, !units_app. cbn [units foldr snd]. fold (units L2). lia.
Qed.
Lemma take_ok : exists F' h' r, take_code nu pv p s h = Ret r h' /\ given h F A nu r h' F' /\ p + 8 <= r /\ r - 8 + 8 * nu <= p + 8 * s.
Proof.
  destruct (decide (s = nu)) as [E|E]; [destruct (take_exact E) as (F' & h' & H1 & H2); exists F', h', (p + 8)|destruct (take_part E) as (F' & h' & H1 & H2); exists F', h', (p + 8 * (s - nu) + 8)];
    (split_and!; [done|done|lia|lia]).
Qed.
End take.

(** After a round without success: more memory, and on from there. *)
Definition after_round (nu : Z) (k : nat) : M heap Z :=
  q <- morecore room nu ;;
  if q =? 0 then ret 0 else
  match k with
  | O => panic no_fuel
  | S k => nx <- get_ptr q ;; malloc_loop room k nu q nx
  end.

Section scan.
Variables (h : heap) (F A : list (Z * Z)) (nu sf : Z) (Y Y' : list (Z * Z)).
Hypotheses (Hi : inv h F A) (Hnu : 1 <= nu) (Ef : ring F = Y ++ (freep h, sf) :: Y').

(** The search takes a block that is large enough, or has seen that none of [V] is. *)
Definition outcome (m : res heap Z) (V : list (Z * Z)) (fuel : nat) : Prop :=
  (exists L1 pv spv p s L2, ring F = (L1 ++ [(pv, spv)]) ++ (p, s) :: L2 /\ nu <= s /\ m = take_code nu pv p s h) \/
  (forall x, x ∈ V -> snd x < nu) /\ exists k, (fuel <= k + length V)%nat /\ m = after_round nu k h.

Lemma loop_fit fuel pv p s : load32 (hm h) (p + 4) = s -> nu <= s -> malloc_loop room fuel nu pv p h = take_code nu pv p s h.
Proof. intros Es Hs. destruct fuel; cbn [malloc_loop]; unfold get_size; rewrite bind_reads, Es, (proj2 (Z.leb_le nu s) Hs); done. Qed.
Lemma loop_last fuel pv s : load32 (hm h) (freep h + 4) = s -> s < nu -> malloc_loop room fuel nu pv (freep h) h = after_round nu fuel h.
Proof.
  intros Es Hs. destruct fuel; cbn [malloc_loop]; unfold get_size; rewrite bind_reads, Es, (proj2 (Z.leb_gt nu s) Hs), bind_reads, Z.eqb_refl; done.
Qed.
Lemma loop_next fuel pv p s : load32 (hm h) (p + 4) = s -> s < nu -> p <> freep h -> p <> 0 ->
  malloc_loop room (S fuel) nu pv p h = malloc_loop room fuel nu p (load32 (hm h) p) h.
Proof.
  intros Es Hs Hp H0. cbn [malloc_loop]. unfold get_size. rewrite bind_reads, Es, (proj2 (Z.leb_gt nu s) Hs), bind_reads, (proj2 (Z.eqb_neq _ _) Hp).
  rewrite (bind_Ret (ret p) _ h p h eq_refl), (proj2 (Z.eqb_neq _ _) H0). done.
Qed.

(** Up to [freep], which is ahead. *)
Lemma scan_ahead Z0 : forall L1 pv spv fuel, Y = L1 ++ (pv, spv) :: Z0 -> (length Z0 <= fuel)%nat ->
  outcome (malloc_loop room fuel nu pv (hdq (Z0 ++ [(freep h, sf)]) base) h) (Z0 ++ [(freep h, sf)]) (S fuel).
Proof.
  induction Z0 as [|[p s] Z0 IH]; intros L1 pv spv fuel EY Hf.
  - cbn [app hdq]. destruct (ring_split _ _ _ _ _ _ _ Hi Ef) as (Es & _). destruct (Z.ltb_spec sf nu) as [Hlt|Hge].
    + right. split; [set_solver|]. exists fuel. split; [cbn; lia|]. by eapply loop_last.
    + left. exists L1, pv, spv, (freep h), sf, Y'. split_and!; [by rewrite Ef, EY, <- !app_assoc|done|]. by apply loop_fit.
  - cbn [app hdq]. assert (Er : ring F = (L1 ++ [(pv, spv)]) ++ (p, s) :: Z0 ++ (freep h, sf) :: Y') by (rewrite Ef, EY, <- !app_assoc; done).
    destruct (ring_split _ _ _ _ _ _ _ Hi Er) as (Es & Ep & Hb & _ & Haf). destruct (Z.ltb_spec s nu) as [Hlt|Hge].
    2:{ left. eexists L1, pv, spv, p, s, _. split_and!; [exact Er|done|]. by apply loop_fit. }
    cbn [length] in Hf. destruct fuel as [|fuel]; [lia|]. specialize (Haf (freep h) sf ltac:(set_solver)).
    rewrite (loop_next fuel pv p s Es Hlt) by lia. rewrite Ep.
    replace (hdq (Z0 ++ (freep h, sf) :: Y') base) with (hdq (Z0 ++ [(freep h, sf)]) base) by (by destruct Z0 as [|[]]).
    destruct (IH (L1 ++ [(pv, spv)]) p s fuel) as [Hl|[Hv (k & Hk & E)]]; [by rewrite EY, <- app_assoc|lia|by left|right].
    split; [intros x [->|Hx]%elem_of_cons; [done|by apply Hv]|]. exists k. split; [cbn [length]; lia|done].
Qed.
(** Past the last block and from [base] on. *)
Lemma scan_around M0 : forall L1 pv spv fuel, ring F = L1 ++ (pv, spv) :: M0 -> freep h <= pv -> (length M0 + S (length Y) <= fuel)%nat ->
  outcome (malloc_loop room fuel nu pv (hdq M0 base) h) (M0 ++ Y ++ [(freep h, sf)]) (S fuel).
Proof.
  induction M0 as [|[p s] M0 IH]; intros L1 pv spv fuel Er Hfp Hf; cbn [hdq app].
  - assert (Hbs : load32 (hm h) (base + 4) = 0) by (eapply (ring_split h F A [] base 0 F Hi); done).
    destruct (decide (Y = [])) as [EY|EY].
    { pose proof Ef as E. rewrite EY in E. injection E as E1 E2 _. rewrite EY. cbn [app]. right. split; [set_solver by lia|]. exists fuel. split; [cbn; lia|]. rewrite E1.
      apply (loop_last fuel pv 0); [by rewrite <- E1|lia]. }
    assert (exists Z0, Y = (base, 0) :: Z0) as (Z0 & EY0) by (pose proof Ef as E; destruct Y as [|x Z0]; [done|]; injection E as <- _; eauto).
    assert (Hne : base <> freep h).
    { destruct (ring_split _ _ _ _ _ _ _ Hi Ef) as (_ & _ & _ & Hbe & _). specialize (Hbe base 0 ltac:(rewrite EY0; set_solver)). lia. }
    destruct fuel as [|fuel]; [lia|]. rewrite (loop_next fuel pv base 0 Hbs) by (done || lia).
    assert (Ebn : load32 (hm h) base = hdq (Z0 ++ [(freep h, sf)]) base).
    { destruct (ring_split h F A [] base 0 (Z0 ++ (freep h, sf) :: Y') Hi) as (_ & E & _); [by rewrite Ef, EY0|]. rewrite E. by destruct Z0 as [|[]]. }
    rewrite Ebn. rewrite EY0 in Hf. cbn [length] in Hf. destruct (scan_ahead Z0 [] base 0 fuel) as [Hl|[Hv (k & Hk & E)]]; [done|lia|by left|right].
    rewrite EY0. split; [intros x [->|Hx]%elem_of_cons; [cbn; lia|by apply Hv]|]. exists k. split; [cbn [length app]; lia|done].
  - assert (Er' : ring F = (L1 ++ [(pv, spv)]) ++ (p, s) :: M0) by (by rewrite Er, <- app_assoc).
    destruct (ring_split _ _ _ _ _ _ _ Hi Er') as (Es & Ep & Hb & Hbe & _). destruct (Z.ltb_spec s nu) as [Hlt|Hge].
    2:{ left. eexists L1, pv, spv, p, s, _. split_and!; [exact Er'|done|]. by apply loop_fit. }
    specialize (Hbe pv spv ltac:(set_solver)). cbn [length] in Hf. destruct fuel as [|fuel]; [lia|]. rewrite (loop_next fuel pv p s Es Hlt) by lia. rewrite Ep.
    destruct (IH (L1 ++ [(pv, spv)]) p s fuel Er' ltac:(lia) ltac:(lia)) as [Hl|[Hv (k & Hk & E)]]; [by left|right].
    split; [intros x [->|Hx]%elem_of_cons; [done|by apply Hv]|]. exists k. split; [cbn [length]; lia|done].
Qed.
End scan.

(** A whole round, from [freep] to [freep]. *)
Lemma round_ok h F A nu fuel : inv h F A -> 1 <= nu -> (length (ring F) <= fuel)%nat ->
  (exists L1 pv spv p s L2, ring F = (L1 ++ [(pv, spv)]) ++ (p, s) :: L2 /\ nu <= s /\
    malloc_loop room fuel nu (freep h) (load32 (hm h) (freep h)) h = take_code nu pv p s h) \/
  (forall x, x ∈ ring F -> snd x < nu) /\ exists k, (fuel < k + length (ring F))%nat /\
    malloc_loop room fuel nu (freep h) (load32 (hm h) (freep h)) h = after_round nu k h.
Proof.
  intros Hi Hnu Hf. destruct (i_freep _ _ _ Hi) as (sf & Hin). apply list_elem_of_split in Hin as (Y & Y' & Ef).
  destruct (ring_split _ _ _ _ _ _ _ Hi Ef) as (_ & -> & _). rewrite Ef, length_app in Hf. cbn [length] in Hf.
  destruct (scan_around h F A nu sf Y Y' Hi Hnu Ef Y' Y (freep h) sf fuel Ef ltac:(lia) ltac:(lia)) as [Hl|[Hv (k & Hk & E)]]; [by left|right].
  split; [intros x Hx; apply Hv; rewrite Ef in Hx; set_solver|]. exists k. split; [|done]. rewrite Ef, length_app. rewrite !length_app in Hk. cbn [length] in *. lia.
Qed.

(** [malloc] once the list is set up. *)
Lemma malloc_init h F A nu fuel : inv h F A -> 1 <= nu < 2 ^ 28 -> (2 * length (ring F) + 2 <= fuel)%nat ->
  exists r h', malloc_loop room fuel nu (freep h) (load32 (hm h) (freep h)) h = Ret r h' /\
    (r = 0 /\ h' = h \/
     r <> 0 /\ exists F' n, inv h' F' ((r - 8, nu) :: A) /\ 0 <= n /\ brk h' = brk h + 8 * n /\ units F + n = units F' + nu /\ kept A h h').
Proof.
  intros Hi Hnu Hf. destruct (round_ok h F A nu fuel Hi ltac:(lia) ltac:(lia)) as [(L1 & pv & spv & p & s & L2 & Er & Hs & E)|[_ (k & Hk & E)]]; rewrite E.
  - destruct (take_ok h F A L1 L2 pv spv p s nu Hi Er ltac:(lia)) as (F' & h' & r & E' & [Hi' Hb Hu Hkp] & Hr & _). exists r, h'. split; [done|]. right.
    assert (base <= p) by (eapply (ring_elem h F A p s Hi); rewrite Er; set_solver). split; [lia|]. exists F', 0. split_and!; (done || lia).
  - unfold after_round. destruct (morecore_ok h F A nu Hi Hnu) as [E0|(h1 & F1 & n & E1 & Hi1 & Hf1 & Hb1 & Hn & Hu1 & (a & t & Ha & Ht) & Hk1 & Hl1)].
    { exists 0, h. rewrite (bind_Ret _ _ _ _ _ E0). split; [done|by left]. }
    rewrite (bind_Ret _ _ _ _ _ E1), (proj2 (Z.eqb_neq _ 0) Hf1). destruct k as [|k]; [lia|]. unfold get_ptr. rewrite bind_reads.
    destruct (round_ok h1 F1 A nu k Hi1 ltac:(lia)) as [(L1 & pv & spv & p & s & L2 & Er & Hs & E2)|[Hno _]]; [cbn [ring length] in *; lia| |].
    + rewrite E2. destruct (take_ok h1 F1 A L1 L2 pv spv p s nu Hi1 Er ltac:(lia)) as (F' & h' & r & E' & [Hi' Hb Hu Hkp] & Hr & _). exists r, h'. split; [done|]. right.
      assert (base <= p) by (eapply (ring_elem h1 F1 A p s Hi1); rewrite Er; set_solver). split; [lia|]. exists F', n. split_and!; try (done || lia). by eapply kept_trans.
    + exfalso. specialize (Hno (a, t) ltac:(by right)). cbn in Hno. lia.
Qed.

(** ** Programs that allocate *)
(** Before the first [malloc] there is no list. *)
Definition sound (h : heap) A : Prop :=
  freep h = 0 /\ A = [] /\ brk h mod 8 = 0 /\ base + 8 <= brk h < KERNBASE \/ exists F, inv h F A.
(** Units in the free list. *)
Definition free_units (h : heap) A (n : Z) : Prop := freep h = 0 /\ n = 0 \/ exists F, inv h F A /\ units F = n.

Lemma nunits_ok n : 0 <= n < 2 ^ 31 - 64 -> 1 <= nunits n < 2 ^ 28 /\ n <= 8 * (nunits n - 1).
Proof.
  intros Hn. unfold nunits, sizeof_Header. rewrite u32_id by lia. pose proof (Z.div_mod (n + 8 - 1) 8 ltac:(lia)). pose proof (Z.mod_pos_bound (n + 8 - 1) 8 ltac:(lia)). lia.
Qed.
Lemma inv_start h : freep h = 0 -> brk h mod 8 = 0 -> base + 8 <= brk h < KERNBASE ->
  inv (MkHeap (store32 (store32 (hm h) base base) (base + 4) 0) base (brk h)) [] [].
Proof.
  intros _ Hb8 Hb. destruct Hbase as [H0 H8]. unfold KERNBASE in *. split; cbn [hm freep brk ring]; try (set_solver || done); try lia.
  - cbn [seg hdq ring]. rewrite st_size_size, decide_True, st_size_ptr, st_ptr_ptr, decide_True by (done || lia). done.
  - cbn [sorted ring]. split_and!; [lia|by right|done|lia].
  - unfold KERNBASE. lia.
  - constructor.
Qed.

Lemma malloc_ok h A k n : sound h A -> free_units h A k -> 0 <= n < 2 ^ 31 - 64 ->
  exists r h' g, malloc base room n h = Ret r h' /\ 0 <= g /\ brk h' = brk h + 8 * g /\
    (r = 0 /\ g = 0 /\ sound h' A /\ free_units h' A k /\ kept A h h' \/
     r <> 0 /\ sound h' ((r - 8, nunits n) :: A) /\ free_units h' ((r - 8, nunits n) :: A) (k + g - nunits n) /\ kept A h h').
Proof.
  intros Hs Hk Hn. destruct (nunits_ok n Hn) as [Hnu _]. unfold malloc. rewrite bind_reads. cbn [id].
  assert (Hrun : forall h1 F, inv h1 F A -> units F = k -> brk h1 = brk h -> kept A h h1 -> exists r h' g,
    malloc_loop room (2 * list_fuel h + 2) (nunits n) (freep h1) (load32 (hm h1) (freep h1)) h1 = Ret r h' /\ 0 <= g /\ brk h' = brk h + 8 * g /\
    (r = 0 /\ g = 0 /\ sound h' A /\ free_units h' A k /\ kept A h h' \/
     r <> 0 /\ sound h' ((r - 8, nunits n) :: A) /\ free_units h' ((r - 8, nunits n) :: A) (k + g - nunits n) /\ kept A h h')).
  { intros h1 F Hi Hu Hb Hkp. assert (Hl : (length (ring F) <= list_fuel h)%nat).
    { pose proof (sorted_length _ _ _ (i_sorted _ _ _ Hi)). unfold list_fuel. destruct (i_brk _ _ _ Hi). lia. }
    destruct (malloc_init h1 F A (nunits n) (2 * list_fuel h + 2) Hi Hnu ltac:(lia)) as (r & h' & E & [[-> ->]|(Hr & F' & g & Hi' & Hg & Hb' & Hu' & Hk')]).
    - exists 0, h1, 0. split_and!; [done|done|lia|left]. split_and!; try done; right; eauto.
    - exists r, h', g. split_and!; [done|done|lia|right]. split_and!; [done|by right; eauto|right; exists F'; split; [done|lia]|by eapply kept_trans]. }
  destruct Hk as [[Hf ->]|(F & Hi & Hu)].
  - destruct Hs as [(_ & -> & Hb8 & Hb)|(F & Hi)]; [|destruct (i_freep _ _ _ Hi) as (sf & Hin); destruct (ring_elem _ _ _ _ _ Hi Hin) as (? & _); lia].
    rewrite Hf. cbn [Z.eqb]. pose proof (inv_start h Hf Hb8 Hb) as Hi. set (h1 := MkHeap _ _ _) in Hi.
    rewrite (bind_Ret _ _ h base h1) by reflexivity. unfold get_ptr. rewrite bind_reads. apply (Hrun h1 [] Hi); [done|done|]. by intros ? ? ? ?%elem_of_nil.
  - destruct (i_freep _ _ _ Hi) as (sf & Hin). destruct (ring_elem _ _ _ _ _ Hi Hin) as (? & _). rewrite (proj2 (Z.eqb_neq (freep h) 0)) by lia.
    rewrite (bind_Ret (ret (freep h)) _ h (freep h) h eq_refl). unfold get_ptr. rewrite bind_reads. by apply (Hrun h F Hi).
Qed.
Lemma inv_perm h F A A' : A ≡ₚ A' -> inv h F A -> inv h F A'.
Proof.
  intros Hp [H1 H2 H3 H4 H5 H6 H7 H8]. split; try done.
  - intros a s Ha. apply H5. by rewrite Hp.
  - intros x y Hx Hy. apply H6; [done|by rewrite Hp].
  - intros x y Hx Hy. apply H7; by rewrite Hp.
  - by rewrite <- Hp.
Qed.
Lemma free_block_ok h A1 a s A2 k : sound h (A1 ++ (a, s) :: A2) -> free_units h (A1 ++ (a, s) :: A2) k ->
  exists h', free (a + 8) h = Ret tt h' /\ brk h' = brk h /\ sound h' (A1 ++ A2) /\ free_units h' (A1 ++ A2) (k + s) /\ kept (A1 ++ A2) h h'.
Proof.
  intros Hs Hk. assert (Hp : A1 ++ (a, s) :: A2 ≡ₚ (a, s) :: A1 ++ A2) by (by rewrite Permutation_middle).
  assert (exists F, inv h F (A1 ++ (a, s) :: A2) /\ units F = k) as (F & Hi & Hu).
  { destruct Hk as [[Hf _]|Hk]; [|done]. destruct Hs as [(_ & E & _)|(F & Hi)]; [by destruct A1|]. destruct (i_freep _ _ _ Hi) as (sf & Hin). destruct (ring_elem _ _ _ _ _ Hi Hin) as (? & _). lia. }
  destruct (free_ok h F (A1 ++ A2) a s (inv_perm _ _ _ _ Hp Hi)) as (h' & F' & E & Hi' & Hb & Hu' & _ & Hkp & _).
  exists h'. split_and!; [done|done|right; eauto|right; exists F'; split; [done|lia]|done].
Qed.

(** A write inside a block touches no header. *)
Lemma write_ok h F A a s x v : inv h F A -> (a, s) ∈ A -> a + 8 <= x < a + 8 * s -> inv (MkHeap (<[x := v]> (hm h)) (freep h) (brk h)) F A.
Proof.
  intros Hi Ha Hx. destruct (i_alloc _ _ _ Hi a s Ha) as (_ & Ha8 & _ & Hba & _).
  assert (Hw : forall c i, 0 <= i <= 4 -> x < c \/ c + 8 <= x -> load32 (<[x := v]> (hm h)) (c + i) = load32 (hm h) (c + i)).
  { intros c i Hr Hc. apply Pages.load32_ext. intros z Hz. apply fn_lookup_insert_ne. lia. }
  pose proof Hi as [H1 H2 H3 H4 H5 H6 H7 H8]. split; cbn [hm freep brk]; try done.
  - eapply seg_ext; [exact H1|]. intros c t Hc. destruct (ring_elem _ _ _ _ _ Hi Hc) as (? & Hc8 & ? & _ & Ht).
    assert (x < c \/ c + 8 <= x) by (apply (out_of_block c t a s); [by eapply ring_apart|done|done|lia|lia]).
    split; [rewrite <- (Z.add_0_r c)|]; apply Hw; (done || lia).
  - intros c t Hc. destruct (H5 c t Hc) as (E & Hc8 & Ht & ? & ?). split_and!; try done. rewrite <- E. apply Hw; [lia|].
    destruct (decide ((c, t) = (a, s))) as [[= -> ->]|Hne]; [lia|]. specialize (H7 _ _ Hc Ha Hne). unfold apart in H7. cbn in H7. lia.
Qed.

(** A program's state: memory, the blocks it has been given (header address and units), and
    what it has written to them. *)
Record pst := MkPst { ph : heap; pA : list (Z * Z); pG : gmap Z Z }.
Inductive op := Malloc (n : Z) | Free (i : nat) | Write (i : nat) (off v : Z).
Definition valid (o : op) : Prop := match o with Malloc n => 0 <= n < 2 ^ 31 - 64 | _ => True end.

Definition exec (o : op) (st : pst) : option pst :=
  match o with
  | Malloc n =>
      match malloc base room n (ph st) with
      | Ret r h => Some (MkPst h (if r =? 0 then pA st else (r - 8, nunits n) :: pA st) (pG st))
      | _ => None
      end
  | Free i =>
      match pA st !! i with
      | Some (a, s) =>
          match free (a + 8) (ph st) with
          | Ret _ h => Some (MkPst h (delete i (pA st)) (filter (fun p => ~ (a <= fst p < a + 8 * s)) (pG st)))
          | _ => None
          end
      | None => Some st
      end
  | Write i off v =>
      match pA st !! i with
      | Some (a, s) =>
          if (0 <=? off) && (off <? 8 * (s - 1)) then
            Some (MkPst (MkHeap (<[a + 8 + off := v]> (hm (ph st))) (freep (ph st)) (brk (ph st))) (pA st) (<[a + 8 + off := v]> (pG st)))
          else Some st
      | None => Some st
      end
  end.
Fixpoint run (os : list op) (st : pst) : option pst := match os with [] => Some st | o :: os => exec o st ≫= run os end.

(** What holds after every operation. *)
Record fine (b0 : Z) (st : pst) : Prop := MkFine {
  fi_sound : sound (ph st) (pA st);
  fi_units : exists k, free_units (ph st) (pA st) k /\ brk (ph st) = b0 + 8 * (k + units (pA st));
  fi_mem : forall x v, pG st !! x = Some v -> hm (ph st) x = v /\ exists a s, (a, s) ∈ pA st /\ a + 8 <= x < a + 8 * s
}.

Lemma kept_mem b0 st h' A' (G' : gmap Z Z) : fine b0 st -> kept A' (ph st) h' -> (forall x v, G' !! x = Some v -> pG st !! x = Some v /\ exists a s, (a, s) ∈ A' /\ a + 8 <= x < a + 8 * s) ->
  forall x v, G' !! x = Some v -> hm h' x = v /\ exists a s, (a, s) ∈ A' /\ a + 8 <= x < a + 8 * s.
Proof.
  intros Hf Hk HG x v Hx. destruct (HG x v Hx) as (Hx' & a & s & Ha & Hr). split; [|eauto]. rewrite (Hk a s x Ha) by lia. by apply (fi_mem _ _ Hf).
Qed.
Lemma exec_fine b0 o st : fine b0 st -> valid o -> exists st', exec o st = Some st' /\ fine b0 st'.
Proof.
  intros Hf Hv. pose proof Hf as [Hs (k & Hk & Hb) Hm]. destruct st as [h A G]. cbn [ph pA pG] in *. destruct o as [n|i|i off v]; cbn [exec ph pA pG].
  - destruct (malloc_ok h A k n Hs Hk Hv) as (r & h' & g & E & Hg & Hb' & [(-> & -> & Hs' & Hk' & Hkp)|(Hr & Hs' & Hk' & Hkp)]); rewrite E.
    + exists (MkPst h' A G). split; [done|]. split; cbn [ph pA pG]; [done|exists k; split; [done|lia]|]. eapply (kept_mem b0 (MkPst h A G)); [done|done|]. intros x v Hx. by destruct (Hm x v Hx).
    + rewrite (proj2 (Z.eqb_neq r 0) Hr). eexists. split; [done|]. split; cbn [ph pA pG]; [done| |].
      * eexists. split; [exact Hk'|]. cbn [units foldr snd]. fold (units A). lia.
      * intros x v Hx. destruct (Hm x v Hx) as (E1 & a & s & Ha & Hr1). split; [|exists a, s; split; [by right|done]]. rewrite (Hkp a s x Ha) by lia. done.
  - destruct (A !! i) as [[a s]|] eqn:Ei; [|by exists (MkPst h A G)]. pose proof (delete_take_drop A i) as Ed. apply take_drop_middle in Ei as EA.
    rewrite <- EA in Hs, Hk, Hb. destruct (free_block_ok h _ a s _ k Hs Hk) as (h' & E & Hb' & Hs' & Hk' & Hkp). rewrite E. eexists. split; [done|]. rewrite Ed.
    split; cbn [ph pA pG]; [done| |].
    + exists (k + s). split; [done|]. rewrite Hb', Hb, !units_app. cbn [units foldr snd]. fold (units (drop (S i) A)). lia.
    + eapply (kept_mem b0 (MkPst h A G)); [done|done|]. intros x v Hx. apply map_lookup_filter_Some in Hx as [Hx Hout]. cbn [fst] in Hout. split; [done|].
      destruct (Hm x v Hx) as (_ & c & u & Hc & Hr). exists c, u. split; [|done]. rewrite <- EA in Hc. rewrite elem_of_app, elem_of_cons in Hc. rewrite elem_of_app.
      destruct Hc as [?|[[= -> ->]|?]]; [by left|lia|by right].
  - destruct (A !! i) as [[a s]|] eqn:Ei; [|by exists (MkPst h A G)]. destruct (Z.leb_spec 0 off), (Z.ltb_spec off (8 * (s - 1))); cbn [andb]; try by exists (MkPst h A G).
    eexists. split; [done|]. apply list_elem_of_lookup_2 in Ei. set (x := a + 8 + off). assert (Hx : a + 8 <= x < a + 8 * s) by lia.
    split; cbn [ph pA pG].
    + destruct Hs as [(? & -> & _)|(F & Hi)]; [by apply elem_of_nil in Ei|right; exists F; by eapply write_ok].
    + exists k. split; [|done]. destruct Hk as [?|(F & Hi & Hu)]; [by left|right; exists F; split; [by eapply write_ok|done]].
    + intros y w [[<- <-]|[Hne Hy]]%lookup_insert_Some; [split; [cbn [hm]; apply fn_lookup_insert|exists a, s; split; [done|unfold x; lia]]|].
      cbn [hm]; rewrite fn_lookup_insert_ne by done. by apply Hm.
Qed.


End spec.

(** A process of one page with [base] at 64, and a program that frees in another order. *)
Definition start : heap := MkHeap (fun _ => 0) 0 4096.
Definition prog : list op := [Malloc 10; Malloc 100; Write 1 9 65; Malloc 40000; Free 1; Malloc 24; Write 0 0 66; Free 2; Free 0; Malloc 3].

(** A request of almost 4 gigabytes succeeds: the sum of the request and the header wraps
    around, and the block that [malloc] returns has a header and no byte behind it. *)
Theorem malloc_wraps : exists r h, malloc 64 (fun _ => true) (2 ^ 32 - 1) start = Ret r h /\ r <> 0 /\ load32 (hm h) (r - 4) = 1.
Proof. eexists _, _. split; [vm_compute; reflexivity|]. split; [discriminate|vm_compute; reflexivity]. Qed.
End MallocSpec.
