(* ===== verification/Mp.v ===== *)
(** The multiprocessor tables ([mp.c], [mp.h]).

    At boot the kernel looks for the MP floating pointer structure in three places of low
    memory, follows it to the configuration table, and learns the processors from the entries
    of the table.  [Module Mp] is the code, on memory as a function from addresses to bytes;
    [Module MpSpec] reads the same tables as lists of entries. *)

From S2P Require Import Prelude Params Bytes CString Kalloc.

Module Mp.

(** [cpus[i].apicid], [ncpu], [ioapicid], [lapic], the memory, and what has been written to
    ports. *)
Record mpstate := MkMp { ram : mem; apicid : list Z; ncpu : Z; ioapicid : Z; lapic : Z; outs : list (Z * Z) }.
Definition set_lapic (x : Z) (s : mpstate) : mpstate := MkMp (ram s) (apicid s) (ncpu s) (ioapicid s) x (outs s).
Definition set_ioapicid (x : Z) (s : mpstate) : mpstate := MkMp (ram s) (apicid s) (ncpu s) x (lapic s) (outs s).
Definition add_cpu (x : Z) (s : mpstate) : mpstate :=
  MkMp (ram s) (<[Z.to_nat (ncpu s) := x]> (apicid s)) (ncpu s + 1) (ioapicid s) (lapic s) (outs s).
Definition outb (port x : Z) : M mpstate unit := modify (fun s =>
  MkMp (ram s) (apicid s) (ncpu s) (ioapicid s) (lapic s) (outs s ++ [(port, x)])).

(** [struct mp], [struct mpconf], [struct mpproc] and [struct mpioapic]: their sizes, and the
    fields the code uses. *)
Definition sizeof_mp : Z := 16.
Definition mp_physaddr (m : mem) (p : Z) : Z := load32 m (p + 4).
Definition mp_imcrp (m : mem) (p : Z) : Z := m (p + 12).
Definition sizeof_mpconf : Z := 44.
Definition conf_length (m : mem) (p : Z) : Z := m (p + 4) + 256 * m (p + 5).
Definition conf_version (m : mem) (p : Z) : Z := m (p + 6).
Definition conf_lapicaddr (m : mem) (p : Z) : Z := load32 m (p + 36).
Definition sizeof_mpproc : Z := 20.
Definition proc_apicid (m : mem) (p : Z) : Z := m (p + 1).
Definition sizeof_mpioapic : Z := 8.
Definition ioapic_apicno (m : mem) (p : Z) : Z := m (p + 1).

Definition MPPROC : Z := 0.
Definition MPBUS : Z := 1.
Definition MPIOAPIC : Z := 2.
Definition MPIOINTR : Z := 3.
Definition MPLINTR : Z := 4.

(** [memcmp] with a string of the program. *)
Fixpoint memcmp (m : mem) (p : Z) (lit : list Z) : Z :=
  match lit with
  | [] => 0
  | c :: lit => if negb (m p =? c) then m p - c else memcmp m (p + 1) lit
  end.
Definition sig_mp : list Z := [95; 77; 80; 95].
Definition sig_pcmp : list Z := [80; 67; 77; 80].

Fixpoint sum_loop (m : mem) (addr : Z) (n : nat) (acc : Z) : Z :=
  match n with
  | O => acc
  | S n => sum_loop m (addr + 1) n (i32 (acc + m addr))
  end.
Definition sum (m : mem) (addr len : Z) : Z := u8 (sum_loop m addr (Z.to_nat len) 0).

(** The loop of [mpsearch1] over the [n] structures from [p]. *)
Fixpoint search_loop (m : mem) (p : Z) (n : nat) : Z :=
  match n with
  | O => 0
  | S n => if (memcmp m p sig_mp =? 0) && (sum m p sizeof_mp =? 0) then p else search_loop m (p + sizeof_mp) n
  end.
Definition mpsearch1 (m : mem) (a len : Z) : Z := search_loop m (P2V a) (Z.to_nat ((len + sizeof_mp - 1) / sizeof_mp)).

Definition mpsearch (m : mem) : Z :=
  let bda := P2V 1024 in
  let p := Z.shiftl (Z.lor (Z.shiftl (m (bda + 15)) 8) (m (bda + 14))) 4 in
  if negb (p =? 0) then
    let mp := mpsearch1 m p 1024 in
    if negb (mp =? 0) then mp else mpsearch1 m 983040 65536
  else
    let p := u32 (Z.lor (Z.shiftl (m (bda + 20)) 8) (m (bda + 19)) * 1024) in
    let mp := mpsearch1 m (u32 (p - 1024)) 1024 in
    if negb (mp =? 0) then mp else mpsearch1 m 983040 65536.

(** The structure and the table it points to. *)
Definition mpconfig (m : mem) : option (Z * Z) :=
  let mp := mpsearch m in
  if (mp =? 0) || (mp_physaddr m mp =? 0) then None else
  let conf := P2V (mp_physaddr m mp) in
  if negb (memcmp m conf sig_pcmp =? 0) then None else
  if negb (conf_version m conf =? 1) && negb (conf_version m conf =? 4) then None else
  if negb (sum m conf (conf_length m conf) =? 0) then None else
  Some (mp, conf).

Section mpinit.
(** What the ports of the machine hold. *)
Variable inb : Z -> Z.

(** The loop over the entries from [p] to [e]; it returns [ismp].  In the [default] case the
    [break] leaves the [switch] only: [p] stays. *)
Definition no_fuel : string := "out of fuel".
Fixpoint mpinit_loop (fuel : nat) (p e : Z) (ismp : bool) : M mpstate bool :=
  if negb (p <? e) then ret ismp else
  match fuel with
  | O => panic no_fuel
  | S fuel =>
      m <- reads ram ;;
      let ty := m p in
      if ty =? MPPROC then
        n <- reads ncpu ;;
        when (n <? Z.of_nat NCPU) (modify (add_cpu (proc_apicid m p))) ;;;
        mpinit_loop fuel (u32 (p + sizeof_mpproc)) e ismp
      else if ty =? MPIOAPIC then
        modify (set_ioapicid (ioapic_apicno m p)) ;;;
        mpinit_loop fuel (u32 (p + sizeof_mpioapic)) e ismp
      else if (ty =? MPBUS) || (ty =? MPIOINTR) || (ty =? MPLINTR) then
        mpinit_loop fuel (u32 (p + 8)) e ismp
      else mpinit_loop fuel p e false
  end.

Definition mpinit (fuel : nat) : M mpstate unit :=
  m <- reads ram ;;
  match mpconfig m with
  | None => panic "Expect to run on an SMP"
  | Some (mp, conf) =>
      modify (set_lapic (conf_lapicaddr m conf)) ;;;
      ismp <- mpinit_loop fuel (u32 (conf + sizeof_mpconf)) (u32 (conf + conf_length m conf)) true ;;
      if negb ismp then panic "Didn't find a suitable machine" else
      when (negb (mp_imcrp m mp =? 0))
        (outb 34 112 ;;;
         outb 35 (Z.lor (inb 35) 1))
  end.
End mpinit.
End Mp.

Module MpSpec.
Import Mp.

(** ** Where the structure is *)
Definition bytes_ok (m : mem) : Prop := forall a, is_byte (m a).
(** The bytes at [a]. *)
Definition at_addr (m : mem) (a : Z) (n : nat) : list Z := map (fun k => m (a + Z.of_nat k)) (seq 0 n).
Lemma at_addr_S m a n : at_addr m a (S n) = m a :: at_addr m (a + 1) n.
Proof.
  unfold at_addr. cbn [seq map]. rewrite Z.add_0_r. f_equal. rewrite <- fmap_S_seq, <- list_fmap_compose. apply map_ext. intros k. cbn. f_equal. lia.
Qed.
Lemma memcmp_eq m lit : forall p, memcmp m p lit = 0 <-> at_addr m p (length lit) = lit.
Proof.
  induction lit as [|c lit IH]; intros p; [done|]. cbn [memcmp length]. rewrite at_addr_S. destruct (Z.eqb_spec (m p) c) as [->|Hne]; cbn [negb].
  - rewrite IH. split; [by intros ->|by intros [=]].
  - split; [lia|congruence].
Qed.
Definition total (l : list Z) : Z := foldr Z.add 0 l.
Lemma total_range l : Forall is_byte l -> 0 <= total l <= 255 * Z.of_nat (length l).
Proof. induction 1 as [|b l Hb _ IH]; [done|]. unfold is_byte in Hb. cbn [total foldr length]. fold (total l). lia. Qed.
Lemma sum_loop_eq m n : bytes_ok m -> forall a acc, 0 <= acc -> acc + 255 * Z.of_nat n < 2 ^ 31 -> sum_loop m a n acc = acc + total (at_addr m a n).
Proof.
  intros Hm. induction n as [|n IH]; intros a acc Ha Hmax; [cbn; lia|]. cbn [sum_loop]. pose proof (Hm a) as Hb. unfold is_byte in Hb. rewrite i32_id by lia. rewrite IH by lia.
  rewrite at_addr_S. cbn [total foldr]. fold (total (at_addr m (a + 1) n)). lia.
Qed.
(** The checksum is right: the bytes add up to a multiple of 256. *)
Lemma sum_ok m a len : bytes_ok m -> 0 <= len <= 65535 -> sum m a len = total (at_addr m a (Z.to_nat len)) mod 256.
Proof. intros Hm Hl. unfold sum. rewrite sum_loop_eq by (done || lia). done. Qed.

(** A floating pointer structure. *)
Definition mp_at (m : mem) (a : Z) : Prop := at_addr m a 4 = sig_mp /\ total (at_addr m a 16) mod 256 = 0.
Lemma mp_test m a : bytes_ok m -> (memcmp m a sig_mp =? 0) && (sum m a sizeof_mp =? 0) = true <-> mp_at m a.
Proof.
  intros Hm. rewrite andb_true_iff, !Z.eqb_eq, memcmp_eq, sum_ok by done. done.
Qed.
(** The first one of [n] places. *)
Definition first_mp (m : mem) (a : Z) (n : nat) (r : Z) : Prop :=
  (r = 0 /\ forall k, (k < n)%nat -> ~ mp_at m (a + 16 * Z.of_nat k)) \/
  exists k, (k < n)%nat /\ r = a + 16 * Z.of_nat k /\ mp_at m r /\ forall j, (j < k)%nat -> ~ mp_at m (a + 16 * Z.of_nat j).
Lemma search_loop_ok m n : bytes_ok m -> forall a, first_mp m a n (search_loop m a n).
Proof.
  intros Hm. induction n as [|n IH]; intros a; [left; split; [done|lia]|]. cbn [search_loop]. destruct (_ && _) eqn:E.
  - right. exists 0%nat. apply mp_test in E; [|done]. split_and!; [lia|lia|done|lia].
  - assert (Hno : ~ mp_at m a) by (intros H; apply mp_test in H; [congruence|done]). change sizeof_mp with 16. destruct (IH (a + 16)) as [[-> Hnone]|(k & Hk & Hr & Hmp & Hless)].
    + left. split; [done|]. intros [|k] Hk; [by rewrite Z.add_0_r|]. replace (a + 16 * Z.of_nat (S k)) with (a + 16 + 16 * Z.of_nat k) by lia. apply Hnone. lia.
    + right. exists (S k). split_and!; [lia|rewrite Hr; lia|done|]. intros [|j] Hj; [by rewrite Z.add_0_r|]. replace (a + 16 * Z.of_nat (S j)) with (a + 16 + 16 * Z.of_nat j) by lia. apply Hless. lia.
Qed.

(** The three places, in order: the extended BIOS data area, or the last kilobyte of base
    memory when there is none; and the BIOS. *)
Definition ebda (m : mem) : Z := 16 * (m (P2V 1024 + 14) + 256 * m (P2V 1024 + 15)).
Definition base_end (m : mem) : Z := 1024 * (m (P2V 1024 + 19) + 256 * m (P2V 1024 + 20)).
Definition first_place (m : mem) : Z := if decide (ebda m = 0) then u32 (base_end m - 1024) else ebda m.
Lemma lor_bytes h l : is_byte h -> is_byte l -> Z.lor (Z.shiftl h 8) l = l + 256 * h.
Proof.
  unfold is_byte. intros Hh Hl. rewrite Z.shiftl_mul_pow2 by lia. change (2 ^ 8) with 256.
  assert (Hz : Z.land (h * 256) l = 0).
  { apply Z.bits_inj'. intros k Hk. rewrite Z.land_spec, Z.bits_0. destruct (decide (k < 8)).
    - change 256 with (2 ^ 8). by rewrite Z.mul_pow2_bits_low by lia.
    - assert (Z.testbit l k = false) as ->; [|by rewrite andb_false_r]. destruct (decide (l = 0)) as [->|]; [by rewrite Z.bits_0|]. apply Z.bits_above_log2; [lia|].
      apply Z.log2_lt_pow2; [lia|]. assert (2 ^ 8 <= 2 ^ k) by (apply Z.pow_le_mono_r; lia). lia. }
  pose proof (Z.add_lor_land (h * 256) l). lia.
Qed.
Lemma mpsearch_ok m : bytes_ok m -> exists r1, first_mp m (P2V (first_place m)) 64 r1 /\
  if decide (r1 = 0) then first_mp m (P2V 983040) 4096 (mpsearch m) else mpsearch m = r1.
Proof.
  intros Hm. unfold mpsearch. rewrite !lor_bytes by apply Hm. rewrite Z.shiftl_mul_pow2 by lia. change (2 ^ 4) with 16. rewrite Z.mul_comm. fold (ebda m).
  unfold first_place. destruct (Z.eqb_spec (ebda m) 0) as [E|E]; cbn [negb]; [rewrite decide_True by done|rewrite decide_False by done].
  - assert (Hu : u32 ((m (P2V 1024 + 19) + 256 * m (P2V 1024 + 20)) * 1024) = base_end m).
    { unfold base_end. pose proof (Hm (P2V 1024 + 19)). pose proof (Hm (P2V 1024 + 20)). unfold is_byte in *. rewrite u32_id by lia. lia. }
    rewrite Hu. exists (mpsearch1 m (u32 (base_end m - 1024)) 1024). split; [by apply search_loop_ok|].
    destruct (Z.eqb_spec (mpsearch1 m (u32 (base_end m - 1024)) 1024) 0) as [F|F]; cbn [negb]; [rewrite decide_True by done|by rewrite decide_False by done]. by apply search_loop_ok.
  - exists (mpsearch1 m (ebda m) 1024). split; [by apply search_loop_ok|].
    destruct (Z.eqb_spec (mpsearch1 m (ebda m) 1024) 0) as [F|F]; cbn [negb]; [rewrite decide_True by done|by rewrite decide_False by done]. by apply search_loop_ok.
Qed.

(** ** The entries of the table *)
(** An entry is its bytes: 20 for a processor, 8 for the other kinds. *)
Definition kind (b : list Z) : Z := b !!! 0%nat.
Definition entry_ok (b : list Z) : Prop := kind b = MPPROC /\ length b = 20%nat \/ 1 <= kind b <= 4 /\ length b = 8%nat.
Definition is_proc (b : list Z) : Prop := kind b = MPPROC.
Definition is_ioapic (b : list Z) : Prop := kind b = MPIOAPIC.
#[local] Instance is_proc_dec b : Decision (is_proc b).
Proof. unfold is_proc. apply _. Defined.
#[local] Instance is_ioapic_dec b : Decision (is_ioapic b).
Proof. unfold is_ioapic. apply _. Defined.
Definition ident (b : list Z) : Z := b !!! 1%nat.
(** What the entries add to the state: the processors, as far as there is room, and the last
    I/O controller. *)
Definition learn (s : mpstate) (es : list (list Z)) : mpstate :=
  let ids := take (Z.to_nat (Z.of_nat NCPU - ncpu s)) (ident <$> filter is_proc es) in
  let n := Z.to_nat (ncpu s) in
  MkMp (ram s) (take n (apicid s) ++ ids ++ drop (n + length ids) (apicid s)) (ncpu s + Z.of_nat (length ids))
    (default (ioapicid s) (last (ident <$> filter is_ioapic es))) (lapic s) (outs s).

Lemma at_app m a x y : at_addr m a (length (x ++ y)) = x ++ y -> at_addr m a (length x) = x /\ at_addr m (a + Z.of_nat (length x)) (length y) = y.
Proof.
  revert a. induction x as [|c x IH]; intros a; [intros H; by rewrite Z.add_0_r|]. cbn [app length]. rewrite !at_addr_S. intros [= Hc H]. destruct (IH _ H) as [H1 H2]. rewrite H1. split; [by rewrite Hc|].
  by replace (a + Z.of_nat (S (length x))) with (a + 1 + Z.of_nat (length x)) by lia.
Qed.
Lemma table_at_lookup m a n k : (k < n)%nat -> at_addr m a n !!! k = m (a + Z.of_nat k).
Proof. intros Hk. apply list_lookup_total_correct. unfold at_addr. by rewrite list_lookup_fmap, lookup_seq_lt. Qed.
Lemma learn_nil s : 0 <= ncpu s -> learn s [] = s.
Proof. intros Hn. destruct s as [m l n io la o]. unfold learn. cbn [filter list_filter fmap list_fmap last default ncpu apicid ram ioapicid lapic outs]. rewrite take_nil. cbn [app length]. rewrite Nat.add_0_r, take_drop, Z.add_0_r. done. Qed.
Definition room (s : mpstate) : Prop := 0 <= ncpu s <= Z.of_nat NCPU /\ length (apicid s) = NCPU.
Definition turn (b : list Z) (s : mpstate) : mpstate :=
  if decide (is_proc b) then (if ncpu s <? Z.of_nat NCPU then add_cpu (ident b) s else s)
  else if decide (is_ioapic b) then set_ioapicid (ident b) s else s.
Lemma room_turn b s : room s -> room (turn b s).
Proof.
  intros [Hn Hl]. unfold turn. repeat case_decide; try done. destruct (Z.ltb_spec (ncpu s) (Z.of_nat NCPU)); [|done]. split; cbn; [lia|by rewrite length_insert].
Qed.
Lemma learn_cons b s es : room s -> learn s (b :: es) = learn (turn b s) es.
Proof.
  intros [Hn Hl]. unfold turn, learn. rewrite !filter_cons. case_decide as Hp.
  - rewrite (decide_False (P := is_ioapic b)) by (unfold is_ioapic, is_proc in *; by rewrite Hp). destruct (Z.ltb_spec (ncpu s) (Z.of_nat NCPU)) as [Hlt|Hge].
    + cbn [fmap list_fmap add_cpu ram apicid ncpu ioapicid lapic outs]. replace (Z.to_nat (Z.of_nat NCPU - ncpu s)) with (S (Z.to_nat (Z.of_nat NCPU - (ncpu s + 1)))) by lia. cbn [take length].
      set (ids := take (Z.to_nat (Z.of_nat NCPU - (ncpu s + 1))) _). replace (Z.to_nat (ncpu s + 1)) with (S (Z.to_nat (ncpu s))) by lia. set (n := Z.to_nat (ncpu s)). f_equal; [|lia].
      rewrite drop_insert_lt by lia. rewrite (take_S_r _ _ (ident b)) by (apply list_lookup_insert_eq; unfold NCPU in *; lia). rewrite take_insert_ge by lia. rewrite <- app_assoc. cbn [app]. by replace (n + S (length ids))%nat with (S n + length ids)%nat by lia.
    + replace (Z.to_nat (Z.of_nat NCPU - ncpu s)) with 0%nat by lia. rewrite !take_0. done.
  - case_decide as Hi; [|done]. cbn [set_ioapicid ram apicid ncpu ioapicid lapic outs fmap list_fmap]. f_equal. rewrite last_cons. by destruct (last _).
Qed.
(** The loop over the entries [es]. *)
Lemma mpinit_loop_prefix es : forall fuel s p e, room s -> Forall entry_ok es -> at_addr (ram s) p (length (concat es)) = concat es -> 0 <= p ->
  p + Z.of_nat (length (concat es)) <= e < W32 -> mpinit_loop (length es + fuel) p e true s = mpinit_loop fuel (p + Z.of_nat (length (concat es))) e true (learn s es).
Proof.
  induction es as [|b es IH]; intros fuel s p e Hs Hes Hat Hp He.
  - rewrite learn_nil by apply Hs. by rewrite Z.add_0_r.
  - inversion_clear Hes as [|? ? Hb Hes']. cbn [concat] in *. destruct (at_app _ _ _ _ Hat) as [Hb1 Hb2]. rewrite length_app in *. cbn [length Nat.add].
    assert (Hlen : (8 <= length b)%nat) by (destruct Hb as [[_ ->]|[_ ->]]; lia). cbn [mpinit_loop]. destruct (Z.ltb_spec p e); [|lia]. cbn [negb]. rewrite bind_reads.
    assert (Hk : ram s p = kind b) by (unfold kind; rewrite <- Hb1, table_at_lookup by lia; by rewrite Z.add_0_r).
    assert (Hid : ram s (p + 1) = ident b) by (unfold ident; rewrite <- Hb1, table_at_lookup by lia; done).
    replace (p + Z.of_nat (length b + length (concat es))) with (p + Z.of_nat (length b) + Z.of_nat (length (concat es))) by lia. rewrite learn_cons by done.
    rewrite <- (IH fuel (turn b s) (p + Z.of_nat (length b)) e); [|by apply room_turn|done| |lia|lia].
    2: { by replace (ram (turn b s)) with (ram s) by (unfold turn; repeat case_decide; try case_match; done). }
    rewrite Hk. unfold proc_apicid, ioapic_apicno. rewrite Hid. unfold turn. destruct Hb as [[Ek El]|[Ek El]]; rewrite El in *.
    + rewrite Ek. cbn [Z.eqb MPPROC]. rewrite decide_True by done. rewrite bind_reads. rewrite u32_id by (unfold sizeof_mpproc; lia). change (Z.of_nat 20) with sizeof_mpproc.
      destruct (ncpu s <? Z.of_nat NCPU); reflexivity.
    + assert (Hnp : ~ is_proc b) by (unfold is_proc, MPPROC; lia). rewrite decide_False by done. unfold MPPROC at 1. rewrite (proj2 (Z.eqb_neq (kind b) 0)) by lia. change (Z.of_nat 8) with 8.
      case_decide as Hi; unfold is_ioapic in Hi.
      * rewrite Hi, Z.eqb_refl. rewrite bind_modify, u32_id by (unfold sizeof_mpioapic; lia). done.
      * rewrite (proj2 (Z.eqb_neq _ _) Hi). assert ((kind b =? MPBUS) || (kind b =? MPIOINTR) || (kind b =? MPLINTR) = true) as ->.
        { unfold MPIOAPIC, MPBUS, MPIOINTR, MPLINTR in *. destruct (Z.eqb_spec (kind b) 1), (Z.eqb_spec (kind b) 3), (Z.eqb_spec (kind b) 4); try done. lia. }
        by rewrite u32_id by lia.
Qed.
(** At the end of the table, and at an entry of an unknown kind. *)
Lemma mpinit_loop_end fuel e ismp s : mpinit_loop fuel e e ismp s = Ret ismp s.
Proof. destruct fuel; cbn [mpinit_loop]; by rewrite Z.ltb_irrefl. Qed.
Lemma mpinit_loop_stuck fuel p e : forall ismp s, p < e -> (ram s p < 0 \/ 4 < ram s p) -> mpinit_loop fuel p e ismp s = Panic no_fuel.
Proof.
  induction fuel as [|fuel IH]; intros ismp s Hp Hk; cbn [mpinit_loop]; (destruct (Z.ltb_spec p e); [|lia]); [done|]. cbn [negb]. rewrite bind_reads.
  unfold MPPROC, MPIOAPIC, MPBUS, MPIOINTR, MPLINTR. rewrite !(proj2 (Z.eqb_neq _ _)) by lia. cbn [orb]. by apply IH.
Qed.

(** ** [mpinit] *)
Lemma first_mp_unique m a n r r' : 0 < a -> first_mp m a n r -> first_mp m a n r' -> r = r'.
Proof.
  intros Ha [[-> Hno]|(k & Hk & Er & Hm & Hless)] [[-> Hno']|(k' & Hk' & Er' & Hm' & Hless')]; [done|subst r'; by destruct (Hno k' Hk')|subst r; by destruct (Hno' k Hk)|].
  destruct (Nat.lt_trichotomy k k') as [H|[->|H]]; [subst r; by destruct (Hless' k H)|congruence|subst r'; by destruct (Hless k' H)].
Qed.
(** The floating pointer structure that the MP specification designates. *)
Definition designated (m : mem) (mp : Z) : Prop :=
  exists r1, first_mp m (P2V (first_place m)) 64 r1 /\ if decide (r1 = 0) then first_mp m (P2V 983040) 4096 mp else mp = r1.
Lemma first_place_pos m : bytes_ok m -> 0 < P2V (first_place m).
Proof.
  intros Hm. unfold first_place, P2V. pose proof (Hm (P2V 1024 + 14)). pose proof (Hm (P2V 1024 + 15)). pose proof (Hm (P2V 1024 + 19)). pose proof (Hm (P2V 1024 + 20)). unfold is_byte in *. unfold KERNBASE.
  case_decide; [rewrite u32_add_l|]; unfold u32, ebda, base_end in *; pose proof (Z.mod_pos_bound); [|rewrite Z.mod_small; lia].
  destruct (decide (1024 <= 1024 * (m (P2V 1024 + 19) + 256 * m (P2V 1024 + 20)))); rewrite Z.mod_small; lia.
Qed.
Lemma mpsearch_designated m mp : bytes_ok m -> designated m mp -> mpsearch m = mp.
Proof.
  intros Hm (r1 & H1 & H2). destruct (mpsearch_ok m Hm) as (r1' & H1' & H2'). assert (r1' = r1) as -> by (eapply first_mp_unique; [by apply first_place_pos|done..]).
  case_decide; [|congruence]. by eapply first_mp_unique; [|exact H2'|exact H2].
Qed.
(** A configuration table with the entries [es], followed by the bytes [rest]. *)
Record table_at (m : mem) (conf : Z) (es : list (list Z)) (rest : list Z) : Prop := MkTable {
  ta_sig : at_addr m conf 4 = sig_pcmp;
  ta_version : conf_version m conf = 1 \/ conf_version m conf = 4;
  ta_length : conf_length m conf = 44 + Z.of_nat (length (concat es ++ rest));
  ta_sum : total (at_addr m conf (Z.to_nat (conf_length m conf))) mod 256 = 0;
  ta_entries : Forall entry_ok es;
  ta_bytes : at_addr m (conf + 44) (length (concat es ++ rest)) = concat es ++ rest;
  ta_range : 0 <= conf /\ conf + conf_length m conf < W32
}.
Lemma mpconfig_ok m mp es rest : bytes_ok m -> designated m mp -> mp <> 0 -> mp_physaddr m mp <> 0 -> table_at m (P2V (mp_physaddr m mp)) es rest ->
  mpconfig m = Some (mp, P2V (mp_physaddr m mp)).
Proof.
  intros Hm Hd Hmp Hpa [Hs Hv Hl Hsum _ _ Hr]. unfold mpconfig. rewrite (mpsearch_designated m mp Hm Hd). rewrite (proj2 (Z.eqb_neq _ _) Hmp), (proj2 (Z.eqb_neq _ _) Hpa). cbn [orb].
  set (conf := P2V _) in *. rewrite (proj2 (memcmp_eq m sig_pcmp conf) Hs). cbn [Z.eqb negb].
  assert (negb (conf_version m conf =? 1) && negb (conf_version m conf =? 4) = false) as -> by (destruct Hv as [-> | ->]; done).
  assert (Hlen : 0 <= conf_length m conf <= 65535) by (unfold conf_length; pose proof (Hm (conf + 4)); pose proof (Hm (conf + 5)); unfold is_byte in *; lia). by rewrite sum_ok, Hsum by done.
Qed.


(** An entry of an unknown kind makes [mpinit] loop for ever, whatever the fuel: the
    [break] of the [default] case leaves the [switch] and not the loop, so that the panic
    "Didn't find a suitable machine" after it is never reached. *)
Theorem mpinit_hangs inb s mp es b rest :
  let m := ram s in
  bytes_ok m -> designated m mp -> mp <> 0 -> mp_physaddr m mp <> 0 -> table_at m (P2V (mp_physaddr m mp)) es (b :: rest) -> MPLINTR < b ->
  ncpu s = 0 -> length (apicid s) = NCPU -> forall turns, mpinit inb (length es + turns) s = Panic no_fuel.
Proof.
  intros m Hm Hd Hmp Hpa Ht Hb Hn Hl turns. unfold mpinit. rewrite bind_reads. fold m. rewrite (mpconfig_ok m mp es _ Hm Hd Hmp Hpa Ht). set (conf := P2V _) in *. destruct Ht as [_ _ Hlen _ Hes Hat Hr].
  rewrite bind_modify. set (s1 := set_lapic _ s). destruct (at_app _ _ _ _ Hat) as [Hat1 Hat2]. rewrite length_app in Hlen. cbn [length] in Hlen, Hat2. rewrite !u32_id by (unfold sizeof_mpconf; lia).
  apply bind_Panic. rewrite mpinit_loop_prefix; [|split; cbn; [rewrite Hn; lia|done]|done|exact Hat1|unfold sizeof_mpconf; lia|unfold sizeof_mpconf; lia].
  apply mpinit_loop_stuck; [unfold sizeof_mpconf; lia|]. change (ram (learn s1 es)) with m. rewrite at_addr_S in Hat2. injection Hat2 as Hb2 _. unfold sizeof_mpconf, MPLINTR in *. rewrite Hb2. by right.
Qed.

(** ** A machine *)
(** Memory with the given bytes at the given addresses. *)
Fixpoint mem_of (l : list (Z * list Z)) (a : Z) : Z :=
  match l with
  | [] => 0
  | (p, bs) :: l => if (p <=? a) && (a <? p + Z.of_nat (length bs)) then bs !!! Z.to_nat (a - p) else mem_of l a
  end.
Lemma mem_of_bytes l : Forall (fun x => Forall is_byte (snd x)) l -> bytes_ok (mem_of l).
Proof.
  induction 1 as [|[p bs] l Hb _ IH]; intros a; [done|]. cbn [mem_of]. destruct ((p <=? a) && (a <? p + Z.of_nat (length bs))) eqn:E; [|apply IH]. b2p. rewrite Forall_lookup in Hb.
  eapply (Hb (Z.to_nat (a - p))), list_lookup_lookup_total_lt. lia.
Qed.
(** Two processors, with ids 0 and 4, a bus and an I/O controller with id 2; the structure at
    the start of the EBDA. *)
Definition proc_entry (id : Z) : list Z := [0; id; 20; 3; 0; 0; 0; 0; 0; 0; 0; 0; 0; 0; 0; 0; 0; 0; 0; 0].
Definition bus_entry : list Z := [1; 0; 73; 83; 65; 32; 32; 32].
Definition ioapic_entry (id : Z) : list Z := [2; id; 17; 1; 0; 0; 192; 254].
Definition conf_head (len sum : Z) : list Z := sig_pcmp ++ [len; 0; 4; sum] ++ replicate 20 32 ++ [0; 0; 0; 0; 0; 0; 4; 0; 0; 0; 224; 254; 0; 0; 0; 0].
Definition machine (entries : list Z) (sum : Z) : mem := mem_of [
  (P2V 1038, [192; 159]);
  (P2V 654336, sig_mp ++ [0; 253; 9; 0; 1; 4; 26; 0; 128; 0; 0; 0]);
  (P2V 654592, conf_head (44 + Z.of_nat (length entries)) sum ++ entries)].
Definition boot_state (m : mem) : mpstate := MkMp m (replicate NCPU 0) 0 0 0 [].
Definition good_entries : list (list Z) := [proc_entry 0; proc_entry 4; bus_entry; ioapic_entry 2].
Lemma machine_bytes entries sum : Forall is_byte entries -> is_byte sum -> Z.of_nat (length entries) < 200 -> bytes_ok (machine entries sum).
Proof.
  intros He Hs Hl. assert (Hlen : is_byte (44 + Z.of_nat (length entries))) by (unfold is_byte; lia).
  apply mem_of_bytes. constructor; [by repeat constructor|]. constructor; [by repeat constructor|]. constructor; [|done]. cbn [snd]. apply Forall_app. split; [|done].
  unfold conf_head. cbn [sig_pcmp app replicate]. repeat (apply Forall_cons_2; [done|]). by apply Forall_nil_2.
Qed.
Lemma machine_mp entries sum : designated (machine entries sum) (P2V 654336).
Proof.
  exists (P2V 654336). assert (E : first_place (machine entries sum) = 654336) by done. rewrite E. split; [|done]. right. exists 0%nat. split_and!; [lia|done|by vm_compute|lia].
Qed.
Lemma good_table : table_at (machine (concat good_entries) 194) (P2V 654592) good_entries [].
Proof. split; try (by vm_compute); [by right|]. repeat (apply Forall_cons_2; [first [by left|by right]|]). by apply Forall_nil_2. Qed.
Lemma bad_table : table_at (machine (proc_entry 0 ++ 5 :: replicate 7 0) 6) (P2V 654592) [proc_entry 0] (5 :: replicate 7 0).
Proof. split; try (by vm_compute); [by right|]. repeat (apply Forall_cons_2; [first [by left|by right]|]). by apply Forall_nil_2. Qed.

Lemma mpinit_hangs_witness : mpinit (fun _ => 0) 1000 (boot_state (machine (proc_entry 0 ++ 5 :: replicate 7 0) 6)) = Panic no_fuel.
Proof.
  apply (mpinit_hangs (fun _ => 0) (boot_state (machine (proc_entry 0 ++ 5 :: replicate 7 0) 6)) (P2V 654336) [proc_entry 0] 5 (replicate 7 0)) with (turns := 999%nat);
    [apply machine_bytes; [by repeat constructor|done|done]|apply machine_mp|done|done|exact bad_table|done|done|done].
Defined.
End MpSpec.
