(* ===== verification/Ide.v ===== *)
(** The IDE disk driver ([ide.c]).

    Several processes have requests at the disk at once; the driver queues them, and the
    interrupt handler completes the first and starts the next.  The disk itself is behind the
    ports of [Class Device]; [Class DeviceSpec] states what the ATA standard says of a drive
    in PIO mode, as far as the driver relies on it.  [Module Ide] is the code and
    [Module IdeSpec] what it implements under all interleavings of processes and interrupts. *)

From S2P Require Import Prelude Params Bytes Sleeplock Bio.

(** The ports of the drive. *)
Class Device (D : Type) := MkDevice {
  inb : Z -> M D Z;
  outb : Z -> Z -> M D unit;
  insl : Z -> nat -> M D (list Z);
  outsl : Z -> list Z -> M D unit
}.

Module Ide.
Import SleepLock Disk.

Definition SECTOR_SIZE : Z := 512.
Definition IDE_BSY : Z := 128.
Definition IDE_DRDY : Z := 64.
Definition IDE_DF : Z := 32.
Definition IDE_ERR : Z := 1.
Definition IDE_CMD_READ : Z := 32.
Definition IDE_CMD_WRITE : Z := 48.
Definition IDE_CMD_RDMUL : Z := 196.
Definition IDE_CMD_WRMUL : Z := 197.
Definition IRQ_IDE : Z := 14.

Section ide.
Context {D : Type} `{!Device D}.

(** [idelock], [idequeue], [havedisk1], the buffers with their links [qnext], and the drive. *)
Record ide := MkIde { idelock : Klock.t; idequeue : option nat; havedisk1 : Z; bufs : list buf; qnext : list (option nat); hw : D }.
Definition on_idelock (m : M Klock.t unit) : M ide unit :=
  zoom idelock (fun l s => MkIde l (idequeue s) (havedisk1 s) (bufs s) (qnext s) (hw s)) m.
Definition on_hw {A} (m : M D A) : M ide A :=
  zoom hw (fun d s => MkIde (idelock s) (idequeue s) (havedisk1 s) (bufs s) (qnext s) d) m.
Definition set_queue (q : option nat) (s : ide) : ide := MkIde (idelock s) q (havedisk1 s) (bufs s) (qnext s) (hw s).
Definition set_havedisk1 (x : Z) (s : ide) : ide := MkIde (idelock s) (idequeue s) x (bufs s) (qnext s) (hw s).
Definition set_qnext (i : nat) (q : option nat) (s : ide) : ide :=
  MkIde (idelock s) (idequeue s) (havedisk1 s) (bufs s) (<[i := q]> (qnext s)) (hw s).
Definition upd (i : nat) (f : buf -> buf) : M ide unit := modify (fun s =>
  MkIde (idelock s) (idequeue s) (havedisk1 s) (alter f i (bufs s)) (qnext s) (hw s)).
Definition on_buflock {A} (i : nat) (m : M sleeplock A) : M ide A :=
  zoom (fun s => lock (bufs s !!! i))
    (fun l s => MkIde (idelock s) (idequeue s) (havedisk1 s) (alter (set_lock l) i (bufs s)) (qnext s) (hw s)) m.

(** How often the status is read before the drive must be ready. *)
Variable polls : nat.
Definition no_fuel : string := "out of fuel".
Fixpoint poll (fuel : nat) : M D Z :=
  match fuel with
  | O => panic no_fuel
  | S fuel =>
      r <- inb 503 ;;
      if Z.land r (Z.lor IDE_BSY IDE_DRDY) =? IDE_DRDY then ret r else poll fuel
  end.
Definition idewait (checkerr : bool) : M D Z :=
  r <- poll polls ;;
  ret (if checkerr && negb (Z.land r (Z.lor IDE_DF IDE_ERR) =? 0) then -1 else 0).

(** [ioapicenable] of [ioapic.c], and the number of processors. *)
Variable ioapicenable : Z -> Z -> M ide unit.
Variable ncpu : Z.
Definition ideinit : M ide unit :=
  modify (fun s => MkIde false (idequeue s) (havedisk1 s) (bufs s) (qnext s) (hw s)) ;;;
  ioapicenable IRQ_IDE (ncpu - 1) ;;;
  on_hw (idewait false) ;;;
  on_hw (outb 502 (Z.lor 224 (Z.shiftl 1 4))) ;;;
  for_loop (fun _ =>
    r <- on_hw (inb 503) ;;
    if negb (r =? 0) then modify (set_havedisk1 1) ;;; ret (Some tt) else ret None) 0 1000 ;;;
  on_hw (outb 502 (Z.lor 224 (Z.shiftl 0 4))).

(** [idestart] on a buffer or a null pointer; the four commands. *)
Definition sector_per_block : Z := Z.of_nat BSIZE / SECTOR_SIZE.
Definition read_cmd : Z := if sector_per_block =? 1 then IDE_CMD_READ else IDE_CMD_RDMUL.
Definition write_cmd : Z := if sector_per_block =? 1 then IDE_CMD_WRITE else IDE_CMD_WRMUL.
Definition idestart (b : option nat) : M ide unit :=
  match b with
  | None => panic "idestart"
  | Some i =>
      x <- reads (fun s => bufs s !!! i) ;;
      if FSSIZE <=? blockno x then panic "incorrect blockno" else
      let sector := blockno x * sector_per_block in
      if 7 <? sector_per_block then panic "idestart" else
      on_hw (
        idewait false ;;;
        outb 1014 0 ;;;
        outb 498 sector_per_block ;;;
        outb 499 (Z.land sector 255) ;;;
        outb 500 (Z.land (Z.shiftr sector 8) 255) ;;;
        outb 501 (Z.land (Z.shiftr sector 16) 255) ;;;
        outb 502 (Z.lor (Z.lor 224 (Z.shiftl (Z.land (dev x) 1) 4)) (Z.land (Z.shiftr sector 24) 15)) ;;;
        if negb (Z.land (flags x) B_DIRTY =? 0) then
          outb 503 write_cmd ;;;
          outsl 496 (data x)
        else outb 503 read_cmd)
  end.

(** [ideintr]; its [wakeup(b)] is a step of the process that waits. *)
Definition ideintr : M ide unit :=
  on_idelock Klock.acquire ;;;
  q <- reads idequeue ;;
  match q with
  | None => on_idelock Klock.release
  | Some i =>
      n <- reads (fun s => qnext s !!! i) ;;
      modify (set_queue n) ;;;
      x <- reads (fun s => bufs s !!! i) ;;
      (if Z.land (flags x) B_DIRTY =? 0 then
         r <- on_hw (idewait true) ;;
         if 0 <=? r then
           bs <- on_hw (insl 496 (Z.to_nat (Z.of_nat BSIZE / 4))) ;;
           upd i (set_data bs)
         else ret tt
       else ret tt) ;;;
      upd i (fun b => set_flags (Z.lor (flags b) B_VALID) b) ;;;
      upd i (fun b => set_flags (Z.land (flags b) (Z.lnot B_DIRTY)) b) ;;;
      q <- reads idequeue ;;
      when (negb (bool_decide (q = None))) (idestart q) ;;;
      on_idelock Klock.release
  end.

(** The walk to the end of the queue, from the buffer [p]. *)
Fixpoint append_loop (fuel : nat) (p i : nat) : M ide unit :=
  match fuel with
  | O => panic no_fuel
  | S fuel =>
      n <- reads (fun s => qnext s !!! p) ;;
      match n with
      | Some p' => append_loop fuel p' i
      | None => modify (set_qnext p (Some i))
      end
  end.
(** The test of the loop of [iderw]: the request is done, or the process sleeps. *)
Definition ide_chan (i : nat) : chan := ("ide"%string, i).
Definition iderw_wait (i : nat) : M ide unit :=
  x <- reads (fun s => bufs s !!! i) ;;
  if Z.land (flags x) (Z.lor B_VALID B_DIRTY) =? B_VALID then on_idelock Klock.release
  else on_idelock Klock.release ;;; sleep_on (ide_chan i).
(** [iderw] by the process [me], up to its first sleep; when it is woken it takes [idelock]
    again and repeats the test. *)
Definition iderw (me : Z) (i : nat) : M ide unit :=
  h <- on_buflock i (holdingsleep me) ;;
  if negb h then panic "iderw: buf not locked" else
  x <- reads (fun s => bufs s !!! i) ;;
  if Z.land (flags x) (Z.lor B_VALID B_DIRTY) =? B_VALID then panic "iderw: nothing to do" else
  h1 <- reads havedisk1 ;;
  if negb (dev x =? 0) && (h1 =? 0) then panic "iderw: ide disk 1 not present" else
  on_idelock Klock.acquire ;;;
  modify (set_qnext i None) ;;;
  q <- reads idequeue ;;
  match q with
  | None => modify (set_queue (Some i))
  | Some p => s <- reads id ;; append_loop (length (bufs s)) p i
  end ;;;
  q <- reads idequeue ;;
  when (bool_decide (q = Some i)) (idestart (Some i)) ;;;
  iderw_wait i.
Definition iderw_again (i : nat) : M ide unit := on_idelock Klock.acquire ;;; iderw_wait i.
End ide.
#[global] Arguments ide : clear implicits.
End Ide.

(** ** The drive *)
(** The registers that hold the parameters of a command. *)
Record regs := MkRegs { r_count : Z; r_lba0 : Z; r_lba1 : Z; r_lba2 : Z; r_head : Z }.
Definition set_reg (port x : Z) (r : regs) : regs :=
  MkRegs (if port =? 498 then x else r_count r) (if port =? 499 then x else r_lba0 r) (if port =? 500 then x else r_lba1 r)
    (if port =? 501 then x else r_lba2 r) (if port =? 502 then x else r_head r).
(** The sector number, and the drive of the two. *)
Definition lba (r : regs) : Z := r_lba0 r + 256 * (r_lba1 r + 256 * (r_lba2 r + 256 * Z.land (r_head r) 15)).
Definition unit_of (r : regs) : Z := Z.land (Z.shiftr (r_head r) 4) 1.
(** What the drive is doing. *)
Inductive phase :=
  | Idle (r : regs) (err : bool)                      (* waits for a command; the last one failed *)
  | Reading (u sec : Z)                               (* an interrupt will come *)
  | Sending (u sec : Z)                               (* waits for the data of a write *)
  | Writing (u sec : Z) (bs : list Z)                 (* an interrupt will come *)
  | Loaded (bs : list Z).                             (* data are ready *)
(** Reading the status: the drive is busy [n] times, and then it has the status [v]. *)
Inductive settles {D} `{!Device D} : D -> nat -> Z -> D -> Prop :=
  | settles_now d v d' : inb 503 d = Ret v d' -> Z.land v (Z.lor Ide.IDE_BSY Ide.IDE_DRDY) = Ide.IDE_DRDY -> settles d 0 v d'
  | settles_later d v d1 n v' d' : inb 503 d = Ret v d1 -> Z.land v (Z.lor Ide.IDE_BSY Ide.IDE_DRDY) <> Ide.IDE_DRDY -> settles d1 n v' d' -> settles d (S n) v' d'.

(** [drive d V p]: the sectors of the drives are [V], and the phase is [p].  [completes] is the
    end of a command, with or without success, after which the drive interrupts. *)
Class DeviceSpec (D : Type) `{!Device D} := MkDeviceSpec {
  patience : nat;
  drive : D -> (Z -> Z -> list Z) -> phase -> Prop;
  completes : D -> bool -> D -> Prop;
  status_ok d V p : drive d V p -> (exists r e, p = Idle r e) \/ (exists bs, p = Loaded bs) ->
    exists n v d', (n < patience)%nat /\ settles d n v d' /\ drive d' V p /\ (Z.land v (Z.lor Ide.IDE_DF Ide.IDE_ERR) <> 0 <-> exists r, p = Idle r true);
  control_ok d V r e : drive d V (Idle r e) -> exists d', outb 1014 0 d = Ret tt d' /\ drive d' V (Idle r e);
  reg_ok d V r e port x : drive d V (Idle r e) -> 498 <= port <= 502 -> 0 <= x < 256 -> exists d', outb port x d = Ret tt d' /\ drive d' V (Idle (set_reg port x r) e);
  read_ok d V r e : drive d V (Idle r e) -> r_count r = 1 -> Z.land (r_head r) 224 = 224 ->
    exists d', outb 503 Ide.IDE_CMD_READ d = Ret tt d' /\ drive d' V (Reading (unit_of r) (lba r));
  write_ok d V r e : drive d V (Idle r e) -> r_count r = 1 -> Z.land (r_head r) 224 = 224 ->
    exists d', outb 503 Ide.IDE_CMD_WRITE d = Ret tt d' /\ drive d' V (Sending (unit_of r) (lba r));
  data_ok d V u sec bs : drive d V (Sending u sec) -> length bs = BSIZE -> exists d', outsl 496 bs d = Ret tt d' /\ drive d' V (Writing u sec bs);
  loaded_ok d V bs : drive d V (Loaded bs) -> exists d' r, insl 496 128 d = Ret bs d' /\ drive d' V (Idle r false);
  read_done d V u sec ok d' : drive d V (Reading u sec) -> completes d ok d' -> if ok then drive d' V (Loaded (V u sec)) else exists r, drive d' V (Idle r true);
  write_done d V u sec bs ok d' : drive d V (Writing u sec bs) -> completes d ok d' ->
    exists r, drive d' (if ok then <[u := <[sec := bs]> (V u)]> V else V) (Idle r (negb ok))
}.

Module IdeSpec.
Import SleepLock Disk Ide.

Section spec.
Context {D : Type} `{!Device D} `{!DeviceSpec D}.
Implicit Types (s : ide D) (V : Z -> Z -> list Z).

(** *** Waiting *)
Lemma poll_settles n d v d' fuel : settles d n v d' -> (n < fuel)%nat -> poll fuel d = Ret v d'.
Proof.
  intros Hs. revert fuel. induction Hs as [d v d' E Hv|d v d1 n v' d' E Hv _ IH]; intros [|fuel] Hf; try lia; cbn [poll]; rewrite (bind_Ret _ _ _ _ _ E).
  - by rewrite Hv, Z.eqb_refl.
  - rewrite (proj2 (Z.eqb_neq _ _) Hv). apply IH. lia.
Qed.
Lemma idewait_idle d V r e c : drive d V (Idle r e) -> exists d', idewait patience c d = Ret (if c && e then -1 else 0) d' /\ drive d' V (Idle r e).
Proof.
  intros Hd. destruct (status_ok d V _ Hd ltac:(left; eauto)) as (n & v & d' & Hn & Hs & Hd' & Herr). exists d'. split; [|done]. unfold idewait. rewrite (bind_Ret _ _ _ _ _ (poll_settles _ _ _ _ _ Hs Hn)).
  destruct c; [|done]. cbn [andb]. destruct (Z.eqb_spec (Z.land v (Z.lor IDE_DF IDE_ERR)) 0) as [E|E]; cbn [negb].
  - destruct e; [|done]. exfalso. by apply Herr; [eexists|].
  - apply Herr in E as (r' & [= _ ->]). done.
Qed.
Lemma idewait_loaded d V bs : drive d V (Loaded bs) -> exists d', idewait patience true d = Ret 0 d' /\ drive d' V (Loaded bs).
Proof.
  intros Hd. destruct (status_ok d V _ Hd ltac:(right; eauto)) as (n & v & d' & Hn & Hs & Hd' & Herr). exists d'. split; [|done]. unfold idewait. rewrite (bind_Ret _ _ _ _ _ (poll_settles _ _ _ _ _ Hs Hn)).
  destruct (Z.eqb_spec (Z.land v (Z.lor IDE_DF IDE_ERR)) 0) as [E|E]; [done|]. by apply Herr in E as (r & ?).
Qed.

(** *** Starting a request *)
Definition unit_no (x : buf) : Z := Z.land (dev x) 1.
Definition is_write (x : buf) : bool := negb (Z.land (flags x) B_DIRTY =? 0).
Definition buf_wf (x : buf) : Prop := length (data x) = BSIZE /\ 0 <= blockno x.
(** The phase of the drive that works on the request of [x]. *)
Definition working (x : buf) : phase := if is_write x then Writing (unit_no x) (blockno x) (data x) else Reading (unit_no x) (blockno x).
Definition set_hw (d : D) (s : ide D) : ide D := MkIde (idelock s) (idequeue s) (havedisk1 s) (bufs s) (qnext s) d.

Lemma on_hw_bind {A B} (m : M D A) (k : A -> M (ide D) B) s a d : m (hw s) = Ret a d -> bind (on_hw m) k s = k a (set_hw d s).
Proof. intros E. unfold bind, on_hw, zoom. by rewrite E. Qed.
Lemma land_255 z : Z.land z 255 = z mod 256.
Proof. change 255 with (Z.ones 8). by rewrite Z.land_ones by lia. Qed.
Lemma unit_bit x : unit_no x = 0 \/ unit_no x = 1.
Proof.
  assert (E : unit_no x = dev x mod 2 ^ 1) by (rewrite <- Z.land_ones by lia; done). rewrite E. pose proof (Z.mod_pos_bound (dev x) (2 ^ 1) ltac:(done)). change (2 ^ 1) with 2 in *. lia.
Qed.

Lemma command_ok d V r0 e x (cmd : M D unit) (ph : Z -> Z -> phase) :
  drive d V (Idle r0 e) -> 0 <= blockno x < FSSIZE ->
  (forall d r, drive d V (Idle r e) -> r_count r = 1 -> Z.land (r_head r) 224 = 224 -> exists d', cmd d = Ret tt d' /\ drive d' V (ph (unit_of r) (lba r))) ->
  exists d', (idewait patience false ;;; outb 1014 0 ;;; outb 498 sector_per_block ;;; outb 499 (Z.land (blockno x * sector_per_block) 255) ;;;
    outb 500 (Z.land (Z.shiftr (blockno x * sector_per_block) 8) 255) ;;; outb 501 (Z.land (Z.shiftr (blockno x * sector_per_block) 16) 255) ;;;
    outb 502 (Z.lor (Z.lor 224 (Z.shiftl (Z.land (dev x) 1) 4)) (Z.land (Z.shiftr (blockno x * sector_per_block) 24) 15)) ;;; cmd) d = Ret tt d' /\
    drive d' V (ph (unit_no x) (blockno x)).
Proof.
  intros Hd Hb Hcmd. unfold FSSIZE in Hb. assert (sector_per_block = 1) as -> by done. rewrite Z.mul_1_r. rewrite !land_255, !Z.shiftr_div_pow2 by lia. change (2 ^ 8) with 256. change (2 ^ 16) with 65536.
  assert (blockno x / 2 ^ 24 = 0) as -> by (apply Z.div_small; lia). assert (blockno x / 65536 = 0) as -> by (apply Z.div_small; lia). change (Z.land 0 15) with 0. change (0 mod 256) with 0. rewrite Z.lor_0_r.
  fold (unit_no x). set (h := Z.lor 224 (Z.shiftl (unit_no x) 4)). pose proof (Z.mod_pos_bound (blockno x) 256 ltac:(lia)) as Hm0. pose proof (Z.mod_pos_bound (blockno x / 256) 256 ltac:(lia)) as Hm1.
  assert (Hh : h = 224 + 16 * unit_no x) by (unfold h; by destruct (unit_bit x) as [-> | ->]).
  destruct (idewait_idle d V r0 e false Hd) as (d0 & E0 & H0). rewrite (bind_Ret _ _ _ _ _ E0). destruct (control_ok d0 V r0 e H0) as (d1 & E1 & H1). rewrite (bind_Ret _ _ _ _ _ E1).
  destruct (reg_ok d1 V _ e 498 1 H1 ltac:(lia) ltac:(lia)) as (d2 & E2 & H2). rewrite (bind_Ret _ _ _ _ _ E2).
  destruct (reg_ok d2 V _ e 499 (blockno x mod 256) H2 ltac:(lia) ltac:(lia)) as (d3 & E3 & H3). rewrite (bind_Ret _ _ _ _ _ E3).
  destruct (reg_ok d3 V _ e 500 (blockno x / 256 mod 256) H3 ltac:(lia) ltac:(lia)) as (d4 & E4 & H4). rewrite (bind_Ret _ _ _ _ _ E4).
  destruct (reg_ok d4 V _ e 501 0 H4 ltac:(lia) ltac:(lia)) as (d5 & E5 & H5). rewrite (bind_Ret _ _ _ _ _ E5).
  destruct (reg_ok d5 V _ e 502 h H5 ltac:(lia) ltac:(destruct (unit_bit x); lia)) as (d6 & E6 & H6). rewrite (bind_Ret _ _ _ _ _ E6).
  destruct (Hcmd d6 _ H6) as (d7 & E7 & H7); [done|cbn; rewrite Hh; by destruct (unit_bit x) as [-> | ->]|]. exists d7. split; [done|].
  assert (Hu : unit_of (set_reg 502 h (set_reg 501 0 (set_reg 500 (blockno x / 256 mod 256) (set_reg 499 (blockno x mod 256) (set_reg 498 1 r0))))) = unit_no x).
  { unfold unit_of. cbn. rewrite Hh. by destruct (unit_bit x) as [-> | ->]. }
  rewrite Hu in H7. replace (blockno x) with (lba (set_reg 502 h (set_reg 501 0 (set_reg 500 (blockno x / 256 mod 256) (set_reg 499 (blockno x mod 256) (set_reg 498 1 r0)))))); [exact H7|].
  unfold lba. cbn. assert (Z.land h 15 = 0) as -> by (rewrite Hh; by destruct (unit_bit x) as [-> | ->]). rewrite (Z.mod_small (blockno x / 256)) by (split; [apply Z.div_pos; lia|apply Z.div_lt_upper_bound; lia]). pose proof (Z.div_mod (blockno x) 256). lia.
Qed.
Lemma idestart_ok s V r e i x : drive (hw s) V (Idle r e) -> bufs s !! i = Some x -> buf_wf x -> blockno x < FSSIZE ->
  exists d, idestart patience (Some i) s = Ret tt (set_hw d s) /\ drive d V (working x).
Proof.
  intros Hd Hx [Hl Hb] Hlt. unfold idestart. rewrite bind_reads. rewrite (list_lookup_total_correct _ _ _ Hx). destruct (Z.leb_spec FSSIZE (blockno x)); [lia|]. cbv zeta. change (7 <? sector_per_block) with false. cbv iota.
  unfold working, is_write. destruct (negb (Z.land (flags x) B_DIRTY =? 0)).
  - destruct (command_ok (hw s) V r e x (outb 503 write_cmd ;;; outsl 496 (data x)) (fun u b => Writing u b (data x)) Hd ltac:(lia)) as (d & E & Hd').
    { intros d r' Hd' Hc Hh. destruct (write_ok d V r' e Hd' Hc Hh) as (d1 & E1 & H1). destruct (data_ok d1 V _ _ (data x) H1 Hl) as (d2 & E2 & H2). exists d2. split; [|done]. change write_cmd with IDE_CMD_WRITE. by rewrite (bind_Ret _ _ _ _ _ E1). }
    exists d. split; [|done]. unfold on_hw, zoom. by rewrite E.
  - destruct (command_ok (hw s) V r e x (outb 503 read_cmd) Reading Hd ltac:(lia)) as (d & E & Hd').
    { intros d r' Hd' Hc Hh. by apply (read_ok d V r' e). }
    exists d. split; [|done]. unfold on_hw, zoom. by rewrite E.
Qed.

(** *** The queue *)
(** From [q] the links lead through [l] to the end. *)
Fixpoint chain (nx : list (option nat)) (q : option nat) (l : list nat) : Prop :=
  match l with
  | [] => q = None
  | x :: l => q = Some x /\ chain nx (nx !!! x) l
  end.
Lemma queue_ext nx nx' q l : (forall x, x ∈ l -> nx' !!! x = nx !!! x) -> chain nx q l -> chain nx' q l.
Proof. revert q. induction l as [|x l IH]; intros q Hx; cbn [chain]; [done|]. intros [-> Hc]. split; [done|]. rewrite Hx by left. apply IH; [|done]. intros y Hy. apply Hx. by right. Qed.
Definition set_links (nx : list (option nat)) (s : ide D) : ide D := MkIde (idelock s) (idequeue s) (havedisk1 s) (bufs s) nx (hw s).
Lemma append_ok i l : forall p fuel s, chain (qnext s) (Some p) l -> NoDup l -> (forall x, x ∈ l -> (x < length (qnext s))%nat) -> i ∉ l -> qnext s !!! i = None -> (length l <= fuel)%nat ->
  exists nx, append_loop fuel p i s = Ret tt (set_links nx s) /\ chain nx (Some p) (l ++ [i]) /\ length nx = length (qnext s) /\ forall z, z ∉ l -> nx !!! z = qnext s !!! z.
Proof.
  induction l as [|x l IH]; intros p fuel s Hc Hnd Hlt Hi Hni Hf; [done|]. destruct Hc as [[= <-] Hc]. apply NoDup_cons in Hnd as [Hx Hnd]. destruct fuel as [|fuel]; [cbn in Hf; lia|]. cbn [append_loop]. rewrite bind_reads.
  assert (Hpi : p <> i) by (intros ->; apply Hi; left). destruct l as [|y l].
  - cbn in Hc. rewrite Hc. exists (<[p := Some i]> (qnext s)). split; [done|]. rewrite length_insert. split_and!; [|done|intros z Hz; apply list_lookup_total_insert_ne; intros ->; apply Hz; left].
    cbn [app chain]. rewrite list_lookup_total_insert_eq by (apply Hlt; left). split_and!; [done..|]. by rewrite list_lookup_total_insert_ne.
  - destruct Hc as [Hy Hc]. rewrite Hy. destruct (IH y fuel s) as (nx & E & Hch & Hlen & Hoth); [done|done|intros z Hz; apply Hlt; by right|intros Hz; apply Hi; by right|done|cbn in *; lia|].
    exists nx. split_and!; [done| |done|intros z Hz; apply Hoth; intros Hz'; apply Hz; by right]. cbn [app chain]. split; [done|]. by rewrite (Hoth p Hx), Hy.
Qed.

(** *** All interleavings *)
(** A request, as it was made. *)
Record req := MkReq { rq_buf : nat; rq_write : bool; rq_unit : Z; rq_blk : Z; rq_data : list Z }.
Definition req_of (s : ide D) (i : nat) : req := let x := bufs s !!! i in MkReq i (is_write x) (unit_no x) (blockno x) (data x).
(** A request that is done: whether the drive reported success, and the data in the buffer. *)
Definition outcome : Type := req * bool * list Z.
Definition after1 V (o : outcome) : Z -> Z -> list Z :=
  let '(r, ok, _) := o in if rq_write r && ok then <[rq_unit r := <[rq_blk r := rq_data r]> (V (rq_unit r))]> V else V.
Definition after V (l : list outcome) : Z -> Z -> list Z := fold_left after1 l V.
Definition put_buf (i : nat) (y : buf) (s : ide D) : ide D := MkIde (idelock s) (idequeue s) (havedisk1 s) (<[i := y]> (bufs s)) (qnext s) (hw s).

Record sys := MkSys { st : ide D; todo : list req; fin : list outcome }.
Inductive step : sys -> sys -> Prop :=
  (** A process calls [iderw] for a buffer that has no request yet, and sleeps. *)
  | s_call S me i s' : i ∉ rq_buf <$> todo S -> (i < length (bufs (st S)))%nat -> iderw patience me i (st S) = Sleep (ide_chan i) s' ->
      step S (MkSys s' (todo S ++ [req_of (st S) i]) (fin S))
  (** The drive finishes its command and interrupts. *)
  | s_intr S r rest ok d s' : todo S = r :: rest -> completes (hw (st S)) ok d -> ideintr patience (set_hw d (st S)) = Ret tt s' ->
      step S (MkSys s' rest (fin S ++ [(r, ok, data (bufs s' !!! rq_buf r))]))
  (** An interrupt without a command. *)
  | s_stray S s' : todo S = [] -> ideintr patience (st S) = Ret tt s' -> step S (MkSys s' (todo S) (fin S))
  (** A sleeping process looks again: it sleeps on, or its call returns. *)
  | s_sleep S i s' : iderw_again i (st S) = Sleep (ide_chan i) s' -> step S (MkSys s' (todo S) (fin S))
  | s_return S i s' : iderw_again i (st S) = Ret tt s' -> step S (MkSys s' (todo S) (fin S))
  (** The holder of a buffer without a request changes it. *)
  | s_client S i y : i ∉ rq_buf <$> todo S -> buf_wf y -> step S (MkSys (put_buf i y (st S)) (todo S) (fin S)).

(** The buffer of a request that is not done. *)
Record waiting (x : buf) (r : req) : Prop := MkWaiting {
  wt_write : is_write x = rq_write r; wt_unit : unit_no x = rq_unit r; wt_blk : blockno x = rq_blk r; wt_data : data x = rq_data r;
  wt_open : Z.land (flags x) (Z.lor B_VALID B_DIRTY) <> B_VALID
}.
Definition busy (todo : list req) (p : phase) : Prop :=
  match todo with
  | [] => exists r e, p = Idle r e
  | q :: _ => p = if rq_write q then Writing (rq_unit q) (rq_blk q) (rq_data q) else Reading (rq_unit q) (rq_blk q)
  end.
Record inv V0 (S : sys) : Prop := MkInv {
  in_lock : idelock (st S) = false;
  in_wf i x : bufs (st S) !! i = Some x -> buf_wf x;
  in_links : length (qnext (st S)) = length (bufs (st S));
  in_chain : chain (qnext (st S)) (idequeue (st S)) (rq_buf <$> todo S);
  in_nodup : NoDup (rq_buf <$> todo S);
  in_wait r : r ∈ todo S -> exists x, bufs (st S) !! rq_buf r = Some x /\ waiting x r;
  in_drive : exists p, drive (hw (st S)) (after V0 (fin S)) p /\ busy (todo S) p;
  in_len u b : length (after V0 (fin S) u b) = BSIZE;
  in_reads l1 r bs l2 : fin S = l1 ++ (r, true, bs) :: l2 -> rq_write r = false -> bs = after V0 l1 (rq_unit r) (rq_blk r);
  in_writes r ok bs : (r, ok, bs) ∈ fin S -> rq_write r || negb ok = true -> bs = rq_data r
}.

Lemma working_req x r : waiting x r -> working x = if rq_write r then Writing (rq_unit r) (rq_blk r) (rq_data r) else Reading (rq_unit r) (rq_blk r).
Proof. intros [E1 E2 E3 E4 _]. unfold working. by rewrite E1, E2, E3, E4. Qed.
Lemma after_app V l o : after V (l ++ [o]) = after1 (after V l) o.
Proof. unfold after. by rewrite fold_left_app. Qed.

Lemma small_nodup (l : list nat) n : NoDup l -> (forall x, x ∈ l -> (x < n)%nat) -> (length l <= n)%nat.
Proof.
  intros Hnd Hl. replace n with (length (seq 0 n)) by apply length_seq. apply submseteq_length, NoDup_submseteq; [done|]. intros x Hx. apply elem_of_seq. specialize (Hl x Hx). lia.
Qed.

(** *** A call *)
Lemma held_run s i x me : bufs s !! i = Some x -> lk (lock x) = false -> on_buflock i (holdingsleep me) s = Ret (negb (locked (lock x) =? 0) && (pid (lock x) =? me)) s.
Proof.
  intros Hx Hl. unfold on_buflock, zoom. rewrite (list_lookup_total_correct _ _ _ Hx), holdingsleep_run by done. f_equal. destruct s as [l q h bs nx d]. cbn in *. f_equal.
  apply list_eq. intros j. rewrite list_lookup_alter. case_decide; [subst|done]. rewrite Hx. cbn. by destruct x.
Qed.
Lemma held_stuck s i x me : bufs s !! i = Some x -> lk (lock x) = true -> exists m, on_buflock i (holdingsleep me) s = Panic m.
Proof. intros Hx Hl. eexists. unfold on_buflock, zoom, holdingsleep, bind, with_lk, zoom. rewrite (list_lookup_total_correct _ _ _ Hx), Hl. done. Qed.
(** A call that goes to sleep has passed its tests; the rest of it. *)
Definition enter (i : nat) (s : ide D) : ide D := MkIde true (idequeue s) (havedisk1 s) (bufs s) (<[i := None]> (qnext s)) (hw s).
Lemma iderw_enters me i s ch s' x : bufs s !! i = Some x -> iderw patience me i s = Sleep ch s' -> idelock s = false /\ Z.land (flags x) (Z.lor B_VALID B_DIRTY) <> B_VALID /\
  (match idequeue s with None => modify (set_queue (Some i)) | Some p => t <- reads id ;; append_loop (length (bufs t)) p i end ;;;
   q <- reads idequeue ;; when (bool_decide (q = Some i)) (idestart patience (Some i)) ;;; iderw_wait i) (enter i s) = Sleep ch s'.
Proof.
  intros Hx. unfold iderw. destruct (lk (lock x)) eqn:El; [destruct (held_stuck s i x me Hx El) as [m E]; by rewrite (bind_Panic _ _ _ _ E)|].
  rewrite (bind_Ret _ _ _ _ _ (held_run s i x me Hx El)). destruct (negb _); [done|]. rewrite bind_reads, (list_lookup_total_correct _ _ _ Hx).
  destruct (Z.eqb_spec (Z.land (flags x) (Z.lor B_VALID B_DIRTY)) B_VALID) as [|Hf]; [done|]. rewrite bind_reads. destruct (_ && _); [done|].
  destruct s as [l q h bs nx d]. destruct l; [done|]. done.
Qed.
Lemma wait_sleeps i s x : bufs s !! i = Some x -> idelock s = true -> Z.land (flags x) (Z.lor B_VALID B_DIRTY) <> B_VALID ->
  iderw_wait i s = Sleep (ide_chan i) (MkIde false (idequeue s) (havedisk1 s) (bufs s) (qnext s) (hw s)).
Proof.
  intros Hx Hl Hf. unfold iderw_wait. rewrite bind_reads, (list_lookup_total_correct _ _ _ Hx), (proj2 (Z.eqb_neq _ _) Hf). unfold bind, on_idelock, zoom. by rewrite Hl.
Qed.
Lemma idestart_range s i x : bufs s !! i = Some x -> FSSIZE <= blockno x -> idestart patience (Some i) s = Panic "incorrect blockno".
Proof. intros Hx Hb. unfold idestart. rewrite bind_reads, (list_lookup_total_correct _ _ _ Hx). by destruct (Z.leb_spec FSSIZE (blockno x)); [|lia]. Qed.

Lemma waiting_now s i x : bufs s !! i = Some x -> Z.land (flags x) (Z.lor B_VALID B_DIRTY) <> B_VALID -> waiting x (req_of s i).
Proof. intros Hx Hf. unfold req_of. rewrite (list_lookup_total_correct _ _ _ Hx). by split. Qed.
Lemma call_inv V0 S me i s' : inv V0 S -> i ∉ rq_buf <$> todo S -> (i < length (bufs (st S)))%nat -> iderw patience me i (st S) = Sleep (ide_chan i) s' ->
  inv V0 (MkSys s' (todo S ++ [req_of (st S) i]) (fin S)).
Proof.
  intros [Hlk Hwf Hln Hch Hnd Hw (p & Hd & Hbusy) Hlen Hrd Hwr] Hi Hlt E. destruct (lookup_lt_is_Some_2 _ _ Hlt) as [x Hx]. set (s := st S) in *.
  destruct (iderw_enters me i s _ s' x Hx E) as (_ & Hf & E'). clear E. set (s1 := enter i s) in *. assert (Hx1 : bufs s1 !! i = Some x) by done. pose proof (waiting_now s i x Hx Hf) as Hwx.
  assert (Hch1 : chain (qnext s1) (idequeue s1) (rq_buf <$> todo S)) by (apply (queue_ext (qnext s)); [|done]; intros y Hy; apply list_lookup_total_insert_ne; by intros ->).
  assert (Hn1 : qnext s1 !!! i = None) by (apply list_lookup_total_insert_eq; lia). assert (Hl1 : length (qnext s1) = length (bufs s)) by (cbn; by rewrite length_insert).
  assert (Hnd' : NoDup (rq_buf <$> todo S ++ [req_of s i])) by (rewrite fmap_app; apply NoDup_app; split_and!; [done|intros y Hy ->%list_elem_of_singleton; done|apply NoDup_singleton]).
  assert (Hw' : forall r, r ∈ todo S ++ [req_of s i] -> exists y, bufs s !! rq_buf r = Some y /\ waiting y r).
  { intros r [Hr| ->%list_elem_of_singleton]%elem_of_app; [by apply Hw|]. by exists x. }
  destruct (todo S) as [|r0 rest] eqn:Et.
  - cbn in Hch1. change (idequeue s1) with (idequeue s) in Hch1. rewrite Hch1 in E'. rewrite bind_modify, bind_reads in E'. set (s2 := set_queue (Some i) s1) in *.
    change (idequeue s2) with (Some i) in E'. rewrite bool_decide_eq_true_2 in E' by done. cbn [when] in E'. destruct Hbusy as (r & e & ->).
    destruct (decide (FSSIZE <= blockno x)) as [Hbad|Hok]; [by rewrite (bind_Panic _ _ _ _ (idestart_range s2 i x Hx1 Hbad)) in E'|].
    destruct (idestart_ok s2 (after V0 (fin S)) r e i x Hd Hx1 (Hwf i x Hx) ltac:(lia)) as (d & Es & Hd'). rewrite (bind_Ret _ _ _ _ _ Es) in E'.
    rewrite (wait_sleeps i (set_hw d s2) x Hx1 eq_refl Hf) in E'. injection E' as <-. split; cbn [st todo fin idelock bufs qnext idequeue hw]; try done.
    exists (working x). split; [done|]. cbn [app busy]. by rewrite (working_req x _ Hwx).
  - assert (Hcl : chain (qnext s1) (Some (rq_buf r0)) (rq_buf <$> r0 :: rest)) by (cbn in Hch1 |- *; tauto). destruct Hch1 as [Hq _]. change (idequeue s1) with (idequeue s) in Hq. rewrite Hq in E'.
    assert (Hin : forall y, y ∈ rq_buf <$> r0 :: rest -> (y < length (bufs s))%nat).
    { intros y (r & -> & Hr)%list_elem_of_fmap. destruct (Hw r Hr) as (z & Hz & _). by eapply lookup_lt_Some. }
    destruct (append_ok i (rq_buf <$> r0 :: rest) (rq_buf r0) (length (bufs s1)) s1) as (nx & Ea & Hca & Hla & _); try done; [intros y Hy; rewrite Hl1; by apply Hin|by apply small_nodup|].
    assert (Ea' : (t <- reads id ;; append_loop (length (bufs t)) (rq_buf r0) i) s1 = Ret tt (set_links nx s1)) by done. rewrite (bind_Ret _ _ _ _ _ Ea'), bind_reads in E'.
    change (idequeue (set_links nx s1)) with (idequeue s) in E'. rewrite Hq in E'. rewrite bool_decide_eq_false_2 in E' by (intros [= E]; apply Hi; rewrite <- E; left).
    cbn [when] in E'. rewrite (bind_Ret _ _ _ _ _ eq_refl) in E'. rewrite (wait_sleeps i (set_links nx s1) x Hx1 eq_refl Hf) in E'. injection E' as <-.
    split; cbn [st todo fin idelock bufs qnext idequeue hw set_links]; try done; [by rewrite Hla| |by exists p].
    change (idequeue s1) with (idequeue s). rewrite Hq, fmap_app. exact Hca.
Qed.

(** *** An interrupt *)
Definition finished (x : buf) (bs : list Z) : buf := set_flags (Z.land (Z.lor (flags x) B_VALID) (Z.lnot B_DIRTY)) (set_data bs x).
(** The data that end up in the buffer: those of the drive, unless there was an error. *)
Definition result V (x : buf) (ok : bool) : list Z := if negb (is_write x) && ok then V (unit_no x) (blockno x) else data x.
Lemma alter_at i f (l : list buf) x : l !! i = Some x -> alter f i l = <[i := f x]> l.
Proof.
  intros Hx. apply list_eq. intros j. destruct (decide (i = j)) as [<-|Hne].
  - rewrite list_lookup_alter, decide_True, Hx by done. symmetry. apply list_lookup_insert_eq. by eapply lookup_lt_Some.
  - by rewrite list_lookup_alter_ne, list_lookup_insert_ne.
Qed.
Lemma data_same x : set_data (data x) x = x.
Proof. by destruct x. Qed.
(** The handler up to the start of the next request. *)
Lemma ideintr_head s V i x ok d : idelock s = false -> idequeue s = Some i -> bufs s !! i = Some x -> drive (hw s) V (working x) -> completes (hw s) ok d ->
  exists d' r e, let s1 := MkIde true (qnext s !!! i) (havedisk1 s) (<[i := finished x (result V x ok)]> (bufs s)) (qnext s) d' in
    ideintr patience (set_hw d s) = (when (negb (bool_decide (qnext s !!! i = None))) (idestart patience (qnext s !!! i)) ;;; on_idelock Klock.release) s1 /\
    drive d' (after1 V (MkReq i (is_write x) (unit_no x) (blockno x) (data x), ok, result V x ok)) (Idle r e).
Proof.
  intros Hl Hq Hx Hd Hc. set (s0 := MkIde true (qnext s !!! i) (havedisk1 s) (bufs s) (qnext s) d).
  (* reading the data *)
  assert (Hread : exists d' r e, (if Z.land (flags x) B_DIRTY =? 0 then r <- on_hw (idewait patience true) ;; if 0 <=? r then bs <- on_hw (insl 496 (Z.to_nat (Z.of_nat BSIZE / 4))) ;; upd i (set_data bs) else ret tt else ret tt) s0
    = Ret tt (MkIde true (qnext s !!! i) (havedisk1 s) (<[i := set_data (result V x ok) x]> (bufs s)) (qnext s) d') /\
    drive d' (after1 V (MkReq i (is_write x) (unit_no x) (blockno x) (data x), ok, result V x ok)) (Idle r e)).
  { unfold result, after1, working in *. cbn [rq_write rq_unit rq_blk rq_data]. unfold is_write in *. destruct (Z.eqb_spec (Z.land (flags x) B_DIRTY) 0) as [E|E]; cbn [negb andb] in *.
    - pose proof (read_done _ _ _ _ _ _ Hd Hc) as Hdn. destruct ok.
      + destruct (idewait_loaded d V _ Hdn) as (d1 & E1 & H1). destruct (loaded_ok d1 V _ H1) as (d2 & r & E2 & H2). exists d2, r, false. split; [|done].
        rewrite (on_hw_bind _ _ s0 _ _ E1). change (0 <=? 0) with true. cbv iota. change (Z.to_nat (Z.of_nat BSIZE / 4)) with 128%nat. rewrite (on_hw_bind _ _ (set_hw d1 s0) _ _ E2). unfold upd, modify. cbn [bufs set_hw s0]. by rewrite (alter_at _ _ _ _ Hx).
      + destruct Hdn as (r & Hdn). destruct (idewait_idle d V r true true Hdn) as (d1 & E1 & H1). exists d1, r, true. split; [|done].
        rewrite (on_hw_bind _ _ s0 _ _ E1). change (0 <=? (if true && true then -1 else 0)) with false. cbv iota. unfold ret, set_hw. cbn. rewrite data_same. by rewrite list_insert_id.
    - destruct (write_done _ _ _ _ _ _ _ Hd Hc) as (r & Hdn). exists d, r, (negb ok). split; [|done]. unfold ret. rewrite data_same. unfold s0. by rewrite list_insert_id. }
  destruct Hread as (d' & r & e & E & Hd'). exists d', r, e. split; [|done]. unfold ideintr. rewrite (bind_Ret (on_idelock Klock.acquire) _ _ tt (MkIde true (idequeue s) (havedisk1 s) (bufs s) (qnext s) d)) by (unfold on_idelock, zoom; cbn; by rewrite Hl).
  rewrite bind_reads. cbn [idequeue]. rewrite Hq. rewrite bind_reads, bind_modify, bind_reads. cbn [qnext bufs set_queue]. rewrite (list_lookup_total_correct _ _ _ Hx). fold s0 in E.
  change (set_queue (qnext s !!! i) _) with s0. rewrite (bind_Ret _ _ _ _ _ E). unfold upd at 1 2. rewrite !bind_modify, bind_reads. cbn [bufs idequeue idelock havedisk1 qnext hw].
  pose proof (lookup_lt_Some _ _ _ Hx) as Hlt. assert (Hat : forall y, <[i := y]> (bufs s) !! i = Some y) by (intros y; by apply list_lookup_insert_eq).
  rewrite (alter_at i _ (<[i := set_data (result V x ok) x]> (bufs s)) _ (Hat _)), list_insert_insert_eq. rewrite (alter_at i _ _ _ (Hat _)), list_insert_insert_eq. done.
Qed.

Lemma last_outcome (l1 l2 l : list outcome) o o' : l ++ [o] = l1 ++ o' :: l2 -> l = l1 /\ o' = o \/ exists l3, l = l1 ++ o' :: l3.
Proof.
  destruct l2 as [|z l2 _] using rev_ind; intros E.
  - apply app_inj_tail in E as [-> ->]. by left.
  - rewrite app_comm_cons, app_assoc in E. apply app_inj_tail in E as [-> _]. right. by exists l2.
Qed.
Lemma after1_len V o : (forall u b, length (V u b) = BSIZE) -> length (rq_data (fst (fst o))) = BSIZE -> forall u b, length (after1 V o u b) = BSIZE.
Proof.
  destruct o as [[r ok] bs]. cbn. intros HV Hr u b. case_match; [|done]. destruct (decide (u = rq_unit r)) as [->|]; [|by rewrite fn_lookup_insert_ne]. rewrite fn_lookup_insert.
  destruct (decide (b = rq_blk r)) as [->|]; [by rewrite fn_lookup_insert|by rewrite fn_lookup_insert_ne].
Qed.
Lemma req_eq x r : waiting x r -> MkReq (rq_buf r) (is_write x) (unit_no x) (blockno x) (data x) = r.
Proof. intros [-> -> -> -> _]. by destruct r. Qed.
Lemma release_run s : idelock s = true -> on_idelock Klock.release s = Ret tt (MkIde false (idequeue s) (havedisk1 s) (bufs s) (qnext s) (hw s)).
Proof. intros Hl. unfold on_idelock, zoom. by rewrite Hl. Qed.

(** What is true after the handler, if the next request can be started. *)
Lemma intr_ok V0 S r rest ok d : inv V0 S -> todo S = r :: rest -> completes (hw (st S)) ok d ->
  (forall r1, head rest = Some r1 -> rq_blk r1 < FSSIZE) ->
  exists s', ideintr patience (set_hw d (st S)) = Ret tt s' /\ inv V0 (MkSys s' rest (fin S ++ [(r, ok, data (bufs s' !!! rq_buf r))])) /\
    exists x', bufs s' !! rq_buf r = Some x' /\ Z.land (flags x') (Z.lor B_VALID B_DIRTY) = B_VALID.
Proof.
  intros [Hlk Hwf Hln Hch Hnd Hw (p & Hd & Hbusy) Hlen Hrd Hwr] Et Hc Hnext. rewrite Et in *. set (s := st S) in *. set (V := after V0 (fin S)) in *.
  destruct (Hw r ltac:(left)) as (x & Hx & Hwx). cbn [busy] in Hbusy. subst p. rewrite <- (working_req x r Hwx) in Hd. destruct Hch as [Hq Hch]. set (i := rq_buf r) in *.
  destruct (ideintr_head s V i x ok d Hlk Hq Hx Hd Hc) as (d' & r' & e & E & Hd'). pose proof (req_eq x r Hwx) as Er. fold i in Er. rewrite Er in Hd'. set (x' := finished x (result V x ok)) in *. set (s1 := MkIde true _ _ _ _ d') in *.
  pose proof (lookup_lt_Some _ _ _ Hx) as Hlt. apply NoDup_cons in Hnd as [Hni Hnd].
  assert (Hx' : <[i := x']> (bufs s) !! i = Some x') by (by apply list_lookup_insert_eq).
  assert (Hdata : length (data x) = BSIZE) by (by apply (Hwf i)). assert (Hres : length (result V x ok) = BSIZE) by (unfold result; case_match; [apply Hlen|done]).
  assert (Hw' : forall r1, r1 ∈ rest -> exists y, <[i := x']> (bufs s) !! rq_buf r1 = Some y /\ waiting y r1).
  { intros r1 Hr1. destruct (Hw r1 ltac:(by right)) as (y & Hy & Hwy). exists y. split; [|done]. rewrite list_lookup_insert_ne; [done|]. intros Ei. apply Hni. unfold i in Ei. rewrite Ei. by apply list_elem_of_fmap_2. }
  (* the invariant, whatever the drive does next *)
  assert (Hinv : forall dd ph, drive dd (after1 V (r, ok, result V x ok)) ph -> busy rest ph ->
    inv V0 (MkSys (MkIde false (qnext s !!! i) (havedisk1 s) (<[i := x']> (bufs s)) (qnext s) dd) rest (fin S ++ [(r, ok, result V x ok)]))).
  { intros dd ph Hdd Hph. split; cbn [st todo fin idelock bufs qnext idequeue hw]; try done.
    - intros j y Hj. destruct (decide (j = i)) as [->|Hne]; [|rewrite list_lookup_insert_ne in Hj by done; by eapply Hwf]. rewrite Hx' in Hj. injection Hj as <-. destruct (Hwf i x Hx). by split.
    - by rewrite length_insert.
    - exists ph. by rewrite after_app.
    - rewrite after_app. intros u b. apply after1_len; [done|]. cbn. destruct Hwx as [_ _ _ <- _]. done.
    - intros l1 r1 bs l2 Hl Hrw. apply last_outcome in Hl as [[<- [= -> <- ->]]|[l3 Hl]]; [|by eapply Hrd]. unfold result. destruct Hwx as [-> -> -> _ _]. by rewrite Hrw.
    - intros r1 ok1 bs [Hin|[= -> -> ->]%list_elem_of_singleton]%elem_of_app Hrw; [by eapply Hwr|]. unfold result. destruct Hwx as [-> _ _ <- _]. by destruct (rq_write r), ok. }
  assert (Hfl : Z.land (flags x') (Z.lor B_VALID B_DIRTY) = B_VALID).
  { apply Z.eqb_eq. rewrite land_valid_dirty. cbn [flags x' finished set_flags]. change B_VALID with (2 ^ 1). change B_DIRTY with (2 ^ 2). rewrite !Z.land_spec, Z.lnot_spec, !testbit_lor_pow2, !testbit_pow2 by lia. cbn. by rewrite ?andb_false_r. }
  assert (Hend : forall dd ph, drive dd (after1 V (r, ok, result V x ok)) ph -> busy rest ph ->
    when (negb (bool_decide (qnext s !!! i = None))) (idestart patience (qnext s !!! i)) s1 = Ret tt (set_hw dd s1) ->
    exists s', ideintr patience (set_hw d s) = Ret tt s' /\ inv V0 (MkSys s' rest (fin S ++ [(r, ok, data (bufs s' !!! i))])) /\
      exists x', bufs s' !! i = Some x' /\ Z.land (flags x') (Z.lor B_VALID B_DIRTY) = B_VALID).
  { intros dd ph Hdd Hph Es. eexists. split; [rewrite E, (bind_Ret _ _ _ _ _ Es); by apply release_run|]. cbn [bufs set_hw s1]. rewrite (list_lookup_total_correct _ _ _ Hx'). split; [by apply (Hinv dd ph)|by exists x']. }
  destruct rest as [|r1 rest].
  - cbn in Hch. apply (Hend d' (Idle r' e)); [done|by eexists _, _|]. by rewrite Hch.
  - destruct Hch as [Hn Hch]. destruct (Hw' r1 ltac:(left)) as (y & Hy & Hwy). destruct (idestart_ok s1 _ r' e (rq_buf r1) y Hd' Hy) as (dd & Es & Hdd).
    + destruct (Hw r1 ltac:(right; left)) as (y0 & Hy0 & _). apply (Hwf (rq_buf r1)). rewrite list_lookup_insert_ne in Hy; [done|]. intros Ei. apply Hni. unfold i in Ei. rewrite Ei. left.
    + destruct Hwy as [_ _ -> _ _]. by apply Hnext.
    + apply (Hend dd (working y)); [done|cbn [busy]; by apply working_req|]. rewrite Hn. rewrite bool_decide_eq_false_2 by done. exact Es.
Qed.
(** A block number out of range is found when its turn comes. *)
Lemma intr_range V0 S r rest ok d s' r1 : inv V0 S -> todo S = r :: rest -> completes (hw (st S)) ok d -> ideintr patience (set_hw d (st S)) = Ret tt s' ->
  head rest = Some r1 -> rq_blk r1 < FSSIZE.
Proof.
  intros [Hlk Hwf Hln Hch Hnd Hw (p & Hd & Hbusy) Hlen Hrd Hwr] Et Hc E Hr1. destruct rest as [|r1' rest]; [done|]. cbn in Hr1. injection Hr1 as ->. rewrite Et in *. set (s := st S) in *.
  destruct (Hw r ltac:(left)) as (x & Hx & Hwx). cbn [busy] in Hbusy. subst p. rewrite <- (working_req x r Hwx) in Hd. destruct Hch as (Hq & Hn & _).
  destruct (ideintr_head s _ (rq_buf r) x ok d Hlk Hq Hx Hd Hc) as (d' & r' & e & E' & _). rewrite E, Hn in E'. rewrite bool_decide_eq_false_2 in E' by done. cbn [negb when] in E'.
  destruct (Hw r1 ltac:(right; left)) as (y & Hy & Hwy). destruct (decide (rq_blk r1 < FSSIZE)) as [|Hge]; [done|]. exfalso.
  rewrite (bind_Panic _ _ _ "incorrect blockno") in E'; [done|]. apply (idestart_range _ _ y); [|destruct Hwy as [_ _ -> _ _]; lia]. cbn [bufs]. rewrite list_lookup_insert_ne; [done|].
  intros Ei. cbn in Hnd. apply NoDup_cons in Hnd as [Hni _]. apply Hni. rewrite Ei. left.
Qed.
Lemma again_run s i x : bufs s !! i = Some x -> idelock s = false ->
  iderw_again i s = if Z.land (flags x) (Z.lor B_VALID B_DIRTY) =? B_VALID then Ret tt s else Sleep (ide_chan i) s.
Proof.
  intros Hx Hl. unfold iderw_again. rewrite (bind_Ret _ _ _ tt (MkIde true (idequeue s) (havedisk1 s) (bufs s) (qnext s) (hw s))) by (unfold on_idelock, zoom; by rewrite Hl).
  unfold iderw_wait. rewrite bind_reads. cbn [bufs]. rewrite (list_lookup_total_correct _ _ _ Hx). destruct s as [l q h bs nx d]. cbn in Hl. subst l. by case_match.
Qed.
Lemma again_state s i o s' : idelock s = false -> iderw_again i s = o -> o = Ret tt s' \/ o = Sleep (ide_chan i) s' -> s' = s.
Proof.
  intros Hl <-. unfold iderw_again. rewrite (bind_Ret _ _ _ tt (MkIde true (idequeue s) (havedisk1 s) (bufs s) (qnext s) (hw s))) by (unfold on_idelock, zoom; by rewrite Hl).
  unfold iderw_wait. rewrite bind_reads. destruct s as [l q h bs nx d]. cbn in Hl. subst l. case_match; cbn; intros [[= <-]|[= <-]] || intros [E|E]; try done; by injection E as <-.
Qed.
Lemma step_inv V0 S S' : inv V0 S -> step S S' -> inv V0 S'.
Proof.
  intros Hi Hs. pose proof (in_lock _ _ Hi) as Hlk. destruct Hs as [S me i s' Hni Hlt E|S r rest ok d s' Et Hc E|S s' Et E|S i s' E|S i s' E|S i y Hni Hy].
  - by eapply call_inv.
  - destruct (intr_ok V0 S r rest ok d Hi Et Hc) as (s2 & E2 & Hi2 & _); [intros r1 Hr1; by eapply intr_range|]. rewrite E in E2. by injection E2 as <-.
  - destruct Hi as [_ Hwf Hln Hch Hnd Hw (p & Hd & Hbusy) Hlen Hrd Hwr]. pose proof Hch as Hq. rewrite Et in Hq. cbn in Hq.
    assert (s' = st S) as -> by (unfold ideintr, bind, on_idelock, zoom, reads in E; destruct (st S) as [l q h bs nx dd]; cbn in *; subst; cbn in E; by injection E as <-). split; try done. by exists p.
  - assert (s' = st S) as -> by (eapply again_state; [done|exact E|by right]). by destruct S.
  - assert (s' = st S) as -> by (eapply again_state; [done|exact E|by left]). by destruct S.
  - destruct Hi as [_ Hwf Hln Hch Hnd Hw Hdr Hlen Hrd Hwr]. split; cbn [st todo fin put_buf idelock bufs qnext idequeue hw]; try done.
    + intros j x Hj. apply list_lookup_insert_Some in Hj as [(-> & <- & _)|[_ Hj]]; [done|by eapply Hwf].
    + by rewrite length_insert.
    + intros r Hr. destruct (Hw r Hr) as (x & Hx & Hwx). exists x. split; [|done]. rewrite list_lookup_insert_ne; [done|]. intros ->. by apply Hni, list_elem_of_fmap_2.
Qed.
(** *** Runs *)
(** The driver at rest. *)
Record boot V0 (S : sys) : Prop := MkBoot {
  bt_lock : idelock (st S) = false; bt_queue : idequeue (st S) = None; bt_links : length (qnext (st S)) = length (bufs (st S));
  bt_bufs : Forall buf_wf (bufs (st S)); bt_todo : todo S = []; bt_fin : fin S = [];
  bt_drive : exists r e, drive (hw (st S)) V0 (Idle r e); bt_len u b : length (V0 u b) = BSIZE
}.
Lemma boot_inv V0 S : boot V0 S -> inv V0 S.
Proof.
  intros [Hl Hq Hn Hb Ht Hf (r & e & Hd) Hlen]. split; rewrite ?Ht, ?Hf; try done.
  - intros i x Hx. by eapply Forall_lookup_1.
  - constructor.
  - intros r' Hr. by apply not_elem_of_nil in Hr.
  - exists (Idle r e). split; [done|]. by exists r, e.
  - intros l1 r' bs l2 E. by destruct l1.
  - intros r' ok bs Hin. by apply not_elem_of_nil in Hin.
Qed.
Lemma run_inv V0 S S' : boot V0 S -> rtc step S S' -> inv V0 S'.
Proof. intros Hb Hr. pose proof (boot_inv _ _ Hb) as Hi. clear Hb. induction Hr as [|S1 S2 S3 Hs _ IH]; [done|]. by apply IH, (step_inv V0 S1). Qed.
Lemma pending_sleeps V0 S r : inv V0 S -> r ∈ todo S -> iderw_again (rq_buf r) (st S) = Sleep (ide_chan (rq_buf r)) (st S).
Proof. intros Hi Hr. destruct (in_wait _ _ Hi r Hr) as (x & Hx & Hwx). rewrite (again_run _ _ x) by (done || apply (in_lock _ _ Hi)). by rewrite (proj2 (Z.eqb_neq _ _) (wt_open _ _ Hwx)). Qed.

(** C30: Whatever processes call [iderw], and however their calls, the interrupts of the drive
    and the wake-ups interleave: [idequeue] is the list of the requests not yet done in the
    order of the calls, the drive works on the first, and the sectors are the initial ones
    after the successful writes done so far, in that order.  A read that succeeded put into
    its buffer the sector as the writes done before it left it; any other request left the
    data of its buffer alone; and a process whose request is not done goes back to sleep. *)
Theorem ide_serves V0 S S' : boot V0 S -> rtc step S S' ->
  chain (qnext (st S')) (idequeue (st S')) (rq_buf <$> todo S') /\
  (exists p, drive (hw (st S')) (after V0 (fin S')) p /\ busy (todo S') p) /\
  (forall l1 r bs l2, fin S' = l1 ++ (r, true, bs) :: l2 -> rq_write r = false -> bs = after V0 l1 (rq_unit r) (rq_blk r)) /\
  (forall r ok bs, (r, ok, bs) ∈ fin S' -> rq_write r || negb ok = true -> bs = rq_data r) /\
  (forall r, r ∈ todo S' -> iderw_again (rq_buf r) (st S') = Sleep (ide_chan (rq_buf r)) (st S')).
Proof.
  intros Hb Hr. pose proof (run_inv V0 S S' Hb Hr) as Hi. split_and!; [apply (in_chain _ _ Hi)|apply (in_drive _ _ Hi)|apply (in_reads _ _ Hi)|apply (in_writes _ _ Hi)|].
  intros r Hr'. by eapply pending_sleeps.
Qed.
(** A read that the drive could not do: the buffer keeps the bytes it had, is marked
    [B_VALID] all the same, and [iderw] returns as if it had been read. *)
Theorem ide_read_error V0 S S' r rest d s' : boot V0 S -> rtc step S S' -> todo S' = r :: rest -> rq_write r = false -> completes (hw (st S')) false d ->
  ideintr patience (set_hw d (st S')) = Ret tt s' ->
  exists x, bufs s' !! rq_buf r = Some x /\ data x = rq_data r /\ Z.land (flags x) (Z.lor B_VALID B_DIRTY) = B_VALID /\ iderw_again (rq_buf r) s' = Ret tt s'.
Proof.
  intros Hb Hr Et Hw Hc E. pose proof (run_inv V0 S S' Hb Hr) as Hi. destruct (intr_ok V0 S' r rest false d Hi Et Hc) as (s2 & E2 & Hi' & x & Hx & Hf); [intros r1 Hr1; by eapply intr_range|].
  rewrite E in E2. injection E2 as <-. exists x. split_and!; [done| |done|].
  - rewrite <- (list_lookup_total_correct _ _ _ Hx). eapply (in_writes _ _ Hi' r false); [cbn [fin]; apply elem_of_app; right; by apply list_elem_of_singleton|by rewrite Hw].
  - by rewrite (again_run s' _ x Hx (in_lock _ _ Hi')), Hf.
Qed.
End spec.
End IdeSpec.

(** ** A drive *)
(** A drive that is busy for two reads of the status after each command. *)
Module IdeDrive.
Import SleepLock Disk Ide IdeSpec.

Record ata := MkAta { a_sec : Z -> Z -> list Z; a_ph : phase; a_busy : nat }.
Definition a_status (p : phase) : Z :=
  match p with
  | Idle _ false => IDE_DRDY
  | Idle _ true => Z.lor IDE_DRDY IDE_ERR
  | Loaded _ | Sending _ _ => Z.lor IDE_DRDY 8
  | _ => IDE_BSY
  end.
Definition a_command (x : Z) (p : phase) : phase :=
  match p with
  | Idle r e =>
      if x =? IDE_CMD_READ then Reading (unit_of r) (lba r)
      else if x =? IDE_CMD_WRITE then Sending (unit_of r) (lba r) else Idle r true
  | p => p
  end.
#[global] Instance ata_device : Device ata := {|
  inb port d := match a_busy d with S n => Ret IDE_BSY (MkAta (a_sec d) (a_ph d) n) | O => Ret (a_status (a_ph d)) d end;
  outb port x d := Ret tt (
    if port =? 1014 then d else if port =? 503 then MkAta (a_sec d) (a_command x (a_ph d)) (a_busy d)
    else match a_ph d with Idle r e => MkAta (a_sec d) (Idle (set_reg port x r) e) (a_busy d) | _ => d end);
  insl port n d := match a_ph d with Loaded bs => Ret bs (MkAta (a_sec d) (Idle (MkRegs 0 0 0 0 0) false) (a_busy d)) | _ => Ret (replicate (4 * n) 0) d end;
  outsl port bs d := Ret tt match a_ph d with Sending u sec => MkAta (a_sec d) (Writing u sec bs) (a_busy d) | _ => d end
|}.
(** The end of a command. *)
Definition a_finish (ok : bool) (d : ata) : ata :=
  match a_ph d with
  | Reading u sec => MkAta (a_sec d) (if ok then Loaded (a_sec d u sec) else Idle (MkRegs 0 0 0 0 0) true) 2
  | Writing u sec bs => MkAta (if ok then <[u := <[sec := bs]> (a_sec d u)]> (a_sec d) else a_sec d) (Idle (MkRegs 0 0 0 0 0) (negb ok)) 2
  | _ => d
  end.
Definition a_drive (d : ata) V (p : phase) : Prop := a_sec d = V /\ a_ph d = p /\ (a_busy d < 3)%nat.

Lemma a_settles V p k : Z.land (a_status p) (Z.lor IDE_BSY IDE_DRDY) = IDE_DRDY -> settles (MkAta V p k) k (a_status p) (MkAta V p 0).
Proof. intros Hp. induction k as [|k IH]; [by apply settles_now|]. by eapply settles_later. Qed.
#[global] Instance ata_spec : DeviceSpec ata.
Proof.
  refine {| patience := 3; drive := a_drive; completes d ok d' := d' = a_finish ok d |}.
  - intros [V p k] V' p' (<- & <- & Hk) Hp. cbn in *. exists k, (a_status p), (MkAta V p 0). split; [done|]. destruct Hp as [(r & [] & ->)|(bs & ->)]; (split; [by apply a_settles|split; [unfold a_drive; cbn; split_and!; lia || done|]]); cbn; split; try done; try (by intros (? & ?)); eauto.
  - intros [V p k] V' r e (<- & E & Hk). cbn in *. subst. eexists. split; [done|]. done.
  - intros [V p k] V' r e port x (<- & E & Hk) Hport Hx. cbn in *. subst. eexists. split; [done|]. destruct (Z.eqb_spec port 1014); [lia|]. destruct (Z.eqb_spec port 503); [lia|]. done.
  - intros [V p k] V' r e (<- & E & Hk) _ _. cbn in *. subst. eexists. split; [done|]. done.
  - intros [V p k] V' r e (<- & E & Hk) _ _. cbn in *. subst. eexists. split; [done|]. done.
  - intros [V p k] V' u sec bs (<- & E & Hk) _. cbn in *. subst. eexists. split; [done|]. done.
  - intros [V p k] V' bs (<- & E & Hk). cbn in *. subst. eexists _, _. split; [done|]. done.
  - intros [V p k] V' u sec ok d' (<- & E & Hk) ->. cbn in *. subst. unfold a_finish. cbn. destruct ok; [|eexists]; (split; [done|split; [done|cbn; lia]]).
  - intros [V p k] V' u sec bs ok d' (<- & E & Hk) ->. cbn in *. subst. unfold a_finish. cbn. eexists. split; [done|split; [done|cbn; lia]].
Defined.

(** A write and a read of the same sector, called one after the other by two processes, and a
    second read that fails. *)
Definition disk0 : Z -> Z -> list Z := fun _ _ => replicate 512 0.
Definition ones : list Z := replicate 512 1.
Definition demo_buf (fl blk : Z) (bs : list Z) (me : Z) : buf := MkBuf fl 1 blk (MkSleep 1 false me) 1 0 0 bs.
Definition demo0 : sys (D := ata) :=
  MkSys (MkIde false None 1 [demo_buf B_DIRTY 5 ones 7; demo_buf 0 5 (disk0 0 0) 8] [None; None] (MkAta disk0 (Idle (MkRegs 0 0 0 0 0) false) 0)) [] [].
Definition run_call (me : Z) (i : nat) (S : sys (D := ata)) : sys :=
  match iderw 3 me i (st S) with Sleep _ s => MkSys s (todo S ++ [req_of (st S) i]) (fin S) | _ => S end.
Definition run_intr (ok : bool) (S : sys (D := ata)) : sys :=
  match todo S with
  | r :: rest => match ideintr 3 (set_hw (a_finish ok (hw (st S))) (st S)) with Ret _ s => MkSys s rest (fin S ++ [(r, ok, data (bufs s !!! rq_buf r))]) | _ => S end
  | [] => S
  end.
Definition demo2 : sys := run_call 8 1 (run_call 7 0 demo0).
Definition demo3 : sys := run_intr true demo2.
Definition demo4 : sys := run_intr true demo3.
Lemma demo_boot : boot disk0 demo0.
Proof. split; try done; [by repeat (apply Forall_cons_2; [split; cbn; lia || done|])|]. eexists _, _. split; [done|]. split; [done|cbn; lia]. Qed.
Definition sleeps_on (i : nat) (o : res (ide ata) unit) : bool := match o with Sleep ch _ => bool_decide (ch = ide_chan i) | _ => false end.
Definition returns (o : res (ide ata) unit) : bool := match o with Ret _ _ => true | _ => false end.
Lemma run_call_step me i S l : rq_buf <$> todo S = l -> i ∉ l -> Nat.ltb i (length (bufs (st S))) = true -> sleeps_on i (iderw patience me i (st S)) = true -> step S (run_call me i S).
Proof.
  intros <- Hi Hl%Nat.ltb_lt Hs. unfold run_call. change 3%nat with patience. destruct (iderw patience me i (st S)) as [| |ch s'] eqn:E; try done. cbn in Hs. apply bool_decide_eq_true in Hs as ->. by apply (s_call S me i s').
Qed.
Lemma run_intr_step ok S r rest : todo S = r :: rest -> returns (ideintr patience (set_hw (a_finish ok (hw (st S))) (st S))) = true -> step S (run_intr ok S).
Proof.
  intros Et Hs. unfold run_intr. change 3%nat with patience. rewrite Et. destruct (ideintr patience _) as [[] s'| |] eqn:E; try done. by apply (s_intr S r rest ok (a_finish ok (hw (st S))) s').
Qed.
Lemma demo_run2 : rtc step demo0 demo2.
Proof.
  eapply rtc_l; [apply (run_call_step 7 0 demo0 []); [done|apply not_elem_of_nil|done|by vm_compute]|].
  apply rtc_once, (run_call_step 8 1 (run_call 7 0 demo0) [0%nat]); [by vm_compute|set_solver|by vm_compute..].
Qed.
Lemma demo_todo2 : todo demo2 = [req_of (st demo0) 0; req_of (st demo0) 1].
Proof. vm_compute. reflexivity. Qed.
Lemma demo_todo3 : todo demo3 = [req_of (st demo0) 1] /\ rq_write (req_of (st demo0) 1) = false.
Proof. vm_compute. split; reflexivity. Qed.
Lemma demo_run3 : rtc step demo0 demo3.
Proof. apply (rtc_r _ demo2); [apply demo_run2|]. apply (run_intr_step true demo2 _ _ demo_todo2). by vm_compute. Qed.
Lemma demo_run4 : rtc step demo0 demo4.
Proof. apply (rtc_r _ demo3); [apply demo_run3|]. apply (run_intr_step true demo3 _ _ (proj1 demo_todo3)). by vm_compute. Qed.
Lemma demo_fin : fin demo4 = [(req_of (st demo0) 0, true, ones); (req_of (st demo0) 1, true, ones)].
Proof. by vm_compute. Qed.
Lemma demo_intr3 ok : ideintr patience (set_hw (a_finish ok (hw (st demo3))) (st demo3)) = Ret tt (st (run_intr ok demo3)).
Proof.
  unfold run_intr. change 3%nat with patience. rewrite (proj1 demo_todo3). assert (Hr : returns (ideintr patience (set_hw (a_finish ok (hw (st demo3))) (st demo3))) = true) by (by destruct ok; vm_compute).
  by destruct (ideintr patience _) as [[] s'| |].
Qed.

(** The read that was called second returns what was written. *)
Lemma ide_serves_witness : boot disk0 demo0 /\ rtc step demo0 demo4 /\ fin demo4 = [(req_of (st demo0) 0, true, ones); (req_of (st demo0) 1, true, ones)] /\
  exists p, drive (hw (st demo4)) (after disk0 (fin demo4)) p /\ busy (todo demo4) p.
Proof. split; [apply demo_boot|]. split; [apply demo_run4|]. split; [apply demo_fin|]. exact (proj1 (proj2 (ide_serves disk0 demo0 demo4 demo_boot demo_run4))). Defined.
Lemma ide_read_error_witness : exists x, bufs (st (run_intr false demo3)) !! 1%nat = Some x /\ data x = disk0 0 0 /\ Z.land (flags x) (Z.lor B_VALID B_DIRTY) = B_VALID.
Proof.
  destruct (ide_read_error disk0 demo0 demo3 (req_of (st demo0) 1) [] (a_finish false (hw (st demo3))) _ demo_boot demo_run3 (proj1 demo_todo3) (proj2 demo_todo3) eq_refl (demo_intr3 false)) as (x & Hx & Hd & Hf & _). exists x. split; [exact Hx|]. split; [exact Hd|exact Hf].
Defined.
End IdeDrive.
