(* ===== verification/User.v ===== *)
(** User programs and what they do.

    A user program is a tree [prog] of system calls: a call, and how the program goes on for
    each answer.  [run] follows the program in a process with its descriptors and gives the
    tree of processes it makes ([ptree]): what each one writes and calls, what it executes
    with which descriptors, and where it waits.  The answers of the kernel that do not follow
    from the program's own calls (whether a file can be opened, what it contains, how many
    bytes a read returns, whether there is memory for a process) are a [world], over which
    the theorems about programs quantify.  [printf] and the rest of [ulib.c] that makes
    system calls are here, for the programs of [Programs.v] and [ShRun.v]. *)

From S2P Require Import Prelude Params Bytes Fs Sysfile Printf.

Module User.
Notation text := (list Z) (only parsing).
(** A string constant. *)
Definition lit (s : string) : text := map (fun a => Z.of_nat (Ascii.nat_of_ascii a)) (String.list_ascii_of_string s).
Definition nl : text := [10].

(** Calls of which only the result matters to the caller. *)
Inductive ucall :=
  | CLink (old new : text) | CUnlink (path : text) | CMkdir (path : text) | CMknod (path : text) (major minor : Z)
  | CChdir (path : text) | CKill (pid : Z) | CSleep (n : Z).

(** [Read] answers with the count and the bytes that are now in the buffer. *)
Inductive prog (A : Type) :=
  | Done (a : A)
  | Spin
  | Exit
  | Open (path : text) (mode : Z) (k : Z -> prog A)
  | Close (fd : Z) (k : Z -> prog A)
  | Read (fd n : Z) (k : Z -> text -> prog A)
  | Write (fd : Z) (bs : text) (k : Z -> prog A)
  | Fstat (fd : Z) (k : option Fs.stat -> prog A)
  | Dup (fd : Z) (k : Z -> prog A)
  | Pipe (k : option (Z * Z) -> prog A)
  | Fork (k : Z -> prog A)
  | Exec (path : text) (argv : list text) (k : Z -> prog A)
  | Wait (k : Z -> prog A)
  | Call (c : ucall) (k : Z -> prog A).
#[global] Arguments Done {A}. #[global] Arguments Spin {A}. #[global] Arguments Exit {A}. #[global] Arguments Open {A}.
#[global] Arguments Close {A}. #[global] Arguments Read {A}. #[global] Arguments Write {A}. #[global] Arguments Fstat {A}.
#[global] Arguments Dup {A}. #[global] Arguments Pipe {A}. #[global] Arguments Fork {A}. #[global] Arguments Exec {A}.
#[global] Arguments Wait {A}. #[global] Arguments Call {A}.

Fixpoint pbind {A B} (f : A -> prog B) (p : prog A) : prog B :=
  match p with
  | Done a => f a
  | Spin => Spin
  | Exit => Exit
  | Open s m k => Open s m (fun r => pbind f (k r))
  | Close fd k => Close fd (fun r => pbind f (k r))
  | Read fd n k => Read fd n (fun r bs => pbind f (k r bs))
  | Write fd bs k => Write fd bs (fun r => pbind f (k r))
  | Fstat fd k => Fstat fd (fun r => pbind f (k r))
  | Dup fd k => Dup fd (fun r => pbind f (k r))
  | Pipe k => Pipe (fun r => pbind f (k r))
  | Fork k => Fork (fun r => pbind f (k r))
  | Exec s l k => Exec s l (fun r => pbind f (k r))
  | Wait k => Wait (fun r => pbind f (k r))
  | Call c k => Call c (fun r => pbind f (k r))
  end.
#[global] Instance prog_ret : MRet prog := fun A => Done.
#[global] Instance prog_bind : MBind prog := fun A B => pbind.

(** The system calls. *)
Definition exit_ {A} : prog A := Exit.
Definition open (path : text) (mode : Z) : prog Z := Open path mode Done.
Definition close (fd : Z) : prog Z := Close fd Done.
Definition read (fd n : Z) : prog (Z * text) := Read fd n (fun r bs => Done (r, bs)).
Definition write (fd : Z) (bs : text) : prog Z := Write fd bs Done.
Definition fstat (fd : Z) : prog (option Fs.stat) := Fstat fd Done.
Definition dup (fd : Z) : prog Z := Dup fd Done.
Definition pipe : prog (option (Z * Z)) := Pipe Done.
Definition fork : prog Z := Fork Done.
Definition exec (path : text) (argv : list text) : prog Z := Exec path argv Done.
Definition wait : prog Z := Wait Done.
Definition ucalls (c : ucall) : prog Z := Call c Done.

(** ** Processes *)
(** An open file description: one the program was started with, one that [open] made, an end
    of a pipe; the last two with the process that made it, and a number. *)
Inductive desc :=
  | Inherited (n : nat)
  | Opened (path : text) (mode : Z) (id : list bool * nat)
  | PipeEnd (wr : bool) (id : list bool * nat).
#[global] Instance desc_eq_dec : EqDecision desc.
Proof. solve_decision. Defined.
Definition readable (d : desc) : bool := match d with Opened _ m _ => Z.land m Sysfile.O_WRONLY =? 0 | PipeEnd wr _ => negb wr | Inherited _ => true end.
Definition writable (d : desc) : bool :=
  match d with Opened _ m _ => negb (Z.land m (Z.lor Sysfile.O_WRONLY Sysfile.O_RDWR) =? 0) | PipeEnd wr _ => wr | Inherited _ => true end.

Record world := MkWorld {
  w_open : text -> Z -> bool; w_data : text -> text; w_stat : desc -> option Fs.stat; w_write : desc -> bool;
  w_pipe : list bool -> bool; w_fork : list bool -> option Z; w_exec : text -> list text -> bool; w_call : ucall -> Z
}.
(** A process: its descriptors, its place in the tree, the descriptions it has made, what can
    still be read from a description, how many bytes the next reads return at most (less one),
    and the answers of [wait]. *)
Record env := MkEnv { fds : list (option desc); pos : list bool; made : nat; rem : desc -> text; ns : list nat; waits : list Z }.
Definition set_fds (l : list (option desc)) (e : env) : env := MkEnv l (pos e) (made e) (rem e) (ns e) (waits e).
Definition set_rem (d : desc) (bs : text) (l : list nat) (e : env) : env := MkEnv (fds e) (pos e) (made e) (<[d := bs]> (rem e)) l (waits e).
Definition made_one (e : env) : env := MkEnv (fds e) (pos e) (S (made e)) (rem e) (ns e) (waits e).
Definition branch (b : bool) (e : env) : env := MkEnv (fds e) (pos e ++ [b]) 0 (rem e) (ns e) (waits e).
Definition waited (e : env) : env := MkEnv (fds e) (pos e) (made e) (rem e) (ns e) (tail (waits e)).

Inductive event :=
  | EOut (d : desc) (bs : text)
  | EOpen (path : text) (mode : Z) (ok : bool)
  | ECall (c : ucall) (r : Z).
Inductive ptree :=
  | PDone
  | PSpin
  | PExit
  | PExec (path : text) (argv : list text) (l : list (option desc))
  | PEv (e : event) (t : ptree)
  | PWait (t : ptree)
  | PFork (child parent : ptree).

Definition fd_at (l : list (option desc)) (fd : Z) : option desc := if fd <? 0 then None else mjoin (l !! Z.to_nat fd).
(** The lowest free descriptor. *)
Fixpoint low (l : list (option desc)) : option nat :=
  match l with
  | [] => None
  | None :: _ => Some O
  | Some _ :: l => S <$> low l
  end.
(** [read] of at most [n] bytes. *)
Definition take_some (n : nat) (inp : text) (ns : list nat) : nat := Nat.min n (match ns with k :: _ => S k | [] => length inp end).

Section run.
Variable w : world.
Fixpoint run {A} (p : prog A) (e : env) : ptree :=
  match p with
  | Done _ => PDone
  | Spin => PSpin
  | Exit => PExit
  | Open s m k =>
      match (if w_open w s m then low (fds e) else None) with
      | Some i => let d := Opened s m (pos e, made e) in
                  PEv (EOpen s m true) (run (k (Z.of_nat i)) (set_rem d (w_data w s) (ns e) (made_one (set_fds (<[i := Some d]> (fds e)) e))))
      | None => PEv (EOpen s m false) (run (k (-1)) e)
      end
  | Close fd k =>
      match fd_at (fds e) fd with
      | Some _ => run (k 0) (set_fds (<[Z.to_nat fd := None]> (fds e)) e)
      | None => run (k (-1)) e
      end
  | Read fd n k =>
      match fd_at (fds e) fd with
      | Some d => if readable d then
                    let m := take_some (Z.to_nat n) (rem e d) (ns e) in
                    let got := take m (rem e d) in
                    run (k (Z.of_nat (length got)) got) (set_rem d (drop m (rem e d)) (tail (ns e)) e)
                  else run (k (-1) []) e
      | None => run (k (-1) []) e
      end
  | Write fd bs k =>
      match fd_at (fds e) fd with
      | Some d => if writable d && w_write w d then PEv (EOut d bs) (run (k (Z.of_nat (length bs))) e) else run (k (-1)) e
      | None => run (k (-1)) e
      end
  | Fstat fd k => run (k (fd_at (fds e) fd ≫= w_stat w)) e
  | Dup fd k =>
      match fd_at (fds e) fd, low (fds e) with
      | Some d, Some i => run (k (Z.of_nat i)) (set_fds (<[i := Some d]> (fds e)) e)
      | _, _ => run (k (-1)) e
      end
  | Pipe k =>
      let id := (pos e, made e) in
      match (if w_pipe w (pos e) then low (fds e) else None) with
      | Some i =>
          let l := <[i := Some (PipeEnd false id)]> (fds e) in
          match low l with
          | Some j => run (k (Some (Z.of_nat i, Z.of_nat j))) (made_one (set_fds (<[j := Some (PipeEnd true id)]> l) e))
          | None => run (k None) e
          end
      | None => run (k None) e
      end
  | Fork k =>
      match w_fork w (pos e) with
      | Some pid => PFork (run (k 0) (branch false e)) (run (k pid) (branch true e))
      | None => run (k (-1)) e
      end
  | Exec s l k => if w_exec w s l then PExec s l (fds e) else run (k (-1)) e
  | Wait k => PWait (run (k (default (-1) (head (waits e)))) (waited e))
  | Call c k => PEv (ECall c (w_call w c)) (run (k (w_call w c)) e)
  end.
End run.

(** ** The library *)
(** The arguments of [printf] after the format: numbers, and strings, of which [printf] gets
    the addresses. *)
Inductive arg := AInt (x : Z) | AStr (s : text).
Definition arg_word (l : list arg) (i : nat) : Z := match l !! i with Some (AInt x) => x | Some (AStr _) => Z.of_nat (S i) | None => 0 end.
Definition arg_str (l : list arg) (a : Z) : text := match l !! Nat.pred (Z.to_nat a) with Some (AStr s) => s | _ => [] end.
Definition format (fmt : text) (l : list arg) : text := Printf.printf (arg_word l) (arg_str l) fmt.
(** [putc] for each character. *)
Fixpoint putcs (fd : Z) (s : text) : prog unit :=
  match s with
  | [] => Done tt
  | c :: s => Write fd [c] (fun _ => putcs fd s)
  end.
Definition printf (fd : Z) (fmt : text) (l : list arg) : prog unit := putcs fd (format fmt l).

(** [stat] *)
Definition stat (path : text) : prog (option Fs.stat) :=
  fd ← open path Sysfile.O_RDONLY;
  if fd <? 0 then mret None else
  r ← fstat fd;
  _ ← close fd;
  mret r.

(** ** What a run shows *)
(** What the process itself writes to [d], and how it ends. *)
Fixpoint said (d : desc) (t : ptree) : text :=
  match t with
  | PEv (EOut d' bs) t => (if decide (d' = d) then bs else []) ++ said d t
  | PEv _ t | PWait t => said d t
  | PFork _ t => said d t
  | _ => []
  end.
Fixpoint calls (t : ptree) : list (ucall * Z) :=
  match t with
  | PEv (ECall c r) t => (c, r) :: calls t
  | PEv _ t | PWait t => calls t
  | PFork _ t => calls t
  | _ => []
  end.
Fixpoint leaf (t : ptree) : ptree :=
  match t with
  | PEv _ t | PWait t => leaf t
  | PFork _ t => leaf t
  | t => t
  end.
(** What is executed in all processes of the tree. *)
Fixpoint execs (t : ptree) : list (text * list text * list (option desc)) :=
  match t with
  | PExec s l fs => [(s, l, fs)]
  | PEv _ t | PWait t => execs t
  | PFork c p => execs c ++ execs p
  | _ => []
  end.

(** ** Running the calls *)
Section facts.
Variable w : world.
Implicit Types (e : env).

Lemma run_assoc {A B C} (f : A -> prog B) (g : B -> prog C) (p : prog A) : forall e, run w (pbind g (pbind f p)) e = run w (pbind (fun a => pbind g (f a)) p) e.
Proof. induction p as [| | | | | | | | | | | | |]; intros e; cbn [pbind run]; repeat case_match; rewrite ?H; done. Qed.

Lemma run_bind {A B C} (f : A -> prog B) (g : B -> prog C) (p : prog A) e : run w ((p ≫= f) ≫= g) e = run w (p ≫= fun a => f a ≫= g) e.
Proof. apply run_assoc. Qed.

(** [printf] to a descriptor that can be written, and to another. *)
Definition out (l : list (option desc)) (fd : Z) : option desc := d ← fd_at l fd; if writable d && w_write w d then Some d else None.
Definition says (o : option desc) (s : text) (t : ptree) : ptree := match o with Some d => fold_right (fun c t => PEv (EOut d [c]) t) t s | None => t end.
Lemma run_putcs {A} (f : unit -> prog A) fd s e : run w (pbind f (putcs fd s)) e = says (out (fds e) fd) s (run w (f tt) e).
Proof.
  unfold says, out. destruct (fd_at (fds e) fd) as [d|] eqn:E; cbn [mbind option_bind].
  - destruct (writable d && w_write w d) eqn:Ew; (induction s as [|c s IH]; cbn [putcs pbind run fold_right]; [done|]); rewrite E, Ew; [by f_equal|exact IH].
  - induction s as [|c s IH]; cbn [putcs pbind run]; [done|]. by rewrite E.
Qed.
Lemma run_printf {A} (f : unit -> prog A) fd fmt l e : run w (printf fd fmt l ≫= f) e = says (out (fds e) fd) (format fmt l) (run w (f tt) e).
Proof. apply run_putcs. Qed.
Lemma said_says d o s t : said d (says o s t) = (if decide (o = Some d) then s else []) ++ said d t.
Proof.
  destruct o as [d'|]; cbn [says]; [|by rewrite decide_False by done]. induction s as [|c s IH]; cbn [fold_right said]; [by case_decide|].
  rewrite IH. repeat case_decide; try congruence; done.
Qed.
Lemma leaf_says o s t : leaf (says o s t) = leaf t.
Proof. destruct o; [|done]. by induction s. Qed.
Lemma calls_says o s t : calls (says o s t) = calls t.
Proof. destruct o; [|done]. by induction s. Qed.

(** ** Descriptors *)
Lemma low_spec l i : low l = Some i -> l !! i = Some None.
Proof. revert i. induction l as [|[d|] l IH]; intros i; cbn [low]; [done| |by intros [= <-]]. destruct (low l) as [j|]; [|done]. intros [= <-]. by apply IH. Qed.
Lemma fd_at_nat l i : fd_at l (Z.of_nat i) = mjoin (l !! i).
Proof. unfold fd_at. destruct (Z.ltb_spec (Z.of_nat i) 0); [lia|]. by rewrite Nat2Z.id. Qed.
Lemma fd_at_new l i d : low l = Some i -> fd_at (<[i := Some d]> l) (Z.of_nat i) = Some d.
Proof. intros Hi%low_spec. rewrite fd_at_nat, list_lookup_insert_eq by (by eapply lookup_lt_Some). done. Qed.
Lemma fd_at_old l i d x fd : low l = Some i -> fd_at l fd = Some x -> fd_at (<[i := d]> l) fd = Some x.
Proof. intros Hi%low_spec. unfold fd_at. destruct (fd <? 0); [done|]. intros Hx. rewrite list_lookup_insert_ne; [done|]. intros ->. by rewrite Hi in Hx. Qed.
Lemma close_new l i d : low l = Some i -> <[i := None]> (<[i := Some d]> l) = l.
Proof. intros Hi%low_spec. rewrite list_insert_insert_eq. by apply list_insert_id. Qed.
Lemma out_old l i d o fd : low l = Some i -> out l fd = Some o -> out (<[i := d]> l) fd = Some o.
Proof. intros Hi. unfold out. destruct (fd_at l fd) as [x|] eqn:Ex; [|done]. by rewrite (fd_at_old _ _ d _ _ Hi Ex). Qed.
Lemma out_write {A} l fd o bs (k : Z -> prog A) e : fds e = l -> out l fd = Some o -> run w (Write fd bs k) e = PEv (EOut o bs) (run w (k (Z.of_nat (length bs))) e).
Proof. intros <- Ho. unfold out in Ho. cbn [run]. destruct (fd_at (fds e) fd) as [d|]; [|done]. cbn in Ho. destruct (_ && _); [|done]. by injection Ho as ->. Qed.

(** ** Reading *)
(** [e'] is [e] after everything has been read from [d]. *)
Record drained (d : desc) (e e' : env) : Prop := MkDrained {
  dr_fds : fds e' = fds e; dr_pos : pos e' = pos e; dr_made : made e' = made e; dr_waits : waits e' = waits e; dr_ns : ns e = [] -> ns e' = [];
  dr_rem : rem e' d = []; dr_others d' : d' <> d -> rem e' d' = rem e d'
}.
(** One read: the bytes come in order, and none only at the end. *)
Lemma run_read {A} fd d n (k : Z -> text -> prog A) e : fd_at (fds e) fd = Some d -> readable d = true -> 0 < n ->
  exists got rest e1, rem e d = got ++ rest /\ rem e1 d = rest /\ (got = [] -> rest = []) /\ ns e1 = tail (ns e) /\ fds e1 = fds e /\
    run w (Read fd n k) e = run w (k (Z.of_nat (length got)) got) e1 /\ forall e', drained d e1 e' -> drained d e e'.
Proof.
  intros Hd Hr Hn. cbn [run]. rewrite Hd, Hr. set (m := take_some _ _ _). exists (take m (rem e d)), (drop m (rem e d)), (set_rem d (drop m (rem e d)) (tail (ns e)) e). split; [by rewrite take_drop|].
  split; [by cbn; rewrite fn_lookup_insert|]. split.
  { intros E. destruct (decide (rem e d = [])) as [->|Hne]; [by rewrite drop_nil|]. exfalso. assert (0 < m)%nat.
    { unfold m, take_some. assert (rem e d <> []) as Hl by done. destruct (rem e d); [done|]. destruct (ns e); cbn [length]; lia. }
    destruct (rem e d), m; done || lia. }
  split_and!; [done..|]. intros e' [H1 H2 H3 H4 H7 H5 H6]. split; try done. { intros E0. apply H7. cbn. by rewrite E0. } intros d' Hd'. rewrite (H6 d' Hd'). cbn. by rewrite fn_lookup_insert_ne.
Qed.
Lemma execs_says o s t : execs (says o s t) = execs t.
Proof. destruct o; [|done]. by induction s. Qed.
End facts.
End User.
