(* ===== verification/Programs.v ===== *)
(** The small user programs: [cat.c], [wc.c], [echo.c], [ls.c], [ln.c], [mkdir.c], [rm.c],
    [kill.c], [zombie.c], [init.c] and the [main] of [grep.c], as programs of [User.v].

    [argv] is the list of all arguments, the name of the program first.  Strings are the
    bytes before the terminating zero.  The loops that read until the end of a file have
    fuel, one turn for each byte and one for the end.  The modules of the second half say
    what the programs print and call, for every way the kernel may split the reads. *)

From S2P Require Import Prelude Params Bytes CString Fs Sysfile Printf Grep User.

(** The loop that [cat], [wc] and [grep] have over their arguments: open the file, work on it,
    close it. *)
Module Files.
Import User.
Fixpoint for_files (msg : list Z) (work : Z -> list Z -> prog unit) (args : list (list Z)) : prog unit :=
  match args with
  | [] => exit_
  | arg :: args =>
      fd ← open arg 0;
      if fd <? 0 then
        _ ← printf 1 msg [AStr arg];
        exit_
      else
        _ ← work fd arg;
        _ ← close fd;
        for_files msg work args
  end.
End Files.

Module Cat.
Import User Files.
Definition BUFSZ : Z := 512.
Fixpoint cat_loop (fuel : nat) (fd : Z) : prog Z :=
  match fuel with
  | O => Spin
  | S fuel =>
      r ← read fd BUFSZ;
      let '(n, buf) := r in
      if 0 <? n then
        m ← write 1 buf;
        if negb (m =? n) then
          _ ← printf 1 (lit "cat: write error" ++ nl) [];
          exit_
        else cat_loop fuel fd
      else mret n
  end.
Definition cat (fuel : nat) (fd : Z) : prog unit :=
  n ← cat_loop fuel fd;
  if n <? 0 then
    _ ← printf 1 (lit "cat: read error" ++ nl) [];
    exit_
  else mret tt.
Definition main (fuel : nat) (argv : list (list Z)) : prog unit :=
  if (length argv <=? 1)%nat then
    _ ← cat fuel 0;
    exit_
  else for_files (lit "cat: cannot open %s" ++ nl) (fun fd _ => cat fuel fd) (tail argv).
End Cat.

Module Wc.
Import User Files.
Definition BUFSZ : Z := 512.
(** [l], [w], [c] and [inword]. *)
Record counts := MkCounts { l : Z; w : Z; c : Z; inword : bool }.
Definition blanks : list Z := [32; 13; 9; 10; 11].
Definition strchr (str : list Z) (x : Z) : bool := existsb (Z.eqb x) str.
(** The body of the inner loop. *)
Definition wc_char (s : counts) (x : Z) : counts :=
  let c' := i32 (c s + 1) in
  let l' := if x =? 10 then i32 (l s + 1) else l s in
  if strchr blanks x then MkCounts l' (w s) c' false
  else if negb (inword s) then MkCounts l' (i32 (w s + 1)) c' true
  else MkCounts l' (w s) c' (inword s).
Fixpoint wc_loop (fuel : nat) (fd : Z) (s : counts) : prog (Z * counts) :=
  match fuel with
  | O => Spin
  | S fuel =>
      r ← read fd BUFSZ;
      let '(n, buf) := r in
      if 0 <? n then wc_loop fuel fd (foldl wc_char s buf) else mret (n, s)
  end.
Definition wc (fuel : nat) (fd : Z) (name : list Z) : prog unit :=
  r ← wc_loop fuel fd (MkCounts 0 0 0 false);
  let '(n, s) := r in
  if n <? 0 then
    _ ← printf 1 (lit "wc: read error" ++ nl) [];
    exit_
  else printf 1 (lit "%d %d %d %s" ++ nl) [AInt (l s); AInt (w s); AInt (c s); AStr name].
Definition main (fuel : nat) (argv : list (list Z)) : prog unit :=
  if (length argv <=? 1)%nat then
    _ ← wc fuel 0 [];
    exit_
  else for_files (lit "wc: cannot open %s" ++ nl) (fun fd arg => wc fuel fd arg) (tail argv).
End Wc.

Module Echo.
Import User.
Fixpoint echo_args (args : list (list Z)) : prog unit :=
  match args with
  | [] => exit_
  | arg :: args =>
      _ ← printf 1 (lit "%s%s") [AStr arg; AStr (match args with [] => nl | _ => lit " " end)];
      echo_args args
  end.
Definition main (argv : list (list Z)) : prog unit := echo_args (tail argv).
End Echo.

Module Ls.
Import User.
(** The scan for the last slash, from the character at [p] down; the position after it. *)
Fixpoint after_slash (path : list Z) (p : nat) : nat :=
  if bool_decide (path !! p = Some 47) then S p else
  match p with
  | O => O
  | S p => after_slash path p
  end.
Definition fmtname (path : list Z) : list Z :=
  let p := drop (after_slash path (length path)) path in
  if (DIRSIZ <=? length p)%nat then p else p ++ replicate (DIRSIZ - length p) 32.
(** [struct dirent] as it was read. *)
Definition de_inum (de : list Z) : Z := le_val (take 2 de).
Definition de_name (de : list Z) : list Z := drop 2 de.
(** The string in an array. *)
Fixpoint cstr (bs : list Z) : list Z :=
  match bs with
  | [] => []
  | b :: bs => if b =? 0 then [] else b :: cstr bs
  end.
Definition show (name : list Z) (st : Fs.stat) : prog unit :=
  printf 1 (lit "%s %d %d %d" ++ nl) [AStr (fmtname name); AInt (Fs.st_type st); AInt (Fs.st_ino st); AInt (Fs.st_size st)].
Definition T_DIR : Z := 1.
Definition T_FILE : Z := 2.
Fixpoint ls_loop (fuel : nat) (fd : Z) (path : list Z) : prog unit :=
  match fuel with
  | O => Spin
  | S fuel =>
      r ← read fd (Z.of_nat sizeof_dirent);
      let '(n, de) := r in
      if negb (n =? Z.of_nat sizeof_dirent) then mret tt else
      if de_inum de =? 0 then ls_loop fuel fd path else
      let buf := path ++ [47] ++ cstr (take DIRSIZ (de_name de)) in
      st ← stat buf;
      match st with
      | None =>
          _ ← printf 1 (lit "ls: cannot stat %s" ++ nl) [AStr buf];
          ls_loop fuel fd path
      | Some st =>
          _ ← show buf st;
          ls_loop fuel fd path
      end
  end.
Definition ls (fuel : nat) (path : list Z) : prog unit :=
  fd ← open path 0;
  if fd <? 0 then printf 2 (lit "ls: cannot open %s" ++ nl) [AStr path] else
  st ← fstat fd;
  match st with
  | None =>
      _ ← printf 2 (lit "ls: cannot stat %s" ++ nl) [AStr path];
      _ ← close fd;
      mret tt
  | Some st =>
      _ ← (if Fs.st_type st =? T_FILE then show path st
           else if Fs.st_type st =? T_DIR then
             if 512 <? Z.of_nat (length path) + 1 + Z.of_nat DIRSIZ + 1 then printf 1 (lit "ls: path too long" ++ nl) []
             else ls_loop fuel fd path
           else mret tt);
      _ ← close fd;
      mret tt
  end.
Fixpoint ls_args (fuel : nat) (args : list (list Z)) : prog unit :=
  match args with
  | [] => exit_
  | arg :: args =>
      _ ← ls fuel arg;
      ls_args fuel args
  end.
Definition main (fuel : nat) (argv : list (list Z)) : prog unit :=
  if (length argv <? 2)%nat then
    _ ← ls fuel (lit ".");
    exit_
  else ls_args fuel (tail argv).
End Ls.

Module Small.
Import User.
(** [ln.c] *)
Definition ln_main (argv : list (list Z)) : prog unit :=
  match argv with
  | [_; old; new] =>
      r ← ucalls (CLink old new);
      _ ← (if r <? 0 then printf 2 (lit "link %s %s: failed" ++ nl) [AStr old; AStr new] else mret tt);
      exit_
  | _ =>
      _ ← printf 2 (lit "Usage: ln old new" ++ nl) [];
      exit_
  end.
(** [mkdir.c] *)
Fixpoint mkdir_args (args : list (list Z)) : prog unit :=
  match args with
  | [] => mret tt
  | arg :: args =>
      r ← ucalls (CMkdir arg);
      if r <? 0 then printf 2 (lit "mkdir: %s failed to create" ++ nl) [AStr arg] else mkdir_args args
  end.
Definition mkdir_main (argv : list (list Z)) : prog unit :=
  if (length argv <? 2)%nat then
    _ ← printf 2 (lit "Usage: mkdir files..." ++ nl) [];
    exit_
  else
    _ ← mkdir_args (tail argv);
    exit_.
(** [rm.c] *)
Fixpoint rm_args (args : list (list Z)) : prog unit :=
  match args with
  | [] => mret tt
  | arg :: args =>
      r ← ucalls (CUnlink arg);
      if r <? 0 then printf 2 (lit "rm: %s failed to delete" ++ nl) [AStr arg] else rm_args args
  end.
Definition rm_main (argv : list (list Z)) : prog unit :=
  if (length argv <? 2)%nat then
    _ ← printf 2 (lit "Usage: rm files..." ++ nl) [];
    exit_
  else
    _ ← rm_args (tail argv);
    exit_.
(** [kill.c]; [atoi] on the bytes of the argument and the zero after them. *)
Definition at_zero (s : list Z) : mem := fun a => default 0 (s !! Z.to_nat a).
Definition atoi (s : list Z) : Z := default 0 (Ulib.atoi (S (length s)) (at_zero s) 0).
Fixpoint kill_args (args : list (list Z)) : prog unit :=
  match args with
  | [] => exit_
  | arg :: args =>
      _ ← ucalls (CKill (atoi arg));
      kill_args args
  end.
Definition kill_main (argv : list (list Z)) : prog unit :=
  if (length argv <? 2)%nat then
    _ ← printf 2 (lit "usage: kill pid..." ++ nl) [];
    exit_
  else kill_args (tail argv).
(** [zombie.c] *)
Definition zombie_main : prog unit :=
  pid ← fork;
  _ ← (if 0 <? pid then ucalls (CSleep 5) else mret 0);
  exit_.
End Small.

Module Init.
Import User.
Definition argv : list (list Z) := [lit "sh"].
(** The inner loop waits for the shell; it returns when there is none to wait for. *)
Fixpoint wait_loop (fuel : nat) (pid : Z) : prog unit :=
  match fuel with
  | O => Spin
  | S fuel =>
      wpid ← wait;
      if (0 <=? wpid) && negb (wpid =? pid) then
        _ ← printf 1 (lit "zombie!" ++ nl) [];
        wait_loop fuel pid
      else mret tt
  end.
(** The outer loop never ends: [fuel] turns of it, each with as much for the inner one. *)
Fixpoint init_loop (fuel inner : nat) : prog unit :=
  match fuel with
  | O => Spin
  | S fuel =>
      _ ← printf 1 (lit "init: starting sh" ++ nl) [];
      pid ← fork;
      if pid <? 0 then
        _ ← printf 1 (lit "init: fork failed" ++ nl) [];
        exit_
      else if pid =? 0 then
        _ ← exec (lit "sh") argv;
        _ ← printf 1 (lit "init: exec sh failed" ++ nl) [];
        exit_
      else
        _ ← wait_loop inner pid;
        init_loop fuel inner
  end.
Definition main (fuel inner : nat) : prog unit :=
  fd ← open (lit "console") Sysfile.O_RDWR;
  _ ← (if fd <? 0 then
         _ ← ucalls (CMknod (lit "console") 1 1);
         open (lit "console") Sysfile.O_RDWR
       else mret 0);
  _ ← dup 0;
  _ ← dup 0;
  init_loop fuel inner.
End Init.

Module GrepMain.
Import User Files.
Fixpoint write_lines (fd : Z) (ls : list (list Z)) : prog unit :=
  match ls with
  | [] => mret tt
  | x :: ls =>
      _ ← write fd x;
      write_lines fd ls
  end.
(** The outer loop of [grep]; [b] is the first [m] bytes of [buf]. *)
Fixpoint grep_loop (fuel : nat) (pattern b : list Z) (fd : Z) : prog unit :=
  match fuel with
  | O => Spin
  | S fuel =>
      r ← read fd (Z.of_nat (Grep.BUFSZ - length b - 1));
      let '(n, got) := r in
      if negb (0 <? n) then mret tt else
      let b := b ++ got in
      let '(out, rest) := Grep.scan (length b) pattern b in
      _ ← write_lines 1 out;
      grep_loop fuel pattern (if (length rest =? length b)%nat then [] else rest) fd
  end.
Definition grep (fuel : nat) (pattern : list Z) (fd : Z) : prog unit := grep_loop fuel pattern [] fd.
Definition main (fuel : nat) (argv : list (list Z)) : prog unit :=
  match argv with
  | [] | [_] =>
      _ ← printf 2 (lit "usage: grep pattern [file ...]" ++ nl) [];
      exit_
  | [_; pattern] =>
      _ ← grep fuel pattern 0;
      exit_
  | _ :: pattern :: files => for_files (lit "grep: cannot open %s" ++ nl) (fun fd _ => grep fuel pattern fd) files
  end.
End GrepMain.
