(* ===== verification/ProgramSpec.v ===== *)
(** What the programs of [Programs.v] print.

    The specifications are functions of the files and arguments alone; the theorems hold for
    every way in which the kernel splits the reads ([ns] of the process). *)

From S2P Require Import Prelude Params Bytes CString Fs Sysfile Printf Grep User Programs.

Module ProgramSpec.
Import User.

(** A number as [printf] prints it (see [PrintfSpec.printint_decimal]). *)
Definition dec (x : Z) : list Z := Printf.printint (i32 x) 10 true.

Section spec.
Variable w : world.
Implicit Types (e : env).

(** The blocks of a list, written one after the other. *)
Definition writes (o : desc) (ls : list (list Z)) (t : ptree) : ptree := fold_right (fun bs t => PEv (EOut o bs) t) t ls.
Lemma said_writes o ls t : said o (writes o ls t) = concat ls ++ said o t.
Proof. induction ls as [|x ls IH]; [done|]. cbn [writes fold_right said concat]. fold (writes o ls t). by rewrite decide_True, IH, <- app_assoc by done. Qed.
Lemma leaf_writes o ls t : leaf (writes o ls t) = leaf t.
Proof. by induction ls. Qed.
Lemma said_open o s m b t : said o (PEv (EOpen s m b) t) = said o t.
Proof. done. Qed.
Lemma leaf_ev ev t : leaf (PEv ev t) = leaf t.
Proof. done. Qed.
Lemma said_exit o e : said o (run w (@exit_ unit) e) = [].
Proof. done. Qed.
Lemma said_prints o s t : said o (says (Some o) s t) = s ++ said o t.
Proof. by rewrite said_says, decide_True. Qed.

(** A file that the program opens, uses and closes. *)
Definition opened (s : list Z) (m : Z) (i : nat) e : env :=
  let d := Opened s m (pos e, made e) in set_rem d (w_data w s) (ns e) (made_one (set_fds (<[i := Some d]> (fds e)) e)).
Lemma run_open {A} s m i (k : Z -> prog A) e : w_open w s m = true -> low (fds e) = Some i -> run w (open s m ≫= k) e = PEv (EOpen s m true) (run w (k (Z.of_nat i)) (opened s m i e)).
Proof. intros Ho Hi. unfold mbind, prog_bind. cbn [open pbind run]. by rewrite Ho, Hi. Qed.
Lemma run_open_fails {A} s m (k : Z -> prog A) e : w_open w s m = false -> run w (open s m ≫= k) e = PEv (EOpen s m false) (run w (k (-1)) e).
Proof. intros Ho. unfold mbind, prog_bind. cbn [open pbind run]. by rewrite Ho. Qed.
Lemma run_close {A} l i d (k : Z -> prog A) e : low l = Some i -> fds e = <[i := Some d]> l -> run w (close (Z.of_nat i) ≫= k) e = run w (k 0) (set_fds l e).
Proof. intros Hi He. unfold mbind, prog_bind. cbn [close pbind run]. by rewrite He, (fd_at_new _ _ _ Hi), Nat2Z.id, close_new. Qed.
Lemma opened_rem s m i e : rem (opened s m i e) (Opened s m (pos e, made e)) = w_data w s.
Proof. apply fn_lookup_insert. Qed.

(** ** The files of the arguments *)
(** [work] on a descriptor prints [report] of the name and of what can be read.  [pre] is what it
    needs of the input and of how it comes. *)
Definition reports (o : desc) (fuel : nat) (pre : list nat -> list Z -> Prop) (work : Z -> list Z -> prog unit) (report : list Z -> list Z -> list Z) : Prop :=
  forall A (f : unit -> prog A) fd d s e, fd_at (fds e) fd = Some d -> readable d = true -> out w (fds e) 1 = Some o -> (length (rem e d) < fuel)%nat -> pre (ns e) (rem e d) ->
  exists e', fds e' = fds e /\ (ns e = [] -> ns e' = []) /\ said o (run w (work fd s ≫= f) e) = report s (rem e d) ++ said o (run w (f tt) e') /\
    leaf (run w (work fd s ≫= f) e) = leaf (run w (f tt) e').
(** The reports on the files, up to the first that cannot be opened. *)
Fixpoint file_reports (msg : list Z) (report : list Z -> list Z -> list Z) (args : list (list Z)) : list Z :=
  match args with
  | [] => []
  | s :: args => if w_open w s 0 then report s (w_data w s) ++ file_reports msg report args else format msg [AStr s]
  end.
Lemma for_files_run o i fuel (P : list nat -> Prop) Q msg work report args : reports o fuel (fun ns bs => P ns /\ Q bs) work report -> (P = fun _ => True) \/ (P = fun ns => ns = []) ->
  forall e, out w (fds e) 1 = Some o -> low (fds e) = Some i -> P (ns e) -> Forall (fun s => (length (w_data w s) < fuel)%nat /\ Q (w_data w s)) args ->
  said o (run w (Files.for_files msg work args) e) = file_reports msg report args /\ leaf (run w (Files.for_files msg work args) e) = PExit.
Proof.
  intros Hw HP. induction args as [|s args IH]; intros e Ho Hi Hn Hf; [done|]. apply Forall_cons in Hf as [[Hs Hq] Hf]. cbn [Files.for_files file_reports]. destruct (w_open w s 0) eqn:Eo.
  - rewrite (run_open s 0 i _ e Eo Hi). destruct (Z.ltb_spec (Z.of_nat i) 0); [lia|]. set (d := Opened s 0 (pos e, made e)). rewrite said_open, leaf_ev.
    destruct (Hw unit (fun _ => _ ← close (Z.of_nat i); Files.for_files msg work args) (Z.of_nat i) d s (opened s 0 i e)) as (e' & Hfd & Hns & Es & El);
      [by apply fd_at_new|done|by apply out_old|by rewrite opened_rem|by rewrite opened_rem|]. rewrite Es, El, opened_rem, (run_close (fds e) i d _ e' Hi Hfd).
    destruct (IH (set_fds (fds e) e') Ho Hi) as [IH1 IH2]; [destruct HP as [-> | ->]; [done|by apply Hns]|done|]. by rewrite IH1, IH2.
  - rewrite run_open_fails, said_open, leaf_ev by done. destruct (Z.ltb_spec (-1) 0); [|lia]. rewrite run_printf, Ho, said_prints, leaf_says, said_exit, app_nil_r. done.
Qed.
(** The standard input, when there are no files. *)
Lemma stdin_run o fuel pre work report d s e : reports o fuel pre work report -> pre (ns e) (rem e d) -> fd_at (fds e) 0 = Some d -> readable d = true -> out w (fds e) 1 = Some o -> (length (rem e d) < fuel)%nat ->
  said o (run w (_ ← work 0 s; exit_ : prog unit) e) = report s (rem e d) /\ leaf (run w (_ ← work 0 s; exit_ : prog unit) e) = PExit.
Proof. intros Hw Hp Hd Hr Ho Hf. destruct (Hw unit (fun _ => exit_) 0 d s e Hd Hr Ho Hf Hp) as (e' & _ & _ & -> & ->). by rewrite said_exit, app_nil_r. Qed.

(** ** cat *)
Lemma cat_loop_run {A} (f : Z -> prog A) fd d o fuel : forall e, fd_at (fds e) fd = Some d -> readable d = true -> out w (fds e) 1 = Some o -> (length (rem e d) < fuel)%nat ->
  exists ls e', concat ls = rem e d /\ drained d e e' /\ run w (pbind f (Cat.cat_loop fuel fd)) e = writes o ls (run w (f 0) e').
Proof.
  induction fuel as [|fuel IH]; intros e Hd Hr Ho Hf; [lia|].
  destruct (run_read w fd d 512 (fun r bs => pbind f (if 0 <? r then m ← write 1 bs; if negb (m =? r) then _ ← printf 1 (lit "cat: write error" ++ nl) []; exit_ else Cat.cat_loop fuel fd else mret r)) e Hd Hr ltac:(lia))
    as (got & rest & e1 & Hrem & Hr1 & Hend & _ & Hf1 & E & Hdr).
  cbn [Cat.cat_loop pbind mbind prog_bind read]. change Cat.BUFSZ with 512. rewrite E. destruct got as [|b got].
  - specialize (Hend eq_refl). exists [], e1. rewrite Hend in Hr1, Hrem. split; [by rewrite Hrem|]. split; [apply Hdr; by split|]. done.
  - assert (Hlen : 0 <? Z.of_nat (length (b :: got)) = true) by (apply Z.ltb_lt; cbn; lia). rewrite Hlen. cbn [pbind mbind prog_bind write].
    rewrite (out_write w _ 1 o _ _ e1 Hf1 Ho). cbv beta. rewrite Z.eqb_refl. cbn [negb].
    destruct (IH e1) as (ls & e' & Hls & Hdr' & E'); [by rewrite Hf1|done|by rewrite Hf1|rewrite Hrem, length_app in Hf; cbn in Hf; rewrite Hr1; lia|].
    exists ((b :: got) :: ls), e'. split; [by cbn [concat]; rewrite Hls, Hr1, Hrem|]. split; [by apply Hdr|]. rewrite E'. done.
Qed.
Lemma cat_run {A} (f : unit -> prog A) fd d o fuel e : fd_at (fds e) fd = Some d -> readable d = true -> out w (fds e) 1 = Some o -> (length (rem e d) < fuel)%nat ->
  exists ls e', concat ls = rem e d /\ drained d e e' /\ run w (Cat.cat fuel fd ≫= f) e = writes o ls (run w (f tt) e').
Proof.
  intros Hd Hr Ho Hf. destruct (cat_loop_run (fun n => pbind f (if n <? 0 then _ ← printf 1 (lit "cat: read error" ++ nl) []; exit_ else mret tt)) fd d o fuel e Hd Hr Ho Hf) as (ls & e' & Hls & Hdr & E).
  exists ls, e'. split; [done|]. split; [done|]. change (0 <? 0) with false in E. cbn [pbind mret prog_ret] in E. rewrite <- E. apply run_assoc.
Qed.

Definition always (_ : list nat) : Prop := True.
Lemma cat_reports o fuel : reports o fuel (fun n _ => always n /\ True) (fun fd _ => Cat.cat fuel fd) (fun _ bs => bs).
Proof.
  intros A f fd d s e Hd Hr Ho Hf _. destruct (cat_run f fd d o fuel e Hd Hr Ho Hf) as (ls & e' & Hls & Hdr & E). exists e'. split; [apply (dr_fds _ _ _ Hdr)|]. split; [apply (dr_ns _ _ _ Hdr)|]. by rewrite E, said_writes, leaf_writes, Hls.
Qed.
(** [cat] copies the files of its arguments, or its input, to its output. *)
Theorem cat_correct o i fuel name args e : out w (fds e) 1 = Some o -> low (fds e) = Some i -> Forall (fun s => (length (w_data w s) < fuel)%nat) args ->
  (args = [] -> exists d, fd_at (fds e) 0 = Some d /\ readable d = true /\ (length (rem e d) < fuel)%nat) ->
  let t := run w (Cat.main fuel (name :: args)) e in leaf t = PExit /\
    said o t = match args with [] => default [] (rem e <$> fd_at (fds e) 0) | _ => file_reports (lit "cat: cannot open %s" ++ nl) (fun _ bs => bs) args end.
Proof.
  intros Ho Hi Hf Hin t. destruct args as [|a args].
  - destruct (Hin eq_refl) as (d & Hd & Hr & Hl). destruct (stdin_run o fuel _ _ _ d [] e (cat_reports o fuel) (conj I I) Hd Hr Ho Hl) as [E1 E2]. rewrite Hd. split; [exact E2|exact E1].
  - destruct (for_files_run o i fuel always (fun _ => True) (lit "cat: cannot open %s" ++ nl) _ _ (a :: args) (cat_reports o fuel) (or_introl eq_refl) e Ho Hi I) as [E1 E2]; [by eapply Forall_impl; [exact Hf|]|]. split; [exact E2|exact E1].
Qed.

(** ** wc *)
Definition blank (x : Z) : bool := bool_decide (x ∈ [32; 9; 13; 10; 11]).
(** The pieces of a text between blanks. *)
Fixpoint fields (t : list Z) : list (list Z) :=
  match t with
  | [] => [[]]
  | x :: t => if blank x then [] :: fields t else match fields t with f :: fs => (x :: f) :: fs | [] => [[x]] end
  end.
Definition nonempty (f : list Z) : bool := negb (bool_decide (f = [])).
Definition words (t : list Z) : list (list Z) := List.filter nonempty (fields t).
Definition lines (t : list Z) : list Z := List.filter (Z.eqb 10) t.
Definition wc_report (s t : list Z) : list Z :=
  dec (Z.of_nat (length (lines t))) ++ 32 :: dec (Z.of_nat (length (words t))) ++ 32 :: dec (Z.of_nat (length t)) ++ 32 :: s ++ nl.

Lemma blank_strchr x : Wc.strchr Wc.blanks x = blank x.
Proof.
  unfold blank. apply Bool.eq_true_iff_eq. rewrite bool_decide_eq_true. unfold Wc.strchr. rewrite existsb_exists. split.
  - intros (y & Hy & ->%Z.eqb_eq). cbn in Hy. set_solver.
  - intros Hx. exists x. split; [|apply Z.eqb_refl]. cbn. set_solver.
Qed.
Lemma fields_cons t : exists f fs, fields t = f :: fs.
Proof. destruct t as [|x t]; cbn [fields]; [eauto|]. destruct (blank x); [eauto|]. destruct (fields t); eauto. Qed.
(** The words that start in [t], after a blank or in a word. *)
Definition new_words (inword : bool) (t : list Z) : nat :=
  match fields t with
  | f :: fs => ((if negb inword && nonempty f then 1 else 0) + length (List.filter nonempty fs))%nat
  | [] => 0
  end.
Lemma new_words_false t : new_words false t = length (words t).
Proof. unfold new_words, words. destruct (fields_cons t) as (f & fs & ->). cbn. by destruct (nonempty f). Qed.
Lemma wc_fold t : forall s, 0 <= Wc.l s <= Wc.c s -> 0 <= Wc.w s <= Wc.c s -> Wc.c s + Z.of_nat (length t) < 2 ^ 31 ->
  let s' := foldl Wc.wc_char s t in
  Wc.c s' = Wc.c s + Z.of_nat (length t) /\ Wc.l s' = Wc.l s + Z.of_nat (length (lines t)) /\ Wc.w s' = Wc.w s + Z.of_nat (new_words (Wc.inword s) t).
Proof.
  induction t as [|x t IH]; intros s Hl Hw Hc; cbn [foldl].
  { cbn. unfold new_words. cbn. rewrite andb_false_r. cbn. lia. }
  cbn [length] in Hc. set (s1 := Wc.wc_char s x).
  assert (E1 : Wc.c s1 = Wc.c s + 1) by (unfold s1, Wc.wc_char; repeat case_match; cbn; apply i32_id; lia).
  assert (E2 : Wc.l s1 = Wc.l s + (if x =? 10 then 1 else 0)) by (unfold s1, Wc.wc_char; repeat case_match; cbn; rewrite ?i32_id; lia).
  assert (E3 : Wc.w s1 = Wc.w s + (if negb (blank x) && negb (Wc.inword s) then 1 else 0) /\ Wc.inword s1 = negb (blank x)).
  { unfold s1, Wc.wc_char. rewrite blank_strchr. destruct (blank x), (Wc.inword s) eqn:Ei; cbn; rewrite ?i32_id by lia; split; done || lia. }
  destruct E3 as [E3 E4]. destruct (IH s1) as (H1 & H2 & H3).
  { rewrite E1, E2. destruct (x =? 10); lia. } { rewrite E1, E3. destruct (negb (blank x) && negb (Wc.inword s)); lia. } { rewrite E1. lia. }
  split; [rewrite H1, E1; cbn [length]; lia|]. split.
  - rewrite H2, E2. unfold lines. cbn [List.filter]. rewrite (Z.eqb_sym 10 x). destruct (x =? 10); cbn [length]; lia.
  - rewrite H3, E3, E4. unfold new_words. cbn [fields]. destruct (fields_cons t) as (f & fs & ->). destruct (blank x); cbn [negb andb].
    + cbn. rewrite andb_false_r. destruct (nonempty f); cbn; lia.
    + cbn. destruct (Wc.inword s); cbn; lia.
Qed.
Lemma wc_loop_run {A} (f : Z * Wc.counts -> prog A) fd d fuel : forall e s, fd_at (fds e) fd = Some d -> readable d = true -> (length (rem e d) < fuel)%nat ->
  exists e', drained d e e' /\ run w (Wc.wc_loop fuel fd s ≫= f) e = run w (f (0, foldl Wc.wc_char s (rem e d))) e'.
Proof.
  induction fuel as [|fuel IH]; intros e s Hd Hr Hf; [lia|].
  destruct (run_read w fd d 512 (fun r bs => pbind f (if 0 <? r then Wc.wc_loop fuel fd (foldl Wc.wc_char s bs) else mret (r, s))) e Hd Hr ltac:(lia))
    as (got & rest & e1 & Hrem & Hr1 & Hend & _ & Hf1 & E & Hdr).
  unfold mbind, prog_bind. cbn [Wc.wc_loop pbind mbind prog_bind read]. change Wc.BUFSZ with 512. rewrite E. destruct got as [|b got].
  - specialize (Hend eq_refl). exists e1. rewrite Hend in Hr1, Hrem. split; [apply Hdr; by split|]. by rewrite Hrem.
  - assert (Hlen : 0 <? Z.of_nat (length (b :: got)) = true) by (apply Z.ltb_lt; cbn; lia). rewrite Hlen.
    destruct (IH e1 (foldl Wc.wc_char s (b :: got))) as (e' & Hdr' & E'); [by rewrite Hf1|done|rewrite Hrem, length_app in Hf; cbn in Hf; rewrite Hr1; lia|].
    exists e'. split; [by apply Hdr|]. unfold mbind, prog_bind in E'. by rewrite E', Hrem, foldl_app, Hr1.
Qed.
Lemma wc_message l w' c s : format (lit "%d %d %d %s" ++ nl) [AInt l; AInt w'; AInt c; AStr s] = dec l ++ 32 :: dec w' ++ 32 :: dec c ++ 32 :: s ++ nl.
Proof. reflexivity. Qed.
Lemma wc_counts t : Z.of_nat (length t) < 2 ^ 31 -> let x := foldl Wc.wc_char (Wc.MkCounts 0 0 0 false) t in
  Wc.l x = Z.of_nat (length (lines t)) /\ Wc.w x = Z.of_nat (length (words t)) /\ Wc.c x = Z.of_nat (length t).
Proof.
  intros Hl x. destruct (wc_fold t (Wc.MkCounts 0 0 0 false)) as (E1 & E2 & E3); [cbn; lia..|]. rewrite <- new_words_false. fold x in E1, E2, E3. by rewrite E1, E2, E3.
Qed.
Lemma wc_reports o fuel : Z.of_nat fuel <= 2 ^ 31 -> reports o fuel (fun n _ => always n /\ True) (fun fd s => Wc.wc fuel fd s) wc_report.
Proof.
  intros Hm A f fd d s e Hd Hr Ho Hf _. unfold Wc.wc. rewrite run_bind. edestruct (wc_loop_run (A := A)) as (e' & Hdr & E); [exact Hd|exact Hr|exact Hf|]. rewrite E.
  exists e'. split; [apply (dr_fds _ _ _ Hdr)|]. split; [apply (dr_ns _ _ _ Hdr)|]. destruct (Z.ltb_spec 0 0); [lia|]. destruct (wc_counts (rem e d) ltac:(lia)) as (-> & -> & ->).
  rewrite run_printf, (dr_fds _ _ _ Hdr), Ho, said_prints, leaf_says, wc_message. done.
Qed.
(** For each file of its arguments, or for its input, [wc] prints the number of newlines,
    of words (the pieces between blanks that are not empty) and of bytes, however the kernel
    splits the reads; it stops at a file that cannot be opened. *)
Theorem wc_correct o i fuel name args e : out w (fds e) 1 = Some o -> low (fds e) = Some i -> Forall (fun s => (length (w_data w s) < fuel)%nat) args ->
  (args = [] -> exists d, fd_at (fds e) 0 = Some d /\ readable d = true /\ (length (rem e d) < fuel)%nat) -> Z.of_nat fuel <= 2 ^ 31 ->
  let t := run w (Wc.main fuel (name :: args)) e in leaf t = PExit /\
    said o t = match args with [] => wc_report [] (default [] (rem e <$> fd_at (fds e) 0)) | _ => file_reports (lit "wc: cannot open %s" ++ nl) wc_report args end.
Proof.
  intros Ho Hi Hf Hin Hm t. destruct args as [|a args].
  - destruct (Hin eq_refl) as (d & Hd & Hr & Hl). destruct (stdin_run o fuel _ _ _ d [] e (wc_reports o fuel Hm) (conj I I) Hd Hr Ho Hl) as [E1 E2]. rewrite Hd. split; [exact E2|exact E1].
  - destruct (for_files_run o i fuel always (fun _ => True) (lit "wc: cannot open %s" ++ nl) _ _ (a :: args) (wc_reports o fuel Hm) (or_introl eq_refl) e Ho Hi I) as [E1 E2]; [by eapply Forall_impl; [exact Hf|]|]. split; [exact E2|exact E1].
Qed.

(** ** grep *)
Lemma write_lines_run {A} (f : unit -> prog A) o ls e : out w (fds e) 1 = Some o -> run w (GrepMain.write_lines 1 ls ≫= f) e = writes o ls (run w (f tt) e).
Proof.
  intros Ho. unfold mbind, prog_bind. induction ls as [|x ls IH]; [done|]. cbn [GrepMain.write_lines pbind mbind prog_bind write]. rewrite (out_write w _ 1 o _ _ e eq_refl Ho). cbn [writes fold_right]. by f_equal.
Qed.
Lemma grep_loop_run {A} (f : unit -> prog A) fd d o pattern fuel : forall e b ls, fd_at (fds e) fd = Some d -> readable d = true -> out w (fds e) 1 = Some o -> (length (rem e d) < fuel)%nat ->
  ns e = [] -> Grep.grep_loop (Nat.pred fuel) pattern b (rem e d) [] = Some ls ->
  exists e', fds e' = fds e /\ ns e' = [] /\ said o (run w (GrepMain.grep_loop fuel pattern b fd ≫= f) e) = concat ls ++ said o (run w (f tt) e') /\
    leaf (run w (GrepMain.grep_loop fuel pattern b fd ≫= f) e) = leaf (run w (f tt) e').
Proof.
  induction fuel as [|fuel IH]; intros e b ls Hd Hr Ho Hf Hn Hg; [lia|]. set (k := (Grep.BUFSZ - length b - 1)%nat). set (bs := rem e d) in *.
  set (m := take_some k bs (ns e)). set (e1 := set_rem d (drop m bs) [] e).
  assert (E : run w (GrepMain.grep_loop (S fuel) pattern b fd ≫= f) e =
    run w ((if negb (0 <? Z.of_nat (length (take m bs))) then mret tt else let b := b ++ take m bs in let '(out, rest) := Grep.scan (length b) pattern b in
      _ ← GrepMain.write_lines 1 out; GrepMain.grep_loop fuel pattern (if (length rest =? length b)%nat then [] else rest) fd) ≫= f) e1).
  { unfold mbind, prog_bind. cbn [GrepMain.grep_loop pbind mbind prog_bind read run]. rewrite Hd, Hr, Nat2Z.id, Hn. unfold e1, m, bs, k. by rewrite Hn. }
  rewrite E. assert (Em : m = Nat.min k (length bs)) by (unfold m, take_some; by rewrite Hn). cbn [Nat.pred] in Hg.
  assert (Er : Grep.read k bs [] = (take m bs, drop m bs, [])) by (unfold Grep.read; by rewrite Em).
  destruct (Nat.eqb_spec (length (take m bs)) 0) as [Ez|Ez].
  - assert (ls = []) as -> by (destruct fuel; cbn [Grep.grep_loop] in Hg; fold k in Hg; rewrite Er, Ez in Hg; by injection Hg as <-).
    rewrite Ez. exists e1. done.
  - assert (Hlt : (0 < m <= length bs)%nat) by (rewrite length_take in Ez; lia). destruct fuel as [|fuel']; [lia|].
    cbn [Grep.grep_loop] in Hg. fold k in Hg. rewrite Er, (proj2 (Nat.eqb_neq _ _) Ez) in Hg. destruct (Z.ltb_spec 0 (Z.of_nat (length (take m bs)))); [|lia]. cbn [negb]. cbv zeta in Hg |- *.
    destruct (Grep.scan _ pattern _) as [ls1 rest]. destruct (Grep.grep_loop fuel' pattern _ _ _) as [ls2|] eqn:Eg; [|done]. cbn in Hg. injection Hg as <-.
    rewrite run_bind, (write_lines_run _ o ls1 e1 Ho), said_writes, leaf_writes, concat_app.
    assert (Hrem : rem e1 d = drop m bs) by apply fn_lookup_insert.
    destruct (IH e1 (if (length rest =? length (b ++ take m bs))%nat then [] else rest) ls2) as (e' & H1 & H2 & H3 & H4); [done|done|done| |done| |].
    + rewrite Hrem, length_drop. lia.
    + by rewrite Hrem.
    + exists e'. split_and!; [done|done| |done]. by rewrite H3, app_assoc.
Qed.
(** The lines of a text that match. *)
Definition grep_report (pattern t : list Z) : list Z := concat (GrepSpec.matching pattern (GrepSpec.lines t)).
Lemma grep_reports o fuel pattern : reports o fuel (fun n bs => n = [] /\ (GrepSpec.no_nul bs /\ GrepSpec.fit (GrepSpec.lines bs))) (fun fd _ => GrepMain.grep fuel pattern fd) (fun _ => grep_report pattern).
Proof.
  intros A f fd d s e Hd Hr Ho Hf (Hn & Hz & Hfit).
  destruct (grep_loop_run f fd d o pattern fuel e [] (GrepSpec.matching pattern (GrepSpec.lines (rem e d))) Hd Hr Ho Hf Hn) as (e' & H1 & H2 & H3 & H4).
  - by apply (GrepSpec.grep_loop_ok _ _ []); [done|constructor|cbn; lia|lia|].
  - by exists e'.
Qed.
(** [grep] prints the matching lines of the files of its arguments, or of its input. *)
Theorem grep_main_correct o i fuel name pattern args e : out w (fds e) 1 = Some o -> low (fds e) = Some i -> ns e = [] ->
  Forall (fun s => (length (w_data w s) < fuel)%nat /\ GrepSpec.no_nul (w_data w s) /\ GrepSpec.fit (GrepSpec.lines (w_data w s))) args ->
  (args = [] -> exists d, fd_at (fds e) 0 = Some d /\ readable d = true /\ (length (rem e d) < fuel)%nat /\ GrepSpec.no_nul (rem e d) /\ GrepSpec.fit (GrepSpec.lines (rem e d))) ->
  let t := run w (GrepMain.main fuel (name :: pattern :: args)) e in leaf t = PExit /\
    said o t = match args with [] => grep_report pattern (default [] (rem e <$> fd_at (fds e) 0)) | _ => file_reports (lit "grep: cannot open %s" ++ nl) (fun _ => grep_report pattern) args end.
Proof.
  intros Ho Hi Hn Hf Hin t. destruct args as [|a args].
  - destruct (Hin eq_refl) as (d & Hd & Hr & Hl & Hz & Hfit). destruct (stdin_run o fuel _ _ _ d [] e (grep_reports o fuel pattern) (conj Hn (conj Hz Hfit)) Hd Hr Ho Hl) as [E1 E2]. rewrite Hd. split; [exact E2|exact E1].
  - destruct (for_files_run o i fuel (fun n => n = []) _ (lit "grep: cannot open %s" ++ nl) _ _ (a :: args) (grep_reports o fuel pattern) (or_intror eq_refl) e Ho Hi Hn Hf) as [E1 E2]. split; [exact E2|exact E1].
Qed.

(** ** echo *)
Fixpoint echo_out (args : list (list Z)) : list Z :=
  match args with
  | [] => []
  | [s] => s ++ nl
  | s :: args => s ++ [32] ++ echo_out args
  end.
Lemma echo_message s s' : format (lit "%s%s") [AStr s; AStr s'] = s ++ s'.
Proof. transitivity (s ++ (s' ++ [])); [reflexivity|]. by rewrite app_nil_r. Qed.
(** [echo] prints its arguments with a blank between two and a newline at the end. *)
Theorem echo_correct o name args e : out w (fds e) 1 = Some o -> let t := run w (Echo.main (name :: args)) e in said o t = echo_out args /\ leaf t = PExit.
Proof.
  intros Ho. unfold Echo.main. cbn [tail]. induction args as [|s args IH]; [done|]. cbn [Echo.echo_args]. rewrite run_printf, Ho, said_prints, leaf_says, echo_message.
  destruct IH as [-> ->]. split; [|done]. rewrite <- app_assoc. cbn [echo_out]. destruct args; [by rewrite app_nil_r|done].
Qed.

(** ** ls *)
Section ls.
(** What [fstat] says of the file with a name. *)
Variable file_stat : list Z -> option Fs.stat.
Hypothesis Hstat : forall s m id, w_stat w (Opened s m id) = file_stat s.

Definition ls_line (name : list Z) (st : Fs.stat) : list Z :=
  Ls.fmtname name ++ 32 :: dec (Fs.st_type st) ++ 32 :: dec (Fs.st_ino st) ++ 32 :: dec (Fs.st_size st) ++ nl.
(** The records of a directory, and the line for one. *)
Fixpoint records (n : nat) (bs : list Z) : list (list Z) := match n with O => [] | S n => take 16 bs :: records n (drop 16 bs) end.
Definition dirents (bs : list Z) : list (list Z) := records (length bs / 16) bs.
Definition ls_entry (path de : list Z) : list Z :=
  if Ls.de_inum de =? 0 then [] else
  let s := path ++ [47] ++ Ls.cstr (take DIRSIZ (Ls.de_name de)) in
  match (if w_open w s 0 then file_stat s else None) with
  | Some st => ls_line s st
  | None => lit "ls: cannot stat " ++ s ++ nl
  end.
Definition ls_out (path : list Z) : list Z :=
  if negb (w_open w path 0) then lit "ls: cannot open " ++ path ++ nl else
  match file_stat path with
  | None => lit "ls: cannot stat " ++ path ++ nl
  | Some st =>
      if Fs.st_type st =? Ls.T_FILE then ls_line path st
      else if Fs.st_type st =? Ls.T_DIR then
        if (496 <? Z.of_nat (length path)) then lit "ls: path too long" ++ nl else concat (map (ls_entry path) (dirents (w_data w path)))
      else []
  end.

(** [e'] comes after [e]: only new descriptions have been made. *)
Record later (e e' : env) : Prop := MkLater {
  la_fds : fds e' = fds e; la_ns : ns e' = ns e; la_pos : pos e' = pos e; la_made : (made e <= made e')%nat;
  la_rem s m n : (n < made e)%nat -> rem e' (Opened s m (pos e, n)) = rem e (Opened s m (pos e, n))
}.
Lemma later_refl e : later e e.
Proof. by split. Qed.
Lemma show_run {A} (f : unit -> prog A) name st e : run w (Ls.show name st ≫= f) e = says (out w (fds e) 1) (ls_line name st) (run w (f tt) e).
Proof. unfold Ls.show. rewrite run_printf. done. Qed.
Lemma fstat_run {A} (f : option Fs.stat -> prog A) fd e : run w (fstat fd ≫= f) e = run w (f (fd_at (fds e) fd ≫= w_stat w)) e.
Proof. done. Qed.
Lemma stat_message s : format (lit "ls: cannot stat %s" ++ nl) [AStr s] = lit "ls: cannot stat " ++ s ++ nl.
Proof. reflexivity. Qed.
Lemma stat_run {A} (f : option Fs.stat -> prog A) s i e o : low (fds e) = Some i -> exists e', later e e' /\
  said o (run w (stat s ≫= f) e) = said o (run w (f (if w_open w s 0 then file_stat s else None)) e') /\
  leaf (run w (stat s ≫= f) e) = leaf (run w (f (if w_open w s 0 then file_stat s else None)) e').
Proof.
  intros Hi. unfold stat. rewrite run_bind. change Sysfile.O_RDONLY with 0. destruct (w_open w s 0) eqn:Eo.
  - rewrite (run_open s 0 i _ e Eo Hi), said_open, leaf_ev. destruct (Z.ltb_spec (Z.of_nat i) 0); [lia|]. rewrite run_bind, fstat_run, run_bind.
    assert (Ef : fd_at (fds (opened s 0 i e)) (Z.of_nat i) = Some (Opened s 0 (pos e, made e))) by (by apply fd_at_new).
    rewrite (run_close (fds e) i (Opened s 0 (pos e, made e)) _ (opened s 0 i e) Hi eq_refl), Ef. cbn [mbind option_bind]. rewrite Hstat.
    exists (set_fds (fds e) (opened s 0 i e)). split; [|done]. split; [done|done|done|cbn; lia|]. intros s' m n Hn. cbn. rewrite fn_lookup_insert_ne; [done|]. intros [=]. lia.
  - rewrite run_open_fails, said_open, leaf_ev by done. destruct (Z.ltb_spec (-1) 0); [|lia]. exists e. split; [apply later_refl|done].
Qed.
Lemma read_run {A} (k : Z * list Z -> prog A) fd d n e : fd_at (fds e) fd = Some d -> readable d = true -> ns e = [] ->
  exists e1, fds e1 = fds e /\ ns e1 = [] /\ pos e1 = pos e /\ made e1 = made e /\ rem e1 d = drop n (rem e d) /\
    run w (read fd (Z.of_nat n) ≫= k) e = run w (k (Z.of_nat (length (take n (rem e d))), take n (rem e d))) e1.
Proof.
  intros Hd Hr Hn. set (m := Nat.min n (length (rem e d))). exists (set_rem d (drop m (rem e d)) [] e). split_and!; try done.
  - cbn. rewrite fn_lookup_insert. unfold m. destruct (Nat.min_spec n (length (rem e d))) as [[_ ->]|[Hle ->]]; [done|]. by rewrite !drop_ge by lia.
  - unfold mbind, prog_bind. cbn [read pbind run]. rewrite Hd, Hr. unfold take_some. rewrite Hn, Nat2Z.id. cbn [tail]. fold m.
    replace (take m (rem e d)) with (take n (rem e d)); [done|]. unfold m. destruct (Nat.min_spec n (length (rem e d))) as [[_ ->]|[Hle ->]]; [done|]. by rewrite !take_ge by lia.
Qed.
Lemma dirents_cons bs : (16 <= length bs)%nat -> dirents bs = take 16 bs :: dirents (drop 16 bs).
Proof.
  intros Hl. unfold dirents. rewrite length_drop. replace (length bs / 16)%nat with (S ((length bs - 16) / 16)); [done|].
  replace (length bs) with (1 * 16 + (length bs - 16))%nat at 2 by lia. rewrite Nat.div_add_l by lia. done.
Qed.
Lemma ls_loop_run {A} (f : unit -> prog A) fd path s m n o i fuel : forall e, let d := Opened s m (pos e, n) in (n < made e)%nat -> fd_at (fds e) fd = Some d -> readable d = true ->
  out w (fds e) 1 = Some o -> low (fds e) = Some i -> ns e = [] -> (length (rem e d) < fuel)%nat ->
  exists e', fds e' = fds e /\ ns e' = [] /\ said o (run w (Ls.ls_loop fuel fd path ≫= f) e) = concat (map (ls_entry path) (dirents (rem e d))) ++ said o (run w (f tt) e') /\
    leaf (run w (Ls.ls_loop fuel fd path ≫= f) e) = leaf (run w (f tt) e').
Proof.
  induction fuel as [|fuel IH]; intros e d Hm Hd Hr Ho Hi Hn Hf; [lia|]. cbn [Ls.ls_loop]. rewrite run_bind.
  match goal with |- context [run w (read fd _ ≫= ?g) e] => destruct (read_run g fd d sizeof_dirent e Hd Hr Hn) as (e1 & Hf1 & Hn1 & Hp1 & Hm1 & Hr1 & E) end.
  rewrite E. clear E. change sizeof_dirent with 16%nat in *. set (bs := rem e d) in *. rewrite length_take.
  destruct (decide (16 <= length bs)%nat) as [Hl|Hl].
  2: { rewrite (proj2 (Z.eqb_neq _ _)) by lia. exists e1. unfold dirents. rewrite Nat.div_small by lia. done. }
  rewrite (proj2 (Z.eqb_eq _ _)), dirents_cons by lia. cbn [negb map concat]. unfold ls_entry at 1.
  (* the rest of the directory, after what the entry has done *)
  assert (Hrest : forall e2, later e1 e2 -> exists e', fds e' = fds e /\ ns e' = [] /\
    said o (run w (Ls.ls_loop fuel fd path ≫= f) e2) = concat (map (ls_entry path) (dirents (drop 16 bs))) ++ said o (run w (f tt) e') /\
    leaf (run w (Ls.ls_loop fuel fd path ≫= f) e2) = leaf (run w (f tt) e')).
  { intros e2 [L1 L2 L3 L4 L5]. assert (Ed : Opened s m (pos e2, n) = d) by (by rewrite L3, Hp1). specialize (L5 s m n ltac:(lia)). rewrite Hp1 in L5. fold d in L5.
    specialize (IH e2). cbv zeta in IH. rewrite Ed, L1, Hf1, L5, Hr1 in IH. apply IH; [lia|done..|by rewrite L2|rewrite length_drop; lia]. }
  destruct (Ls.de_inum (take 16 bs) =? 0); [apply Hrest, later_refl|]. cbv zeta. set (buf := path ++ _). rewrite !run_bind.
  match goal with |- context [run w (stat buf ≫= ?g) e1] => destruct (stat_run g buf i e1 o ltac:(by rewrite Hf1)) as (e2 & Hla & -> & ->) end.
  destruct (Hrest e2 Hla) as (e' & H1 & H2 & H3 & H4). exists e'. split; [done|]. split; [done|].
  destruct (if w_open w buf 0 then file_stat buf else None) as [st0|]; rewrite run_bind; [rewrite show_run|rewrite run_printf, stat_message]; rewrite (la_fds _ _ Hla), Hf1, Ho, said_prints, leaf_says, H3, H4; (split; [apply app_assoc|done]).
Qed.
Lemma open_message s : format (lit "ls: cannot open %s" ++ nl) [AStr s] = lit "ls: cannot open " ++ s ++ nl.
Proof. reflexivity. Qed.
Lemma ls_run {A} (f : unit -> prog A) path o i fuel e : out w (fds e) 1 = Some o -> out w (fds e) 2 = Some o -> low (fds e) = Some i -> (forall d, is_Some (low (<[i := Some d]> (fds e)))) -> ns e = [] -> (length (w_data w path) < fuel)%nat ->
  exists e', fds e' = fds e /\ ns e' = [] /\ said o (run w (Ls.ls fuel path ≫= f) e) = ls_out path ++ said o (run w (f tt) e') /\ leaf (run w (Ls.ls fuel path ≫= f) e) = leaf (run w (f tt) e').
Proof.
  intros Ho1 Ho2 Hi Hj Hn Hf. unfold Ls.ls, ls_out. rewrite run_bind. destruct (w_open w path 0) eqn:Eo; cbn [negb].
  2: { rewrite run_open_fails, said_open, leaf_ev by done. destruct (Z.ltb_spec (-1) 0); [|lia]. rewrite run_printf, Ho2, said_prints, leaf_says, open_message. by exists e. }
  rewrite (run_open path 0 i _ e Eo Hi), said_open, leaf_ev. destruct (Z.ltb_spec (Z.of_nat i) 0); [lia|]. set (d := Opened path 0 (pos e, made e)). set (e1 := opened path 0 i e).
  assert (Ef : fd_at (fds e1) (Z.of_nat i) = Some d) by (by apply fd_at_new). assert (Ho1' : out w (fds e1) 1 = Some o) by (by apply out_old). assert (Ho2' : out w (fds e1) 2 = Some o) by (by apply out_old).
  assert (Es : w_stat w d = file_stat path) by apply Hstat. assert (Erem : rem e1 d = w_data w path) by apply opened_rem.
  rewrite run_bind, fstat_run, Ef. cbn [mbind option_bind]. rewrite Es.
  (* closing the descriptor at the end *)
  assert (Hend : forall e2, fds e2 = fds e1 -> ns e2 = [] -> exists e', fds e' = fds e /\ ns e' = [] /\ run w ((close (Z.of_nat i) ≫= fun _ => mret tt) ≫= f) e2 = run w (f tt) e').
  { intros e2 Hf2 Hn2. exists (set_fds (fds e) e2). split; [done|]. split; [done|]. by rewrite run_bind, (run_close (fds e) i d _ e2 Hi Hf2). }
  destruct (file_stat path) as [st0|]; rewrite run_bind.
  2: { rewrite run_printf, Ho2', said_prints, leaf_says, stat_message. destruct (Hend e1 eq_refl Hn) as (e' & K1 & K2 & ->). by exists e'. }
  destruct (Fs.st_type st0 =? Ls.T_FILE).
  { rewrite show_run, Ho1', said_prints, leaf_says. destruct (Hend e1 eq_refl Hn) as (e' & K1 & K2 & ->). by exists e'. }
  destruct (Fs.st_type st0 =? Ls.T_DIR); [|destruct (Hend e1 eq_refl Hn) as (e' & K1 & K2 & K3); exists e'; split; [done|]; split; [done|]; by rewrite <- K3].
  change (Z.of_nat DIRSIZ) with 14. destruct (Z.ltb_spec 512 (Z.of_nat (length path) + 1 + 14 + 1)), (Z.ltb_spec 496 (Z.of_nat (length path))); try lia.
  { rewrite run_printf, Ho1', said_prints, leaf_says. destruct (Hend e1 eq_refl Hn) as (e' & K1 & K2 & ->). by exists e'. }
  destruct (Hj d) as [j Hj']. destruct (ls_loop_run (fun _ => (close (Z.of_nat i) ≫= fun _ => mret tt) ≫= f) (Z.of_nat i) path path 0 (made e) o j fuel e1) as (e2 & K1 & K2 & K3 & K4);
    [cbn; lia|done|done|done|done|done|change (length (rem e1 d) < fuel)%nat; by rewrite Erem|].
  change (Opened path 0 (pos e1, made e)) with d in K3. rewrite K3, K4, Erem. destruct (Hend e2 K1 K2) as (e' & K5 & K6 & ->). by exists e'.
Qed.
(** For each argument, or for the current directory, [ls] prints what its name stands for:
    a line for a file, and for a directory a line for each entry that is in use, in their
    order, each with the type, the inode number and the size of the file of that name; or the
    reason why it cannot. *)
Theorem ls_correct o i fuel name args e : out w (fds e) 1 = Some o -> out w (fds e) 2 = Some o -> low (fds e) = Some i -> (forall d, is_Some (low (<[i := Some d]> (fds e)))) ->
  ns e = [] -> Forall (fun s => (length (w_data w s) < fuel)%nat) (lit "." :: args) ->
  let t := run w (Ls.main fuel (name :: args)) e in leaf t = PExit /\ said o t = concat (map ls_out (match args with [] => [lit "."] | _ => args end)).
Proof.
  intros Ho1 Ho2 Hi Hj Hn Hf t. apply Forall_cons in Hf as [Hdot Hf].
  assert (Hargs : forall e', fds e' = fds e -> ns e' = [] -> leaf (run w (Ls.ls_args fuel args) e') = PExit /\ said o (run w (Ls.ls_args fuel args) e') = concat (map ls_out args)).
  { clear t. induction args as [|s args IH]; intros e' Hfe Hne; [done|]. apply Forall_cons in Hf as [Hs Hf]. cbn [Ls.ls_args map concat].
    destruct (ls_run (fun _ => Ls.ls_args fuel args) s o i fuel e') as (e2 & K1 & K2 & -> & ->); [by rewrite Hfe..| |done|done|]; [intros d; rewrite Hfe; apply Hj|].
    destruct (IH Hf e2) as [-> ->]; [by rewrite K1|done|done]. }
  unfold t. destruct args as [|s args]; [|by apply Hargs]. unfold Ls.main. cbn [length Nat.ltb Nat.leb].
  destruct (ls_run (fun _ => exit_ : prog unit) (lit ".") o i fuel e Ho1 Ho2 Hi Hj Hn Hdot) as (e2 & K1 & K2 & -> & ->). rewrite said_exit. split; [done|]. reflexivity.
Qed.
End ls.
End spec.

(** The name that [ls] shows: the last element of the path, filled up with blanks. *)
Definition pad (s : list Z) : list Z := s ++ replicate (DIRSIZ - length s) 32.
Lemma after_slash_none s p : 47 ∉ s -> Ls.after_slash s p = O.
Proof.
  intros Hs. induction p as [|p IH]; cbn [Ls.after_slash]; rewrite bool_decide_eq_false_2; try done; intros Hx; apply Hs; by eapply list_elem_of_lookup_2.
Qed.
Lemma after_slash_last a b k : 47 ∉ b -> Ls.after_slash (a ++ 47 :: b) (length a + k) = S (length a).
Proof.
  intros Hb. induction k as [|k IH].
  - rewrite Nat.add_0_r. assert (E : (a ++ 47 :: b) !! length a = Some 47) by (by rewrite lookup_app_r, Nat.sub_diag by lia).
    destruct (length a); cbn [Ls.after_slash]; by rewrite bool_decide_eq_true_2.
  - rewrite Nat.add_succ_r. cbn [Ls.after_slash]. rewrite bool_decide_eq_false_2; [done|]. rewrite lookup_app_r by lia. replace (S (length a + k) - length a)%nat with (S k) by lia. cbn.
    intros Hx. apply Hb. by eapply list_elem_of_lookup_2.
Qed.
Theorem fmtname_correct a b : 47 ∉ b -> Ls.fmtname b = pad b /\ Ls.fmtname (a ++ 47 :: b) = pad b.
Proof.
  intros Hb. assert (Hp : forall p, (if (DIRSIZ <=? length p)%nat then p else p ++ replicate (DIRSIZ - length p) 32) = pad p).
  { intros p. unfold pad. destruct (Nat.leb_spec DIRSIZ (length p)); [|done]. replace (DIRSIZ - length p)%nat with O by lia. by rewrite app_nil_r. }
  unfold Ls.fmtname. rewrite (after_slash_none b _ Hb), drop_0, Hp. split; [done|]. rewrite length_app, after_slash_last by done.
  replace (a ++ 47 :: b) with ((a ++ [47]) ++ b) by (by rewrite <- app_assoc). replace (S (length a)) with (length (a ++ [47])) by (rewrite length_app; cbn; lia). by rewrite drop_app_length, Hp.
Qed.

(** ** mkdir, rm, kill *)
Section calls.
Variable w : world.
Implicit Types (e : env).
(** The calls for the arguments, up to the first that fails. *)
Fixpoint until_failure (c : list Z -> ucall) (args : list (list Z)) : list (ucall * Z) :=
  match args with
  | [] => []
  | s :: args => (c s, w_call w (c s)) :: if w_call w (c s) <? 0 then [] else until_failure c args
  end.
Lemma run_call {A} (k : Z -> prog A) c e : run w (ucalls c ≫= k) e = PEv (ECall c (w_call w c)) (run w (k (w_call w c)) e).
Proof. done. Qed.
Lemma calls_call c r t : calls (PEv (ECall c r) t) = (c, r) :: calls t.
Proof. done. Qed.
Theorem mkdir_correct name args e : args <> [] -> let t := run w (Small.mkdir_main (name :: args)) e in calls t = until_failure CMkdir args /\ leaf t = PExit.
Proof.
  intros Ha. unfold Small.mkdir_main. destruct args as [|a args]; [done|]. cbn [length Nat.ltb Nat.leb tail]. clear Ha. generalize (a :: args). intros l.
  induction l as [|s l IH]; [done|]. cbn [Small.mkdir_args until_failure]. rewrite run_bind, run_call, calls_call, leaf_ev. destruct (w_call w (CMkdir s) <? 0).
  - by rewrite run_printf, calls_says, leaf_says.
  - destruct IH as [-> ->]. done.
Qed.
Theorem rm_correct name args e : args <> [] -> let t := run w (Small.rm_main (name :: args)) e in calls t = until_failure CUnlink args /\ leaf t = PExit.
Proof.
  intros Ha. unfold Small.rm_main. destruct args as [|a args]; [done|]. cbn [length Nat.ltb Nat.leb tail]. clear Ha. generalize (a :: args). intros l.
  induction l as [|s l IH]; [done|]. cbn [Small.rm_args until_failure]. rewrite run_bind, run_call, calls_call, leaf_ev. destruct (w_call w (CUnlink s) <? 0).
  - by rewrite run_printf, calls_says, leaf_says.
  - destruct IH as [-> ->]. done.
Qed.
Theorem kill_correct name args e : args <> [] -> let t := run w (Small.kill_main (name :: args)) e in
  calls t = map (fun s => (CKill (Small.atoi s), w_call w (CKill (Small.atoi s)))) args /\ leaf t = PExit.
Proof.
  intros Ha. unfold Small.kill_main. destruct args as [|a args]; [done|]. cbn [length Nat.ltb Nat.leb tail]. clear Ha. generalize (a :: args). intros l.
  induction l as [|s l IH]; [done|]. cbn [Small.kill_args map]. rewrite run_call, calls_call, leaf_ev. by destruct IH as [-> ->].
Qed.
End calls.

(** ** init *)
Section init.
Variable w : world.
Implicit Types (e : env).
(** All that runs is the shell, with these descriptors. *)
Definition only_sh (l : list (option desc)) (t : ptree) : Prop := Forall (fun x => x = (lit "sh", [lit "sh"], l)) (execs t).
Lemma wait_loop_run {A} (f : unit -> prog A) l pid fuel : (forall e, fds e = l -> only_sh l (run w (f tt) e)) ->
  forall e, fds e = l -> only_sh l (run w (Init.wait_loop fuel pid ≫= f) e).
Proof.
  intros Hk. induction fuel as [|fuel IH]; intros e He; [constructor|]. cbn [Init.wait_loop]. rewrite run_bind.
  change (only_sh l (run w ((if (0 <=? default (-1) (head (waits e))) && negb (default (-1) (head (waits e)) =? pid) then _ ← printf 1 (lit "zombie!" ++ nl) []; Init.wait_loop fuel pid else mret tt) ≫= f) (waited e))).
  destruct (_ && _); [|by apply Hk]. unfold only_sh. rewrite run_bind, run_printf, execs_says. by apply IH.
Qed.
Lemma run_fork {A} (k : Z -> prog A) e : run w (fork ≫= k) e = match w_fork w (pos e) with Some pid => PFork (run w (k 0) (branch false e)) (run w (k pid) (branch true e)) | None => run w (k (-1)) e end.
Proof. done. Qed.
Lemma run_exec {A} s l (k : Z -> prog A) e : run w (exec s l ≫= k) e = if w_exec w s l then PExec s l (fds e) else run w (k (-1)) e.
Proof. done. Qed.
Lemma init_loop_run l inner fuel : (forall p, default 1 (w_fork w p) > 0) -> forall e, fds e = l -> only_sh l (run w (Init.init_loop fuel inner) e).
Proof.
  intros Hpid. induction fuel as [|fuel IH]; intros e He; [constructor|]. cbn [Init.init_loop]. unfold only_sh. rewrite run_printf, execs_says, run_fork.
  specialize (Hpid (pos e)). destruct (w_fork w (pos e)) as [pid|]; cbn in Hpid.
  - cbn [execs]. apply Forall_app. split.
    + destruct (Z.ltb_spec 0 0); [lia|]. rewrite Z.eqb_refl, run_exec. destruct (w_exec w _ _); [by rewrite <- He; constructor|]. rewrite run_printf, execs_says. constructor.
    + destruct (Z.ltb_spec pid 0); [lia|]. destruct (Z.eqb_spec pid 0); [lia|]. by apply wait_loop_run.
  - destruct (Z.ltb_spec (-1) 0); [|lia]. rewrite run_printf, execs_says. constructor.
Qed.
Definition console : desc := Opened (lit "console") Sysfile.O_RDWR ([], O).
(** Whatever [fork], [exec] and [wait] answer, all that [init] ever runs is the shell, each time
    with the console as its descriptors 0, 1 and 2 and no other descriptor. *)
Theorem init_correct fuel inner e : (forall p, default 1 (w_fork w p) > 0) -> w_open w (lit "console") Sysfile.O_RDWR = true ->
  fds e = replicate NOFILE None -> pos e = [] -> made e = O ->
  only_sh (replicate 3 (Some console) ++ replicate (NOFILE - 3) None) (run w (Init.main fuel inner) e).
Proof.
  intros Hpid Ho Hf Hp Hm. unfold Init.main. rewrite (run_open w _ _ O _ e Ho) by (by rewrite Hf).
  change (only_sh (replicate 3 (Some console) ++ replicate (NOFILE - 3) None) (run w (_ ← dup 0; _ ← dup 0; Init.init_loop fuel inner) (opened w (lit "console") Sysfile.O_RDWR 0 e))).
  set (e1 := opened _ _ _ _ e). assert (E1 : fds e1 = Some console :: replicate 15 None) by (cbn; by rewrite Hf, Hp, Hm).
  assert (Ed : forall e l (k : Z -> prog unit), fds e = l -> fd_at l 0 = Some console -> forall i, low l = Some i -> run w (dup 0 ≫= k) e = run w (k (Z.of_nat i)) (set_fds (<[i := Some console]> l) e)).
  { intros e' l k <- H0 i Hi. unfold mbind, prog_bind. cbn [dup pbind run]. by rewrite H0, Hi. }
  rewrite (Ed e1 _ _ E1 eq_refl 1%nat eq_refl). set (e2 := set_fds _ e1).
  rewrite (Ed e2 (Some console :: Some console :: replicate 14 None) _ eq_refl eq_refl 2%nat eq_refl). by apply init_loop_run.
Qed.
End init.

(** A file with three lines, read three bytes at a time, and one that is not there. *)
Definition demo_world : world := MkWorld (fun s _ => bool_decide (s = [102])) (fun s => if decide (s = [102]) then [97; 98; 32; 99; 10; 10; 9; 100] else [])
  (fun d => match d with Opened [102] _ _ => Some (Fs.MkStat 2 1 7 1 8) | _ => None end) (fun _ => true) (fun _ => true) (fun _ => Some 4) (fun _ _ => true) (fun _ => 0).
Definition demo_env : env := MkEnv (Some (Inherited 0) :: Some (Inherited 0) :: Some (Inherited 0) :: replicate 13 None) [] 0 (fun _ => []) [2; 0; 2]%nat [].
Definition demo_env0 : env := MkEnv (fds demo_env) [] 0 (fun _ => []) [] [].
Definition demo_stat (s : list Z) : option Fs.stat := if decide (s = [102]) then Some (Fs.MkStat 2 1 7 1 8) else None.
Lemma demo_stat_ok s m id : w_stat demo_world (Opened s m id) = demo_stat s.
Proof. unfold demo_stat. cbn. case_decide as Hs; [by subst|]. repeat case_match; by subst. Qed.
Lemma demo_small l : Forall (fun s => (length (w_data demo_world s) < 10)%nat) l.
Proof. apply Forall_forall. intros s _. cbn. case_decide; cbn; lia. Qed.
Lemma wc_correct_witness : said (Inherited 0) (run demo_world (Wc.main 10 [lit "wc"; [102]; [103]]) demo_env) = lit "2 3 8 f" ++ nl ++ lit "wc: cannot open g" ++ nl.
Proof.
  destruct (wc_correct demo_world (Inherited 0) 3 10 (lit "wc") [[102]; [103]] demo_env) as [_ E]; [done|done|apply demo_small|done|done|].
  exact E.
Defined.
Lemma ls_correct_witness : said (Inherited 0) (run demo_world (Ls.main 10 [lit "ls"; [102]; [103]]) demo_env0) = lit "f              2 7 8" ++ nl ++ lit "ls: cannot open g" ++ nl.
Proof.
  destruct (ls_correct demo_world demo_stat demo_stat_ok (Inherited 0) 3 10 (lit "ls") [[102]; [103]] demo_env0) as [_ E]; [done|done|done|intros d; by eexists|done|apply demo_small|].
  exact E.
Defined.
End ProgramSpec.
