(* ===== verification/ShRun.v ===== *)
(** The shell runs commands ([runcmd] and [main] of [sh.c]), as a program of [User.v].

    [runcmd] works on the structures that the parser of [Sh.v] made: [b] is the line buffer
    and [h] the structures, a pointer is an index, and a string is the bytes of the buffer up
    to a zero.  [runcmd] never returns in C; here what follows a call of it is never reached. *)

From S2P Require Import Prelude Params Bytes Sysfile Printf Sh User.

Module ShRun.
Import User Sh.

(** The string at a position of the buffer. *)
Fixpoint cstr (bs : list Z) : list Z :=
  match bs with
  | [] => []
  | x :: bs => if x =? 0 then [] else x :: cstr bs
  end.
Definition string_at (b : list Z) (p : nat) : list Z := cstr (drop p b).

Definition panic {A} (s : list Z) : prog A :=
  _ ← printf 2 (lit "%s" ++ nl) [AStr s];
  exit_.
Definition fork1 : prog Z :=
  pid ← fork;
  if pid =? -1 then panic (lit "fork") else mret pid.

(** Commands point to commands made before them: the index is fuel enough. *)
Fixpoint runcmd (fuel : nat) (b : list Z) (h : list node) (cmd : option nat) : prog unit :=
  match fuel with
  | O => Spin
  | S fuel =>
      match cmd with
      | None => exit_
      | Some cmd =>
          match h !! cmd with
          | None => panic (lit "runcmd")
          | Some (EXEC []) => exit_
          | Some (EXEC (a :: args)) =>
              let argv := map (fun qe => string_at b (fst qe)) (a :: args) in
              _ ← exec (string_at b (fst a)) argv;
              _ ← printf 2 (lit "exec %s failed" ++ nl) [AStr (string_at b (fst a))];
              exit_
          | Some (REDIR c file _ mode fd) =>
              _ ← close fd;
              r ← open (string_at b file) mode;
              if r <? 0 then
                _ ← printf 2 (lit "open %s failed" ++ nl) [AStr (string_at b file)];
                exit_
              else
                _ ← runcmd fuel b h (Some c);
                exit_
          | Some (LIST l r) =>
              pid ← fork1;
              _ ← (if pid =? 0 then runcmd fuel b h (Some l) else mret tt);
              _ ← wait;
              _ ← runcmd fuel b h (Some r);
              exit_
          | Some (PIPE l r) =>
              p ← pipe;
              match p with
              | None => panic (lit "pipe")
              | Some (p0, p1) =>
                  pid ← fork1;
                  _ ← (if pid =? 0 then
                         _ ← close 1;
                         _ ← dup p1;
                         _ ← close p0;
                         _ ← close p1;
                         runcmd fuel b h (Some l)
                       else mret tt);
                  pid ← fork1;
                  _ ← (if pid =? 0 then
                         _ ← close 0;
                         _ ← dup p0;
                         _ ← close p0;
                         _ ← close p1;
                         runcmd fuel b h (Some r)
                       else mret tt);
                  _ ← close p0;
                  _ ← close p1;
                  _ ← wait;
                  _ ← wait;
                  exit_
              end
          | Some (BACK c) =>
              pid ← fork1;
              _ ← (if pid =? 0 then runcmd fuel b h (Some c) else mret tt);
              exit_
          end
      end
  end.

(** [gets] of at most [n] more characters. *)
Fixpoint gets (n : nat) (line : list Z) : prog (list Z) :=
  match n with
  | O => mret line
  | S n =>
      r ← read 0 1;
      match r with
      | (cc, c :: _) => if cc <? 1 then mret line else if (c =? 10) || (c =? 13) then mret (line ++ [c]) else gets n (line ++ [c])
      | (_, []) => mret line
      end
  end.
(** The buffer after [getcmd], and whether there was a line. *)
Definition NBUF : nat := 100.
Definition getcmd : prog (Z * list Z) :=
  _ ← printf 2 (lit "$ ") [];
  line ← gets (NBUF - 1) [];
  let buf := line ++ replicate (NBUF - length line) 0 in
  mret (if (buf !!! 0%nat =? 0) then -1 else 0, buf).

Fixpoint open_console (fuel : nat) : prog unit :=
  match fuel with
  | O => Spin
  | S fuel =>
      fd ← open (lit "console") Sysfile.O_RDWR;
      if 0 <=? fd then
        if 3 <=? fd then
          _ ← close fd;
          mret tt
        else open_console fuel
      else mret tt
  end.
(** [runcmd(parsecmd(buf))] *)
Definition parse_and_run (buf : list Z) : prog unit :=
  match parsecmd (MkSh buf [] 0) with
  | Ret c s => runcmd (S (length (heap s))) (Sh.buf s) (heap s) (Some c)
  | Panic msg => panic (lit msg)
  | Sleep _ _ => Spin
  end.
Fixpoint commands (fuel : nat) : prog unit :=
  match fuel with
  | O => Spin
  | S fuel =>
      r ← getcmd;
      let '(r, buf) := r in
      if negb (0 <=? r) then exit_ else
      if (buf !!! 0%nat =? 99) && (buf !!! 1%nat =? 100) && (buf !!! 2%nat =? 32) then
        let buf := <[Nat.pred (Sh.strlen buf) := 0]> buf in
        r ← ucalls (CChdir (string_at buf 3));
        _ ← (if r <? 0 then printf 2 (lit "cannot cd %s" ++ nl) [AStr (string_at buf 3)] else mret tt);
        commands fuel
      else
        pid ← fork1;
        _ ← (if pid =? 0 then parse_and_run buf else mret tt);
        _ ← wait;
        commands fuel
  end.
Definition main (fuel : nat) : prog unit :=
  _ ← open_console (S NOFILE);
  commands fuel.
End ShRun.
