(* ===== verification/ShRunSpec.v ===== *)
(** What running a command means, and that the shell does it.

    [does] says which processes a command stands for: with which arguments and descriptors
    each program is executed, and where the shell waits.  It speaks of descriptors only as a
    table to be updated; the code gets the same tables by closing descriptors and relying on
    [open] and [dup] to return the lowest free one. *)

From S2P Require Import Prelude Params Bytes Sysfile Printf Sh ShPrint ShLine User ProgramSpec ShRun.

Module ShRunSpec.
Import User Sh ShPrint ShRun.

Section does.
Variable w : world.
Notation fdtab := (list (option desc)) (only parsing).

Definition complain (l : fdtab) (s : list Z) (t : ptree) : ptree := says (out w l 2) s t.
(** Two processes, or the end with a message. *)
Definition forked (l : fdtab) (p : list bool) (child parent : list bool -> ptree) : ptree :=
  match w_fork w p with
  | Some _ => PFork (child (p ++ [false])) (parent (p ++ [true]))
  | None => complain l (lit "fork" ++ nl) PExit
  end.
(** The command [c] in a process with the descriptors [l], at the place [p] of the tree, that
    has made [n] descriptions. *)
Fixpoint does (c : cmd) (l : fdtab) (p : list bool) (n : nat) : ptree :=
  match c with
  | ShPrint.Exec [] => PExit
  | ShPrint.Exec (s :: ws) => if w_exec w s (s :: ws) then PExec s (s :: ws) l else complain l (lit "exec " ++ s ++ lit " failed" ++ nl) PExit
  | Redir c d f =>
      if w_open w f (dir_mode d) then PEv (EOpen f (dir_mode d) true) (does c (<[Z.to_nat (dir_fd d) := Some (Opened f (dir_mode d) (p, n))]> l) p (S n))
      else PEv (EOpen f (dir_mode d) false) (complain l (lit "open " ++ f ++ lit " failed" ++ nl) PExit)
  | ShPrint.Pipe a b =>
      if w_pipe w p then
        forked l p (fun q => does a (<[1%nat := Some (PipeEnd true (p, n))]> l) q 0)
          (fun q => forked l q (fun q => does b (<[0%nat := Some (PipeEnd false (p, n))]> l) q 0) (fun _ => PWait (PWait PExit)))
      else complain l (lit "pipe" ++ nl) PExit
  | Lst a b => forked l p (fun q => does a l q 0) (fun q => PWait (does b l q 0))
  | Back a => forked l p (fun q => does a l q 0) (fun _ => PExit)
  end.

(** The first three descriptors are open, and no others. *)
Definition std (l : fdtab) : Prop := exists a b c, l = Some a :: Some b :: Some c :: replicate 13 None.
Lemma std_insert l i d : std l -> (i < 2)%nat -> std (<[i := Some d]> l).
Proof. intros (a & b & c & ->) Hi. destruct i as [|[|]]; [by exists d, b, c|by exists a, d, c|lia]. Qed.

(** *** The calls of [runcmd] *)
Hypothesis pids : forall p pid, w_fork w p = Some pid -> 0 < pid.

Lemma panic_run {A B} (f : A -> prog B) s e : run w (panic s ≫= f) e = complain (fds e) (s ++ nl) PExit.
Proof.
  unfold panic. rewrite run_bind, run_printf. replace (format (lit "%s" ++ nl) [AStr s]) with (s ++ nl); [done|reflexivity].
Qed.
Lemma fork1_run {A} (k : Z -> prog A) e : run w (fork1 ≫= k) e =
  match w_fork w (pos e) with
  | Some pid => PFork (run w (k 0) (branch false e)) (run w (k pid) (branch true e))
  | None => complain (fds e) (lit "fork" ++ nl) PExit
  end.
Proof.
  unfold fork1. rewrite run_bind, ProgramSpec.run_fork. destruct (w_fork w (pos e)) as [pid|] eqn:Ef.
  - apply pids in Ef. change (0 =? -1) with false. destruct (Z.eqb_spec pid (-1)); [lia|]. done.
  - rewrite Z.eqb_refl. apply panic_run.
Qed.
Lemma fork1_forked {A} (k : Z -> prog A) e child parent :
  run w (k 0) (branch false e) = child (pos e ++ [false]) -> (forall pid, pid <> 0 -> run w (k pid) (branch true e) = parent (pos e ++ [true])) ->
  run w (fork1 ≫= k) e = forked (fds e) (pos e) child parent.
Proof.
  intros Hc Hp. rewrite fork1_run. unfold forked. destruct (w_fork w (pos e)) as [pid|] eqn:Ef; [|done]. rewrite Hc, (Hp pid); [done|]. apply pids in Ef. lia.
Qed.

(** The strings of a command. *)
Lemma cstr_word s rest : forallb wordchar s = true -> cstr (s ++ 0 :: rest) = s.
Proof.
  induction s as [|x s IH]; [done|]. cbn [forallb app cstr]. intros [Hx Hs]%andb_true_iff. destruct (wordchar_inv x Hx) as (Hx0 & _ & _).
  by rewrite (proj2 (Z.eqb_neq x 0) Hx0), IH.
Qed.
Lemma slice_string b q e s : slice [0] b (q, e) s -> string_at b q = s.
Proof.
  intros (-> & Hs & Hb & (t & Ht & ->%list_elem_of_singleton)). unfold string_at. apply is_word_inv in Hs as (x & s' & _ & _ & Hs).
  assert (E : drop q b = s ++ 0 :: drop (S (q + length s)) b).
  { apply list_eq. intros i. rewrite lookup_drop. destruct (decide (i < length s)%nat) as [Hi|Hi].
    - destruct (lookup_lt_is_Some_2 s i Hi) as [y Hy]. by rewrite (Hb i y Hy), lookup_app_l, Hy.
    - rewrite lookup_app_r by lia. destruct (decide (i = length s)) as [->|Hne]; [by rewrite Nat.sub_diag|].
      replace (i - length s)%nat with (S (i - length s - 1)) by lia. change (b !! (q + i)%nat = drop (S (q + length s)) b !! (i - length s - 1)%nat). rewrite lookup_drop. f_equal. lia. }
  rewrite E. by apply cstr_word.
Qed.
Lemma slices_strings b args ws : Forall2 (slice [0] b) args ws -> map (fun qe => string_at b (fst qe)) args = ws.
Proof. induction 1 as [|[q e] s args ws Hs _ IH]; [done|]. cbn [map fst]. by rewrite (slice_string _ _ _ _ Hs), IH. Qed.

Fixpoint depth (c : cmd) : nat :=
  match c with
  | ShPrint.Exec _ => 1
  | Redir c _ _ | Back c => S (depth c)
  | ShPrint.Pipe a b | Lst a b => S (Nat.max (depth a) (depth b))
  end.
Lemma redir_run {A} (m : Z -> prog unit) (k : unit -> prog A) l d f e : fds e = l -> std l ->
  run w ((close (dir_fd d) ≫= fun _ => open f (dir_mode d) ≫= m) ≫= k) e =
    if w_open w f (dir_mode d) then PEv (EOpen f (dir_mode d) true) (run w (m (dir_fd d) ≫= k) (ProgramSpec.opened w f (dir_mode d) (Z.to_nat (dir_fd d)) (set_fds (<[Z.to_nat (dir_fd d) := None]> l) e)))
    else PEv (EOpen f (dir_mode d) false) (run w (m (-1) ≫= k) (set_fds (<[Z.to_nat (dir_fd d) := None]> l) e)).
Proof.
  intros He (x & y & z & ->). unfold mbind, prog_bind. cbn [close open pbind run]. rewrite He. destruct d; cbn -[ProgramSpec.opened]; destruct (w_open w f _); reflexivity.
Qed.
Lemma pipe_run {A} (k : option (Z * Z) -> prog A) l e : fds e = l -> std l ->
  run w (pipe ≫= k) e = if w_pipe w (pos e) then run w (k (Some (3, 4))) (made_one (set_fds (<[4%nat := Some (PipeEnd true (pos e, made e))]> (<[3%nat := Some (PipeEnd false (pos e, made e))]> l)) e)) else run w (k None) e.
Proof. intros He (x & y & z & ->). unfold mbind, prog_bind. cbn [pipe pbind run]. rewrite He. by destruct (w_pipe w (pos e)). Qed.
(** The descriptors of the two sides of a pipe. *)
Definition with_pipe (id : list bool * nat) (l : fdtab) : fdtab := <[4%nat := Some (PipeEnd true id)]> (<[3%nat := Some (PipeEnd false id)]> l).
Lemma writer_run {A} (m : prog unit) (g : unit -> prog A) id l e : fds e = with_pipe id l -> std l ->
  run w ((close 1 ≫= fun _ => dup 4 ≫= fun _ => close 3 ≫= fun _ => close 4 ≫= fun _ => m) ≫= g) e = run w (m ≫= g) (set_fds (<[1%nat := Some (PipeEnd true id)]> l) e).
Proof. intros He (x & y & z & ->). unfold mbind, prog_bind. cbn [close dup pbind run]. rewrite He. reflexivity. Qed.
Lemma reader_run {A} (m : prog unit) (g : unit -> prog A) id l e : fds e = with_pipe id l -> std l ->
  run w ((close 0 ≫= fun _ => dup 3 ≫= fun _ => close 3 ≫= fun _ => close 4 ≫= fun _ => m) ≫= g) e = run w (m ≫= g) (set_fds (<[0%nat := Some (PipeEnd false id)]> l) e).
Proof. intros He (x & y & z & ->). unfold mbind, prog_bind. cbn [close dup pbind run]. rewrite He. reflexivity. Qed.
Lemma shell_end_run {A} (f : unit -> prog A) id l e : fds e = with_pipe id l -> std l ->
  run w ((close 3 ≫= fun _ => close 4 ≫= fun _ => wait ≫= fun _ => wait ≫= fun _ => exit_) ≫= f) e = PWait (PWait PExit).
Proof. intros He (x & y & z & ->). unfold mbind, prog_bind. cbn [close wait pbind run]. rewrite He. reflexivity. Qed.
Lemma mret_run {A B} (a : A) (f : A -> prog B) e : run w (mret a ≫= f) e = run w (f a) e.
Proof. done. Qed.
Lemma wait_run {A} (k : Z -> prog A) e : run w (wait ≫= k) e = PWait (run w (k (default (-1) (head (waits e)))) (waited e)).
Proof. done. Qed.
Lemma out_pipe id l : std l -> out w (with_pipe id l) 2 = out w l 2.
Proof. by intros (x & y & z & ->). Qed.
Lemma forked_pipe id l p child parent : std l -> forked (with_pipe id l) p child parent = forked l p child parent.
Proof. intros Hl. unfold forked, complain. by rewrite out_pipe. Qed.
Lemma exec_message s : format (lit "exec %s failed" ++ nl) [AStr s] = lit "exec " ++ s ++ lit " failed" ++ nl.
Proof. reflexivity. Qed.
Lemma file_message s : format (lit "open %s failed" ++ nl) [AStr s] = lit "open " ++ s ++ lit " failed" ++ nl.
Proof. reflexivity. Qed.
(** [runcmd] of the child, and nothing in the parent. *)
Definition runs (m : prog unit) (l : fdtab) (t : list bool -> nat -> ptree) : Prop :=
  forall A (f : unit -> prog A) e, fds e = l -> run w (m ≫= f) e = t (pos e) (made e).
Section nodes.
Variables (b : list Z) (h : list node) (fuel p : nat) (l : fdtab).
Hypothesis Hl : std l.
Lemma runs_exec ws args : h !! p = Some (EXEC args) -> Forall2 (slice [0] b) args ws -> runs (runcmd (S fuel) b h (Some p)) l (does (ShPrint.Exec ws) l).
Proof.
  intros Hp Hs A k e He. cbn [runcmd does]. rewrite Hp. pose proof (slices_strings _ _ _ Hs) as Ea. destruct Hs as [|[q e'] s args ws Hw Hs]; [done|].
  rewrite Ea. cbn [fst]. rewrite (slice_string _ _ _ _ Hw), run_bind, ProgramSpec.run_exec, He. destruct (w_exec w s _); [done|].
  rewrite run_bind, run_printf, He, exec_message. done.
Qed.
Lemma runs_redir c d f x q e' : h !! p = Some (REDIR x q e' (dir_mode d) (dir_fd d)) -> slice [0] b (q, e') f ->
  (forall l', std l' -> runs (runcmd fuel b h (Some x)) l' (does c l')) -> runs (runcmd (S fuel) b h (Some p)) l (does (Redir c d f) l).
Proof.
  intros Hp Hs IH A k e He. cbn [runcmd does]. rewrite Hp, (slice_string _ _ _ _ Hs), (redir_run _ _ l d f e He Hl). destruct (w_open w f (dir_mode d)); f_equal.
  - assert (Hd : dir_fd d <? 0 = false) by (by destruct d). rewrite Hd, run_bind, (IH (<[Z.to_nat (dir_fd d) := Some (Opened f (dir_mode d) (pos e, made e))]> l)); [done| |].
    + apply std_insert; [done|]. destruct d; cbn; lia.
    + cbn. by rewrite list_insert_insert_eq.
  - destruct (Z.ltb_spec (-1) 0); [|lia]. rewrite run_bind, run_printf, file_message. cbn [fds set_fds]. unfold complain. destruct Hl as (x1 & x2 & x3 & ->). by destruct d.
Qed.
Lemma runs_pipe ca cb x y : h !! p = Some (PIPE x y) -> (forall l', std l' -> runs (runcmd fuel b h (Some x)) l' (does ca l')) ->
  (forall l', std l' -> runs (runcmd fuel b h (Some y)) l' (does cb l')) -> runs (runcmd (S fuel) b h (Some p)) l (does (ShPrint.Pipe ca cb) l).
Proof.
  intros Hp IHa IHb A k e He. cbn [runcmd does]. rewrite Hp, run_bind, (pipe_run _ l e He Hl). destruct (w_pipe w (pos e)); [|rewrite panic_run, He; done].
  set (id := (pos e, made e)). set (e1 := made_one _). rewrite run_bind. assert (E1 : fds e1 = with_pipe id l) by done. rewrite <- (forked_pipe id l (pos e) _ _ Hl). apply (fork1_forked _ e1).
  - rewrite Z.eqb_refl, run_bind, (writer_run _ _ id l (branch false e1) E1 Hl), (IHa _ (std_insert l 1 (PipeEnd true id) Hl ltac:(lia))); done.
  - intros pid Hpid. rewrite (proj2 (Z.eqb_neq _ _) Hpid), run_bind, mret_run, run_bind, <- (forked_pipe id l _ _ _ Hl). apply (fork1_forked _ (branch true e1)).
    + rewrite Z.eqb_refl, run_bind, (reader_run _ _ id l (branch false (branch true e1)) E1 Hl), (IHb _ (std_insert l 0 (PipeEnd false id) Hl ltac:(lia))); done.
    + intros pid' Hp'. rewrite (proj2 (Z.eqb_neq _ _) Hp'), run_bind, mret_run. by apply (shell_end_run k id l).
Qed.
Lemma runs_list ca cb x y : h !! p = Some (LIST x y) -> runs (runcmd fuel b h (Some x)) l (does ca l) -> runs (runcmd fuel b h (Some y)) l (does cb l) ->
  runs (runcmd (S fuel) b h (Some p)) l (does (Lst ca cb) l).
Proof.
  intros Hp IHa IHb A k e He. cbn [runcmd does]. rewrite Hp, run_bind. rewrite <- He at 1. apply fork1_forked.
  - by rewrite Z.eqb_refl, run_bind, IHa.
  - intros pid Hpid. rewrite (proj2 (Z.eqb_neq _ _) Hpid), run_bind, mret_run, run_bind, wait_run, run_bind. by rewrite IHb.
Qed.
Lemma runs_back c x : h !! p = Some (BACK x) -> runs (runcmd fuel b h (Some x)) l (does c l) -> runs (runcmd (S fuel) b h (Some p)) l (does (Back c) l).
Proof.
  intros Hp IH A k e He. cbn [runcmd does]. rewrite Hp, run_bind. rewrite <- He at 1. apply fork1_forked.
  - by rewrite Z.eqb_refl, run_bind, IH.
  - intros pid Hpid. by rewrite (proj2 (Z.eqb_neq _ _) Hpid), run_bind, mret_run.
Qed.
End nodes.
Lemma runcmd_runs b h c : forall fuel p l, (depth c <= fuel)%nat -> repr [0] b h p c -> std l -> runs (runcmd fuel b h (Some p)) l (does c l).
Proof.
  induction c as [ws|c IH d f|ca IHa cb IHb|ca IHa cb IHb|c IH]; intros fuel p l Hf Hr Hl; (destruct fuel as [|fuel]; [cbn in Hf; lia|]); cbn [depth] in Hf; cbn [repr] in Hr.
  - destruct Hr as (args & Hp & Hs). by eapply runs_exec.
  - destruct Hr as (x & q & e' & Hp & Hs & Hr). eapply runs_redir; [done|exact Hp|done|]. intros l' Hl'. by apply IH; [lia|..].
  - destruct Hr as (x & y & Hp & Hra & Hrb). eapply runs_pipe; [done|exact Hp|intros l' Hl'; by apply IHa; [lia|..]|intros l' Hl'; by apply IHb; [lia|..]].
  - destruct Hr as (x & y & Hp & Hra & Hrb). eapply runs_list; [exact Hp|by apply IHa; [lia|..]|by apply IHb; [lia|..]].
  - destruct Hr as (x & Hp & Hr). eapply runs_back; [exact Hp|by apply IH; [lia|..]].
Qed.
Lemma depth_bound b h c : ShSpec.ordered h -> forall p, repr [0] b h p c -> (depth c <= S p)%nat.
Proof.
  intros Ho. induction c as [ws|c IH d f|ca IHa cb IHb|ca IHa cb IHb|c IH]; intros p; cbn [repr depth].
  - lia.
  - intros (x & q & e & Hp & _ & Hr). specialize (IH x Hr). specialize (Ho p _ x Hp ltac:(cbn; set_solver)). lia.
  - intros (x & y & Hp & Hra & Hrb). specialize (IHa x Hra). specialize (IHb y Hrb). pose proof (Ho p _ x Hp ltac:(cbn; set_solver)). pose proof (Ho p _ y Hp ltac:(cbn; set_solver)). lia.
  - intros (x & y & Hp & Hra & Hrb). specialize (IHa x Hra). specialize (IHb y Hrb). pose proof (Ho p _ x Hp ltac:(cbn; set_solver)). pose proof (Ho p _ y Hp ltac:(cbn; set_solver)). lia.
  - intros (x & Hp & Hr). specialize (IH x Hr). specialize (Ho p _ x Hp ltac:(cbn; set_solver)). lia.
Qed.
Lemma parse_and_run_runs c t junk l : printable c = true -> pr 3 c = t ++ [sp] -> std l -> runs (parse_and_run (t ++ 10 :: 0 :: junk)) l (does c l).
Proof.
  intros Hc Ht Hl. unfold parse_and_run. destruct (ShLine.parsecmd_line c t junk Hc Ht) as (p & s & -> & Hr & Ho & Hp). apply runcmd_runs; [|done|done]. pose proof (depth_bound _ _ _ Ho _ Hr). lia.
Qed.

(** *** The lines of a script *)
Inductive item := Cmd (c : cmd) | Cd (dir : list Z).
Definition line (i : item) : list Z :=
  match i with
  | Cmd c => take (length (pr 3 c) - 1) (pr 3 c) ++ [10]
  | Cd s => [99; 100; 32] ++ s ++ [10]
  end.
Definition cd_line (t : list Z) : bool := bool_decide (take 3 t = [99; 100; 32]).
Definition plain (x : Z) : Prop := x <> 0 /\ x <> 10 /\ x <> 13.
Definition typable (i : item) : Prop :=
  (length (line i) < NBUF)%nat /\
  match i with
  | Cmd c => printable c = true /\ pr 3 c <> [] /\ cd_line (pr 3 c) = false
  | Cd s => Forall plain s
  end.
(** What the shell does for the items. *)
Fixpoint session (its : list item) (l : fdtab) (p : list bool) : ptree :=
  complain l (lit "$ ")
    match its with
    | [] => PExit
    | Cmd c :: its => forked l p (fun q => does c l q 0) (fun q => PWait (session its l q))
    | Cd s :: its => let r := w_call w (CChdir s) in
        PEv (ECall (CChdir s) r) (if r <? 0 then complain l (lit "cannot cd " ++ s ++ nl) (session its l p) else session its l p)
    end.

Lemma pr_plain c lv : printable c = true -> Forall plain (pr lv c).
Proof.
  apply pr_chars; [|by repeat (apply Forall_cons; split)]. intros x (H0 & Hw & _)%wordchar_inv. split; [done|]. split; by intros ->.
Qed.
(** The text of a command ends in a blank. *)
Lemma pr_blank c : forall lv, pr lv c = [] \/ exists t, pr lv c = t ++ [sp].
Proof.
  assert (Hpar : forall b t, (exists u, t = u ++ [sp]) -> exists u, paren b t = u ++ [sp]).
  { intros [] t Ht; [|done]. exists ([40; sp] ++ t ++ [41]). unfold paren. by rewrite <- !app_assoc. }
  induction c as [ws|c IH d f|ca IHa cb IHb|ca IHa cb IHb|c IH]; intros lv; cbn [pr].
  - destruct ws as [|s ws _] using rev_ind; [by left|]. right. exists (concat (map (fun w => w ++ [sp]) ws) ++ s). rewrite map_app, concat_app. cbn. by rewrite app_nil_r, app_assoc.
  - right. exists (pr 0 c ++ arrow d ++ [sp] ++ f). by rewrite <- !app_assoc.
  - right. apply Hpar. destruct (IHb 1%nat) as [-> |[t ->]]; [exists (pr 0 ca ++ [124]); by rewrite <- app_assoc|exists (pr 0 ca ++ [124; sp] ++ t); by rewrite <- !app_assoc].
  - right. apply Hpar. destruct (IHb 3%nat) as [-> |[t ->]]; [exists (pr 2 ca ++ [59]); by rewrite <- app_assoc|exists (pr 2 ca ++ [59; sp] ++ t); by rewrite <- !app_assoc].
  - right. apply Hpar. exists (pr 2 c ++ [38]). by rewrite <- app_assoc.
Qed.
Lemma line_cmd c t : pr 3 c = t ++ [sp] -> line (Cmd c) = t ++ [10].
Proof. intros E. cbn [line]. rewrite E, length_app. cbn. replace (length t + 1 - 1)%nat with (length t) by lia. by rewrite take_app_length. Qed.

(** *** Reading a line *)
Lemma read1_run {A} (g : Z * list Z -> prog A) d e : fd_at (fds e) 0 = Some d -> readable d = true ->
  run w (read 0 1 ≫= g) e = run w (g (match rem e d with x :: _ => (1, [x]) | [] => (0, []) end)) (set_rem d (tail (rem e d)) (tail (ns e)) e).
Proof.
  intros Hd Hr. unfold mbind, prog_bind. cbn [read pbind run]. rewrite Hd, Hr. change (Z.to_nat 1) with 1%nat. unfold take_some. destruct (rem e d) as [|x bs]; [by destruct (ns e)|]. by destruct (ns e).
Qed.
Lemma gets_run {A} (k : list Z -> prog A) d t rest : Forall plain t -> forall n ln e, fd_at (fds e) 0 = Some d -> readable d = true -> rem e d = t ++ 10 :: rest -> (length t < n)%nat ->
  exists e', fds e' = fds e /\ pos e' = pos e /\ rem e' d = rest /\ run w (gets n ln ≫= k) e = run w (k (ln ++ t ++ [10])) e'.
Proof.
  induction 1 as [|x t Hx _ IH]; intros n ln e Hd Hr He Hn; (destruct n as [|n]; [cbn in Hn; lia|]); cbn [gets]; rewrite run_bind, (read1_run _ d e Hd Hr), He; cbn [app tail].
  - exists (set_rem d rest (tail (ns e)) e). split_and!; [done|done|apply fn_lookup_insert|done].
  - destruct Hx as (_ & H10 & H13). change (1 <? 1) with false. rewrite (proj2 (Z.eqb_neq _ _) H10), (proj2 (Z.eqb_neq _ _) H13). cbn [orb].
    destruct (IH n (ln ++ [x]) (set_rem d (t ++ 10 :: rest) (tail (ns e)) e) Hd Hr) as (e' & H1 & H2 & H3 & H4); [apply fn_lookup_insert|cbn in Hn; lia|].
    exists e'. split_and!; [done..|]. by rewrite H4, <- app_assoc.
Qed.
Lemma gets_end {A} (k : list Z -> prog A) d n e : fd_at (fds e) 0 = Some d -> readable d = true -> rem e d = [] -> (0 < n)%nat ->
  exists e', fds e' = fds e /\ run w (gets n [] ≫= k) e = run w (k []) e'.
Proof. intros Hd Hr He Hn. destruct n as [|n]; [lia|]. cbn [gets]. rewrite run_bind, (read1_run _ d e Hd Hr), He. by exists (set_rem d [] (tail (ns e)) e). Qed.
Lemma getcmd_run {A} (k : Z * list Z -> prog A) e : run w (getcmd ≫= k) e = complain (fds e) (lit "$ ")
  (run w (gets (NBUF - 1) [] ≫= fun line => let buf := line ++ replicate (NBUF - length line) 0 in k (if (buf !!! 0%nat =? 0) then -1 else 0, buf)) e).
Proof. unfold getcmd. rewrite run_bind, run_printf. change (format (lit "$ ") []) with (lit "$ "). by rewrite run_bind. Qed.
Lemma chdir_run {A} (k : Z -> prog A) c e : run w (ucalls c ≫= k) e = PEv (ECall c (w_call w c)) (run w (k (w_call w c)) e).
Proof. done. Qed.

(** The tests of [main] on a line. *)
Definition is_cd (b : list Z) : bool := (b !!! 0%nat =? 99) && (b !!! 1%nat =? 100) && (b !!! 2%nat =? 32).
Lemma is_cd_line t u : is_cd (t ++ 10 :: 0 :: u) = true -> cd_line t = true.
Proof.
  unfold is_cd, cd_line. destruct t as [|x [|y [|z t]]]; cbn; rewrite ?andb_false_r; try done. rewrite !andb_true_iff, !Z.eqb_eq. intros [[-> ->] ->]. by rewrite bool_decide_eq_true_2.
Qed.
Lemma cd_line_app t u : cd_line t = true -> cd_line (t ++ u) = true.
Proof. unfold cd_line. rewrite !bool_decide_eq_true. intros H. rewrite take_app_le; [done|]. apply (f_equal length) in H. rewrite length_take in H. change (length [99; 100; 32]) with 3%nat in H. lia. Qed.
(** The path of [cd], after the newline has been overwritten. *)
Lemma cd_path s u : Forall plain s -> let b := [99; 100; 32] ++ s ++ 10 :: 0 :: u in string_at (<[Nat.pred (Sh.strlen b) := 0]> b) 3 = s.
Proof.
  intros Hs b. assert (Hz : nonzero ([99; 100; 32] ++ s ++ [10])).
  { apply Forall_app. split; [by repeat constructor|]. apply Forall_app. split; [|by repeat constructor]. eapply Forall_impl; [exact Hs|]. by intros x []. }
  assert (E : Sh.strlen b = (4 + length s)%nat) by (replace b with (([99; 100; 32] ++ s ++ [10]) ++ 0 :: u) by (unfold b; by rewrite <- !app_assoc); rewrite (strlen_text _ _ Hz), !length_app; cbn; lia).
  rewrite E. cbn [Nat.pred Nat.add]. unfold b. rewrite insert_app_r_alt by (cbn; lia). cbn [length]. replace (S (S (S (length s))) - 3)%nat with (length s + 0)%nat by lia. rewrite insert_app_r. cbn [insert list_insert].
  unfold string_at. change (drop 3 ([99; 100; 32] ++ s ++ 0 :: 0 :: u)) with (s ++ 0 :: 0 :: u). clear -Hs. induction Hs as [|x s (Hx & _) _ IH]; [done|]. cbn [app cstr]. by rewrite (proj2 (Z.eqb_neq x 0) Hx), IH.
Qed.
Lemma chdir_message s : format (lit "cannot cd %s" ++ nl) [AStr s] = lit "cannot cd " ++ s ++ nl.
Proof. reflexivity. Qed.
(** What [commands] does with a line that is in its buffer. *)
Lemma buffer_line t : (length t < 99)%nat -> exists u, (t ++ [10]) ++ replicate (NBUF - length (t ++ [10])) 0 = t ++ 10 :: 0 :: u /\ (t ++ 10 :: 0 :: u) !!! 0%nat = hd 10 t.
Proof.
  intros Hl. rewrite length_app. cbn [length]. exists (replicate (NBUF - (length t + 1) - 1) 0). split; [|by destruct t]. rewrite <- app_assoc. cbn [app].
  assert (E : (NBUF - (length t + 1) = S (NBUF - (length t + 1) - 1))%nat) by (unfold NBUF; lia). by rewrite E at 1.
Qed.
Lemma commands_run its l d : std l -> fd_at l 0 = Some d -> readable d = true -> Forall typable its ->
  forall fuel e, fds e = l -> rem e d = concat (map line its) -> (length its < fuel)%nat -> run w (commands fuel) e = session its l (pos e).
Proof.
  intros Hl Hd Hr. induction its as [|i its IH]; intros Ht fuel e He Hin Hf; (destruct fuel as [|fuel]; [cbn in Hf; lia|]); cbn [commands session]; rewrite getcmd_run, He; f_equal.
  - match goal with |- run w (gets _ [] ≫= ?k) e = _ => destruct (gets_end k d (NBUF - 1) e ltac:(by rewrite He) Hr Hin ltac:(unfold NBUF; lia)) as (e' & He' & E) end. rewrite E. done.
  - apply Forall_cons in Ht as [(Hlen & Hi) Ht]. cbn [map concat length] in Hin, Hf. specialize (IH Ht fuel). destruct i as [c|s].
    + destruct Hi as (Hc & Hne & Hcd). destruct (pr_blank c 3) as [? |[t Et]]; [done|]. rewrite (line_cmd c t Et) in Hin, Hlen. rewrite <- app_assoc in Hin. cbn [app] in Hin. rewrite length_app in Hlen. cbn [length] in Hlen. unfold NBUF in Hlen.
      assert (Hp : Forall plain t) by (pose proof (pr_plain c 3 Hc) as H; rewrite Et in H; by apply Forall_app in H as [? _]).
      match goal with |- run w (gets _ [] ≫= ?k) e = _ => destruct (gets_run k d t _ Hp (NBUF - 1) [] e ltac:(by rewrite He) Hr Hin ltac:(unfold NBUF; lia)) as (e' & He' & Hp' & Hr' & E) end. rewrite E. clear E.
      cbn [app]. destruct (buffer_line t ltac:(lia)) as (u & Eb & E0). cbv zeta. rewrite Eb. rewrite E0 at 1.
      assert (Hhd : hd 10 t =? 0 = false) by (destruct Hp as [|x ? (Hx & _) _]; [done|by apply Z.eqb_neq]). rewrite Hhd. change (0 <=? 0) with true. cbn [negb].
      fold (is_cd (t ++ 10 :: 0 :: u)). destruct (is_cd (t ++ 10 :: 0 :: u)) eqn:Ec; [apply is_cd_line in Ec; rewrite Et, (cd_line_app _ _ Ec) in Hcd; done|].
      rewrite He in He'. transitivity (forked (fds e') (pos e') (fun q => does c l q 0) (fun q => PWait (session its l q))); [apply fork1_forked|by rewrite He', Hp'].
      * by rewrite Z.eqb_refl, (parse_and_run_runs c t u l Hc Et Hl).
      * intros pid Hpid. rewrite (proj2 (Z.eqb_neq _ _) Hpid), mret_run, wait_run. f_equal. by rewrite (IH (waited (branch true e'))); [|done|done|lia].
    + cbn [app line length] in Hin, Hlen. rewrite <- !app_assoc in Hin. rewrite length_app in Hlen. cbn [length] in Hlen. unfold NBUF in Hlen.
      assert (Hp : Forall plain ([99; 100; 32] ++ s)) by (apply Forall_app; split; [by repeat constructor|done]).
      match goal with |- run w (gets _ [] ≫= ?k) e = _ => destruct (gets_run k d ([99; 100; 32] ++ s) (concat (map line its)) Hp (NBUF - 1) [] e ltac:(by rewrite He) Hr) as (e' & He' & Hp' & Hr' & E) end; [by rewrite Hin, <- app_assoc|rewrite length_app; cbn [length]; unfold NBUF; lia|].
      rewrite E. clear E. cbv zeta. rewrite app_nil_l. destruct (buffer_line ([99; 100; 32] ++ s) ltac:(rewrite length_app; cbn; lia)) as (u & Eb & E0). rewrite Eb. rewrite E0 at 1. rewrite <- app_assoc.
      change (hd 10 ([99; 100; 32] ++ s)) with 99. change (99 =? 0) with false. change (0 <=? 0) with true. cbn [negb].
      change ((([99; 100; 32] ++ s ++ 10 :: 0 :: u) !!! 0%nat =? 99) && _ && _) with true. cbv iota. rewrite (cd_path s u Hi). change (negb (0 <=? 0)) with false. cbv iota. rewrite chdir_run. f_equal. rewrite He in He'. rewrite <- Hp'.
      destruct (_ <? 0); [rewrite run_printf, He', chdir_message; unfold complain; f_equal|rewrite mret_run]; apply IH; done || lia.
Qed.

(** *** No stray descriptors *)
Definition clean (t : ptree) : Prop := Forall (fun x => std (snd x)) (execs t).
Lemma clean_complain l s t : clean t -> clean (complain l s t).
Proof. unfold clean, complain. by rewrite execs_says. Qed.
Lemma clean_forked l p child parent : (forall q, clean (child q)) -> (forall q, clean (parent q)) -> clean (forked l p child parent).
Proof. intros Hc Hp. unfold forked. destruct (w_fork w p); [|apply clean_complain; constructor]. apply Forall_app. split; [apply Hc|apply Hp]. Qed.
Lemma does_std c : forall l p n, std l -> clean (does c l p n).
Proof.
  induction c as [[|s ws]|c IH d f|ca IHa cb IHb|ca IHa cb IHb|c IH]; intros l p n Hl; cbn [does].
  - constructor.
  - destruct (w_exec w s (s :: ws)); [by repeat constructor|apply clean_complain; constructor].
  - destruct (w_open w f (dir_mode d)); [|apply (clean_complain l); constructor]. apply IH, std_insert; [done|]. destruct d; cbn; lia.
  - destruct (w_pipe w p); [|apply clean_complain; constructor]. apply clean_forked; intros q; [apply IHa, std_insert; [done|lia]|]. apply clean_forked; intros q'; [apply IHb, std_insert; [done|lia]|constructor].
  - apply clean_forked; intros q; [by apply IHa|by apply IHb].
  - apply clean_forked; intros q; [by apply IH|constructor].
Qed.
Lemma session_std its l : std l -> forall p, clean (session its l p).
Proof.
  intros Hl. induction its as [|[c|s] its IH]; intros p; cbn [session]; apply clean_complain.
  - constructor.
  - apply clean_forked; intros q; [by apply does_std|apply IH].
  - change (clean (if w_call w (CChdir s) <? 0 then complain l (lit "cannot cd " ++ s ++ nl) (session its l p) else session its l p)). destruct (_ <? 0); [apply clean_complain|]; apply IH.
Qed.
Lemma console_run {A} (k : unit -> prog A) n fuel e : std (fds e) -> fd_at (fds e) 0 = Some (Inherited n) ->
  exists e', fds e' = fds e /\ pos e' = pos e /\ rem e' (Inherited n) = rem e (Inherited n) /\
    run w (open_console (S fuel) ≫= k) e = PEv (EOpen (lit "console") Sysfile.O_RDWR (w_open w (lit "console") Sysfile.O_RDWR)) (run w (k tt) e').
Proof.
  intros Hl Hd. cbn [open_console]. rewrite run_bind. assert (Hi : low (fds e) = Some 3%nat) by (by destruct Hl as (x & y & z & ->)). destruct (w_open w (lit "console") Sysfile.O_RDWR) eqn:Eo.
  - rewrite (ProgramSpec.run_open w _ _ 3 _ e Eo Hi). change (Z.of_nat 3) with 3. change (0 <=? 3) with true. change (3 <=? 3) with true. cbv iota. rewrite run_bind.
    exists (set_fds (fds e) (ProgramSpec.opened w (lit "console") Sysfile.O_RDWR 3 e)). split_and!; [done|done|by cbn; rewrite fn_lookup_insert_ne|].
    by rewrite (ProgramSpec.run_close w (fds e) 3 _ _ (ProgramSpec.opened w (lit "console") Sysfile.O_RDWR 3 e) Hi eq_refl).
  - rewrite ProgramSpec.run_open_fails by done. by exists e.
Qed.
End does.

(** [a | b > f], [cd d] and [c &] on a system where everything works. *)
Definition demo_world : world := MkWorld (fun _ _ => true) (fun _ => []) (fun _ => None) (fun _ => true) (fun _ => true) (fun _ => Some 7) (fun _ _ => true) (fun _ => 0).
Definition demo_script : list item := [Cmd (ShPrint.Pipe (ShPrint.Exec [[97]]) (Redir (ShPrint.Exec [[98]]) Out [102])); Cd [100]; Cmd (Back (ShPrint.Exec [[99]]))].
Definition demo_fds : list (option desc) := Some (Inherited 0) :: Some (Inherited 0) :: Some (Inherited 0) :: replicate 13 None.
Definition demo_env : env := MkEnv demo_fds [] 0 (fun _ => lit "a | b > f" ++ nl ++ lit "cd d" ++ nl ++ lit "c &" ++ nl) [] [].
Lemma demo_typable : Forall typable demo_script.
Proof. repeat (apply Forall_cons; split); try (split; [vm_compute; lia|done]); [|constructor]. split; [vm_compute; lia|]. by repeat constructor. Qed.
End ShRunSpec.
