(* ===== verification/Startup.v ===== *)
(** Small pieces of the start of the machine: which processor this is ([mycpu], [cpuid] of
    [proc.c]), the call stack of a lock's holder ([getcallerpcs] of [spinlock.c]), the first
    page table ([entrypgdir] of [main.c]), and the serial port at the level of its registers
    ([uart.c]), over which [Console.v] works with the characters sent. *)

From S2P Require Import Prelude Bytes Params CString Kalloc Vm Trap Apic.

Module Startup.
Import Vm.

(** ** [mycpu] *)
(** The identifiers of the processors that [mpinit] found; [id] is [lapicid()] and [ifl] the
    interrupt flag. *)
Fixpoint find_cpu (apicids : list Z) (id : Z) (i : nat) : option nat :=
  match apicids with
  | [] => None
  | a :: l => if a =? id then Some i else find_cpu l id (S i)
  end.
Definition mycpu {S} (apicids : list Z) (id : Z) (ifl : bool) : M S nat :=
  if ifl then panic "mycpu called with interrupts enabled" else
  match find_cpu apicids id 0 with Some i => ret i | None => panic "unknown apicid" end.

Lemma find_cpu_spec l id : forall i, match find_cpu l id i with
  | Some j => (i <= j)%nat /\ l !! (j - i)%nat = Some id /\ forall k, (k < j - i)%nat -> l !! k <> Some id
  | None => id ∉ l
  end.
Proof.
  induction l as [|a l IH]; intros i; cbn [find_cpu]; [apply not_elem_of_nil|]. destruct (Z.eqb_spec a id) as [->|Hne].
  - rewrite Nat.sub_diag. split_and!; [lia|done|intros; lia].
  - specialize (IH (S i)). destruct (find_cpu l id (S i)) as [j|]; [|apply not_elem_of_cons; by split].
    destruct IH as (Hj & Hl & Hk). replace (j - i)%nat with (S (j - S i)) by lia. split_and!; [lia|done|].
    intros [|k] Hlt; cbn; [congruence|]. apply Hk. lia.
Qed.
(** Every processor finds its own record: if the identifiers are different, then on the
    processor [i] the function returns [i]. *)
Lemma mycpu_own {S} (l : list Z) i id (s : S) : NoDup l -> l !! i = Some id -> mycpu l id false s = Ret i s.
Proof.
  intros Hnd Hi. unfold mycpu. pose proof (find_cpu_spec l id 0) as H. destruct (find_cpu l id 0) as [j|].
  - destruct H as (_ & Hj & _). rewrite Nat.sub_0_r in Hj. by rewrite (NoDup_lookup _ _ _ _ Hnd Hj Hi).
  - exfalso. apply H. by eapply list_elem_of_lookup_2.
Qed.

(** ** [getcallerpcs] *)
(** The loop over the frames, from [ebp] on, and the zeros behind them. *)
Fixpoint walk_frames (m : mem) (ebp : Z) (n : nat) : list Z :=
  match n with
  | O => []
  | S n' =>
      if (ebp =? 0) || (ebp <? KERNBASE) || (ebp =? 4294967295) then replicate n 0
      else load32 m (u32 (ebp + 4)) :: walk_frames m (load32 m ebp) n'
  end.
Definition getcallerpcs (m : mem) (v : Z) : list Z := walk_frames m (u32 (v - 8)) 10.

(** A stack of frames at the addresses [l], ended by a frame pointer outside the kernel. *)
Fixpoint frames (m : mem) (ebp : Z) (l : list (Z * Z)) : Prop :=
  match l with
  | [] => ebp < KERNBASE
  | (a, pc) :: l => ebp = a /\ KERNBASE <= a < 4294967295 - 4 /\ load32 m (a + 4) = pc /\ frames m (load32 m a) l
  end.
Lemma walk_frames_ok m n : forall ebp l, frames m ebp l -> walk_frames m ebp n = take n (map snd l ++ replicate n 0).
Proof.
  induction n as [|n IH]; intros ebp l H; [done|]. cbn [walk_frames]. unfold KERNBASE in *. destruct l as [|[a pc] l].
  - cbn [frames] in H. unfold KERNBASE in H. destruct (Z.ltb_spec ebp 2147483648); [|lia]. rewrite orb_true_r. cbn [orb map app].
    by rewrite take_ge by (rewrite length_replicate; lia).
  - destruct H as (-> & Ha & Hpc & Hf). unfold KERNBASE in Ha. destruct (Z.eqb_spec a 0), (Z.ltb_spec a 2147483648), (Z.eqb_spec a 4294967295); try lia.
    cbn [orb]. rewrite u32_id, Hpc by lia. rewrite (IH _ _ Hf). cbn [map app snd take]. f_equal.
    rewrite !take_app, !take_replicate. do 2 f_equal. lia.
Qed.
(** The ten return addresses that [acquire] records are those of the innermost frames, with
    zeros when there are fewer. *)
Lemma getcallerpcs_ok m v l : frames m (u32 (v - 8)) l -> getcallerpcs m v = take 10 (map snd l ++ replicate 10 0).
Proof. apply walk_frames_ok. Qed.

(** ** [entrypgdir] *)
Definition PTE_PS : Z := 128.
Definition PDXSHIFT : Z := 22.
Definition NPDENTRIES : nat := 1024.
Definition entrypgdir : list Z :=
  let big := Z.lor (Z.lor (Z.lor 0 PTE_P) PTE_W) PTE_PS in
  <[Z.to_nat (Z.shiftr KERNBASE PDXSHIFT) := big]> (<[0%nat := big]> (replicate NPDENTRIES 0)).
(** What the processor does with a directory entry for a large page. *)
Definition translate_big (dir : list Z) (va : Z) : option Z :=
  let e := dir !!! Z.to_nat (PDX va) in
  if negb (Z.land e PTE_P =? 0) && negb (Z.land e PTE_PS =? 0) then Some (Z.shiftl (Z.shiftr e 22) 22 + va mod 2 ^ 22) else None.
(** Before the kernel has its own page table, the first four megabytes of memory are at
    address 0 and at [KERNBASE], and nothing else is mapped. *)
Lemma entrypgdir_ok va : 0 <= va < 2 ^ 32 -> translate_big entrypgdir va =
  if va <? 2 ^ 22 then Some va
  else if (KERNBASE <=? va) && (va <? KERNBASE + 2 ^ 22) then Some (va - KERNBASE) else None.
Proof.
  intros Hva. unfold translate_big. assert (Hp : PDX va = va / 2 ^ 22).
  { unfold PDX. rewrite u32_id, Z.shiftr_div_pow2 by lia. change 1023 with (Z.ones 10). rewrite Z.land_ones by lia.
    apply Z.mod_small. split; [apply Z.div_pos; lia|apply Z.div_lt_upper_bound; lia]. }
  rewrite Hp. pose proof (Z.div_mod va (2 ^ 22) ltac:(lia)) as Hd. pose proof (Z.mod_pos_bound va (2 ^ 22) ltac:(lia)) as Hm.
  assert (Hq : 0 <= va / 2 ^ 22 < 1024) by (split; [apply Z.div_pos; lia|apply Z.div_lt_upper_bound; lia]).
  set (q := va / 2 ^ 22) in *. unfold entrypgdir, KERNBASE. change (Z.to_nat (Z.shiftr 2147483648 PDXSHIFT)) with 512%nat. cbv zeta.
  change (Z.lor (Z.lor (Z.lor 0 PTE_P) PTE_W) PTE_PS) with 131.
  destruct (decide (q = 0)) as [E|E]; [|destruct (decide (q = 512)) as [E'|E']].
  - rewrite E. change (Z.to_nat 0) with 0%nat. rewrite list_lookup_total_insert_ne, list_lookup_total_insert_eq by (rewrite ?length_replicate; unfold NPDENTRIES; lia).
    destruct (Z.ltb_spec va (2 ^ 22)); [|lia]. change (Z.shiftl (Z.shiftr 131 22) 22) with 0.
    change (negb (Z.land 131 PTE_P =? 0) && negb (Z.land 131 PTE_PS =? 0)) with true. cbv iota. f_equal. lia.
  - rewrite E'. change (Z.to_nat 512) with 512%nat. rewrite list_lookup_total_insert_eq by (rewrite length_insert, length_replicate; unfold NPDENTRIES; lia).
    destruct (Z.ltb_spec va (2 ^ 22)); [lia|]. destruct (Z.leb_spec 2147483648 va), (Z.ltb_spec va (2147483648 + 2 ^ 22)); try lia. cbn [andb].
    change (Z.shiftl (Z.shiftr 131 22) 22) with 0.
    change (negb (Z.land 131 PTE_P =? 0) && negb (Z.land 131 PTE_PS =? 0)) with true. cbv iota. f_equal. lia.
  - rewrite !list_lookup_total_insert_ne by lia. rewrite lookup_total_replicate_2 by (unfold NPDENTRIES; lia). cbn [Z.land Z.eqb negb andb].
    destruct (Z.ltb_spec va (2 ^ 22)); [lia|]. destruct (Z.leb_spec 2147483648 va), (Z.ltb_spec va (2147483648 + 2 ^ 22)); try lia; done.
Qed.
End Startup.

(** ** The serial port *)
Module Uart.
Import Trap.

Definition COM1 : Z := 1016.
Section uart.
Context {D : Type} `{!Bus D}.
(** [uart]: is there a uart. *)
Record ustate := MkU { uart : Z; hw : D }.
Definition on_hw {A} (m : M D A) : M ustate A := zoom hw (fun d s => MkU (uart s) d) m.

Fixpoint tx_wait (n : nat) : M D unit :=
  match n with
  | O => ret tt
  | S n =>
      v <- pinb (COM1 + 5) ;;
      if Z.land v 32 =? 0 then Cmos.microdelay 10 ;;; tx_wait n else ret tt
  end.
Definition uartputc (c : Z) : M ustate unit :=
  u <- reads uart ;;
  if u =? 0 then ret tt else
  on_hw (tx_wait 128) ;;;
  on_hw (poutb (COM1 + 0) (u8 c)).
Definition uartgetc : M ustate Z :=
  u <- reads uart ;;
  if u =? 0 then ret (-1) else
  v <- on_hw (pinb (COM1 + 5)) ;;
  if Z.land v 1 =? 0 then ret (-1) else
  on_hw (pinb (COM1 + 0)).

Fixpoint puts (l : list Z) : M ustate unit :=
  match l with [] => ret tt | c :: l => uartputc c ;;; puts l end.
(** "xv6..." and a newline. *)
Definition hello : list Z := [120; 118; 54; 46; 46; 46; 10].
Definition uartinit : M ustate unit :=
  on_hw (
    poutb (COM1 + 2) 0 ;;;
    poutb (COM1 + 3) 128 ;;;
    poutb (COM1 + 0) (115200 / 9600) ;;;
    poutb (COM1 + 1) 0 ;;;
    poutb (COM1 + 3) 3 ;;;
    poutb (COM1 + 4) 0 ;;;
    poutb (COM1 + 1) 1) ;;;
  v <- on_hw (pinb (COM1 + 5)) ;;
  if v =? 255 then ret tt else
  modify (fun s => MkU 1 (hw s)) ;;;
  on_hw (pinb (COM1 + 2)) ;;;
  on_hw (pinb (COM1 + 0)) ;;;
  on_hw (Ioapic.ioapicenable IRQ_COM1 0) ;;;
  puts hello.
End uart.
#[global] Arguments ustate : clear implicits.

(** Reading the line status until the transmitter is empty, which takes [n] more reads. *)
Inductive empties {D} `{!Bus D} : nat -> D -> D -> Prop :=
  | empties_now d v d' : pinb (COM1 + 5) d = Ret v d' -> Z.land v 32 <> 0 -> empties 0 d d'
  | empties_later n d v d1 d' : pinb (COM1 + 5) d = Ret v d1 -> Z.land v 32 = 0 -> empties n d1 d' -> empties (S n) d d'.

(** An 8250: [latch] while the divisor can be written, [irq] when it interrupts for received
    characters; what has been [sent] and what has been received and not yet read. *)
Record port := MkPort { latch : bool; irq : bool; sent : list Z; received : list Z }.
Definition port_write (p v : Z) (x : port) : port :=
  if p =? COM1 + 3 then MkPort (Z.testbit v 7) (irq x) (sent x) (received x)
  else if latch x then x
  else if p =? COM1 + 0 then MkPort (latch x) (irq x) (sent x ++ [v]) (received x)
  else if p =? COM1 + 1 then MkPort (latch x) (Z.testbit v 0) (sent x) (received x)
  else x.
Class UartSpec (D : Type) `{!Bus D} := MkUartSpec {
  line : D -> port -> Prop;
  line_write d x p v : line d x -> COM1 <= p < COM1 + 5 -> exists d', poutb p v d = Ret tt d' /\ line d' (port_write p v x);
  line_empties d x : line d x -> exists n d', (n < 128)%nat /\ empties n d d' /\ line d' x;
  line_status d x : line d x -> exists v d', pinb (COM1 + 5) d = Ret v d' /\ v <> 255 /\ (Z.land v 1 =? 0) = bool_decide (received x = []) /\ line d' x;
  line_ident d x : line d x -> exists v d', pinb (COM1 + 2) d = Ret v d' /\ line d' x;
  line_read d x : line d x -> latch x = false -> exists v d', pinb (COM1 + 0) d = Ret v d' /\
    line d' (MkPort false (irq x) (sent x) (tail (received x))) /\ (forall c l, received x = c :: l -> v = c);
  line_mmio d x a v : line d x -> exists d', writel a v d = Ret tt d' /\ line d' x
}.

Section spec.
Context {D : Type} `{!Bus D} `{!UartSpec D}.

Lemma on_hw_run {A} (m : M D A) u d a d' : m d = Ret a d' -> on_hw m (MkU u d) = Ret a (MkU u d').
Proof. intros E. unfold on_hw, zoom. cbn. by rewrite E. Qed.
Lemma tx_wait_ok n k d d' : empties n d d' -> (n < k)%nat -> tx_wait k d = Ret tt d'.
Proof.
  intros H. revert k. induction H as [d v d' E Hv|n d v d1 d' E Hv H IH]; intros [|k] Hk; try lia; cbn [tx_wait]; rewrite (bind_Ret _ _ _ _ _ E).
  - by rewrite (proj2 (Z.eqb_neq _ _) Hv).
  - rewrite Hv. cbn. apply IH. lia.
Qed.
(** A character is sent as it is, behind those that were sent before. *)
Lemma uartputc_ok d x c : line d x -> latch x = false ->
  exists d', uartputc c (MkU 1 d) = Ret tt (MkU 1 d') /\ line d' (MkPort false (irq x) (sent x ++ [u8 c]) (received x)).
Proof.
  intros Hd Hl. destruct (line_empties d x Hd) as (n & d1 & Hn & He & Hd1).
  destruct (line_write d1 x (COM1 + 0) (u8 c) Hd1) as (d2 & E2 & Hd2); [unfold COM1; lia|].
  unfold port_write in Hd2. rewrite Hl in Hd2. exists d2. split; [|exact Hd2].
  unfold uartputc. rewrite bind_reads. cbn [uart Z.eqb]. rewrite (bind_Ret _ _ _ _ _ (on_hw_run _ _ _ _ _ (tx_wait_ok _ _ _ _ He Hn))).
  by apply on_hw_run.
Qed.
Lemma greeting_sent l : forall d x, line d x -> latch x = false ->
  exists d', puts l (MkU 1 d) = Ret tt (MkU 1 d') /\ line d' (MkPort false (irq x) (sent x ++ map u8 l) (received x)).
Proof.
  induction l as [|c l IH]; intros d x Hd Hl; cbn [puts map].
  - exists d. split; [done|]. rewrite app_nil_r. destruct x; cbn in *; by subst.
  - destruct (uartputc_ok d x c Hd Hl) as (d1 & E1 & Hd1). rewrite (bind_Ret _ _ _ _ _ E1).
    destruct (IH d1 _ Hd1 eq_refl) as (d2 & E2 & Hd2). exists d2. split; [done|]. cbn in Hd2. by rewrite <- app_assoc in Hd2.
Qed.
(** A character that has arrived is returned once; without one the result is -1. *)
Lemma uartgetc_ok d x : line d x -> latch x = false ->
  match received x with
  | [] => exists d', uartgetc (MkU 1 d) = Ret (-1) (MkU 1 d') /\ line d' x
  | c :: l => exists d', uartgetc (MkU 1 d) = Ret c (MkU 1 d') /\ line d' (MkPort false (irq x) (sent x) l)
  end.
Proof.
  intros Hd Hl. destruct (line_status d x Hd) as (v & d1 & E1 & _ & Hv & Hd1). unfold uartgetc. rewrite bind_reads. cbn [uart Z.eqb].
  rewrite (bind_Ret _ _ _ _ _ (on_hw_run _ _ _ _ _ E1)), Hv.
  destruct (received x) as [|c l] eqn:Hr.
  - by exists d1.
  - destruct (line_read d1 x Hd1 Hl) as (c' & d2 & E2 & Hd2 & Hc). rewrite Hr in Hd2. specialize (Hc c l Hr) as ->. exists d2. split; [|done].
    by apply on_hw_run.
Qed.

(** [uartinit] sets the speed, leaves the divisor locked and the interrupt for received
    characters on, and sends its greeting. *)
Theorem uartinit_ok d x : line d x -> exists d', uartinit (MkU 0 d) = Ret tt (MkU 1 d') /\
  line d' (MkPort false true (sent x ++ hello) (tail (received x))).
Proof.
  intros Hd. unfold uartinit.
  assert (exists d1, (poutb (COM1 + 2) 0 ;;; poutb (COM1 + 3) 128 ;;; poutb (COM1 + 0) (115200 / 9600) ;;; poutb (COM1 + 1) 0 ;;;
    poutb (COM1 + 3) 3 ;;; poutb (COM1 + 4) 0 ;;; poutb (COM1 + 1) 1) d = Ret tt d1 /\ line d1 (MkPort false true (sent x) (received x))) as (d1 & E1 & Hd1).
  { destruct (line_write d x (COM1 + 2) 0 Hd) as (e1 & F1 & G1); [unfold COM1; lia|]. rewrite (bind_Ret _ _ _ _ _ F1).
    destruct (line_write e1 _ (COM1 + 3) 128 G1) as (e2 & F2 & G2); [unfold COM1; lia|]. rewrite (bind_Ret _ _ _ _ _ F2).
    destruct (line_write e2 _ (COM1 + 0) (115200 / 9600) G2) as (e3 & F3 & G3); [unfold COM1; lia|]. rewrite (bind_Ret _ _ _ _ _ F3).
    destruct (line_write e3 _ (COM1 + 1) 0 G3) as (e4 & F4 & G4); [unfold COM1; lia|]. rewrite (bind_Ret _ _ _ _ _ F4).
    destruct (line_write e4 _ (COM1 + 3) 3 G4) as (e5 & F5 & G5); [unfold COM1; lia|]. rewrite (bind_Ret _ _ _ _ _ F5).
    destruct (line_write e5 _ (COM1 + 4) 0 G5) as (e6 & F6 & G6); [unfold COM1; lia|]. rewrite (bind_Ret _ _ _ _ _ F6).
    destruct (line_write e6 _ (COM1 + 1) 1 G6) as (e7 & F7 & G7); [unfold COM1; lia|]. exists e7. split; [done|].
    destruct x as [[] ? ? ?]; exact G7. }
  rewrite (bind_Ret _ _ _ _ _ (on_hw_run _ _ _ _ _ E1)).
  destruct (line_status d1 _ Hd1) as (v & d2 & E2 & Hv & _ & Hd2). rewrite (bind_Ret _ _ _ _ _ (on_hw_run _ _ _ _ _ E2)).
  rewrite (proj2 (Z.eqb_neq _ _) Hv), bind_modify. cbn [hw].
  destruct (line_ident d2 _ Hd2) as (v3 & d3 & E3 & Hd3). rewrite (bind_Ret _ _ _ _ _ (on_hw_run _ _ _ _ _ E3)).
  destruct (line_read d3 _ Hd3 eq_refl) as (v4 & d4 & E4 & Hd4 & _). rewrite (bind_Ret _ _ _ _ _ (on_hw_run _ _ _ _ _ E4)).
  assert (exists d5, Ioapic.ioapicenable IRQ_COM1 0 d4 = Ret tt d5 /\ line d5 (MkPort false true (sent x) (tail (received x)))) as (d5 & E5 & Hd5).
  { unfold Ioapic.ioapicenable, Ioapic.ioapicwrite.
    destruct (line_mmio d4 _ Ioapic.a_reg (Ioapic.REG_TABLE + 2 * IRQ_COM1) Hd4) as (e1 & F1 & G1).
    destruct (line_mmio e1 _ Ioapic.a_data (T_IRQ0 + IRQ_COM1) G1) as (e2 & F2 & G2).
    destruct (line_mmio e2 _ Ioapic.a_reg (Ioapic.REG_TABLE + 2 * IRQ_COM1 + 1) G2) as (e3 & F3 & G3).
    destruct (line_mmio e3 _ Ioapic.a_data (u32 (Z.shiftl 0 24)) G3) as (e4 & F4 & G4). exists e4. split; [|done].
    erewrite bind_Ret; [|by rewrite (bind_Ret _ _ _ _ _ F1)]. by rewrite (bind_Ret _ _ _ _ _ F3). }
  rewrite (bind_Ret _ _ _ _ _ (on_hw_run _ _ _ _ _ E5)). destruct (greeting_sent hello d5 _ Hd5 eq_refl) as (d6 & E6 & Hd6).
  by exists d6.
Qed.
End spec.
End Uart.
